(* ===== verification/_CoqProject ===== *)
-Q . S2P
Prelude.v
PyExn.v
SmallInt.v
Digits.v
Mpn.v
MpnDiv.v
MpnBits.v
Mpz.v
MpzSpec.v
MpzPow.v
MpzConv.v
ResponseQueue.v
LinkedList.v
MpState.v
MpStateSpec.v
MpTasks.v
MpThms.v
Multipython.v
MultipythonThms.v
MultipythonTasks.v
MultipythonResp.v
Map.v
MapSpec.v
MapOrdered.v
Gc.v
GcSpec.v
GcMark.v
GcSweep.v
GcThms.v
GcAlloc.v
GcHeap.v
GcRealloc.v
GcHeapThms.v
Addressable.v
AddrOps.v
AddrCompose.v
AddrPy.v
AddrSpec.v
AddrRender.v
AddrChain.v
AddrRecompute.v
AddrThms.v
AddrPyThms.v
Artnet.v
AddrWitness.v
ObjSeq.v
ObjList.v
ObjListSpec.v
ObjListOps.v
ObjListEdit.v
ObjListSlice.v
ObjListThms.v
ListSort.v
BinHeap.v
Heapq.v
UTimeq.v
ObjListWitness.v
Scheduler.v
TimeUtils.v
Qstr.v
QstrThms.v
QstrIntern.v
Unicode.v
Vstr.v
Binascii.v
Bytecode.v
Vm.v
VmSafe.v
VmRun.v
VmEffect.v
VmInv.v
VmHandler.v
VmSteps.v
VmUnwind.v
VmSound.v
Generator.v
FunCall.v
FunCallWp.v
FunCallSound.v
VmWitness.v
