(* ===== verification/Prelude.v ===== *)
(** MultiPython: a verification development for the core of the interpreter.

    MultiPython is MicroPython with several interpreter contexts that run as tasks
    of an operating system, on the ESP32.  This library models the parts of it
    whose correctness everything else rests on, in the way the C code computes:
    buffers are lists, unsigned words are integers with their wrap-around written
    out, pointers are keys of stores, and an operation is a function from state to
    state that is [None] where the C code has no defined behaviour: a failed
    assertion, an access outside a buffer, the use of a pointer to memory that was
    freed.  A theorem that an operation returns [Some _] excludes all of these.

    ** Parts

    - Contexts and tasks, [py/mpstate.c], [py/mpstate.h].  [LinkedList] has the
      singly linked lists of all parts, [ResponseQueue] the ring buffer of
      responses of a context, [MpState] the list of contexts, the dynamic memory
      they own, registration and removal of tasks and the hook of a task switch;
      [MpStateSpec] has the invariant [mp_ok]: which contexts are in the list, in
      which order, and which memory belongs to which.  [MpTasks] proves what the
      operations do to it, [MpThms] states the properties.
    - The module [multipython], [ports/esp32/modmultipython.c] with
      [mpstate_spiram.c].  [Multipython] models it on top of [MpState] in a monad
      with Python exceptions; calls of the scheduler are entries of a log.
      [MultipythonThms] is about control of tasks, [MultipythonTasks] about the
      start and the life of a task, [MultipythonResp] about notifications.
    - The garbage collector, [py/gc.c].  [Gc] has the tables of two-bit kinds, mark
      with a bounded stack, sweep, allocation and reallocation; [GcSpec] the
      abstract view (kind of a block, chains), [GcMark] marking as a growing set
      of marks, [GcSweep] the sweep and the finaliser bits, [GcThms] collection,
      [GcAlloc], [GcHeap] and [GcRealloc] the allocator, [GcHeapThms] its
      properties, a small heap and what happens at its end.
    - Integers of any size, [py/mpz.c].  [Digits] has the digits and their value,
      [Mpn], [MpnDiv] and [MpnBits] the operations on digit buffers, [Mpz] and
      [MpzPow] those on objects with all aliasing, [MpzConv] strings, bytes and
      machine integers; each proves its properties with those of [MpzSpec].
    - Small integers, [py/smallint.c]: [SmallInt].
    - Hash tables, ordered maps and sets, [py/map.c]: [Map], with [MapSpec] on
      probing and hash tables, [MapOrdered] on ordered maps and sets.
    - Lists, [py/objlist.c] with [py/sequence.c].  [ObjSeq] has indexes, slices and
      comparison next to what Python means by them, and their agreement;
      [ObjList] the list objects and the arrays of their items as two stores, so
      that aliasing and moved arrays are seen; [ObjListSpec] the lists as a finite
      map to sequences ([lists_ok]), [ObjListOps], [ObjListEdit] and
      [ObjListSlice] what each operation does to the map, [ObjListThms] the
      interface of lists ([run_list_op]) against that of Python ([py_list_op]).
      [ListSort] is about sorting, [ObjListWitness] about small
      lists and the cases the theorems exclude.
    - Heaps and timed queues, [extmod/moduheapq.c] and [extmod/modutimeq.c].
      [BinHeap] has the theory of sifting on lists, [Heapq] the functions on list
      objects, whose comparisons are calls of Python code, [UTimeq] the queue of
      timed entries in one array with the ring of ticks, both with their
      properties; [ObjListWitness] has small heaps.
    - The scheduler of callbacks, [py/scheduler.c]: [Scheduler] has the ring of
      callbacks, the states of the scheduler and the machine of
      interrupts, locks and turns of the interpreter, with its order and progress.
    - The byte code interpreter, [py/vm.c].  [Bytecode] has the instructions and
      their encodings, the formats the loader goes by ([py/bc.c]) and the table of
      source lines; [Vm] every instruction on the array of values and the stack of
      exception blocks, unwinding, the handler of exceptions and the loops of
      [mp_execute_bytecode].  [VmSafe] is a checker of byte code: given the shape of
      both stacks at each instruction it accepts code that fits them.  [VmRun] has the
      footprint of a run, [VmEffect] the instructions that go on with the next one,
      [VmInv] the invariant, [VmHandler] where exceptions go, [VmSteps] and [VmUnwind]
      the other instructions, [VmSound] the theorem.
    - Generators, [py/objgenerator.c]: [Generator].
    - Calls of functions in byte code, [py/bc.c] and [py/objfun.c].  [FunCall] has the
      binding of arguments ([mp_setup_code_state]) in the monad of the interpreter, the
      call ([fun_bc_call]) and the rules of Python for arguments ([call_fits], [param],
      [bound]); [FunCallWp] reasons about programs on the local variables,
      [FunCallSound] shows that the phases follow the rules.  [VmWitness] has small
      runtimes, functions in byte code, and what goes wrong at the edges.
    - Interned strings, [py/qstr.c].  [Qstr] has the pools, the chunks of bytes,
      the chain of pools and the search, [QstrThms] the invariant
      [qstr_ok] and the steps of interning, [QstrIntern] interning as a list of
      strings, the pools of the firmware and sequences of operations with
      collections between them.
    - Characters and strings, [py/unicode.c], [py/objstrunicode.c], [py/vstr.c].
      [Unicode] has UTF-8, the indexing of strings and the view of
      checked bytes as a list of characters; [Vstr] the strings that grow.
    - Binary data as text, [extmod/modubinascii.c] with [extmod/uzlib/crc32.c]:
      [Binascii].
    - Dates, [lib/timeutils/timeutils.c]: [TimeUtils] has the conversions
      and the Gregorian calendar they compute.
    - Addressable LEDs, [ports/esp32/modaddressable*.c].  [Addressable] has
      controllers, fixtures, layers and the store of byte buffers they share;
      [AddrOps] the lists of layers and fixtures and the layout of the output
      block of a controller ([modadd_ctrl_recompute]); [AddrCompose] the composers,
      the encoding for a protocol, composition of a controller and the software
      output; [AddrPy] the functions Python code calls, with their exceptions.
      [AddrSpec] has loads, stores and filled buffers, [AddrRender] the layers of a
      fixture and the protocols, [AddrChain] all fixtures of a controller and their
      places, [AddrRecompute] the layout, [AddrThms] and [AddrPyThms] the
      properties.
    - Art-Net, [ports/esp32/modartnet.c]: [Artnet] has the list of universes and the
      handling of a received packet and what it writes into the layers,
      [AddrWitness] a small chain of LEDs with a universe, and what goes wrong at
      the edges of both parts.

    The functions of the runtime that byte code calls are the class [Runtime] with the
    laws [RuntimeLaws]: the theorems on the interpreter hold for all of them.
    [PyExn] has the monad of the functions that raise Python exceptions: module
    [multipython], lists, heaps, strings and the LEDs are written in it.

    The contexts own memory from [malloc]; the heap of the collector of each task is
    a block of it ([task_heap]).  The collector's roots are the state of the active
    context, an argument here.  Art-Net writes the layers of the LEDs and composes
    them when asked to: its state contains theirs.  [Heapq] works on the lists of
    [ObjList], [Vstr] appends the characters that [Unicode] encodes.  Objects and their hash and equality are parameters
    of the maps ([MpObj] with the laws [MpObjLaws]) and of the notifications.

    ** What the theorems show

    Safety and ownership: removing a task frees its context, state and memory and
    nothing else ([mp_task_remove_correct]); the list of contexts is as before when
    a task has ended, however it ended ([multipython_task_template_correct]); a
    collection keeps exactly what is reachable ([gc_collect_correct]) and every
    operation of the allocator keeps the invariant of the heap ([gc_invariant]), with the guard that the
    end of the heap needs ([gc_safe]): no finaliser on block 1.
    Functional behaviour: each operation on every branch, errors included.
    Refinement: the ring buffer is a FIFO, a hash table a finite map, [mpn_div] the
    floor division of integers, and composing a controller ([addressable_layer_compose])
    the fold of the images of its layers followed by the encoding of each LED, where it
    takes as many bytes as a pixel ([addressable_layer_compose_correct]); lists are the sequences of Python
    ([list_op_refines]), interned strings a list whose places are the ids
    ([qstr_from_strn_refines]), growing strings lists of bytes ([vstr_op_refines]),
    and strings of checked UTF-8 lists of characters ([str_sequence_correct]).
    Code and calls: byte code that the checker accepts never leaves its stacks, whatever
    the runtime returns or raises ([vm_safe]), and a generator with such code can be
    called in any order, goes on with what is sent or thrown, raises what its body raises and ends once ([generator_correct]); a call binds its arguments
    by the rules of Python, or raises an exception ([fun_bc_call_correct]); the loader and the
    interpreter agree on the length of instructions but for one
    ([mp_opcode_format_correct]).
    Ordering and progress: the scheduler is a FIFO of eight callbacks and calls each
    of them ([scheduler_fifo], [scheduler_liveness]); heaps give the smallest item
    first ([heapq_correct], [utimeq_correct]).  Well-formedness: the pools of interned
    strings through any sequence of operations ([qstr_run_well_formed]).
    Round trips: strings and bytes of integers, allocation and release, UTF-8
    ([utf8_roundtrip]), base 64 ([binascii_roundtrip]), dates and seconds
    ([timeutils_roundtrip]).  Bounds: the overflow test of small integers, the
    ranges of machine integers, the layout of the heap, the layout of the output block
    of a controller, whose fixtures never overlap ([modadd_ctrl_recompute_correct]).  Termination: the loops on
    fuel return, so they are never cut short, and sorting ends whatever the
    comparisons return ([list_sort_correct]).

    ** Fuel

    Loops that are not structural get the number of steps they can take: the size of
    the store for a linked list (its nodes are distinct), the number of blocks for
    marking and for the rescans after an overflow (each turn but the last marks a
    block), the four blocks of each table byte for a chain, the length of the table
    for a probe, the digits of the number for conversions and powers, and for the
    bytes that are shifted out the 256 values of their 8-bit index; the items of a
    list for a slice and between the ends of a partition; the positions of a heap
    on the way of an item; the pools of a chain; the characters of a string; and for
    the months of a date one for each 28 days; the 127 blocks that one jump can leave.
    The theorems prove that the loops return a result with it.  The interpreter runs for
    a number of instructions that is an argument, and its theorems are for every number.

    ** Not modelled

    The compiler, most object types and the runtime are large and are not modelled;
    neither are native code, the drivers, the ports' start-up code
    and the vendored libraries.  Of the parts above, floating-point conversions of
    integers, debugging output, locks between threads and the contents of the
    interpreter state other than its lists are left out.  Of the LEDs, the timer, the
    output through SPI, the names of fixtures and the functions that list what a
    controller or a fixture contains are left out, and [modadd_fixture_remove_node],
    which nothing calls.  Of Art-Net, the sockets.  Of lists, printing; equality of items
    ([mp_obj_equal], in [index], [count] and [remove]) is a function that does not raise, other
    comparisons and key functions may raise, and none changes the list it is used on; an iterable is the objects it
    yields.  Of heaps, comparisons that change the list; of the scheduler, tasks that
    run the same interpreter at once, and a keyboard interrupt is one step.  Of interned strings, the listing of all of
    them; their allocations are tried once, and collections run between the operations and not inside an allocation; a block that a growing string leaves behind is not tracked, nor one that is
    appended to itself.  Of strings, printing.  Of byte code, printing;
    of the interpreter, the options that the ESP32 does not set (stackless calls, cached
    lookups); of generators and calls, native code and the check of the depth of C calls
    ([MP_STACK_CHECK]).  A finaliser is an entry of a log and not Python code that runs. *)
From Stdlib Require Export ZArith Lia Bool.
From stdpp Require Export base tactics list numbers gmap option.

#[global] Open Scope Z_scope.

Declare Scope mp_scope.
Delimit Scope mp_scope with mp.

(** ** A state monad whose failure is undefined behaviour or a failed assert

    [M S A] threads a state of type [S].  [None] is the outcome of a failed
    [assert], of an access outside a buffer, or of a dereference of a pointer
    that is not allocated; a theorem that an operation returns [Some _] is a
    theorem that none of these happens. *)
Definition M (S A : Type) : Type := S -> option (A * S).

#[export] Instance M_ret {S} : MRet (M S) := fun A a s => Some (a, s).
#[export] Instance M_bind {S} : MBind (M S) :=
  fun A B f m s => match m s with Some (a, s') => f a s' | None => None end.

Definition mget {S} : M S S := fun s => Some (s, s).
Definition mput {S} (s : S) : M S unit := fun _ => Some (tt, s).
Definition mmodify {S} (f : S -> S) : M S unit := fun s => Some (tt, f s).
Definition mabort {S A} : M S A := fun _ => None.
Definition massert {S} (b : bool) : M S unit := fun s => if b then Some (tt, s) else None.
Definition mlift {S A} (o : option A) : M S A :=
  fun s => match o with Some a => Some (a, s) | None => None end.

Lemma M_bind_Some {S A B} (m : M S A) (f : A -> M S B) s a s' :
  m s = Some (a, s') -> (m ≫= f) s = f a s'.
Proof. intros H. unfold mbind, M_bind. by rewrite H. Qed.

Lemma M_bind_assoc {S A B C} (m : M S A) (f : A -> M S B) (g : B -> M S C) s :
  ((m ≫= f) ≫= g) s = (m ≫= (fun a => f a ≫= g)) s.
Proof. unfold mbind, M_bind. by destruct (m s) as [[a s']|]. Qed.

Lemma M_bind_inv {S A B} (m : M S A) (f : A -> M S B) s r :
  (m ≫= f) s = Some r -> exists a s', m s = Some (a, s') /\ f a s' = Some r.
Proof. unfold mbind, M_bind. destruct (m s) as [[a s']|]; naive_solver. Qed.

(** ** Machine integers

    A [w]-bit unsigned integer is a [Z] in [0, 2^w); [wrap w] is the conversion
    to that type.  A signed one is in [-2^(w-1), 2^(w-1)); [swrap w] is the
    two's complement conversion. *)
Definition wrap (w x : Z) : Z := x mod 2 ^ w.
Definition swrap (w x : Z) : Z := (x + 2 ^ (w - 1)) mod 2 ^ w - 2 ^ (w - 1).

Lemma pow2_pos w : 0 <= w -> 0 < 2 ^ w.
Proof. intros. apply Z.pow_pos_nonneg; lia. Qed.

Lemma pow2_split w : 1 <= w -> 2 ^ w = 2 * 2 ^ (w - 1).
Proof. intros. rewrite <- Z.pow_succ_r by lia. f_equal. lia. Qed.

Lemma wrap_id w x : 0 <= x < 2 ^ w -> wrap w x = x.
Proof. intros. by apply Z.mod_small. Qed.

Lemma wrap_range w x : 0 <= w -> 0 <= wrap w x < 2 ^ w.
Proof. intros. apply Z.mod_pos_bound, pow2_pos; lia. Qed.

Lemma swrap_id w x : 1 <= w -> - 2 ^ (w - 1) <= x < 2 ^ (w - 1) -> swrap w x = x.
Proof.
  intros Hw Hx. unfold swrap. rewrite Z.mod_small; [lia|].
  rewrite (pow2_split w) by lia. lia.
Qed.

Lemma swrap_range w x : 1 <= w -> - 2 ^ (w - 1) <= swrap w x < 2 ^ (w - 1).
Proof.
  intros Hw. unfold swrap.
  pose proof (Z.mod_pos_bound (x + 2 ^ (w - 1)) (2 ^ w) ltac:(apply pow2_pos; lia)).
  rewrite (pow2_split w) in * by lia. lia.
Qed.

(** [swrap] only depends on the residue: conversions through the unsigned
    type of the same width do not change the signed value. *)
Lemma swrap_wrap w x : 0 <= w -> swrap w (wrap w x) = swrap w x.
Proof.
  intros Hw. unfold swrap, wrap. f_equal.
  rewrite Z.add_mod_idemp_l; [done|]. pose proof (pow2_pos w Hw). lia.
Qed.

Lemma wrap_eq_mod w x y k : y = x + k * 2 ^ w -> wrap w y = wrap w x.
Proof. intros ->. unfold wrap. by rewrite Z_mod_plus_full. Qed.

(** The low bits of a shifted word are free: [|] adds what fits there. *)
Lemma lor_shift d s c : 0 <= c < 2 ^ s -> 0 <= s -> Z.lor (Z.shiftl d s) c = d * 2 ^ s + c.
Proof.
  intros Hc Hs. rewrite <- Z.shiftl_mul_pow2 by lia. symmetry. apply Z.add_nocarry_lor.
  apply Z.bits_inj'. intros i Hi. rewrite Z.land_spec, Z.bits_0, Z.shiftl_spec by lia.
  destruct (Z.ltb_spec i s); [by rewrite (Z.testbit_neg_r d) by lia|].
  replace c with (c mod 2 ^ s) by (apply Z.mod_small; lia).
  by rewrite Z.mod_pow2_bits_high, andb_false_r by lia.
Qed.

(** Signed words are equal when the numbers are, up to multiples of the modulus. *)
Lemma swrap_eq_mod w x y k : y = x + k * 2 ^ w -> swrap w y = swrap w x.
Proof. intros ->. unfold swrap. by replace (x + k * 2 ^ w + 2 ^ (w - 1)) with (x + 2 ^ (w - 1) + k * 2 ^ w) by lia; rewrite Z_mod_plus_full. Qed.

Lemma land_ones_wrap w x : 0 <= w -> Z.land x (2 ^ w - 1) = wrap w x.
Proof.
  intros. unfold wrap. rewrite <- Z.land_ones by lia. f_equal.
  rewrite Z.ones_equiv. lia.
Qed.

Lemma lxor_bound w a b : 0 <= w -> 0 <= a < 2 ^ w -> 0 <= b < 2 ^ w -> 0 <= Z.lxor a b < 2 ^ w.
Proof.
  intros Hw Ha Hb. assert (0 <= Z.lxor a b) by (apply Z.lxor_nonneg; lia). split; [done|].
  destruct (Z.eq_dec (Z.lxor a b) 0) as [->|]; [apply pow2_pos; lia|]. apply Z.log2_lt_pow2; [lia|].
  pose proof (Z.log2_lxor a b ltac:(lia) ltac:(lia)).
  destruct (Z.eq_dec a 0) as [->|]; [rewrite Z.lxor_0_l in *; by apply Z.log2_lt_pow2; lia|].
  destruct (Z.eq_dec b 0) as [->|]; [rewrite Z.lxor_0_r in *; by apply Z.log2_lt_pow2; lia|].
  pose proof (proj1 (Z.log2_lt_pow2 a w ltac:(lia)) ltac:(lia)). pose proof (proj1 (Z.log2_lt_pow2 b w ltac:(lia)) ltac:(lia)). lia.
Qed.

(** ** Automation *)

(** Turn boolean comparisons of the context into propositions. *)
Ltac bool_to_prop :=
  repeat match goal with
  | H : (_ && _)%bool = true |- _ => apply andb_true_iff in H; destruct H
  | H : (_ || _)%bool = false |- _ => apply orb_false_iff in H; destruct H
  | H : (_ || _)%bool = true |- _ => apply orb_true_iff in H; destruct H
  | H : (_ && _)%bool = false |- _ => apply andb_false_iff in H; destruct H
  | H : negb _ = true |- _ => apply negb_true_iff in H
  | H : negb _ = false |- _ => apply negb_false_iff in H
  | H : (_ <=? _) = true |- _ => apply Z.leb_le in H
  | H : (_ <=? _) = false |- _ => apply Z.leb_gt in H
  | H : (_ <? _) = true |- _ => apply Z.ltb_lt in H
  | H : (_ <? _) = false |- _ => apply Z.ltb_ge in H
  | H : (_ =? _) = true |- _ => apply Z.eqb_eq in H
  | H : (_ =? _) = false |- _ => apply Z.eqb_neq in H
  | H : (_ <=? _)%nat = true |- _ => apply Nat.leb_le in H
  | H : (_ <=? _)%nat = false |- _ => apply Nat.leb_gt in H
  | H : (_ <? _)%nat = true |- _ => apply Nat.ltb_lt in H
  | H : (_ <? _)%nat = false |- _ => apply Nat.ltb_ge in H
  | H : (_ =? _)%nat = true |- _ => apply Nat.eqb_eq in H
  | H : (_ =? _)%nat = false |- _ => apply Nat.eqb_neq in H
  end.

(** Destruct the condition of an [if] of the goal. *)
Ltac case_if :=
  match goal with
  | |- context [if ?b then _ else _] =>
      lazymatch type of b with bool => let E := fresh "E" in destruct b eqn:E end
  end; bool_to_prop.

(** Step a monadic program whose head is known to succeed. *)
Ltac mstep := erewrite M_bind_Some; [|first [eassumption | reflexivity]]; cbv beta iota.

(** ** Strings of C *)

(** A C string ends at its first zero. *)
Fixpoint c_string (str : list Z) : list Z :=
  match str with [] => [] | c :: str => if c =? 0 then [] else c :: c_string str end.

Lemma c_string_app str : c_string (str ++ [0]) = c_string str.
Proof. induction str as [|c str IH]; [done|]. simpl. by rewrite IH. Qed.

Lemma length_c_string str : (length (c_string str) <= length str)%nat.
Proof. induction str as [|c str IH]; [done|]. cbn [c_string]. destruct (c =? 0); simpl; lia. Qed.

(** ** Lists as buffers *)

(** [overwrite ds buf]: the buffer after [length ds] elements have been
    written from its start.  Elements after those keep their old contents. *)
Definition overwrite {A} (ds buf : list A) : list A := ds ++ drop (length ds) buf.

Lemma length_overwrite {A} (ds buf : list A) :
  (length ds <= length buf)%nat -> length (overwrite ds buf) = length buf.
Proof. intros. unfold overwrite. rewrite length_app, length_drop. lia. Qed.

Lemma take_overwrite {A} (ds buf : list A) n :
  (n <= length ds)%nat -> take n (overwrite ds buf) = take n ds.
Proof. intros. unfold overwrite. by rewrite take_app_le. Qed.

Lemma Forall_mono {A} (P Q : A -> Prop) l :
  (forall x, P x -> Q x) -> Forall P l -> Forall Q l.
Proof. intros HPQ. induction 1; constructor; auto. Qed.

Create HintDb mp discriminated.
Create Rewrite HintDb mp.
#[export] Hint Rewrite @length_app @length_drop @length_take @length_replicate @length_insert
  @length_fmap @length_reverse : mp.
#[export] Hint Resolve pow2_pos wrap_range swrap_range : mp.
