(* ===== verification/PyExn.v ===== *)
(** C functions that Python code calls: state passing with undefined behaviour, as
    in [M], and with Python exceptions.  What was done before an exception stays
    done. *)
From S2P Require Import Prelude.

Inductive exn := OSError (errno : Z) | OSError_msg | TypeError | ValueError | OverflowError | MemoryError | IndexError
  | NotImplementedError | RuntimeError | OtherError (type : nat).
#[export] Instance exn_eq_dec : EqDecision exn.
Proof. solve_decision. Defined.

Inductive res (A : Type) := Ok (a : A) | Raise (e : exn).
Arguments Ok {A} _.
Arguments Raise {A} _.

Definition X (S A : Type) : Type := S -> option (res A * S).

#[export] Instance X_ret {S} : MRet (X S) := fun A a s => Some (Ok a, s).
#[export] Instance X_bind {S} : MBind (X S) := fun A B f m s =>
  match m s with
  | Some (Ok a, s') => f a s'
  | Some (Raise e, s') => Some (Raise e, s')
  | None => None
  end.

Definition mp_raise {S A} (e : exn) : X S A := fun s => Some (Raise e, s).
(** What has an outcome that does not depend on the state. *)
Definition of_res {S A} (r : res A) : X S A := fun s => Some (r, s).
(** A C function that raises nothing. *)
Definition py_do {S A} (m : M S A) : X S A := fun s => '(a, s') ← m s; Some (Ok a, s').

(** ** Running them *)

Section Run.
Context {S A B C : Type}.
Implicit Types (m : X S A) (f : A -> X S B) (s : S).

Lemma X_bind_Ok m f s a s' : m s = Some (Ok a, s') -> (m ≫= f) s = f a s'.
Proof. intros H. unfold mbind, X_bind. by rewrite H. Qed.

Lemma X_bind_Raise m f s e s' : m s = Some (Raise e, s') -> (m ≫= f) s = Some (Raise e, s').
Proof. intros H. unfold mbind, X_bind. by rewrite H. Qed.

Lemma X_bind_None m f s : m s = None -> (m ≫= f) s = None.
Proof. intros H. unfold mbind, X_bind. by rewrite H. Qed.

Lemma X_bind_assoc m f (g : B -> X S C) s : ((m ≫= f) ≫= g) s = (m ≫= (fun a => f a ≫= g)) s.
Proof. unfold mbind, X_bind. by destruct (m s) as [[[] ?]|]. Qed.

Lemma X_bind_do (m : M S A) f s a s' : m s = Some (a, s') -> (py_do m ≫= f) s = f a s'.
Proof. intros H. apply X_bind_Ok. unfold py_do. by rewrite H. Qed.
End Run.

(** The value of an expression with no defined behaviour for [None]. *)
Definition xlift {S A} (o : option A) : X S A := fun s => a ← o; Some (Ok a, s).
