(* ===== verification/SmallInt.v ===== *)
(** Small integers: [py/smallint.c] and the range macros of [py/smallint.h].

    A small integer is stored in a word with one tag bit (object
    representations A and C), so it has [WORD_BITS - 1] bits.  The functions
    below are the arithmetic the runtime does on the unboxed values; all of it
    is on [mp_int_t], a signed [WORD_BITS]-bit integer. *)
From S2P Require Import Prelude.

(** The word size of the machine: 32 for the ESP32 port, 64 for the unix one. *)
Class WordCfg := { WORD_BITS : Z; WORD_BITS_ge : 16 <= WORD_BITS }.

Definition word32 : WordCfg := {| WORD_BITS := 32; WORD_BITS_ge := ltac:(lia) |}.
Definition word64 : WordCfg := {| WORD_BITS := 64; WORD_BITS_ge := ltac:(lia) |}.

Section SmallInt.
Context {wcfg : WordCfg}.

(** [mp_int_t] arithmetic. *)
Definition mp_int (x : Z) : Z := swrap WORD_BITS x.
Definition in_mp_int (x : Z) : Prop := - 2 ^ (WORD_BITS - 1) <= x < 2 ^ (WORD_BITS - 1).
Definition WORD_MSBIT_HIGH : Z := 2 ^ (WORD_BITS - 1).

(** [(mp_int_t)(((mp_int_t)WORD_MSBIT_HIGH) >> 1)] *)
Definition MP_SMALL_INT_MIN : Z := Z.shiftr (mp_int WORD_MSBIT_HIGH) 1.
(** [(mp_int_t)(~(MP_SMALL_INT_MIN))] *)
Definition MP_SMALL_INT_MAX : Z := Z.lnot MP_SMALL_INT_MIN.
(** [(((n) ^ ((n) << 1)) & WORD_MSBIT_HIGH) == 0] *)
Definition MP_SMALL_INT_FITS (n : Z) : bool :=
  Z.land (Z.lxor n (mp_int (Z.shiftl n 1))) WORD_MSBIT_HIGH =? 0.

Definition mp_small_int_mul_overflow (x y : Z) : bool :=
  if 0 <? x then
    if 0 <? y then Z.quot MP_SMALL_INT_MAX y <? x
    else y <? Z.quot MP_SMALL_INT_MIN x
  else
    if 0 <? y then x <? Z.quot MP_SMALL_INT_MIN y
    else negb (x =? 0) && (y <? Z.quot MP_SMALL_INT_MAX x).

Definition mp_small_int_modulo (dividend divisor : Z) : Z :=
  let dividend := Z.rem dividend divisor in
  if ((dividend <? 0) && (0 <? divisor)) || ((0 <? dividend) && (divisor <? 0))
  then mp_int (dividend + divisor)
  else dividend.

Definition mp_small_int_floor_divide (num denom : Z) : Z :=
  let num :=
    if 0 <=? num then
      if denom <? 0 then mp_int (num + (mp_int (- denom) - 1)) else num
    else
      if 0 <=? denom then mp_int (num + (mp_int (- denom) + 1)) else num in
  Z.quot num denom.

Definition is_small_int (x : Z) : Prop := MP_SMALL_INT_MIN <= x <= MP_SMALL_INT_MAX.

Lemma small_int_bounds :
  MP_SMALL_INT_MIN = - 2 ^ (WORD_BITS - 2) /\ MP_SMALL_INT_MAX = 2 ^ (WORD_BITS - 2) - 1
  /\ 2 ^ (WORD_BITS - 1) = 2 * 2 ^ (WORD_BITS - 2) /\ 0 < 2 ^ (WORD_BITS - 2).
Proof.
  pose proof WORD_BITS_ge as Hw.
  assert (H1 : 2 ^ (WORD_BITS - 1) = 2 * 2 ^ (WORD_BITS - 2)).
  { rewrite <- Z.pow_succ_r by lia. f_equal; lia. }
  assert (H2 : 0 < 2 ^ (WORD_BITS - 2)) by (apply pow2_pos; lia).
  assert (Hmin : MP_SMALL_INT_MIN = - 2 ^ (WORD_BITS - 2)).
  { unfold MP_SMALL_INT_MIN, mp_int, WORD_MSBIT_HIGH, swrap.
    replace (2 ^ (WORD_BITS - 1) + 2 ^ (WORD_BITS - 1)) with (1 * 2 ^ WORD_BITS)
      by (rewrite (pow2_split WORD_BITS) by lia; lia).
    rewrite Z.mod_mul by (pose proof (pow2_pos WORD_BITS); lia).
    rewrite Z.shiftr_div_pow2 by lia. change (2 ^ 1) with 2.
    rewrite H1. replace (0 - 2 * 2 ^ (WORD_BITS - 2)) with (- 2 ^ (WORD_BITS - 2) * 2) by lia.
    apply Z.div_mul. lia. }
  split; [done|]. split; [|done].
  unfold MP_SMALL_INT_MAX. rewrite Hmin. unfold Z.lnot. lia.
Qed.

(** Bring the bounds into the context, for [lia]. *)
Ltac small_int :=
  unfold is_small_int, in_mp_int in *;
  try match goal with
  | Hmin : MP_SMALL_INT_MIN = _ |- _ => fail 1
  | _ => destruct small_int_bounds as (Hmin & Hmax & Hdbl & Hpos)
  end.

Lemma mp_int_small x : in_mp_int x -> mp_int x = x.
Proof. intros. apply swrap_id; [pose proof WORD_BITS_ge; lia|done]. Qed.

Lemma mul_overflow_pos_pos x y m : 0 < x -> 0 < y -> 0 <= m -> (Z.quot m y < x <-> m < x * y).
Proof.
  intros Hx Hy Hm. rewrite Z.quot_div_nonneg by lia.
  pose proof (Z.mul_div_le m y Hy). pose proof (Z.mul_succ_div_gt m y Hy). split; nia.
Qed.

Lemma mul_overflow_pos_neg x y m : 0 < x -> y <= 0 -> 0 <= m -> (y < Z.quot (- m) x <-> y * x < - m).
Proof.
  intros Hx Hy Hm. rewrite Z.quot_opp_l by lia. rewrite Z.quot_div_nonneg by lia.
  pose proof (Z.mul_div_le m x Hx). pose proof (Z.mul_succ_div_gt m x Hx). split; nia.
Qed.

Lemma mul_overflow_neg_neg x y m : x < 0 -> y <= 0 -> 0 <= m -> (y < Z.quot m x <-> m < x * y).
Proof.
  intros Hx Hy Hm. replace x with (- - x) at 1 by lia.
  rewrite Z.quot_opp_r by lia. rewrite Z.quot_div_nonneg by lia.
  pose proof (Z.mul_div_le m (- x) ltac:(lia)).
  pose proof (Z.mul_succ_div_gt m (- x) ltac:(lia)). split; nia.
Qed.

(** The overflow test of small-integer multiplication is exact: it
    answers [true] for precisely the pairs of small integers whose product is
    not a small integer (so the runtime falls back to a big integer exactly
    when it must). *)
Theorem mul_overflow_exact x y :
  is_small_int x -> is_small_int y ->
  (mp_small_int_mul_overflow x y = true <-> ~ is_small_int (x * y)).
Proof.
  intros Hx Hy. small_int. unfold mp_small_int_mul_overflow.
  rewrite Hmin, Hmax in *.
  set (m := 2 ^ (WORD_BITS - 2)) in *.
  destruct (Z.ltb_spec 0 x), (Z.ltb_spec 0 y).
  - rewrite Z.ltb_lt, mul_overflow_pos_pos by lia. nia.
  - rewrite Z.ltb_lt, mul_overflow_pos_neg by lia. nia.
  - rewrite Z.ltb_lt, mul_overflow_pos_neg by lia. nia.
  - destruct (Z.eqb_spec x 0) as [->|]; simpl; [split; [done|lia]|].
    rewrite Z.ltb_lt, mul_overflow_neg_neg by lia. nia.
Qed.

(** Bit [WORD_BITS - 1] is the sign bit of an [mp_int_t]. *)
Lemma land_msb_zero a : 0 <= WORD_BITS - 1 ->
  (Z.land a WORD_MSBIT_HIGH =? 0) = negb (Z.testbit a (WORD_BITS - 1)).
Proof.
  intros Hw. unfold WORD_MSBIT_HIGH.
  destruct (Z.testbit a (WORD_BITS - 1)) eqn:E; simpl.
  - apply Z.eqb_neq. intros Hz.
    apply (f_equal (fun z => Z.testbit z (WORD_BITS - 1))) in Hz.
    by rewrite Z.land_spec, E, Z.pow2_bits_true, Z.bits_0 in Hz.
  - apply Z.eqb_eq. apply Z.bits_inj'. intros i Hi.
    rewrite Z.land_spec, Z.bits_0, Z.pow2_bits_eqb by lia.
    destruct (Z.eqb_spec (WORD_BITS - 1) i) as [<-|]; [by rewrite E|by rewrite andb_false_r].
Qed.

Lemma testbit_sign x : in_mp_int x -> Z.testbit x (WORD_BITS - 1) = (x <? 0).
Proof.
  intros Hx. unfold in_mp_int in Hx. pose proof WORD_BITS_ge.
  rewrite Z.testbit_odd, Z.shiftr_div_pow2 by lia.
  destruct (Z.ltb_spec x 0).
  - replace (x / 2 ^ (WORD_BITS - 1)) with (-1); [done|].
    apply (Z.div_unique _ _ _ (x + 2 ^ (WORD_BITS - 1))); lia.
  - by rewrite Z.div_small by lia.
Qed.

Lemma mp_int_range x : in_mp_int (mp_int x).
Proof. pose proof WORD_BITS_ge. apply swrap_range. lia. Qed.

(** Doubling leaves the word exactly for the integers that are not small. *)
Lemma mp_int_double_sign n :
  in_mp_int n -> (mp_int (2 * n) <? 0) = if decide (is_small_int n) then n <? 0 else 0 <=? n.
Proof.
  intros Hn. pose proof WORD_BITS_ge. small_int.
  assert (Hw : 2 ^ WORD_BITS = 4 * 2 ^ (WORD_BITS - 2)).
  { rewrite (pow2_split WORD_BITS), Hdbl by lia. lia. }
  unfold mp_int, swrap. rewrite Hw, Hdbl. set (m := 2 ^ (WORD_BITS - 2)) in *.
  case_decide.
  - rewrite Z.mod_small by lia. destruct (Z.ltb_spec n 0); [apply Z.ltb_lt|apply Z.ltb_ge]; lia.
  - destruct (Z.leb_spec 0 n).
    + replace ((2 * n + 2 * m) mod (4 * m)) with (2 * n - 2 * m); [apply Z.ltb_lt; lia|].
      apply (Z.mod_unique _ _ 1); lia.
    + replace ((2 * n + 2 * m) mod (4 * m)) with (2 * n + 6 * m); [apply Z.ltb_ge; lia|].
      apply (Z.mod_unique _ _ (-1)); lia.
Qed.

(** [MP_SMALL_INT_FITS] decides the small-integer range: the two top bits of
    the word agree exactly for the integers with one bit to spare. *)
Lemma small_int_fits_correct n :
  in_mp_int n -> (MP_SMALL_INT_FITS n = true <-> is_small_int n).
Proof.
  intros Hn. pose proof WORD_BITS_ge. unfold MP_SMALL_INT_FITS.
  rewrite land_msb_zero by lia. rewrite Z.lxor_spec.
  rewrite !testbit_sign by eauto using mp_int_range.
  rewrite Z.shiftl_mul_pow2, (Z.mul_comm n) by lia. change (2 ^ 1) with 2.
  rewrite mp_int_double_sign by done.
  case_decide; destruct (Z.ltb_spec n 0), (Z.leb_spec 0 n); try lia; simpl; naive_solver.
Qed.

(** The remainder and the quotient the runtime computes on small integers
    are Python's: floor division, with the remainder of the divisor's sign, and
    no intermediate result leaves the machine word. *)
Theorem small_int_divmod_floor a b :
  is_small_int a -> is_small_int b -> b <> 0 ->
  mp_small_int_modulo a b = a mod b /\ mp_small_int_floor_divide a b = a / b.
Proof.
  intros Ha Hb Hb0. pose proof WORD_BITS_ge.
  pose proof (Z.quot_rem a b Hb0) as Hq. pose proof (Z.rem_bound_abs a b Hb0) as Hr.
  pose proof (Z.rem_sign_mul a b Hb0) as Hs. small_int. split.
  - unfold mp_small_int_modulo. set (r := Z.rem a b) in *.
    destruct (Z.ltb_spec r 0), (Z.ltb_spec 0 b), (Z.ltb_spec 0 r), (Z.ltb_spec b 0);
      try lia; simpl; rewrite ?mp_int_small by (small_int; lia);
      first [ apply (Z.mod_unique _ _ (Z.quot a b)); lia
            | apply (Z.mod_unique _ _ (Z.quot a b - 1)); lia ].
  - clear Hq Hr Hs. unfold mp_small_int_floor_divide.
    rewrite (mp_int_small (- b)) by (small_int; lia).
    destruct (Z.leb_spec 0 a), (Z.ltb_spec b 0), (Z.leb_spec 0 b); try lia;
      rewrite ?mp_int_small by (small_int; lia).
    + pose proof (Z.quot_rem (a + (- b - 1)) b Hb0).
      pose proof (Z.rem_bound_neg_pos (a + (- b - 1)) b ltac:(lia) ltac:(lia)).
      apply (Z.div_unique _ _ _ (Z.rem (a + (- b - 1)) b + b + 1)); lia.
    + apply Z.quot_div_nonneg; lia.
    + pose proof (Z.quot_rem a b Hb0). pose proof (Z.rem_bound_neg_neg a b ltac:(lia) ltac:(lia)).
      apply (Z.div_unique _ _ _ (Z.rem a b)); lia.
    + pose proof (Z.quot_rem (a + (- b + 1)) b Hb0).
      pose proof (Z.rem_bound_pos_neg (a + (- b + 1)) b ltac:(lia) ltac:(lia)).
      apply (Z.div_unique _ _ _ (Z.rem (a + (- b + 1)) b + b - 1)); lia.
Qed.

End SmallInt.

Lemma mul_overflow_exact_witness :
  @is_small_int word32 32768 /\ (@mp_small_int_mul_overflow word32 32768 32768 = true <-> ~ @is_small_int word32 (32768 * 32768)).
Proof. split; [vm_compute; split; discriminate | apply (@mul_overflow_exact word32); vm_compute; split; discriminate]. Defined.

Lemma small_int_divmod_floor_witness :
  @is_small_int word32 (-7) /\ @mp_small_int_modulo word32 (-7) 2 = (-7) mod 2 /\ @mp_small_int_floor_divide word32 (-7) 2 = (-7) / 2.
Proof. split; [|apply (@small_int_divmod_floor word32)]; try (vm_compute; split; discriminate). discriminate. Defined.
