(* ===== verification/Digits.v ===== *)
(** Digit strings of big integers: the digit types and macros of [py/mpz.h]
    and the head of [py/mpz.c], and the value of a little-endian digit list.

    A digit has [DIG_SIZE] bits ([MPZ_DIG_SIZE]: 16 on a 32-bit machine, 32 on
    a 64-bit one, 8 when chosen by a port), [mpz_dbl_dig_t] has twice as many.
    Memory that [m_renew] hands out beyond the old contents has no specified
    value: it is [junk_dig], an arbitrary function of the digit's index. *)
From S2P Require Import Prelude.

Class MpzCfg := {
  DIG_SIZE : Z;
  DIG_SIZE_cfg : DIG_SIZE = 8 \/ DIG_SIZE = 16 \/ DIG_SIZE = 32;
  junk_dig : nat -> Z }.

Definition mpz16 : MpzCfg := {| DIG_SIZE := 16; DIG_SIZE_cfg := or_intror (or_introl eq_refl);
  junk_dig := fun i => 51966 + Z.of_nat i |}.
Definition mpz32 : MpzCfg := {| DIG_SIZE := 32; DIG_SIZE_cfg := or_intror (or_intror eq_refl);
  junk_dig := fun i => 3735928559 + Z.of_nat i |}.

Section Digits.
Context {cfg : MpzCfg}.

Definition DIG_BASE : Z := Z.shiftl 1 DIG_SIZE.
Definition DIG_MASK : Z := Z.shiftl 1 DIG_SIZE - 1.
Definition DIG_MSB : Z := Z.shiftl 1 (DIG_SIZE - 1).
(** Conversions to [mpz_dig_t], [mpz_dbl_dig_t] and [mpz_dbl_dig_signed_t]. *)
Definition dgt (x : Z) : Z := wrap DIG_SIZE x.
Definition dbl (x : Z) : Z := wrap (2 * DIG_SIZE) x.
Definition sdbl (x : Z) : Z := swrap (2 * DIG_SIZE) x.

Abbreviation B := DIG_BASE.

Lemma DIG_SIZE_ge : 8 <= DIG_SIZE <= 32.
Proof. destruct DIG_SIZE_cfg as [->|[->| ->]]; lia. Qed.

Lemma DIG_BASE_pow : B = 2 ^ DIG_SIZE.
Proof. unfold DIG_BASE. rewrite Z.shiftl_1_l. done. Qed.

Lemma DIG_BASE_ge : 256 <= B.
Proof.
  rewrite DIG_BASE_pow. pose proof DIG_SIZE_ge. change 256 with (2 ^ 8).
  apply Z.pow_le_mono_r; lia.
Qed.

Lemma DIG_BASE_sq : 256 * B <= B * B.
Proof. pose proof DIG_BASE_ge. nia. Qed.

Lemma dig_mul_bound a b : 0 <= a < B -> 0 <= b < B -> 0 <= a * b <= B * B - 2 * B + 1.
Proof. intros. assert (0 <= (B - 1 - a) * b) by nia. assert (0 <= (B - 1 - b) * a) by nia. nia. Qed.

Lemma dbl_pow : 2 ^ (2 * DIG_SIZE) = B * B.
Proof. pose proof DIG_SIZE_ge. rewrite DIG_BASE_pow, <- Z.pow_add_r by lia. f_equal. lia. Qed.

Lemma land_mask x : Z.land x DIG_MASK = x mod B.
Proof.
  pose proof DIG_SIZE_ge. unfold DIG_MASK. rewrite Z.shiftl_1_l, land_ones_wrap by lia.
  unfold wrap. by rewrite DIG_BASE_pow.
Qed.

Lemma shiftr_dig x : Z.shiftr x DIG_SIZE = x / B.
Proof. pose proof DIG_SIZE_ge. rewrite Z.shiftr_div_pow2 by lia. by rewrite DIG_BASE_pow. Qed.

Lemma shiftl_dig x : Z.shiftl x DIG_SIZE = x * B.
Proof. pose proof DIG_SIZE_ge. rewrite Z.shiftl_mul_pow2 by lia. by rewrite DIG_BASE_pow. Qed.

Lemma dgt_mod x : dgt x = x mod B.
Proof. unfold dgt, wrap. by rewrite DIG_BASE_pow. Qed.

Lemma dgt_id x : 0 <= x < B -> dgt x = x.
Proof. intros. rewrite dgt_mod. by apply Z.mod_small. Qed.

Lemma dbl_id x : 0 <= x < B * B -> dbl x = x.
Proof. intros. apply wrap_id. by rewrite dbl_pow. Qed.

Lemma sdbl_id x : - (B * B) <= 2 * x < B * B -> sdbl x = x.
Proof.
  intros. pose proof DIG_SIZE_ge. apply swrap_id; [lia|].
  assert (B * B = 2 * 2 ^ (2 * DIG_SIZE - 1)) by (rewrite <- dbl_pow, pow2_split by lia; lia). lia.
Qed.

Lemma sdbl_dbl x : sdbl (dbl x) = sdbl x.
Proof. pose proof DIG_SIZE_ge. apply swrap_wrap. lia. Qed.

(** A digit next to a number with [DIG_SIZE] low zero bits: [|] is [+]. *)
Lemma lor_dig x d : 0 <= d < B -> Z.lor (x * B) d = x * B + d.
Proof.
  intros Hd. pose proof DIG_SIZE_ge. rewrite DIG_BASE_pow in *. rewrite <- Z.shiftl_mul_pow2 by lia.
  symmetry. apply Z.add_nocarry_lor. apply Z.bits_inj'. intros i Hi.
  rewrite Z.land_spec, Z.bits_0, Z.shiftl_spec by lia.
  destruct (Z.ltb_spec i DIG_SIZE); [by rewrite (Z.testbit_neg_r x) by lia|].
  replace d with (d mod 2 ^ DIG_SIZE) by (apply Z.mod_small; lia).
  by rewrite Z.mod_pow2_bits_high, andb_false_r by lia.
Qed.

Lemma div_dig_range x : 0 <= x < B * B -> 0 <= x / B < B.
Proof.
  intros. pose proof DIG_BASE_ge. split; [apply Z.div_pos; lia|apply Z.div_lt_upper_bound; lia].
Qed.

Lemma mod_dig_range x : 0 <= x mod B < B.
Proof. pose proof DIG_BASE_ge. apply Z.mod_pos_bound. lia. Qed.

(** ** The value of a digit list *)

Fixpoint dval (ds : list Z) : Z :=
  match ds with
  | [] => 0
  | d :: ds => d + B * dval ds
  end.

Definition is_dig (d : Z) : Prop := 0 <= d < B.
Definition digs_ok (ds : list Z) : Prop := Forall is_dig ds.

#[export] Instance is_dig_dec d : Decision (is_dig d).
Proof. unfold is_dig. apply _. Defined.

Lemma dval_app xs ys : dval (xs ++ ys) = dval xs + B ^ Z.of_nat (length xs) * dval ys.
Proof.
  induction xs as [|x xs IH]; [simpl; lia|].
  cbn [dval app length]. rewrite IH, Nat2Z.inj_succ, Z.pow_succ_r by lia. lia.
Qed.

Lemma Bpow_pos n : 0 <= n -> 0 < B ^ n.
Proof. intros. pose proof DIG_BASE_ge. apply Z.pow_pos_nonneg; lia. Qed.

Lemma Bpow_S n : B ^ Z.of_nat (S n) = B * B ^ Z.of_nat n.
Proof. rewrite Nat2Z.inj_succ, Z.pow_succ_r by lia. done. Qed.

Lemma dval_bound ds : digs_ok ds -> 0 <= dval ds < B ^ Z.of_nat (length ds).
Proof.
  pose proof DIG_BASE_ge. induction 1 as [|d ds Hd _ IH]; [simpl; lia|].
  cbn [dval length]. rewrite Bpow_S. unfold is_dig in Hd. nia.
Qed.

Lemma dval_replicate_0 n : dval (replicate n 0) = 0.
Proof. induction n; simpl; lia. Qed.

Lemma dval_snoc ds d : dval (ds ++ [d]) = dval ds + B ^ Z.of_nat (length ds) * d.
Proof. rewrite dval_app. simpl. lia. Qed.

(** Digit lists without leading zeros, the normal form of the big integers. *)
Definition normd (ds : list Z) : Prop := list.last ds <> Some 0.

#[export] Instance normd_dec ds : Decision (normd ds).
Proof. unfold normd. apply _. Defined.

Lemma normd_nonzero ds : digs_ok ds -> normd ds -> ds <> [] -> B ^ (Z.of_nat (length ds) - 1) <= dval ds.
Proof.
  intros Hok Hn. destruct ds as [|d ds _] using rev_ind; [done|intros _].
  apply Forall_app in Hok as [Hok1 Hok2]. apply Forall_cons_1 in Hok2 as [Hok2 _].
  unfold normd in Hn. rewrite last_snoc in Hn. rewrite dval_snoc, length_app.
  pose proof (dval_bound ds Hok1). unfold is_dig in Hok2.
  replace (Z.of_nat (length ds + length [d]) - 1) with (Z.of_nat (length ds)) by (simpl; lia).
  assert (1 <= d) by (assert (d <> 0) by congruence; lia).
  pose proof (Bpow_pos (Z.of_nat (length ds)) ltac:(lia)) as HP.
  pose proof (Z.mul_le_mono_nonneg_l 1 d (B ^ Z.of_nat (length ds)) ltac:(lia) ltac:(lia)). lia.
Qed.

Lemma normd_zero_nil ds : digs_ok ds -> normd ds -> dval ds = 0 -> ds = [].
Proof.
  intros Hok Hn Hv. destruct (decide (ds = [])) as [|Hne]; [done|].
  pose proof (normd_nonzero ds Hok Hn Hne). pose proof (Bpow_pos (Z.of_nat (length ds) - 1)).
  destruct ds; [done|]. simpl length in *. lia.
Qed.

(** Normalised digit lists represent each natural number once. *)
Lemma dval_inj_len xs ys :
  digs_ok xs -> digs_ok ys -> length xs = length ys -> dval xs = dval ys -> xs = ys.
Proof.
  pose proof DIG_BASE_ge.
  intros Hx. revert ys. induction Hx as [|x xs Hx _ IH]; intros [|y ys] Hy Hl Hv; try done.
  apply Forall_cons_1 in Hy as [Hy Hys]. cbn [dval] in Hv. unfold is_dig in *.
  assert (x = y).
  { apply (f_equal (fun z => z mod B)) in Hv.
    by rewrite !(Z.mul_comm B), !Z_mod_plus_full, !Z.mod_small in Hv by lia. }
  subst. f_equal. apply IH; [done|simpl in Hl; lia|nia].
Qed.

Lemma digs_ok_app xs ys : digs_ok (xs ++ ys) <-> digs_ok xs /\ digs_ok ys.
Proof. apply Forall_app. Qed.

Lemma digs_ok_snoc xs d : digs_ok xs -> is_dig d -> digs_ok (xs ++ [d]).
Proof. intros. apply Forall_app; split; [done|]. constructor; [done|constructor]. Qed.

Lemma digs_ok_replicate_0 n : digs_ok (replicate n 0).
Proof. apply Forall_replicate. unfold is_dig. pose proof DIG_BASE_ge. lia. Qed.

Lemma digs_ok_take n ds : digs_ok ds -> digs_ok (take n ds).
Proof. apply Forall_take. Qed.

Lemma digs_ok_reverse ds : digs_ok ds -> digs_ok (reverse ds).
Proof. apply Forall_reverse. Qed.

Lemma is_dig_mod x : is_dig (x mod B).
Proof. apply mod_dig_range. Qed.

End Digits.

#[export] Hint Resolve is_dig_mod digs_ok_snoc digs_ok_replicate_0 digs_ok_take digs_ok_reverse : mp.

(** Replace masks, shifts and conversions by arithmetic on the base. *)
Ltac dnorm := rewrite ?land_mask, ?shiftr_dig, ?shiftl_dig, ?dgt_mod in *.
Ltac dbase := pose proof DIG_BASE_ge; pose proof DIG_BASE_sq; unfold is_dig in *.
(** Split a [digs_ok] of a cons. *)
Ltac digs_cons :=
  repeat match goal with
  | H : digs_ok (_ :: _) |- _ => apply Forall_cons_1 in H as [? H]
  | H : Forall is_dig (_ :: _) |- _ => apply Forall_cons_1 in H as [? H]
  end.
