(* ===== verification/Mpn.v ===== *)
(** The [mpn_*] functions of [py/mpz.c]: arithmetic on naturals given as
    little-endian digit arrays with an explicit length.

    Every C loop is a structural recursion that carries the loop's variables.
    A function that fills an output array returns the digits it stores there,
    in order from the start of the array (for [mpn_sub] and the like also the
    ones a later trim drops from the length), and the length it returns in C.
    All of the loops store position [p] after the last read of position [p] of
    their inputs, which is why C may call them with the output array equal to
    an input array; the lists returned are the contents in both cases. *)
From S2P Require Import Prelude Digits.

Section Mpn.
Context {cfg : MpzCfg}.
Abbreviation B := (@DIG_BASE cfg).

(** Length of [ds] restricted to [n] digits, without its leading zeros. *)
Fixpoint mpn_remove_trailing_zeros (ds : list Z) (n : nat) : nat :=
  match n with
  | O => O
  | S m => if ds !!! m =? 0 then mpn_remove_trailing_zeros ds m else n
  end.

Fixpoint mpn_cmp_loop (idig jdig : list Z) (ilen : nat) : Z :=
  match ilen with
  | O => 0
  | S ilen =>
      let cmp := sdbl (dbl (dbl (idig !!! ilen) - dbl (jdig !!! ilen))) in
      if cmp <? 0 then -1
      else if 0 <? cmp then 1
      else mpn_cmp_loop idig jdig ilen
  end.

Definition mpn_cmp (idig jdig : list Z) : Z :=
  if (length idig <? length jdig)%nat then -1
  else if (length jdig <? length idig)%nat then 1
  else mpn_cmp_loop idig jdig (length idig).

(** The loop runs from the high end: [rj] is the rest of the digits, highest
    first, [d] the accumulator; the stored digits come out highest first. *)
Fixpoint mpn_shl_loop (rj : list Z) (d n_part : Z) : list Z :=
  match rj with
  | [] => [Z.land (Z.shiftr d (DIG_SIZE - n_part)) DIG_MASK]
  | j :: rj =>
      let d := Z.lor d j in
      Z.land (Z.shiftr d (DIG_SIZE - n_part)) DIG_MASK
        :: mpn_shl_loop rj (dbl (Z.shiftl d DIG_SIZE)) n_part
  end.

Definition mpn_shl (jdig : list Z) (n : Z) : list Z * nat :=
  let n_whole := (n + DIG_SIZE - 1) / DIG_SIZE in
  let n_part := n mod DIG_SIZE in
  let n_part := if n_part =? 0 then DIG_SIZE else n_part in
  let idig := replicate (Z.to_nat (n_whole - 1)) 0 ++ reverse (mpn_shl_loop (reverse jdig) 0 n_part) in
  (idig, mpn_remove_trailing_zeros idig (length jdig + Z.to_nat n_whole)).

Fixpoint mpn_shr_loop (jdig : list Z) (n_part : Z) : list Z :=
  match jdig with
  | [] => []
  | j :: jdig' =>
      let d := j in
      let d := match jdig' with
               | j1 :: _ => Z.lor d (dbl (Z.shiftl j1 DIG_SIZE))
               | [] => d
               end in
      let d := Z.shiftr d n_part in
      Z.land d DIG_MASK :: mpn_shr_loop jdig' n_part
  end.

Definition mpn_shr (jdig : list Z) (n : Z) : list Z * nat :=
  let n_whole := Z.to_nat (n / DIG_SIZE) in
  let n_part := n mod DIG_SIZE in
  if (length jdig <=? n_whole)%nat then ([], O)
  else
    let jdig := drop n_whole jdig in
    let idig := mpn_shr_loop jdig n_part in
    (idig, if idig !!! (length jdig - 1)%nat =? 0 then (length jdig - 1)%nat else length jdig).

(** The second loop of [mpn_add]: the digits of [j] above those of [k]. *)
Fixpoint mpn_add_tail (jdig : list Z) (carry : Z) : list Z * Z :=
  match jdig with
  | [] => ([], carry)
  | j :: jdig =>
      let carry := dbl (carry + j) in
      let '(idig, c) := mpn_add_tail jdig (Z.shiftr carry DIG_SIZE) in
      (Z.land carry DIG_MASK :: idig, c)
  end.

(** The first loop, over the digits of [k]; the result holds the final carry.
    A [j] shorter than [k] is excluded by the function's precondition. *)
Fixpoint mpn_add_loop (jdig kdig : list Z) (carry : Z) : list Z * Z :=
  match kdig, jdig with
  | [], _ => mpn_add_tail jdig carry
  | k :: kdig, j :: jdig =>
      let carry := dbl (carry + dbl (j + k)) in
      let '(idig, c) := mpn_add_loop jdig kdig (Z.shiftr carry DIG_SIZE) in
      (Z.land carry DIG_MASK :: idig, c)
  | _ :: _, [] => ([], carry)
  end.

Definition mpn_add (jdig kdig : list Z) : list Z :=
  let '(idig, carry) := mpn_add_loop jdig kdig 0 in
  if negb (carry =? 0) then idig ++ [dgt carry] else idig.

Fixpoint mpn_sub_tail (jdig : list Z) (borrow : Z) : list Z :=
  match jdig with
  | [] => []
  | j :: jdig =>
      let borrow := sdbl (borrow + j) in
      Z.land borrow DIG_MASK :: mpn_sub_tail jdig (Z.shiftr borrow DIG_SIZE)
  end.

Fixpoint mpn_sub_loop (jdig kdig : list Z) (borrow : Z) : list Z :=
  match kdig, jdig with
  | [], _ => mpn_sub_tail jdig borrow
  | k :: kdig, j :: jdig =>
      let borrow := sdbl (borrow + dbl (j - k)) in
      Z.land borrow DIG_MASK :: mpn_sub_loop jdig kdig (Z.shiftr borrow DIG_SIZE)
  | _ :: _, [] => []
  end.

Definition mpn_sub (jdig kdig : list Z) : list Z * nat :=
  let idig := mpn_sub_loop jdig kdig 0 in
  (idig, mpn_remove_trailing_zeros idig (length idig)).

Fixpoint mpn_mul_dig_loop (idig : list Z) (dmul carry : Z) : list Z * Z :=
  match idig with
  | [] => ([], carry)
  | i :: idig =>
      let carry := dbl (carry + dbl (dbl i * dbl dmul)) in
      let '(r, c) := mpn_mul_dig_loop idig dmul (Z.shiftr carry DIG_SIZE) in
      (Z.land carry DIG_MASK :: r, c)
  end.

Definition mpn_mul_dig_add_dig (idig : list Z) (dmul dadd : Z) : list Z :=
  let '(r, carry) := mpn_mul_dig_loop idig dmul dadd in
  if negb (carry =? 0) then r ++ [dgt carry] else r.

(** One row of the schoolbook product: [id] is the output array from the
    current position on.  The result is that array after the row and the number
    of digits the row stored; [None] is a store past the end of the array. *)
Fixpoint mpn_mul_row (id jdig : list Z) (k carry : Z) : option (list Z * nat) :=
  match jdig with
  | [] =>
      if negb (carry =? 0) then
        match id with
        | [] => None
        | _ :: id => Some (dgt carry :: id, 1%nat)
        end
      else Some (id, O)
  | j :: jdig =>
      match id with
      | [] => None
      | i :: id =>
          let carry := dbl (carry + dbl (dbl i + dbl (dbl j * dbl k))) in
          '(id, n) ← mpn_mul_row id jdig k (Z.shiftr carry DIG_SIZE);
          Some (Z.land carry DIG_MASK :: id, S n)
      end
  end.

(** [pos] digits of the output array lie before [idig]. *)
Fixpoint mpn_mul_loop (idig jdig kdig : list Z) (pos ilen : nat) : option (list Z * nat) :=
  match kdig with
  | [] => Some (idig, ilen)
  | k :: kdig =>
      '(idig, n) ← mpn_mul_row idig jdig k 0;
      match idig with
      | [] => match kdig with [] => Some ([], (pos + n)%nat) | _ => None end
      | i :: idig =>
          '(idig, ilen) ← mpn_mul_loop idig jdig kdig (S pos) (pos + n)%nat;
          Some (i :: idig, ilen)
      end
  end.

Definition mpn_mul (idig jdig kdig : list Z) : option (list Z * nat) :=
  mpn_mul_loop idig jdig kdig 0 0.

(** ** Functional correctness *)

(** The fundamental equation of one step of a carry chain. *)
Lemma carry_step x : x = x mod B + B * (x / B).
Proof. dbase. rewrite (Z.div_mod x B) at 1 by lia. lia. Qed.

Lemma take_S_lookup_total (ds : list Z) n :
  (n < length ds)%nat -> take (S n) ds = take n ds ++ [ds !!! n].
Proof. intros. by apply take_S_r, list_lookup_lookup_total_lt. Qed.

Lemma digs_ok_lookup_total ds n : digs_ok ds -> (n < length ds)%nat -> is_dig (ds !!! n).
Proof.
  intros Hok Hn. eapply Forall_lookup_1; [exact Hok|]. by apply list_lookup_lookup_total_lt.
Qed.

Lemma rtz_spec ds n :
  (n <= length ds)%nat ->
  let m := mpn_remove_trailing_zeros ds n in
  (m <= n)%nat /\ dval (take m ds) = dval (take n ds) /\ normd (take m ds).
Proof.
  induction n as [|n IH]; cbn [mpn_remove_trailing_zeros]; intros Hn; [done|].
  destruct (Z.eqb_spec (ds !!! n) 0) as [Hz|Hz].
  - destruct IH as (? & Hv & ?); [lia|]. split; [lia|]. split; [|done].
    rewrite take_S_lookup_total, dval_snoc, Hz, Hv by lia. lia.
  - split; [lia|]. split; [done|]. unfold normd.
    rewrite take_S_lookup_total, last_snoc by lia. congruence.
Qed.

Lemma mpn_cmp_loop_spec i j n :
  digs_ok i -> digs_ok j -> (n <= length i)%nat -> (n <= length j)%nat ->
  mpn_cmp_loop i j n = Z.sgn (dval (take n i) - dval (take n j)).
Proof.
  intros Hi Hj. induction n as [|n IH]; intros Hni Hnj; [done|].
  cbn [mpn_cmp_loop]. rewrite !take_S_lookup_total, !dval_snoc, !length_take_le by lia.
  pose proof (digs_ok_lookup_total i n Hi ltac:(lia)) as Hdi.
  pose proof (digs_ok_lookup_total j n Hj ltac:(lia)) as Hdj.
  pose proof (dval_bound (take n i) ltac:(auto with mp)) as Hbi.
  pose proof (dval_bound (take n j) ltac:(auto with mp)) as Hbj.
  rewrite length_take_le in Hbi, Hbj by lia. dbase.
  rewrite sdbl_dbl, !dbl_id, sdbl_id by nia.
  pose proof (Bpow_pos (Z.of_nat n) ltac:(lia)).
  destruct (Z.ltb_spec (i !!! n - j !!! n) 0); [symmetry; apply Z.sgn_neg; nia|].
  destruct (Z.ltb_spec 0 (i !!! n - j !!! n)); [symmetry; apply Z.sgn_pos; nia|].
  rewrite IH by lia. f_equal. nia.
Qed.

Lemma dval_lt_length i j :
  digs_ok i -> digs_ok j -> normd j -> (length i < length j)%nat -> dval i < dval j.
Proof.
  intros Hi Hj Hn Hl. pose proof (dval_bound i Hi).
  pose proof (normd_nonzero j Hj Hn ltac:(by intros ->; simpl in Hl; lia)). dbase.
  pose proof (Z.pow_le_mono_r B (Z.of_nat (length i)) (Z.of_nat (length j) - 1)). lia.
Qed.

Lemma mpn_cmp_spec i j :
  digs_ok i -> digs_ok j -> normd i -> normd j -> mpn_cmp i j = Z.sgn (dval i - dval j).
Proof.
  intros Hi Hj Hni Hnj. unfold mpn_cmp.
  case_if; [rewrite Z.sgn_neg; [done|]; pose proof (dval_lt_length i j); intuition lia|].
  case_if; [rewrite Z.sgn_pos; [done|]; pose proof (dval_lt_length j i); intuition lia|].
  rewrite mpn_cmp_loop_spec, !take_ge by (done || lia). done.
Qed.

Lemma mpn_add_tail_spec j c :
  digs_ok j -> 0 <= c <= 1 ->
  let '(i, c') := mpn_add_tail j c in
  digs_ok i /\ length i = length j /\ 0 <= c' <= 1
  /\ dval i + B ^ Z.of_nat (length j) * c' = dval j + c.
Proof.
  revert c. induction j as [|d j IH]; intros c Hj Hc; cbn [mpn_add_tail].
  - repeat split; try constructor; simpl; lia.
  - digs_cons. dbase. rewrite dbl_id by nia. dnorm.
    assert (Hq : 0 <= (c + d) / B <= 1).
    { split; [apply Z.div_pos; lia|]. apply Z.lt_succ_r, Z.div_lt_upper_bound; lia. }
    specialize (IH ((c + d) / B) Hj Hq).
    destruct (mpn_add_tail j ((c + d) / B)) as [i c'] eqn:E. destruct IH as (Hi & Hl & Hc' & Hv).
    cbn [dval length]. rewrite Bpow_S. pose proof (carry_step (c + d)).
    repeat split; [constructor; [apply mod_dig_range|done]|lia|lia|lia|nia].
Qed.

Lemma mpn_add_loop_spec j k c :
  digs_ok j -> digs_ok k -> (length k <= length j)%nat -> 0 <= c <= 1 ->
  let '(i, c') := mpn_add_loop j k c in
  digs_ok i /\ length i = length j /\ 0 <= c' <= 1
  /\ dval i + B ^ Z.of_nat (length j) * c' = dval j + dval k + c.
Proof.
  revert j c. induction k as [|dk k IH]; intros [|dj j] c Hj Hk Hl Hc.
  - cbn. repeat split; try constructor; lia.
  - cbn [mpn_add_loop]. pose proof (mpn_add_tail_spec (dj :: j) c Hj Hc) as Ht.
    destruct (mpn_add_tail (dj :: j) c) as [i c']. destruct Ht as (?&?&?&?).
    cbn [dval] in *. repeat split; done || lia.
  - simpl in Hl. lia.
  - cbn [mpn_add_loop]. digs_cons. dbase. rewrite (dbl_id (dj + dk)), dbl_id by nia. dnorm.
    set (x := c + (dj + dk)).
    assert (Hq : 0 <= x / B <= 1).
    { split; [apply Z.div_pos; lia|]. apply Z.lt_succ_r, Z.div_lt_upper_bound; lia. }
    specialize (IH j (x / B) Hj Hk ltac:(simpl in Hl; lia) Hq).
    destruct (mpn_add_loop j k (x / B)) as [i c'] eqn:E. destruct IH as (Hi & Hl' & Hc' & Hv).
    cbn [dval length]. rewrite Bpow_S. pose proof (carry_step x).
    repeat split; [constructor; [apply mod_dig_range|done]|lia|lia|lia|nia].
Qed.

Lemma mpn_add_spec j k :
  digs_ok j -> digs_ok k -> normd j -> (length k <= length j)%nat ->
  let i := mpn_add j k in
  digs_ok i /\ (length i <= S (length j))%nat /\ dval i = dval j + dval k /\ normd i.
Proof.
  intros Hj Hk Hnj Hl. unfold mpn_add.
  pose proof (mpn_add_loop_spec j k 0 Hj Hk Hl ltac:(lia)) as Hs.
  destruct (mpn_add_loop j k 0) as [i c]. destruct Hs as (Hi & Hli & Hc & Hv). dbase.
  case_if; cbn zeta.
  - assert (c = 1) as -> by lia. rewrite (dgt_id 1) by lia.
    split; [apply digs_ok_app; split; [done|]; repeat constructor; lia|].
    rewrite length_app. split; [simpl; lia|]. split.
    + rewrite dval_snoc, Hli. lia.
    + unfold normd. rewrite last_snoc. done.
  - subst c. repeat split; [done|lia|lia|].
    destruct (decide (j = [])) as [->|Hne]; [by destruct i|].
    pose proof (normd_nonzero j Hj Hnj Hne). pose proof (dval_bound k Hk).
    intros Hlast. destruct i as [|d i _] using rev_ind; [done|].
    rewrite last_snoc in Hlast. injection Hlast as ->.
    rewrite dval_snoc in Hv. apply digs_ok_app in Hi as [Hi _]. pose proof (dval_bound i Hi).
    rewrite length_app in Hli. simpl in Hli.
    replace (Z.of_nat (length j) - 1) with (Z.of_nat (length i)) in * by lia. lia.
Qed.

Lemma div_borrow x : - B <= x < B -> - 1 <= x / B <= 0.
Proof.
  dbase. intros. split; [apply Z.div_le_lower_bound; lia|].
  apply Z.lt_succ_r, Z.div_lt_upper_bound; lia.
Qed.

Lemma mpn_sub_tail_spec j b :
  digs_ok j -> -1 <= b <= 0 ->
  let i := mpn_sub_tail j b in
  digs_ok i /\ length i = length j
  /\ exists b', -1 <= b' <= 0 /\ dval i + B ^ Z.of_nat (length j) * b' = dval j + b.
Proof.
  revert b. induction j as [|d j IH]; intros b Hj Hb; cbn [mpn_sub_tail].
  - split; [constructor|]. split; [done|]. exists b. simpl. lia.
  - digs_cons. dbase. rewrite sdbl_id by nia. dnorm.
    pose proof (div_borrow (b + d) ltac:(lia)) as Hq. specialize (IH ((b + d) / B) Hj Hq).
    destruct IH as (Hi & Hl & b' & Hb' & Hv). cbn [dval length]. rewrite Bpow_S.
    pose proof (carry_step (b + d)).
    split; [constructor; [apply mod_dig_range|done]|]. split; [lia|]. exists b'. split; [lia|nia].
Qed.

Lemma mpn_sub_loop_spec j k b :
  digs_ok j -> digs_ok k -> (length k <= length j)%nat -> -1 <= b <= 0 ->
  let i := mpn_sub_loop j k b in
  digs_ok i /\ length i = length j
  /\ exists b', -1 <= b' <= 0 /\ dval i + B ^ Z.of_nat (length j) * b' = dval j - dval k + b.
Proof.
  revert j b. induction k as [|dk k IH]; intros [|dj j] b Hj Hk Hl Hb.
  - cbn. split; [constructor|]. split; [done|]. exists b. lia.
  - cbn [mpn_sub_loop]. destruct (mpn_sub_tail_spec (dj :: j) b Hj Hb) as (?&?&b'&?&?).
    split; [done|]. split; [done|]. exists b'. cbn [dval] in *. split; lia.
  - simpl in Hl. lia.
  - cbn [mpn_sub_loop]. digs_cons. dbase.
    assert (Hx : sdbl (b + dbl (dj - dk)) = b + (dj - dk)).
    { rewrite <- sdbl_dbl. unfold dbl, wrap.
      rewrite Z.add_mod_idemp_r by (rewrite dbl_pow; nia).
      change ((b + (dj - dk)) mod 2 ^ (2 * DIG_SIZE)) with (dbl (b + (dj - dk))).
      rewrite sdbl_dbl. apply sdbl_id. nia. }
    rewrite Hx. dnorm. set (x := b + (dj - dk)).
    pose proof (div_borrow x ltac:(lia)) as Hq.
    destruct (IH j (x / B) Hj Hk ltac:(simpl in Hl; lia) Hq) as (Hi & Hl' & b' & Hb' & Hv).
    cbn [dval length]. rewrite Bpow_S. pose proof (carry_step x).
    split; [constructor; [apply mod_dig_range|done]|]. split; [lia|]. exists b'. split; [lia|nia].
Qed.

Lemma mpn_sub_spec j k :
  digs_ok j -> digs_ok k -> (length k <= length j)%nat -> dval k <= dval j ->
  let '(i, n) := mpn_sub j k in
  digs_ok i /\ length i = length j /\ (n <= length j)%nat
  /\ dval (take n i) = dval j - dval k /\ normd (take n i).
Proof.
  intros Hj Hk Hl Hge. unfold mpn_sub.
  destruct (mpn_sub_loop_spec j k 0 Hj Hk Hl ltac:(lia)) as (Hi & Hli & b' & Hb' & Hv).
  destruct (rtz_spec (mpn_sub_loop j k 0) (length (mpn_sub_loop j k 0)) ltac:(lia)) as (Hn & Ht & Hnm).
  split; [done|]. split; [done|]. split; [lia|]. split; [|done].
  rewrite Ht, take_ge by lia. pose proof (dval_bound _ Hi). rewrite Hli in *.
  assert (b' = 0) by nia. subst. lia.
Qed.

(** *** Shifts *)

Lemma part_split part : 0 <= part <= DIG_SIZE ->
  B = 2 ^ part * 2 ^ (DIG_SIZE - part) /\ 0 < 2 ^ part /\ 0 < 2 ^ (DIG_SIZE - part).
Proof.
  intros. rewrite DIG_BASE_pow, <- Z.pow_add_r by lia. split; [f_equal; lia|].
  split; apply pow2_pos; lia.
Qed.

Lemma mpn_shl_loop_spec rj p part :
  digs_ok rj -> is_dig p -> 0 < part <= DIG_SIZE ->
  let o := mpn_shl_loop rj (p * B) part in
  digs_ok o /\ length o = S (length rj)
  /\ dval (reverse o) =
     ((p * B ^ Z.of_nat (length rj) + dval (reverse rj)) * 2 ^ part) mod B ^ Z.of_nat (S (length rj)).
Proof.
  intros Hrj Hp Hpart. destruct (part_split part ltac:(lia)) as (HB & HT & HU).
  set (T := 2 ^ part) in *. set (U := 2 ^ (DIG_SIZE - part)) in *.
  assert (Hshift : forall x, Z.shiftr x (DIG_SIZE - part) = x / U)
    by (intros; apply Z.shiftr_div_pow2; lia).
  revert p Hp. induction Hrj as [|j rj Hj Hrj IH]; intros p Hp; cbn [mpn_shl_loop].
  - rewrite Hshift. dnorm. split; [repeat constructor; apply mod_dig_range|]. split; [done|].
    simpl. rewrite Z.pow_1_r, Z.mul_1_r, !Z.add_0_r, Z.mul_0_r, Z.add_0_r.
    f_equal. rewrite HB, Z.mul_assoc. apply Z.div_mul. lia.
  - dbase. rewrite lor_dig by done. rewrite Hshift. dnorm.
    assert (Hd : dbl ((p * B + j) * B) = j * B).
    { unfold dbl. rewrite (wrap_eq_mod _ (j * B) _ p) by (rewrite dbl_pow; lia).
      apply wrap_id. rewrite dbl_pow. nia. }
    rewrite Hd. destruct (IH j Hj) as (Ho & Hl & Hv). cbn [length].
    split; [constructor; [apply mod_dig_range|done]|]. split; [lia|].
    rewrite !reverse_cons, !dval_snoc, !length_reverse, Hl, Hv.
    set (n := Z.of_nat (length rj)) in *.
    set (V := dval (reverse rj)) in *. rewrite !Bpow_S. fold n. set (Bn := B ^ n) in *.
    pose proof (dval_bound (reverse rj) ltac:(apply digs_ok_reverse; done)) as HV.
    rewrite length_reverse in HV. fold n V Bn in HV.
    set (X := (j * Bn + V) * T).
    replace ((p * (B * Bn) + (V + Bn * j)) * T) with (X + p * T * (B * Bn)) by (unfold X; lia).
    assert (HBn : 0 < Bn) by (apply Bpow_pos; lia).
    assert (Hdiv : X / (B * Bn) = j / U).
    { unfold X. rewrite HB. replace (T * U * Bn) with ((Bn * U) * T) by lia.
      rewrite Z.div_mul_cancel_r by nia. rewrite <- Z.div_div by lia. f_equal.
      rewrite Z.add_comm, Z.div_add by lia. rewrite Z.div_small by lia. lia. }
    assert (Hout : (p * B + j) / U = p * T + j / U).
    { rewrite HB. replace (p * (T * U) + j) with (j + p * T * U) by lia. rewrite Z.div_add by lia. lia. }
    rewrite Hout. rewrite (Z.mul_comm B (B * Bn)).
    rewrite (Z.rem_mul_r (X + p * T * (B * Bn)) (B * Bn) B) by nia.
    rewrite Z.div_add by nia. rewrite Z_mod_plus_full, Hdiv.
    rewrite (Z.add_comm (j / U)). lia.
Qed.

Lemma dval_replicate_0_app n ds : dval (replicate n 0 ++ ds) = B ^ Z.of_nat n * dval ds.
Proof. rewrite dval_app, dval_replicate_0, length_replicate. lia. Qed.

Lemma mpn_shl_spec j n :
  digs_ok j -> 0 < n ->
  let '(i, l) := mpn_shl j n in
  digs_ok i /\ length i = (length j + Z.to_nat ((n + DIG_SIZE - 1) / DIG_SIZE))%nat
  /\ (l <= length i)%nat /\ dval (take l i) = dval j * 2 ^ n /\ normd (take l i).
Proof.
  intros Hj Hn. unfold mpn_shl. pose proof DIG_SIZE_ge.
  assert (HD : 0 < DIG_SIZE) by lia. assert (HD' : DIG_SIZE <> 0) by lia.
  pose proof (Z.mod_pos_bound n DIG_SIZE HD) as Hmod. pose proof (Z.div_mod n DIG_SIZE HD') as Hdm.
  set (part := if n mod DIG_SIZE =? 0 then DIG_SIZE else n mod DIG_SIZE).
  set (w := (n + DIG_SIZE - 1) / DIG_SIZE).
  assert (Hw : 1 <= w /\ n = (w - 1) * DIG_SIZE + part /\ 0 < part <= DIG_SIZE).
  { unfold w, part. destruct (Z.eqb_spec (n mod DIG_SIZE) 0).
    - replace ((n + DIG_SIZE - 1) / DIG_SIZE) with (n / DIG_SIZE); [nia|].
      apply (Z.div_unique _ _ _ (DIG_SIZE - 1)); lia.
    - replace ((n + DIG_SIZE - 1) / DIG_SIZE) with (n / DIG_SIZE + 1); [nia|].
      apply (Z.div_unique _ _ _ (n mod DIG_SIZE - 1)); lia. }
  destruct Hw as (Hw1 & Hnw & Hpart).
  destruct (mpn_shl_loop_spec (reverse j) 0 part ltac:(auto with mp) ltac:(dbase; lia) Hpart) as (Ho & Hl & Hv).
  rewrite Z.mul_0_l in Ho, Hl, Hv. rewrite length_reverse, reverse_involutive in *.
  set (o := mpn_shl_loop (reverse j) 0 part) in *.
  assert (Hlen : length (replicate (Z.to_nat (w - 1)) 0 ++ reverse o) = (length j + Z.to_nat w)%nat).
  { rewrite length_app, length_replicate, length_reverse. lia. }
  destruct (rtz_spec (replicate (Z.to_nat (w - 1)) 0 ++ reverse o) (length j + Z.to_nat w)%nat ltac:(lia))
    as (Hle & Ht & Hnm).
  split; [apply digs_ok_app; split; auto with mp|]. split; [done|]. split; [lia|]. split; [|done].
  rewrite Ht, take_ge by lia. rewrite dval_replicate_0_app, Hv, Z.mul_0_l, Z.add_0_l.
  pose proof (dval_bound j Hj) as Hb. destruct (part_split part ltac:(lia)) as (HB & HT & HU).
  rewrite Z.mod_small.
  - rewrite Z2Nat.id by lia. rewrite Hnw, Z.pow_add_r, Z.mul_comm by nia.
    rewrite DIG_BASE_pow, <- Z.pow_mul_r by lia. rewrite (Z.mul_comm DIG_SIZE). lia.
  - rewrite Bpow_S. split; [nia|]. rewrite HB at 1.
    set (P := B ^ Z.of_nat (length j)) in *. set (T := 2 ^ part) in *. set (U := 2 ^ (DIG_SIZE - part)) in *.
    assert (dval j * T < P * T) by (apply Z.mul_lt_mono_pos_r; lia).
    assert (P * T * 1 <= P * T * U) by (apply Z.mul_le_mono_nonneg_l; lia). lia.
Qed.
Lemma normd_of_bound i :
  digs_ok i -> i = [] \/ B ^ (Z.of_nat (length i) - 1) <= dval i -> normd i.
Proof.
  intros Hi [->|Hb]; [done|]. destruct i as [|d i _] using rev_ind; [done|].
  unfold normd. rewrite last_snoc. intros [= ->].
  apply digs_ok_app in Hi as [Hi _]. pose proof (dval_bound i Hi).
  rewrite dval_snoc, length_app in Hb. simpl in Hb.
  replace (Z.of_nat (length i + 1) - 1) with (Z.of_nat (length i)) in Hb by lia. lia.
Qed.

Lemma mpn_shr_loop_spec j part :
  digs_ok j -> 0 <= part < DIG_SIZE ->
  let o := mpn_shr_loop j part in
  digs_ok o /\ length o = length j /\ dval o = dval j / 2 ^ part.
Proof.
  intros Hj Hpart. destruct (part_split part ltac:(lia)) as (HB & HT & HU).
  set (T := 2 ^ part) in *. set (U := 2 ^ (DIG_SIZE - part)) in *.
  induction Hj as [|d j Hd Hj IH]; cbn [mpn_shr_loop].
  { split; [constructor|]. split; [done|]. cbn [dval]. rewrite Z.div_0_l; lia. }
  destruct IH as (Ho & Hl & Hv).
  split; [constructor; [rewrite land_mask; apply mod_dig_range|done]|]. split; [simpl; lia|].
  cbn [dval]. rewrite Hv, Z.shiftr_div_pow2 by lia. fold T. dnorm.
  set (V := dval j) in *.
  assert (HV : exists j1 q, 0 <= j1 < B /\ V = j1 + B * q /\
    match j with j1 :: _ => Z.lor d (dbl (Z.shiftl j1 DIG_SIZE)) | [] => d end = j1 * B + d).
  { destruct j as [|j1 j].
    - exists 0, 0. dbase. unfold V. simpl. lia.
    - exists j1, (dval j). apply Forall_cons_1 in Hj as [Hj1 _]. dbase.
      repeat split; [lia|lia|]. rewrite shiftl_dig, dbl_id by nia. rewrite Z.lor_comm. by apply lor_dig. }
  destruct HV as (j1 & q & Hj1 & HVq & ->). dbase.
  assert (E1 : (j1 * B + d) / T = d / T + U * j1).
  { rewrite HB. replace (j1 * (T * U) + d) with (d + (U * j1) * T) by lia. apply Z.div_add. lia. }
  assert (E2 : (d + B * V) / T = d / T + U * V).
  { rewrite HB. replace (d + T * U * V) with (d + (U * V) * T) by lia. apply Z.div_add. lia. }
  rewrite E1, E2. pose proof (Z.div_mod V T ltac:(lia)) as HVd.
  pose proof (Z.mod_pos_bound V T HT) as HVm.
  assert (Hm : (d / T + U * j1) mod B = d / T + U * (V mod T)).
  { symmetry. apply (Z.mod_unique _ _ (j1 / T)); [left; split|].
    - pose proof (Z.div_pos d T). nia.
    - assert (d / T < U) by (apply Z.div_lt_upper_bound; nia). rewrite HB. nia.
    - replace (V mod T) with (j1 mod T); [pose proof (Z.div_mod j1 T); nia|].
      rewrite HVq, HB. replace (j1 + T * U * q) with (j1 + (U * q) * T) by lia.
      by rewrite Z_mod_plus_full. }
  rewrite Hm. nia.
Qed.

Lemma dval_drop_div n j : digs_ok j -> dval (drop n j) = dval j / B ^ Z.of_nat n.
Proof.
  intros Hj. destruct (decide (n <= length j)%nat).
  - pose proof (dval_bound (take n j) ltac:(auto with mp)) as Hb. rewrite length_take_le in Hb by lia.
    rewrite <- (take_drop n j) at 2. rewrite dval_app, length_take_le by lia.
    rewrite Z.mul_comm, Z.div_add, Z.div_small by (pose proof (Bpow_pos (Z.of_nat n)); lia). done.
  - rewrite drop_ge by lia. simpl. symmetry. apply Z.div_small.
    pose proof (dval_bound j Hj). dbase.
    pose proof (Z.pow_le_mono_r B (Z.of_nat (length j)) (Z.of_nat n)). lia.
Qed.

Lemma normd_drop n j : normd j -> (n < length j)%nat -> normd (drop n j).
Proof. unfold normd. intros Hn Hl. rewrite !last_lookup, length_drop, lookup_drop in *.
   by replace (n + Nat.pred (length j - n))%nat with (Nat.pred (length j)) by lia.
Qed.

Lemma mpn_shr_spec j n :
  digs_ok j -> normd j -> 0 <= n ->
  let '(i, l) := mpn_shr j n in
  digs_ok i /\ (length i <= length j)%nat /\ (l <= length i)%nat
  /\ dval (take l i) = dval j / 2 ^ n /\ normd (take l i).
Proof.
  intros Hj Hnj Hn. unfold mpn_shr. pose proof DIG_SIZE_ge.
  assert (HD : 0 < DIG_SIZE) by lia. assert (HD' : DIG_SIZE <> 0) by lia.
  pose proof (Z.mod_pos_bound n DIG_SIZE HD) as Hmod. pose proof (Z.div_mod n DIG_SIZE HD') as Hdm.
  pose proof (Z.div_pos n DIG_SIZE Hn HD) as Hq.
  set (w := n / DIG_SIZE) in *. set (part := n mod DIG_SIZE) in *.
  assert (Hval : dval j / 2 ^ n = dval (drop (Z.to_nat w) j) / 2 ^ part).
  { rewrite dval_drop_div by done. rewrite Z2Nat.id by lia.
    rewrite DIG_BASE_pow, <- Z.pow_mul_r by lia. rewrite Z.div_div.
    - rewrite <- Z.pow_add_r by nia. f_equal. f_equal. lia.
    - pose proof (pow2_pos (DIG_SIZE * w)). nia.
    - apply pow2_pos. lia. }
  rewrite Hval. case_if.
  - rewrite drop_ge by lia. repeat split; try constructor; try (simpl; lia). done.
  - set (jd := drop (Z.to_nat w) j) in *.
    assert (Hjd : digs_ok jd) by (by apply Forall_drop).
    pose proof (normd_drop (Z.to_nat w) j Hnj ltac:(lia)) as Hnjd. fold jd in Hnjd.
    assert (Hljd : length jd = (length j - Z.to_nat w)%nat) by (unfold jd; rewrite length_drop; lia).
    destruct (mpn_shr_loop_spec jd part Hjd ltac:(lia)) as (Ho & Hl & Hv).
    set (o := mpn_shr_loop jd part) in *. split; [done|]. split; [lia|].
    destruct (part_split part ltac:(lia)) as (HB & HT & HU).
    assert (Hn0 : B ^ (Z.of_nat (length jd) - 1) <= dval jd).
    { apply normd_nonzero; [done|done|]. intros E'. rewrite E' in Hljd. simpl in Hljd. lia. }
    destruct (Z.eqb_spec (o !!! (length jd - 1)%nat) 0) as [Hz|Hz].
    + split; [lia|].
      assert (Htk : o = take (length jd - 1) o ++ [0]).
      { rewrite <- Hz. rewrite <- take_S_lookup_total by lia. rewrite take_ge by lia. done. }
      assert (Hv' : dval (take (length jd - 1) o) = dval jd / 2 ^ part).
      { rewrite <- Hv. rewrite Htk at 2. rewrite dval_snoc. lia. }
      split; [done|]. apply normd_of_bound; [auto with mp|]. rewrite length_take_le by lia.
      destruct (decide (length jd = 1%nat)) as [E1|E1]; [left; rewrite E1; done|right].
      rewrite Hv'. apply Z.div_le_lower_bound; [lia|].
      replace (Z.of_nat (length jd) - 1) with (Z.of_nat (length jd - 1)) in * by lia.
      replace (length jd - 1)%nat with (S (length jd - 2)) in Hn0 by lia. rewrite Bpow_S in Hn0.
      replace (Z.of_nat (length jd - 1) - 1) with (Z.of_nat (length jd - 2)) by lia.
      pose proof (Bpow_pos (Z.of_nat (length jd - 2)) ltac:(lia)). nia.
    + split; [lia|]. rewrite take_ge by lia. split; [done|].
      unfold normd. rewrite last_lookup, Hl. replace (Nat.pred (length jd)) with (length jd - 1)%nat by lia.
      rewrite list_lookup_lookup_total_lt by lia. congruence.
Qed.

(** *** Products *)

Lemma mpn_mul_dig_loop_spec i m c :
  digs_ok i -> is_dig m -> is_dig c ->
  let '(r, c') := mpn_mul_dig_loop i m c in
  digs_ok r /\ length r = length i /\ is_dig c'
  /\ dval r + B ^ Z.of_nat (length i) * c' = dval i * m + c.
Proof.
  intros Hi Hm. revert c. induction Hi as [|d i Hd Hi IH]; intros c Hc; cbn [mpn_mul_dig_loop].
  - split; [constructor|]. split; [done|]. split; [done|].
    cbn [dval length Z.of_nat]. rewrite Z.pow_0_r. lia.
  - dbase. pose proof (dig_mul_bound d m Hd Hm).
    rewrite (dbl_id d), (dbl_id m), (dbl_id (d * m)), dbl_id by lia. dnorm.
    assert (Hq : 0 <= (c + d * m) / B < B) by (apply div_dig_range; lia).
    specialize (IH ((c + d * m) / B) Hq).
    destruct (mpn_mul_dig_loop i m ((c + d * m) / B)) as [r c'] eqn:E.
    destruct IH as (Hr & Hl & Hc' & Hv). cbn [dval length]. rewrite Bpow_S.
    pose proof (carry_step (c + d * m)).
    repeat split; [constructor; [apply mod_dig_range|done]|lia|lia|lia|nia].
Qed.

Lemma mpn_mul_dig_add_dig_spec i m c :
  digs_ok i -> normd i -> is_dig m -> m <> 0 -> is_dig c ->
  let r := mpn_mul_dig_add_dig i m c in
  digs_ok r /\ (length r <= S (length i))%nat /\ dval r = dval i * m + c /\ normd r.
Proof.
  intros Hi Hn Hm Hm0 Hc. unfold mpn_mul_dig_add_dig.
  pose proof (mpn_mul_dig_loop_spec i m c Hi Hm Hc) as Hs.
  destruct (mpn_mul_dig_loop i m c) as [r c']. destruct Hs as (Hr & Hl & Hc' & Hv). dbase.
  case_if; cbn zeta.
  - rewrite dgt_id by lia. rewrite length_app, dval_snoc, Hl.
    repeat split; [apply digs_ok_app; split; [done|repeat constructor; lia]|simpl; lia|lia|].
    unfold normd. rewrite last_snoc. congruence.
  - subst c'. repeat split; [done|lia|lia|]. apply normd_of_bound; [done|].
    destruct (decide (i = [])) as [->|Hne]; [left; by destruct r|right].
    pose proof (normd_nonzero i Hi Hn Hne). rewrite Hl. nia.
Qed.

Lemma mpn_mul_row_spec A zs j k c :
  digs_ok A -> digs_ok j -> is_dig k -> is_dig c -> length A = length j ->
  exists A' c', mpn_mul_row (A ++ 0 :: zs) j k c
      = Some (A' ++ c' :: zs, if c' =? 0 then length j else S (length j))
    /\ digs_ok A' /\ length A' = length j /\ is_dig c'
    /\ dval A' + B ^ Z.of_nat (length j) * c' = dval A + dval j * k + c.
Proof.
  intros HA Hj Hk. revert A HA c. induction Hj as [|dj j Hdj Hj IH]; intros [|a A] HA c Hc Hl; try done.
  - exists [], c. cbn [mpn_mul_row app]. dbase.
    destruct (Z.eqb_spec c 0) as [->|]; simpl mpn_mul_row; rewrite ?dgt_id by lia;
      (split; [done|]; split; [constructor|]; cbn [dval length Z.of_nat]; rewrite Z.pow_0_r; lia).
  - digs_cons. dbase. cbn [mpn_mul_row app].
    assert (0 <= dj * k <= B * B - 2 * B + 1) by (apply dig_mul_bound; lia).
    rewrite (dbl_id a), (dbl_id dj), (dbl_id k), (dbl_id (dj * k)), (dbl_id (a + dj * k)), dbl_id by lia.
    dnorm. set (x := c + (a + dj * k)).
    assert (Hq : 0 <= x / B < B) by (apply div_dig_range; unfold x; lia).
    destruct (IH A HA (x / B) Hq ltac:(simpl in Hl; lia)) as (A' & c' & -> & HA' & Hl' & Hc' & Hv).
    exists (x mod B :: A'), c'. cbn [dval length mbind option_bind app]. rewrite Bpow_S.
    pose proof (carry_step x).
    split; [by destruct (c' =? 0)|].
    repeat split; [constructor; [apply mod_dig_range|done]|lia|lia|lia|nia].
Qed.

Lemma mpn_mul_loop_spec A m j ks pos ilen :
  digs_ok A -> digs_ok j -> digs_ok ks -> length A = length j -> j <> [] -> ks <> [] ->
  (length ks <= m)%nat ->
  exists R n, mpn_mul_loop (A ++ replicate m 0) j ks pos ilen
      = Some (R ++ replicate (m - length ks) 0, (pos + n)%nat)
    /\ digs_ok R /\ length R = (length j + length ks)%nat /\ dval R = dval A + dval j * dval ks
    /\ (n = length R /\ normd R \/ S n = length R /\ list.last R = Some 0).
Proof.
  intros HA Hj Hks. revert A m pos ilen HA.
  induction Hks as [|k ks Hk Hks IH]; intros A m pos ilen HA Hl Hj0 Hks0 Hm; [done|].
  destruct m as [|m]; [simpl in Hm; lia|]. cbn [mpn_mul_loop replicate].
  dbase. destruct (mpn_mul_row_spec A (replicate m 0) j k 0 HA Hj Hk ltac:(dbase; lia) Hl)
    as (A' & c' & -> & HA' & Hl' & Hc' & Hv).
  cbn [mbind option_bind]. destruct A' as [|a A']; [by destruct j|]. cbn [app]. digs_cons.
  assert (Hok : digs_ok (A' ++ [c'])) by (by apply digs_ok_snoc).
  destruct (decide (ks = [])) as [->|Hks'].
  - exists (a :: A' ++ [c']), (if c' =? 0 then length j else S (length j)).
    cbn [mpn_mul_loop mbind option_bind]. split.
    { cbn [length app]. rewrite Nat.sub_succ, Nat.sub_0_r, <- app_assoc. done. }
    cbn [length]. split; [by constructor|]. split; [rewrite length_app; simpl in *; lia|].
    split.
    { cbn [dval]. rewrite dval_snoc. cbn [dval length] in Hv.
      destruct j as [|dj j]; [done|]. cbn [length] in *. rewrite Bpow_S in Hv.
      replace (length A') with (length j) by lia. lia. }
    rewrite length_app. simpl length in *.
    destruct (Z.eqb_spec c' 0) as [->|].
    + right. split; [lia|]. change (a :: A' ++ [0]) with ((a :: A') ++ [0]). by rewrite last_snoc.
    + left. split; [lia|]. unfold normd. change (a :: A' ++ [c']) with ((a :: A') ++ [c']).
      rewrite last_snoc. congruence.
  - replace (A' ++ c' :: replicate m 0) with ((A' ++ [c']) ++ replicate m 0) by (by rewrite <- app_assoc).
    destruct (IH (A' ++ [c']) m (S pos) (pos + (if (c' =? 0)%Z then length j else S (length j)))%nat)
      as (R & n & -> & HR & HlR & HvR & Hn); [done|rewrite length_app; simpl in *; lia|done|done|simpl in Hm; lia|].
    exists (a :: R), (S n). cbn [mbind option_bind length dval].
    split; [f_equal; f_equal; lia|]. split; [by constructor|]. split; [lia|].
    assert (HR0 : R <> []) by (intros ->; simpl in HlR; destruct j; simpl in HlR; [done|lia]).
    split.
    + rewrite HvR, dval_snoc. cbn [dval] in Hv. destruct j as [|dj j]; [done|]. cbn [length] in *.
      rewrite Bpow_S in Hv. replace (length A') with (length j) by lia. nia.
    + unfold normd in *. rewrite last_cons. destruct (list.last R) eqn:El.
      * destruct Hn as [[-> ?]|[? ?]]; [left|right]; split; congruence || lia.
      * apply last_None in El. done.
Qed.

(** The schoolbook product on a zeroed array with room for all digits. *)
Lemma mpn_mul_spec m j k :
  digs_ok j -> digs_ok k -> normd j -> normd k -> j <> [] -> k <> [] ->
  (length j + length k <= m)%nat ->
  exists i n, mpn_mul (replicate m 0) j k = Some (i, n)
    /\ digs_ok i /\ length i = m /\ (n <= length j + length k)%nat
    /\ dval (take n i) = dval j * dval k /\ normd (take n i).
Proof.
  intros Hj Hk Hnj Hnk Hj0 Hk0 Hm. unfold mpn_mul.
  replace (replicate m 0) with (replicate (length j) 0 ++ replicate (m - length j) 0)
    by (rewrite <- replicate_add; f_equal; lia).
  destruct (mpn_mul_loop_spec (replicate (length j) 0) (m - length j) j k 0 0)
    as (R & n & -> & HR & HlR & HvR & Hn); try done; auto with mp; [by rewrite length_replicate|lia|].
  exists (R ++ replicate (m - length j - length k) 0), n. split; [done|].
  split; [apply digs_ok_app; auto with mp|].
  split; [rewrite length_app, length_replicate; lia|].
  rewrite dval_replicate_0 in HvR. split; [lia|].
  rewrite take_app_le by lia. destruct Hn as [[-> Hnm]|[Hn Hlast]].
  - rewrite take_ge by lia. split; [lia|done].
  - assert (HRs : R = take n R ++ [0]).
    { destruct R as [|d R _] using rev_ind; [done|]. rewrite last_snoc in Hlast. injection Hlast as ->.
      rewrite length_app in Hn. simpl in Hn. rewrite take_app_le, take_ge by lia. done. }
    assert (Hv : dval (take n R) = dval j * dval k).
    { rewrite HRs, dval_snoc in HvR. lia. }
    split; [done|]. apply normd_of_bound; [auto with mp|right].
    rewrite Hv, length_take_le by lia.
    pose proof (normd_nonzero j Hj Hnj Hj0). pose proof (normd_nonzero k Hk Hnk Hk0).
    destruct j; [done|]. destruct k; [done|]. simpl length in *.
    replace (Z.of_nat n - 1) with ((Z.of_nat (S (length j)) - 1) + (Z.of_nat (S (length k)) - 1)) by lia.
    rewrite Z.pow_add_r by lia. pose proof (Bpow_pos (Z.of_nat (S (length j)) - 1)).
    pose proof (Bpow_pos (Z.of_nat (S (length k)) - 1)). nia.
Qed.
End Mpn.
