(* ===== verification/MpnDiv.v ===== *)
(** [mpn_div] of [py/mpz.c]: long division of digit arrays, in the
    configuration with [DIG_SIZE] equal to half the bits of [mpz_dbl_dig_t]
    (that of every supported port).

    The numerator and the quotient are buffers that the C code updates in
    place.  [None] is a store outside a buffer, or a loop that does not end. *)
From S2P Require Import Prelude Digits Mpn.

Section MpnDiv.
Context {cfg : MpzCfg}.
Abbreviation B := (@DIG_BASE cfg).

(** [while ((d & DIG_MSB) == 0) { d <<= 1; ++norm_shift; }]; the loop does not
    end for [d = 0], and takes at most [DIG_SIZE - 1] turns otherwise. *)
Fixpoint count_leading_zeros (fuel : nat) (d norm_shift : Z) : option Z :=
  match fuel with
  | O => None
  | S fuel =>
      if Z.land d DIG_MSB =? 0
      then count_leading_zeros fuel (dgt (Z.shiftl d 1)) (norm_shift + 1)
      else Some norm_shift
  end.

(** Shift the numerator left by [norm_shift], from its low end. *)
Fixpoint div_norm_num (num : list Z) (norm_shift carry : Z) : list Z :=
  match num with
  | [] => []
  | n :: num =>
      Z.land (Z.lor (Z.shiftl n norm_shift) carry) DIG_MASK
        :: div_norm_num num norm_shift (dgt (Z.shiftr n (DIG_SIZE - norm_shift)))
  end.

(** Shift the remainder right by [norm_shift]; [rnum] is highest digit first. *)
Fixpoint div_unnorm_num (rnum : list Z) (norm_shift carry : Z) : list Z :=
  match rnum with
  | [] => []
  | n :: rnum =>
      Z.land (Z.lor (Z.shiftr n norm_shift) carry) DIG_MASK
        :: div_unnorm_num rnum norm_shift (dgt (Z.shiftl n (DIG_SIZE - norm_shift)))
  end.

(** [num - quo * den] on the digits of [num] under the denominator; the
    denominator is normalised on the fly ([d_norm]). *)
Fixpoint div_sub (den num : list Z) (norm_shift quo d_norm borrow : Z) : list Z * Z :=
  match den, num with
  | d :: den, n :: num =>
      let d_norm := Z.lor (dbl (Z.shiftl d norm_shift)) (Z.shiftr d_norm DIG_SIZE) in
      let x := dbl (quo * Z.land d_norm DIG_MASK) in
      if (n <=? x) || (dbl (n - x) <=? borrow) then
        let borrow := dbl (borrow + dbl (x - n)) in
        let n' := Z.land (dbl (- borrow)) DIG_MASK in
        let borrow := Z.shiftr borrow DIG_SIZE + (if Z.land borrow DIG_MASK =? 0 then 0 else 1) in
        let '(num, borrow) := div_sub den num norm_shift quo d_norm borrow in
        (n' :: num, borrow)
      else
        let n' := Z.land (dbl (n - x - borrow)) DIG_MASK in
        let '(num, borrow) := div_sub den num norm_shift quo d_norm 0 in
        (n' :: num, borrow)
  | _, _ => (num, borrow)
  end.

(** Add the (normalised) denominator back once. *)
Fixpoint div_add (den num : list Z) (norm_shift d_norm carry : Z) : list Z * Z :=
  match den, num with
  | d :: den, n :: num =>
      let d_norm := Z.lor (dbl (Z.shiftl d norm_shift)) (Z.shiftr d_norm DIG_SIZE) in
      let carry := dbl (carry + dbl (n + Z.land d_norm DIG_MASK)) in
      let '(num', carry') := div_add den num norm_shift d_norm (Z.shiftr carry DIG_SIZE) in
      (Z.land carry DIG_MASK :: num', carry')
  | _, _ => (num, carry)
  end.

(** [for (; borrow != 0; --quo) ...] *)
Fixpoint div_correct (fuel : nat) (den num : list Z) (norm_shift borrow quo : Z) : option (list Z * Z) :=
  if borrow =? 0 then Some (num, quo)
  else match fuel with
  | O => None
  | S fuel =>
      let '(num, carry) := div_add den num norm_shift 0 0 in
      div_correct fuel den num norm_shift (dbl (borrow - carry)) (dbl (quo - 1))
  end.

(** The quotient estimate is at most 2 too large, see [quo_estimate]. *)
Definition div_correct_fuel : nat := 4.

(** The main loop: [cnt] is [num_len - den_len], so [num_dig] points to digit
    [cnt + den_len - 1] and [quo_dig] to digit [cnt - 1]. *)
Fixpoint mpn_div_loop (cnt : nat) (num den quo : list Z) (norm_shift lead_den_digit : Z)
  : option (list Z * list Z) :=
  match cnt with
  | O => Some (num, quo)
  | S c =>
      let den_len := length den in
      let top := num !!! (c + den_len)%nat in
      let q := Z.lor (dbl (Z.shiftl top DIG_SIZE)) (num !!! (c + den_len - 1)%nat) / lead_den_digit in
      let '(w, borrow) := div_sub den (take den_len (drop c num)) norm_shift q 0 0 in
      let borrow := dbl (borrow - top) in
      '(w, q) ← div_correct div_correct_fuel den w norm_shift borrow q;
      let num := take c num ++ w ++ drop (c + den_len) num in
      if (c <? length quo)%nat
      then mpn_div_loop c num den (<[c := Z.land q DIG_MASK]> quo) norm_shift lead_den_digit
      else None
  end.

Definition lead_digit (den : list Z) (norm_shift : Z) : Z :=
  let n := length den in
  let lead := dbl (Z.shiftl (den !!! (n - 1)%nat) norm_shift) in
  if (2 <=? n)%nat then Z.lor lead (Z.shiftr (den !!! (n - 2)%nat) (DIG_SIZE - norm_shift)) else lead.

(** Arguments and results: the buffers [num] and [quo] with the lengths in use. *)
Definition mpn_div (num : list Z) (num_len : nat) (den quo : list Z)
  : option (list Z * nat * (list Z * nat)) :=
  let den_len := length den in
  let cmp := mpn_cmp (take num_len num) den in
  if cmp =? 0 then
    if (0 <? length quo)%nat then Some (num, O, (<[0%nat := 1]> quo, 1%nat)) else None
  else if cmp <? 0 then Some (num, num_len, (quo, O))
  else
    norm_shift ← count_leading_zeros (Z.to_nat DIG_SIZE) (den !!! (den_len - 1)%nat) 0;
    if (num_len <? length num)%nat then
      let num := <[num_len := 0]> num in
      let num_len := S num_len in
      let num := div_norm_num (take num_len num) norm_shift 0 ++ drop num_len num in
      let quo_len := (num_len - den_len)%nat in
      '(num, quo) ← mpn_div_loop quo_len num den quo norm_shift (lead_digit den norm_shift);
      let num := reverse (div_unnorm_num (reverse (take den_len num)) norm_shift 0) ++ drop den_len num in
      Some (num, mpn_remove_trailing_zeros num den_len, (quo, mpn_remove_trailing_zeros quo quo_len))
    else None.

(** ** Normalisation

    [shlc ds s c] are the digits of [dval ds * 2^s + c], as many as [ds] has:
    both the shifted numerator and the denominator normalised on the fly. *)
Fixpoint shlc (ds : list Z) (s c : Z) : list Z :=
  match ds with
  | [] => []
  | d :: ds => (d * 2 ^ s + c) mod B :: shlc ds s ((d * 2 ^ s + c) / B)
  end.

Lemma shlc_spec ds s c :
  digs_ok (shlc ds s c) /\ length (shlc ds s c) = length ds
  /\ dval (shlc ds s c) = (dval ds * 2 ^ s + c) mod B ^ Z.of_nat (length ds).
Proof.
  revert c. induction ds as [|d ds IH]; intros c; cbn [shlc].
  - split; [constructor|]. split; [done|]. cbn. by rewrite Z.mod_1_r.
  - destruct (IH ((d * 2 ^ s + c) / B)) as (Hok & Hl & Hv).
    split; [constructor; [apply mod_dig_range|done]|]. split; [simpl; lia|].
    cbn [dval length]. rewrite Hv, Bpow_S. set (x := d * 2 ^ s + c).
    pose proof (Bpow_pos (Z.of_nat (length ds)) ltac:(lia)).
    dbase. replace ((d + B * dval ds) * 2 ^ s + c) with (x + (dval ds * 2 ^ s) * B) by (unfold x; lia).
    rewrite Z.rem_mul_r by lia. rewrite Z_mod_plus_full, Z.div_add by lia.
    by rewrite (Z.add_comm (x / B)).
Qed.

Lemma shift_pow s : 0 <= s < DIG_SIZE -> 0 < 2 ^ s /\ 2 * 2 ^ s <= B /\ B = 2 ^ s * 2 ^ (DIG_SIZE - s).
Proof.
  intros. destruct (part_split s) as (HB & HT & HU); [lia|]. split; [done|]. split; [|done].
  assert (2 <= 2 ^ (DIG_SIZE - s)); [|nia].
  rewrite (pow2_split (DIG_SIZE - s)) by lia. pose proof (pow2_pos (DIG_SIZE - s - 1)). lia.
Qed.

Lemma shlc_carry d s c : is_dig d -> 0 <= c < 2 ^ s -> 0 <= s < DIG_SIZE ->
  0 <= (d * 2 ^ s + c) / B < 2 ^ s /\ 0 <= d * 2 ^ s + c < B * B.
Proof.
  intros Hd Hc Hs. destruct (shift_pow s Hs) as (HT & HT2 & _). dbase.
  assert (d * 2 ^ s + c < B * 2 ^ s) by nia.
  split; [split; [apply Z.div_pos; nia|apply Z.div_lt_upper_bound; nia]|nia].
Qed.

Lemma div_norm_num_shlc num s c :
  digs_ok num -> 0 <= c < 2 ^ s -> 0 <= s < DIG_SIZE -> div_norm_num num s c = shlc num s c.
Proof.
  intros Hn Hc Hs. revert c Hc. induction Hn as [|d num Hd Hn IH]; intros c Hc; [done|].
  cbn [div_norm_num shlc]. rewrite lor_shift by lia. dnorm.
  destruct (shlc_carry d s c Hd Hc Hs) as [Hq _].
  destruct (shift_pow s Hs) as (HT & HT2 & HB). dbase.
  assert (E : Z.shiftr d (DIG_SIZE - s) = (d * 2 ^ s + c) / B).
  { rewrite Z.shiftr_div_pow2 by lia. assert (0 < 2 ^ (DIG_SIZE - s)) by (apply pow2_pos; lia).
    set (U := 2 ^ (DIG_SIZE - s)) in *. rewrite HB, <- Z.div_div by lia.
    rewrite Z.add_comm, Z.div_add, (Z.div_small c) by lia. done. }
  rewrite E, (Z.mod_small ((d * 2 ^ s + c) / B)) by lia. by rewrite IH.
Qed.

Lemma land_msb d : is_dig d -> (Z.land d DIG_MSB =? 0) = (2 * d <? B).
Proof.
  intros Hd. pose proof DIG_SIZE_ge. unfold is_dig, DIG_MSB in *. rewrite DIG_BASE_pow in *.
  rewrite Z.shiftl_1_l. assert (HB : 2 ^ DIG_SIZE = 2 * 2 ^ (DIG_SIZE - 1)) by (apply pow2_split; lia).
  assert (Ht : Z.testbit d (DIG_SIZE - 1) = negb (2 * d <? 2 ^ DIG_SIZE)).
  { rewrite Z.testbit_odd, Z.shiftr_div_pow2 by lia. rewrite HB in *.
    destruct (Z.ltb_spec (2 * d) (2 * 2 ^ (DIG_SIZE - 1))).
    - by rewrite Z.div_small by lia.
    - replace (d / 2 ^ (DIG_SIZE - 1)) with 1; [done|].
      apply (Z.div_unique _ _ _ (d - 2 ^ (DIG_SIZE - 1))); lia. }
  destruct (2 * d <? 2 ^ DIG_SIZE); simpl in Ht.
  - apply Z.eqb_eq, Z.bits_inj'. intros i Hi. rewrite Z.land_spec, Z.bits_0, Z.pow2_bits_eqb by lia.
    destruct (Z.eqb_spec (DIG_SIZE - 1) i) as [<-|]; [by rewrite Ht|by rewrite andb_false_r].
  - apply Z.eqb_neq. intros E. apply (f_equal (fun z => Z.testbit z (DIG_SIZE - 1))) in E.
    by rewrite Z.land_spec, Ht, Z.pow2_bits_true, Z.bits_0 in E by lia.
Qed.

Lemma clz_spec fuel d s0 :
  0 < d < B -> B <= d * 2 ^ Z.of_nat fuel ->
  exists s, count_leading_zeros fuel d s0 = Some (s0 + s) /\ 0 <= s < Z.of_nat fuel /\ B <= 2 * (d * 2 ^ s)
    /\ d * 2 ^ s < B.
Proof.
  revert d s0. induction fuel as [|fuel IH]; intros d s0 Hd Hf; [simpl in Hf; lia|].
  cbn [count_leading_zeros]. rewrite land_msb by (dbase; lia).
  destruct (Z.ltb_spec (2 * d) B).
  - rewrite Z.shiftl_mul_pow2 by lia. change (2 ^ 1) with 2.
    rewrite dgt_id by lia. rewrite Nat2Z.inj_succ, Z.pow_succ_r in Hf by lia.
    destruct (IH (d * 2) (s0 + 1)) as (s & -> & Hs & Hlo & Hhi); [lia|lia|].
    exists (s + 1). split; [f_equal; lia|]. split; [lia|].
    rewrite Z.add_1_r, Z.pow_succ_r by lia. lia.
  - exists 0. rewrite Z.add_0_r. split; [done|]. split; [lia|]. rewrite Z.pow_0_r. lia.
Qed.

(** ** One step of the main loop *)

(** The borrow of [div_sub] stays at or under [M], so that adding a partial
    product to it never leaves [mpz_dbl_dig_t]. *)
Definition sub_safe (q M : Z) (D : list Z) : Prop :=
  0 <= q /\ 0 <= M <= B /\ Forall (fun d => M + q * d < B * B /\ M + q * d <= M * B) D.

Lemma dbl_mod_dig x : dbl x mod B = x mod B.
Proof.
  unfold dbl, wrap. rewrite dbl_pow. dbase. rewrite Z.rem_mul_r by lia.
  rewrite (Z.mul_comm B), Z_mod_plus_full. apply Z.mod_mod. lia.
Qed.

Lemma dbl_add_l x y : dbl (x + dbl y) = dbl (x + y).
Proof.
  unfold dbl, wrap. apply Z.add_mod_idemp_r. rewrite dbl_pow. dbase. nia.
Qed.

Lemma round_up_shift x :
  0 <= x -> let b := x / B + (if x mod B =? 0 then 0 else 1) in
  (- x) mod B - B * b = - x /\ 0 <= b /\ (forall M, x <= M * B -> b <= M).
Proof.
  intros Hx. dbase. pose proof (Z.div_mod x B ltac:(lia)) as Hd.
  pose proof (mod_dig_range x) as Hm. pose proof (Z.div_pos x B Hx ltac:(lia)).
  destruct (Z.eqb_spec (x mod B) 0) as [Hz|Hz]; cbn zeta.
  - rewrite Z.mod_opp_l_z by lia. split; [lia|]. split; [lia|]. intros M HM.
    rewrite Z.add_0_r. apply Z.div_le_upper_bound; lia.
  - rewrite Z.mod_opp_l_nz by lia. split; [lia|]. split; [lia|]. intros M HM.
    destruct (Z.le_gt_cases M (x / B)) as [Hle|]; [|lia].
    pose proof (Z.mul_le_mono_nonneg_l M (x / B) B ltac:(lia) Hle). lia.
Qed.

Lemma div_sub_spec M den w s q dn b :
  digs_ok den -> digs_ok w -> length w = length den -> 0 <= s < DIG_SIZE ->
  0 <= dn / B < 2 ^ s -> sub_safe q M (shlc den s (dn / B)) -> 0 <= b <= M ->
  let '(w', b') := div_sub den w s q dn b in
  digs_ok w' /\ length w' = length den /\ 0 <= b' <= M
  /\ dval w' - B ^ Z.of_nat (length den) * b' = dval w - q * dval (shlc den s (dn / B)) - b.
Proof.
  intros Hden Hw Hlen Hs. revert w dn b Hw Hlen.
  induction Hden as [|d den Hd Hden IH]; intros [|n w] dn b Hw Hlen Hdn Hsafe Hb; try done.
  - cbn [div_sub shlc dval length]. split; [constructor|]. split; [done|]. split; [done|].
    cbn [Z.of_nat]. rewrite Z.pow_0_r. lia.
  - cbn [div_sub]. digs_cons. destruct (shlc_carry d s (dn / B) Hd Hdn Hs) as [Hc Hx].
    destruct (shift_pow s Hs) as (HT & HT2 & HB). dbase.
    assert (Hlor : Z.lor (dbl (Z.shiftl d s)) (Z.shiftr dn DIG_SIZE) = d * 2 ^ s + dn / B).
    { rewrite shiftr_dig, dbl_id; [by apply lor_shift; lia|].
      rewrite Z.shiftl_mul_pow2 by lia. nia. }
    rewrite Hlor. set (dn' := d * 2 ^ s + dn / B) in *.
    cbn [shlc] in Hsafe |- *. fold dn' in Hsafe |- *. destruct Hsafe as (Hq & HM & HD).
    apply Forall_cons_1 in HD as [[HD1 HD2] HD]. dnorm.
    pose proof (mod_dig_range dn') as Hdd. set (dd := dn' mod B) in *.
    rewrite (dbl_id (q * dd)) by nia.
    cbn [length] in *. rewrite Bpow_S. cbn [dval].
    destruct (Z.leb_spec n (q * dd)) as [Hle|Hgt]; simpl orb;
      [|rewrite (dbl_id (n - q * dd)) by nia; destruct (Z.leb_spec (n - q * dd) b) as [Hle'|Hgt']].
    1,2: rewrite dbl_add_l, (dbl_id (b + (q * dd - n))) by nia;
      set (bb := b + (q * dd - n)) in *; rewrite dbl_mod_dig;
      destruct (round_up_shift bb ltac:(unfold bb; lia)) as (Hr & Hr0 & HrM);
      set (bo := bb / B + (if bb mod B =? 0 then 0 else 1)) in *;
      assert (0 <= bo <= M) by (split; [lia|apply HrM; unfold bb; lia]);
      specialize (IH w dn' bo ltac:(done) ltac:(lia) Hc (conj Hq (conj HM HD)) ltac:(lia));
      destruct (div_sub den w s q dn' bo) as [w' b']; destruct IH as (Hw' & Hl' & Hb' & Hv);
      cbn [dval length]; (split; [constructor; [apply mod_dig_range|done]|]); (split; [lia|]); (split; [lia|]);
      unfold bb in *; nia.
    rewrite dbl_mod_dig.
    specialize (IH w dn' 0 ltac:(done) ltac:(lia) Hc (conj Hq (conj HM HD)) ltac:(lia)).
    destruct (div_sub den w s q dn' 0) as [w' b']. destruct IH as (Hw' & Hl' & Hb' & Hv).
    cbn [dval length]. split; [constructor; [apply mod_dig_range|done]|]. split; [lia|]. split; [lia|].
    rewrite (Z.mod_small (n - q * dd - b)) by nia. nia.
Qed.

Lemma div_add_spec den w s dn c :
  digs_ok den -> digs_ok w -> length w = length den -> 0 <= s < DIG_SIZE ->
  0 <= dn / B < 2 ^ s -> 0 <= c <= 1 ->
  let '(w', c') := div_add den w s dn c in
  digs_ok w' /\ length w' = length den /\ 0 <= c' <= 1
  /\ dval w' + B ^ Z.of_nat (length den) * c' = dval w + dval (shlc den s (dn / B)) + c.
Proof.
  intros Hden Hw Hlen Hs. revert w dn c Hw Hlen.
  induction Hden as [|d den Hd Hden IH]; intros [|n w] dn c Hw Hlen Hdn Hc; try done.
  - cbn [div_add shlc dval length]. split; [constructor|]. split; [done|]. split; [done|].
    cbn [Z.of_nat]. rewrite Z.pow_0_r. lia.
  - cbn [div_add]. digs_cons. destruct (shlc_carry d s (dn / B) Hd Hdn Hs) as [Hq Hx].
    destruct (shift_pow s Hs) as (HT & HT2 & HB). dbase.
    assert (Hlor : Z.lor (dbl (Z.shiftl d s)) (Z.shiftr dn DIG_SIZE) = d * 2 ^ s + dn / B).
    { rewrite shiftr_dig, dbl_id; [by apply lor_shift; lia|].
      rewrite Z.shiftl_mul_pow2 by lia. nia. }
    rewrite Hlor. set (dn' := d * 2 ^ s + dn / B) in *. cbn [shlc]. fold dn'. dnorm.
    pose proof (mod_dig_range dn') as Hdd. set (dd := dn' mod B) in *.
    rewrite (dbl_id (n + dd)), dbl_id by lia. set (x := c + (n + dd)).
    assert (Hxq : 0 <= x / B <= 1).
    { split; [apply Z.div_pos; lia|]. apply Z.lt_succ_r, Z.div_lt_upper_bound; lia. }
    specialize (IH w dn' (x / B) ltac:(done) ltac:(simpl in Hlen; lia) Hq Hxq).
    destruct (div_add den w s dn' (x / B)) as [w' c']. destruct IH as (Hw' & Hl' & Hc' & Hv).
    cbn [dval length]. rewrite Bpow_S. pose proof (carry_step x).
    cbn [dval length]. split; [constructor; [apply mod_dig_range|done]|]. split; [lia|]. split; [lia|].
    unfold x in *. nia.
Qed.

(** The estimate from the two leading digits of the remaining numerator and
    the leading digit of the normalised denominator is never too small, and at
    most 2 too large. *)
Lemma quo_estimate P lead r top next u D W :
  0 < P -> B <= 2 * lead -> 0 < lead -> 0 <= r < P -> 0 <= u < P ->
  D = lead * P + r -> W = (top * B + next) * P + u -> 0 <= top * B + next -> W < B * D ->
  W / D <= (top * B + next) / lead <= W / D + 2 /\ 0 <= W / D < B.
Proof.
  intros HP Hlead Hl0 Hr Hu HD HW HT HWD. set (T := top * B + next) in *.
  assert (HD0 : 0 < D) by nia.
  pose proof (Z.div_pos W D ltac:(nia) HD0) as Hq0.
  assert (HqB : W / D < B) by (apply Z.div_lt_upper_bound; lia).
  pose proof (Z.mul_div_le W D HD0) as Hlo. pose proof (Z.mul_succ_div_gt W D HD0) as Hhi.
  set (q := W / D) in *. split; [|lia]. split.
  - apply Z.div_le_lower_bound; [lia|].
    assert (lead * q * P <= W) by nia. assert (lead * q * P < (T + 1) * P) by nia. nia.
  - apply Z.lt_succ_r, Z.div_lt_upper_bound; [lia|]. destruct (Z.lt_ge_cases T (lead * Z.succ (q + 2))); [done|].
    exfalso. assert (lead * (q + 3) * P <= W) by nia.
    assert (lead * (q + 3) * P < (q + 1) * (lead * P + r)) by nia.
    assert (2 * lead * P < (q + 1) * r) by nia.
    assert ((q + 1) * r <= B * P) by nia. nia.
Qed.

Section Division.
Context (den : list Z) (s : Z).
Context (Hden : digs_ok den) (Hs : 0 <= s < DIG_SIZE).
Context (Hnorm : B ^ Z.of_nat (length den) <= 2 * (dval den * 2 ^ s) < 2 * B ^ Z.of_nat (length den)).

Let m := length den.
Let D := dval den * 2 ^ s.

Lemma dval_shlc_den : dval (shlc den s 0) = D.
Proof.
  destruct (shlc_spec den s 0) as (_ & _ & ->). rewrite Z.add_0_r. apply Z.mod_small.
  destruct (shift_pow s Hs) as (HT & _). pose proof (dval_bound den Hden). unfold D. nia.
Qed.

Lemma div_correct_spec W fuel w k quo :
  digs_ok w -> length w = m -> 0 <= k < B * B -> 0 <= quo < B * B ->
  W - quo * D = dval w - B ^ Z.of_nat m * k -> W / D <= quo <= W / D + Z.of_nat fuel -> 0 <= W / D ->
  exists w', div_correct fuel den w s k quo = Some (w', W / D)
    /\ digs_ok w' /\ length w' = m /\ dval w' = W mod D.
Proof.
  assert (HB0 : 0 < B ^ Z.of_nat (length den)) by (apply Bpow_pos; lia).
  assert (HD0 : 0 < D) by (unfold D; lia).
  revert w k quo. induction fuel as [|fuel IH]; intros w k quo Hw Hl Hk Hquo Heq Hq Hq0; cbn [div_correct].
  all: pose proof (dval_bound w Hw) as Hwb; rewrite Hl in Hwb.
  all: pose proof (Z.div_mod W D ltac:(lia)) as Hdm; pose proof (Z.mod_pos_bound W D HD0) as Hm.
  - assert (quo = W / D) as -> by lia. assert (k = 0) as -> by nia.
    exists w. repeat split; try done. lia.
  - destruct (Z.eqb_spec k 0) as [->|Hk0].
    + assert (quo = W / D) as -> by nia. exists w. repeat split; try done. lia.
    + assert (W / D < quo) by nia.
      destruct (shift_pow s Hs) as (HT & _). dbase.
      pose proof (div_add_spec den w s 0 0 Hden Hw Hl Hs) as Ha.
      rewrite Z.div_0_l in Ha by lia. specialize (Ha ltac:(lia) ltac:(lia)).
      destruct (div_add den w s 0 0) as [w1 c]. destruct Ha as (Hw1 & Hl1 & Hc & Hv).
      rewrite dval_shlc_den in Hv. rewrite (dbl_id (k - c)), (dbl_id (quo - 1)) by lia.
      apply IH; [done|done|lia|lia|unfold m in *; lia|lia|done].
Qed.

Lemma lead_digit_spec : den <> [] ->
  lead_digit den s = D / B ^ (Z.of_nat m - 1) /\ B <= 2 * lead_digit den s /\ lead_digit den s < B.
Proof.
  intros Hne. destruct (shift_pow s Hs) as (HT & HT2 & HB). dbase.
  assert (HP : 0 < B ^ (Z.of_nat m - 1)). { apply Bpow_pos. unfold m. destruct den; [done|simpl; lia]. }
  assert (HBm : B ^ Z.of_nat m = B * B ^ (Z.of_nat m - 1)).
  { rewrite <- Z.pow_succ_r; [f_equal; lia|]. unfold m. destruct den; [done|simpl; lia]. }
  fold m D in Hnorm.
  assert (E : lead_digit den s = D / B ^ (Z.of_nat m - 1)).
  { unfold lead_digit. fold m. destruct (decide (m = 1%nat)) as [E1|E1].
    - rewrite E1. simpl Nat.leb. cbv iota. simpl Nat.sub. rewrite Z.pow_0_r, Z.div_1_r.
      destruct den as [|d [|]] eqn:Ed; try done. simpl (_ !!! _). digs_cons.
      unfold D. cbn [dval] in *. unfold m in *. cbn [length] in *. rewrite Z.shiftl_mul_pow2 by lia.
      rewrite Z.mul_0_r, Z.add_0_r in *. rewrite dbl_id; [done|nia].
    - assert (Hm2 : (2 <= m)%nat) by (unfold m in *; destruct den as [|? [|]]; simpl in *; lia || done).
      destruct (Nat.leb_spec 2 m); [|lia].
      assert (Hdrop : drop (m - 2) den = [den !!! (m - 2)%nat; den !!! (m - 1)%nat]).
      { rewrite (drop_S den (den !!! (m - 2)%nat)) by (apply list_lookup_lookup_total_lt; unfold m in *; lia).
        replace (S (m - 2)) with (m - 1)%nat by lia.
        rewrite (drop_S den (den !!! (m - 1)%nat)) by (apply list_lookup_lookup_total_lt; unfold m in *; lia).
        rewrite drop_ge by (unfold m in *; lia). done. }
      pose proof (dval_drop_div (m - 2) den Hden) as Hdd. rewrite Hdrop in Hdd. cbn [dval] in Hdd.
      pose proof (digs_ok_lookup_total den (m - 1) Hden ltac:(unfold m in *; lia)) as Ht1.
      pose proof (digs_ok_lookup_total den (m - 2) Hden ltac:(unfold m in *; lia)) as Ht2.
      set (d1 := den !!! (m - 1)%nat) in *. set (d2 := den !!! (m - 2)%nat) in *. dbase.
      assert (HU : 0 < 2 ^ (DIG_SIZE - s)) by (apply pow2_pos; lia).
      rewrite dbl_id by (rewrite Z.shiftl_mul_pow2 by lia; nia).
      rewrite (Z.shiftr_div_pow2 d2) by lia. set (U := 2 ^ (DIG_SIZE - s)) in *.
      rewrite lor_shift; [|split; [apply Z.div_pos; lia|apply Z.div_lt_upper_bound; lia]|lia].
      assert (HP2 : B ^ (Z.of_nat m - 1) = B * B ^ Z.of_nat (m - 2)).
      { rewrite <- Bpow_S. f_equal. lia. }
      pose proof (Bpow_pos (Z.of_nat (m - 2)) ltac:(lia)) as HP2'. rewrite HP2.
      unfold D. replace (B * B ^ Z.of_nat (m - 2)) with ((B ^ Z.of_nat (m - 2) * U) * 2 ^ s) by (rewrite HB; lia).
      rewrite Z.div_mul_cancel_r by nia. rewrite <- Z.div_div by lia. rewrite <- Hdd.
      rewrite Z.mul_0_r, Z.add_0_r. rewrite HB.
      replace (d2 + 2 ^ s * U * d1) with (d2 + (2 ^ s * d1) * U) by lia. rewrite Z.div_add by lia. lia. }
  split; [done|]. rewrite E. split.
  - assert (Hb : B / 2 <= D / B ^ (Z.of_nat m - 1)).
    { apply Z.div_le_lower_bound; [lia|]. pose proof (Z.mul_div_le B 2 ltac:(lia)). nia. }
    assert (B = 2 * (B / 2)).
    { rewrite DIG_BASE_pow, (pow2_split DIG_SIZE) by lia. set (x := 2 ^ (DIG_SIZE - 1)).
      rewrite (Z.mul_comm 2 x), Z.div_mul by lia. lia. }
    lia.
  - apply Z.div_lt_upper_bound; [lia|]. rewrite Z.mul_comm. lia.
Qed.
End Division.

Lemma div_unnorm_spec rw s p :
  digs_ok rw -> 0 <= p -> 0 <= s < DIG_SIZE ->
  let o := div_unnorm_num rw s ((p mod 2 ^ s) * 2 ^ (DIG_SIZE - s)) in
  digs_ok o /\ length o = length rw
  /\ dval (reverse o) = ((p mod 2 ^ s) * B ^ Z.of_nat (length rw) + dval (reverse rw)) / 2 ^ s.
Proof.
  intros Hrw Hp Hs. destruct (shift_pow s Hs) as (HT & HT2 & HB).
  set (T := 2 ^ s) in *. assert (HU : 0 < 2 ^ (DIG_SIZE - s)) by (apply pow2_pos; lia).
  revert p Hp. induction Hrw as [|n rw Hn Hrw IH]; intros p Hp; cbn [div_unnorm_num].
  - split; [constructor|]. split; [done|]. pose proof (Z.mod_pos_bound p T HT).
    symmetry. apply Z.div_small. cbn [length Z.of_nat reverse dval]. rewrite Z.pow_0_r.
    change (dval (reverse [])) with 0. lia.
  - dbase. pose proof (Z.mod_pos_bound p T HT) as Hpm. pose proof (Z.mod_pos_bound n T HT) as Hnm.
    assert (HnT : 0 <= n / T < 2 ^ (DIG_SIZE - s)).
    { split; [apply Z.div_pos; lia|apply Z.div_lt_upper_bound; lia]. }
    assert (Hc : dgt (Z.shiftl n (DIG_SIZE - s)) = (n mod T) * 2 ^ (DIG_SIZE - s)).
    { rewrite dgt_mod, Z.shiftl_mul_pow2 by lia. rewrite HB. apply Z.mul_mod_distr_r; lia. }
    rewrite Hc. destruct (IH n ltac:(lia)) as (Ho & Hl & Hv).
    assert (Hd : Z.lor (Z.shiftr n s) ((p mod T) * 2 ^ (DIG_SIZE - s)) = (p mod T) * 2 ^ (DIG_SIZE - s) + n / T).
    { rewrite Z.lor_comm, Z.shiftr_div_pow2 by lia. fold T.
      rewrite <- Z.shiftl_mul_pow2 by lia. rewrite lor_shift, Z.shiftl_mul_pow2 by lia. done. }
    rewrite Hd, land_mask. set (U := 2 ^ (DIG_SIZE - s)) in *.
    rewrite Z.mod_small by nia. set (e := p mod T * U + n / T) in *.
    split; [constructor; [unfold is_dig, e; nia|done]|]. split; [simpl; lia|].
    rewrite !reverse_cons, !dval_snoc, !length_reverse, Hl, Hv. cbn [length]. rewrite Bpow_S.
    set (P := B ^ Z.of_nat (length rw)) in *. set (V := dval (reverse rw)) in *.
    replace (p mod T * (B * P) + (V + P * n)) with ((n mod T * P + V) + (e * P) * T).
    + rewrite Z.div_add by lia. lia.
    + unfold e. rewrite HB. pose proof (Z.div_mod n T ltac:(lia)). nia.
Qed.

(** The normalised denominator has no digit equal to [DIG_MASK], or it has
    one digit.  Beyond this condition the borrow of the division can overflow,
    see [mpn_div_overflow]. *)
Definition borrow_fits (den : list Z) (s : Z) : Prop :=
  length den = 1%nat \/ Forall (fun d => d <> DIG_MASK) (shlc den s 0).

Lemma sub_safe_small q D : 0 <= q < B -> digs_ok D -> sub_safe q q D.
Proof.
  intros Hq HD. dbase. split; [lia|]. split; [lia|].
  apply (Forall_mono is_dig); [|done]. intros d Hd. unfold is_dig in Hd. nia.
Qed.

Lemma sub_safe_wide q D :
  0 <= q <= B + 1 -> digs_ok D -> Forall (fun d => d <> DIG_MASK) D -> sub_safe q B D.
Proof.
  intros Hq HD HM. dbase. assert (Hmask : DIG_MASK = B - 1).
  { unfold DIG_MASK, DIG_BASE. done. }
  split; [lia|]. split; [lia|]. apply Forall_forall. intros d Hd.
  pose proof (proj1 (Forall_forall _ _) HD d Hd) as Hd1. pose proof (proj1 (Forall_forall _ _) HM d Hd) as Hd2.
  cbv beta in Hd1, Hd2. unfold is_dig in Hd1. rewrite Hmask in Hd2. nia.
Qed.

Lemma dval_window (num : list Z) c m :
  (c + m < length num)%nat ->
  take (S m) (drop c num) = take m (drop c num) ++ [num !!! (c + m)%nat]
  /\ take (S m) (drop c num) = (num !!! c) :: take m (drop (S c) num).
Proof.
  intros Hl. split.
  - rewrite (take_S_r _ _ (num !!! (c + m)%nat)); [done|].
    rewrite lookup_drop. apply list_lookup_lookup_total_lt. lia.
  - rewrite (drop_S num (num !!! c) c) by (apply list_lookup_lookup_total_lt; lia). done.
Qed.

Lemma digs_ok_drop n ds : digs_ok ds -> digs_ok (drop n ds).
Proof. apply Forall_drop. Qed.

(** One turn of the loop, on the window of digits under the denominator. *)
Lemma div_step_spec den s w top :
  digs_ok den -> 0 <= s < DIG_SIZE -> den <> [] ->
  B ^ Z.of_nat (length den) <= 2 * (dval den * 2 ^ s) < 2 * B ^ Z.of_nat (length den) ->
  borrow_fits den s -> digs_ok w -> length w = length den -> is_dig top ->
  let D := dval den * 2 ^ s in
  let W := dval w + B ^ Z.of_nat (length den) * top in
  W < B * D ->
  let q := Z.lor (dbl (Z.shiftl top DIG_SIZE)) (w !!! (length den - 1)%nat) / lead_digit den s in
  let '(w1, borrow) := div_sub den w s q 0 0 in
  exists w2, div_correct div_correct_fuel den w1 s (dbl (borrow - top)) q = Some (w2, W / D)
    /\ digs_ok w2 /\ length w2 = length den /\ dval w2 = W mod D /\ 0 <= W / D < B.
Proof.
  intros Hden Hs Hne Hnorm Hfit Hw Hlw Htop D W HW q. pose proof Hnorm as Hnorm0. set (m := length den) in *.
  assert (Hm : (1 <= m)%nat) by (unfold m; destruct den; [done|simpl; lia]).
  destruct (lead_digit_spec den s Hden Hs Hnorm Hne) as (Hlead & HleadB & HleadU).
  fold m D in Hlead, HleadB, HleadU, Hnorm. fold m in Hlead. set (lead := lead_digit den s) in *.
  set (P := B ^ (Z.of_nat m - 1)) in *. assert (HP : 0 < P) by (apply Bpow_pos; lia).
  assert (HBm : B ^ Z.of_nat m = B * P).
  { unfold P. rewrite <- Z.pow_succ_r by lia. f_equal. lia. }
  pose proof (digs_ok_lookup_total w (m - 1) Hw ltac:(lia)) as Hnext.
  set (next := w !!! (m - 1)%nat) in *. dbase.
  assert (Hwsplit : dval w = dval (take (m - 1) w) + P * next).
  { rewrite <- (take_ge w m) at 1 by lia. replace m with (S (m - 1)) at 1 by lia.
    rewrite take_S_lookup_total, dval_snoc, length_take_le by lia. unfold P. repeat f_equal; lia. }
  pose proof (dval_bound (take (m - 1) w) ltac:(auto with mp)) as Hu. rewrite length_take_le in Hu by lia.
  replace (Z.of_nat (m - 1)) with (Z.of_nat m - 1) in Hu by lia. fold P in Hu.
  assert (Hq : q = (top * B + next) / lead).
  { unfold q. rewrite shiftl_dig, dbl_id by nia. by rewrite lor_dig. }
  destruct (quo_estimate P lead (D mod P) top next (dval (take (m - 1) w)) D W) as [Hest HqB];
    [done|lia|lia|apply Z.mod_pos_bound; lia|lia| | |nia|done|].
  { rewrite Hlead, (Z.mul_comm (D / P)). apply Z.div_mod. lia. }
  { unfold W. rewrite HBm, Hwsplit. lia. }
  rewrite <- Hq in Hest.
  assert (Hsafe : exists M, 0 <= M <= B /\ sub_safe q M (shlc den s 0)).
  { pose proof (proj1 (shlc_spec den s 0)) as Hok. destruct Hfit as [H1|HF].
    - exists q. fold m in H1. assert (EP : P = 1) by (unfold P; rewrite H1; done).
      assert (q < B); [|split; [lia|apply sub_safe_small; [lia|done]]].
      rewrite Hq. apply Z.div_lt_upper_bound; [lia|]. rewrite EP, Z.div_1_r in Hlead.
      unfold W in HW. rewrite HBm, Hwsplit, EP in HW. lia.
    - exists B. split; [lia|]. apply sub_safe_wide; [lia|done|done]. }
  destruct Hsafe as (M & HM & Hsafe).
  pose proof (div_sub_spec M den w s q 0 0 Hden Hw Hlw Hs) as Hsub.
  rewrite Z.div_0_l in Hsub by lia. destruct (shift_pow s Hs) as (HT & _).
  specialize (Hsub ltac:(lia) Hsafe ltac:(lia)).
  destruct (div_sub den w s q 0 0) as [w1 b]. destruct Hsub as (Hw1 & Hl1 & Hb & Hv).
  rewrite (dval_shlc_den den s Hden Hs Hnorm) in Hv. fold m D in Hv.
  pose proof (dval_bound w1 Hw1) as Hb1. rewrite Hl1 in Hb1. fold m in Hb1. rewrite HBm in Hb1, Hv, Hnorm.
  assert (HD0 : 0 < D) by lia.
  pose proof (Z.mul_div_le W D HD0). pose proof (Z.mul_succ_div_gt W D HD0).
  assert (Hk : 0 <= b - top).
  { assert (W - q * D = dval w1 - B * P * (b - top)) by (unfold W; rewrite HBm; lia).
    assert (Hqd : W / D * D <= q * D) by (apply Z.mul_le_mono_nonneg_r; lia).
    assert (W - q * D < B * P) by lia.
    destruct (Z.le_gt_cases 0 (b - top)); [done|].
    assert (B * P * (b - top) <= B * P * (-1)) by (apply Z.mul_le_mono_nonneg_l; nia). lia. }
  rewrite dbl_id by lia.
  destruct (div_correct_spec den s Hden Hs Hnorm0 W div_correct_fuel w1 (b - top) q) as (w2 & Hc & Hw2 & Hl2 & Hv2);
    [done|done|lia|lia| |unfold div_correct_fuel; fold D; lia|fold D; lia|].
  { fold m D. unfold W. rewrite HBm. lia. }
  exists w2. fold D in Hc, Hv2. fold m in Hl2. split_and!; done || lia.
Qed.

Lemma mpn_div_loop_spec den s cnt num quo :
  digs_ok den -> 0 <= s < DIG_SIZE -> den <> [] ->
  B ^ Z.of_nat (length den) <= 2 * (dval den * 2 ^ s) < 2 * B ^ Z.of_nat (length den) ->
  borrow_fits den s -> digs_ok num -> digs_ok quo ->
  (cnt + length den <= length num)%nat -> (cnt <= length quo)%nat ->
  let D := dval den * 2 ^ s in
  dval (take (length den) (drop cnt num)) < D ->
  exists num' quo', mpn_div_loop cnt num den quo s (lead_digit den s) = Some (num', quo')
    /\ digs_ok num' /\ length num' = length num /\ digs_ok quo' /\ length quo' = length quo
    /\ drop cnt quo' = drop cnt quo /\ dval (take (length den) num') < D
    /\ dval (take (cnt + length den) num) = dval (take cnt quo') * D + dval (take (length den) num').
Proof.
  intros Hden Hs Hne Hnorm Hfit. cbv zeta. set (D := dval den * 2 ^ s). set (m := length den).
  revert num quo. induction cnt as [|c IH]; intros num quo Hnum Hquo Hln Hlq Hlt.
  - exists num, quo. split_and!; done.
  - cbn [mpn_div_loop]. fold m. destruct (dval_window num c m ltac:(lia)) as [Hw1 Hw2].
    set (w := take m (drop c num)) in *. set (top := num !!! (c + m)%nat) in *.
    assert (Hw : digs_ok w) by (apply digs_ok_take, digs_ok_drop, Hnum).
    assert (Hlw : length w = m) by (unfold w; rewrite length_take, length_drop; lia).
    assert (Htop : is_dig top) by (apply digs_ok_lookup_total; [done|lia]).
    assert (Hm : (1 <= m)%nat) by (unfold m; destruct den; [done|simpl; lia]).
    assert (Hnext : num !!! (c + m - 1)%nat = w !!! (m - 1)%nat).
    { unfold w. rewrite !list_lookup_total_alt, lookup_take_lt, lookup_drop by lia. do 2 f_equal. lia. }
    assert (HW : dval w + B ^ Z.of_nat m * top < B * D).
    { pose proof (f_equal dval Hw1) as E. rewrite Hw2, dval_snoc, Hlw in E. cbn [dval] in E.
      pose proof (digs_ok_lookup_total num c Hnum ltac:(lia)). dbase.
      assert (B * dval (take m (drop (S c) num)) <= B * (D - 1)) by (apply Z.mul_le_mono_nonneg_l; lia). lia. }
    pose proof (div_step_spec den s w top Hden Hs Hne Hnorm Hfit Hw Hlw Htop HW) as Hstep.
    cbv zeta in Hstep. fold m D in Hstep. rewrite Hnext.
    set (q := Z.lor (dbl (Z.shiftl top DIG_SIZE)) (w !!! (m - 1)%nat) / lead_digit den s) in *.
    destruct (div_sub den w s q 0 0) as [w1 b]. destruct Hstep as (w2 & -> & Hok2 & Hl2 & Hv2 & HqB).
    set (W := dval w + B ^ Z.of_nat m * top) in *. set (Q := W / D) in *.
    cbn [mbind option_bind]. destruct (Nat.ltb_spec c (length quo)); [|lia].
    rewrite land_mask, (Z.mod_small Q) by lia. fold m in Hl2.
    set (num1 := take c num ++ w2 ++ drop (c + m) num).
    assert (Hn1 : digs_ok num1).
    { apply digs_ok_app; split; [auto with mp|]. apply digs_ok_app; split; [done|by apply digs_ok_drop]. }
    assert (Hlen1 : length num1 = length num).
    { unfold num1. rewrite !length_app, length_take, length_drop. lia. }
    assert (Hd1 : drop c num1 = w2 ++ drop (c + m) num).
    { unfold num1. rewrite drop_app_length'; [done|]. rewrite length_take. lia. }
    assert (HD0 : 0 < D) by (pose proof (Bpow_pos (Z.of_nat m) ltac:(lia)); unfold D, m in *; lia).
    destruct (IH num1 (<[c := Q]> quo)) as (num' & quo' & -> & Hnum' & Hl' & Hquo' & Hlq' & Hdr & Hlt' & Hval).
    { done. } { apply Forall_insert; [done|]. unfold is_dig. lia. }
    { lia. } { rewrite length_insert. lia. }
    { rewrite Hd1, take_app_length' by done. rewrite Hv2. apply Z.mod_pos_bound. lia. }
    rewrite length_insert in Hlq'.
    exists num', quo'. split; [done|]. split; [done|]. split; [lia|]. split; [done|]. split; [done|].
    assert (Hqc : quo' !!! c = Q).
    { pose proof (f_equal (fun l => l !!! 0%nat) Hdr) as E. cbv beta in E.
      rewrite !list_lookup_total_alt, !lookup_drop, Nat.add_0_r in E.
      rewrite list_lookup_insert_eq in E by lia. by rewrite list_lookup_total_alt, E. }
    split.
    { replace (S c) with (c + 1)%nat by lia. rewrite <- !drop_drop, Hdr, !drop_drop.
      rewrite drop_insert_lt by lia. done. }
    split; [done|].
    rewrite (take_S_r quo' c Q) by (rewrite <- Hqc; apply list_lookup_lookup_total_lt; lia).
    rewrite dval_snoc, length_take_le by lia.
    assert (E1 : take (c + m) num1 = take c num ++ w2).
    { unfold num1. rewrite app_assoc, take_app_length'; [done|].
      rewrite length_app, length_take. lia. }
    rewrite E1, dval_app, length_take_le in Hval by lia.
    assert (E2 : take (S c + m) num = take c num ++ take (S m) (drop c num)).
    { rewrite take_take_drop. f_equal. lia. }
    rewrite E2, Hw1, dval_app, dval_snoc, Hlw, length_take_le by lia. fold W.
    pose proof (Z.div_mod W D ltac:(lia)) as Hdm. fold Q in Hdm. rewrite <- Hv2 in Hdm.
    fold m. nia.
Qed.

(** [borrow_fits] as a test on the denominator. *)
Definition borrow_fitsb (den : list Z) : bool :=
  match count_leading_zeros (Z.to_nat DIG_SIZE) (den !!! (length den - 1)%nat) 0 with
  | Some s => (length den =? 1)%nat || forallb (fun d => negb (d =? DIG_MASK)) (shlc den s 0)
  | None => false
  end.

Lemma borrow_fitsb_spec den s :
  count_leading_zeros (Z.to_nat DIG_SIZE) (den !!! (length den - 1)%nat) 0 = Some s ->
  borrow_fitsb den = true -> borrow_fits den s.
Proof.
  unfold borrow_fitsb, borrow_fits. intros ->. intros [E|E]%orb_true_iff.
  - left. by apply Nat.eqb_eq.
  - right. apply List.Forall_forall. intros d Hd.
    rewrite forallb_forall in E. specialize (E d Hd). by apply negb_true_iff, Z.eqb_neq in E.
Qed.

(** The denominator, normalised: its leading bit is set. *)
Lemma clz_den den :
  digs_ok den -> normd den -> den <> [] ->
  exists s, count_leading_zeros (Z.to_nat DIG_SIZE) (den !!! (length den - 1)%nat) 0 = Some s
    /\ 0 <= s < DIG_SIZE
    /\ B ^ Z.of_nat (length den) <= 2 * (dval den * 2 ^ s) < 2 * B ^ Z.of_nat (length den).
Proof.
  intros Hok Hn Hne. pose proof DIG_SIZE_ge as HD. destruct den as [|dt l _] using rev_ind; [done|].
  apply digs_ok_app in Hok as [Hl Ht]. apply Forall_cons_1 in Ht as [Ht _].
  unfold normd in Hn. rewrite last_snoc in Hn.
  assert (Hidx : (l ++ [dt]) !!! (length (l ++ [dt]) - 1)%nat = dt).
  { rewrite length_app. simpl. rewrite Nat.add_sub.
    rewrite list_lookup_total_alt, lookup_app_r, Nat.sub_diag by lia. done. }
  rewrite Hidx. dbase. assert (Hdt : 0 < dt) by (assert (dt <> 0) by congruence; lia).
  destruct (clz_spec (Z.to_nat DIG_SIZE) dt 0) as (s & Hs & Hr & Hlo & Hhi); [lia| |].
  { rewrite Z2Nat.id by lia. rewrite <- DIG_BASE_pow. nia. }
  rewrite Z2Nat.id in Hr by lia. exists s. split; [done|]. split; [lia|].
  destruct (shift_pow s Hr) as (HT & HT2 & HB). rewrite dval_snoc, length_app. simpl length.
  rewrite Nat.add_1_r, Bpow_S. pose proof (dval_bound l Hl) as Hb.
  pose proof (Bpow_pos (Z.of_nat (length l)) ltac:(lia)) as HP. set (P := B ^ Z.of_nat (length l)) in *.
  set (U := 2 ^ (DIG_SIZE - s)) in *. set (T := 2 ^ s) in *.
  assert (dt < U) by nia. split; [nia|].
  assert (dval l + P * dt < P * U) by nia. assert (2 * ((dval l + P * dt) * T) < 2 * (P * U * T)) by nia.
  rewrite HB. lia.
Qed.

(** The numerator after the normalising shift, with its extra digit. *)
Lemma div_norm_num_spec num n s :
  digs_ok num -> (n < length num)%nat -> 0 <= s < DIG_SIZE ->
  let o := div_norm_num (take (S n) (<[n := 0]> num)) s 0 in
  digs_ok o /\ length o = S n /\ dval o = dval (take n num) * 2 ^ s.
Proof.
  intros Hnum Hn Hs o. destruct (shift_pow s Hs) as (HT & HT2 & HB). dbase.
  assert (Htk : take (S n) (<[n := 0]> num) = take n num ++ [0]).
  { rewrite (take_S_r _ _ 0) by (apply list_lookup_insert_eq; lia). by rewrite take_insert_ge by lia. }
  assert (Hok : digs_ok (take n num ++ [0])).
  { apply digs_ok_snoc; [auto with mp|]. unfold is_dig. lia. }
  unfold o. rewrite Htk, div_norm_num_shlc by (done || lia).
  destruct (shlc_spec (take n num ++ [0]) s 0) as (Ho & Hl & Hv).
  rewrite length_app, length_take_le in Hl by lia. simpl in Hl.
  split; [done|]. split; [lia|]. rewrite Hv, dval_snoc, Z.mul_0_r, !Z.add_0_r.
  apply Z.mod_small. rewrite length_app, length_take_le by lia. simpl. rewrite Nat.add_1_r, Bpow_S.
  pose proof (dval_bound (take n num) ltac:(auto with mp)) as Hb. rewrite length_take_le in Hb by lia. nia.
Qed.

(** Correctness of [mpn_div]: quotient and remainder of the two naturals, in
    normal form, without a store outside the two buffers; the division loop
    and the loops inside it end. *)
Lemma mpn_div_spec num n den quo :
  digs_ok num -> (n < length num)%nat -> normd (take n num) ->
  digs_ok den -> normd den -> den <> [] -> borrow_fitsb den = true ->
  digs_ok quo -> (n < length quo)%nat ->
  exists num' rl quo' ql, mpn_div num n den quo = Some (num', rl, (quo', ql))
    /\ digs_ok num' /\ length num' = length num /\ (rl <= length num)%nat
    /\ digs_ok quo' /\ length quo' = length quo /\ (ql <= length quo)%nat
    /\ dval (take ql quo') = dval (take n num) / dval den
    /\ dval (take rl num') = dval (take n num) mod dval den
    /\ normd (take ql quo') /\ normd (take rl num').
Proof.
  intros Hnum Hn Hnn Hden Hnd Hne Hfit Hquo Hlq. dbase.
  set (N := dval (take n num)). unfold mpn_div.
  rewrite mpn_cmp_spec by auto with mp. fold N.
  assert (HN0 : 0 <= N) by (apply dval_bound; auto with mp).
  assert (Hd0 : 0 < dval den).
  { pose proof (normd_nonzero den Hden Hnd Hne). pose proof (Bpow_pos (Z.of_nat (length den) - 1)).
    destruct den; [done|]. simpl length in *. lia. }
  destruct (Z.sgn_spec (N - dval den)) as [(Hs & ->)|[(Hs & ->)|(Hs & ->)]].
  - change (1 =? 0) with false. change (1 <? 0) with false. cbv iota.
    destruct (clz_den den Hden Hnd Hne) as (s & Hclz & Hsr & Hnorm). rewrite Hclz. cbn [mbind option_bind].
    destruct (Nat.ltb_spec n (length num)); [|lia].
    destruct (div_norm_num_spec num n s Hnum Hn Hsr) as (Ho & Hlo & Hvo).
    set (o := div_norm_num (take (S n) (<[n:=0]> num)) s 0) in *.
    destruct (shift_pow s Hsr) as (HT & HT2 & HB). set (m := length den) in *.
    assert (Hmn : (m <= n)%nat).
    { destruct (decide (m <= n)%nat); [done|]. exfalso.
      pose proof (dval_lt_length (take n num) den ltac:(auto with mp) Hden Hnd) as Hlt.
      rewrite length_take_le in Hlt by lia. fold N m in Hlt. specialize (Hlt ltac:(lia)). lia. }
    set (num1 := o ++ drop (S n) (<[n := 0]> num)).
    assert (Hok1 : digs_ok num1).
    { apply digs_ok_app. split; [done|]. apply digs_ok_drop, Forall_insert; [done|]. unfold is_dig. lia. }
    assert (Hl1 : length num1 = length num).
    { unfold num1. rewrite length_app, length_drop, length_insert. lia. }
    destruct (mpn_div_loop_spec den s (S n - m) num1 quo) as (num2 & quo2 & Hloop & Hok2 & Hl2 & Hq2 & Hlq2 & _ & Hr2 & Hv2);
      [done|done|done|done|by apply borrow_fitsb_spec|done|done|fold m; lia|lia| |].
    { fold m. rewrite take_drop_commute. replace (S n - m + m)%nat with (S n) by lia.
      unfold num1. rewrite take_app_length' by done. rewrite dval_drop_div by done. rewrite Hvo. fold N.
      apply Z.div_lt_upper_bound; [apply Bpow_pos; lia|].
      pose proof (normd_nonzero den Hden Hnd Hne) as Hnz. fold m in Hnz.
      pose proof (dval_bound (take n num) ltac:(auto with mp)) as Hb. rewrite length_take_le in Hb by lia. fold N in Hb.
      assert (B ^ Z.of_nat n <= B ^ Z.of_nat (S n - m) * dval den); [|nia].
      replace (Z.of_nat n) with (Z.of_nat (S n - m) + (Z.of_nat m - 1)) by lia.
      rewrite Z.pow_add_r by (unfold m; destruct den; [done|simpl; lia]).
      apply Z.mul_le_mono_nonneg_l; [apply Z.lt_le_incl, Bpow_pos; lia|done]. }
    fold m in Hr2, Hv2. rewrite Hloop. cbn [mbind option_bind].
    replace (S n - m + m)%nat with (S n) in Hv2 by lia.
    replace (take (S n) num1) with o in Hv2 by (unfold num1; by rewrite take_app_length' by done).
    rewrite Hvo in Hv2. fold N in Hv2.
    set (R := dval (take m num2)) in *. set (Q := dval (take (S n - m) quo2)) in *.
    pose proof (dval_bound (take m num2) ltac:(auto with mp)) as HRb. fold R in HRb.
    pose proof (dval_bound (take (S n - m) quo2) ltac:(auto with mp)) as HQb. fold Q in HQb.
    destruct (div_unnorm_spec (reverse (take m num2)) s 0 ltac:(auto with mp) ltac:(lia) Hsr) as (Ho3 & Hl3 & Hv3).
    rewrite Z.mod_0_l, !Z.mul_0_l, Z.add_0_l, reverse_involutive in * by lia. fold R in Hv3.
    set (u := div_unnorm_num (reverse (take m num2)) s 0) in *.
    rewrite length_reverse, length_take_le in Hl3 by lia.
    assert (HRs : R = (N - Q * dval den) * 2 ^ s) by lia.
    rewrite HRs, Z.div_mul in Hv3 by lia.
    assert (HQR : Q = N / dval den /\ N - Q * dval den = N mod dval den).
    { assert (0 <= N - Q * dval den < dval den) by nia. split.
      - apply (Z.div_unique _ _ _ (N - Q * dval den)); lia.
      - apply (Z.mod_unique _ _ Q); lia. }
    destruct HQR as [HQ HR].
    assert (Hl4 : length (reverse u ++ drop m num2) = length num).
    { rewrite length_app, length_reverse, length_drop. lia. }
    destruct (rtz_spec (reverse u ++ drop m num2) m ltac:(lia)) as (Hrl & Hrv & Hrn).
    destruct (rtz_spec quo2 (S n - m) ltac:(lia)) as (Hql & Hqv & Hqn).
    do 4 eexists. split; [reflexivity|].
    split; [apply digs_ok_app; split; [auto with mp|by apply digs_ok_drop]|].
    split; [done|]. split; [lia|]. split; [done|]. split; [done|]. split; [lia|].
    split; [rewrite Hqv; fold Q; done|]. split; [|split; done].
    rewrite Hrv, take_app_length' by (rewrite length_reverse; lia). by rewrite Hv3, HR.
  - assert (HNd : N = dval den) by lia. change (0 =? 0) with true. cbv iota.
    destruct (Nat.ltb_spec 0 (length quo)); [|lia]. do 4 eexists. split; [reflexivity|].
    split; [done|]. split; [done|]. split; [lia|].
    split; [apply Forall_insert; [done|unfold is_dig; lia]|]. split; [apply length_insert|]. split; [lia|].
    destruct quo as [|q0 quo]; [simpl in *; lia|]. simpl.
    rewrite HNd, Z.div_same, Z.mod_same, Z.mul_0_r by lia. split_and!; done.
  - change (-1 =? 0) with false. change (-1 <? 0) with true. cbv iota.
    do 4 eexists. split; [reflexivity|]. split_and!; try done; try lia.
    + rewrite Z.div_small by lia. done.
    + fold N. by rewrite Z.mod_small by lia.
Qed.

End MpnDiv.

(** [(2^48 - 1)^2 / (2^48 - 1)] with 16-bit digits. *)
Definition all_ones48 : list Z := [65535; 65535; 65535].
Definition all_ones48_sq : list Z := [1; 0; 0; 65534; 65535; 65535].
