(* ===== verification/MpnBits.v ===== *)
(** The bitwise [mpn_*] functions of [py/mpz.c] (with [MICROPY_OPT_MPZ_BITWISE]).

    Negative operands are given as magnitudes; the [_neg] routines turn them
    into two's complement digit by digit, with a carry for each operand and
    one for the result.  The conventions on output arrays are those of [Mpn]. *)
From S2P Require Import Prelude Digits Mpn.

Section MpnBits.
Context {cfg : MpzCfg}.
Abbreviation B := (@DIG_BASE cfg).

Definition mpn_and (jdig kdig : list Z) : list Z * nat :=
  let idig := zip_with Z.land jdig kdig in
  (idig, mpn_remove_trailing_zeros idig (length kdig)).

(** The loop of the three [_neg] routines below.  [op] combines the two
    carries, [jterm] and [kterm] turn a digit of an operand into what is added
    to its carry, [kdef] is what is added once [k] has no more digits. *)
Fixpoint mpn_neg_loop (op : Z -> Z -> Z) (imask : Z) (jterm kterm : Z -> Z) (kdef : Z)
    (jdig kdig : list Z) (carryi carryj carryk : Z) : list Z * Z :=
  match jdig with
  | [] => ([], carryi)
  | j :: jdig =>
      let carryj := dbl (carryj + jterm j) in
      let '(kt, kdig) := match kdig with [] => (kdef, []) | k :: kdig => (kterm k, kdig) end in
      let carryk := dbl (carryk + kt) in
      let carryi := dbl (carryi + Z.land (Z.lxor (op carryj carryk) imask) DIG_MASK) in
      let '(ds, c) := mpn_neg_loop op imask jterm kterm kdef jdig kdig (Z.shiftr carryi DIG_SIZE)
                        (Z.shiftr carryj DIG_SIZE) (Z.shiftr carryk DIG_SIZE) in
      (Z.land carryi DIG_MASK :: ds, c)
  end.

Definition carry_mask (carry : Z) : Z := if 0 =? carry then 0 else DIG_MASK.

Definition mpn_and_neg (jdig kdig : list Z) (carryi carryj carryk : Z) : list Z * nat :=
  let kmask := carry_mask carryk in
  let '(idig, carryi) :=
    mpn_neg_loop Z.land (carry_mask carryi) (Z.lxor (carry_mask carryj)) (Z.lxor kmask) kmask
      jdig kdig carryi carryj carryk in
  let idig := if negb (0 =? carryi) then idig ++ [dgt carryi] else idig in
  (idig, mpn_remove_trailing_zeros idig (length idig)).

Definition mpn_or (jdig kdig : list Z) : list Z :=
  zip_with Z.lor jdig kdig ++ drop (length kdig) jdig.

(** [None] is a failure of [assert(carryi == 0)]. *)
Definition mpn_or_neg (jdig kdig : list Z) (carryj carryk : Z) : option (list Z * nat) :=
  let kmask := carry_mask carryk in
  let '(idig, carryi) :=
    mpn_neg_loop Z.lor DIG_MASK (Z.lxor (carry_mask carryj)) (Z.lxor kmask) kmask
      jdig kdig 1 carryj carryk in
  if carryi =? 0 then Some (idig, mpn_remove_trailing_zeros idig (length idig)) else None.

Definition mpn_xor (jdig kdig : list Z) : list Z * nat :=
  let idig := zip_with Z.lxor jdig kdig ++ drop (length kdig) jdig in
  (idig, mpn_remove_trailing_zeros idig (length idig)).

Definition mpn_xor_neg (jdig kdig : list Z) (carryi carryj carryk : Z) : list Z * nat :=
  let '(idig, carryi) :=
    mpn_neg_loop Z.lxor 0 (fun j => j + DIG_MASK) (fun k => k + DIG_MASK) DIG_MASK
      jdig kdig carryi carryj carryk in
  let idig := if negb (0 =? carryi) then idig ++ [dgt carryi] else idig in
  (idig, mpn_remove_trailing_zeros idig (length idig)).

(** ** Bitwise operators act on digits independently *)

Class BitOp (op : Z -> Z -> Z) := {
  bit_fun : bool -> bool -> bool;
  bit_fun_ff : bit_fun false false = false;
  bit_fun_spec x y i : 0 <= i -> Z.testbit (op x y) i = bit_fun (Z.testbit x i) (Z.testbit y i) }.

#[export] Instance land_bitop : BitOp Z.land.
Proof. refine {| bit_fun := andb; bit_fun_ff := eq_refl; bit_fun_spec := _ |}. intros. apply Z.land_spec. Defined.
#[export] Instance lor_bitop : BitOp Z.lor.
Proof. refine {| bit_fun := orb; bit_fun_ff := eq_refl; bit_fun_spec := _ |}. intros. apply Z.lor_spec. Defined.
#[export] Instance lxor_bitop : BitOp Z.lxor.
Proof. refine {| bit_fun := xorb; bit_fun_ff := eq_refl; bit_fun_spec := _ |}. intros. apply Z.lxor_spec. Defined.

Section Op.
Context (op : Z -> Z -> Z) `{HB : !BitOp op}.

Lemma bitop_mod x y n : 0 <= n -> op x y mod 2 ^ n = op (x mod 2 ^ n) (y mod 2 ^ n).
Proof.
  intros Hn. apply Z.bits_inj'. intros i Hi. rewrite (bit_fun_spec (op:=op)) by done.
  destruct (Z.ltb_spec i n).
  - by rewrite !Z.mod_pow2_bits_low, (bit_fun_spec (op:=op)) by lia.
  - by rewrite !Z.mod_pow2_bits_high, (bit_fun_ff (op:=op)) by lia.
Qed.

Lemma bitop_div x y n : 0 <= n -> op x y / 2 ^ n = op (x / 2 ^ n) (y / 2 ^ n).
Proof.
  intros Hn. apply Z.bits_inj'. intros i Hi. rewrite (bit_fun_spec (op:=op)) by done.
  rewrite !Z.div_pow2_bits by lia. by rewrite (bit_fun_spec (op:=op)) by lia.
Qed.

Lemma bitop_dig x y : op x y = op x y mod B + B * op (x / B) (y / B).
Proof.
  pose proof DIG_SIZE_ge. rewrite (carry_step (op x y)) at 1.
  rewrite DIG_BASE_pow, bitop_div by lia. done.
Qed.

(** A digit of a result only depends on the digits of the operands. *)
Lemma bitop_mod_cong x y x' y' : x mod B = x' mod B -> y mod B = y' mod B -> op x y mod B = op x' y' mod B.
Proof.
  pose proof DIG_SIZE_ge. rewrite DIG_BASE_pow. intros Hx Hy.
  by rewrite (bitop_mod x y), Hx, Hy, <- bitop_mod by lia.
Qed.

Lemma bitop_bound x y n : 0 <= n -> 0 <= x < 2 ^ n -> 0 <= y < 2 ^ n -> 0 <= op x y < 2 ^ n.
Proof.
  intros Hn Hx Hy. pose proof (bitop_mod x y n Hn) as E.
  rewrite (Z.mod_small x), (Z.mod_small y) in E by lia.
  rewrite <- E. apply Z.mod_pos_bound, pow2_pos. lia.
Qed.

Lemma bitop_digs x d y e : is_dig d -> is_dig e ->
  op (d + B * x) (e + B * y) = op d e + B * op x y /\ is_dig (op d e).
Proof.
  dbase. pose proof DIG_SIZE_ge. intros Hd He. rewrite bitop_dig.
  assert (Hq : forall r z, 0 <= r < B -> (r + B * z) / B = z /\ (r + B * z) mod B = r mod B).
  { intros r z Hr. rewrite (Z.mul_comm B). split; [|by rewrite Z_mod_plus_full].
    rewrite Z_div_plus_full, Z.div_small by lia. lia. }
  destruct (Hq d x Hd) as [-> E1]. destruct (Hq e y He) as [-> E2].
  rewrite (bitop_mod_cong _ _ d e E1 E2). rewrite DIG_BASE_pow in *.
  assert (0 <= op d e < 2 ^ DIG_SIZE) by (apply bitop_bound; lia).
  by rewrite (Z.mod_small (op d e)) by lia.
Qed.
End Op.

(** ** The plain loops *)

Lemma zip_op_spec op `{HB : !BitOp op} j k :
  digs_ok j -> digs_ok k -> (length k <= length j)%nat ->
  digs_ok (zip_with op j k) /\
  op (dval j) (dval k) = dval (zip_with op j k) + B ^ Z.of_nat (length k) * op (dval (drop (length k) j)) 0.
Proof.
  intros Hj Hk. revert j Hj. induction Hk as [|e k He Hk IH]; intros j Hj Hl.
  { rewrite zip_with_nil_r. split; [constructor|]. simpl length. rewrite drop_0. cbn [dval].
    rewrite Z.pow_0_r. lia. }
  destruct j as [|d j]; [simpl in Hl; lia|]. digs_cons.
  destruct (IH j Hj) as (Hok & Hv); [simpl in Hl; lia|].
  cbn [zip_with dval length drop]. destruct (bitop_digs op (dval j) d (dval k) e) as [-> Hde]; [done|done|].
  rewrite Hv, Bpow_S. split; [by constructor|lia].
Qed.

Lemma mpn_and_spec j k :
  digs_ok j -> digs_ok k -> (length k <= length j)%nat ->
  let '(i, n) := mpn_and j k in
  digs_ok i /\ length i = length k /\ (n <= length i)%nat
  /\ dval (take n i) = Z.land (dval j) (dval k) /\ normd (take n i).
Proof.
  intros Hj Hk Hl. unfold mpn_and. destruct (zip_op_spec Z.land j k Hj Hk Hl) as [Hok Hv].
  assert (Hlen : length (zip_with Z.land j k) = length k) by (rewrite length_zip_with; lia).
  destruct (rtz_spec (zip_with Z.land j k) (length k)) as (Hn & Ht & Hm); [lia|].
  split; [done|]. split; [done|]. split; [lia|]. split; [|done].
  rewrite Ht, take_ge, Hv, Z.land_0_r by lia. lia.
Qed.

Lemma zip_drop_spec op `{HB : !BitOp op} j k :
  (forall x, op x 0 = x) -> digs_ok j -> digs_ok k -> (length k <= length j)%nat ->
  let i := zip_with op j k ++ drop (length k) j in
  digs_ok i /\ length i = length j /\ dval i = op (dval j) (dval k).
Proof.
  intros H0 Hj Hk Hl i. destruct (zip_op_spec op j k Hj Hk Hl) as [Hok Hv]. unfold i.
  split; [apply digs_ok_app; split; [done|by apply Forall_drop]|].
  rewrite length_app, length_drop, dval_app, length_zip_with, Nat.min_r by lia.
  split; [lia|]. by rewrite Hv, H0.
Qed.

Lemma mpn_xor_spec j k :
  digs_ok j -> digs_ok k -> (length k <= length j)%nat ->
  let '(i, n) := mpn_xor j k in
  digs_ok i /\ length i = length j /\ (n <= length i)%nat
  /\ dval (take n i) = Z.lxor (dval j) (dval k) /\ normd (take n i).
Proof.
  intros Hj Hk Hl. unfold mpn_xor.
  destruct (zip_drop_spec Z.lxor j k) as (Hok & Hlen & Hv); [apply Z.lxor_0_r|done|done|done|].
  set (i := _ ++ _) in *. destruct (rtz_spec i (length i)) as (Hn & Ht & Hm); [lia|].
  split; [done|]. split; [lia|]. split; [lia|]. split; [|done]. by rewrite Ht, take_ge by lia.
Qed.

(** [mpn_or] does not trim: the top digit of the longer operand stays. *)
Lemma mpn_or_spec j k :
  digs_ok j -> digs_ok k -> normd j -> (length k <= length j)%nat ->
  let i := mpn_or j k in
  digs_ok i /\ length i = length j /\ dval i = Z.lor (dval j) (dval k) /\ normd i.
Proof.
  intros Hj Hk Hn Hl. unfold mpn_or.
  destruct (zip_drop_spec Z.lor j k) as (Hok & Hlen & Hv); [apply Z.lor_0_r|done|done|done|].
  cbv zeta. set (i := _ ++ _) in *. repeat split; [done|done|done|].
  apply normd_of_bound; [done|]. destruct (decide (j = [])) as [->|Hne]; [left; by destruct i|right].
  pose proof (normd_nonzero j Hj Hn Hne) as Hb. pose proof (dval_bound j Hj). pose proof (dval_bound k Hk).
  rewrite Hlen, Hv. assert (dval j <= Z.lor (dval j) (dval k)); [|lia].
  apply Z.ldiff_le; [apply Z.lor_nonneg; lia|].
  apply Z.bits_inj'. intros b Hbp. rewrite Z.ldiff_spec, Z.lor_spec, Z.bits_0.
  by destruct (Z.testbit (dval j) b), (Z.testbit (dval k) b).
Qed.

(** ** The two's complement loops *)

(** [adds term X]: adding [term d] to a carry [c] consumes the digit [d] of an
    operand whose remaining value is [X ds] (plus the carry). *)
Definition adds (term : Z -> Z) (X : list Z -> Z) : Prop :=
  forall d ds, is_dig d -> X (d :: ds) = term d + B * X ds /\ 0 <= term d <= 2 * B - 2.

Lemma lxor_mask d : is_dig d -> Z.lxor DIG_MASK d = DIG_MASK - d.
Proof.
  dbase. pose proof DIG_SIZE_ge. intros Hd.
  assert (HM : DIG_MASK = Z.ones DIG_SIZE).
  { unfold DIG_MASK. rewrite Z.shiftl_1_l, Z.ones_equiv. lia. }
  assert (E : Z.lxor DIG_MASK d = Z.ldiff DIG_MASK d).
  { apply Z.bits_inj'. intros i Hi. rewrite Z.lxor_spec, Z.ldiff_spec, HM, Z.testbit_ones by lia.
    destruct (Z.ltb_spec i DIG_SIZE).
    - assert ((0 <=? i) = true) as -> by lia. by destruct (Z.testbit d i).
    - assert (Z.testbit d i = false) as ->.
      { replace d with (d mod 2 ^ DIG_SIZE) by (apply Z.mod_small; rewrite <- DIG_BASE_pow; lia).
        apply Z.mod_pow2_bits_high. lia. }
      by rewrite andb_false_r. }
  rewrite E. symmetry. apply Z.sub_nocarry_ldiff.
  apply Z.bits_inj'. intros i Hi. rewrite Z.ldiff_spec, HM, Z.testbit_ones, Z.bits_0 by lia.
  destruct (Z.ltb_spec i DIG_SIZE).
  - assert ((0 <=? i) = true) as -> by lia. by rewrite andb_false_r.
  - replace d with (d mod 2 ^ DIG_SIZE) by (apply Z.mod_small; rewrite <- DIG_BASE_pow; lia).
    by rewrite Z.mod_pow2_bits_high by lia.
Qed.

Lemma DIG_MASK_eq : DIG_MASK = B - 1.
Proof. unfold DIG_MASK, DIG_BASE. lia. Qed.

(** The complement ([mask] all ones) or the digits themselves. *)
Definition cmpl (neg : bool) (ds : list Z) : Z := if neg then - dval ds - 1 else dval ds.

Lemma adds_cmpl neg : adds (Z.lxor (carry_mask (Z.b2z neg))) (cmpl neg).
Proof.
  intros d ds Hd. dbase. destruct neg; cbn [Z.b2z carry_mask cmpl dval].
  - unfold carry_mask. change (0 =? 1) with false. cbv iota. rewrite lxor_mask, DIG_MASK_eq by done. lia.
  - unfold carry_mask. change (0 =? 0) with true. cbv iota. rewrite Z.lxor_0_l. lia.
Qed.

Lemma adds_pred : adds (fun d => d + DIG_MASK) (fun ds => dval ds - 1).
Proof. intros d ds Hd. rewrite DIG_MASK_eq. cbn [dval]. dbase. lia. Qed.


Lemma div_dig_mod x z : (x mod B + B * z) / B = z.
Proof.
  pose proof (mod_dig_range x). rewrite (Z.mul_comm B), Z_div_plus_full, Z.div_small by lia. lia.
Qed.

Lemma mpn_neg_loop_spec op `{HB : !BitOp op} im IM tj tk kdef X Y j k ci cj ck :
  IM = im + B * IM -> is_dig im -> adds tj X -> adds tk Y -> Y [] = kdef + B * Y [] -> is_dig kdef ->
  digs_ok j -> digs_ok k -> (length k <= length j)%nat ->
  0 <= ci <= 1 -> 0 <= cj <= 1 -> 0 <= ck <= 1 ->
  let '(ds, c) := mpn_neg_loop op im tj tk kdef j k ci cj ck in
  digs_ok ds /\ length ds = length j /\ 0 <= c <= 1 /\
  let P := B ^ Z.of_nat (length j) in
  dval ds + P * (c + Z.lxor (op ((X j + cj) / P) ((Y k + ck) / P)) IM)
  = ci + Z.lxor (op (X j + cj) (Y k + ck)) IM.
Proof.
  intros HIM Him HX HY HYn Hkd Hj. revert k ci cj ck.
  induction Hj as [|d j Hd Hj IH]; intros k ci cj ck Hk Hl Hci Hcj Hck.
  { destruct k; [|simpl in Hl; lia]. cbn [mpn_neg_loop length]. repeat split; [constructor|lia|lia|].
    rewrite Z.pow_0_r, !Z.div_1_r. cbn [dval]. lia. }
  cbn [mpn_neg_loop].
  set (p := match k with [] => (kdef, []) | k :: kdig => (tk k, kdig) end).
  assert (Hp : Y k = p.1 + B * Y p.2 /\ 0 <= p.1 <= 2 * B - 2 /\ digs_ok p.2
               /\ (length p.2 <= length j)%nat).
  { unfold p. destruct k as [|e k]; simpl; [dbase; repeat split; [lia|lia|lia|done|lia]|].
    digs_cons. simpl in Hl. destruct (HY e k); [done|]. repeat split; [lia|lia|lia|done|lia]. }
  clearbody p. destruct p as [kt k']. simpl fst in Hp; simpl snd in Hp. destruct Hp as (HYk & Hkt & Hk' & Hl').
  destruct (HX d j Hd) as [HXd Htj]. dbase.
  rewrite (dbl_id (cj + tj d)), (dbl_id (ck + kt)) by lia.
  set (a := cj + tj d) in *. set (b := ck + kt) in *. dnorm.
  set (v := Z.lxor (op (a mod B) (b mod B)) im).
  destruct (bitop_digs op (X j + a / B) (a mod B) (Y k' + b / B) (b mod B)) as [Eop Hop]; [auto with mp..|].
  destruct (bitop_digs Z.lxor (op (X j + a / B) (Y k' + b / B)) (op (a mod B) (b mod B)) IM im)
    as [Ex Hv]; [done|done|]. fold v in Ex, Hv. unfold is_dig in Hv.
  assert (Ev : Z.lxor (op a b) im mod B = v).
  { rewrite <- (Z.mod_small v B) by lia. unfold v.
    apply (bitop_mod_cong Z.lxor); [|done].
    apply (bitop_mod_cong op); symmetry; apply Z.mod_mod; lia. }
  rewrite Ev, (dbl_id (ci + v)) by lia. dnorm.
  assert (Hcar : forall x, 0 <= x <= 2 * B - 1 -> 0 <= x / B <= 1).
  { intros x Hx. split; [apply Z.div_pos; lia|]. assert (x / B < 2); [|lia]. apply Z.div_lt_upper_bound; lia. }
  specialize (IH k' ((ci + v) / B) (a / B) (b / B) Hk' Hl'
    ltac:(apply Hcar; lia) ltac:(apply Hcar; lia) ltac:(apply Hcar; lia)).
  destruct (mpn_neg_loop op im tj tk kdef j k' _ _ _) as [ds c].
  destruct IH as (Hok & Hlen & Hc & E).
  split; [constructor; [apply mod_dig_range|done]|]. cbn [length dval]. split; [lia|]. split; [done|].
  cbv zeta. rewrite Bpow_S. pose proof (Bpow_pos (Z.of_nat (length j)) ltac:(lia)) as HP.
  set (P := B ^ Z.of_nat (length j)) in *.
  replace (X (d :: j) + cj) with (a mod B + B * (X j + a / B)) by (pose proof (carry_step a); unfold a in *; lia).
  replace (Y k + ck) with (b mod B + B * (Y k' + b / B)) by (pose proof (carry_step b); unfold b in *; lia).
  rewrite <- !Z.div_div, !div_dig_mod by lia.
  rewrite Eop. rewrite <- HIM in Ex. rewrite Ex. pose proof (carry_step (ci + v)). nia.
Qed.

(** ** The operators on signed numbers *)

Definition sgz (neg : bool) (ds : list Z) : Z := if neg then - dval ds else dval ds.

Lemma cmpl_sgz neg ds : cmpl neg ds + Z.b2z neg = sgz neg ds.
Proof. destruct neg; simpl; lia. Qed.

(** What is left of an operand above all digits: its sign. *)
Lemma sgz_div (neg : bool) ds n :
  digs_ok ds -> (length ds <= n)%nat -> (neg = true -> dval ds <> 0) ->
  sgz neg ds / B ^ Z.of_nat n = if neg then -1 else 0.
Proof.
  intros Hok Hl Hz. pose proof (dval_bound ds Hok) as Hb. dbase.
  assert (B ^ Z.of_nat (length ds) <= B ^ Z.of_nat n) by (apply Z.pow_le_mono_r; lia).
  destruct neg; simpl.
  - specialize (Hz eq_refl). symmetry. apply (Z.div_unique _ _ _ (B ^ Z.of_nat n - dval ds)); lia.
  - apply Z.div_small. lia.
Qed.

(** Room and normal form of a result given with its final carry. *)
Lemma carry_out_spec ds c l :
  digs_ok ds -> length ds = l -> 0 <= c <= 1 ->
  let i := if negb (0 =? c) then ds ++ [dgt c] else ds in
  let n := mpn_remove_trailing_zeros i (length i) in
  digs_ok i /\ (length i <= S l)%nat /\ (c = 0 -> length i = l) /\ (n <= length i)%nat
  /\ dval (take n i) = dval ds + B ^ Z.of_nat l * c /\ normd (take n i).
Proof.
  intros Hok Hl Hc i n. dbase.
  destruct (rtz_spec i (length i)) as (Hn & Hv & Hm); [lia|]. fold n in Hn, Hv, Hm.
  rewrite (take_ge i (length i)) in Hv by lia. rewrite Hv.
  assert (Hi : digs_ok i /\ (length i <= S l)%nat /\ (c = 0 -> length i = l)
               /\ dval i = dval ds + B ^ Z.of_nat l * c).
  { unfold i. destruct (Z.eqb_spec 0 c) as [<-|Hc0]; cbn [negb]; [repeat split; [done|lia|lia|lia]|].
    rewrite dgt_id, dval_snoc, length_app by lia. simpl length.
    repeat split; [apply digs_ok_snoc; [done|unfold is_dig; lia]|lia|lia|by rewrite Hl]. }
  destruct Hi as (? & ? & ? & ?). repeat split; done || lia.
Qed.

Lemma is_dig_mask c : is_dig (carry_mask c).
Proof. unfold carry_mask. dbase. rewrite DIG_MASK_eq. destruct (0 =? c); lia. Qed.

Lemma carry_mask_fix (b : bool) : (if b then -1 else 0) = carry_mask (Z.b2z b) + B * (if b then -1 else 0).
Proof. destruct b; unfold carry_mask; simpl; rewrite ?DIG_MASK_eq; lia. Qed.

Lemma cmpl_nil neg : cmpl neg [] = carry_mask (Z.b2z neg) + B * cmpl neg [].
Proof. destruct neg; unfold carry_mask; simpl; rewrite ?DIG_MASK_eq; lia. Qed.

(** [mpn_and_neg], with the carries its caller passes for the signs [nj], [nk]. *)
Lemma mpn_and_neg_spec j k nj nk :
  digs_ok j -> digs_ok k -> (length k <= length j)%nat -> (nj || nk)%bool = true ->
  (nj = true -> dval j <> 0) -> (nk = true -> dval k <> 0) ->
  let '(i, n) := mpn_and_neg j k (Z.b2z (Bool.eqb nj nk)) (Z.b2z nj) (Z.b2z nk) in
  digs_ok i /\ (length i <= S (length j))%nat /\ (n <= length i)%nat
  /\ sgz (nj && nk) (take n i) = Z.land (sgz nj j) (sgz nk k) /\ normd (take n i).
Proof.
  intros Hj Hk Hl Hneg Hnj Hnk. unfold mpn_and_neg.
  pose proof (mpn_neg_loop_spec Z.land (carry_mask (Z.b2z (Bool.eqb nj nk))) (if Bool.eqb nj nk then -1 else 0)
    _ _ _ _ _ j k (Z.b2z (Bool.eqb nj nk)) (Z.b2z nj) (Z.b2z nk) (carry_mask_fix _) (is_dig_mask _)
    (adds_cmpl nj) (adds_cmpl nk) (cmpl_nil nk) (is_dig_mask _) Hj Hk Hl
    ltac:(by destruct (Bool.eqb nj nk)) ltac:(by destruct nj) ltac:(by destruct nk)) as Hs.
  destruct (mpn_neg_loop _ _ _ _ _ _ _ _ _ _) as [ds c]. cbv zeta in Hs.
  destruct Hs as (Hok & Hlen & Hc & E). rewrite !cmpl_sgz, !sgz_div in E by done.
  destruct (carry_out_spec ds c (length j) Hok Hlen Hc) as (Hi & Hli & _ & Hn & Hv & Hm).
  repeat split; try done. unfold sgz at 1. rewrite Hv.
  destruct nj, nk; try done; simpl in E |- *; rewrite ?Z.lxor_0_r in *.
  - rewrite !Z.lxor_m1_r in E. unfold Z.lnot in E. change (Z.land (-1) (-1)) with (-1) in E. lia.
  - change (Z.land (-1) 0) with 0 in E. lia.
  - change (Z.land 0 (-1)) with 0 in E. lia.
Qed.

Lemma lor_neg_ge x y : x < 0 -> x <= Z.lor x y.
Proof.
  intros Hx. assert (E : Z.land x (Z.ldiff y x) = 0).
  { apply Z.bits_inj'. intros i Hi. rewrite Z.land_spec, Z.ldiff_spec, Z.bits_0.
    by destruct (Z.testbit x i), (Z.testbit y i). }
  apply Z.add_nocarry_lor in E.
  assert (Z.lor x (Z.ldiff y x) = Z.lor x y) as E2.
  { apply Z.bits_inj'. intros i Hi. rewrite !Z.lor_spec, Z.ldiff_spec.
    by destruct (Z.testbit x i), (Z.testbit y i). }
  assert (0 <= Z.ldiff y x); [|lia]. apply Z.ldiff_nonneg. right. done.
Qed.

(** [mpn_or_neg]: its assertion holds. *)
Lemma mpn_or_neg_spec j k nj nk :
  digs_ok j -> digs_ok k -> (length k <= length j)%nat -> (nj || nk)%bool = true ->
  (nj = true -> dval j <> 0) -> (nk = true -> dval k <> 0) ->
  exists i n, mpn_or_neg j k (Z.b2z nj) (Z.b2z nk) = Some (i, n)
  /\ digs_ok i /\ length i = length j /\ (n <= length i)%nat
  /\ - dval (take n i) = Z.lor (sgz nj j) (sgz nk k) /\ normd (take n i).
Proof.
  intros Hj Hk Hl Hneg Hnj Hnk. unfold mpn_or_neg.
  pose proof (mpn_neg_loop_spec Z.lor DIG_MASK (-1)
    _ _ _ _ _ j k 1 (Z.b2z nj) (Z.b2z nk) (carry_mask_fix true) (is_dig_mask 1)
    (adds_cmpl nj) (adds_cmpl nk) (cmpl_nil nk) (is_dig_mask _) Hj Hk Hl
    ltac:(done) ltac:(by destruct nj) ltac:(by destruct nk)) as Hs.
  destruct (mpn_neg_loop _ _ _ _ _ _ _ _ _ _) as [ds c]. cbv zeta in Hs.
  destruct Hs as (Hok & Hlen & Hc & E). rewrite !cmpl_sgz, !sgz_div in E by done.
  pose proof (dval_bound j Hj). pose proof (dval_bound k Hk). dbase.
  assert (B ^ Z.of_nat (length k) <= B ^ Z.of_nat (length j)) by (apply Z.pow_le_mono_r; lia).
  set (P := B ^ Z.of_nat (length j)) in *.
  assert (HT : Z.lxor (Z.lor (if nj then -1 else 0) (if nk then -1 else 0)) (-1) = 0)
    by (destruct nj, nk; done).
  rewrite HT, Z.lxor_m1_r in E. unfold Z.lnot in E.
  assert (Hge : - P < Z.lor (sgz nj j) (sgz nk k)).
  { destruct nj; simpl in Hneg |- *.
    - specialize (Hnj eq_refl). pose proof (lor_neg_ge (- dval j) (sgz nk k)). lia.
    - subst nk. specialize (Hnk eq_refl). rewrite Z.lor_comm. simpl.
      pose proof (lor_neg_ge (- dval k) (dval j)). lia. }
  pose proof (dval_bound ds Hok) as Hds. rewrite Hlen in Hds. fold P in Hds.
  assert (c = 0) as -> by nia. change (0 =? 0) with true. cbv iota.
  destruct (rtz_spec ds (length ds)) as (Hn & Hv & Hm); [lia|]. rewrite (take_ge ds (length ds)) in Hv by lia.
  eexists _, _. split; [done|]. repeat split; try done. rewrite Hv. lia.
Qed.

Lemma pred_nil : 0 - 1 = DIG_MASK + B * (0 - 1).
Proof. rewrite DIG_MASK_eq. lia. Qed.

Lemma sgz_pred_div (b : bool) ds n :
  digs_ok ds -> (length ds <= n)%nat -> (b = false -> dval ds <> 0) ->
  (dval ds - 1 + Z.b2z b) / B ^ Z.of_nat n = 0.
Proof.
  intros Hok Hl Hz. pose proof (dval_bound ds Hok). dbase.
  assert (B ^ Z.of_nat (length ds) <= B ^ Z.of_nat n) by (apply Z.pow_le_mono_r; lia).
  apply Z.div_small. destruct b; [simpl; lia|]. specialize (Hz eq_refl). simpl. lia.
Qed.

(** [mpn_xor_neg] with at least one negative operand. *)
Lemma mpn_xor_neg_spec j k nj nk :
  digs_ok j -> digs_ok k -> (length k <= length j)%nat -> (nj || nk)%bool = true ->
  (nj = true -> dval j <> 0) -> (nk = true -> dval k <> 0) ->
  let '(i, n) := mpn_xor_neg j k (Z.b2z (xorb nj nk)) (Z.b2z (negb nj)) (Z.b2z (negb nk)) in
  digs_ok i /\ (length i <= S (length j))%nat /\ (nj = nk -> length i = length j) /\ (n <= length i)%nat
  /\ sgz (xorb nj nk) (take n i) = Z.lxor (sgz nj j) (sgz nk k) /\ normd (take n i).
Proof.
  intros Hj Hk Hl Hneg Hnj Hnk. unfold mpn_xor_neg.
  pose proof (mpn_neg_loop_spec Z.lxor 0 0
    _ _ _ _ _ j k (Z.b2z (xorb nj nk)) (Z.b2z (negb nj)) (Z.b2z (negb nk)) ltac:(lia) (is_dig_mask 0)
    adds_pred adds_pred pred_nil (is_dig_mask 1) Hj Hk Hl
    ltac:(by destruct (xorb nj nk)) ltac:(by destruct nj) ltac:(by destruct nk)) as Hs.
  destruct (mpn_neg_loop _ _ _ _ _ _ _ _ _ _) as [ds c]. cbv zeta in Hs.
  destruct Hs as (Hok & Hlen & Hc & E).
  rewrite !sgz_pred_div in E by (done || (destruct nj, nk; simpl; auto)).
  change (Z.lxor (Z.lxor 0 0) 0) with 0 in E. rewrite Z.lxor_0_r, Z.add_0_r in E.
  destruct (carry_out_spec ds c (length j) Hok Hlen Hc) as (Hi & Hli & Hc0 & Hn & Hv & Hm).
  split; [done|]. split; [done|]. split.
  - intros <-. apply Hc0. pose proof (dval_bound ds Hok). rewrite Hlen in *.
    assert (Hb : 0 <= dval j - 1 + Z.b2z (negb nj) < B ^ Z.of_nat (length j)
              /\ 0 <= dval k - 1 + Z.b2z (negb nj) < B ^ Z.of_nat (length j)).
    { pose proof (dval_bound j Hj). pose proof (dval_bound k Hk). dbase.
      assert (B ^ Z.of_nat (length k) <= B ^ Z.of_nat (length j)) by (apply Z.pow_le_mono_r; lia).
      destruct nj; simpl in *; [specialize (Hnj eq_refl); specialize (Hnk eq_refl)|]; lia. }
    rewrite DIG_BASE_pow, <- Z.pow_mul_r in * by (pose proof DIG_SIZE_ge; lia).
    destruct Hb as [Hb1 Hb2]. pose proof DIG_SIZE_ge.
    assert (0 <= DIG_SIZE * Z.of_nat (length j)) as HP by lia.
    pose proof (bitop_bound Z.lxor _ _ _ HP Hb1 Hb2). rewrite xorb_nilpotent in E. simpl in E. nia.
  - split; [done|]. split; [|done]. unfold sgz at 1. rewrite Hv.
    assert (Hx : forall x, - x = Z.lnot (x - 1)) by (intros; unfold Z.lnot; lia).
    destruct nj, nk; try done; simpl in E |- *.
    + rewrite (Hx (dval j)), (Hx (dval k)), Z.lxor_lnot_lnot, E, !Z.add_0_r. done.
    + rewrite E, (Hx (dval j)), <- Z.lnot_lxor_l. replace (dval k - 1 + 1) with (dval k) by lia.
      rewrite Z.add_0_r. unfold Z.lnot. lia.
    + rewrite E, (Hx (dval k)), <- Z.lnot_lxor_r. replace (dval j - 1 + 1) with (dval j) by lia.
      rewrite Z.add_0_r. unfold Z.lnot. lia.
Qed.
End MpnBits.
