(* ===== verification/Mpz.v ===== *)
(** The [mpz_t] objects of [py/mpz.c] and the operations on them.

    An operation gets pointers to its operands and to the destination, which
    may be the same object; so the objects live in a store, and a pointer is a
    key of it.  [None] is an assertion that fails, a store outside a digit
    buffer, or an access to an object that does not exist.  Allocation
    ([m_new], [m_renew]) is taken to succeed: a failing one raises
    [MemoryError] and does not return. *)
From S2P Require Import Prelude SmallInt Digits Mpn MpnBits MpnDiv.

(** [mpz_t]; the field [alloc] is the length of the buffer [dig], and a [NULL]
    [dig] is the empty buffer. *)
Record mpz_t := MkMpz { neg : bool; fixed_dig : bool; len : nat; dig : list Z }.

Abbreviation mpz_store := (gmap nat mpz_t).
Abbreviation MZ := (M mpz_store).

Section Mpz.
Context {wcfg : WordCfg} {cfg : MpzCfg}.
Abbreviation B := (@DIG_BASE cfg).

Definition MIN_ALLOC : nat := 2.
Definition MPZ_NUM_DIG_FOR_INT : nat := Z.to_nat ((WORD_BITS + DIG_SIZE - 1) / DIG_SIZE).
Definition MPZ_NUM_DIG_FOR_LL : nat := Z.to_nat ((64 + DIG_SIZE - 1) / DIG_SIZE).

Definition live (z : mpz_t) : list Z := take (len z) (dig z).

(** *** Access to the store *)

Definition deref (p : nat) : MZ mpz_t := s ← mget; mlift (s !! p).
Definition update (p : nat) (f : mpz_t -> mpz_t) : MZ unit :=
  z ← deref p; mmodify <[p := f z]>.

Definition set_neg (p : nat) (b : bool) : MZ unit :=
  update p (fun z => MkMpz b (fixed_dig z) (len z) (dig z)).
Definition set_len (p : nat) (n : nat) : MZ unit :=
  update p (fun z => MkMpz (neg z) (fixed_dig z) n (dig z)).
(** Store the digits [ds] from the start of the buffer. *)
Definition store_digs (p : nat) (ds : list Z) : MZ unit :=
  z ← deref p; massert (length ds <=? length (dig z))%nat;;
  update p (fun z => MkMpz (neg z) (fixed_dig z) (len z) (overwrite ds (dig z))).
(** [p->len = mpn_xxx(p->dig, ...)] for a call that stores [ds] and returns [n]. *)
Definition put_digs (p : nat) (ds : list Z) (n : nat) : MZ unit := store_digs p ds;; set_len p n.

Definition mpz_is_zero (z : mpz_t) : bool := (len z =? 0)%nat.
Definition mpz_is_neg (z : mpz_t) : bool := negb (len z =? 0)%nat && neg z.

(** *** Creation, allocation and copies *)

Definition mpz_zero_obj : mpz_t := MkMpz false false 0 [].
Definition mpz_init_zero (p : nat) : MZ unit := mmodify <[p := mpz_zero_obj]>.
(** A pointer to an [mpz_t] that is not in use. *)
Definition new_obj : MZ nat :=
  s ← mget; let p := fresh (dom s) in mput (<[p := mpz_zero_obj]> s);; mret p.
Definition mpz_free (p : nat) : MZ unit := mmodify (delete p).

Definition mpz_need_dig (p : nat) (need : nat) : MZ unit :=
  let need := if (need <? MIN_ALLOC)%nat then MIN_ALLOC else need in
  z ← deref p;
  if (length (dig z) <? need)%nat then
    massert (negb (fixed_dig z));;
    update p (fun z => MkMpz (neg z) (fixed_dig z) (len z)
      (dig z ++ ((fun i => dgt (junk_dig i)) <$> seq (length (dig z)) (need - length (dig z)))))
  else mret tt.

Definition mpz_clone (src : nat) : MZ nat :=
  s ← deref src; massert (negb (length (dig s) =? 0)%nat);;
  p ← new_obj; mmodify <[p := MkMpz (neg s) false (len s) (dig s)]>;; mret p.

Definition mpz_set (dest src : nat) : MZ unit :=
  s ← deref src; mpz_need_dig dest (len s);;
  s ← deref src; set_neg dest (neg s);;
  s ← deref src; set_len dest (len s);;
  s ← deref src; store_digs dest (live s).

(** [while (uval > 0) { z->dig[z->len++] = uval & DIG_MASK; uval >>= DIG_SIZE; }] *)
Fixpoint uint_digs (fuel : nat) (uval : Z) : option (list Z) :=
  if 0 <? uval then
    match fuel with
    | O => None
    | S fuel => (cons (Z.land uval DIG_MASK)) <$> uint_digs fuel (Z.shiftr uval DIG_SIZE)
    end
  else Some [].

Definition set_uint (z : nat) (w uval : Z) : MZ unit :=
  ds ← mlift (uint_digs (Z.to_nat w) uval); put_digs z ds (length ds).

Definition mpz_set_from_int (z : nat) (val : Z) : MZ unit :=
  if val =? 0 then set_len z 0
  else
    mpz_need_dig z MPZ_NUM_DIG_FOR_INT;;
    set_neg z (val <? 0);;
    set_uint z WORD_BITS (wrap WORD_BITS (if val <? 0 then - val else val)).

Definition mpz_set_from_ll (z : nat) (val : Z) (is_signed : bool) : MZ unit :=
  mpz_need_dig z MPZ_NUM_DIG_FOR_LL;;
  set_neg z (is_signed && (val <? 0));;
  set_uint z 64 (wrap 64 (if is_signed && (val <? 0) then - val else val)).

Definition mpz_init_from_int (z : nat) (val : Z) : MZ unit := mpz_init_zero z;; mpz_set_from_int z val.

Definition mpz_init_fixed_from_int (z : nat) (digs : list Z) (val : Z) : MZ unit :=
  mmodify <[z := MkMpz false true 0 digs]>;; mpz_set_from_int z val.

(** *** Comparison *)

Definition mpz_cmp (z1 z2 : mpz_t) : Z :=
  if (len z1 =? 0)%nat && (len z2 =? 0)%nat then 0
  else
    let cmp := Z.b2z (neg z2) - Z.b2z (neg z1) in
    if negb (cmp =? 0) then cmp
    else
      let cmp := mpn_cmp (live z1) (live z2) in
      if neg z1 then - cmp else cmp.

(** *** Unary operations and shifts *)

Definition mpz_abs_inpl (dest z : nat) : MZ unit :=
  (if (dest =? z)%nat then mret tt else mpz_set dest z);; set_neg dest false.

Definition mpz_neg_inpl (dest z : nat) : MZ unit :=
  (if (dest =? z)%nat then mret tt else mpz_set dest z);;
  d ← deref dest; set_neg dest (negb (neg d)).

Definition mpz_not_inpl (dest z : nat) : MZ unit :=
  (if (dest =? z)%nat then mret tt else mpz_set dest z);;
  d ← deref dest;
  if (len d =? 0)%nat then
    mpz_need_dig dest 1;; put_digs dest [1] 1;; set_neg dest true
  else if neg d then
    set_neg dest false;;
    let '(i, n) := mpn_sub (live d) [1] in put_digs dest i n
  else
    mpz_need_dig dest (len d + 1);;
    d ← deref dest;
    let i := mpn_add (live d) [1] in put_digs dest i (length i);;
    set_neg dest true.

Definition mpz_shl_inpl (dest lhs : nat) (rhs : Z) : MZ unit :=
  l ← deref lhs;
  if (len l =? 0)%nat || (rhs =? 0) then mpz_set dest lhs
  else
    mpz_need_dig dest (len l + Z.to_nat ((rhs + DIG_SIZE - 1) / DIG_SIZE));;
    l ← deref lhs;
    let '(i, n) := mpn_shl (live l) rhs in put_digs dest i n;;
    l ← deref lhs; set_neg dest (neg l).

(** Whether [lhs], shifted right by [rhs] bits, loses a bit that is set. *)
Definition shr_round_up (l : mpz_t) (rhs : Z) : bool :=
  let n_whole := Z.to_nat (rhs / DIG_SIZE) in
  let n_part := rhs mod DIG_SIZE in
  existsb (fun d => negb (d =? 0)) (take n_whole (live l))
  || ((n_whole <? len l)%nat && negb (Z.land (dig l !!! n_whole) (Z.shiftl 1 n_part - 1) =? 0)).

Definition mpz_shr_inpl (dest lhs : nat) (rhs : Z) : MZ unit :=
  l ← deref lhs;
  if (len l =? 0)%nat || (rhs =? 0) then mpz_set dest lhs
  else
    mpz_need_dig dest (len l);;
    l ← deref lhs;
    let '(i, n) := mpn_shr (live l) rhs in put_digs dest i n;;
    l ← deref lhs; set_neg dest (neg l);;
    d ← deref dest;
    if neg d then
      l ← deref lhs;
      if shr_round_up l rhs then
        if (len d =? 0)%nat then put_digs dest [1] 1
        else let i := mpn_add (live d) [1] in put_digs dest i (length i)
      else mret tt
    else mret tt.

(** *** Addition and subtraction *)

(** The part of [mpz_add_inpl] after the exchange of the operands. *)
Definition mpz_add_ordered (dest lhs rhs : nat) : MZ unit :=
  l ← deref lhs; r ← deref rhs;
  (if Bool.eqb (neg l) (neg r) then
     mpz_need_dig dest (len l + 1);;
     l ← deref lhs; r ← deref rhs;
     let i := mpn_add (live l) (live r) in put_digs dest i (length i)
   else
     mpz_need_dig dest (len l);;
     l ← deref lhs; r ← deref rhs;
     let '(i, n) := mpn_sub (live l) (live r) in put_digs dest i n);;
  l ← deref lhs; set_neg dest (neg l).

Definition mpz_add_inpl (dest lhs rhs : nat) : MZ unit :=
  l ← deref lhs; r ← deref rhs;
  if mpn_cmp (live l) (live r) <? 0 then mpz_add_ordered dest rhs lhs
  else mpz_add_ordered dest lhs rhs.

Definition mpz_sub_ordered (dest lhs rhs : nat) (swapped : bool) : MZ unit :=
  l ← deref lhs; r ← deref rhs;
  (if negb (Bool.eqb (neg l) (neg r)) then
     mpz_need_dig dest (len l + 1);;
     l ← deref lhs; r ← deref rhs;
     let i := mpn_add (live l) (live r) in put_digs dest i (length i)
   else
     mpz_need_dig dest (len l);;
     l ← deref lhs; r ← deref rhs;
     let '(i, n) := mpn_sub (live l) (live r) in put_digs dest i n);;
  l ← deref lhs; set_neg dest (if swapped then negb (neg l) else neg l).

Definition mpz_sub_inpl (dest lhs rhs : nat) : MZ unit :=
  l ← deref lhs; r ← deref rhs;
  if mpn_cmp (live l) (live r) <? 0 then mpz_sub_ordered dest rhs lhs true
  else mpz_sub_ordered dest lhs rhs false.

(** *** Bitwise operations ([MICROPY_OPT_MPZ_BITWISE]) *)

(** Make sure that [lhs] has the most digits. *)
Definition longest_first (lhs rhs : nat) : MZ (nat * nat) :=
  l ← deref lhs; r ← deref rhs;
  mret (if (len l <? len r)%nat then (rhs, lhs) else (lhs, rhs)).

Definition mpz_and_inpl (dest lhs rhs : nat) : MZ unit :=
  '(lhs, rhs) ← longest_first lhs rhs;
  l ← deref lhs; r ← deref rhs;
  if negb (neg l) && negb (neg r) then
    mpz_need_dig dest (len l);;
    l ← deref lhs; r ← deref rhs;
    let '(i, n) := mpn_and (live l) (live r) in put_digs dest i n;;
    set_neg dest false
  else
    mpz_need_dig dest (len l + 1);;
    l ← deref lhs; r ← deref rhs;
    let '(i, n) := mpn_and_neg (live l) (live r) (Z.b2z (Bool.eqb (neg l) (neg r)))
                     (Z.b2z (neg l)) (Z.b2z (neg r)) in put_digs dest i n;;
    l ← deref lhs; r ← deref rhs;
    set_neg dest (neg l && neg r).

Definition mpz_or_inpl (dest lhs rhs : nat) : MZ unit :=
  '(lhs, rhs) ← longest_first lhs rhs;
  l ← deref lhs; r ← deref rhs;
  if negb (neg l) && negb (neg r) then
    mpz_need_dig dest (len l);;
    l ← deref lhs; r ← deref rhs;
    let i := mpn_or (live l) (live r) in put_digs dest i (length i);;
    set_neg dest false
  else
    mpz_need_dig dest (len l + 1);;
    l ← deref lhs; r ← deref rhs;
    '(i, n) ← mlift (mpn_or_neg (live l) (live r) (Z.b2z (neg l)) (Z.b2z (neg r)));
    put_digs dest i n;;
    set_neg dest true.

Definition mpz_xor_inpl (dest lhs rhs : nat) : MZ unit :=
  '(lhs, rhs) ← longest_first lhs rhs;
  l ← deref lhs; r ← deref rhs;
  if Bool.eqb (neg l) (neg r) then
    mpz_need_dig dest (len l);;
    l ← deref lhs; r ← deref rhs;
    (if negb (neg l) then
       let '(i, n) := mpn_xor (live l) (live r) in put_digs dest i n
     else
       let '(i, n) := mpn_xor_neg (live l) (live r) 0 0 0 in put_digs dest i n);;
    set_neg dest false
  else
    mpz_need_dig dest (len l + 1);;
    l ← deref lhs; r ← deref rhs;
    let '(i, n) := mpn_xor_neg (live l) (live r) 1 (Z.b2z (negb (neg l))) (Z.b2z (negb (neg r))) in
    put_digs dest i n;;
    set_neg dest true.

(** *** Multiplication *)

(** The operands read by the product: copies of those that are the destination. *)
Definition mul_operands (dest lhs rhs : nat) : MZ (nat * nat * option nat) :=
  if (lhs =? dest)%nat then
    temp ← mpz_clone lhs;
    mret (temp, if (rhs =? dest)%nat then temp else rhs, Some temp)
  else if (rhs =? dest)%nat then
    temp ← mpz_clone rhs; mret (lhs, temp, Some temp)
  else mret (lhs, rhs, None).

(** The product itself; [dest] is not [lhs] and not [rhs]. *)
Definition mpz_mul_disjoint (dest lhs rhs : nat) : MZ unit :=
  l ← deref lhs; r ← deref rhs;
  mpz_need_dig dest (len l + len r);;
  d ← deref dest;
  store_digs dest (replicate (length (dig d)) 0);;
  d ← deref dest; l ← deref lhs; r ← deref rhs;
  '(i, n) ← mlift (mpn_mul (dig d) (live l) (live r));
  put_digs dest i n;;
  l ← deref lhs; r ← deref rhs;
  set_neg dest (negb (Bool.eqb (neg l) (neg r))).

Definition mpz_mul_inpl (dest lhs rhs : nat) : MZ unit :=
  l ← deref lhs; r ← deref rhs;
  if (len l =? 0)%nat || (len r =? 0)%nat then mpz_set_from_int dest 0
  else
    '(lhs, rhs, temp) ← mul_operands dest lhs rhs;
    mpz_mul_disjoint dest lhs rhs;;
    match temp with Some t => mpz_free t | None => mret tt end.

(** *** Division *)

(** Quotient and remainder of the magnitudes, the remainder with the sign of [lhs]. *)
Definition mpz_divmod_abs (dest_quo dest_rem lhs rhs : nat) : MZ unit :=
  l ← deref lhs; mpz_need_dig dest_quo (len l + 1);;
  l ← deref lhs; store_digs dest_quo (replicate (len l + 1) 0);;
  set_len dest_quo 0;;
  l ← deref lhs; mpz_need_dig dest_rem (len l + 1);;
  mpz_set dest_rem lhs;;
  q ← deref dest_quo; m ← deref dest_rem; r ← deref rhs;
  '(num, num_len, (quo, quo_len)) ← mlift (mpn_div (dig m) (len m) (live r) (dig q));
  put_digs dest_rem num num_len;; put_digs dest_quo quo quo_len.

(** The step from truncation to Python's rounding: [quo - 1] and [rem + rhs].
    The local [mpzone] is a stack object: it is gone at the end of the block. *)
Definition mpz_divmod_round (dest_quo dest_rem rhs : nat) : MZ unit :=
  mpzone ← new_obj;
  mpz_init_from_int mpzone (-1);;
  mpz_add_inpl dest_quo dest_quo mpzone;;
  mpz_add_inpl dest_rem dest_rem rhs;;
  mpz_free mpzone.

Definition mpz_divmod_inpl (dest_quo dest_rem lhs rhs : nat) : MZ unit :=
  r ← deref rhs; massert (negb (mpz_is_zero r));;
  mpz_divmod_abs dest_quo dest_rem lhs rhs;;
  l ← deref lhs; r ← deref rhs;
  if negb (Bool.eqb (neg l) (neg r)) then
    set_neg dest_quo true;;
    m ← deref dest_rem;
    if negb (mpz_is_zero m) then mpz_divmod_round dest_quo dest_rem rhs else mret tt
  else mret tt.

(** *** Powers *)

Fixpoint mpz_pow_loop (fuel : nat) (dest x n : nat) : MZ unit :=
  nn ← deref n;
  if (len nn =? 0)%nat then mret tt
  else match fuel with
  | O => mabort
  | S fuel =>
      (if negb (Z.land (dig nn !!! 0%nat) 1 =? 0) then mpz_mul_inpl dest dest x else mret tt);;
      nn ← deref n;
      let '(i, l) := mpn_shr (live nn) 1 in put_digs n i l;;
      if (l =? 0)%nat then mret tt
      else mpz_mul_inpl x x x;; mpz_pow_loop fuel dest x n
  end.

(** One turn of the loop per bit of the exponent. *)
Definition pow_fuel (n : mpz_t) : nat := len n * Z.to_nat DIG_SIZE.

Definition mpz_pow_inpl (dest lhs rhs : nat) : MZ unit :=
  l ← deref lhs; r ← deref rhs;
  if (len l =? 0)%nat || neg r then mpz_set_from_int dest 0
  else if (len r =? 0)%nat then mpz_set_from_int dest 1
  else
    x ← mpz_clone lhs; n ← mpz_clone rhs;
    mpz_set_from_int dest 1;;
    mpz_pow_loop (pow_fuel r) dest x n;;
    mpz_free x;; mpz_free n.

Fixpoint mpz_pow3_loop (fuel : nat) (dest x n quo md : nat) : MZ unit :=
  nn ← deref n;
  if (len nn =? 0)%nat then mret tt
  else match fuel with
  | O => mabort
  | S fuel =>
      (if negb (Z.land (dig nn !!! 0%nat) 1 =? 0)
       then mpz_mul_inpl dest dest x;; mpz_divmod_inpl quo dest dest md else mret tt);;
      nn ← deref n;
      let '(i, l) := mpn_shr (live nn) 1 in put_digs n i l;;
      if (l =? 0)%nat then mret tt
      else mpz_mul_inpl x x x;; mpz_divmod_inpl quo x x md;; mpz_pow3_loop fuel dest x n quo md
  end.

Definition mpz_pow3_inpl (dest lhs rhs md : nat) : MZ unit :=
  l ← deref lhs; r ← deref rhs; m ← deref md;
  if (len l =? 0)%nat || neg r || ((len m =? 1)%nat && (dig m !!! 0%nat =? 1)) then mpz_set_from_int dest 0
  else
    mpz_set_from_int dest 1;;
    r ← deref rhs;
    if (len r =? 0)%nat then mret tt
    else
      x ← mpz_clone lhs; n ← mpz_clone rhs;
      quo ← new_obj; mpz_init_zero quo;;
      mpz_pow3_loop (pow_fuel r) dest x n quo md;;
      mpz_free quo;; mpz_free x;; mpz_free n.

End Mpz.
