(* ===== verification/MpzSpec.v ===== *)
(** What the operations of [Mpz] compute: the value of the destination as a
    function of the values of the operands, for every way in which the three
    pointers may be aliased, with nothing else of the store changed. *)
From S2P Require Import Prelude SmallInt Digits Mpn MpnBits MpnDiv Mpz.

Section MpzSpec.
Context {wcfg : WordCfg} {cfg : MpzCfg}.
Abbreviation B := (@DIG_BASE cfg).

(** ** Well-formed objects, their value *)

Definition mpz_ok (z : mpz_t) : Prop :=
  digs_ok (dig z) /\ (len z <= length (dig z))%nat /\ normd (live z).

Definition mval (z : mpz_t) : Z := sgz (neg z) (live z).

(** A zero without sign: what the bitwise operations and powers expect. *)
Definition no_neg_zero (z : mpz_t) : Prop := neg z = true -> len z <> 0%nat.

(** [p] points to a well-formed object [z]. *)
Definition obj (st : mpz_store) (p : nat) (z : mpz_t) : Prop := st !! p = Some z /\ mpz_ok z.
(** [p] points to an object whose buffer may be reallocated. *)
Definition dst (st : mpz_store) (p : nat) (z : mpz_t) : Prop := obj st p z /\ fixed_dig z = false.

(** [m] run on [s] leaves [st] with a new object of value [v] at [dest]. *)
Definition leaves (m : MZ unit) (s st : mpz_store) (dest : nat) (v : Z) : Prop :=
  exists d, m s = Some (tt, <[dest := d]> st) /\ mpz_ok d /\ fixed_dig d = false /\ mval d = v.
Definition computes (m : MZ unit) (st : mpz_store) (dest : nat) (v : Z) : Prop := leaves m st st dest v.

Lemma live_ok z : mpz_ok z -> digs_ok (live z) /\ length (live z) = len z /\ normd (live z).
Proof.
  intros (Hok & Hl & Hn). unfold live. split; [auto with mp|]. split; [by apply length_take_le|done].
Qed.

Lemma live_nil z : mpz_ok z -> live z = [] <-> len z = 0%nat.
Proof.
  intros Hz. destruct (live_ok z Hz) as (_ & <- & _). split; [by intros ->|by apply nil_length_inv].
Qed.

Lemma live_zero z : mpz_ok z -> dval (live z) = 0 <-> len z = 0%nat.
Proof.
  intros Hz. rewrite <- live_nil by done. destruct (live_ok z Hz) as (Hok & _ & Hn).
  split; [by apply normd_zero_nil|by intros ->].
Qed.

Lemma live_nonneg z : mpz_ok z -> 0 <= dval (live z).
Proof. intros Hz. apply dval_bound, live_ok, Hz. Qed.

Lemma mval_zero z : mpz_ok z -> mval z = 0 <-> len z = 0%nat.
Proof. intros Hz. rewrite <- live_zero by done. unfold mval, sgz. destruct (neg z); lia. Qed.

Lemma abs_mval z : mpz_ok z -> Z.abs (mval z) = dval (live z).
Proof. intros Hz. pose proof (live_nonneg z Hz). unfold mval, sgz. destruct (neg z); lia. Qed.

(** ** Running the primitives *)

Lemma deref_run st p z : st !! p = Some z -> deref p st = Some (z, st).
Proof. intros H. unfold deref, mget, mlift, mbind, M_bind. by rewrite H. Qed.

Lemma update_run st p z f : st !! p = Some z -> update p f st = Some (tt, <[p := f z]> st).
Proof. intros H. unfold update. by rewrite (M_bind_Some _ _ _ _ _ (deref_run _ _ _ H)). Qed.

Lemma set_neg_run st p z b : st !! p = Some z ->
  set_neg p b st = Some (tt, <[p := MkMpz b (fixed_dig z) (len z) (dig z)]> st).
Proof. apply update_run. Qed.

Lemma set_len_run st p z n : st !! p = Some z ->
  set_len p n st = Some (tt, <[p := MkMpz (neg z) (fixed_dig z) n (dig z)]> st).
Proof. apply update_run. Qed.

Lemma store_digs_run st p z ds : st !! p = Some z -> (length ds <= length (dig z))%nat ->
  store_digs p ds st = Some (tt, <[p := MkMpz (neg z) (fixed_dig z) (len z) (overwrite ds (dig z))]> st).
Proof.
  intros H Hl. unfold store_digs. rewrite (M_bind_Some _ _ _ _ _ (deref_run _ _ _ H)).
  unfold massert, mbind, M_bind. destruct (Nat.leb_spec (length ds) (length (dig z))); [|lia].
  by rewrite (update_run _ _ _ _ H).
Qed.

Lemma put_digs_run st p z ds n : st !! p = Some z -> (length ds <= length (dig z))%nat ->
  put_digs p ds n st = Some (tt, <[p := MkMpz (neg z) (fixed_dig z) n (overwrite ds (dig z))]> st).
Proof.
  intros H Hl. unfold put_digs. rewrite (M_bind_Some _ _ _ _ _ (store_digs_run _ _ _ _ H Hl)).
  erewrite set_len_run by apply lookup_insert_eq. simpl. by rewrite insert_insert_eq.
Qed.

(** The object after [mpz_need_dig]. *)
Definition grow (z : mpz_t) (need : nat) : mpz_t :=
  let need := if (need <? MIN_ALLOC)%nat then MIN_ALLOC else need in
  if (length (dig z) <? need)%nat then
    MkMpz (neg z) (fixed_dig z) (len z)
      (dig z ++ ((fun i => dgt (junk_dig i)) <$> seq (length (dig z)) (need - length (dig z))))
  else z.

Lemma need_dig_run st p z n : st !! p = Some z -> fixed_dig z = false ->
  mpz_need_dig p n st = Some (tt, <[p := grow z n]> st).
Proof.
  intros H Hf. unfold mpz_need_dig, grow. rewrite (M_bind_Some _ _ _ _ _ (deref_run _ _ _ H)).
  case_match; [|by rewrite insert_id by done].
  unfold massert, mbind, M_bind. rewrite Hf. simpl. rewrite (update_run _ _ _ _ H). by rewrite Hf.
Qed.

(** What a reallocation keeps. *)
Definition same (z z' : mpz_t) : Prop :=
  live z' = live z /\ neg z' = neg z /\ len z' = len z /\ fixed_dig z' = fixed_dig z /\ mpz_ok z'.

Lemma same_refl z : mpz_ok z -> same z z.
Proof. done. Qed.

Lemma grow_spec z n : mpz_ok z -> same z (grow z n) /\ (n <= length (dig (grow z n)))%nat
  /\ (2 <= length (dig (grow z n)))%nat.
Proof.
  intros (Hok & Hl & Hn). unfold grow. set (need := if (n <? MIN_ALLOC)%nat then _ else _).
  assert (Hneed : (n <= need /\ 2 <= need)%nat) by (unfold need, MIN_ALLOC; case_match; bool_to_prop; lia).
  case_match; bool_to_prop; [|repeat split; done || lia].
  unfold same, mpz_ok, live. simpl. rewrite take_app_le by done.
  rewrite length_app, length_fmap, length_seq. repeat split; try done; try lia.
  apply digs_ok_app. split; [done|]. apply Forall_fmap, Forall_true. intros i. simpl.
  rewrite dgt_mod. apply is_dig_mod.
Qed.

Lemma grow_length z n : (length (dig z) <= length (dig (grow z n)))%nat.
Proof. unfold grow. case_match; [|done]. simpl. rewrite length_app. lia. Qed.

Lemma new_obj_run st : new_obj st = Some (fresh (dom st), <[fresh (dom st) := mpz_zero_obj]> st).
Proof. done. Qed.

Lemma init_zero_run st p : mpz_init_zero p st = Some (tt, <[p := mpz_zero_obj]> st).
Proof. done. Qed.

(** What a pointer [q] to [e] points to once [p] has been set to [z]. *)
Definition alias (p q : nat) (z e : mpz_t) : mpz_t := if decide (p = q) then z else e.

Lemma lookup_alias (st : mpz_store) p q z e : st !! q = Some e -> <[p := z]> st !! q = Some (alias p q z e).
Proof.
  intros H. unfold alias. case_decide as E; [subst; by rewrite lookup_insert_eq|by rewrite lookup_insert_ne].
Qed.

(** The primitives on a store whose last change was to the destination. *)
Lemma deref_alias (st : mpz_store) p q z e : st !! q = Some e ->
  deref q (<[p := z]> st) = Some (alias p q z e, <[p := z]> st).
Proof. intros H. by apply deref_run, lookup_alias. Qed.

Lemma deref_same (st : mpz_store) p z : deref p (<[p := z]> st) = Some (z, <[p := z]> st).
Proof. apply deref_run, lookup_insert_eq. Qed.

Lemma set_neg_same (st : mpz_store) p z b :
  set_neg p b (<[p := z]> st) = Some (tt, <[p := MkMpz b (fixed_dig z) (len z) (dig z)]> st).
Proof. erewrite set_neg_run by apply lookup_insert_eq. by rewrite insert_insert_eq. Qed.

Lemma set_len_same (st : mpz_store) p z n :
  set_len p n (<[p := z]> st) = Some (tt, <[p := MkMpz (neg z) (fixed_dig z) n (dig z)]> st).
Proof. erewrite set_len_run by apply lookup_insert_eq. by rewrite insert_insert_eq. Qed.

Lemma store_digs_same (st : mpz_store) p z ds : (length ds <= length (dig z))%nat ->
  store_digs p ds (<[p := z]> st)
  = Some (tt, <[p := MkMpz (neg z) (fixed_dig z) (len z) (overwrite ds (dig z))]> st).
Proof. intros Hl. erewrite store_digs_run; [|apply lookup_insert_eq|done]. by rewrite insert_insert_eq. Qed.

Lemma put_digs_same (st : mpz_store) p z ds n : (length ds <= length (dig z))%nat ->
  put_digs p ds n (<[p := z]> st)
  = Some (tt, <[p := MkMpz (neg z) (fixed_dig z) n (overwrite ds (dig z))]> st).
Proof. intros Hl. erewrite put_digs_run; [|apply lookup_insert_eq|done]. by rewrite insert_insert_eq. Qed.

Lemma need_dig_same (st : mpz_store) p z n : fixed_dig z = false ->
  mpz_need_dig p n (<[p := z]> st) = Some (tt, <[p := grow z n]> st).
Proof. intros Hl. erewrite need_dig_run; [|apply lookup_insert_eq|done]. by rewrite insert_insert_eq. Qed.

(** A reallocated destination looks the same through all pointers to it. *)
Lemma alias_grow (st : mpz_store) p q d e n :
  st !! p = Some d -> mpz_ok d -> st !! q = Some e -> mpz_ok e -> same e (alias p q (grow d n) e).
Proof.
  intros Hp Hd Hq He. unfold alias. case_decide; [|by apply same_refl].
  subst. assert (d = e) as -> by congruence. by apply grow_spec.
Qed.

Lemma alias_neg (st : mpz_store) p q d e z :
  st !! p = Some d -> st !! q = Some e -> neg z = neg d -> neg (alias p q z e) = neg e.
Proof. intros Hp Hq Hz. unfold alias. case_decide; [|done]. subst. congruence. Qed.

Lemma put_ok b fx n ds buf :
  digs_ok ds -> digs_ok buf -> (length ds <= length buf)%nat -> (n <= length ds)%nat -> normd (take n ds) ->
  mpz_ok (MkMpz b fx n (overwrite ds buf)) /\ live (MkMpz b fx n (overwrite ds buf)) = take n ds.
Proof.
  intros Hds Hbuf Hl Hn Hnd.
  assert (E : live (MkMpz b fx n (overwrite ds buf)) = take n ds) by (unfold live; simpl; by apply take_overwrite).
  split; [|done]. unfold mpz_ok. rewrite E. simpl. rewrite length_overwrite by done.
  split; [|split; [lia|done]]. unfold overwrite. apply digs_ok_app. split; [done|by apply digs_ok_drop].
Qed.

End MpzSpec.

(** Run the primitive at the head of the program of the goal. *)
Ltac mrun_head :=
  lazymatch goal with
  | |- deref _ (<[_ := _]> _) = _ =>
      first [ apply deref_same | apply deref_alias; eassumption | apply deref_run; eassumption ]
  | |- deref _ _ = _ => apply deref_run; eassumption
  | |- mpz_need_dig _ _ _ = _ => first [ apply need_dig_same; assumption | apply need_dig_run; [eassumption|assumption] ]
  | |- set_neg _ _ _ = _ => apply set_neg_same
  | |- set_len _ _ _ = _ => apply set_len_same
  | |- put_digs _ _ _ _ = _ => apply put_digs_same; cbn [dig]; lia
  | |- store_digs _ _ _ = _ => apply store_digs_same; cbn [dig]; lia
  end.
Ltac mrun1 := first [ rewrite M_bind_assoc | erewrite M_bind_Some by mrun_head; cbv beta iota ].
Ltac mrun := repeat mrun1.

Section Ops.
Context {wcfg : WordCfg} {cfg : MpzCfg}.
Abbreviation B := (@DIG_BASE cfg).

(** The end of most operations: a result in the grown destination, then its sign. *)
Lemma finish_neg (st : mpz_store) dest d k ds n (m : MZ unit) b v :
  st !! dest = Some d -> mpz_ok d -> fixed_dig d = false ->
  (forall s z, s = <[dest := z]> st -> neg z = neg d -> m s = set_neg dest b s) ->
  digs_ok ds -> (length ds <= k)%nat -> (n <= length ds)%nat -> normd (take n ds) -> v = sgz b (take n ds) ->
  leaves (put_digs dest ds n;; m) (<[dest := grow d k]> st) st dest v.
Proof.
  intros Hd Hok Hf Hm Hds Hl Hn Hnd ->. destruct (grow_spec d k Hok) as [(_ & Hgn & _ & Hgf & Hgok) [Hgl _]].
  destruct (put_ok b false n ds (dig (grow d k))) as [Hr Hlv]; try done; [apply Hgok|lia|].
  eexists. mrun. erewrite Hm; [|done|done]. rewrite set_neg_same. simpl. rewrite Hgf, Hf.
  split; [done|]. split; [done|]. split; [done|]. unfold mval. by rewrite Hlv.
Qed.

(** The same without a change of sign. *)
Lemma finish (st : mpz_store) dest d k ds n v :
  st !! dest = Some d -> mpz_ok d -> fixed_dig d = false ->
  digs_ok ds -> (length ds <= k)%nat -> (n <= length ds)%nat -> normd (take n ds) ->
  v = sgz (neg d) (take n ds) ->
  leaves (put_digs dest ds n) (<[dest := grow d k]> st) st dest v.
Proof.
  intros Hd Hok Hf Hds Hl Hn Hnd ->. destruct (grow_spec d k Hok) as [(_ & Hgn & _ & Hgf & Hgok) [Hgl _]].
  destruct (put_ok (neg d) false n ds (dig (grow d k))) as [Hr Hlv]; try done; [apply Hgok|lia|].
  eexists. rewrite put_digs_same by lia. rewrite Hgf, Hf, Hgn.
  split; [done|]. split; [done|]. split; [done|]. unfold mval. by rewrite Hlv.
Qed.

Lemma leaves_bind {A} (m : MZ A) f s a s' st dest v :
  m s = Some (a, s') -> leaves (f a) s' st dest v -> leaves (m ≫= f) s st dest v.
Proof. intros Hm (d & Hf & ?). exists d. by rewrite (M_bind_Some _ _ _ _ _ Hm). Qed.

Lemma leaves_ins m s (st : mpz_store) dest z v : leaves m s (<[dest := z]> st) dest v -> leaves m s st dest v.
Proof. intros (d & Hm & ?). exists d. by rewrite insert_insert_eq in Hm. Qed.

Lemma leaves_assoc {A C} (m : MZ A) (f : A -> MZ C) g s st dest v :
  leaves (m ≫= (fun x => f x ≫= g)) s st dest v -> leaves ((m ≫= f) ≫= g) s st dest v.
Proof. intros (d & Hf & ?). exists d. by rewrite M_bind_assoc. Qed.

(** Operands as the [mpn] functions see them. *)
Lemma live_facts z : mpz_ok z ->
  digs_ok (live z) /\ length (live z) = len z /\ normd (live z) /\ 0 <= dval (live z).
Proof. intros Hz. destruct (live_ok z Hz) as (? & ? & ?). eauto using live_nonneg. Qed.

Lemma live_len_le l r : mpz_ok l -> mpz_ok r -> dval (live r) <= dval (live l) -> (len r <= len l)%nat.
Proof.
  intros Hl Hr Hle. destruct (live_facts l Hl) as (? & ? & ? & ?). destruct (live_facts r Hr) as (? & ? & ? & ?).
  destruct (decide (len r <= len l)%nat); [done|].
  assert (dval (live l) < dval (live r)); [|lia]. apply dval_lt_length; done || lia.
Qed.
End Ops.

(** One step of the program of a [leaves] goal. *)
Ltac lrun1 := first
  [ lazymatch goal with |- leaves (mbind _ (mbind _ _)) _ _ _ _ => apply leaves_assoc end
  | lazymatch goal with |- leaves (mbind _ _) _ _ _ _ =>
      eapply leaves_bind; [mrun_head|]; cbv beta iota end ].
Ltac lrun := unfold computes; repeat lrun1.
(** The facts about an operand. *)
Ltac operand z H :=
  let a := fresh "Hok" in let b := fresh "Hlen" in let c := fresh "Hnd" in let e := fresh "Hpos" in
  destruct (live_facts z H) as (a & b & c & e).
(** Rewrite the operands read after the destination was reallocated. *)
Ltac grown :=
  repeat match goal with
  | Hp : ?st !! ?p = Some ?d, Hd : mpz_ok ?d, Hq : ?st !! ?q = Some ?e, He : mpz_ok ?e
    |- context [alias ?p ?q (grow ?d ?n) ?e] =>
      let a := fresh "a" in let Ha := fresh "Ha" in
      destruct (alias_grow st p q d e n Hp Hd Hq He) as (Ha & ? & ? & ? & ?); rewrite ?Ha;
      set (a := alias p q (grow d n) e) in *; clearbody a
  end.

(** Rewrite the signs that are known. *)
Ltac negs :=
  repeat match goal with H : neg ?a = _ |- context [neg ?a] => rewrite H end;
  cbn [Bool.eqb xorb negb Z.b2z orb andb].
(** Signs of the operands read again after the result is stored. *)
Ltac reread :=
  intros ? ? -> ?;
  repeat (erewrite M_bind_Some by (apply deref_alias; eassumption); cbv beta);
  erewrite ?alias_neg by eassumption; try reflexivity.

Section Ops2.
Context {wcfg : WordCfg} {cfg : MpzCfg}.
Abbreviation B := (@DIG_BASE cfg).

(** The two ways to finish a sum of signed numbers. *)
Lemma finish_add (st : mpz_store) dest d l r m b v :
  st !! dest = Some d -> mpz_ok d -> fixed_dig d = false -> mpz_ok l -> mpz_ok r ->
  (len r <= len l)%nat ->
  (forall s z, s = <[dest := z]> st -> neg z = neg d -> m s = set_neg dest b s) ->
  v = (if b then - (dval (live l) + dval (live r)) else dval (live l) + dval (live r)) ->
  leaves (put_digs dest (mpn_add (live l) (live r)) (length (mpn_add (live l) (live r)));; m)
    (<[dest := grow d (len l + 1)]> st) st dest v.
Proof.
  intros Hd Hok Hf Hl Hr Hlen Hm ->. operand l Hl. operand r Hr.
  destruct (mpn_add_spec (live l) (live r)) as (Hi & Hil & Hv & Hn); [done|done|done|lia|].
  eapply finish_neg; try done; try lia; rewrite take_ge by lia; [done|]. unfold sgz. by rewrite Hv.
Qed.

Lemma finish_sub (st : mpz_store) dest d l r m b v :
  st !! dest = Some d -> mpz_ok d -> fixed_dig d = false -> mpz_ok l -> mpz_ok r ->
  dval (live r) <= dval (live l) ->
  (forall s z, s = <[dest := z]> st -> neg z = neg d -> m s = set_neg dest b s) ->
  v = (if b then - (dval (live l) - dval (live r)) else dval (live l) - dval (live r)) ->
  leaves ((let '(i, n) := mpn_sub (live l) (live r) in put_digs dest i n);; m)
    (<[dest := grow d (len l)]> st) st dest v.
Proof.
  intros Hd Hok Hf Hl Hr Hle Hm ->. pose proof (live_len_le l r Hl Hr Hle). operand l Hl. operand r Hr.
  pose proof (mpn_sub_spec (live l) (live r)) as Hs. destruct (mpn_sub (live l) (live r)) as [i n].
  destruct Hs as (Hi & Hil & Hn & Hv & Hnm); [done|done|lia|done|].
  eapply finish_neg; try done; try lia. unfold sgz. by rewrite Hv.
Qed.

Lemma mpz_add_ordered_spec st dest lhs rhs d l r :
  dst st dest d -> obj st lhs l -> obj st rhs r -> dval (live r) <= dval (live l) ->
  computes (mpz_add_ordered dest lhs rhs) st dest (mval l + mval r).
Proof.
  intros [[Hd Hdok] Hf] [Hl Hlok] [Hr Hrok] Hle. pose proof (live_len_le l r Hlok Hrok Hle).
  unfold mpz_add_ordered. lrun. unfold mval.
  destruct (Bool.eqb (neg l) (neg r)) eqn:E; lrun; grown;
    [eapply (finish_add _ _ _ l r _ (neg l))|eapply (finish_sub _ _ _ l r _ (neg l))];
    try done; try (by reread); unfold sgz; destruct (neg l), (neg r); try discriminate E; lia.
Qed.

Lemma mpz_sub_ordered_spec st dest lhs rhs d l r sw :
  dst st dest d -> obj st lhs l -> obj st rhs r -> dval (live r) <= dval (live l) ->
  computes (mpz_sub_ordered dest lhs rhs sw) st dest (if sw then mval r - mval l else mval l - mval r).
Proof.
  intros [[Hd Hdok] Hf] [Hl Hlok] [Hr Hrok] Hle. pose proof (live_len_le l r Hlok Hrok Hle).
  unfold mpz_sub_ordered. lrun. unfold mval.
  destruct (Bool.eqb (neg l) (neg r)) eqn:E; cbn [negb]; lrun; grown;
    [eapply (finish_sub _ _ _ l r _ (if sw then negb (neg l) else neg l))
    |eapply (finish_add _ _ _ l r _ (if sw then negb (neg l) else neg l))];
    try done; try (by reread); unfold sgz; destruct sw, (neg l), (neg r); try discriminate E; cbn [negb]; lia.
Qed.

Lemma cmp_live l r : mpz_ok l -> mpz_ok r ->
  (mpn_cmp (live l) (live r) <? 0) = (dval (live l) <? dval (live r)).
Proof.
  intros Hl Hr. operand l Hl. operand r Hr. rewrite mpn_cmp_spec by done.
  destruct (Z.ltb_spec (dval (live l)) (dval (live r))); [apply Z.ltb_lt|apply Z.ltb_ge]; lia.
Qed.

Lemma mpz_add_spec st dest lhs rhs d l r :
  dst st dest d -> obj st lhs l -> obj st rhs r ->
  computes (mpz_add_inpl dest lhs rhs) st dest (mval l + mval r).
Proof.
  intros Hd Hl Hr. unfold mpz_add_inpl. pose proof Hl as [Hl1 Hl2]. pose proof Hr as [Hr1 Hr2].
  lrun. rewrite cmp_live by done. case_if.
  - rewrite Z.add_comm. eapply mpz_add_ordered_spec; eauto. lia.
  - eapply mpz_add_ordered_spec; eauto.
Qed.

Lemma mpz_sub_spec st dest lhs rhs d l r :
  dst st dest d -> obj st lhs l -> obj st rhs r ->
  computes (mpz_sub_inpl dest lhs rhs) st dest (mval l - mval r).
Proof.
  intros Hd Hl Hr. unfold mpz_sub_inpl. pose proof Hl as [Hl1 Hl2]. pose proof Hr as [Hr1 Hr2].
  lrun. rewrite cmp_live by done. case_if.
  - eapply (mpz_sub_ordered_spec _ _ _ _ _ _ _ true); eauto. lia.
  - eapply (mpz_sub_ordered_spec _ _ _ _ _ _ _ false); eauto.
Qed.

(** *** Copies, conversions from machine integers *)

(** [z] has the number of [s], in a buffer of its own. *)
Definition copy_of (s z : mpz_t) : Prop :=
  live z = live s /\ neg z = neg s /\ len z = len s /\ fixed_dig z = false /\ mpz_ok z.

Lemma copy_mval s z : copy_of s z -> mval z = mval s.
Proof. intros (H1 & H2 & _). unfold mval. by rewrite H1, H2. Qed.

Lemma mpz_set_run st dest src d s :
  dst st dest d -> obj st src s -> exists z, mpz_set dest src st = Some (tt, <[dest := z]> st)
    /\ copy_of s z /\ (length (dig d) <= length (dig z))%nat.
Proof.
  intros [[Hd Hdok] Hf] [Hs Hsok]. unfold mpz_set. mrun. set (g := grow d (len s)).
  destruct (grow_spec d (len s) Hdok) as [(Hg1 & Hg2 & Hg3 & Hg4 & Hg5) [Hg6 _]].
  fold g in Hg1, Hg2, Hg3, Hg4, Hg5, Hg6. operand s Hsok.
  assert (Hal : forall z, (dest = src -> live z = live s /\ neg z = neg s /\ len z = len s) ->
    live (alias dest src z s) = live s /\ neg (alias dest src z s) = neg s /\ len (alias dest src z s) = len s).
  { intros z Hz. unfold alias. case_decide; auto. }
  assert (Hds : dest = src -> d = s) by (intros ->; congruence).
  destruct (Hal g) as (_ & -> & _); [intros E; specialize (Hds E); by subst d|].
  set (g1 := MkMpz (neg s) (fixed_dig g) (len g) (dig g)).
  destruct (Hal g1) as (_ & _ & ->); [intros E; specialize (Hds E); by subst d|].
  cbn [neg fixed_dig dig g1].
  set (g2 := MkMpz (neg s) (fixed_dig g) (len s) (dig g)).
  destruct (Hal g2) as (-> & _); [intros E; specialize (Hds E); subst d; unfold live at 1; simpl; rewrite <- Hg3; by repeat split|].
  rewrite store_digs_same by (cbn [dig g2]; lia). cbn [neg fixed_dig dig len g2].
  destruct (put_ok (neg s) (fixed_dig g) (len s) (live s) (dig g)) as [Hpo Hpl]; try done;
    [apply Hg5|lia|lia|by rewrite take_ge by lia|].
  pose proof (grow_length d (len s)) as Hgl. fold g in Hgl.
  eexists. split; [done|]. split; [|cbn [dig]; rewrite length_overwrite by lia; lia].
  split; [rewrite Hpl; by rewrite take_ge by lia|].
  repeat split; try apply Hpo. simpl. by rewrite Hg4, Hf.
Qed.

(** The start of the unary operations. *)
Lemma copy_unless_same st dest src d s :
  dst st dest d -> obj st src s ->
  exists z, (if (dest =? src)%nat then mret tt else mpz_set dest src) st = Some (tt, <[dest := z]> st) /\ copy_of s z.
Proof.
  intros Hd Hs. destruct (Nat.eqb_spec dest src) as [->|Hne].
  2:{ destruct (mpz_set_run _ _ _ _ _ Hd Hs) as (z & Hz & Hc & _). eauto. }
  destruct Hd as [[Hd Hok] Hf]. destruct Hs as [Hs _]. exists d. rewrite insert_id by done.
  split; [done|]. by assert (d = s) as -> by congruence.
Qed.

Lemma clone_run st src s :
  obj st src s -> len s <> 0%nat ->
  exists p z, mpz_clone src st = Some (p, <[p := z]> st) /\ st !! p = None /\ copy_of s z.
Proof.
  intros [Hs Hok] Hl. operand s Hok. pose proof (proj1 (proj2 Hok)). unfold mpz_clone. mrun.
  unfold massert, mbind, M_bind. destruct (Nat.eqb_spec (length (dig s)) 0); [lia|]. cbn [negb].
  unfold new_obj, mget, mput, mmodify, mret, M_ret, mbind, M_bind. rewrite insert_insert_eq.
  eexists _, _. split; [reflexivity|]. split; [apply not_elem_of_dom, is_fresh|].
  destruct Hok as (? & ? & ?). by repeat split.
Qed.

Lemma uint_digs_spec fuel u : 0 <= u < 2 ^ Z.of_nat fuel ->
  exists ds, uint_digs fuel u = Some ds /\ digs_ok ds /\ dval ds = u /\ normd ds.
Proof.
  revert u. induction fuel as [|fuel IH]; intros u Hu; cbn [uint_digs].
  { assert (u = 0) as -> by (simpl in Hu; lia). exists []. repeat split; [constructor|done]. }
  dbase. case_if; [|exists []; repeat split; [constructor|simpl; lia|done]]. dnorm.
  rewrite Nat2Z.inj_succ, Z.pow_succ_r in Hu by lia.
  destruct (IH (u / B)) as (ds & -> & Hok & Hv & Hn).
  { split; [apply Z.div_pos; lia|apply Z.div_lt_upper_bound; nia]. }
  exists (u mod B :: ds). split; [done|]. split; [constructor; auto with mp|].
  cbn [dval]. rewrite Hv. pose proof (carry_step u). split; [lia|].
  unfold normd in *. destruct ds as [|x ds _] using rev_ind; [|rewrite app_comm_cons, last_snoc in *; done].
  simpl in *. intros [= E0]. lia.
Qed.

Lemma num_dig_bound w u ds k : 0 < w -> 0 <= u < 2 ^ w -> digs_ok ds -> normd ds -> dval ds = u ->
  k = Z.to_nat ((w + DIG_SIZE - 1) / DIG_SIZE) -> (length ds <= k)%nat.
Proof.
  intros Hw Hu Hok Hn Hv ->. pose proof DIG_SIZE_ge. destruct (decide (ds = [])) as [->|Hne]; [simpl; lia|].
  pose proof (normd_nonzero ds Hok Hn Hne) as Hlow. set (k := (w + DIG_SIZE - 1) / DIG_SIZE).
  assert (Hk : w <= DIG_SIZE * k).
  { assert (HD : 0 < DIG_SIZE) by lia. assert (HD' : DIG_SIZE <> 0) by lia.
    pose proof (Z.div_mod (w + DIG_SIZE - 1) DIG_SIZE HD') as Hdm.
    pose proof (Z.mod_pos_bound (w + DIG_SIZE - 1) DIG_SIZE HD). fold k in Hdm. lia. }
  assert (0 <= k) by (apply Z.div_pos; lia).
  assert (2 ^ w <= B ^ k) by (rewrite DIG_BASE_pow, <- Z.pow_mul_r by lia; apply Z.pow_le_mono_r; lia).
  destruct (decide (length ds <= Z.to_nat k)%nat); [done|exfalso].
  assert (B ^ k <= B ^ (Z.of_nat (length ds) - 1)) by (dbase; apply Z.pow_le_mono_r; lia). lia.
Qed.

(** A machine integer stored in a buffer with room for it. *)
Lemma set_uint_leaves (s st : mpz_store) dest g b w u :
  s = <[dest := g]> st -> mpz_ok g -> fixed_dig g = false -> neg g = b -> 0 < w -> 0 <= u < 2 ^ w ->
  (Z.to_nat ((w + DIG_SIZE - 1) / DIG_SIZE) <= length (dig g))%nat ->
  leaves (set_uint dest w u) s st dest (if b then - u else u).
Proof.
  intros -> Hok Hf Hb Hw Hu Hl. unfold set_uint, leaves.
  destruct (uint_digs_spec (Z.to_nat w) u) as (ds & Hds & Hdok & Hv & Hn); [by rewrite Z2Nat.id by lia|].
  pose proof (num_dig_bound w u ds _ Hw Hu Hdok Hn Hv eq_refl).
  unfold mlift, mbind, M_bind. rewrite Hds. rewrite put_digs_same by lia.
  destruct (put_ok (neg g) (fixed_dig g) (length ds) ds (dig g)) as [Hpo Hpl]; try done;
    [apply Hok|lia|by rewrite take_ge by lia|].
  eexists. split; [done|]. split; [done|]. split; [done|].
  unfold mval. rewrite Hpl, take_ge by lia. simpl. rewrite Hb. unfold sgz. by rewrite Hv.
Qed.

Lemma mpz_set_from_int_spec st dest d v :
  dst st dest d -> in_mp_int v -> computes (mpz_set_from_int dest v) st dest v.
Proof.
  intros [[Hd Hok] Hf] Hv. pose proof WORD_BITS_ge. unfold in_mp_int in Hv.
  assert (Hw1 : 1 <= WORD_BITS) by lia. pose proof (pow2_split WORD_BITS Hw1). unfold mpz_set_from_int.
  destruct (Z.eqb_spec v 0) as [->|Hv0].
  - exists (MkMpz (neg d) (fixed_dig d) 0 (dig d)). rewrite (set_len_run _ _ d) by done.
    split; [done|]. unfold mpz_ok, mval, live. simpl. destruct Hok as (? & ? & ?).
    repeat split; [done|lia|done|done|]. by destruct (neg d).
  - lrun. destruct (grow_spec d MPZ_NUM_DIG_FOR_INT Hok) as [(Hg1 & Hg2 & Hg3 & Hg4 & Hg5) [Hg6 _]].
    replace v with (if v <? 0 then - wrap WORD_BITS (if v <? 0 then - v else v)
      else wrap WORD_BITS (if v <? 0 then - v else v)) at 5
      by (rewrite wrap_id by (destruct (Z.ltb_spec v 0); lia); destruct (Z.ltb_spec v 0); lia).
    eapply set_uint_leaves; [done|exact Hg5|simpl; congruence|done|lia| |exact Hg6].
    rewrite wrap_id by (destruct (Z.ltb_spec v 0); lia). destruct (Z.ltb_spec v 0); lia.
Qed.

(** *** Unary operations, shifts *)

Lemma sgz_opp b ds : sgz (negb b) ds = - sgz b ds.
Proof. destruct b; simpl; lia. Qed.

Lemma mpz_abs_spec st dest src d s :
  dst st dest d -> obj st src s -> computes (mpz_abs_inpl dest src) st dest (Z.abs (mval s)).
Proof.
  intros Hd Hs. unfold mpz_abs_inpl. destruct (copy_unless_same _ _ _ _ _ Hd Hs) as (z & Hz & Hc).
  eapply leaves_bind; [exact Hz|]; cbv beta. destruct Hc as (Hl & Hn & Hlen & Hf & Hok). destruct Hs as [_ Hsok].
  eexists. rewrite set_neg_same. split; [done|]. split; [exact Hok|]. split; [done|].
  rewrite abs_mval by done. rewrite <- Hl. done.
Qed.

Lemma mpz_neg_spec st dest src d s :
  dst st dest d -> obj st src s -> computes (mpz_neg_inpl dest src) st dest (- mval s).
Proof.
  intros Hd Hs. unfold mpz_neg_inpl. destruct (copy_unless_same _ _ _ _ _ Hd Hs) as (z & Hz & Hc).
  eapply leaves_bind; [exact Hz|]; cbv beta. rewrite <- (copy_mval _ _ Hc). destruct Hc as (Hl & Hn & Hlen & Hf & Hok).
  lrun. eexists. rewrite set_neg_same. split; [done|]. split; [exact Hok|]. split; [done|].
  apply sgz_opp.
Qed.

Lemma one_ok : digs_ok [1] /\ normd [1] /\ dval [1] = 1.
Proof. dbase. repeat split; [repeat constructor; lia|done|simpl; lia]. Qed.

Lemma mpz_not_spec st dest src d s :
  dst st dest d -> obj st src s -> computes (mpz_not_inpl dest src) st dest (Z.lnot (mval s)).
Proof.
  intros Hd Hs. unfold mpz_not_inpl. destruct (copy_unless_same _ _ _ _ _ Hd Hs) as (z & Hz & Hc).
  eapply leaves_bind; [exact Hz|]; cbv beta. rewrite <- (copy_mval _ _ Hc). destruct Hc as (_ & _ & _ & Hf & Hok).
  clear s Hs. operand z Hok. destruct one_ok as (H1 & H1n & H1v). unfold Z.lnot, mval.
  assert (Hin : <[dest := z]> st !! dest = Some z) by apply lookup_insert_eq.
  lrun. destruct (Nat.eqb_spec (len z) 0) as [E|E].
  - lrun. rewrite <- (insert_insert_eq st dest (grow z 1) z). eapply leaves_ins.
    eapply (finish_neg _ dest z 1 [1] 1 _ true); try done.
    apply live_nil in E; [|done]. rewrite E. destruct (neg z); simpl; lia.
  - pose proof (proj1 (live_zero z Hok)) as Hz0. destruct (neg z) eqn:En; unfold sgz.
    + lrun. pose proof (mpn_sub_spec (live z) [1]) as Hsub. destruct (mpn_sub (live z) [1]) as [i n].
      destruct Hsub as (Hi & Hil & Hn & Hv & Hnm); [done|done|simpl; lia|lia|].
      destruct (put_ok false (fixed_dig z) n i (dig z)) as [Hpo Hpl]; try done;
        [apply Hok|destruct Hok as (_ & ? & _); lia|lia|].
      eexists. rewrite put_digs_same by (cbn [dig]; destruct Hok as (_ & ? & _); lia). cbn [neg fixed_dig dig].
      split; [done|]. split; [done|]. split; [done|]. unfold mval. rewrite Hpl. cbn [neg]. unfold sgz. lia.
    + lrun. rewrite <- (insert_insert_eq st dest (grow z (len z + 1)) z). eapply leaves_ins.
      destruct (grow_spec z (len z + 1) Hok) as [(Hg & _) _]. rewrite Hg.
      pose proof (mpn_add_spec (live z) [1]) as Hadd. cbv zeta in Hadd.
      destruct Hadd as (Hi & Hil & Hv & Hnm); [done|done|done|simpl; lia|].
      eapply (finish_neg _ dest z (len z + 1) _ _ _ true); try done; try lia; rewrite take_ge by lia; [done|].
      unfold sgz. lia.
Qed.

Lemma mpz_shl_spec st dest lhs d l n :
  dst st dest d -> obj st lhs l -> 0 <= n -> computes (mpz_shl_inpl dest lhs n) st dest (Z.shiftl (mval l) n).
Proof.
  intros Hd Hl Hn. rewrite Z.shiftl_mul_pow2 by done. unfold mpz_shl_inpl.
  pose proof Hd as [[Hd1 Hd2] Hd3]. pose proof Hl as [Hl1 Hl2]. lrun.
  destruct (Nat.eqb_spec (len l) 0) as [E|E]; cbn [orb]; [|destruct (Z.eqb_spec n 0) as [->|Hn0]].
  - destruct (mpz_set_run _ _ _ _ _ Hd Hl) as (z & Hz & Hc & _). exists z.
    split; [done|]. split; [apply Hc|]. split; [apply Hc|]. rewrite (copy_mval _ _ Hc).
    apply mval_zero in E; [|done]. rewrite E. lia.
  - destruct (mpz_set_run _ _ _ _ _ Hd Hl) as (z & Hz & Hc & _). exists z.
    split; [done|]. split; [apply Hc|]. split; [apply Hc|]. rewrite (copy_mval _ _ Hc). lia.
  - lrun. grown. operand l Hl2. pose proof (mpn_shl_spec (live l) n) as Hs.
    destruct (mpn_shl (live l) n) as [i m]. destruct Hs as (Hi & Hil & Hm & Hv & Hnm); [done|lia|].
    eapply (finish_neg _ _ _ _ _ _ _ (neg l)); try done; [by reread|lia|].
    unfold mval, sgz. rewrite Hv. destruct (neg l); lia.
Qed.

Lemma existsb_nonzero ds : digs_ok ds ->
  existsb (fun d => negb (d =? 0)) ds = negb (dval ds =? 0).
Proof.
  dbase. induction 1 as [|d ds Hd Hds IH]; [done|]. cbn [existsb dval]. rewrite IH.
  pose proof (dval_bound ds Hds). dbase.
  destruct (Z.eqb_spec d 0), (Z.eqb_spec (dval ds) 0), (Z.eqb_spec (d + B * dval ds) 0); try done; nia.
Qed.

(** The rounding test of [mpz_shr_inpl]: bits of the operand are lost. *)
Lemma shr_round_up_spec l n : mpz_ok l -> 0 <= n ->
  shr_round_up l n = negb (dval (live l) mod 2 ^ n =? 0).
Proof.
  intros Hl Hn. operand l Hl. dbase. pose proof DIG_SIZE_ge. unfold shr_round_up.
  assert (HD : 0 < DIG_SIZE) by lia. assert (HD' : DIG_SIZE <> 0) by lia.
  pose proof (Z.mod_pos_bound n DIG_SIZE HD) as Hpart. pose proof (Z.div_mod n DIG_SIZE HD') as Hdm.
  pose proof (Z.div_pos n DIG_SIZE Hn HD) as Hw. set (w := n / DIG_SIZE) in *. set (part := n mod DIG_SIZE) in *.
  rewrite existsb_nonzero by auto with mp. set (k := Z.to_nat w).
  assert (E2n : 2 ^ n = B ^ Z.of_nat k * 2 ^ part).
  { unfold k. rewrite Z2Nat.id, DIG_BASE_pow, <- Z.pow_mul_r, <- Z.pow_add_r by lia. f_equal. lia. }
  pose proof (Bpow_pos (Z.of_nat k) ltac:(lia)) as HP. pose proof (pow2_pos part ltac:(lia)) as H2.
  rewrite E2n. destruct (Nat.ltb_spec k (len l)) as [Hk|Hk]; cbn [andb].
  2:{ rewrite orb_false_r, take_ge by lia. rewrite Z.mod_small; [done|].
      pose proof (dval_bound (live l) Hok). rewrite Hlen in *.
      assert (B ^ Z.of_nat (len l) <= B ^ Z.of_nat k) by (apply Z.pow_le_mono_r; lia). nia. }
  assert (Hdk : dig l !!! k = live l !!! k).
  { unfold live. rewrite !list_lookup_total_alt, lookup_take_lt by lia. done. }
  rewrite Hdk, Z.shiftl_1_l, land_ones_wrap by lia. unfold wrap.
  assert (Hsp : dval (live l) = dval (take k (live l)) + B ^ Z.of_nat k * dval (drop k (live l))).
  { rewrite <- (take_drop k (live l)) at 1. rewrite dval_app, length_take_le by lia. done. }
  pose proof (dval_bound (take k (live l)) ltac:(auto with mp)) as Hb. rewrite length_take_le in Hb by lia.
  rewrite Hsp. set (T := dval (take k (live l))) in *.
  assert (Hd : exists q, dval (drop k (live l)) = live l !!! k + 2 ^ part * q).
  { erewrite drop_S by (apply list_lookup_lookup_total_lt; lia). cbn [dval].
    exists (2 ^ (DIG_SIZE - part) * dval (drop (S k) (live l))). f_equal.
    rewrite Z.mul_assoc, <- Z.pow_add_r by lia. rewrite DIG_BASE_pow. f_equal. f_equal. lia. }
  destruct Hd as [q Hd]. rewrite Hd. set (e := live l !!! k) in *.
  pose proof (Z.mod_pos_bound e (2 ^ part) H2) as Hem. pose proof (Z.div_mod e (2 ^ part) ltac:(lia)) as Hed.
  set (P := B ^ Z.of_nat k) in *.
  assert (Hmod : (T + P * (e + 2 ^ part * q)) mod (P * 2 ^ part) = T + P * (e mod 2 ^ part)).
  { symmetry. apply (Z.mod_unique _ _ (e / 2 ^ part + q)); [nia|nia]. }
  rewrite Hmod. destruct (Z.eqb_spec T 0), (Z.eqb_spec (e mod 2 ^ part) 0), (Z.eqb_spec (T + P * (e mod 2 ^ part)) 0);
    try done; nia.
Qed.

Lemma neg_shiftr v n : 0 <= v -> 0 <= n ->
  (- v) / 2 ^ n = - (v / 2 ^ n + (if negb (v mod 2 ^ n =? 0) then 1 else 0)).
Proof.
  intros Hv Hn. pose proof (pow2_pos n Hn). destruct (Z.eqb_spec (v mod 2 ^ n) 0) as [E|E]; cbn [negb].
  - rewrite Z_div_zero_opp_full by (first [exact E | lia]). lia.
  - rewrite Z_div_nz_opp_full by (first [exact E | lia]). lia.
Qed.

(** A digit list of a small value is short. *)
Lemma normd_length_le i j : digs_ok i -> digs_ok j -> normd i -> dval i <= dval j -> (length i <= length j)%nat.
Proof.
  intros Hi Hj Hn Hle. destruct (decide (length i <= length j)%nat); [done|].
  pose proof (dval_lt_length j i Hj Hi Hn). lia.
Qed.

(** Rounding needs no more digits than the operand has. *)
Lemma shr_add_one l n i m : mpz_ok l -> 0 < n -> dval (live l) mod 2 ^ n <> 0 ->
  digs_ok i -> normd (take m i) -> (m <= length i)%nat -> m <> 0%nat -> dval (take m i) = dval (live l) / 2 ^ n ->
  let a := mpn_add (take m i) [1] in
  digs_ok a /\ normd a /\ (length a <= len l)%nat /\ dval a = dval (live l) / 2 ^ n + 1.
Proof.
  intros Hl Hn Hmod Hi Hnm Hm Hm0 Hv a. operand l Hl. destruct one_ok as (H1 & H1n & H1v).
  pose proof (mpn_add_spec (take m i) [1]) as Hs. cbv zeta in Hs. fold a in Hs.
  destruct Hs as (Ha & Hal & Hav & Han); [auto with mp|done|done|rewrite length_take_le by lia; simpl; lia|].
  rewrite H1v, Hv in Hav. split; [done|]. split; [done|]. split; [|done].
  rewrite <- Hlen. apply normd_length_le; [done|done|done|]. rewrite Hav.
  assert (H2 : 2 ^ 1 <= 2 ^ n) by (apply Z.pow_le_mono_r; lia).
  pose proof (Z.div_mod (dval (live l)) (2 ^ n) ltac:(lia)).
  pose proof (Z.mod_pos_bound (dval (live l)) (2 ^ n) ltac:(lia)).
  assert (0 < dval (live l) / 2 ^ n).
  { rewrite <- Hv. pose proof (normd_nonzero (take m i) ltac:(auto with mp) Hnm) as Hz.
    rewrite length_take_le in Hz by lia. pose proof (Bpow_pos (Z.of_nat m - 1)).
    assert (take m i <> []) by (intros E; apply (f_equal length) in E; rewrite length_take_le in E by lia; simpl in E; lia).
    specialize (Hz ltac:(done)). lia. }
  nia.
Qed.

(** Shifting right rounds to negative infinity; a negative operand must not be
    the destination. *)
Lemma mpz_shr_spec st dest lhs d l n :
  dst st dest d -> obj st lhs l -> 0 <= n -> (dest <> lhs \/ neg l = false) ->
  computes (mpz_shr_inpl dest lhs n) st dest (Z.shiftr (mval l) n).
Proof.
  intros Hd Hl Hn Hne. rewrite Z.shiftr_div_pow2 by done. unfold mpz_shr_inpl.
  pose proof Hd as [[Hd1 Hd2] Hd3]. pose proof Hl as [Hl1 Hl2]. lrun.
  destruct (decide (len l = 0%nat \/ n = 0)) as [E|E].
  { assert (((len l =? 0)%nat || (n =? 0)) = true) as ->
      by (destruct E as [-> | ->]; [done|by rewrite orb_true_r]).
    destruct (mpz_set_run _ _ _ _ _ Hd Hl) as (z & Hz & Hc & _). exists z.
    split; [done|]. split; [apply Hc|]. split; [apply Hc|]. rewrite (copy_mval _ _ Hc).
    destruct E as [E| ->]; [|by rewrite Z.div_1_r].
    apply mval_zero in E; [|done]. rewrite E, Z.div_0_l; [done|]. pose proof (pow2_pos n Hn). lia. }
  assert (((len l =? 0)%nat || (n =? 0)) = false) as ->
    by (destruct (Nat.eqb_spec (len l) 0), (Z.eqb_spec n 0); try done; exfalso; auto).
  lrun. grown. operand l Hl2. pose proof (mpn_shr_spec (live l) n) as Hs.
  destruct (mpn_shr (live l) n) as [i m]. destruct Hs as (Hi & Hil & Hm & Hv & Hnm); [done|done|lia|].
  destruct (grow_spec d (len l) Hd2) as [(_ & Hgn & _ & Hgf & Hgok) [Hgl Hgl2]].
  destruct (neg l) eqn:En.
  - destruct Hne as [Hne|]; [|done].
    assert (Hal : forall z, alias dest lhs z l = l) by (intros z; unfold alias; by case_decide).
    assert (Ha' : a = l \/ True) by auto.
    lrun. rewrite !Hal, En. lrun. cbn [neg]. lrun. rewrite !Hal. rewrite shr_round_up_spec by done.
    unfold mval. rewrite En. unfold sgz. rewrite neg_shiftr by done. cbn [len fixed_dig dig].
    case_if.
    + destruct (Nat.eqb_spec m 0) as [->|Hm0].
      * destruct one_ok as (HO1 & HO2 & HO3).
        destruct (put_ok true (fixed_dig (grow d (len l))) 1 [1] (overwrite i (dig (grow d (len l))))) as [Hpo Hpl].
        { done. } { apply digs_ok_app. split; [done|apply digs_ok_drop, Hgok]. }
        { rewrite length_overwrite by lia. simpl. lia. } { simpl. lia. } { done. }
        eexists. rewrite put_digs_same by (cbn [dig]; rewrite length_overwrite by lia; simpl; lia).
        cbn [neg fixed_dig dig]. split; [done|]. split; [done|]. split; [simpl; congruence|].
        unfold mval. rewrite Hpl. rewrite <- Hv. simpl. lia.
      * destruct (shr_add_one l n i m) as (Ha1 & Ha2 & Ha3 & Ha4); try done; [lia|].
        destruct (put_ok true (fixed_dig (grow d (len l))) (length (mpn_add (take m i) [1]))
          (mpn_add (take m i) [1]) (overwrite i (dig (grow d (len l))))) as [Hpo Hpl].
        { done. } { apply digs_ok_app. split; [done|apply digs_ok_drop, Hgok]. }
        { rewrite length_overwrite by lia. lia. } { lia. } { by rewrite take_ge by lia. }
        rewrite (proj2 (put_ok true (fixed_dig (grow d (len l))) m i (dig (grow d (len l))) Hi (proj1 Hgok)
          ltac:(lia) Hm Hnm)).
        eexists. rewrite put_digs_same by (cbn [dig]; rewrite length_overwrite by lia; lia).
        cbn [neg fixed_dig dig]. split; [done|]. split; [done|]. split; [simpl; congruence|].
        unfold mval. rewrite Hpl, (take_ge (mpn_add (take m i) [1])) by lia. cbn [neg]. unfold sgz. rewrite Ha4. lia.
    + destruct (put_ok true (fixed_dig (grow d (len l))) m i (dig (grow d (len l)))) as [Hpo Hpl];
        try done; [apply Hgok|lia|].
      eexists. split; [reflexivity|]. split; [done|]. split; [simpl; congruence|].
      unfold mval. rewrite Hpl. simpl. lia.
  - destruct (put_ok false (fixed_dig (grow d (len l))) m i (dig (grow d (len l)))) as [Hpo Hpl];
      try done; [apply Hgok|lia|].
    lrun. rewrite (alias_neg st dest lhs d l) by done. rewrite En. lrun. cbn [neg].
    eexists. split; [reflexivity|]. split; [done|]. split; [simpl; congruence|].
    unfold mval. cbn [neg fixed_dig len dig]. rewrite Hpl, En. simpl. done.
Qed.

(** *** Comparison *)

(** The order of the values, negative zeros included. *)
Lemma mpz_cmp_spec z1 z2 : mpz_ok z1 -> mpz_ok z2 -> mpz_cmp z1 z2 = Z.sgn (mval z1 - mval z2).
Proof.
  intros H1 H2. operand z1 H1. operand z2 H2. unfold mpz_cmp.
  pose proof (live_zero z1 H1) as Hz1. pose proof (live_zero z2 H2) as Hz2.
  destruct (decide (len z1 = 0%nat /\ len z2 = 0%nat)) as [[E1 E2]|E].
  { rewrite E1, E2. simpl. apply mval_zero in E1, E2; try done. by rewrite E1, E2. }
  assert (((len z1 =? 0)%nat && (len z2 =? 0)%nat) = false) as ->.
  { destruct (Nat.eqb_spec (len z1) 0), (Nat.eqb_spec (len z2) 0); try done. exfalso; auto. }
  rewrite mpn_cmp_spec by done. unfold mval, sgz.
  destruct (neg z1), (neg z2); simpl.
  - lia.
  - assert (dval (live z1) <> 0 \/ dval (live z2) <> 0) by (rewrite Hz1, Hz2; lia). simpl. lia.
  - assert (dval (live z1) <> 0 \/ dval (live z2) <> 0) by (rewrite Hz1, Hz2; lia). simpl. lia.
  - lia.
Qed.

(** *** Bitwise operations *)

Lemma longest_run st lhs rhs l r :
  obj st lhs l -> obj st rhs r ->
  exists a b za zb, longest_first lhs rhs st = Some ((a, b), st) /\ obj st a za /\ obj st b zb
    /\ (len zb <= len za)%nat /\ ((za, zb) = (l, r) \/ (za, zb) = (r, l)).
Proof.
  intros Hl Hr. pose proof Hl as [Hl1 _]. pose proof Hr as [Hr1 _].
  unfold longest_first. mrun. unfold mret, M_ret. destruct (Nat.ltb_spec (len l) (len r)).
  - exists rhs, lhs, r, l. repeat split; try apply Hl; try apply Hr; [lia|by right].
  - exists lhs, rhs, l, r. repeat split; try apply Hl; try apply Hr; [lia|by left].
Qed.

(** The operations are commutative: it is enough to treat ordered operands. *)
Lemma ordered_bitop op (m : nat * nat -> MZ unit) st dest lhs rhs d l r :
  (forall x y, op x y = op y x) ->
  (forall a b za zb, obj st a za -> obj st b zb -> no_neg_zero za -> no_neg_zero zb ->
     (len zb <= len za)%nat -> computes (m (a, b)) st dest (op (mval za) (mval zb))) ->
  dst st dest d -> obj st lhs l -> obj st rhs r -> no_neg_zero l -> no_neg_zero r ->
  computes (longest_first lhs rhs ≫= m) st dest (op (mval l) (mval r)).
Proof.
  intros Hop Hm Hd Hl Hr Hzl Hzr.
  destruct (longest_run st lhs rhs l r Hl Hr) as (a & b & za & zb & Hrun & Ha & Hb & Hlen & Hcase).
  eapply leaves_bind; [exact Hrun|]. destruct Hcase as [[= -> ->]|[= -> ->]]; [|rewrite Hop]; by apply Hm.
Qed.

Lemma neg_nonzero z : mpz_ok z -> no_neg_zero z -> neg z = true -> dval (live z) <> 0.
Proof. intros Hz Hn H. rewrite live_zero by done. by apply Hn. Qed.

Lemma mpz_and_spec st dest lhs rhs d l r :
  dst st dest d -> obj st lhs l -> obj st rhs r -> no_neg_zero l -> no_neg_zero r ->
  computes (mpz_and_inpl dest lhs rhs) st dest (Z.land (mval l) (mval r)).
Proof.
  intros Hd. eapply (ordered_bitop Z.land); [apply Z.land_comm| |exact Hd].
  clear l r. destruct Hd as [[Hd Hdok] Hf]. intros a b l r [Hl Hlok] [Hr Hrok] Hzl Hzr Hlen. cbv beta iota.
  operand l Hlok. operand r Hrok. lrun.
  pose proof (neg_nonzero l Hlok Hzl) as Hnl. pose proof (neg_nonzero r Hrok Hzr) as Hnr.
  destruct (negb (neg l) && negb (neg r)) eqn:E; lrun; grown.
  - pose proof (mpn_and_spec (live l) (live r)) as Hs. destruct (mpn_and (live l) (live r)) as [i n].
    destruct Hs as (Hi & Hil & Hn & Hv & Hnm); [done|done|lia|].
    bool_to_prop. eapply (finish_neg _ _ _ _ _ _ _ false); try done; [lia|].
    unfold mval, sgz. negs. by rewrite Hv.
  - negs. pose proof (mpn_and_neg_spec (live l) (live r) (neg l) (neg r)) as Hs.
    destruct (mpn_and_neg _ _ _ _ _) as [i n].
    destruct Hs as (Hi & Hil & Hn & Hv & Hnm); [done|done|lia|by destruct (neg l), (neg r)|done|done|].
    eapply (finish_neg _ _ _ _ _ _ _ (neg l && neg r)); try done; [by reread|lia].
Qed.

Lemma mpz_or_spec st dest lhs rhs d l r :
  dst st dest d -> obj st lhs l -> obj st rhs r -> no_neg_zero l -> no_neg_zero r ->
  computes (mpz_or_inpl dest lhs rhs) st dest (Z.lor (mval l) (mval r)).
Proof.
  intros Hd. eapply (ordered_bitop Z.lor); [apply Z.lor_comm| |exact Hd].
  clear l r. destruct Hd as [[Hd Hdok] Hf]. intros a b l r [Hl Hlok] [Hr Hrok] Hzl Hzr Hlen. cbv beta iota.
  operand l Hlok. operand r Hrok. lrun.
  pose proof (neg_nonzero l Hlok Hzl) as Hnl. pose proof (neg_nonzero r Hrok Hzr) as Hnr.
  destruct (negb (neg l) && negb (neg r)) eqn:E; lrun; grown.
  - pose proof (mpn_or_spec (live l) (live r)) as Hs. cbv zeta in Hs.
    destruct Hs as (Hi & Hil & Hv & Hnm); [done|done|done|lia|].
    bool_to_prop. eapply (finish_neg _ _ _ _ _ _ _ false); try done; [lia|by rewrite take_ge by lia|].
    unfold mval, sgz. rewrite take_ge by lia. negs. by rewrite Hv.
  - negs.
    destruct (mpn_or_neg_spec (live l) (live r) (neg l) (neg r)) as (i & n & Hrun & Hi & Hil & Hn & Hv & Hnm);
      [done|done|lia|by destruct (neg l), (neg r)|done|done|].
    eapply leaves_bind; [unfold mlift; by rewrite Hrun|]. cbv beta iota.
    eapply (finish_neg _ _ _ _ _ _ _ true); try done; lia.
Qed.

Lemma mpz_xor_spec st dest lhs rhs d l r :
  dst st dest d -> obj st lhs l -> obj st rhs r -> no_neg_zero l -> no_neg_zero r ->
  computes (mpz_xor_inpl dest lhs rhs) st dest (Z.lxor (mval l) (mval r)).
Proof.
  intros Hd. eapply (ordered_bitop Z.lxor); [apply Z.lxor_comm| |exact Hd].
  clear l r. destruct Hd as [[Hd Hdok] Hf]. intros a b l r [Hl Hlok] [Hr Hrok] Hzl Hzr Hlen. cbv beta iota.
  operand l Hlok. operand r Hrok. lrun.
  pose proof (neg_nonzero l Hlok Hzl) as Hnl. pose proof (neg_nonzero r Hrok Hzr) as Hnr.
  pose proof (mpn_xor_neg_spec (live l) (live r) (neg l) (neg r)) as Hs. unfold mval.
  destruct (neg l) eqn:El, (neg r) eqn:Er; cbn [Bool.eqb xorb negb Z.b2z orb] in *; lrun; grown;
    negs; try (destruct (mpn_xor_neg _ _ _ _ _) as [i n];
      destruct Hs as (Hi & Hil & Hil0 & Hn & Hv & Hnm); [done|done|lia|done|done|done|]).
  - specialize (Hil0 eq_refl). eapply (finish_neg _ _ _ _ _ _ _ false); try done; lia.
  - eapply (finish_neg _ _ _ _ _ _ _ true); try done; lia.
  - eapply (finish_neg _ _ _ _ _ _ _ true); try done; lia.
  - clear Hs. pose proof (mpn_xor_spec (live l) (live r)) as Hs. destruct (mpn_xor (live l) (live r)) as [i n].
    destruct Hs as (Hi & Hil & Hn & Hv & Hnm); [done|done|lia|].
    eapply (finish_neg _ _ _ _ _ _ _ false); try done; lia.
Qed.

(** *** Multiplication *)

Lemma alias_ne p q z e : p <> q -> alias p q z e = e.
Proof. intros H. unfold alias. by case_decide. Qed.

Lemma overwrite_all {A} (ds buf : list A) : length ds = length buf -> overwrite ds buf = ds.
Proof. intros H. unfold overwrite. rewrite drop_ge, app_nil_r by lia. done. Qed.

Lemma mpz_mul_disjoint_spec st dest a b d l r :
  dst st dest d -> obj st a l -> obj st b r -> dest <> a -> dest <> b -> len l <> 0%nat -> len r <> 0%nat ->
  computes (mpz_mul_disjoint dest a b) st dest (mval l * mval r).
Proof.
  intros [[Hd Hdok] Hf] [Hl Hlok] [Hr Hrok] Ha Hb Hl0 Hr0. operand l Hlok. operand r Hrok.
  unfold mpz_mul_disjoint. lrun.
  destruct (grow_spec d (len l + len r) Hdok) as [(_ & Hgn & _ & Hgf & Hgok) [Hgl _]].
  set (g := grow d (len l + len r)) in *.
  eapply leaves_bind; [apply store_digs_same; by rewrite length_replicate|]. cbv beta iota.
  rewrite overwrite_all by by rewrite length_replicate. lrun. rewrite !alias_ne by done. cbn [dig].
  destruct (mpn_mul_spec (length (dig g)) (live l) (live r)) as (i & n & Hrun & Hi & Hil & Hn & Hv & Hnm);
    try done; try lia; try (by rewrite live_nil).
  eapply leaves_bind; [unfold mlift; by rewrite Hrun|]. cbv beta iota.
  eapply leaves_bind; [apply put_digs_same; cbn [dig]; rewrite length_replicate; lia|].
  cbn [neg fixed_dig dig]. rewrite overwrite_all by (rewrite length_replicate; lia). lrun. rewrite !alias_ne by done.
  eexists. rewrite set_neg_same. split; [done|]. cbn [fixed_dig len dig].
  split; [split; [done|split; [simpl; lia|done]]|]. split; [congruence|].
  unfold mval. cbn [neg]. unfold live at 1. cbn [len dig]. unfold sgz. rewrite Hv.
  destruct (neg l), (neg r); cbn [Bool.eqb negb]; lia.
Qed.

Lemma delete_temp (st : mpz_store) t dest c d : st !! t = None -> st !! dest <> None ->
  delete t (<[dest := d]> (<[t := c]> st)) = <[dest := d]> st.
Proof.
  intros Ht Hd. assert (dest <> t) by congruence.
  rewrite delete_insert_ne by done. by rewrite delete_insert_id.
Qed.

(** The operands copied by [mul_operands] have the values of the originals. *)
Lemma mul_operands_run st dest lhs rhs d l r :
  dst st dest d -> obj st lhs l -> obj st rhs r -> len l <> 0%nat -> len r <> 0%nat ->
  exists a b t st1 za zb, mul_operands dest lhs rhs st = Some ((a, b, t), st1)
    /\ dest <> a /\ dest <> b /\ dst st1 dest d /\ obj st1 a za /\ obj st1 b zb
    /\ mval za = mval l /\ mval zb = mval r /\ len za = len l /\ len zb = len r
    /\ forall d', (match t with Some t => mpz_free t | None => mret tt end) (<[dest := d']> st1)
        = Some (tt, <[dest := d']> st).
Proof.
  intros Hd Hl Hr Hl0 Hr0. unfold mul_operands.
  assert (Hclone : forall src s, obj st src s -> len s <> 0%nat ->
    exists t c, mpz_clone src st = Some (t, <[t := c]> st) /\ st !! t = None /\ copy_of s c
      /\ dest <> t /\ dst (<[t := c]> st) dest d).
  { intros src s Hs Hs0. destruct (clone_run st src s Hs Hs0) as (t & c & Hrun & Ht & Hc).
    destruct Hd as [[Hd Hok] Hf]. assert (dest <> t) by congruence.
    exists t, c. repeat split; try apply Hok; try done; try apply Hc. by rewrite lookup_insert_ne. }
  assert (Hfree : forall t c, st !! t = None -> forall d', mpz_free t (<[dest := d']> (<[t := c]> st))
    = Some (tt, <[dest := d']> st)).
  { intros t c Ht d'. unfold mpz_free, mmodify. destruct Hd as [[Hd Hok] Hf].
    rewrite delete_temp; [done|done|congruence]. }
  assert (Hother : forall t c q s, st !! t = None -> obj st q s -> obj (<[t := c]> st) q s).
  { intros t c q s Ht [Hq Hs]. split; [|done]. rewrite lookup_insert_ne by congruence. done. }
  destruct (Nat.eqb_spec lhs dest) as [->|Hne1].
  - destruct (Hclone dest l Hl Hl0) as (t & c & Hrun & Ht & Hc & Hdt & Hdst).
    rewrite (M_bind_Some _ _ _ _ _ Hrun). unfold mret, M_ret. pose proof Hc as (_ & _ & Hcl & _ & Hcok).
    exists t, (if (rhs =? dest)%nat then t else rhs), (Some t), (<[t := c]> st), c,
      (if (rhs =? dest)%nat then c else r).
    assert (Htc : obj (<[t := c]> st) t c) by (split; [apply lookup_insert_eq|done]).
    split; [done|]. split; [done|]. split; [by case_match; bool_to_prop|]. split; [done|]. split; [done|].
    split; [case_match; auto|]. split; [by apply copy_mval|].
    destruct (Nat.eqb_spec rhs dest) as [->|]; [|repeat split; eauto].
    assert (l = r) as <- by (destruct Hl, Hr; congruence).
    split; [by apply copy_mval|]. split; [done|]. split; [done|]. intros d'. by apply Hfree.
  - destruct (Nat.eqb_spec rhs dest) as [->|Hne2].
    + destruct (Hclone dest r Hr Hr0) as (t & c & Hrun & Ht & Hc & Hdt & Hdst).
      rewrite (M_bind_Some _ _ _ _ _ Hrun). unfold mret, M_ret. pose proof Hc as (_ & _ & Hcl & _ & Hcok).
      exists lhs, t, (Some t), (<[t := c]> st), l, c.
      split; [done|]. split; [done|]. split; [done|]. split; [done|]. split; [by apply Hother|].
      split; [split; [apply lookup_insert_eq|done]|]. split; [done|]. split; [by apply copy_mval|].
      split; [done|]. split; [done|]. intros d'. by apply Hfree.
    + exists lhs, rhs, None, st, l, r. repeat split; try done; try apply Hd; try apply Hl; try apply Hr; auto.
Qed.

Lemma mpz_mul_spec st dest lhs rhs d l r :
  dst st dest d -> obj st lhs l -> obj st rhs r ->
  computes (mpz_mul_inpl dest lhs rhs) st dest (mval l * mval r).
Proof.
  intros Hd Hl Hr. pose proof Hl as [Hl1 Hl2]. pose proof Hr as [Hr1 Hr2]. unfold mpz_mul_inpl. lrun.
  destruct (decide (len l = 0%nat \/ len r = 0%nat)) as [E|E].
  { assert (((len l =? 0)%nat || (len r =? 0)%nat) = true) as ->
      by (destruct E as [-> | ->]; [done|by rewrite orb_true_r]).
    assert (mval l * mval r = 0) as ->
      by (destruct E as [E|E]; apply mval_zero in E; try done; rewrite E; lia).
    eapply mpz_set_from_int_spec; [done|]. pose proof WORD_BITS_ge.
    unfold in_mp_int. pose proof (pow2_pos (WORD_BITS - 1)). lia. }
  assert (((len l =? 0)%nat || (len r =? 0)%nat) = false) as ->
    by (destruct (Nat.eqb_spec (len l) 0), (Nat.eqb_spec (len r) 0); try done; exfalso; auto).
  destruct (mul_operands_run st dest lhs rhs d l r) as
    (a & b & t & st1 & za & zb & Hrun & Ha & Hb & Hd1 & Hza & Hzb & Hva & Hvb & Hla & Hlb & Hfree); try done; auto.
  eapply leaves_bind; [exact Hrun|]. cbv beta iota.
  destruct (mpz_mul_disjoint_spec st1 dest a b d za zb) as (d' & Hm & Hd'); try done; [intros ?; apply E; left; congruence|intros ?; apply E; right; congruence|].
  eapply leaves_bind; [exact Hm|]. cbv beta iota. exists d'. rewrite Hfree.
  by rewrite <- Hva, <- Hvb.
Qed.

(** *** Division *)

(** An object that is not the one changed. *)
Lemma obj_ne (st : mpz_store) p q z e : p <> q -> obj st q e -> obj (<[p := z]> st) q e.
Proof. intros Hne [Hq He]. split; [|done]. by rewrite lookup_insert_ne. Qed.

Lemma dst_ne (st : mpz_store) p q z e : p <> q -> dst st q e -> dst (<[p := z]> st) q e.
Proof. intros Hne [Hq He]. split; [|done]. by apply obj_ne. Qed.

Lemma obj_new (st : mpz_store) p z : mpz_ok z -> obj (<[p := z]> st) p z.
Proof. split; [apply lookup_insert_eq|done]. Qed.

Lemma dst_new (st : mpz_store) p z : mpz_ok z -> fixed_dig z = false -> dst (<[p := z]> st) p z.
Proof. split; [by apply obj_new|done]. Qed.

Lemma mpz_zero_ok : mpz_ok mpz_zero_obj.
Proof. repeat split; [constructor|simpl; lia|done]. Qed.

Lemma in_mp_int_m1 : in_mp_int (-1).
Proof. pose proof WORD_BITS_ge. unfold in_mp_int. pose proof (pow2_pos (WORD_BITS - 1)). lia. Qed.

Lemma mpz_divmod_round_spec st q m rhs zq zm r :
  dst st q zq -> dst st m zm -> obj st rhs r -> q <> m -> q <> rhs -> m <> rhs ->
  exists q' m', mpz_divmod_round q m rhs st = Some (tt, <[m := m']> (<[q := q']> st))
    /\ mpz_ok q' /\ fixed_dig q' = false /\ mval q' = mval zq - 1
    /\ mpz_ok m' /\ fixed_dig m' = false /\ mval m' = mval zm + mval r.
Proof.
  intros Hq Hm Hr Hqm Hqr Hmr. unfold mpz_divmod_round.
  set (p := fresh (dom st)). assert (Hp : st !! p = None) by (apply not_elem_of_dom, is_fresh).
  assert (Hpq : p <> q) by (destruct Hq as [[Hq _] _]; congruence).
  assert (Hpm : p <> m) by (destruct Hm as [[Hm _] _]; congruence).
  assert (Hpr : p <> rhs) by (destruct Hr as [Hr _]; congruence).
  rewrite (M_bind_Some _ _ _ _ _ (new_obj_run st)). fold p. unfold mpz_init_from_int. rewrite M_bind_assoc.
  rewrite (M_bind_Some _ _ _ _ _ (init_zero_run _ p)), insert_insert_eq.
  destruct (mpz_set_from_int_spec (<[p := mpz_zero_obj]> st) p mpz_zero_obj (-1)) as (o & Ho & Hook & Hof & Hov);
    [apply dst_new; [apply mpz_zero_ok|done]|apply in_mp_int_m1|].
  rewrite insert_insert_eq in Ho. rewrite (M_bind_Some _ _ _ _ _ Ho). cbv beta.
  destruct (mpz_add_spec (<[p := o]> st) q q p zq zq o) as (q' & Hq' & Hq'ok & Hq'f & Hq'v);
    [by apply dst_ne|by apply obj_ne, Hq|by apply obj_new|].
  rewrite (M_bind_Some _ _ _ _ _ Hq'). cbv beta.
  destruct (mpz_add_spec (<[q := q']> (<[p := o]> st)) m m rhs zm zm r) as (m' & Hm' & Hm'ok & Hm'f & Hm'v);
    [by apply dst_ne, dst_ne|by apply obj_ne, obj_ne, Hm|by apply obj_ne, obj_ne|].
  rewrite (M_bind_Some _ _ _ _ _ Hm'). cbv beta.
  exists q', m'. split; [|repeat split; try apply Hq'ok; try apply Hm'ok; done || lia].
  unfold mpz_free, mmodify. rewrite !delete_insert_ne by done. by rewrite delete_insert_id.
Qed.

(** A buffer replaced as a whole. *)
Lemma put_all_ok b n ds : digs_ok ds -> (n <= length ds)%nat -> normd (take n ds) ->
  mpz_ok (MkMpz b false n ds) /\ mval (MkMpz b false n ds) = sgz b (take n ds).
Proof. done. Qed.

Lemma mpz_divmod_abs_spec st q m lhs rhs zq zm l r :
  dst st q zq -> dst st m zm -> obj st lhs l -> obj st rhs r ->
  q <> m -> q <> lhs -> q <> rhs -> m <> rhs -> len r <> 0%nat -> borrow_fitsb (live r) = true ->
  exists q' m', mpz_divmod_abs q m lhs rhs st = Some (tt, <[q := q']> (<[m := m']> st))
    /\ mpz_ok q' /\ fixed_dig q' = false /\ neg q' = neg zq /\ dval (live q') = dval (live l) / dval (live r)
    /\ mpz_ok m' /\ fixed_dig m' = false /\ neg m' = neg l /\ dval (live m') = dval (live l) mod dval (live r).
Proof.
  intros [[Hq Hqok] Hqf] [[Hm Hmok] Hmf] [Hl Hlok] [Hr Hrok] Hqm Hql Hqr Hmr Hr0 Hfit.
  unfold mpz_divmod_abs. mrun. destruct (grow_spec zq (len l + 1) Hqok) as [(_ & Hgn & _ & Hgf & Hgok) [Hgl _]].
  set (g := grow zq (len l + 1)) in *. rewrite alias_ne by done.
  erewrite M_bind_Some by (apply store_digs_same; by rewrite length_replicate). cbv beta. mrun.
  rewrite alias_ne by done. cbn [neg fixed_dig dig].
  set (q1 := MkMpz _ _ _ _). assert (Hq1 : digs_ok (dig q1) /\ length (dig q1) = length (dig g)).
  { unfold q1. cbn [dig]. rewrite length_overwrite by (by rewrite length_replicate). split; [|done].
    apply digs_ok_app. split; [apply digs_ok_replicate_0|apply digs_ok_drop, Hgok]. }
  destruct Hq1 as [Hq1 Hq1l].
  set (s1 := <[q := q1]> st). assert (Hm1 : s1 !! m = Some zm) by (unfold s1; by rewrite lookup_insert_ne).
  assert (Hl1 : s1 !! lhs = Some l) by (unfold s1; by rewrite lookup_insert_ne).
  assert (Hr1 : s1 !! rhs = Some r) by (unfold s1; by rewrite lookup_insert_ne).
  assert (Hq1s : s1 !! q = Some q1) by apply lookup_insert_eq.
  erewrite M_bind_Some by (apply need_dig_run; done). cbv beta.
  set (h := grow zm (len l + 1)).
  destruct (grow_spec zm (len l + 1) Hmok) as [(Hh1 & Hh2 & Hh3 & Hh4 & Hh5) [Hhl _]]. fold h in Hh1, Hh2, Hh3, Hh4, Hh5, Hhl.
  destruct (alias_grow s1 m lhs zm l (len l + 1) Hm1 Hmok Hl1 Hlok) as (Hal1 & Hal2 & Hal3 & Hal4 & Hal5). fold h in Hal1, Hal2, Hal3, Hal4, Hal5.
  destruct (mpz_set_run (<[m := h]> s1) m lhs h (alias m lhs h l)) as (z & Hz & Hc & Hzl).
  { apply dst_new; [done|congruence]. } { split; [by apply lookup_alias|done]. }
  rewrite insert_insert_eq in Hz. rewrite (M_bind_Some _ _ _ _ _ Hz). cbv beta.
  destruct Hc as (Hc1 & Hc2 & Hc3 & Hc4 & Hc5). rewrite Hal1 in Hc1. rewrite Hal2 in Hc2. rewrite Hal3 in Hc3.
  erewrite M_bind_Some by (apply deref_alias; exact Hq1s). cbv beta. rewrite alias_ne by done.
  mrun. rewrite alias_ne by done. operand l Hlok. operand r Hrok.
  destruct (mpn_div_spec (dig z) (len z) (live r) (dig q1)) as
    (num & rl & quo & ql & Hdiv & Hn1 & Hn2 & Hn3 & Hq2 & Hq3 & Hq4 & Hv1 & Hv2 & Hnq & Hnn); try done.
  { apply Hc5. } { lia. } { apply Hc5. } { intros E. apply Hr0. by apply live_nil. } { lia. }
  fold (live z) in Hv1, Hv2. rewrite Hc1 in Hv1, Hv2.
  unfold mlift at 1. unfold mbind at 1, M_bind at 1. rewrite Hdiv. cbv beta iota.
  erewrite M_bind_Some by (apply put_digs_same; lia). cbv beta.
  erewrite put_digs_run; [|rewrite lookup_insert_ne by done; exact Hq1s|lia].
  rewrite !overwrite_all by lia. unfold s1.
  rewrite (insert_insert_ne st m q), insert_insert_eq by done.
  eexists _, _. split; [reflexivity|]. rewrite Hc2, Hc4. unfold q1. cbn [neg fixed_dig].
  rewrite Hgf, Hqf, Hgn. repeat split; try done; cbn [len dig]; lia.
Qed.

(** Python's floor division from the quotient and remainder of the magnitudes. *)
Lemma floor_div_signs a b (nl nr : bool) : 0 <= a -> 0 < b ->
  let x := if nl then - a else a in let y := if nr then - b else b in
  let m := if nl then - (a mod b) else a mod b in
  if Bool.eqb nl nr then x / y = a / b /\ x mod y = m
  else if a mod b =? 0 then x / y = - (a / b) /\ x mod y = m
  else x / y = - (a / b) - 1 /\ x mod y = m + y.
Proof.
  intros Ha Hb. cbv zeta. pose proof (Z.div_mod a b ltac:(lia)). pose proof (Z.mod_pos_bound a b Hb).
  assert (Hu : forall x y q m, x = y * q + m -> (0 <= m < y \/ y < m <= 0) -> x / y = q /\ x mod y = m).
  { intros x y q m E Hr. split; [symmetry; apply (Z.div_unique _ _ _ m); lia|symmetry; apply (Z.mod_unique _ _ q); lia]. }
  destruct nl, nr; cbn [Bool.eqb]; try (destruct (Z.eqb_spec (a mod b) 0)); apply Hu; lia.
Qed.

Lemma sgz_if b ds : sgz b ds = if b then - dval ds else dval ds.
Proof. done. Qed.

Lemma mpz_divmod_spec st q m lhs rhs zq zm l r :
  dst st q zq -> dst st m zm -> obj st lhs l -> obj st rhs r ->
  q <> m -> q <> lhs -> q <> rhs -> m <> rhs -> len r <> 0%nat -> borrow_fitsb (live r) = true ->
  exists q' m', mpz_divmod_inpl q m lhs rhs st = Some (tt, <[q := q']> (<[m := m']> st))
    /\ mpz_ok q' /\ fixed_dig q' = false /\ (neg zq = false -> mval q' = mval l / mval r)
    /\ mpz_ok m' /\ fixed_dig m' = false /\ mval m' = mval l mod mval r.
Proof.
  intros Hq Hm Hl Hr Hqm Hql Hqr Hmr Hr0 Hfit.
  destruct (mpz_divmod_abs_spec st q m lhs rhs zq zm l r) as
    (q1 & m1 & Hrun & Hq1 & Hq1f & Hq1n & Hq1v & Hm1 & Hm1f & Hm1n & Hm1v); try done.
  unfold mpz_divmod_inpl. destruct Hl as [Hl Hlok]. pose proof Hr as [Hr1 Hrok]. mrun.
  unfold massert, mpz_is_zero. destruct (Nat.eqb_spec (len r) 0); [done|]. cbn [negb].
  erewrite M_bind_Some by reflexivity. cbv beta. rewrite (M_bind_Some _ _ _ _ _ Hrun). cbv beta.
  set (S1 := <[q := q1]> (<[m := m1]> st)).
  assert (Hl1 : exists l1, S1 !! lhs = Some l1 /\ neg l1 = neg l).
  { unfold S1. rewrite lookup_insert_ne by done. destruct (decide (m = lhs)) as [->|].
    - rewrite lookup_insert_eq. eauto.
    - rewrite lookup_insert_ne by done. eauto. }
  destruct Hl1 as (l1 & Hl1 & Hl1n).
  assert (HrS : obj S1 rhs r) by (by apply obj_ne, obj_ne).
  assert (HmS : dst S1 m m1) by (by apply dst_ne, dst_new).
  pose proof HrS as [HrS1 _]. erewrite M_bind_Some by (apply deref_run; exact Hl1). cbv beta.
  erewrite M_bind_Some by (apply deref_run; exact HrS1). cbv beta. rewrite Hl1n.
  operand l Hlok. operand r Hrok. assert (Hr00 : dval (live r) <> 0) by (by rewrite live_zero).
  assert (Hrp : 0 < dval (live r)) by lia.
  pose proof (floor_div_signs (dval (live l)) (dval (live r)) (neg l) (neg r) Hpos Hrp) as Hfl. cbv zeta in Hfl.
  rewrite <- !sgz_if in Hfl. fold (mval l) (mval r) in Hfl.
  destruct (Bool.eqb (neg l) (neg r)); cbn [negb].
  { exists q1, m1. split; [done|]. split; [done|]. split; [done|]. destruct Hfl as [-> ->].
    split; [intros Hz; unfold mval; by rewrite Hq1n, Hz|]. split; [done|]. split; [done|].
    unfold mval. rewrite Hm1n, sgz_if. by rewrite Hm1v. }
  assert (Hm1m : mval m1 = if neg l then - (dval (live l) mod dval (live r)) else dval (live l) mod dval (live r))
    by (unfold mval; by rewrite Hm1n, sgz_if, Hm1v).
  unfold S1. erewrite M_bind_Some by apply set_neg_same. cbv beta.
  set (q2 := MkMpz true (fixed_dig q1) (len q1) (dig q1)).
  assert (Hq2 : mval q2 = - (dval (live l) / dval (live r))) by (unfold mval; simpl; by rewrite <- Hq1v).
  erewrite M_bind_Some by (apply deref_run; rewrite lookup_insert_ne by done; apply lookup_insert_eq). cbv beta.
  pose proof (live_zero m1 Hm1) as Hm10. rewrite Hm1v in Hm10.
  destruct (Z.eqb_spec (dval (live l) mod dval (live r)) 0) as [E|E]; destruct Hfl as [-> ->].
  - assert ((len m1 =? 0)%nat = true) as -> by (apply Nat.eqb_eq; tauto). cbn [negb].
    exists q2, m1. split; [done|]. split; [exact Hq1|]. split; [done|]. split; [done|]. by repeat split; try apply Hm1.
  - assert ((len m1 =? 0)%nat = false) as -> by (apply Nat.eqb_neq; tauto). cbn [negb].
    destruct (mpz_divmod_round_spec (<[q := q2]> (<[m := m1]> st)) q m rhs q2 m1 r) as
      (q3 & m3 & Hrun3 & Hq3 & Hq3f & Hq3v & Hm3 & Hm3f & Hm3v); try done.
    { by apply dst_new. } { by apply dst_ne, dst_new. } { by apply obj_ne, obj_ne. }
    exists q3, m3. rewrite Hrun3, insert_insert_eq.
    rewrite (insert_insert_ne _ m q) by done. rewrite insert_insert_eq.
    split; [done|]. split; [done|]. split; [done|]. split; [intros _; lia|]. split; [done|]. split; [done|]. lia.
Qed.
End Ops2.
