(* ===== verification/MpzPow.v ===== *)
(** The powers of [Mpz]: [mpz_pow_inpl] and the modular [mpz_pow3_inpl], by
    repeated squaring, with their temporaries. *)
From S2P Require Import Prelude SmallInt Digits Mpn MpnDiv MpnBits Mpz MpzSpec.

Section Pow.
Context {wcfg : WordCfg} {cfg : MpzCfg}.
Abbreviation B := (@DIG_BASE cfg).

(** [s'] differs from [s] at most at the pointers [ps]. *)
Definition frame (ps : list nat) (s s' : mpz_store) : Prop := forall p, p ∉ ps -> s' !! p = s !! p.

Lemma frame_insert ps (s s' : mpz_store) p z : p ∈ ps -> frame ps s s' -> frame ps s (<[p := z]> s').
Proof. intros Hp Hf q Hq. rewrite lookup_insert_ne by (intros ->; done). by apply Hf. Qed.

Lemma frame_refl ps s : frame ps s s.
Proof. done. Qed.

Lemma frame_trans ps s1 s2 s3 : frame ps s1 s2 -> frame ps s2 s3 -> frame ps s1 s3.
Proof. intros H1 H2 p Hp. rewrite H2, H1 by done. done. Qed.

Lemma low_bit z : mpz_ok z -> len z <> 0%nat -> Z.land (dig z !!! 0%nat) 1 = dval (live z) mod 2.
Proof.
  intros Hz Hl. operand z Hz. change 1 with (2 ^ 1 - 1) at 1. rewrite land_ones_wrap by lia. unfold wrap.
  assert (E : dig z !!! 0%nat = live z !!! 0%nat) by (unfold live; rewrite !list_lookup_total_alt, lookup_take_lt by lia; done).
  rewrite E. destruct (live z) as [|d ds]; [simpl in Hlen; lia|]. cbn [dval lookup_total list_lookup_total].
  pose proof DIG_SIZE_ge. rewrite DIG_BASE_pow, (pow2_split DIG_SIZE) by lia.
  replace (2 * 2 ^ (DIG_SIZE - 1) * dval ds) with (2 ^ (DIG_SIZE - 1) * dval ds * 2) by ring.
  by rewrite Z_mod_plus_full.
Qed.

(** [n->len = mpn_shr(n->dig, n->dig, n->len, 1)] *)
Lemma halve_run st n zn : dst st n zn -> neg zn = false ->
  exists n', (let '(i, l) := mpn_shr (live zn) 1 in put_digs n i l) st = Some (tt, <[n := n']> st)
    /\ (mpn_shr (live zn) 1).2 = len n' /\ mpz_ok n' /\ fixed_dig n' = false /\ neg n' = false
    /\ mval n' = mval zn / 2.
Proof.
  intros [[Hn Hok] Hf] Hneg. operand zn Hok. pose proof (mpn_shr_spec (live zn) 1) as Hs.
  destruct (mpn_shr (live zn) 1) as [i l]. destruct Hs as (Hi & Hil & Hl & Hv & Hnm); [done|done|lia|].
  pose proof (proj1 (proj2 Hok)). destruct (put_ok false (fixed_dig zn) l i (dig zn)) as [Hpo Hpl]; try done;
    [apply Hok|lia|].
  eexists. split; [apply put_digs_run; [done|lia]|]. rewrite Hneg, Hf in *. split; [done|].
  split; [done|]. split; [done|]. split; [done|]. unfold mval. rewrite Hpl. simpl. rewrite Hneg. done.
Qed.

Lemma pow_step d x k : 0 <= k -> d * (if k mod 2 =? 0 then 1 else x) * (x * x) ^ (k / 2) = d * x ^ k.
Proof.
  intros Hk. replace (x * x) with (x ^ 2) by lia. assert (0 <= k / 2) by (apply Z.div_pos; lia).
  rewrite <- Z.pow_mul_r, <- Z.mul_assoc by lia. f_equal. pose proof (Z.div_mod k 2 ltac:(lia)) as E.
  pose proof (Z.mod_pos_bound k 2 ltac:(lia)). destruct (Z.eqb_spec (k mod 2) 0) as [E0|E0].
  - rewrite Z.mul_1_l. f_equal. lia.
  - rewrite <- Z.pow_succ_r by lia. f_equal. lia.
Qed.

Lemma mpz_pow_loop_spec fuel dest x n st zd zx zn :
  dst st dest zd -> dst st x zx -> dst st n zn -> dest <> x -> dest <> n -> x <> n ->
  neg zn = false -> mval zn < 2 ^ Z.of_nat fuel ->
  exists st' d', mpz_pow_loop fuel dest x n st = Some (tt, st') /\ frame [dest; x; n] st st'
    /\ dst st' dest d' /\ mval d' = mval zd * mval zx ^ mval zn.
Proof.
  revert st zd zx zn. induction fuel as [|fuel IH]; intros st zd zx zn Hd Hx Hn Hdx Hdn Hxn Hneg Hfuel;
    cbn [mpz_pow_loop]; pose proof Hn as [[Hn1 Hnok] Hnf]; mrun; pose proof (live_nonneg zn Hnok) as Hpos;
    (destruct (Nat.eqb_spec (len zn) 0) as [E|E];
      [exists st, zd; split; [done|]; split; [done|]; split; [done|];
       apply (mval_zero zn Hnok) in E; rewrite E; lia|]).
  { exfalso. rewrite <- (live_zero zn Hnok) in E. unfold mval in Hfuel. rewrite Hneg in Hfuel.
    change (2 ^ Z.of_nat 0) with 1 in Hfuel. cbn [sgz] in Hfuel. lia. }
  rewrite low_bit by done.
  assert (Hk : mval zn = dval (live zn)) by (unfold mval; by rewrite Hneg).
  assert (Hmul : exists d1, (if negb (dval (live zn) mod 2 =? 0) then mpz_mul_inpl dest dest x else mret tt) st
      = Some (tt, <[dest := d1]> st) /\ mpz_ok d1 /\ fixed_dig d1 = false
      /\ mval d1 = mval zd * (if mval zn mod 2 =? 0 then 1 else mval zx)).
  { rewrite Hk. destruct (dval (live zn) mod 2 =? 0); cbn [negb].
    - exists zd. destruct Hd as [[Hd Hdok] Hdf]. rewrite insert_id by done. repeat split; try apply Hdok; try done. lia.
    - eapply mpz_mul_spec; [exact Hd|apply Hd|apply Hx]. }
  destruct Hmul as (d1 & Hrun1 & Hd1ok & Hd1f & Hd1v). rewrite (M_bind_Some _ _ _ _ _ Hrun1). cbv beta.
  set (st1 := <[dest := d1]> st). assert (Hn' : dst st1 n zn) by (by apply dst_ne).
  erewrite M_bind_Some by (apply deref_run; apply Hn'). cbv beta.
  destruct (halve_run st1 n zn Hn' Hneg) as (n1 & Hrun2 & Hl2 & Hn1ok & Hn1f & Hn1n & Hn1v).
  destruct (mpn_shr (live zn) 1) as [i l]. cbn [snd] in Hl2. subst l.
  rewrite (M_bind_Some _ _ _ _ _ Hrun2). cbv beta. set (st2 := <[n := n1]> st1).
  assert (Hd2 : dst st2 dest d1) by (by apply dst_ne, dst_new).
  assert (Hx2 : dst st2 x zx) by (by apply dst_ne, dst_ne).
  assert (Hf2 : frame [dest; x; n] st st2) by (apply frame_insert; [set_solver|apply frame_insert; [set_solver|done]]).
  assert (H2n : 0 <= mval zn) by lia.
  destruct (Nat.eqb_spec (len n1) 0) as [E2|E2].
  { exists st2, d1. split; [done|]. split; [done|]. split; [done|]. apply mval_zero in E2; [|done].
    rewrite <- (pow_step (mval zd) (mval zx)) by done. rewrite <- Hn1v, E2, Hd1v. lia. }
  destruct (mpz_mul_spec st2 x x x zx zx zx Hx2 (proj1 Hx2) (proj1 Hx2)) as (x1 & Hrun3 & Hx1ok & Hx1f & Hx1v).
  rewrite (M_bind_Some _ _ _ _ _ Hrun3). cbv beta.
  destruct (IH (<[x := x1]> st2) d1 x1 n1) as (st' & d' & Hrun4 & Hfr & Hd' & Hv'); try done.
  { by apply dst_ne. } { by apply dst_new. } { apply dst_ne; [done|]. by apply dst_new. }
  { rewrite Hn1v. rewrite Nat2Z.inj_succ, Z.pow_succ_r in Hfuel by lia. apply Z.div_lt_upper_bound; lia. }
  exists st', d'. split; [done|]. split.
  { eapply frame_trans; [|exact Hfr]. by apply frame_insert; [set_solver|]. }
  split; [done|]. rewrite Hv', Hx1v, Hn1v, Hd1v. by apply pow_step.
Qed.

Lemma pow_fuel_enough z : mpz_ok z -> neg z = false -> mval z < 2 ^ Z.of_nat (pow_fuel z).
Proof.
  intros Hz Hn. operand z Hz. unfold mval, pow_fuel. rewrite Hn. cbn [sgz].
  pose proof (dval_bound (live z) Hok) as Hb. rewrite Hlen in Hb. pose proof DIG_SIZE_ge.
  rewrite Nat2Z.inj_mul, Z2Nat.id, Z.mul_comm, Z.pow_mul_r, <- DIG_BASE_pow by lia. apply Hb.
Qed.

Lemma in_mp_int_small v : -1 <= v <= 1 -> in_mp_int v.
Proof.
  pose proof WORD_BITS_ge. intros. unfold in_mp_int.
  assert (2 ^ 1 <= 2 ^ (WORD_BITS - 1)) by (apply Z.pow_le_mono_r; lia). lia.
Qed.

(** The temporaries of the power functions are gone at the end. *)
Lemma delete_temps (st s s' : mpz_store) dest x n d :
  st !! x = None -> st !! n = None -> st !! dest <> None -> frame [dest; x; n] st s' -> s' !! dest = Some d ->
  delete n (delete x s') = <[dest := d]> st.
Proof.
  intros Hx Hn Hd Hf Hd'. apply map_eq. intros p.
  destruct (decide (p = n)) as [->|]; [rewrite lookup_delete_eq, lookup_insert_ne by congruence; done|].
  rewrite lookup_delete_ne by done.
  destruct (decide (p = x)) as [->|]; [rewrite lookup_delete_eq, lookup_insert_ne by congruence; done|].
  rewrite lookup_delete_ne by done.
  destruct (decide (p = dest)) as [->|]; [by rewrite lookup_insert_eq|].
  rewrite lookup_insert_ne by done. apply Hf. clear - n0 n1 n2. set_solver.
Qed.

Lemma mpz_pow_spec st dest lhs rhs d l r :
  dst st dest d -> obj st lhs l -> obj st rhs r -> no_neg_zero r ->
  computes (mpz_pow_inpl dest lhs rhs) st dest (if mval l =? 0 then 0 else mval l ^ mval r).
Proof.
  intros Hd Hl Hr Hz. pose proof Hl as [Hl1 Hlok]. pose proof Hr as [Hr1 Hrok].
  operand r Hrok. unfold mpz_pow_inpl. lrun.
  destruct (Nat.eqb_spec (len l) 0) as [El|El]; cbn [orb].
  { apply mval_zero in El; [|done]. rewrite El. eapply mpz_set_from_int_spec; [done|by apply in_mp_int_small]. }
  destruct (Z.eqb_spec (mval l) 0) as [E0|_]; [by apply mval_zero in E0|].
  destruct (neg r) eqn:Er.
  { assert (mval r < 0).
    { pose proof (neg_nonzero r Hrok Hz Er). unfold mval. rewrite Er. cbn [sgz]. lia. }
    rewrite Z.pow_neg_r by done. eapply mpz_set_from_int_spec; [done|by apply in_mp_int_small]. }
  destruct (Nat.eqb_spec (len r) 0) as [Er0|Er0].
  { apply mval_zero in Er0; [|done]. rewrite Er0, Z.pow_0_r.
    eapply mpz_set_from_int_spec; [done|by apply in_mp_int_small]. }
  destruct (clone_run st lhs l Hl El) as (x & zx & Hrx & Hx & Hcx). eapply leaves_bind; [exact Hrx|]. cbv beta.
  assert (Hxr : obj (<[x := zx]> st) rhs r) by (apply obj_ne; [congruence|done]).
  destruct (clone_run _ rhs r Hxr Er0) as (n & zn & Hrn & Hn & Hcn). eapply leaves_bind; [exact Hrn|]. cbv beta.
  assert (Hxn : x <> n) by (intros ->; by rewrite lookup_insert_eq in Hn).
  assert (Hnst : st !! n = None) by (by rewrite lookup_insert_ne in Hn).
  assert (Hdx : dest <> x) by (destruct Hd as [[Hd _] _]; congruence).
  assert (Hdn : dest <> n) by (destruct Hd as [[Hd _] _]; congruence).
  set (st2 := <[n := zn]> (<[x := zx]> st)).
  destruct (mpz_set_from_int_spec st2 dest d 1) as (d1 & Hr1' & Hd1ok & Hd1f & Hd1v);
    [by apply dst_ne, dst_ne|by apply in_mp_int_small|].
  eapply leaves_bind; [exact Hr1'|]. cbv beta.
  pose proof (copy_mval _ _ Hcx) as Hvx. pose proof (copy_mval _ _ Hcn) as Hvn.
  destruct Hcx as (_ & _ & _ & Hxf & Hxok). destruct Hcn as (_ & Hnneg & _ & Hnf & Hnok).
  destruct (mpz_pow_loop_spec (pow_fuel r) dest x n (<[dest := d1]> st2) d1 zx zn) as
    (st' & d' & Hrun & Hfr & [[Hd' Hd'ok] Hd'f] & Hv'); try done.
  { by apply dst_new. } { apply dst_ne; [done|]. apply dst_ne; [done|]. by apply dst_new. }
  { apply dst_ne; [done|]. by apply dst_new. } { congruence. }
  { rewrite Hvn. by apply pow_fuel_enough. }
  eapply leaves_bind; [exact Hrun|]. cbv beta.
  exists d'. split; [|split; [done|split; [done|rewrite Hv', Hvx, Hvn, Hd1v; lia]]].
  erewrite M_bind_Some by reflexivity. cbv beta. unfold mpz_free, mmodify. f_equal. f_equal.
  apply (delete_temps st st' st' dest x n d'); try done; [destruct Hd as [[Hd _] _]; congruence|].
  eapply frame_trans; [|exact Hfr]. repeat (apply frame_insert; [set_solver|]). done.
Qed.

(** *** The modular power *)

Lemma pow_step_mod d x k m d1 x1 : m <> 0 -> 0 <= k ->
  d1 mod m = (d * (if k mod 2 =? 0 then 1 else x)) mod m -> x1 mod m = (x * x) mod m ->
  (d1 * x1 ^ (k / 2)) mod m = (d * x ^ k) mod m.
Proof.
  intros Hm Hk Hd Hx. rewrite <- (pow_step d x k) by done.
  rewrite (Z.mul_mod d1), Hd by done. rewrite <- (Z.mod_pow_l x1), Hx.
  rewrite Z.mod_pow_l. by rewrite <- Z.mul_mod by done.
Qed.

(** [dest = dest * y % mod], as both halves of a turn of the loop do it. *)
Lemma mul_mod_run st dest y quo md zd zy zq zm :
  dst st dest zd -> obj st y zy -> dst st quo zq -> obj st md zm ->
  dest <> quo -> dest <> md -> quo <> md -> len zm <> 0%nat -> borrow_fitsb (live zm) = true ->
  exists d1 q1, (mpz_mul_inpl dest dest y;; mpz_divmod_inpl quo dest dest md) st
      = Some (tt, <[quo := q1]> (<[dest := d1]> st))
    /\ mpz_ok q1 /\ fixed_dig q1 = false
    /\ mpz_ok d1 /\ fixed_dig d1 = false /\ mval d1 = (mval zd * mval zy) mod mval zm.
Proof.
  intros Hd Hy Hq Hm Hdq Hdm Hqm Hm0 Hfit.
  destruct (mpz_mul_spec st dest dest y zd zd zy Hd (proj1 Hd) Hy) as (p & Hrun & Hpok & Hpf & Hpv).
  rewrite (M_bind_Some _ _ _ _ _ Hrun). cbv beta.
  destruct (mpz_divmod_spec (<[dest := p]> st) quo dest dest md zq p p zm) as
    (q1 & d1 & Hrun2 & Hq1 & Hq1f & _ & Hd1 & Hd1f & Hd1v); try done.
  { by apply dst_ne. } { by apply dst_new. } { by apply obj_new. } { by apply obj_ne. }
  exists d1, q1. rewrite Hrun2, insert_insert_eq. repeat split; try apply Hq1; try apply Hd1; try done. congruence.
Qed.

Definition distinct5 (a b c d e : nat) : Prop :=
  a <> b /\ a <> c /\ a <> d /\ a <> e /\ b <> c /\ b <> d /\ b <> e /\ c <> d /\ c <> e /\ d <> e.

(** The last turn always multiplies and reduces, so the result is reduced. *)
Lemma mpz_pow3_loop_spec fuel dest x n quo md st zd zx zn zq zm :
  dst st dest zd -> dst st x zx -> dst st n zn -> dst st quo zq -> obj st md zm ->
  distinct5 dest x n quo md -> len zm <> 0%nat -> borrow_fitsb (live zm) = true ->
  neg zn = false -> 0 < mval zn < 2 ^ Z.of_nat fuel ->
  exists st' d', mpz_pow3_loop fuel dest x n quo md st = Some (tt, st') /\ frame [dest; x; n; quo] st st'
    /\ dst st' dest d' /\ mval d' = (mval zd * mval zx ^ mval zn) mod mval zm.
Proof.
  intros Hd Hx Hn Hq Hm Hdist Hm0 Hfit. revert st zd zx zn zq Hd Hx Hn Hq Hm.
  induction fuel as [|fuel IH]; intros st zd zx zn zq Hd Hx Hn Hq Hm Hneg Hfuel.
  { change (2 ^ Z.of_nat 0) with 1 in Hfuel. lia. }
  cbn [mpz_pow3_loop]. pose proof Hn as [[Hn1 Hnok] Hnf]. mrun. pose proof (live_nonneg zn Hnok) as Hpos.
  assert (Hmv : mval zm <> 0) by (rewrite mval_zero by apply Hm; done).
  destruct (Nat.eqb_spec (len zn) 0) as [E|E]; [exfalso; apply (mval_zero zn Hnok) in E; lia|].
  rewrite low_bit by done. assert (Hk : mval zn = dval (live zn)) by (unfold mval; by rewrite Hneg).
  pose proof Hdist as (Hdx & Hdn & Hdq & Hdm & Hxn & Hxq & Hxm & Hnq & Hnm & Hqm).
  assert (Hmul : exists d1 q1,
    (if negb (dval (live zn) mod 2 =? 0) then mpz_mul_inpl dest dest x;; mpz_divmod_inpl quo dest dest md else mret tt) st
      = Some (tt, <[quo := q1]> (<[dest := d1]> st)) /\ mpz_ok q1 /\ fixed_dig q1 = false
      /\ mpz_ok d1 /\ fixed_dig d1 = false
      /\ mval d1 mod mval zm = (mval zd * (if mval zn mod 2 =? 0 then 1 else mval zx)) mod mval zm
      /\ (mval zn mod 2 <> 0 -> mval d1 = (mval zd * mval zx) mod mval zm)).
  { rewrite Hk. destruct (Z.eqb_spec (dval (live zn) mod 2) 0) as [E0|E0]; cbn [negb].
    - exists zd, zq. destruct Hd as [[Hd Hdok] Hdf]. destruct Hq as [[Hq Hqok] Hqf].
      rewrite (insert_id st dest zd), insert_id by done.
      repeat split; try apply Hdok; try apply Hqok; try done. f_equal. lia.
    - destruct (mul_mod_run st dest x quo md zd zx zq zm) as (d1 & q1 & Hrun & ? & ? & ? & ? & Hv);
        try done; [apply Hx|]. exists d1, q1. repeat (split; [done|]). split; [|done].
      rewrite Hv. by rewrite Z.mod_mod. }
  destruct Hmul as (d1 & q1 & Hrun1 & Hq1ok & Hq1f & Hd1ok & Hd1f & Hd1v & Hd1v').
  rewrite (M_bind_Some _ _ _ _ _ Hrun1). cbv beta.
  set (st1 := <[quo := q1]> (<[dest := d1]> st)). assert (Hn' : dst st1 n zn) by (by apply dst_ne, dst_ne).
  erewrite M_bind_Some by (apply deref_run; apply Hn'). cbv beta.
  destruct (halve_run st1 n zn Hn' Hneg) as (n1 & Hrun2 & Hl2 & Hn1ok & Hn1f & Hn1n & Hn1v).
  destruct (mpn_shr (live zn) 1) as [i l]. cbn [snd] in Hl2. subst l.
  rewrite (M_bind_Some _ _ _ _ _ Hrun2). cbv beta. set (st2 := <[n := n1]> st1).
  assert (Hd2 : dst st2 dest d1) by (by apply dst_ne, dst_ne, dst_new).
  assert (Hq2 : dst st2 quo q1) by (by apply dst_ne, dst_new).
  assert (Hx2 : dst st2 x zx) by (by apply dst_ne, dst_ne, dst_ne).
  assert (Hm2 : obj st2 md zm) by (by apply obj_ne, obj_ne, obj_ne).
  assert (Hf2 : frame [dest; x; n; quo] st st2) by (do 3 (apply frame_insert; [set_solver|]); done).
  pose proof (Z.div_mod (mval zn) 2 ltac:(lia)) as Hdm2. pose proof (Z.mod_pos_bound (mval zn) 2 ltac:(lia)).
  destruct (Nat.eqb_spec (len n1) 0) as [E2|E2].
  { apply mval_zero in E2; [|done]. rewrite E2 in Hn1v. exists st2, d1. split; [done|]. split; [done|].
    split; [done|]. rewrite Hd1v' by lia. assert (mval zn = 1) as -> by lia. by rewrite Z.pow_1_r. }
  assert (Hn1p : 0 < mval n1).
  { pose proof (live_nonneg n1 Hn1ok). rewrite <- (live_zero n1 Hn1ok) in E2. unfold mval. rewrite Hn1n. cbn [sgz]. lia. }
  destruct (mul_mod_run st2 x x quo md zx zx q1 zm) as (x1 & q2 & Hrun3 & Hq2ok & Hq2f & Hx1ok & Hx1f & Hx1v);
    try done; [apply Hx2|].
  rewrite <- M_bind_assoc. rewrite (M_bind_Some _ _ _ _ _ Hrun3). cbv beta.
  destruct (IH (<[quo := q2]> (<[x := x1]> st2)) d1 x1 n1 q2) as (st' & d' & Hrun4 & Hfr & Hd' & Hv'); try done.
  { by apply dst_ne, dst_ne. } { by apply dst_ne, dst_new. } { apply dst_ne; [done|]. apply dst_ne; [done|]. by apply dst_new. }
  { by apply dst_new. } { by apply obj_ne, obj_ne. }
  { rewrite Nat2Z.inj_succ, Z.pow_succ_r in Hfuel by lia. split; [done|]. rewrite Hn1v. apply Z.div_lt_upper_bound; lia. }
  exists st', d'. split; [done|]. split.
  { eapply frame_trans; [|exact Hfr]. do 2 (apply frame_insert; [set_solver|]). done. }
  split; [done|]. rewrite Hv', Hn1v. apply pow_step_mod; [done|lia|done|]. rewrite Hx1v. by rewrite Z.mod_mod.
Qed.

Lemma delete_temps4 (st s' : mpz_store) dest x n quo d :
  st !! x = None -> st !! n = None -> st !! quo = None -> st !! dest <> None ->
  frame [dest; x; n; quo] st s' -> s' !! dest = Some d ->
  delete n (delete x (delete quo s')) = <[dest := d]> st.
Proof.
  intros Hx Hn Hq Hd Hf Hd'. apply map_eq. intros p.
  destruct (decide (p = n)) as [->|]; [rewrite lookup_delete_eq, lookup_insert_ne by congruence; done|].
  rewrite lookup_delete_ne by done.
  destruct (decide (p = x)) as [->|]; [rewrite lookup_delete_eq, lookup_insert_ne by congruence; done|].
  rewrite lookup_delete_ne by done.
  destruct (decide (p = quo)) as [->|]; [rewrite lookup_delete_eq, lookup_insert_ne by congruence; done|].
  rewrite lookup_delete_ne by done.
  destruct (decide (p = dest)) as [->|]; [by rewrite lookup_insert_eq|].
  rewrite lookup_insert_ne by done. apply Hf. rewrite !elem_of_cons, elem_of_nil. tauto.
Qed.

Lemma mod_pm1 x m : Z.abs m = 1 -> x mod m = 0.
Proof. intros H. assert (m = 1 \/ m = -1) as [->| ->] by lia; [apply Z.mod_1_r|]. apply Z.mod_divide; [lia|]. exists (- x). lia. Qed.

(** The result of [mpz_pow3_inpl]: a destination that is an operand is 1 when the operand is copied. *)
Definition pow3_value (dest lhs rhs : nat) (l r m : Z) : Z :=
  let base := if (dest =? lhs)%nat then 1 else l in
  let exponent := if (dest =? rhs)%nat then 1 else r in
  if (l =? 0) || (r <? 0) || (Z.abs m =? 1) then 0 else if exponent =? 0 then 1 else (base ^ exponent) mod m.

(** An operand when the destination has become [d1]. *)
Lemma obj_or_dest st dest d1 p z : dst (<[dest := d1]> st) dest d1 -> obj st p z ->
  obj (<[dest := d1]> st) p (if (dest =? p)%nat then d1 else z).
Proof. intros Hd Hz. destruct (Nat.eqb_spec dest p) as [->|]; [apply Hd|by apply obj_ne]. Qed.

Lemma one_digit m : mpz_ok m -> (len m =? 1)%nat && (dig m !!! 0%nat =? 1) = (Z.abs (mval m) =? 1).
Proof.
  intros Hok. operand m Hok. rewrite abs_mval by done.
  assert (Ed : len m <> 0%nat -> live m !!! 0%nat = dig m !!! 0%nat).
  { intros. unfold live. by rewrite !list_lookup_total_alt, lookup_take_lt by lia. }
  destruct (live m) as [|e [|e' es]] eqn:El; simpl in Hlen.
  - by rewrite <- Hlen.
  - rewrite <- Hlen in *. cbn [Nat.eqb andb dval]. rewrite <- Ed by lia. cbn. f_equal. lia.
  - rewrite <- Hlen. cbn [Nat.eqb length andb]. symmetry. apply Z.eqb_neq.
    pose proof (normd_nonzero (e :: e' :: es) ltac:(done) ltac:(done) ltac:(done)) as Hb. pose proof DIG_BASE_ge.
    assert (B ^ 1 <= B ^ (Z.of_nat (length (e :: e' :: es)) - 1)) by (apply Z.pow_le_mono_r; cbn [length]; lia). lia.
Qed.

Lemma pow3_value_power dest lhs rhs l r m : dest <> lhs -> dest <> rhs -> 0 < r -> pow3_value dest lhs rhs l r m = (l ^ r) mod m.
Proof.
  intros Hl Hr Hr0. unfold pow3_value. rewrite (proj2 (Nat.eqb_neq _ _) Hl), (proj2 (Nat.eqb_neq _ _) Hr).
  destruct (Z.ltb_spec r 0); [lia|]. destruct (Z.eqb_spec r 0); [lia|].
  destruct (Z.eqb_spec l 0) as [->|]; cbn [orb]; [by rewrite Z.pow_0_l, Zmod_0_l by lia|].
  destruct (Z.eqb_spec (Z.abs m) 1); [by rewrite mod_pm1|done].
Qed.

(** From the copies of the operands on: the destination is 1. *)
Lemma pow3_turns st dest lhs rhs md d l r m fuel :
  dst st dest d -> obj st lhs l -> obj st rhs r -> obj st md m -> dest <> md -> mval d = 1 ->
  len l <> 0%nat -> neg r = false -> 0 < mval r < 2 ^ Z.of_nat fuel -> mval m <> 0 -> borrow_fitsb (live m) = true ->
  computes (x ← mpz_clone lhs; n ← mpz_clone rhs; quo ← new_obj; mpz_init_zero quo;;
    mpz_pow3_loop fuel dest x n quo md;; mpz_free quo;; mpz_free x;; mpz_free n) st dest ((mval l ^ mval r) mod mval m).
Proof.
  intros Hd Hl Hr Hm Hdm Hd1 El Er Hr0 Hm0 Hfit.
  pose proof Hd as [[Hst Hdok] Hdf]. pose proof Hm as [Hm1 Hmok]. pose proof (proj2 Hr) as Hrok.
  assert (Er0 : len r <> 0%nat) by (intros E; apply (mval_zero r Hrok) in E; lia).
  destruct (clone_run _ lhs l Hl El) as (x & zx & Hrx & Hx & Hcx). eapply leaves_bind; [exact Hrx|]. cbv beta.
  assert (Hdx : dest <> x) by congruence.
  assert (Hrr : obj (<[x := zx]> st) rhs r) by (apply obj_ne; [destruct Hr; congruence|done]).
  destruct (clone_run _ rhs r Hrr Er0) as (n & zn & Hrn & Hn & Hcn). eapply leaves_bind; [exact Hrn|]. cbv beta.
  assert (Hxn : x <> n) by (intros ->; by rewrite lookup_insert_eq in Hn).
  rewrite lookup_insert_ne in Hn by done. assert (Hdn : dest <> n) by congruence.
  set (st2 := <[n := zn]> (<[x := zx]> st)).
  eapply leaves_bind; [apply new_obj_run|]. cbv beta. set (quo := fresh (dom st2)).
  assert (Hq : st2 !! quo = None) by (apply not_elem_of_dom, is_fresh).
  apply lookup_insert_None in Hq as [Hq Hqn]. apply lookup_insert_None in Hq as [Hq Hqx].
  assert (Hqd : dest <> quo) by congruence.
  eapply leaves_bind; [apply init_zero_run|]. cbv beta. rewrite insert_insert_eq.
  pose proof (copy_mval _ _ Hcx) as Hvx. pose proof (copy_mval _ _ Hcn) as Hvn.
  destruct Hcx as (_ & _ & _ & Hxf & Hxok). destruct Hcn as (_ & Hnneg & _ & Hnf & Hnok).
  assert (Hne : x <> md /\ n <> md /\ quo <> md) by (repeat split; congruence). destruct Hne as (Hxm & Hnm & Hqm).
  destruct (mpz_pow3_loop_spec fuel dest x n quo md (<[quo := mpz_zero_obj]> st2) d zx zn mpz_zero_obj m)
    as (st' & d' & Hrun & Hfr & [[Hd' Hd'ok] Hd'f] & Hv'); try done.
  { by do 3 (apply dst_ne; [done|]). } { do 2 (apply dst_ne; [done|]). by apply dst_new. }
  { apply dst_ne; [done|]. by apply dst_new. }
  { apply dst_new; [apply mpz_zero_ok|done]. } { by do 3 (apply obj_ne; [done|]). }
  { intros E. by apply (mval_zero m Hmok) in E. } { congruence. } { by rewrite Hvn. }
  eapply leaves_bind; [exact Hrun|]. cbv beta.
  exists d'. split; [|split; [done|split; [done|rewrite Hv', Hvx, Hvn, Hd1; f_equal; lia]]].
  do 2 (erewrite M_bind_Some by reflexivity; cbv beta). unfold mpz_free, mmodify. f_equal. f_equal.
  apply (delete_temps4 st st' dest x n quo d'); try done; [congruence|].
  eapply frame_trans; [|exact Hfr]. repeat (apply frame_insert; [set_solver|]). done.
Qed.

Lemma mpz_pow3_spec st dest lhs rhs md d l r m :
  dst st dest d -> obj st lhs l -> obj st rhs r -> obj st md m -> no_neg_zero r ->
  dest <> md -> mval m <> 0 -> borrow_fitsb (live m) = true ->
  computes (mpz_pow3_inpl dest lhs rhs md) st dest (pow3_value dest lhs rhs (mval l) (mval r) (mval m)).
Proof.
  intros Hd Hl Hr Hm Hz Hdm Hm0 Hfit.
  pose proof Hl as [Hl1 Hlok]. pose proof Hr as [Hr1 Hrok]. pose proof Hm as [Hm1 Hmok].
  operand r Hrok. unfold mpz_pow3_inpl, pow3_value. lrun. rewrite one_digit by done.
  assert (El : (len l =? 0)%nat = (mval l =? 0)) by (apply eq_true_iff_eq; by rewrite Nat.eqb_eq, Z.eqb_eq, mval_zero).
  assert (Er : neg r = (mval r <? 0)).
  { apply eq_true_iff_eq. rewrite Z.ltb_lt. unfold mval, sgz. split; [|destruct (neg r); lia].
    intros E. pose proof (neg_nonzero r Hrok Hz E). rewrite E. lia. }
  rewrite El, Er. destruct (_ || _ || _) eqn:E0; [eapply mpz_set_from_int_spec; [done|by apply in_mp_int_small]|].
  apply orb_false_iff in E0 as [[El0 Er0]%orb_false_iff _].
  destruct (mpz_set_from_int_spec st dest d 1) as (d1 & Hr1' & Hd1ok & Hd1f & Hd1v);
    [done|by apply in_mp_int_small|].
  apply leaves_ins with (z := d1). eapply leaves_bind; [exact Hr1'|]. cbv beta.
  set (st1 := <[dest := d1]> st). assert (Hd' : dst st1 dest d1) by (by apply dst_new).
  pose proof (obj_or_dest st dest d1 lhs l Hd' Hl) as Hl'. pose proof (obj_or_dest st dest d1 rhs r Hd' Hr) as Hr'.
  eapply leaves_bind; [apply deref_run, Hr'|]. cbv beta. fold st1 in Hl', Hr'.
  set (l' := if (dest =? lhs)%nat then d1 else l) in *. set (r' := if (dest =? rhs)%nat then d1 else r) in *.
  assert (Hlv : mval l' = if (dest =? lhs)%nat then 1 else mval l) by (unfold l'; by destruct (dest =? lhs)%nat).
  assert (Hrv : mval r' = if (dest =? rhs)%nat then 1 else mval r) by (unfold r'; by destruct (dest =? rhs)%nat).
  rewrite <- Hlv, <- Hrv.
  assert (Hl0 : mval l' <> 0) by (rewrite Hlv; destruct (dest =? lhs)%nat; lia).
  assert (Hr0 : 0 <= mval r') by (rewrite Hrv; destruct (dest =? rhs)%nat; lia).
  destruct (Nat.eqb_spec (len r') 0) as [E|E].
  { apply (mval_zero r' (proj2 Hr')) in E. rewrite E. exists d1. unfold st1. by rewrite insert_insert_eq. }
  destruct (Z.eqb_spec (mval r') 0) as [Ez|Ez]; [by apply (mval_zero r' (proj2 Hr')) in Ez|].
  assert (Hneg : neg r' = false).
  { pose proof (live_nonneg r' (proj2 Hr')). unfold mval, sgz in *. destruct (neg r'); [lia|done]. }
  apply (pow3_turns st1 dest lhs rhs md d1 l' r' m); try done.
  - by apply obj_ne.
  - by rewrite <- mval_zero by apply Hl'.
  - split; [lia|]. apply pow_fuel_enough; [apply Hr'|done].
Qed.
End Pow.

(** The arithmetic of big integers, as a client sees it: each operation
    computes the operation of [Z], whichever pointers coincide; and what the
    code does outside the conditions of these theorems. *)

#[export] Instance mpz_ok_dec `{cfg : MpzCfg} z : Decision (mpz_ok z).
Proof. unfold mpz_ok, digs_ok. apply _. Defined.

Section Theorems.
Context {wcfg : WordCfg} {cfg : MpzCfg}.

(** C33 Addition, subtraction and multiplication: for any well-formed operands and
    any aliasing of the three pointers, [mpz_add_inpl], [mpz_sub_inpl] and
    [mpz_mul_inpl] return, store the sum, difference and product in the
    destination as a well-formed object, and change nothing else. *)
Theorem mpz_ring_correct st dest lhs rhs d l r :
  dst st dest d -> obj st lhs l -> obj st rhs r ->
  computes (mpz_add_inpl dest lhs rhs) st dest (mval l + mval r)
  /\ computes (mpz_sub_inpl dest lhs rhs) st dest (mval l - mval r)
  /\ computes (mpz_mul_inpl dest lhs rhs) st dest (mval l * mval r).
Proof. intros. split_and!; [eapply mpz_add_spec|eapply mpz_sub_spec|eapply mpz_mul_spec]; eauto. Qed.

(** C34 Division: for a divisor that is not zero and whose borrows fit a double
    digit, and a quotient object whose sign is clear at entry, [mpz_divmod_inpl] returns with Python's floor quotient and remainder,
    also when the remainder's object is the dividend (as in [mpz_pow3_inpl]). *)
Theorem mpz_divmod_floor st quo rem lhs rhs q m l r :
  dst st quo q -> dst st rem m -> obj st lhs l -> obj st rhs r ->
  quo <> rem -> quo <> lhs -> quo <> rhs -> rem <> rhs ->
  mval r <> 0 -> borrow_fitsb (live r) = true -> neg q = false ->
  exists q' m', mpz_divmod_inpl quo rem lhs rhs st = Some (tt, <[quo := q']> (<[rem := m']> st))
    /\ mpz_ok q' /\ mval q' = mval l / mval r
    /\ mpz_ok m' /\ mval m' = mval l mod mval r.
Proof.
  intros Hq Hm Hl Hr Hqm Hql Hqr Hmr Hr0 Hfit Hneg. rewrite (mval_zero r) in Hr0 by apply Hr.
  destruct (mpz_divmod_spec st quo rem lhs rhs q m l r) as (q' & m' & H1 & H2 & _ & H3 & H4 & _ & H5); auto.
  exists q', m'. auto 10.
Qed.

(** C36 The bitwise operations compute [&], [|] and [^] on the infinite two's
    complement of the operands, provided no operand is a negative zero. *)
Theorem mpz_bitwise_correct st dest lhs rhs d l r :
  dst st dest d -> obj st lhs l -> obj st rhs r -> no_neg_zero l -> no_neg_zero r ->
  computes (mpz_and_inpl dest lhs rhs) st dest (Z.land (mval l) (mval r))
  /\ computes (mpz_or_inpl dest lhs rhs) st dest (Z.lor (mval l) (mval r))
  /\ computes (mpz_xor_inpl dest lhs rhs) st dest (Z.lxor (mval l) (mval r)).
Proof. intros. split_and!; [eapply mpz_and_spec|eapply mpz_or_spec|eapply mpz_xor_spec]; eauto. Qed.

(** The unary operations and the shifts: [abs], negation, complement, left
    shift, and right shift with rounding to negative infinity (where a negative
    operand must not be the destination). *)
Theorem mpz_unary_shift_correct st dest src d s n :
  dst st dest d -> obj st src s -> 0 <= n ->
  computes (mpz_abs_inpl dest src) st dest (Z.abs (mval s))
  /\ computes (mpz_neg_inpl dest src) st dest (- mval s)
  /\ computes (mpz_not_inpl dest src) st dest (Z.lnot (mval s))
  /\ computes (mpz_shl_inpl dest src n) st dest (Z.shiftl (mval s) n)
  /\ (dest <> src \/ neg s = false -> computes (mpz_shr_inpl dest src n) st dest (Z.shiftr (mval s) n)).
Proof.
  intros. split_and!; [eapply mpz_abs_spec|eapply mpz_neg_spec|eapply mpz_not_spec|eapply mpz_shl_spec|
    intros; eapply mpz_shr_spec]; eauto.
Qed.


(** [mpz_cmp] is the order of the values; a negative zero equals zero. *)
Theorem mpz_cmp_correct z1 z2 :
  mpz_ok z1 -> mpz_ok z2 -> mpz_cmp z1 z2 = Z.sgn (mval z1 - mval z2).
Proof. apply mpz_cmp_spec. Qed.

(** A machine integer converted to a big integer keeps its value, the most
    negative one included, in a buffer of [MPZ_NUM_DIG_FOR_INT] digits. *)
Theorem mpz_set_from_int_correct st dest d v :
  dst st dest d -> in_mp_int v -> computes (mpz_set_from_int dest v) st dest v.
Proof. apply mpz_set_from_int_spec. Qed.
End Theorems.

(** *** Witnesses: [a = -(2^40 + 5)], [b = 70000], [c = 3] on a 32-bit machine *)

Section Witnesses.
#[local] Existing Instance word32.
#[local] Existing Instance mpz16.

Definition wa : mpz_t := MkMpz true false 3 [5; 0; 256; 77].
Definition wb : mpz_t := MkMpz false false 2 [4464; 1].
Definition wc : mpz_t := MkMpz false true 1 [3; 0].
Definition wst : mpz_store := <[0%nat := mpz_zero_obj]> (<[1%nat := wa]> (<[2%nat := wb]> (<[3%nat := wc]> ∅))).

Lemma w_ok : mpz_ok mpz_zero_obj /\ mpz_ok wa /\ mpz_ok wb /\ mpz_ok wc.
Proof. split; [|split; [|split]]; apply (bool_decide_unpack _); vm_compute; exact I. Qed.

Lemma w_dst : dst wst 0 mpz_zero_obj.
Proof. split; [split; [reflexivity|apply w_ok]|reflexivity]. Qed.
Lemma w_a : obj wst 1 wa.
Proof. split; [reflexivity|apply w_ok]. Qed.
Lemma w_b : obj wst 2 wb.
Proof. split; [reflexivity|apply w_ok]. Qed.
Lemma w_c : obj wst 3 wc.
Proof. split; [reflexivity|apply w_ok]. Qed.

Lemma mpz_ring_witness :
  mval wa = - (2 ^ 40 + 5) /\ mval wb = 70000 /\ (computes (mpz_add_inpl 0 1 2) wst 0 (mval wa + mval wb)
   /\ computes (mpz_sub_inpl 0 1 2) wst 0 (mval wa - mval wb)
   /\ computes (mpz_mul_inpl 0 1 2) wst 0 (mval wa * mval wb)).
Proof. split; [reflexivity|split; [reflexivity|]]. exact (mpz_ring_correct _ _ _ _ _ _ _ w_dst w_a w_b). Defined.

(** The remainder's object is the dividend. *)
Lemma mpz_divmod_witness :
  exists q' m', mpz_divmod_inpl 0 1 1 2 wst = Some (tt, <[0%nat := q']> (<[1%nat := m']> wst))
    /\ mpz_ok q' /\ mval q' = mval wa / mval wb /\ mpz_ok m' /\ mval m' = mval wa mod mval wb.
Proof.
  refine (mpz_divmod_floor wst 0 1 1 2 mpz_zero_obj wa wa wb w_dst (conj w_a eq_refl) w_a w_b _ _ _ _ _ _ _);
    first [discriminate | reflexivity].
Defined.

Lemma mpz_bitwise_witness :
  computes (mpz_and_inpl 0 1 2) wst 0 (Z.land (mval wa) (mval wb))
  /\ computes (mpz_or_inpl 0 1 2) wst 0 (Z.lor (mval wa) (mval wb))
  /\ computes (mpz_xor_inpl 0 1 2) wst 0 (Z.lxor (mval wa) (mval wb)).
Proof. refine (mpz_bitwise_correct _ _ _ _ _ _ _ w_dst w_a w_b _ _); intros _; discriminate. Defined.

Lemma mpz_unary_shift_witness :
  computes (mpz_shl_inpl 0 1 20) wst 0 (Z.shiftl (mval wa) 20)
  /\ computes (mpz_shr_inpl 0 1 20) wst 0 (Z.shiftr (mval wa) 20).
Proof.
  destruct (mpz_unary_shift_correct wst 0 1 _ _ 20 w_dst w_a ltac:(lia)) as (_ & _ & _ & H1 & H2).
  split; [exact H1|apply H2; left; discriminate].
Defined.


Lemma mpz_cmp_witness : mpz_ok wa /\ mpz_ok wb /\ mpz_cmp wa wb = Z.sgn (mval wa - mval wb).
Proof.
  split; [apply w_ok|split; [apply w_ok|]]. apply (mpz_cmp_correct wa wb); apply w_ok.
Defined.

Lemma mpz_set_from_int_witness : in_mp_int (-2147483648) /\ computes (mpz_set_from_int 0 (-2147483648)) wst 0 (-2147483648).
Proof.
  assert (H : in_mp_int (-2147483648)) by (split; vm_compute; congruence).
  split; [exact H|exact (mpz_set_from_int_correct wst 0 mpz_zero_obj _ w_dst H)].
Defined.

(** *** Outside the conditions

    The value and sign of the object at [p] after a run. *)
Definition result (m : MZ unit) (st : mpz_store) (p : nat) : option (Z * bool) :=
  match m st with Some (_, s) => (fun z => (mval z, neg z)) <$> (s !! p) | None => None end.

Definition mk (z : Z) : mpz_t :=
  match uint_digs 256 (Z.abs z) with
  | Some ds => MkMpz (z <? 0) false (length ds) (ds ++ [0; 0])
  | None => mpz_zero_obj
  end.
Definition st3 (a b c : Z) : mpz_store :=
  <[0%nat := mpz_zero_obj]> (<[1%nat := mk a]> (<[2%nat := mk b]> (<[3%nat := mk c]> ∅))).

(** Operations whose result is zero can leave a negative zero (the difference
    of a negative number with itself), and [mpz_and_inpl] then computes
    [-5 & 0 = -65536]. *)
Theorem mpz_negative_zero :
  result (mpz_sub_inpl 0 1 2) (st3 (-5) (-5) 0) 0 = Some (0, true)
  /\ result (mpz_sub_inpl 0 1 2;; mpz_and_inpl 3 1 0) (st3 (-5) (-5) 0) 3 = Some (-65536, true)
  /\ Z.land (-5) 0 = 0.
Proof. split_and!; vm_compute; reflexivity. Qed.

(** [mpz_pow_inpl] tests for a zero base before a zero exponent, so it gives
    [0 ** 0 = 0]; with a negative modulus [mpz_pow3_inpl] gives
    [pow(7, 0, -5) = 1] where the remainder of 1 is -4; and when the destination
    is the base, [mpz_pow3_inpl] computes a power of 1. *)
Theorem mpz_pow_corner_cases :
  result (mpz_pow_inpl 0 1 2) (st3 0 0 0) 0 = Some (0, false)
  /\ result (mpz_pow3_inpl 0 1 2 3) (st3 7 0 (-5)) 0 = Some (1, false)
  /\ result (mpz_pow3_inpl 1 1 2 3) (st3 7 3 1000) 1 = Some (1, false)
  /\ 0 ^ 0 = 1 /\ 7 ^ 0 mod -5 = -4 /\ 7 ^ 3 mod 1000 = 343.
Proof. split_and!; vm_compute; reflexivity. Qed.

(** [mpz_shr_inpl] with a negative operand as its own destination looks for
    lost bits in the digits it has already shifted: [-5 >> 1] gives -2. *)
Theorem mpz_shr_aliased :
  result (mpz_shr_inpl 1 1 1) (st3 (-5) 0 0) 1 = Some (-2, true)
  /\ result (mpz_shr_inpl 0 1 1) (st3 (-5) 0 0) 0 = Some (-3, true).
Proof. split; vm_compute; reflexivity. Qed.

(** Without the condition on borrows, [mpn_div] can be wrong: dividing the
    square of [2^48 - 1] by [2^48 - 1] gives the quotient [2^16 - 1]. *)
Theorem mpz_divmod_borrow_overflow :
  let n := 2 ^ 48 - 1 in
  borrow_fitsb (live (mk n)) = false
  /\ result (mpz_divmod_inpl 0 3 1 2) (st3 (n * n) n 0) 0 = Some (65535, false)
  /\ (n * n) / n = n.
Proof. split_and!; vm_compute; reflexivity. Qed.
End Witnesses.
