(* ===== verification/MpzConv.v ===== *)
(** Conversions of big integers, [py/mpz.c]: from and to strings and byte
    arrays, to machine integers, and the hash. *)
From S2P Require Import Prelude SmallInt Digits Mpn MpnDiv MpnBits Mpz MpzSpec MpzPow.

Section MpzConv.
Context {wcfg : WordCfg} {cfg : MpzCfg}.
Abbreviation B := (@DIG_BASE cfg).

(** *** Strings *)

(** The value of a digit character; [None] is any other character. *)
Definition char_digit (v : Z) : option Z :=
  if (48 <=? v) && (v <=? 57) then Some (v - 48)
  else if (65 <=? v) && (v <=? 90) then Some (v - (65 - 10))
  else if (97 <=? v) && (v <=? 122) then Some (v - (97 - 10))
  else None.

Fixpoint set_str_loop (z : nat) (cur : list Z) (base : Z) (cnt : nat) : MZ nat :=
  match cur with
  | [] => mret cnt
  | c :: cur =>
      match char_digit c with
      | None => mret cnt
      | Some v =>
          if base <=? v then mret cnt
          else
            d ← deref z;
            let i := mpn_mul_dig_add_dig (live d) (dgt base) (dgt v) in put_digs z i (length i);;
            set_str_loop z cur base (S cnt)
      end
  end.

(** Returns the number of characters used. *)
Definition mpz_set_from_str (z : nat) (str : list Z) (neg : bool) (base : Z) : MZ nat :=
  massert (base <=? 36);;
  mpz_need_dig z (length str * 8 / Z.to_nat DIG_SIZE + 1);;
  set_neg z neg;; set_len z 0;;
  set_str_loop z str base 0.

(** One pass of the conversion to a string: divide the digits (highest first)
    by the base; the quotient's digits and the remainder. *)
Fixpoint str_divmod (rdig : list Z) (a base : Z) : list Z * Z :=
  match rdig with
  | [] => ([], a)
  | d :: rdig =>
      let a := Z.lor (dbl (Z.shiftl a DIG_SIZE)) d in
      let '(qs, r) := str_divmod rdig (a mod base) base in
      (dgt (a / base) :: qs, r)
  end.

Definition digit_char (a base_char : Z) : Z :=
  let a := a + 48 in if 57 <? a then a + (base_char - 57 - 1) else a.

(** The [do ... while (!done)] loop; [s] is the string so far, [last_comma] the
    length it had after the last separator, [comma = 0] is no separator. *)
Fixpoint str_loop (fuel : nat) (ds : list Z) (base base_char comma : Z) (s : list Z) (last_comma : nat)
  : option (list Z) :=
  match fuel with
  | O => None
  | S fuel =>
      let '(qs, a) := str_divmod (reverse ds) 0 base in
      let ds := reverse qs in
      let s := s ++ [digit_char a base_char] in
      let done := forallb (fun d => d =? 0) ds in
      let '(s, last_comma) :=
        if negb (comma =? 0) && (length s - last_comma =? 3)%nat
        then (s ++ [comma], S (length s)) else (s, last_comma) in
      if done then Some s else str_loop fuel ds base base_char comma s last_comma
  end.

(** The string without its terminating null; [prefix = None] is [NULL]. *)
Definition mpz_as_str_inpl (i : mpz_t) (base : Z) (prefix : option (list Z)) (base_char comma : Z)
  : option (list Z) :=
  if negb ((2 <=? base) && (base <=? 32)) then None
  else if (len i =? 0)%nat then Some (default [] prefix ++ [48])
  else
    s ← str_loop (len i * Z.to_nat DIG_SIZE) (live i) base base_char comma [] 0;
    let s := s ++ reverse (default [] prefix) in
    let s := if neg i then s ++ [45] else s in
    Some (reverse s).

(** *** Byte arrays *)

(** The inner loop: collect bytes until a digit is full. *)
Fixpoint bytes_dig (buf : list Z) (d num_bits : Z) : Z * Z * list Z :=
  match buf with
  | [] => (d, num_bits, [])
  | b :: buf' =>
      if num_bits <? DIG_SIZE then bytes_dig buf' (dgt (Z.lor d (Z.shiftl b num_bits))) (num_bits + 8)
      else (d, num_bits, buf)
  end.

Fixpoint bytes_digs (fuel : nat) (buf : list Z) (num_bits : Z) : option (list Z) :=
  match buf with
  | [] => Some []
  | _ =>
      match fuel with
      | O => None
      | S fuel =>
          let '(d, num_bits, buf) := bytes_dig buf 0 num_bits in
          cons (Z.land d DIG_MASK) <$> bytes_digs fuel buf (num_bits - DIG_SIZE)
      end
  end.

Definition mpz_set_from_bytes (z : nat) (big_endian : bool) (buf : list Z) : MZ unit :=
  let buf := if big_endian then reverse buf else buf in
  mpz_need_dig z ((length buf * 8 + Z.to_nat DIG_SIZE - 1) / Z.to_nat DIG_SIZE);;
  set_neg z false;;
  ds ← mlift (bytes_digs (length buf) buf 0);
  put_digs z ds (mpn_remove_trailing_zeros ds (length ds)).

(** Writing bytes: the buffer, the number of bytes written, and whether the
    function has returned because the buffer is full. *)
Definition put_byte (big_endian : bool) (buf : list Z) (k : nat) (v : Z) : option (list Z) :=
  if (k <? length buf)%nat
  then Some (<[(if big_endian then length buf - 1 - k else k)%nat := v mod 256]> buf) else None.

Fixpoint as_bytes_digit (cnt : nat) (neg big_endian : bool) (d carry : Z) (buf : list Z) (k : nat)
  : option (list Z * nat * Z * bool) :=
  match cnt with
  | O => Some (buf, k, carry, false)
  | S cnt =>
      let val := dgt d in
      let '(val, carry) :=
        if neg then let v := dgt (Z.land (Z.lnot val) 255 + carry) in (v, Z.shiftr v 8) else (val, carry) in
      buf ← put_byte big_endian buf k val;
      if (S k =? length buf)%nat then Some (buf, S k, carry, true)
      else as_bytes_digit cnt neg big_endian (Z.shiftr d 8) carry buf (S k)
  end.

Fixpoint as_bytes_loop (zdig : list Z) (neg big_endian : bool) (carry : Z) (buf : list Z) (k : nat)
  : option (list Z) :=
  match zdig with
  | [] => Some buf
  | d :: zdig =>
      '(buf, k, carry, full) ← as_bytes_digit (Z.to_nat (DIG_SIZE / 8)) neg big_endian d carry buf k;
      if full : bool then Some buf else as_bytes_loop zdig neg big_endian carry buf k
  end.

(** [None] is a write outside [buf]. *)
Definition mpz_as_bytes (z : mpz_t) (big_endian : bool) (buf : list Z) : option (list Z) :=
  as_bytes_loop (live z) (neg z) big_endian 1 buf 0.

(** *** Machine integers *)

(** The value of the digits (highest first), shifted into a word. *)
Fixpoint hash_loop (rdig : list Z) (val : Z) : Z :=
  match rdig with
  | [] => val
  | d :: rdig => hash_loop rdig (Z.lor (wrap WORD_BITS (Z.shiftl val DIG_SIZE)) d)
  end.

Definition mpz_hash (z : mpz_t) : Z :=
  let val := hash_loop (reverse (live z)) 0 in
  let val := if neg z then wrap WORD_BITS (- val) else val in
  mp_int val.

(** [limit] is the largest value that may still be shifted by a digit. *)
Fixpoint checked_loop (rdig : list Z) (limit val : Z) : option Z :=
  match rdig with
  | [] => Some val
  | d :: rdig =>
      if limit <? val then None
      else checked_loop rdig limit (Z.lor (wrap WORD_BITS (Z.shiftl val DIG_SIZE)) d)
  end.

Definition mpz_as_int_checked (i : mpz_t) : option Z :=
  val ← checked_loop (reverse (live i)) (Z.shiftr (wrap WORD_BITS (Z.lnot WORD_MSBIT_HIGH)) DIG_SIZE) 0;
  Some (mp_int (if neg i then wrap WORD_BITS (- val) else val)).

Definition mpz_as_uint_checked (i : mpz_t) : option Z :=
  if neg i then None
  else checked_loop (reverse (live i)) (Z.shiftr (wrap WORD_BITS (Z.lnot WORD_MSBIT_HIGH)) (DIG_SIZE - 1)) 0.


(** ** Machine integers *)

Lemma word_pows : 16 <= WORD_BITS /\ 0 < 2 ^ WORD_BITS /\ 0 < 2 ^ (WORD_BITS - 1)
  /\ 2 ^ WORD_BITS = 2 * 2 ^ (WORD_BITS - 1).
Proof.
  pose proof WORD_BITS_ge as H. split; [done|]. split; [apply pow2_pos; lia|].
  split; [apply pow2_pos; lia|apply pow2_split; lia].
Qed.

(** The value of digits given highest first, after [acc]. *)
Definition hval (acc : Z) (rdig : list Z) : Z := fold_left (fun a d => a * B + d) rdig acc.

Lemma hval_reverse acc ds : hval acc (reverse ds) = acc * B ^ Z.of_nat (length ds) + dval ds.
Proof.
  revert acc. induction ds as [|d ds IH]; intros acc; [unfold hval; simpl; lia|].
  rewrite reverse_cons. unfold hval in *. rewrite fold_left_app. simpl fold_left. rewrite IH.
  cbn [dval length]. rewrite Bpow_S. lia.
Qed.

Lemma hval_live z : hval 0 (reverse (live z)) = dval (live z).
Proof. rewrite hval_reverse. lia. Qed.

Lemma hval_cons acc d rdig : hval acc (d :: rdig) = hval (acc * B + d) rdig.
Proof. done. Qed.

Lemma hval_ge acc rdig : digs_ok rdig -> 0 <= acc -> acc <= hval acc rdig.
Proof.
  intros H. revert acc. induction H as [|d rdig Hd _ IH]; intros acc Hacc; [done|].
  rewrite hval_cons. dbase. specialize (IH (acc * B + d) ltac:(nia)). nia.
Qed.

(** [(val << DIG_SIZE) | d] in a word. *)
Lemma word_shift_in v d : is_dig d -> DIG_SIZE < WORD_BITS ->
  Z.lor (wrap WORD_BITS (Z.shiftl v DIG_SIZE)) d = wrap WORD_BITS (v * B + d).
Proof.
  intros Hd Hw. pose proof DIG_SIZE_ge. dbase. rewrite shiftl_dig. unfold wrap.
  assert (E : 2 ^ WORD_BITS = 2 ^ (WORD_BITS - DIG_SIZE) * B).
  { rewrite DIG_BASE_pow, <- Z.pow_add_r by lia. f_equal. lia. }
  rewrite E. assert (HP : 0 < 2 ^ (WORD_BITS - DIG_SIZE)) by (apply pow2_pos; lia).
  rewrite Z.mul_mod_distr_r, lor_dig by lia.
  apply (Z.mod_unique _ _ (v / 2 ^ (WORD_BITS - DIG_SIZE))).
  - left. pose proof (Z.mod_pos_bound v _ HP). nia.
  - assert (HP' : 2 ^ (WORD_BITS - DIG_SIZE) <> 0) by lia. pose proof (Z.div_mod v _ HP'). nia.
Qed.

Lemma hval_mod n rdig v w : 0 < n -> v mod n = w mod n -> hval v rdig mod n = hval w rdig mod n.
Proof.
  intros Hn. revert v w. induction rdig as [|d rdig IH]; intros v w E; [done|]. rewrite !hval_cons. apply IH.
  rewrite (Z.add_mod (v * B)), (Z.add_mod (w * B)), (Z.mul_mod v), (Z.mul_mod w), E by lia. done.
Qed.

Lemma hash_loop_spec rdig v : digs_ok rdig -> DIG_SIZE < WORD_BITS ->
  wrap WORD_BITS (hash_loop rdig v) = wrap WORD_BITS (hval v rdig).
Proof.
  intros H Hw. pose proof DIG_SIZE_ge. revert v. induction H as [|d rdig Hd Hr IH]; intros v; [done|].
  cbn [hash_loop]. rewrite word_shift_in, IH, hval_cons by done. unfold wrap.
  apply hval_mod; [apply pow2_pos; lia|]. apply Z.mod_mod. pose proof (pow2_pos WORD_BITS). lia.
Qed.

Lemma mp_int_mod x y : wrap WORD_BITS x = wrap WORD_BITS y -> mp_int x = mp_int y.
Proof. intros E. pose proof WORD_BITS_ge. unfold mp_int. rewrite <- (swrap_wrap _ x), E, swrap_wrap by lia. done. Qed.

Lemma wrap_opp x y : wrap WORD_BITS x = wrap WORD_BITS y -> wrap WORD_BITS (- x) = wrap WORD_BITS (- y).
Proof.
  intros E. unfold wrap in *. pose proof word_pows.
  rewrite <- (Z.sub_0_l x), <- (Z.sub_0_l y), (Zminus_mod 0 x), (Zminus_mod 0 y). by rewrite E.
Qed.

Lemma wrap_wrap x : wrap WORD_BITS (wrap WORD_BITS x) = wrap WORD_BITS x.
Proof. unfold wrap. apply Z.mod_mod. pose proof WORD_BITS_ge. pose proof (pow2_pos WORD_BITS). lia. Qed.

Lemma mpz_hash_spec z : mpz_ok z -> DIG_SIZE < WORD_BITS -> mpz_hash z = mp_int (mval z).
Proof.
  intros Hz Hw. operand z Hz. unfold mpz_hash, mval. apply mp_int_mod.
  pose proof (hash_loop_spec (reverse (live z)) 0 ltac:(auto with mp) Hw) as E. rewrite hval_live in E.
  destruct (neg z); cbn [sgz]; [rewrite wrap_wrap; by apply wrap_opp|done].
Qed.

Lemma checked_loop_spec rdig limit M v :
  digs_ok rdig -> DIG_SIZE < WORD_BITS -> (limit + 1) * B = M -> M <= 2 ^ WORD_BITS -> 0 <= v < M ->
  checked_loop rdig limit v = if hval v rdig <? M then Some (hval v rdig) else None.
Proof.
  intros H Hw HM HM2. revert v. induction H as [|d rdig Hd Hr IH]; intros v Hv.
  { cbn. destruct (Z.ltb_spec v M); [done|lia]. }
  cbn [checked_loop]. rewrite hval_cons. dbase.
  destruct (Z.ltb_spec limit v) as [Hl|Hl].
  - pose proof (hval_ge (v * B + d) rdig Hr ltac:(nia)). destruct (Z.ltb_spec (hval (v * B + d) rdig) M); [nia|done].
  - rewrite word_shift_in by done. assert (0 <= v * B + d < M) by nia. rewrite wrap_id by lia. by apply IH.
Qed.

Lemma int_limit k : 0 < DIG_SIZE - k -> 0 <= k -> DIG_SIZE - k <= WORD_BITS - 1 ->
  (Z.shiftr (wrap WORD_BITS (Z.lnot WORD_MSBIT_HIGH)) (DIG_SIZE - k) + 1) * B = 2 ^ (WORD_BITS - 1 + k).
Proof.
  intros Hk Hk0 Hw. unfold WORD_MSBIT_HIGH, Z.lnot. pose proof word_pows.
  assert (E : wrap WORD_BITS (Z.pred (- 2 ^ (WORD_BITS - 1))) = 2 ^ (WORD_BITS - 1) - 1).
  { unfold wrap. symmetry. apply (Z.mod_unique _ _ (-1)); [left|];
      rewrite (pow2_split WORD_BITS) by lia; lia. }
  rewrite E, Z.shiftr_div_pow2, DIG_BASE_pow by lia.
  assert (E2 : 2 ^ (WORD_BITS - 1) = 2 ^ (WORD_BITS - 1 - (DIG_SIZE - k)) * 2 ^ (DIG_SIZE - k)).
  { rewrite <- Z.pow_add_r by lia. f_equal. lia. }
  assert (HP : 0 < 2 ^ (DIG_SIZE - k)) by (apply pow2_pos; lia).
  assert (E3 : (2 ^ (WORD_BITS - 1) - 1) / 2 ^ (DIG_SIZE - k) = 2 ^ (WORD_BITS - 1 - (DIG_SIZE - k)) - 1).
  { symmetry. apply (Z.div_unique _ _ _ (2 ^ (DIG_SIZE - k) - 1)); [lia|]. rewrite E2. lia. }
  rewrite E3, Z.sub_add, <- Z.pow_add_r by lia. f_equal. lia.
Qed.

Lemma mpz_as_int_checked_spec z : mpz_ok z -> DIG_SIZE < WORD_BITS ->
  mpz_as_int_checked z = if Z.abs (mval z) <? 2 ^ (WORD_BITS - 1) then Some (mval z) else None.
Proof.
  intros Hz Hw. operand z Hz. unfold mpz_as_int_checked. pose proof DIG_SIZE_ge. pose proof word_pows.
  assert (HL := int_limit 0). rewrite Z.sub_0_r, Z.add_0_r in HL. specialize (HL ltac:(lia) ltac:(lia) ltac:(lia)).
  rewrite (checked_loop_spec _ _ (2 ^ (WORD_BITS - 1))); [|auto with mp|done|done|lia|lia].
  rewrite hval_live, abs_mval by done.
  destruct (Z.ltb_spec (dval (live z)) (2 ^ (WORD_BITS - 1))) as [Hlt|]; [|done].
  cbn [mbind option_bind]. f_equal. unfold mval. destruct (neg z); cbn [sgz].
  - unfold mp_int. rewrite swrap_wrap by lia. apply swrap_id; lia.
  - apply swrap_id; lia.
Qed.

Lemma mpz_as_uint_checked_spec z : mpz_ok z -> DIG_SIZE < WORD_BITS ->
  mpz_as_uint_checked z = if negb (neg z) && (mval z <? 2 ^ WORD_BITS) then Some (mval z) else None.
Proof.
  intros Hz Hw. operand z Hz. unfold mpz_as_uint_checked, mval. destruct (neg z); [done|]. cbn [negb andb sgz].
  pose proof DIG_SIZE_ge. pose proof word_pows.
  assert (HL := int_limit 1). rewrite Z.sub_add in HL. specialize (HL ltac:(lia) ltac:(lia) ltac:(lia)).
  rewrite (checked_loop_spec _ _ (2 ^ WORD_BITS)); [|auto with mp|done|done|lia|lia].
  by rewrite hval_live.
Qed.

(** ** Strings *)

(** What reading a number means: the number of characters used and the value,
    after [cnt] characters with value [acc]. *)
Fixpoint scan (base acc : Z) (cnt : nat) (str : list Z) : nat * Z :=
  match str with
  | [] => (cnt, acc)
  | c :: str =>
      match char_digit c with
      | Some v => if base <=? v then (cnt, acc) else scan base (acc * base + v) (S cnt) str
      | None => (cnt, acc)
      end
  end.

Lemma char_digit_range c v : char_digit c = Some v -> 0 <= v < 36.
Proof. unfold char_digit. intros H. repeat case_match; simplify_eq; bool_to_prop; lia. Qed.

(** Characters do not need more room than eight bits each. *)
Lemma str_room n m i : (m <= n)%nat -> digs_ok i -> normd i -> dval i < 2 ^ (8 * Z.of_nat m) ->
  (length i <= n * 8 / Z.to_nat DIG_SIZE + 1)%nat.
Proof.
  intros Hm Hi Hn Hv. pose proof DIG_SIZE_ge. dbase. set (D := Z.to_nat DIG_SIZE).
  assert (HD : DIG_SIZE = Z.of_nat D) by (unfold D; lia).
  destruct (decide (length i <= n * 8 / D + 1)%nat) as [|Hgt]; [done|exfalso].
  assert (i <> []) by (intros ->; simpl in Hgt; lia).
  pose proof (normd_nonzero i Hi Hn ltac:(done)) as Hlow.
  assert (HDp : (D <> 0)%nat) by lia. pose proof (Nat.div_mod (n * 8) D HDp) as E. pose proof (Nat.mod_upper_bound (n * 8) D HDp).
  rewrite DIG_BASE_pow, <- Z.pow_mul_r in Hlow by lia.
  assert (2 ^ (8 * Z.of_nat m) <= 2 ^ (DIG_SIZE * (Z.of_nat (length i) - 1))); [|lia].
  apply Z.pow_le_mono_r; [lia|]. rewrite HD. nia.
Qed.

Lemma set_str_loop_spec base st z str cnt d n :
  2 <= base <= 36 -> dst st z d -> dval (live d) < 2 ^ (8 * Z.of_nat cnt) ->
  (n * 8 / Z.to_nat DIG_SIZE + 1 <= length (dig d))%nat -> (cnt + length str <= n)%nat ->
  exists d', set_str_loop z str base cnt st = Some ((scan base (dval (live d)) cnt str).1, <[z := d']> st)
    /\ mpz_ok d' /\ fixed_dig d' = false /\ neg d' = neg d
    /\ dval (live d') = (scan base (dval (live d)) cnt str).2.
Proof.
  intros Hb. revert st cnt d. induction str as [|c str IH]; intros st cnt d [[Hz Hok] Hf] Hv Hroom Hn; cbn [set_str_loop scan].
  { exists d. rewrite insert_id by done. repeat split; try apply Hok; done. }
  destruct (char_digit c) as [v|] eqn:Hc.
  2:{ exists d. rewrite insert_id by done. repeat split; try apply Hok; done. }
  destruct (Z.leb_spec base v).
  { exists d. rewrite insert_id by done. repeat split; try apply Hok; done. }
  pose proof (char_digit_range c v Hc). operand d Hok. dbase. mrun. rewrite !dgt_id by lia.
  destruct (mpn_mul_dig_add_dig_spec (live d) base v) as (Hi & Hil & Hvi & Hni); try done; try (unfold is_dig; lia).
  set (i := mpn_mul_dig_add_dig (live d) base v) in *.
  assert (Hvi2 : dval i < 2 ^ (8 * Z.of_nat (S cnt))).
  { rewrite Hvi. replace (8 * Z.of_nat (S cnt)) with (8 * Z.of_nat cnt + 8) by lia.
    rewrite Z.pow_add_r by lia. change (2 ^ 8) with 256. nia. }
  simpl length in Hn. pose proof (str_room n (S cnt) i ltac:(lia) Hi Hni Hvi2) as Hli.
  destruct (put_ok (neg d) (fixed_dig d) (length i) i (dig d)) as [Hpo Hpl]; try done;
    [apply Hok|lia|by rewrite take_ge by lia|]. rewrite take_ge in Hpl by lia.
  erewrite M_bind_Some by (apply put_digs_run; [exact Hz|lia]). cbv beta.
  set (d1 := MkMpz (neg d) (fixed_dig d) (length i) (overwrite i (dig d))) in *.
  destruct (IH (<[z := d1]> st) (S cnt) d1) as (d' & Hrun & Hd' & Hd'f & Hd'n & Hd'v).
  { by apply dst_new. } { by rewrite Hpl. } { cbn [dig d1]. rewrite length_overwrite by lia. lia. } { lia. }
  rewrite Hpl, Hvi in Hrun, Hd'v. exists d'. rewrite insert_insert_eq in Hrun. done.
Qed.

Lemma mpz_set_from_str_spec st z str sg base d :
  dst st z d -> 2 <= base <= 36 ->
  exists d', mpz_set_from_str z str sg base st = Some ((scan base 0 0 str).1, <[z := d']> st)
    /\ mpz_ok d' /\ fixed_dig d' = false
    /\ mval d' = if sg then - (scan base 0 0 str).2 else (scan base 0 0 str).2.
Proof.
  intros [[Hz Hok] Hf] Hb. unfold mpz_set_from_str, massert. destruct (Z.leb_spec base 36); [|lia].
  erewrite M_bind_Some by reflexivity. cbv beta. mrun. cbn [neg fixed_dig dig].
  set (n := length str). set (g := grow d (n * 8 / Z.to_nat DIG_SIZE + 1)).
  destruct (grow_spec d (n * 8 / Z.to_nat DIG_SIZE + 1) Hok) as [(_ & _ & _ & Hgf & Hgok) [Hgl _]]. fold g in Hgf, Hgok, Hgl.
  set (d0 := MkMpz sg (fixed_dig g) 0 (dig g)).
  assert (Hd0 : mpz_ok d0) by (split; [apply Hgok|split; [simpl; lia|done]]).
  destruct (set_str_loop_spec base (<[z := d0]> st) z str 0 d0 n) as (d' & Hrun & Hd' & Hd'f & Hd'n & Hd'v); try done.
  { apply dst_new; [done|simpl; congruence]. }
  change (dval (live d0)) with 0 in Hrun, Hd'v. rewrite Hrun, insert_insert_eq. exists d'.
  split; [done|]. split; [done|]. split; [done|]. unfold mval, sgz. rewrite Hd'n, Hd'v. done.
Qed.

Lemma hval_acc acc rdig : hval acc rdig = acc * B ^ Z.of_nat (length rdig) + hval 0 rdig.
Proof. rewrite <- (reverse_involutive rdig), !hval_reverse, !length_reverse. lia. Qed.

Lemma str_divmod_spec rdig a base :
  digs_ok rdig -> 0 <= a < base -> base <= 32 ->
  let '(qs, r) := str_divmod rdig a base in
  digs_ok qs /\ length qs = length rdig /\ 0 <= r < base /\ hval a rdig = hval 0 qs * base + r.
Proof.
  intros H Ha Hb. revert a Ha. induction H as [|d rdig Hd Hr IH]; intros a Ha; cbn [str_divmod].
  { split; [constructor|]. split; [done|]. split; [lia|]. unfold hval. simpl. lia. }
  dbase. rewrite shiftl_dig, dbl_id, lor_dig by nia.
  set (x := a * B + d). assert (Hx : 0 <= x < base * B) by (unfold x; nia).
  specialize (IH (x mod base) (Z.mod_pos_bound x base ltac:(lia))).
  destruct (str_divmod rdig (x mod base) base) as [qs r]. destruct IH as (Hq & Hl & Hrr & E).
  assert (Hxb : 0 <= x / base < B) by (split; [apply Z.div_pos; lia|apply Z.div_lt_upper_bound; lia]).
  rewrite dgt_id by lia. split; [constructor; [done|done]|]. split; [simpl; lia|]. split; [done|].
  rewrite !hval_cons. fold x. rewrite (hval_acc x), (hval_acc (0 * B + x / base)), Hl.
  rewrite (hval_acc (x mod base)) in E. pose proof (Z.div_mod x base ltac:(lia)). nia.
Qed.

Lemma char_digit_char a bc : 0 <= a < 32 -> bc = 97 \/ bc = 65 -> char_digit (digit_char a bc) = Some a.
Proof.
  intros Ha Hbc. unfold digit_char, char_digit.
  destruct Hbc as [-> | ->]; repeat (case_match; bool_to_prop; try lia); f_equal; lia.
Qed.

Lemma scan_app base acc cnt xs ys v : scan base acc cnt xs = ((cnt + length xs)%nat, v) ->
  scan base acc cnt (xs ++ ys) = scan base v (cnt + length xs) ys.
Proof.
  revert acc cnt. induction xs as [|x xs IH]; intros acc cnt; cbn [scan app length].
  { rewrite Nat.add_0_r. by intros [= ->]. }
  assert (Hle : forall zs acc cnt, (cnt <= (scan base acc cnt zs).1)%nat).
  { clear. induction zs as [|z zs IHz]; intros acc cnt; cbn [scan]; [done|].
    repeat case_match; simpl; try lia. specialize (IHz (acc * base + z0) (S cnt)). lia. }
  destruct (char_digit x) as [w|]; [|intros [= ?]; lia].
  destruct (base <=? w); [intros [= ?]; lia|].
  intros E. rewrite IH; [f_equal; lia|]. rewrite E. f_equal. lia.
Qed.

Lemma forallb_zero ds : digs_ok ds -> forallb (fun d => d =? 0) ds = (dval ds =? 0).
Proof.
  dbase. induction 1 as [|d ds Hd Hds IH]; [done|]. cbn [forallb dval]. rewrite IH. pose proof (dval_bound ds Hds).
  dbase. destruct (Z.eqb_spec d 0), (Z.eqb_spec (dval ds) 0), (Z.eqb_spec (d + B * dval ds) 0); try done; nia.
Qed.

Lemma str_loop_spec fuel ds base bc s :
  digs_ok ds -> 2 <= base <= 32 -> bc = 97 \/ bc = 65 -> fuel <> 0%nat -> dval ds < base ^ Z.of_nat fuel ->
  exists cs, str_loop fuel ds base bc 0 s 0 = Some (s ++ cs) /\ scan base 0 0 (reverse cs) = (length cs, dval ds).
Proof.
  revert ds s. induction fuel as [|fuel IH]; intros ds s Hds Hb Hbc Hf Hv; [done|]. cbn [str_loop].
  pose proof (str_divmod_spec (reverse ds) 0 base ltac:(auto with mp) ltac:(lia) ltac:(lia)) as Hdm.
  destruct (str_divmod (reverse ds) 0 base) as [qs a]. destruct Hdm as (Hq & _ & Ha & E).
  rewrite hval_reverse in E. assert (Eq : hval 0 qs = dval (reverse qs)).
  { rewrite <- (reverse_involutive qs) at 1. rewrite hval_reverse. lia. }
  rewrite Eq in E. change (negb (0 =? 0)) with false. cbn [andb].
  rewrite forallb_zero by auto with mp. pose proof (char_digit_char a bc ltac:(lia) Hbc) as Hcd.
  assert (Hab : (base <=? a) = false) by (apply Z.leb_gt; lia).
  destruct (Z.eqb_spec (dval (reverse qs)) 0) as [E0|E0].
  - exists [digit_char a bc]. split; [done|]. rewrite reverse_singleton. cbn [scan length].
    rewrite Hcd, Hab. f_equal. lia.
  - pose proof (dval_bound (reverse qs) ltac:(auto with mp)).
    rewrite Nat2Z.inj_succ, Z.pow_succ_r in Hv by lia.
    destruct (IH (reverse qs) (s ++ [digit_char a bc])) as (cs & -> & Hcs); try done; auto with mp.
    { intros ->. simpl in Hv. nia. } { nia. }
    exists (digit_char a bc :: cs). split; [by rewrite <- app_assoc|]. rewrite reverse_cons.
    rewrite (scan_app _ _ _ _ _ (dval (reverse qs))) by (rewrite length_reverse; done).
    cbn [scan]. rewrite Hcd, Hab, length_reverse. simpl. f_equal. lia.
Qed.

Lemma live_small_pow z : mpz_ok z -> dval (live z) < 2 ^ Z.of_nat (len z * Z.to_nat DIG_SIZE).
Proof.
  intros Hz. operand z Hz. pose proof (dval_bound (live z) Hok) as Hb. rewrite Hlen in Hb. pose proof DIG_SIZE_ge.
  rewrite Nat2Z.inj_mul, Z2Nat.id, Z.mul_comm, Z.pow_mul_r, <- DIG_BASE_pow by lia. apply Hb.
Qed.

Lemma mpz_as_str_spec z base bc :
  mpz_ok z -> 2 <= base <= 32 -> bc = 97 \/ bc = 65 ->
  exists cs, mpz_as_str_inpl z base None bc 0 = Some ((if neg z && negb (len z =? 0)%nat then [45] else []) ++ cs)
    /\ scan base 0 0 cs = (length cs, Z.abs (mval z)).
Proof.
  intros Hz Hb Hbc. operand z Hz. rewrite abs_mval by done. unfold mpz_as_str_inpl.
  destruct (Z.leb_spec 2 base), (Z.leb_spec base 32); try lia. cbn [andb negb].
  destruct (Nat.eqb_spec (len z) 0) as [E|E]; cbn [negb].
  { exists [48]. rewrite andb_false_r. split; [done|]. apply live_zero in E; [|done]. rewrite E.
    cbn [scan]. change (char_digit 48) with (Some 0). cbv iota beta.
    destruct (Z.leb_spec base 0); [lia|done]. }
  pose proof DIG_SIZE_ge. pose proof (live_small_pow z Hz) as Hsm.
  assert (2 ^ Z.of_nat (len z * Z.to_nat DIG_SIZE) <= base ^ Z.of_nat (len z * Z.to_nat DIG_SIZE))
    by (apply Z.pow_le_mono_l; lia).
  destruct (str_loop_spec (len z * Z.to_nat DIG_SIZE) (live z) base bc []) as (cs & -> & Hcs); try done; [lia|lia|].
  cbn [mbind option_bind default reverse app]. rewrite andb_true_r.
  exists (reverse cs). rewrite reverse_nil, app_nil_r.
  split; [|by rewrite length_reverse]. destruct (neg z); [by rewrite reverse_app|done].
Qed.

(** ** Byte arrays *)

(** The value of a little-endian byte string, and the bytes of a number. *)
Fixpoint bval (bs : list Z) : Z := match bs with [] => 0 | b :: bs => b + 256 * bval bs end.
Fixpoint zbytes (v : Z) (n : nat) : list Z :=
  match n with O => [] | S n => v mod 256 :: zbytes (v / 256) n end.
Definition bytes_ok (bs : list Z) : Prop := Forall (fun b => 0 <= b < 256) bs.

Lemma length_zbytes v n : length (zbytes v n) = n.
Proof. revert v. induction n; intros; simpl; auto. Qed.

Lemma zbytes_app v n m : zbytes v (n + m) = zbytes v n ++ zbytes (v / 256 ^ Z.of_nat n) m.
Proof.
  revert v. induction n as [|n IH]; intros v; [cbn; by rewrite Z.div_1_r|].
  simpl. rewrite IH. do 3 f_equal. rewrite Z.div_div by (try lia; apply Z.pow_pos_nonneg; lia).
  f_equal. rewrite Nat2Z.inj_succ, Z.pow_succ_r; lia.
Qed.

Lemma bval_app xs ys : bval (xs ++ ys) = bval xs + 256 ^ Z.of_nat (length xs) * bval ys.
Proof.
  induction xs as [|x xs IH]; [simpl; lia|]. cbn [app bval length]. rewrite IH, Nat2Z.inj_succ, Z.pow_succ_r by lia. lia.
Qed.

Lemma bval_bound bs : bytes_ok bs -> 0 <= bval bs < 256 ^ Z.of_nat (length bs).
Proof.
  induction 1 as [|b bs Hb _ IH]; [simpl; lia|]. cbn [bval length]. rewrite Nat2Z.inj_succ, Z.pow_succ_r by lia. lia.
Qed.

(** The bytes of a number determine it, modulo the length. *)
Lemma bval_zbytes v n : bval (zbytes v n) = v mod 256 ^ Z.of_nat n.
Proof.
  revert v. induction n as [|n IH]; intros v; [simpl; by rewrite Z.mod_1_r|].
  cbn [zbytes bval]. rewrite IH, Nat2Z.inj_succ, Z.pow_succ_r by lia.
  symmetry. apply Z.rem_mul_r; [lia|]. apply Z.pow_pos_nonneg; lia.
Qed.

(** Bytes per digit. *)
Definition dig_bytes : nat := Z.to_nat (DIG_SIZE / 8).

Lemma dig_bytes_pow : DIG_SIZE = 8 * Z.of_nat dig_bytes /\ B = 256 ^ Z.of_nat dig_bytes /\ (0 < dig_bytes)%nat.
Proof.
  assert (H : DIG_SIZE = 8 * Z.of_nat dig_bytes) by (unfold dig_bytes; destruct DIG_SIZE_cfg as [->|[->| ->]]; done).
  split; [done|]. split; [rewrite DIG_BASE_pow, H at 1; change 256 with (2 ^ 8); rewrite <- Z.pow_mul_r; lia|].
  pose proof DIG_SIZE_ge. lia.
Qed.

Lemma lor_low x d k : 0 <= d < 2 ^ k -> 0 <= k -> Z.lor d (Z.shiftl x k) = d + x * 2 ^ k.
Proof.
  intros Hd Hk. rewrite Z.lor_comm, lor_shift by done. lia.
Qed.

Lemma triple_eq (a a' b b' : Z) (c : list Z) : a = a' -> b = b' -> (a, b, c) = (a', b', c).
Proof. congruence. Qed.

Lemma bytes_dig_spec buf d j :
  bytes_ok buf -> (j <= dig_bytes)%nat -> 0 <= d < 256 ^ Z.of_nat j ->
  let m := Nat.min (length buf) (dig_bytes - j) in
  bytes_dig buf d (8 * Z.of_nat j)
  = (d + 256 ^ Z.of_nat j * bval (take m buf), 8 * Z.of_nat (j + m), drop m buf).
Proof.
  destruct dig_bytes_pow as (HD & HB & Hp). intros H. revert d j.
  induction H as [|b buf Hb Hbuf IH]; intros d j Hj Hd; cbn [bytes_dig].
  { rewrite Nat.min_0_l. apply triple_eq; simpl; lia. }
  destruct (Z.ltb_spec (8 * Z.of_nat j) DIG_SIZE) as [Hlt|Hge].
  - assert (E8 : 2 ^ (8 * Z.of_nat j) = 256 ^ Z.of_nat j) by (rewrite Z.pow_mul_r by lia; done).
    assert (Hpow : 256 ^ Z.of_nat (S j) = 256 * 256 ^ Z.of_nat j) by (rewrite Nat2Z.inj_succ, Z.pow_succ_r; lia).
    assert (Hle : 256 ^ Z.of_nat (S j) <= B) by (rewrite HB; apply Z.pow_le_mono_r; lia).
    rewrite lor_low, E8 by (rewrite ?E8; lia). rewrite dgt_id by nia.
    replace (8 * Z.of_nat j + 8) with (8 * Z.of_nat (S j)) by lia.
    rewrite IH; [|lia|rewrite Hpow; nia].
    replace (Nat.min (length (b :: buf)) (dig_bytes - j)) with (S (Nat.min (length buf) (dig_bytes - S j)))
      by (cbn [length]; lia).
    cbn [take drop bval]. rewrite Hpow. apply triple_eq; lia.
  - replace (dig_bytes - j)%nat with 0%nat by lia. rewrite Nat.min_0_r, take_0, drop_0. apply triple_eq; cbn [bval]; lia.
Qed.

Lemma bytes_digs_spec fuel buf :
  bytes_ok buf -> (length buf <= fuel)%nat ->
  exists ds, bytes_digs fuel buf 0 = Some ds /\ digs_ok ds /\ dval ds = bval buf
    /\ (buf = [] -> ds = []) /\ (length ds * dig_bytes < length buf + dig_bytes)%nat.
Proof.
  destruct dig_bytes_pow as (HD & HB & Hp). revert buf. induction fuel as [|fuel IH]; intros buf H Hl.
  { destruct buf; [|simpl in Hl; lia]. exists []. repeat split; [constructor|simpl; lia]. }
  destruct buf as [|b buf]; [exists []; repeat split; [constructor|simpl; lia]|].
  set (bs := b :: buf) in *. cbn [bytes_digs]. unfold bs at 1.
  pose proof (bytes_dig_spec bs 0 0 H ltac:(lia) ltac:(simpl; lia)) as E. cbv zeta in E.
  change (8 * Z.of_nat 0) with 0 in E. rewrite E. clear E.
  rewrite Nat.sub_0_r, Z.pow_0_r, Nat.add_0_l, Z.add_0_l, Z.mul_1_l.
  set (m := Nat.min (length bs) dig_bytes). assert (Hm : (1 <= m)%nat) by (unfold m, bs; cbn [length]; lia).
  pose proof (bval_bound (take m bs) ltac:(by apply Forall_take)) as Hb. rewrite length_take_le in Hb by lia.
  assert (Hle : 256 ^ Z.of_nat m <= B) by (rewrite HB; apply Z.pow_le_mono_r; lia).
  assert (Hdrop : bytes_ok (drop m bs)) by (by apply Forall_drop).
  assert (Hval : bval bs = bval (take m bs) + B * bval (drop m bs)).
  { rewrite <- (take_drop m bs) at 1. rewrite bval_app, length_take_le by lia.
    destruct (decide (dig_bytes <= length bs)%nat).
    - replace m with dig_bytes by lia. by rewrite HB.
    - rewrite (drop_ge bs m) by lia. simpl. lia. }
  rewrite land_mask, Z.mod_small by lia.
  destruct (decide (m = dig_bytes)) as [Em|Em].
  - replace (8 * Z.of_nat m - DIG_SIZE) with 0 by lia.
    destruct (IH (drop m bs) Hdrop) as (ds & -> & Hok & Hv & Hnil & Hlen); [rewrite length_drop; unfold bs in *; simpl in *; lia|].
    exists (bval (take m bs) :: ds). split; [done|]. split; [constructor; [unfold is_dig; lia|done]|].
    split; [cbn [dval]; lia|]. split; [done|]. rewrite length_drop in Hlen. cbn [length]. lia.
  - assert (drop m bs = []) as Hdn by (apply drop_ge; lia). rewrite Hdn in *.
    assert (bytes_digs fuel [] (8 * Z.of_nat m - DIG_SIZE) = Some []) as -> by (by destruct fuel).
    exists [bval (take m bs)]. split; [done|]. split; [constructor; [unfold is_dig; lia|constructor]|].
    split; [simpl in *; lia|]. split; [done|]. simpl. unfold bs. simpl. lia.
Qed.

Lemma mpz_set_from_bytes_spec st z be buf d :
  dst st z d -> bytes_ok buf ->
  computes (mpz_set_from_bytes z be buf) st z (bval (if be : bool then reverse buf else buf)).
Proof.
  intros [[Hz Hok] Hf] Hbuf. unfold mpz_set_from_bytes. set (bs := if be then reverse buf else buf).
  assert (Hbs : bytes_ok bs) by (unfold bs; destruct be; [by apply Forall_reverse|done]).
  destruct dig_bytes_pow as (HD & HB & Hp).
  destruct (bytes_digs_spec (length bs) bs Hbs ltac:(lia)) as (ds & Hrun & Hds & Hv & Hnil & Hlen).
  lrun. eapply leaves_bind; [unfold mlift; by rewrite Hrun|]. cbv beta.
  set (need := ((length bs * 8 + Z.to_nat DIG_SIZE - 1) / Z.to_nat DIG_SIZE)%nat).
  assert (Hneed : (length ds <= need)%nat).
  { unfold need. replace (Z.to_nat DIG_SIZE) with (8 * dig_bytes)%nat by lia. apply Nat.div_le_lower_bound; nia. }
  destruct (grow_spec d need Hok) as [(_ & _ & _ & Hgf & Hgok) [Hgl _]].
  destruct (rtz_spec ds (length ds) ltac:(lia)) as (Hn & Ht & Hnm).
  destruct (put_ok false (fixed_dig (grow d need)) (mpn_remove_trailing_zeros ds (length ds)) ds (dig (grow d need)))
    as [Hpo Hpl]; try done; [apply Hgok|lia|].
  eexists. rewrite put_digs_same by (cbn [dig]; lia). cbn [neg fixed_dig dig].
  split; [done|]. split; [done|]. split; [simpl; congruence|]. unfold mval. rewrite Hpl. cbn [neg sgz].
  rewrite Ht, (take_ge ds (length ds)), Hv by lia. done.
Qed.

(** *** Writing bytes *)

(** The number that is left to be written: two's complement, digit by digit. *)
Definition rest_val (neg : bool) (carry w : Z) : Z := if neg then - w - 1 + carry else w.

(** Big-endian output is little-endian output into the reversed buffer. *)
Lemma put_byte_be buf k v : put_byte true buf k v = reverse <$> put_byte false (reverse buf) k v.
Proof.
  unfold put_byte. rewrite length_reverse. destruct (Nat.ltb_spec k (length buf)); [|done].
  simpl. f_equal. rewrite <- (reverse_involutive buf) at 2. rewrite <- (reverse_involutive (<[_:=_]> _)). f_equal.
  apply list_eq. intros i. destruct (decide (i < length buf)%nat) as [Hi|Hi].
  - rewrite reverse_lookup by (rewrite length_insert, length_reverse, length_reverse; lia).
    rewrite length_insert, length_reverse, length_reverse.
    destruct (decide (i = k)) as [->|Hne].
    + rewrite list_lookup_insert_eq by (rewrite length_reverse; lia).
      replace (length buf - S k)%nat with (length buf - 1 - k)%nat by lia.
      by rewrite list_lookup_insert_eq by (rewrite !length_reverse; lia).
    + rewrite !list_lookup_insert_ne by lia. rewrite reverse_lookup by (rewrite length_reverse; lia).
      rewrite length_reverse. f_equal. lia.
  - rewrite !lookup_ge_None_2; [done| |]; rewrite ?length_reverse, ?length_insert, ?length_reverse; lia.
Qed.

Lemma as_bytes_digit_be cnt ng d carry buf k :
  as_bytes_digit cnt ng true d carry buf k
  = (fun '(b, k, c, f) => (reverse b, k, c, f)) <$> as_bytes_digit cnt ng false d carry (reverse buf) k.
Proof.
  revert d carry buf k. induction cnt as [|cnt IH]; intros d carry buf k; cbn [as_bytes_digit].
  { simpl. by rewrite reverse_involutive. }
  destruct (if ng then _ else _) as [v c]. rewrite put_byte_be.
  destruct (put_byte false (reverse buf) k v) as [b|] eqn:E; [|done]. cbn [fmap option_fmap option_map mbind option_bind].
  rewrite !length_reverse. assert (length b = length buf) as ->.
  { unfold put_byte in E. case_match; [|done]. injection E as <-. by rewrite length_insert, length_reverse. }
  destruct (S k =? length buf)%nat; [done|]. by rewrite IH, reverse_involutive.
Qed.

Lemma as_bytes_loop_be ds ng carry buf k :
  as_bytes_loop ds ng true carry buf k = reverse <$> as_bytes_loop ds ng false carry (reverse buf) k.
Proof.
  revert carry buf k. induction ds as [|d ds IH]; intros carry buf k; cbn [as_bytes_loop].
  { simpl. by rewrite reverse_involutive. }
  rewrite as_bytes_digit_be. destruct (as_bytes_digit _ _ _ _ _ _ _) as [[[[b k'] c] f]|]; [|done].
  cbn [fmap option_fmap option_map mbind option_bind]. destruct f; [done|]. by rewrite IH, reverse_involutive.
Qed.

(** One byte of the two's complement. *)
Lemma byte_step ng carry d w :
  0 <= d -> 0 <= carry <= 1 -> 8 < DIG_SIZE ->
  let '(v, c) := if ng : bool then let v := dgt (Z.land (Z.lnot (dgt d)) 255 + carry) in (v, Z.shiftr v 8)
                 else (dgt d, carry) in
  v mod 256 = rest_val ng carry (d + 256 * w) mod 256 /\ 0 <= c <= 1
  /\ rest_val ng carry (d + 256 * w) / 256 = rest_val ng c (d / 256 + w).
Proof.
  intros Hd Hc Hs. destruct dig_bytes_pow as (HD & HB & Hp).
  assert (H2 : exists q, B = 256 * q /\ 1 < q).
  { exists (256 ^ (Z.of_nat dig_bytes - 1)). split.
    - rewrite HB. rewrite <- Z.pow_succ_r by lia. f_equal. lia.
    - apply Z.pow_gt_1; lia. }
  destruct H2 as (q & Hq & Hq1). pose proof (Z.div_mod d 256 ltac:(lia)) as Edm. pose proof (Z.mod_pos_bound d 256 ltac:(lia)).
  assert (Hdm : dgt d mod 256 = d mod 256).
  { rewrite dgt_mod, Hq. apply Z.mod_mod_divide. exists q. lia. }
  unfold rest_val. destruct ng.
  - change 255 with (2 ^ 8 - 1). rewrite land_ones_wrap by lia. unfold wrap. change (2 ^ 8) with 256.
    assert (El : Z.lnot (dgt d) mod 256 = 255 - d mod 256).
    { symmetry. apply (Z.mod_unique _ _ (- (dgt d / 256) - 1)); [lia|]. unfold Z.lnot.
      pose proof (Z.div_mod (dgt d) 256 ltac:(lia)). lia. }
    rewrite El. set (v := 255 - d mod 256 + carry). assert (0 <= v <= 256) by lia.
    rewrite (dgt_id v), Z.shiftr_div_pow2 by lia. change (2 ^ 8) with 256.
    pose proof (Z.div_mod v 256 ltac:(lia)) as Ev. pose proof (Z.mod_pos_bound v 256 ltac:(lia)).
    assert (Er : - (d + 256 * w) - 1 + carry = 256 * (- (d / 256 + w) - 1 + v / 256) + v mod 256) by (unfold v in *; lia).
    split; [|split; [lia|]].
    + rewrite Er. rewrite Z.add_comm, (Z.mul_comm 256), Z_mod_plus_full. symmetry. apply Z.mod_mod. lia.
    + rewrite Er. rewrite (Z.mul_comm 256), Z.div_add_l, (Z.div_small (v mod 256)) by lia. lia.
  - rewrite Hdm, (Z.mul_comm 256), Z_mod_plus_full, Z_div_plus_full by lia. done.
Qed.

(** Consecutive positions set to given bytes. *)
Lemma insert_at_length {A} (pre post : list A) x y k : length pre = k -> <[k := x]> (pre ++ y :: post) = pre ++ x :: post.
Proof. intros <-. by rewrite insert_app_r_alt, Nat.sub_diag by done. Qed.

Lemma as_bytes_digit_spec cnt ng d carry pre post w :
  0 <= d < 256 ^ Z.of_nat cnt -> 0 <= carry <= 1 -> 8 < DIG_SIZE -> post <> [] -> 0 <= w ->
  let R := rest_val ng carry (d + 256 ^ Z.of_nat cnt * w) in
  let n := Nat.min cnt (length post) in
  exists c, as_bytes_digit cnt ng false d carry (pre ++ post) (length pre)
    = Some ((pre ++ zbytes R n) ++ drop n post, (length pre + n)%nat, c, (n =? length post)%nat)
    /\ ((n < length post)%nat -> 0 <= c <= 1 /\ R / 256 ^ Z.of_nat cnt = rest_val ng c w).
Proof.
  revert d carry pre post. induction cnt as [|cnt IH]; intros d carry pre post Hd Hc Hs Hpost Hw; cbn [as_bytes_digit].
  { exists carry. cbn [Nat.min zbytes drop]. rewrite app_nil_r, Nat.add_0_r. destruct post; [done|].
    split; [done|]. intros _. split; [done|]. rewrite Z.pow_0_r, Z.div_1_r. f_equal. simpl in Hd. lia. }
  assert (Hpow : 256 ^ Z.of_nat (S cnt) = 256 * 256 ^ Z.of_nat cnt) by (rewrite Nat2Z.inj_succ, Z.pow_succ_r; lia).
  set (R := rest_val ng carry (d + 256 ^ Z.of_nat (S cnt) * w)).
  pose proof (byte_step ng carry d (256 ^ Z.of_nat cnt * w) ltac:(lia) Hc Hs) as Hb.
  replace (d + 256 * (256 ^ Z.of_nat cnt * w)) with (d + 256 ^ Z.of_nat (S cnt) * w) in Hb by lia. fold R in Hb.
  destruct (if ng then _ else _) as [v c]. destruct Hb as (Hv & Hc' & HR).
  destruct post as [|y post]; [done|]. unfold put_byte. rewrite length_app. cbn [length].
  destruct (Nat.ltb_spec (length pre) (length pre + S (length post))); [|lia].
  cbn [mbind option_bind]. rewrite insert_at_length by done. rewrite length_app. cbn [length]. rewrite Hv.
  replace (pre ++ R mod 256 :: post) with ((pre ++ [R mod 256]) ++ post) by (by rewrite <- app_assoc).
  replace (S (length pre)) with (length (pre ++ [R mod 256])) by (rewrite length_app; simpl; lia).
  assert (HRd : R / 256 ^ Z.of_nat (S cnt) = R / 256 / 256 ^ Z.of_nat cnt)
    by (rewrite Hpow, Z.div_div; [done|lia|apply Z.pow_pos_nonneg; lia]).
  assert (Hd8 : 0 <= d / 256 < 256 ^ Z.of_nat cnt) by (split; [apply Z.div_pos; lia|apply Z.div_lt_upper_bound; lia]).
  destruct post as [|z post].
  - cbn [Nat.min length drop]. rewrite length_app. cbn [length]. rewrite Nat.eqb_refl, Nat.min_0_r.
    exists c. split; [done|]. lia.
  - rewrite length_app. cbn [length Nat.min].
    destruct (Nat.eqb_spec (length pre + 1) (length pre + S (S (length post)))); [lia|].
    destruct (IH (d / 256) c (pre ++ [R mod 256]) (z :: post)) as (c' & Hrun & Hc''); try done.
    rewrite length_app in Hrun. cbn [length] in Hrun, Hc''.
    rewrite Z.shiftr_div_pow2 by lia. change (2 ^ 8) with 256. rewrite Hrun, <- HR.
    exists c'. split.
    + f_equal. cbn [zbytes drop]. rewrite <- !app_assoc. cbn [app].
      assert (E4 : forall (a a' : list Z) (k k' : nat) (f f' : bool), a = a' -> k = k' -> f = f' ->
        (a, k, c', f) = (a', k', c', f')) by congruence.
      apply E4; [done|lia|]. apply eq_true_iff_eq. rewrite !Nat.eqb_eq. lia.
    + intros Hn. rewrite HRd, HR. apply Hc''. lia.
Qed.

Lemma as_bytes_loop_spec ds ng carry pre post :
  digs_ok ds -> 0 <= carry <= 1 -> 8 < DIG_SIZE -> post <> [] ->
  let n := Nat.min (length ds * dig_bytes) (length post) in
  as_bytes_loop ds ng false carry (pre ++ post) (length pre)
  = Some (pre ++ zbytes (rest_val ng carry (dval ds)) n ++ drop n post).
Proof.
  destruct dig_bytes_pow as (HD & HB & Hp). intros H. revert carry pre post.
  induction H as [|d ds Hd Hds IH]; intros carry pre post Hc Hs Hpost; cbn [as_bytes_loop].
  { cbn [length]. rewrite Nat.mul_0_l, Nat.min_0_l. done. }
  pose proof (dval_bound ds Hds) as Hb. unfold is_dig in Hd. rewrite HB in Hd.
  destruct (as_bytes_digit_spec dig_bytes ng d carry pre post (dval ds)) as (c & Hrun & Hrest); try done; [lia|].
  fold dig_bytes. rewrite Hrun. cbn [mbind option_bind]. cbn [dval length]. rewrite HB.
  set (R := rest_val ng carry (d + 256 ^ Z.of_nat dig_bytes * dval ds)) in *.
  destruct (Nat.eqb_spec (Nat.min dig_bytes (length post)) (length post)) as [E|E].
  - rewrite E. replace (Nat.min (S (length ds) * dig_bytes) (length post)) with (length post) by lia.
    by rewrite <- app_assoc.
  - assert (Hlt : (dig_bytes < length post)%nat) by lia. replace (Nat.min dig_bytes (length post)) with dig_bytes in * by lia.
    destruct (Hrest ltac:(lia)) as [Hc' HR].
    replace (length pre + dig_bytes)%nat with (length (pre ++ zbytes R dig_bytes)) by (rewrite length_app, length_zbytes; lia).
    rewrite IH; [|done|done|intros E0; apply (f_equal length) in E0; rewrite length_drop in E0; simpl in E0; lia].
    rewrite length_drop, <- app_assoc, drop_drop, <- HR. do 2 f_equal.
    replace (Nat.min (S (length ds) * dig_bytes) (length post))
      with (dig_bytes + Nat.min (length ds * dig_bytes) (length post - dig_bytes))%nat by lia.
    by rewrite zbytes_app, <- app_assoc.
Qed.

(** The bytes written are those of the two's complement of the number; bytes
    above the digits of the number are left alone, for negative numbers too. *)
Lemma mpz_as_bytes_spec z be buf :
  mpz_ok z -> 8 < DIG_SIZE -> buf <> [] ->
  let n := Nat.min (len z * dig_bytes) (length buf) in
  mpz_as_bytes z be buf
  = Some (if be : bool then reverse (overwrite (zbytes (mval z) n) (reverse buf)) else overwrite (zbytes (mval z) n) buf).
Proof.
  intros Hz Hs Hbuf. operand z Hz. unfold mpz_as_bytes.
  assert (E : rest_val (neg z) 1 (dval (live z)) = mval z) by (unfold rest_val, mval, sgz; destruct (neg z); lia).
  assert (Hle : forall b, b <> [] -> as_bytes_loop (live z) (neg z) false 1 b 0
    = Some (overwrite (zbytes (mval z) (Nat.min (len z * dig_bytes) (length b))) b)).
  { intros b Hb. pose proof (as_bytes_loop_spec (live z) (neg z) 1 [] b Hok ltac:(lia) Hs Hb) as H. cbv zeta in H.
    rewrite E, Hlen in H. unfold overwrite. rewrite length_zbytes. exact H. }
  destruct be; [|by apply Hle]. rewrite as_bytes_loop_be, Hle; [by rewrite length_reverse|].
  intros E0. apply Hbuf. apply (f_equal reverse) in E0. by rewrite reverse_involutive in E0.
Qed.
End MpzConv.

(** What a client relies on in the conversions of big integers: round trips
    through strings and bytes, exact range checks, and the hash. *)

Section Theorems.
Context {wcfg : WordCfg} {cfg : MpzCfg}.

(** C37 String round trip: [mpz_as_str_inpl] in a base from 2 to 32 terminates with
    the sign and the digits of the number, and [mpz_set_from_str] reads all of
    those digits and gets the number back. *)
Theorem mpz_str_roundtrip st p d z base bc :
  dst st p d -> mpz_ok z -> 2 <= base <= 32 -> bc = 97 \/ bc = 65 ->
  exists cs d', mpz_as_str_inpl z base None bc 0 = Some ((if neg z && negb (len z =? 0)%nat then [45] else []) ++ cs)
    /\ mpz_set_from_str p cs (neg z) base st = Some (length cs, <[p := d']> st)
    /\ mpz_ok d' /\ mval d' = mval z.
Proof.
  intros Hd Hz Hb Hbc. destruct (mpz_as_str_spec z base bc Hz Hb Hbc) as (cs & Hcs & Hsc).
  destruct (mpz_set_from_str_spec st p cs (neg z) base d Hd ltac:(lia)) as (d' & Hrun & Hok & _ & Hv).
  rewrite Hsc in Hrun, Hv. exists cs, d'. split; [done|]. split; [done|]. split; [done|].
  rewrite Hv. simpl. rewrite abs_mval by done. done.
Qed.

(** C39 Conversions to machine integers, for digits narrower than a word:
    [mpz_as_int_checked] succeeds exactly on magnitudes below [2^(W-1)] (so not
    on the most negative integer), [mpz_as_uint_checked] exactly on numbers
    without sign below [2^W], both with the value; [mpz_hash] is the value
    reduced to a machine integer. *)
Theorem mpz_machine_int_exact z :
  mpz_ok z -> DIG_SIZE < WORD_BITS ->
  mpz_as_int_checked z = (if Z.abs (mval z) <? 2 ^ (WORD_BITS - 1) then Some (mval z) else None)
  /\ mpz_as_uint_checked z = (if negb (neg z) && (mval z <? 2 ^ WORD_BITS) then Some (mval z) else None)
  /\ mpz_hash z = mp_int (mval z).
Proof.
  intros. split_and!; [by apply mpz_as_int_checked_spec|by apply mpz_as_uint_checked_spec|by apply mpz_hash_spec].
Qed.

Lemma bval_replicate_0 n : bval (replicate n 0) = 0.
Proof. induction n; simpl; lia. Qed.

Lemma bytes_ok_zbytes v n : bytes_ok (zbytes v n).
Proof. revert v. induction n as [|n IH]; intros v; [constructor|]. constructor; [apply Z.mod_pos_bound; lia|apply IH]. Qed.

Lemma bval_overwrite_zeros z n :
  mpz_ok z -> neg z = false -> mval z < 256 ^ Z.of_nat n ->
  bytes_ok (overwrite (zbytes (mval z) (Nat.min (len z * dig_bytes) n)) (replicate n 0))
  /\ bval (overwrite (zbytes (mval z) (Nat.min (len z * dig_bytes) n)) (replicate n 0)) = mval z.
Proof.
  intros Hz Hs Hv. operand z Hz. unfold overwrite. rewrite length_zbytes, drop_replicate. split.
  { apply Forall_app. split; [apply bytes_ok_zbytes|]. apply Forall_replicate. lia. }
  rewrite bval_app, bval_replicate_0, bval_zbytes, Z.mul_0_r, Z.add_0_r. apply Z.mod_small.
  unfold mval in *. rewrite Hs in *. cbn [sgz] in *. split; [done|].
  destruct dig_bytes_pow as (_ & HB & _). pose proof (dval_bound (live z) Hok) as Hb.
  rewrite Hlen, HB, <- Z.pow_mul_r in Hb by lia.
  destruct (Nat.min_dec (len z * dig_bytes) n) as [-> | ->]; [|done]. rewrite Nat2Z.inj_mul, Z.mul_comm. apply Hb.
Qed.

(** Bytes: for a non-empty buffer [mpz_as_bytes] stays inside it and stores the
    low bytes of the two's complement of the number, in either byte order,
    without touching the bytes above the number's digits; and a non-negative
    number that fits a zeroed buffer is what [mpz_set_from_bytes] reads back. *)
Theorem mpz_bytes_roundtrip st p d z be buf :
  mpz_ok z -> 8 < DIG_SIZE -> buf <> [] -> dst st p d ->
  let n := Nat.min (len z * dig_bytes) (length buf) in
  exists buf', mpz_as_bytes z be buf = Some buf'
    /\ buf' = (if be : bool then reverse (overwrite (zbytes (mval z) n) (reverse buf))
               else overwrite (zbytes (mval z) n) buf)
    /\ (neg z = false -> mval z < 256 ^ Z.of_nat (length buf) -> buf = replicate (length buf) 0 ->
        computes (mpz_set_from_bytes p be buf') st p (mval z)).
Proof.
  intros Hz Hs Hbuf Hd. cbv zeta. eexists. split; [by apply mpz_as_bytes_spec|]. split; [done|].
  intros Hneg Hv Hrep. destruct (bval_overwrite_zeros z (length buf) Hz Hneg Hv) as [Hok Hbv].
  rewrite <- Hrep in Hok, Hbv. destruct be.
  - assert (Hr : reverse buf = buf) by (rewrite Hrep; apply reverse_replicate).
    rewrite Hr. rewrite <- Hbv at 2. rewrite <- (reverse_involutive (overwrite _ _)) at 2.
    eapply (mpz_set_from_bytes_spec st p true); [exact Hd|]. by apply Forall_reverse.
  - rewrite <- Hbv at 2. by eapply (mpz_set_from_bytes_spec st p false).
Qed.
End Theorems.

Section Witnesses.
#[local] Existing Instance word32.
#[local] Existing Instance mpz16.

Lemma mpz_str_roundtrip_witness :
  exists cs d', mpz_as_str_inpl wa 16 None 97 0 = Some ([45] ++ cs)
    /\ mpz_set_from_str 0 cs true 16 wst = Some (length cs, <[0%nat := d']> wst)
    /\ mpz_ok d' /\ mval d' = mval wa.
Proof.
  refine (mpz_str_roundtrip wst 0 mpz_zero_obj wa 16 97 w_dst _ _ _); [apply w_ok|lia|left; reflexivity].
Defined.

Lemma mpz_machine_int_witness :
  mpz_as_int_checked wb = Some 70000 /\ mpz_as_int_checked wa = None /\ mpz_hash wb = 70000.
Proof.
  destruct (mpz_machine_int_exact wb) as (H1 & _ & H3); [apply w_ok|reflexivity|].
  destruct (mpz_machine_int_exact wa) as (H2 & _ & _); [apply w_ok|reflexivity|].
  split; [exact H1|split; [exact H2|exact H3]].
Defined.

Lemma mpz_bytes_roundtrip_witness :
  exists buf', mpz_as_bytes wb true (replicate 6 0) = Some buf'
    /\ buf' = [0; 0; 0; 1; 17; 112] /\ computes (mpz_set_from_bytes 0 true buf') wst 0 70000.
Proof.
  destruct (mpz_bytes_roundtrip wst 0 mpz_zero_obj wb true (replicate 6 0)) as (b & H1 & H2 & H3);
    [apply w_ok|reflexivity|discriminate|exact w_dst|].
  exists b. split; [exact H1|]. split; [rewrite H2; reflexivity|]. apply H3; reflexivity.
Defined.

(** The corners: a separator before the first group when the number of digits is a
    multiple of three; the upper bytes of a negative number are not sign
    extended; and an empty buffer is written before its start. *)
Theorem mpz_conversion_corners :
  mpz_as_str_inpl (mk 123456) 10 None 97 44 = Some [44; 49; 50; 51; 44; 52; 53; 54]
  /\ mpz_as_bytes (mk (- 2 ^ 33)) false (replicate 8 0) = Some [0; 0; 0; 0; 254; 255; 0; 0]
  /\ zbytes (- 2 ^ 33) 8 = [0; 0; 0; 0; 254; 255; 255; 255]
  /\ mpz_as_bytes (mk (2 ^ 33)) false [] = None.
Proof. split_and!; vm_compute; reflexivity. Qed.
End Witnesses.
