(* ===== verification/ResponseQueue.v ===== *)
(** The response queue of a context, [py/mpstate.c]: a ring buffer of
    [MP_RESPONSE_QUEUE_SIZE] entries with a read and a write index.

    One slot stays free to tell a full queue from an empty one.  The abstract
    queue is the list of the entries from the read to the write index. *)
From S2P Require Import Prelude.

Definition MP_RESPONSE_QUEUE_SIZE : nat := 256.

(** [mp_response_t]; the argument is a MicroPython object. *)
Record mp_response_t := MkResp { control_op : Z; argument : Z }.

Record mp_response_queue_t := MkQueue { buff : list mp_response_t; r_head : nat; w_head : nat }.

Definition empty_queue : mp_response_queue_t := MkQueue (replicate MP_RESPONSE_QUEUE_SIZE (MkResp 0 0)) 0 0.

Definition mp_response_queue_available (q : mp_response_queue_t) : nat :=
  if (r_head q =? w_head q)%nat then 0
  else if (r_head q <? w_head q)%nat then w_head q - r_head q
  else w_head q + (MP_RESPONSE_QUEUE_SIZE - 1 - r_head q).

Definition mp_response_queue_peek (q : mp_response_queue_t) : option mp_response_t :=
  if (r_head q =? w_head q)%nat then None else buff q !! r_head q.

Definition next_index (i : nat) : nat := if (MP_RESPONSE_QUEUE_SIZE <=? i + 1)%nat then 0 else i + 1.

(** [None] for an empty queue: the C function returns 0 and changes nothing. *)
Definition mp_response_queue_read (q : mp_response_queue_t) : option (mp_response_t * mp_response_queue_t) :=
  if (r_head q =? w_head q)%nat then None
  else r ← buff q !! r_head q; Some (r, MkQueue (buff q) (next_index (r_head q)) (w_head q)).

(** [None] for a full queue: the C function returns 0 and changes nothing. *)
Definition mp_response_queue_write (q : mp_response_queue_t) (response : mp_response_t) : option mp_response_queue_t :=
  let next := next_index (w_head q) in
  if (next =? r_head q)%nat then None
  else Some (MkQueue (<[w_head q := response]> (buff q)) (r_head q) next).

(** ** The abstract queue *)

Definition queue_ok (q : mp_response_queue_t) : Prop :=
  length (buff q) = MP_RESPONSE_QUEUE_SIZE
  /\ (r_head q < MP_RESPONSE_QUEUE_SIZE)%nat /\ (w_head q < MP_RESPONSE_QUEUE_SIZE)%nat.

Definition contents (q : mp_response_queue_t) : list mp_response_t :=
  if (r_head q <=? w_head q)%nat then take (w_head q - r_head q) (drop (r_head q) (buff q))
  else drop (r_head q) (buff q) ++ take (w_head q) (buff q).

Lemma length_contents q : queue_ok q ->
  length (contents q) = (if (r_head q <=? w_head q)%nat then w_head q - r_head q
                         else MP_RESPONSE_QUEUE_SIZE - r_head q + w_head q)%nat.
Proof.
  intros (Hl & Hr & Hw). unfold contents. case_match; bool_to_prop.
  - rewrite length_take, length_drop. lia.
  - rewrite length_app, length_take, length_drop. lia.
Qed.

Lemma empty_queue_ok : queue_ok empty_queue /\ contents empty_queue = [].
Proof. split; [|done]. unfold queue_ok, empty_queue, MP_RESPONSE_QUEUE_SIZE. simpl. lia. Qed.

Lemma next_index_lt i : (i < MP_RESPONSE_QUEUE_SIZE)%nat -> (next_index i < MP_RESPONSE_QUEUE_SIZE)%nat.
Proof. unfold next_index, MP_RESPONSE_QUEUE_SIZE. intros. case_match; bool_to_prop; lia. Qed.

Lemma queue_read_spec q : queue_ok q ->
  match mp_response_queue_read q with
  | None => contents q = []
  | Some (r, q') => queue_ok q' /\ contents q = r :: contents q'
  end.
Proof.
  intros Hq. pose proof (length_contents q Hq) as Hlen. pose proof Hq as (Hl & Hr & Hw).
  unfold mp_response_queue_read. destruct (Nat.eqb_spec (r_head q) (w_head q)) as [E|E].
  { apply nil_length_inv. rewrite Hlen, E, Nat.leb_refl. lia. }
  destruct (lookup_lt_is_Some_2 (buff q) (r_head q)) as [r Hget]; [lia|]. rewrite Hget. cbn [mbind option_bind].
  split; [split; [done|split; [by apply next_index_lt|done]]|].
  unfold contents, next_index, MP_RESPONSE_QUEUE_SIZE in *. cbn [buff r_head w_head].
  pose proof (drop_S _ _ _ Hget) as Hd.
  destruct (Nat.leb_spec (r_head q) (w_head q)), (Nat.leb_spec 256 (r_head q + 1)); try lia.
  - destruct (Nat.leb_spec (r_head q + 1) (w_head q)); [|lia]. rewrite Hd.
    replace (w_head q - r_head q)%nat with (S (w_head q - (r_head q + 1))) by lia. cbn [take].
    replace (r_head q + 1)%nat with (S (r_head q)) by lia. done.
  - destruct (Nat.leb_spec 0 (w_head q)); [|lia]. rewrite Hd, (drop_ge _ (S (r_head q))) by lia.
    by rewrite drop_0, Nat.sub_0_r.
  - destruct (Nat.leb_spec (r_head q + 1) (w_head q)); [lia|]. rewrite Hd.
    by replace (r_head q + 1)%nat with (S (r_head q)) by lia.
Qed.

Lemma queue_write_spec q r : queue_ok q ->
  match mp_response_queue_write q r with
  | None => length (contents q) = (MP_RESPONSE_QUEUE_SIZE - 1)%nat
  | Some q' => queue_ok q' /\ contents q' = contents q ++ [r]
  end.
Proof.
  intros Hq. pose proof (length_contents q Hq) as Hlen. pose proof Hq as (Hl & Hr & Hw).
  unfold mp_response_queue_write. pose proof (next_index_lt _ Hw) as Hn.
  destruct (Nat.eqb_spec (next_index (w_head q)) (r_head q)) as [E|E].
  { rewrite Hlen. unfold next_index, MP_RESPONSE_QUEUE_SIZE in *.
    destruct (Nat.leb_spec 256 (w_head q + 1)), (Nat.leb_spec (r_head q) (w_head q)); lia. }
  split; [split; [cbn [buff]; by rewrite length_insert|done]|].
  assert (Htk : forall n, (n <= w_head q)%nat -> take (S (w_head q) - n) (drop n (<[w_head q := r]> (buff q)))
     = take (w_head q - n) (drop n (buff q)) ++ [r]).
  { intros n Hnw. rewrite drop_insert_ge by lia.
    replace (S (w_head q) - n)%nat with (S (w_head q - n)) by lia.
    rewrite (take_S_r _ _ r) by (apply list_lookup_insert_eq; rewrite length_drop; lia).
    by rewrite take_insert_ge by lia. }
  unfold contents, next_index, MP_RESPONSE_QUEUE_SIZE in *. cbn [buff r_head w_head].
  destruct (Nat.leb_spec 256 (w_head q + 1)), (Nat.leb_spec (r_head q) (w_head q)); try lia.
  - destruct (Nat.leb_spec (r_head q) 0); [lia|]. rewrite take_0, app_nil_r. rewrite <- Htk by lia.
    rewrite take_ge; [done|]. rewrite length_drop, length_insert. lia.
  - destruct (Nat.leb_spec (r_head q) (w_head q + 1)); [|lia].
    replace (w_head q + 1)%nat with (S (w_head q)) by lia. by apply Htk.
  - destruct (Nat.leb_spec (r_head q) (w_head q + 1)); [lia|]. rewrite drop_insert_lt by lia.
    rewrite <- app_assoc. f_equal. specialize (Htk 0%nat ltac:(lia)). rewrite !drop_0, !Nat.sub_0_r in Htk.
    by replace (w_head q + 1)%nat with (S (w_head q)) by lia.
Qed.

(** C32 The response queue is a FIFO of capacity 255: a read takes the oldest entry
    or fails on an empty queue, a write adds an entry or fails on a full one, and
    a peek is a read that leaves the queue alone. *)
Theorem response_queue_fifo q r : queue_ok q ->
  match mp_response_queue_read q with
  | None => contents q = []
  | Some (x, q') => queue_ok q' /\ contents q = x :: contents q'
  end
  /\ match mp_response_queue_write q r with
     | None => length (contents q) = 255%nat
     | Some q' => queue_ok q' /\ contents q' = contents q ++ [r]
     end
  /\ mp_response_queue_peek q = head (contents q).
Proof.
  intros Hq. split; [by apply queue_read_spec|]. split; [by apply queue_write_spec|].
  pose proof (queue_read_spec q Hq) as Hr. unfold mp_response_queue_peek, mp_response_queue_read in *.
  destruct (Nat.eqb_spec (r_head q) (w_head q)); [by rewrite Hr|].
  destruct (buff q !! r_head q) as [x|] eqn:E; cbn [mbind option_bind] in Hr.
  - destruct Hr as [_ ->]. done.
  - by rewrite Hr.
Qed.

Lemma response_queue_fifo_witness :
  exists q, mp_response_queue_write empty_queue (MkResp 3 42) = Some q /\ contents q = [MkResp 3 42]
    /\ mp_response_queue_peek q = Some (MkResp 3 42).
Proof.
  destruct (response_queue_fifo empty_queue (MkResp 3 42) (proj1 empty_queue_ok)) as (_ & Hw & _).
  simpl in Hw. eexists. split; [reflexivity|]. split; [exact (proj2 Hw)|reflexivity].
Defined.

(** [mp_response_queue_available] is the number of entries, except that it is
    one too small whenever the write index has wrapped below the read index. *)
Theorem response_queue_available_exact q : queue_ok q ->
  length (contents q)
  = (mp_response_queue_available q + (if (w_head q <? r_head q)%nat then 1 else 0))%nat.
Proof.
  intros Hq. rewrite length_contents by done. destruct Hq as (_ & Hr & Hw).
  unfold mp_response_queue_available, MP_RESPONSE_QUEUE_SIZE in *.
  destruct (Nat.eqb_spec (r_head q) (w_head q)), (Nat.ltb_spec (r_head q) (w_head q)),
    (Nat.ltb_spec (w_head q) (r_head q)), (Nat.leb_spec (r_head q) (w_head q)); lia.
Qed.

(** The queue with its only entry in the last slot reports nothing available. *)
Lemma response_queue_available_witness :
  let q := MkQueue (replicate 256 (MkResp 3 42)) 255 0 in
  queue_ok q /\ length (contents q) = (mp_response_queue_available q + 1)%nat
  /\ mp_response_queue_available q = 0%nat.
Proof.
  assert (H : queue_ok (MkQueue (replicate 256 (MkResp 3 42)) 255 0)) by (split; [reflexivity|split; apply Nat.ltb_lt; reflexivity]).
  split; [exact H|]. split; [exact (response_queue_available_exact _ H)|reflexivity].
Defined.
