(* ===== verification/LinkedList.v ===== *)
(** Singly linked lists in a store: what the lists of contexts, of dynamic
    memory and of responses have in common.

    A pointer is a natural number and 0 is [NULL].  The node type and its link
    are parameters. *)
From S2P Require Import Prelude.

Section LinkedList.
Context {A : Type} (nxt : A -> nat).
Implicit Type m : gmap nat A.

(** [for (iter = p; iter != NULL; iter = iter->next) { if (test) break; } return iter;]
    [None]: a link to an object that does not exist, or a list with a cycle. *)
Fixpoint find_node (fuel : nat) m (test : nat -> A -> bool) (p : nat) : option nat :=
  if (p =? 0)%nat then Some 0%nat
  else match fuel with
  | O => None
  | S fuel => a ← m !! p; if test p a then Some p else find_node fuel m test (nxt a)
  end.

(** [xs] are the nodes of the list that starts at [p]. *)
Fixpoint chain m (p : nat) (xs : list nat) : Prop :=
  match xs with
  | [] => p = 0%nat
  | x :: xs => p = x /\ x <> 0%nat /\ exists a, m !! x = Some a /\ chain m (nxt a) xs
  end.

Fixpoint first_node m (test : nat -> A -> bool) (xs : list nat) : nat :=
  match xs with
  | [] => 0
  | x :: xs => if (match m !! x with Some a => test x a | None => false end) then x else first_node m test xs
  end.

Lemma chain_det m p xs ys : chain m p xs -> chain m p ys -> xs = ys.
Proof.
  revert p ys. induction xs as [|x xs IH]; intros p [|y ys]; simpl.
  - done.
  - intros -> (? & ? & _). congruence.
  - intros (-> & ? & _) ?. congruence.
  - intros (-> & _ & a & Ha & Hc) (-> & _ & b & Hb & Hd). simplify_eq. f_equal. eauto.
Qed.

Lemma chain_lookup m p xs x : chain m p xs -> x ∈ xs -> x <> 0%nat /\ exists a, m !! x = Some a.
Proof.
  revert p. induction xs as [|y xs IH]; intros p; [by intros _ ?%elem_of_nil|].
  intros (-> & Hy & a & Ha & Hc) [->|Hx]%elem_of_cons; eauto.
Qed.

Lemma chain_app m p xs ys : chain m p (xs ++ ys) -> exists q, chain m q ys.
Proof.
  revert p. induction xs as [|x xs IH]; intros p; simpl; [eauto|]. intros (_ & _ & a & _ & Hc). eauto.
Qed.

(** A list that ends visits each node once. *)
Lemma chain_NoDup m p xs : chain m p xs -> NoDup xs.
Proof.
  revert p. induction xs as [|x xs IH]; intros p Hc; [constructor|].
  pose proof Hc as (-> & Hx & a & Ha & Hc'). constructor; [|eauto].
  intros (l1 & l2 & ->)%list_elem_of_split.
  destruct (chain_app m _ (x :: l1) (x :: l2) Hc) as [q Hq].
  assert (q = x) as -> by (destruct Hq; done).
  assert (E : x :: l2 = x :: l1 ++ x :: l2) by (eapply chain_det; eauto).
  apply (f_equal length) in E. rewrite !length_cons, length_app, length_cons in E. lia.
Qed.

Lemma chain_size m p xs : chain m p xs -> (length xs <= size m)%nat.
Proof.
  intros Hc. pose proof (chain_NoDup m p xs Hc) as Hnd.
  rewrite <- (size_list_to_set (C:=gset nat) xs Hnd), <- size_dom. apply subseteq_size.
  intros x Hx%elem_of_list_to_set. apply elem_of_dom. destruct (chain_lookup m p xs x Hc Hx) as [_ [a Ha]]. eauto.
Qed.

Lemma find_node_spec fuel m test p xs :
  chain m p xs -> (length xs <= fuel)%nat -> find_node fuel m test p = Some (first_node m test xs).
Proof.
  revert p xs. induction fuel as [|fuel IH]; intros p [|x xs] Hc Hl; simpl in Hl; try lia;
    try (simpl in Hc; subst p; by destruct fuel || done).
  destruct Hc as (-> & Hx & a & Ha & Hc). cbn [find_node first_node].
  destruct (Nat.eqb_spec x 0); [done|]. rewrite Ha. cbn [mbind option_bind].
  destruct (test x a); [done|]. apply IH; [done|lia].
Qed.

(** *** The search *)

Lemma first_node_In m test xs : first_node m test xs <> 0%nat ->
  first_node m test xs ∈ xs /\ exists a, m !! first_node m test xs = Some a /\ test (first_node m test xs) a = true.
Proof.
  induction xs as [|x xs IH]; simpl; [done|]. intros H.
  destruct (m !! x) as [a|] eqn:Ha; [destruct (test x a) eqn:Ht|].
  - split; [left|eauto].
  - destruct (IH H). split; [by right|done].
  - destruct (IH H). split; [by right|done].
Qed.

Lemma first_node_none m test xs :
  (forall x a, x ∈ xs -> m !! x = Some a -> test x a = false) -> first_node m test xs = 0%nat.
Proof.
  induction xs as [|x xs IH]; simpl; [done|]. intros H.
  destruct (m !! x) as [a|] eqn:Ha; [rewrite (H x a) by (done || left)|]; apply IH; intros; apply H; done || by right.
Qed.

Lemma first_node_found m test xs1 x xs2 a :
  (forall y b, y ∈ xs1 -> m !! y = Some b -> test y b = false) -> m !! x = Some a -> test x a = true ->
  first_node m test (xs1 ++ x :: xs2) = x.
Proof.
  intros H Ha Ht. induction xs1 as [|y xs1 IH]; simpl; [by rewrite Ha, Ht|].
  destruct (m !! y) as [b|] eqn:Hb; [rewrite (H y b) by (done || left)|]; apply IH; intros; eapply H; eauto; by right.
Qed.

(** *** Updates *)

Lemma chain_insert_fresh m p xs x a : chain m p xs -> x ∉ xs -> chain (<[x := a]> m) p xs.
Proof.
  revert p. induction xs as [|y xs IH]; intros p; [done|]. intros (-> & Hy & b & Hb & Hc) Hn.
  apply not_elem_of_cons in Hn as [Hxy Hn]. split; [done|]. split; [done|].
  exists b. rewrite lookup_insert_ne by done. auto.
Qed.

Lemma chain_delete m p xs x : chain m p xs -> x ∉ xs -> chain (delete x m) p xs.
Proof.
  revert p. induction xs as [|y xs IH]; intros p; [done|]. intros (-> & Hy & b & Hb & Hc) Hn.
  apply not_elem_of_cons in Hn as [Hxy Hn]. split; [done|]. split; [done|].
  exists b. rewrite lookup_delete_ne by done. auto.
Qed.

(** A change that keeps the link of a node keeps the list. *)
Lemma chain_insert_link m p xs x a b : chain m p xs -> m !! x = Some b -> nxt a = nxt b -> chain (<[x := a]> m) p xs.
Proof.
  revert p. induction xs as [|y xs IH]; intros p; [done|]. intros (-> & Hy & c & Hc & Hch) Hb Hab.
  split; [done|]. split; [done|]. destruct (decide (x = y)) as [->|Hne].
  - exists a. rewrite lookup_insert_eq. simplify_eq. rewrite Hab. eauto.
  - exists c. rewrite lookup_insert_ne by done. eauto.
Qed.

(** [tail->next = n] *)
Lemma chain_snoc m p xs t n a b :
  chain m p (xs ++ [t]) -> m !! n = Some a -> nxt a = 0%nat -> n <> 0%nat -> n ∉ xs ++ [t] -> nxt b = n ->
  chain (<[t := b]> m) p (xs ++ [t; n]).
Proof.
  intros Hc Ha Han Hn Hnin Hb. revert p Hc. induction xs as [|x xs IH]; intros p Hc.
  - destruct Hc as (-> & Ht & c & Hct & _). simpl. split; [done|]. split; [done|]. exists b.
    rewrite lookup_insert_eq. split; [done|]. split; [done|]. split; [done|]. exists a.
    rewrite lookup_insert_ne; [done|]. intros ->. apply Hnin. by left.
  - pose proof (chain_NoDup _ _ _ Hc) as Hnd. destruct Hc as (-> & Hx & c & Hcx & Hc).
    simpl in Hnd; apply list.NoDup_cons in Hnd as [Hxn _]. split; [done|]. split; [done|]. exists c.
    rewrite lookup_insert_ne by (intros ->; apply Hxn, elem_of_app; right; left). split; [done|].
    apply IH; [|done]. intros Hin. apply Hnin. by right.
Qed.

(** [predecessor->next = x->next] *)
Lemma chain_unlink m p xs y x ys a b :
  chain m p (xs ++ y :: x :: ys) -> m !! x = Some a -> nxt b = nxt a -> chain (<[y := b]> m) p (xs ++ y :: ys).
Proof.
  intros Hc Ha Hb. revert p Hc. induction xs as [|z xs IH]; intros p Hc.
  - pose proof (chain_NoDup _ _ _ Hc) as Hnd. destruct Hc as (-> & Hy & c & Hcy & (<- & Hx & d & Hd & Hc)).
    simpl. split; [done|]. split; [done|]. exists b. rewrite lookup_insert_eq. split; [done|].
    simplify_eq. rewrite Hb. apply chain_insert_fresh; [done|].
    simpl in Hnd; apply list.NoDup_cons in Hnd as [Hnd _]. intros Hin. apply Hnd. by right.
  - pose proof (chain_NoDup _ _ _ Hc) as Hnd. destruct Hc as (-> & Hz & c & Hcz & Hc).
    simpl in Hnd; apply list.NoDup_cons in Hnd as [Hzn _]. split; [done|]. split; [done|]. exists c.
    rewrite lookup_insert_ne by (intros ->; apply Hzn, elem_of_app; right; left). eauto.
Qed.

(** The node whose link is [x]; [NULL]'s predecessor is the last node. *)
Lemma predecessor_spec m p xs y x ys :
  chain m p (xs ++ y :: x :: ys) -> first_node m (fun _ a => nxt a =? x)%nat (xs ++ y :: x :: ys) = y.
Proof.
  intros Hc. assert (Hy : exists a, m !! y = Some a /\ nxt a = x).
  { revert p Hc. induction xs as [|z xs IH]; intros p; simpl.
    - intros (-> & _ & a & Ha & (Hn & _)). eauto.
    - intros (_ & _ & c & _ & Hc). eauto. }
  destruct Hy as (a & Ha & Hax). eapply first_node_found; [|exact Ha|by apply Nat.eqb_eq].
  intros z c Hz Hcz. apply Nat.eqb_neq. intros Hcx.
  apply list_elem_of_split in Hz as (l1 & l2 & ->). rewrite <- app_assoc in Hc. simpl in Hc.
  destruct (chain_app m p l1 _ Hc) as [q Hq]. simpl in Hq. destruct Hq as (-> & _ & c' & Hc' & Hq). simplify_eq.
  pose proof (chain_NoDup _ _ _ Hq) as Hnd.
  destruct l2 as [|w l2]; simpl in Hq; destruct Hq as (Heq & _); simpl in Hnd; rewrite Hcx in Heq; subst;
    apply list.NoDup_cons in Hnd as [Hnd _]; apply Hnd; [left|].
  apply elem_of_app. right. right. left.
Qed.

Lemma tail_spec m p xs t :
  chain m p (xs ++ [t]) -> first_node m (fun _ a => nxt a =? 0)%nat (xs ++ [t]) = t.
Proof.
  intros Hc. assert (Ht : exists a, m !! t = Some a /\ nxt a = 0%nat).
  { revert p Hc. induction xs as [|z xs IH]; intros p; simpl.
    - intros (-> & _ & a & Ha & Hn). eauto.
    - intros (_ & _ & c & _ & Hc). eauto. }
  destruct Ht as (a & Ha & Hat). eapply first_node_found; [|exact Ha|by apply Nat.eqb_eq].
  intros z c Hz Hcz. apply Nat.eqb_neq. intros Hc0.
  apply list_elem_of_split in Hz as (l1 & l2 & ->). rewrite <- app_assoc in Hc. simpl in Hc.
  destruct (chain_app m p l1 _ Hc) as [q Hq]. simpl in Hq. destruct Hq as (-> & _ & c' & Hc' & Hq). simplify_eq.
  rewrite Hc0 in Hq. destruct l2; simpl in Hq; destruct Hq as (E & Hne & _); congruence.
Qed.

(** The head has no predecessor. *)
Lemma head_no_predecessor m p xs : p <> 0%nat -> chain m p xs -> first_node m (fun _ a => nxt a =? p)%nat xs = 0%nat.
Proof.
  intros Hp Hc. apply first_node_none. intros x a Hx Ha. apply Nat.eqb_neq. intros Hax.
  pose proof (chain_NoDup _ _ _ Hc) as Hnd.
  apply list_elem_of_split in Hx as (l1 & l2 & ->).
  destruct (chain_app m p l1 _ Hc) as [q Hq]. simpl in Hq. destruct Hq as (-> & _ & c' & Hc' & Hq). simplify_eq.
  assert (E : l2 = l1 ++ x :: l2) by (eapply chain_det; eauto).
  apply (f_equal length) in E. rewrite length_app, length_cons in E. lia.
Qed.

End LinkedList.
