(* ===== verification/MpState.v ===== *)
(** The contexts of MultiPython, [py/mpstate.c] and [py/mpstate.h]: the list of
    interpreter contexts, the memory that belongs to each, and the context that
    is active on each core.

    Pointers are natural numbers and 0 is [NULL].  Context nodes, dynamic memory
    nodes, interpreter states and raw blocks from [malloc] live in four stores;
    an address is never given out twice, so a use of freed memory is an access to
    an address that is in no store: [None], like a dereference of [NULL].
    [oom] says which of the coming calls of [malloc] fail. *)
From S2P Require Import Prelude LinkedList ResponseQueue.

(** The parts of [mp_state_vm_t] that the mirror variables copy; the contents of
    the objects do not matter here. *)
Record vm_state := MkVm { dict_main : Z; mp_loaded_modules_dict : Z; mp_sys_path_obj : Z; mp_sys_argv_obj : Z }.

Record mp_task_args_t := MkArgs { input_kind : Z; source : nat; suspend : Z; addtl : nat }.

Record mp_context_node_t := MkContext {
  id : Z; status : Z; state : nat; args : mp_task_args_t; threadctrl : nat;
  response_queue : mp_response_queue_t; memhead : nat; next : nat }.

Record mp_context_dynmem_node_t := MkDynmem { dcontext : nat; dmem : nat; dsize : Z; dnext : nat }.

(** A node after [memset] to 0. *)
Definition zero_context : mp_context_node_t := MkContext 0 0 0 (MkArgs 0 0 0 0) 0 empty_queue 0 0.
Definition zero_dynmem : mp_context_dynmem_node_t := MkDynmem 0 0 0 0.
Definition zero_state : vm_state := MkVm 0 0 0 0.

Record mp := MkMp {
  ctxs : gmap nat mp_context_node_t;
  dyns : gmap nat mp_context_dynmem_node_t;
  states : gmap nat vm_state;
  blocks : gmap nat Z;                              (* raw blocks with their sizes *)
  brk : nat; oom : list bool;                       (* [malloc] *)
  mp_context_head : nat;
  mp_active_contexts : gmap nat nat;                (* per core *)
  mp_active_context_mirrors : gmap nat mp_context_node_t;
  mp_active_vm : gmap nat vm_state;                 (* the mirror variables of [mp_context_refresh] *)
  mp_current_tIDs : gmap nat Z }.

Definition with_ctxs (f : gmap nat mp_context_node_t -> gmap nat mp_context_node_t) (s : mp) : mp :=
  MkMp (f (ctxs s)) (dyns s) (states s) (blocks s) (brk s) (oom s) (mp_context_head s)
    (mp_active_contexts s) (mp_active_context_mirrors s) (mp_active_vm s) (mp_current_tIDs s).
Definition with_dyns (f : gmap nat mp_context_dynmem_node_t -> gmap nat mp_context_dynmem_node_t) (s : mp) : mp :=
  MkMp (ctxs s) (f (dyns s)) (states s) (blocks s) (brk s) (oom s) (mp_context_head s)
    (mp_active_contexts s) (mp_active_context_mirrors s) (mp_active_vm s) (mp_current_tIDs s).
Definition with_states (f : gmap nat vm_state -> gmap nat vm_state) (s : mp) : mp :=
  MkMp (ctxs s) (dyns s) (f (states s)) (blocks s) (brk s) (oom s) (mp_context_head s)
    (mp_active_contexts s) (mp_active_context_mirrors s) (mp_active_vm s) (mp_current_tIDs s).
Definition with_blocks (f : gmap nat Z -> gmap nat Z) (s : mp) : mp :=
  MkMp (ctxs s) (dyns s) (states s) (f (blocks s)) (brk s) (oom s) (mp_context_head s)
    (mp_active_contexts s) (mp_active_context_mirrors s) (mp_active_vm s) (mp_current_tIDs s).
Definition with_malloc (brk' : nat) (oom' : list bool) (s : mp) : mp :=
  MkMp (ctxs s) (dyns s) (states s) (blocks s) brk' oom' (mp_context_head s)
    (mp_active_contexts s) (mp_active_context_mirrors s) (mp_active_vm s) (mp_current_tIDs s).
Definition with_active (f : gmap nat nat -> gmap nat nat) (s : mp) : mp :=
  MkMp (ctxs s) (dyns s) (states s) (blocks s) (brk s) (oom s) (mp_context_head s)
    (f (mp_active_contexts s)) (mp_active_context_mirrors s) (mp_active_vm s) (mp_current_tIDs s).
Definition with_mirrors (f : gmap nat mp_context_node_t -> gmap nat mp_context_node_t) (s : mp) : mp :=
  MkMp (ctxs s) (dyns s) (states s) (blocks s) (brk s) (oom s) (mp_context_head s)
    (mp_active_contexts s) (f (mp_active_context_mirrors s)) (mp_active_vm s) (mp_current_tIDs s).
Definition with_vm (f : gmap nat vm_state -> gmap nat vm_state) (s : mp) : mp :=
  MkMp (ctxs s) (dyns s) (states s) (blocks s) (brk s) (oom s) (mp_context_head s)
    (mp_active_contexts s) (mp_active_context_mirrors s) (f (mp_active_vm s)) (mp_current_tIDs s).
Definition with_tIDs (f : gmap nat Z -> gmap nat Z) (s : mp) : mp :=
  MkMp (ctxs s) (dyns s) (states s) (blocks s) (brk s) (oom s) (mp_context_head s)
    (mp_active_contexts s) (mp_active_context_mirrors s) (mp_active_vm s) (f (mp_current_tIDs s)).

Definition next_set (n : nat) (c : mp_context_node_t) : mp_context_node_t :=
  MkContext (id c) (status c) (state c) (args c) (threadctrl c) (response_queue c) (memhead c) n.
Definition memhead_set (n : nat) (c : mp_context_node_t) : mp_context_node_t :=
  MkContext (id c) (status c) (state c) (args c) (threadctrl c) (response_queue c) n (next c).
Definition state_set (n : nat) (c : mp_context_node_t) : mp_context_node_t :=
  MkContext (id c) (status c) n (args c) (threadctrl c) (response_queue c) (memhead c) (next c).
Definition id_set (n : Z) (c : mp_context_node_t) : mp_context_node_t :=
  MkContext n (status c) (state c) (args c) (threadctrl c) (response_queue c) (memhead c) (next c).
Definition status_set (n : Z) (c : mp_context_node_t) : mp_context_node_t :=
  MkContext (id c) n (state c) (args c) (threadctrl c) (response_queue c) (memhead c) (next c).
Definition args_set (a : mp_task_args_t) (c : mp_context_node_t) : mp_context_node_t :=
  MkContext (id c) (status c) (state c) a (threadctrl c) (response_queue c) (memhead c) (next c).
Definition queue_set (q : mp_response_queue_t) (c : mp_context_node_t) : mp_context_node_t :=
  MkContext (id c) (status c) (state c) (args c) (threadctrl c) q (memhead c) (next c).
Definition dnext_set (n : nat) (d : mp_context_dynmem_node_t) : mp_context_dynmem_node_t :=
  MkDynmem (dcontext d) (dmem d) (dsize d) n.
Definition dcontext_set (n : nat) (d : mp_context_dynmem_node_t) : mp_context_dynmem_node_t :=
  MkDynmem n (dmem d) (dsize d) (dnext d).

(** *** Memory *)

(** The address of a new block, or [NULL]. *)
Definition malloc : M mp nat := fun s =>
  match oom s with
  | true :: o => Some (0%nat, with_malloc (brk s) o s)
  | false :: o => Some (brk s, with_malloc (S (brk s)) o s)
  | [] => Some (brk s, with_malloc (S (brk s)) [] s)
  end.

Definition ctx (p : nat) : M mp mp_context_node_t := s ← mget; mlift (ctxs s !! p).
Definition dyn (p : nat) : M mp mp_context_dynmem_node_t := s ← mget; mlift (dyns s !! p).
Definition ctx_update (p : nat) (f : mp_context_node_t -> mp_context_node_t) : M mp unit :=
  c ← ctx p; mmodify (with_ctxs <[p := f c]>).
Definition dyn_update (p : nat) (f : mp_context_dynmem_node_t -> mp_context_dynmem_node_t) : M mp unit :=
  d ← dyn p; mmodify (with_dyns <[p := f d]>).

(** [free]: of [NULL] does nothing, of an address that is not allocated is undefined. *)
Definition free_ctx (p : nat) : M mp unit :=
  if (p =? 0)%nat then mret tt else (ctx p;; mmodify (with_ctxs (delete p))).
Definition free_dyn (p : nat) : M mp unit :=
  if (p =? 0)%nat then mret tt else (dyn p;; mmodify (with_dyns (delete p))).
Definition free_state (p : nat) : M mp unit :=
  if (p =? 0)%nat then mret tt else (s ← mget; mlift (states s !! p);; mmodify (with_states (delete p))).
Definition free_block (p : nat) : M mp unit :=
  if (p =? 0)%nat then mret tt else (s ← mget; mlift (blocks s !! p);; mmodify (with_blocks (delete p))).

(** *** The active context *)

(** Copy the variables of the active state to the mirror variables of the core. *)
Definition mp_context_refresh (core : nat) : M mp unit :=
  s ← mget; m ← mlift (mp_active_context_mirrors s !! core);
  v ← mlift (states s !! state m);
  mmodify (with_vm <[core := v]>).

Definition mp_context_switch (core node : nat) : M mp unit :=
  if (node =? 0)%nat then mret tt
  else
    mmodify (with_active <[core := node]>);;
    c ← ctx node; mmodify (with_mirrors <[core := c]>);;
    mp_context_refresh core.

(** *** The list of contexts *)

Definition context_find (test : nat -> mp_context_node_t -> bool) : M mp nat :=
  s ← mget; mlift (find_node next (size (ctxs s)) (ctxs s) test (mp_context_head s)).

Definition mp_context_by_tid (tID : Z) : M mp nat := context_find (fun _ c => id c =? tID).
Definition mp_context_predecessor (successor : nat) : M mp nat :=
  context_find (fun _ c => (next c =? successor)%nat).
Definition mp_context_tail : M mp nat := mp_context_predecessor 0.

Definition mp_new_state : M mp nat :=
  p ← malloc; if (p =? 0)%nat then mret 0%nat else mmodify (with_states <[p := zero_state]>);; mret p.
Definition mp_new_context_node : M mp nat :=
  p ← malloc; if (p =? 0)%nat then mret 0%nat else mmodify (with_ctxs <[p := zero_context]>);; mret p.

Definition mp_context_append (node : nat) : M mp unit :=
  if (node =? 0)%nat then mret tt
  else
    tail ← mp_context_tail;
    if (tail =? 0)%nat then mret tt
    else ctx_update tail (next_set node);; ctx_update node (next_set 0).

Definition mp_context_append_new : M mp nat :=
  node ← mp_new_context_node;
  if (node =? 0)%nat then mret 0%nat
  else
    st ← mp_new_state;
    if (st =? 0)%nat then free_ctx node;; mret 0%nat
    else ctx_update node (state_set st);; mp_context_append node;; mret node.

(** *** Dynamic memory of a context *)

Definition dynmem_find (context : nat) (test : nat -> mp_context_dynmem_node_t -> bool) : M mp nat :=
  c ← ctx context; s ← mget; mlift (find_node dnext (size (dyns s)) (dyns s) test (memhead c)).

Definition mp_new_dynmem_node : M mp nat :=
  p ← malloc; if (p =? 0)%nat then mret 0%nat else mmodify (with_dyns <[p := zero_dynmem]>);; mret p.

Definition mp_dynmem_predecessor (successor context : nat) : M mp nat :=
  if (context =? 0)%nat then mret 0%nat else dynmem_find context (fun _ d => (dnext d =? successor)%nat).
Definition mp_dynmem_tail (context : nat) : M mp nat := mp_dynmem_predecessor 0 context.

Definition mp_dynmem_append (node context : nat) : M mp unit :=
  if (node =? 0)%nat then mret tt
  else if (context =? 0)%nat then mret tt
  else
    d ← dyn node;
    if negb (dcontext d =? 0)%nat then mret tt
    else
      dyn_update node (dnext_set 0);;
      c ← ctx context;
      if (memhead c =? 0)%nat then
        ctx_update context (memhead_set node);; dyn_update node (dcontext_set context)
      else
        tail ← mp_dynmem_tail context;
        if (tail =? 0)%nat then mret tt
        else dyn_update tail (dnext_set node);; dyn_update node (dcontext_set context).

(** Free the memory of an unlinked node, and the node. *)
Definition dynmem_release (node : nat) : M mp unit :=
  d ← dyn node;
  (if negb (dmem d =? 0)%nat then free_block (dmem d) else mret tt);;
  free_dyn node.

Definition mp_dynmem_remove (node context : nat) : M mp unit :=
  if (node =? 0)%nat then mret tt
  else if (context =? 0)%nat then mret tt
  else
    c ← ctx context;
    if (memhead c =? node)%nat then
      d ← dyn node; ctx_update context (memhead_set (dnext d));; dynmem_release node
    else
      predecessor ← mp_dynmem_predecessor node context;
      if (predecessor =? 0)%nat then mret tt
      else d ← dyn node; dyn_update predecessor (dnext_set (dnext d));; dynmem_release node.

Definition mp_dynmem_node_by_mem (mem context : nat) : M mp nat :=
  if (mem =? 0)%nat then mret 0%nat
  else if (context =? 0)%nat then mret 0%nat
  else dynmem_find context (fun _ d => (dmem d =? mem)%nat).

Definition mp_context_dynmem_alloc (size : Z) (context : nat) : M mp nat :=
  if (context =? 0)%nat then mret 0%nat
  else
    node ← mp_new_dynmem_node;
    if (node =? 0)%nat then mret 0%nat
    else
      mem ← malloc;
      if (mem =? 0)%nat then free_dyn node;; mret 0%nat
      else
        mmodify (with_blocks <[mem := size]>);;
        dyn_update node (fun d => MkDynmem (dcontext d) mem size 0);;
        mp_dynmem_append node context;; mret mem.

Definition mp_context_dynmem_free (mem context : nat) : M mp Z :=
  if (context =? 0)%nat then mret (-1)
  else
    node ← mp_dynmem_node_by_mem mem context;
    if (node =? 0)%nat then mret (-1)
    else
      d ← dyn node;
      if negb (dmem d =? mem)%nat then mret (-1)
      else mp_dynmem_remove node context;; mret 0.

Fixpoint dynmem_free_loop (fuel : nat) (context : nat) : M mp unit :=
  c ← ctx context;
  if (memhead c =? 0)%nat then mret tt
  else match fuel with
  | O => mabort
  | S fuel => mp_dynmem_remove (memhead c) context;; dynmem_free_loop fuel context
  end.

(** The loop frees a node per turn, so it ends within the number of nodes. *)
Definition mp_context_dynmem_free_all (context : nat) : M mp Z :=
  if (context =? 0)%nat then mret (-1)
  else
    c ← ctx context;
    if (memhead c =? 0)%nat then mret (-1)
    else s ← mget; dynmem_free_loop (size (dyns s)) context;; mret 0.

(** *** Removal of contexts; tasks *)

Definition mp_context_remove (node : nat) : M mp unit :=
  predecessor ← mp_context_predecessor node;
  if (predecessor =? 0)%nat then mret tt
  else
    c ← ctx node;
    ctx_update predecessor (next_set (next c));;
    mp_context_dynmem_free_all node;;
    c ← ctx node; free_state (state c);;
    free_ctx node.

Definition mp_task_register (tID : Z) (addtlargs : nat) : M mp nat :=
  node ← mp_context_by_tid tID;
  if negb (node =? 0)%nat then mret 0%nat
  else
    node ← mp_context_append_new;
    if (node =? 0)%nat then mret 0%nat
    else
      ctx_update node (fun c => status_set 0 (args_set (MkArgs 0 0 (suspend (args c)) addtlargs) (id_set tID c)));;
      mret node.

Definition mp_task_remove (tID : Z) : M mp unit :=
  node ← mp_context_by_tid tID;
  s ← mget;
  if (node =? mp_context_head s)%nat then mret tt
  else if (node =? 0)%nat then mret tt
  else mp_context_remove node.

Definition mp_task_switched_in (core : nat) (tID : Z) : M mp unit :=
  mmodify (with_tIDs <[core := tID]>);;
  node ← mp_context_by_tid tID;
  if (node =? 0)%nat then mret tt else mp_context_switch core node.

Definition mp_task_alloc (size tID : Z) : M mp nat :=
  context ← mp_context_by_tid tID;
  if (context =? 0)%nat then mret 0%nat else mp_context_dynmem_alloc size context.
Definition mp_task_free (mem : nat) (tID : Z) : M mp Z :=
  context ← mp_context_by_tid tID;
  if (context =? 0)%nat then mret (-1) else mp_context_dynmem_free mem context.
Definition mp_task_free_all (tID : Z) : M mp Z :=
  context ← mp_context_by_tid tID;
  if (context =? 0)%nat then mret (-1) else mp_context_dynmem_free_all context.

(** The initial state: the default context with its static state at addresses 1, 2. *)
Definition mp_initial : mp :=
  MkMp {[ 1%nat := state_set 2 zero_context ]} ∅ {[ 2%nat := zero_state ]} ∅ 3 [] 1 ∅ ∅ ∅ ∅.
