(* ===== verification/MpStateSpec.v ===== *)
(** The invariant of the contexts of [MpState] and what their operations do to
    the list of contexts and to the memory each context owns.

    [owned s mems]: the dynamic memory nodes of the context at [c] are exactly
    [mems c], each with a block of its own; each context has a state of its own;
    and nothing else is allocated, so an operation that keeps it leaks nothing.
    [linked s cs]: the list of contexts is [cs]. *)
From S2P Require Import Prelude LinkedList ResponseQueue MpState.

Record owned (s : mp) (mems : nat -> list nat) : Prop := {
  own_mems c n : ctxs s !! c = Some n -> chain dnext (dyns s) (memhead n) (mems c);
  own_back c n d dn : ctxs s !! c = Some n -> d ∈ mems c -> dyns s !! d = Some dn -> dcontext dn = c;
  own_state c n : ctxs s !! c = Some n -> state n <> 0%nat /\ is_Some (states s !! state n);
  own_dyn d dn : dyns s !! d = Some dn ->
    is_Some (ctxs s !! dcontext dn) /\ d ∈ mems (dcontext dn)
    /\ dmem dn <> 0%nat /\ blocks s !! dmem dn = Some (dsize dn);
  own_inj d1 d2 n1 n2 : dyns s !! d1 = Some n1 -> dyns s !! d2 = Some n2 -> dmem n1 = dmem n2 -> d1 = d2;
  own_state_inj c1 c2 n1 n2 : ctxs s !! c1 = Some n1 -> ctxs s !! c2 = Some n2 -> state n1 = state n2 -> c1 = c2;
  own_block b z : blocks s !! b = Some z -> exists d dn, dyns s !! d = Some dn /\ dmem dn = b;
  own_states p v : states s !! p = Some v -> exists c n, ctxs s !! c = Some n /\ state n = p;
  own_fresh p : (brk s <= p)%nat \/ p = 0%nat ->
    ctxs s !! p = None /\ dyns s !! p = None /\ blocks s !! p = None /\ states s !! p = None;
  own_brk : brk s <> 0%nat }.

Record linked (s : mp) (cs : list nat) : Prop := {
  lk_head : mp_context_head s <> 0%nat;
  lk_chain : chain next (ctxs s) (mp_context_head s) cs }.

(** Every context is in the list. *)
Definition all_linked (s : mp) (cs : list nat) : Prop := forall c n, ctxs s !! c = Some n -> c ∈ cs.

Record mp_ok (s : mp) (cs : list nat) (mems : nat -> list nat) : Prop := {
  ok_owned : owned s mems;
  ok_linked : linked s cs;
  ok_all : all_linked s cs }.

(** ** Running the primitives *)

Lemma ctx_run s p c : ctxs s !! p = Some c -> ctx p s = Some (c, s).
Proof. intros H. unfold ctx, mget, mlift, mbind, M_bind. by rewrite H. Qed.

Lemma dyn_run s p c : dyns s !! p = Some c -> dyn p s = Some (c, s).
Proof. intros H. unfold dyn, mget, mlift, mbind, M_bind. by rewrite H. Qed.

Lemma ctx_update_run s p c f : ctxs s !! p = Some c -> ctx_update p f s = Some (tt, with_ctxs <[p := f c]> s).
Proof. intros H. unfold ctx_update. by rewrite (M_bind_Some _ _ _ _ _ (ctx_run _ _ _ H)). Qed.

Lemma dyn_update_run s p c f : dyns s !! p = Some c -> dyn_update p f s = Some (tt, with_dyns <[p := f c]> s).
Proof. intros H. unfold dyn_update. by rewrite (M_bind_Some _ _ _ _ _ (dyn_run _ _ _ H)). Qed.

Lemma free_dyn_run s p c : p <> 0%nat -> dyns s !! p = Some c -> free_dyn p s = Some (tt, with_dyns (delete p) s).
Proof.
  intros Hp H. unfold free_dyn. destruct (Nat.eqb_spec p 0); [done|].
  by rewrite (M_bind_Some _ _ _ _ _ (dyn_run _ _ _ H)).
Qed.

Lemma free_ctx_run s p c : p <> 0%nat -> ctxs s !! p = Some c -> free_ctx p s = Some (tt, with_ctxs (delete p) s).
Proof.
  intros Hp H. unfold free_ctx. destruct (Nat.eqb_spec p 0); [done|].
  by rewrite (M_bind_Some _ _ _ _ _ (ctx_run _ _ _ H)).
Qed.

Lemma free_block_run s p z : p <> 0%nat -> blocks s !! p = Some z -> free_block p s = Some (tt, with_blocks (delete p) s).
Proof.
  intros Hp H. unfold free_block. destruct (Nat.eqb_spec p 0); [done|].
  unfold mget, mlift, mbind, M_bind. by rewrite H.
Qed.

Lemma free_state_run s p z : p <> 0%nat -> states s !! p = Some z -> free_state p s = Some (tt, with_states (delete p) s).
Proof.
  intros Hp H. unfold free_state. destruct (Nat.eqb_spec p 0); [done|].
  unfold mget, mlift, mbind, M_bind. by rewrite H.
Qed.

Lemma context_find_run s cs test : linked s cs ->
  context_find test s = Some (first_node (ctxs s) test cs, s).
Proof.
  intros [_ Hc]. unfold context_find, mget, mlift, mbind, M_bind.
  by rewrite (find_node_spec _ _ _ _ _ _ Hc (chain_size _ _ _ _ Hc)).
Qed.

Lemma dynmem_find_run s mems c n test : owned s mems -> ctxs s !! c = Some n ->
  dynmem_find c test s = Some (first_node (dyns s) test (mems c), s).
Proof.
  intros Ho Hc. unfold dynmem_find. rewrite (M_bind_Some _ _ _ _ _ (ctx_run _ _ _ Hc)).
  pose proof (own_mems _ _ Ho c n Hc) as Hch. unfold mget, mlift, mbind, M_bind.
  by rewrite (find_node_spec _ _ _ _ _ _ Hch (chain_size _ _ _ _ Hch)).
Qed.

(** ** Dynamic memory *)

Definition mems_set (c : nat) (l : list nat) (mems : nat -> list nat) : nat -> list nat :=
  fun c' => if decide (c' = c) then l else mems c'.

Lemma mems_set_eq c l mems : mems_set c l mems c = l.
Proof. unfold mems_set. by case_decide. Qed.

Lemma mems_set_ne c l mems c' : c' <> c -> mems_set c l mems c' = mems c'.
Proof. unfold mems_set. by case_decide. Qed.

(** A node without its link. *)
Definition unlink (d : mp_context_dynmem_node_t) : mp_context_dynmem_node_t := dnext_set 0 d.

Lemma unlinked_lookup (m m' : gmap nat mp_context_dynmem_node_t) d x dn :
  unlink <$> m' = delete d (unlink <$> m) -> m' !! x = Some dn ->
  x <> d /\ exists dn', m !! x = Some dn' /\ dcontext dn' = dcontext dn /\ dmem dn' = dmem dn /\ dsize dn' = dsize dn.
Proof.
  intros E H. pose proof (f_equal (fun k => k !! x) E) as Ex. cbv beta in Ex.
  rewrite lookup_fmap, H in Ex. simpl in Ex. destruct (decide (x = d)) as [->|Hne].
  - by rewrite lookup_delete_eq in Ex.
  - split; [done|]. rewrite lookup_delete_ne, lookup_fmap in Ex by done.
    destruct (m !! x) as [dn'|]; [|done]. simpl in Ex. injection Ex as E1 E2 E3. eauto.
Qed.

Lemma unlinked_lookup_back (m m' : gmap nat mp_context_dynmem_node_t) d x dn :
  unlink <$> m' = delete d (unlink <$> m) -> m !! x = Some dn -> x <> d ->
  exists dn', m' !! x = Some dn' /\ dcontext dn' = dcontext dn /\ dmem dn' = dmem dn /\ dsize dn' = dsize dn.
Proof.
  intros E H Hne. pose proof (f_equal (fun k => k !! x) E) as Ex. cbv beta in Ex.
  rewrite lookup_delete_ne, !lookup_fmap, H in Ex by done. simpl in Ex.
  destruct (m' !! x) as [dn'|]; [|done]. simpl in Ex. injection Ex as E1 E2 E3. eauto.
Qed.

(** The invariant once a node is out of its context's list, and freed. *)
Lemma owned_remove s mems c n d dn h m' l :
  owned s mems -> ctxs s !! c = Some n -> dyns s !! d = Some dn -> d ∈ mems c ->
  unlink <$> m' = delete d (unlink <$> dyns s) ->
  chain dnext m' h l -> (forall x, x ∈ l <-> x ∈ mems c /\ x <> d) ->
  (forall c' n', c' <> c -> ctxs s !! c' = Some n' -> chain dnext m' (memhead n') (mems c')) ->
  owned (with_blocks (delete (dmem dn)) (with_dyns (fun _ => m') (with_ctxs <[c := memhead_set h n]> s)))
        (mems_set c l mems).
Proof.
  intros Ho Hc Hd Hin Hm' Hch Hl Hother. pose proof (own_back _ _ Ho c n d dn Hc Hin Hd) as Hdc.
  assert (Hctx : forall c' n', <[c := memhead_set h n]> (ctxs s) !! c' = Some n' ->
    exists n0, ctxs s !! c' = Some n0 /\ state n' = state n0).
  { intros c' n'. destruct (decide (c = c')) as [<-|Hne].
    - rewrite lookup_insert_eq. intros [= <-]. eauto.
    - rewrite lookup_insert_ne by done. eauto. }
  constructor; cbn [ctxs dyns blocks states brk with_blocks with_dyns with_ctxs].
  - intros c' n'. destruct (decide (c' = c)) as [->|Hne].
    + rewrite lookup_insert_eq, mems_set_eq. intros [= <-]. done.
    + rewrite lookup_insert_ne, mems_set_ne by done. by apply Hother.
  - intros c' n' x xn Hc' Hx Hxn. destruct (unlinked_lookup _ _ _ _ _ Hm' Hxn) as (Hxd & xn' & Hxn' & <- & _).
    destruct (decide (c' = c)) as [->|Hne].
    + rewrite mems_set_eq in Hx. apply Hl in Hx as [Hx _]. eapply own_back; eauto.
    + rewrite mems_set_ne in Hx by done. rewrite lookup_insert_ne in Hc' by done. eapply own_back; eauto.
  - intros c' n' Hc'. destruct (Hctx _ _ Hc') as (n0 & Hn0 & ->). eapply own_state; eauto.
  - intros x xn Hxn. destruct (unlinked_lookup _ _ _ _ _ Hm' Hxn) as (Hxd & xn' & Hxn' & <- & <- & <-).
    destruct (own_dyn _ _ Ho _ _ Hxn') as ([cn Hcn] & Hxin & Hx0 & Hxb). split.
    { destruct (decide (c = dcontext xn')) as [<-|Hne].
      - rewrite lookup_insert_eq. eauto.
      - rewrite lookup_insert_ne by done. eauto. }
    split.
    { destruct (decide (dcontext xn' = c)) as [E|Hne].
      - rewrite E, mems_set_eq. apply Hl. rewrite E in Hxin. done.
      - by rewrite mems_set_ne. }
    split; [done|]. rewrite lookup_delete_ne; [done|]. intros E. apply Hxd. by eapply own_inj.
  - intros d1 d2 n1 n2 H1 H2 E. destruct (unlinked_lookup _ _ _ _ _ Hm' H1) as (_ & ? & ? & _ & ? & _).
    destruct (unlinked_lookup _ _ _ _ _ Hm' H2) as (_ & ? & ? & _ & ? & _). eapply own_inj; eauto. congruence.
  - intros c1 c2 n1 n2 H1 H2 E. destruct (Hctx _ _ H1) as (? & ? & ?). destruct (Hctx _ _ H2) as (? & ? & ?).
    eapply own_state_inj; eauto. congruence.
  - intros b z. destruct (decide (dmem dn = b)) as [<-|Hne]; [by rewrite lookup_delete_eq|].
    rewrite lookup_delete_ne by done. intros Hb. destruct (own_block _ _ Ho _ _ Hb) as (x & xn & Hx & <-).
    destruct (unlinked_lookup_back _ _ d _ _ Hm' Hx) as (xn' & Hx' & _ & E & _); [congruence|]. eauto.
  - intros q v Hq. destruct (own_states _ _ Ho _ _ Hq) as (c' & n' & Hc' & <-).
    destruct (decide (c = c')) as [<-|Hne].
    + exists c, (memhead_set h n). rewrite lookup_insert_eq. simplify_eq. done.
    + exists c', n'. by rewrite lookup_insert_ne.
  - intros q Hq. destruct (own_fresh _ _ Ho _ Hq) as (H1 & H2 & H3 & H4).
    split; [rewrite lookup_insert_ne by congruence; done|]. split; [|split; [|done]].
    + destruct (m' !! q) as [xn|] eqn:E; [|done]. destruct (unlinked_lookup _ _ _ _ _ Hm' E) as (_ & ? & ? & _). congruence.
    + apply lookup_delete_None. auto.
  - apply Ho.
Qed.

(** The list of another context does not contain the node. *)
Lemma mems_disjoint s mems c n c' n' d dn :
  owned s mems -> ctxs s !! c = Some n -> ctxs s !! c' = Some n' -> c' <> c -> dyns s !! d = Some dn ->
  d ∈ mems c -> d ∉ mems c'.
Proof.
  intros Ho Hc Hc' Hne Hd Hin Hin'. apply Hne.
  rewrite <- (own_back _ _ Ho c n d dn Hc Hin Hd). symmetry. by rewrite (own_back _ _ Ho c' n' d dn Hc' Hin' Hd).
Qed.

Lemma memhead_set_id n : memhead_set (memhead n) n = n.
Proof. by destruct n. Qed.

Lemma dynmem_release_run s d dn : d <> 0%nat -> dyns s !! d = Some dn -> dmem dn <> 0%nat ->
  is_Some (blocks s !! dmem dn) ->
  dynmem_release d s = Some (tt, with_dyns (delete d) (with_blocks (delete (dmem dn)) s)).
Proof.
  intros Hd0 Hd Hm [z Hb]. unfold dynmem_release. rewrite (M_bind_Some _ _ _ _ _ (dyn_run _ _ _ Hd)).
  destruct (Nat.eqb_spec (dmem dn) 0); [done|]. cbn [negb].
  rewrite (M_bind_Some _ _ _ _ _ (free_block_run _ _ _ Hm Hb)). by eapply free_dyn_run.
Qed.

Lemma owned_nonzero s mems c n : owned s mems -> ctxs s !! c = Some n -> c <> 0%nat.
Proof. intros Ho Hc ->. destruct (own_fresh _ _ Ho 0%nat) as (? & _); [auto|congruence]. Qed.

Definition after_remove (s : mp) (c : nat) (dn : mp_context_dynmem_node_t) (n : mp_context_node_t) (h : nat)
    (m' : gmap nat mp_context_dynmem_node_t) : mp :=
  with_blocks (delete (dmem dn)) (with_dyns (fun _ => m') (with_ctxs <[c := memhead_set h n]> s)).

Lemma dynmem_remove_spec s mems c n d dn xs ys :
  owned s mems -> ctxs s !! c = Some n -> mems c = xs ++ d :: ys -> dyns s !! d = Some dn ->
  exists h m', mp_dynmem_remove d c s = Some (tt, after_remove s c dn n h m')
    /\ owned (after_remove s c dn n h m') (mems_set c (xs ++ ys) mems)
    /\ unlink <$> m' = delete d (unlink <$> dyns s).
Proof.
  intros Ho Hc Hmems Hd. pose proof (own_mems _ _ Ho c n Hc) as Hch. rewrite Hmems in Hch.
  assert (Hin : d ∈ mems c) by (rewrite Hmems; apply elem_of_app; right; left).
  destruct (chain_lookup _ _ _ _ d Hch) as [Hd0 _]; [by rewrite Hmems in Hin|].
  destruct (own_dyn _ _ Ho _ _ Hd) as (_ & _ & Hdm & Hdb).
  assert (Hc0 : c <> 0%nat) by exact (owned_nonzero _ _ _ _ Ho Hc).
  pose proof (chain_NoDup _ _ _ _ Hch) as Hnd.
  assert (Hl : forall x, x ∈ xs ++ ys <-> x ∈ mems c /\ x <> d).
  { intros x. rewrite Hmems. rewrite (list.NoDup_app xs (d :: ys)) in Hnd. destruct Hnd as (_ & Hx & Hy).
    apply list.NoDup_cons in Hy as [Hy _]. rewrite !elem_of_app, elem_of_cons. split.
    - intros [Hxx|Hyy]; [split; [auto|]|split; [auto|]].
      + intros ->. apply (Hx d Hxx). left.
      + intros ->. done.
    - tauto. }
  unfold mp_dynmem_remove. destruct (Nat.eqb_spec d 0), (Nat.eqb_spec c 0); try done.
  rewrite (M_bind_Some _ _ _ _ _ (ctx_run _ _ _ Hc)). destruct xs as [|y xs _] using rev_ind.
  - simpl in Hch. destruct Hch as (Eh & _ & dn' & Hd' & Hch). assert (dn' = dn) as -> by congruence.
    rewrite Eh, Nat.eqb_refl. rewrite (M_bind_Some _ _ _ _ _ (dyn_run _ _ _ Hd)).
    rewrite (M_bind_Some _ _ _ _ _ (ctx_update_run _ _ _ _ Hc)).
    rewrite (dynmem_release_run _ d dn) by (done || eauto).
    exists (dnext dn), (delete d (dyns s)). split; [done|]. split; [|by rewrite fmap_delete].
    apply (owned_remove s mems c n d dn _ _ _ Ho Hc Hd Hin); [by rewrite fmap_delete| |done|].
    + apply chain_delete; [done|]. simpl in Hnd. by apply list.NoDup_cons in Hnd as [? _].
    + intros c' n' Hne Hc'. apply chain_delete; [by eapply own_mems|].
      exact (mems_disjoint _ _ _ _ _ _ _ _ Ho Hc Hc' Hne Hd Hin).
  - rewrite <- app_assoc in *. cbn [app] in *.
    assert (Hhd : memhead n <> d).
    { intros E. destruct xs as [|x xs]; simpl in Hch, Hnd.
      - destruct Hch as (Ey & _). apply list.NoDup_cons in Hnd as [Hnd _]. apply Hnd. rewrite <- Ey, E. left.
      - destruct Hch as (Ey & _). apply list.NoDup_cons in Hnd as [Hnd _]. apply Hnd. rewrite <- Ey, E.
        apply elem_of_app. right. right. left. }
    destruct (Nat.eqb_spec (memhead n) d); [done|].
    assert (Hpred : mp_dynmem_predecessor d c s = Some (y, s)).
    { unfold mp_dynmem_predecessor. destruct (Nat.eqb_spec c 0); [done|].
      rewrite (dynmem_find_run _ _ _ _ _ Ho Hc), Hmems. by rewrite (predecessor_spec _ _ _ _ _ _ _ Hch). }
    rewrite (M_bind_Some _ _ _ _ _ Hpred).
    destruct (chain_lookup _ _ _ _ y Hch) as [Hy0 [yn Hyn]]; [apply elem_of_app; right; left|].
    destruct (Nat.eqb_spec y 0); [done|]. rewrite (M_bind_Some _ _ _ _ _ (dyn_run _ _ _ Hd)).
    rewrite (M_bind_Some _ _ _ _ _ (dyn_update_run _ _ _ _ Hyn)).
    assert (Hyd : y <> d).
    { intros ->. apply list.NoDup_app in Hnd as (_ & _ & Hnd). apply list.NoDup_cons in Hnd as [Hnd _]. apply Hnd. left. }
    rewrite (dynmem_release_run _ d dn); [|done|cbn [dyns with_dyns]; by rewrite lookup_insert_ne|done|eauto].
    exists (memhead n), (delete d (<[y := dnext_set (dnext dn) yn]> (dyns s))).
    assert (Es : with_dyns (delete d) (with_blocks (delete (dmem dn)) (with_dyns <[y := dnext_set (dnext dn) yn]> s))
      = after_remove s c dn n (memhead n) (delete d (<[y := dnext_set (dnext dn) yn]> (dyns s)))).
    { unfold after_remove. rewrite memhead_set_id. unfold with_ctxs at 1. by rewrite (insert_id _ _ _ Hc). }
    assert (Em : unlink <$> delete d (<[y := dnext_set (dnext dn) yn]> (dyns s)) = delete d (unlink <$> dyns s)).
    { rewrite fmap_delete, fmap_insert. f_equal. apply insert_id. by rewrite lookup_fmap, Hyn. }
    rewrite Es. split; [done|]. split; [|done].
    apply (owned_remove s mems c n d dn _ _ _ Ho Hc Hd Hin Em); [|exact Hl|].
    + apply chain_delete; [by eapply chain_unlink|].
      intros Hdin. apply Hl in Hdin as [_ ?]. done.
    + intros c' n' Hne Hc'. apply chain_delete; [|exact (mems_disjoint _ _ _ _ _ _ _ _ Ho Hc Hc' Hne Hd Hin)].
        apply chain_insert_fresh; [by eapply own_mems|]. apply (mems_disjoint _ _ _ _ _ _ _ _ Ho Hc Hc' Hne Hyn).
        rewrite Hmems. apply elem_of_app. right. left.
Qed.

(** ** Allocation *)

(** [malloc] returns [NULL], or an address that was never used. *)
Lemma malloc_run s : exists p b o, malloc s = Some (p, with_malloc b o s) /\ (brk s <= b)%nat
  /\ (p = 0%nat \/ (brk s <= p < b)%nat).
Proof.
  unfold malloc. destruct (oom s) as [|[] os].
  - exists (brk s), (S (brk s)), []. split; [done|]. lia.
  - exists 0%nat, (brk s), os. split; [done|]. lia.
  - exists (brk s), (S (brk s)), os. split; [done|]. lia.
Qed.

Lemma owned_malloc s mems b o : owned s mems -> (brk s <= b)%nat -> owned (with_malloc b o s) mems.
Proof.
  intros Ho Hb. pose proof (own_brk _ _ Ho). destruct Ho. constructor; try done.
  - intros p Hp. apply own_fresh0. cbn [brk with_malloc] in Hp. lia.
  - cbn [brk with_malloc]. lia.
Qed.

Definition after_add (s : mp) (c d mem : nat) (sz : Z) (n : mp_context_node_t) (h : nat)
    (m' : gmap nat mp_context_dynmem_node_t) (b : nat) (o : list bool) : mp :=
  with_malloc b o (with_blocks <[mem := sz]> (with_dyns (fun _ => m') (with_ctxs <[c := memhead_set h n]> s))).

Lemma unlinked_add_lookup (m m' : gmap nat mp_context_dynmem_node_t) d v x dn :
  unlink <$> m' = <[d := v]> (unlink <$> m) -> m' !! x = Some dn ->
  (x = d /\ unlink dn = v) \/ (x <> d /\ exists dn', m !! x = Some dn' /\ unlink dn = unlink dn').
Proof.
  intros E H. pose proof (f_equal (fun k => k !! x) E) as Ex. cbv beta in Ex.
  rewrite lookup_fmap, H in Ex. simpl in Ex. destruct (decide (x = d)) as [->|Hne].
  - rewrite lookup_insert_eq in Ex. left. by apply (inj Some) in Ex.
  - right. split; [done|]. rewrite lookup_insert_ne, lookup_fmap in Ex by done.
    destruct (m !! x) as [dn'|]; [|done]. exists dn'. split; [done|]. by apply (inj Some) in Ex.
Qed.

(** The invariant once a new node with a new block is in the list of a context. *)
Lemma owned_add s mems c n d mem sz h m' l b o :
  owned s mems -> ctxs s !! c = Some n -> (brk s <= d < b)%nat -> (brk s <= mem < b)%nat ->
  unlink <$> m' = <[d := MkDynmem c mem sz 0]> (unlink <$> dyns s) ->
  chain dnext m' h l -> (forall x, x ∈ l <-> x ∈ mems c \/ x = d) ->
  (forall c' n', c' <> c -> ctxs s !! c' = Some n' -> chain dnext m' (memhead n') (mems c')) ->
  owned (after_add s c d mem sz n h m' b o) (mems_set c l mems).
Proof.
  intros Ho Hc Hd Hmem Hm' Hch Hl Hother.
  assert (Hfr : dyns s !! d = None) by (apply (own_fresh _ _ Ho); lia).
  assert (Hfb : blocks s !! mem = None) by (apply (own_fresh _ _ Ho); lia).
  assert (Hdmem : forall x xn, dyns s !! x = Some xn -> dmem xn <> mem).
  { intros x xn Hx E. destruct (own_dyn _ _ Ho _ _ Hx) as (_ & _ & _ & ?). congruence. }
  assert (Hctx : forall c' n', <[c := memhead_set h n]> (ctxs s) !! c' = Some n' ->
    exists n0, ctxs s !! c' = Some n0 /\ state n' = state n0).
  { intros c' n'. destruct (decide (c = c')) as [<-|Hne].
    - rewrite lookup_insert_eq. intros [= <-]. eauto.
    - rewrite lookup_insert_ne by done. eauto. }
  assert (Hcs : forall c', is_Some (ctxs s !! c') -> is_Some (<[c := memhead_set h n]> (ctxs s) !! c')).
  { intros c' [? ?]. destruct (decide (c = c')) as [<-|Hne].
    - rewrite lookup_insert_eq. eauto.
    - rewrite lookup_insert_ne by done. eauto. }
  assert (Hfresh_mems : forall c' n', ctxs s !! c' = Some n' -> d ∉ mems c').
  { intros c' n' Hc' Hin. destruct (chain_lookup _ _ _ _ d (own_mems _ _ Ho _ _ Hc') Hin) as (_ & ? & ?). congruence. }
  constructor; unfold after_add; cbn [ctxs dyns blocks states brk with_blocks with_dyns with_ctxs with_malloc].
  - intros c' n'. destruct (decide (c' = c)) as [->|Hne].
    + rewrite lookup_insert_eq, mems_set_eq. intros [= <-]. done.
    + rewrite lookup_insert_ne, mems_set_ne by done. by apply Hother.
  - intros c' n' x xn Hc' Hx Hxn. destruct (Hctx _ _ Hc') as (n0 & Hn0 & _).
    destruct (unlinked_add_lookup _ _ _ _ _ _ Hm' Hxn) as [[-> E]|(Hxd & xn' & Hxn' & E)]; injection E as -> _ _.
    + destruct (decide (c' = c)) as [->|Hne]; [done|]. rewrite mems_set_ne in Hx by done.
      exfalso. by eapply Hfresh_mems.
    + destruct (decide (c' = c)) as [->|Hne].
      * rewrite mems_set_eq in Hx. apply Hl in Hx as [Hx| ->]; [eapply own_back; eauto|congruence].
      * rewrite mems_set_ne in Hx by done. eapply own_back; eauto.
  - intros c' n' Hc'. destruct (Hctx _ _ Hc') as (n0 & Hn0 & ->). eapply own_state; eauto.
  - intros x xn Hxn. destruct (unlinked_add_lookup _ _ _ _ _ _ Hm' Hxn) as [[-> E]|(Hxd & xn' & Hxn' & E)];
      injection E as -> -> ->.
    + split; [apply Hcs; eauto|]. rewrite mems_set_eq. split; [apply Hl; auto|].
      pose proof (own_brk _ _ Ho). split; [lia|]. apply lookup_insert_eq.
    + destruct (own_dyn _ _ Ho _ _ Hxn') as (Hcn & Hxin & Hx0 & Hxb). split; [auto|]. split.
      { destruct (decide (dcontext xn' = c)) as [E|Hne].
        - rewrite E, mems_set_eq. apply Hl. rewrite E in Hxin. auto.
        - by rewrite mems_set_ne. }
      split; [done|]. rewrite lookup_insert_ne; [done|]. intros E. by apply (Hdmem _ _ Hxn').
  - intros d1 d2 n1 n2 H1 H2 E.
    destruct (unlinked_add_lookup _ _ _ _ _ _ Hm' H1) as [[-> E1]|(Hd1 & x1 & Hx1 & E1)];
    destruct (unlinked_add_lookup _ _ _ _ _ _ Hm' H2) as [[-> E2]|(Hd2 & x2 & Hx2 & E2)];
      injection E1 as _ E1 _; injection E2 as _ E2 _; rewrite E1, E2 in E.
    + done.
    + exfalso. by apply (Hdmem _ _ Hx2).
    + exfalso. by apply (Hdmem _ _ Hx1).
    + eapply own_inj; eauto.
  - intros c1 c2 n1 n2 H1 H2 E. destruct (Hctx _ _ H1) as (? & ? & ?). destruct (Hctx _ _ H2) as (? & ? & ?).
    eapply own_state_inj; eauto. congruence.
  - intros q z. destruct (decide (mem = q)) as [<-|Hne].
    + intros _. pose proof (f_equal (fun k => k !! d) Hm') as Ex. cbv beta in Ex.
      rewrite lookup_fmap, lookup_insert_eq in Ex. destruct (m' !! d) as [dn|] eqn:Ed; [|done].
      injection Ex as _ Ex _. eauto.
    + rewrite lookup_insert_ne by done. intros Hb. destruct (own_block _ _ Ho _ _ Hb) as (x & xn & Hx & <-).
      pose proof (f_equal (fun k => k !! x) Hm') as Ex. cbv beta in Ex.
      rewrite lookup_insert_ne, !lookup_fmap, Hx in Ex by congruence.
      destruct (m' !! x) as [dn|] eqn:Ed; [|done]. injection Ex as _ Ex _. eauto.
  - intros q v Hq. destruct (own_states _ _ Ho _ _ Hq) as (c' & n' & Hc' & <-).
    destruct (decide (c = c')) as [<-|Hne].
    + exists c, (memhead_set h n). rewrite lookup_insert_eq. simplify_eq. done.
    + exists c', n'. by rewrite lookup_insert_ne.
  - intros q Hq. pose proof (own_brk _ _ Ho). destruct (own_fresh _ _ Ho q) as (H1 & H2 & H3 & H4); [lia|].
    split; [rewrite lookup_insert_ne by congruence; done|]. split; [|split; [|done]].
    + destruct (m' !! q) as [xn|] eqn:E; [|done].
      destruct (unlinked_add_lookup _ _ _ _ _ _ Hm' E) as [[-> _]|(_ & ? & ? & _)]; [lia|congruence].
    + rewrite lookup_insert_ne by lia. done.
  - pose proof (own_brk _ _ Ho). lia.
Qed.

Lemma mp_dynmem_tail_run s mems c n xs t : owned s mems -> c <> 0%nat -> ctxs s !! c = Some n -> mems c = xs ++ [t] ->
  mp_dynmem_tail c s = Some (t, s).
Proof.
  intros Ho Hc0 Hc Hm. unfold mp_dynmem_tail, mp_dynmem_predecessor. destruct (Nat.eqb_spec c 0); [done|].
  rewrite (dynmem_find_run _ _ _ _ _ Ho Hc), Hm. pose proof (own_mems _ _ Ho _ _ Hc) as Hch. rewrite Hm in Hch.
  by rewrite (tail_spec _ _ _ _ _ Hch).
Qed.

(** A node that is in no list does not matter to the invariant's lists, only to [dynmem_find]'s fuel. *)
Lemma dynmem_find_extra s c n d dn b o bl l test :
  chain dnext (dyns s) (memhead n) l -> d ∉ l -> ctxs s !! c = Some n ->
  let s' := with_dyns <[d := dn]> (with_blocks bl (with_malloc b o s)) in
  dynmem_find c test s' = Some (first_node (<[d := dn]> (dyns s)) test l, s').
Proof.
  intros Hch Hd Hc s'. unfold dynmem_find. assert (Hc' : ctxs s' !! c = Some n) by done.
  rewrite (M_bind_Some _ _ _ _ _ (ctx_run _ _ _ Hc')). pose proof (chain_insert_fresh _ _ _ _ d dn Hch Hd) as Hch'.
  unfold mget, mlift, mbind, M_bind. unfold s'. cbn [dyns with_dyns with_blocks with_malloc].
  by rewrite (find_node_spec _ _ _ _ _ _ Hch' (chain_size _ _ _ _ Hch')).
Qed.

Lemma dynmem_append_spec s mems c n d mem sz b o :
  owned s mems -> ctxs s !! c = Some n -> (brk s <= d < b)%nat -> (brk s <= mem < b)%nat ->
  exists h m', mp_dynmem_append d c
      (with_dyns <[d := MkDynmem 0 mem sz 0]> (with_blocks <[mem := sz]> (with_malloc b o s)))
      = Some (tt, after_add s c d mem sz n h m' b o)
    /\ owned (after_add s c d mem sz n h m' b o) (mems_set c (mems c ++ [d]) mems)
    /\ unlink <$> m' = <[d := MkDynmem c mem sz 0]> (unlink <$> dyns s).
Proof.
  intros Ho Hc Hd Hmem. pose proof (own_brk _ _ Ho).
  set (s1 := with_dyns _ _). set (dn0 := MkDynmem 0 mem sz 0).
  assert (Hc0 : c <> 0%nat) by exact (owned_nonzero _ _ _ _ Ho Hc).
  assert (Hfr : dyns s !! d = None) by (apply (own_fresh _ _ Ho); lia).
  assert (Hfm : forall c' n', ctxs s !! c' = Some n' -> d ∉ mems c').
  { intros c' n' Hc' Hin. destruct (chain_lookup _ _ _ _ d (own_mems _ _ Ho _ _ Hc') Hin) as (_ & ? & ?). congruence. }
  assert (Hd1 : dyns s1 !! d = Some dn0) by (apply lookup_insert_eq).
  assert (Hd0 : d <> 0%nat) by lia. unfold mp_dynmem_append. destruct (Nat.eqb_spec d 0), (Nat.eqb_spec c 0); try done.
  rewrite (M_bind_Some _ _ _ _ _ (dyn_run _ _ _ Hd1)). cbn [dcontext dn0 Nat.eqb negb].
  rewrite (M_bind_Some _ _ _ _ _ (dyn_update_run _ _ _ _ Hd1)).
  assert (E2 : with_dyns <[d := dnext_set 0 dn0]> s1 = s1).
  { unfold s1, with_dyns. cbn. by rewrite insert_insert_eq. }
  rewrite E2. assert (Hc1 : ctxs s1 !! c = Some n) by done.
  rewrite (M_bind_Some _ _ _ _ _ (ctx_run _ _ _ Hc1)).
  destruct (Nat.eqb_spec (memhead n) 0) as [E0|Hne].
  - assert (Em : mems c = []).
    { pose proof (own_mems _ _ Ho _ _ Hc) as Hch. rewrite E0 in Hch. destruct (mems c); [done|].
      destruct Hch as (? & ? & _). congruence. }
    rewrite (M_bind_Some _ _ _ _ _ (ctx_update_run _ _ _ _ Hc1)).
    erewrite dyn_update_run by exact Hd1. exists d, (<[d := MkDynmem c mem sz 0]> (dyns s)). split.
    { unfold after_add, s1, with_dyns, with_ctxs, with_blocks, with_malloc. cbn. by rewrite insert_insert_eq. }
    assert (Eu : unlink <$> <[d := MkDynmem c mem sz 0]> (dyns s) = <[d := MkDynmem c mem sz 0]> (unlink <$> dyns s))
      by by rewrite fmap_insert.
    split; [|done]. eapply owned_add; eauto; rewrite ?Em.
    + simpl. split; [done|]. split; [lia|]. exists (MkDynmem c mem sz 0). by rewrite lookup_insert_eq.
    + intros x. cbn [app]. rewrite list_elem_of_singleton. split; [auto|intros [?%elem_of_nil|]; done].
    + intros c' n' _ Hc'. apply chain_insert_fresh; [by eapply own_mems|eauto].
  - destruct (mems c) as [|t xs _] eqn:Em using rev_ind.
    { pose proof (own_mems _ _ Ho _ _ Hc) as Hch. rewrite Em in Hch. done. }
    pose proof (own_mems _ _ Ho _ _ Hc) as Hch. rewrite Em in Hch.
    assert (Hnin : d ∉ xs ++ [t]) by (rewrite <- Em; eauto).
    assert (Htail : mp_dynmem_tail c s1 = Some (t, s1)).
    { unfold mp_dynmem_tail, mp_dynmem_predecessor. destruct (Nat.eqb_spec c 0); [done|].
      unfold s1. rewrite (dynmem_find_extra s c n d _ _ _ _ (xs ++ [t])) by done.
      pose proof (chain_insert_fresh _ _ _ _ d (MkDynmem 0 mem sz 0) Hch Hnin) as Hch'. by rewrite (tail_spec _ _ _ _ _ Hch'). }
    rewrite (M_bind_Some _ _ _ _ _ Htail).
    destruct (chain_lookup _ _ _ _ t Hch) as [Ht0 [tn Htn]]; [apply elem_of_app; right; left|].
    assert (Htd : t <> d) by congruence.
    destruct (Nat.eqb_spec t 0); [done|].
    assert (Ht1 : dyns s1 !! t = Some tn) by (unfold s1; cbn [dyns with_dyns]; by rewrite lookup_insert_ne).
    rewrite (M_bind_Some _ _ _ _ _ (dyn_update_run _ _ _ _ Ht1)).
    erewrite dyn_update_run; [|cbn [dyns with_dyns]; rewrite lookup_insert_ne by done; exact Hd1].
    exists (memhead n), (<[d := MkDynmem c mem sz 0]> (<[t := dnext_set d tn]> (<[d := dn0]> (dyns s)))). split.
    { unfold after_add. rewrite memhead_set_id. unfold with_ctxs. by rewrite (insert_id _ _ _ Hc). }
    set (m' := <[d := MkDynmem c mem sz 0]> (<[t := dnext_set d tn]> (<[d := dn0]> (dyns s)))).
    assert (Eu : unlink <$> m' = <[d := MkDynmem c mem sz 0]> (unlink <$> dyns s)).
    { unfold m'. rewrite !fmap_insert. cbn [unlink dnext_set dn0 dcontext dmem dsize].
      rewrite insert_insert_ne, (insert_insert_eq (unlink <$> dyns s)) by done. rewrite insert_insert_ne by done. f_equal.
      rewrite insert_id; [done|]. by rewrite lookup_fmap, Htn. }
    split; [|done]. unfold m' in *. eapply owned_add; eauto; rewrite ?Em.
    + apply (chain_insert_link _ _ _ _ _ _ dn0); [|by rewrite lookup_insert_ne, lookup_insert_eq by done|done].
      rewrite <- app_assoc. apply (chain_snoc _ _ _ _ _ _ dn0); [by apply chain_insert_fresh|apply lookup_insert_eq|done|lia|done|done].
    + intros x. by rewrite (elem_of_app (xs ++ [t])), list_elem_of_singleton.
    + intros c' n' Hcc Hc'. apply chain_insert_fresh; [|eauto]. apply chain_insert_fresh; [apply chain_insert_fresh|].
      * by eapply own_mems.
      * eauto.
      * apply (mems_disjoint _ _ _ _ _ _ _ _ Ho Hc Hc' Hcc Htn). rewrite Em. apply elem_of_app. right. left.
Qed.

Lemma dynmem_alloc_spec s mems c n sz :
  owned s mems -> ctxs s !! c = Some n ->
  exists r s' b o, mp_context_dynmem_alloc sz c s = Some (r, s') /\ (brk s <= b)%nat
    /\ ((r = 0%nat /\ s' = with_malloc b o s)
        \/ (brk s <= r < b)%nat /\ exists d h m', (brk s <= d < b)%nat /\ s' = after_add s c d r sz n h m' b o
             /\ owned s' (mems_set c (mems c ++ [d]) mems)
             /\ unlink <$> m' = <[d := MkDynmem c r sz 0]> (unlink <$> dyns s)).
Proof.
  intros Ho Hc. pose proof (owned_nonzero _ _ _ _ Ho Hc) as Hc0. pose proof (own_brk _ _ Ho) as Hb0.
  unfold mp_context_dynmem_alloc, mp_new_dynmem_node. destruct (Nat.eqb_spec c 0); [done|].
  destruct (malloc_run s) as (d & b & o & Em & Hb & Hd). rewrite M_bind_assoc, (M_bind_Some _ _ _ _ _ Em).
  destruct Hd as [-> | Hd].
  { exists 0%nat, (with_malloc b o s), b, o. auto. }
  assert (Hd0 : d <> 0%nat) by lia. destruct (Nat.eqb_spec d 0); [done|]. rewrite M_bind_assoc.
  rewrite (M_bind_Some _ _ (with_malloc b o s) tt (with_dyns <[d := zero_dynmem]> (with_malloc b o s))) by done.
  rewrite (M_bind_Some (mret d) _ _ d _) by reflexivity. destruct (Nat.eqb_spec d 0); [done|].
  destruct (malloc_run (with_dyns <[d := zero_dynmem]> (with_malloc b o s))) as (mem & b' & o' & Em' & Hb' & Hmem).
  cbn [brk with_dyns with_malloc] in Hb', Hmem. rewrite (M_bind_Some _ _ _ _ _ Em').
  assert (Hfr : dyns s !! d = None) by (apply (own_fresh _ _ Ho); lia).
  destruct Hmem as [-> | Hmem].
  - cbn [Nat.eqb]. erewrite M_bind_Some; [|eapply free_dyn_run; [done|apply lookup_insert_eq]].
    exists 0%nat, (with_malloc b' o' s), b', o'. split; [|split; [lia|auto]].
    unfold mret, with_dyns, with_malloc. cbn. by rewrite delete_insert_id.
  - assert (Hm0 : mem <> 0%nat) by lia. destruct (Nat.eqb_spec mem 0); [done|].
    set (s2 := with_malloc b' o' _) in *.
    rewrite (M_bind_Some _ _ s2 tt (with_blocks <[mem := sz]> s2)) by done.
    assert (Hd2 : dyns (with_blocks <[mem := sz]> s2) !! d = Some zero_dynmem) by apply lookup_insert_eq.
    rewrite (M_bind_Some _ _ _ _ _ (dyn_update_run _ _ _ _ Hd2)).
    destruct (dynmem_append_spec s mems c n d mem sz b' o' Ho Hc) as (h & m' & Happ & Ho' & Eu); [lia|lia|].
    assert (E3 : with_dyns <[d := MkDynmem (dcontext zero_dynmem) mem sz 0]> (with_blocks <[mem := sz]> s2)
      = with_dyns <[d := MkDynmem 0 mem sz 0]> (with_blocks <[mem := sz]> (with_malloc b' o' s))).
    { unfold s2, with_dyns, with_blocks, with_malloc. cbn. by rewrite insert_insert_eq. }
    rewrite E3, (M_bind_Some _ _ _ _ _ Happ). exists mem. eexists _, b', o'. split; [done|]. split; [lia|]. right.
    split; [lia|]. exists d, h, m'. split; [lia|]. done.
Qed.

(** The node of a block. *)
Lemma node_by_mem_run s mems c n mem : owned s mems -> c <> 0%nat -> mem <> 0%nat -> ctxs s !! c = Some n ->
  mp_dynmem_node_by_mem mem c s = Some (first_node (dyns s) (fun _ d => dmem d =? mem)%nat (mems c), s).
Proof.
  intros Ho Hc0 Hm Hc. unfold mp_dynmem_node_by_mem. destruct (Nat.eqb_spec mem 0), (Nat.eqb_spec c 0); try done.
  exact (dynmem_find_run _ _ _ _ _ Ho Hc).
Qed.

Lemma dynmem_free_spec s mems c n d dn xs ys :
  owned s mems -> ctxs s !! c = Some n -> mems c = xs ++ d :: ys -> dyns s !! d = Some dn ->
  exists h m', mp_context_dynmem_free (dmem dn) c s = Some (0, after_remove s c dn n h m')
    /\ owned (after_remove s c dn n h m') (mems_set c (xs ++ ys) mems)
    /\ unlink <$> m' = delete d (unlink <$> dyns s).
Proof.
  intros Ho Hc Hmems Hd. pose proof (owned_nonzero _ _ _ _ Ho Hc) as Hc0.
  destruct (own_dyn _ _ Ho _ _ Hd) as (_ & _ & Hm0 & _).
  unfold mp_context_dynmem_free. destruct (Nat.eqb_spec c 0); [done|].
  rewrite (M_bind_Some _ _ _ _ _ (node_by_mem_run _ _ _ _ _ Ho Hc0 Hm0 Hc)).
  assert (Ef : first_node (dyns s) (fun _ d => dmem d =? dmem dn)%nat (mems c) = d).
  { rewrite Hmems. eapply first_node_found; [|exact Hd|apply Nat.eqb_refl].
    intros y yn Hy Hyn. apply Nat.eqb_neq. intros E. assert (y = d) as -> by (eapply own_inj; eauto).
    pose proof (chain_NoDup _ _ _ _ (own_mems _ _ Ho _ _ Hc)) as Hnd. rewrite Hmems in Hnd.
    apply list.NoDup_app in Hnd as (_ & Hnd & _). apply (Hnd d Hy). left. }
  rewrite Ef. destruct (chain_lookup _ _ _ _ d (own_mems _ _ Ho _ _ Hc)) as [Hd0 _].
  { rewrite Hmems. apply elem_of_app. right. left. }
  destruct (Nat.eqb_spec d 0); [done|]. rewrite (M_bind_Some _ _ _ _ _ (dyn_run _ _ _ Hd)), Nat.eqb_refl. cbn [negb].
  destruct (dynmem_remove_spec s mems c n d dn xs ys Ho Hc Hmems Hd) as (h & m' & Hr & Ho' & Em).
  rewrite (M_bind_Some _ _ _ _ _ Hr). eauto.
Qed.

(** [mem] is not a block of the context: nothing is freed. *)
Lemma dynmem_free_unknown s mems c n mem :
  owned s mems -> ctxs s !! c = Some n -> (forall d dn, d ∈ mems c -> dyns s !! d = Some dn -> dmem dn <> mem) ->
  mp_context_dynmem_free mem c s = Some (-1, s).
Proof.
  intros Ho Hc Hno. pose proof (owned_nonzero _ _ _ _ Ho Hc) as Hc0.
  unfold mp_context_dynmem_free. destruct (Nat.eqb_spec c 0); [done|].
  destruct (decide (mem = 0%nat)) as [->|Hm0].
  { unfold mp_dynmem_node_by_mem. done. }
  rewrite (M_bind_Some _ _ _ _ _ (node_by_mem_run _ _ _ _ _ Ho Hc0 Hm0 Hc)), first_node_none; [done|].
  intros x a Hx Ha. apply Nat.eqb_neq. eauto.
Qed.

(** ** Freeing all memory of a context *)

Lemma owned_ext s mems mems' : (forall c, mems c = mems' c) -> owned s mems -> owned s mems'.
Proof.
  intros E []. constructor; try done.
  - intros c n Hc. rewrite <- E. eauto.
  - intros c n d dn Hc. rewrite <- E. eauto.
  - intros d dn Hd. rewrite <- E. eauto.
Qed.

(** The blocks of the nodes [l]. *)
Definition blocks_of (s : mp) (l : list nat) : list nat := omap (fun d => dmem <$> dyns s !! d) l.

Lemma blocks_of_cons s d l : blocks_of s (d :: l) = match dmem <$> dyns s !! d with Some b => b :: blocks_of s l | None => blocks_of s l end.
Proof. done. Qed.

Lemma blocks_of_ext s s' l :
  (forall x, x ∈ l -> dmem <$> dyns s !! x = dmem <$> dyns s' !! x) -> blocks_of s l = blocks_of s' l.
Proof.
  induction l as [|x l IH]; intros H; [done|]. rewrite !blocks_of_cons, (H x) by left.
  rewrite IH; [done|]. intros y Hy. apply H. by right.
Qed.

Definition after_free (s : mp) (c : nat) (n : mp_context_node_t) (bl : gmap nat Z)
    (m' : gmap nat mp_context_dynmem_node_t) : mp :=
  with_blocks (fun _ => bl) (with_dyns (fun _ => m') (with_ctxs <[c := memhead_set 0 n]> s)).

(** The stores after the nodes [l] and their blocks are freed. *)
Record freed (s : mp) (l : list nat) (bl : gmap nat Z) (m' : gmap nat mp_context_dynmem_node_t) : Prop := {
  freed_blocks b : bl !! b = if decide (b ∈ blocks_of s l) then None else blocks s !! b;
  freed_nodes d : unlink <$> m' !! d = if decide (d ∈ l) then None else unlink <$> dyns s !! d }.

Lemma freed_cons s d dn l bl m' s1 :
  dyns s !! d = Some dn -> d ∉ l -> blocks s1 = delete (dmem dn) (blocks s) ->
  unlink <$> dyns s1 = delete d (unlink <$> dyns s) -> freed s1 l bl m' -> freed s (d :: l) bl m'.
Proof.
  intros Hd Hn Hb Hm [H1 H2].
  assert (Hm' : forall x, unlink <$> dyns s1 !! x = if decide (x = d) then None else unlink <$> dyns s !! x).
  { intros x. rewrite <- lookup_fmap, Hm. case_decide; [subst; by rewrite lookup_delete_eq|].
    by rewrite lookup_delete_ne, lookup_fmap. }
  assert (Hdm : forall x, x <> d -> dmem <$> dyns s1 !! x = dmem <$> dyns s !! x).
  { intros x Hx. specialize (Hm' x). rewrite decide_False in Hm' by done.
    destruct (dyns s1 !! x), (dyns s !! x); try done. apply (inj Some) in Hm'. apply (f_equal dmem) in Hm'. simpl in *. congruence. }
  assert (Eb : blocks_of s1 l = blocks_of s l).
  { apply blocks_of_ext. intros x Hx. apply Hdm. by intros ->. }
  constructor.
  - intros b. rewrite H1, Eb, blocks_of_cons, Hd. cbn [fmap option_fmap option_map]. rewrite Hb.
    destruct (decide (b = dmem dn)) as [->|Hne].
    + rewrite lookup_delete_eq. rewrite (decide_True _ _ (P := dmem dn ∈ dmem dn :: blocks_of s l)) by left.
      by case_decide.
    + rewrite lookup_delete_ne by done.
      destruct (decide (b ∈ blocks_of s l)); [rewrite decide_True by (by right)|rewrite decide_False]; try done.
      rewrite elem_of_cons. tauto.
  - intros x. rewrite H2, Hm'. destruct (decide (x = d)) as [->|Hne].
    + rewrite (decide_True _ _ (P := d ∈ d :: l)) by left. by case_decide.
    + destruct (decide (x ∈ l)); [rewrite decide_True by (by right)|rewrite decide_False]; try done.
      rewrite elem_of_cons. tauto.
Qed.

Lemma dynmem_free_loop_spec fuel s mems c n :
  owned s mems -> ctxs s !! c = Some n -> (length (mems c) <= fuel)%nat ->
  exists bl m', dynmem_free_loop fuel c s = Some (tt, after_free s c n bl m')
    /\ owned (after_free s c n bl m') (mems_set c [] mems) /\ freed s (mems c) bl m'.
Proof.
  revert s mems n. induction fuel as [|fuel IH]; intros s mems n Ho Hc Hl;
    pose proof (own_mems _ _ Ho _ _ Hc) as Hch; destruct (mems c) as [|d ys] eqn:Em; try (simpl in Hl; lia).
  1,2: simpl in Hch; exists (blocks s), (dyns s);
    assert (Es : after_free s c n (blocks s) (dyns s) = s) by
      (unfold after_free; rewrite <- Hch, memhead_set_id; unfold with_ctxs; rewrite (insert_id _ _ _ Hc); by destruct s);
    rewrite Es; unfold dynmem_free_loop; rewrite (M_bind_Some _ _ _ _ _ (ctx_run _ _ _ Hc)), Hch;
    split; [done|]; split; [|by constructor]; apply (owned_ext s mems); [|done];
    intros c'; unfold mems_set; case_decide; congruence.
  pose proof (chain_NoDup _ _ _ _ Hch) as Hnd. apply list.NoDup_cons in Hnd as [Hnd _].
  destruct Hch as (Hh & Hd0 & dn & Hd & Hch). cbn [dynmem_free_loop].
  rewrite (M_bind_Some _ _ _ _ _ (ctx_run _ _ _ Hc)), Hh. destruct (Nat.eqb_spec d 0); [done|].
  destruct (dynmem_remove_spec s mems c n d dn [] ys Ho Hc Em Hd) as (h & m1 & Hr & Ho1 & Em1).
  rewrite (M_bind_Some _ _ _ _ _ Hr). set (s1 := after_remove s c dn n h m1) in *. cbn [app] in Ho1.
  assert (Hc1 : ctxs s1 !! c = Some (memhead_set h n)) by apply lookup_insert_eq.
  destruct (IH s1 _ _ Ho1 Hc1) as (bl & m' & Hf & Ho' & Hfr); [rewrite mems_set_eq; simpl in Hl; lia|].
  exists bl, m'. assert (Es : after_free s1 c (memhead_set h n) bl m' = after_free s c n bl m').
  { unfold after_free, s1, after_remove, with_blocks, with_dyns, with_ctxs. cbn. by rewrite insert_insert_eq. }
  rewrite Es in *. split; [done|]. rewrite mems_set_eq in Hfr. split.
  - apply (owned_ext _ (mems_set c [] (mems_set c ys mems))); [|done].
    intros c'. unfold mems_set. by repeat case_decide.
  - by apply (freed_cons s d dn ys bl m' s1).
Qed.

Lemma dynmem_free_all_spec s mems c n :
  owned s mems -> ctxs s !! c = Some n ->
  exists r bl m', mp_context_dynmem_free_all c s = Some (r, after_free s c n bl m')
    /\ owned (after_free s c n bl m') (mems_set c [] mems) /\ freed s (mems c) bl m'
    /\ r = (if decide (mems c = []) then -1 else 0).
Proof.
  intros Ho Hc. pose proof (owned_nonzero _ _ _ _ Ho Hc) as Hc0. pose proof (own_mems _ _ Ho _ _ Hc) as Hch.
  destruct (dynmem_free_loop_spec (size (dyns s)) s mems c n Ho Hc (chain_size _ _ _ _ Hch)) as (bl & m' & Hf & Ho' & Hfr).
  unfold mp_context_dynmem_free_all. destruct (Nat.eqb_spec c 0); [done|].
  rewrite (M_bind_Some _ _ _ _ _ (ctx_run _ _ _ Hc)). destruct (Nat.eqb_spec (memhead n) 0) as [E|E].
  - assert (Em : mems c = []) by (rewrite E in Hch; destruct (mems c); [done|destruct Hch as (? & ? & _); congruence]).
    assert (Hf0 : dynmem_free_loop (size (dyns s)) c s = Some (tt, s)).
    { destruct (size (dyns s)); unfold dynmem_free_loop; by rewrite (M_bind_Some _ _ _ _ _ (ctx_run _ _ _ Hc)), E. }
    rewrite Hf in Hf0. injection Hf0 as Es. exists (-1), bl, m'. split; [by rewrite Es|]. split; [done|]. split; [done|].
    by rewrite decide_True.
  - exists 0, bl, m'. split; [|split; [done|split; [done|]]].
    + unfold mget. rewrite (M_bind_Some _ _ s s s) by done. by rewrite (M_bind_Some _ _ _ _ _ Hf).
    + rewrite decide_False; [done|]. intros Em. rewrite Em in Hch. done.
Qed.
