(* ===== verification/MpTasks.v ===== *)
(** What the operations on contexts and tasks of [MpState] do: registration,
    removal and the switch of the active context. *)
From S2P Require Import Prelude LinkedList ResponseQueue MpState MpStateSpec.

(** What [owned] depends on of a context. *)
Definition core_of (n : mp_context_node_t) : nat * nat := (memhead n, state n).

Lemma core_lookup (m m' : gmap nat mp_context_node_t) c n :
  core_of <$> m' = core_of <$> m -> m' !! c = Some n ->
  exists n0, m !! c = Some n0 /\ memhead n = memhead n0 /\ state n = state n0.
Proof.
  intros E H. pose proof (f_equal (fun k => k !! c) E) as Ec. cbv beta in Ec.
  rewrite !lookup_fmap, H in Ec. destruct (m !! c) as [n0|]; [|done]. simpl in Ec. injection Ec as E1 E2. eauto.
Qed.

Lemma owned_core s mems m' : core_of <$> m' = core_of <$> ctxs s -> owned s mems -> owned (with_ctxs (fun _ => m') s) mems.
Proof.
  intros E Ho. pose proof (fun c n => core_lookup (ctxs s) m' c n E) as Hf.
  pose proof (fun c n => core_lookup m' (ctxs s) c n (eq_sym E)) as Hb.
  constructor; cbn [ctxs dyns blocks states brk with_ctxs].
  - intros c n Hc. destruct (Hf _ _ Hc) as (n0 & H0 & -> & _). by eapply own_mems.
  - intros c n d dn Hc. destruct (Hf _ _ Hc) as (n0 & H0 & _). by eapply own_back.
  - intros c n Hc. destruct (Hf _ _ Hc) as (n0 & H0 & _ & ->). by eapply own_state.
  - intros d dn Hd. destruct (own_dyn _ _ Ho _ _ Hd) as ([n0 H0] & H). split; [|done].
    destruct (Hb _ _ H0) as (n1 & H1 & _). eauto.
  - apply (own_inj _ _ Ho).
  - intros c1 c2 n1 n2 H1 H2 Es. destruct (Hf _ _ H1) as (? & ? & _ & ?). destruct (Hf _ _ H2) as (? & ? & _ & ?).
    eapply own_state_inj; eauto. congruence.
  - apply (own_block _ _ Ho).
  - intros p v Hp. destruct (own_states _ _ Ho _ _ Hp) as (c & n0 & H0 & <-).
    destruct (Hb _ _ H0) as (n1 & H1 & _ & ->). eauto.
  - intros p Hp. destruct (own_fresh _ _ Ho _ Hp) as (H1 & H2). split; [|done].
    destruct (m' !! p) as [n1|] eqn:En; [|done]. destruct (Hf _ _ En) as (? & ? & _). congruence.
  - apply (own_brk _ _ Ho).
Qed.

Lemma core_insert_lookup (m m' : gmap nat mp_context_node_t) r v c n :
  core_of <$> m' = <[r := v]> (core_of <$> m) -> m' !! c = Some n ->
  (c = r /\ core_of n = v) \/ (c <> r /\ exists n0, m !! c = Some n0 /\ memhead n = memhead n0 /\ state n = state n0).
Proof.
  intros E H. pose proof (f_equal (fun k => k !! c) E) as Ec. cbv beta in Ec.
  rewrite lookup_fmap, H in Ec. destruct (decide (c = r)) as [->|Hne].
  - rewrite lookup_insert_eq in Ec. left. by injection Ec.
  - rewrite lookup_insert_ne, lookup_fmap in Ec by done. right. split; [done|].
    destruct (m !! c) as [n0|]; [|done]. simpl in Ec. injection Ec as E1 E2. eauto.
Qed.

Lemma core_insert_back (m m' : gmap nat mp_context_node_t) r v c n0 :
  core_of <$> m' = <[r := v]> (core_of <$> m) -> m !! c = Some n0 -> c <> r ->
  exists n, m' !! c = Some n /\ memhead n = memhead n0 /\ state n = state n0.
Proof.
  intros E H Hne. pose proof (f_equal (fun k => k !! c) E) as Ec. cbv beta in Ec.
  rewrite lookup_insert_ne, !lookup_fmap, H in Ec by done.
  destruct (m' !! c) as [n|]; [|done]. simpl in Ec. injection Ec as E1 E2. eauto.
Qed.

(** The invariant with a new context. *)
Lemma owned_new s mems r p m' v b o :
  owned s mems -> (brk s <= r < b)%nat -> (brk s <= p < b)%nat ->
  core_of <$> m' = <[r := (0%nat, p)]> (core_of <$> ctxs s) ->
  owned (with_malloc b o (with_states <[p := v]> (with_ctxs (fun _ => m') s))) (mems_set r [] mems).
Proof.
  intros Ho Hr Hp E. pose proof (own_brk _ _ Ho) as Hb0.
  pose proof (fun c n => core_insert_lookup (ctxs s) m' r _ c n E) as Hf.
  pose proof (fun c n => core_insert_back (ctxs s) m' r _ c n E) as Hb.
  assert (Hrn : ctxs s !! r = None) by (apply (own_fresh _ _ Ho); lia).
  assert (Hpn : states s !! p = None) by (apply (own_fresh _ _ Ho); lia).
  assert (Hnr : exists n, m' !! r = Some n /\ memhead n = 0%nat /\ state n = p).
  { pose proof (f_equal (fun k => k !! r) E) as Ec. cbv beta in Ec. rewrite lookup_insert_eq, lookup_fmap in Ec.
    destruct (m' !! r) as [n|]; [|done]. injection Ec as E1 E2. eauto. }
  constructor; cbn [ctxs dyns blocks states brk with_ctxs with_states with_malloc].
  - intros c n Hc. destruct (Hf _ _ Hc) as [[-> Ev]|(Hne & n0 & H0 & -> & _)].
    + injection Ev as -> _. by rewrite mems_set_eq.
    + rewrite mems_set_ne by done. by eapply own_mems.
  - intros c n d dn Hc. destruct (Hf _ _ Hc) as [[-> _]|(Hne & n0 & H0 & _)].
    + rewrite mems_set_eq. by intros ?%elem_of_nil.
    + rewrite mems_set_ne by done. by eapply own_back.
  - intros c n Hc. destruct (Hf _ _ Hc) as [[-> Ev]|(Hne & n0 & H0 & _ & ->)].
    + injection Ev as _ ->. split; [lia|]. rewrite lookup_insert_eq. eauto.
    + destruct (own_state _ _ Ho _ _ H0) as [? [w Hw]]. split; [done|]. exists w.
      rewrite lookup_insert_ne; [done|]. congruence.
  - intros d dn Hd. destruct (own_dyn _ _ Ho _ _ Hd) as ([n0 H0] & H1 & H2).
    assert (dcontext dn <> r) by congruence.
    split; [|by rewrite mems_set_ne]. destruct (Hb _ _ H0) as (n1 & Hn1 & _); eauto.
  - apply (own_inj _ _ Ho).
  - intros c1 c2 n1 n2 H1 H2 Es.
    assert (Hst : forall c n0, ctxs s !! c = Some n0 -> state n0 <> p).
    { intros c n0 H0 <-. destruct (own_state _ _ Ho _ _ H0) as [_ [? ?]]. congruence. }
    destruct (Hf _ _ H1) as [[-> E1]|(? & x1 & Hx1 & _ & E1)], (Hf _ _ H2) as [[-> E2]|(? & x2 & Hx2 & _ & E2)]; [done| | |].
    + exfalso. injection E1 as _ E1. by apply (Hst _ _ Hx2); congruence.
    + exfalso. injection E2 as _ E2. by apply (Hst _ _ Hx1); congruence.
    + eapply own_state_inj; eauto. congruence.
  - apply (own_block _ _ Ho).
  - intros q w. destruct (decide (p = q)) as [<-|Hne].
    + intros _. destruct Hnr as (n & ? & _ & ?). eauto.
    + rewrite lookup_insert_ne by done. intros Hq. destruct (own_states _ _ Ho _ _ Hq) as (c & n0 & H0 & <-).
      destruct (Hb _ _ H0) as (n1 & H1 & _ & <-); [congruence|eauto].
  - intros q Hq. destruct (own_fresh _ _ Ho q) as (H1 & H2 & H3 & H4); [lia|]. split; [|split; [done|split; [done|]]].
    + destruct (m' !! q) as [n1|] eqn:En; [|done].
      destruct (Hf _ _ En) as [[-> _]|(_ & ? & ? & _)]; [lia|congruence].
    + rewrite lookup_insert_ne by lia. done.
  - lia.
Qed.

(** The invariant without a context that owns no dynamic memory, and its state. *)
Lemma owned_del s mems r n m' :
  owned s mems -> ctxs s !! r = Some n -> mems r = [] -> core_of <$> m' = delete r (core_of <$> ctxs s) ->
  owned (with_states (delete (state n)) (with_ctxs (fun _ => m') s)) mems.
Proof.
  intros Ho Hr Hmr E.
  assert (Hf : forall c x, m' !! c = Some x -> c <> r /\ exists n0, ctxs s !! c = Some n0 /\ memhead x = memhead n0 /\ state x = state n0).
  { intros c x H. pose proof (f_equal (fun k => k !! c) E) as Ec. cbv beta in Ec. rewrite lookup_fmap, H in Ec.
    destruct (decide (c = r)) as [->|Hne]; [by rewrite lookup_delete_eq in Ec|].
    rewrite lookup_delete_ne, lookup_fmap in Ec by done. split; [done|].
    destruct (ctxs s !! c) as [n0|]; [|done]. injection Ec as E1 E2. eauto. }
  assert (Hb : forall c n0, ctxs s !! c = Some n0 -> c <> r -> exists x, m' !! c = Some x /\ memhead x = memhead n0 /\ state x = state n0).
  { intros c n0 H Hne. pose proof (f_equal (fun k => k !! c) E) as Ec. cbv beta in Ec.
    rewrite lookup_delete_ne, !lookup_fmap, H in Ec by done.
    destruct (m' !! c) as [x|]; [|done]. injection Ec as E1 E2. eauto. }
  constructor; cbn [ctxs dyns blocks states brk with_ctxs with_states].
  - intros c x Hc. destruct (Hf _ _ Hc) as (_ & n0 & H0 & -> & _). by eapply own_mems.
  - intros c x d dn Hc. destruct (Hf _ _ Hc) as (_ & n0 & H0 & _). by eapply own_back.
  - intros c x Hc. destruct (Hf _ _ Hc) as (Hne & n0 & H0 & _ & ->).
    destruct (own_state _ _ Ho _ _ H0) as [H1 H2]. split; [done|].
    rewrite lookup_delete_ne; [done|]. intros Es. apply Hne. symmetry. eapply own_state_inj; eauto.
  - intros d dn Hd. destruct (own_dyn _ _ Ho _ _ Hd) as ([n0 H0] & H1 & H2). split; [|done].
    destruct (Hb _ _ H0) as (x & ? & _); [|eauto]. intros Er. rewrite Er, Hmr in H1. by apply elem_of_nil in H1.
  - apply (own_inj _ _ Ho).
  - intros c1 c2 n1 n2 H1 H2 Es. destruct (Hf _ _ H1) as (_ & ? & ? & _ & ?). destruct (Hf _ _ H2) as (_ & ? & ? & _ & ?).
    eapply own_state_inj; eauto. congruence.
  - apply (own_block _ _ Ho).
  - intros q w. destruct (decide (state n = q)) as [<-|Hne]; [by rewrite lookup_delete_eq|].
    rewrite lookup_delete_ne by done. intros Hq. destruct (own_states _ _ Ho _ _ Hq) as (c & n0 & H0 & <-).
    destruct (Hb _ _ H0) as (x & ? & _ & <-); [congruence|eauto].
  - intros q Hq. destruct (own_fresh _ _ Ho q Hq) as (H1 & H2 & H3 & H4). split; [|split; [done|split; [done|]]].
    + destruct (m' !! q) as [x|] eqn:En; [|done]. destruct (Hf _ _ En) as (_ & ? & ? & _). congruence.
    + apply lookup_delete_None. auto.
  - apply (own_brk _ _ Ho).
Qed.

(** ** Registration *)

Lemma linked_snoc s cs : linked s cs -> exists xs t, cs = xs ++ [t].
Proof.
  intros [H0 Hc]. destruct cs as [|t xs _] using rev_ind; [done|]. eauto.
Qed.

Lemma context_find_chain s cs test :
  chain next (ctxs s) (mp_context_head s) cs -> context_find test s = Some (first_node (ctxs s) test cs, s).
Proof.
  intros Hc. unfold context_find, mget, mlift, mbind, M_bind.
  by rewrite (find_node_spec _ _ _ _ _ _ Hc (chain_size _ _ _ _ Hc)).
Qed.

(** The last node of the list is the one that links to nothing. *)
Lemma tail_links s cs mems xs t : mp_ok s cs mems -> cs = xs ++ [t] ->
  forall c n, ctxs s !! c = Some n -> next n = 0%nat <-> c = t.
Proof.
  intros [_ Hl Ha] -> c n Hc. pose proof (Ha _ _ Hc) as Hin. pose proof (lk_chain _ _ Hl) as Hch.
  revert Hch Hin. generalize (mp_context_head s). clear Hl Ha. induction xs as [|x xs IH]; intros p Hch Hin.
  - apply list_elem_of_singleton in Hin as ->. destruct Hch as (-> & _ & a & Ha & Hn). simplify_eq. done.
  - pose proof (chain_NoDup _ _ _ _ Hch) as Hnd. destruct Hch as (-> & _ & a & Ha & Hch).
    apply elem_of_cons in Hin as [->|Hin]; [|exact (IH _ Hch Hin)].
    simpl in Hnd. apply list.NoDup_cons in Hnd as [Hnd _]. simplify_eq. split.
    + intros E. rewrite E in Hch. destruct xs; destruct Hch as (? & ? & _); congruence.
    + intros ->. exfalso. apply Hnd, elem_of_app. right. left.
Qed.

Definition after_new (s : mp) (r p : nat) (m' : gmap nat mp_context_node_t) (b : nat) (o : list bool) : mp :=
  with_malloc b o (with_states <[p := zero_state]> (with_ctxs (fun _ => m') s)).

(** The list of contexts with a new node [nr] at [r] behind the tail [t], whose node was [nt]. *)
Definition appended (m : gmap nat mp_context_node_t) (t : nat) (nt : mp_context_node_t) (r : nat)
    (nr : mp_context_node_t) : gmap nat mp_context_node_t := <[r := nr]> (<[t := next_set r nt]> m).

Lemma appended_ok s cs mems xs t nt r p nr b o :
  mp_ok s cs mems -> cs = xs ++ [t] -> ctxs s !! t = Some nt -> (brk s <= r < b)%nat -> (brk s <= p < b)%nat ->
  memhead nr = 0%nat -> state nr = p -> next nr = 0%nat ->
  mp_ok (after_new s r p (appended (ctxs s) t nt r nr) b o) (cs ++ [r]) (mems_set r [] mems).
Proof.
  intros [Ho Hl Ha] Ecs Ht Hr Hp H1 H2 H3. pose proof (own_brk _ _ Ho).
  assert (Hrn : ctxs s !! r = None) by (apply (own_fresh _ _ Ho); lia).
  assert (Hrt : r <> t) by congruence.
  assert (Hnin : r ∉ cs). { intros Hin. destruct (chain_lookup _ _ _ _ r (lk_chain _ _ Hl) Hin) as (_ & ? & ?). congruence. }
  constructor.
  - apply owned_new; try done. unfold appended. rewrite !fmap_insert. unfold core_of at 1. rewrite H1, H2. f_equal.
    apply insert_id. by rewrite lookup_fmap, Ht.
  - constructor; [apply Hl|]. unfold after_new, appended. cbn [ctxs with_malloc with_states with_ctxs mp_context_head].
    rewrite insert_insert_ne by done. rewrite Ecs, <- app_assoc. apply (chain_snoc _ _ _ _ _ _ nr).
    + rewrite <- Ecs. apply chain_insert_fresh; [apply Hl|done].
    + apply lookup_insert_eq.
    + done.
    + lia.
    + by rewrite <- Ecs.
    + done.
  - intros c n. unfold after_new, appended. cbn [ctxs with_malloc with_states with_ctxs].
    destruct (decide (r = c)) as [<-|Hne]; [intros _; apply elem_of_app; right; left|].
    rewrite lookup_insert_ne by done. destruct (decide (t = c)) as [<-|Hne'].
    + intros _. apply elem_of_app. left. by eapply Ha.
    + rewrite lookup_insert_ne by done. intros Hc. apply elem_of_app. left. by eapply Ha.
Qed.

Lemma context_append_new_spec s cs mems xs t nt :
  mp_ok s cs mems -> cs = xs ++ [t] -> ctxs s !! t = Some nt ->
  exists r s' b o, mp_context_append_new s = Some (r, s') /\ (brk s <= b)%nat
    /\ ((r = 0%nat /\ s' = with_malloc b o s)
        \/ (brk s <= r < b)%nat /\ exists p, (brk s <= p < b)%nat
             /\ s' = after_new s r p (appended (ctxs s) t nt r (state_set p zero_context)) b o).
Proof.
  intros [Ho Hl Ha] Ecs Ht. pose proof (own_brk _ _ Ho) as Hb0.
  unfold mp_context_append_new, mp_new_context_node.
  destruct (malloc_run s) as (r & b & o & Em & Hb & Hr). rewrite M_bind_assoc, (M_bind_Some _ _ _ _ _ Em).
  destruct Hr as [-> | Hr]; [exists 0%nat, (with_malloc b o s), b, o; auto|].
  assert (Hr0 : r <> 0%nat) by lia. destruct (Nat.eqb_spec r 0); [done|].
  assert (Hrn : ctxs s !! r = None) by (apply (own_fresh _ _ Ho); lia).
  assert (Hnin : r ∉ cs). { intros Hin. destruct (chain_lookup _ _ _ _ r (lk_chain _ _ Hl) Hin) as (_ & ? & ?). congruence. }
  rewrite M_bind_assoc.
  rewrite (M_bind_Some _ _ (with_malloc b o s) tt (with_ctxs <[r := zero_context]> (with_malloc b o s))) by done.
  rewrite (M_bind_Some (mret r) _ _ r _) by reflexivity. destruct (Nat.eqb_spec r 0); [done|].
  set (s1 := with_ctxs <[r := zero_context]> (with_malloc b o s)). unfold mp_new_state. rewrite M_bind_assoc.
  destruct (malloc_run s1) as (p & b' & o' & Em' & Hb' & Hp). cbn [brk s1 with_ctxs with_malloc] in Hb', Hp.
  rewrite (M_bind_Some _ _ _ _ _ Em'). destruct Hp as [-> | Hp].
  - cbn [Nat.eqb]. rewrite (M_bind_Some (mret 0%nat) _ _ 0%nat _) by reflexivity. cbn [Nat.eqb].
    erewrite M_bind_Some; [|eapply free_ctx_run; [done|apply lookup_insert_eq]].
    exists 0%nat, (with_malloc b' o' s), b', o'. split; [|split; [lia|auto]].
    unfold mret, with_ctxs, with_malloc. cbn. by rewrite delete_insert_id.
  - assert (Hp0 : p <> 0%nat) by lia. destruct (Nat.eqb_spec p 0); [done|]. rewrite M_bind_assoc.
    set (s2 := with_states <[p := zero_state]> (with_malloc b' o' s1)).
    rewrite (M_bind_Some _ _ (with_malloc b' o' s1) tt s2) by done.
    rewrite (M_bind_Some (mret p) _ _ p _) by reflexivity. destruct (Nat.eqb_spec p 0); [done|].
    assert (Hr2 : ctxs s2 !! r = Some zero_context) by apply lookup_insert_eq.
    rewrite (M_bind_Some _ _ _ _ _ (ctx_update_run _ _ _ _ Hr2)).
    set (nr := state_set p zero_context).
    assert (E3 : with_ctxs <[r := nr]> s2 = with_ctxs (fun _ => <[r := nr]> (ctxs s)) (with_states <[p := zero_state]> (with_malloc b' o' s))).
    { unfold s2, s1, with_states, with_ctxs, with_malloc. cbn. by rewrite insert_insert_eq. }
    rewrite E3. set (s3 := with_ctxs _ _).
    assert (Hch3 : chain next (ctxs s3) (mp_context_head s3) (xs ++ [t])).
    { rewrite <- Ecs. apply chain_insert_fresh; [apply Hl|done]. }
    assert (Htail : mp_context_tail s3 = Some (t, s3)).
    { unfold mp_context_tail, mp_context_predecessor. rewrite (context_find_chain _ _ _ Hch3). by rewrite (tail_spec _ _ _ _ _ Hch3). }
    unfold mp_context_append. destruct (Nat.eqb_spec r 0); [done|]. rewrite M_bind_assoc.
    rewrite (M_bind_Some _ _ _ _ _ Htail).
    assert (Ht0 : t <> 0%nat) by exact (owned_nonzero _ _ _ _ Ho Ht). destruct (Nat.eqb_spec t 0); [done|].
    assert (Hrt : r <> t) by congruence.
    assert (Ht3 : ctxs s3 !! t = Some nt) by (unfold s3; cbn [ctxs with_ctxs]; by rewrite lookup_insert_ne).
    rewrite M_bind_assoc, (M_bind_Some _ _ _ _ _ (ctx_update_run _ _ _ _ Ht3)).
    erewrite M_bind_Some; [|eapply ctx_update_run; cbn [ctxs with_ctxs s3]; rewrite lookup_insert_ne by done; apply lookup_insert_eq].
    exists r. eexists _, b', o'. split; [reflexivity|]. split; [lia|]. right. split; [lia|]. exists p. split; [lia|].
    unfold s3, after_new, appended, with_states, with_ctxs, with_malloc. cbn. f_equal.
    rewrite insert_insert_ne, insert_insert_eq by done. rewrite insert_insert_ne by done. done.
Qed.

Lemma by_tid_run s cs tID : linked s cs ->
  mp_context_by_tid tID s = Some (first_node (ctxs s) (fun _ c => id c =? tID) cs, s).
Proof. intros [_ Hc]. by apply context_find_chain. Qed.

Lemma by_tid_found s xs r ys nr tID : linked s (xs ++ r :: ys) ->
  (forall c n, c ∈ xs -> ctxs s !! c = Some n -> id n <> tID) -> ctxs s !! r = Some nr -> id nr = tID ->
  mp_context_by_tid tID s = Some (r, s).
Proof.
  intros Hl Hx Hr Hid. rewrite (by_tid_run _ _ _ Hl). erewrite first_node_found; [done| |exact Hr|by apply Z.eqb_eq].
  intros y b Hy Hb. apply Z.eqb_neq. eauto.
Qed.

Lemma by_tid_none s cs tID : linked s cs -> (forall c n, c ∈ cs -> ctxs s !! c = Some n -> id n <> tID) ->
  mp_context_by_tid tID s = Some (0%nat, s).
Proof.
  intros Hl Hx. rewrite (by_tid_run _ _ _ Hl), first_node_none; [done|]. intros x a Hxx Ha. apply Z.eqb_neq. eauto.
Qed.

(** The node of a task that was just registered. *)
Definition task_node (tID : Z) (p addtl : nat) : mp_context_node_t :=
  MkContext tID 0 p (MkArgs 0 0 0 addtl) 0 empty_queue 0 0.

Lemma task_register_spec s cs mems xs t nt tID addtl :
  mp_ok s cs mems -> cs = xs ++ [t] -> ctxs s !! t = Some nt ->
  (forall c n, c ∈ cs -> ctxs s !! c = Some n -> id n <> tID) ->
  exists r s' b o, mp_task_register tID addtl s = Some (r, s') /\ (brk s <= b)%nat
    /\ ((r = 0%nat /\ s' = with_malloc b o s)
        \/ (brk s <= r < b)%nat /\ exists p, (brk s <= p < b)%nat
             /\ s' = after_new s r p (appended (ctxs s) t nt r (task_node tID p addtl)) b o).
Proof.
  intros Hok Ecs Ht Hid. unfold mp_task_register.
  rewrite (M_bind_Some _ _ _ _ _ (by_tid_none _ _ _ (ok_linked _ _ _ Hok) Hid)). cbn [Nat.eqb negb].
  destruct (context_append_new_spec s cs mems xs t nt Hok Ecs Ht) as (r & s1 & b & o & Hr & Hb & [[-> ->] | (Hrb & p & Hp & ->)]);
    rewrite (M_bind_Some _ _ _ _ _ Hr).
  - exists 0%nat, (with_malloc b o s), b, o. auto.
  - pose proof (own_brk _ _ (ok_owned _ _ _ Hok)). assert (Hr0 : r <> 0%nat) by lia.
    destruct (Nat.eqb_spec r 0); [done|].
    erewrite M_bind_Some; [|eapply ctx_update_run; apply lookup_insert_eq].
    exists r. eexists _, b, o. split; [reflexivity|]. split; [lia|]. right. split; [lia|]. exists p. split; [lia|].
    unfold after_new, appended, with_states, with_ctxs, with_malloc. cbn. by rewrite insert_insert_eq.
Qed.

(** ** Removal *)

(** The list of contexts without [r], whose predecessor is [y]. *)
Definition cut (m : gmap nat mp_context_node_t) (y : nat) (ny : mp_context_node_t) (r : nat) (nr : mp_context_node_t)
  : gmap nat mp_context_node_t := delete r (<[y := next_set (next nr) ny]> m).

Definition after_cut (s : mp) y ny r nr (bl : gmap nat Z) (m' : gmap nat mp_context_dynmem_node_t) : mp :=
  with_states (delete (state nr)) (with_blocks (fun _ => bl) (with_dyns (fun _ => m')
    (with_ctxs (fun _ => cut (ctxs s) y ny r nr) s))).

Lemma context_remove_spec s mems xs y r ys ny nr :
  mp_ok s (xs ++ y :: r :: ys) mems -> ctxs s !! y = Some ny -> ctxs s !! r = Some nr ->
  exists bl m', mp_context_remove r s = Some (tt, after_cut s y ny r nr bl m') /\ freed s (mems r) bl m'
    /\ mp_ok (after_cut s y ny r nr bl m') (xs ++ y :: ys) (mems_set r [] mems).
Proof.
  intros [Ho Hl Ha] Hy Hr. pose proof (lk_chain _ _ Hl) as Hch. pose proof (chain_NoDup _ _ _ _ Hch) as Hnd.
  pose proof (owned_nonzero _ _ _ _ Ho Hy) as Hy0. pose proof (owned_nonzero _ _ _ _ Ho Hr) as Hr0.
  assert (Hyr : r <> y).
  { intros ->. apply list.NoDup_app in Hnd as (_ & _ & Hn). apply list.NoDup_cons in Hn as [Hn _]. apply Hn. left. }
  assert (Hrin : r ∉ xs ++ y :: ys).
  { apply list.NoDup_app in Hnd as (_ & Hx & Hn). rewrite !list.NoDup_cons in Hn. destruct Hn as (_ & Hn & _).
    rewrite elem_of_app, elem_of_cons. intros [H|[H|H]]; try done.
    apply (Hx r H). right. left. }
  unfold mp_context_remove, mp_context_predecessor.
  rewrite (M_bind_Some _ _ _ _ _ (context_find_run _ _ _ Hl)), (predecessor_spec _ _ _ _ _ _ _ Hch).
  destruct (Nat.eqb_spec y 0); [done|]. rewrite (M_bind_Some _ _ _ _ _ (ctx_run _ _ _ Hr)).
  rewrite (M_bind_Some _ _ _ _ _ (ctx_update_run _ _ _ _ Hy)).
  set (s1 := with_ctxs <[y := next_set (next nr) ny]> s).
  assert (Ho1 : owned s1 mems).
  { apply (owned_core s mems (<[y := next_set (next nr) ny]> (ctxs s))); [|done]. rewrite fmap_insert. apply insert_id. by rewrite lookup_fmap, Hy. }
  assert (Hr1 : ctxs s1 !! r = Some nr) by (cbn [ctxs s1 with_ctxs]; by rewrite lookup_insert_ne).
  destruct (dynmem_free_all_spec s1 mems r nr Ho1 Hr1) as (z & bl & m' & Hf & Ho2 & Hfr & _).
  rewrite (M_bind_Some _ _ _ _ _ Hf). set (s2 := after_free s1 r nr bl m') in *.
  assert (Hr2 : ctxs s2 !! r = Some (memhead_set 0 nr)) by apply lookup_insert_eq.
  rewrite (M_bind_Some _ _ _ _ _ (ctx_run _ _ _ Hr2)).
  destruct (own_state _ _ Ho _ _ Hr) as [Hst [v Hv]].
  rewrite (M_bind_Some _ _ _ _ _ (free_state_run s2 (state nr) v Hst Hv)).
  assert (Er : free_ctx r (with_states (delete (state nr)) s2) = Some (tt, after_cut s y ny r nr bl m')).
  { rewrite (free_ctx_run _ _ (memhead_set 0 nr)); [|done..]. f_equal. f_equal.
    unfold s2, after_free, s1, after_cut, cut, with_states, with_blocks, with_dyns, with_ctxs. cbn.
    by rewrite delete_insert_eq. }
  exists bl, m'. split; [exact Er|]. split.
  { destruct Hfr as [F1 F2]. constructor; [exact F1|exact F2]. }
  constructor.
  - apply (owned_del s2 (mems_set r [] mems) r (memhead_set 0 nr) (cut (ctxs s) y ny r nr)) in Ho2;
      [|done|apply mems_set_eq|].
    + exact Ho2.
    + unfold cut, s2, after_free, s1. cbn [ctxs with_blocks with_dyns with_ctxs].
      by rewrite fmap_delete, (fmap_insert _ _ r), delete_insert_eq.
  - constructor; [apply Hl|]. unfold after_cut, cut. cbn [ctxs mp_context_head with_states with_blocks with_dyns with_ctxs].
    apply chain_delete; [|done]. by eapply chain_unlink.
  - intros c nc. unfold after_cut, cut. cbn [ctxs with_states with_blocks with_dyns with_ctxs].
    intros (Hne & Hc)%lookup_delete_Some.
    assert (Hin : c ∈ xs ++ y :: r :: ys).
    { destruct (decide (y = c)) as [<-|Hyc]; [apply elem_of_app; right; left|].
      rewrite lookup_insert_ne in Hc by done. by eapply Ha. }
    rewrite !elem_of_app, !elem_of_cons in *. destruct Hin as [?|[?|[?|?]]]; auto. congruence.
Qed.

(** ** The active context *)

Lemma context_switch_run s mems c n core : owned s mems -> ctxs s !! c = Some n ->
  exists v, states s !! state n = Some v
    /\ mp_context_switch core c s
       = Some (tt, with_vm <[core := v]> (with_mirrors <[core := n]> (with_active <[core := c]> s))).
Proof.
  intros Ho Hc. pose proof (owned_nonzero _ _ _ _ Ho Hc) as Hc0. destruct (own_state _ _ Ho _ _ Hc) as [_ [v Hv]].
  exists v. split; [done|]. unfold mp_context_switch. destruct (Nat.eqb_spec c 0); [done|].
  rewrite (M_bind_Some _ _ s tt (with_active <[core := c]> s)) by done.
  rewrite (M_bind_Some _ _ _ _ _ (ctx_run (with_active <[core := c]> s) c n Hc)).
  set (s1 := with_active _ _). rewrite (M_bind_Some _ _ s1 tt (with_mirrors <[core := n]> s1)) by done.
  unfold mp_context_refresh, mget, mlift, mbind, M_bind.
  cbn [mp_active_context_mirrors states with_mirrors s1 with_active]. by rewrite lookup_insert_eq, Hv.
Qed.

(** ** The initial state *)

Lemma mp_initial_ok : mp_ok mp_initial [1%nat] (fun _ => []).
Proof.
  assert (H1 : forall c n, ctxs mp_initial !! c = Some n -> c = 1%nat /\ n = state_set 2 zero_context).
  { intros c n H. cbn [ctxs mp_initial] in H. by apply lookup_singleton_Some in H as [<- <-]. }
  constructor; [constructor|constructor|].
  - intros c n (-> & ->)%H1. done.
  - intros c n d dn _ ?%elem_of_nil. done.
  - intros c n (-> & ->)%H1. split; [done|]. by eexists.
  - intros d dn H. done.
  - intros d1 d2 n1 n2 H. done.
  - intros c1 c2 n1 n2 (-> & _)%H1 (-> & _)%H1. done.
  - intros b z H. done.
  - intros p v H. cbn [states mp_initial] in H. apply lookup_singleton_Some in H as [<- <-]. exists 1%nat, (state_set 2 zero_context). done.
  - intros p Hp. cbn [brk mp_initial] in Hp.
    assert (p <> 1%nat) by lia. assert (p <> 2%nat) by lia.
    split; [by apply lookup_singleton_ne|]. split; [done|]. split; [done|]. by apply lookup_singleton_ne.
  - done.
  - done.
  - simpl. split; [done|]. split; [done|]. eauto.
  - intros c n (-> & _)%H1. left.
Qed.
