(* ===== verification/MpThms.v ===== *)
(** The theorems about contexts and tasks: registration, removal, the memory of
    a task, and the switch of the active context. *)
From S2P Require Import Prelude LinkedList ResponseQueue MpState MpStateSpec MpTasks.

(** A change to the memory list of one context keeps the list of contexts. *)
Lemma memhead_ok s s' cs mems mems' c n h :
  mp_ok s cs mems -> ctxs s !! c = Some n -> owned s' mems' -> ctxs s' = <[c := memhead_set h n]> (ctxs s) ->
  mp_context_head s' = mp_context_head s -> mp_ok s' cs mems'.
Proof.
  intros [Ho Hl Ha] Hc Ho' E Eh. constructor; [done| |].
  - constructor; rewrite Eh; [apply Hl|]. rewrite E. eapply chain_insert_link; [apply Hl|exact Hc|done].
  - intros c' n'. rewrite E. destruct (decide (c = c')) as [<-|Hne].
    + intros _. by eapply Ha.
    + rewrite lookup_insert_ne by done. apply Ha.
Qed.

Lemma malloc_ok s cs mems b o : mp_ok s cs mems -> (brk s <= b)%nat -> mp_ok (with_malloc b o s) cs mems.
Proof.
  intros [Ho Hl Ha] Hb. constructor; [by apply owned_malloc| |exact Ha]. constructor; apply Hl.
Qed.

Lemma mp_ok_ctx s cs mems c : mp_ok s cs mems -> c ∈ cs -> exists n, ctxs s !! c = Some n.
Proof. intros Hok Hin. destruct (chain_lookup _ _ _ _ c (lk_chain _ _ (ok_linked _ _ _ Hok)) Hin) as [_ H]. done. Qed.

Lemma mp_ok_last s cs mems : mp_ok s cs mems -> exists xs t nt, cs = xs ++ [t] /\ ctxs s !! t = Some nt.
Proof.
  intros Hok. destruct (linked_snoc _ _ (ok_linked _ _ _ Hok)) as (xs & t & E).
  destruct (mp_ok_ctx _ _ _ t Hok) as [nt Hnt]; [rewrite E; apply elem_of_app; right; left|]. eauto.
Qed.

(** The first context with a task id, if any. *)
Definition has_tid (s : mp) (tID : Z) (c : nat) : Prop := exists n, ctxs s !! c = Some n /\ id n = tID.

#[export] Instance has_tid_dec s tID c : Decision (has_tid s tID c).
Proof.
  destruct (ctxs s !! c) as [n|] eqn:E; [destruct (decide (id n = tID)) as [Hi|Hi]|].
  - left. by exists n.
  - right. intros (n' & Hn & ?). congruence.
  - right. intros (n' & Hn & ?). congruence.
Defined.

Lemma first_tid s cs tID : (exists xs r ys, cs = xs ++ r :: ys /\ has_tid s tID r /\ (forall c, c ∈ xs -> ~ has_tid s tID c))
  \/ (forall c, c ∈ cs -> ~ has_tid s tID c).
Proof.
  induction cs as [|c cs IH]; [right; by intros c ?%elem_of_nil|].
  destruct (decide (has_tid s tID c)) as [H|H].
  - left. exists [], c, cs. split; [done|]. split; [done|]. by intros ? ?%elem_of_nil.
  - destruct IH as [(xs & r & ys & -> & Hr & Hx)|IH].
    + left. exists (c :: xs), r, ys. split; [done|]. split; [done|]. intros x [->|Hx']%elem_of_cons; auto.
    + right. intros x [->|Hx]%elem_of_cons; auto.
Qed.

Lemma has_tid_found s xs r ys mems tID : mp_ok s (xs ++ r :: ys) mems -> has_tid s tID r ->
  (forall c, c ∈ xs -> ~ has_tid s tID c) -> mp_context_by_tid tID s = Some (r, s).
Proof.
  intros Hok (n & Hn & Hi) Hx. eapply by_tid_found; eauto; [apply Hok|].
  intros c m Hc Hm Hid. apply (Hx c Hc). by exists m.
Qed.

Lemma register_used s cs mems tID addtl c : mp_ok s cs mems -> c ∈ cs -> has_tid s tID c ->
  mp_task_register tID addtl s = Some (0%nat, s).
Proof.
  intros Hok Hc Hid. destruct (first_tid s cs tID) as [(xs & r & ys & -> & Hr & Hx)|Hno]; [|by destruct (Hno c Hc)].
  unfold mp_task_register. rewrite (M_bind_Some _ _ _ _ _ (has_tid_found _ _ _ _ _ _ Hok Hr Hx)).
  destruct Hr as (n & Hn & _). pose proof (owned_nonzero _ _ _ _ (ok_owned _ _ _ Hok) Hn).
  by destruct (Nat.eqb_spec r 0).
Qed.

(** Registration of a task.  With a task id that is in use nothing happens and
    [NULL] comes back.  Otherwise either memory ran out, [NULL] comes back and
    nothing is allocated or linked; or the result is a new context with this id,
    a state of its own and no dynamic memory, at the end of the list, found by
    its id; all other contexts are untouched, except that the last one links to
    the new one. *)
Theorem mp_task_register_correct s cs mems tID addtl :
  mp_ok s cs mems ->
  ((exists c, c ∈ cs /\ has_tid s tID c) -> mp_task_register tID addtl s = Some (0%nat, s))
  /\ ((forall c, c ∈ cs -> ~ has_tid s tID c) ->
      exists r s', mp_task_register tID addtl s = Some (r, s')
      /\ ((r = 0%nat /\ mp_ok s' cs mems /\ ctxs s' = ctxs s /\ states s' = states s /\ blocks s' = blocks s)
          \/ ((r ∉ cs) /\ mp_ok s' (cs ++ [r]) (mems_set r [] mems)
              /\ (exists p, states s !! p = None /\ ctxs s' !! r = Some (task_node tID p addtl)
                    /\ states s' = <[p := zero_state]> (states s))
              /\ blocks s' = blocks s /\ mp_context_by_tid tID s' = Some (r, s')
              /\ forall c n, ctxs s !! c = Some n ->
                   ctxs s' !! c = Some (if (next n =? 0)%nat then next_set r n else n)))).
Proof.
  intros Hok. split.
  - intros (c & Hc & Hid). by apply (register_used s cs mems tID addtl c).
  - intros Hno. destruct (mp_ok_last _ _ _ Hok) as (xs & t & nt & E & Ht).
    destruct (task_register_spec s cs mems xs t nt tID addtl Hok E Ht) as (r & s' & b & o & Hr & Hb & Hcase).
    { intros c n Hc Hn Hid. apply (Hno c Hc). by exists n. }
    exists r, s'. split; [done|]. destruct Hcase as [[-> ->]|(Hrb & p & Hp & ->)].
    + left. split; [done|]. split; [by apply malloc_ok|done].
    + right. pose proof (own_fresh _ _ (ok_owned _ _ _ Hok)) as Hfr.
      assert (Hrn : ctxs s !! r = None) by (apply Hfr; lia). assert (Hpn : states s !! p = None) by (apply Hfr; lia).
      assert (Hok' : mp_ok (after_new s r p (appended (ctxs s) t nt r (task_node tID p addtl)) b o) (cs ++ [r]) (mems_set r [] mems)).
      { by apply (appended_ok s cs mems xs). }
      assert (Hnin : r ∉ cs) by (intros Hin; destruct (mp_ok_ctx _ _ _ _ Hok Hin); congruence).
      assert (Hold : forall c n, ctxs s !! c = Some n ->
        appended (ctxs s) t nt r (task_node tID p addtl) !! c = Some (if (next n =? 0)%nat then next_set r n else n)).
      { intros c n Hc. unfold appended. rewrite lookup_insert_ne by congruence.
        pose proof (tail_links _ _ _ _ _ Hok E c n Hc) as Htl. destruct (decide (t = c)) as [<-|Hne].
        - rewrite lookup_insert_eq. simplify_eq. by rewrite (proj2 (Nat.eqb_eq _ _) (proj2 Htl eq_refl)).
        - rewrite lookup_insert_ne by done. destruct (Nat.eqb_spec (next n) 0) as [E0|]; [|done].
          exfalso. apply Hne. symmetry. by apply Htl. }
      split; [done|]. split; [done|]. split; [|split; [done|split; [|exact Hold]]].
      { exists p. split; [done|]. split; [apply lookup_insert_eq|done]. }
      apply (has_tid_found _ cs r [] (mems_set r [] mems)); [done| |].
      * exists (task_node tID p addtl). split; [apply lookup_insert_eq|done].
      * intros c Hc (n & Hn & Hid). destruct (mp_ok_ctx _ _ _ _ Hok Hc) as [n0 Hn0].
        apply (Hno c Hc). exists n0. split; [done|]. cbn [ctxs after_new with_malloc with_states with_ctxs] in Hn.
        rewrite (Hold _ _ Hn0) in Hn. destruct (next n0 =? 0)%nat; injection Hn as <-; done.
Qed.

Lemma task_remove_spec s mems xs y r ys ny nr tID :
  mp_ok s (xs ++ y :: r :: ys) mems -> ctxs s !! y = Some ny -> ctxs s !! r = Some nr ->
  id nr = tID -> (forall c, c ∈ xs ++ [y] -> ~ has_tid s tID c) ->
  exists bl m', mp_task_remove tID s = Some (tt, after_cut s y ny r nr bl m') /\ freed s (mems r) bl m'
    /\ mp_ok (after_cut s y ny r nr bl m') (xs ++ y :: ys) (mems_set r [] mems).
Proof.
  intros Hok Hy Hr Hid Hx.
  destruct (context_remove_spec s mems xs y r ys ny nr Hok Hy Hr) as (bl & m' & Hrem & Hf & Hok').
  exists bl, m'. split; [|done].
  unfold mp_task_remove. pose proof (owned_nonzero _ _ _ _ (ok_owned _ _ _ Hok) Hr) as Hr0.
  assert (Hb : mp_context_by_tid tID s = Some (r, s)).
  { rewrite (cons_middle y xs (r :: ys)), app_assoc in Hok. apply (has_tid_found _ _ _ _ _ _ Hok); [by exists nr|done]. }
  rewrite (M_bind_Some _ _ _ _ _ Hb). unfold mget. rewrite (M_bind_Some _ _ s s s) by done.
  destruct (Nat.eqb_spec r (mp_context_head s)) as [E|_]; [|by destruct (Nat.eqb_spec r 0)].
  exfalso. pose proof (lk_chain _ _ (ok_linked _ _ _ Hok)) as Hch. pose proof (chain_NoDup _ _ _ _ Hch) as Hnd.
  destruct xs as [|x xs]; destruct Hch as (Eh & _); rewrite Eh in E; subst;
    apply list.NoDup_cons in Hnd as [Hnd _]; apply Hnd; [left|]. apply elem_of_app. right. right. left.
Qed.

(** C1 Removal of a task.  The main task (the head of the list) and an id that no
    context has are left alone.  Any other task is taken off the list with its
    context, its state, its dynamic memory nodes and exactly the blocks they own:
    every other block, state and context stays (the predecessor's link apart),
    and nothing of the removed task stays allocated. *)
Theorem mp_task_remove_correct s cs mems tID :
  mp_ok s cs mems ->
  ((forall c, c ∈ cs -> ~ has_tid s tID c) \/ has_tid s tID (mp_context_head s) -> mp_task_remove tID s = Some (tt, s))
  /\ (forall xs y r ys ny nr, cs = xs ++ y :: r :: ys -> ctxs s !! y = Some ny -> ctxs s !! r = Some nr ->
      id nr = tID -> (forall c, c ∈ xs ++ [y] -> ~ has_tid s tID c) ->
      exists s', mp_task_remove tID s = Some (tt, s') /\ mp_ok s' (xs ++ y :: ys) (mems_set r [] mems)
      /\ ctxs s' = delete r (<[y := next_set (next nr) ny]> (ctxs s))
      /\ states s' = delete (state nr) (states s)
      /\ (forall b, blocks s' !! b = if decide (b ∈ blocks_of s (mems r)) then None else blocks s !! b)
      /\ (forall d, unlink <$> dyns s' !! d = if decide (d ∈ mems r) then None else unlink <$> dyns s !! d)).
Proof.
  intros Hok. split.
  - intros [Hno|Hhd]; unfold mp_task_remove.
    + assert (Hb : mp_context_by_tid tID s = Some (0%nat, s)).
      { eapply by_tid_none; [apply Hok|]. intros c n Hc Hn Hid. apply (Hno c Hc). by exists n. }
      rewrite (M_bind_Some _ _ _ _ _ Hb). unfold mget. rewrite (M_bind_Some _ _ s s s) by done.
      by destruct (0 =? mp_context_head s)%nat.
    + destruct cs as [|h cs]; [by destruct (lk_head _ _ (ok_linked _ _ _ Hok)), (lk_chain _ _ (ok_linked _ _ _ Hok))|].
      pose proof (lk_chain _ _ (ok_linked _ _ _ Hok)) as (Eh & _). rewrite Eh in Hhd.
      rewrite (M_bind_Some _ _ _ _ _ (has_tid_found s [] h cs mems tID Hok Hhd (fun c Hc => False_ind _ (proj1 (elem_of_nil _) Hc)))).
      unfold mget. rewrite (M_bind_Some _ _ s s s) by done. by rewrite Eh, Nat.eqb_refl.
  - intros xs y r ys ny nr -> Hy Hr Hid Hx.
    destruct (task_remove_spec s mems xs y r ys ny nr tID Hok Hy Hr Hid Hx) as (bl & m' & Hrem & [F1 F2] & Hok').
    exists (after_cut s y ny r nr bl m'). split; [done|]. split; [done|]. split; [done|]. split; [done|]. by split.
Qed.

(** The hook of a task switch.  The core's current id is always the id of the
    new task.  If a context has it, that context is active on the core from then
    on, the core's mirror of the context is a copy of it and the mirror variables
    are those of its state; if none has it, the active context stays.  Other
    cores, the contexts and their memory are untouched. *)
Theorem mp_task_switched_in_correct s cs mems core tID :
  mp_ok s cs mems ->
  exists s', mp_task_switched_in core tID s = Some (tt, s')
  /\ mp_current_tIDs s' = <[core := tID]> (mp_current_tIDs s)
  /\ mp_ok s' cs mems /\ ctxs s' = ctxs s /\ dyns s' = dyns s /\ states s' = states s /\ blocks s' = blocks s
  /\ ((exists c n v, has_tid s tID c /\ ctxs s !! c = Some n /\ states s !! state n = Some v
        /\ mp_active_contexts s' = <[core := c]> (mp_active_contexts s)
        /\ mp_active_context_mirrors s' = <[core := n]> (mp_active_context_mirrors s)
        /\ mp_active_vm s' = <[core := v]> (mp_active_vm s))
      \/ ((forall c, c ∈ cs -> ~ has_tid s tID c) /\ mp_active_contexts s' = mp_active_contexts s
        /\ mp_active_context_mirrors s' = mp_active_context_mirrors s /\ mp_active_vm s' = mp_active_vm s)).
Proof.
  intros Hok. unfold mp_task_switched_in. set (s1 := with_tIDs <[core := tID]> s).
  rewrite (M_bind_Some _ _ s tt s1) by done.
  assert (Hok1 : mp_ok s1 cs mems) by (destruct Hok as [[] [] ?]; constructor; [constructor|constructor|]; assumption).
  destruct (first_tid s cs tID) as [(xs & r & ys & -> & Hr & Hx)|Hno].
  - rewrite (M_bind_Some _ _ _ _ _ (has_tid_found s1 xs r ys mems tID Hok1 Hr Hx)).
    pose proof Hr as (n & Hn & _). destruct (context_switch_run s1 mems r n core (ok_owned _ _ _ Hok1) Hn) as (v & Hv & Hs).
    pose proof (owned_nonzero _ _ _ _ (ok_owned _ _ _ Hok) Hn). destruct (Nat.eqb_spec r 0); [done|].
    eexists. split; [exact Hs|]. split; [done|]. split.
    { destruct Hok as [[] [] ?]; constructor; [constructor|constructor|]; assumption. }
    repeat (split; [done|]). left. exists r, n, v. done.
  - assert (Hb : mp_context_by_tid tID s1 = Some (0%nat, s1)).
    { eapply by_tid_none; [apply Hok1|]. intros c n Hc Hn Hid. apply (Hno c Hc). by exists n. }
    rewrite (M_bind_Some _ _ _ _ _ Hb). exists s1. cbn [Nat.eqb]. repeat (split; [done|]). right. done.
Qed.

(** Memory of a context.  An allocation returns [NULL] and changes nothing, or
    a block that was not allocated, of the size asked for, that belongs to the
    context; freeing it succeeds and gives back exactly the memory there was;
    freeing it again, like freeing an address the context does not own, is
    refused with -1 and changes nothing. *)
Theorem mp_context_dynmem_correct s cs mems c n sz :
  mp_ok s cs mems -> ctxs s !! c = Some n ->
  (exists r s1, mp_context_dynmem_alloc sz c s = Some (r, s1)
   /\ ((r = 0%nat /\ mp_ok s1 cs mems /\ blocks s1 = blocks s /\ dyns s1 = dyns s /\ ctxs s1 = ctxs s)
       \/ (blocks s !! r = None /\ blocks s1 = <[r := sz]> (blocks s)
           /\ (exists d, dyns s !! d = None /\ mp_ok s1 cs (mems_set c (mems c ++ [d]) mems))
           /\ exists s2, mp_context_dynmem_free r c s1 = Some (0, s2) /\ blocks s2 = blocks s /\ mp_ok s2 cs mems
              /\ unlink <$> dyns s2 = unlink <$> dyns s
              /\ mp_context_dynmem_free r c s2 = Some (-1, s2))))
  /\ (forall mem, (forall d dn, d ∈ mems c -> dyns s !! d = Some dn -> dmem dn <> mem) ->
       mp_context_dynmem_free mem c s = Some (-1, s)).
Proof.
  intros Hok Hc. pose proof (ok_owned _ _ _ Hok) as Ho. split; [|intros mem Hm; by apply (dynmem_free_unknown s mems c n)].
  destruct (dynmem_alloc_spec s mems c n sz Ho Hc) as (r & s1 & b & o & Hal & Hb & Hcase).
  exists r, s1. split; [done|]. destruct Hcase as [[-> ->]|(Hr & d & h & m' & Hd & -> & Ho1 & Eu)].
  - left. split; [done|]. split; [by apply malloc_ok|done].
  - right. pose proof (own_fresh _ _ Ho) as Hfr. assert (Hrn : blocks s !! r = None) by (apply Hfr; lia).
    assert (Hdn : dyns s !! d = None) by (apply Hfr; lia).
    set (s1 := after_add s c d r sz n h m' b o) in *. set (mems1 := mems_set c (mems c ++ [d]) mems) in *.
    assert (Hc1 : ctxs s1 !! c = Some (memhead_set h n)) by apply lookup_insert_eq.
    split; [done|]. split; [done|]. split; [exists d; split; [done|]; by apply (memhead_ok s _ cs mems _ c n h Hok Hc)|].
    assert (Hdd : exists dn, dyns s1 !! d = Some dn /\ dmem dn = r).
    { pose proof (f_equal (fun k => k !! d) Eu) as Ed. cbv beta in Ed. rewrite lookup_insert_eq, lookup_fmap in Ed.
      cbn [dyns s1 after_add with_malloc with_blocks with_dyns with_ctxs].
      destruct (m' !! d) as [dn|]; [|done]. injection Ed as _ Ed _. eauto. }
    destruct Hdd as (dn & Hdn1 & Em).
    destruct (dynmem_free_spec s1 mems1 c (memhead_set h n) d dn (mems c) [] Ho1 Hc1) as (h2 & m2 & Hf & Ho2 & Em2);
      [unfold mems1; by rewrite mems_set_eq|done|].
    rewrite Em in Hf. exists (after_remove s1 c dn (memhead_set h n) h2 m2). split; [done|].
    assert (Ho3 : owned (after_remove s1 c dn (memhead_set h n) h2 m2) mems).
    { eapply owned_ext; [|exact Ho2]. intros c'. unfold mems1, mems_set. case_decide; [|done]. by rewrite app_nil_r; subst. }
    assert (Hdel : unlink <$> m2 = unlink <$> dyns s).
    { rewrite Em2. cbn [dyns s1 after_add with_malloc with_blocks with_dyns with_ctxs].
      rewrite Eu. rewrite delete_insert_id; [done|]. by rewrite lookup_fmap, Hdn. }
    split; [|split; [|split; [exact Hdel|]]].
    + cbn [blocks after_remove with_blocks with_dyns with_ctxs s1 after_add with_malloc]. rewrite Em. by rewrite delete_insert_id.
    + apply (memhead_ok s _ cs mems mems c n h2 Hok Hc Ho3); [|done].
      cbn [ctxs after_remove with_blocks with_dyns with_ctxs s1 after_add with_malloc]. by rewrite insert_insert_eq.
    + eapply dynmem_free_unknown; [exact Ho3|apply lookup_insert_eq|].
      intros x xn Hx Hxn Er. destruct (own_dyn _ _ Ho3 _ _ Hxn) as (_ & _ & _ & Hb3).
      rewrite Er in Hb3. cbn [blocks after_remove with_blocks with_dyns with_ctxs s1 after_add with_malloc] in Hb3.
      rewrite Em, lookup_delete_eq in Hb3. done.
Qed.

(** ** Witnesses *)

(** A task with id 5 at context 3, which owns one block of 16 bytes at 6. *)
Definition st_task : mp :=
  after_new mp_initial 3 4 (appended (ctxs mp_initial) 1 (state_set 2 zero_context) 3 (task_node 5 4 0)) 5 [].
Definition st_mem : mp :=
  after_add st_task 3 5 6 16 (task_node 5 4 0) 5 {[ 5%nat := MkDynmem 3 6 16 0 ]} 7 [].
Definition mems_mem : nat -> list nat := mems_set 3 [5%nat] (mems_set 3 [] (fun _ => [])).

Lemma st_task_ok : mp_ok st_task [1%nat; 3%nat] (mems_set 3 [] (fun _ => [])).
Proof. apply (appended_ok mp_initial [1%nat] (fun _ => []) []); try done; [exact mp_initial_ok|simpl; lia..]. Qed.

Lemma st_mem_ok : mp_ok st_mem [1%nat; 3%nat] mems_mem.
Proof.
  apply (memhead_ok st_task _ _ (mems_set 3 [] (fun _ => [])) _ 3 (task_node 5 4 0) 5 st_task_ok); try done.
  apply (owned_add _ (mems_set 3 [] (fun _ => []))); try done; try (simpl; lia).
  - apply st_task_ok.
  - simpl. split; [done|]. split; [done|]. by exists (MkDynmem 3 6 16 0).
  - intros x. rewrite list_elem_of_singleton, mems_set_eq. split; [auto|intros [?%elem_of_nil|]; done].
  - intros c n Hne Hc. rewrite mems_set_ne by done.
    pose proof (own_mems _ _ (ok_owned _ _ _ st_task_ok) c n Hc) as Hch. by rewrite mems_set_ne in Hch.
Qed.

Lemma mp_task_register_witness :
  mp_task_register 5 9 st_mem = Some (0%nat, st_mem)
  /\ exists s', mp_task_register 8 9 st_mem = Some (7%nat, s') /\ mp_ok s' [1%nat; 3%nat; 7%nat] (mems_set 7 [] mems_mem).
Proof.
  destruct (mp_task_register_correct st_mem _ _ 5 9 st_mem_ok) as [H _].
  destruct (mp_task_register_correct st_mem _ _ 8 9 st_mem_ok) as [_ H'].
  split; [apply H; exists 3%nat; split; [right; left|by eexists]|].
  destruct H' as (r & s' & E & Hcase).
  - intros c Hc. repeat (apply elem_of_cons in Hc as [->|Hc]; [intros (n & Hn & ?); vm_compute in Hn; by simplify_eq|]).
    by apply elem_of_nil in Hc.
  - assert (E7 : (fst <$> mp_task_register 8 9 st_mem) = Some 7%nat) by (vm_compute; reflexivity).
    rewrite E in E7. injection E7 as ->. exists s'. split; [exact E|]. destruct Hcase as [[? _]|(_ & Hok & _)]; [done|exact Hok].
Defined.

Lemma mp_task_remove_witness :
  mp_task_remove 0 st_mem = Some (tt, st_mem)
  /\ exists s', mp_task_remove 5 st_mem = Some (tt, s') /\ mp_ok s' [1%nat] (mems_set 3 [] mems_mem) /\ blocks s' !! 6%nat = None.
Proof.
  split; [apply (proj1 (mp_task_remove_correct st_mem _ _ 0 st_mem_ok)); right; by eexists|].
  destruct (mp_task_remove_correct st_mem _ _ 5 st_mem_ok) as [_ H].
  destruct (H [] 1%nat 3%nat [] (next_set 3 (state_set 2 zero_context)) (memhead_set 5 (task_node 5 4 0)))
    as (s' & E & Hok & _ & _ & Hb & _); try reflexivity.
  - intros c Hc. apply list_elem_of_singleton in Hc as ->. intros (n & Hn & ?). vm_compute in Hn. by simplify_eq.
  - exists s'. split; [exact E|]. split; [exact Hok|]. rewrite Hb. vm_compute. reflexivity.
Defined.

Lemma mp_task_switched_in_witness :
  exists s', mp_task_switched_in 1 5 st_mem = Some (tt, s') /\ mp_current_tIDs s' = {[ 1%nat := 5 ]} /\ mp_ok s' [1%nat; 3%nat] mems_mem.
Proof.
  destruct (mp_task_switched_in_correct st_mem _ _ 1 5 st_mem_ok) as (s' & E & Et & Hok & _).
  exists s'. split; [exact E|]. split; [exact Et|exact Hok].
Defined.

Lemma mp_context_dynmem_witness :
  mp_context_dynmem_free 12 3 st_mem = Some (-1, st_mem)
  /\ exists s1 s2, mp_context_dynmem_alloc 32 3 st_mem = Some (8%nat, s1) /\ mp_context_dynmem_free 8 3 s1 = Some (0, s2)
     /\ blocks s2 = {[ 6%nat := 16 ]}.
Proof.
  destruct (mp_context_dynmem_correct st_mem _ _ 3 (memhead_set 5 (task_node 5 4 0)) 32 st_mem_ok) as [(r & s1 & E & Hcase) H];
    [reflexivity|]. split.
  - apply H. intros d dn Hd Hdn. apply list_elem_of_singleton in Hd as ->. vm_compute in Hdn. by simplify_eq.
  - assert (E8 : (fst <$> mp_context_dynmem_alloc 32 3 st_mem) = Some 8%nat) by (vm_compute; reflexivity).
    rewrite E in E8. injection E8 as ->. destruct Hcase as [[? _]|(_ & _ & _ & s2 & Hf & Hb & _)]; [done|].
    exists s1, s2. split; [exact E|]. split; [exact Hf|]. rewrite Hb. vm_compute. reflexivity.
Defined.
