(* ===== verification/Multipython.v ===== *)
(** The [multipython] module, [ports/esp32/modmultipython.c] and
    [ports/esp32/mpstate_spiram.c]: starting, controlling and inspecting the
    interpreters, and the responses that tasks send to each other.

    The contexts are those of [MpState].  A call of FreeRTOS is an entry of a
    log.  A raised MicroPython exception is the outcome [Raise]; what was done
    before stays done.  Python code itself is not run here: a task is its
    beginning, the allocation of its heap, and its end. *)
From S2P Require Import Prelude PyExn LinkedList ResponseQueue MpState.

Definition MP_ENXIO : Z := 6.
Definition MP_ENOMEM : Z := 12.
Definition MP_EACCES : Z := 13.

(** The calls of FreeRTOS *)
Inductive rtos_call :=
  | vTaskDelete (task : Z) | vTaskSuspend (task : Z) | vTaskResume (task : Z)
  | xTaskCreate (context : nat) (core : option Z) | xTaskCreate_wakeup.

Inductive multipython_op_e := MP_CONTROL_OP_NONE | MP_CONTROL_OP_STOP | MP_CONTROL_OP_RESUME
  | MP_CONTROL_OP_SUSPEND | MP_CONTROL_OP_NUM | MP_CONTROL_OP_OTHER.

(** The conversion of the C [switch]. *)
Definition op_of (z : Z) : multipython_op_e :=
  if z =? 0 then MP_CONTROL_OP_NONE else if z =? 1 then MP_CONTROL_OP_STOP else if z =? 2 then MP_CONTROL_OP_RESUME
  else if z =? 3 then MP_CONTROL_OP_SUSPEND else if z =? 4 then MP_CONTROL_OP_NUM else MP_CONTROL_OP_OTHER.

(** MicroPython objects are words. *)
Record multipython_response_obj_t := MkRespObj {
  rcondition : Z; rcontext : nat; rcontrol_op : Z; rargument : Z }.
Record multipython_response_node_t := MkRespNode { response : nat; rnext : nat }.

Record mpy := MkMpy {
  mps : mp; rtos : list rtos_call;
  resp_objs : gmap nat multipython_response_obj_t; resp_nodes : gmap nat multipython_response_node_t;
  multipython_response_head : nat; multipython_is_initialized : bool }.

Definition with_mp (m : mp) (s : mpy) : mpy :=
  MkMpy m (rtos s) (resp_objs s) (resp_nodes s) (multipython_response_head s) (multipython_is_initialized s).
Definition with_rtos (c : rtos_call) (s : mpy) : mpy :=
  MkMpy (mps s) (rtos s ++ [c]) (resp_objs s) (resp_nodes s) (multipython_response_head s) (multipython_is_initialized s).
Definition with_resp (o : gmap nat multipython_response_obj_t) (n : gmap nat multipython_response_node_t) (h : nat)
    (s : mpy) : mpy := MkMpy (mps s) (rtos s) o n h (multipython_is_initialized s).
Definition with_init (b : bool) (s : mpy) : mpy :=
  MkMpy (mps s) (rtos s) (resp_objs s) (resp_nodes s) (multipython_response_head s) b.

(** ** Programs that may raise *)

Abbreviation E := (X mpy) (only parsing).

Definition eabort {A} : E A := fun _ => None.
Definition eget : E mpy := fun s => Some (Ok s, s).
Definition emodify (f : mpy -> mpy) : E unit := fun s => Some (Ok tt, f s).
Definition elift {A} (o : option A) : E A := fun s => a ← o; Some (Ok a, s).

(** An operation of [MpState]. *)
Definition on_mp {A} (m : M mp A) : E A := fun s => '(a, m') ← m (mps s); Some (Ok a, with_mp m' s).
Definition rtos_do (c : rtos_call) : E unit := emodify (with_rtos c).

(** ** The operations on a task *)

(** The checks that the three operations share. *)
Definition task_context (taskID : Z) : E nat :=
  context ← on_mp (mp_context_by_tid taskID);
  s ← eget;
  if (context =? mp_context_head (mps s))%nat then mp_raise (OSError MP_EACCES)
  else if (taskID =? 0) || (context =? 0)%nat then mp_raise (OSError MP_ENXIO)
  else mret context.

Definition multipython_end_task (taskID : Z) : E Z :=
  task_context taskID;;
  on_mp (mp_task_remove taskID);;
  rtos_do (vTaskDelete taskID);; mret 0.

Definition MP_CSUSP : Z := 1.

Definition multipython_suspend_task (taskID : Z) : E Z :=
  context ← task_context taskID;
  on_mp (ctx_update context (fun c => status_set (Z.lor (status c) MP_CSUSP) c));;
  rtos_do (vTaskSuspend taskID);; mret 0.

Definition multipython_resume_task (taskID : Z) : E Z :=
  context ← task_context taskID;
  c ← on_mp (ctx context);
  if Z.land (status c) MP_CSUSP =? 0 then mret (-1)
  else
    on_mp (ctx_update context (fun c => status_set (Z.land (status c) (Z.lnot MP_CSUSP)) c));;
    rtos_do (vTaskResume taskID);; mret 0.

(** *** Control *)

(** [op_func]; calling it when the operation is none of the enumeration is a
    call of [NULL]. *)
Definition op_func (op : multipython_op_e) (taskID : Z) : E Z :=
  match op with
  | MP_CONTROL_OP_STOP => multipython_end_task taskID
  | MP_CONTROL_OP_RESUME => multipython_resume_task taskID
  | MP_CONTROL_OP_SUSPEND => multipython_suspend_task taskID
  | _ => eabort
  end.

(** [for (iter = p; !done(iter); iter = next(iter)) body(iter)]: the link is read
    after the body, and the results of the bodies are collected. *)
Fixpoint foreach_context {A} (fuel : nat) (body : nat -> E (list A)) (iter : nat) : E (list A) :=
  if (iter =? 0)%nat then mret []
  else match fuel with
  | O => eabort
  | S fuel =>
      xs ← body iter;
      n ← on_mp (ctx iter);
      ys ← foreach_context fuel body (next n);
      mret (xs ++ ys)
  end.

(** No body adds a context. *)
Definition contexts_from {A} (body : nat -> E (list A)) (iter : nat) : E (list A) :=
  s ← eget; foreach_context (size (ctxs (mps s))) body iter.
Definition all_contexts {A} (body : nat -> E (list A)) : E (list A) :=
  s ← eget; contexts_from body (mp_context_head (mps s)).

(** The id that an integer argument stands for: a task id, or the address of a context. *)
Definition target_id (z : Z) (use_context : bool) : E Z :=
  let id' := wrap 32 z in
  if use_context then n ← on_mp (ctx (Z.to_nat id')); mret (id n) else mret id'.

(** [op_func(iter->id)], with [iter->id] in the list of results if it returned 0. *)
Definition control_context (op : multipython_op_e) (iter : nat) : E (list Z) :=
  n ← on_mp (ctx iter);
  r ← op_func op (id n);
  if r =? 0 then n' ← on_mp (ctx iter); mret [swrap 32 (id n')] else mret [].

(** [_multipython_control]: it returns an empty list. *)
Definition multipython_control_id (z : Z) (op : multipython_op_e) (use_context : bool) : E (list Z) :=
  match op with
  | MP_CONTROL_OP_NONE | MP_CONTROL_OP_NUM => mp_raise OSError_msg
  | _ =>
      target ← target_id z use_context;
      all_contexts (fun iter =>
        n ← on_mp (ctx iter);
        if id n =? target then op_func op (id n);; mret [] else mret [])
  end.

(** The arguments of the functions: small and long integers, lists, [None], other objects. *)
Inductive py_item := PSmall (z : Z) | PLong (z : Z) | POther.
Inductive py_arg := PItem (i : py_item) | PList (items : list py_item) | PNone.

(** [mp_obj_is_int] and [mp_obj_int_get_truncated] *)
Definition as_int (a : py_item) : option Z :=
  match a with PSmall z | PLong z => Some (swrap 32 z) | POther => None end.

(** The inner loop of the list case. *)
Fixpoint control_items (op : multipython_op_e) (use_context : bool) (zs : list Z) (iter : nat) : E (list Z) :=
  match zs with
  | [] => mret []
  | z :: zs =>
      target ← target_id z use_context;
      n ← on_mp (ctx iter);
      xs ← (if id n =? target then control_context op iter else mret []);
      ys ← control_items op use_context zs iter;
      mret (xs ++ ys)
  end.

Definition multipython_control (core : nat) (n_args : nat) (ids : py_arg) (op : Z) (use_context : bool) : E (list Z) :=
  match op_of op with
  | MP_CONTROL_OP_NONE | MP_CONTROL_OP_NUM => mp_raise OSError_msg
  | op =>
      if (n_args =? 0)%nat then
        s ← eget; h ← on_mp (ctx (mp_context_head (mps s))); contexts_from (control_context op) (next h)
      else match ids with
      | PItem i =>
          match as_int i with
          | None => mp_raise TypeError
          | Some z =>
              target ← target_id z use_context;
              all_contexts (fun iter =>
                n ← on_mp (ctx iter); if id n =? target then control_context op iter else mret [])
          end
      | PList items =>
          match mapM as_int items with
          | None => mp_raise TypeError
          | Some zs => all_contexts (control_items op use_context zs)
          end
      | PNone =>
          s ← eget; a ← elift (mp_active_contexts (mps s) !! core);
          n ← on_mp (ctx a);
          r ← op_func op (id n);
          if r =? 0 then n' ← on_mp (ctx 0); mret [swrap 32 (id n')]     (* [iter] is [NULL] here *)
          else mret []
      end
  end.

(** ** Inspection *)

(** The dictionary of a context; [args] is the address of a field of the node. *)
Record context_dict := MkDict {
  d_pos : option Z; d_tID : Z; d_state : nat; d_mem : nat; d_thread : nat; d_args : nat; d_status : Z;
  d_context_address : nat }.

(** [None] for [NULL] *)
Definition multipython_get_context_dict (context : nat) (position : Z) : E (option context_dict) :=
  if (context =? 0)%nat then mret None
  else
    n ← on_mp (ctx context);
    mret (Some (MkDict (if position <? 0 then None else Some position) (swrap 32 (id n)) (state n) (memhead n)
      (threadctrl n) context (status n) context)).

(** [for (...) if (test(iter->id)) append(dict(iter, num_entries++))], where the
    tests are tried in turn for each context. *)
Fixpoint get_tests (tests : list (Z -> bool)) (iter : nat) (num_entries : nat) : E (list (option context_dict) * nat) :=
  match tests with
  | [] => mret ([], num_entries)
  | test :: tests =>
      n ← on_mp (ctx iter);
      if test (id n) then
        d ← multipython_get_context_dict iter (Z.of_nat num_entries);
        '(ds, k) ← get_tests tests iter (S num_entries); mret (d :: ds, k)
      else get_tests tests iter num_entries
  end.

Fixpoint get_loop (fuel : nat) (tests : list (Z -> bool)) (iter num_entries : nat) : E (list (option context_dict)) :=
  if (iter =? 0)%nat then mret []
  else match fuel with
  | O => eabort
  | S fuel =>
      '(ds, k) ← get_tests tests iter num_entries;
      n ← on_mp (ctx iter);
      rest ← get_loop fuel tests (next n) k; mret (ds ++ rest)
  end.

Definition get_all (tests : list (Z -> bool)) : E (list (option context_dict)) :=
  s ← eget; get_loop (size (ctxs (mps s))) tests (mp_context_head (mps s)) 0.

Definition id_is (z : Z) : Z -> bool := fun id => id =? wrap 32 z.

(** In a list only long integers pass the type test [mp_obj_is_type(o, &mp_type_int)]. *)
Definition as_long (a : py_item) : option Z := match a with PLong z => Some (swrap 32 z) | _ => None end.

Definition multipython_get (core : nat) (arg : option py_arg) : E (list (option context_dict)) :=
  match arg with
  | None => get_all [fun _ => true]
  | Some (PItem i) => match as_int i with Some z => get_all [id_is z] | None => mp_raise TypeError end
  | Some (PList items) =>
      match mapM as_long items with Some zs => get_all (map id_is zs) | None => mp_raise TypeError end
  | Some PNone =>
      s ← eget; a ← elift (mp_active_contexts (mps s) !! core);
      d ← multipython_get_context_dict a (-1); mret [d]
  end.

(** [None] for the object [None]; the loop leaves [NULL] when the address is of no context. *)
Definition multipython_get_task_id (context_ptr_obj : py_item) : E (option Z) :=
  match as_int context_ptr_obj with
  | None => mret None
  | Some z =>
      let context := Z.to_nat (wrap 32 z) in
      if (context =? 0)%nat then mret None
      else
        iter ← on_mp (context_find (fun p _ => p =? context)%nat);
        n ← on_mp (ctx iter); mret (Some (id n))
  end.

Definition multipython_context (core : nat) : E nat := s ← eget; elift (mp_active_contexts (mps s) !! core).

(** ** Responses *)

(** A new response object and its node; [malloc] is that of [MpState]. *)
Definition multipython_response_make_new (condition : Z) (context : nat) (control_op argument : Z) : E nat :=
  response ← on_mp malloc;
  if (response =? 0)%nat then mp_raise (OSError MP_ENOMEM)
  else
    node ← on_mp malloc;
    if (node =? 0)%nat then mp_raise (OSError MP_ENOMEM)      (* [response] is freed; it was not in a store yet *)
    else
      s ← eget;
      let objs := <[response := MkRespObj condition context control_op argument]> (resp_objs s) in
      let nodes := <[node := MkRespNode response 0]> (resp_nodes s) in
      if (multipython_response_head s =? 0)%nat then
        emodify (with_resp objs nodes node);; mret response
      else
        tail ← elift (find_node rnext (size nodes) nodes (fun _ n => (rnext n =? 0)%nat) (multipython_response_head s));
        t ← elift (nodes !! tail);
        emodify (with_resp objs (<[tail := MkRespNode (Multipython.response t) node]> nodes) (multipython_response_head s));;
        mret response.

Section Notify.
(** [mp_obj_equal] and [mp_const_none] *)
Context (mp_obj_equal : Z -> Z -> bool) (mp_const_none : Z).

(** The body of the loop of [notify]: a full queue drops the entry.  The operation
    of an entry is a byte. *)
Definition notify_response (condition : Z) (iter : multipython_response_node_t) : E unit :=
  if (response iter =? 0)%nat then mp_raise OSError_msg
  else
    s ← eget; r ← elift (resp_objs s !! response iter);
    if mp_obj_equal (rcondition r) condition then
      n ← on_mp (ctx (rcontext r));
      match mp_response_queue_write (response_queue n) (MkResp (wrap 8 (rcontrol_op r)) (rargument r)) with
      | Some q => on_mp (ctx_update (rcontext r) (queue_set q))
      | None => mret tt
      end
    else mret tt.

Fixpoint notify_loop (fuel : nat) (condition : Z) (iter : nat) : E unit :=
  if (iter =? 0)%nat then mret tt
  else match fuel with
  | O => eabort
  | S fuel =>
      s ← eget; n ← elift (resp_nodes s !! iter);
      notify_response condition n;; notify_loop fuel condition (rnext n)
  end.

Definition multipython_notify (condition : Z) : E unit :=
  if mp_obj_equal condition mp_const_none then mret tt
  else s ← eget; notify_loop (size (resp_nodes s)) condition (multipython_response_head s).

Definition multipython_check_responses (core : nat) : E Z :=
  s ← eget; a ← elift (mp_active_contexts (mps s) !! core);
  n ← on_mp (ctx a);
  match mp_response_queue_read (response_queue n) with
  | Some (r, q) => on_mp (ctx_update a (queue_set q));; mret (argument r)
  | None => mret mp_const_none
  end.

End Notify.

(** One turn of the wakeup task. *)
Definition wakeup_context (citer : nat) : E (list unit) :=
  n ← on_mp (ctx citer);
  match mp_response_queue_peek (response_queue n) with
  | Some r =>
      match op_of (control_op r) with
      | MP_CONTROL_OP_RESUME => multipython_control_id (Z.of_nat citer) MP_CONTROL_OP_RESUME true;; mret []
      | _ => mret []
      end
  | None => mret []
  end.

Definition multipython_wakeup_call_turn : E (list unit) := all_contexts wakeup_context.

Definition multipython_init : E unit :=
  s ← eget;
  if multipython_is_initialized s then mret tt
  else rtos_do xTaskCreate_wakeup;; emodify (with_init true).

(** ** Tasks *)

Definition MP_PARSE_SINGLE_INPUT : Z := 0.
Definition MP_PARSE_FILE_INPUT : Z := 1.

(** [start(source, type, core, suspend)], each argument optional: of [source] only
    its length matters, or that it is not a string; the copy of its text is not
    represented. *)
Definition multipython_start (source : option (option Z)) (type core suspend : option Z) : E (option nat) :=
  match source with
  | None => mret None                                                   (* no arguments *)
  | Some source_len =>
      context ← on_mp (mp_task_register 0 0);
      if (context =? 0)%nat then mp_raise (OSError MP_ENOMEM)
      else
        len ← (match source_len with Some len => mret len | None => mp_raise TypeError end);   (* [mp_obj_str_get_str] *)
        source ← on_mp (mp_context_dynmem_alloc (len + 1) context);
        if (source =? 0)%nat then on_mp (mp_context_remove context);; mp_raise (OSError MP_ENOMEM)
        else
          let kind := match type with
                      | Some t => if swrap 32 t =? MP_PARSE_SINGLE_INPUT then MP_PARSE_SINGLE_INPUT else MP_PARSE_FILE_INPUT
                      | None => MP_PARSE_FILE_INPUT end in
          let susp := match suspend with Some z => wrap 8 (swrap 32 z) | None => 0 end in
          on_mp (ctx_update context (fun c => args_set (MkArgs kind source susp (addtl (args c))) c));;
          rtos_do (xTaskCreate context
            (match core with Some z => Some (if 1 <? wrap 8 (swrap 32 z) then 1 else wrap 8 (swrap 32 z)) | None => None end));;
          mret (Some context)
  end.

(** The task takes its id from the scheduler, and its context becomes active. *)
Definition task_begin (core context : nat) : E unit :=
  s ← eget; tID ← elift (mp_current_tIDs (mps s) !! core);
  on_mp (ctx_update context (id_set tID));;
  on_mp (mp_context_switch core context).

Definition mp_task_heap_size : Z := 32 * 1024.

(** The heap of the interpreter; [NULL] sends the task to its end. *)
Definition task_heap (core : nat) : E nat :=
  s ← eget; tID ← elift (mp_current_tIDs (mps s) !! core); on_mp (mp_task_alloc mp_task_heap_size tID).

(** Suspension at startup. *)
Definition task_startup_suspend (core context : nat) : E unit :=
  n ← on_mp (ctx context);
  if suspend (args n) =? 0 then mret tt
  else
    on_mp (ctx_update context (fun c => status_set (Z.lor (status c) MP_CSUSP) c));;
    rtos_do (vTaskSuspend 0).

(** The label [remove_task]; [vTaskDelete(NULL)] is the running task. *)
Definition task_end (core : nat) : E unit :=
  s ← eget; tID ← elift (mp_current_tIDs (mps s) !! core);
  on_mp (mp_task_remove tID);; rtos_do (vTaskDelete 0).

(** [multipython_task_template] around the code that the task runs. *)
Definition multipython_task_template (core context : nat) (run : E unit) : E unit :=
  task_begin core context;;
  heap ← task_heap core;
  if (heap =? 0)%nat then task_end core
  else task_startup_suspend core context;; run;; task_end core.

(** ** Memory with capabilities, [ports/esp32/mpstate_spiram.c]

    [heap_caps_malloc] is like [malloc] a call that returns a new address or [NULL]. *)
Definition mp_new_dynmem_node_heap_caps (caps : Z) : M mp nat :=
  p ← malloc; if (p =? 0)%nat then mret 0%nat else mmodify (with_dyns <[p := zero_dynmem]>);; mret p.

Definition mp_context_dynmem_alloc_heap_caps (size : Z) (context : nat) (caps : Z) : M mp nat :=
  if (context =? 0)%nat then mret 0%nat
  else
    node ← mp_new_dynmem_node_heap_caps caps;
    if (node =? 0)%nat then mret 0%nat
    else
      mem ← malloc;
      if (mem =? 0)%nat then free_dyn node;; mret 0%nat
      else
        mmodify (with_blocks <[mem := size]>);;
        dyn_update node (fun d => MkDynmem (dcontext d) mem size 0);;
        mp_dynmem_append node context;; mret mem.

Definition mp_task_alloc_heap_caps (size tID caps : Z) : M mp nat :=
  context ← mp_context_by_tid tID;
  if (context =? 0)%nat then mret 0%nat else mp_context_dynmem_alloc_heap_caps size context caps.
