(* ===== verification/MultipythonThms.v ===== *)
(** What the operations of [Multipython] do. *)
From S2P Require Import Prelude PyExn LinkedList ResponseQueue MpState MpStateSpec MpTasks MpThms Multipython.

(** ** Running programs that may raise *)

Lemma on_mp_run {A} (m : M mp A) s a m' : m (mps s) = Some (a, m') -> on_mp m s = Some (Ok a, with_mp m' s).
Proof. intros H. unfold on_mp. by rewrite H. Qed.

Lemma on_mp_read {A} (m : M mp A) s a : m (mps s) = Some (a, mps s) -> on_mp m s = Some (Ok a, s).
Proof. intros H. rewrite (on_mp_run _ _ _ _ H). by destruct s. Qed.

Lemma on_mp_None {A} (m : M mp A) s : m (mps s) = None -> on_mp m s = None.
Proof. intros H. unfold on_mp. by rewrite H. Qed.

Ltac eread H := rewrite (X_bind_Ok _ _ _ _ _ (on_mp_read _ _ _ H)).
Ltac edo H := rewrite (X_bind_Ok _ _ _ _ _ (on_mp_run _ _ _ _ H)).
Ltac edo_at w H := rewrite (X_bind_Ok _ _ _ _ _ (on_mp_run _ w _ _ H)).
Ltac estep s := match goal with |- context [mbind _ eget s] => rewrite (X_bind_Ok eget _ s s s) by reflexivity end.

(** A change of a context that keeps its place, its memory and its state. *)
Lemma ctx_edit_ok s cs mems c n n' : mp_ok s cs mems -> ctxs s !! c = Some n ->
  core_of n' = core_of n -> next n' = next n -> mp_ok (with_ctxs <[c := n']> s) cs mems.
Proof.
  intros [Ho Hl Ha] Hc E En. constructor.
  - apply (owned_core s mems (<[c := n']> (ctxs s))); [|done]. rewrite fmap_insert, E. apply insert_id. by rewrite lookup_fmap, Hc.
  - constructor; [apply Hl|]. cbn [ctxs with_ctxs mp_context_head]. eapply chain_insert_link; [apply Hl|exact Hc|done].
  - intros x nx. cbn [ctxs with_ctxs]. destruct (decide (c = x)) as [<-|Hne].
    + intros _. by eapply Ha.
    + rewrite lookup_insert_ne by done. apply Ha.
Qed.

(** ** The operations on a task *)

(** The task [t] runs in the context [r], which is not the main one. *)
Record task_at (s : mpy) (cs : list nat) (mems : nat -> list nat) (t : Z) (xs : list nat) (r : nat) (ys : list nat)
    (nr : mp_context_node_t) : Prop := {
  ta_ok : mp_ok (mps s) cs mems;
  ta_split : cs = xs ++ r :: ys;
  ta_main : xs <> [];
  ta_node : ctxs (mps s) !! r = Some nr;
  ta_id : id nr = t;
  ta_first : forall c, c ∈ xs -> ~ has_tid (mps s) t c;
  ta_t : t <> 0 }.

Lemma head_first s cs mems : mp_ok s cs mems -> exists tl, cs = mp_context_head s :: tl.
Proof.
  intros [_ [H0 Hc] _]. destruct cs as [|h tl]; [done|]. destruct Hc as (-> & _). eauto.
Qed.

Lemma task_by_tid s cs mems t xs r ys nr : task_at s cs mems t xs r ys nr ->
  mp_context_by_tid t (mps s) = Some (r, mps s).
Proof.
  intros [Hok Es _ Hr Hi Hx _]. rewrite Es in Hok. apply (has_tid_found _ _ _ _ _ _ Hok); [by exists nr|done].
Qed.

Lemma task_not_head s cs mems t xs r ys nr : task_at s cs mems t xs r ys nr -> r <> mp_context_head (mps s).
Proof.
  intros [Hok Es Hne Hr Hi Hx _] ->. destruct (head_first _ _ _ Hok) as [tl E]. rewrite Es in E.
  destruct xs as [|x xs]; [done|]. injection E as -> _.
  apply (Hx (mp_context_head (mps s))); [left|]. by exists nr.
Qed.

Lemma task_context_run s cs mems t xs r ys nr : task_at s cs mems t xs r ys nr -> task_context t s = Some (Ok r, s).
Proof.
  intros Ht. pose proof (task_by_tid _ _ _ _ _ _ _ _ Ht) as Hb. pose proof (task_not_head _ _ _ _ _ _ _ _ Ht) as Hh.
  unfold task_context. eread Hb. estep s. destruct (Nat.eqb_spec r (mp_context_head (mps s))); [done|].
  pose proof (owned_nonzero _ _ _ _ (ok_owned _ _ _ (ta_ok _ _ _ _ _ _ _ _ Ht)) (ta_node _ _ _ _ _ _ _ _ Ht)).
  pose proof (ta_t _ _ _ _ _ _ _ _ Ht). destruct (Z.eqb_spec t 0), (Nat.eqb_spec r 0); done.
Qed.

Lemma task_context_main s cs mems t : mp_ok (mps s) cs mems -> has_tid (mps s) t (mp_context_head (mps s)) ->
  task_context t s = Some (Raise (OSError MP_EACCES), s).
Proof.
  intros Hok Ht. destruct (head_first _ _ _ Hok) as [tl ->].
  assert (Hb : mp_context_by_tid t (mps s) = Some (mp_context_head (mps s), mps s)).
  { apply (has_tid_found _ [] _ tl mems); [done|done|]. by intros c ?%elem_of_nil. }
  unfold task_context. eread Hb. estep s. by rewrite Nat.eqb_refl.
Qed.

Lemma task_context_unknown s cs mems t : mp_ok (mps s) cs mems -> (forall c, c ∈ cs -> ~ has_tid (mps s) t c) ->
  task_context t s = Some (Raise (OSError MP_ENXIO), s).
Proof.
  intros Hok Ht. assert (Hb : mp_context_by_tid t (mps s) = Some (0%nat, mps s)).
  { eapply by_tid_none; [apply Hok|]. intros c n Hc Hn Hi. apply (Ht c Hc). by exists n. }
  unfold task_context. eread Hb. estep s. pose proof (lk_head _ _ (ok_linked _ _ _ Hok)).
  destruct (Nat.eqb_spec 0 (mp_context_head (mps s))); [congruence|]. by rewrite orb_true_r.
Qed.

(** The state after the status of [r] changed and the scheduler was called. *)
Definition after_status (z : Z) (c : rtos_call) (r : nat) (nr : mp_context_node_t) (s : mpy) : mpy :=
  with_rtos c (with_mp (with_ctxs <[r := status_set z nr]> (mps s)) s).

Lemma suspend_run s cs mems t xs r ys nr : task_at s cs mems t xs r ys nr ->
  multipython_suspend_task t s = Some (Ok 0, after_status (Z.lor (status nr) 1) (vTaskSuspend t) r nr s).
Proof.
  intros Ht. unfold multipython_suspend_task. rewrite (X_bind_Ok _ _ _ _ _ (task_context_run _ _ _ _ _ _ _ _ Ht)).
  edo (ctx_update_run _ _ _ (fun c => status_set (Z.lor (status c) MP_CSUSP) c) (ta_node _ _ _ _ _ _ _ _ Ht)). done.
Qed.

Lemma resume_run s cs mems t xs r ys nr : task_at s cs mems t xs r ys nr ->
  multipython_resume_task t s =
  Some (if Z.testbit (status nr) 0 then (Ok 0, after_status (Z.land (status nr) (Z.lnot 1)) (vTaskResume t) r nr s)
        else (Ok (-1), s)).
Proof.
  intros Ht. unfold multipython_resume_task. rewrite (X_bind_Ok _ _ _ _ _ (task_context_run _ _ _ _ _ _ _ _ Ht)).
  eread (ctx_run _ _ _ (ta_node _ _ _ _ _ _ _ _ Ht)).
  assert (Eb : (Z.land (status nr) MP_CSUSP =? 0) = negb (Z.testbit (status nr) 0)).
  { unfold MP_CSUSP. change 1 with (Z.ones 1). rewrite Z.land_ones by lia. change (2 ^ 1) with 2.
    rewrite <- Z.bit0_mod. by destruct (Z.testbit (status nr) 0). }
  rewrite Eb. destruct (Z.testbit (status nr) 0); [|done]. cbn [negb].
  edo (ctx_update_run _ _ _ (fun c => status_set (Z.land (status c) (Z.lnot MP_CSUSP)) c) (ta_node _ _ _ _ _ _ _ _ Ht)). done.
Qed.

Lemma lor_clear_bit0 z : Z.testbit z 0 = false -> Z.land (Z.lor z 1) (Z.lnot 1) = z.
Proof.
  intros H. apply Z.bits_inj'. intros k Hk. rewrite Z.land_spec, Z.lor_spec, Z.lnot_spec by done.
  destruct (decide (k = 0)) as [->|Hne]; [by rewrite H|].
  replace (Z.testbit 1 k) with false; [by rewrite orb_false_r, andb_true_r|].
  symmetry. apply (Z.bits_above_log2 1 k); simpl; lia.
Qed.

Lemma status_set_back z n : status_set (status n) (status_set z n) = n.
Proof. by destruct n. Qed.

Lemma after_status_ok z c s cs mems t xs r ys nr : task_at s cs mems t xs r ys nr ->
  task_at (after_status z c r nr s) cs mems t xs r ys (status_set z nr).
Proof.
  intros [Hok Es Hne Hr Hi Hx Ht]. constructor; try done.
  - by eapply ctx_edit_ok.
  - unfold after_status. cbn [mps with_rtos with_mp ctxs with_ctxs]. apply lookup_insert_eq.
  - intros c' Hc (n & Hn & Hid). apply (Hx c' Hc). unfold after_status in Hn.
    cbn [mps with_rtos with_mp ctxs with_ctxs] in Hn.
    destruct (decide (r = c')) as [<-|Hrc].
    + rewrite lookup_insert_eq in Hn. injection Hn as <-. by exists nr.
    + rewrite lookup_insert_ne in Hn by done. by exists n.
Qed.

(** ** The loop over the contexts *)

Lemma chain_next m p pre x post a : chain next m p (pre ++ x :: post) -> m !! x = Some a ->
  next a = hd 0%nat post.
Proof.
  revert p. induction pre as [|y pre IH]; intros p; simpl.
  - intros (_ & _ & a' & Ha' & Hc) Ha. simplify_eq. destruct post as [|z post]; [done|]. by destruct Hc as (-> & _).
  - intros (_ & _ & b & _ & Hc). eauto.
Qed.

(** One turn, after which the list of contexts still has the context. *)
Lemma foreach_step {A} fuel (body : nat -> E (list A)) s s1 cs1 mems1 pre x post xs :
  x <> 0%nat -> body x s = Some (Ok xs, s1) -> mp_ok (mps s1) cs1 mems1 -> cs1 = pre ++ x :: post ->
  foreach_context (S fuel) body x s =
  (ys ← foreach_context fuel body (hd 0%nat post); mret (xs ++ ys)) s1.
Proof.
  intros Hx Hb Hok Es. cbn [foreach_context]. destruct (Nat.eqb_spec x 0); [done|].
  rewrite (X_bind_Ok _ _ _ _ _ Hb). destruct (mp_ok_ctx _ _ _ x Hok) as [nx Hn].
  { rewrite Es. apply elem_of_app. right. left. }
  eread (ctx_run _ _ _ Hn). pose proof (lk_chain _ _ (ok_linked _ _ _ Hok)) as Hc. rewrite Es in Hc.
  by rewrite (chain_next _ _ _ _ _ _ Hc Hn).
Qed.

(** Contexts for which the body does nothing. *)
Lemma foreach_skip {A} (body : nat -> E (list A)) s cs mems xs pre post fuel :
  mp_ok (mps s) cs mems -> cs = pre ++ xs ++ post -> (forall x, x ∈ xs -> body x s = Some (Ok [], s)) ->
  foreach_context (length xs + fuel) body (hd 0%nat (xs ++ post)) s = foreach_context fuel body (hd 0%nat post) s.
Proof.
  intros Hok. revert pre. induction xs as [|x xs IH]; intros pre Es Hb; [done|].
  destruct (chain_lookup _ _ _ _ x (lk_chain _ _ (ok_linked _ _ _ Hok))) as [Hx _].
  { rewrite Es. apply elem_of_app. right. left. }
  cbn [app hd length Nat.add]. erewrite (foreach_step _ _ _ s cs mems pre x (xs ++ post) []); [|done|by apply Hb; left|done..].
  rewrite <- (IH (pre ++ [x])); [|by rewrite <- app_assoc|intros y Hy; apply Hb; by right].
  unfold mbind, X_bind. by destruct (foreach_context _ _ _ s) as [[[] ?]|].
Qed.

(** A loop in which only the body of [r] does something. *)
Lemma foreach_single {A} (body : nat -> E (list A)) s s1 cs mems mems1 xs r ys l :
  mp_ok (mps s) cs mems -> mp_ok (mps s1) cs mems1 -> cs = xs ++ r :: ys ->
  (forall x, x ∈ xs -> body x s = Some (Ok [], s)) -> body r s = Some (Ok l, s1) ->
  (forall x, x ∈ ys -> body x s1 = Some (Ok [], s1)) ->
  all_contexts body s = Some (Ok l, s1).
Proof.
  intros Hok Hok1 Es Hx Hr Hy. unfold all_contexts, contexts_from. estep s. estep s.
  pose proof (chain_size _ _ _ _ (lk_chain _ _ (ok_linked _ _ _ Hok))) as Hsz.
  destruct (chain_lookup _ _ _ _ r (lk_chain _ _ (ok_linked _ _ _ Hok))) as [Hr0 _].
  { rewrite Es. apply elem_of_app. right. left. }
  destruct (head_first _ _ _ Hok) as [tl Etl].
  replace (mp_context_head (mps s)) with (hd 0%nat (xs ++ r :: ys)) by (by rewrite <- Es, Etl).
  rewrite Es in Hsz. rewrite length_app, length_cons in Hsz.
  set (k := (size (ctxs (mps s)) - length xs - 1 - length ys)%nat).
  replace (size (ctxs (mps s))) with (length xs + S (length ys + k))%nat by lia.
  rewrite (foreach_skip body s cs mems xs [] (r :: ys)) by done. cbn [hd].
  rewrite (foreach_step _ _ s s1 cs mems1 xs r ys l) by done.
  pose proof (foreach_skip body s1 cs mems1 ys (xs ++ [r]) [] k Hok1) as Hs. rewrite app_nil_r in Hs.
  assert (Ef : foreach_context (length ys + k) body (hd 0%nat ys) s1 = Some (Ok [], s1)).
  { rewrite Hs; [|by rewrite Es, <- app_assoc|done]. by destruct k. }
  rewrite (X_bind_Ok _ _ _ _ _ Ef). by rewrite app_nil_r.
Qed.

(** Task ids are unique. *)
Definition unique_ids (s : mp) : Prop := forall c1 c2 n1 n2,
  ctxs s !! c1 = Some n1 -> ctxs s !! c2 = Some n2 -> id n1 = id n2 -> c1 = c2.

(** The body of the control loops for a context with another id. *)
Lemma control_other op s cs mems x t n : mp_ok (mps s) cs mems -> ctxs (mps s) !! x = Some n -> id n <> t ->
  (n ← on_mp (ctx x); if id n =? t then control_context op x else mret []) s = Some (Ok [], s).
Proof. intros Hok Hn Hi. eread (ctx_run _ _ _ Hn). by destruct (Z.eqb_spec (id n) t). Qed.

(** Control of one task by an operation that keeps its context. *)
Lemma control_by_id op s s1 cs mems t xs r ys nr nr1 z :
  task_at s cs mems t xs r ys nr -> unique_ids (mps s) -> 0 <= t < 2 ^ 32 ->
  op_func op t s = Some (Ok z, s1) -> task_at s1 cs mems t xs r ys nr1 ->
  (forall c n, c <> r -> ctxs (mps s1) !! c = Some n -> ctxs (mps s) !! c = Some n) ->
  all_contexts (fun iter => n ← on_mp (ctx iter); if id n =? t then control_context op iter else mret []) s
  = Some (Ok (if z =? 0 then [swrap 32 t] else []), s1).
Proof.
  intros Ht Hu Hrange Hop Ht1 Hsame. pose proof (ta_ok _ _ _ _ _ _ _ _ Ht) as Hok. pose proof (ta_ok _ _ _ _ _ _ _ _ Ht1) as Hok1.
  pose proof (ta_split _ _ _ _ _ _ _ _ Ht) as Es. pose proof (ta_node _ _ _ _ _ _ _ _ Ht) as Hr.
  pose proof (ta_id _ _ _ _ _ _ _ _ Ht) as Hid.
  pose proof (chain_NoDup _ _ _ _ (lk_chain _ _ (ok_linked _ _ _ Hok))) as Hnd. rewrite Es in Hnd.
  apply list.NoDup_app in Hnd as (_ & Hnx & Hny). apply list.NoDup_cons in Hny as [Hny _].
  apply (foreach_single _ s s1 cs mems mems xs r ys); try done.
  - intros x Hx. destruct (mp_ok_ctx _ _ _ x Hok) as [n Hn]; [rewrite Es; apply elem_of_app; by left|].
    eapply control_other; eauto. intros Hi. apply (Hnx x Hx).
    assert (x = r) as -> by (eapply Hu; eauto; congruence). left.
  - eread (ctx_run _ _ _ Hr). rewrite Hid, Z.eqb_refl. unfold control_context. eread (ctx_run _ _ _ Hr).
    rewrite Hid, (X_bind_Ok _ _ _ _ _ Hop). destruct (z =? 0); [|done].
    eread (ctx_run _ _ _ (ta_node _ _ _ _ _ _ _ _ Ht1)). by rewrite (ta_id _ _ _ _ _ _ _ _ Ht1).
  - intros x Hx. destruct (mp_ok_ctx _ _ _ x Hok1) as [n Hn]; [rewrite Es; apply elem_of_app; right; by right|].
    eapply control_other; eauto. intros Hi.
    assert (x <> r) as Hne by (intros ->; done). apply Hne. eapply Hu; eauto. congruence.
Qed.

Lemma end_run s cs mems t xs y r ys ny nr : task_at s cs mems t (xs ++ [y]) r ys nr -> ctxs (mps s) !! y = Some ny ->
  exists bl m', freed (mps s) (mems r) bl m'
    /\ multipython_end_task t s
       = Some (Ok 0, with_rtos (vTaskDelete t) (with_mp (after_cut (mps s) y ny r nr bl m') s))
    /\ mp_ok (after_cut (mps s) y ny r nr bl m') (xs ++ y :: ys) (mems_set r [] mems).
Proof.
  intros Ht Hy. pose proof Ht as [Hok Es Hne Hr Hi Hx Ht0]. rewrite Es, <- app_assoc in Hok. cbn [app] in Hok.
  destruct (task_remove_spec (mps s) mems xs y r ys ny nr t Hok Hy Hr Hi Hx) as (bl & m' & Hrem & Hf & Hok').
  exists bl, m'. split; [done|]. split; [|done]. unfold multipython_end_task.
  rewrite (X_bind_Ok _ _ _ _ _ (task_context_run _ _ _ _ _ _ _ _ Ht)). edo Hrem. done.
Qed.

(** The operations on a task.  On the main task all three raise [EACCES], on a
    task id that no context has they raise [ENXIO], and nothing changes.  On any
    other task suspension sets the flag of its context and calls the scheduler;
    resumption does so only if the flag is set and else returns -1; a resumption
    right after a suspension restores the status; and the end of the task frees
    its context with everything it owns before the scheduler deletes it. *)
Theorem multipython_task_ops_correct s cs mems t :
  mp_ok (mps s) cs mems ->
  (has_tid (mps s) t (mp_context_head (mps s)) -> forall f, f ∈ [multipython_end_task; multipython_suspend_task; multipython_resume_task] ->
     f t s = Some (Raise (OSError MP_EACCES), s))
  /\ ((forall c, c ∈ cs -> ~ has_tid (mps s) t c) -> forall f, f ∈ [multipython_end_task; multipython_suspend_task; multipython_resume_task] ->
     f t s = Some (Raise (OSError MP_ENXIO), s))
  /\ forall xs r ys nr, task_at s cs mems t xs r ys nr ->
     (exists s1, multipython_suspend_task t s = Some (Ok 0, s1) /\ mp_ok (mps s1) cs mems
        /\ ctxs (mps s1) = <[r := status_set (Z.lor (status nr) 1) nr]> (ctxs (mps s))
        /\ rtos s1 = rtos s ++ [vTaskSuspend t]
        /\ (Z.testbit (status nr) 0 = false -> exists s2, multipython_resume_task t s1 = Some (Ok 0, s2)
              /\ mps s2 = mps s /\ rtos s2 = rtos s ++ [vTaskSuspend t; vTaskResume t]))
     /\ (Z.testbit (status nr) 0 = false -> multipython_resume_task t s = Some (Ok (-1), s))
     /\ exists s1, multipython_end_task t s = Some (Ok 0, s1) /\ mp_ok (mps s1) (xs ++ ys) (mems_set r [] mems)
        /\ ctxs (mps s1) !! r = None /\ states (mps s1) !! state nr = None
        /\ (forall b, b ∈ blocks_of (mps s) (mems r) -> blocks (mps s1) !! b = None)
        /\ rtos s1 = rtos s ++ [vTaskDelete t].
Proof.
  intros Hok. split; [|split].
  - intros Ht f Hf. pose proof (task_context_main s cs mems t Hok Ht) as H.
    repeat (apply elem_of_cons in Hf as [->|Hf]; [exact (X_bind_Raise _ _ _ _ _ H)|]). by apply elem_of_nil in Hf.
  - intros Ht f Hf. pose proof (task_context_unknown s cs mems t Hok Ht) as H.
    repeat (apply elem_of_cons in Hf as [->|Hf]; [exact (X_bind_Raise _ _ _ _ _ H)|]). by apply elem_of_nil in Hf.
  - intros xs r ys nr Ht. split; [|split].
    + exists (after_status (Z.lor (status nr) 1) (vTaskSuspend t) r nr s). split; [exact (suspend_run _ _ _ _ _ _ _ _ Ht)|].
      pose proof (after_status_ok (Z.lor (status nr) 1) (vTaskSuspend t) _ _ _ _ _ _ _ _ Ht) as Ht1.
      split; [apply Ht1|]. split; [done|]. split; [done|]. intros Hb. rewrite (resume_run _ _ _ _ _ _ _ _ Ht1).
      cbn [status status_set]. rewrite Z.lor_spec, Hb. cbn [orb Z.testbit]. eexists. split; [reflexivity|].
      rewrite (lor_clear_bit0 _ Hb). split; [|cbn [rtos after_status with_rtos with_mp]; by rewrite <- app_assoc].
      unfold after_status. cbn [mps with_rtos with_mp]. rewrite status_set_back. unfold with_ctxs.
      cbn [ctxs dyns states blocks brk oom mp_context_head mp_active_contexts mp_active_context_mirrors mp_active_vm mp_current_tIDs].
      rewrite insert_insert_eq, insert_id by apply Ht. by destruct (mps s).
    + intros Hb. by rewrite (resume_run _ _ _ _ _ _ _ _ Ht), Hb.
    + destruct xs as [|y xs _] using rev_ind; [by destruct (ta_main _ _ _ _ _ _ _ _ Ht)|].
      destruct (mp_ok_ctx _ _ _ y Hok) as [ny Hny].
      { rewrite (ta_split _ _ _ _ _ _ _ _ Ht). apply elem_of_app. left. apply elem_of_app. right. left. }
      destruct (end_run _ _ _ _ _ _ _ _ _ _ Ht Hny) as (bl & m' & [Hfb _] & He & Hok').
      eexists. split; [exact He|]. rewrite <- app_assoc. cbn [app]. split; [exact Hok'|].
      cbn [mps with_rtos with_mp]. split; [apply lookup_delete_eq|]. split; [apply lookup_delete_eq|]. split; [|done].
      intros b Hb. cbn [blocks after_cut with_states with_blocks]. rewrite Hfb. by rewrite decide_True.
Qed.

Lemma swrap_of_wrap t z : 0 <= t < 2 ^ 32 -> t = wrap 32 z -> wrap 32 (swrap 32 z) = t.
Proof.
  intros Ht ->. unfold swrap, wrap. rewrite Zminus_mod_idemp_l. f_equal. lia.
Qed.

(** Control by task id.  When ids are unique and the id [z] is that of a task
    other than the main one, [control(z, SUSPEND)] and [control(z, RESUME)] do to
    this task what the operation does, leave every other context alone, and
    return the list of the task's id, empty for a resumption that was not due. *)
Theorem multipython_control_correct core s cs mems t xs r ys nr z :
  task_at s cs mems t xs r ys nr -> unique_ids (mps s) -> 0 <= t < 2 ^ 32 -> t = wrap 32 z ->
  (exists s1, multipython_control core 1 (PItem (PSmall z)) 3 false s = Some (Ok [swrap 32 t], s1)
     /\ multipython_suspend_task t s = Some (Ok 0, s1)
     /\ ctxs (mps s1) = <[r := status_set (Z.lor (status nr) 1) nr]> (ctxs (mps s)))
  /\ (exists s1 k, multipython_control core 1 (PItem (PSmall z)) 2 false s
        = Some (Ok (if Z.testbit (status nr) 0 then [swrap 32 t] else []), s1)
     /\ multipython_resume_task t s = Some (Ok k, s1)
     /\ ctxs (mps s1) = <[r := status_set (Z.land (status nr) (Z.lnot 1)) nr]> (ctxs (mps s))).
Proof.
  intros Ht Hu Hr Ez.
  assert (Etid : forall w, target_id (swrap 32 z) false w = Some (Ok t, w)).
  { intros w. unfold target_id. by rewrite (swrap_of_wrap t z Hr Ez). }
  assert (Hsame : forall v c n c' s0, c' = r -> mps s0 = with_ctxs <[c' := v]> (mps s) -> c <> r ->
    ctxs (mps s0) !! c = Some n -> ctxs (mps s) !! c = Some n).
  { intros v c n c' s0 -> -> Hne. cbn [ctxs with_ctxs]. by rewrite lookup_insert_ne by done. }
  split.
  - pose proof (suspend_run _ _ _ _ _ _ _ _ Ht) as Hs. eexists. split; [|split; [exact Hs|done]].
    unfold multipython_control. cbn [op_of as_int Nat.eqb Z.eqb Pos.eqb]. rewrite (X_bind_Ok _ _ _ _ _ (Etid s)).
    eapply (control_by_id MP_CONTROL_OP_SUSPEND _ _ _ _ _ _ _ _ _ _ 0 Ht Hu Hr Hs).
    + by apply after_status_ok.
    + intros c n Hne. by eapply Hsame.
  - pose proof (resume_run _ _ _ _ _ _ _ _ Ht) as Hs. destruct (Z.testbit (status nr) 0) eqn:Eb.
    + eexists _, 0. split; [|split; [exact Hs|done]].
      unfold multipython_control. cbn [op_of as_int Nat.eqb Z.eqb Pos.eqb]. rewrite (X_bind_Ok _ _ _ _ _ (Etid s)).
      eapply (control_by_id MP_CONTROL_OP_RESUME _ _ _ _ _ _ _ _ _ _ 0 Ht Hu Hr Hs).
      * by apply after_status_ok.
      * intros c n Hne. by eapply Hsame.
    + eexists _, (-1). split; [|split; [exact Hs|]].
      * unfold multipython_control. cbn [op_of as_int Nat.eqb Z.eqb Pos.eqb]. rewrite (X_bind_Ok _ _ _ _ _ (Etid s)).
        eapply (control_by_id MP_CONTROL_OP_RESUME _ _ _ _ _ _ _ _ _ _ (-1) Ht Hu Hr Hs); [exact Ht|done].
      * rewrite <- (lor_clear_bit0 (status nr) Eb) at 1.
        replace (Z.land (Z.land (Z.lor (status nr) 1) (Z.lnot 1)) (Z.lnot 1)) with (status nr).
        { rewrite insert_id; [done|]. rewrite (ta_node _ _ _ _ _ _ _ _ Ht). f_equal. by destruct nr. }
        by rewrite <- Z.land_assoc, Z.land_diag, lor_clear_bit0.
Qed.

(** Stopping a task by its id reads the node of its context after the node was
    freed: with unique ids [control(id, STOP)] and the internal
    [_multipython_control] have no defined result for any task but the main one. *)
Theorem multipython_control_stop_use_after_free core s cs mems t xs r ys nr z :
  task_at s cs mems t xs r ys nr -> unique_ids (mps s) -> 0 <= t < 2 ^ 32 -> t = wrap 32 z ->
  multipython_control core 1 (PItem (PSmall z)) 1 false s = None
  /\ multipython_control_id z MP_CONTROL_OP_STOP false s = None.
Proof.
  intros Ht Hu Hrange Ez. pose proof (ta_ok _ _ _ _ _ _ _ _ Ht) as Hok. pose proof (ta_split _ _ _ _ _ _ _ _ Ht) as Es.
  pose proof (ta_node _ _ _ _ _ _ _ _ Ht) as Hr. pose proof (ta_id _ _ _ _ _ _ _ _ Ht) as Hid.
  destruct xs as [|y xs _] using rev_ind; [by destruct (ta_main _ _ _ _ _ _ _ _ Ht)|].
  destruct (mp_ok_ctx _ _ _ y Hok) as [ny Hny]; [rewrite Es, <- app_assoc; apply elem_of_app; right; left|].
  destruct (end_run _ _ _ _ _ _ _ _ _ _ Ht Hny) as (bl & m' & _ & He & _).
  set (s1 := with_rtos (vTaskDelete t) (with_mp (after_cut (mps s) y ny r nr bl m') s)) in *.
  assert (Hgone : on_mp (ctx r) s1 = None).
  { apply on_mp_None. unfold ctx, mget, mlift, mbind, M_bind. cbn [ctxs mps s1 with_rtos with_mp after_cut with_states with_blocks with_dyns with_ctxs cut].
    unfold cut. by rewrite lookup_delete_eq. }
  pose proof (chain_size _ _ _ _ (lk_chain _ _ (ok_linked _ _ _ Hok))) as Hsz. rewrite Es, length_app, length_cons in Hsz.
  destruct (chain_lookup _ _ _ _ r (lk_chain _ _ (ok_linked _ _ _ Hok))) as [Hr0 _].
  { rewrite Es. apply elem_of_app. right. left. }
  destruct (head_first _ _ _ Hok) as [tl Etl].
  pose proof (chain_NoDup _ _ _ _ (lk_chain _ _ (ok_linked _ _ _ Hok))) as Hnd. rewrite Es in Hnd.
  apply list.NoDup_app in Hnd as (_ & Hnx & _).
  assert (Hloop : forall body : nat -> E (list Z),
    (forall x n, ctxs (mps s) !! x = Some n -> id n <> t -> body x s = Some (Ok [], s)) ->
    (body r s = None \/ exists l, body r s = Some (Ok l, s1)) -> all_contexts body s = None).
  { intros body Hskip Hbody. unfold all_contexts, contexts_from. estep s. estep s.
    replace (mp_context_head (mps s)) with (hd 0%nat ((xs ++ [y]) ++ r :: ys)) by (by rewrite <- Es, Etl).
    set (k := (size (ctxs (mps s)) - length (xs ++ [y]) - 1)%nat).
    replace (size (ctxs (mps s))) with (length (xs ++ [y]) + S k)%nat by lia.
    rewrite (foreach_skip body s cs mems (xs ++ [y]) [] (r :: ys)); [|done|done|].
    - cbn [hd foreach_context]. destruct (Nat.eqb_spec r 0); [done|].
      destruct Hbody as [Hb|[l Hb]]; [exact (X_bind_None _ _ _ Hb)|].
      rewrite (X_bind_Ok _ _ _ _ _ Hb). exact (X_bind_None _ _ _ Hgone).
    - intros x Hx. destruct (mp_ok_ctx _ _ _ x Hok) as [n Hn]; [rewrite Es; apply elem_of_app; by left|].
      eapply Hskip; [exact Hn|]. intros Hi. apply (Hnx x Hx).
      assert (x = r) as -> by (eapply Hu; eauto; congruence). left. }
  assert (Etid : target_id z false s = Some (Ok t, s)) by (unfold target_id; by rewrite <- Ez).
  assert (Etid' : target_id (swrap 32 z) false s = Some (Ok t, s)).
  { unfold target_id. by rewrite (swrap_of_wrap t z Hrange Ez). }
  split.
  - unfold multipython_control. cbn [op_of as_int Nat.eqb Z.eqb Pos.eqb]. rewrite (X_bind_Ok _ _ _ _ _ Etid').
    apply Hloop; [intros x n Hn Hi; by eapply control_other|left].
    eread (ctx_run _ _ _ Hr). rewrite Hid, Z.eqb_refl. unfold control_context. eread (ctx_run _ _ _ Hr).
    rewrite Hid. cbn [op_func]. rewrite (X_bind_Ok _ _ _ _ _ He). exact (X_bind_None _ _ _ Hgone).
  - unfold multipython_control_id. rewrite (X_bind_Ok _ _ _ _ _ Etid).
    apply Hloop.
    + intros x n Hn Hi. eread (ctx_run _ _ _ Hn). by destruct (Z.eqb_spec (id n) t).
    + right. eexists. eread (ctx_run _ _ _ Hr). rewrite Hid, Z.eqb_refl. cbn [op_func].
      rewrite (X_bind_Ok _ _ _ _ _ He). reflexivity.
Qed.
