(* ===== verification/MultipythonTasks.v ===== *)
(** The life of a task of [Multipython]: its start, its run and its end. *)
From S2P Require Import Prelude PyExn LinkedList ResponseQueue MpState MpStateSpec MpTasks MpThms Multipython MultipythonThms.

(** ** Removal undoes registration *)

Lemma next_set_back n k : next n = k -> next_set k n = n.
Proof. intros <-. by destruct n. Qed.

Lemma next_set_set j k n : next_set j (next_set k n) = next_set j n.
Proof. done. Qed.

(** Taking the appended context off again. *)
Lemma cut_appended m t nt r nr : m !! r = None -> m !! t = Some nt -> next nt = 0%nat -> next nr = 0%nat ->
  cut (appended m t nt r nr) t (next_set r nt) r nr = m.
Proof.
  intros Hr Ht Hn Hnr. assert (r <> t) by congruence. unfold cut, appended. rewrite Hnr, next_set_set.
  rewrite insert_insert_ne, insert_insert_eq by congruence.
  rewrite delete_insert_id by (by rewrite lookup_insert_ne by congruence). by rewrite next_set_back, insert_id.
Qed.

(** The empty memory of a context frees nothing. *)
Lemma freed_nil s bl m' : freed s [] bl m' -> bl = blocks s /\ unlink <$> m' = unlink <$> dyns s.
Proof.
  intros [H1 H2]. split.
  - apply map_eq. intros b. rewrite H1. by rewrite decide_False by by intros ?%elem_of_nil.
  - apply map_eq. intros d. rewrite !lookup_fmap, H2. by rewrite decide_False by by intros ?%elem_of_nil.
Qed.

(** A registered context, whatever memory it was given since, comes off again. *)
Lemma remove_new s s1 cs mems mems1 xs t nt r p nr n1 :
  mp_ok s cs mems -> cs = xs ++ [t] -> ctxs s !! t = Some nt -> ctxs s !! r = None -> states s !! p = None ->
  mp_ok s1 (cs ++ [r]) mems1 -> ctxs s1 = appended (ctxs s) t nt r n1 -> states s1 = <[p := zero_state]> (states s) ->
  n1 = memhead_set nr n1 -> state n1 = p -> next n1 = 0%nat ->
  exists s2 bl m', mp_context_remove r s1 = Some (tt, s2) /\ mp_ok s2 cs (mems_set r [] mems1)
    /\ ctxs s2 = ctxs s /\ states s2 = states s /\ blocks s2 = bl /\ freed s1 (mems1 r) bl m' /\ dyns s2 = m'.
Proof.
  intros Hok Es Ht Hr Hp Hok1 Ec Est En Estate Enext. assert (Hrt : r <> t) by congruence.
  assert (Hy : ctxs s1 !! t = Some (next_set r nt)).
  { rewrite Ec. unfold appended. by rewrite lookup_insert_ne, lookup_insert_eq by done. }
  assert (Hr1 : ctxs s1 !! r = Some n1) by (rewrite Ec; apply lookup_insert_eq).
  rewrite Es, <- app_assoc in Hok1. cbn [app] in Hok1.
  destruct (context_remove_spec s1 mems1 xs t r [] _ _ Hok1 Hy Hr1) as (bl & m' & Hrem & Hf & Hok2).
  eexists _, bl, m'. split; [exact Hrem|]. split; [by rewrite Es|].
  split; [|split; [|done]].
  - unfold after_cut. cbn [ctxs with_states with_blocks with_dyns with_ctxs]. rewrite Ec. apply cut_appended; try done.
    by apply (tail_links s cs mems xs t Hok Es t nt Ht).
  - unfold after_cut. cbn [states with_states with_blocks with_dyns with_ctxs]. rewrite Est, Estate. by rewrite delete_insert_id.
Qed.

(** ** Start *)

Definition start_args (len : Z) (type suspend : option Z) (source : nat) : mp_task_args_t :=
  MkArgs (match type with
          | Some t => if swrap 32 t =? MP_PARSE_SINGLE_INPUT then MP_PARSE_SINGLE_INPUT else MP_PARSE_FILE_INPUT
          | None => MP_PARSE_FILE_INPUT end)
    source (match suspend with Some z => wrap 8 (swrap 32 z) | None => 0 end) 0.

Definition start_core (core : option Z) : option Z :=
  match core with Some z => Some (if 1 <? wrap 8 (swrap 32 z) then 1 else wrap 8 (swrap 32 z)) | None => None end.

(** What the registration of a new context [c] has left of the state [m]. *)
Record registered (m m1 : mp) (cs xs : list nat) (mems : nat -> list nat) (t : nat) (nt : mp_context_node_t) (c p : nat) : Prop := {
  rg_run : mp_task_register 0 0 m = Some (c, m1);
  rg_last : cs = xs ++ [t];
  rg_tail : ctxs m !! t = Some nt;
  rg_ok : mp_ok m1 (cs ++ [c]) (mems_set c [] mems);
  rg_nonzero : c <> 0%nat;
  rg_new : ctxs m !! c = None;
  rg_new_state : states m !! p = None;
  rg_ctxs : ctxs m1 = appended (ctxs m) t nt c (task_node 0 p 0);
  rg_states : states m1 = <[p := zero_state]> (states m);
  rg_blocks : blocks m1 = blocks m;
  rg_brk : (brk m <= brk m1)%nat }.

Lemma register_cases m cs mems : mp_ok m cs mems -> (forall c, c ∈ cs -> ~ has_tid m 0 c) ->
  (exists b o, mp_task_register 0 0 m = Some (0%nat, with_malloc b o m) /\ (brk m <= b)%nat)
  \/ exists m1 xs t nt c p, registered m m1 cs xs mems t nt c p.
Proof.
  intros Hok Hno. destruct (mp_ok_last _ _ _ Hok) as (xs & t & nt & Es & Ht).
  destruct (task_register_spec m cs mems xs t nt 0 0 Hok Es Ht) as (c & s1 & b & o & Hreg & Hb & Hcase).
  { intros c n Hc Hn Hid. apply (Hno c Hc). by exists n. }
  pose proof (own_fresh _ _ (ok_owned _ _ _ Hok)) as Hfr. pose proof (own_brk _ _ (ok_owned _ _ _ Hok)) as Hb0.
  destruct Hcase as [[-> ->]|(Hrb & p & Hp & ->)]; [left; by exists b, o|right].
  eexists _, xs, t, nt, c, p. constructor; try done; try lia; try (apply Hfr; lia).
  - by apply (appended_ok m cs mems xs).
Qed.

(** A registered context whose source cannot be copied is taken off again. *)
Lemma start_no_source_memory s cs mems m1 xs t nt c p b o :
  mp_ok (mps s) cs mems -> registered (mps s) m1 cs xs mems t nt c p -> (brk m1 <= b)%nat ->
  exists m3, mp_context_remove c (with_malloc b o m1) = Some (tt, m3) /\ (exists mems', mp_ok m3 cs mems')
    /\ ctxs m3 = ctxs (mps s) /\ states m3 = states (mps s) /\ blocks m3 = blocks (mps s).
Proof.
  intros Hok R Hb. pose proof R as [? ? ? Hok1 ? ? ? ? ? Ebl ?].
  destruct (remove_new (mps s) (with_malloc b o m1) cs mems (mems_set c [] mems) xs t nt c p 0 (task_node 0 p 0))
    as (m3 & bl & m' & Hrem & Hok3 & Ec3 & Est3 & Ebl3 & Hfreed & Edy); try done; [by apply malloc_ok|].
  rewrite mems_set_eq in Hfreed. destruct (freed_nil _ _ _ Hfreed) as [E _].
  exists m3. split_and!; try done; [by eexists|rewrite Ebl3, E; exact Ebl].
Qed.

(** The rest of the start after the registration, for a string. *)
Lemma start_source s cs mems m1 xs t nt c p len type core suspend :
  mp_ok (mps s) cs mems -> registered (mps s) m1 cs xs mems t nt c p ->
  exists r s', multipython_start (Some (Some len)) type core suspend s = Some (r, s')
   /\ ((r = Raise (OSError MP_ENOMEM) /\ (exists mems', mp_ok (mps s') cs mems') /\ ctxs (mps s') = ctxs (mps s)
        /\ states (mps s') = states (mps s) /\ blocks (mps s') = blocks (mps s) /\ rtos s' = rtos s)
       \/ exists source d, r = Ok (Some c)
          /\ mp_ok (mps s') (cs ++ [c]) (mems_set c [d] (mems_set c [] mems))
          /\ ctxs (mps s') !! c = Some (MkContext 0 0 p (start_args len type suspend source) 0 empty_queue d 0)
          /\ blocks (mps s') = <[source := len + 1]> (blocks (mps s)) /\ blocks (mps s) !! source = None
          /\ rtos s' = rtos s ++ [xTaskCreate c (start_core core)]).
Proof.
  intros Hok R. pose proof R as [Hreg _ _ Hok1 Hc0 _ _ Ec1 _ Ebl Hbrk].
  pose proof (own_fresh _ _ (ok_owned _ _ _ Hok)) as Hfr. pose proof (own_brk _ _ (ok_owned _ _ _ Hok)) as Hb0.
  assert (Hc1 : ctxs m1 !! c = Some (task_node 0 p 0)) by (rewrite Ec1; apply lookup_insert_eq).
  destruct (dynmem_alloc_spec m1 _ c _ (len + 1) (ok_owned _ _ _ Hok1) Hc1) as (src & m2 & b2 & o2 & Hal & Hb2 & Hcase).
  unfold multipython_start. edo Hreg. destruct (Nat.eqb_spec c 0); [done|].
  rewrite (X_bind_Ok (mret len) _ _ len (with_mp m1 s)) by reflexivity. edo_at (with_mp m1 s) Hal.
  destruct Hcase as [[-> ->]|(Hsrc & d & h & m' & Hd & -> & Ho2 & _)].
  - destruct (start_no_source_memory s cs mems m1 xs t nt c p b2 o2 Hok R Hb2) as (m3 & Hrem & H).
    cbn [Nat.eqb]. edo_at (with_mp (with_malloc b2 o2 m1) s) Hrem. eexists _, _. split; [reflexivity|]. left.
    split; [done|]. destruct H as (? & ? & ? & ?). by split_and!.
  - set (m2 := after_add _ _ _ _ _ _ _ _ _ _) in *. rewrite mems_set_eq in Ho2. cbn [app] in Ho2.
    assert (Hok2 : mp_ok m2 (cs ++ [c]) (mems_set c [d] (mems_set c [] mems))) by exact (memhead_ok m1 m2 _ _ _ c _ h Hok1 Hc1 Ho2 eq_refl eq_refl).
    assert (Hc2 : ctxs m2 !! c = Some (memhead_set h (task_node 0 p 0))) by apply lookup_insert_eq.
    assert (h = d) as ->.
    { pose proof (own_mems _ _ Ho2 _ _ Hc2) as Hch. rewrite mems_set_eq in Hch. by destruct Hch as (Eh & _). }
    pose proof (ctx_edit_ok _ _ _ _ _ (args_set (start_args len type suspend src) (memhead_set d (task_node 0 p 0)))
      Hok2 Hc2 eq_refl eq_refl) as Hok3.
    assert (Hs0 : src <> 0%nat) by lia. destruct (Nat.eqb_spec src 0); [done|].
    edo_at (with_mp m2 s) (ctx_update_run _ _ _ (fun c => args_set (MkArgs (input_kind (start_args len type suspend src)) src
       (MpState.suspend (start_args len type suspend src)) (addtl (args c))) c) Hc2).
    eexists _, _. split; [reflexivity|]. right. exists src, d. split; [done|]. split; [exact Hok3|].
    split; [apply lookup_insert_eq|]. split; [by rewrite <- Ebl|]. split; [apply Hfr; lia|done].
Qed.

(** C3 The start of a task.  If a context still has id 0 (a task that was started
    but has not run yet) the start fails with [ENOMEM].  Otherwise, for a string
    as source, either memory ran out, [ENOMEM] is raised and every context,
    state and block is as before; or a new context with id 0, the arguments and a
    copy of the source of its own is at the end of the list, and the scheduler
    was asked for a task with it.  If the source is not a string, the exception
    leaves the new context behind, and every start after that fails. *)
Theorem multipython_start_correct s cs mems type core suspend :
  mp_ok (mps s) cs mems ->
  (forall src c, c ∈ cs -> has_tid (mps s) 0 c ->
     multipython_start (Some src) type core suspend s = Some (Raise (OSError MP_ENOMEM), s))
  /\ ((forall c, c ∈ cs -> ~ has_tid (mps s) 0 c) ->
      (forall len, exists r s', multipython_start (Some (Some len)) type core suspend s = Some (r, s')
       /\ ((r = Raise (OSError MP_ENOMEM) /\ (exists mems', mp_ok (mps s') cs mems') /\ ctxs (mps s') = ctxs (mps s)
            /\ states (mps s') = states (mps s) /\ blocks (mps s') = blocks (mps s) /\ rtos s' = rtos s)
           \/ exists c source p d, r = Ok (Some c) /\ (c ∉ cs)
              /\ mp_ok (mps s') (cs ++ [c]) (mems_set c [d] (mems_set c [] mems))
              /\ ctxs (mps s') !! c = Some (MkContext 0 0 p (start_args len type suspend source) 0 empty_queue d 0)
              /\ blocks (mps s') = <[source := len + 1]> (blocks (mps s)) /\ blocks (mps s) !! source = None
              /\ rtos s' = rtos s ++ [xTaskCreate c (start_core core)]))
      /\ (exists r s', multipython_start (Some None) type core suspend s = Some (Raise r, s')
          /\ (r = OSError MP_ENOMEM
              \/ (r = TypeError /\ exists c, mp_ok (mps s') (cs ++ [c]) (mems_set c [] mems) /\ has_tid (mps s') 0 c)))).
Proof.
  intros Hok. split.
  - intros src c Hc Hid. unfold multipython_start.
    assert (Hreg : mp_task_register 0 0 (mps s) = Some (0%nat, mps s)) by by eapply register_used.
    by eread Hreg.
  - intros Hno. destruct (register_cases _ _ _ Hok Hno) as [(b & o & Hreg & Hb)|(m1 & xs & t & nt & c & p & R)].
    { split.
      - intros len. exists (Raise (OSError MP_ENOMEM)). eexists. split; [unfold multipython_start; by edo Hreg|]. left.
        split; [done|]. split; [exists mems; by apply malloc_ok|done].
      - exists (OSError MP_ENOMEM). eexists. split; [unfold multipython_start; by edo Hreg|]. by left. }
    split; [intros len|].
    + destruct (start_source s cs mems m1 xs t nt c p len type core suspend Hok R)
        as (r & s' & E & [(Er & Hok' & H)|(src & d & Er & Hok' & H)]); exists r, s'; (split; [exact E|]).
      * left. destruct H as (? & ? & ? & ?). by split_and!.
      * right. exists c, src, p, d. split; [done|]. split; [|done].
        intros Hin. destruct (mp_ok_ctx _ _ _ _ Hok Hin). pose proof (rg_new _ _ _ _ _ _ _ _ _ R). congruence.
    + destruct R. exists TypeError, (with_mp m1 s). split.
      { unfold multipython_start. edo rg_run0. destruct (Nat.eqb_spec c 0); [done|]. reflexivity. }
      right. split; [done|]. exists c. split; [done|]. exists (task_node 0 p 0). split; [|done].
      cbn [mps with_mp]. rewrite rg_ctxs0. apply lookup_insert_eq.
Qed.

(** ** Run and end *)

(** What the code of the task in context [c] may do to the contexts: it may
    allocate and free memory of its own and change the fields of its own node
    other than its place, its id and its state. *)
Record own_work (c : nat) (cs : list nat) (mems : nat -> list nat) (m m' : mp) : Prop := {
  ow_ok : exists mems', mp_ok m' cs mems' /\ forall x, x <> c -> mems' x = mems x;
  ow_head : mp_context_head m' = mp_context_head m;
  ow_others : delete c (ctxs m') = delete c (ctxs m);
  ow_own n : ctxs m !! c = Some n -> exists n', ctxs m' !! c = Some n' /\ state n' = state n /\ id n' = id n /\ next n' = next n;
  ow_states : states m' = states m;
  ow_tids : mp_current_tIDs m' = mp_current_tIDs m }.

Lemma own_work_trans c cs mems m1 m2 m3 mems2 :
  mp_ok m2 cs mems2 -> (forall x, x <> c -> mems2 x = mems x) ->
  own_work c cs mems m1 m2 -> own_work c cs mems2 m2 m3 -> own_work c cs mems m1 m3.
Proof.
  intros Hok2 Hm2 [_ H1 H2 H3 H4 H5] [(mems3 & Hok3 & Hm3) G1 G2 G3 G4 G5]. constructor; try congruence.
  - exists mems3. split; [done|]. intros x Hx. rewrite Hm3, Hm2; done.
  - intros n Hn. destruct (H3 n Hn) as (n2 & Hn2 & E1 & E2 & E3). destruct (G3 n2 Hn2) as (n3 & Hn3 & F1 & F2 & F3).
    exists n3. split; [done|]. split; [congruence|]. split; congruence.
Qed.

Lemma has_tid_other m m' c t x : x <> c -> delete c (ctxs m') = delete c (ctxs m) -> has_tid m' t x -> has_tid m t x.
Proof.
  intros Hne E (n & Hn & Hi). exists n. split; [|done].
  rewrite <- (lookup_delete_ne (ctxs m) c x) by done. by rewrite <- E, lookup_delete_ne.
Qed.

(** The end of the task takes its context off the list. *)
Lemma task_end_run core c t s xs y ny n mems :
  mp_ok (mps s) (xs ++ [y; c]) mems -> mp_current_tIDs (mps s) !! core = Some t ->
  ctxs (mps s) !! y = Some ny -> ctxs (mps s) !! c = Some n -> id n = t -> next n = 0%nat ->
  (forall x, x ∈ xs ++ [y] -> ~ has_tid (mps s) t x) ->
  exists s', task_end core s = Some (Ok tt, s') /\ mp_ok (mps s') (xs ++ [y]) (mems_set c [] mems)
    /\ ctxs (mps s') = delete c (<[y := next_set 0 ny]> (ctxs (mps s)))
    /\ states (mps s') = delete (state n) (states (mps s)) /\ rtos s' = rtos s ++ [vTaskDelete 0].
Proof.
  intros Hok Ht Hy Hc Hi Hn Hx.
  destruct (task_remove_spec (mps s) mems xs y c [] ny n t Hok Hy Hc Hi Hx) as (bl & m' & Hrem & _ & Hok').
  exists (with_rtos (vTaskDelete 0) (with_mp (after_cut (mps s) y ny c n bl m') s)). split; [|split; [exact Hok'|]].
  - unfold task_end. estep s. unfold elift. rewrite Ht.
    rewrite (X_bind_Ok _ _ s t s) by reflexivity. edo Hrem. reflexivity.
  - cbn [mps with_rtos with_mp ctxs states rtos after_cut with_states with_blocks with_dyns with_ctxs].
    unfold cut. by rewrite Hn.
Qed.

(** Doing nothing is the context's own work, and so is an allocation that fails. *)
Lemma own_work_refl c cs mems m b o : mp_ok m cs mems -> (brk m <= b)%nat -> own_work c cs mems m (with_malloc b o m).
Proof.
  intros Hok Hb. constructor; try done.
  - exists mems. split; [by apply malloc_ok|done].
  - intros k Hk. by exists k.
Qed.

(** The beginning gives the context the id of the task and makes it the active one. *)
Lemma task_begin_run core c t s cs mems n :
  mp_ok (mps s) cs mems -> mp_current_tIDs (mps s) !! core = Some t -> ctxs (mps s) !! c = Some n ->
  exists m2, task_begin core c s = Some (Ok tt, with_mp m2 s) /\ mp_ok m2 cs mems
    /\ ctxs m2 = <[c := id_set t n]> (ctxs (mps s)) /\ states m2 = states (mps s)
    /\ mp_current_tIDs m2 = mp_current_tIDs (mps s).
Proof.
  intros Hok Ht Hc. set (n1 := id_set t n). set (m1 := with_ctxs <[c := n1]> (mps s)).
  assert (Hok1 : mp_ok m1 cs mems) by by eapply ctx_edit_ok.
  assert (Hc1 : ctxs m1 !! c = Some n1) by apply lookup_insert_eq.
  destruct (context_switch_run m1 mems c n1 core (ok_owned _ _ _ Hok1) Hc1) as (v & _ & Hsw).
  exists (with_vm <[core := v]> (with_mirrors <[core := n1]> (with_active <[core := c]> m1))).
  split; [|split; [|done]].
  - unfold task_begin. estep s. unfold elift at 1. rewrite Ht. rewrite (X_bind_Ok _ _ s t s) by reflexivity.
    edo (ctx_update_run _ _ _ (id_set t) Hc). exact (on_mp_run _ (with_mp m1 s) _ _ Hsw).
  - destruct Hok1 as [[] [] ?]; constructor; [constructor|constructor|]; assumption.
Qed.

(** The heap is memory of the task's context, or there is none. *)
Lemma task_heap_run core c t s cs mems n :
  mp_ok (mps s) cs mems -> mp_current_tIDs (mps s) !! core = Some t -> ctxs (mps s) !! c = Some n ->
  mp_context_by_tid t (mps s) = Some (c, mps s) ->
  exists heap m3 mems3, task_heap core s = Some (Ok heap, with_mp m3 s) /\ mp_ok m3 cs mems3
    /\ (forall x, x <> c -> mems3 x = mems x) /\ own_work c cs mems (mps s) m3.
Proof.
  intros Hok Ht Hc Hbt. pose proof (ok_owned _ _ _ Hok) as Ho.
  destruct (dynmem_alloc_spec (mps s) mems c n mp_task_heap_size Ho Hc) as (heap & m3 & b & o & Hal & Hb & Hcase).
  assert (Hheap : task_heap core s = Some (Ok heap, with_mp m3 s)).
  { unfold task_heap. estep s. unfold elift. rewrite Ht, (X_bind_Ok _ _ s t s) by reflexivity.
    rewrite (on_mp_run _ s heap m3); [done|]. unfold mp_task_alloc. rewrite (M_bind_Some _ _ _ _ _ Hbt).
    pose proof (owned_nonzero _ _ _ _ Ho Hc). by destruct (Nat.eqb_spec c 0). }
  exists heap, m3. destruct Hcase as [[-> ->]|(Hh & d & h & m' & Hd & -> & Ho3 & _)].
  { exists mems. split; [done|]. split; [by apply malloc_ok|]. split; [done|by apply own_work_refl]. }
  pose proof (memhead_ok (mps s) _ _ _ _ c n h Hok Hc Ho3 eq_refl eq_refl) as Hok3.
  assert (Hm3 : forall x, x <> c -> mems_set c (mems c ++ [d]) mems x = mems x) by (intros; by apply mems_set_ne).
  eexists. split; [done|]. split; [exact Hok3|]. split; [exact Hm3|]. constructor; try done.
  - by eexists.
  - cbn [ctxs after_add with_malloc with_blocks with_dyns with_ctxs]. by rewrite delete_insert_eq.
  - intros k Hk. exists (memhead_set h n). split; [apply lookup_insert_eq|]. assert (k = n) as -> by congruence. done.
Qed.

(** A task that is to start suspended sets a bit of its own status. *)
Lemma task_startup_run core c s cs mems n :
  mp_ok (mps s) cs mems -> ctxs (mps s) !! c = Some n ->
  exists s4, task_startup_suspend core c s = Some (Ok tt, s4)
    /\ mp_ok (mps s4) cs mems /\ own_work c cs mems (mps s) (mps s4).
Proof.
  intros Hok Hc. unfold task_startup_suspend. rewrite (X_bind_Ok _ _ _ _ _ (on_mp_read _ s _ (ctx_run _ _ _ Hc))).
  destruct (MpState.suspend (args n) =? 0).
  { exists s. split; [done|]. split; [done|]. constructor; try done; [by eexists|]. intros k Hk. by exists k. }
  edo_at s (ctx_update_run _ _ _ (fun c => status_set (Z.lor (status c) MP_CSUSP) c) Hc).
  eexists. split; [reflexivity|].
  pose proof (ctx_edit_ok _ _ _ _ _ (status_set (Z.lor (status n) MP_CSUSP) n) Hok Hc eq_refl eq_refl) as Hok4.
  split; [exact Hok4|]. constructor; try done; [by eexists| |].
  - cbn [mps with_rtos with_mp ctxs with_ctxs]. by rewrite delete_insert_eq.
  - intros k Hk. assert (k = n) as -> by congruence. eexists. split; [apply lookup_insert_eq|done].
Qed.

(** Whatever the context's own work was, the end takes the context off. *)
Lemma task_end_own_work core c t s s3 xs y ny n n2 m2 mems mems3 :
  mp_current_tIDs m2 !! core = Some t -> ctxs (mps s) !! y = Some ny -> y <> c -> next n2 = 0%nat -> id n2 = t ->
  state n2 = state n -> states m2 = states (mps s) ->
  (forall x, x ∈ xs ++ [y] -> x <> c) -> (forall x, x ∈ xs ++ [y] -> ~ has_tid (mps s) t x) ->
  ctxs m2 = <[c := n2]> (ctxs (mps s)) -> own_work c (xs ++ [y; c]) mems m2 (mps s3) ->
  mp_ok (mps s3) (xs ++ [y; c]) mems3 -> (forall x, x <> c -> mems3 x = mems x) ->
  exists s' mems', task_end core s3 = Some (Ok tt, s') /\ mp_ok (mps s') (xs ++ [y]) mems'
    /\ (forall x, x <> c -> mems' x = mems x) /\ mems' c = []
    /\ ctxs (mps s') = delete c (<[y := next_set 0 ny]> (ctxs (mps s)))
    /\ states (mps s') = delete (state n) (states (mps s)).
Proof.
  intros Ht Hy Hyc Hn0 Hi En Es Hcx Hx E2 [_ _ Hoth Hown Hst Htid] Hok3 Hm3.
  destruct (Hown n2) as (n3 & Hn3 & E3 & E4 & E5); [rewrite E2; apply lookup_insert_eq|].
  assert (Hdel : delete c (ctxs (mps s3)) = delete c (ctxs (mps s))) by (by rewrite Hoth, E2, delete_insert_eq).
  destruct (task_end_run core c t s3 xs y ny n3 mems3) as (s' & He & Hok' & Ec & Est & _); try done.
  - by rewrite Htid.
  - rewrite <- (lookup_delete_ne _ c) by done. by rewrite Hdel, lookup_delete_ne.
  - congruence.
  - congruence.
  - intros x Hin Hid. apply (Hx x Hin). apply (has_tid_other (mps s) (mps s3) c); [by apply Hcx|done|done].
  - exists s', (mems_set c [] mems3). split; [done|]. split; [done|]. split; [intros x Hxc; rewrite mems_set_ne; auto|].
    split; [apply mems_set_eq|]. split; [|congruence].
    rewrite Ec, !delete_insert_ne by done. by rewrite Hdel.
Qed.

(** C2 The life of a task.  Whatever the task does with its own context, when
    [multipython_task_template] runs on a context at the end of the list and the
    task ends, its context is off the list with its state and all its memory: the
    list is as before the start, and every other context, its state and what it
    owns are as before.  So it is when there is no memory for the heap; then the
    task's code does not run. *)
Theorem multipython_task_template_correct core c t s xs y ny n mems run :
  mp_ok (mps s) (xs ++ [y; c]) mems -> mp_current_tIDs (mps s) !! core = Some t ->
  ctxs (mps s) !! y = Some ny -> ctxs (mps s) !! c = Some n ->
  (forall x, x ∈ xs ++ [y] -> ~ has_tid (mps s) t x) ->
  (forall s1 mems1, mp_ok (mps s1) (xs ++ [y; c]) mems1 ->
     exists s2, run s1 = Some (Ok tt, s2) /\ own_work c (xs ++ [y; c]) mems1 (mps s1) (mps s2)) ->
  exists s' mems', multipython_task_template core c run s = Some (Ok tt, s')
    /\ mp_ok (mps s') (xs ++ [y]) mems' /\ (forall x, x <> c -> mems' x = mems x) /\ mems' c = []
    /\ ctxs (mps s') = delete c (<[y := next_set 0 ny]> (ctxs (mps s)))
    /\ states (mps s') = delete (state n) (states (mps s)).
Proof.
  intros Hok Ht Hy Hc Hx Hrun.
  pose proof (chain_NoDup _ _ _ _ (lk_chain _ _ (ok_linked _ _ _ Hok))) as Hnd.
  assert (Hcx : forall x, x ∈ xs ++ [y] -> x <> c).
  { rewrite (cons_middle y xs [c]), app_assoc in Hnd. apply list.NoDup_app in Hnd as (_ & Hnd & _).
    intros x Hin ->. apply (Hnd _ Hin). left. }
  assert (Hyc : y <> c) by (apply Hcx, elem_of_app; right; left).
  assert (Hn0 : next n = 0%nat).
  { apply (tail_links (mps s) (xs ++ [y; c]) mems (xs ++ [y]) c Hok) with c; [by rewrite <- app_assoc|done..]. }
  destruct (task_begin_run core c t s _ mems n Hok Ht Hc) as (m2 & Hbegin & Hok2 & Ec2 & Es2 & Et2).
  assert (Hc2 : ctxs m2 !! c = Some (id_set t n)) by (rewrite Ec2; apply lookup_insert_eq). rewrite <- Et2 in Ht.
  assert (Hend := fun s3 mems3 => task_end_own_work core c t s s3 xs y ny n (id_set t n) m2 mems mems3
    Ht Hy Hyc Hn0 eq_refl eq_refl Es2 Hcx Hx Ec2).
  assert (Hbt : mp_context_by_tid t m2 = Some (c, m2)).
  { apply (has_tid_found m2 (xs ++ [y]) c [] mems); [by rewrite <- app_assoc|by eexists|].
    intros x Hin Hid. apply (Hx x Hin), (has_tid_other _ m2 c); [by apply Hcx|by rewrite Ec2, delete_insert_eq|done]. }
  destruct (task_heap_run core c t (with_mp m2 s) _ mems _ Hok2 Ht Hc2 Hbt) as (heap & m3 & mems3 & Hheap & Hok3 & Hm3 & How3).
  unfold multipython_task_template. rewrite (X_bind_Ok _ _ _ _ _ Hbegin), (X_bind_Ok _ _ _ _ _ Hheap).
  destruct (heap =? 0)%nat; [by apply (Hend _ mems3)|].
  destruct (ow_own _ _ _ _ _ How3 _ Hc2) as (n3 & Hc3 & _).
  destruct (task_startup_run core c (with_mp m3 s) _ mems3 n3 Hok3 Hc3) as (s4 & Hs4 & Hok4 & How4).
  rewrite (X_bind_Ok _ _ _ _ _ Hs4). destruct (Hrun s4 _ Hok4) as (s5 & Hr5 & How5). rewrite (X_bind_Ok _ _ _ _ _ Hr5).
  destruct (ow_ok _ _ _ _ _ How5) as (mems5 & Hok5 & Hm5).
  apply (Hend s5 mems5); [|done|intros x Hxc; rewrite Hm5, Hm3; done].
  eapply own_work_trans; [exact Hok3|exact Hm3|exact How3|].
  eapply own_work_trans; [exact Hok4|done|exact How4|done].
Qed.

(** ** Witnesses *)

(** After boot the main task has an id. *)
Definition st_boot : mp := with_ctxs <[1%nat := id_set 77 (state_set 2 zero_context)]> mp_initial.
Definition mpy_boot : mpy := MkMpy st_boot [] ∅ ∅ 0 true.

Lemma st_boot_ok : mp_ok st_boot [1%nat] (fun _ => []).
Proof. by eapply ctx_edit_ok; [exact mp_initial_ok|..]. Qed.

Lemma no_id0_boot c : c ∈ [1%nat] -> ~ has_tid st_boot 0 c.
Proof. intros ->%list_elem_of_singleton (n & Hn & Hi). vm_compute in Hn. by simplify_eq. Qed.

Lemma multipython_start_witness :
  exists s', multipython_start (Some (Some 10)) None (Some 7) (Some 1) mpy_boot = Some (Ok (Some 3%nat), s')
    /\ rtos s' = [xTaskCreate 3 (Some 1)].
Proof.
  destruct (multipython_start_correct mpy_boot [1%nat] (fun _ => []) None (Some 7) (Some 1) st_boot_ok) as [_ H].
  destruct (H no_id0_boot) as [H' _]. destruct (H' 10) as (r & s' & E & Hcase).
  assert (E3 : (fst <$> multipython_start (Some (Some 10)) None (Some 7) (Some 1) mpy_boot) = Some (Ok (Some 3%nat)))
    by (vm_compute; reflexivity).
  rewrite E in E3. injection E3 as ->. exists s'. split; [exact E|].
  destruct Hcase as [(? & _)|(c & src & p & d & Ec & _ & _ & _ & _ & _ & Er)]; [done|].
  injection Ec as <-. rewrite Er. vm_compute. reflexivity.
Defined.

Definition mpy_run : mpy := MkMpy (with_tIDs <[0%nat := 5]> st_mem) [] ∅ ∅ 0 true.

Lemma mpy_run_ok : mp_ok (mps mpy_run) [1%nat; 3%nat] mems_mem.
Proof. destruct st_mem_ok as [[] [] ?]; constructor; [constructor|constructor|]; assumption. Qed.

Lemma multipython_task_template_witness :
  exists s' mems', multipython_task_template 0 3 (mret tt : E unit) mpy_run = Some (Ok tt, s') /\ mp_ok (mps s') [1%nat] mems'
    /\ states (mps s') = delete 4%nat (states st_mem).
Proof.
  destruct (multipython_task_template_correct 0 3 5 mpy_run [] 1 (next_set 3 (state_set 2 zero_context))
    (memhead_set 5 (task_node 5 4 0)) mems_mem (mret tt : E unit) mpy_run_ok eq_refl eq_refl eq_refl)
    as (s' & mems' & E & Hok & _ & _ & _ & Est).
  - intros x ->%list_elem_of_singleton (n & Hn & Hi). vm_compute in Hn. by simplify_eq.
  - intros s1 mems1 Hok1. exists s1. split; [reflexivity|]. constructor; try done; [by exists mems1|]. intros n Hn. by exists n.
  - exists s', mems'. split; [exact E|]. split; [exact Hok|exact Est].
Defined.
