(* ===== verification/MultipythonResp.v ===== *)
(** Responses and inspection in [Multipython]: what [notify] delivers, what
    [check_responses] takes, and what [get] reports. *)
From S2P Require Import Prelude PyExn LinkedList ResponseQueue MpState MpStateSpec MpTasks MpThms Multipython MultipythonThms.

(** ** Responses *)

Definition queues_ok (m : mp) : Prop := forall c n, ctxs m !! c = Some n -> queue_ok (response_queue n).

Lemma contents_bound q : queue_ok q -> (length (contents q) <= 255)%nat.
Proof.
  intros Hq. rewrite length_contents by done. destruct Hq as (_ & Hr & Hw). unfold MP_RESPONSE_QUEUE_SIZE in *.
  destruct (Nat.leb_spec (r_head q) (w_head q)); lia.
Qed.

Lemma take_app_take {A} n (l k : list A) : take n (take n l ++ k) = take n (l ++ k).
Proof. rewrite !take_app, take_take, length_take. f_equal; f_equal; lia. Qed.

(** A write that may be dropped. *)
Definition queue_push (q : mp_response_queue_t) (r : mp_response_t) : mp_response_queue_t :=
  match mp_response_queue_write q r with Some q' => q' | None => q end.

Lemma queue_push_spec q r : queue_ok q -> queue_ok (queue_push q r) /\ contents (queue_push q r) = take 255 (contents q ++ [r]).
Proof.
  intros Hq. pose proof (queue_write_spec q r Hq) as Hw. pose proof (contents_bound q Hq) as Hb. unfold queue_push.
  destruct (mp_response_queue_write q r) as [q'|].
  - destruct Hw as [Hq' E]. split; [done|]. pose proof (contents_bound q' Hq') as Hb'. rewrite <- E. by rewrite take_ge.
  - split; [done|]. unfold MP_RESPONSE_QUEUE_SIZE in Hw. rewrite take_app_le by lia. by rewrite take_ge by lia.
Qed.

(** The registered responses, in the order of the list. *)
Definition responses (s : mpy) (ns : list nat) (rs : list multipython_response_obj_t) : Prop :=
  chain rnext (resp_nodes s) (multipython_response_head s) ns
  /\ Forall2 (fun p r => exists nd, resp_nodes s !! p = Some nd /\ response nd <> 0%nat /\ resp_objs s !! response nd = Some r) ns rs.

Section Notify.
Context (mp_obj_equal : Z -> Z -> bool) (mp_const_none : Z).
Implicit Types (rs : list multipython_response_obj_t).

(** The entries that a notification puts into the queue of context [c]. *)
Definition entries (condition : Z) rs (c : nat) : list mp_response_t :=
  map (fun r => MkResp (wrap 8 (rcontrol_op r)) (rargument r))
    (filter (fun r => mp_obj_equal (rcondition r) condition = true /\ rcontext r = c) rs).

(** The contexts after the entries for each were queued; all the rest is as before. *)
Definition queued (condition : Z) rs (m m' : mp) : Prop :=
  m' = with_ctxs (fun _ => ctxs m') m
  /\ dom (ctxs m') = dom (ctxs m)
  /\ forall c n, ctxs m !! c = Some n -> exists q, ctxs m' !! c = Some (queue_set q n) /\ queue_ok q
       /\ contents q = take 255 (contents (response_queue n) ++ entries condition rs c).

Lemma queue_set_id n : queue_set (response_queue n) n = n.
Proof. by destruct n. Qed.

Lemma queued_nil condition m : queues_ok m -> queued condition [] m m.
Proof.
  intros Hq. split; [by destruct m|]. split; [done|]. intros c n Hc. exists (response_queue n). split; [by rewrite queue_set_id|].
  split; [by eapply Hq|]. unfold entries. simpl. rewrite app_nil_r, take_ge; [done|]. eapply contents_bound. by eapply Hq.
Qed.

Lemma queued_trans condition rs1 rs2 m1 m2 m3 :
  queued condition rs1 m1 m2 -> queued condition rs2 m2 m3 -> queued condition (rs1 ++ rs2) m1 m3.
Proof.
  intros (E1 & D1 & H1) (E2 & D2 & H2). split; [rewrite E2, E1; done|]. split; [congruence|]. intros c n Hc.
  destruct (H1 _ _ Hc) as (q1 & Hc1 & Hq1 & Eq1). destruct (H2 _ _ Hc1) as (q2 & Hc2 & Hq2 & Eq2).
  exists q2. split; [done|]. split; [done|]. rewrite Eq2. cbn [response_queue queue_set]. rewrite Eq1, take_app_take.
  unfold entries. by rewrite list.filter_app, map_app, app_assoc.
Qed.

Lemma queued_ok condition rs m m' : queued condition rs m m' -> queues_ok m'.
Proof.
  intros (_ & D & H) c n' Hc. assert (Hd : c ∈ dom (ctxs m)) by (rewrite <- D; apply elem_of_dom; eauto).
  apply elem_of_dom in Hd as [n Hn]. destruct (H _ _ Hn) as (q & Hq & Hok & _). simplify_eq. done.
Qed.

(** One response. *)
Lemma notify_response_run condition s cs mems nd r :
  mp_ok (mps s) cs mems -> queues_ok (mps s) -> response nd <> 0%nat -> resp_objs s !! response nd = Some r ->
  (mp_obj_equal (rcondition r) condition = true -> is_Some (ctxs (mps s) !! rcontext r)) ->
  exists m', notify_response mp_obj_equal condition nd s = Some (Ok tt, with_mp m' s)
    /\ mp_ok m' cs mems /\ queued condition [r] (mps s) m'.
Proof.
  intros Hok Hq Hnd Hr Hlive. unfold notify_response. destruct (Nat.eqb_spec (response nd) 0) as [|_]; [done|].
  estep s. unfold elift at 1. rewrite Hr. rewrite (X_bind_Ok _ _ s r s) by reflexivity.
  destruct (mp_obj_equal (rcondition r) condition) eqn:Ec.
  - destruct (Hlive eq_refl) as [n Hn]. eread (ctx_run _ _ _ Hn). destruct (queue_push_spec _ (MkResp (wrap 8 (rcontrol_op r)) (rargument r)) (Hq _ _ Hn)) as [Hpo Hpc].
    set (q := queue_push _ _) in *.
    assert (Hrun : (match mp_response_queue_write (response_queue n) (MkResp (wrap 8 (rcontrol_op r)) (rargument r)) with
      | Some q => on_mp (ctx_update (rcontext r) (queue_set q)) | None => mret () end) s
      = Some (Ok tt, with_mp (with_ctxs <[rcontext r := queue_set q n]> (mps s)) s)).
    { subst q. unfold queue_push. destruct (mp_response_queue_write _ _) as [q'|].
      - apply (on_mp_run _ s _ _ (ctx_update_run _ _ _ (queue_set q') Hn)).
      - rewrite queue_set_id. unfold with_ctxs. rewrite (insert_id _ _ _ Hn). unfold mret, X_ret. do 2 f_equal.
        by destruct s as [[] ? ? ? ? ?]. }
    rewrite Hrun. eexists. split; [reflexivity|]. split; [by eapply ctx_edit_ok|]. split; [done|].
    split; [cbn [ctxs with_ctxs]; rewrite dom_insert_L; apply subseteq_union_1_L; intros x ->%elem_of_singleton; apply elem_of_dom; eauto|].
    intros c nc Hc. cbn [ctxs with_ctxs]. unfold entries. rewrite list.filter_cons. cbn [filter list_filter].
    destruct (decide (rcontext r = c)) as [<-|Hne].
    + rewrite lookup_insert_eq, decide_True by done. simplify_eq. exists q. done.
    + rewrite lookup_insert_ne, decide_False by (done || tauto). exists (response_queue nc).
      rewrite queue_set_id. split; [done|]. split; [by eapply Hq|]. simpl. rewrite app_nil_r, take_ge; [done|].
      eapply contents_bound. by eapply Hq.
  - exists (mps s). split; [by destruct s|]. split; [done|].
    destruct (queued_nil condition (mps s) Hq) as (E & D & H). split; [done|]. split; [done|]. intros c nc Hc.
    destruct (H c nc Hc) as (q & H1 & H2 & H3). exists q. split; [done|]. split; [done|]. rewrite H3. unfold entries.
    rewrite list.filter_cons, decide_False; [done|]. rewrite Ec. by intros [? _].
Qed.

Lemma notify_loop_run condition fuel s cs mems ns rs p :
  mp_ok (mps s) cs mems -> queues_ok (mps s) -> chain rnext (resp_nodes s) p ns -> (length ns <= fuel)%nat ->
  Forall2 (fun p r => exists nd, resp_nodes s !! p = Some nd /\ response nd <> 0%nat /\ resp_objs s !! response nd = Some r) ns rs ->
  Forall (fun r => mp_obj_equal (rcondition r) condition = true -> is_Some (ctxs (mps s) !! rcontext r)) rs ->
  exists m', notify_loop mp_obj_equal fuel condition p s = Some (Ok tt, with_mp m' s)
    /\ mp_ok m' cs mems /\ queued condition rs (mps s) m'.
Proof.
  revert s rs p fuel. induction ns as [|x ns IH]; intros s rs p fuel Hok Hq Hch Hl Hall Hctx.
  - inversion Hall; subst. simpl in Hch. subst p. exists (mps s). split; [by destruct fuel, s|]. split; [done|]. by apply queued_nil.
  - destruct fuel as [|fuel]; [simpl in Hl; lia|]. destruct Hch as (-> & Hx & nd & Hnd & Hch).
    inversion Hall as [|x' r ns' rs' (nd' & Hnd' & Hne & Hobj) Hall' Ex Er]; subst. simplify_eq.
    inversion Hctx as [|r' rs'' Hr Hrs Er]; subst.
    cbn [notify_loop]. destruct (Nat.eqb_spec x 0); [done|]. estep s. unfold elift at 1. rewrite Hnd.
    rewrite (X_bind_Ok _ _ s nd s) by reflexivity.
    destruct (notify_response_run condition s cs mems nd r Hok Hq Hne Hobj Hr) as (m1 & H1 & Hok1 & Hq1).
    rewrite (X_bind_Ok _ _ _ _ _ H1).
    destruct (IH (with_mp m1 s) rs' (rnext nd) fuel Hok1 (queued_ok _ _ _ _ Hq1) Hch) as (m2 & H2 & Hok2 & Hq2); [simpl in Hl; lia|done| |].
    { eapply Forall_mono; [|exact Hrs]. intros r0 Hr0 E0. cbn [mps with_mp]. apply elem_of_dom. rewrite (proj1 (proj2 Hq1)). by apply elem_of_dom, Hr0. }
    exists m2. split; [exact H2|]. split; [done|]. apply (queued_trans condition [r] rs' _ m1); done.
Qed.

(** A response for a context that is not there any more, or never was: the queue is
    written in memory that is not a context. *)
Lemma notify_loop_gone condition fuel s cs mems ns rs p :
  mp_ok (mps s) cs mems -> queues_ok (mps s) -> chain rnext (resp_nodes s) p ns -> (length ns <= fuel)%nat ->
  Forall2 (fun p r => exists nd, resp_nodes s !! p = Some nd /\ response nd <> 0%nat /\ resp_objs s !! response nd = Some r) ns rs ->
  Exists (fun r => mp_obj_equal (rcondition r) condition = true /\ ctxs (mps s) !! rcontext r = None) rs ->
  notify_loop mp_obj_equal fuel condition p s = None.
Proof.
  revert s rs p fuel. induction ns as [|x ns IH]; intros s rs p fuel Hok Hq Hch Hl Hall Hgone.
  { inversion Hall; subst. inversion Hgone. }
  destruct fuel as [|fuel]; [simpl in Hl; lia|]. destruct Hch as (-> & Hx & nd & Hnd & Hch).
  inversion Hall as [|x' r ns' rs' (nd' & Hnd' & Hne & Hobj) Hall' Ex Er]; subst. simplify_eq.
  cbn [notify_loop]. destruct (Nat.eqb_spec x 0); [done|]. estep s. unfold elift at 1. rewrite Hnd.
  rewrite (X_bind_Ok _ _ s nd s) by reflexivity.
  destruct (decide (mp_obj_equal (rcondition r) condition = true /\ ctxs (mps s) !! rcontext r = None)) as [[Ec Hc]|Hlive].
  - apply X_bind_None. unfold notify_response. destruct (Nat.eqb_spec (response nd) 0); [done|].
    estep s. unfold elift at 1. rewrite Hobj. rewrite (X_bind_Ok _ _ s r s) by reflexivity. rewrite Ec.
    apply X_bind_None. unfold on_mp, ctx, mbind, M_bind, mget, mlift. by rewrite Hc.
  - destruct (notify_response_run condition s cs mems nd r Hok Hq Hne Hobj) as (m1 & H1 & Hok1 & Hq1).
    { intros Ec. destruct (ctxs (mps s) !! rcontext r) eqn:E; [done|]. by destruct Hlive. }
    rewrite (X_bind_Ok _ _ _ _ _ H1). apply (IH (with_mp m1 s) rs'); [done|by eapply queued_ok|done|simpl in Hl; lia|done|].
    inversion Hgone as [? ? Hr|? ? Hrs]; subst; [done|]. eapply list.Exists_impl; [exact Hrs|]. intros r0 [Ec E0]. split; [done|].
    cbn [mps with_mp]. apply not_elem_of_dom. rewrite (proj1 (proj2 Hq1)). by apply not_elem_of_dom.
Qed.

(** C4 A notification, in every case.  The condition [None] notifies nobody and changes
    nothing.  If the contexts of the responses whose condition equals the one notified
    are there, it reaches exactly them: for each of these responses, in the order of
    registration, its control operation and argument go to the end of the queue of its
    context, as far as the 255 places of the queue last; no other queue, no other part
    of a context and nothing else of the state changes.  If one of these contexts is not
    there, because its task has ended since or the number given was none, the queue is
    written outside of any context: the C code has no defined behaviour then. *)
Theorem multipython_notify_correct condition s cs mems ns rs :
  mp_ok (mps s) cs mems -> queues_ok (mps s) -> responses s ns rs ->
  (mp_obj_equal condition mp_const_none = true -> multipython_notify mp_obj_equal mp_const_none condition s = Some (Ok tt, s))
  /\ (mp_obj_equal condition mp_const_none = false ->
      ((forall r, r ∈ rs -> mp_obj_equal (rcondition r) condition = true -> is_Some (ctxs (mps s) !! rcontext r)) ->
         exists m', multipython_notify mp_obj_equal mp_const_none condition s = Some (Ok tt, with_mp m' s)
         /\ mp_ok m' cs mems /\ m' = with_ctxs (fun _ => ctxs m') (mps s) /\ dom (ctxs m') = dom (ctxs (mps s))
         /\ forall c n, ctxs (mps s) !! c = Some n -> exists q, ctxs m' !! c = Some (queue_set q n) /\ queue_ok q
              /\ contents q = take 255 (contents (response_queue n) ++ entries condition rs c))
      /\ ((exists r, r ∈ rs /\ mp_obj_equal (rcondition r) condition = true /\ ctxs (mps s) !! rcontext r = None) ->
         multipython_notify mp_obj_equal mp_const_none condition s = None)).
Proof.
  intros Hok Hq [Hch Hall]. unfold multipython_notify. split; [by intros ->|]. intros ->. estep s. split.
  - intros Hlive. destruct (notify_loop_run condition (size (resp_nodes s)) s cs mems ns rs _ Hok Hq Hch (chain_size _ _ _ _ Hch) Hall)
      as (m' & H & Hok' & Hqd); [by apply list.Forall_forall|]. by exists m'.
  - intros (r & Hr & Hgone). apply (notify_loop_gone condition _ s cs mems ns rs _ Hok Hq Hch (chain_size _ _ _ _ Hch) Hall).
    apply list.Exists_exists. by exists r.
Qed.

(** The running task takes the oldest entry of its queue and gets its argument,
    or the object [None] when the queue is empty. *)
Theorem multipython_check_responses_correct core a n s cs mems :
  mp_ok (mps s) cs mems -> queues_ok (mps s) -> mp_active_contexts (mps s) !! core = Some a -> ctxs (mps s) !! a = Some n ->
  match contents (response_queue n) with
  | [] => multipython_check_responses mp_const_none core s = Some (Ok mp_const_none, s)
  | r :: rest => exists q s', multipython_check_responses mp_const_none core s = Some (Ok (argument r), s')
      /\ mps s' = with_ctxs <[a := queue_set q n]> (mps s) /\ mp_ok (mps s') cs mems /\ queue_ok q /\ contents q = rest
  end.
Proof.
  intros Hok Hq Ha Hn. unfold multipython_check_responses. estep s. unfold elift. rewrite Ha.
  rewrite !(X_bind_Ok _ _ s a s) by reflexivity. eread (ctx_run _ _ _ Hn).
  pose proof (queue_read_spec _ (Hq _ _ Hn)) as Hr.
  destruct (mp_response_queue_read (response_queue n)) as [[r q]|] eqn:Er.
  - destruct Hr as [Hq' ->]. edo (ctx_update_run _ _ _ (queue_set q) Hn). eexists q, _. split; [reflexivity|].
    split; [done|]. split; [by eapply ctx_edit_ok|]. done.
  - by rewrite Hr.
Qed.

End Notify.

(** ** Inspection *)

(** The contexts of the list with their nodes. *)
Fixpoint listing (m : mp) (cs : list nat) : list (nat * mp_context_node_t) :=
  match cs with
  | [] => []
  | c :: cs => match ctxs m !! c with Some n => (c, n) :: listing m cs | None => listing m cs end
  end.

Definition dict_of (pos : nat) (cn : nat * mp_context_node_t) : option context_dict :=
  let n := cn.2 in
  Some (MkDict (Some (Z.of_nat pos)) (swrap 32 (id n)) (state n) (memhead n) (threadctrl n) cn.1 (status n) cn.1).

(** The dictionaries of those that pass a test, numbered from [k]. *)
Fixpoint dicts (k : nat) (l : list (nat * mp_context_node_t)) : list (option context_dict) :=
  match l with [] => [] | cn :: l => dict_of k cn :: dicts (S k) l end.

Lemma get_loop_run test fuel s cs mems pre xs k :
  mp_ok (mps s) cs mems -> cs = pre ++ xs -> (length xs <= fuel)%nat ->
  get_loop fuel [test] (hd 0%nat xs) k s
  = Some (Ok (dicts k (filter (fun cn => test (id cn.2) = true) (listing (mps s) xs))), s).
Proof.
  intros Hok. revert pre k fuel. induction xs as [|x xs IH]; intros pre k fuel Es Hl; [by destruct fuel|].
  destruct fuel as [|fuel]; [simpl in Hl; lia|].
  assert (Hin : x ∈ cs) by (rewrite Es; apply elem_of_app; right; left).
  destruct (chain_lookup _ _ _ _ x (lk_chain _ _ (ok_linked _ _ _ Hok)) Hin) as [Hx [n Hn]].
  pose proof (lk_chain _ _ (ok_linked _ _ _ Hok)) as Hch. rewrite Es in Hch.
  pose proof (chain_next _ _ _ _ _ _ Hch Hn) as Hnext.
  cbn [get_loop hd listing]. destruct (Nat.eqb_spec x 0) as [|Hx0]; [done|]. rewrite Hn.
  assert (Htest : get_tests [test] x k s =
    Some (Ok (if test (id n) then [dict_of k (x, n)] else [], if test (id n) then S k else k), s)).
  { cbn [get_tests]. eread (ctx_run _ _ _ Hn). destruct (test (id n)); [|done].
    assert (Hd : multipython_get_context_dict x (Z.of_nat k) s = Some (Ok (dict_of k (x, n)), s)).
    { unfold multipython_get_context_dict. destruct (Nat.eqb_spec x 0); [done|]. eread (ctx_run _ _ _ Hn).
      destruct (Z.ltb_spec (Z.of_nat k) 0); [lia|]. done. }
    by rewrite (X_bind_Ok _ _ _ _ _ Hd). }
  rewrite (X_bind_Ok _ _ _ _ _ Htest). eread (ctx_run _ _ _ Hn). rewrite Hnext.
  specialize (IH (pre ++ [x]) (if test (id n) then S k else k) fuel).
  rewrite (X_bind_Ok _ _ _ _ _ (IH ltac:(by rewrite <- app_assoc) ltac:(simpl in Hl; lia))).
  rewrite list.filter_cons. cbn [snd]. destruct (test (id n)) eqn:Et.
  - by rewrite decide_True by done.
  - by rewrite decide_False by done.
Qed.

(** [get()] lists every context once, in the order of the list, with its position
    and fields; [get(z)] those whose task id is [z], numbered by match; and a list
    with an integer that is a small one is refused with [TypeError], although it
    is an integer. *)
Theorem multipython_get_correct core s cs mems z z' :
  mp_ok (mps s) cs mems ->
  multipython_get core None s = Some (Ok (dicts 0 (listing (mps s) cs)), s)
  /\ multipython_get core (Some (PItem (PSmall z))) s
     = Some (Ok (dicts 0 (filter (fun cn => id_is (swrap 32 z) (id cn.2) = true) (listing (mps s) cs))), s)
  /\ multipython_get core (Some (PList [PLong z; PSmall z'])) s = Some (Raise TypeError, s).
Proof.
  intros Hok. pose proof (chain_size _ _ _ _ (lk_chain _ _ (ok_linked _ _ _ Hok))) as Hl.
  destruct (head_first _ _ _ Hok) as [tl Etl].
  assert (H : forall test, get_all [test] s = Some (Ok (dicts 0 (filter (fun cn => test (id cn.2) = true) (listing (mps s) cs))), s)).
  { intros test. unfold get_all. estep s. replace (mp_context_head (mps s)) with (hd 0%nat cs) by (by rewrite Etl).
    by apply (get_loop_run test _ s cs mems [] cs). }
  split; [|split; [|done]].
  - cbn [multipython_get]. rewrite H. do 2 f_equal. f_equal. f_equal.
    generalize (listing (mps s) cs). induction l as [|x l IH]; [done|].
    rewrite list.filter_cons, decide_True by done. by f_equal.
  - cbn [multipython_get as_int]. by rewrite H.
Qed.

(** ** Witnesses *)

(** Two tasks (ids 5 and 8, contexts 3 and 7); a response for context 3. *)
Definition node8 : mp_context_node_t := task_node 8 8 0.
Definition st_two : mp :=
  with_active <[0%nat := 3%nat]>
    (after_new st_mem 7 8 (appended (ctxs st_mem) 3 (memhead_set 5 (task_node 5 4 0)) 7 node8) 9 []).
Definition mems_two : nat -> list nat := mems_set 7 [] mems_mem.
Definition mpy_two : mpy :=
  MkMpy st_two [] {[ 21%nat := MkRespObj 44 3 2 55 ]} {[ 22%nat := MkRespNode 21 0 ]} 22 true.

Lemma st_two_ok : mp_ok st_two [1%nat; 3%nat; 7%nat] mems_two.
Proof.
  assert (H : mp_ok (after_new st_mem 7 8 (appended (ctxs st_mem) 3 (memhead_set 5 (task_node 5 4 0)) 7 node8) 9 [])
    [1%nat; 3%nat; 7%nat] mems_two).
  { apply (appended_ok st_mem [1%nat; 3%nat] mems_mem [1%nat]); try done; [exact st_mem_ok|simpl; lia..]. }
  destruct H as [[] [] ?]; constructor; [constructor|constructor|]; assumption.
Qed.

Definition node5 : mp_context_node_t := next_set 7 (memhead_set 5 (task_node 5 4 0)).

Lemma task_at_5 : task_at mpy_two [1%nat; 3%nat; 7%nat] mems_two 5 [1%nat] 3 [7%nat] node5.
Proof.
  constructor; try done; [exact st_two_ok|].
  intros c Hc%list_elem_of_singleton (n & Hn & Hi). subst c. vm_compute in Hn. by simplify_eq.
Qed.

Lemma unique_ids_two : unique_ids st_two.
Proof.
  assert (H : forall c n, ctxs st_two !! c = Some n -> (c = 1%nat /\ id n = 0) \/ (c = 3%nat /\ id n = 5) \/ (c = 7%nat /\ id n = 8)).
  { intros c n Hc. pose proof (ok_all _ _ _ st_two_ok c n Hc) as Hin.
    repeat (apply elem_of_cons in Hin as [->|Hin]; [vm_compute in Hc; simplify_eq; auto|]). by apply elem_of_nil in Hin. }
  intros c1 c2 n1 n2 H1 H2 E. destruct (H _ _ H1) as [[-> E1]|[[-> E1]|[-> E1]]], (H _ _ H2) as [[-> E2]|[[-> E2]|[-> E2]]];
    (done || (rewrite E1, E2 in E; done)).
Qed.

Lemma queues_ok_two : queues_ok st_two.
Proof.
  intros c n Hc. pose proof (ok_all _ _ _ st_two_ok c n Hc) as Hin. pose proof (proj1 empty_queue_ok) as He.
  assert (E : response_queue n = empty_queue); [|by rewrite E].
  repeat (apply elem_of_cons in Hin as [->|Hin]; [vm_compute in Hc; simplify_eq; vm_compute; reflexivity|]). by apply elem_of_nil in Hin.
Qed.

Lemma multipython_task_ops_witness :
  multipython_suspend_task 0 mpy_two = Some (Raise (OSError MP_EACCES), mpy_two)
  /\ exists s1, multipython_end_task 5 mpy_two = Some (Ok 0, s1) /\ rtos s1 = [vTaskDelete 5].
Proof.
  destruct (multipython_task_ops_correct mpy_two _ _ 0 st_two_ok) as (Hm & _).
  destruct (multipython_task_ops_correct mpy_two _ _ 5 st_two_ok) as (_ & _ & H).
  split; [apply Hm; [by eexists|right; left]|].
  destruct (H _ _ _ _ task_at_5) as (_ & _ & s1 & E & _ & _ & _ & _ & Er). exists s1. split; [exact E|exact Er].
Defined.

Lemma multipython_control_witness :
  exists s1, multipython_control 0 1 (PItem (PSmall 5)) 3 false mpy_two = Some (Ok [5], s1)
    /\ multipython_suspend_task 5 mpy_two = Some (Ok 0, s1).
Proof.
  destruct (multipython_control_correct 0 mpy_two _ _ 5 _ _ _ _ 5 task_at_5 unique_ids_two) as [(s1 & E & Es & _) _];
    [lia|reflexivity|]. exists s1. split; [exact E|exact Es].
Defined.

Lemma multipython_control_stop_witness :
  multipython_control 0 1 (PItem (PSmall 5)) 1 false mpy_two = None.
Proof.
  destruct (multipython_control_stop_use_after_free 0 mpy_two _ _ 5 _ _ _ _ 5 task_at_5 unique_ids_two) as [H _];
    [lia|reflexivity|exact H].
Defined.

Lemma mpy_two_responses : responses mpy_two [22%nat] [MkRespObj 44 3 2 55].
Proof.
  split; [simpl; split; [done|]; split; [done|]; by eexists|].
  constructor; [|constructor]. exists (MkRespNode 21 0). split; [reflexivity|]. split; [done|reflexivity].
Qed.

Lemma multipython_notify_witness :
  exists m', multipython_notify Z.eqb 0 44 mpy_two = Some (Ok tt, with_mp m' mpy_two)
    /\ exists q, ctxs m' !! 3%nat = Some (queue_set q node5) /\ contents q = [MkResp 2 55].
Proof.
  destruct (multipython_notify_correct Z.eqb 0 44 mpy_two [1%nat; 3%nat; 7%nat] mems_two [22%nat] [MkRespObj 44 3 2 55]
    st_two_ok queues_ok_two mpy_two_responses) as [_ H]. destruct (H eq_refl) as [H1 _].
  destruct H1 as (m' & E & _ & _ & _ & H').
  - intros r ->%list_elem_of_singleton _. by eexists.
  - exists m'. split; [exact E|]. destruct (H' 3%nat node5 eq_refl) as (q & Hq & _ & Hc).
    exists q. split; [exact Hq|]. rewrite Hc. vm_compute. reflexivity.
Defined.

(** The task with id 5 ends, and the response registered for its context stays: the next
    notification writes into the context that was freed. *)
Lemma notify_after_end :
  (fun r => match r with (Ok z, s1) => (z, ctxs (mps s1) !! 3%nat, multipython_notify Z.eqb 0 44 s1) | (Raise _, s1) => (-1, None, None) end)
    <$> multipython_end_task 5 mpy_two = Some (0, None, None).
Proof. vm_compute. reflexivity. Qed.

Lemma multipython_check_responses_witness :
  multipython_check_responses 99 0 mpy_two = Some (Ok 99, mpy_two).
Proof.
  pose proof (multipython_check_responses_correct 99 0 3 node5 mpy_two _ _ st_two_ok queues_ok_two eq_refl eq_refl) as H.
  replace (contents (response_queue node5)) with (@nil mp_response_t) in H by (vm_compute; reflexivity). exact H.
Defined.

Lemma multipython_get_witness :
  exists ds, multipython_get 0 (Some (PItem (PSmall 8))) mpy_two = Some (Ok ds, mpy_two)
    /\ ds = [Some (MkDict (Some 0) 8 8 0 0 7 0 7)].
Proof.
  destruct (multipython_get_correct 0 mpy_two _ _ 8 0 st_two_ok) as (_ & H & _).
  eexists. split; [exact H|]. vm_compute. reflexivity.
Defined.
