(* ===== verification/Map.v ===== *)
(** The maps and sets of MicroPython, [py/map.c]: open addressing with linear
    probing, and ordered arrays.

    Keys are objects behind an interface: identity, [mp_obj_equal], the hash, and
    whether an object is an interned string or another string.  Values are
    optional, [None] for [MP_OBJ_NULL].  Memory is not limited here: a failed
    allocation raises an exception before the table is touched. *)
From S2P Require Import Prelude.

Class MpObj := {
  mp_obj : Type;
  mp_obj_eq_dec :: EqDecision mp_obj;
  mp_obj_is_qstr : mp_obj -> bool;
  mp_obj_is_str : mp_obj -> bool;              (* of type [str] and not interned *)
  obj_hash : mp_obj -> nat;                    (* [qstr_hash], [MP_UNARY_OP_HASH] *)
  mp_obj_equal : mp_obj -> mp_obj -> bool }.

(** What a table needs of its keys: Python's contract of hash and equality, and
    the interning of strings. *)
Class MpObjLaws (MO : MpObj) : Prop := {
  equal_refl a : mp_obj_equal a a = true;
  equal_sym a b : mp_obj_equal a b = true -> mp_obj_equal b a = true;
  equal_trans a b c : mp_obj_equal a b = true -> mp_obj_equal b c = true -> mp_obj_equal a c = true;
  equal_hash a b : mp_obj_equal a b = true -> obj_hash a = obj_hash b;
  qstr_equal a b : mp_obj_is_qstr a = true -> mp_obj_is_qstr b = true -> mp_obj_equal a b = true -> a = b;
  qstr_other a b : mp_obj_is_qstr a = true -> mp_obj_is_qstr b = false -> mp_obj_is_str b = false -> mp_obj_equal a b = false }.

(** ** Tables *)

Definition hash_allocation_sizes : list nat :=
  [0; 2; 4; 6; 8; 10; 12; 17; 23; 29; 37; 47; 59; 73; 97; 127; 167; 223; 293; 389; 521; 691; 919; 1223; 1627; 2161]%nat
  ++ map Z.to_nat [3229; 4831; 7243; 10861; 16273; 24407; 36607; 54907].

Fixpoint first_size (sizes : list nat) (x : nat) : nat :=
  match sizes with
  | [] => Z.to_nat (Z.lor (Z.of_nat (x + x / 2)) 1)
  | n :: sizes => if (x <=? n)%nat then n else first_size sizes x
  end.

Definition get_hash_alloc_greater_or_equal_to (x : nat) : nat := first_size hash_allocation_sizes x.

Section Tables.
Context {MO : MpObj}.

Inductive slot_key := KNull | KSentinel | Key (k : mp_obj).

(** A slot of a table; sets use [unit] for the values. *)
Record slot (V : Type) := MkSlot { key : slot_key; value : V }.
Arguments MkSlot {V} _ _.
Arguments key {V} _.
Arguments value {V} _.

Inductive probe_result := PFound (i : nat) | PFree (i : nat) | PFull.

(** The search of both lookup loops: the slot with a matching key; or the slot for
    a new key, the first deleted one if there is one; or a full table. *)
Fixpoint probe {V} (fuel : nat) (table : list (slot V)) (matches : mp_obj -> bool) (pos start_pos : nat)
    (avail_slot : option nat) : option probe_result :=
  match fuel with
  | O => None
  | S fuel =>
      s ← table !! pos;
      let continue avail_slot :=
        let pos := ((pos + 1) mod length table)%nat in
        if (pos =? start_pos)%nat then
          Some (match avail_slot with Some a => PFree a | None => PFull end)
        else probe fuel table matches pos start_pos avail_slot in
      match key s with
      | KNull => Some (PFree (default pos avail_slot))
      | KSentinel => continue (match avail_slot with Some a => Some a | None => Some pos end)
      | Key k => if matches k then Some (PFound pos) else continue avail_slot
      end
  end.

(** The search from the hash. *)
Definition search {V} (table : list (slot V)) (matches : mp_obj -> bool) (hash : nat) : option probe_result :=
  let pos := (hash mod length table)%nat in probe (length table) table matches pos pos None.

(** The key of a deleted slot: [MP_OBJ_NULL] if the next slot is empty. *)
Definition deleted_key {V} (table : list (slot V)) (pos : nat) : slot_key :=
  match table !! ((pos + 1) mod length table)%nat with
  | Some s => match key s with KNull => KNull | _ => KSentinel end
  | None => KSentinel
  end.

Definition is_filled {V} (s : slot V) : bool := match key s with Key _ => true | _ => false end.

(** ** Maps *)

Context {V : Type}.
Abbreviation elem := (slot (option V)).

Record mp_map_t := MkMap {
  all_keys_are_qstrs : bool; is_fixed : bool; is_ordered : bool; used : nat; table : list elem }.

Definition null_elem : elem := MkSlot KNull None.

Definition alloc (m : mp_map_t) : nat := length (table m).

Definition mp_map_init (n : nat) : mp_map_t := MkMap true false false 0 (replicate n null_elem).

Definition mp_map_init_fixed_table (t : list elem) : mp_map_t := MkMap true true true (length t) t.

(** [used = alloc = 0], the other fields stay. *)
Definition mp_map_deinit (m : mp_map_t) : mp_map_t := MkMap (all_keys_are_qstrs m) (is_fixed m) (is_ordered m) 0 [].

Definition mp_map_clear (m : mp_map_t) : mp_map_t := MkMap true false (is_ordered m) 0 [].

Inductive mp_map_lookup_kind_t := MP_MAP_LOOKUP | MP_MAP_LOOKUP_ADD_IF_NOT_FOUND | MP_MAP_LOOKUP_REMOVE_IF_FOUND.

#[export] Instance kind_eq_dec : EqDecision mp_map_lookup_kind_t.
Proof. solve_decision. Defined.

(** A new key in the slot [a] *)
Definition add_slot (a : nat) (index : mp_obj) (m : mp_map_t) : mp_map_t :=
  MkMap (if mp_obj_is_qstr index then all_keys_are_qstrs m else false) (is_fixed m) (is_ordered m) (used m + 1)
    (<[a := MkSlot (Key index) None]> (table m)).

Definition remove_slot (pos : nat) (m : mp_map_t) : mp_map_t :=
  MkMap (all_keys_are_qstrs m) (is_fixed m) (is_ordered m) (used m - 1)
    (alter (fun s => MkSlot (deleted_key (table m) pos) (value s)) pos (table m)).

(** The comparison of a key of the table with the index. *)
Definition key_matches (compare_only_ptrs : bool) (index k : mp_obj) : bool :=
  bool_decide (k = index) || (negb compare_only_ptrs && mp_obj_equal k index).

(** The hash lookup; [rehash] is [mp_map_rehash]. *)
Definition hash_lookup (rehash : M mp_map_t unit) (compare_only_ptrs : bool) (index : mp_obj)
    (lookup_kind : mp_map_lookup_kind_t) : M mp_map_t (option nat) :=
  m ← mget;
  if (alloc m =? 0)%nat && negb (bool_decide (lookup_kind = MP_MAP_LOOKUP_ADD_IF_NOT_FOUND)) then mret None
  else
    (if (alloc m =? 0)%nat then rehash else mret tt);;
    m ← mget;
    r ← mlift (search (table m) (key_matches compare_only_ptrs index) (obj_hash index));
    match r, lookup_kind with
    | PFound pos, MP_MAP_LOOKUP_REMOVE_IF_FOUND => mput (remove_slot pos m);; mret (Some pos)
    | PFound pos, _ => mret (Some pos)
    | PFree a, MP_MAP_LOOKUP_ADD_IF_NOT_FOUND => mput (add_slot a index m);; mret (Some a)
    | PFull, MP_MAP_LOOKUP_ADD_IF_NOT_FOUND =>
        rehash;;
        m ← mget;
        r ← mlift (search (table m) (key_matches compare_only_ptrs index) (obj_hash index));
        match r with
        | PFound pos => mret (Some pos)
        | PFree a => mput (add_slot a index m);; mret (Some a)
        | PFull => mabort
        end
    | _, _ => mret None
    end.

(** The linear search of an ordered array: the first [used] elements. *)
Fixpoint ordered_find (matches : mp_obj -> bool) (elems : list elem) (pos : nat) : option nat :=
  match elems with
  | [] => None
  | e :: elems =>
      if match key e with Key k => matches k | _ => false end then Some pos else ordered_find matches elems (S pos)
  end.

(** [memmove(elem, elem + 1, ...)], then the element behind the end. *)
Definition ordered_remove (pos : nat) (m : mp_map_t) : mp_map_t :=
  let u := (used m - 1)%nat in
  let e := match table m !! pos with Some e => value e | None => None end in
  MkMap (all_keys_are_qstrs m) (is_fixed m) (is_ordered m) u
    (take pos (table m) ++ drop (S pos) (take (used m) (table m)) ++ [MkSlot KNull e] ++ drop (used m) (table m)).

(** The slot keeps the value that it had. *)
Definition ordered_add (index : mp_obj) (m : mp_map_t) : mp_map_t :=
  let t := if (used m =? alloc m)%nat then table m ++ replicate 4 null_elem else table m in
  MkMap (if mp_obj_is_qstr index then all_keys_are_qstrs m else false) (is_fixed m) (is_ordered m) (used m + 1)
    (alter (fun s => MkSlot (Key index) (value s)) (used m) t).

Definition ordered_lookup (compare_only_ptrs : bool) (index : mp_obj) (lookup_kind : mp_map_lookup_kind_t)
  : M mp_map_t (option nat) :=
  m ← mget;
  match ordered_find (key_matches compare_only_ptrs index) (take (used m) (table m)) 0, lookup_kind with
  | Some pos, MP_MAP_LOOKUP_REMOVE_IF_FOUND => mput (ordered_remove pos m);; mret (Some (used m - 1)%nat)
  | Some pos, _ => mret (Some pos)
  | None, MP_MAP_LOOKUP_ADD_IF_NOT_FOUND => mput (ordered_add index m);; mret (Some (used m))
  | None, _ => mret None
  end.

(** The slot of [index], [None] for [NULL]. *)
Definition lookup_with (rehash : M mp_map_t unit) (index : mp_obj) (lookup_kind : mp_map_lookup_kind_t)
  : M mp_map_t (option nat) :=
  m ← mget;
  massert (negb (is_fixed m) || bool_decide (lookup_kind = MP_MAP_LOOKUP));;
  let quick := all_keys_are_qstrs m && negb (mp_obj_is_qstr index) in
  if quick && negb (mp_obj_is_str index) && negb (bool_decide (lookup_kind = MP_MAP_LOOKUP_ADD_IF_NOT_FOUND))
  then mret None
  else
    let compare_only_ptrs := all_keys_are_qstrs m && negb (quick && mp_obj_is_str index) in
    if is_ordered m then ordered_lookup compare_only_ptrs index lookup_kind
    else hash_lookup rehash compare_only_ptrs index lookup_kind.

(** [lookup(...)->value = v] *)
Definition set_value (i : nat) (v : option V) : M mp_map_t unit :=
  mmodify (fun m => MkMap (all_keys_are_qstrs m) (is_fixed m) (is_ordered m) (used m)
    (alter (fun s => MkSlot (key s) v) i (table m))).

Fixpoint reinsert (lookup : mp_obj -> M mp_map_t (option nat)) (old_table : list elem) : M mp_map_t unit :=
  match old_table with
  | [] => mret tt
  | s :: old_table =>
      match key s with
      | Key k => i ← lookup k; i ← mlift i; set_value i (value s)
      | _ => mret tt
      end;; reinsert lookup old_table
  end.

(** The lookups of a rehash find room, so they do not rehash again. *)
Definition mp_map_rehash : M mp_map_t unit :=
  m ← mget;
  let new_alloc := get_hash_alloc_greater_or_equal_to (alloc m + 1) in
  mput (MkMap true (is_fixed m) (is_ordered m) 0 (replicate new_alloc null_elem));;
  reinsert (fun k => lookup_with mabort k MP_MAP_LOOKUP_ADD_IF_NOT_FOUND) (table m).

Definition mp_map_lookup : mp_obj -> mp_map_lookup_kind_t -> M mp_map_t (option nat) := lookup_with mp_map_rehash.

(** ** Sets *)

Abbreviation selem := (slot unit).

Record mp_set_t := MkSet { sused : nat; stable : list selem }.

Definition null_selem : selem := MkSlot KNull tt.
Definition salloc (s : mp_set_t) : nat := length (stable s).

Definition mp_set_init (n : nat) : mp_set_t := MkSet 0 (replicate n null_selem).
Definition mp_set_clear : mp_set_t := MkSet 0 [].

Definition set_add_slot (a : nat) (index : mp_obj) (s : mp_set_t) : mp_set_t :=
  MkSet (sused s + 1) (<[a := MkSlot (Key index) tt]> (stable s)).
Definition set_remove_slot (pos : nat) (s : mp_set_t) : mp_set_t :=
  MkSet (sused s - 1) (<[pos := MkSlot (deleted_key (stable s) pos) tt]> (stable s)).

(** An element was found at [pos]; it is returned. *)
Definition set_found (remove : bool) (pos : nat) : M mp_set_t (option mp_obj) :=
  s ← mget;
  e ← mlift (stable s !! pos);
  (if remove then mput (set_remove_slot pos s) else mret tt);;
  mret (match key e with Key k => Some k | _ => None end).

(** The bits of the kind: whether to add, whether to remove. *)
Definition set_lookup_with (rehash : M mp_set_t unit) (index : mp_obj) (add remove : bool) : M mp_set_t (option mp_obj) :=
  s ← mget;
  if (salloc s =? 0)%nat && negb add then mret None
  else
    (if (salloc s =? 0)%nat then rehash else mret tt);;
    s ← mget;
    r ← mlift (search (stable s) (fun k => mp_obj_equal k index) (obj_hash index));
    match r with
    | PFound pos => set_found remove pos
    | PFree a => if add then mput (set_add_slot a index s);; mret (Some index) else mret None
    | PFull =>
        if add then
          rehash;;
          s ← mget;
          r ← mlift (search (stable s) (fun k => mp_obj_equal k index) (obj_hash index));
          match r with
          | PFound pos => set_found remove pos
          | PFree a => mput (set_add_slot a index s);; mret (Some index)
          | PFull => mabort
          end
        else mret None
    end.

Fixpoint set_reinsert (lookup : mp_obj -> M mp_set_t (option mp_obj)) (old_table : list selem) : M mp_set_t unit :=
  match old_table with
  | [] => mret tt
  | s :: old_table =>
      match key s with Key k => lookup k;; mret tt | _ => mret tt end;; set_reinsert lookup old_table
  end.

Definition mp_set_rehash : M mp_set_t unit :=
  s ← mget;
  mput (MkSet 0 (replicate (get_hash_alloc_greater_or_equal_to (salloc s + 1)) null_selem));;
  set_reinsert (fun k => set_lookup_with mabort k true false) (stable s).

Definition mp_set_lookup : mp_obj -> bool -> bool -> M mp_set_t (option mp_obj) := set_lookup_with mp_set_rehash.

(** The first filled slot from [pos] on. *)
Fixpoint first_filled (l : list selem) (pos : nat) : option (nat * mp_obj) :=
  match l with
  | [] => None
  | s :: l => match key s with Key k => Some (pos, k) | _ => first_filled l (S pos) end
  end.

Definition mp_set_remove_first : M mp_set_t (option mp_obj) :=
  s ← mget;
  match first_filled (stable s) 0 with
  | Some (pos, k) => mput (set_remove_slot pos s);; mret (Some k)
  | None => mret None
  end.

End Tables.

Arguments MkSlot {MO V} _ _.
Arguments key {MO V} _.
Arguments value {MO V} _.
Arguments mp_map_t {MO} _.
Arguments slot {MO} _.
