(* ===== verification/MapSpec.v ===== *)
(** Open addressing of [Map]: the invariant of the tables, what the search finds,
    and what an insertion or a deletion does to the association that a table
    represents. *)
From S2P Require Import Prelude Map.

(** ** Positions modulo the size *)

Lemma mod_step h j n : (n <> 0)%nat -> (((h + j) mod n + 1) mod n = (h + S j) mod n)%nat.
Proof.
  intros Hn. rewrite Nat.Div0.add_mod_idemp_l. f_equal. lia.
Qed.

Lemma mod_inj h j1 j2 n : (j1 < n)%nat -> (j2 < n)%nat -> ((h + j1) mod n = (h + j2) mod n)%nat -> j1 = j2.
Proof.
  intros H1 H2 E. pose proof (Nat.div_mod_eq (h + j1) n). pose proof (Nat.div_mod_eq (h + j2) n).
  set (a := ((h + j1) / n)%nat) in *. set (b := ((h + j2) / n)%nat) in *.
  rewrite E in *. assert (a = b) by nia. subst. nia.
Qed.

Lemma mod_back h j n : (j < n)%nat -> ((h + S j) mod n = h mod n)%nat <-> S j = n.
Proof.
  intros Hj. split.
  - intros E. destruct (decide (S j = n)); [done|]. exfalso.
    rewrite <- (Nat.add_0_r h) in E at 2. apply mod_inj in E; lia.
  - intros <-. replace (h + S j)%nat with (h + 1 * S j)%nat by lia. apply Nat.Div0.mod_add.
Qed.

Lemma mod_onto h i n : (i < n)%nat -> exists j, (j < n)%nat /\ i = ((h + j) mod n)%nat.
Proof.
  intros Hi. exists ((i + (n - h mod n)) mod n)%nat. split; [apply Nat.mod_upper_bound; lia|].
  rewrite Nat.Div0.add_mod_idemp_r, <- Nat.Div0.add_mod_idemp_l.
  pose proof (Nat.mod_upper_bound h n).
  replace (h mod n + (i + (n - h mod n)))%nat with (i + 1 * n)%nat by lia.
  rewrite Nat.Div0.mod_add. symmetry. by apply Nat.mod_small.
Qed.

(** ** Tables *)

Section Tables.
Context {MO : MpObj} {L : MpObjLaws MO} {V : Type}.
Implicit Type t : list (slot V).

Definition has_key t (i : nat) (k : mp_obj) (v : V) : Prop := t !! i = Some (MkSlot (Key k) v).
Definition nonnull t (i : nat) : Prop := exists s, t !! i = Some s /\ key s <> KNull.
Definition unfilled t (i : nat) : Prop := exists s, t !! i = Some s /\ is_filled s = false.

Record table_ok t : Prop := {
  t_probe i k v : has_key t i k v -> exists j, (j < length t)%nat /\ i = ((obj_hash k + j) mod length t)%nat
    /\ forall j', (j' < j)%nat -> nonnull t ((obj_hash k + j') mod length t)%nat;
  t_uniq i1 i2 k1 k2 v1 v2 : has_key t i1 k1 v1 -> has_key t i2 k2 v2 -> mp_obj_equal k1 k2 = true -> i1 = i2 }.

Lemma has_key_nonnull t i k v : has_key t i k v -> nonnull t i.
Proof. intros H. eexists. split; [exact H|done]. Qed.

Lemma slot_cases t i : (i < length t)%nat ->
  (exists v, t !! i = Some (MkSlot KNull v)) \/ (exists v, t !! i = Some (MkSlot KSentinel v)) \/ (exists k v, has_key t i k v).
Proof.
  intros Hi. destruct (lookup_lt_is_Some_2 t i Hi) as [[[| |k] v] E]; [left|right; left|right; right]; eauto.
Qed.

(** *** The search *)

Lemma probe_found fuel t matches h j j0 k v avail :
  (j <= j0 < length t)%nat -> (length t - j <= fuel)%nat -> has_key t ((h + j0) mod length t) k v -> matches k = true ->
  (forall j', (j <= j' < j0)%nat -> nonnull t ((h + j') mod length t)
     /\ forall k' v', has_key t ((h + j') mod length t) k' v' -> matches k' = false) ->
  probe fuel t matches ((h + j) mod length t) (h mod length t) avail = Some (PFound ((h + j0) mod length t)).
Proof.
  revert j avail. induction fuel as [|fuel IH]; intros j avail Hj Hf Hk Hm Hbefore; [lia|].
  assert (Hn : length t <> 0%nat) by lia. cbn [probe].
  destruct (decide (j = j0)) as [->|Hne].
  - rewrite Hk. cbn [mbind option_bind key]. by rewrite Hm.
  - destruct (Hbefore j) as [[s [Es Hs]] Hnm]; [lia|]. rewrite Es. cbn [mbind option_bind].
    rewrite mod_step by done. assert (Hb : ((h + S j) mod length t =? h mod length t)%nat = false).
    { apply Nat.eqb_neq. rewrite mod_back by lia. lia. }
    rewrite Hb. destruct s as [[| |k'] v']; cbn [key] in *; [done| |].
    + apply IH; try lia; try done. intros j' Hj'. apply Hbefore. lia.
    + rewrite (Hnm k' v') by exact Es. apply IH; try lia; try done. intros j' Hj'. apply Hbefore. lia.
Qed.

(** A slot where a new key with hash [h] may go. *)
Definition free_for t (h a : nat) : Prop := unfilled t a /\ exists ja, (ja < length t)%nat /\ a = ((h + ja) mod length t)%nat
  /\ forall j', (j' < ja)%nat -> nonnull t ((h + j') mod length t)%nat.

Lemma probe_absent fuel t matches h j avail :
  (j < length t)%nat -> (length t - j <= fuel)%nat -> (forall i k v, has_key t i k v -> matches k = false) ->
  (forall j', (j' < j)%nat -> nonnull t ((h + j') mod length t)%nat) ->
  match avail with
  | Some a => free_for t h a
  | None => forall j', (j' < j)%nat -> exists k v, has_key t ((h + j') mod length t) k v
  end ->
  match probe fuel t matches ((h + j) mod length t) (h mod length t) avail with
  | Some (PFree a) => free_for t h a
  | Some PFull => forall i, (i < length t)%nat -> exists k v, has_key t i k v
  | _ => False
  end.
Proof.
  revert j avail. induction fuel as [|fuel IH]; intros j avail Hj Hf Hno Hnn Hav; [lia|].
  assert (Hn : length t <> 0%nat) by lia. cbn [probe]. set (pos := ((h + j) mod length t)%nat) in *.
  assert (Hpos : (pos < length t)%nat) by by apply Nat.mod_upper_bound.
  assert (Hfree : unfilled t pos -> free_for t h pos) by (intros Hu; split; [done|by exists j]).
  assert (Hcont : forall avail', nonnull t pos ->
    match avail' with
    | Some a => free_for t h a
    | None => forall j', (j' <= j)%nat -> exists k v, has_key t ((h + j') mod length t) k v
    end ->
    match (let pos' := ((pos + 1) mod length t)%nat in
      if (pos' =? h mod length t)%nat then Some (match avail' with Some a => PFree a | None => PFull end)
      else probe fuel t matches pos' (h mod length t) avail') with
    | Some (PFree a) => free_for t h a
    | Some PFull => forall i, (i < length t)%nat -> exists k v, has_key t i k v
    | _ => False
    end).
  { intros avail' Hnpos Hav'. cbv zeta. unfold pos. rewrite mod_step by done.
    destruct (Nat.eqb_spec ((h + S j) mod length t) (h mod length t)) as [E|E].
    - apply mod_back in E; [|done]. destruct avail'; [done|]. intros i Hi.
      destruct (mod_onto h i _ Hi) as (j' & Hj' & ->). apply Hav'. lia.
    - rewrite mod_back in E by done. apply IH; try lia; try done.
      + intros j' Hj'. destruct (decide (j' = j)) as [->|]; [done|]. apply Hnn. lia.
      + destruct avail'; [done|]. intros j' Hj'. apply Hav'. lia. }
  destruct (slot_cases t pos Hpos) as [[v E]|[[v E]|(k & v & E)]].
  - rewrite E. cbn [mbind option_bind key]. destruct avail as [a|]; [done|]. apply Hfree. by eexists.
  - rewrite E. cbn [mbind option_bind key]. apply Hcont; [by eexists|]. destruct avail; [done|]. apply Hfree. by eexists.
  - rewrite E. cbn [mbind option_bind key]. rewrite (Hno _ _ _ E). apply Hcont; [by eapply has_key_nonnull|].
    destruct avail; [done|]. intros j' Hj'. destruct (decide (j' = j)) as [->|]; [by exists k, v|]. apply Hav. lia.
Qed.

Definition absent t (index : mp_obj) : Prop := forall i k v, has_key t i k v -> mp_obj_equal k index = false.

Lemma search_found t matches index i k v :
  table_ok t -> (forall k i v, has_key t i k v -> matches k = mp_obj_equal k index) ->
  has_key t i k v -> mp_obj_equal k index = true -> search t matches (obj_hash index) = Some (PFound i).
Proof.
  intros Ht Hm Hi He. destruct (t_probe _ Ht i k v Hi) as (j & Hj & -> & Hnn). rewrite (equal_hash _ _ He) in *.
  unfold search. rewrite <- (Nat.add_0_r (obj_hash index)) at 1.
  apply probe_found with k v; try lia; try done; [by rewrite (Hm _ _ _ Hi)|].
  intros j' Hj'. split; [apply Hnn; lia|]. intros k' v' Hk'. rewrite (Hm _ _ _ Hk').
  apply not_true_is_false. intros He'. pose proof (t_uniq _ Ht _ _ _ _ _ _ Hk' Hi (equal_trans _ _ _ He' (equal_sym _ _ He))) as E.
  apply mod_inj in E; lia.
Qed.

Lemma search_absent t matches index :
  length t <> 0%nat -> (forall k i v, has_key t i k v -> matches k = mp_obj_equal k index) -> absent t index ->
  match search t matches (obj_hash index) with
  | Some (PFree a) => free_for t (obj_hash index) a
  | Some PFull => forall i, (i < length t)%nat -> exists k v, has_key t i k v
  | _ => False
  end.
Proof.
  intros Hn Hm Ha. pose proof (probe_absent (length t) t matches (obj_hash index) 0 None) as H.
  rewrite Nat.add_0_r in H. apply H; try lia.
  intros i k v Hk. rewrite (Hm _ _ _ Hk). by eapply Ha.
Qed.

(** *** The association *)

Fixpoint find_key t (k : mp_obj) : option V :=
  match t with
  | [] => None
  | s :: t => match key s with
              | Key k' => if mp_obj_equal k' k then Some (value s) else find_key t k
              | _ => find_key t k
              end
  end.

Lemma find_key_Some t k v : find_key t k = Some v -> exists i k', has_key t i k' v /\ mp_obj_equal k' k = true.
Proof.
  induction t as [|s t IH]; [done|]. destruct s as [[| |k'] w]; cbn [find_key key value]; try (intros (i & k'' & H & E)%IH; by exists (S i), k'').
  destruct (mp_obj_equal k' k) eqn:E; [intros [= ->]; by exists 0%nat, k'|]. intros (i & k'' & H & E')%IH. by exists (S i), k''.
Qed.

Lemma find_key_None t k : find_key t k = None <-> absent t k.
Proof.
  split.
  - induction t as [|s t IH]; [intros _ i ? ? H; by destruct i|]. intros Hf i k' v Hk. destruct i as [|i].
    + injection Hk as ->. cbn [find_key key] in Hf. by destruct (mp_obj_equal k' k).
    + destruct s as [[| |k''] w]; cbn [find_key key] in Hf; try by eapply IH.
      destruct (mp_obj_equal k'' k); [done|]. by eapply IH.
  - intros Ha. destruct (find_key t k) as [v|] eqn:E; [|done]. apply find_key_Some in E as (i & k' & H & E).
    rewrite (Ha _ _ _ H) in E. done.
Qed.

Lemma find_key_has t i k k' v : table_ok t -> has_key t i k v -> mp_obj_equal k k' = true -> find_key t k' = Some v.
Proof.
  intros Ht Hk E. destruct (find_key t k') as [w|] eqn:Ef.
  - apply find_key_Some in Ef as (i' & k'' & Hk'' & E'').
    assert (i = i') as <- by (eapply (t_uniq _ Ht); eauto; eapply equal_trans; [exact E|by apply equal_sym]).
    unfold has_key in *. congruence.
  - apply find_key_None in Ef. specialize (Ef _ _ _ Hk). congruence.
Qed.

Definition filled_count t : nat := length (filter (fun s => is_filled s = true) t).

Lemma filled_count_cons s t : filled_count (s :: t) = ((if is_filled s then 1 else 0) + filled_count t)%nat.
Proof.
  unfold filled_count. rewrite list.filter_cons. destruct (is_filled s); [by rewrite decide_True|by rewrite decide_False].
Qed.

Lemma filled_count_le t : (filled_count t <= length t)%nat.
Proof. apply length_filter. Qed.

Lemma filled_count_lt t i : unfilled t i -> (filled_count t < length t)%nat.
Proof.
  revert i. induction t as [|s t IH]; intros i (s' & E & Hs'); [done|]. rewrite filled_count_cons. cbn [length].
  destruct i as [|i]; [injection E as ->; rewrite Hs'; pose proof (filled_count_le t); lia|].
  specialize (IH i ltac:(by exists s')). destruct (is_filled s); lia.
Qed.

Lemma filled_count_insert t i s' s : t !! i = Some s ->
  (filled_count (<[i := s']> t) + (if is_filled s then 1 else 0) = filled_count t + (if is_filled s' then 1 else 0))%nat.
Proof.
  revert i. induction t as [|x t IH]; intros i E; [done|]. destruct i as [|i].
  - injection E as ->. change (<[0%nat := s']> (s :: t)) with (s' :: t). rewrite !filled_count_cons. lia.
  - change (<[S i := s']> (x :: t)) with (x :: <[i := s']> t). rewrite !filled_count_cons. specialize (IH i E). lia.
Qed.

(** *** A new key *)

Lemma has_key_insert t a k v i k' v' : (a < length t)%nat ->
  has_key (<[a := MkSlot (Key k) v]> t) i k' v' <-> (i = a /\ k' = k /\ v' = v) \/ (i <> a /\ has_key t i k' v').
Proof.
  intros Ha. unfold has_key. destruct (decide (i = a)) as [->|Hne].
  - rewrite list_lookup_insert_eq by done. split; [intros [= <- <-]; auto|intros [(_ & -> & ->)|[? _]]; done].
  - rewrite list_lookup_insert_ne by done. split; [auto|intros [(? & _)|[_ ?]]; done].
Qed.

Lemma insert_ok t a k v : table_ok t -> free_for t (obj_hash k) a -> absent t k ->
  table_ok (<[a := MkSlot (Key k) v]> t).
Proof.
  intros Ht [Hu (ja & Hja & Ea & Hnn)] Habs. assert (Ha : (a < length t)%nat).
  { destruct Hu as (s & Es & _). by eapply lookup_lt_Some. }
  assert (Hkeep : forall i, nonnull t i -> nonnull (<[a := MkSlot (Key k) v]> t) i).
  { intros i (s & Es & Hs). destruct (decide (i = a)) as [->|Hne].
    - eexists. rewrite list_lookup_insert_eq by done. by split.
    - exists s. by rewrite list_lookup_insert_ne by done. }
  constructor.
  - intros i k' v'. rewrite has_key_insert, length_insert by done. intros [(-> & -> & ->)|[Hne Hk]].
    + exists ja. split; [done|]. split; [done|]. eauto.
    + destruct (t_probe _ Ht _ _ _ Hk) as (j & Hj & -> & Hn). exists j. eauto.
  - intros i1 i2 k1 k2 v1 v2. rewrite !has_key_insert by done.
    intros [(-> & -> & ->)|[Hne1 H1]] [(-> & -> & ->)|[Hne2 H2]] E; [done| | |by eapply (t_uniq _ Ht)].
    + apply equal_sym in E. by rewrite (Habs _ _ _ H2) in E.
    + by rewrite (Habs _ _ _ H1) in E.
Qed.

Lemma find_key_insert t a k v k' : unfilled t a -> absent t k ->
  find_key (<[a := MkSlot (Key k) v]> t) k' = if mp_obj_equal k k' then Some v else find_key t k'.
Proof.
  revert a. induction t as [|s t IH]; intros a (s0 & Es & Hs0) Habs; [done|].
  assert (Habs' : absent t k) by (intros i; apply (Habs (S i))).
  destruct a as [|a].
  - injection Es as ->. cbn [insert list_insert find_key key value]. destruct (mp_obj_equal k k'); [done|]. by destruct s0 as [[] ?].
  - specialize (IH a ltac:(by exists s0) Habs'). 
    change (<[S a := MkSlot (Key k) v]> (s :: t)) with (s :: <[a := MkSlot (Key k) v]> t). cbn [find_key].
    destruct s as [[| |k''] w]; cbn [key value]; try exact IH.
    destruct (mp_obj_equal k'' k') eqn:E; [|exact IH].
    destruct (mp_obj_equal k k') eqn:E'; [|done]. exfalso.
    pose proof (equal_trans _ _ _ E (equal_sym _ _ E')) as Ek. by rewrite (Habs 0%nat k'' w) in Ek.
Qed.

(** *** A deletion *)

Lemma remove_ok t i k v : table_ok t -> has_key t i k v ->
  table_ok (<[i := MkSlot (deleted_key t i) v]> t).
Proof.
  intros Ht Hi. pose proof (lookup_lt_Some _ _ _ Hi) as Hlt. assert (Hn : length t <> 0%nat) by lia.
  assert (Hback : forall j k' v', has_key (<[i := MkSlot (deleted_key t i) v]> t) j k' v' -> j <> i /\ has_key t j k' v').
  { intros j k' v'. unfold has_key. destruct (decide (j = i)) as [->|Hne].
    - rewrite list_lookup_insert_eq by done. unfold deleted_key. intros [= E _]. by repeat case_match.
    - by rewrite list_lookup_insert_ne by done. }
  constructor.
  - intros j k' v' Hj. destruct (Hback _ _ _ Hj) as [Hne Hk]. rewrite length_insert.
    destruct (t_probe _ Ht _ _ _ Hk) as (o & Ho & Ej & Hnn). exists o. split; [done|]. split; [done|].
    intros o' Ho'. destruct (decide ((obj_hash k' + o') mod length t = i)%nat) as [Ei|Hni].
    + (* the next slot is on the way, or the key itself *)
      eexists. rewrite Ei, list_lookup_insert_eq by done. split; [done|]. cbn [key]. unfold deleted_key.
      rewrite <- Ei, mod_step by done.
      assert (Hnext : nonnull t ((obj_hash k' + S o') mod length t)).
      { destruct (decide (S o' = o)) as [->|]; [rewrite <- Ej; by eapply has_key_nonnull|]. apply Hnn. lia. }
      destruct Hnext as (s & Es & Hs). rewrite Es. by destruct (key s).
    + destruct (Hnn o' Ho') as (s & Es & Hs). exists s. by rewrite list_lookup_insert_ne by done.
  - intros i1 i2 k1 k2 v1 v2 H1 H2. apply Hback in H1 as [_ H1]. apply Hback in H2 as [_ H2]. by eapply (t_uniq _ Ht).
Qed.

Lemma find_key_remove t i k v k' : table_ok t -> has_key t i k v ->
  find_key (<[i := MkSlot (deleted_key t i) v]> t) k' = if mp_obj_equal k k' then None else find_key t k'.
Proof.
  intros Ht Hi. pose proof (lookup_lt_Some _ _ _ Hi) as Hlt.
  assert (Hd : match deleted_key t i with Key _ => False | _ => True end) by (unfold deleted_key; by repeat case_match).
  assert (Hu : forall j k2 v2, has_key t j k2 v2 -> j <> i -> mp_obj_equal k k' = true -> mp_obj_equal k2 k' = false).
  { intros j k2 v2 H2 Hne E. apply not_true_is_false. intros E2. apply Hne.
    eapply (t_uniq _ Ht); eauto. eapply equal_trans; [exact E2|by apply equal_sym]. }
  generalize dependent (deleted_key t i). clear Ht. revert i Hi Hlt Hu.
  induction t as [|s t IH]; intros i Hi Hlt Hu d Hd; [done|]. destruct i as [|i].
  - injection Hi as ->. cbn [insert list_insert find_key key value]. assert (Et : mp_obj_equal k k' = true -> find_key t k' = None).
    { intros E. apply find_key_None. intros j k2 v2 H2. by apply (Hu (S j) k2 v2). }
    destruct d; try done; destruct (mp_obj_equal k k'); auto.
  - change (<[S i := MkSlot d v]> (s :: t)) with (s :: <[i := MkSlot d v]> t). cbn [find_key].
    assert (IH' : find_key (<[i := MkSlot d v]> t) k' = if mp_obj_equal k k' then None else find_key t k').
    { apply IH; [done|simpl in Hlt; lia| |done]. intros j k2 v2 H2 Hne. apply (Hu (S j) k2 v2 H2). congruence. }
    destruct s as [[| |k''] w]; cbn [key value]; try exact IH'.
    destruct (mp_obj_equal k'' k') eqn:E; [|exact IH'].
    destruct (mp_obj_equal k k') eqn:E'; [|done]. exfalso.
    pose proof (Hu 0%nat k'' w eq_refl ltac:(done) eq_refl) as E2. congruence.
Qed.

Lemma filled_count_null n v : filled_count (replicate n (MkSlot KNull v)) = 0%nat.
Proof. induction n as [|n IH]; [done|]. cbn [replicate]. by rewrite filled_count_cons, IH. Qed.

(** *** A new value *)

Lemma update_ok t i k w v : table_ok t -> has_key t i k w -> table_ok (<[i := MkSlot (Key k) v]> t).
Proof.
  intros [Hp Hu] Hi. pose proof (lookup_lt_Some _ _ _ Hi) as Hlt.
  assert (Hiff : forall j k' v', has_key (<[i := MkSlot (Key k) v]> t) j k' v' -> exists w', has_key t j k' w').
  { intros j k' v'. rewrite has_key_insert by done. intros [(-> & -> & ->)|[_ H]]; eauto. }
  constructor.
  - intros j k' v' Hj. destruct (Hiff _ _ _ Hj) as [w' Hw]. rewrite length_insert.
    destruct (Hp _ _ _ Hw) as (o & Ho & Ej & Hnn). exists o. split; [done|]. split; [done|].
    intros o' Ho'. destruct (Hnn o' Ho') as (s & Es & Hs).
    destruct (decide ((obj_hash k' + o') mod length t = i)%nat) as [E|Hne].
    + exists (MkSlot (Key k) v). rewrite E, list_lookup_insert_eq by done. done.
    + exists s. by rewrite list_lookup_insert_ne by done.
  - intros i1 i2 k1 k2 v1 v2 H1 H2. destruct (Hiff _ _ _ H1), (Hiff _ _ _ H2). by eapply Hu.
Qed.

Lemma find_key_update t i k w v k' : table_ok t -> has_key t i k w ->
  find_key (<[i := MkSlot (Key k) v]> t) k' = if mp_obj_equal k k' then Some v else find_key t k'.
Proof.
  intros Ht Hi. pose proof (update_ok t i k w v Ht Hi) as Ht'. pose proof (lookup_lt_Some _ _ _ Hi) as Hlt.
  destruct (mp_obj_equal k k') eqn:E.
  - apply (find_key_has _ i k); [done| |done]. unfold has_key. by apply list_lookup_insert_eq.
  - assert (Hsame : forall j k2 v2, mp_obj_equal k2 k' = true ->
      has_key (<[i := MkSlot (Key k) v]> t) j k2 v2 <-> has_key t j k2 v2).
    { intros j k2 v2 E2. rewrite has_key_insert by done. split.
      - intros [(-> & -> & ->)|[_ H]]; [congruence|done].
      - intros H. destruct (decide (j = i)) as [->|]; [|auto]. unfold has_key in *. congruence. }
    destruct (find_key t k') as [v0|] eqn:Ef.
    + apply find_key_Some in Ef as (j & k2 & H2 & E2). apply (find_key_has _ j k2); [done| |done]. by apply Hsame.
    + apply find_key_None. intros j k2 v2 H2. apply not_true_is_false. intros E2.
      apply find_key_None in Ef. apply Hsame in H2; [|done]. by rewrite (Ef _ _ _ H2) in E2.
Qed.

Lemma empty_table_ok n v : table_ok (replicate n (MkSlot KNull v)).
Proof.
  assert (H : forall i k w, ~ has_key (replicate n (MkSlot KNull v)) i k w) by (intros i k w (? & _)%lookup_replicate; done).
  constructor; intros; exfalso; by eapply H.
Qed.

End Tables.

(** The lookups of maps and sets implement finite associations: [Map] against the
    abstract view of [MapSpec]. *)

Lemma first_size_ge sizes x : (x <= first_size sizes x)%nat.
Proof.
  induction sizes as [|n sizes IH]; cbn [first_size].
  - pose proof (Z.add_lor_land (Z.of_nat (x + x / 2)) 1) as H.
    assert (Z.land (Z.of_nat (x + x / 2)) 1 <= 1).
    { change 1 with (Z.ones 1) at 1. rewrite Z.land_ones by lia. change (2 ^ 1) with 2.
      pose proof (Z.mod_pos_bound (Z.of_nat (x + x / 2)) 2). lia. }
    lia.
  - by destruct (Nat.leb_spec x n).
Qed.

Section Maps.
Context {MO : MpObj} {L : MpObjLaws MO} {V : Type}.
Implicit Types m : mp_map_t V.
Abbreviation find m := (find_key (table m)).

(** A hash table. *)
Record map_ok m : Prop := {
  m_fixed : is_fixed m = false;
  m_ordered : is_ordered m = false;
  m_used : used m = filled_count (table m);
  m_table : table_ok (table m);
  m_qstrs : all_keys_are_qstrs m = true -> forall i k v, has_key (table m) i k v -> mp_obj_is_qstr k = true }.

Lemma absent_other m index : map_ok m -> all_keys_are_qstrs m = true -> mp_obj_is_qstr index = false ->
  mp_obj_is_str index = false -> absent (table m) index.
Proof. intros Hm Hq Hi Hs i k v Hk. apply qstr_other; [by eapply m_qstrs|done..]. Qed.

(** The comparison agrees with equality on the keys of the table. *)
Lemma key_matches_equal m index : map_ok m ->
  (mp_obj_is_str index = false -> all_keys_are_qstrs m = true -> mp_obj_is_qstr index = false -> absent (table m) index) ->
  forall k i v, has_key (table m) i k v ->
  key_matches (all_keys_are_qstrs m && negb (all_keys_are_qstrs m && negb (mp_obj_is_qstr index) && mp_obj_is_str index)) index k
  = mp_obj_equal k index.
Proof.
  intros Hm Habs k i v Hk. unfold key_matches.
  destruct (bool_decide_reflect (k = index)) as [->|Hne]; [by rewrite equal_refl|]. cbn [orb].
  destruct (all_keys_are_qstrs m) eqn:Eq; [|done]. cbn [andb].
  destruct (mp_obj_is_qstr index) eqn:Ei; cbn [andb negb].
  - symmetry. apply not_true_is_false. intros E. apply Hne. apply qstr_equal; [by eapply m_qstrs|done..].
  - destruct (mp_obj_is_str index) eqn:Es; [done|]. symmetry. by eapply Habs.
Qed.

Lemma set_empty_alloc m : map_ok m -> alloc m = 0%nat -> forall index, absent (table m) index.
Proof. intros Hm Ha index i k v Hk. unfold alloc in Ha. apply lookup_lt_Some in Hk. lia. Qed.

(** *** The slot for a new key *)

Lemma add_slot_ok m a index : map_ok m -> free_for (table m) (obj_hash index) a -> absent (table m) index ->
  map_ok (add_slot a index m).
Proof.
  intros Hm Hf Ha. pose proof Hf as [(s & Es & Hs) _]. constructor; try apply Hm.
  - unfold add_slot. cbn [used table]. pose proof (filled_count_insert (table m) a (MkSlot (Key index) None) s Es) as H.
    rewrite Hs in H. cbn [is_filled key] in H. rewrite (m_used _ Hm). lia.
  - apply insert_ok; [apply Hm|done..].
  - unfold add_slot. cbn [all_keys_are_qstrs table]. destruct (mp_obj_is_qstr index) eqn:Eq; [|done].
    intros Hq i k v. rewrite has_key_insert by (by eapply lookup_lt_Some).
    intros [(-> & -> & _)|[_ Hk]]; [done|]. by eapply (m_qstrs _ Hm).
Qed.

(** What [ADD] does when the key is absent and there is room. *)
Definition added m m' (index : mp_obj) (i : nat) : Prop :=
  has_key (table m') i index None
  /\ forall k', find m' k' = if mp_obj_equal index k' then Some None else find m k'.

Lemma add_slot_added m a index : map_ok m -> free_for (table m) (obj_hash index) a -> absent (table m) index ->
  added m (add_slot a index m) index a.
Proof.
  intros Hm [Hu _] Ha. split.
  - unfold has_key, add_slot. cbn [table]. destruct Hu as (s & Es & _). apply list_lookup_insert_eq. by eapply lookup_lt_Some.
  - intros k'. unfold add_slot. cbn [table]. by apply find_key_insert.
Qed.

Lemma full_count m : map_ok m -> (forall i, (i < length (table m))%nat -> exists k v, has_key (table m) i k v) ->
  used m = alloc m.
Proof.
  intros Hm Hf. rewrite (m_used _ Hm). unfold alloc. revert Hf. generalize (table m). induction l as [|s t IH]; intros Hf; [done|].
  rewrite filled_count_cons. cbn [length]. rewrite IH.
  - destruct (Hf 0%nat) as (k & v & E); [simpl; lia|]. injection E as ->. done.
  - intros i Hi. destruct (Hf (S i)) as (k & v & E); [simpl; lia|]. by exists k, v.
Qed.

(** The hash lookup of an absent key adds it, when a slot is free; whatever [rehash] is. *)
Lemma hash_add_room rehash m index ptrs : map_ok m -> absent (table m) index -> (used m < alloc m)%nat ->
  (forall k i v, has_key (table m) i k v -> key_matches ptrs index k = mp_obj_equal k index) ->
  exists a, hash_lookup rehash ptrs index MP_MAP_LOOKUP_ADD_IF_NOT_FOUND m = Some (Some a, add_slot a index m)
    /\ free_for (table m) (obj_hash index) a.
Proof.
  intros Hm Ha Hroom Hk. unfold hash_lookup. rewrite (M_bind_Some mget _ m m m) by done.
  assert (Hn : alloc m <> 0%nat) by lia. destruct (Nat.eqb_spec (alloc m) 0); [done|]. cbn [andb].
  rewrite (M_bind_Some (mret tt) _ m tt m) by done. rewrite (M_bind_Some mget _ m m m) by done.
  pose proof (search_absent (table m) _ index Hn Hk Ha) as Hs.
  destruct (search (table m) _ (obj_hash index)) as [[i|a|]|]; try done.
  - exists a. by split.
  - pose proof (full_count m Hm Hs). lia.
Qed.

(** *** Rehash *)

Lemma set_value_ok m i k w v : map_ok m -> has_key (table m) i k w ->
  exists m', set_value i v m = Some (tt, m') /\ map_ok m' /\ alloc m' = alloc m /\ used m' = used m
    /\ has_key (table m') i k v
    /\ forall k', find m' k' = if mp_obj_equal k k' then Some v else find m k'.
Proof.
  intros Hm Hi. pose proof (lookup_lt_Some _ _ _ Hi) as Hlt. eexists. split; [reflexivity|].
  assert (Et : alter (fun s : slot (option V) => MkSlot (key s) v) i (table m) = <[i := MkSlot (Key k) v]> (table m)).
  { apply list_eq. intros j. destruct (decide (i = j)) as [<-|Hne].
    - rewrite list_lookup_alter_eq, list_lookup_insert_eq by done. by rewrite Hi.
    - by rewrite list_lookup_alter_ne, list_lookup_insert_ne by done. }
  unfold alloc. cbn [is_fixed is_ordered used table all_keys_are_qstrs]. rewrite Et.
  split; [|split; [apply length_insert|split; [done|split]]].
  - constructor; cbn [is_fixed is_ordered used table all_keys_are_qstrs]; try apply Hm.
    + pose proof (filled_count_insert (table m) i (MkSlot (Key k) v) _ Hi) as H. cbn [is_filled key] in H.
      rewrite (m_used _ Hm). lia.
    + by apply update_ok with w; [apply Hm|].
    + intros Hq j k' v'. rewrite has_key_insert by done. intros [(-> & -> & ->)|[_ Hj]]; by eapply (m_qstrs _ Hm).
  - unfold has_key. by apply list_lookup_insert_eq.
  - intros k'. apply find_key_update with w; [apply Hm|done].
Qed.

(** The lookup of an absent key, when a slot is free. *)
Lemma lookup_add_room rehash m index : map_ok m -> absent (table m) index -> (used m < alloc m)%nat ->
  exists a, lookup_with rehash index MP_MAP_LOOKUP_ADD_IF_NOT_FOUND m = Some (Some a, add_slot a index m)
    /\ free_for (table m) (obj_hash index) a.
Proof.
  intros Hm Ha Hroom. unfold lookup_with. rewrite (M_bind_Some mget _ m m m) by done.
  rewrite (m_fixed _ Hm). cbn [negb orb]. rewrite (M_bind_Some (massert true) _ m tt m) by done.
  rewrite andb_false_r, (m_ordered _ Hm). apply hash_add_room; try done. by apply key_matches_equal.
Qed.

Lemma reinsert_spec (ol : list (slot (option V))) m : map_ok m -> (forall i1 i2 k1 k2 v1 v2, has_key ol i1 k1 v1 -> has_key ol i2 k2 v2 ->
    mp_obj_equal k1 k2 = true -> i1 = i2) ->
  (forall i k v, has_key ol i k v -> absent (table m) k) -> (used m + filled_count ol <= alloc m)%nat ->
  exists m', reinsert (fun k => lookup_with mabort k MP_MAP_LOOKUP_ADD_IF_NOT_FOUND) ol m = Some (tt, m')
    /\ map_ok m' /\ used m' = (used m + filled_count ol)%nat /\ alloc m' = alloc m
    /\ forall k, find m' k = match find_key ol k with Some v => Some v | None => find m k end.
Proof.
  revert m. induction ol as [|s ol IH]; intros m Hm Hu Hd Hr.
  { exists m. split; [done|]. split; [done|]. unfold filled_count. simpl. split; [lia|done]. }
  assert (Hu' : forall i1 i2 k1 k2 v1 v2, has_key ol i1 k1 v1 -> has_key ol i2 k2 v2 -> mp_obj_equal k1 k2 = true -> i1 = i2).
  { intros i1 i2 k1 k2 v1 v2 H1 H2 E. assert (S i1 = S i2) by (eapply (Hu (S i1) (S i2)); eauto). lia. }
  assert (Hd' : forall i k v, has_key ol i k v -> absent (table m) k) by (intros i k v H; by apply (Hd (S i) k v)).
  rewrite filled_count_cons in Hr. destruct (is_filled s) eqn:Es; cycle 1.
  - destruct (IH m Hm Hu' Hd') as (m' & E & Hm' & Eu & Ea & Hf); [lia|]. exists m'. split.
    { destruct s as [[] v]; [..|done]; cbn [reinsert key]; by rewrite (M_bind_Some (mret tt) _ m tt m). }
    split; [done|]. rewrite filled_count_cons, Es. split; [lia|]. split; [done|].
    intros k. rewrite Hf. by destruct s as [[] v].
  - destruct s as [[| |k] v]; try done. assert (Hk : absent (table m) k) by by apply (Hd 0%nat k v).
    destruct (lookup_add_room mabort m k Hm Hk) as (a & El & Hfree); [lia|].
    pose proof (add_slot_ok m a k Hm Hfree Hk) as Hm1. pose proof (add_slot_added m a k Hm Hfree Hk) as [Hk1 Hf1].
    destruct (set_value_ok _ a k None v Hm1 Hk1) as (m2 & E2 & Hm2 & Ea2 & Eu2 & Hk2 & Hf2).
    destruct (IH m2 Hm2 Hu') as (m' & E & Hm' & Eu & Ea & Hf).
    + intros i k' v' Hk'. apply find_key_None. rewrite Hf2, Hf1.
      destruct (mp_obj_equal k k') eqn:E; [|apply find_key_None; by eapply Hd'].
      assert (0%nat = S i) by by eapply (Hu 0%nat (S i) k k'). done.
    + rewrite Eu2, Ea2. unfold alloc, add_slot. cbn [used table]. rewrite length_insert. unfold alloc in Hr. lia.
    + exists m'. split.
      { cbn [reinsert key value]. rewrite M_bind_assoc, (M_bind_Some _ _ _ _ _ El).
        rewrite M_bind_assoc. rewrite (M_bind_Some (mlift (Some a)) _ _ a _) by reflexivity.
        by rewrite (M_bind_Some _ _ _ _ _ E2). }
      split; [done|]. rewrite filled_count_cons, Eu, Eu2, Ea, Ea2. unfold alloc, add_slot. cbn [used table is_filled key].
      rewrite length_insert. split; [lia|]. split; [done|]. intros k'. rewrite Hf, Hf2, Hf1. cbn [find_key key value].
      destruct (mp_obj_equal k k') eqn:E'; [|done].
      destruct (find_key ol k') as [v'|] eqn:Ef; [|done].
      apply find_key_Some in Ef as (i & k2 & H2 & E2').
      assert (0%nat = S i) by (eapply (Hu 0%nat (S i) k k2); [done|exact H2|]; eapply equal_trans; [exact E'|by apply equal_sym]). done.
Qed.

Lemma rehash_spec m : map_ok m ->
  exists m', mp_map_rehash m = Some (tt, m') /\ map_ok m' /\ used m' = used m /\ (used m' < alloc m')%nat
    /\ forall k, find m' k = find m k.
Proof.
  intros Hm. unfold mp_map_rehash. rewrite (M_bind_Some mget _ m m m) by done.
  set (n := get_hash_alloc_greater_or_equal_to (alloc m + 1)).
  assert (Hn : (alloc m + 1 <= n)%nat) by apply first_size_ge.
  set (m0 := MkMap true (is_fixed m) (is_ordered m) 0 (replicate n null_elem)).
  assert (Hno : forall i k v, ~ has_key (table m0) i k v) by (intros i k v (? & _)%lookup_replicate; done).
  assert (Hm0 : map_ok m0).
  { constructor; try apply Hm.
    - symmetry. apply filled_count_null.
    - apply empty_table_ok.
    - intros _ i k v H. by apply Hno in H. }
  rewrite (M_bind_Some (mput m0) _ m tt m0) by done.
  destruct (reinsert_spec (table m) m0 Hm0) as (m' & E & Hm' & Eu & Ea & Hf).
  - apply Hm.
  - intros i k v _ i' k' v' H. by apply Hno in H.
  - unfold alloc. cbn [used table m0]. rewrite length_replicate. pose proof (filled_count_le (table m)).
    unfold alloc in Hn. lia.
  - exists m'. split; [exact E|]. split; [done|]. cbn [used m0] in Eu. rewrite Eu, Ea, (m_used _ Hm).
    split; [lia|]. split.
    + unfold alloc. cbn [table m0]. rewrite length_replicate. pose proof (filled_count_le (table m)). unfold alloc in Hn. lia.
    + intros k. rewrite Hf. assert (E0 : find m0 k = None) by (apply find_key_None; intros i k' v H; by apply Hno in H).
      rewrite E0. by destruct (find m k).
Qed.

(** *** Lookups *)

Lemma remove_slot_table m i k v : has_key (table m) i k v ->
  table (remove_slot i m) = <[i := MkSlot (deleted_key (table m) i) v]> (table m).
Proof.
  intros Hi. pose proof (lookup_lt_Some _ _ _ Hi) as Hlt. unfold remove_slot. cbn [table]. apply list_eq. intros j.
  destruct (decide (i = j)) as [<-|Hne].
  - rewrite list_lookup_alter_eq, list_lookup_insert_eq by done. by rewrite Hi.
  - by rewrite list_lookup_alter_ne, list_lookup_insert_ne by done.
Qed.

Lemma remove_slot_ok m i k v : map_ok m -> has_key (table m) i k v -> map_ok (remove_slot i m).
Proof.
  intros Hm Hi. pose proof (remove_slot_table m i k v Hi) as Et. pose proof (lookup_lt_Some _ _ _ Hi) as Hlt.
  assert (Hd : match deleted_key (table m) i with Key _ => False | _ => True end) by (unfold deleted_key; by repeat case_match).
  constructor; try apply Hm.
  - rewrite Et. pose proof (filled_count_insert (table m) i (MkSlot (deleted_key (table m) i) v) _ Hi) as H.
    assert (Ef : is_filled (MkSlot (deleted_key (table m) i) v) = false) by (unfold is_filled; cbn [key]; by destruct (deleted_key (table m) i)).
    rewrite Ef in H. cbn [is_filled key] in H. unfold remove_slot. cbn [used]. rewrite (m_used _ Hm). lia.
  - rewrite Et. apply remove_ok with k; [apply Hm|done].
  - intros Hq j k' v' Hj. rewrite Et in Hj. unfold has_key in Hj.
    destruct (decide (j = i)) as [->|Hne].
    + rewrite list_lookup_insert_eq in Hj by done. injection Hj as Hj _. by rewrite Hj in Hd.
    + rewrite list_lookup_insert_ne in Hj by done. by eapply (m_qstrs _ Hm).
Qed.

Lemma lookup_found m index i k v kind : map_ok m -> has_key (table m) i k v -> mp_obj_equal k index = true ->
  mp_map_lookup index kind m
  = Some (Some i, if decide (kind = MP_MAP_LOOKUP_REMOVE_IF_FOUND) then remove_slot i m else m).
Proof.
  intros Hm Hi He. unfold mp_map_lookup, lookup_with. rewrite (M_bind_Some mget _ m m m) by done.
  rewrite (m_fixed _ Hm). cbn [negb orb]. rewrite (M_bind_Some (massert true) _ m tt m) by done.
  assert (Habs : mp_obj_is_str index = false -> all_keys_are_qstrs m = true -> mp_obj_is_qstr index = false -> absent (table m) index).
  { intros H1 H2 H3. by apply absent_other. }
  destruct (all_keys_are_qstrs m && negb (mp_obj_is_qstr index) && negb (mp_obj_is_str index)
    && negb (bool_decide (kind = MP_MAP_LOOKUP_ADD_IF_NOT_FOUND))) eqn:Eq.
  { bool_to_prop. rewrite (Habs ltac:(done) ltac:(done) ltac:(done) i k v Hi) in He. done. }
  rewrite (m_ordered _ Hm). unfold hash_lookup. rewrite (M_bind_Some mget _ m m m) by done.
  assert (Ha : alloc m <> 0%nat) by (apply lookup_lt_Some in Hi; unfold alloc; lia).
  destruct (Nat.eqb_spec (alloc m) 0); [done|]. cbn [andb].
  rewrite (M_bind_Some (mret tt) _ m tt m) by done. rewrite (M_bind_Some mget _ m m m) by done.
  rewrite (search_found (table m) _ index i k v (m_table _ Hm) (key_matches_equal m index Hm Habs) Hi He).
  by destruct kind.
Qed.

Lemma lookup_absent m index kind : map_ok m -> absent (table m) index -> kind <> MP_MAP_LOOKUP_ADD_IF_NOT_FOUND ->
  mp_map_lookup index kind m = Some (None, m).
Proof.
  intros Hm Ha Hk. unfold mp_map_lookup, lookup_with. rewrite (M_bind_Some mget _ m m m) by done.
  rewrite (m_fixed _ Hm). cbn [negb orb]. rewrite (M_bind_Some (massert true) _ m tt m) by done.
  case_match; [done|]. rewrite (m_ordered _ Hm). unfold hash_lookup. rewrite (M_bind_Some mget _ m m m) by done.
  rewrite bool_decide_false by done. destruct (Nat.eqb_spec (alloc m) 0); [done|]. cbn [andb negb].
  rewrite (M_bind_Some (mret tt) _ m tt m) by done. rewrite (M_bind_Some mget _ m m m) by done.
  pose proof (search_absent (table m) _ index ltac:(done) (key_matches_equal m index Hm ltac:(done)) Ha) as Hs.
  by destruct (search (table m) _ (obj_hash index)) as [[]|]; destruct kind.
Qed.

Lemma lookup_add_absent m index : map_ok m -> absent (table m) index ->
  exists a m', mp_map_lookup index MP_MAP_LOOKUP_ADD_IF_NOT_FOUND m = Some (Some a, m') /\ map_ok m' /\ added m m' index a
    /\ used m' = S (used m).
Proof.
  intros Hm Ha. destruct (rehash_spec m Hm) as (m1 & Er & Hm1 & Eu1 & Hroom & Hf1).
  assert (Ha1 : absent (table m1) index) by (apply find_key_None; rewrite Hf1; by apply find_key_None).
  assert (Hadd : forall a, free_for (table m1) (obj_hash index) a ->
    map_ok (add_slot a index m1) /\ added m (add_slot a index m1) index a /\ used (add_slot a index m1) = S (used m)).
  { intros a Hfree. split; [by apply add_slot_ok|]. split; [|cbn [used add_slot]; lia].
    destruct (add_slot_added m1 a index Hm1 Hfree Ha1) as [H1 H2]. split; [done|].
    intros k'. by rewrite H2, Hf1. }
  unfold mp_map_lookup, lookup_with. rewrite (M_bind_Some mget _ m m m) by done.
  rewrite (m_fixed _ Hm). cbn [negb orb]. rewrite (M_bind_Some (massert true) _ m tt m) by done.
  rewrite andb_false_r, (m_ordered _ Hm).
  set (ptrs := all_keys_are_qstrs m && negb _).
  assert (Hk : forall k i v, has_key (table m) i k v -> key_matches ptrs index k = mp_obj_equal k index)
    by (apply key_matches_equal; done).
  (* the comparison chosen for the old table is right for the new one, whose keys are the same *)
  assert (Hk1 : forall k i v, has_key (table m1) i k v -> key_matches ptrs index k = mp_obj_equal k index).
  { intros k i v H1. pose proof (find_key_has (table m1) i k k v (m_table _ Hm1) H1 (equal_refl k)) as Hf.
    unfold key_matches. rewrite (Ha1 _ _ _ H1). rewrite andb_false_r, orb_false_r. apply bool_decide_false.
    intros ->. pose proof (Ha1 _ _ _ H1) as Hc. by rewrite equal_refl in Hc. }
  unfold hash_lookup. rewrite (M_bind_Some mget _ m m m) by done.
  destruct (Nat.eqb_spec (alloc m) 0) as [E0|E0]; cbn [andb negb].
  - rewrite bool_decide_true by done. cbn [andb negb]. rewrite (M_bind_Some _ _ _ _ _ Er). rewrite (M_bind_Some mget _ m1 m1 m1) by done.
    assert (Hn : length (table m1) <> 0%nat) by (unfold alloc in Hroom; lia).
    pose proof (search_absent (table m1) _ index Hn Hk1 Ha1) as Hs.
    destruct (search (table m1) _ (obj_hash index)) as [[i|a|]|]; try done.
    + exists a, (add_slot a index m1). split; [done|]. by apply Hadd.
    + pose proof (full_count m1 Hm1 Hs). lia.
  - rewrite (M_bind_Some (mret tt) _ m tt m) by done. rewrite (M_bind_Some mget _ m m m) by done.
    pose proof (search_absent (table m) _ index E0 Hk Ha) as Hs.
    destruct (search (table m) _ (obj_hash index)) as [[i|a|]|]; try done; cbn [mlift].
    + exists a, (add_slot a index m). split; [done|]. split; [by apply add_slot_ok|]. split; [by apply add_slot_added|].
      cbn [used add_slot]. lia.
    + rewrite (M_bind_Some (mlift (Some PFull)) _ m PFull m) by done. rewrite (M_bind_Some _ _ _ _ _ Er). rewrite (M_bind_Some mget _ m1 m1 m1) by done.
      assert (Hn : length (table m1) <> 0%nat) by (unfold alloc in Hroom; lia).
      pose proof (search_absent (table m1) _ index Hn Hk1 Ha1) as Hs1.
      destruct (search (table m1) _ (obj_hash index)) as [[i|a|]|]; try done.
      * exists a, (add_slot a index m1). split; [done|]. by apply Hadd.
      * pose proof (full_count m1 Hm1 Hs1). lia.
Qed.

(** C40 [mp_map_lookup] on a hash table, for keys that keep Python's contract of hash
    and equality.  A lookup finds the slot of an equal key if there is one and
    changes nothing.  An insertion returns the slot of an equal key, or adds the
    key with no value and keeps all others, growing the table when it is full: it
    never fails and never loops.  A removal empties exactly this key's slot, in
    which the caller still finds the value.  Each keeps the table well formed. *)
Theorem mp_map_lookup_correct m index : map_ok m ->
  (exists r, mp_map_lookup index MP_MAP_LOOKUP m = Some (r, m)
     /\ match r with
        | Some i => exists k v, has_key (table m) i k v /\ mp_obj_equal k index = true /\ find m index = Some v
        | None => find m index = None
        end)
  /\ (exists i m' k v, mp_map_lookup index MP_MAP_LOOKUP_ADD_IF_NOT_FOUND m = Some (Some i, m') /\ map_ok m'
     /\ has_key (table m') i k v /\ mp_obj_equal k index = true
     /\ match find m index with
        | Some v' => m' = m /\ v = v'
        | None => k = index /\ v = None /\ used m' = S (used m)
                  /\ forall k', find m' k' = if mp_obj_equal index k' then Some None else find m k'
        end)
  /\ (exists r m', mp_map_lookup index MP_MAP_LOOKUP_REMOVE_IF_FOUND m = Some (r, m') /\ map_ok m'
     /\ match find m index with
        | Some v => exists i s, r = Some i /\ table m' !! i = Some s /\ is_filled s = false /\ value s = v
                    /\ forall k', find m' k' = if mp_obj_equal index k' then None else find m k'
        | None => r = None /\ m' = m
        end).
Proof.
  intros Hm. destruct (find m index) as [v|] eqn:Ef.
  - pose proof Ef as Ef'. apply find_key_Some in Ef' as (i & k & Hi & He). split; [|split].
    + exists (Some i). split; [by rewrite (lookup_found m index i k v _ Hm Hi He)|]. exists k, v. done.
    + exists i, m, k, v. split; [by rewrite (lookup_found m index i k v _ Hm Hi He)|]. done.
    + exists (Some i), (remove_slot i m). split; [by rewrite (lookup_found m index i k v _ Hm Hi He)|].
      split; [by eapply remove_slot_ok|]. pose proof (lookup_lt_Some _ _ _ Hi) as Hlt.
      exists i, (MkSlot (deleted_key (table m) i) v). rewrite (remove_slot_table m i k v Hi).
      split; [done|]. split; [by apply list_lookup_insert_eq|].
      split; [unfold is_filled, deleted_key; cbn [key]; by repeat case_match|]. split; [done|].
      intros k'. rewrite (find_key_remove _ i k v) by (done || apply Hm).
      destruct (mp_obj_equal k k') eqn:E1, (mp_obj_equal index k') eqn:E2; try done; exfalso.
      * pose proof (equal_trans _ _ _ (equal_sym _ _ He) E1). congruence.
      * pose proof (equal_trans _ _ _ He E2). congruence.
  - pose proof Ef as Ha. apply find_key_None in Ha. split; [|split].
    + exists None. by rewrite (lookup_absent m index).
    + destruct (lookup_add_absent m index Hm Ha) as (a & m' & E & Hm' & [H1 H2] & Hu).
      exists a, m', index, None. split; [done|]. split; [done|]. split; [done|]. split; [apply equal_refl|]. done.
    + exists None, m. by rewrite (lookup_absent m index).
Qed.
End Maps.
