(* ===== verification/MapOrdered.v ===== *)
(** Ordered maps and sets of [Map]: the ordered array is an association list in
    insertion order, and the set table a finite set. *)
From S2P Require Import Prelude Map MapSpec.

Section Ordered.
Context {MO : MpObj} {L : MpObjLaws MO} {V : Type}.
Implicit Types m : mp_map_t V.

(** The association list. *)
Definition items m : list (slot (option V)) := take (used m) (table m).

Record ordered_ok m : Prop := {
  o_fixed : is_fixed m = false;
  o_ordered : is_ordered m = true;
  o_used : (used m <= alloc m)%nat;
  o_filled i s : items m !! i = Some s -> is_filled s = true;
  o_uniq i1 i2 k1 k2 v1 v2 : has_key (items m) i1 k1 v1 -> has_key (items m) i2 k2 v2 -> mp_obj_equal k1 k2 = true -> i1 = i2;
  o_qstrs : all_keys_are_qstrs m = true -> forall i k v, has_key (items m) i k v -> mp_obj_is_qstr k = true }.

Lemma ordered_find_spec matches (l : list (slot (option V))) pos :
  match ordered_find matches l pos with
  | Some i => exists j k v, i = (pos + j)%nat /\ has_key l j k v /\ matches k = true
  | None => forall j k v, has_key l j k v -> matches k = false
  end.
Proof.
  revert pos. induction l as [|s l IH]; intros pos; cbn [ordered_find]; [intros j k v H; by destruct j|].
  assert (Hskip : match key s with Key k => matches k = false | _ => True end ->
    match ordered_find matches l (S pos) with
    | Some i => exists j k v, i = (pos + j)%nat /\ has_key (s :: l) j k v /\ matches k = true
    | None => forall j k v, has_key (s :: l) j k v -> matches k = false
    end).
  { intros Hs. specialize (IH (S pos)). destruct (ordered_find matches l (S pos)) as [i|].
    - destruct IH as (j & k & v & -> & Hk & Hm). exists (S j), k, v. split; [lia|]. done.
    - intros [|j] k v Hk; [|by apply (IH j k v)]. injection Hk as ->. done. }
  destruct s as [[| |k] v]; cbn [key] in *; try by apply Hskip.
  destruct (matches k) eqn:E; [|by apply Hskip]. exists 0%nat, k, v. split; [lia|]. done.
Qed.

(** The comparison, as for hash tables. *)
Lemma ordered_matches m index ptrs : ordered_ok m ->
  (mp_obj_is_str index = false -> all_keys_are_qstrs m = true -> mp_obj_is_qstr index = false -> absent (items m) index) ->
  ptrs = all_keys_are_qstrs m && negb (all_keys_are_qstrs m && negb (mp_obj_is_qstr index) && mp_obj_is_str index) ->
  forall k i v, has_key (items m) i k v -> key_matches ptrs index k = mp_obj_equal k index.
Proof.
  intros Hm Habs -> k i v Hk. unfold key_matches.
  destruct (bool_decide_reflect (k = index)) as [->|Hne]; [by rewrite equal_refl|]. cbn [orb].
  destruct (all_keys_are_qstrs m) eqn:Eq; [|done]. cbn [andb].
  destruct (mp_obj_is_qstr index) eqn:Ei; cbn [andb negb].
  - symmetry. apply not_true_is_false. intros E. apply Hne. apply qstr_equal; [by eapply o_qstrs|done..].
  - destruct (mp_obj_is_str index) eqn:Es; [done|]. symmetry. by eapply Habs.
Qed.

Lemma ordered_other m index : ordered_ok m -> mp_obj_is_str index = false -> all_keys_are_qstrs m = true ->
  mp_obj_is_qstr index = false -> absent (items m) index.
Proof. intros Hm Hs Hq Hi i k v Hk. apply qstr_other; [by eapply o_qstrs|done..]. Qed.

Lemma items_remove m i k v : ordered_ok m -> has_key (items m) i k v ->
  items (ordered_remove i m) = delete i (items m)
  /\ table (ordered_remove i m) !! (used m - 1)%nat = Some (MkSlot KNull v)
  /\ alloc (ordered_remove i m) = alloc m.
Proof.
  intros Hm Hi. unfold has_key in Hi. pose proof (lookup_lt_Some _ _ _ Hi) as Hlt.
  pose proof (o_used _ Hm) as Hu. unfold alloc in Hu. unfold items in Hlt. rewrite length_take in Hlt.
  unfold items in Hi. rewrite lookup_take_lt in Hi by lia. unfold items, ordered_remove, alloc. cbn [used table].
  rewrite Hi. cbn [value].
  assert (Hl1 : length (take i (table m)) = i) by (rewrite length_take; lia).
  assert (Hl2 : length (drop (S i) (take (used m) (table m))) = (used m - S i)%nat).
  { rewrite length_drop, length_take. lia. }
  split; [|split].
  - rewrite delete_take_drop, take_take, (Nat.min_l i (used m)) by lia.
    rewrite app_assoc, take_app_le by (rewrite length_app, Hl1, Hl2; lia). rewrite take_ge; [done|].
    rewrite length_app, Hl1, Hl2. lia.
  - rewrite app_assoc, lookup_app_r by (rewrite length_app, Hl1, Hl2; lia).
    rewrite length_app, Hl1, Hl2. replace (used m - 1 - (i + (used m - S i)))%nat with 0%nat by lia. done.
  - rewrite !length_app, Hl1, Hl2, length_drop. cbn [length]. lia.
Qed.

Lemma ordered_remove_ok m i k v : ordered_ok m -> has_key (items m) i k v -> ordered_ok (ordered_remove i m).
Proof.
  intros Hm Hi. destruct (items_remove m i k v Hm Hi) as (Ei & _ & Ea).
  assert (Hback : forall j s, delete i (items m) !! j = Some s -> exists j', items m !! j' = Some s /\ j' = (if decide (j < i)%nat then j else S j)).
  { intros j s Hj. rewrite list_lookup_delete in Hj. case_decide; eauto. }
  constructor; try apply Hm; rewrite ?Ei.
  - rewrite Ea. pose proof (o_used _ Hm). unfold ordered_remove. cbn [used]. lia.
  - intros j s Hj. destruct (Hback _ _ Hj) as (j' & Hj' & _). by eapply o_filled.
  - intros i1 i2 k1 k2 v1 v2 H1 H2 E. destruct (Hback _ _ H1) as (j1 & Hj1 & E1). destruct (Hback _ _ H2) as (j2 & Hj2 & E2).
    assert (j1 = j2) by (by eapply (o_uniq _ Hm)). repeat case_decide; lia.
  - intros Hq j k' v' Hj. destruct (Hback _ _ Hj) as (j' & Hj' & _). by eapply (o_qstrs _ Hm).
Qed.

Lemma items_add m index : ordered_ok m -> exists v, items (ordered_add index m) = items m ++ [MkSlot (Key index) v]
  /\ (used m < alloc (ordered_add index m))%nat.
Proof.
  intros Hm. pose proof (o_used _ Hm) as Hu. unfold alloc in Hu. unfold items, ordered_add, alloc. cbn [used table].
  rewrite length_alter.
  set (t := if (used m =? length (table m))%nat then table m ++ replicate 4 null_elem else table m).
  assert (Ht : (used m < length t)%nat /\ take (used m) t = take (used m) (table m)).
  { unfold t. destruct (Nat.eqb_spec (used m) (length (table m))).
    - rewrite length_app. cbn [length replicate]. split; [lia|]. by rewrite take_app_le by lia.
    - split; [lia|done]. }
  destruct Ht as [Hlt Et]. destruct (lookup_lt_is_Some_2 t (used m) Hlt) as [s Es]. exists (value s). split; [|done].
  replace (used m + 1)%nat with (S (used m)) by lia.
  rewrite (take_S_r _ _ (MkSlot (Key index) (value s))).
  - rewrite take_alter_ge by lia. by rewrite Et.
  - by rewrite list_lookup_alter_eq, Es.
Qed.

Lemma ordered_add_ok m index : ordered_ok m -> absent (items m) index -> ordered_ok (ordered_add index m).
Proof.
  intros Hm Ha. destruct (items_add m index Hm) as (v & Ei & Hlt).
  assert (Hback : forall j s, (items m ++ [MkSlot (Key index) v]) !! j = Some s ->
    items m !! j = Some s \/ (j = length (items m) /\ s = MkSlot (Key index) v)).
  { intros j s. rewrite lookup_app_Some. intros [H|[Hl H]]; [auto|]. right.
    destruct (j - length (items m))%nat eqn:E; [|done]. injection H as <-. split; [lia|done]. }
  constructor; try apply Hm; rewrite ?Ei.
  - unfold ordered_add at 1. cbn [used]. lia.
  - intros j s Hj. destruct (Hback _ _ Hj) as [H|[_ ->]]; [by eapply o_filled|done].
  - intros i1 i2 k1 k2 v1 v2 H1 H2 E. destruct (Hback _ _ H1) as [G1|[-> G1]], (Hback _ _ H2) as [G2|[-> G2]]; [|..|done].
    + by eapply (o_uniq _ Hm).
    + injection G2 as -> _. by rewrite (Ha _ _ _ G1) in E.
    + injection G1 as -> _. apply equal_sym in E. by rewrite (Ha _ _ _ G2) in E.
  - unfold ordered_add. cbn [all_keys_are_qstrs]. destruct (mp_obj_is_qstr index) eqn:Eq; [|done].
    intros Hq j k' v' Hj. destruct (Hback _ _ Hj) as [H|[_ H]]; [by eapply (o_qstrs _ Hm)|]. by injection H as -> _.
Qed.

(** [mp_map_lookup] on an ordered map keeps the association list in insertion
    order: a lookup finds the entry of an equal key, an insertion of a new key puts
    it at the end, a removal takes the entry out, moves the later ones down, and
    leaves the value behind the end for the caller. *)
Theorem ordered_lookup_correct m index : ordered_ok m ->
  (forall i k v, has_key (items m) i k v -> mp_obj_equal k index = true ->
     mp_map_lookup index MP_MAP_LOOKUP m = Some (Some i, m)
     /\ mp_map_lookup index MP_MAP_LOOKUP_ADD_IF_NOT_FOUND m = Some (Some i, m)
     /\ exists m', mp_map_lookup index MP_MAP_LOOKUP_REMOVE_IF_FOUND m = Some (Some (used m - 1)%nat, m')
        /\ ordered_ok m' /\ items m' = delete i (items m) /\ table m' !! (used m - 1)%nat = Some (MkSlot KNull v))
  /\ (absent (items m) index ->
     mp_map_lookup index MP_MAP_LOOKUP m = Some (None, m)
     /\ mp_map_lookup index MP_MAP_LOOKUP_REMOVE_IF_FOUND m = Some (None, m)
     /\ exists m' v, mp_map_lookup index MP_MAP_LOOKUP_ADD_IF_NOT_FOUND m = Some (Some (used m), m')
        /\ ordered_ok m' /\ items m' = items m ++ [MkSlot (Key index) v]).
Proof.
  intros Hm.
  set (ptrs := all_keys_are_qstrs m && negb (all_keys_are_qstrs m && negb (mp_obj_is_qstr index) && mp_obj_is_str index)).
  assert (Hlk : forall kind, mp_map_lookup index kind m =
    if all_keys_are_qstrs m && negb (mp_obj_is_qstr index) && negb (mp_obj_is_str index)
         && negb (bool_decide (kind = MP_MAP_LOOKUP_ADD_IF_NOT_FOUND)) then Some (None, m)
    else ordered_lookup ptrs index kind m).
  { intros kind. unfold mp_map_lookup, lookup_with. rewrite (M_bind_Some mget _ m m m) by done.
    rewrite (o_fixed _ Hm). cbn [negb orb]. rewrite (M_bind_Some (massert true) _ m tt m) by done.
    case_match; [done|]. by rewrite (o_ordered _ Hm). }
  assert (Hrun : forall kind, ordered_lookup ptrs index kind m =
    match ordered_find (key_matches ptrs index) (items m) 0, kind with
    | Some pos, MP_MAP_LOOKUP_REMOVE_IF_FOUND => Some (Some (used m - 1)%nat, ordered_remove pos m)
    | Some pos, _ => Some (Some pos, m)
    | None, MP_MAP_LOOKUP_ADD_IF_NOT_FOUND => Some (Some (used m), ordered_add index m)
    | None, _ => Some (None, m)
    end).
  { intros kind. unfold ordered_lookup. rewrite (M_bind_Some mget _ m m m) by done. fold (items m).
    destruct (ordered_find _ _ _), kind; reflexivity. }
  pose proof (ordered_find_spec (key_matches ptrs index) (items m) 0) as Hf.
  pose proof (ordered_other m index Hm) as Hother.
  pose proof (ordered_matches m index ptrs Hm Hother eq_refl) as Hmatch.
  split.
  - intros i k v Hi He.
    assert (Hno : all_keys_are_qstrs m && negb (mp_obj_is_qstr index) && negb (mp_obj_is_str index) = false).
    { apply not_true_is_false. intros H. bool_to_prop. by rewrite (Hother ltac:(done) ltac:(done) ltac:(done) i k v Hi) in He. }
    assert (Hpos : ordered_find (key_matches ptrs index) (items m) 0 = Some i).
    { destruct (ordered_find _ _ _) as [j'|].
      - destruct Hf as (j & k' & v' & -> & Hj & Hk'). rewrite (Hmatch _ _ _ Hj) in Hk'. f_equal. cbn [Nat.add].
        eapply (o_uniq _ Hm); eauto. eapply equal_trans; [exact Hk'|by apply equal_sym].
      - by rewrite <- (Hmatch _ _ _ Hi), (Hf _ _ _ Hi) in He. }
    rewrite !Hlk, Hno. cbn [andb]. rewrite !Hrun, Hpos. split; [done|]. split; [done|].
    destruct (items_remove m i k v Hm Hi) as (Ei & Es & _). exists (ordered_remove i m).
    split; [done|]. split; [by eapply ordered_remove_ok|]. done.
  - intros Ha. assert (Hpos : ordered_find (key_matches ptrs index) (items m) 0 = None).
    { destruct (ordered_find _ _ _) as [j'|]; [|done]. destruct Hf as (j & k' & v' & -> & Hj & Hk').
      by rewrite (Hmatch _ _ _ Hj), (Ha _ _ _ Hj) in Hk'. }
    rewrite !Hlk, !Hrun, Hpos. split; [by case_if|]. split; [by case_if|].
    rewrite bool_decide_true, andb_false_r by done. destruct (items_add m index Hm) as (v & Ei & _).
    exists (ordered_add index m), v. split; [done|]. split; [by apply ordered_add_ok|done].
Qed.
End Ordered.

(** Sets of [Map]: the table of [mp_set_t] is a finite set modulo equality. *)

Section Sets.
Context {MO : MpObj} {L : MpObjLaws MO}.
Implicit Types s : mp_set_t.
Abbreviation mem s := (find_key (stable s)).

Record set_ok s : Prop := {
  s_used : sused s = filled_count (stable s);
  s_table : table_ok (stable s) }.

Lemma set_add_ok s a index : set_ok s -> free_for (stable s) (obj_hash index) a -> absent (stable s) index ->
  set_ok (set_add_slot a index s)
  /\ forall k', mem (set_add_slot a index s) k' = if mp_obj_equal index k' then Some tt else mem s k'.
Proof.
  intros Hs Hf Ha. pose proof Hf as [(x & Ex & Hx) _]. split; [constructor|].
  - unfold set_add_slot. cbn [sused stable]. pose proof (filled_count_insert (stable s) a (MkSlot (Key index) tt) x Ex) as H.
    rewrite Hx in H. cbn [is_filled key] in H. rewrite (s_used _ Hs). lia.
  - apply insert_ok; [apply Hs|done..].
  - intros k'. apply find_key_insert; [by exists x|done].
Qed.

Lemma set_full s : set_ok s -> (forall i, (i < length (stable s))%nat -> exists k v, has_key (stable s) i k v) ->
  sused s = salloc s.
Proof.
  intros Hs Hf. rewrite (s_used _ Hs). unfold salloc. revert Hf. generalize (stable s). induction l as [|x t IH]; intros Hf; [done|].
  rewrite filled_count_cons. cbn [length]. rewrite IH.
  - destruct (Hf 0%nat) as (k & v & E); [simpl; lia|]. injection E as ->. done.
  - intros i Hi. destruct (Hf (S i)) as (k & v & E); [simpl; lia|]. by exists k, v.
Qed.

(** Adding an absent element, when a slot is free. *)
Lemma set_add_room rehash s index r : set_ok s -> absent (stable s) index -> (sused s < salloc s)%nat ->
  exists a, set_lookup_with rehash index true r s = Some (Some index, set_add_slot a index s)
    /\ free_for (stable s) (obj_hash index) a.
Proof.
  intros Hs Ha Hroom. unfold set_lookup_with. rewrite (M_bind_Some mget _ s s s) by done.
  assert (Hn : salloc s <> 0%nat) by lia. destruct (Nat.eqb_spec (salloc s) 0); [done|]. cbn [andb].
  rewrite (M_bind_Some (mret tt) _ s tt s) by done. rewrite (M_bind_Some mget _ s s s) by done.
  pose proof (search_absent (stable s) (fun k => mp_obj_equal k index) index Hn ltac:(done) Ha) as Hse.
  destruct (search (stable s) _ (obj_hash index)) as [[i|a|]|]; try done.
  - exists a. by split.
  - pose proof (set_full s Hs Hse). lia.
Qed.

Lemma set_reinsert_spec (ol : list (slot unit)) s : set_ok s ->
  (forall i1 i2 k1 k2 v1 v2, has_key ol i1 k1 v1 -> has_key ol i2 k2 v2 -> mp_obj_equal k1 k2 = true -> i1 = i2) ->
  (forall i k v, has_key ol i k v -> absent (stable s) k) -> (sused s + filled_count ol <= salloc s)%nat ->
  exists s', set_reinsert (fun k => set_lookup_with mabort k true false) ol s = Some (tt, s')
    /\ set_ok s' /\ sused s' = (sused s + filled_count ol)%nat /\ salloc s' = salloc s
    /\ forall k, mem s' k = match find_key ol k with Some v => Some v | None => mem s k end.
Proof.
  revert s. induction ol as [|x ol IH]; intros s Hs Hu Hd Hr.
  { exists s. split; [done|]. split; [done|]. unfold filled_count. simpl. split; [lia|done]. }
  assert (Hu' : forall i1 i2 k1 k2 v1 v2, has_key ol i1 k1 v1 -> has_key ol i2 k2 v2 -> mp_obj_equal k1 k2 = true -> i1 = i2).
  { intros i1 i2 k1 k2 v1 v2 H1 H2 E. assert (S i1 = S i2) by (eapply (Hu (S i1) (S i2)); eauto). lia. }
  assert (Hd' : forall i k v, has_key ol i k v -> absent (stable s) k) by (intros i k v H; by apply (Hd (S i) k v)).
  rewrite filled_count_cons in Hr. destruct (is_filled x) eqn:Ex; cycle 1.
  - destruct (IH s Hs Hu' Hd') as (s' & E & Hs' & Eu & Ea & Hf); [lia|]. exists s'. split.
    { destruct x as [[] v]; [..|done]; cbn [set_reinsert key]; by rewrite (M_bind_Some (mret tt) _ s tt s). }
    split; [done|]. rewrite filled_count_cons, Ex. split; [lia|]. split; [done|].
    intros k. rewrite Hf. by destruct x as [[] v].
  - destruct x as [[| |k] []]; try done. assert (Hk : absent (stable s) k) by by apply (Hd 0%nat k tt).
    destruct (set_add_room mabort s k false Hs Hk) as (a & El & Hfree); [lia|].
    destruct (set_add_ok s a k Hs Hfree Hk) as [Hs1 Hf1].
    destruct (IH (set_add_slot a k s) Hs1 Hu') as (s' & E & Hs' & Eu & Ea & Hf).
    + intros i k' v' Hk'. apply find_key_None. rewrite Hf1.
      destruct (mp_obj_equal k k') eqn:E; [|apply find_key_None; by eapply Hd'].
      assert (0%nat = S i) by by eapply (Hu 0%nat (S i) k k'). done.
    + unfold salloc, set_add_slot. cbn [sused stable]. rewrite length_insert. unfold salloc in Hr. lia.
    + exists s'. split.
      { cbn [set_reinsert key]. by rewrite M_bind_assoc, (M_bind_Some _ _ _ _ _ El). }
      split; [done|]. rewrite filled_count_cons, Eu, Ea. unfold salloc, set_add_slot. cbn [sused stable is_filled key].
      rewrite length_insert. split; [lia|]. split; [done|]. intros k'. rewrite Hf, Hf1. cbn [find_key key value].
      destruct (mp_obj_equal k k') eqn:E'; [|done].
      destruct (find_key ol k') as [[]|] eqn:Ef; [|done]. done.
Qed.

Lemma set_rehash_spec s : set_ok s ->
  exists s', mp_set_rehash s = Some (tt, s') /\ set_ok s' /\ sused s' = sused s /\ (sused s' < salloc s')%nat
    /\ forall k, mem s' k = mem s k.
Proof.
  intros Hs. unfold mp_set_rehash. rewrite (M_bind_Some mget _ s s s) by done.
  set (n := get_hash_alloc_greater_or_equal_to (salloc s + 1)).
  assert (Hn : (salloc s + 1 <= n)%nat) by apply first_size_ge.
  set (s0 := MkSet 0 (replicate n null_selem)).
  assert (Hno : forall i k v, ~ has_key (stable s0) i k v) by (intros i k v (? & _)%lookup_replicate; done).
  assert (Hs0 : set_ok s0) by (constructor; [symmetry; apply filled_count_null|apply empty_table_ok]).
  rewrite (M_bind_Some (mput s0) _ s tt s0) by done.
  destruct (set_reinsert_spec (stable s) s0 Hs0) as (s' & E & Hs' & Eu & Ea & Hf).
  - apply Hs.
  - intros i k v _ i' k' v' H. by apply Hno in H.
  - unfold salloc. cbn [sused stable s0]. rewrite length_replicate. pose proof (filled_count_le (stable s)).
    unfold salloc in Hn. lia.
  - exists s'. split; [exact E|]. split; [done|]. cbn [sused s0] in Eu. rewrite Eu, Ea, (s_used _ Hs).
    split; [lia|]. split.
    + unfold salloc. cbn [stable s0]. rewrite length_replicate. pose proof (filled_count_le (stable s)). unfold salloc in Hn. lia.
    + intros k. rewrite Hf. assert (E0 : mem s0 k = None) by (apply find_key_None; intros i k' v H; by apply Hno in H).
      rewrite E0. by destruct (mem s k).
Qed.

Lemma set_remove_ok s i k : set_ok s -> has_key (stable s) i k tt ->
  set_ok (set_remove_slot i s) /\ forall k', mem (set_remove_slot i s) k' = if mp_obj_equal k k' then None else mem s k'.
Proof.
  intros Hs Hi. split; [constructor|].
  - unfold set_remove_slot. cbn [sused stable].
    pose proof (filled_count_insert (stable s) i (MkSlot (deleted_key (stable s) i) tt) _ Hi) as H.
    assert (Ef : is_filled (MkSlot (deleted_key (stable s) i) tt) = false).
    { unfold is_filled, deleted_key. cbn [key]. by repeat case_match. }
    rewrite Ef in H. cbn [is_filled key] in H. rewrite (s_used _ Hs). lia.
  - by apply remove_ok with k; [apply Hs|].
  - intros k'. by apply find_key_remove; [apply Hs|].
Qed.

(** [mp_set_lookup], for elements that keep Python's contract: an equal element in
    the set is returned, and taken out if removal was asked for; an element that is
    not in the set is returned and added if adding was asked for, in a bigger
    table if needed, and else nothing happens.  No other element is affected. *)
Theorem mp_set_lookup_correct s index add remove : set_ok s ->
  exists r s', mp_set_lookup index add remove s = Some (r, s') /\ set_ok s'
  /\ (is_Some (mem s index) -> (exists k, r = Some k /\ mp_obj_equal k index = true)
      /\ forall k', mem s' k' = if remove && mp_obj_equal index k' then None else mem s k')
  /\ (mem s index = None -> r = (if add then Some index else None)
      /\ forall k', mem s' k' = if add && mp_obj_equal index k' then Some tt else mem s k').
Proof.
  intros Hs. unfold mp_set_lookup, set_lookup_with. rewrite (M_bind_Some mget _ s s s) by done.
  destruct (mem s index) as [[]|] eqn:Ef.
  - pose proof Ef as Ef'. apply find_key_Some in Ef' as (i & k & Hi & He).
    assert (Hn : salloc s <> 0%nat) by (apply lookup_lt_Some in Hi; unfold salloc; lia).
    destruct (Nat.eqb_spec (salloc s) 0); [done|]. cbn [andb].
    rewrite (M_bind_Some (mret tt) _ s tt s) by done. rewrite (M_bind_Some mget _ s s s) by done.
    rewrite (search_found (stable s) (fun k => mp_obj_equal k index) index i k tt (s_table _ Hs) ltac:(done) Hi He).
    rewrite (M_bind_Some (mlift (Some (PFound i))) _ s (PFound i) s) by done.
    destruct (set_remove_ok s i k Hs Hi) as [Hs1 Hf1].
    exists (Some k), (if remove then set_remove_slot i s else s). split.
    { unfold set_found. rewrite (M_bind_Some mget _ s s s) by done. unfold has_key in Hi. rewrite Hi.
      by destruct remove. }
    split; [by destruct remove|]. split; [|done]. intros _. split; [by exists k|]. intros k'.
    destruct remove; [|done]. cbn [andb]. rewrite Hf1.
    destruct (mp_obj_equal k k') eqn:E1, (mp_obj_equal index k') eqn:E2; try done; exfalso.
    + pose proof (equal_trans _ _ _ (equal_sym _ _ He) E1). congruence.
    + pose proof (equal_trans _ _ _ He E2). congruence.
  - pose proof Ef as Ha. apply find_key_None in Ha.
    destruct (set_rehash_spec s Hs) as (s1 & Er & Hs1 & Eu1 & Hroom & Hf1).
    assert (Ha1 : absent (stable s1) index) by (apply find_key_None; rewrite Hf1; by apply find_key_None).
    assert (Hafter : exists a, search (stable s1) (fun k => mp_obj_equal k index) (obj_hash index) = Some (PFree a)
      /\ free_for (stable s1) (obj_hash index) a).
    { assert (Hn : length (stable s1) <> 0%nat) by (unfold salloc in Hroom; lia).
      pose proof (search_absent (stable s1) (fun k => mp_obj_equal k index) index Hn ltac:(done) Ha1) as Hse.
      destruct (search (stable s1) _ (obj_hash index)) as [[i|a|]|]; try done; [by exists a|].
      pose proof (set_full s1 Hs1 Hse). lia. }
    destruct Hafter as (a1 & Ese & Hfree1). destruct (set_add_ok s1 a1 index Hs1 Hfree1 Ha1) as [Hs2 Hf2].
    assert (Hf2' : forall k', mem (set_add_slot a1 index s1) k' = if mp_obj_equal index k' then Some tt else mem s k').
    { intros k'. by rewrite Hf2, Hf1. }
    destruct (Nat.eqb_spec (salloc s) 0) as [E0|E0]; cbn [andb negb].
    + destruct add; cbn [negb].
      * exists (Some index), (set_add_slot a1 index s1). split.
        { rewrite (M_bind_Some _ _ _ _ _ Er). rewrite (M_bind_Some mget _ s1 s1 s1) by done. by rewrite Ese. }
        split; [done|]. split; [by intros []|]. intros _. split; [done|]. exact Hf2'.
      * exists None, s. split; [done|]. split; [done|]. split; [by intros []|]. done.
    + rewrite (M_bind_Some (mret tt) _ s tt s) by done. rewrite (M_bind_Some mget _ s s s) by done.
      pose proof (search_absent (stable s) (fun k => mp_obj_equal k index) index E0 ltac:(done) Ha) as Hse.
      destruct (search (stable s) _ (obj_hash index)) as [[i|a|]|]; try done.
      * rewrite (M_bind_Some (mlift (Some (PFree a))) _ s (PFree a) s) by done.
        destruct (set_add_ok s a index Hs Hse Ha) as [Hs3 Hf3]. destruct add.
        -- exists (Some index), (set_add_slot a index s). split; [done|]. split; [done|]. split; [by intros []|]. done.
        -- exists None, s. split; [done|]. split; [done|]. split; [by intros []|]. done.
      * rewrite (M_bind_Some (mlift (Some PFull)) _ s PFull s) by done. destruct add.
        -- exists (Some index), (set_add_slot a1 index s1). split.
           { rewrite (M_bind_Some _ _ _ _ _ Er). rewrite (M_bind_Some mget _ s1 s1 s1) by done. by rewrite Ese. }
           split; [done|]. split; [by intros []|]. intros _. split; [done|]. exact Hf2'.
        -- exists None, s. split; [done|]. split; [done|]. split; [by intros []|]. done.
Qed.
End Sets.

(** ** Witnesses: integers as objects, even ones standing for interned strings, and
    their equality modulo nothing *)

Definition ints : MpObj := {|
  mp_obj := nat; mp_obj_is_qstr := Nat.even; mp_obj_is_str := fun _ => false;
  obj_hash := fun n => (n mod 3)%nat; mp_obj_equal := Nat.eqb |}.

#[export] Instance ints_laws : MpObjLaws ints.
Proof.
  constructor; cbn.
  - intros a. apply Nat.eqb_refl.
  - intros a b. rewrite !Nat.eqb_eq. auto.
  - intros a b c. rewrite !Nat.eqb_eq. congruence.
  - intros a b. rewrite Nat.eqb_eq. by intros ->.
  - intros a b _ _. by rewrite Nat.eqb_eq.
  - intros a b Ha Hb _. apply Nat.eqb_neq. by intros ->; rewrite Ha in Hb.
Qed.

(** The set that holds 4 and 7, whose hashes collide, in a full table. *)
Definition two_ints : @mp_set_t ints := MkSet 2 [MkSlot (Key (7%nat : @mp_obj ints)) tt; MkSlot (Key (4%nat : @mp_obj ints)) tt].

Lemma two_ints_ok : set_ok two_ints.
Proof.
  constructor; [reflexivity|]. constructor.
  - intros [|[|i]] k []; unfold has_key; cbn; intros H; simplify_eq.
    + exists 1%nat. split; [cbn; lia|]. split; [reflexivity|]. intros [|j'] Hj; [|lia]. eexists. split; [reflexivity|done].
    + exists 0%nat. split; [cbn; lia|]. split; [reflexivity|]. intros j' Hj. lia.
  - intros [|[|i1]] [|[|i2]] k1 k2 [] []; unfold has_key; cbn; intros H1 H2; by simplify_eq.
Qed.

Lemma mp_set_lookup_witness :
  exists s', @mp_set_lookup ints (10%nat : @mp_obj ints) true false two_ints = Some (Some (10%nat : @mp_obj ints), s')
    /\ salloc s' = 4%nat /\ set_ok s'.
Proof.
  destruct (mp_set_lookup_correct two_ints (10%nat : @mp_obj ints) true false two_ints_ok) as (r & s' & E & Hok & _ & H).
  destruct (H eq_refl) as [-> _]. exists s'. split; [exact E|]. split; [|exact Hok].
  vm_compute in E. injection E as <-. reflexivity.
Defined.

Definition two_map : @mp_map_t ints nat := MkMap false false false 2
  [MkSlot (Key (7%nat : @mp_obj ints)) (Some 70%nat); MkSlot (Key (4%nat : @mp_obj ints)) (Some 40%nat)].

Lemma two_map_ok : map_ok two_map.
Proof.
  constructor; try reflexivity; [|done]. constructor.
  - intros [|[|i]] k v; unfold has_key; cbn; intros H; simplify_eq.
    + exists 1%nat. split; [cbn; lia|]. split; [reflexivity|]. intros [|j'] Hj; [|lia]. eexists. split; [reflexivity|done].
    + exists 0%nat. split; [cbn; lia|]. split; [reflexivity|]. intros j' Hj. lia.
  - intros [|[|i1]] [|[|i2]] k1 k2 v1 v2; unfold has_key; cbn; intros H1 H2; by simplify_eq.
Qed.

Lemma mp_map_lookup_witness :
  (exists r, mp_map_lookup (4%nat : @mp_obj ints) MP_MAP_LOOKUP two_map = Some (r, two_map) /\ r = Some 1%nat)
  /\ exists i m', mp_map_lookup (10%nat : @mp_obj ints) MP_MAP_LOOKUP_ADD_IF_NOT_FOUND two_map = Some (Some i, m') /\ map_ok m'
     /\ used m' = 3%nat.
Proof.
  destruct (mp_map_lookup_correct two_map (4%nat : @mp_obj ints) two_map_ok) as ((r & E & _) & _).
  destruct (mp_map_lookup_correct two_map (10%nat : @mp_obj ints) two_map_ok) as (_ & (i & m' & k & v & E' & Hok & _ & _ & H) & _).
  split.
  - exists r. split; [exact E|]. vm_compute in E. by injection E as <-.
  - exists i, m'. split; [exact E'|]. split; [exact Hok|]. exact (proj1 (proj2 (proj2 H))).
Defined.

Definition ordered_map : @mp_map_t ints nat := MkMap false false true 2
  [MkSlot (Key (7%nat : @mp_obj ints)) (Some 70%nat); MkSlot (Key (4%nat : @mp_obj ints)) (Some 40%nat)].

Lemma ordered_map_ok : ordered_ok ordered_map.
Proof.
  constructor; try done.
  - intros [|[|i]] x; cbn; intros H; by simplify_eq.
  - intros [|[|i1]] [|[|i2]] k1 k2 v1 v2; unfold has_key; cbn; intros H1 H2; by simplify_eq.
Qed.

Lemma ordered_lookup_witness :
  exists m', mp_map_lookup (7%nat : @mp_obj ints) MP_MAP_LOOKUP_REMOVE_IF_FOUND ordered_map = Some (Some 1%nat, m')
    /\ items m' = [MkSlot (Key (4%nat : @mp_obj ints)) (Some 40%nat)].
Proof.
  destruct (ordered_lookup_correct ordered_map (7%nat : @mp_obj ints) ordered_map_ok) as [H _].
  destruct (H 0%nat (7%nat : @mp_obj ints) (Some 70%nat) eq_refl eq_refl) as (_ & _ & m' & E & _ & Ei & _).
  exists m'. split; [exact E|]. rewrite Ei. reflexivity.
Defined.

(** An insertion into an ordered map returns a slot whose value is what was last
    there, not [MP_OBJ_NULL]: here the value of a removed key. *)
Theorem ordered_add_stale_value :
  exists m1 m2, mp_map_lookup (7%nat : @mp_obj ints) MP_MAP_LOOKUP_REMOVE_IF_FOUND ordered_map = Some (Some 1%nat, m1)
    /\ mp_map_lookup (9%nat : @mp_obj ints) MP_MAP_LOOKUP_ADD_IF_NOT_FOUND m1 = Some (Some 1%nat, m2)
    /\ table m2 !! 1%nat = Some (MkSlot (Key (9%nat : @mp_obj ints)) (Some 70%nat)).
Proof. eexists _, _. split; [vm_compute; reflexivity|]. split; vm_compute; reflexivity. Qed.
