(* ===== verification/Gc.v ===== *)
(** The garbage collector, [py/gc.c]: the allocation table, mark and sweep with a
    bounded stack, and the allocator on top of it.

    The tables are bytes, as in C: two bits per block in the allocation table, one
    in the finaliser table, which follows it directly, so that an access beyond
    the one is an access to the other; beyond both it is [None].  The pool is a
    list of words; addresses are integers, and 0 is [NULL].  Locks and debugging
    output are left out.  Running a [__del__] method is an entry of a log. *)
From S2P Require Import Prelude.

Class GcCfg := {
  BYTES_PER_WORD : Z;
  WORDS_PER_BLOCK : nat;
  ALLOC_GC_STACK_SIZE : nat;
  BLOCK_LOG : Z;
  block_log_pos : 0 <= BLOCK_LOG;
  block_pow2 : BYTES_PER_WORD * Z.of_nat WORDS_PER_BLOCK = 2 ^ BLOCK_LOG;
  bytes_per_word_pos : 0 < BYTES_PER_WORD;
  words_per_block_pos : (0 < WORDS_PER_BLOCK)%nat }.

(** The configuration of the ESP32 port. *)
#[refine] Definition esp32 : GcCfg := {| BYTES_PER_WORD := 4; WORDS_PER_BLOCK := 4; ALLOC_GC_STACK_SIZE := 64; BLOCK_LOG := 4 |}.
Proof. all: first [reflexivity | lia]. Defined.

Section Gc.
Context {cfg : GcCfg}.

Definition BYTES_PER_BLOCK : Z := BYTES_PER_WORD * Z.of_nat WORDS_PER_BLOCK.

Definition AT_FREE : Z := 0.
Definition AT_HEAD : Z := 1.
Definition AT_TAIL : Z := 2.
Definition AT_MARK : Z := 3.

Definition BLOCKS_PER_ATB : nat := 4.
Definition BLOCKS_PER_FTB : nat := 8.

(** [gc_alloc_table_start] and what follows it, the pool with its address, and the
    rest of the memory state. *)
Record gc_state := MkGc {
  gc_tables : list Z;
  gc_alloc_table_byte_len : nat;
  gc_pool : list Z;
  gc_pool_start : Z;
  gc_last_free_atb_index : nat;
  gc_lock_depth : Z;
  gc_auto_collect_enabled : bool;
  gc_alloc_threshold : Z;
  gc_alloc_amount : Z;
  gc_stack_overflow : bool;
  finalised : list nat }.

Definition with_tables (t : list Z) (s : gc_state) : gc_state :=
  MkGc t (gc_alloc_table_byte_len s) (gc_pool s) (gc_pool_start s) (gc_last_free_atb_index s) (gc_lock_depth s)
    (gc_auto_collect_enabled s) (gc_alloc_threshold s) (gc_alloc_amount s) (gc_stack_overflow s) (finalised s).
Definition with_pool (p : list Z) (s : gc_state) : gc_state :=
  MkGc (gc_tables s) (gc_alloc_table_byte_len s) p (gc_pool_start s) (gc_last_free_atb_index s) (gc_lock_depth s)
    (gc_auto_collect_enabled s) (gc_alloc_threshold s) (gc_alloc_amount s) (gc_stack_overflow s) (finalised s).
Definition with_last_free (n : nat) (s : gc_state) : gc_state :=
  MkGc (gc_tables s) (gc_alloc_table_byte_len s) (gc_pool s) (gc_pool_start s) n (gc_lock_depth s)
    (gc_auto_collect_enabled s) (gc_alloc_threshold s) (gc_alloc_amount s) (gc_stack_overflow s) (finalised s).
Definition with_lock (n : Z) (s : gc_state) : gc_state :=
  MkGc (gc_tables s) (gc_alloc_table_byte_len s) (gc_pool s) (gc_pool_start s) (gc_last_free_atb_index s) n
    (gc_auto_collect_enabled s) (gc_alloc_threshold s) (gc_alloc_amount s) (gc_stack_overflow s) (finalised s).
Definition with_amount (z : Z) (s : gc_state) : gc_state :=
  MkGc (gc_tables s) (gc_alloc_table_byte_len s) (gc_pool s) (gc_pool_start s) (gc_last_free_atb_index s) (gc_lock_depth s)
    (gc_auto_collect_enabled s) (gc_alloc_threshold s) z (gc_stack_overflow s) (finalised s).
Definition with_overflow (b : bool) (s : gc_state) : gc_state :=
  MkGc (gc_tables s) (gc_alloc_table_byte_len s) (gc_pool s) (gc_pool_start s) (gc_last_free_atb_index s) (gc_lock_depth s)
    (gc_auto_collect_enabled s) (gc_alloc_threshold s) (gc_alloc_amount s) b (finalised s).
Definition with_finalised (b : nat) (s : gc_state) : gc_state :=
  MkGc (gc_tables s) (gc_alloc_table_byte_len s) (gc_pool s) (gc_pool_start s) (gc_last_free_atb_index s) (gc_lock_depth s)
    (gc_auto_collect_enabled s) (gc_alloc_threshold s) (gc_alloc_amount s) (gc_stack_overflow s) (finalised s ++ [b]).

Definition total_blocks (s : gc_state) : nat := gc_alloc_table_byte_len s * BLOCKS_PER_ATB.

(** ** The tables *)

Definition BLOCK_SHIFT (block : nat) : Z := 2 * Z.of_nat (block mod BLOCKS_PER_ATB).

(** Two bits of a byte, and changes of them. *)
Definition atb_kind (a : Z) (block : nat) : Z := Z.land (Z.shiftr a (BLOCK_SHIFT block)) 3.
Definition atb_clear (kind : Z) (block : nat) (a : Z) : Z := Z.land a (Z.lnot (Z.shiftl kind (BLOCK_SHIFT block))).
Definition atb_or (kind : Z) (block : nat) (a : Z) : Z := Z.lor a (Z.shiftl kind (BLOCK_SHIFT block)).

Definition ATB_GET_KIND (block : nat) : M gc_state Z :=
  s ← mget; a ← mlift (gc_tables s !! (block / BLOCKS_PER_ATB)%nat); mret (atb_kind a block).

Definition table_update (i : nat) (f : Z -> Z) : M gc_state unit :=
  s ← mget; mlift (gc_tables s !! i);; mput (with_tables (alter f i (gc_tables s)) s).

Definition ATB_ANY_TO_FREE (block : nat) := table_update (block / BLOCKS_PER_ATB) (atb_clear AT_MARK block).
Definition ATB_FREE_TO_HEAD (block : nat) := table_update (block / BLOCKS_PER_ATB) (atb_or AT_HEAD block).
Definition ATB_FREE_TO_TAIL (block : nat) := table_update (block / BLOCKS_PER_ATB) (atb_or AT_TAIL block).
Definition ATB_HEAD_TO_MARK (block : nat) := table_update (block / BLOCKS_PER_ATB) (atb_or AT_MARK block).
Definition ATB_MARK_TO_HEAD (block : nat) := table_update (block / BLOCKS_PER_ATB) (atb_clear AT_TAIL block).

Definition ftb_bit (block : nat) : Z := Z.of_nat (block mod BLOCKS_PER_FTB).
Definition FTB_GET (block : nat) : M gc_state bool :=
  s ← mget; a ← mlift (gc_tables s !! (gc_alloc_table_byte_len s + block / BLOCKS_PER_FTB)%nat);
  mret (Z.testbit a (ftb_bit block)).
Definition FTB_SET (block : nat) : M gc_state unit :=
  s ← mget; table_update (gc_alloc_table_byte_len s + block / BLOCKS_PER_FTB) (fun a => Z.lor a (Z.shiftl 1 (ftb_bit block))).
Definition FTB_CLEAR (block : nat) : M gc_state unit :=
  s ← mget; table_update (gc_alloc_table_byte_len s + block / BLOCKS_PER_FTB) (fun a => Z.land a (Z.lnot (Z.shiftl 1 (ftb_bit block)))).

(** ** Addresses *)

Definition gc_pool_end (s : gc_state) : Z := gc_pool_start s + Z.of_nat (total_blocks s) * BYTES_PER_BLOCK.

Definition VERIFY_PTR (s : gc_state) (ptr : Z) : bool :=
  (Z.land ptr (BYTES_PER_BLOCK - 1) =? 0) && (gc_pool_start s <=? ptr) && (ptr <? gc_pool_end s).

Definition BLOCK_FROM_PTR (s : gc_state) (ptr : Z) : nat := Z.to_nat ((ptr - gc_pool_start s) / BYTES_PER_BLOCK).
Definition PTR_FROM_BLOCK (s : gc_state) (block : nat) : Z := Z.of_nat block * BYTES_PER_BLOCK + gc_pool_start s.

(** [n] words of the pool from the start of a block. *)
Definition words (block n : nat) : M gc_state (list Z) :=
  s ← mget;
  massert (block * WORDS_PER_BLOCK + n <=? length (gc_pool s))%nat;;
  mret (take n (drop (block * WORDS_PER_BLOCK) (gc_pool s))).

(** [memset] to 0, in words. *)
Definition clear_words (start n : nat) : M gc_state unit :=
  s ← mget;
  massert (start + n <=? length (gc_pool s))%nat;;
  mput (with_pool (take start (gc_pool s) ++ replicate n 0 ++ drop (start + n) (gc_pool s)) s).

(** ** Initialisation *)

(** [gc_init(start, end)]; products are of type [size_t].  [pool] is the memory of the pool as it is found. *)
Definition gc_table_len (total_byte_len : Z) : Z :=
  wrap (8 * BYTES_PER_WORD) (total_byte_len * 8) / (8 + 8 * 4 / 8 + 8 * 4 * BYTES_PER_BLOCK).

Definition gc_finaliser_len (table_len : Z) : Z := (table_len * 4 + 8 - 1) / 8.

Definition gc_init (start end_ : Z) (pool : nat -> list Z) : option gc_state :=
  let end_ := Z.land end_ (Z.lnot (BYTES_PER_BLOCK - 1)) in
  let a := gc_table_len (end_ - start) in
  let f := gc_finaliser_len a in
  let pool_start := end_ - a * 4 * BYTES_PER_BLOCK in
  if start + a + f <=? pool_start then
    Some (MkGc (replicate (Z.to_nat (a + f)) 0) (Z.to_nat a) (pool (Z.to_nat (a * 4) * WORDS_PER_BLOCK)%nat) pool_start
            0 0 true (2 ^ (8 * BYTES_PER_WORD) - 1) 0 false [])
  else None.

(** The depth is a [uint16_t]. *)
Definition gc_lock : M gc_state unit := mmodify (fun s => with_lock (wrap 16 (gc_lock_depth s + 1)) s).
Definition gc_unlock : M gc_state unit := mmodify (fun s => with_lock (wrap 16 (gc_lock_depth s - 1)) s).
Definition gc_is_locked : M gc_state bool := s ← mget; mret (negb (gc_lock_depth s =? 0)).

(** ** Mark *)

(** [do { n += 1 } while (ATB_GET_KIND(block + n) == AT_TAIL)] *)
Fixpoint chain_len (fuel : nat) (block n_blocks : nat) : M gc_state nat :=
  match fuel with
  | O => mabort
  | S fuel =>
      let n_blocks := S n_blocks in
      k ← ATB_GET_KIND (block + n_blocks);
      if k =? AT_TAIL then chain_len fuel block n_blocks else mret n_blocks
  end.

(** A chain ends with the tables, of which each byte holds four blocks. *)
Definition n_blocks_of (block : nat) : M gc_state nat :=
  s ← mget; chain_len (S (length (gc_tables s) * BLOCKS_PER_ATB)) block 0.

(** Mark a block that is an unmarked head and push it: the stack, its top first. *)
Fixpoint mark_children (ptrs : list Z) (stack : list nat) : M gc_state (list nat) :=
  match ptrs with
  | [] => mret stack
  | ptr :: ptrs =>
      s ← mget;
      if VERIFY_PTR s ptr then
        let childblock := BLOCK_FROM_PTR s ptr in
        k ← ATB_GET_KIND childblock;
        if k =? AT_HEAD then
          ATB_HEAD_TO_MARK childblock;;
          s ← mget;
          if (length stack <? ALLOC_GC_STACK_SIZE)%nat then mark_children ptrs (childblock :: stack)
          else mput (with_overflow true s);; mark_children ptrs stack
        else mark_children ptrs stack
      else mark_children ptrs stack
  end.

Fixpoint mark_loop (fuel : nat) (block : nat) (stack : list nat) : M gc_state unit :=
  match fuel with
  | O => mabort
  | S fuel =>
      n_blocks ← n_blocks_of block;
      ptrs ← words block (n_blocks * WORDS_PER_BLOCK);
      stack ← mark_children ptrs stack;
      match stack with
      | [] => mret tt
      | block :: stack => mark_loop fuel block stack
      end
  end.

(** Each turn after the first is for a block that was newly marked. *)
Definition gc_mark_subtree (block : nat) : M gc_state unit :=
  s ← mget; mark_loop (S (total_blocks s)) block [].

(** [for (block = 0; block < total; block++) body(block)], from [block] on. *)
Fixpoint for_blocks (n : nat) (block : nat) (body : nat -> M gc_state unit) : M gc_state unit :=
  match n with
  | O => mret tt
  | S n => body block;; for_blocks n (S block) body
  end.

Definition all_blocks (body : nat -> M gc_state unit) : M gc_state unit :=
  s ← mget; for_blocks (total_blocks s) 0 body.

Definition remark (block : nat) : M gc_state unit :=
  k ← ATB_GET_KIND block; if k =? AT_MARK then gc_mark_subtree block else mret tt.

Fixpoint overflow_loop (fuel : nat) : M gc_state unit :=
  s ← mget;
  if gc_stack_overflow s then
    match fuel with
    | O => mabort
    | S fuel => mput (with_overflow false s);; all_blocks remark;; overflow_loop fuel
    end
  else mret tt.

(** Each turn but the last marks another block. *)
Definition gc_deal_with_stack_overflow : M gc_state unit := s ← mget; overflow_loop (S (total_blocks s)).

(** ** Sweep *)

(** The finaliser of an unmarked head: its type, if any, is the first word. *)
Definition gc_finalise (block : nat) : M gc_state unit :=
  f ← FTB_GET block;
  if (f : bool) then
    ws ← words block 1;
    (if match ws with w :: _ => negb (w =? 0) | [] => false end
     then mmodify (with_finalised block) else mret tt);;
    FTB_CLEAR block
  else mret tt.

Fixpoint sweep_loop (n : nat) (block : nat) (free_tail : bool) : M gc_state unit :=
  match n with
  | O => mret tt
  | S n =>
      k ← ATB_GET_KIND block;
      if k =? AT_HEAD then gc_finalise block;; ATB_ANY_TO_FREE block;; sweep_loop n (S block) true
      else if k =? AT_TAIL then
        (if free_tail then ATB_ANY_TO_FREE block else mret tt);; sweep_loop n (S block) free_tail
      else if k =? AT_MARK then ATB_MARK_TO_HEAD block;; sweep_loop n (S block) false
      else sweep_loop n (S block) free_tail
  end.

Definition gc_sweep : M gc_state unit := s ← mget; sweep_loop (total_blocks s) 0 false.

(** ** Collection *)

Fixpoint gc_collect_root (ptrs : list Z) : M gc_state unit :=
  match ptrs with
  | [] => mret tt
  | ptr :: ptrs =>
      s ← mget;
      (if VERIFY_PTR s ptr then
         let block := BLOCK_FROM_PTR s ptr in
         k ← ATB_GET_KIND block;
         if k =? AT_HEAD then ATB_HEAD_TO_MARK block;; gc_mark_subtree block else mret tt
       else mret tt);;
      gc_collect_root ptrs
  end.

(** The roots in [mp_state_ctx_t] are the argument. *)
Definition gc_collect_start (roots : list Z) : M gc_state unit :=
  s ← mget;
  mput (with_overflow false (with_amount 0 (with_lock (wrap 16 (gc_lock_depth s + 1)) s)));;
  gc_collect_root roots.

Definition gc_collect_end : M gc_state unit :=
  gc_deal_with_stack_overflow;;
  gc_sweep;;
  s ← mget; mput (with_lock (wrap 16 (gc_lock_depth s - 1)) (with_last_free 0 s)).

Definition gc_sweep_all : M gc_state unit :=
  s ← mget;
  mput (with_overflow false (with_lock (wrap 16 (gc_lock_depth s + 1)) s));;
  gc_collect_end.

(** [gc_collect] of the port: the state's roots, then registers and stacks. *)
Definition gc_collect (roots : list Z) : M gc_state unit := gc_collect_start roots;; gc_collect_end.

(** ** Allocation *)

(** The four tests of a byte: [inl] the block that completes a run, [inr] the run so far. *)
Fixpoint scan_byte (masks : list Z) (a : Z) (block n_free n_blocks : nat) : (nat * nat) + nat :=
  match masks with
  | [] => inr n_free
  | mask :: masks =>
      if Z.land a mask =? 0 then
        if (n_blocks <=? S n_free)%nat then inl (block, S n_free) else scan_byte masks a (S block) (S n_free) n_blocks
      else scan_byte masks a (S block) 0 n_blocks
  end.

Definition ATB_MASKS : list Z := [3; 12; 48; 192].

(** The bytes [i] .. of the allocation table. *)
Fixpoint scan_table (bytes : list Z) (i n_free n_blocks : nat) : option (nat * nat) :=
  match bytes with
  | [] => None
  | a :: bytes =>
      match scan_byte ATB_MASKS a (i * BLOCKS_PER_ATB) n_free n_blocks with
      | inl r => Some r
      | inr n_free => scan_table bytes (S i) n_free n_blocks
      end
  end.

(** The end of a run of [n_blocks] free blocks, and its length. *)
Definition find_free (n_blocks : nat) (s : gc_state) : option (nat * nat) :=
  let l := gc_last_free_atb_index s in
  scan_table (drop l (take (gc_alloc_table_byte_len s) (gc_tables s))) l 0 n_blocks.

(** The numbers of blocks in [gc_realloc] and in [gc_alloc]; the sum is a [size_t]. *)
Definition blocks_for (n_bytes : Z) : nat :=
  Z.to_nat (wrap (8 * BYTES_PER_WORD) (n_bytes + BYTES_PER_BLOCK - 1) / BYTES_PER_BLOCK).
Definition alloc_blocks (n_bytes : Z) : nat :=
  Z.to_nat (Z.land (wrap (8 * BYTES_PER_WORD) (n_bytes + BYTES_PER_BLOCK - 1)) (Z.lnot (BYTES_PER_BLOCK - 1)) / BYTES_PER_BLOCK).

Fixpoint mark_tails (n : nat) (bl : nat) : M gc_state unit :=
  match n with
  | O => mret tt
  | S n => ATB_FREE_TO_TAIL bl;; mark_tails n (S bl)
  end.

(** The label [found]. *)
Definition gc_take (end_block n_free n_blocks : nat) (has_finaliser : bool) : M gc_state Z :=
  let start_block := (end_block + 1 - n_free)%nat in
  s ← mget;
  (if (n_free =? 1)%nat then mput (with_last_free ((end_block + 1) / BLOCKS_PER_ATB) s) else mret tt);;
  ATB_FREE_TO_HEAD start_block;;
  mark_tails (end_block - start_block) (S start_block);;
  s ← mget;
  mput (with_amount (wrap (8 * BYTES_PER_WORD) (gc_alloc_amount s + Z.of_nat n_blocks)) s);;
  clear_words (start_block * WORDS_PER_BLOCK) ((end_block - start_block + 1) * WORDS_PER_BLOCK);;
  (if has_finaliser then FTB_SET start_block else mret tt);;
  mret (PTR_FROM_BLOCK s start_block).

(** [roots] are those of a collection that the allocation may start. *)
Definition gc_alloc (roots : list Z) (n_bytes : Z) (has_finaliser : bool) : M gc_state Z :=
  let n_blocks := alloc_blocks n_bytes in
  if (n_blocks =? 0)%nat then mret 0
  else
    s ← mget;
    if (0 <? gc_lock_depth s) then mret 0
    else
      let collected := negb (gc_auto_collect_enabled s) in
      let early := negb collected && (gc_alloc_threshold s <=? gc_alloc_amount s) in
      (if early then gc_collect roots else mret tt);;
      let collected := collected || early in
      s ← mget;
      match find_free n_blocks s with
      | Some (i, n_free) => gc_take i n_free n_blocks has_finaliser
      | None =>
          if collected then mret 0
          else
            gc_collect roots;;
            s ← mget;
            match find_free n_blocks s with
            | Some (i, n_free) => gc_take i n_free n_blocks has_finaliser
            | None => mret 0
            end
      end.

(** [do { free(block); block += 1 } while (ATB_GET_KIND(block) == AT_TAIL)] *)
Fixpoint free_chain (fuel : nat) (block : nat) : M gc_state unit :=
  match fuel with
  | O => mabort
  | S fuel =>
      ATB_ANY_TO_FREE block;;
      k ← ATB_GET_KIND (S block);
      if k =? AT_TAIL then free_chain fuel (S block) else mret tt
  end.

Definition lower_last_free (block : nat) : M gc_state unit :=
  s ← mget;
  if (block / BLOCKS_PER_ATB <? gc_last_free_atb_index s)%nat then mput (with_last_free (block / BLOCKS_PER_ATB) s) else mret tt.

Definition gc_free (ptr : Z) : M gc_state unit :=
  s ← mget;
  if (0 <? gc_lock_depth s) then mret tt
  else if ptr =? 0 then mret tt
  else
    massert (VERIFY_PTR s ptr);;
    let block := BLOCK_FROM_PTR s ptr in
    k ← ATB_GET_KIND block;
    massert (k =? AT_HEAD);;
    FTB_CLEAR block;;
    lower_last_free block;;
    free_chain (S (length (gc_tables s) * BLOCKS_PER_ATB)) block.

Definition gc_nbytes (ptr : Z) : M gc_state Z :=
  s ← mget;
  if VERIFY_PTR s ptr then
    let block := BLOCK_FROM_PTR s ptr in
    k ← ATB_GET_KIND block;
    if k =? AT_HEAD then n ← n_blocks_of block; mret (Z.of_nat n * BYTES_PER_BLOCK) else mret 0
  else mret 0.

(** *** Reallocation *)

(** The blocks of the chain after its head, and the free blocks after it, as far as needed. *)
Fixpoint realloc_scan (n : nat) (bl n_blocks n_free new_blocks : nat) : M gc_state (nat * nat) :=
  match n with
  | O => mret (n_blocks, n_free)
  | S n =>
      k ← ATB_GET_KIND bl;
      if k =? AT_TAIL then realloc_scan n (S bl) (S n_blocks) n_free new_blocks
      else if k =? AT_FREE then
        if (new_blocks <=? n_blocks + S n_free)%nat then mret (n_blocks, S n_free)
        else realloc_scan n (S bl) n_blocks (S n_free) new_blocks
      else mret (n_blocks, n_free)
  end.

Fixpoint free_blocks (n : nat) (bl : nat) : M gc_state unit :=
  match n with
  | O => mret tt
  | S n => ATB_ANY_TO_FREE bl;; free_blocks n (S bl)
  end.

Fixpoint extend_tails (n : nat) (bl : nat) : M gc_state unit :=
  match n with
  | O => mret tt
  | S n => k ← ATB_GET_KIND bl; massert (k =? AT_FREE);; ATB_FREE_TO_TAIL bl;; extend_tails n (S bl)
  end.

(** [memcpy] of [n] words between blocks. *)
Definition copy_words (dst src n : nat) : M gc_state unit :=
  ws ← words src n;
  s ← mget;
  massert (dst * WORDS_PER_BLOCK + n <=? length (gc_pool s))%nat;;
  mput (with_pool (take (dst * WORDS_PER_BLOCK) (gc_pool s) ++ ws ++ drop (dst * WORDS_PER_BLOCK + n) (gc_pool s)) s).

Definition gc_realloc (roots : list Z) (ptr_in : Z) (n_bytes : Z) (allow_move : bool) : M gc_state Z :=
  if ptr_in =? 0 then gc_alloc roots n_bytes false
  else if n_bytes =? 0 then gc_free ptr_in;; mret 0
  else
    s ← mget;
    if (0 <? gc_lock_depth s) then mret 0
    else
      massert (VERIFY_PTR s ptr_in);;
      let block := BLOCK_FROM_PTR s ptr_in in
      k ← ATB_GET_KIND block;
      massert (k =? AT_HEAD);;
      let new_blocks := blocks_for n_bytes in
      '(n_blocks, n_free) ← realloc_scan (total_blocks s - (block + 1)) (block + 1) 1 0 new_blocks;
      if (new_blocks =? n_blocks)%nat then mret ptr_in
      else if (new_blocks <? n_blocks)%nat then
        free_blocks (n_blocks - new_blocks) (block + new_blocks);;
        lower_last_free (block + new_blocks);;
        mret ptr_in
      else if (new_blocks <=? n_blocks + n_free)%nat then
        extend_tails (new_blocks - n_blocks) (block + n_blocks);;
        clear_words ((block + n_blocks) * WORDS_PER_BLOCK) ((new_blocks - n_blocks) * WORDS_PER_BLOCK);;
        mret ptr_in
      else
        ftb_state ← FTB_GET block;
        if negb allow_move then mret 0
        else
          ptr_out ← gc_alloc roots n_bytes ftb_state;
          if ptr_out =? 0 then mret 0
          else
            copy_words (BLOCK_FROM_PTR s ptr_out) block (n_blocks * WORDS_PER_BLOCK);;
            gc_free ptr_in;;
            mret ptr_out.

(** ** Statistics *)

Record gc_info_t := MkInfo {
  i_total : Z; i_used : Z; i_free : Z; i_max_free : nat; i_num_1block : nat; i_num_2block : nat; i_max_block : nat }.

(** The loop body's state: used, free, max_free, num_1block, num_2block, max_block, len, len_free. *)
Record info_acc := MkAcc {
  a_used : nat; a_free : nat; a_max_free : nat; a_1 : nat; a_2 : nat; a_max_block : nat; a_len : nat; a_len_free : nat }.

Definition info_kind (k : Z) (a : info_acc) : info_acc :=
  if k =? AT_FREE then MkAcc (a_used a) (S (a_free a)) (a_max_free a) (a_1 a) (a_2 a) (a_max_block a) 0 (S (a_len_free a))
  else if k =? AT_HEAD then MkAcc (S (a_used a)) (a_free a) (a_max_free a) (a_1 a) (a_2 a) (a_max_block a) 1 (a_len_free a)
  else if k =? AT_TAIL then MkAcc (S (a_used a)) (a_free a) (a_max_free a) (a_1 a) (a_2 a) (a_max_block a) (S (a_len a)) (a_len_free a)
  else a.

(** After a block: [next] is the kind of the following one, [None] at the end. *)
Definition info_next (next : option Z) (a : info_acc) : info_acc :=
  let is_head := match next with None => true | Some k => k =? AT_HEAD end in
  let is_free := match next with None => false | Some k => k =? AT_FREE end in
  if is_head || is_free then
    let n1 := if (a_len a =? 1)%nat then S (a_1 a) else a_1 a in
    let n2 := if (a_len a =? 2)%nat then S (a_2 a) else a_2 a in
    let mb := Nat.max (a_len a) (a_max_block a) in
    if is_head then MkAcc (a_used a) (a_free a) (Nat.max (a_len_free a) (a_max_free a)) n1 n2 mb (a_len a) 0
    else MkAcc (a_used a) (a_free a) (a_max_free a) n1 n2 mb (a_len a) (a_len_free a)
  else a.

(** [n] more blocks after this one. *)
Fixpoint info_loop (n : nat) (block : nat) (a : info_acc) : M gc_state info_acc :=
  k ← ATB_GET_KIND block;
  let a := info_kind k a in
  match n with
  | O => mret (info_next None a)
  | S n => k' ← ATB_GET_KIND (S block); info_loop n (S block) (info_next (Some k') a)
  end.

(** The heap has a block. *)
Definition gc_info : M gc_state gc_info_t :=
  s ← mget;
  a ← info_loop (total_blocks s - 1) 0 (MkAcc 0 0 0 0 0 0 0 0);
  mret (MkInfo (gc_pool_end s - gc_pool_start s) (Z.of_nat (a_used a) * BYTES_PER_BLOCK) (Z.of_nat (a_free a) * BYTES_PER_BLOCK)
    (a_max_free a) (a_1 a) (a_2 a) (a_max_block a)).

End Gc.
