(* ===== verification/GcSpec.v ===== *)
(** The abstract view of the heap of [Gc]: the kind of every block, chains, and
    the effect of the table macros. *)
From S2P Require Import Prelude Gc.

(** ** Two-bit fields of a byte, by computation over all bytes *)

Definition fields_ok (a : Z) (i j : nat) : bool :=
  let kd := atb_kind a i in
  let upd k := Z.lor (Z.land a (Z.lnot (Z.shiftl 3 (BLOCK_SHIFT i)))) (Z.shiftl k (BLOCK_SHIFT i)) in
  let good k := ((atb_kind (upd k) j =? (if (i =? j)%nat then k else atb_kind a j)) && (0 <=? upd k) && (upd k <? 256))%bool in
  (good 0 && good 1 && good 2 && good 3
   && (atb_clear AT_MARK i a =? upd 0)
   && (if kd =? AT_FREE then (atb_or AT_HEAD i a =? upd 1) && (atb_or AT_TAIL i a =? upd 2) else true)
   && (atb_or AT_MARK i a =? upd 3)
   && (if kd =? AT_MARK then atb_clear AT_TAIL i a =? upd 1 else true)
   && (0 <=? kd) && (kd <? 4))%bool.

Lemma all_fields_ok : forallb (fun a => forallb (fun i => forallb (fields_ok a i) (seq 0 4)) (seq 0 4)) (map Z.of_nat (seq 0 256)) = true.
Proof. vm_compute. reflexivity. Qed.

Lemma fields_ok_all a i j : 0 <= a < 256 -> fields_ok a (i mod 4) (j mod 4) = true.
Proof.
  intros Ha. pose proof all_fields_ok as H. rewrite forallb_forall in H.
  specialize (H a). rewrite forallb_forall in H.
  assert (Hi : In (i mod 4)%nat (seq 0 4)) by (apply in_seq; pose proof (Nat.mod_upper_bound i 4); lia).
  assert (Hj : In (j mod 4)%nat (seq 0 4)) by (apply in_seq; pose proof (Nat.mod_upper_bound j 4); lia).
  assert (Hin : In a (map Z.of_nat (seq 0 256))) by (apply in_map_iff; exists (Z.to_nat a); split; [lia|apply in_seq; lia]).
  specialize (H Hin _ Hi). rewrite forallb_forall in H. exact (H _ Hj).
Qed.

(** The byte with the field of [block] set. *)
Definition byte_put (k : Z) (block : nat) (a : Z) : Z :=
  Z.lor (Z.land a (Z.lnot (Z.shiftl 3 (BLOCK_SHIFT block)))) (Z.shiftl k (BLOCK_SHIFT block)).

Lemma shift_mod block : BLOCK_SHIFT (block mod 4) = BLOCK_SHIFT block.
Proof. unfold BLOCK_SHIFT, BLOCKS_PER_ATB. by rewrite Nat.Div0.mod_mod. Qed.

Lemma byte_fields a i j : 0 <= a < 256 ->
  (forall k, 0 <= k < 4 -> atb_kind (byte_put k i a) j = (if (i mod 4 =? j mod 4)%nat then k else atb_kind a j)
     /\ 0 <= byte_put k i a < 256)
  /\ atb_clear AT_MARK i a = byte_put 0 i a
  /\ (atb_kind a i = AT_FREE -> atb_or AT_HEAD i a = byte_put 1 i a /\ atb_or AT_TAIL i a = byte_put 2 i a)
  /\ atb_or AT_MARK i a = byte_put 3 i a
  /\ (atb_kind a i = AT_MARK -> atb_clear AT_TAIL i a = byte_put 1 i a)
  /\ 0 <= atb_kind a i < 4.
Proof.
  intros Ha. pose proof (fields_ok_all a i j Ha) as H. unfold fields_ok, atb_kind, atb_clear, atb_or in H.
  rewrite !shift_mod in H. fold (byte_put 0 i a) (byte_put 1 i a) (byte_put 2 i a) (byte_put 3 i a) in H.
  fold (atb_kind a i) (atb_kind a j) in H. unfold atb_clear, atb_or.
  fold (atb_kind (byte_put 0 i a) j) (atb_kind (byte_put 1 i a) j) (atb_kind (byte_put 2 i a) j) (atb_kind (byte_put 3 i a) j) in H.
  rewrite !andb_true_iff in H. rewrite !Z.eqb_eq, !Z.leb_le, !Z.ltb_lt in H.
  destruct H as [[[[[[[[[G0 G1] G2] G3] Hc] Hf] Hm] Hmh] Hk1] Hk2].
  split; [|split; [done|split; [|split; [done|split; [|lia]]]]].
  - intros k Hk. assert (k = 0 \/ k = 1 \/ k = 2 \/ k = 3) as Hc' by lia. destruct Hc' as [->|[->|[->| ->] ] ]; tauto.
  - intros E. rewrite E, Z.eqb_refl in Hf. rewrite andb_true_iff, !Z.eqb_eq in Hf. exact Hf.
  - intros E. rewrite E, Z.eqb_refl in Hmh. by apply Z.eqb_eq in Hmh.
Qed.

(** ** Kinds of blocks *)

Section Spec.
Context {cfg : GcCfg}.
Implicit Types s : gc_state.

Definition kind s (b : nat) : Z := match gc_tables s !! (b / 4)%nat with Some a => atb_kind a b | None => AT_FREE end.

Definition in_tables s (b : nat) : Prop := (b / 4 < length (gc_tables s))%nat.

Definition tables_ok s : Prop := Forall (fun a => 0 <= a < 256) (gc_tables s).

Definition put_kind (b : nat) (k : Z) s : gc_state := with_tables (alter (byte_put k b) (b / 4)%nat (gc_tables s)) s.

Lemma tables_byte s b : tables_ok s -> in_tables s b -> exists a, gc_tables s !! (b / 4)%nat = Some a /\ 0 <= a < 256.
Proof.
  intros Hb Hi. destruct (lookup_lt_is_Some_2 _ _ Hi) as [a Ha]. exists a. split; [done|].
  exact (Forall_lookup_1 _ _ _ _ Hb Ha).
Qed.

Lemma same_block b b' : (b / 4 = b' / 4)%nat -> (b mod 4 = b' mod 4)%nat -> b = b'.
Proof. intros H1 H2. rewrite (Nat.div_mod_eq b 4), (Nat.div_mod_eq b' 4). congruence. Qed.

Lemma kind_put s b k b' : tables_ok s -> in_tables s b -> 0 <= k < 4 ->
  kind (put_kind b k s) b' = if decide (b' = b) then k else kind s b'.
Proof.
  intros Hb Hi Hk. destruct (tables_byte s b Hb Hi) as (a & Ea & Ha). unfold kind, put_kind. cbn [gc_tables with_tables].
  destruct (byte_fields a b b' Ha) as (Hf & _). destruct (Hf k Hk) as [E _].
  destruct (decide (b / 4 = b' / 4)%nat) as [Ed|Hd].
  - rewrite <- Ed, list_lookup_alter_eq, Ea. cbn [fmap option_fmap option_map]. rewrite E.
    destruct (Nat.eqb_spec (b mod 4) (b' mod 4)) as [Em|Hm].
    + rewrite decide_True; [done|]. symmetry. by apply same_block.
    + rewrite decide_False; [done|]. by intros ->.
  - rewrite list_lookup_alter_ne by done. rewrite decide_False; [done|]. by intros ->.
Qed.

Lemma put_kind_bytes s b k : tables_ok s -> in_tables s b -> 0 <= k < 4 -> tables_ok (put_kind b k s).
Proof.
  intros Hb Hi Hk. unfold tables_ok, put_kind. cbn [gc_tables with_tables]. apply Forall_alter; [done|].
  intros a Ea _. pose proof (Forall_lookup_1 _ _ _ _ Hb Ea) as Ha. by destruct (byte_fields a b b Ha) as (Hf & _); destruct (Hf k Hk).
Qed.

Lemma put_kind_tables s b k : length (gc_tables (put_kind b k s)) = length (gc_tables s).
Proof. unfold put_kind. cbn [gc_tables with_tables]. apply length_alter. Qed.

Lemma get_kind_run s b : in_tables s b -> ATB_GET_KIND b s = Some (kind s b, s).
Proof.
  intros Hi. destruct (lookup_lt_is_Some_2 _ _ Hi) as [a Ha]. unfold ATB_GET_KIND.
  rewrite (M_bind_Some mget _ s s s) by done. unfold BLOCKS_PER_ATB, kind. by rewrite Ha.
Qed.

Lemma kind_range s b : tables_ok s -> in_tables s b -> 0 <= kind s b < 4.
Proof.
  intros Hb Hi. destruct (tables_byte s b Hb Hi) as (a & Ea & Ha). unfold kind. rewrite Ea.
  by destruct (byte_fields a b b Ha) as (_ & _ & _ & _ & _ & H).
Qed.

(** The macros set the field, from the kinds they are for. *)
Lemma table_update_run s b f k : tables_ok s -> in_tables s b ->
  (forall a, 0 <= a < 256 -> gc_tables s !! (b / 4)%nat = Some a -> f a = byte_put k b a) ->
  table_update (b / BLOCKS_PER_ATB) f s = Some (tt, put_kind b k s).
Proof.
  intros Hb Hi Hf. destruct (tables_byte s b Hb Hi) as (a & Ea & Ha). unfold table_update, BLOCKS_PER_ATB.
  rewrite (M_bind_Some mget _ s s s) by done. rewrite Ea. rewrite (M_bind_Some (mlift (Some a)) _ s a s) by done.
  unfold mput, put_kind. do 2 f_equal. unfold with_tables. f_equal.
  apply list_eq. intros i. destruct (decide (i = b / 4)%nat) as [->|Hne].
  - rewrite !list_lookup_alter_eq, Ea. cbn. f_equal. by apply Hf.
  - by rewrite !list_lookup_alter_ne by done.
Qed.

Lemma any_to_free_run s b : tables_ok s -> in_tables s b -> ATB_ANY_TO_FREE b s = Some (tt, put_kind b AT_FREE s).
Proof. intros Hb Hi. apply table_update_run; [done..|]. intros a Ha _. by destruct (byte_fields a b b Ha) as (_ & H & _). Qed.

Lemma kind_byte s b a : gc_tables s !! (b / 4)%nat = Some a -> atb_kind a b = kind s b.
Proof. intros E. unfold kind. by rewrite E. Qed.

Lemma free_to_head_run s b : tables_ok s -> in_tables s b -> kind s b = AT_FREE -> ATB_FREE_TO_HEAD b s = Some (tt, put_kind b AT_HEAD s).
Proof.
  intros Hb Hi Hk. apply table_update_run; [done..|]. intros a Ha Ea. destruct (byte_fields a b b Ha) as (_ & _ & H & _).
  apply H. by rewrite (kind_byte _ _ _ Ea).
Qed.

Lemma free_to_tail_run s b : tables_ok s -> in_tables s b -> kind s b = AT_FREE -> ATB_FREE_TO_TAIL b s = Some (tt, put_kind b AT_TAIL s).
Proof.
  intros Hb Hi Hk. apply table_update_run; [done..|]. intros a Ha Ea. destruct (byte_fields a b b Ha) as (_ & _ & H & _).
  apply H. by rewrite (kind_byte _ _ _ Ea).
Qed.

Lemma head_to_mark_run s b : tables_ok s -> in_tables s b -> ATB_HEAD_TO_MARK b s = Some (tt, put_kind b AT_MARK s).
Proof. intros Hb Hi. apply table_update_run; [done..|]. intros a Ha _. by destruct (byte_fields a b b Ha) as (_ & _ & _ & H & _). Qed.

Lemma mark_to_head_run s b : tables_ok s -> in_tables s b -> kind s b = AT_MARK -> ATB_MARK_TO_HEAD b s = Some (tt, put_kind b AT_HEAD s).
Proof.
  intros Hb Hi Hk. apply table_update_run; [done..|]. intros a Ha Ea. destruct (byte_fields a b b Ha) as (_ & _ & _ & _ & H & _).
  apply H. by rewrite (kind_byte _ _ _ Ea).
Qed.

(** ** Heaps *)

(** The layout that [gc_init] makes: it does not change. *)
Record heap_wf s : Prop := {
  h_bytes : tables_ok s;
  h_len : (gc_alloc_table_byte_len s + (gc_alloc_table_byte_len s * 4 + 7) / 8 = length (gc_tables s))%nat;
  h_pos : gc_alloc_table_byte_len s <> 0%nat;
  h_pool : length (gc_pool s) = (total_blocks s * WORDS_PER_BLOCK)%nat;
  h_start : 0 < gc_pool_start s /\ gc_pool_start s mod BYTES_PER_BLOCK = 0 }.

(** A tail follows a block of its chain.  The last clause is about the two bits
    after the allocation table, the finaliser bits of blocks 0 and 1, which the
    loops over a chain that ends with the heap read as a kind. *)
Record heap_ok s : Prop := {
  h_wf : heap_wf s;
  h_first : kind s 0 <> AT_TAIL;
  h_tail b : (S b < total_blocks s)%nat -> kind s (S b) = AT_TAIL -> kind s b <> AT_FREE;
  h_guard : kind s (total_blocks s) <> AT_TAIL }.

Lemma heap_in_tables s b : heap_wf s -> (b <= total_blocks s)%nat -> in_tables s b.
Proof.
  intros H Hb. unfold in_tables. rewrite <- (h_len _ H). pose proof (h_pos _ H). unfold total_blocks, BLOCKS_PER_ATB in Hb.
  assert (b / 4 <= gc_alloc_table_byte_len s)%nat by (apply Nat.Div0.div_le_upper_bound; lia).
  assert (1 <= (gc_alloc_table_byte_len s * 4 + 7) / 8)%nat by (apply Nat.div_le_lower_bound; lia). lia.
Qed.

Lemma bpb_pos : 0 < BYTES_PER_BLOCK.
Proof. unfold BYTES_PER_BLOCK. pose proof bytes_per_word_pos. pose proof words_per_block_pos. nia. Qed.

Lemma block_size : BYTES_PER_BLOCK = 2 ^ BLOCK_LOG.
Proof. apply block_pow2. Qed.

Lemma block_mask x : Z.land x (BYTES_PER_BLOCK - 1) = x mod BYTES_PER_BLOCK.
Proof. rewrite block_size. apply (land_ones_wrap BLOCK_LOG), block_log_pos. Qed.

Lemma block_align x : Z.land x (Z.lnot (BYTES_PER_BLOCK - 1)) = x - x mod BYTES_PER_BLOCK.
Proof.
  rewrite <- block_mask, <- (Z.ldiff_land x). apply Z.add_move_r. rewrite Z.add_comm.
  pose proof (Z.add_lor_land (Z.land x (BYTES_PER_BLOCK - 1)) (Z.ldiff x (BYTES_PER_BLOCK - 1))) as H.
  replace (Z.land (Z.land x (BYTES_PER_BLOCK - 1)) (Z.ldiff x (BYTES_PER_BLOCK - 1))) with 0 in H.
  - rewrite Z.add_0_r in H. rewrite <- H. apply Z.bits_inj'. intros i Hi.
    rewrite Z.lor_spec, Z.land_spec, Z.ldiff_spec by lia. by destruct (Z.testbit x i), (Z.testbit (BYTES_PER_BLOCK - 1) i).
  - symmetry. apply Z.bits_inj'. intros i Hi. rewrite Z.bits_0, !Z.land_spec, Z.ldiff_spec by lia.
    by destruct (Z.testbit x i), (Z.testbit (BYTES_PER_BLOCK - 1) i).
Qed.

Lemma alloc_blocks_eq n : alloc_blocks n = blocks_for n.
Proof.
  unfold alloc_blocks, blocks_for. rewrite block_align. set (x := wrap _ _). pose proof bpb_pos. f_equal.
  assert (Hb : BYTES_PER_BLOCK <> 0) by lia. pose proof (Z.div_mod x BYTES_PER_BLOCK Hb). replace (x - x mod BYTES_PER_BLOCK) with ((x / BYTES_PER_BLOCK) * BYTES_PER_BLOCK) by lia.
  by rewrite Z.div_mul by lia.
Qed.

Lemma verify_block s ptr : VERIFY_PTR s ptr = true -> (BLOCK_FROM_PTR s ptr < total_blocks s)%nat.
Proof.
  unfold VERIFY_PTR, BLOCK_FROM_PTR, gc_pool_end. intros H. bool_to_prop. pose proof bpb_pos.
  assert ((ptr - gc_pool_start s) / BYTES_PER_BLOCK < Z.of_nat (total_blocks s)) by (apply Z.div_lt_upper_bound; nia).
  assert (0 <= (ptr - gc_pool_start s) / BYTES_PER_BLOCK) by (apply Z.div_pos; lia). lia.
Qed.

Lemma ptr_of_block s b : heap_wf s -> (b < total_blocks s)%nat ->
  VERIFY_PTR s (PTR_FROM_BLOCK s b) = true /\ BLOCK_FROM_PTR s (PTR_FROM_BLOCK s b) = b /\ PTR_FROM_BLOCK s b <> 0.
Proof.
  intros H Hb. pose proof bpb_pos. destruct (h_start _ H) as [Hp Hm]. unfold VERIFY_PTR, BLOCK_FROM_PTR, PTR_FROM_BLOCK, gc_pool_end.
  split; [|split; [|nia]].
  - rewrite !andb_true_iff, Z.eqb_eq, Z.leb_le, Z.ltb_lt. split; [split; [|nia]|nia].
    rewrite block_mask, Z.add_comm, Z_mod_plus_full. done.
  - replace (Z.of_nat b * BYTES_PER_BLOCK + gc_pool_start s - gc_pool_start s) with (Z.of_nat b * BYTES_PER_BLOCK) by lia.
    rewrite Z.div_mul by lia. lia.
Qed.

(** *** Chains *)

Fixpoint tails (n : nat) s (b : nat) : nat :=
  match n with
  | O => 0
  | S n => if kind s (S b) =? AT_TAIL then S (tails n s (S b)) else 0
  end.

(** The blocks of the chain that starts at [b]. *)
Definition clen s (b : nat) : nat := S (tails (total_blocks s - b) s b).

Lemma tails_spec n s b : (forall i, (1 <= i <= tails n s b)%nat -> kind s (b + i) = AT_TAIL)
  /\ (tails n s b <= n)%nat /\ ((tails n s b < n)%nat -> kind s (S (b + tails n s b)) <> AT_TAIL).
Proof.
  revert b. induction n as [|n IH]; intros b; cbn [tails]; [split; [intros; lia|split; lia]|].
  destruct (Z.eqb_spec (kind s (S b)) AT_TAIL) as [E|E].
  - destruct (IH (S b)) as (H1 & H2 & H3). split; [|split; [lia|]].
    + intros i Hi. destruct (decide (i = 1%nat)) as [->|]; [by rewrite Nat.add_1_r|].
      replace (b + i)%nat with (S b + (i - 1))%nat by lia. apply H1. lia.
    + intros Hl. replace (S (b + S (tails n s (S b))))%nat with (S (S b + tails n s (S b)))%nat by lia. apply H3. lia.
  - split; [intros; lia|]. split; [lia|]. intros _. by rewrite Nat.add_0_r.
Qed.

Lemma clen_bound s b : heap_ok s -> (b < total_blocks s)%nat -> (b + clen s b <= total_blocks s)%nat.
Proof.
  intros H Hb. unfold clen. destruct (tails_spec (total_blocks s - b) s b) as (H1 & H2 & _).
  destruct (decide (tails (total_blocks s - b) s b = total_blocks s - b)%nat) as [E|]; [|lia].
  exfalso. apply (h_guard _ H). specialize (H1 (total_blocks s - b)%nat ltac:(lia)).
  by replace (b + (total_blocks s - b))%nat with (total_blocks s) in H1 by lia.
Qed.

Lemma clen_tail s b i : (1 <= i < clen s b)%nat -> kind s (b + i) = AT_TAIL.
Proof. intros Hi. unfold clen in Hi. destruct (tails_spec (total_blocks s - b) s b) as (H1 & _). apply H1. lia. Qed.

Lemma clen_end s b : heap_ok s -> (b < total_blocks s)%nat -> kind s (b + clen s b) <> AT_TAIL.
Proof.
  intros H Hb. pose proof (clen_bound s b H Hb) as Hc. unfold clen in *.
  destruct (tails_spec (total_blocks s - b) s b) as (_ & H2 & H3). rewrite Nat.add_succ_r. apply H3. lia.
Qed.

Lemma tails_ext n s s' b : (forall i, (S b <= i <= b + n)%nat -> kind s i = AT_TAIL <-> kind s' i = AT_TAIL) -> tails n s b = tails n s' b.
Proof.
  revert b. induction n as [|n IH]; intros b H; [done|]. cbn [tails].
  pose proof (H (S b) ltac:(lia)) as Hb. rewrite (IH (S b)) by (intros; apply H; lia).
  destruct (Z.eqb_spec (kind s (S b)) AT_TAIL), (Z.eqb_spec (kind s' (S b)) AT_TAIL); tauto.
Qed.

Lemma tails_exact n s b m : (m < n)%nat -> (forall i, (1 <= i <= m)%nat -> kind s (b + i) = AT_TAIL) -> kind s (b + S m) <> AT_TAIL ->
  tails n s b = m.
Proof.
  revert b m. induction n as [|n IH]; intros b m Hm Ht He; [lia|]. cbn [tails]. destruct m as [|m].
  - rewrite Nat.add_1_r in He. by rewrite (proj2 (Z.eqb_neq _ _) He).
  - pose proof (Ht 1%nat ltac:(lia)) as E. rewrite Nat.add_1_r in E. rewrite E, Z.eqb_refl. f_equal. apply IH; [lia|intros i Hi|].
    + replace (S b + i)%nat with (b + S i)%nat by lia. apply Ht. lia.
    + by replace (S b + S m)%nat with (b + S (S m))%nat by lia.
Qed.

Lemma clen_exact s b n : (0 < n)%nat -> (b + n <= total_blocks s)%nat -> (forall i, (1 <= i < n)%nat -> kind s (b + i) = AT_TAIL) ->
  kind s (b + n) <> AT_TAIL -> clen s b = n.
Proof.
  intros Hn Hb Ht He. unfold clen. rewrite (tails_exact _ s b (n - 1)); [lia|lia|intros; apply Ht; lia|]. by replace (b + S (n - 1))%nat with (b + n)%nat by lia.
Qed.

Lemma chain_len_run fuel s b m n : heap_ok s -> (b + m + n <= total_blocks s)%nat -> (n < fuel)%nat ->
  (forall i, (1 <= i <= n)%nat -> kind s (b + m + i) = AT_TAIL) -> kind s (b + m + S n) <> AT_TAIL ->
  (b + m + S n <= total_blocks s)%nat ->
  chain_len fuel b m s = Some ((m + S n)%nat, s).
Proof.
  revert m n. induction fuel as [|fuel IH]; intros m n H Hb Hf Ht He Hend; [lia|]. cbn [chain_len].
  assert (Hi : in_tables s (b + S m)) by (apply heap_in_tables; [apply H|lia]).
  rewrite (M_bind_Some _ _ _ _ _ (get_kind_run s _ Hi)).
  destruct n as [|n].
  - replace (b + m + 1)%nat with (b + S m)%nat in He by lia. destruct (Z.eqb_spec (kind s (b + S m)) AT_TAIL); [done|].
    rewrite Nat.add_1_r. done.
  - pose proof (Ht 1%nat ltac:(lia)) as E. replace (b + m + 1)%nat with (b + S m)%nat in E by lia. rewrite E, Z.eqb_refl.
    rewrite (IH (S m) n); try lia; try done.
    + do 2 f_equal. lia.
    + intros i Hj. replace (b + S m + i)%nat with (b + m + S i)%nat by lia. apply Ht. lia.
    + by replace (b + S m + S n)%nat with (b + m + S (S n))%nat by lia.
Qed.

Lemma n_blocks_run s b : heap_ok s -> (b < total_blocks s)%nat -> n_blocks_of b s = Some (clen s b, s).
Proof.
  intros H Hb. unfold n_blocks_of. rewrite (M_bind_Some mget _ s s s) by done.
  pose proof (clen_bound s b H Hb) as Hc. pose proof (clen_end s b H Hb) as He. unfold clen in *.
  set (t := tails (total_blocks s - b) s b) in *.
  rewrite (chain_len_run _ s b 0 t); [done|done|lia| | | |].
  - pose proof (h_len _ (h_wf _ H)). unfold total_blocks in *. unfold BLOCKS_PER_ATB in *. nia.
  - intros i Hi. rewrite Nat.add_0_r. destruct (tails_spec (total_blocks s - b) s b) as (H1 & _). by apply H1.
  - by rewrite Nat.add_0_r.
  - lia.
Qed.

Lemma words_run s b n : heap_wf s -> (b * WORDS_PER_BLOCK + n <= total_blocks s * WORDS_PER_BLOCK)%nat ->
  words b n s = Some (take n (drop (b * WORDS_PER_BLOCK) (gc_pool s)), s).
Proof.
  intros H Hn. unfold words. rewrite (M_bind_Some mget _ s s s) by done. unfold massert.
  assert (E : (b * WORDS_PER_BLOCK + n <=? length (gc_pool s))%nat = true) by (apply Nat.leb_le; rewrite (h_pool _ H); lia).
  unfold mbind, M_bind. by rewrite E.
Qed.

End Spec.
