(* ===== verification/GcMark.v ===== *)
(** Marking in [Gc]: the relation between the heap before a collection and the heap
    while it is being marked, and what [gc_mark_subtree], the scan of the roots and
    the rescans after a stack overflow do to it. *)
From S2P Require Import Prelude Gc GcSpec.

Lemma length_filter_le {A} (P Q : A -> Prop) `{!forall x, Decision (P x), !forall x, Decision (Q x)} (l : list A) :
  (forall x, x ∈ l -> Q x -> P x) -> (length (filter Q l) <= length (filter P l))%nat.
Proof.
  intros Hl. induction l as [|x l IH]; [done|]. rewrite !list.filter_cons.
  assert (Hx : Q x -> P x) by (apply Hl; left).
  assert (length (filter Q l) <= length (filter P l))%nat by (apply IH; intros y Hy; apply Hl; by right).
  destruct (decide (Q x)), (decide (P x)); cbn [length]; try lia. tauto.
Qed.

(** Taking one element out of a selection of a list without duplicates. *)
Lemma length_filter_remove `{EqDecision A} (P Q : A -> Prop) `{!forall x, Decision (P x), !forall x, Decision (Q x)} (l : list A) a :
  NoDup l -> a ∈ l -> P a -> ~ Q a -> (forall x, x <> a -> Q x <-> P x) ->
  S (length (filter Q l)) = length (filter P l).
Proof.
  intros Hnd Ha HPa HQa Hne. induction Hnd as [|x l Hx Hnd IH]; [by apply elem_of_nil in Ha|].
  rewrite !list.filter_cons. apply elem_of_cons in Ha. destruct (decide (a = x)) as [<-|Hax].
  - destruct (decide (P a)), (decide (Q a)); try tauto. cbn [length]. f_equal.
    assert (HQP : forall y, y ∈ l -> Q y <-> P y) by (intros y Hy; apply Hne; by intros ->).
    apply Nat.le_antisymm; apply length_filter_le; intros y Hy; by apply HQP.
  - destruct Ha as [|Ha]; [done|]. specialize (IH Ha). assert (Hx' : x <> a) by congruence. apply Hne in Hx'.
    destruct (decide (Q x)), (decide (P x)); try tauto; cbn [length]; lia.
Qed.

Section Mark.
Context {cfg : GcCfg}.

(** ** The heap during marking *)

(** All but the tables and the overflow flag. *)
Definition still (s : gc_state) : gc_state := with_overflow false (with_tables [] s).

(** [s] is [s0] with some heads marked. *)
Record marking (s0 s : gc_state) : Prop := {
  m_still : still s = still s0;
  m_len : length (gc_tables s) = length (gc_tables s0);
  m_bytes : tables_ok s;
  m_kind b : (b < total_blocks s0)%nat -> kind s b = kind s0 b \/ (kind s0 b = AT_HEAD /\ kind s b = AT_MARK);
  m_rest i : (gc_alloc_table_byte_len s0 <= i)%nat -> gc_tables s !! i = gc_tables s0 !! i }.

(** The pointers a chain holds, and the blocks they point to. *)
Definition chain_words (s : gc_state) (b : nat) : list Z :=
  take (clen s b * WORDS_PER_BLOCK) (drop (b * WORDS_PER_BLOCK) (gc_pool s)).

Definition points_to (s : gc_state) (ptrs : list Z) (c : nat) : Prop :=
  exists ptr, ptr ∈ ptrs /\ VERIFY_PTR s ptr = true /\ BLOCK_FROM_PTR s ptr = c /\ kind s c = AT_HEAD.

(** The blocks a collection keeps. *)
Inductive reachable (s : gc_state) (roots : list Z) : nat -> Prop :=
  | reach_root c : points_to s roots c -> reachable s roots c
  | reach_child b c : reachable s roots b -> points_to s (chain_words s b) c -> reachable s roots c.

Section Heap.
Context (s0 : gc_state) (H0 : heap_ok s0).
Abbreviation total := (total_blocks s0).

Lemma marking_refl : marking s0 s0.
Proof. constructor; try done; [apply H0|by left]. Qed.

Lemma still_fields s : still s = still s0 ->
  gc_alloc_table_byte_len s = gc_alloc_table_byte_len s0 /\ gc_pool s = gc_pool s0 /\ gc_pool_start s = gc_pool_start s0
  /\ total_blocks s = total /\ (forall ptr, VERIFY_PTR s ptr = VERIFY_PTR s0 ptr) /\ (forall ptr, BLOCK_FROM_PTR s ptr = BLOCK_FROM_PTR s0 ptr).
Proof.
  intros E. injection E as E1 E2 E3 E4 E5 E6 E7 E8 E9.
  assert (Et : total_blocks s = total) by (unfold total_blocks; congruence).
  split_and!; try done; intros ptr; unfold VERIFY_PTR, gc_pool_end, BLOCK_FROM_PTR; by rewrite ?Et, E3.
Qed.

Lemma guard_kind s b : marking s0 s -> (total <= b)%nat -> kind s b = kind s0 b.
Proof.
  intros Hm Hb. unfold kind. rewrite (m_rest _ _ Hm); [done|].
  unfold total_blocks, BLOCKS_PER_ATB in Hb. apply Nat.div_le_lower_bound; lia.
Qed.

Lemma marking_tail s b : marking s0 s -> kind s b = AT_TAIL <-> kind s0 b = AT_TAIL.
Proof.
  intros Hm. destruct (decide (b < total)%nat) as [Hb|Hb]; [|by rewrite guard_kind by (try done; lia)].
  destruct (m_kind _ _ Hm b Hb) as [->|[-> ->]]; [done|]. by split; intros [=].
Qed.

Lemma marking_free s b : marking s0 s -> (b < total)%nat -> kind s b = AT_FREE -> kind s0 b = AT_FREE.
Proof. intros Hm Hb E. destruct (m_kind _ _ Hm b Hb) as [<-|[_ E']]; [done|]. rewrite E in E'. by inversion E'. Qed.

Lemma marking_ok s : marking s0 s -> heap_ok s.
Proof.
  intros Hm. destruct (still_fields s (m_still _ _ Hm)) as (El & Ep & Es & Et & _ & _).
  pose proof (h_wf _ H0) as Hw. constructor.
  - constructor; rewrite ?El, ?Ep, ?Es, ?Et, ?(m_len _ _ Hm); [apply Hm|apply Hw..].
  - rewrite (marking_tail s) by done. apply H0.
  - rewrite Et. intros b Hb. rewrite (marking_tail s) by done. intros E1 E2. apply (h_tail _ H0 b Hb E1).
    apply (marking_free s); [done|lia|done].
  - rewrite Et, (marking_tail s) by done. apply H0.
Qed.

Lemma marking_clen s b : marking s0 s -> clen s b = clen s0 b.
Proof.
  intros Hm. destruct (still_fields s (m_still _ _ Hm)) as (_ & _ & _ & Et & _). unfold clen. rewrite Et. f_equal.
  apply tails_ext. intros. by apply marking_tail.
Qed.

Lemma marking_in_tables s b : marking s0 s -> (b < total)%nat -> in_tables s b.
Proof.
  intros Hm Hb. destruct (still_fields s (m_still _ _ Hm)) as (_ & _ & _ & Et & _).
  apply heap_in_tables; [apply marking_ok, Hm|lia].
Qed.

Lemma marking_overflow s f : marking s0 s -> marking s0 (with_overflow f s).
Proof. intros Hm. by constructor; apply Hm. Qed.

Lemma byte_of_block b : (b < total)%nat -> (b / 4 < gc_alloc_table_byte_len s0)%nat.
Proof. intros Hb. apply Nat.Div0.div_lt_upper_bound. unfold total_blocks, BLOCKS_PER_ATB in Hb. lia. Qed.

Lemma marking_put s b : marking s0 s -> (b < total)%nat -> kind s b = AT_HEAD -> marking s0 (put_kind b AT_MARK s).
Proof.
  intros Hm Hb Hk. pose proof (marking_in_tables s b Hm Hb) as Hi. constructor.
  - apply Hm.
  - rewrite put_kind_tables. apply Hm.
  - apply put_kind_bytes; [apply Hm|done|done].
  - intros b' Hb'. rewrite kind_put by (try done; apply Hm). case_decide as E; [|by apply Hm].
    subst b'. right. split; [|done]. destruct (m_kind _ _ Hm b Hb) as [<-|[? E']]; [done|]. rewrite Hk in E'. by inversion E'.
  - intros i Hl. unfold put_kind. cbn [gc_tables with_tables]. pose proof (byte_of_block b Hb).
    rewrite list_lookup_alter_ne by lia. by apply Hm.
Qed.

(** ** Growing marks *)

Definition unmarked (s : gc_state) : nat := length (filter (fun b => kind s b = AT_HEAD) (seq 0 total)).

Lemma unmarked_le s : (unmarked s <= total)%nat.
Proof.
  unfold unmarked. pose proof (length_filter (fun b => kind s b = AT_HEAD) (seq 0 total)) as Hf. by rewrite length_seq in Hf.
Qed.

Lemma unmarked_put s b : marking s0 s -> (b < total)%nat -> kind s b = AT_HEAD -> S (unmarked (put_kind b AT_MARK s)) = unmarked s.
Proof.
  intros Hm Hb Hk. pose proof (marking_in_tables s b Hm Hb) as Hi. unfold unmarked. apply (length_filter_remove _ _ _ b); [apply NoDup_seq| |done| |].
  - apply elem_of_seq. lia.
  - rewrite kind_put, decide_True by (try done; apply Hm). done.
  - intros x Hx. rewrite kind_put, decide_False by (try done; apply Hm). done.
Qed.

(** From [s] to [s'] marks were added, only in [R], and the flag was only raised
    together with a new mark. *)
Record grows (R : nat -> Prop) (s s' : gc_state) : Prop := {
  g_marking : marking s0 s';
  g_mono b : (b < total)%nat -> kind s b = AT_MARK -> kind s' b = AT_MARK;
  g_new b : (b < total)%nat -> kind s' b = AT_MARK -> kind s b = AT_MARK \/ R b;
  g_unmarked : (unmarked s' <= unmarked s)%nat;
  g_raised : gc_stack_overflow s = true -> gc_stack_overflow s' = true;
  g_raise : gc_stack_overflow s' = true -> gc_stack_overflow s = true \/ (unmarked s' < unmarked s)%nat }.

Lemma grows_refl R s : marking s0 s -> grows R s s.
Proof. intros. constructor; auto. Qed.

Lemma grows_trans R s1 s2 s3 : grows R s1 s2 -> grows R s2 s3 -> grows R s1 s3.
Proof.
  intros A B. constructor.
  - apply B.
  - intros b Hb Hk. apply (g_mono _ _ _ B); [done|]. by apply (g_mono _ _ _ A).
  - intros b Hb Hk. destruct (g_new _ _ _ B b Hb Hk) as [Hk'|]; [|by right]. by apply (g_new _ _ _ A).
  - pose proof (g_unmarked _ _ _ A). pose proof (g_unmarked _ _ _ B). lia.
  - intros Hr. apply (g_raised _ _ _ B), (g_raised _ _ _ A), Hr.
  - intros Hr. pose proof (g_unmarked _ _ _ A). pose proof (g_unmarked _ _ _ B).
    destruct (g_raise _ _ _ B Hr) as [Hr2|]; [|right; lia]. destruct (g_raise _ _ _ A Hr2) as [|]; [by left|right; lia].
Qed.

Lemma grows_put (R : nat -> Prop) s b : marking s0 s -> (b < total)%nat -> kind s b = AT_HEAD -> R b -> grows R s (put_kind b AT_MARK s).
Proof.
  intros Hm Hb Hk HR. pose proof (marking_in_tables s b Hm Hb) as Hi. pose proof (unmarked_put s b Hm Hb Hk). constructor.
  - by apply marking_put.
  - intros b' _ Hk'. rewrite kind_put by (try done; apply Hm). by case_decide.
  - intros b' _. rewrite kind_put by (try done; apply Hm). case_decide; [subst; by right|by left].
  - lia.
  - done.
  - by left.
Qed.

(** Raising the flag after a mark was added. *)
Lemma grows_flag R s s' : grows R s s' -> (unmarked s' < unmarked s)%nat -> grows R s (with_overflow true s').
Proof. intros A Hl. constructor; try apply A; [apply marking_overflow, A|done|by right]. Qed.

(** ** The loops *)

(** [R] contains what its members point to. *)
Definition closed_set (R : nat -> Prop) : Prop := forall b c, R b -> points_to s0 (chain_words s0 b) c -> R c.

(** What [b] points to is marked. *)
Definition traced (s : gc_state) (b : nat) : Prop := forall c, points_to s0 (chain_words s0 b) c -> kind s c = AT_MARK.

Lemma points_to_block ptrs c : points_to s0 ptrs c -> (c < total)%nat.
Proof. intros (ptr & _ & Hv & <- & _). by apply verify_block. Qed.

Lemma traced_grows R s s' b : grows R s s' -> traced s b -> traced s' b.
Proof. intros A Ht c Hc. apply (g_mono _ _ _ A); [by apply points_to_block in Hc|by apply Ht]. Qed.

Lemma read_kind s b : marking s0 s -> (b < total)%nat -> ATB_GET_KIND b s = Some (kind s b, s).
Proof. intros Hm Hb. by apply get_kind_run, marking_in_tables. Qed.

(** The result of the scan of pointers: the blocks pushed are [new]. *)
Record scanned (R : nat -> Prop) (ptrs : list Z) (new : list nat) (s s' : gc_state) : Prop := {
  sc_grows : grows R s s';
  sc_new : Forall (fun b => (b < total)%nat /\ R b) new;
  sc_marked c : points_to s0 ptrs c -> kind s' c = AT_MARK;
  sc_pending b : (b < total)%nat -> kind s' b = AT_MARK -> kind s b = AT_MARK \/ b ∈ new \/ gc_stack_overflow s' = true;
  sc_count : (unmarked s' + length new <= unmarked s)%nat }.

Lemma scanned_nil R s : marking s0 s -> scanned R [] [] s s.
Proof.
  intros Hm. constructor; [by apply grows_refl|constructor| |by left|cbn [length]; lia].
  intros c (ptr & Hp & _). by apply elem_of_nil in Hp.
Qed.

(** A pointer that marks nothing. *)
Lemma scanned_skip R ptr ptrs new s s' :
  (forall c, VERIFY_PTR s0 ptr = true -> BLOCK_FROM_PTR s0 ptr = c -> kind s0 c = AT_HEAD -> kind s c = AT_MARK) ->
  scanned R ptrs new s s' -> scanned R (ptr :: ptrs) new s s'.
Proof.
  intros Hp A. constructor; try apply A. intros c (q & Hq & Hv & Hb & Hk). apply elem_of_cons in Hq. destruct Hq as [->|Hq].
  - apply (g_mono _ _ _ (sc_grows _ _ _ _ _ A)); [rewrite <- Hb; by apply verify_block|by apply Hp].
  - apply (sc_marked _ _ _ _ _ A). by exists q.
Qed.

(** A pointer whose block is marked and pushed, or marked when the stack is full. *)
Lemma scanned_mark R ptr ptrs new s s1 s' b f :
  grows R s s1 -> S (unmarked s1) = unmarked s -> (forall c, (c < total)%nat -> kind s1 c = AT_MARK -> kind s c = AT_MARK \/ c = b) ->
  kind s1 b = AT_MARK -> BLOCK_FROM_PTR s0 ptr = b -> (b < total)%nat -> R b ->
  (f = [b] \/ f = [] /\ gc_stack_overflow s1 = true) ->
  scanned R ptrs new s1 s' -> scanned R (ptr :: ptrs) (new ++ f) s s'.
Proof.
  intros Hg Hu Hone Hk Hb Hbt HR Hf A. pose proof (sc_grows _ _ _ _ _ A) as Hg'. constructor.
  - by apply (grows_trans R s s1).
  - apply Forall_app. split; [apply A|]. destruct Hf as [->|[-> _] ]; [by constructor|constructor].
  - intros c (q & Hq & Hv & Hc & Hkc). apply elem_of_cons in Hq. destruct Hq as [->|Hq].
    + apply (g_mono _ _ _ Hg'); [rewrite <- Hc; by apply verify_block|]. by rewrite <- Hc, Hb.
    + apply (sc_marked _ _ _ _ _ A). by exists q.
  - intros c Hct Hc. destruct (sc_pending _ _ _ _ _ A c Hct Hc) as [H1|[H1|H1] ]; [|right; left; apply elem_of_app; by left|by right; right].
    destruct (Hone c Hct H1) as [| ->]; [by left|]. right. destruct Hf as [->|[-> Hf] ].
    + left. apply elem_of_app. right. by left.
    + right. by apply (g_raised _ _ _ Hg').
  - pose proof (sc_count _ _ _ _ _ A). rewrite length_app. destruct Hf as [->|[-> _] ]; cbn [length]; lia.
Qed.

Lemma mark_children_run R ptrs stack s :
  marking s0 s -> (forall c, points_to s0 ptrs c -> R c) ->
  exists new s', mark_children ptrs stack s = Some (new ++ stack, s') /\ scanned R ptrs new s s'.
Proof.
  revert stack s. induction ptrs as [|ptr ptrs IH]; intros stack s Hm HR.
  { exists [], s. split; [done|]. by apply scanned_nil. }
  assert (HR' : forall c, points_to s0 ptrs c -> R c) by (intros c (q & Hq & Hv); apply HR; exists q; split; [by right|done]).
  cbn [mark_children]. rewrite (M_bind_Some mget _ s s s) by done.
  destruct (still_fields s (m_still _ _ Hm)) as (_ & _ & _ & _ & HV & HB). rewrite HV, HB.
  destruct (VERIFY_PTR s0 ptr) eqn:Ev.
  2:{ destruct (IH stack s Hm HR') as (new & s' & Hrun & A). exists new, s'. split; [done|]. apply scanned_skip; [congruence|done]. }
  pose proof (verify_block s0 ptr Ev) as Hb. set (b := BLOCK_FROM_PTR s0 ptr) in *. cbv zeta.
  rewrite (M_bind_Some _ _ _ _ _ (read_kind s b Hm Hb)). destruct (Z.eqb_spec (kind s b) AT_HEAD) as [Ek|Ek].
  - pose proof (marking_in_tables s b Hm Hb) as Hi.
    rewrite (M_bind_Some _ _ _ _ _ (head_to_mark_run s b (m_bytes _ _ Hm) Hi)).
    assert (HRb : R b). { apply HR. exists ptr. split; [by left|]. split; [done|]. split; [done|].
      destruct (m_kind _ _ Hm b Hb) as [<-|[? _] ]; done. }
    set (s1 := put_kind b AT_MARK s). rewrite (M_bind_Some mget _ s1 s1 s1) by done.
    assert (Hone : forall c, (c < total)%nat -> kind s1 c = AT_MARK -> kind s c = AT_MARK \/ c = b).
    { intros c _. unfold s1. rewrite kind_put by (try done; apply Hm). case_decide; [by right|by left]. }
    assert (Hk1 : kind s1 b = AT_MARK) by (unfold s1; rewrite kind_put, decide_True by (try done; apply Hm); done).
    pose proof (unmarked_put s b Hm Hb Ek) as Hu. fold s1 in Hu.
    pose proof (grows_put R s b Hm Hb Ek HRb) as Hg. fold s1 in Hg.
    destruct (length stack <? ALLOC_GC_STACK_SIZE)%nat eqn:El.
    + destruct (IH (b :: stack) s1 (g_marking _ _ _ Hg) HR') as (new & s' & Hrun & A).
      exists (new ++ [b]), s'. split; [by rewrite <- app_assoc|]. by apply (scanned_mark R _ _ _ s s1 s' b); try done; left.
    + rewrite (M_bind_Some (mput (with_overflow true s1)) _ s1 tt (with_overflow true s1)) by done.
      assert (Hg' : grows R s (with_overflow true s1)) by (apply grows_flag; [done|lia]).
      destruct (IH stack _ (g_marking _ _ _ Hg') HR') as (new & s' & Hrun & A).
      exists (new ++ []), s'. split; [by rewrite app_nil_r|]. by apply (scanned_mark R _ _ _ s (with_overflow true s1) s' b); try done; right.
  - destruct (IH stack s Hm HR') as (new & s' & Hrun & A). exists new, s'. split; [done|]. apply scanned_skip; [|done].
    intros c _ <- Hk. destruct (m_kind _ _ Hm b Hb) as [E|[_ E] ]; [by rewrite E in Ek|done].
Qed.

(** A block with what it points to. *)
Lemma mark_block_run R stack s b : closed_set R -> marking s0 s -> (b < total)%nat -> R b ->
  exists new s', (n_blocks ← n_blocks_of b; ptrs ← words b (n_blocks * WORDS_PER_BLOCK); mark_children ptrs stack) s = Some (new ++ stack, s')
  /\ scanned R (chain_words s0 b) new s s'.
Proof.
  intros Hc Hm Hb HR. pose proof (marking_ok s Hm) as Hok.
  destruct (still_fields s (m_still _ _ Hm)) as (_ & Ep & _ & Et & _).
  rewrite (M_bind_Some _ _ _ _ _ (n_blocks_run s b Hok ltac:(by rewrite Et))). rewrite marking_clen by done.
  pose proof (clen_bound s0 b H0 Hb) as Hl.
  assert (Hw : (b * WORDS_PER_BLOCK + clen s0 b * WORDS_PER_BLOCK <= total_blocks s * WORDS_PER_BLOCK)%nat) by (rewrite Et; nia).
  rewrite (M_bind_Some _ _ _ _ _ (words_run s b _ (h_wf _ Hok) Hw)). rewrite Ep.
  apply mark_children_run; [done|]. intros c. by apply Hc.
Qed.

Lemma mark_loop_run R fuel block stack s :
  closed_set R -> marking s0 s -> (block < total)%nat /\ R block -> Forall (fun b => (b < total)%nat /\ R b) stack ->
  (unmarked s + length stack < fuel)%nat ->
  exists s', mark_loop fuel block stack s = Some (tt, s') /\ grows R s s'
  /\ (gc_stack_overflow s' = false -> forall b, (b < total)%nat -> b = block \/ b ∈ stack \/ (kind s' b = AT_MARK /\ kind s b <> AT_MARK) -> traced s' b).
Proof.
  intros HR. revert block stack s. induction fuel as [|fuel IH]; intros block stack s Hm [Hb HRb] Hst Hf; [lia|].
  destruct (mark_block_run R stack s block HR Hm Hb HRb) as (new & s1 & Hrun & A). cbn [mark_loop].
  pose proof (sc_grows _ _ _ _ _ A) as Hg. pose proof (sc_count _ _ _ _ _ A) as Hcnt.
  assert (Hblock : traced s1 block) by (intros c; apply (sc_marked _ _ _ _ _ A)).
  assert (E : forall k : list nat -> M gc_state unit, (n_blocks ← n_blocks_of block; ptrs ← words block (n_blocks * WORDS_PER_BLOCK);
     stack ← mark_children ptrs stack; k stack) s = k (new ++ stack) s1).
  { intros k. apply M_bind_inv in Hrun as (n & s2 & E1 & Hrun). apply M_bind_inv in Hrun as (ptrs & s3 & E2 & E3).
    by rewrite (M_bind_Some _ _ _ _ _ E1), (M_bind_Some _ _ _ _ _ E2), (M_bind_Some _ _ _ _ _ E3). }
  rewrite E. assert (Hall : Forall (fun b => (b < total)%nat /\ R b) (new ++ stack)) by (apply Forall_app; split; [apply A|done]).
  assert (Hpend : gc_stack_overflow s1 = false -> forall b, (b < total)%nat ->
    b = block \/ b ∈ stack \/ (kind s1 b = AT_MARK /\ kind s b <> AT_MARK) -> traced s1 b \/ b ∈ new ++ stack).
  { intros Ho b Hbt [->|[Hs|[Hk Hk'] ] ]; [by left|right; apply elem_of_app; by right|].
    destruct (sc_pending _ _ _ _ _ A b Hbt Hk) as [ | [ | ] ]; [done|right; apply elem_of_app; by left|congruence]. }
  assert (Hlen : (unmarked s1 + length (new ++ stack) < S fuel)%nat) by (rewrite length_app; lia).
  destruct (new ++ stack) as [|b' rest] eqn:Es.
  - exists s1. split; [done|]. split; [done|]. intros Ho b Hbt Hcase. destruct (Hpend Ho b Hbt Hcase) as [|Hin]; [done|].
    by apply elem_of_nil in Hin.
  - inversion Hall as [|? ? Hb' Hrest]; subst. cbn [length] in Hlen.
    destruct (IH b' rest s1 (g_marking _ _ _ Hg) Hb' Hrest ltac:(lia)) as (s' & Hrun' & Hg' & Htr).
    exists s'. split; [done|]. split; [by apply (grows_trans R s s1)|]. intros Ho b Hbt Hcase.
    assert (Ho1 : gc_stack_overflow s1 = false).
    { destruct (gc_stack_overflow s1) eqn:E1; [|done]. by rewrite (g_raised _ _ _ Hg' E1) in Ho. }
    assert (Hcase' : (b = block \/ b ∈ stack \/ (kind s1 b = AT_MARK /\ kind s b <> AT_MARK)) \/ (kind s' b = AT_MARK /\ kind s1 b <> AT_MARK)).
    { destruct Hcase as [ | [ | [Hk Hk'] ] ]; [by left; left|by left; right; left|].
      destruct (decide (kind s1 b = AT_MARK)); [by left; right; right|by right]. }
    destruct Hcase' as [Hc'|Hc']; [|apply Htr; [done|done|by right; right] ].
    destruct (Hpend Ho1 b Hbt Hc') as [Ht|Hin]; [by apply (traced_grows R s1)|].
    apply Htr; [done|done|]. apply elem_of_cons in Hin. tauto.
Qed.

Lemma mark_subtree_run R s b : closed_set R -> marking s0 s -> (b < total)%nat -> R b -> kind s b = AT_MARK ->
  exists s', gc_mark_subtree b s = Some (tt, s') /\ grows R s s'
  /\ (gc_stack_overflow s' = false -> forall c, (c < total)%nat -> c = b \/ (kind s' c = AT_MARK /\ kind s c <> AT_MARK) -> traced s' c).
Proof.
  intros HR Hm Hb HRb Hk. unfold gc_mark_subtree. rewrite (M_bind_Some mget _ s s s) by done.
  destruct (still_fields s (m_still _ _ Hm)) as (_ & _ & _ & Et & _). rewrite Et.
  destruct (mark_loop_run R (S total) b [] s HR Hm (conj Hb HRb)) as (s' & Hrun & Hg & Ht).
  - constructor.
  - pose proof (unmarked_le s). cbn [length]. lia.
  - exists s'. split; [done|]. split; [done|]. intros Ho c Hc Hcase. apply Ht; [done|done|]. tauto.
Qed.

(** Marks that are not traced yet are a matter of an overflow. *)
Definition pending_only (s s' : gc_state) : Prop :=
  gc_stack_overflow s' = false -> forall c, (c < total)%nat -> kind s' c = AT_MARK -> kind s c <> AT_MARK -> traced s' c.

Lemma pending_trans R s1 s2 s3 : grows R s2 s3 -> pending_only s1 s2 -> pending_only s2 s3 -> pending_only s1 s3.
Proof.
  intros B P1 P2 Ho c Hc Hk Hk1. destruct (decide (kind s2 c = AT_MARK)); [|by apply P2].
  apply (traced_grows R s2); [done|]. apply P1; [|done..].
  destruct (gc_stack_overflow s2) eqn:E; [|done]. by rewrite (g_raised _ _ _ B E) in Ho.
Qed.

Lemma collect_root_run R ptrs s : closed_set R -> marking s0 s -> (forall c, points_to s0 ptrs c -> R c) ->
  exists s', gc_collect_root ptrs s = Some (tt, s') /\ grows R s s' /\ pending_only s s'
  /\ (forall c, points_to s0 ptrs c -> kind s' c = AT_MARK).
Proof.
  intros HR. revert s. induction ptrs as [|ptr ptrs IH]; intros s Hm Hp.
  { exists s. split; [done|]. split; [by apply grows_refl|]. split; [by intros ? ? ?|].
    intros c (q & Hq & _). by apply elem_of_nil in Hq. }
  assert (Hp' : forall c, points_to s0 ptrs c -> R c) by (intros c (q & Hq & Hv); apply Hp; exists q; split; [by right|done]).
  assert (exists s1, (s ← mget; if VERIFY_PTR s ptr then (let block := BLOCK_FROM_PTR s ptr in
      k ← ATB_GET_KIND block; if k =? AT_HEAD then ATB_HEAD_TO_MARK block;; gc_mark_subtree block else mret tt) else mret tt) s = Some (tt, s1)
    /\ grows R s s1 /\ pending_only s s1 /\ (VERIFY_PTR s0 ptr = true -> kind s0 (BLOCK_FROM_PTR s0 ptr) = AT_HEAD -> kind s1 (BLOCK_FROM_PTR s0 ptr) = AT_MARK))
    as (s1 & Hrun1 & Hg1 & Hpd1 & Hmk1).
  { rewrite (M_bind_Some mget _ s s s) by done. destruct (still_fields s (m_still _ _ Hm)) as (_ & _ & _ & _ & HV & HB). rewrite HV, HB.
    destruct (VERIFY_PTR s0 ptr) eqn:Ev; [|exists s; split; [done|]; split; [by apply grows_refl|]; split; [by intros ? ? ?|done] ].
    pose proof (verify_block s0 ptr Ev) as Hb. set (b := BLOCK_FROM_PTR s0 ptr) in *. cbv zeta.
    rewrite (M_bind_Some _ _ _ _ _ (read_kind s b Hm Hb)). destruct (Z.eqb_spec (kind s b) AT_HEAD) as [Ek|Ek].
    - pose proof (marking_in_tables s b Hm Hb) as Hi.
      rewrite (M_bind_Some _ _ _ _ _ (head_to_mark_run s b (m_bytes _ _ Hm) Hi)).
      assert (HRb : R b) by (apply Hp; exists ptr; destruct (m_kind _ _ Hm b Hb) as [<-|[? _] ]; repeat split; try done; by left).
      pose proof (grows_put R s b Hm Hb Ek HRb) as Hg. set (s1 := put_kind b AT_MARK s) in *.
      assert (Hk1 : kind s1 b = AT_MARK) by (unfold s1; rewrite kind_put, decide_True by (try done; apply Hm); done).
      destruct (mark_subtree_run R s1 b HR (g_marking _ _ _ Hg) Hb HRb Hk1) as (s' & Hrun & Hg' & Ht).
      exists s'. split; [done|]. split; [by apply (grows_trans R s s1)|]. split; [|intros _ _; by apply (g_mono _ _ _ Hg')].
      intros Ho c Hc Hk Hk'. apply Ht; [done|done|]. destruct (decide (c = b)); [by left|]. right. split; [done|].
      unfold s1. rewrite kind_put, decide_False by (try done; apply Hm). done.
    - exists s. split; [done|]. split; [by apply grows_refl|]. split; [by intros ? ? ?|]. intros _ Hk.
      destruct (m_kind _ _ Hm b Hb) as [E|[_ E] ]; [by rewrite E in Ek|done]. }
  destruct (IH s1 (g_marking _ _ _ Hg1) Hp') as (s' & Hrun & Hg & Hpd & Hmk).
  exists s'. split.
  { cbn [gc_collect_root]. apply M_bind_inv in Hrun1 as (s2 & s3 & E1 & E2). rewrite (M_bind_Some _ _ _ _ _ E1).
    cbv beta in E2 |- *. rewrite (M_bind_Some _ _ _ _ _ E2). done. }
  split; [by apply (grows_trans R s s1)|]. split; [by apply (pending_trans R s s1)|].
  intros c (q & Hq & Hv & Hc & Hk). apply elem_of_cons in Hq. destruct Hq as [->|Hq].
  - apply (g_mono _ _ _ Hg); [rewrite <- Hc; by apply verify_block|]. rewrite <- Hc. apply Hmk1; [done|]. by rewrite Hc.
  - apply Hmk. by exists q.
Qed.

Lemma remark_run R s b : closed_set R -> marking s0 s -> (b < total)%nat -> (kind s b = AT_MARK -> R b) ->
  exists s', remark b s = Some (tt, s') /\ grows R s s' /\ pending_only s s'
  /\ (gc_stack_overflow s' = false -> kind s b = AT_MARK -> traced s' b).
Proof.
  intros HR Hm Hb HRb. unfold remark. rewrite (M_bind_Some _ _ _ _ _ (read_kind s b Hm Hb)).
  destruct (Z.eqb_spec (kind s b) AT_MARK) as [Ek|Ek].
  - destruct (mark_subtree_run R s b HR Hm Hb (HRb Ek) Ek) as (s' & Hrun & Hg & Ht). exists s'.
    split; [done|]. split; [done|]. split; [intros Ho c Hc Hk Hk'; apply Ht; [done|done|by right]|intros; apply Ht; [done|done|by left] ].
  - exists s. split; [done|]. split; [by apply grows_refl|]. split; [by intros ? ? ?|done].
Qed.

(** A scan of all blocks from [b] on *)
Lemma remark_blocks_run R n b s : closed_set R -> marking s0 s -> (b + n <= total)%nat ->
  (forall c, (c < total)%nat -> kind s c = AT_MARK -> R c) ->
  exists s', for_blocks n b remark s = Some (tt, s') /\ grows R s s' /\ pending_only s s'
  /\ (gc_stack_overflow s' = false -> forall c, (b <= c < b + n)%nat -> kind s' c = AT_MARK -> traced s' c).
Proof.
  intros HR. revert b s. induction n as [|n IH]; intros b s Hm Hb HRm.
  { exists s. split; [done|]. split; [by apply grows_refl|]. split; [by intros ? ? ?|]. intros; lia. }
  destruct (remark_run R s b HR Hm ltac:(lia) (HRm b ltac:(lia))) as (s1 & Hrun1 & Hg1 & Hp1 & Ht1).
  assert (HRm1 : forall c, (c < total)%nat -> kind s1 c = AT_MARK -> R c).
  { intros c Hc Hk. destruct (g_new _ _ _ Hg1 c Hc Hk); [by apply HRm|done]. }
  destruct (IH (S b) s1 (g_marking _ _ _ Hg1) ltac:(lia) HRm1) as (s' & Hrun & Hg & Hp & Ht).
  pose proof (pending_trans R s s1 s' Hg Hp1 Hp) as Hp'.
  exists s'. split; [cbn [for_blocks]; by rewrite (M_bind_Some _ _ _ _ _ Hrun1)|]. split; [by apply (grows_trans R s s1)|]. split; [done|].
  intros Ho c Hc Hk. destruct (decide (c = b)) as [->|]; [|apply Ht; [done|lia|done] ].
  destruct (decide (kind s b = AT_MARK)) as [Ek|]; [|apply Hp'; [done|lia|done|done] ].
  apply (traced_grows R s1); [done|]. apply Ht1; [|done].
  destruct (gc_stack_overflow s1) eqn:E; [|done]. by rewrite (g_raised _ _ _ Hg E) in Ho.
Qed.

(** The loop over overflows ends with every mark traced: each turn that is not the
    last marked a block. *)
Lemma overflow_loop_run R fuel s : closed_set R -> marking s0 s ->
  (forall c, (c < total)%nat -> kind s c = AT_MARK -> R c) ->
  (gc_stack_overflow s = false -> forall c, (c < total)%nat -> kind s c = AT_MARK -> traced s c) ->
  (gc_stack_overflow s = true -> (unmarked s < fuel)%nat) ->
  exists s', overflow_loop fuel s = Some (tt, s') /\ marking s0 s' /\ gc_stack_overflow s' = false
  /\ (forall c, (c < total)%nat -> kind s' c = AT_MARK -> R c /\ traced s' c)
  /\ (forall c, (c < total)%nat -> kind s c = AT_MARK -> kind s' c = AT_MARK).
Proof.
  intros HR. revert s. induction fuel as [|fuel IH]; intros s Hm HRm Ht Hf;
    destruct (gc_stack_overflow s) eqn:Eo; cbn [overflow_loop]; rewrite (M_bind_Some mget _ s s s) by done; rewrite Eo.
  1: specialize (Hf eq_refl); lia.
  1, 3: exists s; split; [done|]; split; [done|]; split; [done|]; split; [|done]; intros c Hc Hk; split; [by apply HRm|by apply Ht].
  set (s1 := with_overflow false s). rewrite (M_bind_Some (mput s1) _ s tt s1) by done.
  assert (Hm1 : marking s0 s1) by by apply marking_overflow.
  destruct (remark_blocks_run R total 0 s1 HR Hm1 ltac:(lia) HRm) as (s2 & Hrun & Hg & _ & Ht2).
  assert (Hall : all_blocks remark s1 = Some (tt, s2)).
  { unfold all_blocks. rewrite (M_bind_Some mget _ s1 s1 s1) by done.
    destruct (still_fields s1 (m_still _ _ Hm1)) as (_ & _ & _ & -> & _). done. }
  rewrite (M_bind_Some _ _ _ _ _ Hall).
  destruct (IH s2 (g_marking _ _ _ Hg)) as (s' & Hrun' & Hm' & Ho' & HRt & Hmono).
  - intros c Hc Hk. destruct (g_new _ _ _ Hg c Hc Hk); [by apply HRm|done].
  - intros Ho c Hc Hk. apply Ht2; [done|lia|done].
  - intros Ho. destruct (g_raise _ _ _ Hg Ho) as [E|Hl]; [by inversion E|]. specialize (Hf eq_refl).
    change (unmarked s1) with (unmarked s) in Hl. lia.
  - exists s'. split; [done|]. split; [done|]. split; [done|]. split; [done|]. intros c Hc Hk. apply Hmono; [done|].
    by apply (g_mono _ _ _ Hg).
Qed.

End Heap.
End Mark.
