(* ===== verification/GcSweep.v ===== *)
(** The finaliser table of [Gc], and sweeping: which blocks are freed, which objects
    are finalised, and that no mark stays. *)
From S2P Require Import Prelude Gc GcSpec.

(** ** Bits of a byte, by computation over all bytes *)

Definition bits_ok (a : Z) (i j : nat) : bool :=
  let clr := Z.land a (Z.lnot (Z.shiftl 1 (Z.of_nat i))) in
  let set := Z.lor a (Z.shiftl 1 (Z.of_nat i)) in
  (eqb (Z.testbit clr (Z.of_nat j)) (if (i =? j)%nat then false else Z.testbit a (Z.of_nat j)) && (0 <=? clr) && (clr <? 256)
   && eqb (Z.testbit set (Z.of_nat j)) (if (i =? j)%nat then true else Z.testbit a (Z.of_nat j)) && (0 <=? set) && (set <? 256))%bool.

Lemma all_bits_ok : forallb (fun a => forallb (fun i => forallb (bits_ok a i) (seq 0 8)) (seq 0 8)) (map Z.of_nat (seq 0 256)) = true.
Proof. vm_compute. reflexivity. Qed.

Lemma bits_ok_all a i j : 0 <= a < 256 -> bits_ok a (i mod 8) (j mod 8) = true.
Proof.
  intros Ha. pose proof all_bits_ok as H. rewrite forallb_forall in H. specialize (H a). rewrite forallb_forall in H.
  assert (Hi : In (i mod 8)%nat (seq 0 8)) by (apply in_seq; pose proof (Nat.mod_upper_bound i 8); lia).
  assert (Hj : In (j mod 8)%nat (seq 0 8)) by (apply in_seq; pose proof (Nat.mod_upper_bound j 8); lia).
  assert (Hin : In a (map Z.of_nat (seq 0 256))) by (apply in_map_iff; exists (Z.to_nat a); split; [lia|apply in_seq; lia]).
  specialize (H Hin _ Hi). rewrite forallb_forall in H. exact (H _ Hj).
Qed.

Definition bit_put (v : bool) (block : nat) (a : Z) : Z :=
  if v then Z.lor a (Z.shiftl 1 (ftb_bit block)) else Z.land a (Z.lnot (Z.shiftl 1 (ftb_bit block))).

Lemma bit_put_spec v i j a : 0 <= a < 256 ->
  Z.testbit (bit_put v i a) (ftb_bit j) = (if (i mod 8 =? j mod 8)%nat then v else Z.testbit a (ftb_bit j)) /\ 0 <= bit_put v i a < 256.
Proof.
  intros Ha. pose proof (bits_ok_all a i j Ha) as H. unfold bits_ok in H. fold (ftb_bit i) (ftb_bit j) in H.
  rewrite !andb_true_iff in H. rewrite !eqb_true_iff, !Z.leb_le, !Z.ltb_lt in H. unfold bit_put. destruct v; tauto.
Qed.

Section Sweep.
Context {cfg : GcCfg}.
Implicit Types s : gc_state.

(** ** Finaliser bits *)

Definition ftb s (b : nat) : bool :=
  match gc_tables s !! (gc_alloc_table_byte_len s + b / 8)%nat with Some a => Z.testbit a (ftb_bit b) | None => false end.

Definition put_ftb (b : nat) (v : bool) s : gc_state :=
  with_tables (alter (bit_put v b) (gc_alloc_table_byte_len s + b / 8)%nat (gc_tables s)) s.

Lemma ftb_byte s b : heap_wf s -> (b < total_blocks s)%nat ->
  exists a, gc_tables s !! (gc_alloc_table_byte_len s + b / 8)%nat = Some a /\ 0 <= a < 256.
Proof.
  intros Hw Hb. assert (Hl : (gc_alloc_table_byte_len s + b / 8 < length (gc_tables s))%nat).
  { rewrite <- (h_len _ Hw). unfold total_blocks, BLOCKS_PER_ATB in Hb. apply Nat.add_lt_mono_l.
    apply (Nat.lt_le_trans _ (S (b / 8))); [lia|]. apply Nat.div_le_lower_bound; [lia|].
    pose proof (Nat.div_mod_eq b 8). pose proof (Nat.mod_upper_bound b 8). lia. }
  destruct (lookup_lt_is_Some_2 _ _ Hl) as [a Ha]. exists a. split; [done|]. exact (Forall_lookup_1 _ _ _ _ (h_bytes _ Hw) Ha).
Qed.

Lemma kind_put_ftb s b v c : (c < total_blocks s)%nat -> kind (put_ftb b v s) c = kind s c.
Proof.
  intros Hc. unfold kind, put_ftb. cbn [gc_tables with_tables]. rewrite list_lookup_alter_ne; [done|].
  unfold total_blocks, BLOCKS_PER_ATB in Hc.
  assert (c / 4 < gc_alloc_table_byte_len s)%nat by (apply Nat.Div0.div_lt_upper_bound; lia). lia.
Qed.

Lemma put_ftb_wf s b v : heap_wf s -> heap_wf (put_ftb b v s).
Proof.
  intros Hw. unfold put_ftb. constructor; cbn [gc_tables with_tables gc_alloc_table_byte_len gc_pool gc_pool_start];
    rewrite ?length_alter; try apply Hw. unfold tables_ok. cbn [gc_tables with_tables]. apply Forall_alter; [apply Hw|].
  intros a _ Ha. by apply bit_put_spec.
Qed.

Lemma put_kind_wf s b k : heap_wf s -> (b < total_blocks s)%nat -> 0 <= k < 4 -> heap_wf (put_kind b k s).
Proof.
  intros Hw Hb Hk. constructor; try apply Hw.
  - apply put_kind_bytes; [apply Hw|apply heap_in_tables; [done|lia]|done].
  - rewrite put_kind_tables. apply Hw.
Qed.

Lemma same_bit b c : (b / 8 = c / 8)%nat -> (b mod 8 = c mod 8)%nat -> b = c.
Proof. intros H1 H2. rewrite (Nat.div_mod_eq b 8), (Nat.div_mod_eq c 8). congruence. Qed.

Lemma ftb_put_ftb s b v c : heap_wf s -> (b < total_blocks s)%nat -> ftb (put_ftb b v s) c = if decide (c = b) then v else ftb s c.
Proof.
  intros Hw Hb. destruct (ftb_byte s b Hw Hb) as (a & Ea & Ha). unfold ftb, put_ftb. cbn [gc_tables with_tables gc_alloc_table_byte_len].
  destruct (bit_put_spec v b c a Ha) as [Hbit _]. destruct (decide (b / 8 = c / 8)%nat) as [Ed|Hd].
  - rewrite <- Ed, list_lookup_alter_eq, Ea. cbn [fmap option_fmap option_map]. rewrite Hbit.
    destruct (Nat.eqb_spec (b mod 8) (c mod 8)) as [Em|Hm].
    + rewrite decide_True; [done|]. symmetry. by apply same_bit.
    + rewrite decide_False; [done|]. by intros ->.
  - rewrite list_lookup_alter_ne by lia. rewrite decide_False; [done|]. by intros ->.
Qed.

Lemma ftb_put_kind s b k c : (b < total_blocks s)%nat -> ftb (put_kind b k s) c = ftb s c.
Proof.
  intros Hb. unfold ftb, put_kind. cbn [gc_tables with_tables gc_alloc_table_byte_len]. rewrite list_lookup_alter_ne; [done|].
  unfold total_blocks, BLOCKS_PER_ATB in Hb.
  assert (b / 4 < gc_alloc_table_byte_len s)%nat by (apply Nat.Div0.div_lt_upper_bound; lia). lia.
Qed.

Lemma ftb_get_run s b : heap_wf s -> (b < total_blocks s)%nat -> FTB_GET b s = Some (ftb s b, s).
Proof.
  intros Hw Hb. destruct (ftb_byte s b Hw Hb) as (a & Ea & _). unfold FTB_GET, ftb, BLOCKS_PER_FTB.
  rewrite (M_bind_Some mget _ s s s) by done. by rewrite Ea.
Qed.

Lemma ftb_put_run s b (v : bool) : heap_wf s -> (b < total_blocks s)%nat ->
  (if v then FTB_SET b else FTB_CLEAR b) s = Some (tt, put_ftb b v s).
Proof.
  intros Hw Hb. destruct (ftb_byte s b Hw Hb) as (a & Ea & _). unfold FTB_SET, FTB_CLEAR, table_update, BLOCKS_PER_FTB, put_ftb.
  destruct v; rewrite !(M_bind_Some mget _ s s s) by done; rewrite Ea; done.
Qed.

(** ** One block *)

(** The object at [b] is finalised: it has the bit and a type. *)
Definition has_del s (b : nat) : bool :=
  ftb s b && match gc_pool s !! (b * WORDS_PER_BLOCK)%nat with Some w => negb (w =? 0) | None => false end.

(** All but the tables and the log. *)
Definition steady s : gc_state :=
  MkGc [] (gc_alloc_table_byte_len s) (gc_pool s) (gc_pool_start s) (gc_last_free_atb_index s) (gc_lock_depth s)
    (gc_auto_collect_enabled s) (gc_alloc_threshold s) (gc_alloc_amount s) (gc_stack_overflow s) [].

Lemma steady_fields s s' : steady s' = steady s -> gc_alloc_table_byte_len s' = gc_alloc_table_byte_len s
  /\ gc_pool s' = gc_pool s /\ total_blocks s' = total_blocks s.
Proof. intros E. injection E. intros. split_and!; try done. unfold total_blocks. congruence. Qed.

Lemma first_word s b : heap_wf s -> (b < total_blocks s)%nat ->
  exists w, gc_pool s !! (b * WORDS_PER_BLOCK)%nat = Some w /\ words b 1 s = Some ([w], s).
Proof.
  intros Hw Hb. pose proof words_per_block_pos as HW.
  assert (Hl : (b * WORDS_PER_BLOCK + 1 <= total_blocks s * WORDS_PER_BLOCK)%nat) by nia.
  rewrite (words_run s b 1 Hw Hl). rewrite <- (h_pool _ Hw) in Hl.
  destruct (lookup_lt_is_Some_2 (gc_pool s) (b * WORDS_PER_BLOCK)) as [w E]; [lia|]. exists w. split; [done|].
  by rewrite (drop_S _ _ _ E).
Qed.

Lemma finalise_run s b : heap_wf s -> (b < total_blocks s)%nat ->
  exists s', gc_finalise b s = Some (tt, s') /\ heap_wf s' /\ steady s' = steady s
  /\ (forall c, (c < total_blocks s)%nat -> kind s' c = kind s c)
  /\ (forall c, ftb s' c = if decide (c = b) then false else ftb s c)
  /\ finalised s' = finalised s ++ (if has_del s b then [b] else []).
Proof.
  intros Hw Hb. unfold gc_finalise, has_del. rewrite (M_bind_Some _ _ _ _ _ (ftb_get_run s b Hw Hb)).
  destruct (ftb s b) eqn:Ef.
  2:{ exists s. split; [done|]. split; [done|]. split; [done|]. split; [done|].
      split; [intros c; case_decide; congruence|]. cbn. by rewrite app_nil_r. }
  destruct (first_word s b Hw Hb) as (w & E & Hrun). rewrite (M_bind_Some _ _ _ _ _ Hrun), E. cbn [andb].
  set (s1 := if negb (w =? 0) then with_finalised b s else s).
  assert (Hw1 : heap_wf s1) by (unfold s1; destruct (negb (w =? 0)); [by constructor; apply Hw|done]).
  assert (Ht1 : gc_tables s1 = gc_tables s /\ gc_alloc_table_byte_len s1 = gc_alloc_table_byte_len s /\ steady s1 = steady s)
    by (unfold s1; destruct (negb (w =? 0)); done).
  destruct Ht1 as (Ht1 & El1 & Est1). assert (Hb1 : (b < total_blocks s1)%nat) by (unfold total_blocks; by rewrite El1).
  rewrite (M_bind_Some _ _ s tt s1) by (unfold s1; destruct (negb (w =? 0)); done).
  rewrite (ftb_put_run s1 b false Hw1 Hb1).
  exists (put_ftb b false s1). split; [done|]. split; [by apply put_ftb_wf|]. split; [done|]. split; [|split].
  - intros c Hc. rewrite kind_put_ftb by (unfold total_blocks; by rewrite El1). unfold kind. by rewrite Ht1.
  - intros c. rewrite ftb_put_ftb by done. case_decide; [done|]. unfold ftb. by rewrite Ht1, El1.
  - unfold s1. destruct (negb (w =? 0)); [done|]. cbn. by rewrite app_nil_r.
Qed.

(** ** The sweep *)

(** What becomes of a block. *)
Definition swept_kind (k : Z) (free_tail : bool) : Z :=
  if k =? AT_HEAD then AT_FREE else if k =? AT_TAIL then (if free_tail then AT_FREE else AT_TAIL)
  else if k =? AT_MARK then AT_HEAD else k.

Definition next_free_tail (k : Z) (free_tail : bool) : bool :=
  if k =? AT_HEAD then true else if k =? AT_MARK then false else free_tail.

(** The step from [s] to [s'] at block [b]. *)
Record swept_one (b : nat) (k : Z) s s' : Prop := {
  o_wf : heap_wf s';
  o_steady : steady s' = steady s;
  o_kind c : (c < total_blocks s)%nat -> kind s' c = if decide (c = b) then k else kind s c;
  o_ftb c : ftb s' c = ftb s c && negb (bool_decide (c = b) && (kind s b =? AT_HEAD));
  o_log : finalised s' = finalised s ++ (if (kind s b =? AT_HEAD) && has_del s b then [b] else []) }.

Lemma swept_put s b k : heap_wf s -> (b < total_blocks s)%nat -> 0 <= k < 4 -> kind s b <> AT_HEAD -> swept_one b k s (put_kind b k s).
Proof.
  intros Hw Hb Hk Hh. pose proof (heap_in_tables s b Hw ltac:(lia)). apply Z.eqb_neq in Hh. constructor.
  - by apply put_kind_wf.
  - done.
  - intros c _. apply kind_put; [apply Hw|done|done].
  - intros c. by rewrite ftb_put_kind, Hh, andb_false_r, andb_true_r.
  - rewrite Hh. cbn. by rewrite app_nil_r.
Qed.

Lemma swept_id s b : heap_wf s -> kind s b <> AT_HEAD -> swept_one b (kind s b) s s.
Proof.
  intros Hw Hh. apply Z.eqb_neq in Hh. constructor; [done|done| | |].
  - intros c _. by case_decide; subst.
  - intros c. by rewrite Hh, andb_false_r, andb_true_r.
  - rewrite Hh. cbn. by rewrite app_nil_r.
Qed.

Lemma sweep_step n b ft s : heap_wf s -> (b < total_blocks s)%nat ->
  exists s1, sweep_loop (S n) b ft s = sweep_loop n (S b) (next_free_tail (kind s b) ft) s1
  /\ swept_one b (swept_kind (kind s b) ft) s s1.
Proof.
  intros Hw Hb. pose proof (heap_in_tables s b Hw ltac:(lia)) as Hi. cbn [sweep_loop].
  rewrite (M_bind_Some _ _ _ _ _ (get_kind_run s b Hi)). unfold swept_kind, next_free_tail.
  destruct (Z.eqb_spec (kind s b) AT_HEAD) as [Eh|Eh].
  { destruct (finalise_run s b Hw Hb) as (s1 & Hrun & Hw1 & Hst & Hk & Hf & Hl).
    destruct (steady_fields _ _ Hst) as (_ & _ & Et). rewrite (M_bind_Some _ _ _ _ _ Hrun).
    assert (Hb1 : (b < total_blocks s1)%nat) by (by rewrite Et). pose proof (heap_in_tables s1 b Hw1 ltac:(lia)) as Hi1.
    rewrite (M_bind_Some _ _ _ _ _ (any_to_free_run s1 b (h_bytes _ Hw1) Hi1)).
    exists (put_kind b AT_FREE s1). split; [done|]. constructor.
    - by apply put_kind_wf.
    - done.
    - intros c Hc. rewrite kind_put by (try done; apply Hw1). case_decide; [done|by apply Hk].
    - intros c. rewrite ftb_put_kind, Hf, Eh by done. case_decide; [subst; rewrite bool_decide_eq_true_2 by done|rewrite bool_decide_eq_false_2 by done].
      + by rewrite andb_false_r.
      + by rewrite andb_true_r.
    - rewrite Eh. done. }
  destruct (Z.eqb_spec (kind s b) AT_TAIL) as [Et|Et].
  { destruct (Z.eqb_spec (kind s b) AT_MARK) as [Em|_]; [rewrite Et in Em; by inversion Em|]. destruct ft.
    - rewrite (M_bind_Some _ _ _ _ _ (any_to_free_run s b (h_bytes _ Hw) Hi)). eexists. split; [done|]. by apply swept_put.
    - exists s. split; [done|]. rewrite <- Et. by apply swept_id. }
  destruct (Z.eqb_spec (kind s b) AT_MARK) as [Em|Em].
  - rewrite (M_bind_Some _ _ _ _ _ (mark_to_head_run s b (h_bytes _ Hw) Hi Em)). eexists. split; [done|]. by apply swept_put.
  - exists s. split; [done|]. by apply swept_id.
Qed.

(** The sweep of the blocks [b] .. [b + n - 1]. *)
Record swept (b n : nat) (ft : bool) s s' : Prop := {
  sw_wf : heap_wf s';
  sw_steady : steady s' = steady s;
  sw_out c : (c < total_blocks s)%nat -> ~ (b <= c < b + n)%nat -> kind s' c = kind s c;
  sw_head c : (b <= c < b + n)%nat -> kind s c = AT_HEAD -> kind s' c = AT_FREE;
  sw_mark c : (b <= c < b + n)%nat -> kind s c = AT_MARK -> kind s' c = AT_HEAD;
  sw_free c : (b <= c < b + n)%nat -> kind s c = AT_FREE -> kind s' c = AT_FREE;
  sw_first m : (m < n)%nat -> (forall i, (i <= m)%nat -> kind s (b + i) = AT_TAIL) ->
    kind s' (b + m) = if ft then AT_FREE else AT_TAIL;
  sw_tail h m : (b <= h)%nat -> (h + m < b + n)%nat -> (0 < m)%nat -> kind s h = AT_HEAD \/ kind s h = AT_MARK ->
    (forall i, (1 <= i <= m)%nat -> kind s (h + i) = AT_TAIL) ->
    kind s' (h + m) = if kind s h =? AT_HEAD then AT_FREE else AT_TAIL;
  sw_ftb c : ftb s' c = ftb s c && negb (bool_decide (b <= c < b + n)%nat && (kind s c =? AT_HEAD));
  sw_log : finalised s' = finalised s ++ filter (fun c => kind s c = AT_HEAD /\ has_del s c = true) (seq b n) }.

Lemma swept_nil b ft s : heap_wf s -> swept b 0 ft s s.
Proof.
  intros Hw. constructor; try done; try (intros; lia).
  - intros c. rewrite bool_decide_eq_false_2 by lia. by rewrite andb_true_r.
  - cbn. by rewrite app_nil_r.
Qed.

Lemma swept_one_kind b k s s1 c : swept_one b k s s1 -> (c < total_blocks s)%nat -> c <> b -> kind s1 c = kind s c.
Proof. intros A Hc Hne. rewrite (o_kind _ _ _ _ A) by done. by rewrite decide_False. Qed.

Lemma has_del_one b k s s1 c : swept_one b k s s1 -> c <> b -> has_del s1 c = has_del s c.
Proof.
  intros A Hne. unfold has_del. destruct (steady_fields _ _ (o_steady _ _ _ _ A)) as (_ & -> & _).
  rewrite (o_ftb _ _ _ _ A), bool_decide_eq_false_2 by done. by rewrite andb_true_r.
Qed.

Lemma swept_cons b n ft s s1 s' : (b + S n <= total_blocks s)%nat ->
  swept_one b (swept_kind (kind s b) ft) s s1 -> swept (S b) n (next_free_tail (kind s b) ft) s1 s' -> swept b (S n) ft s s'.
Proof.
  intros Hn A B. destruct (steady_fields _ _ (o_steady _ _ _ _ A)) as (El & Ep & Et).
  assert (Hk1 : forall c, (c < total_blocks s)%nat -> c <> b -> kind s1 c = kind s c) by (intros; by apply (swept_one_kind b _ s s1 c A)).
  assert (Hb : kind s' b = swept_kind (kind s b) ft).
  { rewrite (sw_out _ _ _ _ _ B), (o_kind _ _ _ _ A), decide_True by lia. done. }
  assert (Hin : forall c, (b <= c < b + S n)%nat -> c <> b -> (S b <= c < S b + n)%nat) by lia.
  constructor.
  - apply B.
  - rewrite (sw_steady _ _ _ _ _ B). apply A.
  - intros c Hc Ho. rewrite (sw_out _ _ _ _ _ B), Hk1 by lia. done.
  - intros c Hc Hk. destruct (decide (c = b)) as [->|Hne]; [by rewrite Hb, Hk|].
    apply (sw_head _ _ _ _ _ B); [by apply Hin|]. by rewrite Hk1 by lia.
  - intros c Hc Hk. destruct (decide (c = b)) as [->|Hne]; [by rewrite Hb, Hk|].
    apply (sw_mark _ _ _ _ _ B); [by apply Hin|]. by rewrite Hk1 by lia.
  - intros c Hc Hk. destruct (decide (c = b)) as [->|Hne]; [by rewrite Hb, Hk|].
    apply (sw_free _ _ _ _ _ B); [by apply Hin|]. by rewrite Hk1 by lia.
  - intros m Hm Ht. destruct m as [|m]; [pose proof (Ht 0%nat ltac:(lia)) as H0; rewrite Nat.add_0_r in H0 |- *; by rewrite Hb, H0|].
    pose proof (Ht 0%nat ltac:(lia)) as H0. rewrite Nat.add_0_r in H0.
    pose proof (sw_first _ _ _ _ _ B m ltac:(lia)) as HB. rewrite Nat.add_succ_r. change (S (b + m)) with (S b + m)%nat.
    rewrite HB by (intros i Hi; rewrite Hk1 by lia; replace (S b + i)%nat with (b + S i)%nat by lia; apply Ht; lia). by rewrite H0.
  - intros h m Hh Hhm Hm Hk Ht. destruct (decide (h = b)) as [->|Hne].
    + destruct m as [|m]; [lia|]. pose proof (sw_first _ _ _ _ _ B m ltac:(lia)) as HB. rewrite Nat.add_succ_r.
      change (S (b + m)) with (S b + m)%nat.
      rewrite HB by (intros i Hi; rewrite Hk1 by lia; replace (S b + i)%nat with (b + S i)%nat by lia; apply Ht; lia).
      unfold next_free_tail. by destruct Hk as [-> | ->].
    + rewrite (sw_tail _ _ _ _ _ B h m).
      * by rewrite Hk1 by lia.
      * lia.
      * lia.
      * done.
      * by rewrite Hk1 by lia.
      * intros i Hi. rewrite Hk1 by lia. by apply Ht.
  - intros c. rewrite (sw_ftb _ _ _ _ _ B), (o_ftb _ _ _ _ A). destruct (decide (c = b)) as [->|Hne].
    + rewrite (bool_decide_eq_true_2 (b = b)), (bool_decide_eq_false_2 (S b <= b < S b + n)%nat), (bool_decide_eq_true_2 (b <= b < b + S n)%nat) by lia.
      by rewrite andb_true_r.
    + rewrite (bool_decide_eq_false_2 (c = b)), andb_true_r by done.
      destruct (decide (b <= c < b + S n)%nat) as [Hc|Hc].
      * rewrite !bool_decide_eq_true_2 by lia. by rewrite Hk1 by lia.
      * rewrite !bool_decide_eq_false_2 by lia. done.
  - rewrite (sw_log _ _ _ _ _ B), (o_log _ _ _ _ A), <- app_assoc. f_equal. cbn [seq]. rewrite list.filter_cons.
    assert (E : filter (fun c => kind s1 c = AT_HEAD /\ has_del s1 c = true) (seq (S b) n)
              = filter (fun c => kind s c = AT_HEAD /\ has_del s c = true) (seq (S b) n)).
    { assert (Hall : Forall (fun c => S b <= c < S b + n)%nat (seq (S b) n)) by (apply Forall_forall; intros c Hc; by apply in_seq in Hc).
      induction Hall as [|c l Hc _ IH]; [done|]. rewrite !list.filter_cons, IH. rewrite !Hk1 by lia.
      by rewrite (has_del_one b _ s s1 c A) by lia. }
    rewrite E. destruct (Z.eqb_spec (kind s b) AT_HEAD), (has_del s b); cbn [andb]; clear Hin Hk1 Hb E A B; case_decide; naive_solver.
Qed.

Lemma sweep_run n b ft s : heap_wf s -> (b + n <= total_blocks s)%nat ->
  exists s', sweep_loop n b ft s = Some (tt, s') /\ swept b n ft s s'.
Proof.
  revert b ft s. induction n as [|n IH]; intros b ft s Hw Hn; [exists s; split; [done|by apply swept_nil]|].
  destruct (sweep_step n b ft s Hw ltac:(lia)) as (s1 & -> & A).
  destruct (steady_fields _ _ (o_steady _ _ _ _ A)) as (_ & _ & Et).
  destruct (IH (S b) (next_free_tail (kind s b) ft) s1 (o_wf _ _ _ _ A) ltac:(rewrite Et; lia)) as (s' & -> & B).
  exists s'. split; [done|]. by apply (swept_cons b n ft s s1 s').
Qed.

Lemma gc_sweep_run s : heap_wf s -> exists s', gc_sweep s = Some (tt, s') /\ swept 0 (total_blocks s) false s s'.
Proof. intros Hw. unfold gc_sweep. rewrite (M_bind_Some mget _ s s s) by done. by apply sweep_run. Qed.

End Sweep.
