(* ===== verification/GcThms.v ===== *)
(** Collection in [Gc]: what a collection keeps is exactly what is reachable from the
    roots, however small the mark stack is. *)
From S2P Require Import Prelude Gc GcSpec GcMark GcSweep.

Section Collect.
Context {cfg : GcCfg}.
Implicit Types s : gc_state.

(** Between collections no block is marked. *)
Definition unmarked_heap s : Prop := forall b, (b < total_blocks s)%nat -> kind s b <> AT_MARK.

(** Every block that is not free belongs to a chain. *)
Lemma chain_of s b : heap_ok s -> unmarked_heap s -> (b < total_blocks s)%nat -> kind s b <> AT_FREE ->
  exists h, kind s h = AT_HEAD /\ (h <= b < h + clen s h)%nat.
Proof.
  intros H Hm. induction b as [|b IH]; intros Hb Hk; pose proof (kind_range s _ (h_bytes _ (h_wf _ H)) (heap_in_tables s _ (h_wf _ H) (Nat.lt_le_incl _ _ Hb))) as Hr;
    pose proof (Hm _ Hb) as Hnm; unfold AT_FREE, AT_HEAD, AT_TAIL, AT_MARK in *.
  - exists 0%nat. pose proof (h_first _ H). unfold AT_TAIL in *. unfold clen. split; lia.
  - destruct (decide (kind s (S b) = 2)) as [Et|]; [|exists (S b); unfold clen; split; lia].
    pose proof (h_tail _ H b Hb Et) as Hf. unfold AT_FREE in Hf. destruct (IH ltac:(lia) Hf) as (h & Eh & Hh). exists h. split; [done|].
    destruct (decide (S b < h + clen s h)%nat); [lia|]. exfalso. apply (clen_end s h H ltac:(lia)).
    by replace (h + clen s h)%nat with (S b) by lia.
Qed.

(** What a collection reads of a state *)
Definition same_heap s s' : Prop :=
  gc_tables s' = gc_tables s /\ gc_alloc_table_byte_len s' = gc_alloc_table_byte_len s /\ gc_pool s' = gc_pool s /\ gc_pool_start s' = gc_pool_start s.

Lemma same_heap_facts s s' : same_heap s s' -> total_blocks s' = total_blocks s /\ (forall b, kind s' b = kind s b)
  /\ (forall b, clen s' b = clen s b) /\ (forall b, ftb s' b = ftb s b) /\ (forall ptrs c, points_to s' ptrs c <-> points_to s ptrs c).
Proof.
  intros (Et & El & Ep & Es). assert (Ett : total_blocks s' = total_blocks s) by (unfold total_blocks; by rewrite El).
  assert (Ek : forall b, kind s' b = kind s b) by (intros b; unfold kind; by rewrite Et).
  split_and!; [done|done| | |].
  - intros b. unfold clen. rewrite Ett. f_equal. apply tails_ext. intros. by rewrite Ek.
  - intros b. unfold ftb. by rewrite Et, El.
  - intros ptrs c. unfold points_to, VERIFY_PTR, BLOCK_FROM_PTR, gc_pool_end. by setoid_rewrite Ek; rewrite Ett, Es.
Qed.

Lemma same_heap_ok s s' : same_heap s s' -> heap_ok s -> heap_ok s'.
Proof.
  intros E H. destruct (same_heap_facts s s' E) as (Ett & Ek & _). destruct E as (Et & El & Ep & Es). pose proof (h_wf _ H) as Hw.
  constructor; rewrite ?Ett, ?Ek; try apply H.
  - constructor; rewrite ?Ett, ?El, ?Ep, ?Es, ?Et; try apply Hw. unfold tables_ok. rewrite Et. apply Hw.
  - intros b. rewrite !Ek. apply H.
Qed.

Lemma same_heap_reachable s s' roots c : same_heap s s' -> reachable s' roots c <-> reachable s roots c.
Proof.
  intros E. destruct (same_heap_facts s s' E) as (_ & _ & Ec & _ & Ep). destruct E as (_ & _ & Epool & _).
  assert (Ew : forall b, chain_words s' b = chain_words s b) by (intros b; unfold chain_words; by rewrite Ec, Epool).
  split; induction 1 as [c Hp|b c _ IH Hp].
  - apply reach_root. by apply Ep.
  - apply (reach_child _ _ b); [done|]. apply Ep. by rewrite <- Ew.
  - apply reach_root. by apply Ep.
  - apply (reach_child _ _ b); [done|]. apply Ep. by rewrite Ew.
Qed.

Lemma reachable_head s roots c : reachable s roots c -> (c < total_blocks s)%nat /\ kind s c = AT_HEAD.
Proof. intros [? Hp|? ? _ Hp]; (split; [by apply (points_to_block s _ _ Hp)|by destruct Hp as (? & _ & _ & _ & ?)]). Qed.

(** ** Marking from the roots *)

(** All that is reachable, and only that, is marked in [s']. *)
Definition marked_exactly s roots s' : Prop :=
  marking s s' /\ forall b, (b < total_blocks s)%nat -> kind s' b = AT_MARK <-> reachable s roots b.

Lemma mark_phase_run roots s : heap_ok s -> unmarked_heap s -> gc_stack_overflow s = false ->
  exists s', (gc_collect_root roots;; gc_deal_with_stack_overflow) s = Some (tt, s') /\ marked_exactly s roots s'.
Proof.
  intros H Hu Ho. set (R := reachable s roots).
  assert (HR : closed_set s R) by (intros b c Hb Hp; by apply (reach_child _ _ b)).
  destruct (collect_root_run s H R roots s HR (marking_refl s H)) as (s1 & Hrun1 & Hg & Hpd & Hroots); [by apply reach_root|].
  pose proof (g_marking _ _ _ _ Hg) as Hm1. destruct (still_fields s s1 (m_still _ _ Hm1)) as (_ & _ & _ & Et & _).
  assert (HR1 : forall c, (c < total_blocks s)%nat -> kind s1 c = AT_MARK -> R c).
  { intros c Hc Hk. destruct (g_new _ _ _ _ Hg c Hc Hk) as [Hk'|]; [|done]. by destruct (Hu c Hc). }
  destruct (overflow_loop_run s H R (S (total_blocks s1)) s1 HR Hm1 HR1) as (s' & Hrun & Hm & _ & HRt & Hmono).
  - intros Ho1 c Hc Hk. apply Hpd; [done|done|done|by apply Hu].
  - intros _. pose proof (unmarked_le s s1). rewrite Et. lia.
  - exists s'. split.
    { rewrite (M_bind_Some _ _ _ _ _ Hrun1). unfold gc_deal_with_stack_overflow. by rewrite (M_bind_Some mget _ s1 s1 s1) by done. }
    split; [done|]. intros b Hb. split; [intros Hk; by apply HRt|]. clear Hb. induction 1 as [c Hp|b c Hr IH Hp].
    + apply Hmono; [by apply (points_to_block s _ _ Hp)|by apply Hroots].
    + destruct (reachable_head _ _ _ Hr) as [Hb _]. destruct (HRt b Hb IH) as [_ Ht]. by apply Ht.
Qed.

(** ** The whole collection *)

Record collected (roots : list Z) s s' : Prop := {
  c_wf : heap_wf s';
  c_still : gc_alloc_table_byte_len s' = gc_alloc_table_byte_len s /\ gc_pool s' = gc_pool s /\ gc_pool_start s' = gc_pool_start s
    /\ gc_auto_collect_enabled s' = gc_auto_collect_enabled s;
  c_last : gc_last_free_atb_index s' = 0%nat;
  c_free b : (b < total_blocks s)%nat -> kind s b = AT_FREE -> kind s' b = AT_FREE;
  c_kept h i : reachable s roots h -> (i < clen s h)%nat -> kind s' (h + i) = kind s (h + i);
  c_freed h i : (h < total_blocks s)%nat -> kind s h = AT_HEAD -> ~ reachable s roots h -> (i < clen s h)%nat -> kind s' (h + i) = AT_FREE;
  c_dec h : (h < total_blocks s)%nat -> reachable s roots h \/ ~ reachable s roots h;
  c_ftb b : (b < total_blocks s)%nat -> ftb s' b = true <-> ftb s b = true /\ (kind s b = AT_HEAD -> reachable s roots b);
  c_log : exists dels, finalised s' = finalised s ++ dels /\ NoDup dels
    /\ forall b, b ∈ dels <-> (b < total_blocks s)%nat /\ kind s b = AT_HEAD /\ ~ reachable s roots b /\ has_del s b = true }.

(** The sweep of a heap marked from the roots *)
Lemma sweep_marked roots s s1 s2 : heap_ok s -> unmarked_heap s -> marked_exactly s roots s1 -> swept 0 (total_blocks s) false s1 s2 ->
  heap_wf s2 /\ steady s2 = steady s1
  /\ (forall b, (b < total_blocks s)%nat -> kind s b = AT_FREE -> kind s2 b = AT_FREE)
  /\ (forall h i, reachable s roots h -> (i < clen s h)%nat -> kind s2 (h + i) = kind s (h + i))
  /\ (forall h i, (h < total_blocks s)%nat -> kind s h = AT_HEAD -> ~ reachable s roots h -> (i < clen s h)%nat -> kind s2 (h + i) = AT_FREE)
  /\ (forall b, (b < total_blocks s)%nat -> ftb s2 b = true <-> ftb s b = true /\ (kind s b = AT_HEAD -> reachable s roots b))
  /\ finalised s2 = finalised s ++ filter (fun c => kind s1 c = AT_HEAD /\ has_del s c = true) (seq 0 (total_blocks s)).
Proof.
  intros H Hu [Hm Hex] Hsw. destruct (still_fields s s1 (m_still _ _ Hm)) as (El & Ep & _ & Et & _).
  assert (Hf1 : forall b, (b < total_blocks s)%nat -> ftb s1 b = ftb s b).
  { intros b Hb. unfold ftb. rewrite El, (m_rest _ _ Hm) by lia. done. }
  assert (Hd1 : forall b, (b < total_blocks s)%nat -> has_del s1 b = has_del s b) by (intros b Hb; unfold has_del; by rewrite Hf1, Ep).
  assert (Hkept : forall h, reachable s roots h -> (h < total_blocks s)%nat /\ kind s h = AT_HEAD /\ kind s1 h = AT_MARK).
  { intros h Hr. destruct (reachable_head _ _ _ Hr). split; [done|]. split; [done|]. by apply Hex. }
  assert (Hdrop : forall h, (h < total_blocks s)%nat -> kind s h = AT_HEAD -> ~ reachable s roots h -> kind s1 h = AT_HEAD).
  { intros h Hh Hk Hr. destruct (m_kind _ _ Hm h Hh) as [->|[_ E] ]; [done|]. by destruct Hr; apply Hex. }
  assert (Htail : forall h i, (h < total_blocks s)%nat -> (1 <= i < clen s h)%nat -> kind s1 (h + i) = AT_TAIL).
  { intros h i _ Hi. apply (marking_tail s); [done|]. by apply clen_tail. }
  split; [apply Hsw|]. split; [apply Hsw|]. split; [|split; [|split; [|split] ] ].
  - intros b Hb Hk. apply (sw_free _ _ _ _ _ Hsw); [lia|]. destruct (m_kind _ _ Hm b Hb) as [->|[E _] ]; [done|]. rewrite Hk in E. by inversion E.
  - intros h i Hr Hi. destruct (Hkept h Hr) as (Hh & Hk & Hk1). pose proof (clen_bound s h H Hh). destruct i as [|i].
    + rewrite Nat.add_0_r, Hk. apply (sw_mark _ _ _ _ _ Hsw); [lia|done].
    + rewrite (sw_tail _ _ _ _ _ Hsw h (S i)), Hk1; [|lia|lia|lia|by right|intros j Hj; apply Htail; [done|lia] ].
      symmetry. apply clen_tail. lia.
  - intros h i Hh Hk Hr Hi. pose proof (clen_bound s h H Hh). pose proof (Hdrop h Hh Hk Hr) as Hk1. destruct i as [|i].
    + rewrite Nat.add_0_r. apply (sw_head _ _ _ _ _ Hsw); [lia|done].
    + rewrite (sw_tail _ _ _ _ _ Hsw h (S i)), Hk1; [done|lia|lia|lia|by left|intros j Hj; apply Htail; [done|lia] ].
  - intros b Hb. rewrite (sw_ftb _ _ _ _ _ Hsw), Hf1, bool_decide_eq_true_2 by lia. cbn [andb].
    rewrite andb_true_iff, negb_true_iff, Z.eqb_neq. split; intros [Hf Hk]; (split; [done|]).
    + intros Eh. destruct (m_kind _ _ Hm b Hb) as [E|[_ E] ]; [by rewrite E in Hk|by apply Hex].
    + intros E. destruct (m_kind _ _ Hm b Hb) as [E'|[_ E'] ]; [|by rewrite E in E'].
      rewrite E in E'. specialize (Hk (eq_sym E')). apply Hkept in Hk as (_ & _ & Hk). by rewrite E in Hk.
  - rewrite (sw_log _ _ _ _ _ Hsw). injection (m_still _ _ Hm) as _ _ _ _ _ _ _ _ ->. f_equal.
    assert (Hall : Forall (fun c => c < total_blocks s)%nat (seq 0 (total_blocks s))) by (apply Forall_forall; intros c Hc; apply in_seq in Hc; lia).
    induction Hall as [|c l Hc _ IH]; [done|]. rewrite !list.filter_cons, IH. by rewrite Hd1.
Qed.

Lemma collected_of_sweep roots s s1 s2 s' : heap_ok s -> unmarked_heap s -> marked_exactly s roots s1 -> swept 0 (total_blocks s) false s1 s2 ->
  gc_tables s' = gc_tables s2 -> gc_alloc_table_byte_len s' = gc_alloc_table_byte_len s2 -> gc_pool s' = gc_pool s2 -> gc_pool_start s' = gc_pool_start s2 ->
  finalised s' = finalised s2 -> gc_last_free_atb_index s' = 0%nat -> gc_auto_collect_enabled s' = gc_auto_collect_enabled s2 ->
  collected roots s s'.
Proof.
  intros H Hu Hme Hsw Et El Ep Es Ef Hlast Ha. pose proof Hme as [Hm Hex].
  destruct (sweep_marked roots s s1 s2 H Hu Hme Hsw) as (Hw & Hst & Hfree & Hkept & Hfreed & Hftb & Hlog).
  assert (Esh : same_heap s2 s') by done. destruct (same_heap_facts _ _ Esh) as (Ett & Ek & _ & Eftb & _).
  injection (m_still _ _ Hm) as S1 S2 S3 S4 S5 S6 S7 S8 S9. injection Hst as T1 T2 T3 T4 T5 T6 T7 T8 T9.
  constructor.
  - constructor; rewrite ?Ett, ?El, ?Ep, ?Es, ?Et; try apply Hw. unfold tables_ok. rewrite Et. apply Hw.
  - split_and!; congruence.
  - done.
  - intros. rewrite Ek. by apply Hfree.
  - intros. rewrite Ek. by apply Hkept.
  - intros. rewrite Ek. by apply (Hfreed h).
  - intros h Hh. rewrite <- Hex by done. destruct (decide (kind s1 h = AT_MARK)); [by left|by right].
  - intros. rewrite Eftb. by apply Hftb.
  - eexists. split; [rewrite Ef; exact Hlog|]. split; [apply list.NoDup_filter, NoDup_seq|].
    intros b. rewrite list_elem_of_filter, elem_of_seq. split.
    + intros ((Hk & Hd) & Hb). destruct (m_kind _ _ Hm b ltac:(lia)) as [E|[E E'] ]; [|rewrite Hk in E'; by inversion E'].
      split; [lia|]. split; [congruence|]. split; [|done]. intros Hr. apply Hex in Hr; [|lia]. rewrite Hk in Hr. by inversion Hr.
    + intros (Hb & Hk & Hr & Hd). split; [|lia]. split; [|done].
      destruct (m_kind _ _ Hm b Hb) as [->|[_ E] ]; [done|]. by destruct Hr; apply Hex.
Qed.

Lemma collected_same roots s s0 s' : same_heap s s0 -> finalised s0 = finalised s -> gc_auto_collect_enabled s0 = gc_auto_collect_enabled s ->
  collected roots s0 s' -> collected roots s s'.
Proof.
  intros E Ef Ea C. destruct (same_heap_facts _ _ E) as (Et & Ek & Ec & Efb & _). pose proof E as (_ & El & Ep & Es).
  assert (Er : forall b, reachable s0 roots b <-> reachable s roots b) by (intros; by apply same_heap_reachable).
  assert (Ed : forall b, has_del s0 b = has_del s b) by (intros b; unfold has_del; by rewrite Efb, Ep).
  constructor.
  - apply C.
  - destruct (c_still _ _ _ C) as (? & ? & ? & ?). split_and!; congruence.
  - apply C.
  - intros b. rewrite <- Et, <- Ek. apply C.
  - intros h i. rewrite <- Er, <- Ec, <- Ek. apply C.
  - intros h i. rewrite <- Er, <- Ec, <- Ek, <- Et. apply C.
  - intros h. rewrite <- !Er, <- Et. apply C.
  - intros b. rewrite <- Er, <- Efb, <- Ek, <- Et. apply C.
  - destruct (c_log _ _ _ C) as (dels & ? & ? & Hd). exists dels. split; [congruence|]. split; [done|].
    intros b. rewrite Hd, Er, Ed, Ek, Et. done.
Qed.

Lemma wrap_back x : 0 <= x < 2 ^ 16 -> wrap 16 (wrap 16 (x + 1) - 1) = x.
Proof.
  intros Hx. unfold wrap. rewrite Zminus_mod_idemp_l. replace (x + 1 - 1) with x by lia. by apply Z.mod_small.
Qed.

Lemma gc_collect_run roots s : heap_ok s -> unmarked_heap s -> 0 <= gc_lock_depth s < 2 ^ 16 ->
  exists s', gc_collect roots s = Some (tt, s') /\ collected roots s s' /\ gc_lock_depth s' = gc_lock_depth s.
Proof.
  intros H Hu Hl. set (s0 := with_overflow false (with_amount 0 (with_lock (wrap 16 (gc_lock_depth s + 1)) s))).
  assert (Hsame : same_heap s s0) by done.
  pose proof (same_heap_ok _ _ Hsame H) as H0. destruct (mark_phase_run roots s0 H0 Hu eq_refl) as (s1 & Hrun1 & Hm & Hex).
  pose proof (marking_ok s0 H0 s1 Hm) as H1. destruct (gc_sweep_run s1 (h_wf _ H1)) as (s2 & Hrun2 & Hsw).
  destruct (still_fields s0 s1 (m_still _ _ Hm)) as (_ & _ & _ & Et & _).
  set (s' := with_lock (wrap 16 (gc_lock_depth s2 - 1)) (with_last_free 0 s2)). exists s'. split.
  - unfold gc_collect, gc_collect_start, gc_collect_end. rewrite !M_bind_assoc. rewrite (M_bind_Some mget _ s s s) by done.
    rewrite M_bind_assoc. rewrite (M_bind_Some (mput _) _ s tt s0) by done.
    apply M_bind_inv in Hrun1 as ([] & s3 & E1 & E2). rewrite (M_bind_Some _ _ _ _ _ E1). cbv beta in E2. rewrite (M_bind_Some _ _ _ _ _ E2).
    rewrite (M_bind_Some _ _ _ _ _ Hrun2). done.
  - assert (Hc : collected roots s0 s').
    { apply (collected_of_sweep roots s0 s1 s2 s'); try done. by rewrite <- Et. }
    split; [by apply (collected_same roots s s0)|].
    injection (m_still _ _ Hm) as _ _ _ _ E5 _ _ _ _. injection (sw_steady _ _ _ _ _ Hsw) as _ _ _ _ T5 _ _ _ _.
    change (wrap 16 (gc_lock_depth s2 - 1) = gc_lock_depth s). rewrite T5, E5. by apply wrap_back.
Qed.

Lemma gc_sweep_all_run s : heap_ok s -> unmarked_heap s -> 0 <= gc_lock_depth s < 2 ^ 16 ->
  exists s', gc_sweep_all s = Some (tt, s') /\ collected [] s s' /\ gc_lock_depth s' = gc_lock_depth s.
Proof.
  intros H Hu Hl. set (s0 := with_overflow false (with_lock (wrap 16 (gc_lock_depth s + 1)) s)).
  assert (Hsame : same_heap s s0) by done.
  pose proof (same_heap_ok _ _ Hsame H) as H0. destruct (mark_phase_run [] s0 H0 Hu eq_refl) as (s1 & Hrun1 & Hme). pose proof Hme as [Hm _].
  rewrite (M_bind_Some (gc_collect_root []) _ s0 tt s0) in Hrun1 by done. cbv beta in Hrun1.
  pose proof (marking_ok s0 H0 s1 Hm) as H1. destruct (gc_sweep_run s1 (h_wf _ H1)) as (s2 & Hrun2 & Hsw).
  destruct (still_fields s0 s1 (m_still _ _ Hm)) as (_ & _ & _ & Et & _).
  set (s' := with_lock (wrap 16 (gc_lock_depth s2 - 1)) (with_last_free 0 s2)). exists s'. split.
  - unfold gc_sweep_all, gc_collect_end. rewrite (M_bind_Some mget _ s s s) by done. rewrite (M_bind_Some (mput _) _ s tt s0) by done.
    rewrite (M_bind_Some _ _ _ _ _ Hrun1). by rewrite (M_bind_Some _ _ _ _ _ Hrun2).
  - assert (Hc : collected [] s0 s').
    { apply (collected_of_sweep [] s0 s1 s2 s'); try done. by rewrite <- Et. }
    split; [by apply (collected_same [] s s0)|].
    injection (m_still _ _ Hm) as _ _ _ _ E5 _ _ _ _. injection (sw_steady _ _ _ _ _ Hsw) as _ _ _ _ T5 _ _ _ _.
    change (wrap 16 (gc_lock_depth s2 - 1) = gc_lock_depth s). rewrite T5, E5. by apply wrap_back.
Qed.

(** ** The heap after a collection *)

(** [chain_of] says which chain decides about a block. *)
Lemma collected_kind roots s s' b : heap_ok s -> unmarked_heap s -> collected roots s s' -> (b < total_blocks s)%nat ->
  kind s' b = AT_FREE \/ kind s' b = kind s b /\ exists h, reachable s roots h /\ (h <= b < h + clen s h)%nat.
Proof.
  intros H Hu C Hb. destruct (decide (kind s b = AT_FREE)) as [E|Hk]; [left; by apply (c_free _ _ _ C)|].
  destruct (chain_of s b H Hu Hb Hk) as (h & Eh & Hh). replace b with (h + (b - h))%nat in * by lia.
  destruct (c_dec _ _ _ C h ltac:(lia)) as [Hr|Hr].
  - right. split; [apply (c_kept _ _ _ C); [done|lia]|]. exists h. split; [done|lia].
  - left. apply (c_freed _ _ _ C); [lia|done|done|lia].
Qed.

(** A tail follows a block of its chain, and no block is marked. *)
Definition chains_ok s : Prop :=
  kind s 0 <> AT_TAIL /\ (forall b, (S b < total_blocks s)%nat -> kind s (S b) = AT_TAIL -> kind s b <> AT_FREE) /\ unmarked_heap s.

Lemma collected_chains roots s s' : heap_ok s -> unmarked_heap s -> collected roots s s' -> chains_ok s'.
Proof.
  intros H Hu C. destruct (c_still _ _ _ C) as (El & _). assert (Et : total_blocks s' = total_blocks s) by (unfold total_blocks; by rewrite El).
  pose proof (h_pos _ (h_wf _ H)) as Hp. assert (Hpos : (0 < total_blocks s)%nat) by (unfold total_blocks, BLOCKS_PER_ATB; lia).
  split; [|split].
  - intros E. destruct (collected_kind roots s s' 0 H Hu C Hpos) as [E'|[E' _] ]; rewrite E in E'; [by inversion E'|]. by apply (h_first _ H).
  - rewrite Et. intros b Hb E Ef. destruct (collected_kind roots s s' (S b) H Hu C Hb) as [E'|[E' (h & Hr & Hh)] ]; [by rewrite E in E'|].
    rewrite E in E'. assert (h <> S b) by (intros ->; destruct (reachable_head _ _ _ Hr) as [_ E2]; by rewrite E2 in E').
    pose proof (c_kept _ _ _ C h (b - h) Hr ltac:(lia)) as E2. replace (h + (b - h))%nat with b in E2 by lia. rewrite Ef in E2.
    by apply (h_tail _ H b Hb).
  - intros b. rewrite Et. intros Hb E. destruct (collected_kind roots s s' b H Hu C Hb) as [E'|[E' _] ]; rewrite E in E'; [by inversion E'|].
    by apply (Hu b Hb).
Qed.

(** C5 A collection, with a mark stack of any size: a chain is kept, with its contents,
    exactly when its head is reachable from the roots through aligned pointers to
    heads; all blocks of the others are freed, and of these exactly the objects with
    a finaliser bit and a type are finalised, each once.  No block stays marked,
    the search for free blocks starts at the beginning again, and the locks are as
    before.  The tracing loops terminate. *)
Theorem gc_collect_correct roots s : heap_ok s -> unmarked_heap s -> 0 <= gc_lock_depth s < 2 ^ 16 ->
  exists s', gc_collect roots s = Some (tt, s')
  /\ (forall h, (h < total_blocks s)%nat -> kind s h = AT_HEAD ->
        reachable s roots h /\ (forall i, (i < clen s h)%nat -> kind s' (h + i) = kind s (h + i))
        \/ ~ reachable s roots h /\ forall i, (i < clen s h)%nat -> kind s' (h + i) = AT_FREE)
  /\ (forall b, (b < total_blocks s)%nat -> kind s b = AT_FREE -> kind s' b = AT_FREE)
  /\ gc_pool s' = gc_pool s /\ chains_ok s' /\ gc_last_free_atb_index s' = 0%nat /\ gc_lock_depth s' = gc_lock_depth s
  /\ exists dels, finalised s' = finalised s ++ dels /\ NoDup dels
     /\ forall b, b ∈ dels <-> (b < total_blocks s)%nat /\ kind s b = AT_HEAD /\ ~ reachable s roots b /\ has_del s b = true.
Proof.
  intros H Hu Hl. destruct (gc_collect_run roots s H Hu Hl) as (s' & Hrun & C & Hl'). exists s'. split; [done|].
  split; [|split; [apply C|split; [apply C|split; [by apply (collected_chains roots s)|split; [apply C|split; [done|apply C] ] ] ] ] ].
  intros h Hh Hk. destruct (c_dec _ _ _ C h Hh) as [Hr|Hr]; [left|right]; (split; [done|]); intros i Hi.
  - by apply (c_kept _ _ _ C).
  - by apply (c_freed _ _ _ C).
Qed.

(** [gc_sweep_all] frees every block and finalises every object that has a
    finaliser bit and a type. *)
Theorem gc_sweep_all_correct s : heap_ok s -> unmarked_heap s -> 0 <= gc_lock_depth s < 2 ^ 16 ->
  exists s', gc_sweep_all s = Some (tt, s') /\ (forall b, (b < total_blocks s)%nat -> kind s' b = AT_FREE /\ (kind s b = AT_HEAD -> ftb s' b = false))
  /\ exists dels, finalised s' = finalised s ++ dels /\ NoDup dels
     /\ forall b, b ∈ dels <-> (b < total_blocks s)%nat /\ kind s b = AT_HEAD /\ has_del s b = true.
Proof.
  intros H Hu Hl. destruct (gc_sweep_all_run s H Hu Hl) as (s' & Hrun & C & _). exists s'. split; [done|].
  assert (Hr : forall h, ~ reachable s [] h).
  { intros h. induction 1 as [c (q & Hq & _)|]; [by apply elem_of_nil in Hq|done]. }
  split; [|destruct (c_log _ _ _ C) as (dels & ? & ? & Hd); exists dels; split; [done|]; split; [done|]; intros b; rewrite Hd;
    split; [by intros (? & ? & _ & ?)|by intros (? & ? & ?); split_and!; try done; apply Hr] ].
  intros b Hb. split.
  - destruct (collected_kind [] s s' b H Hu C Hb) as [|(_ & h & Hh & _)]; [done|]. by destruct (Hr h).
  - intros Hk. destruct (ftb s' b) eqn:E; [|done]. apply (c_ftb _ _ _ C) in E; [|done]. by destruct (Hr b); apply E.
Qed.

End Collect.
