(* ===== verification/GcAlloc.v ===== *)
(** Allocation in [Gc]: the invariant of the heap between operations, the search for
    free blocks, and taking them. *)
From S2P Require Import Prelude Gc GcSpec GcMark GcSweep GcThms.

(** The masks test the fields of a byte. *)
Lemma masks_kind a i : 0 <= a < 256 ->
  (Z.land a 3 =? 0) = (atb_kind a (i * 4) =? AT_FREE) /\ (Z.land a 12 =? 0) = (atb_kind a (S (i * 4)) =? AT_FREE)
  /\ (Z.land a 48 =? 0) = (atb_kind a (S (S (i * 4))) =? AT_FREE) /\ (Z.land a 192 =? 0) = (atb_kind a (S (S (S (i * 4)))) =? AT_FREE).
Proof.
  intros Ha.
  assert (H : forallb (fun a => eqb (Z.land a 3 =? 0) (atb_kind a 0 =? AT_FREE) && eqb (Z.land a 12 =? 0) (atb_kind a 1 =? AT_FREE)
     && eqb (Z.land a 48 =? 0) (atb_kind a 2 =? AT_FREE) && eqb (Z.land a 192 =? 0) (atb_kind a 3 =? AT_FREE))%bool (map Z.of_nat (seq 0 256)) = true)
    by (vm_compute; reflexivity).
  rewrite forallb_forall in H. specialize (H a). rewrite !andb_true_iff, !eqb_true_iff in H.
  assert (Hin : In a (map Z.of_nat (seq 0 256))) by (apply in_map_iff; exists (Z.to_nat a); split; [lia|apply in_seq; lia]).
  destruct (H Hin) as [[[H1 H2] H3] H4].
  assert (E : forall j, atb_kind a (j + i * 4) = atb_kind a j).
  { intros j. unfold atb_kind, BLOCK_SHIFT, BLOCKS_PER_ATB. by rewrite Nat.Div0.mod_add. }
  rewrite (E 0%nat : atb_kind a (i * 4) = _), (E 1%nat : atb_kind a (S (i * 4)) = _), (E 2%nat : atb_kind a (S (S (i * 4))) = _),
    (E 3%nat : atb_kind a (S (S (S (i * 4)))) = _). done.
Qed.

Section Alloc.
Context {cfg : GcCfg}.
Implicit Types s : gc_state.

(** ** The invariant *)

Record gc_inv s : Prop := {
  i_wf : heap_wf s;
  i_chains : chains_ok s;
  i_last b : (b < gc_last_free_atb_index s * BLOCKS_PER_ATB)%nat -> (b < total_blocks s)%nat -> kind s b <> AT_FREE;
  i_ftb b : (b < total_blocks s)%nat -> ftb s b = true -> kind s b = AT_HEAD;
  i_lock : 0 <= gc_lock_depth s < 2 ^ 16 }.

(** The finaliser bits of blocks 0 and 1 do not look like a tail. *)
Definition guarded s : Prop := ftb s 1 = true -> ftb s 0 = true.

(** The invariant with the guard, as the operations keep it: no object with a
    finaliser begins in block 1. *)
Definition gc_safe s : Prop := gc_inv s /\ ftb s 1 = false.

Lemma safe_guarded s : gc_safe s -> guarded s.
Proof. intros [_ E] E'. by rewrite E in E'. Qed.

Lemma guard_bits s : heap_wf s -> kind s (total_blocks s) = AT_TAIL <-> ftb s 1 = true /\ ftb s 0 = false.
Proof.
  intros Hw. assert (Hpos : (0 < total_blocks s)%nat) by (pose proof (h_pos _ Hw); unfold total_blocks, BLOCKS_PER_ATB; lia).
  destruct (ftb_byte s 0 Hw Hpos) as (a & Ea & Ha). unfold ftb, kind. change (1 / 8)%nat with 0%nat. change (0 / 8)%nat with 0%nat in *.
  unfold total_blocks, BLOCKS_PER_ATB. rewrite Nat.div_mul by lia. rewrite Nat.add_0_r in *. rewrite Ea.
  assert (H : forallb (fun a => eqb (atb_kind a 0 =? AT_TAIL) (Z.testbit a (ftb_bit 1) && negb (Z.testbit a (ftb_bit 0)))) (map Z.of_nat (seq 0 256)) = true)
    by (vm_compute; reflexivity).
  rewrite forallb_forall in H. specialize (H a). rewrite eqb_true_iff in H.
  assert (Hin : In a (map Z.of_nat (seq 0 256))) by (apply in_map_iff; exists (Z.to_nat a); split; [lia|apply in_seq; lia]).
  specialize (H Hin). assert (E : atb_kind a (gc_alloc_table_byte_len s * 4) = atb_kind a 0)
    by (unfold atb_kind, BLOCK_SHIFT, BLOCKS_PER_ATB; by rewrite Nat.Div0.mod_mul).
  rewrite E, <- Z.eqb_eq, H, andb_true_iff, negb_true_iff. done.
Qed.

Lemma inv_heap s : gc_inv s -> guarded s -> heap_ok s.
Proof.
  intros I Hg. destruct (i_chains _ I) as (H1 & H2 & _). constructor; [apply I|done|done|].
  rewrite guard_bits by apply I. intros [E1 E2]. rewrite Hg in E2 by done. done.
Qed.

(** ** The search *)

(** The search over the kinds of blocks *)
Fixpoint find_run (cnt : nat) s (n b n_free : nat) : option (nat * nat) :=
  match cnt with
  | O => None
  | S cnt =>
      if kind s b =? AT_FREE then if (n <=? S n_free)%nat then Some (b, S n_free) else find_run cnt s n (S b) (S n_free)
      else find_run cnt s n (S b) 0
  end.

Lemma scan_table_run s n bytes i n_free : heap_wf s ->
  bytes = drop i (take (gc_alloc_table_byte_len s) (gc_tables s)) ->
  scan_table bytes i n_free n = find_run (length bytes * 4) s n (i * 4) n_free.
Proof.
  intros Hw. revert i n_free. induction bytes as [|a bytes IH]; intros i n_free Eb; [done|].
  assert (Ea : take (gc_alloc_table_byte_len s) (gc_tables s) !! i = Some a).
  { pose proof (lookup_drop (take (gc_alloc_table_byte_len s) (gc_tables s)) i 0) as E. rewrite <- Eb, Nat.add_0_r in E. by rewrite <- E. }
  apply lookup_take_Some in Ea as [Ea _]. pose proof (Forall_lookup_1 _ _ _ _ (h_bytes _ Hw) Ea) as Ha.
  assert (Ed : bytes = drop (S i) (take (gc_alloc_table_byte_len s) (gc_tables s))).
  { rewrite <- Nat.add_1_r, <- drop_drop, <- Eb. done. }
  destruct (masks_kind a i Ha) as (E0 & E1 & E2 & E3).
  assert (Ek : forall j, (j < 4)%nat -> kind s (j + i * 4) = atb_kind a (j + i * 4)).
  { intros j Hj. unfold kind. rewrite Nat.div_add, Nat.div_small by lia. cbn [Nat.add]. by rewrite Ea. }
  cbn [scan_table length]. change (S (length bytes) * 4)%nat with (4 + length bytes * 4)%nat.
  unfold ATB_MASKS, BLOCKS_PER_ATB. cbn [scan_byte find_run Nat.add].
  pose proof (Ek 0%nat ltac:(lia)) as K0. pose proof (Ek 1%nat ltac:(lia)) as K1. pose proof (Ek 2%nat ltac:(lia)) as K2.
  pose proof (Ek 3%nat ltac:(lia)) as K3. cbn [Nat.add] in K0, K1, K2, K3. rewrite E0, E1, E2, E3, K0, K1, K2, K3.
  assert (IH' : forall m, scan_table bytes (S i) m n = find_run (length bytes * 4) s n (S (S (S (S (i * 4))))) m) by (intros m; by apply IH).
  repeat match goal with |- context [if ?b then _ else _] => destruct b eqn:? end; try done; apply IH'.
Qed.

(** [n] blocks from [b] are free. *)
Definition run_free s (b n : nat) : Prop := forall x, (b <= x < b + n)%nat -> kind s x = AT_FREE.

Lemma find_run_spec cnt s n b n_free : (n_free < n)%nat -> (n_free <= b)%nat -> run_free s (b - n_free) n_free ->
  match find_run cnt s n b n_free with
  | Some (e, f) => f = n /\ (b <= e < b + cnt)%nat /\ (b - n_free + n <= S e)%nat /\ run_free s (e + 1 - n) n
      /\ forall x, (b - n_free <= x < e + 1 - n)%nat -> ~ run_free s x n
  | None => forall x, (b - n_free <= x)%nat -> (x + n <= b + cnt)%nat -> ~ run_free s x n
  end.
Proof.
  revert b n_free. induction cnt as [|cnt IH]; intros b n_free Hn Hb Hrun; cbn [find_run].
  { intros x Hx Hxn. lia. }
  destruct (Z.eqb_spec (kind s b) AT_FREE) as [E|E].
  - assert (Hrun' : run_free s (b - n_free) (S n_free)).
    { intros x Hx. destruct (decide (x = b)) as [->|]; [done|apply Hrun; lia]. }
    destruct (Nat.leb_spec n (S n_free)).
    + assert (n = S n_free) as -> by lia. split; [done|]. split; [lia|]. split; [lia|].
      replace (b + 1 - S n_free)%nat with (b - n_free)%nat by lia. split; [done|]. intros; lia.
    + specialize (IH (S b) (S n_free) ltac:(lia) ltac:(lia)). replace (S b - S n_free)%nat with (b - n_free)%nat in IH by lia.
      specialize (IH Hrun'). destruct (find_run cnt s n (S b) (S n_free)) as [[e f]|].
      * destruct IH as (? & ? & ? & ? & ?). split; [done|]. split; [lia|]. split; [lia|]. split; [done|]. done.
      * intros x Hx Hxn. apply IH; lia.
  - (* the block [b] is used: a run starts behind it *)
    assert (Hout : forall x, (b - n_free <= x)%nat -> (x <= b)%nat -> ~ run_free s x n) by (intros x Hx Hxb Hr; apply E, Hr; lia).
    specialize (IH (S b) 0%nat ltac:(lia) ltac:(lia)). rewrite Nat.sub_0_r in IH. specialize (IH ltac:(intros x Hx; lia)).
    destruct (find_run cnt s n (S b) 0) as [[e f]|].
    + destruct IH as (? & ? & ? & ? & Hno). split; [done|]. split; [lia|]. split; [lia|]. split; [done|].
      intros x Hx. destruct (decide (x <= b)%nat); [apply Hout; lia|apply Hno; lia].
    + intros x Hx Hxn. destruct (decide (x <= b)%nat); [apply Hout; lia|apply IH; lia].
Qed.

(** The search finds the first run of free blocks of the whole heap. *)
Lemma find_free_spec s n : gc_inv s -> (0 < n)%nat ->
  match find_free n s with
  | Some (e, f) => f = n /\ (n <= S e)%nat /\ (e < total_blocks s)%nat /\ run_free s (e + 1 - n) n
      /\ forall x, (x < e + 1 - n)%nat -> ~ run_free s x n
  | None => forall x, (x + n <= total_blocks s)%nat -> ~ run_free s x n
  end.
Proof.
  intros I Hn. unfold find_free. set (l := gc_last_free_atb_index s).
  rewrite (scan_table_run s n _ l 0 (i_wf _ I) eq_refl). rewrite length_drop, length_take.
  replace (Nat.min (gc_alloc_table_byte_len s) (length (gc_tables s))) with (gc_alloc_table_byte_len s) by (rewrite <- (h_len _ (i_wf _ I)); lia).
  assert (Hlow : forall x, (x < l * 4)%nat -> (x + n <= total_blocks s)%nat -> ~ run_free s x n).
  { intros x Hx Hxn Hr. apply (i_last _ I x); [done|lia|]. apply Hr. lia. }
  pose proof (find_run_spec ((gc_alloc_table_byte_len s - l) * 4) s n (l * 4) 0 Hn ltac:(lia)) as HF. rewrite Nat.sub_0_r in HF.
  specialize (HF ltac:(intros x Hx; lia)). unfold total_blocks, BLOCKS_PER_ATB in *.
  destruct (find_run _ s n (l * 4) 0) as [[e f]|].
  - destruct HF as (-> & He & Hs & Hr & Hno). split; [done|]. split; [lia|]. split; [lia|]. split; [done|].
    intros x Hx. destruct (decide (x < l * 4)%nat); [apply Hlow; lia|apply Hno; lia].
  - intros x Hxn. destruct (decide (x < l * 4)%nat); [by apply Hlow|apply HF; lia].
Qed.

(** ** Loops that set the kinds of a range of blocks *)

(** [s'] is [s] with other kinds, [g]. *)
Record retabled (g : nat -> Z) s s' : Prop := {
  r_wf : heap_wf s';
  r_same : with_tables [] s' = with_tables [] s;
  r_kind x : (x < total_blocks s)%nat -> kind s' x = g x;
  r_ftb x : ftb s' x = ftb s x }.

Definition range_kind s (b n : nat) (k : Z) (x : nat) : Z := if decide (b <= x < b + n)%nat then k else kind s x.

Lemma same_fields s s' : with_tables [] s' = with_tables [] s ->
  gc_alloc_table_byte_len s' = gc_alloc_table_byte_len s /\ gc_pool s' = gc_pool s /\ gc_pool_start s' = gc_pool_start s
  /\ gc_last_free_atb_index s' = gc_last_free_atb_index s /\ gc_lock_depth s' = gc_lock_depth s /\ total_blocks s' = total_blocks s
  /\ gc_auto_collect_enabled s' = gc_auto_collect_enabled s /\ finalised s' = finalised s.
Proof. intros E. injection E. intros. split_and!; try done. unfold total_blocks. congruence. Qed.

Lemma retabled_nil s b k : heap_wf s -> retabled (range_kind s b 0 k) s s.
Proof. intros Hw. constructor; try done. intros x _. unfold range_kind. rewrite decide_False by lia. done. Qed.

Lemma retabled_put s b k : heap_wf s -> (b < total_blocks s)%nat -> 0 <= k < 4 -> retabled (range_kind s b 1 k) s (put_kind b k s).
Proof.
  intros Hw Hb Hk. pose proof (heap_in_tables s b Hw ltac:(lia)) as Hi. constructor; [by apply put_kind_wf|done| |].
  - intros x _. rewrite kind_put by (try done; apply Hw). unfold range_kind. destruct (decide (x = b)), (decide (b <= x < b + 1)%nat); try done; lia.
  - intros x. by apply ftb_put_kind.
Qed.

Lemma retabled_cons s s1 s' b n k : retabled (range_kind s b 1 k) s s1 -> retabled (range_kind s1 (S b) n k) s1 s' ->
  retabled (range_kind s b (S n) k) s s'.
Proof.
  intros A B. destruct (same_fields _ _ (r_same _ _ _ A)) as (_ & _ & _ & _ & _ & Et & _). constructor.
  - apply B.
  - rewrite (r_same _ _ _ B). apply A.
  - intros x Hx. rewrite (r_kind _ _ _ B) by lia. unfold range_kind. rewrite (r_kind _ _ _ A) by done. unfold range_kind.
    destruct (decide (S b <= x < S b + n)%nat), (decide (b <= x < b + 1)%nat), (decide (b <= x < b + S n)%nat); try done; lia.
  - intros x. by rewrite (r_ftb _ _ _ B), (r_ftb _ _ _ A).
Qed.

Lemma retabled_free s s1 b k x : retabled (range_kind s b 1 k) s s1 -> (x < total_blocks s)%nat -> (b < x)%nat -> kind s1 x = kind s x.
Proof. intros A Hx Hb. rewrite (r_kind _ _ _ A) by done. unfold range_kind. by rewrite decide_False by lia. Qed.

Lemma mark_tails_run n b s : heap_wf s -> (b + n <= total_blocks s)%nat -> run_free s b n ->
  exists s', mark_tails n b s = Some (tt, s') /\ retabled (range_kind s b n AT_TAIL) s s'.
Proof.
  revert b s. induction n as [|n IH]; intros b s Hw Hb Hr; [exists s; split; [done|by apply retabled_nil]|].
  pose proof (heap_in_tables s b Hw ltac:(lia)) as Hi. cbn [mark_tails].
  rewrite (M_bind_Some _ _ _ _ _ (free_to_tail_run s b (h_bytes _ Hw) Hi (Hr b ltac:(lia)))).
  pose proof (retabled_put s b AT_TAIL Hw ltac:(lia) ltac:(done)) as A.
  destruct (same_fields _ _ (r_same _ _ _ A)) as (_ & _ & _ & _ & _ & Et & _).
  destruct (IH (S b) _ (r_wf _ _ _ A)) as (s' & Hrun & B); [rewrite Et; lia| |].
  - intros x Hx. rewrite (retabled_free s _ b _ x A) by lia. apply Hr. lia.
  - exists s'. split; [done|]. by apply (retabled_cons s (put_kind b AT_TAIL s) s').
Qed.

Lemma extend_tails_run n b s : heap_wf s -> (b + n <= total_blocks s)%nat -> run_free s b n ->
  exists s', extend_tails n b s = Some (tt, s') /\ retabled (range_kind s b n AT_TAIL) s s'.
Proof.
  intros Hw Hb Hr. destruct (mark_tails_run n b s Hw Hb Hr) as (s' & Hrun & A). exists s'. split; [|done]. clear A.
  revert b s Hw Hb Hr Hrun. induction n as [|n IH]; intros b s Hw Hb Hr Hrun; [done|].
  pose proof (heap_in_tables s b Hw ltac:(lia)) as Hi. pose proof (Hr b ltac:(lia)) as Ek. cbn [mark_tails extend_tails] in *.
  rewrite (M_bind_Some _ _ _ _ _ (get_kind_run s b Hi)), Ek, (M_bind_Some _ _ s tt s) by done.
  pose proof (free_to_tail_run s b (h_bytes _ Hw) Hi Ek) as Hput. rewrite (M_bind_Some _ _ _ _ _ Hput). rewrite (M_bind_Some _ _ _ _ _ Hput) in Hrun.
  pose proof (retabled_put s b AT_TAIL Hw ltac:(lia) ltac:(done)) as A.
  destruct (same_fields _ _ (r_same _ _ _ A)) as (_ & _ & _ & _ & _ & Et & _). apply IH; [apply A|rewrite Et; lia| |done].
  intros x Hx. rewrite (retabled_free s _ b _ x A) by lia. apply Hr. lia.
Qed.

Lemma free_blocks_run n b s : heap_wf s -> (b + n <= total_blocks s)%nat ->
  exists s', free_blocks n b s = Some (tt, s') /\ retabled (range_kind s b n AT_FREE) s s'.
Proof.
  revert b s. induction n as [|n IH]; intros b s Hw Hb; [exists s; split; [done|by apply retabled_nil]|].
  pose proof (heap_in_tables s b Hw ltac:(lia)) as Hi. cbn [free_blocks].
  rewrite (M_bind_Some _ _ _ _ _ (any_to_free_run s b (h_bytes _ Hw) Hi)).
  pose proof (retabled_put s b AT_FREE Hw ltac:(lia) ltac:(done)) as A.
  destruct (same_fields _ _ (r_same _ _ _ A)) as (_ & _ & _ & _ & _ & Et & _).
  destruct (IH (S b) _ (r_wf _ _ _ A)) as (s' & Hrun & B); [rewrite Et; lia|].
  exists s'. split; [done|]. by apply (retabled_cons s (put_kind b AT_FREE s) s').
Qed.

(** The block that ends the chain may be the guard. *)
Lemma kind_put_guard s b k : heap_wf s -> (b < total_blocks s)%nat -> kind (put_kind b k s) (total_blocks s) = kind s (total_blocks s).
Proof.
  intros Hw Hb. unfold kind, put_kind. cbn [gc_tables with_tables]. rewrite list_lookup_alter_ne; [done|].
  unfold total_blocks, BLOCKS_PER_ATB in *. rewrite Nat.div_mul by lia.
  assert (b / 4 < gc_alloc_table_byte_len s)%nat by (apply Nat.Div0.div_lt_upper_bound; lia). lia.
Qed.

Lemma free_chain_run fuel m b s : heap_wf s -> (b + m < total_blocks s)%nat -> (m < fuel)%nat ->
  (forall i, (1 <= i <= m)%nat -> kind s (b + i) = AT_TAIL) -> kind s (S (b + m)) <> AT_TAIL ->
  exists s', free_chain fuel b s = Some (tt, s') /\ retabled (range_kind s b (S m) AT_FREE) s s'.
Proof.
  revert m b s. induction fuel as [|fuel IH]; intros m b s Hw Hb Hf Ht He; [lia|].
  pose proof (heap_in_tables s b Hw ltac:(lia)) as Hi. cbn [free_chain].
  rewrite (M_bind_Some _ _ _ _ _ (any_to_free_run s b (h_bytes _ Hw) Hi)).
  pose proof (retabled_put s b AT_FREE Hw ltac:(lia) ltac:(done)) as A. set (s1 := put_kind b AT_FREE s) in *.
  destruct (same_fields _ _ (r_same _ _ _ A)) as (_ & _ & _ & _ & _ & Et & _).
  assert (Hk : forall x, (b < x <= total_blocks s)%nat -> kind s1 x = kind s x).
  { intros x Hx. destruct (decide (x = total_blocks s)) as [->|]; [apply kind_put_guard; [done|lia]|]. apply (retabled_free s s1 b AT_FREE x A); lia. }
  pose proof (heap_in_tables s1 (S b) (r_wf _ _ _ A) ltac:(lia)) as Hi1.
  rewrite (M_bind_Some _ _ _ _ _ (get_kind_run s1 (S b) Hi1)), Hk by lia. destruct m as [|m].
  - rewrite Nat.add_0_r in He. destruct (Z.eqb_spec (kind s (S b)) AT_TAIL); [done|]. exists s1. split; [done|].
    apply (retabled_cons s s1 s1); [done|]. apply retabled_nil, A.
  - pose proof (Ht 1%nat ltac:(lia)) as E1. rewrite Nat.add_1_r in E1. rewrite E1, Z.eqb_refl.
    destruct (IH m (S b) s1 (r_wf _ _ _ A)) as (s' & Hrun & B); [lia|lia| | |].
    + intros i Hx. rewrite Hk by lia. replace (S b + i)%nat with (b + S i)%nat by lia. apply Ht. lia.
    + rewrite Hk by lia. by replace (S (S b + m))%nat with (S (b + S m))%nat by lia.
    + exists s'. split; [done|]. by apply (retabled_cons s s1 s').
Qed.

End Alloc.
