(* ===== verification/GcHeap.v ===== *)
(** The operations of the allocator of [Gc] against the invariant: [gc_alloc],
    [gc_free], [gc_nbytes], and what an allocation is. *)
From S2P Require Import Prelude Gc GcSpec GcMark GcSweep GcThms GcAlloc.

Section Heap.
Context {cfg : GcCfg}.
Implicit Types s : gc_state.

(** ** Taking blocks *)

Definition zeroed (b n : nat) (pool : list Z) : list Z :=
  take (b * WORDS_PER_BLOCK) pool ++ replicate (n * WORDS_PER_BLOCK) 0 ++ drop ((b + n) * WORDS_PER_BLOCK) pool.

(** From [s] to [s'] the free blocks [b] .. [b + n - 1] became a chain of zeros. *)
Record allocated s s' (b n : nat) (fin : bool) : Prop := {
  al_inv : gc_inv s';
  al_len : gc_alloc_table_byte_len s' = gc_alloc_table_byte_len s;
  al_start : gc_pool_start s' = gc_pool_start s;
  al_lock : gc_lock_depth s' = gc_lock_depth s;
  al_fin : finalised s' = finalised s;
  al_free : run_free s b n;
  al_room : (0 < n)%nat /\ (b + n <= total_blocks s)%nat;
  al_kind x : (x < total_blocks s)%nat -> kind s' x = if decide (x = b) then AT_HEAD else if decide (b < x < b + n)%nat then AT_TAIL else kind s x;
  al_pool : gc_pool s' = zeroed b n (gc_pool s);
  al_ftb x : (x < total_blocks s)%nat -> ftb s' x = if decide (x = b) then fin else ftb s x }.

Lemma length_zeroed b n pool : ((b + n) * WORDS_PER_BLOCK <= length pool)%nat -> length (zeroed b n pool) = length pool.
Proof. intros. unfold zeroed. rewrite !length_app, length_take, length_replicate, length_drop. lia. Qed.

Lemma clear_words_run s b n : heap_wf s -> (b + n <= total_blocks s)%nat ->
  clear_words (b * WORDS_PER_BLOCK) (n * WORDS_PER_BLOCK) s = Some (tt, with_pool (zeroed b n (gc_pool s)) s).
Proof.
  intros Hw Hb. unfold clear_words. rewrite (M_bind_Some mget _ s s s) by done. unfold massert, mput, mbind, M_bind, zeroed.
  assert (E : (b * WORDS_PER_BLOCK + n * WORDS_PER_BLOCK <=? length (gc_pool s))%nat = true) by (apply Nat.leb_le; rewrite (h_pool _ Hw); nia).
  rewrite E. by rewrite Nat.mul_add_distr_r.
Qed.

(** Changes that leave the tables alone *)
Lemma wf_same s s' : heap_wf s -> gc_tables s' = gc_tables s -> gc_alloc_table_byte_len s' = gc_alloc_table_byte_len s ->
  length (gc_pool s') = length (gc_pool s) -> gc_pool_start s' = gc_pool_start s -> heap_wf s'.
Proof.
  intros Hw Et El Ep Es. assert (Eb : total_blocks s' = total_blocks s) by (unfold total_blocks; by rewrite El).
  constructor; rewrite ?Et, ?El, ?Ep, ?Es, ?Eb; try apply Hw. unfold tables_ok. rewrite Et. apply Hw.
Qed.

Lemma kind_same s s' x : gc_tables s' = gc_tables s -> kind s' x = kind s x.
Proof. intros E. unfold kind. by rewrite E. Qed.

Lemma ftb_same s s' x : gc_tables s' = gc_tables s -> gc_alloc_table_byte_len s' = gc_alloc_table_byte_len s -> ftb s' x = ftb s x.
Proof. intros E1 E2. unfold ftb. by rewrite E1, E2. Qed.

(** The invariant with the new chain *)
Lemma allocated_inv s s' b n fin : gc_inv s -> heap_wf s' -> gc_alloc_table_byte_len s' = gc_alloc_table_byte_len s -> gc_lock_depth s' = gc_lock_depth s ->
  run_free s b n -> (0 < n)%nat -> (b + n <= total_blocks s)%nat ->
  (forall x, (x < total_blocks s)%nat -> kind s' x = if decide (x = b) then AT_HEAD else if decide (b < x < b + n)%nat then AT_TAIL else kind s x) ->
  (forall x, (x < total_blocks s)%nat -> ftb s' x = if decide (x = b) then fin else ftb s x) ->
  gc_last_free_atb_index s' = gc_last_free_atb_index s
  \/ gc_last_free_atb_index s' = ((b + n) / BLOCKS_PER_ATB)%nat /\ n = 1%nat /\ (forall x, (x < b)%nat -> kind s x <> AT_FREE) ->
  gc_inv s'.
Proof.
  intros I Hw El Elock Hfree Hn Hb Hk Hf Hlast. assert (Et : total_blocks s' = total_blocks s) by (unfold total_blocks; by rewrite El).
  destruct (i_chains _ I) as (H1 & H2 & H3).
  assert (Hused : forall x, (x < total_blocks s)%nat -> kind s x <> AT_FREE -> kind s' x = kind s x).
  { intros x Hx Hne. rewrite Hk by done. destruct (decide (x = b)) as [->|]; [destruct Hne; apply Hfree; lia|].
    destruct (decide (b < x < b + n)%nat); [destruct Hne; apply Hfree; lia|done]. }
  assert (Hnf : forall x, (x < total_blocks s)%nat -> kind s' x = AT_FREE -> kind s x = AT_FREE /\ ~ (b <= x < b + n)%nat).
  { intros x Hx. rewrite Hk by done. destruct (decide (x = b)); [intros [=]|]. destruct (decide (b < x < b + n)%nat); [intros [=]|]. intros E; split; [done|lia]. }
  constructor.
  - done.
  - split; [|split].
    + rewrite Hk by lia. destruct (decide (0%nat = b)); [done|]. rewrite decide_False by lia. done.
    + rewrite Et. intros x Hx E Ef. destruct (Hnf x ltac:(lia) Ef) as [Ef' Hout]. revert E. rewrite Hk by done.
      destruct (decide (S x = b)); [intros [=]|]. rewrite decide_False by lia. intros E. by apply (H2 x).
    + intros x. rewrite Et. intros Hx. rewrite Hk by done. destruct (decide (x = b)); [done|]. destruct (decide (b < x < b + n)%nat); [done|by apply H3].
  - intros x Hx Hxt Ef. rewrite Et in Hxt. destruct (Hnf x Hxt Ef) as [Ef' Hout]. destruct Hlast as [E|(E & -> & Hlow)].
    + rewrite E in Hx. by apply (i_last _ I x).
    + rewrite E in Hx. unfold BLOCKS_PER_ATB in Hx. pose proof (Nat.Div0.mul_div_le (b + 1) 4). apply (Hlow x); [lia|done].
  - intros x. rewrite Et. intros Hx. rewrite Hf by done. destruct (decide (x = b)) as [->|]; [intros _; by rewrite Hk, decide_True|].
    intros E. pose proof (i_ftb _ I x Hx E) as E'. by rewrite Hused, E' by (try done; by rewrite E').
  - rewrite Elock. apply I.
Qed.

Lemma gc_take_run s b n fin : gc_inv s -> (0 < n)%nat -> (b + n <= total_blocks s)%nat -> run_free s b n ->
  (forall x, (x < b)%nat -> ~ run_free s x n) ->
  exists s', gc_take (b + n - 1) n n fin s = Some (PTR_FROM_BLOCK s b, s') /\ allocated s s' b n fin
    /\ gc_auto_collect_enabled s' = gc_auto_collect_enabled s.
Proof.
  intros I Hn Hb Hfree Hfirst. unfold gc_take. replace (b + n - 1 + 1 - n)%nat with b by lia. replace (b + n - 1 - b)%nat with (n - 1)%nat by lia.
  replace (n - 1 + 1)%nat with n by lia. replace (b + n - 1 + 1)%nat with (b + n)%nat by lia. rewrite (M_bind_Some mget _ s s s) by done.
  set (s1 := if (n =? 1)%nat then with_last_free ((b + n) / BLOCKS_PER_ATB) s else s).
  assert (E1 : gc_tables s1 = gc_tables s /\ gc_alloc_table_byte_len s1 = gc_alloc_table_byte_len s /\ gc_pool s1 = gc_pool s /\ gc_pool_start s1 = gc_pool_start s
    /\ gc_lock_depth s1 = gc_lock_depth s /\ finalised s1 = finalised s /\ gc_auto_collect_enabled s1 = gc_auto_collect_enabled s) by (unfold s1; destruct (n =? 1)%nat; done).
  destruct E1 as (Et1 & El1 & Ep1 & Es1 & Ek1 & Ef1 & Ea1).
  assert (Hw1 : heap_wf s1) by (apply (wf_same s); try done; [apply I|by rewrite Ep1]).
  assert (Eb1 : total_blocks s1 = total_blocks s) by (unfold total_blocks; by rewrite El1).
  rewrite (M_bind_Some _ _ s tt s1) by (unfold s1; destruct (n =? 1)%nat; done).
  pose proof (heap_in_tables s1 b Hw1 ltac:(lia)) as Hi1.
  rewrite (M_bind_Some _ _ _ _ _ (free_to_head_run s1 b (h_bytes _ Hw1) Hi1 ltac:(rewrite (kind_same s) by done; apply Hfree; lia))).
  pose proof (retabled_put s1 b AT_HEAD Hw1 ltac:(lia) ltac:(done)) as A. set (s2 := put_kind b AT_HEAD s1) in *.
  destruct (same_fields _ _ (r_same _ _ _ A)) as (El2 & Ep2 & Es2 & Elast2 & Elock2 & Eb2 & Ea2 & Ef2).
  destruct (mark_tails_run (n - 1) (S b) s2 (r_wf _ _ _ A)) as (s3 & Hrun3 & B); [lia| |].
  { intros x Hx. rewrite (retabled_free s1 s2 b AT_HEAD x A), (kind_same s) by (try done; lia). apply Hfree. lia. }
  destruct (same_fields _ _ (r_same _ _ _ B)) as (El3 & Ep3 & Es3 & Elast3 & Elock3 & Eb3 & Ea3 & Ef3).
  rewrite (M_bind_Some _ _ _ _ _ Hrun3). rewrite (M_bind_Some mget _ s3 s3 s3) by done.
  set (s4 := with_amount _ s3). rewrite (M_bind_Some (mput s4) _ s3 tt s4) by done.
  assert (Hw4 : heap_wf s4) by (apply (wf_same s3); try done; apply B).
  assert (Eb4 : total_blocks s4 = total_blocks s) by (change (total_blocks s3 = total_blocks s); congruence).
  rewrite (M_bind_Some _ _ _ _ _ (clear_words_run s4 b n Hw4 ltac:(lia))).
  assert (Ep4 : gc_pool s4 = gc_pool s) by (change (gc_pool s3 = gc_pool s); congruence). rewrite Ep4.
  set (s5 := with_pool (zeroed b n (gc_pool s)) s4).
  assert (Hlen : length (gc_pool s) = (total_blocks s * WORDS_PER_BLOCK)%nat) by apply I.
  assert (Hw5 : heap_wf s5). { apply (wf_same s4); try done. change (length (zeroed b n (gc_pool s)) = length (gc_pool s4)). rewrite Ep4. apply length_zeroed. nia. }
  set (s6 := if fin then put_ftb b true s5 else s5).
  rewrite (M_bind_Some _ _ s5 tt s6).
  2:{ unfold s6. destruct fin; [|done]. apply (ftb_put_run s5 b true Hw5). change (b < total_blocks s4)%nat. lia. }
  assert (E6 : gc_alloc_table_byte_len s6 = gc_alloc_table_byte_len s3 /\ gc_pool_start s6 = gc_pool_start s3 /\ gc_lock_depth s6 = gc_lock_depth s3
    /\ finalised s6 = finalised s3 /\ gc_pool s6 = zeroed b n (gc_pool s) /\ gc_last_free_atb_index s6 = gc_last_free_atb_index s3
    /\ gc_auto_collect_enabled s6 = gc_auto_collect_enabled s3) by (unfold s6; destruct fin; done).
  destruct E6 as (El6 & Es6 & Elock6 & Ef6 & Ep6 & Elast6 & Ea6).
  assert (Hw6 : heap_wf s6) by (unfold s6; destruct fin; [by apply put_ftb_wf|done]).
  assert (Hk6 : forall x, (x < total_blocks s)%nat -> kind s6 x = if decide (x = b) then AT_HEAD else if decide (b < x < b + n)%nat then AT_TAIL else kind s x).
  { intros x Hx. assert (E : kind s6 x = kind s3 x).
    { unfold s6. destruct fin; [rewrite kind_put_ftb by (change (x < total_blocks s4)%nat; lia)|]; by apply kind_same. }
    rewrite E, (r_kind _ _ _ B) by lia. unfold range_kind. rewrite (r_kind _ _ _ A) by lia. unfold range_kind. rewrite (kind_same s) by done.
    destruct (decide (S b <= x < S b + (n - 1))%nat), (decide (b <= x < b + 1)%nat), (decide (x = b)), (decide (b < x < b + n)%nat); try done; lia. }
  assert (Hf6 : forall x, (x < total_blocks s)%nat -> ftb s6 x = if decide (x = b) then fin else ftb s x).
  { intros x Hx. assert (E : ftb s3 x = ftb s x) by (rewrite (r_ftb _ _ _ B), (r_ftb _ _ _ A); by apply ftb_same).
    unfold s6. destruct fin.
    - rewrite ftb_put_ftb by (try done; change (b < total_blocks s4)%nat; lia). by destruct (decide (x = b)).
    - change (ftb s3 x = if decide (x = b) then false else ftb s x). rewrite E. destruct (decide (x = b)) as [->|]; [|done].
      destruct (ftb s b) eqn:Eb; [|done]. pose proof (i_ftb _ I b ltac:(lia) Eb) as E'. rewrite Hfree in E' by lia. by inversion E'. }
  exists s6. split; [unfold PTR_FROM_BLOCK; rewrite <- Es1, <- Es2, <- Es3; done|]. split; [|congruence].
  constructor; try congruence; try done.
  apply (allocated_inv s s6 b n fin); try done; try congruence.
  rewrite Elast6, Elast3, Elast2. unfold s1. destruct (Nat.eqb_spec n 1) as [->|]; [|by left]. right. split; [done|]. split; [done|].
  intros x Hx Ef. apply (Hfirst x Hx). intros y Hy. by replace y with x by lia.
Qed.

(** ** [gc_alloc] *)

Lemma find_take_run s n fin : gc_inv s -> (0 < n)%nat ->
  match find_free n s with
  | Some (e, f) => exists b s', gc_take e f n fin s = Some (PTR_FROM_BLOCK s b, s') /\ allocated s s' b n fin /\ forall x, (x < b)%nat -> ~ run_free s x n
  | None => forall x, (x + n <= total_blocks s)%nat -> ~ run_free s x n
  end.
Proof.
  intros I Hn. pose proof (find_free_spec s n I Hn) as HF. destruct (find_free n s) as [[e f]|]; [|done].
  destruct HF as (-> & He & Het & Hr & Hno).
  destruct (gc_take_run s (e + 1 - n) n fin I Hn ltac:(lia) Hr Hno) as (s' & Hrun & A & _).
  replace (e + 1 - n + n - 1)%nat with e in Hrun by lia. by exists (e + 1 - n)%nat, s'.
Qed.

Lemma collected_inv roots s s' : gc_inv s -> guarded s -> collected roots s s' -> gc_lock_depth s' = gc_lock_depth s -> gc_inv s'.
Proof.
  intros I Hg C El. destruct (c_still _ _ _ C) as (Ea & _). assert (Et : total_blocks s' = total_blocks s) by (unfold total_blocks; by rewrite Ea).
  pose proof (inv_heap s I Hg) as H. destruct (i_chains _ I) as (_ & _ & Hu). constructor.
  - apply C.
  - by apply (collected_chains roots s).
  - rewrite (c_last _ _ _ C). lia.
  - intros b. rewrite Et. intros Hb Hf. apply (c_ftb _ _ _ C) in Hf as [Hf Hr]; [|done]. pose proof (i_ftb _ I b Hb Hf) as Ek.
    pose proof (c_kept _ _ _ C b 0 (Hr Ek) ltac:(unfold clen; lia)) as E. by rewrite Nat.add_0_r, Ek in E.
  - rewrite El. apply I.
Qed.

Lemma collect_inv_run roots s : gc_inv s -> guarded s ->
  exists s', gc_collect roots s = Some (tt, s') /\ collected roots s s' /\ gc_inv s' /\ gc_lock_depth s' = gc_lock_depth s.
Proof.
  intros I Hg. destruct (gc_collect_run roots s (inv_heap s I Hg)) as (s' & Hrun & C & El); [apply I|apply I|].
  exists s'. split; [done|]. split; [done|]. split; [by apply (collected_inv roots s)|done].
Qed.

(** The state the blocks are taken from: [s], or [s] after a collection. *)
Definition maybe_collected roots s s1 : Prop :=
  s1 = s \/ gc_auto_collect_enabled s = true /\ gc_collect roots s = Some (tt, s1) /\ collected roots s s1.

Definition alloc_result roots s (n : nat) (fin : bool) (r : Z) s' : Prop :=
  exists s1, maybe_collected roots s s1 /\ gc_inv s1
  /\ (r = 0 /\ s' = s1 /\ (gc_auto_collect_enabled s = true -> gc_collect roots s = Some (tt, s1)) /\ (forall x, (x + n <= total_blocks s)%nat -> ~ run_free s1 x n)
      \/ exists b, r = PTR_FROM_BLOCK s b /\ allocated s1 s' b n fin /\ forall x, (x < b)%nat -> ~ run_free s1 x n).

Lemma maybe_collected_total roots s s1 : maybe_collected roots s s1 -> total_blocks s1 = total_blocks s /\ forall b, PTR_FROM_BLOCK s1 b = PTR_FROM_BLOCK s b.
Proof.
  intros [->|(_ & _ & C)]; [done|]. destruct (c_still _ _ _ C) as (Ea & _ & Es & _).
  split; [unfold total_blocks; by rewrite Ea|]. intros b. unfold PTR_FROM_BLOCK. by rewrite Es.
Qed.

(** The first search, in [s1]; a second one after a collection if there was none. *)
Lemma alloc_search_run roots s s1 n fin (done_ : bool) : gc_inv s1 -> (0 < n)%nat -> maybe_collected roots s s1 ->
  (done_ = true -> gc_auto_collect_enabled s = true -> gc_collect roots s = Some (tt, s1)) ->
  (done_ = false -> s1 = s /\ guarded s /\ gc_auto_collect_enabled s = true) ->
  exists r s', (match find_free n s1 with
    | Some (i, n_free) => gc_take i n_free n fin
    | None => if done_ then mret 0 else gc_collect roots;; s ← mget; match find_free n s with Some (i, n_free) => gc_take i n_free n fin | None => mret 0 end
    end) s1 = Some (r, s') /\ alloc_result roots s n fin r s'.
Proof.
  intros I Hn Hmc Hd Hnd. pose proof (find_take_run s1 n fin I Hn) as HF. destruct (maybe_collected_total _ _ _ Hmc) as [Et EP].
  destruct (find_free n s1) as [[e f]|].
  { destruct HF as (b & s' & Hrun & A & Hfirst). exists (PTR_FROM_BLOCK s1 b), s'. split; [done|]. exists s1. split; [done|]. split; [done|].
    right. exists b. by rewrite EP. }
  destruct done_.
  { exists 0, s1. split; [done|]. exists s1. split; [done|]. split; [done|]. left. split; [done|]. split; [done|]. split; [by apply Hd|]. by rewrite <- Et. }
  destruct (Hnd eq_refl) as (-> & Hg & Ha). destruct (collect_inv_run roots s I Hg) as (s2 & Hrun2 & C & I2 & _).
  rewrite (M_bind_Some _ _ _ _ _ Hrun2), (M_bind_Some mget _ s2 s2 s2) by done.
  assert (Hmc2 : maybe_collected roots s s2) by (by right). destruct (maybe_collected_total _ _ _ Hmc2) as [Et2 EP2].
  pose proof (find_take_run s2 n fin I2 Hn) as HF2. destruct (find_free n s2) as [[e f]|].
  - destruct HF2 as (b & s' & Hrun & A & Hfirst). exists (PTR_FROM_BLOCK s2 b), s'. split; [done|]. exists s2. split; [done|]. split; [done|].
    right. exists b. by rewrite EP2.
  - exists 0, s2. split; [done|]. exists s2. split; [done|]. split; [done|]. left. split; [done|]. split; [done|]. split; [done|]. by rewrite <- Et2.
Qed.

Lemma gc_alloc_run roots s n_bytes fin : gc_inv s -> guarded s ->
  (blocks_for n_bytes = 0%nat \/ 0 < gc_lock_depth s -> gc_alloc roots n_bytes fin s = Some (0, s))
  /\ (blocks_for n_bytes <> 0%nat -> gc_lock_depth s = 0 ->
      exists r s', gc_alloc roots n_bytes fin s = Some (r, s') /\ alloc_result roots s (blocks_for n_bytes) fin r s').
Proof.
  intros I Hg. unfold gc_alloc. rewrite alloc_blocks_eq. cbv zeta. set (n := blocks_for n_bytes). split.
  - intros [->|Hl]; [done|]. destruct (n =? 0)%nat; [done|]. rewrite (M_bind_Some mget _ s s s) by done.
    by rewrite (proj2 (Z.ltb_lt _ _) Hl).
  - intros Hn Hl. destruct (Nat.eqb_spec n 0) as [|_]; [done|]. rewrite (M_bind_Some mget _ s s s) by done. rewrite Hl. cbn [Z.ltb Z.compare].
    assert (Hn' : (0 < n)%nat) by lia.
    destruct (gc_auto_collect_enabled s) eqn:Ea; cbn [negb andb orb].
    + destruct (gc_alloc_threshold s <=? gc_alloc_amount s) eqn:Eth.
      * destruct (collect_inv_run roots s I Hg) as (s1 & Hrun1 & C & I1 & _).
        rewrite (M_bind_Some _ _ _ _ _ Hrun1), (M_bind_Some mget _ s1 s1 s1) by done.
        apply (alloc_search_run roots s s1 n fin true); try done. by right.
      * rewrite (M_bind_Some _ _ s tt s), (M_bind_Some mget _ s s s) by done.
        apply (alloc_search_run roots s s n fin false); try done. by left.
    + rewrite (M_bind_Some _ _ s tt s), (M_bind_Some mget _ s s s) by done.
      apply (alloc_search_run roots s s n fin true); try done; [by left|]. by rewrite Ea.
Qed.

(** ** [gc_free] and [gc_nbytes] *)

(** From [s] to [s'] the chain at [b] became free. *)
Record released s s' (b : nat) : Prop := {
  re_inv : gc_inv s';
  re_same : gc_alloc_table_byte_len s' = gc_alloc_table_byte_len s /\ gc_pool s' = gc_pool s /\ gc_pool_start s' = gc_pool_start s
    /\ gc_lock_depth s' = gc_lock_depth s /\ finalised s' = finalised s /\ gc_auto_collect_enabled s' = gc_auto_collect_enabled s;
  re_kind x : (x < total_blocks s)%nat -> kind s' x = if decide (b <= x < b + clen s b)%nat then AT_FREE else kind s x;
  re_ftb x : (x < total_blocks s)%nat -> ftb s' x = ftb s x && negb (bool_decide (x = b)) }.

(** Freeing the tails of a chain, or all of it, keeps the invariant. *)
Lemma freed_inv s s' h b n : gc_inv s -> heap_wf s' -> gc_alloc_table_byte_len s' = gc_alloc_table_byte_len s -> gc_lock_depth s' = gc_lock_depth s ->
  (h <= b)%nat -> (b + n = h + clen s h)%nat -> (b + n <= total_blocks s)%nat -> kind s (b + n) <> AT_TAIL \/ (b + n = total_blocks s)%nat ->
  (forall x, (x < total_blocks s)%nat -> kind s' x = if decide (b <= x < b + n)%nat then AT_FREE else kind s x) ->
  (forall x, (x < total_blocks s)%nat -> ftb s' x = true -> ftb s x = true /\ (x = h -> (h < b)%nat)) ->
  gc_last_free_atb_index s' = Nat.min (gc_last_free_atb_index s) (b / BLOCKS_PER_ATB) -> gc_inv s'.
Proof.
  intros I Hw El Elock Hhb Hbn Hb Hend Hk Hf Hlast. assert (Et : total_blocks s' = total_blocks s) by (unfold total_blocks; by rewrite El).
  destruct (i_chains _ I) as (H1 & H2 & H3). constructor.
  - done.
  - split; [|split].
    + rewrite Hk by (pose proof (h_pos _ (i_wf _ I)); unfold total_blocks, BLOCKS_PER_ATB; lia). by case_decide.
    + rewrite Et. intros x Hx. rewrite !Hk by lia. destruct (decide (b <= S x < b + n)%nat); [intros [=]|]. intros E.
      destruct (decide (b <= x < b + n)%nat) as [Hin|]; [|by apply H2]. exfalso. destruct Hend as [Hend|]; [|lia].
      apply Hend. by replace (b + n)%nat with (S x) by lia.
    + intros x. rewrite Et. intros Hx. rewrite Hk by done. case_decide; [done|by apply H3].
  - intros x Hx Hxt. rewrite Et in Hxt. rewrite Hlast in Hx. unfold BLOCKS_PER_ATB in Hx. pose proof (Nat.Div0.mul_div_le b 4).
    rewrite Hk by done. rewrite decide_False by lia. apply (i_last _ I); [unfold BLOCKS_PER_ATB; lia|done].
  - intros x. rewrite Et. intros Hx E. destruct (Hf x Hx E) as [E' Hne]. pose proof (i_ftb _ I x Hx E') as Ek. rewrite Hk by done.
    destruct (decide (b <= x < b + n)%nat) as [Hin|]; [|done]. exfalso. destruct (decide (x = h)) as [->|Hxh]; [specialize (Hne eq_refl); lia|].
    pose proof (clen_tail s h (x - h)) as Ht. replace (h + (x - h))%nat with x in Ht by lia. rewrite Ht in Ek by lia. by inversion Ek.
  - rewrite Elock. apply I.
Qed.

Lemma lower_last_free_run s b : lower_last_free b s = Some (tt, with_last_free (Nat.min (gc_last_free_atb_index s) (b / BLOCKS_PER_ATB)) s).
Proof.
  unfold lower_last_free. rewrite (M_bind_Some mget _ s s s) by done. destruct (Nat.ltb_spec (b / BLOCKS_PER_ATB) (gc_last_free_atb_index s)).
  - rewrite Nat.min_r by lia. done.
  - rewrite Nat.min_l by lia. by destruct s.
Qed.

Lemma guard_after_clear s b : gc_inv s -> guarded s -> (b < total_blocks s)%nat -> (b + clen s b = total_blocks s)%nat -> guarded (put_ftb b false s).
Proof.
  intros I Hg Hb He. unfold guarded. rewrite !ftb_put_ftb by (try done; apply I). destruct (decide (1%nat = b)); [done|].
  destruct (decide (0%nat = b)) as [<-|]; [|done]. intros E1. exfalso.
  assert (Ht : (4 <= total_blocks s)%nat) by (pose proof (h_pos _ (i_wf _ I)); unfold total_blocks, BLOCKS_PER_ATB; lia).
  pose proof (i_ftb _ I 1 ltac:(lia) E1) as Ek. pose proof (clen_tail s 0 1 ltac:(lia)) as Ek'. cbn in Ek'. rewrite Ek in Ek'. by inversion Ek'.
Qed.

Lemma gc_free_run s b : gc_inv s -> guarded s -> gc_lock_depth s = 0 -> (b < total_blocks s)%nat -> kind s b = AT_HEAD ->
  exists s', gc_free (PTR_FROM_BLOCK s b) s = Some (tt, s') /\ released s s' b.
Proof.
  intros I Hg Hl Hb Hk. pose proof (inv_heap s I Hg) as H. destruct (ptr_of_block s b (i_wf _ I) Hb) as (HV & HB & Hne).
  unfold gc_free. rewrite (M_bind_Some mget _ s s s) by done. rewrite Hl. cbn [Z.ltb Z.compare].
  rewrite (proj2 (Z.eqb_neq _ _) Hne), HV. rewrite (M_bind_Some (massert true) _ s tt s) by done. rewrite HB. cbv zeta.
  pose proof (heap_in_tables s b (i_wf _ I) ltac:(lia)) as Hi. rewrite (M_bind_Some _ _ _ _ _ (get_kind_run s b Hi)), Hk.
  rewrite (M_bind_Some (massert _) _ s tt s) by done.
  rewrite (M_bind_Some _ _ _ _ _ (ftb_put_run s b false (i_wf _ I) Hb)). set (s1 := put_ftb b false s).
  rewrite (M_bind_Some _ _ _ _ _ (lower_last_free_run s1 b)). set (s2 := with_last_free _ s1).
  assert (Hw2 : heap_wf s2) by (apply (wf_same s1); try done; by apply put_ftb_wf, I).
  assert (Hk2 : forall x, (x < total_blocks s)%nat -> kind s2 x = kind s x) by (intros x Hx; by apply (kind_put_ftb s b false)).
  pose proof (clen_bound s b H Hb) as Hc. set (m := (clen s b - 1)%nat). assert (Em : clen s b = S m) by (unfold m, clen; lia).
  destruct (free_chain_run (S (length (gc_tables s) * BLOCKS_PER_ATB)) m b s2 Hw2) as (s' & Hrun & A).
  - change (total_blocks s2) with (total_blocks s). lia.
  - pose proof (h_len _ (i_wf _ I)). unfold total_blocks, BLOCKS_PER_ATB in *. nia.
  - intros i Hx. rewrite Hk2 by lia. apply clen_tail. lia.
  - destruct (decide (b + clen s b = total_blocks s)%nat) as [E|].
    + replace (S (b + m)) with (total_blocks s2) by (change (total_blocks s2) with (total_blocks s); lia).
      rewrite guard_bits by done. intros [E1 E2]. pose proof (guard_after_clear s b I Hg Hb E E1) as E3.
      change (ftb s1 0 = false) in E2. fold s1 in E3. by rewrite E2 in E3.
    + replace (S (b + m)) with (b + clen s b)%nat by lia. rewrite Hk2 by lia. by apply clen_end.
  - exists s'. split.
    { change (gc_tables s2) with (gc_tables s1) in Hrun. done. }
    destruct (same_fields _ _ (r_same _ _ _ A)) as (El & Ep & Es & Elast & Elock & Eb & Ea & Ef). rewrite <- Em in A.
    assert (Hks : forall x, (x < total_blocks s)%nat -> kind s' x = if decide (b <= x < b + clen s b)%nat then AT_FREE else kind s x).
    { intros x Hx. rewrite (r_kind _ _ _ A) by done. unfold range_kind. by rewrite Hk2. }
    assert (Hfs : forall x, (x < total_blocks s)%nat -> ftb s' x = ftb s x && negb (bool_decide (x = b))).
    { intros x Hx. rewrite (r_ftb _ _ _ A). change (ftb s1 x = ftb s x && negb (bool_decide (x = b))). unfold s1. rewrite ftb_put_ftb by (try done; apply I).
      destruct (decide (x = b)); [rewrite bool_decide_eq_true_2 by done; by rewrite andb_false_r|rewrite bool_decide_eq_false_2 by done; by rewrite andb_true_r]. }
    constructor; [|split_and!; done|done|done].
    apply (freed_inv s s' b b (clen s b) I); try done; try lia; [apply A| |].
    + left. by apply clen_end.
    + intros x Hx. rewrite Hfs by done. intros E. apply andb_true_iff in E as [E1 E2]. split; [done|]. intros ->. by rewrite bool_decide_eq_true_2 in E2 by done.
Qed.

Lemma gc_nbytes_run s b : gc_inv s -> guarded s -> (b < total_blocks s)%nat -> kind s b = AT_HEAD ->
  gc_nbytes (PTR_FROM_BLOCK s b) s = Some (Z.of_nat (clen s b) * BYTES_PER_BLOCK, s).
Proof.
  intros I Hg Hb Hk. destruct (ptr_of_block s b (i_wf _ I) Hb) as (HV & HB & _).
  unfold gc_nbytes. rewrite (M_bind_Some mget _ s s s) by done. rewrite HV, HB. cbv zeta.
  pose proof (heap_in_tables s b (i_wf _ I) ltac:(lia)) as Hi. rewrite (M_bind_Some _ _ _ _ _ (get_kind_run s b Hi)), Hk. rewrite Z.eqb_refl.
  by rewrite (M_bind_Some _ _ _ _ _ (n_blocks_run s b (inv_heap s I Hg) Hb)).
Qed.

End Heap.
