(* ===== verification/GcRealloc.v ===== *)
(** [gc_realloc] of [Gc]: shrinking and growing in place, and moving. *)
From S2P Require Import Prelude Gc GcSpec GcMark GcSweep GcThms GcAlloc GcHeap.

Section Realloc.
Context {cfg : GcCfg}.
Implicit Types s : gc_state.

(** ** The scan *)

Lemma scan_tails m n bl nb new s : heap_wf s -> (bl + m <= total_blocks s)%nat -> (forall x, (bl <= x < bl + m)%nat -> kind s x = AT_TAIL) ->
  realloc_scan (m + n) bl nb 0 new s = realloc_scan n (bl + m) (nb + m) 0 new s.
Proof.
  intros Hw. revert bl nb. induction m as [|m IH]; intros bl nb Hb Ht; [by rewrite !Nat.add_0_r|].
  pose proof (heap_in_tables s bl Hw ltac:(lia)) as Hi. cbn [Nat.add realloc_scan].
  rewrite (M_bind_Some _ _ _ _ _ (get_kind_run s bl Hi)), Ht, Z.eqb_refl by lia.
  rewrite IH by (try lia; intros x Hx; apply Ht; lia). f_equal; lia.
Qed.

Lemma scan_free n bl nb nf new s : heap_wf s -> chains_ok s -> (bl + n <= total_blocks s)%nat -> (bl < total_blocks s -> kind s bl <> AT_TAIL)%nat ->
  exists f, realloc_scan n bl nb nf new s = Some ((nb, nf + f)%nat, s) /\ (f <= n)%nat /\ run_free s bl f
    /\ ((new <= nb + nf + f)%nat \/ f = n \/ kind s (bl + f) <> AT_FREE).
Proof.
  intros Hw Hc. revert bl nf. induction n as [|n IH]; intros bl nf Hb Ht.
  { exists 0%nat. rewrite Nat.add_0_r. split; [done|]. split; [lia|]. split; [intros x Hx; lia|by right; left]. }
  pose proof (heap_in_tables s bl Hw ltac:(lia)) as Hi. specialize (Ht ltac:(lia)). cbn [realloc_scan].
  rewrite (M_bind_Some _ _ _ _ _ (get_kind_run s bl Hi)). rewrite (proj2 (Z.eqb_neq _ _) Ht).
  destruct (Z.eqb_spec (kind s bl) AT_FREE) as [E|E].
  2:{ exists 0%nat. rewrite !Nat.add_0_r. split; [done|]. split; [lia|]. split; [intros x Hx; lia|by right; right]. }
  destruct (Nat.leb_spec new (nb + S nf)).
  { exists 1%nat. rewrite Nat.add_1_r. split; [done|]. split; [lia|]. split; [|left; lia]. intros x Hx. by replace x with bl by lia. }
  destruct (IH (S bl) (S nf)) as (f & Hrun & Hf & Hr & Hend); [lia| |].
  { intros Hlt E'. destruct Hc as (_ & H2 & _). by apply (H2 bl). }
  exists (S f). rewrite Hrun. split; [by rewrite Nat.add_succ_r|]. split; [lia|]. split.
  - intros x Hx. destruct (decide (x = bl)) as [->|]; [done|apply Hr; lia].
  - destruct Hend as [|[|Hend] ]; [left; lia|right; left; lia|right; right]. by replace (bl + S f)%nat with (S bl + f)%nat by lia.
Qed.

(** The chain and the free blocks behind it *)
Lemma realloc_scan_run s b new : gc_inv s -> guarded s -> (b < total_blocks s)%nat ->
  exists f, realloc_scan (total_blocks s - (b + 1)) (b + 1) 1 0 new s = Some ((clen s b, f), s)
    /\ (b + clen s b + f <= total_blocks s)%nat /\ run_free s (b + clen s b) f
    /\ ((new <= clen s b + f)%nat \/ (b + clen s b + f = total_blocks s)%nat \/ kind s (b + clen s b + f) <> AT_FREE).
Proof.
  intros I Hg Hb. pose proof (inv_heap s I Hg) as H. pose proof (clen_bound s b H Hb) as Hc. pose proof (clen_end s b H Hb) as He.
  set (m := (clen s b - 1)%nat). assert (Em : clen s b = S m) by (unfold m, clen; lia).
  replace (total_blocks s - (b + 1))%nat with (m + (total_blocks s - (b + clen s b)))%nat by lia.
  rewrite scan_tails; [|apply I|lia|].
  2:{ intros x Hx. pose proof (clen_tail s b (x - b) ltac:(lia)) as Ht. by replace (b + (x - b))%nat with x in Ht by lia. }
  replace (b + 1 + m)%nat with (b + clen s b)%nat by lia. replace (1 + m)%nat with (clen s b) by lia.
  destruct (scan_free (total_blocks s - (b + clen s b)) (b + clen s b) (clen s b) 0 new s (i_wf _ I) (i_chains _ I)) as (f & Hrun & Hf & Hr & Hend); [lia|done|].
  exists f. split; [done|]. split; [lia|]. split; [done|]. destruct Hend as [|[|] ]; [left; lia|right; left; lia|by right; right].
Qed.

(** ** In place *)

(** The chain at [b] has the new length [n]; the contents stay as far as both go, and
    new blocks are zero. *)
Record resized s s' (b n : nat) : Prop := {
  rs_inv : gc_inv s';
  rs_len : gc_alloc_table_byte_len s' = gc_alloc_table_byte_len s;
  rs_kind x : (x < total_blocks s)%nat -> kind s' x =
    if decide (b <= x < b + Nat.min n (clen s b))%nat then kind s x
    else if decide (b <= x < b + n)%nat then AT_TAIL else if decide (b <= x < b + clen s b)%nat then AT_FREE else kind s x;
  rs_pool : gc_pool s' = if (clen s b <? n)%nat then zeroed (b + clen s b) (n - clen s b) (gc_pool s) else gc_pool s;
  rs_ftb x : (x < total_blocks s)%nat -> ftb s' x = ftb s x }.

Lemma shrink_run s b n : gc_inv s -> guarded s -> (b < total_blocks s)%nat -> kind s b = AT_HEAD -> (0 < n < clen s b)%nat ->
  exists s', (free_blocks (clen s b - n) (b + n);; lower_last_free (b + n);; mret (PTR_FROM_BLOCK s b)) s = Some (PTR_FROM_BLOCK s b, s') /\ resized s s' b n.
Proof.
  intros I Hg Hb Hk Hn. pose proof (inv_heap s I Hg) as H. pose proof (clen_bound s b H Hb) as Hc.
  destruct (free_blocks_run (clen s b - n) (b + n) s (i_wf _ I)) as (s1 & Hrun & A); [lia|].
  rewrite (M_bind_Some _ _ _ _ _ Hrun), (M_bind_Some _ _ _ _ _ (lower_last_free_run s1 (b + n))).
  destruct (same_fields _ _ (r_same _ _ _ A)) as (El & Ep & Es & Elast & Elock & Eb & Ea & Ef).
  set (s' := with_last_free _ s1). exists s'. split; [done|].
  assert (Hks : forall x, (x < total_blocks s)%nat -> kind s' x = if decide (b + n <= x < b + n + (clen s b - n))%nat then AT_FREE else kind s x)
    by (intros x Hx; change (kind s1 x = if decide (b + n <= x < b + n + (clen s b - n))%nat then AT_FREE else kind s x); by rewrite (r_kind _ _ _ A)).
  assert (Hw' : heap_wf s') by (apply (wf_same s1); try done; apply A).
  constructor.
  - apply (freed_inv s s' b (b + n) (clen s b - n) I Hw' El); try done; try lia.
    + left. replace (b + n + (clen s b - n))%nat with (b + clen s b)%nat by lia. by apply clen_end.
    + intros x Hx E. split; [by rewrite <- (r_ftb _ _ _ A)|lia].
    + change (Nat.min (gc_last_free_atb_index s1) ((b + n) / BLOCKS_PER_ATB) = Nat.min (gc_last_free_atb_index s) ((b + n) / BLOCKS_PER_ATB))%nat. by rewrite Elast.
  - done.
  - intros x Hx. rewrite Hks by done. rewrite Nat.min_l by lia. repeat case_decide; try done; lia.
  - destruct (Nat.ltb_spec (clen s b) n); [lia|done].
  - intros x Hx. apply (r_ftb _ _ _ A).
Qed.

Lemma extend_run s b n : gc_inv s -> guarded s -> (b < total_blocks s)%nat -> kind s b = AT_HEAD -> (clen s b < n)%nat -> (b + n <= total_blocks s)%nat ->
  run_free s (b + clen s b) (n - clen s b) ->
  exists s', (extend_tails (n - clen s b) (b + clen s b);; clear_words ((b + clen s b) * WORDS_PER_BLOCK) ((n - clen s b) * WORDS_PER_BLOCK);;
     mret (PTR_FROM_BLOCK s b)) s = Some (PTR_FROM_BLOCK s b, s') /\ resized s s' b n.
Proof.
  intros I Hg Hb Hk Hn Hbn Hfree. pose proof (inv_heap s I Hg) as H.
  destruct (extend_tails_run (n - clen s b) (b + clen s b) s (i_wf _ I)) as (s1 & Hrun & A); [lia|done|].
  destruct (same_fields _ _ (r_same _ _ _ A)) as (El & Ep & Es & Elast & Elock & Eb & Ea & Ef).
  rewrite (M_bind_Some _ _ _ _ _ Hrun), (M_bind_Some _ _ _ _ _ (clear_words_run s1 (b + clen s b) (n - clen s b) (r_wf _ _ _ A) ltac:(lia))).
  rewrite Ep. set (s' := with_pool _ s1). exists s'. split; [done|].
  assert (Hlen : length (gc_pool s) = (total_blocks s * WORDS_PER_BLOCK)%nat) by apply I.
  assert (Hw' : heap_wf s') by (apply (wf_same s1); try done; [apply A|]; change (length (zeroed (b + clen s b) (n - clen s b) (gc_pool s)) = length (gc_pool s1));
    rewrite Ep; apply length_zeroed; nia).
  assert (Hks : forall x, (x < total_blocks s)%nat -> kind s' x = if decide (b + clen s b <= x < b + clen s b + (n - clen s b))%nat then AT_TAIL else kind s x).
  { intros x Hx. change (kind s1 x = if decide (b + clen s b <= x < b + clen s b + (n - clen s b))%nat then AT_TAIL else kind s x). by rewrite (r_kind _ _ _ A). }
  assert (Hnf : forall x, (x < total_blocks s)%nat -> kind s' x = AT_FREE -> kind s x = AT_FREE /\ ~ (b <= x < b + n)%nat).
  { intros x Hx. rewrite Hks by done. case_decide; [intros [=]|]. intros E. split; [done|]. intros Hin.
    destruct (decide (x = b)) as [->|]; [rewrite E in Hk; by inversion Hk|]. pose proof (clen_tail s b (x - b) ltac:(lia)) as Ht.
    replace (b + (x - b))%nat with x in Ht by lia. rewrite E in Ht. by inversion Ht. }
  assert (Et' : total_blocks s' = total_blocks s) by exact Eb. destruct (i_chains _ I) as (H1 & H2 & H3). constructor.
  - constructor.
    + done.
    + split; [|split].
      * rewrite Hks by lia. unfold clen at 1. case_decide; [lia|done].
      * rewrite Et'. intros x Hx E E'. destruct (Hnf x ltac:(lia) E') as [Ef' Hout]. revert E.
        rewrite Hks by done. case_decide; [unfold clen in *; lia|]. intros E. by apply (H2 x).
      * intros x. rewrite Et'. intros Hx. rewrite Hks by done. case_decide; [done|by apply H3].
    + rewrite Et'. change (gc_last_free_atb_index s') with (gc_last_free_atb_index s1). rewrite Elast.
      intros x Hx Hxt E. destruct (Hnf x Hxt E) as [E' _]. by apply (i_last _ I x).
    + rewrite Et'. intros x Hx E. change (ftb s1 x = true) in E. rewrite (r_ftb _ _ _ A) in E.
      pose proof (i_ftb _ I x Hx E) as Ek. rewrite Hks by done. case_decide as Hin; [|done]. rewrite Hfree in Ek by lia. by inversion Ek.
    + change (gc_lock_depth s') with (gc_lock_depth s1). rewrite Elock. apply I.
  - done.
  - intros x Hx. rewrite Hks by done. rewrite Nat.min_r by lia. repeat case_decide; try done; lia.
  - by rewrite (proj2 (Nat.ltb_lt _ _) Hn).
  - intros x Hx. apply (r_ftb _ _ _ A).
Qed.

(** ** Moving *)

(** The first [n] words of the pool from block [b] on *)
Definition pool_words (b n : nat) (pool : list Z) : list Z := take n (drop (b * WORDS_PER_BLOCK) pool).

Definition copied (dst src n : nat) (pool : list Z) : list Z :=
  take (dst * WORDS_PER_BLOCK) pool ++ pool_words src n pool ++ drop (dst * WORDS_PER_BLOCK + n) pool.

Lemma length_pool_words b n pool : (b * WORDS_PER_BLOCK + n <= length pool)%nat -> length (pool_words b n pool) = n.
Proof. intros. unfold pool_words. rewrite length_take, length_drop. lia. Qed.

Lemma copy_words_run s dst src n : heap_wf s -> (dst * WORDS_PER_BLOCK + n <= total_blocks s * WORDS_PER_BLOCK)%nat ->
  (src * WORDS_PER_BLOCK + n <= total_blocks s * WORDS_PER_BLOCK)%nat ->
  copy_words dst src n s = Some (tt, with_pool (copied dst src n (gc_pool s)) s).
Proof.
  intros Hw Hd Hs. unfold copy_words. rewrite (M_bind_Some _ _ _ _ _ (words_run s src n Hw Hs)), (M_bind_Some mget _ s s s) by done.
  assert (E : (dst * WORDS_PER_BLOCK + n <=? length (gc_pool s))%nat = true) by (apply Nat.leb_le; rewrite (h_pool _ Hw); lia).
  rewrite E. done.
Qed.

Lemma length_copied dst src n pool : (dst * WORDS_PER_BLOCK + n <= length pool)%nat -> (src * WORDS_PER_BLOCK + n <= length pool)%nat ->
  length (copied dst src n pool) = length pool.
Proof. intros. unfold copied. rewrite !length_app, length_pool_words, length_take, length_drop by done. lia. Qed.

Lemma pool_words_copied dst src n pool : (dst * WORDS_PER_BLOCK + n <= length pool)%nat -> (src * WORDS_PER_BLOCK + n <= length pool)%nat ->
  pool_words dst n (copied dst src n pool) = pool_words src n pool.
Proof.
  intros Hd Hs. unfold pool_words at 1, copied. rewrite drop_app_length' by (rewrite length_take; lia).
  rewrite take_app_length'; [done|]. by rewrite length_pool_words.
Qed.

(** Blocks that are not zeroed keep their contents. *)
Lemma pool_words_zeroed b n c m pool : ((b + n) * WORDS_PER_BLOCK <= length pool)%nat -> (c + m <= b \/ b + n <= c)%nat ->
  pool_words c (m * WORDS_PER_BLOCK) (zeroed b n pool) = pool_words c (m * WORDS_PER_BLOCK) pool.
Proof.
  intros Hl Hd. apply list_eq. intros i. unfold pool_words. destruct (decide (i < m * WORDS_PER_BLOCK)%nat) as [Hi|Hi].
  - rewrite !lookup_take_lt by done. rewrite !lookup_drop. unfold zeroed. destruct Hd as [Hd|Hd].
    + rewrite lookup_app_l by (rewrite length_take; nia). by rewrite lookup_take_lt by nia.
    + rewrite lookup_app_r by (rewrite length_take; nia). rewrite length_take, Nat.min_l by nia.
      rewrite lookup_app_r by (rewrite length_replicate; nia). rewrite length_replicate, lookup_drop. f_equal. nia.
  - rewrite !lookup_take_ge by lia. done.
Qed.

(** Blocks that are not copied to keep their contents. *)
Lemma pool_words_copied_other dst src n k c m pool : (n <= k * WORDS_PER_BLOCK)%nat -> ((dst + k) * WORDS_PER_BLOCK <= length pool)%nat ->
  (src * WORDS_PER_BLOCK + n <= length pool)%nat -> (c + m <= dst \/ dst + k <= c)%nat ->
  pool_words c (m * WORDS_PER_BLOCK) (copied dst src n pool) = pool_words c (m * WORDS_PER_BLOCK) pool.
Proof.
  intros Hn Hl Hs Hd. apply list_eq. intros i. unfold pool_words. destruct (decide (i < m * WORDS_PER_BLOCK)%nat) as [Hi|Hi].
  - rewrite !lookup_take_lt by done. rewrite !lookup_drop. unfold copied. destruct Hd as [Hd|Hd].
    + rewrite lookup_app_l by (rewrite length_take; nia). by rewrite lookup_take_lt by nia.
    + rewrite lookup_app_r by (rewrite length_take; nia). rewrite length_take, Nat.min_l by nia.
      rewrite lookup_app_r by (rewrite length_pool_words by lia; nia). rewrite length_pool_words by lia. rewrite lookup_drop. f_equal. nia.
  - rewrite !lookup_take_ge by lia. done.
Qed.

(** The chain at [b] moved to [b'], in the state [s1]: its blocks, its finaliser bit
    and its contents with zeros behind them; nothing else changed. *)
Record moved s s1 s' (b b' n : nat) : Prop := {
  mv_inv : gc_inv s';
  mv_room : (0 < n)%nat /\ (b' + n <= total_blocks s)%nat /\ ~ (b' <= b < b' + n)%nat;
  mv_guard : ftb s b = true -> b' <> 1%nat;
  mv_same : gc_alloc_table_byte_len s' = gc_alloc_table_byte_len s1 /\ gc_pool_start s' = gc_pool_start s1
    /\ gc_lock_depth s' = gc_lock_depth s1 /\ finalised s' = finalised s1;
  mv_ftb x : (x < total_blocks s)%nat -> ftb s' x = if decide (x = b') then ftb s b else if decide (x = b) then false else ftb s1 x;
  mv_pool : gc_pool s' = copied b' b (clen s b * WORDS_PER_BLOCK) (zeroed b' n (gc_pool s));
  mv_others x : (x < total_blocks s)%nat -> ~ (b' <= x < b' + n)%nat ->
    pool_words x WORDS_PER_BLOCK (gc_pool s') = pool_words x WORDS_PER_BLOCK (gc_pool s);
  mv_kind x : (x < total_blocks s)%nat -> kind s' x =
    if decide (x = b') then AT_HEAD else if decide (b' < x < b' + n)%nat then AT_TAIL
    else if decide (b <= x < b + clen s b)%nat then AT_FREE else kind s1 x;
  mv_contents : pool_words b' (clen s b * WORDS_PER_BLOCK) (gc_pool s') = pool_words b (clen s b * WORDS_PER_BLOCK) (gc_pool s) }.

(** The chain is still there after a collection, as it is reachable. *)
Lemma kept_chain roots s s1 b i : maybe_collected roots s s1 -> reachable s roots b -> (i < clen s b)%nat -> kind s1 (b + i) = kind s (b + i).
Proof. intros [->|(_ & _ & C)] Hr Hi; [done|]. by apply (c_kept _ _ _ C). Qed.

(** With no finaliser on block 1 the chain is also as long as it was. *)
Lemma kept_clen roots s s1 b : gc_inv s -> guarded s -> gc_inv s1 -> guarded s1 -> (b < total_blocks s)%nat -> kind s b = AT_HEAD ->
  maybe_collected roots s s1 -> reachable s roots b -> clen s1 b = clen s b.
Proof.
  intros I Hg I1 Hg1 Hb Hk Hmc Hr. destruct (maybe_collected_total _ _ _ Hmc) as [Et _].
  pose proof (inv_heap s I Hg) as H. pose proof (clen_bound s b H Hb) as Hc. pose proof (inv_heap s1 I1 Hg1) as H1.
  apply clen_exact; [unfold clen; lia|lia| |].
  - intros i Hi. rewrite (kept_chain roots s s1 b i) by (try done; lia). by apply clen_tail.
  - destruct (decide (b + clen s b = total_blocks s)%nat) as [E|].
    + rewrite E, <- Et. apply (h_guard _ H1).
    + destruct Hmc as [->|(_ & _ & C)]; [by apply clen_end|]. destruct (i_chains _ I) as (_ & _ & Hu).
      destruct (collected_kind roots s s1 (b + clen s b) H Hu C ltac:(lia)) as [->|[-> _] ]; [done|by apply clen_end].
Qed.

(** A change of the pool alone *)
Lemma inv_pool s p : gc_inv s -> length p = length (gc_pool s) -> gc_inv (with_pool p s).
Proof.
  intros I Hp. constructor; try apply I. by apply (wf_same s); [apply I|..].
Qed.

(** The old chain is not where the new one is. *)
Lemma kept_apart s s1 s2 b b' n fin roots i : gc_inv s -> maybe_collected roots s s1 -> reachable s roots b -> allocated s1 s2 b' n fin ->
  (i < clen s b)%nat -> ~ (b' <= b + i < b' + n)%nat.
Proof.
  intros I Hmc Hr A Hi Hin. pose proof (al_free _ _ _ _ _ A (b + i)%nat Hin) as E. rewrite (kept_chain roots s s1 b i Hmc Hr Hi) in E.
  destruct (reachable_head _ _ _ Hr) as [_ Hk]. destruct (decide (i = 0%nat)) as [->|]; [rewrite Nat.add_0_r, Hk in E; by inversion E|].
  rewrite clen_tail in E by lia. by inversion E.
Qed.

Lemma move_run roots s s1 s2 b b' n : gc_inv s -> guarded s -> gc_lock_depth s = 0 -> (clen s b < n)%nat ->
  ftb s 1 = false -> reachable s roots b -> maybe_collected roots s s1 -> gc_inv s1 -> gc_lock_depth s1 = 0 -> allocated s1 s2 b' n (ftb s b) ->
  (ftb s b = true -> b' <> 1%nat) ->
  exists s', (copy_words b' b (clen s b * WORDS_PER_BLOCK);; gc_free (PTR_FROM_BLOCK s b);; mret (PTR_FROM_BLOCK s b')) s2
    = Some (PTR_FROM_BLOCK s b', s') /\ moved s s1 s' b b' n.
Proof.
  intros I Hg Hl Hn Hf1 Hr Hmc I1 Hl1 A Hfb. destruct (reachable_head _ _ _ Hr) as [Hb Hk].
  destruct (maybe_collected_total _ _ _ Hmc) as [Et1 EP1]. pose proof (clen_bound s b (inv_heap s I Hg) Hb) as Hc.
  destruct (al_room _ _ _ _ _ A) as [Hn0 Hroom]. rewrite Et1 in Hroom. pose proof (al_inv _ _ _ _ _ A) as I2.
  assert (Et2 : total_blocks s2 = total_blocks s) by (unfold total_blocks at 1; rewrite (al_len _ _ _ _ _ A); exact Et1).
  assert (Hsmall : (1 < total_blocks s)%nat) by (pose proof (h_pos _ (i_wf _ I)); unfold total_blocks, BLOCKS_PER_ATB; lia).
  assert (Ep1 : gc_pool s1 = gc_pool s) by (destruct Hmc as [->|(_ & _ & C)]; [done|apply (c_still _ _ _ C)]).
  assert (Ef1 : ftb s1 1 = false).
  { destruct Hmc as [->|(_ & _ & C)]; [done|]. destruct (ftb s1 1) eqn:E; [|done]. apply (c_ftb _ _ _ C) in E as [E _]; [|done]. by rewrite Hf1 in E. }
  assert (Ef2 : ftb s2 1 = false).
  { rewrite (al_ftb _ _ _ _ _ A) by lia. case_decide as E; [|done]. destruct (ftb s b); [by destruct Hfb|done]. }
  pose proof (kept_clen roots s s1 b I Hg I1 ltac:(intros E; by rewrite Ef1 in E) Hb Hk Hmc Hr) as Ec1.
  assert (Hlen : length (gc_pool s) = (total_blocks s * WORDS_PER_BLOCK)%nat) by apply I.
  assert (Hlen2 : length (gc_pool s2) = (total_blocks s * WORDS_PER_BLOCK)%nat) by (rewrite <- Et2; apply I2).
  set (w := (clen s b * WORDS_PER_BLOCK)%nat). assert (Hwd : (b' * WORDS_PER_BLOCK + w <= total_blocks s * WORDS_PER_BLOCK)%nat) by (unfold w; nia).
  assert (Hws : (b * WORDS_PER_BLOCK + w <= total_blocks s * WORDS_PER_BLOCK)%nat) by (unfold w; nia).
  rewrite (M_bind_Some _ _ _ _ _ (copy_words_run s2 b' b w (i_wf _ I2) ltac:(rewrite Et2; lia) ltac:(rewrite Et2; lia))).
  set (s3 := with_pool _ s2). assert (I3 : gc_inv s3) by (apply inv_pool; [done|apply length_copied; lia]).
  assert (Hg3 : guarded s3) by (intros E; change (ftb s2 1 = true) in E; by rewrite Ef2 in E).
  assert (Hap : forall i, (i < clen s b)%nat -> ~ (b' <= b + i < b' + n)%nat) by (intros i; by apply (kept_apart s s1 s2 b b' n (ftb s b) roots i I)).
  assert (Hk3 : forall i, (i < clen s b)%nat -> kind s3 (b + i) = kind s (b + i)).
  { intros i Hi. pose proof (Hap i Hi). change (kind s2 (b + i) = kind s (b + i)). rewrite (al_kind _ _ _ _ _ A) by lia.
    rewrite !decide_False by lia. by apply (kept_chain roots). }
  assert (Ec3 : clen s3 b = clen s b).
  { change (total_blocks s3) with (total_blocks s2) in *. apply clen_exact; [unfold clen; lia|change (b + clen s b <= total_blocks s2)%nat; lia| |].
    - intros i Hi. rewrite Hk3 by lia. by apply clen_tail.
    - change (kind s2 (b + clen s b) <> AT_TAIL). destruct (decide (b + clen s b = total_blocks s)%nat) as [E|].
      + rewrite E, <- Et2, guard_bits by apply I2. by rewrite Ef2; intros [? _].
      + rewrite (al_kind _ _ _ _ _ A) by lia. case_decide; [done|]. pose proof (Hap (clen s b - 1)%nat ltac:(unfold clen; lia)).
        rewrite decide_False by lia. rewrite <- Ec1. apply clen_end; [apply inv_heap; [done|by intros E; rewrite Ef1 in E]|lia]. }
  assert (Ekb : kind s3 b = AT_HEAD) by (pose proof (Hk3 0%nat ltac:(unfold clen; lia)) as E; rewrite Nat.add_0_r in E; by rewrite E).
  destruct (gc_free_run s3 b I3 Hg3) as (s' & Hrun & Rel); [by change (gc_lock_depth s2 = 0); rewrite (al_lock _ _ _ _ _ A)|change (b < total_blocks s2)%nat; lia|done|].
  assert (EP3 : PTR_FROM_BLOCK s3 b = PTR_FROM_BLOCK s b).
  { rewrite <- (EP1 b). unfold PTR_FROM_BLOCK. change (gc_pool_start s3) with (gc_pool_start s2). by rewrite (al_start _ _ _ _ _ A). }
  rewrite EP3 in Hrun. rewrite (M_bind_Some _ _ _ _ _ Hrun). exists s'. split; [done|].
  destruct (re_same _ _ _ Rel) as (El' & Epool & Es' & Elk' & Efin' & _).
  assert (Epool' : gc_pool s' = copied b' b w (zeroed b' n (gc_pool s))).
  { rewrite Epool. change (gc_pool s3) with (copied b' b w (gc_pool s2)). by rewrite (al_pool _ _ _ _ _ A), Ep1. }
  assert (Hlz : length (zeroed b' n (gc_pool s)) = (total_blocks s * WORDS_PER_BLOCK)%nat) by (rewrite length_zeroed; nia).
  constructor.
  - apply Rel.
  - split; [done|]. split; [done|]. pose proof (Hap 0%nat ltac:(unfold clen; lia)). lia.
  - done.
  - rewrite El', Es', Elk', Efin'. destruct A. done.
  - intros x Hx. rewrite (re_ftb _ _ _ Rel) by (change (x < total_blocks s2)%nat; lia). change (ftb s3 x) with (ftb s2 x).
    rewrite (al_ftb _ _ _ _ _ A) by lia. pose proof (Hap 0%nat ltac:(unfold clen; lia)).
    destruct (decide (x = b')); [rewrite bool_decide_eq_false_2 by lia; by rewrite andb_true_r|].
    destruct (decide (x = b)); [rewrite bool_decide_eq_true_2 by done; apply andb_false_r|rewrite bool_decide_eq_false_2 by done; apply andb_true_r].
  - done.
  - intros x Hx Hout. rewrite Epool'. pose proof (pool_words_copied_other b' b w n x 1 (zeroed b' n (gc_pool s))) as E1.
    pose proof (pool_words_zeroed b' n x 1 (gc_pool s)) as E2. rewrite !Nat.mul_1_l in E1, E2. rewrite E1, E2; [done|nia|lia|unfold w; nia|nia|lia|lia].
  - intros x Hx. rewrite (re_kind _ _ _ Rel), Ec3 by (change (x < total_blocks s2)%nat; lia).
    change (kind s3 x) with (kind s2 x). rewrite (al_kind _ _ _ _ _ A) by lia.
    destruct (decide (b <= x < b + clen s b)%nat) as [Hin|]; [|done].
    pose proof (Hap (x - b)%nat ltac:(lia)). rewrite !decide_False by lia. done.
  - rewrite Epool'. fold w. rewrite pool_words_copied by lia. apply pool_words_zeroed; [nia|].
    pose proof (Hap 0%nat ltac:(unfold clen; lia)). pose proof (Hap (clen s b - 1)%nat ltac:(unfold clen; lia)).
    destruct (decide (b + clen s b <= b')%nat); [by left|right]. destruct (decide (b' + n <= b)%nat); [done|]. exfalso.
    destruct (decide (b' <= b)%nat); [lia|]. apply (Hap (b' - b)%nat); lia.
Qed.

(** ** [gc_realloc] *)

Definition room s (b n : nat) : Prop := (b + n <= total_blocks s)%nat /\ run_free s (b + clen s b) (n - clen s b).

Definition realloc_moves roots s (b n : nat) (res : option (Z * gc_state)) : Prop :=
  exists s1, maybe_collected roots s s1 /\ gc_inv s1
  /\ (res = Some (0, s1) /\ (forall x, (x + n <= total_blocks s)%nat -> ~ run_free s1 x n)
      \/ (exists b' s', res = Some (PTR_FROM_BLOCK s b', s') /\ moved s s1 s' b b' n)
      \/ ftb s b = true /\ run_free s1 1 n /\ ~ run_free s1 0 n).

Lemma gc_realloc_run roots s b n_bytes mv : let n := blocks_for n_bytes in
  gc_inv s -> guarded s -> gc_lock_depth s = 0 -> (b < total_blocks s)%nat -> kind s b = AT_HEAD -> n_bytes <> 0 -> n <> 0%nat ->
  ((n <= clen s b)%nat \/ room s b n -> exists s', gc_realloc roots (PTR_FROM_BLOCK s b) n_bytes mv s = Some (PTR_FROM_BLOCK s b, s') /\ resized s s' b n)
  /\ ((clen s b < n)%nat -> ~ room s b n ->
      (mv = false -> gc_realloc roots (PTR_FROM_BLOCK s b) n_bytes mv s = Some (0, s))
      /\ (mv = true -> ftb s 1 = false -> reachable s roots b ->
           realloc_moves roots s b n (gc_realloc roots (PTR_FROM_BLOCK s b) n_bytes mv s))).
Proof.
  intros n I Hg Hl Hb Hk Hnb Hn. pose proof (inv_heap s I Hg) as H. destruct (ptr_of_block s b (i_wf _ I) Hb) as (HV & HB & Hne).
  unfold gc_realloc. rewrite (proj2 (Z.eqb_neq _ _) Hne), (proj2 (Z.eqb_neq _ _) Hnb). rewrite (M_bind_Some mget _ s s s) by done.
  rewrite Hl. cbn [Z.ltb Z.compare]. rewrite HV. rewrite (M_bind_Some (massert true) _ s tt s) by done. rewrite HB. cbv zeta.
  pose proof (heap_in_tables s b (i_wf _ I) ltac:(lia)) as Hi. rewrite (M_bind_Some _ _ _ _ _ (get_kind_run s b Hi)), Hk.
  rewrite (M_bind_Some (massert _) _ s tt s) by done. fold n.
  destruct (realloc_scan_run s b n I Hg Hb) as (f & Hscan & Hf & Hfree & Hend). rewrite (M_bind_Some _ _ _ _ _ Hscan). cbv beta iota.
  split.
  - intros Hcase. destruct (Nat.eqb_spec n (clen s b)) as [En|Hne'].
    { exists s. split; [done|]. constructor; try done; try apply I.
      - intros x Hx. rewrite Nat.min_l by lia. rewrite En. repeat case_decide; done.
      - destruct (Nat.ltb_spec (clen s b) n); [lia|done]. }
    destruct (Nat.ltb_spec n (clen s b)); [apply shrink_run; try done; lia|]. destruct Hcase as [|[Hroom Hrf] ]; [lia|].
    assert (Hle : (n <= clen s b + f)%nat).
    { destruct Hend as [|[|Hnf] ]; [done|lia|]. destruct (decide (n <= clen s b + f)%nat); [done|]. destruct Hnf. apply Hrf. lia. }
    rewrite (proj2 (Nat.leb_le _ _) Hle). apply extend_run; try done; lia.
  - intros Hlt Hno. assert (Hgt : (clen s b + f < n)%nat).
    { destruct (decide (n <= clen s b + f)%nat); [|lia]. destruct Hno. split; [lia|]. intros x Hx. apply Hfree. lia. }
    rewrite (proj2 (Nat.eqb_neq _ _)), (proj2 (Nat.ltb_ge _ _)), (proj2 (Nat.leb_gt _ _)) by lia.
    rewrite (M_bind_Some _ _ _ _ _ (ftb_get_run s b (i_wf _ I) Hb)). split; [by intros ->|]. intros -> Hf1 Hr. cbn [negb].
    destruct (proj2 (gc_alloc_run roots s n_bytes (ftb s b) I Hg) Hn Hl) as (r & s2 & Hrun & s1 & Hmc & I1 & Hres). rewrite (M_bind_Some _ _ _ _ _ Hrun).
    destruct (maybe_collected_total _ _ _ Hmc) as [Et1 EP1]. exists s1. split; [done|]. split; [done|].
    destruct Hres as [(-> & -> & _ & Hnone)|(b' & -> & A & Hfirst)]; [by left|]. right.
    destruct (decide (ftb s b = true /\ b' = 1%nat)) as [[Hfb ->]|Hfb].
    { right. split; [done|]. split; [apply A|apply Hfirst; lia]. }
    left.
    destruct (al_room _ _ _ _ _ A) as [_ Hroom]. rewrite Et1 in Hroom.
    destruct (ptr_of_block s b' (i_wf _ I) ltac:(lia)) as (_ & HB' & Hne'). rewrite (proj2 (Z.eqb_neq _ _) Hne'), HB'.
    assert (Hl1 : gc_lock_depth s1 = 0).
    { destruct Hmc as [->|(_ & Hcr & _)]; [done|]. destruct (collect_inv_run roots s I Hg) as (s1' & Hcr' & _ & _ & E). rewrite Hcr in Hcr'. injection Hcr' as <-. congruence. }
    destruct (move_run roots s s1 s2 b b' n I Hg Hl Hlt Hf1 Hr Hmc I1 Hl1 A ltac:(tauto)) as (s' & Hrun' & Hm). by exists b', s'.
Qed.

End Realloc.
