(* ===== verification/GcHeapThms.v ===== *)
(** Properties of the allocator of [Gc]: the layout, the invariant, allocation,
    release and reallocation, and what happens at the end of the heap. *)
From S2P Require Import Prelude Gc GcSpec GcMark GcSweep GcThms GcAlloc GcHeap GcRealloc.

Section Theorems.
Context {cfg : GcCfg}.
Implicit Types s : gc_state.

(** ** Layout *)

Lemma table_len_bounds t : 0 <= t -> t * 8 < 2 ^ (8 * BYTES_PER_WORD) ->
  let a := gc_table_len t in let f := gc_finaliser_len a in
  0 <= a /\ 0 <= f /\ a + f + a * 4 * BYTES_PER_BLOCK <= t /\ 2 * t < (a + 1) * (3 + 8 * BYTES_PER_BLOCK) /\ 2 * f <= a + 1 /\ a <= 2 * f.
Proof.
  intros Ht Hw. pose proof bpb_pos as HB. unfold gc_table_len. rewrite wrap_id by lia.
  replace (8 + 8 * 4 / 8 + 8 * 4 * BYTES_PER_BLOCK) with (12 + 32 * BYTES_PER_BLOCK) by (change (8 * 4 / 8) with 4; lia).
  cbv zeta. set (d := 12 + 32 * BYTES_PER_BLOCK). set (a := t * 8 / d).
  pose proof (Z.div_pos (t * 8) d ltac:(lia) ltac:(lia)) as Ha. fold a in Ha.
  assert (Hd : d <> 0) by lia. pose proof (Z.mul_div_le (t * 8) d ltac:(lia)) as H1. pose proof (Z.mul_succ_div_gt (t * 8) d ltac:(lia)) as H2. fold a in H1, H2.
  unfold gc_finaliser_len. set (f := (a * 4 + 8 - 1) / 8). pose proof (Z.div_mod (a * 4 + 8 - 1) 8 ltac:(lia)) as H3.
  pose proof (Z.mod_pos_bound (a * 4 + 8 - 1) 8 ltac:(lia)) as H4. fold f in H3. assert (0 <= f) by (apply Z.div_pos; lia).
  unfold d in *. split; [done|]. split; [done|]. split; [nia|]. split; [nia|]. split; lia.
Qed.

Lemma init_tables_free n b a : a = replicate n 0 -> match a !! (b / 4)%nat with Some x => atb_kind x b | None => AT_FREE end = AT_FREE.
Proof.
  intros ->. destruct (replicate n 0 !! (b / 4)%nat) as [x|] eqn:E; [|done]. apply lookup_replicate in E as [-> _].
  unfold atb_kind. by rewrite Z.shiftr_0_l.
Qed.

(** The state that [gc_init] makes. *)
Lemma gc_init_run start end_ pool : 0 < start -> start <= Z.land end_ (Z.lnot (BYTES_PER_BLOCK - 1)) -> (end_ - start) * 8 < 2 ^ (8 * BYTES_PER_WORD) ->
  (forall n, length (pool n) = n) ->
  let top := Z.land end_ (Z.lnot (BYTES_PER_BLOCK - 1)) in
  exists s, gc_init start end_ pool = Some s
  /\ start + Z.of_nat (length (gc_tables s)) <= gc_pool_start s /\ gc_pool_end s = top
  /\ 2 * (top - start) < (Z.of_nat (gc_alloc_table_byte_len s) + 1) * (3 + 8 * BYTES_PER_BLOCK)
  /\ (forall b, kind s b = AT_FREE /\ ftb s b = false)
  /\ ((0 < total_blocks s)%nat -> gc_inv s).
Proof.
  intros Hs Ht Hw Hp top. pose proof bpb_pos as HB. unfold gc_init. fold top. cbv zeta.
  assert (Hle : top <= end_) by (unfold top; rewrite block_align; pose proof (Z.mod_pos_bound end_ BYTES_PER_BLOCK HB); lia).
  destruct (table_len_bounds (top - start)) as (Ha & Hf & Hfit & Hwaste & Hf1 & Hf2); [lia|lia|].
  set (a := gc_table_len (top - start)) in *. set (f := gc_finaliser_len a) in *.
  rewrite (proj2 (Z.leb_le _ _)) by lia.
  set (s := MkGc _ _ _ _ _ _ _ _ _ _ _). exists s. split; [done|].
  assert (Et : total_blocks s = Z.to_nat (a * 4)) by (unfold total_blocks, BLOCKS_PER_ATB; cbn [gc_alloc_table_byte_len s]; lia).
  assert (Hk : forall b, kind s b = AT_FREE /\ ftb s b = false).
  { intros b. split; [by apply (init_tables_free (Z.to_nat (a + f)))|]. unfold ftb, s. cbn [gc_tables gc_alloc_table_byte_len].
    destruct (replicate (Z.to_nat (a + f)) 0 !! (Z.to_nat a + b / 8)%nat) as [x|] eqn:E; [|done]. apply lookup_replicate in E as [-> _]. apply Z.testbit_0_l. }
  split; [cbn [gc_tables gc_pool_start s]; rewrite length_replicate; lia|].
  split; [unfold gc_pool_end; rewrite Et; cbn [gc_pool_start s]; lia|]. split; [cbn [gc_alloc_table_byte_len s]; lia|]. split; [done|]. intros Hpos.
  assert (Hm : top mod BYTES_PER_BLOCK = 0).
  { unfold top. rewrite block_align. rewrite Zminus_mod, Z.mod_mod, Z.sub_diag by lia. by rewrite Z.mod_0_l by lia. }
  constructor.
  - constructor.
    + unfold tables_ok. cbn [gc_tables s]. apply Forall_replicate. lia.
    + cbn [gc_tables gc_alloc_table_byte_len s]. rewrite length_replicate. rewrite Z2Nat.inj_add by lia. f_equal.
      unfold f, gc_finaliser_len. rewrite Z2Nat.inj_div by lia. f_equal. lia.
    + unfold total_blocks in Hpos. lia.
    + cbn [gc_pool s]. rewrite Hp, Et. done.
    + cbn [gc_pool_start s]. split; [lia|]. replace (top - a * 4 * BYTES_PER_BLOCK) with (top + (- (a * 4)) * BYTES_PER_BLOCK) by lia.
      by rewrite Z_mod_plus_full.
  - split; [by rewrite (proj1 (Hk 0%nat))|]. split; intros b _; rewrite (proj1 (Hk _)); [by intros [=]|done].
  - intros b Hb. cbn [gc_last_free_atb_index s] in Hb. lia.
  - intros b _. by rewrite (proj2 (Hk b)).
  - cbn [gc_lock_depth s]. lia.
Qed.

(** [gc_init] lays the heap out inside the memory it is given: its assertion holds,
    the allocation table and the finaliser table end before the pool starts, the
    pool ends with the last whole block, less than one more byte of the allocation
    table would fit, and every block is free. *)
Theorem gc_init_layout start end_ pool : 0 < start -> start <= Z.land end_ (Z.lnot (BYTES_PER_BLOCK - 1)) -> (end_ - start) * 8 < 2 ^ (8 * BYTES_PER_WORD) ->
  (forall n, length (pool n) = n) ->
  exists s, gc_init start end_ pool = Some s
  /\ start + Z.of_nat (length (gc_tables s)) <= gc_pool_start s
  /\ gc_pool_end s <= end_ < gc_pool_end s + BYTES_PER_BLOCK
  /\ 2 * (gc_pool_end s - start) < (Z.of_nat (gc_alloc_table_byte_len s) + 1) * (3 + 8 * BYTES_PER_BLOCK)
  /\ (forall b, kind s b = AT_FREE)
  /\ ((0 < total_blocks s)%nat -> gc_inv s /\ guarded s).
Proof.
  intros Hs Ht Hw Hp. destruct (gc_init_run start end_ pool Hs Ht Hw Hp) as (s & Hrun & H1 & H2 & H3 & H4 & H5). exists s.
  split; [done|]. split; [done|]. split; [rewrite H2, block_align; pose proof (Z.mod_pos_bound end_ BYTES_PER_BLOCK bpb_pos); lia|].
  split; [by rewrite H2|]. split; [intros b; apply H4|]. intros Hpos. split; [by apply H5|]. intros E. by rewrite (proj2 (H4 1%nat)) in E.
Qed.

(** ** Allocation *)

(** C7 [gc_alloc] on a heap in its invariant, with or without a collection on the way,
    whose finaliser bits of blocks 0 and 1 do not look like a tail block ([guarded]).
    For no bytes or a locked heap it returns [NULL] and changes nothing.  Otherwise
    the result is either [NULL], after a collection if that was allowed, and no run
    of free blocks is long enough; or the first such run, now a chain of its own that
    is filled with zeros and has a finaliser bit as asked for.  No other block
    changes.  The index of the first free table byte never hides a free block. *)
Theorem gc_alloc_correct roots s n_bytes fin : gc_inv s -> guarded s ->
  (blocks_for n_bytes = 0%nat \/ 0 < gc_lock_depth s -> gc_alloc roots n_bytes fin s = Some (0, s))
  /\ (blocks_for n_bytes <> 0%nat -> gc_lock_depth s = 0 ->
      exists r s' s1, gc_alloc roots n_bytes fin s = Some (r, s') /\ maybe_collected roots s s1 /\ gc_inv s'
      /\ (r = 0 /\ s' = s1 /\ (gc_auto_collect_enabled s = true -> gc_collect roots s = Some (tt, s1))
            /\ (forall x, (x + blocks_for n_bytes <= total_blocks s)%nat -> ~ run_free s1 x (blocks_for n_bytes))
          \/ exists b, r = PTR_FROM_BLOCK s b /\ allocated s1 s' b (blocks_for n_bytes) fin
            /\ forall x, (x < b)%nat -> ~ run_free s1 x (blocks_for n_bytes))).
Proof.
  intros I Hg. destruct (gc_alloc_run roots s n_bytes fin I Hg) as [H1 H2]. split; [done|]. intros Hn Hl.
  destruct (H2 Hn Hl) as (r & s' & Hrun & s1 & Hmc & I1 & Hres). exists r, s', s1. split; [done|]. split; [done|].
  destruct Hres as [(-> & -> & Hc & Hno)|(b & -> & A & Hf)].
  - split; [done|]. by left.
  - split; [apply A|]. right. by exists b.
Qed.

(** Round trip: the block that [gc_alloc] returned has the size asked for, rounded
    up to blocks, and [gc_free] gives back the kinds and finaliser bits of all
    blocks as they were before it was taken. *)
Theorem gc_alloc_free_roundtrip s s1 b n fin : gc_inv s -> allocated s s1 b n fin -> guarded s1 -> gc_lock_depth s = 0 ->
  gc_nbytes (PTR_FROM_BLOCK s b) s1 = Some (Z.of_nat n * BYTES_PER_BLOCK, s1)
  /\ exists s2, gc_free (PTR_FROM_BLOCK s b) s1 = Some (tt, s2) /\ gc_inv s2
     /\ forall x, (x < total_blocks s)%nat -> kind s2 x = kind s x /\ (x <> b -> ftb s2 x = ftb s x) /\ ftb s2 b = false.
Proof.
  intros I A Hg Hl. pose proof (al_inv _ _ _ _ _ A) as I1. destruct (al_room _ _ _ _ _ A) as [Hn Hb].
  assert (Et : total_blocks s1 = total_blocks s) by (unfold total_blocks; by rewrite (al_len _ _ _ _ _ A)).
  assert (EP : PTR_FROM_BLOCK s1 b = PTR_FROM_BLOCK s b) by (unfold PTR_FROM_BLOCK; by rewrite (al_start _ _ _ _ _ A)).
  assert (Hk : kind s1 b = AT_HEAD) by (rewrite (al_kind _ _ _ _ _ A) by lia; by case_decide).
  assert (Ht : forall i, (1 <= i < n)%nat -> kind s1 (b + i) = AT_TAIL).
  { intros i Hi. rewrite (al_kind _ _ _ _ _ A) by lia. rewrite decide_False, decide_True by lia. done. }
  assert (Hend : kind s1 (b + n) <> AT_TAIL).
  { destruct (decide (b + n = total_blocks s)%nat) as [E|]; [rewrite E, <- Et; apply h_guard, inv_heap; done|].
    rewrite (al_kind _ _ _ _ _ A) by lia. rewrite !decide_False by lia. intros E. destruct (i_chains _ I) as (_ & H2 & _).
    apply (H2 (b + n - 1)%nat); [lia| |apply (al_free _ _ _ _ _ A); lia]. by replace (S (b + n - 1)) with (b + n)%nat by lia. }
  assert (Ec : clen s1 b = n) by (apply clen_exact; [done|lia|done|done]).
  rewrite <- EP. split; [by rewrite gc_nbytes_run, Ec by (try done; lia)|].
  destruct (gc_free_run s1 b I1 Hg) as (s2 & Hrun & Rel); [by rewrite (al_lock _ _ _ _ _ A)|lia|done|].
  exists s2. split; [done|]. split; [apply Rel|]. intros x Hx. rewrite (re_kind _ _ _ Rel), Ec by lia. split; [|split].
  - destruct (decide (b <= x < b + n)%nat) as [Hin|]; [by rewrite (al_free _ _ _ _ _ A)|]. rewrite (al_kind _ _ _ _ _ A) by lia.
    by rewrite !decide_False by lia.
  - intros Hne. rewrite (re_ftb _ _ _ Rel), (al_ftb _ _ _ _ _ A), decide_False, bool_decide_eq_false_2 by (try done; lia). by rewrite andb_true_r.
  - rewrite (re_ftb _ _ _ Rel), bool_decide_eq_true_2 by (try done; lia). by rewrite andb_false_r.
Qed.

(** [gc_free] frees exactly the blocks of the chain and clears its finaliser bit. *)
Theorem gc_free_correct s b : gc_inv s -> guarded s -> gc_lock_depth s = 0 -> (b < total_blocks s)%nat -> kind s b = AT_HEAD ->
  exists s', gc_free (PTR_FROM_BLOCK s b) s = Some (tt, s') /\ gc_pool s' = gc_pool s
  /\ (forall x, (x < total_blocks s)%nat -> kind s' x = (if decide (b <= x < b + clen s b)%nat then AT_FREE else kind s x)
       /\ ftb s' x = ftb s x && negb (bool_decide (x = b))).
Proof.
  intros I Hg Hl Hb Hk. destruct (gc_free_run s b I Hg Hl Hb Hk) as (s' & Hrun & Rel). exists s'. split; [done|].
  split; [apply (re_same _ _ _ Rel)|]. intros x Hx. split; [by apply (re_kind _ _ _ Rel)|by apply (re_ftb _ _ _ Rel)].
Qed.

(** C31 [gc_realloc] of a chain to [n] blocks, on a heap with no finaliser on block 1.
    If it is to shrink, or if enough of the blocks behind it are free, it stays where
    it is, with the other blocks, their contents and all finaliser bits as they were:
    surplus blocks become free, additional ones are filled with zeros.  Else, if it may
    not move, the result is [NULL] and nothing changes; if it may, and it is reachable,
    there is no room anywhere and the result is [NULL], or the result is a new chain with
    the finaliser bit of the old one that starts with its contents and goes on with
    zeros, the old chain is free, and all other blocks, contents and finaliser bits are
    as after the collection, if there was one.  Left open is only where an object with a
    finaliser would go to block 1, after which the guard of the heap is lost. *)
Theorem gc_realloc_correct roots s b n_bytes mv : gc_safe s -> gc_lock_depth s = 0 -> (b < total_blocks s)%nat -> kind s b = AT_HEAD ->
  n_bytes <> 0 -> blocks_for n_bytes <> 0%nat ->
  let n := blocks_for n_bytes in
  ((n <= clen s b)%nat \/ room s b n -> exists s', gc_realloc roots (PTR_FROM_BLOCK s b) n_bytes mv s = Some (PTR_FROM_BLOCK s b, s') /\ resized s s' b n)
  /\ ((clen s b < n)%nat -> ~ room s b n ->
      (mv = false -> gc_realloc roots (PTR_FROM_BLOCK s b) n_bytes mv s = Some (0, s))
      /\ (mv = true -> reachable s roots b ->
           exists s1, maybe_collected roots s s1
           /\ (gc_realloc roots (PTR_FROM_BLOCK s b) n_bytes mv s = Some (0, s1) /\ (forall x, (x + n <= total_blocks s)%nat -> ~ run_free s1 x n)
               \/ (exists b' s', gc_realloc roots (PTR_FROM_BLOCK s b) n_bytes mv s = Some (PTR_FROM_BLOCK s b', s') /\ moved s s1 s' b b' n)
               \/ ftb s b = true /\ run_free s1 1 n /\ ~ run_free s1 0 n))).
Proof.
  intros [I Hf1] Hl Hb Hk Hnb Hn n.
  destruct (gc_realloc_run roots s b n_bytes mv I (safe_guarded s (conj I Hf1)) Hl Hb Hk Hnb Hn) as [H1 H2]. split; [done|].
  intros Hlt Hno. destruct (H2 Hlt Hno) as [H3 H4]. split; [done|]. intros Hmv Hr.
  destruct (H4 Hmv Hf1 Hr) as (s1 & Hmc & _ & Hres). by exists s1.
Qed.

(** ** The invariant *)

Lemma heap_two s : gc_inv s -> (1 < total_blocks s)%nat.
Proof. intros I. pose proof (h_pos _ (i_wf _ I)). unfold total_blocks, BLOCKS_PER_ATB. lia. Qed.

Lemma collected_safe roots s s' : gc_safe s -> collected roots s s' -> gc_inv s' -> gc_safe s'.
Proof.
  intros [I Hf] C I'. split; [done|]. destruct (ftb s' 1) eqn:E; [|done].
  apply (c_ftb _ _ _ C) in E as [E _]; [|by apply heap_two]. congruence.
Qed.

Lemma maybe_collected_safe roots s s1 : gc_safe s -> maybe_collected roots s s1 -> gc_inv s1 -> gc_safe s1.
Proof. intros S [->|(_ & _ & C)] I1; [done|by eapply collected_safe]. Qed.

Lemma alloc_safe roots s n_bytes fin : gc_safe s -> exists r s', gc_alloc roots n_bytes fin s = Some (r, s') /\ gc_inv s'
  /\ (gc_safe s' \/ fin = true /\ r = PTR_FROM_BLOCK s 1 /\ ftb s' 1 = true).
Proof.
  intros S. pose proof S as [I Hf]. destruct (gc_alloc_run roots s n_bytes fin I (safe_guarded s S)) as [H1 H2].
  destruct (decide (blocks_for n_bytes = 0%nat)) as [|Hn]; [exists 0, s; split; [apply H1; by left|split; [done|by left] ]|].
  destruct (decide (gc_lock_depth s = 0)) as [Hl|Hl]; [|exists 0, s; split; [apply H1; right; pose proof (i_lock _ I); lia|split; [done|by left] ] ].
  destruct (H2 Hn Hl) as (r & s' & Hrun & s1 & Hmc & I1 & Hres). exists r, s'. split; [done|].
  pose proof (maybe_collected_safe roots s s1 S Hmc I1) as S1.
  destruct Hres as [(_ & -> & _)|(b & -> & A & _)]; [split; [done|by left]|]. split; [apply A|].
  pose proof (al_ftb _ _ _ _ _ A 1%nat (heap_two _ I1)) as E. destruct (decide (1%nat = b)) as [<-|].
  - destruct fin; [by right|left]. split; [apply A|done].
  - left. split; [apply A|]. rewrite E. apply S1.
Qed.

Lemma free_safe s b : gc_safe s -> (b < total_blocks s)%nat -> kind s b = AT_HEAD -> gc_lock_depth s = 0 ->
  exists s', gc_free (PTR_FROM_BLOCK s b) s = Some (tt, s') /\ gc_safe s'.
Proof.
  intros S Hb Hk Hl. pose proof S as [I Hf]. destruct (gc_free_run s b I (safe_guarded s S) Hl Hb Hk) as (s' & Hrun & Rel). exists s'. split; [done|].
  split; [apply Rel|]. by rewrite (re_ftb _ _ _ Rel), Hf by (by apply heap_two).
Qed.

Lemma realloc_safe roots s b n_bytes mv : gc_safe s -> (b < total_blocks s)%nat -> kind s b = AT_HEAD -> gc_lock_depth s = 0 ->
  blocks_for n_bytes <> 0%nat -> (mv = true -> reachable s roots b) ->
  (exists r s', gc_realloc roots (PTR_FROM_BLOCK s b) n_bytes mv s = Some (r, s') /\ gc_safe s')
  \/ mv = true /\ ftb s b = true /\ exists s1, maybe_collected roots s s1 /\ run_free s1 1 (blocks_for n_bytes) /\ ~ run_free s1 0 (blocks_for n_bytes).
Proof.
  intros S Hb Hk Hl Hn Hr. pose proof S as [I Hf]. destruct (decide (n_bytes = 0)) as [->|Hnb].
  { left. destruct (free_safe s b S Hb Hk Hl) as (s' & Hrun & S'). exists 0, s'. split; [|done].
    destruct (ptr_of_block s b (i_wf _ I) Hb) as (_ & _ & Hne). unfold gc_realloc. rewrite (proj2 (Z.eqb_neq _ _) Hne), Z.eqb_refl.
    by rewrite (M_bind_Some _ _ _ _ _ Hrun). }
  destruct (gc_realloc_run roots s b n_bytes mv I (safe_guarded s S) Hl Hb Hk Hnb Hn) as [H1 H2].
  assert (Hin : (blocks_for n_bytes <= clen s b)%nat \/ room s b (blocks_for n_bytes) ->
    exists r s', gc_realloc roots (PTR_FROM_BLOCK s b) n_bytes mv s = Some (r, s') /\ gc_safe s').
  { intros Hc. destruct (H1 Hc) as (s' & Hrun & Rs). eexists _, s'. split; [done|]. split; [apply Rs|]. by rewrite (rs_ftb _ _ _ _ Rs) by (by apply heap_two). }
  destruct (decide (blocks_for n_bytes <= clen s b)%nat) as [Hle|Hlt]; [left; by apply Hin; left|].
  destruct (realloc_scan_run s b (blocks_for n_bytes) I (safe_guarded s S) Hb) as (f & _ & Hff & Hfree & Hend).
  destruct (decide (blocks_for n_bytes <= clen s b + f)%nat) as [Hle|Hgt].
  { left. apply Hin. right. split; [lia|]. intros x Hx. apply Hfree. lia. }
  destruct H2 as [H3 H4]; [lia| |].
  { intros [Hr1 Hr2]. destruct Hend as [|[|Hne] ]; [lia|lia|]. apply Hne, Hr2. lia. }
  destruct mv; [|left; exists 0, s; split; [by apply H3|done] ].
  destruct (H4 eq_refl Hf (Hr eq_refl)) as (s1 & Hmc & I1 & Hres). pose proof (maybe_collected_safe roots s s1 S Hmc I1) as S1.
  destruct Hres as [[Hrun _]|[(b' & s' & Hrun & Hm)|(Hfb & Hfree1 & Hno)] ].
  - left. by exists 0, s1.
  - left. eexists _, s'. split; [done|]. split; [apply Hm|]. rewrite (mv_ftb _ _ _ _ _ _ Hm) by (by apply heap_two).
    pose proof (mv_guard _ _ _ _ _ _ Hm). case_decide as E1; [destruct (ftb s b); [by destruct H|done]|]. case_decide; [done|]. apply S1.
  - right. split; [done|]. split; [done|]. by exists s1.
Qed.

(** C6 The invariant of the heap: kinds that form chains, no marks, no free block below
    the index the search starts from, finaliser bits on heads only, and none on block
    1, where it would be taken for a block behind the heap.  [gc_init] establishes it.
    A collection, [gc_sweep_all] and a release keep it, and so does an allocation,
    unless it puts an object with a finaliser on block 1, which keeps all but this last
    part; and a reallocation, in place or of a reachable object, unless it would move
    one with a finaliser there. *)
Theorem gc_invariant roots :
  (forall start end_ pool s, 0 < start -> start <= Z.land end_ (Z.lnot (BYTES_PER_BLOCK - 1)) -> (end_ - start) * 8 < 2 ^ (8 * BYTES_PER_WORD) ->
     (forall n, length (pool n) = n) -> gc_init start end_ pool = Some s -> (0 < total_blocks s)%nat -> gc_safe s)
  /\ forall s, gc_safe s ->
  (exists s', gc_collect roots s = Some (tt, s') /\ gc_safe s')
  /\ (exists s', gc_sweep_all s = Some (tt, s') /\ gc_safe s')
  /\ (forall n_bytes fin, exists r s', gc_alloc roots n_bytes fin s = Some (r, s') /\ gc_inv s'
       /\ (gc_safe s' \/ fin = true /\ r = PTR_FROM_BLOCK s 1 /\ ftb s' 1 = true))
  /\ (forall b, (b < total_blocks s)%nat -> kind s b = AT_HEAD -> gc_lock_depth s = 0 -> exists s', gc_free (PTR_FROM_BLOCK s b) s = Some (tt, s') /\ gc_safe s')
  /\ (forall b n_bytes mv, (b < total_blocks s)%nat -> kind s b = AT_HEAD -> gc_lock_depth s = 0 -> blocks_for n_bytes <> 0%nat -> (mv = true -> reachable s roots b) ->
       (exists r s', gc_realloc roots (PTR_FROM_BLOCK s b) n_bytes mv s = Some (r, s') /\ gc_safe s')
       \/ mv = true /\ ftb s b = true /\ exists s1, maybe_collected roots s s1 /\ run_free s1 1 (blocks_for n_bytes) /\ ~ run_free s1 0 (blocks_for n_bytes)).
Proof.
  split.
  { intros start end_ pool s Hs Ht Hw Hp Hrun Hpos. destruct (gc_init_run start end_ pool Hs Ht Hw Hp) as (s' & Hrun' & _ & _ & _ & Hk & Hi).
    rewrite Hrun in Hrun'. injection Hrun' as <-. split; [by apply Hi|apply Hk]. }
  intros s S. pose proof S as [I Hf]. pose proof (inv_heap s I (safe_guarded s S)) as H. split; [|split; [|split; [|split] ] ].
  - destruct (collect_inv_run roots s I (safe_guarded s S)) as (s' & Hrun & C & I' & _). exists s'. split; [done|by eapply collected_safe].
  - destruct (gc_sweep_all_run s H) as (s' & Hrun & C & El); [apply I|apply I|]. exists s'. split; [done|].
    apply (collected_safe [] s); [done..|]. by apply (collected_inv [] s); [|apply safe_guarded| |].
  - intros n_bytes fin. by apply alloc_safe.
  - intros b. by apply free_safe.
  - intros b n_bytes mv. by apply realloc_safe.
Qed.

(** ** Statistics *)

Definition count_kinds (p : Z -> bool) (n b : nat) s : nat := length (filter (fun x => p (kind s x) = true) (seq b n)).

Lemma count_cons p n b s : count_kinds p (S n) b s = ((if p (kind s b) then 1 else 0) + count_kinds p n (S b) s)%nat.
Proof. unfold count_kinds. cbn [seq]. rewrite list.filter_cons. destruct (p (kind s b)); by case_decide. Qed.

Lemma info_kind_counts k a : 0 <= k < 3 -> a_free (info_kind k a) = (a_free a + if (k =? AT_FREE)%Z then 1 else 0)%nat
  /\ a_used (info_kind k a) = (a_used a + if (k =? AT_FREE)%Z then 0 else 1)%nat.
Proof.
  intros Hk. assert (k = 0 \/ k = 1 \/ k = 2) as [-> |[-> | ->] ] by lia; cbn; lia.
Qed.

Lemma info_next_counts next a : a_free (info_next next a) = a_free a /\ a_used (info_next next a) = a_used a.
Proof. unfold info_next. repeat case_match; done. Qed.

Lemma info_loop_run n b a s : gc_inv s -> (b + n < total_blocks s)%nat ->
  exists a', info_loop n b a s = Some (a', s) /\ a_free a' = (a_free a + count_kinds (fun k => (k =? AT_FREE)%Z) (S n) b s)%nat
  /\ a_used a' = (a_used a + count_kinds (fun k => negb (k =? AT_FREE)%Z) (S n) b s)%nat.
Proof.
  intros I. revert b a. induction n as [|n IH]; intros b a Hb; cbn [info_loop];
    pose proof (heap_in_tables s b (i_wf _ I) ltac:(lia)) as Hi; rewrite (M_bind_Some _ _ _ _ _ (get_kind_run s b Hi));
    pose proof (kind_range s b (h_bytes _ (i_wf _ I)) Hi) as Hr; destruct (i_chains _ I) as (_ & _ & H3); pose proof (H3 b ltac:(lia)) as Hnm; unfold AT_MARK in Hnm;
    destruct (info_kind_counts (kind s b) a ltac:(lia)) as [Ef Eu]; rewrite !(count_cons _ _ b).
  - destruct (info_next_counts None (info_kind (kind s b) a)) as [E1 E2]. exists (info_next None (info_kind (kind s b) a)). split; [done|].
    rewrite E1, E2, Ef, Eu. unfold count_kinds. by destruct (Z.eqb_spec (kind s b) AT_FREE); cbn [negb seq length filter]; split; cbn; lia.
  - pose proof (heap_in_tables s (S b) (i_wf _ I) ltac:(lia)) as Hi1. rewrite (M_bind_Some _ _ _ _ _ (get_kind_run s (S b) Hi1)).
    destruct (info_next_counts (Some (kind s (S b))) (info_kind (kind s b) a)) as [E1 E2].
    destruct (IH (S b) (info_next (Some (kind s (S b))) (info_kind (kind s b) a)) ltac:(lia)) as (a' & Hrun & Hf & Hu). exists a'. split; [done|].
    rewrite Hf, Hu, E1, E2, Ef, Eu. destruct (Z.eqb_spec (kind s b) AT_FREE); cbn [negb]; lia.
Qed.

Lemma count_split p n b s : (count_kinds p n b s + count_kinds (fun k => negb (p k)) n b s)%nat = n.
Proof.
  revert b. induction n as [|n IH]; intros b; [done|]. rewrite !count_cons. specialize (IH (S b)). destruct (p (kind s b)); cbn [negb]; lia.
Qed.

(** [gc_info] counts every block once: the bytes in use and the free bytes are those
    of the blocks of these kinds, and they add up to the size of the pool. *)
Theorem gc_info_correct s : gc_inv s ->
  exists i, gc_info s = Some (i, s)
  /\ i_total i = Z.of_nat (total_blocks s) * BYTES_PER_BLOCK
  /\ i_free i = Z.of_nat (count_kinds (fun k => k =? AT_FREE) (total_blocks s) 0 s) * BYTES_PER_BLOCK
  /\ i_used i = Z.of_nat (count_kinds (fun k => negb (k =? AT_FREE)) (total_blocks s) 0 s) * BYTES_PER_BLOCK
  /\ i_used i + i_free i = i_total i.
Proof.
  intros I. unfold gc_info. rewrite (M_bind_Some mget _ s s s) by done.
  assert (Hpos : (0 < total_blocks s)%nat) by (pose proof (h_pos _ (i_wf _ I)); unfold total_blocks, BLOCKS_PER_ATB; lia).
  destruct (info_loop_run (total_blocks s - 1) 0 (MkAcc 0 0 0 0 0 0 0 0) s I ltac:(lia)) as (a & Hrun & Hf & Hu).
  replace (S (total_blocks s - 1)) with (total_blocks s) in Hf, Hu by lia. rewrite (M_bind_Some _ _ _ _ _ Hrun).
  eexists. split; [done|]. cbn [i_total i_free i_used]. cbn [a_free a_used Nat.add] in Hf, Hu. rewrite Hf, Hu.
  pose proof (count_split (fun k => k =? AT_FREE) (total_blocks s) 0 s) as Hs. split; [unfold gc_pool_end; lia|]. split; [done|]. split; [done|].
  unfold gc_pool_end. rewrite <- Z.mul_add_distr_r, <- Nat2Z.inj_add. rewrite (Nat.add_comm (count_kinds _ _ _ _)), Hs. lia.
Qed.

End Theorems.

(** A small heap of [Gc] on which the theorems are applied, and what goes wrong when
    their conditions fail. *)

(** ** Checking the invariant by computation *)

Section Check.
Context {cfg : GcCfg}.

Definition inv_check (s : gc_state) : bool :=
  let all p := forallb p (seq 0 (total_blocks s)) in
  forallb (fun a => (0 <=? a) && (a <? 256)) (gc_tables s)
  && (gc_alloc_table_byte_len s + (gc_alloc_table_byte_len s * 4 + 7) / 8 =? length (gc_tables s))%nat
  && negb (gc_alloc_table_byte_len s =? 0)%nat
  && (length (gc_pool s) =? total_blocks s * WORDS_PER_BLOCK)%nat
  && (0 <? gc_pool_start s) && (gc_pool_start s mod BYTES_PER_BLOCK =? 0)
  && negb (kind s 0 =? AT_TAIL)
  && all (fun b => negb ((b + 2 <=? total_blocks s)%nat && (kind s (S b) =? AT_TAIL) && (kind s b =? AT_FREE)))
  && all (fun b => negb (kind s b =? AT_MARK))
  && all (fun b => negb ((b <? gc_last_free_atb_index s * BLOCKS_PER_ATB)%nat && (kind s b =? AT_FREE)))
  && all (fun b => negb (ftb s b) || (kind s b =? AT_HEAD))
  && (0 <=? gc_lock_depth s) && (gc_lock_depth s <? 2 ^ 16).

Lemma all_blocks_true s p : forallb p (seq 0 (total_blocks s)) = true -> forall b, (b < total_blocks s)%nat -> p b = true.
Proof. rewrite forallb_forall. intros H b Hb. apply H, in_seq. lia. Qed.

Lemma inv_check_ok s : inv_check s = true -> gc_inv s.
Proof.
  unfold inv_check. cbv zeta. rewrite !andb_true_iff.
  intros [[[[[[[[[[[[Hb Hl] Hp] Hpool] Hs1] Hs2] H0] Ht] Hm] Hlast] Hf] Hd1] Hd2].
  apply Nat.eqb_eq in Hl, Hpool. apply negb_true_iff, Nat.eqb_neq in Hp. apply Z.ltb_lt in Hs1, Hd2. apply Z.eqb_eq in Hs2. apply Z.leb_le in Hd1.
  apply negb_true_iff, Z.eqb_neq in H0. pose proof (all_blocks_true s _ Ht) as Ht'. pose proof (all_blocks_true s _ Hm) as Hm'.
  pose proof (all_blocks_true s _ Hlast) as Hlast'. pose proof (all_blocks_true s _ Hf) as Hf'. cbv beta in *. constructor.
  - constructor; try done. apply Forall_forall. intros a Ha. rewrite forallb_forall in Hb. specialize (Hb a Ha). bool_to_prop. lia.
  - split; [done|]. split.
    + intros b Hb' E1 E2. specialize (Ht' b ltac:(lia)). rewrite E1, E2, (proj2 (Nat.leb_le _ _)) in Ht' by lia. done.
    + intros b Hb' E. specialize (Hm' b Hb'). by rewrite E in Hm'.
  - intros b Hb1 Hb2 E. specialize (Hlast' b Hb2). rewrite E, (proj2 (Nat.ltb_lt _ _) Hb1) in Hlast'. done.
  - intros b Hb' E. specialize (Hf' b Hb'). rewrite E in Hf'. by apply Z.eqb_eq.
  - done.
Qed.
End Check.

(** ** Heaps of eight blocks, in the configuration of the port *)

#[local] Existing Instance esp32.

Definition after {A} (m : M gc_state A) (s : gc_state) : gc_state := match m s with Some (_, s') => s' | None => s end.

Definition heap8 : gc_state :=
  match gc_init 1024 1170 (fun n => replicate n 0) with Some s => s | None => MkGc [] 0 [] 0 0 0 false 0 0 false [] end.

(** Three objects: block 0, with a finaliser and a type; blocks 1 and 2; block 3, to
    which block 1 points. *)
Definition heap_objs : gc_state :=
  let s := after (gc_alloc [] 16 true) heap8 in
  let s := after (gc_alloc [] 20 false) s in
  let s := after (gc_alloc [] 1 false) s in
  with_pool (<[0%nat := 77]> (<[5%nat := PTR_FROM_BLOCK s 3]> (gc_pool s))) s.

Lemma heap8_inv : gc_inv heap8.
Proof. apply inv_check_ok. vm_compute. reflexivity. Qed.

Lemma heap_objs_inv : gc_inv heap_objs.
Proof. apply inv_check_ok. vm_compute. reflexivity. Qed.

Lemma heap_objs_safe : gc_safe heap_objs.
Proof. split; [apply heap_objs_inv|vm_compute; reflexivity]. Qed.

Lemma heap_objs_guarded : guarded heap_objs.
Proof. intros E. vm_compute in E. discriminate. Qed.

Lemma heap8_guarded : guarded heap8.
Proof. intros E. vm_compute in E. discriminate. Qed.

Lemma heap_objs_ok : heap_ok heap_objs.
Proof. apply inv_heap; [apply heap_objs_inv|apply heap_objs_guarded]. Qed.

Lemma heap_objs_unmarked : unmarked_heap heap_objs.
Proof. apply heap_objs_inv. Qed.

(** With block 1 as root, blocks 1 to 3 stay and the object in block 0 is finalised. *)
Lemma gc_collect_witness : exists s', gc_collect [PTR_FROM_BLOCK heap_objs 1] heap_objs = Some (tt, s') /\ finalised s' = [0%nat]
  /\ map (kind s') (seq 0 8) = [0; 1; 2; 1; 0; 0; 0; 0] /\ chains_ok s'.
Proof.
  destruct (gc_collect_correct [PTR_FROM_BLOCK heap_objs 1] heap_objs heap_objs_ok heap_objs_unmarked) as (s' & Hrun & _ & _ & _ & Hc & _);
    [split; vm_compute; [discriminate|reflexivity]|]. exists s'. split; [exact Hrun|]. split; [|split; [|exact Hc] ].
  all: vm_compute in Hrun; injection Hrun as <-; reflexivity.
Defined.

Lemma gc_sweep_all_witness : exists s', gc_sweep_all heap_objs = Some (tt, s') /\ finalised s' = [0%nat].
Proof.
  destruct (gc_sweep_all_correct heap_objs heap_objs_ok heap_objs_unmarked) as (s' & Hrun & _); [split; vm_compute; [discriminate|reflexivity]|]. exists s'. split; [exact Hrun|]. vm_compute in Hrun. injection Hrun as <-. reflexivity.
Defined.

Lemma gc_init_layout_witness : exists s, gc_init 1024 1170 (fun n => replicate n 0) = Some s /\ gc_pool_start s = 1040 /\ gc_inv s.
Proof.
  destruct (gc_init_layout 1024 1170 (fun n => replicate n 0)) as (s & Hrun & _ & _ & _ & _ & Hi);
    [lia|vm_compute; discriminate|vm_compute; reflexivity|intros n; apply length_replicate|]. exists s. split; [exact Hrun|]. vm_compute in Hrun. injection Hrun as <-.
  split; [reflexivity|]. apply Hi. vm_compute. lia.
Defined.

Lemma gc_alloc_witness : exists s', gc_alloc [] 33 true heap_objs = Some (PTR_FROM_BLOCK heap_objs 4, s') /\ gc_inv s'.
Proof.
  pose proof (proj2 (gc_alloc_correct [] heap_objs 33 true heap_objs_inv heap_objs_guarded)) as H.
  destruct H as (r & s' & s1 & Hrun & _ & Hi & _); [vm_compute; discriminate|vm_compute; reflexivity|]. exists s'. split; [|exact Hi].
  vm_compute in Hrun |- *. injection Hrun as <- <-. reflexivity.
Defined.

(** An allocation in [heap_objs], for the round trip *)
Definition heap_more : gc_state := after (gc_alloc [] 33 false) heap_objs.

Lemma heap_more_allocated : allocated heap_objs heap_more 4 3 false.
Proof.
  destruct (gc_alloc_run [] heap_objs 33 false heap_objs_inv heap_objs_guarded) as [_ H].
  destruct H as (r & s' & Hrun & s1 & Hmc & _ & Hres); [vm_compute; discriminate|vm_compute; reflexivity|].
  assert (Hs' : s' = heap_more) by (unfold heap_more, after; by rewrite Hrun). subst s'.
  assert (Hr : r = PTR_FROM_BLOCK heap_objs 4) by (vm_compute in Hrun |- *; congruence). subst r.
  assert (Ef : find_free 3 heap_objs = Some (6, 3)%nat) by (vm_compute; reflexivity).
  destruct (gc_take_run heap_objs 4 3 false heap_objs_inv) as (s2 & Hrun2 & A & _).
  - lia.
  - vm_compute. lia.
  - intros x Hx. assert (Hc : x = 4%nat \/ x = 5%nat \/ x = 6%nat) by lia. destruct Hc as [-> |[-> | ->] ]; vm_compute; reflexivity.
  - intros x Hx Hrf. assert (Hc : kind heap_objs x <> AT_FREE) by (do 4 (destruct x as [|x]; [vm_compute; discriminate|]); lia). apply Hc, Hrf. lia.
  - assert (E : heap_more = s2); [|by rewrite E]. vm_compute in Hrun2. injection Hrun2 as <-. vm_compute. reflexivity.
Qed.

Lemma gc_alloc_free_witness : gc_nbytes (PTR_FROM_BLOCK heap_objs 4) heap_more = Some (48, heap_more).
Proof.
  apply (gc_alloc_free_roundtrip heap_objs heap_more 4 3 false heap_objs_inv heap_more_allocated).
  - intros E. vm_compute in E. discriminate.
  - vm_compute. reflexivity.
Defined.

Lemma gc_free_witness : exists s', gc_free (PTR_FROM_BLOCK heap_objs 1) heap_objs = Some (tt, s') /\ map (kind s') (seq 0 8) = [1; 0; 0; 1; 0; 0; 0; 0].
Proof.
  destruct (gc_free_correct heap_objs 1 heap_objs_inv heap_objs_guarded) as (s' & Hrun & _); [vm_compute; reflexivity|vm_compute; lia|vm_compute; reflexivity|].
  exists s'. split; [exact Hrun|]. vm_compute in Hrun. injection Hrun as <-. reflexivity.
Defined.

Lemma gc_info_witness : exists i, gc_info heap_objs = Some (i, heap_objs) /\ i_used i + i_free i = 128.
Proof.
  destruct (gc_info_correct heap_objs heap_objs_inv) as (i & Hrun & Ht & _ & _ & Hs). exists i. split; [exact Hrun|]. rewrite Hs, Ht. vm_compute. reflexivity.
Defined.

Lemma gc_invariant_witness : gc_safe heap8 /\ exists s', gc_collect [] heap_objs = Some (tt, s') /\ gc_safe s'.
Proof.
  destruct (gc_invariant []) as [Hi H]. split.
  - apply (Hi 1024 1170 (fun n => replicate n 0)); [lia|vm_compute; discriminate|vm_compute; reflexivity|intros n; apply length_replicate| |vm_compute; lia].
    vm_compute. reflexivity.
  - exact (proj1 (H heap_objs heap_objs_safe)).
Defined.

(** Block 1 is not followed by free blocks: the chain moves to block 4. *)
Lemma gc_realloc_witness : exists s1 b' s', gc_realloc [PTR_FROM_BLOCK heap_objs 1] (PTR_FROM_BLOCK heap_objs 1) 40 true heap_objs
    = Some (PTR_FROM_BLOCK heap_objs b', s') /\ moved heap_objs s1 s' 1 b' 3 /\ map (kind s') (seq 0 8) = [1; 0; 0; 1; 1; 2; 2; 0].
Proof.
  assert (Hlt : (1 < total_blocks heap_objs)%nat) by (vm_compute; lia).
  assert (Hp : points_to heap_objs [PTR_FROM_BLOCK heap_objs 1] 1).
  { exists (PTR_FROM_BLOCK heap_objs 1). split; [left|]. vm_compute. split; [reflexivity|]. split; reflexivity. }
  destruct (gc_realloc_correct [PTR_FROM_BLOCK heap_objs 1] heap_objs 1 40 true heap_objs_safe) as [_ H];
    [vm_compute; reflexivity|exact Hlt|vm_compute; reflexivity|discriminate|vm_compute; discriminate|].
  destruct H as [_ H].
  - vm_compute. lia.
  - intros [_ Hr]. specialize (Hr 3%nat). vm_compute in Hr. specialize (Hr ltac:(lia)). discriminate.
  - destruct H as (s1 & _ & [[Hrun _]|[(b' & s' & Hrun & Hm)|[Hrun _] ] ]); [reflexivity|exact (reach_root _ _ _ Hp)| | |].
    + exfalso. vm_compute in Hrun. discriminate.
    + exists s1, b', s'. split; [exact Hrun|]. split; [exact Hm|]. vm_compute in Hrun. injection Hrun as _ <-. reflexivity.
    + exfalso. vm_compute in Hrun. discriminate.
Defined.

(** ** At the end of the heap

    Block 1 has a finaliser bit, block 0 has none, and the last block is in use. *)
Definition heap_end : gc_state :=
  let s := after (gc_alloc [] 16 false) heap8 in
  let s := after (gc_alloc [] 16 true) s in
  after (gc_alloc [] 96 false) s.

(** The loops over a chain read one entry past the allocation table, which is the
    finaliser table.  On a heap that satisfies the invariant, whose last block is in
    use and whose finaliser bits of blocks 0 and 1 are 0 and 1, [gc_nbytes] counts a
    block behind the heap, [gc_free] of the last chain takes away the finaliser of
    block 1, and a collection that marks this chain reads behind the pool. *)
Theorem gc_chain_past_end :
  gc_inv heap_end /\ ~ guarded heap_end /\ ftb heap_end 1 = true
  /\ option_map fst (gc_nbytes (PTR_FROM_BLOCK heap_end 2) heap_end) = Some (7 * 16)
  /\ (exists s', gc_free (PTR_FROM_BLOCK heap_end 2) heap_end = Some (tt, s') /\ ftb s' 1 = false /\ kind s' 1 = AT_HEAD)
  /\ gc_collect [PTR_FROM_BLOCK heap_end 2] heap_end = None.
Proof.
  split; [apply inv_check_ok; vm_compute; reflexivity|]. split; [intros H; vm_compute in H; by discriminate H|].
  split; [vm_compute; reflexivity|]. split; [vm_compute; reflexivity|]. split; [|vm_compute; reflexivity].
  eexists. split; [vm_compute; reflexivity|]. split; vm_compute; reflexivity.
Qed.

(** The number of blocks in [gc_realloc] wraps around: a reallocation to almost [2^32]
    bytes returns the pointer and frees the whole chain. *)
Theorem gc_realloc_size_wraps :
  blocks_for (2 ^ 32 - 8) = 0%nat
  /\ exists s', gc_realloc [] (PTR_FROM_BLOCK heap_objs 1) (2 ^ 32 - 8) true heap_objs = Some (PTR_FROM_BLOCK heap_objs 1, s')
     /\ map (kind s') (seq 0 8) = [1; 0; 0; 1; 0; 0; 0; 0].
Proof. split; [vm_compute; reflexivity|]. eexists. split; [vm_compute; reflexivity|]. vm_compute. reflexivity. Qed.
