(* ===== verification/Addressable.v ===== *)
(** The addressable LEDs, [ports/esp32/modaddressable*.c]: controllers, the
    fixtures chained to a controller, the layers of a fixture, and the buffers
    they share.

    Objects live in stores as in [MpState]; a byte buffer is a block of a store of
    lists, and a pointer into it is the block with an offset, [NULL] being the
    block 0.  An access outside a block, to freed memory or to [NULL] is
    [None].  A word has 32 bits. *)
From S2P Require Import Prelude LinkedList.

(** ** Data *)

Definition MODADD_BPL : Z := 4.

Record modadd_protocol_t := MkProtocol {
  bpl : Z; or_mask : list Z; indices : list Z; num_leading_rate : Z; num_leading_const : Z;
  num_trailing_rate : Z; num_trailing_const : Z; brightness_rightshifts : Z }.

Definition MODADD_R_INDEX : Z := 0.
Definition MODADD_G_INDEX : Z := 1.
Definition MODADD_B_INDEX : Z := 2.
Definition MODADD_A_INDEX : Z := 3.

Definition modadd_protocol_apa102 : modadd_protocol_t := MkProtocol
  4 [224; 0; 0; 0] [MODADD_A_INDEX; MODADD_B_INDEX; MODADD_G_INDEX; MODADD_R_INDEX] 0 4 16 0 3.
Definition modadd_protocol_ws2812 : modadd_protocol_t := MkProtocol
  3 [0; 0; 0] [MODADD_G_INDEX; MODADD_R_INDEX; MODADD_B_INDEX] 0 5 0 0 0.

Definition MODADD_PROTOCOL_APA102 : Z := 0.
Definition MODADD_PROTOCOL_WS2812 : Z := 1.
Definition MODADD_PROTOCOLS_NUM : Z := 2.
Definition MODADD_PROTOCOL_UNKNOWN : Z := 3.

(** [modadd_protocols[i]]; [None] outside the array. *)
Definition modadd_protocols (i : Z) : option modadd_protocol_t :=
  if i =? MODADD_PROTOCOL_APA102 then Some modadd_protocol_apa102
  else if i =? MODADD_PROTOCOL_WS2812 then Some modadd_protocol_ws2812
  else None.

Definition MODADD_OP_SKIP : Z := 0.
Definition MODADD_OP_SET : Z := 1.
Definition MODADD_OP_OR : Z := 2.
Definition MODADD_OP_AND : Z := 3.
Definition MODADD_OP_XOR : Z := 4.
Definition MODADD_OP_MULT : Z := 5.
Definition MODADD_OP_DIV : Z := 6.
Definition MODADD_OP_ADD : Z := 7.
Definition MODADD_OP_SUB : Z := 8.
Definition MODADD_OP_COMP : Z := 9.
Definition MODADD_OP_MASK : Z := 10.
Definition MODADD_OP_NUM : Z := 11.

(** A pointer to bytes. *)
Definition bptr : Type := (nat * Z)%type.
Definition bnull : bptr := (0%nat, 0).
Definition is_null (p : bptr) : bool := (p.1 =? 0)%nat.
Definition padd (p : bptr) (i : Z) : bptr := (p.1, p.2 + i).

(** [p + w * i + c]: byte [c] of LED [i] when a LED takes [w] bytes. *)
Definition byte_at (p : bptr) (w i c : Z) : bptr := padd p (wrap 32 (w * i) + c).

Record addressable_layer_obj_t := MkLayer { lay_fixture : nat; lay_op : Z; lay_data : bptr }.
Record modadd_layer_node_t := MkLayerNode { lay_obj : nat; lay_next : nat }.

(** The name of a fixture is left out. *)
Record addressable_fixture_obj_t := MkFixture {
  fix_id : Z; fix_protocol : Z; fix_leds : Z; fix_ctrl : nat; out_data : bptr; comp_data : bptr;
  fix_brightness : Z; fix_layers : nat }.
Record modadd_fixture_node_t := MkFixtureNode { fix_obj : nat; fix_next : nat }.

(** [ctl_append]: whether the controller has a function to append fixtures. *)
Record modadd_ctrl_t := MkCtrl {
  out_protocol : Z; out_initialized : bool; port_clk : Z; port_dat : Z;
  ctl_head : nat; ctl_data : bptr; ctl_data_len : Z; ctl_append : bool }.

Record leds := MkLed {
  bufs : gmap nat (list Z);
  layer_objs : gmap nat addressable_layer_obj_t; layer_nodes : gmap nat modadd_layer_node_t;
  fixture_objs : gmap nat addressable_fixture_obj_t; fixture_nodes : gmap nat modadd_fixture_node_t;
  ctrls : gmap nat modadd_ctrl_t;
  led_brk : nat; led_oom : list bool;                (* [malloc] *)
  gpio : list (Z * Z) }.                             (* levels that were set: pin, level *)

Definition with_bufs f (s : leds) : leds := MkLed (f (bufs s)) (layer_objs s) (layer_nodes s) (fixture_objs s)
  (fixture_nodes s) (ctrls s) (led_brk s) (led_oom s) (gpio s).
Definition with_layer_objs f (s : leds) : leds := MkLed (bufs s) (f (layer_objs s)) (layer_nodes s) (fixture_objs s)
  (fixture_nodes s) (ctrls s) (led_brk s) (led_oom s) (gpio s).
Definition with_layer_nodes f (s : leds) : leds := MkLed (bufs s) (layer_objs s) (f (layer_nodes s)) (fixture_objs s)
  (fixture_nodes s) (ctrls s) (led_brk s) (led_oom s) (gpio s).
Definition with_fixture_objs f (s : leds) : leds := MkLed (bufs s) (layer_objs s) (layer_nodes s) (f (fixture_objs s))
  (fixture_nodes s) (ctrls s) (led_brk s) (led_oom s) (gpio s).
Definition with_fixture_nodes f (s : leds) : leds := MkLed (bufs s) (layer_objs s) (layer_nodes s) (fixture_objs s)
  (f (fixture_nodes s)) (ctrls s) (led_brk s) (led_oom s) (gpio s).
Definition with_ctrls f (s : leds) : leds := MkLed (bufs s) (layer_objs s) (layer_nodes s) (fixture_objs s)
  (fixture_nodes s) (f (ctrls s)) (led_brk s) (led_oom s) (gpio s).
Definition with_led_malloc b o (s : leds) : leds := MkLed (bufs s) (layer_objs s) (layer_nodes s) (fixture_objs s)
  (fixture_nodes s) (ctrls s) b o (gpio s).
Definition with_gpio e (s : leds) : leds := MkLed (bufs s) (layer_objs s) (layer_nodes s) (fixture_objs s)
  (fixture_nodes s) (ctrls s) (led_brk s) (led_oom s) (gpio s ++ e).

Definition set_op o (l : addressable_layer_obj_t) := MkLayer (lay_fixture l) o (lay_data l).
Definition set_lay_next n (l : modadd_layer_node_t) := MkLayerNode (lay_obj l) n.
Definition set_lay_obj o (l : modadd_layer_node_t) := MkLayerNode o (lay_next l).
Definition set_fix_next n (l : modadd_fixture_node_t) := MkFixtureNode (fix_obj l) n.
Definition set_fix_obj o (l : modadd_fixture_node_t) := MkFixtureNode o (fix_next l).
Definition set_layers n (x : addressable_fixture_obj_t) := MkFixture (fix_id x) (fix_protocol x) (fix_leds x)
  (fix_ctrl x) (out_data x) (comp_data x) (fix_brightness x) n.
Definition set_out p c (x : addressable_fixture_obj_t) := MkFixture (fix_id x) (fix_protocol x) (fix_leds x)
  c p (comp_data x) (fix_brightness x) (fix_layers x).
Definition set_comp_data p (x : addressable_fixture_obj_t) := MkFixture (fix_id x) (fix_protocol x) (fix_leds x)
  (fix_ctrl x) (out_data x) p (fix_brightness x) (fix_layers x).
Definition set_head n (c : modadd_ctrl_t) := MkCtrl (out_protocol c) (out_initialized c) (port_clk c) (port_dat c)
  n (ctl_data c) (ctl_data_len c) (ctl_append c).
Definition set_data p n (c : modadd_ctrl_t) := MkCtrl (out_protocol c) (out_initialized c) (port_clk c) (port_dat c)
  (ctl_head c) p n (ctl_append c).
Definition set_protocol p (c : modadd_ctrl_t) := MkCtrl p (out_initialized c) (port_clk c) (port_dat c)
  (ctl_head c) (ctl_data c) (ctl_data_len c) (ctl_append c).
Definition set_initialized (c : modadd_ctrl_t) := MkCtrl (out_protocol c) true (port_clk c) (port_dat c)
  (ctl_head c) (ctl_data c) (ctl_data_len c) (ctl_append c).

(** ** Memory *)

Definition get_layer (p : nat) : M leds addressable_layer_obj_t := s ← mget; mlift (layer_objs s !! p).
Definition get_layer_node (p : nat) : M leds modadd_layer_node_t := s ← mget; mlift (layer_nodes s !! p).
Definition get_fixture (p : nat) : M leds addressable_fixture_obj_t := s ← mget; mlift (fixture_objs s !! p).
Definition get_fixture_node (p : nat) : M leds modadd_fixture_node_t := s ← mget; mlift (fixture_nodes s !! p).
Definition get_ctrl (p : nat) : M leds modadd_ctrl_t := s ← mget; mlift (ctrls s !! p).

Definition upd_layer p f : M leds unit := x ← get_layer p; mmodify (with_layer_objs <[p := f x]>).
Definition upd_layer_node p f : M leds unit := x ← get_layer_node p; mmodify (with_layer_nodes <[p := f x]>).
Definition upd_fixture p f : M leds unit := x ← get_fixture p; mmodify (with_fixture_objs <[p := f x]>).
Definition upd_fixture_node p f : M leds unit := x ← get_fixture_node p; mmodify (with_fixture_nodes <[p := f x]>).
Definition upd_ctrl p f : M leds unit := x ← get_ctrl p; mmodify (with_ctrls <[p := f x]>).

(** [*p] and [*p = v] on bytes. *)
Definition load (p : bptr) : M leds Z :=
  s ← mget; buf ← mlift (bufs s !! p.1);
  if p.2 <? 0 then mabort else mlift (buf !! Z.to_nat p.2).
Definition store (p : bptr) (v : Z) : M leds unit :=
  s ← mget; buf ← mlift (bufs s !! p.1);
  if (p.2 <? 0) || (Z.of_nat (length buf) <=? p.2) then mabort
  else mmodify (with_bufs <[p.1 := <[Z.to_nat p.2 := v]> buf]>).

(** [memset(p, 0, n)] at the start of a block. *)
Definition memset0 (p : bptr) (n : Z) : M leds unit :=
  s ← mget; buf ← mlift (bufs s !! p.1);
  if negb (p.2 =? 0) || (Z.of_nat (length buf) <? n) then mabort
  else mmodify (with_bufs <[p.1 := replicate (Z.to_nat n) 0 ++ drop (Z.to_nat n) buf]>).

(** The address of a new block, or [NULL]. *)
Definition led_malloc : M leds nat := fun s =>
  match led_oom s with
  | true :: o => Some (0%nat, with_led_malloc (led_brk s) o s)
  | false :: o => Some (led_brk s, with_led_malloc (S (led_brk s)) o s)
  | [] => Some (led_brk s, with_led_malloc (S (led_brk s)) [] s)
  end.

(** [malloc] of bytes.  What new memory contains is not zero. *)
Definition MALLOC_FILL : Z := 0xa5.
Definition malloc_bytes (n : Z) : M leds bptr :=
  p ← led_malloc;
  if (p =? 0)%nat then mret bnull
  else mmodify (with_bufs <[p := replicate (Z.to_nat n) MALLOC_FILL]>);; mret (p, 0).

Definition free_bytes (p : bptr) : M leds unit :=
  s ← mget; mlift (bufs s !! p.1);;
  if p.2 =? 0 then mmodify (with_bufs (delete p.1)) else mabort.

(** ** Loops *)

(** [for (i = i0; n times; i++) body(i)] *)
Fixpoint for_up (n : nat) (i : Z) (body : Z -> M leds unit) : M leds unit :=
  match n with
  | O => mret tt
  | S n => body i;; for_up n (i + 1) body
  end.
Definition for_to (n : Z) (body : Z -> M leds unit) : M leds unit := for_up (Z.to_nat n) 0 body.

(** [for (iter = p; iter != NULL; iter = iter->next) acc = body(iter, acc);] The link
    is read after the body. *)
Fixpoint foreach {A} (fuel : nat) (next : nat -> M leds nat) (body : nat -> A -> M leds A) (iter : nat) (acc : A)
  : M leds A :=
  if (iter =? 0)%nat then mret acc
  else match fuel with
  | O => mabort
  | S fuel =>
      acc ← body iter acc;
      n ← next iter;
      foreach fuel next body n acc
  end.

Definition next_layer (p : nat) : M leds nat := n ← get_layer_node p; mret (lay_next n).
Definition next_fixture (p : nat) : M leds nat := n ← get_fixture_node p; mret (fix_next n).

Definition modadd_layer_foreach {A} (head : nat) (body : nat -> A -> M leds A) (acc : A) : M leds A :=
  s ← mget; foreach (size (layer_nodes s)) next_layer body head acc.
Definition modadd_fixture_foreach {A} (head : nat) (body : nat -> A -> M leds A) (acc : A) : M leds A :=
  s ← mget; foreach (size (fixture_nodes s)) next_fixture body head acc.
