(* ===== verification/AddrOps.v ===== *)
(** The operations of the addressable LEDs: the lists of layers and fixtures, the
    layout of a controller's output buffer, and the Python-level functions
    that build and fill them. *)
From S2P Require Import Prelude LinkedList Addressable.

(** ** Lists of layers, [modaddressable_layer.c] *)

Definition modadd_new_layer_node : M leds nat :=
  p ← led_malloc; if (p =? 0)%nat then mret 0%nat else mmodify (with_layer_nodes <[p := MkLayerNode 0 0]>);; mret p.

Definition modadd_layer_predecessor (successor base : nat) : M leds nat :=
  s ← mget; mlift (find_node lay_next (size (layer_nodes s)) (layer_nodes s)
    (fun _ n => (lay_next n =? successor)%nat) base).
Definition modadd_layer_tail (base : nat) : M leds nat := modadd_layer_predecessor 0 base.

Definition modadd_layer_append (node base : nat) : M leds unit :=
  if (node =? 0)%nat then mret tt
  else
    tail ← modadd_layer_tail base;
    if (tail =? 0)%nat then mret tt
    else upd_layer_node tail (set_lay_next node);; upd_layer_node node (set_lay_next 0).

Definition modadd_layer_append_new (base : nat) : M leds nat :=
  node ← modadd_new_layer_node;
  if (node =? 0)%nat then mret 0%nat else modadd_layer_append node base;; mret node.

Definition modadd_layer_remove (node base : nat) : M leds unit :=
  predecessor ← modadd_layer_predecessor node base;
  if (predecessor =? 0)%nat then mret tt
  else
    n ← get_layer_node node;
    upd_layer_node predecessor (set_lay_next (lay_next n));;
    mmodify (with_layer_nodes (delete node)).

(** ** The output buffer of a controller, [modaddressable.c] *)

Record recomputation := MkRecomp { rdata : bptr; total_leds : Z; protocol_ok : bool }.

(** The pointers that the code compares are to distinct protocols. *)
Definition modadd_fixture_count_leds (protocol : Z) (iter : nat) (r : recomputation) : M leds recomputation :=
  n ← get_fixture_node iter; x ← get_fixture (fix_obj n);
  mlift (modadd_protocols (fix_protocol x));;
  mret (MkRecomp (rdata r) (wrap 32 (total_leds r + fix_leds x))
    (if fix_protocol x =? protocol then protocol_ok r else false)).

Definition modadd_fixture_recomputation (ctrl : nat) (protocol : modadd_protocol_t) (iter : nat) (r : recomputation)
  : M leds recomputation :=
  n ← get_fixture_node iter; x ← get_fixture (fix_obj n);
  upd_fixture (fix_obj n) (set_out (rdata r) ctrl);;
  mret (MkRecomp (padd (rdata r) (wrap 32 (fix_leds x * bpl protocol))) (total_leds r) (protocol_ok r)).

Definition startup_bytes (protocol : modadd_protocol_t) (leds : Z) : Z :=
  if num_leading_rate protocol =? 0 then num_leading_const protocol
  else wrap 32 (leds / num_leading_rate protocol + num_leading_const protocol).
Definition shutdown_bytes (protocol : modadd_protocol_t) (leds : Z) : Z :=
  if num_trailing_rate protocol =? 0 then num_trailing_const protocol
  else wrap 32 (leds / num_trailing_rate protocol + num_trailing_const protocol).
Definition length_required (protocol : modadd_protocol_t) (leds : Z) : Z :=
  wrap 32 (leds * bpl protocol + startup_bytes protocol leds + shutdown_bytes protocol leds).

Definition or_byte (p : bptr) (m : Z) : M leds unit := v ← load p; store p (Z.lor v m).

Definition apply_mask (base : bptr) (protocol : modadd_protocol_t) (led_ind : Z) : M leds unit :=
  for_to (bpl protocol) (fun component_ind =>
    m ← mlift (or_mask protocol !! Z.to_nat component_ind);
    or_byte (byte_at base (bpl protocol) led_ind component_ind) m).

Definition modadd_ctrl_recompute_fixtures (ctrl : nat) : M leds unit :=
  c ← get_ctrl ctrl;
  protocol ← mlift (modadd_protocols (out_protocol c));
  r ← modadd_fixture_foreach (ctl_head c) (modadd_fixture_count_leds (out_protocol c)) (MkRecomp bnull 0 true);
  if negb (protocol_ok r) then mret tt
  else
    let startup := startup_bytes protocol (total_leds r) in
    let required := length_required protocol (total_leds r) in
    (if is_null (ctl_data c) then mret tt
     else if ctl_data_len c <? required then free_bytes (ctl_data c) else mret tt);;
    if required =? 0 then mret tt
    else
      data ← malloc_bytes required;
      if is_null data then mret tt
      else
        upd_ctrl ctrl (set_data data required);;
        memset0 data required;;
        modadd_fixture_foreach (ctl_head c) (modadd_fixture_recomputation ctrl protocol)
          (MkRecomp (padd data startup) (total_leds r) true);;
        for_to (total_leds r) (apply_mask (padd data startup) protocol).

(** ** Lists of fixtures, [modaddressable_fixture.c] *)

Inductive modadd_status_e := MODADD_STAT_OK | MODADD_STAT_ERR.

Definition modadd_fixture_get_ctrl (base : nat) : M leds nat :=
  n ← get_fixture_node base; x ← get_fixture (fix_obj n); mret (fix_ctrl x).

Definition modadd_new_fixture_node : M leds nat :=
  p ← led_malloc; if (p =? 0)%nat then mret 0%nat else mmodify (with_fixture_nodes <[p := MkFixtureNode 0 0]>);; mret p.

Definition fixture_find (test : nat -> modadd_fixture_node_t -> bool) (base : nat) : M leds nat :=
  s ← mget; mlift (find_node fix_next (size (fixture_nodes s)) (fixture_nodes s) test base).

Definition modadd_fixture_predecessor (successor base : nat) : M leds nat :=
  if (base =? 0)%nat then mret 0%nat
  else if (successor =? base)%nat then mret 0%nat
  else fixture_find (fun _ n => (fix_next n =? successor)%nat) base.
Definition modadd_fixture_tail (base : nat) : M leds nat := modadd_fixture_predecessor 0 base.

Definition modadd_fixture_append_node (node base : nat) : M leds modadd_status_e :=
  if (node =? 0)%nat then mret MODADD_STAT_ERR
  else if (base =? 0)%nat then mret MODADD_STAT_ERR
  else
    tail ← modadd_fixture_tail base;
    if (tail =? 0)%nat then mret MODADD_STAT_ERR
    else upd_fixture_node tail (set_fix_next node);; mret MODADD_STAT_OK.

Definition modadd_fixture_append_new_node (base : nat) : M leds nat :=
  node ← modadd_new_fixture_node;
  if (node =? 0)%nat then mret 0%nat else modadd_fixture_append_node node base;; mret node.

Definition modadd_fixture_append (fixture ctrl : nat) : M leds modadd_status_e :=
  if (fixture =? 0)%nat then mret MODADD_STAT_ERR
  else if (ctrl =? 0)%nat then mret MODADD_STAT_ERR
  else
    c ← get_ctrl ctrl;
    node ← (if (ctl_head c =? 0)%nat
            then n ← modadd_new_fixture_node; upd_ctrl ctrl (set_head n);; mret n
            else modadd_fixture_append_new_node (ctl_head c));
    if (node =? 0)%nat then mret MODADD_STAT_ERR
    else upd_fixture_node node (set_fix_obj fixture);; mret MODADD_STAT_OK.

Definition modadd_fixture_remove (fixture ctrl : nat) : M leds modadd_status_e :=
  c ← get_ctrl ctrl;
  node ← fixture_find (fun _ n => (fix_obj n =? fixture)%nat) (ctl_head c);
  predecessor ← modadd_fixture_predecessor node (ctl_head c);
  if (predecessor =? 0)%nat then mret MODADD_STAT_ERR
  else
    n ← get_fixture_node node;
    upd_fixture_node predecessor (set_fix_next (fix_next n));;
    mmodify (with_fixture_nodes (delete node));;
    base_ctrl ← modadd_fixture_get_ctrl (ctl_head c);
    modadd_ctrl_recompute_fixtures base_ctrl;;
    mret MODADD_STAT_OK.
