(* ===== verification/AddrCompose.v ===== *)
(** Composition of the layers of the fixtures of a controller into its output
    buffer, [modaddressable_layer.c], and the software output of the buffer,
    [modaddressable_output.c]. *)
From S2P Require Import Prelude LinkedList Addressable.

(** ** Composers *)

(** [MODADD_INT_MULT(a, b, t)] with [uint16_t t]. *)
Definition MODADD_INT_MULT (a b : Z) : Z :=
  let t := wrap 16 (a * b + 128) in Z.shiftr (Z.shiftr t 8 + t) 8.
Definition MODADD_INT_PRELERP (p q a : Z) : Z := p + q - MODADD_INT_MULT a p.

Definition copy_channel (dst src : bptr) (led channel : Z) : M leds unit :=
  v ← load (byte_at src MODADD_BPL led channel);
  store (byte_at dst MODADD_BPL led channel) v.

Definition composer_body_SET (dst src : bptr) (led : Z) : M leds unit :=
  copy_channel dst src led 0;; copy_channel dst src led 1;;
  copy_channel dst src led 2;; copy_channel dst src led 3.

(** [*dst_c = MODADD_INT_PRELERP( *dst_c, *src_c, *src_3, t)], stored in a byte. *)
Definition prelerp_channel (dst src : bptr) (led channel : Z) : M leds unit :=
  p ← load (byte_at dst MODADD_BPL led channel);
  q ← load (byte_at src MODADD_BPL led channel);
  a ← load (byte_at src MODADD_BPL led 3);
  store (byte_at dst MODADD_BPL led channel) (wrap 8 (MODADD_INT_PRELERP p q a)).

(** [*dst_c = *dst_c > 255 ? 255 : *dst_c], of a byte. *)
Definition cap_channel (dst : bptr) (led channel : Z) : M leds unit :=
  v ← load (byte_at dst MODADD_BPL led channel);
  store (byte_at dst MODADD_BPL led channel) (if 255 <? v then 255 else v).

Definition composer_body_COMP (dst src : bptr) (led : Z) : M leds unit :=
  prelerp_channel dst src led 0;; prelerp_channel dst src led 1;;
  prelerp_channel dst src led 2;; prelerp_channel dst src led 3;;
  cap_channel dst led 0;; cap_channel dst led 1;; cap_channel dst led 2;; cap_channel dst led 3.

Definition mask_channel (dst src : bptr) (led channel : Z) : M leds unit :=
  v ← load (byte_at src MODADD_BPL led channel);
  if negb (v =? 0) then store (byte_at dst MODADD_BPL led channel) 0 else mret tt.

Definition composer_body_MASK (dst src : bptr) (led : Z) : M leds unit :=
  mask_channel dst src led 0;; mask_channel dst src led 1;;
  mask_channel dst src led 2;; mask_channel dst src led 3.

Definition addressable_composer_SET (x : addressable_fixture_obj_t) (l : addressable_layer_obj_t) : M leds unit :=
  for_to (fix_leds x) (composer_body_SET (comp_data x) (lay_data l)).
Definition addressable_composer_COMP (x : addressable_fixture_obj_t) (l : addressable_layer_obj_t) : M leds unit :=
  for_to (fix_leds x) (composer_body_COMP (comp_data x) (lay_data l)).
Definition addressable_composer_MASK (x : addressable_fixture_obj_t) (l : addressable_layer_obj_t) : M leds unit :=
  for_to (fix_leds x) (composer_body_MASK (comp_data x) (lay_data l)).

(** The bodies of the other composers are comments. *)
Definition addressable_composer_OR (x : addressable_fixture_obj_t) (l : addressable_layer_obj_t) : M leds unit := mret tt.
Definition addressable_composer_AND (x : addressable_fixture_obj_t) (l : addressable_layer_obj_t) : M leds unit := mret tt.
Definition addressable_composer_XOR (x : addressable_fixture_obj_t) (l : addressable_layer_obj_t) : M leds unit := mret tt.
Definition addressable_composer_MULT (x : addressable_fixture_obj_t) (l : addressable_layer_obj_t) : M leds unit := mret tt.
Definition addressable_composer_DIV (x : addressable_fixture_obj_t) (l : addressable_layer_obj_t) : M leds unit := mret tt.
Definition addressable_composer_ADD (x : addressable_fixture_obj_t) (l : addressable_layer_obj_t) : M leds unit := mret tt.
Definition addressable_composer_SUB (x : addressable_fixture_obj_t) (l : addressable_layer_obj_t) : M leds unit := mret tt.

(** The [switch] of [addressable_layer_compose]; [None] is [NULL]. *)
Definition composer_of (op : Z) : option (addressable_fixture_obj_t -> addressable_layer_obj_t -> M leds unit) :=
  if op =? MODADD_OP_SET then Some addressable_composer_SET
  else if op =? MODADD_OP_OR then Some addressable_composer_OR
  else if op =? MODADD_OP_AND then Some addressable_composer_AND
  else if op =? MODADD_OP_XOR then Some addressable_composer_XOR
  else if op =? MODADD_OP_MULT then Some addressable_composer_MULT
  else if op =? MODADD_OP_DIV then Some addressable_composer_DIV
  else if op =? MODADD_OP_ADD then Some addressable_composer_ADD
  else if op =? MODADD_OP_SUB then Some addressable_composer_SUB
  else if op =? MODADD_OP_COMP then Some addressable_composer_COMP
  else if op =? MODADD_OP_MASK then Some addressable_composer_MASK
  else None.

(** ** Output *)

(** The last channel of the protocol that carries the alpha value, 255 for none. *)
Fixpoint find_brightness (channels : list Z) (channel acc : Z) : Z :=
  match channels with
  | [] => acc
  | i :: channels => find_brightness channels (channel + 1) (if i =? MODADD_A_INDEX then channel else acc)
  end.
Definition brightness_channel (protocol : modadd_protocol_t) : Z :=
  if 3 <? bpl protocol then find_brightness (take (Z.to_nat (bpl protocol)) (indices protocol)) 0 255 else 255.

(** [*dst = v; *dst |= mask] *)
Definition masked_store (p : bptr) (v m : Z) : M leds unit := store p v;; w ← load p; store p (Z.lor w m).

Definition enforce_led (protocol : modadd_protocol_t) (dst src : bptr) (led : Z) : M leds unit :=
  for_to (bpl protocol) (fun channel =>
    i ← mlift (indices protocol !! Z.to_nat channel);
    v ← load (byte_at src (bpl protocol) led i);
    m ← mlift (or_mask protocol !! Z.to_nat channel);
    masked_store (byte_at dst (bpl protocol) led channel) v m).

Definition enforce_brightness (protocol : modadd_protocol_t) (dst : bptr) (brightness led : Z) : M leds unit :=
  let channel := brightness_channel protocol in
  m ← mlift (or_mask protocol !! Z.to_nat channel);
  masked_store (byte_at dst (bpl protocol) led channel)
    (wrap 8 (Z.shiftr brightness (brightness_rightshifts protocol))) m.

Definition addressable_composer_enforce_protocol_data (x : addressable_fixture_obj_t) : M leds unit :=
  c ← get_ctrl (fix_ctrl x);
  protocol ← mlift (modadd_protocols (out_protocol c));
  for_to (fix_leds x) (enforce_led protocol (out_data x) (comp_data x));;
  if brightness_channel protocol <? bpl protocol
  then for_to (fix_leds x) (enforce_brightness protocol (out_data x) (fix_brightness x))
  else mret tt.

(** ** Composition *)

Definition compose_layer (x : addressable_fixture_obj_t) (iter : nat) : M leds unit :=
  n ← get_layer_node iter; l ← get_layer (lay_obj n);
  if is_null (lay_data l) then mret tt
  else if negb (lay_op l =? MODADD_OP_NUM) then
    match composer_of (lay_op l) with
    | Some composer => composer x l
    | None => mret tt
    end
  else mret tt.

Definition compose_fixture (iter : nat) : M leds unit :=
  n ← get_fixture_node iter;
  if (fix_obj n =? 0)%nat then mret tt
  else
    x ← get_fixture (fix_obj n);
    if (fix_layers x =? 0)%nat then mret tt
    else if is_null (out_data x) then mret tt
    else if is_null (comp_data x) then mret tt
    else if fix_leds x =? 0 then mret tt
    else
      memset0 (comp_data x) (wrap 32 (MODADD_BPL * fix_leds x));;
      modadd_layer_foreach (fix_layers x) (fun iter _ => compose_layer x iter) tt;;
      addressable_composer_enforce_protocol_data x.

Definition addressable_layer_compose (ctrl : nat) : M leds unit :=
  c ← get_ctrl ctrl;
  if (ctl_head c =? 0)%nat then mret tt
  else if is_null (ctl_data c) then mret tt
  else if ctl_data_len c =? 0 then mret tt
  else modadd_fixture_foreach (ctl_head c) (fun iter _ => compose_fixture iter) tt.

(** ** Shifting the buffer out, [mach1_output_apa102_sw] *)

Definition gpio_set_level (pin level : Z) : M leds unit := mmodify (with_gpio [(pin, level)]).

Definition shift_bit (c : modadd_ctrl_t) (bite pos : Z) : M leds unit :=
  (if negb (Z.land bite (Z.shiftr 128 pos) =? 0) then gpio_set_level (port_dat c) 1
   else gpio_set_level (port_dat c) 0);;
  gpio_set_level (port_clk c) 0;;
  gpio_set_level (port_clk c) 1.

(** [for (uint8_t indi = i; indi < data_len; indi++)]: with more than 255 bytes the index
    wraps before it reaches the end. *)
Fixpoint shift_bytes (fuel : nat) (c : modadd_ctrl_t) (indi : Z) : M leds unit :=
  if indi <? ctl_data_len c then
    match fuel with
    | O => mabort
    | S fuel =>
        bite ← load (padd (ctl_data c) indi);
        for_to 8 (shift_bit c bite);;
        shift_bytes fuel c (wrap 8 (indi + 1))
    end
  else mret tt.

Definition mach1_output_apa102_sw (ctrl : nat) : M leds unit :=
  if (ctrl =? 0)%nat then mret tt
  else c ← get_ctrl ctrl; shift_bytes 256 c 0.

Definition mach1_output_init_apa102_sw (ctrl : nat) : M leds bool :=
  if (ctrl =? 0)%nat then mret false
  else
    c ← get_ctrl ctrl;
    if negb (out_protocol c =? MODADD_PROTOCOL_APA102) then mret false
    else if out_initialized c then mret false
    else upd_ctrl ctrl set_initialized;; mret true.

(** The timer callback of the status LED. *)
Definition mach1_stat_output (ctrl : nat) : M leds unit :=
  addressable_layer_compose ctrl;; mach1_output_apa102_sw ctrl.
