(* ===== verification/AddrPy.v ===== *)
(** The functions of the [addressable] module that Python code calls: controllers,
    fixtures and layers.  Arguments that the runtime has converted to machine
    integers are signed words; an argument that the function inspects itself is a
    [pyobj].  A raised exception is [Raise]; what was done before stays done. *)
From S2P Require Import Prelude PyExn LinkedList Addressable AddrOps AddrCompose.

Inductive pyobj := PyNone | PyBool (b : bool) | PyInt (z : Z) | PyList (items : list pyobj) | PyOther.

Abbreviation Py := (X leds) (only parsing).

(** [mp_obj_get_int_maybe]; [None] when it leaves the variable uninitialised. *)
Definition mp_obj_get_int_maybe (o : pyobj) : option (exn + Z) :=
  match o with
  | PyBool b => Some (inr (if b then 1 else 0))
  | PyInt z => Some (if (- 2 ^ 31 <=? z) && (z <? 2 ^ 31) then inr z else inl OverflowError)
  | _ => None
  end.

(** A variable that is used whether or not it was set. *)
Definition get_int (o : pyobj) : Py Z :=
  match mp_obj_get_int_maybe o with
  | Some (inr z) => mret z
  | Some (inl e) => mp_raise e
  | None => fun _ => None
  end.

(** ** Layers *)

Definition errno_ENOMEM : Z := 12.

Definition addressable_layer_make_new (fixture : nat) : Py nat :=
  s ← py_do mget;
  match fixture_objs s !! fixture with
  | None => mp_raise ValueError
  | Some x =>
      let len := wrap 32 (fix_leds x * MODADD_BPL) in
      data ← py_do (malloc_bytes len);
      if is_null data then mp_raise (OSError errno_ENOMEM)
      else
        py_do (memset0 data len);;
        self ← py_do led_malloc;
        if (self =? 0)%nat then mp_raise MemoryError
        else py_do (mmodify (with_layer_objs <[self := MkLayer fixture MODADD_OP_COMP data]>));; mret self
  end.

Definition addressable_layer_mode (self : nat) (mode : pyobj) : Py unit :=
  match mode with
  | PyInt _ => z ← get_int mode; py_do (upd_layer self (set_op (wrap 32 z)))
  | _ => mret tt
  end.

(** The bytes of one LED from a list of integers. *)
Fixpoint set_components (base : bptr) (index : Z) (component_ind : Z) (color_components : list pyobj) : Py unit :=
  match color_components with
  | [] => mret tt
  | o :: color_components =>
      val ← get_int o;
      py_do (store (byte_at base MODADD_BPL index component_ind) (wrap 8 val));;
      set_components base index (component_ind + 1) color_components
  end.

Fixpoint set_colors (x : addressable_fixture_obj_t) (base : bptr) (start_index color_ind : Z) (colors_items : list pyobj)
  : Py unit :=
  match colors_items with
  | [] => mret tt
  | PyList color_components :: colors_items =>
      let index := wrap 32 (color_ind + start_index) in
      if fix_leds x <=? index then mret tt
      else if is_null base then mp_raise ValueError
      else if negb (Z.of_nat (length color_components) =? MODADD_BPL) then mp_raise ValueError
      else
        set_components base index 0 color_components;;
        set_colors x base start_index (color_ind + 1) colors_items
  | _ :: _ => mp_raise TypeError
  end.

Definition addressable_layer_set (self : nat) (start_index_obj colors : pyobj) : Py unit :=
  l ← py_do (get_layer self);
  x ← py_do (get_fixture (lay_fixture l));
  start_index ← get_int start_index_obj;
  if fix_leds x <=? wrap 32 start_index then mp_raise ValueError
  else match colors with
  | PyList colors_items => set_colors x (lay_data l) start_index 0 colors_items
  | _ => mp_raise TypeError
  end.

(** ** Fixtures *)

Definition addressable_fixture_make_new (nleds protocol brightness : Z) : Py nat :=
  self ← py_do led_malloc;
  if (self =? 0)%nat then mp_raise MemoryError
  else
    py_do (mmodify (with_fixture_objs <[self := MkFixture 0 0 0 0 bnull bnull 0 0]>));;
    if nleds =? 0 then mp_raise ValueError
    else
      py_do (mmodify (with_fixture_objs
        <[self := MkFixture 0 (wrap 32 protocol) (wrap 32 nleds) 0 bnull bnull (wrap 8 brightness) 0]>));;
      let len := wrap 32 (wrap 32 nleds * MODADD_BPL) in
      comp ← py_do (malloc_bytes len);
      if is_null comp then mp_raise ValueError
      else
        py_do (memset0 comp len);;
        py_do (upd_fixture self (set_comp_data comp));;
        mret self.

(** [None] is the Python object [None]. *)
Definition addressable_fixture_add_layer (self : nat) : Py (option nat) :=
  layer ← addressable_layer_make_new self;
  x ← py_do (get_fixture self);
  node ← py_do (if (fix_layers x =? 0)%nat
                then n ← modadd_new_layer_node; upd_fixture self (set_layers n);; mret n
                else modadd_layer_append_new (fix_layers x));
  if (node =? 0)%nat then mret None
  else py_do (upd_layer_node node (set_lay_obj layer));; mret (Some layer).

(** ** Controllers *)

Definition MACH1_CONTROLLERS_NUM : Z := 2.

(** The controller structure with an id; [None] outside of the array. *)
Definition modadd_controllers (id : Z) : option nat :=
  if id =? 0 then Some 1%nat else if id =? 1 then Some 2%nat else None.

Definition addressable_controller_make_new (id protocol : Z) : Py nat :=
  if MACH1_CONTROLLERS_NUM <=? id then mp_raise ValueError
  else
    ctrl ← py_do (mlift (modadd_controllers id));
    (if protocol <? MODADD_PROTOCOLS_NUM then
       if id =? 0 then mret tt else py_do (upd_ctrl ctrl (set_protocol (wrap 32 protocol)))
     else mret tt);;
    mret ctrl.

Definition addressable_controller_add_fixture (ctrl fixture : nat) : Py unit :=
  c ← py_do (get_ctrl ctrl);
  x ← py_do (get_fixture fixture);
  if negb (out_protocol c =? fix_protocol x) then mp_raise ValueError
  else if negb (ctl_append c) then mp_raise ValueError
  else py_do (modadd_fixture_append fixture ctrl);; mret tt.

Definition addressable_controller_recompute_chain (ctrl : nat) : Py unit :=
  py_do (modadd_ctrl_recompute_fixtures ctrl).

(** ** The controllers of the board, [modaddressable_controllers.c] *)

Definition MACHONE_STAT_OUT_DATA_BYTES : Z := 8.
Definition machone_stat_fixture_obj : addressable_fixture_obj_t :=
  MkFixture 0 MODADD_PROTOCOL_APA102 1 0 (1%nat, 4) (2%nat, 0) 127 0.
Definition machone_stat_fixture_node : modadd_fixture_node_t := MkFixtureNode 3 0.
Definition mach1_stat_ctrl : modadd_ctrl_t :=
  MkCtrl MODADD_PROTOCOL_APA102 false 33 5 4 (1%nat, 0) MACHONE_STAT_OUT_DATA_BYTES false.
Definition mach1_aled_ctrl : modadd_ctrl_t := MkCtrl MODADD_PROTOCOL_UNKNOWN false 18 23 0 bnull 0 true.

Definition led_boot : leds := MkLed
  {[ 1%nat := replicate 8 0; 2%nat := replicate 4 0 ]} ∅ ∅
  {[ 3%nat := machone_stat_fixture_obj ]} {[ 4%nat := machone_stat_fixture_node ]}
  {[ 1%nat := mach1_stat_ctrl; 2%nat := mach1_aled_ctrl ]} 5 [] [].
