(* ===== verification/AddrSpec.v ===== *)
(** Buffers of the addressable LEDs: loads, stores and loops that fill a buffer
    from its start, and what the composers and the encoding of a protocol write
    as functions on lists. *)
From S2P Require Import Prelude LinkedList Addressable AddrCompose.

Create HintDb leds discriminated.

Definition set_buf (b : nat) (l : list Z) (s : leds) : leds := with_bufs <[b := l]> s.

Lemma set_buf_eq b l s : bufs (set_buf b l s) !! b = Some l.
Proof. cbn. by rewrite lookup_insert_eq. Qed.
Lemma set_buf_ne b b' l s : b <> b' -> bufs (set_buf b l s) !! b' = bufs s !! b'.
Proof. intros. cbn. by rewrite lookup_insert_ne. Qed.
Lemma set_buf_twice b l l' s : set_buf b l (set_buf b l' s) = set_buf b l s.
Proof. unfold set_buf, with_bufs. cbn. by rewrite insert_insert_eq. Qed.
Lemma set_buf_same b l s : bufs s !! b = Some l -> set_buf b l s = s.
Proof. intros H. unfold set_buf, with_bufs. destruct s; cbn in *. by rewrite insert_id. Qed.

(** Reads of objects. *)
Lemma get_layer_run s p v : layer_objs s !! p = Some v -> get_layer p s = Some (v, s).
Proof. intros H. unfold get_layer, mget, mlift, mbind, M_bind. by rewrite H. Qed.
Lemma get_layer_node_run s p v : layer_nodes s !! p = Some v -> get_layer_node p s = Some (v, s).
Proof. intros H. unfold get_layer_node, mget, mlift, mbind, M_bind. by rewrite H. Qed.
Lemma get_fixture_run s p v : fixture_objs s !! p = Some v -> get_fixture p s = Some (v, s).
Proof. intros H. unfold get_fixture, mget, mlift, mbind, M_bind. by rewrite H. Qed.
Lemma get_fixture_node_run s p v : fixture_nodes s !! p = Some v -> get_fixture_node p s = Some (v, s).
Proof. intros H. unfold get_fixture_node, mget, mlift, mbind, M_bind. by rewrite H. Qed.
Lemma get_ctrl_run s p v : ctrls s !! p = Some v -> get_ctrl p s = Some (v, s).
Proof. intros H. unfold get_ctrl, mget, mlift, mbind, M_bind. by rewrite H. Qed.
Lemma mlift_run {S A} (o : option A) a (s : S) : o = Some a -> mlift o s = Some (a, s).
Proof. by intros ->. Qed.
#[export] Hint Resolve get_layer_run get_layer_node_run get_fixture_run get_fixture_node_run get_ctrl_run
  mlift_run : leds.

Lemma upd_fixture_run s p x f : fixture_objs s !! p = Some x ->
  upd_fixture p f s = Some (tt, with_fixture_objs <[p := f x]> s).
Proof. intros H. unfold upd_fixture. by rewrite (M_bind_Some _ _ _ _ _ (get_fixture_run _ _ _ H)). Qed.
Lemma upd_fixture_node_run s p x f : fixture_nodes s !! p = Some x ->
  upd_fixture_node p f s = Some (tt, with_fixture_nodes <[p := f x]> s).
Proof. intros H. unfold upd_fixture_node. by rewrite (M_bind_Some _ _ _ _ _ (get_fixture_node_run _ _ _ H)). Qed.
Lemma upd_ctrl_run s p x f : ctrls s !! p = Some x -> upd_ctrl p f s = Some (tt, with_ctrls <[p := f x]> s).
Proof. intros H. unfold upd_ctrl. by rewrite (M_bind_Some _ _ _ _ _ (get_ctrl_run _ _ _ H)). Qed.
#[export] Hint Resolve upd_fixture_run upd_fixture_node_run upd_ctrl_run : leds.

(** Whether the next [malloc] fails, and what a successful one gives. *)
Definition out_of_memory (s : leds) : bool := match led_oom s with b :: _ => b | [] => false end.
Definition after_malloc (s : leds) : leds := with_led_malloc (S (led_brk s)) (tail (led_oom s)) s.
Definition after_failure (s : leds) : leds := with_led_malloc (led_brk s) (tail (led_oom s)) s.

Lemma led_malloc_run s : led_malloc s = Some (if out_of_memory s then (0%nat, after_failure s) else (led_brk s, after_malloc s)).
Proof. unfold led_malloc, out_of_memory, after_malloc, after_failure. by destruct (led_oom s) as [|[] o]. Qed.

(** Step over a read or a write that is known to succeed. *)
Ltac lstep := erewrite M_bind_Some; [|solve [eauto with leds]]; cbv beta iota.

(** ** Programs that keep a part of the state *)

Class Keeps {B A} (f : leds -> B) (m : M leds A) : Prop :=
  keeps s a s' : m s = Some (a, s') -> f s' = f s.

#[export] Instance keeps_ret {B A} (f : leds -> B) (a : A) : Keeps f (mret a).
Proof. by intros s a' s' [= _ <-]. Qed.
#[export] Instance keeps_bind {B A C} (f : leds -> B) (m : M leds A) (g : A -> M leds C) :
  Keeps f m -> (forall a, Keeps f (g a)) -> Keeps f (m ≫= g).
Proof.
  intros Hm Hg s c s' (a & s1 & H1 & H2)%M_bind_inv.
  rewrite (Hg _ _ _ _ H2). exact (Hm _ _ _ H1).
Qed.
#[export] Instance keeps_get {B} (f : leds -> B) : Keeps f mget.
Proof. by intros s a s' [= _ <-]. Qed.
#[export] Instance keeps_lift {B A} (f : leds -> B) (o : option A) : Keeps f (mlift o).
Proof. intros s a s'. unfold mlift. by destruct o; [intros [= _ <-]|]. Qed.
#[export] Instance keeps_abort {B A} (f : leds -> B) : Keeps f (mabort (A:=A)).
Proof. by intros s a s'. Qed.
#[export] Instance keeps_if {B A} (f : leds -> B) (b : bool) (m1 m2 : M leds A) :
  Keeps f m1 -> Keeps f m2 -> Keeps f (if b then m1 else m2).
Proof. by destruct b. Qed.
#[export] Instance keeps_for_up {B} (f : leds -> B) n i body :
  (forall k, Keeps f (body k)) -> Keeps f (for_up n i body).
Proof. intros H. revert i. induction n as [|n IH]; intros i; cbn [for_up]; apply _. Qed.
#[export] Instance keeps_for_to {B} (f : leds -> B) n body : (forall k, Keeps f (body k)) -> Keeps f (for_to n body).
Proof. intros H. apply keeps_for_up, H. Qed.
#[export] Instance keeps_foreach {B A} (f : leds -> B) fuel next (body : nat -> A -> M leds A) p acc :
  (forall p, Keeps f (next p)) -> (forall p acc, Keeps f (body p acc)) -> Keeps f (foreach fuel next body p acc).
Proof. intros Hn Hb. revert p acc. induction fuel as [|fuel IH]; intros p acc; cbn [foreach]; apply _. Qed.
#[export] Hint Extern 2 (Keeps _ (mmodify _)) =>
  (let s := fresh in let E := fresh in intros s ? ? E; injection E as _ <-; reflexivity) : typeclass_instances.

(** Unfold a program and search. *)
Ltac keeps_tac := repeat match goal with
  | |- Keeps _ _ => first [apply _ | apply keeps_bind | apply keeps_if | case_match]
  | |- forall _, _ => intro
  end.

#[export] Instance keeps_load {B} (f : leds -> B) p : Keeps f (load p).
Proof. unfold load. apply _. Qed.
#[export] Instance keeps_get_layer {B} (f : leds -> B) p : Keeps f (get_layer p).
Proof. unfold get_layer. apply _. Qed.
#[export] Instance keeps_get_layer_node {B} (f : leds -> B) p : Keeps f (get_layer_node p).
Proof. unfold get_layer_node. apply _. Qed.
#[export] Instance keeps_get_fixture {B} (f : leds -> B) p : Keeps f (get_fixture p).
Proof. unfold get_fixture. apply _. Qed.
#[export] Instance keeps_get_fixture_node {B} (f : leds -> B) p : Keeps f (get_fixture_node p).
Proof. unfold get_fixture_node. apply _. Qed.
#[export] Instance keeps_get_ctrl {B} (f : leds -> B) p : Keeps f (get_ctrl p).
Proof. unfold get_ctrl. apply _. Qed.

Lemma load_spec s b buf k v : bufs s !! b = Some buf -> buf !! k = Some v ->
  load (b, Z.of_nat k) s = Some (v, s).
Proof.
  intros Hb Hk. unfold load, mget, mlift, mbind, M_bind. cbn. rewrite Hb. cbn.
  destruct (Z.ltb_spec (Z.of_nat k) 0); [lia|]. by rewrite Nat2Z.id, Hk.
Qed.

Lemma store_spec s b buf k v : bufs s !! b = Some buf -> (k < length buf)%nat ->
  store (b, Z.of_nat k) v s = Some (tt, set_buf b (<[k := v]> buf) s).
Proof.
  intros Hb Hk. unfold store, mget, mlift, mmodify, mbind, M_bind. cbn. rewrite Hb. cbn.
  destruct (Z.ltb_spec (Z.of_nat k) 0), (Z.leb_spec (Z.of_nat (length buf)) (Z.of_nat k)); try lia.
  cbn. by rewrite Nat2Z.id.
Qed.

Lemma memset0_spec s b buf n : bufs s !! b = Some buf -> 0 <= n -> Z.of_nat (length buf) = n ->
  memset0 (b, 0) n s = Some (tt, set_buf b (replicate (Z.to_nat n) 0) s).
Proof.
  intros Hb Hn Hl. unfold memset0, mget, mlift, mmodify, mbind, M_bind. cbn. rewrite Hb. cbn.
  destruct (Z.ltb_spec (Z.of_nat (length buf)) n); [lia|]. rewrite drop_ge by lia. by rewrite app_nil_r.
Qed.

Lemma byte_at_spec b o w i c : (w * i < 2 ^ 32)%Z -> 0 <= w -> 0 <= i -> 0 <= c ->
  byte_at (b, Z.of_nat o) w i c = (b, Z.of_nat (o + Z.to_nat w * Z.to_nat i + Z.to_nat c)).
Proof. intros. unfold byte_at, padd. cbn [fst snd]. f_equal. rewrite wrap_id by nia. nia. Qed.

(** A loop whose states are known. *)
Lemma for_up_run (I : nat -> leds) body n i :
  (forall k, (i <= k < i + n)%nat -> body (Z.of_nat k) (I k) = Some (tt, I (S k))) ->
  for_up n (Z.of_nat i) body (I i) = Some (tt, I (i + n)%nat).
Proof.
  revert i. induction n as [|n IH]; intros i H; cbn [for_up]; [by rewrite Nat.add_0_r|].
  rewrite (M_bind_Some _ _ _ _ _ (H i ltac:(lia))).
  replace (Z.of_nat i + 1) with (Z.of_nat (S i)) by lia. rewrite IH by (intros; apply H; lia).
  by replace (S i + n)%nat with (i + S n)%nat by lia.
Qed.

Lemma for_to_run (I : nat -> leds) body n s s' :
  s = I 0%nat -> s' = I (Z.to_nat n) ->
  (forall k, (k < Z.to_nat n)%nat -> body (Z.of_nat k) (I k) = Some (tt, I (S k))) ->
  for_to n body s = Some (tt, s').
Proof. intros -> -> H. unfold for_to. apply (for_up_run I body (Z.to_nat n) 0). intros. apply H. lia. Qed.

(** ** A buffer that has been rewritten up to an index *)

Definition mix (j : nat) (new old : list Z) : list Z := take j new ++ drop j old.

Lemma mix_0 new old : mix 0 new old = old.
Proof. unfold mix. by rewrite take_0, drop_0. Qed.
Lemma mix_all new old j : length new = length old -> (length new <= j)%nat -> mix j new old = new.
Proof. intros. unfold mix. rewrite take_ge, drop_ge by lia. by rewrite app_nil_r. Qed.

Lemma length_mix new old j : length new = length old -> length (mix j new old) = length old.
Proof. intros. unfold mix. rewrite length_app, length_take, length_drop. lia. Qed.

Lemma lookup_mix new old j k : length new = length old ->
  mix j new old !! k = if (k <? j)%nat then new !! k else old !! k.
Proof.
  intros Hl. unfold mix. destruct (Nat.ltb_spec k j) as [Hk|Hk].
  - destruct (decide (k < length new)%nat) as [Hn|Hn].
    + rewrite lookup_app_l by (rewrite length_take; lia). by rewrite lookup_take_lt.
    + rewrite !lookup_ge_None_2; [done|lia|rewrite length_app, length_take, length_drop; lia].
  - destruct (decide (j <= length new)%nat) as [Hj|Hj].
    + rewrite lookup_app_r by (rewrite length_take; lia). rewrite lookup_drop, length_take. f_equal. lia.
    + rewrite !lookup_ge_None_2; [done|lia|rewrite length_app, length_take, length_drop; lia].
Qed.

(** Between [a] and [a'] only the element at [k] differs. *)
Lemma mix_store new old a k a' v : length new = length old ->
  (a <= k < a')%nat -> new !! k = Some v ->
  (forall j, (a <= j < a')%nat -> j <> k -> new !! j = old !! j) ->
  <[k := v]> (mix a new old) = mix a' new old.
Proof.
  intros Hl Hk Hv H. assert (Hkl : (k < length old)%nat) by (apply lookup_lt_Some in Hv; lia).
  apply list_eq. intros j. rewrite lookup_mix by done.
  destruct (decide (j = k)) as [->|Hj].
  - rewrite list_lookup_insert_eq by (rewrite length_mix; done). destruct (Nat.ltb_spec k a'); [done|lia].
  - rewrite list_lookup_insert_ne by done. rewrite lookup_mix by done.
    destruct (Nat.ltb_spec j a), (Nat.ltb_spec j a'); try lia; [done| |done]. symmetry. apply H; lia.
Qed.

Lemma mix_next new old a v : length new = length old -> new !! a = Some v ->
  <[a := v]> (mix a new old) = mix (S a) new old.
Proof. intros. apply mix_store; [done|lia|done|]. intros. lia. Qed.

Lemma mix_skip new old a : length new = length old -> new !! a = old !! a ->
  mix (S a) new old = mix a new old.
Proof.
  intros Hl H. apply list_eq. intros j. rewrite !lookup_mix by done.
  destruct (Nat.ltb_spec j (S a)), (Nat.ltb_spec j a); try lia; [done| |done]. by replace j with a by lia.
Qed.

(** ** What a composer does to the composition buffer *)

Definition blend_byte (op p q a : Z) : Z :=
  if op =? MODADD_OP_SET then q
  else if op =? MODADD_OP_COMP then wrap 8 (MODADD_INT_PRELERP p q a)
  else if op =? MODADD_OP_MASK then (if q =? 0 then p else 0)
  else p.

Definition alpha_index (j : nat) : nat := (j / 4 * 4 + 3)%nat.
Definition blend (op : Z) (old d : list Z) : list Z :=
  imap (fun j p => blend_byte op p (d !!! j) (d !!! alpha_index j)) old.

Lemma length_blend op old d : length (blend op old d) = length old.
Proof. apply length_imap. Qed.
Lemma lookup_blend op old d j p : old !! j = Some p ->
  blend op old d !! j = Some (blend_byte op p (d !!! j) (d !!! alpha_index j)).
Proof. intros H. unfold blend. by rewrite list_lookup_imap, H. Qed.

Lemma alpha_index_at i c : (c < 4)%nat -> alpha_index (4 * i + c) = (4 * i + 3)%nat.
Proof.
  intros. unfold alpha_index. rewrite (Nat.mul_comm 4 i), Nat.div_add_l by lia.
  rewrite (Nat.div_small c 4) by lia. lia.
Qed.

Lemma cap_channel_spec s b buf i c v : (4 * Z.of_nat i < 2 ^ 32) -> (c < 4)%nat ->
  bufs s !! b = Some buf -> buf !! (4 * i + c)%nat = Some v -> v <= 255 ->
  cap_channel (b, 0) (Z.of_nat i) (Z.of_nat c) s = Some (tt, s).
Proof.
  intros Hi Hc Hb Hv Hle. unfold cap_channel.
  change (b, 0) with (b, Z.of_nat 0). rewrite byte_at_spec by (unfold MODADD_BPL; lia).
  unfold MODADD_BPL. rewrite !Nat2Z.id, Nat.add_0_l. change (Z.to_nat 4) with 4%nat.
  rewrite (M_bind_Some _ _ _ _ _ (load_spec _ _ _ _ _ Hb Hv)). cbv beta.
  destruct (Z.ltb_spec 255 v); [lia|].
  rewrite (store_spec _ _ _ _ _ Hb) by (by eapply lookup_lt_Some). by rewrite list_insert_id, set_buf_same.
Qed.

Section Channels.
Context (s : leds) (cb sb : nat) (old d : list Z) (i : nat).
Context (Hne : cb <> sb) (Hd : bufs s !! sb = Some d) (Hlen : length d = length old).
Context (Hi : (4 * i + 3 < length old)%nat) (Hw : 4 * Z.of_nat i < 2 ^ 32).

Abbreviation at_ op j := (set_buf cb (mix j (blend op old d) old) s).

Lemma load_src op j c : (c < 4)%nat ->
  load (byte_at (sb, 0) MODADD_BPL (Z.of_nat i) (Z.of_nat c)) (at_ op j) = Some (d !!! (4 * i + c)%nat, at_ op j).
Proof.
  intros Hc. change (sb, 0) with (sb, Z.of_nat 0). rewrite byte_at_spec by (unfold MODADD_BPL; lia).
  unfold MODADD_BPL. rewrite !Nat2Z.id, Nat.add_0_l. change (Z.to_nat 4) with 4%nat.
  eapply load_spec; [rewrite set_buf_ne by done; exact Hd|]. apply list_lookup_lookup_total_lt. lia.
Qed.

Lemma load_dst op c : (c < 4)%nat ->
  load (byte_at (cb, 0) MODADD_BPL (Z.of_nat i) (Z.of_nat c)) (at_ op (4 * i + c)%nat)
  = Some (old !!! (4 * i + c)%nat, at_ op (4 * i + c)%nat).
Proof.
  intros Hc. change (cb, 0) with (cb, Z.of_nat 0). rewrite byte_at_spec by (unfold MODADD_BPL; lia).
  unfold MODADD_BPL. rewrite !Nat2Z.id, Nat.add_0_l. change (Z.to_nat 4) with 4%nat.
  eapply load_spec; [apply set_buf_eq|]. rewrite lookup_mix by apply length_blend.
  destruct (Nat.ltb_spec (4 * i + c) (4 * i + c)); [lia|]. apply list_lookup_lookup_total_lt. lia.
Qed.

Lemma blend_at op c : (c < 4)%nat -> blend op old d !! (4 * i + c)%nat
  = Some (blend_byte op (old !!! (4 * i + c)%nat) (d !!! (4 * i + c)%nat) (d !!! (4 * i + 3)%nat)).
Proof.
  intros Hc. rewrite (lookup_blend op old d _ (old !!! (4 * i + c)%nat))
    by (apply list_lookup_lookup_total_lt; lia). by rewrite alpha_index_at.
Qed.

Lemma store_dst op c v : (c < 4)%nat ->
  v = blend_byte op (old !!! (4 * i + c)%nat) (d !!! (4 * i + c)%nat) (d !!! (4 * i + 3)%nat) ->
  store (byte_at (cb, 0) MODADD_BPL (Z.of_nat i) (Z.of_nat c)) v (at_ op (4 * i + c)%nat)
  = Some (tt, at_ op (4 * i + S c)%nat).
Proof.
  intros Hc ->. change (cb, 0) with (cb, Z.of_nat 0). rewrite byte_at_spec by (unfold MODADD_BPL; lia).
  unfold MODADD_BPL. rewrite !Nat2Z.id, Nat.add_0_l. change (Z.to_nat 4) with 4%nat.
  erewrite store_spec; [|apply set_buf_eq|rewrite length_mix by apply length_blend; lia].
  rewrite set_buf_twice, mix_next by (apply length_blend || by apply blend_at).
  by rewrite Nat.add_succ_r.
Qed.

Lemma copy_channel_spec c : (c < 4)%nat ->
  copy_channel (cb, 0) (sb, 0) (Z.of_nat i) (Z.of_nat c) (at_ MODADD_OP_SET (4 * i + c)%nat)
  = Some (tt, at_ MODADD_OP_SET (4 * i + S c)%nat).
Proof. intros Hc. unfold copy_channel. rewrite (M_bind_Some _ _ _ _ _ (load_src _ _ c Hc)). by apply store_dst. Qed.

Lemma prelerp_channel_spec c : (c < 4)%nat ->
  prelerp_channel (cb, 0) (sb, 0) (Z.of_nat i) (Z.of_nat c) (at_ MODADD_OP_COMP (4 * i + c)%nat)
  = Some (tt, at_ MODADD_OP_COMP (4 * i + S c)%nat).
Proof.
  intros Hc. unfold prelerp_channel. rewrite (M_bind_Some _ _ _ _ _ (load_dst _ c Hc)).
  rewrite (M_bind_Some _ _ _ _ _ (load_src _ _ c Hc)).
  change 3 with (Z.of_nat 3). rewrite (M_bind_Some _ _ _ _ _ (load_src _ _ 3 ltac:(lia))). by apply store_dst.
Qed.

Lemma mask_channel_spec c : (c < 4)%nat ->
  mask_channel (cb, 0) (sb, 0) (Z.of_nat i) (Z.of_nat c) (at_ MODADD_OP_MASK (4 * i + c)%nat)
  = Some (tt, at_ MODADD_OP_MASK (4 * i + S c)%nat).
Proof.
  intros Hc. unfold mask_channel. rewrite (M_bind_Some _ _ _ _ _ (load_src _ _ c Hc)).
  pose proof (blend_at MODADD_OP_MASK c Hc) as Hb. cbn [blend_byte Z.eqb] in Hb.
  unfold blend_byte in Hb. cbn [Z.eqb] in Hb. change (MODADD_OP_MASK =? MODADD_OP_SET) with false in Hb.
  change (MODADD_OP_MASK =? MODADD_OP_COMP) with false in Hb. change (MODADD_OP_MASK =? MODADD_OP_MASK) with true in Hb.
  cbn iota in Hb. destruct (Z.eqb_spec (d !!! (4 * i + c)%nat) 0) as [E|E]; cbn [negb].
  - rewrite Nat.add_succ_r, mix_skip by (apply length_blend || (rewrite Hb; symmetry; apply list_lookup_lookup_total_lt; lia)).
    done.
  - apply store_dst; [done|]. unfold blend_byte.
    change (MODADD_OP_MASK =? MODADD_OP_SET) with false. change (MODADD_OP_MASK =? MODADD_OP_COMP) with false.
    change (MODADD_OP_MASK =? MODADD_OP_MASK) with true. cbn iota. by apply Z.eqb_neq in E as ->.
Qed.

Lemma comp_cap_spec c : (c < 4)%nat ->
  cap_channel (cb, 0) (Z.of_nat i) (Z.of_nat c) (at_ MODADD_OP_COMP (4 * i + 4)%nat)
  = Some (tt, at_ MODADD_OP_COMP (4 * i + 4)%nat).
Proof.
  intros Hc. eapply cap_channel_spec; [done|done|apply set_buf_eq| |].
  - rewrite lookup_mix by apply length_blend. destruct (Nat.ltb_spec (4 * i + c) (4 * i + 4)); [|lia].
    by apply blend_at.
  - unfold blend_byte. cbn. match goal with |- wrap 8 ?x <= 255 => pose proof (wrap_range 8 x ltac:(lia)) end. lia.
Qed.

End Channels.
