(* ===== verification/AddrRender.v ===== *)
(** Composition of a fixture: the composers, the layers in their order and the
    encoding of the result for the LEDs' protocol. *)
From S2P Require Import Prelude LinkedList Addressable AddrCompose AddrSpec.

(** ** Composers *)

Section Composers.
Context (s : leds) (x : addressable_fixture_obj_t) (l : addressable_layer_obj_t) (cb sb : nat) (old d : list Z).
Context (Hcb : comp_data x = (cb, 0)) (Hsb : lay_data l = (sb, 0)) (Hne : cb <> sb).
Context (Hold : bufs s !! cb = Some old) (Hd : bufs s !! sb = Some d).
Context (Hlen : Z.of_nat (length old) = MODADD_BPL * fix_leds x) (Hdl : length d = length old).
Context (Hpos : 0 <= fix_leds x) (Hw : MODADD_BPL * fix_leds x < 2 ^ 32).

(** What a composer's body has to do for its LED. *)
Lemma composer_loop op body :
  (forall i, (4 * i + 3 < length old)%nat -> 4 * Z.of_nat i < 2 ^ 32 ->
     body (Z.of_nat i) (set_buf cb (mix (4 * i) (blend op old d) old) s)
     = Some (tt, set_buf cb (mix (4 * i + 4) (blend op old d) old) s)) ->
  for_to (fix_leds x) body s = Some (tt, set_buf cb (blend op old d) s).
Proof.
  intros H. unfold MODADD_BPL in *.
  apply (for_to_run (fun i => set_buf cb (mix (4 * i) (blend op old d) old) s)).
  - by rewrite Nat.mul_0_r, mix_0, set_buf_same.
  - rewrite mix_all; [done|apply length_blend|rewrite length_blend; lia].
  - intros k Hk. cbv beta. rewrite H by lia. do 3 f_equal. f_equal. lia.
Qed.

Ltac channel_step lem i c := rewrite (M_bind_Some _ _ _ _ _ (lem s cb sb old d i Hne Hd Hdl ltac:(assumption) ltac:(assumption) c ltac:(lia))).

Lemma composer_SET_spec :
  addressable_composer_SET x l s = Some (tt, set_buf cb (blend MODADD_OP_SET old d) s).
Proof.
  unfold addressable_composer_SET. rewrite Hcb, Hsb. apply composer_loop. intros i Hi Hwi. unfold composer_body_SET.
  rewrite <- (Nat.add_0_r (4 * i)) at 1.
  change 0 with (Z.of_nat 0) at 3. channel_step copy_channel_spec i 0%nat.
  change 1 with (Z.of_nat 1). channel_step copy_channel_spec i 1%nat.
  change 2 with (Z.of_nat 2). channel_step copy_channel_spec i 2%nat.
  change 3 with (Z.of_nat 3). apply copy_channel_spec; done || lia.
Qed.

Lemma composer_COMP_spec :
  addressable_composer_COMP x l s = Some (tt, set_buf cb (blend MODADD_OP_COMP old d) s).
Proof.
  unfold addressable_composer_COMP. rewrite Hcb, Hsb. apply composer_loop. intros i Hi Hwi. unfold composer_body_COMP.
  rewrite <- (Nat.add_0_r (4 * i)) at 1.
  change 0 with (Z.of_nat 0). change 1 with (Z.of_nat 1). change 2 with (Z.of_nat 2). change 3 with (Z.of_nat 3).
  channel_step prelerp_channel_spec i 0%nat. channel_step prelerp_channel_spec i 1%nat.
  channel_step prelerp_channel_spec i 2%nat. channel_step prelerp_channel_spec i 3%nat.
  rewrite (M_bind_Some _ _ _ _ _ (comp_cap_spec s cb sb old d i Hne Hdl Hi Hwi 0%nat ltac:(lia))).
  rewrite (M_bind_Some _ _ _ _ _ (comp_cap_spec s cb sb old d i Hne Hdl Hi Hwi 1%nat ltac:(lia))).
  rewrite (M_bind_Some _ _ _ _ _ (comp_cap_spec s cb sb old d i Hne Hdl Hi Hwi 2%nat ltac:(lia))).
  apply (comp_cap_spec s cb sb); done || lia.
Qed.

Lemma composer_MASK_spec :
  addressable_composer_MASK x l s = Some (tt, set_buf cb (blend MODADD_OP_MASK old d) s).
Proof.
  unfold addressable_composer_MASK. rewrite Hcb, Hsb. apply composer_loop. intros i Hi Hwi. unfold composer_body_MASK.
  rewrite <- (Nat.add_0_r (4 * i)) at 1.
  change 0 with (Z.of_nat 0). change 1 with (Z.of_nat 1). change 2 with (Z.of_nat 2). change 3 with (Z.of_nat 3).
  channel_step mask_channel_spec i 0%nat. channel_step mask_channel_spec i 1%nat. channel_step mask_channel_spec i 2%nat.
  apply mask_channel_spec; done || lia.
Qed.

Lemma blend_other op : op <> MODADD_OP_SET -> op <> MODADD_OP_COMP -> op <> MODADD_OP_MASK -> blend op old d = old.
Proof.
  intros H1 H2 H3. apply list_eq. intros j. unfold blend. rewrite list_lookup_imap. unfold blend_byte.
  rewrite (proj2 (Z.eqb_neq _ _) H1), (proj2 (Z.eqb_neq _ _) H2), (proj2 (Z.eqb_neq _ _) H3). by destruct (old !! j).
Qed.

Lemma composer_of_spec op :
  match composer_of op with
  | Some composer => composer x l s = Some (tt, set_buf cb (blend op old d) s)
  | None => blend op old d = old
  end.
Proof.
  unfold composer_of. destruct (Z.eqb_spec op MODADD_OP_SET) as [->|H1]; [apply composer_SET_spec|].
  destruct (Z.eqb_spec op MODADD_OP_COMP) as [->|H2]; [apply composer_COMP_spec|].
  destruct (Z.eqb_spec op MODADD_OP_MASK) as [->|H3]; [apply composer_MASK_spec|].
  rewrite blend_other by done. repeat case_match; bool_to_prop; simplify_eq; first [done | by rewrite set_buf_same].
Qed.
End Composers.

(** ** The layers of a fixture *)

(** [mix]ed in the order of the list; a layer without data is [None]. *)
Definition layer_image : Type := option (Z * nat * list Z).
Definition blend_image (acc : list Z) (im : layer_image) : list Z :=
  match im with Some (op, _, d) => blend op acc d | None => acc end.
Definition compose_images (n : Z) (ims : list layer_image) : list Z :=
  foldl blend_image (replicate (Z.to_nat (MODADD_BPL * n)) 0) ims.

Definition layer_has (s : leds) (x : addressable_fixture_obj_t) (n : nat) (im : layer_image) : Prop :=
  exists nd l, layer_nodes s !! n = Some nd /\ layer_objs s !! lay_obj nd = Some l
  /\ match im with
     | None => lay_data l = bnull
     | Some (op, b, d) => lay_op l = op /\ lay_data l = (b, 0) /\ b <> 0%nat /\ bufs s !! b = Some d
         /\ Z.of_nat (length d) = MODADD_BPL * fix_leds x
     end.

Definition image_block (im : layer_image) : list nat := match im with Some (_, b, _) => [b] | None => [] end.

Lemma compose_layer_spec s x n im cb old :
  comp_data x = (cb, 0) -> cb ∉ image_block im -> layer_has s x n im ->
  bufs s !! cb = Some old -> Z.of_nat (length old) = MODADD_BPL * fix_leds x ->
  0 <= fix_leds x -> MODADD_BPL * fix_leds x < 2 ^ 32 ->
  compose_layer x n s
  = Some (tt, set_buf cb (blend_image old im) s).
Proof.
  intros Hcb Hnin (nd & l & Hn & Hl & Him) Hold Hlen Hpos Hw. unfold compose_layer. lstep. lstep.
  destruct im as [[[op b] d]|].
  - destruct Him as (<- & Hb & Hb0 & Hd & Hdl). rewrite Hb. unfold is_null. cbn [fst].
    destruct (Nat.eqb_spec b 0); [done|]. cbn iota.
    assert (Hne : cb <> b) by (intros ->; apply Hnin; left).
    pose proof (composer_of_spec s x l cb b old d Hcb Hb Hne Hold Hd Hlen ltac:(lia) Hw (lay_op l)) as Hc.
    destruct (Z.eqb_spec (lay_op l) MODADD_OP_NUM) as [E|E]; cbn [negb].
    + cbn [blend_image]. rewrite E in *. rewrite Hc. by rewrite set_buf_same.
    + cbn [blend_image]. destruct (composer_of (lay_op l)); [done|]. rewrite Hc. by rewrite set_buf_same.
  - rewrite Him. cbn. by rewrite set_buf_same.
Qed.

(** [foreach] along a list whose links the body keeps. *)
Fixpoint mfold {A} (body : nat -> A -> M leds A) (xs : list nat) (acc : A) : M leds A :=
  match xs with
  | [] => mret acc
  | x :: xs => acc ← body x acc; mfold body xs acc
  end.

Lemma foreach_run {A N} (nodes : leds -> gmap nat N) (nxt : N -> nat) next (body : nat -> A -> M leds A) :
  (forall p s, next p s = match nodes s !! p with Some n => Some (nxt n, s) | None => None end) ->
  (forall p acc s acc' s', body p acc s = Some (acc', s') -> nodes s' = nodes s) ->
  forall fuel p xs acc s, chain nxt (nodes s) p xs -> (length xs <= fuel)%nat ->
  foreach fuel next body p acc s = mfold body xs acc s.
Proof.
  intros Hnext Hbody fuel p xs. revert fuel p. induction xs as [|x xs IH]; intros fuel p acc s Hc Hf.
  - cbn in Hc. subst p. by destruct fuel.
  - destruct Hc as (-> & Hx & n & Hn & Hc). cbn [length] in Hf. destruct fuel as [|fuel]; [lia|].
    cbn [foreach mfold]. destruct (Nat.eqb_spec x 0); [done|].
    unfold mbind at 1 3, M_bind at 1 3. destruct (body x acc s) as [[acc' s']|] eqn:E; [|done].
    pose proof (Hbody _ _ _ _ _ E) as Hs.
    unfold mbind, M_bind. rewrite Hnext, Hs, Hn. apply IH; [by rewrite Hs|lia].
Qed.

#[export] Instance keeps_store_layers p v : Keeps layer_nodes (store p v).
Proof. unfold store. apply _. Qed.
#[export] Instance keeps_store_fixtures p v : Keeps fixture_nodes (store p v).
Proof. unfold store. apply _. Qed.
#[export] Instance keeps_memset_fixtures p n : Keeps fixture_nodes (memset0 p n).
Proof. unfold memset0. apply _. Qed.

#[export] Instance keeps_compose_layer {B} (f : leds -> B) x n :
  (forall p v, Keeps f (store p v)) -> Keeps f (compose_layer x n).
Proof.
  intros Hs. unfold compose_layer, composer_of, addressable_composer_SET, addressable_composer_COMP,
    addressable_composer_MASK, composer_body_SET, composer_body_COMP, composer_body_MASK, copy_channel,
    prelerp_channel, cap_channel, mask_channel. keeps_tac; simplify_eq; unfold addressable_composer_OR,
    addressable_composer_AND, addressable_composer_XOR, addressable_composer_MULT, addressable_composer_DIV,
    addressable_composer_ADD, addressable_composer_SUB; apply _.
Qed.

Lemma layer_has_frame s x n im cb acc : cb ∉ image_block im -> layer_has s x n im ->
  layer_has (set_buf cb acc s) x n im.
Proof.
  intros Hn (nd & l & H1 & H2 & H3). exists nd, l. split; [done|]. split; [done|].
  destruct im as [[[op b] d]|]; [|done]. destruct H3 as (? & ? & ? & ? & ?). repeat split; try done.
  rewrite set_buf_ne; [done|]. intros ->. apply Hn. left.
Qed.

Lemma length_blend_image acc im : length (blend_image acc im) = length acc.
Proof. destruct im as [[[op b] d]|]; [apply length_blend|done]. Qed.
Lemma length_compose n ims : length (compose_images n ims) = Z.to_nat (MODADD_BPL * n).
Proof.
  assert (H : forall acc ims, length (foldl blend_image acc ims) = length acc).
  { clear. intros acc ims. revert acc. induction ims as [|im ims IH]; intros acc; cbn; [done|].
    by rewrite IH, length_blend_image. }
  unfold compose_images. by rewrite H, length_replicate.
Qed.

Definition layer_on (s : leds) (x : addressable_fixture_obj_t) (cb : nat) (n : nat) (im : layer_image) : Prop :=
  layer_has s x n im /\ cb ∉ image_block im.

Lemma layers_run s x ns ims cb acc :
  comp_data x = (cb, 0) -> Forall2 (layer_on s x cb) ns ims ->
  bufs s !! cb = Some acc -> Z.of_nat (length acc) = MODADD_BPL * fix_leds x ->
  0 <= fix_leds x -> MODADD_BPL * fix_leds x < 2 ^ 32 ->
  mfold (fun iter _ => compose_layer x iter) ns tt s = Some (tt, set_buf cb (foldl blend_image acc ims) s).
Proof.
  intros Hcb Hall. revert ims s acc Hall. induction ns as [|n ns IH]; intros ims s acc Hall Hacc Hlen Hp Hw;
    [apply Forall2_nil_inv_l in Hall as -> | apply Forall2_cons_inv_l in Hall as (im & ims' & [Him Hn] & Hall & ->)];
    cbn [mfold foldl]; [by rewrite set_buf_same|].
  erewrite M_bind_Some; [|by apply compose_layer_spec with (im := im) (old := acc)].
  cbv beta. erewrite IH with (ims := ims');
    [by rewrite set_buf_twice| |apply set_buf_eq|by rewrite length_blend_image|done|done].
  eapply (list.Forall2_impl _ _ _ _ Hall). intros n' im' [H1 H2]. split; [by apply layer_has_frame|done].
Qed.

(** The encoding of a composed fixture for the protocol of its LEDs: the bytes that
    [addressable_composer_enforce_protocol_data] writes. *)

(** ** Replacing a region of a buffer *)

Definition splice (o : nat) (r l : list Z) : list Z := take o l ++ r ++ drop (o + length r) l.

Lemma length_splice o r l : (o + length r <= length l)%nat -> length (splice o r l) = length l.
Proof. intros. unfold splice. rewrite !length_app, length_take, length_drop. lia. Qed.

Lemma splice_nil o l : splice o [] l = l.
Proof. unfold splice. rewrite app_nil_l, Nat.add_0_r. apply take_drop. Qed.

Lemma lookup_splice_in o r l k : (o <= length l)%nat -> (k < length r)%nat -> splice o r l !! (o + k)%nat = r !! k.
Proof.
  intros Ho Hk. unfold splice. rewrite lookup_app_r by (rewrite length_take; lia).
  rewrite length_take, Nat.min_l by lia. rewrite Nat.add_comm, Nat.add_sub. by rewrite lookup_app_l.
Qed.

Lemma lookup_splice_out o r l j : (o + length r <= length l)%nat -> (j < o \/ o + length r <= j)%nat ->
  splice o r l !! j = l !! j.
Proof.
  intros Hl [Hj|Hj]; unfold splice.
  - rewrite lookup_app_l by (rewrite length_take; lia). by rewrite lookup_take_lt.
  - rewrite lookup_app_r by (rewrite length_take; lia). rewrite length_take, Nat.min_l by lia.
    rewrite lookup_app_r by lia. rewrite lookup_drop. f_equal. lia.
Qed.

(** [n] cells of [w] bytes, byte [c] of cell [i] being [f i c]. *)
Definition cells (f : nat -> nat -> Z) (w n : nat) : list Z := map (fun k => f (k / w) (k mod w))%nat (seq 0 (w * n)).

Lemma length_cells f w n : length (cells f w n) = (w * n)%nat.
Proof. unfold cells. by rewrite length_map, length_seq. Qed.

Lemma lookup_cells f w n i c : (i < n)%nat -> (c < w)%nat -> cells f w n !! (w * i + c)%nat = Some (f i c).
Proof.
  intros Hi Hc. unfold cells. rewrite <- (list_lookup_fmap _ (seq 0 (w * n))) || rewrite list_lookup_fmap.
  rewrite lookup_seq_lt by nia. cbn [fmap option_fmap option_map]. do 2 f_equal.
  - rewrite (Nat.mul_comm w i), Nat.add_0_l, Nat.div_add_l, (Nat.div_small c) by lia. lia.
  - rewrite (Nat.mul_comm w i), Nat.add_0_l, Nat.add_comm, Nat.Div0.mod_add. by apply Nat.mod_small.
Qed.

Lemma cells_split w k : (0 < w)%nat -> exists i c, (k = w * i + c)%nat /\ (c < w)%nat.
Proof. intros. exists (k / w)%nat, (k mod w)%nat. split; [apply Nat.div_mod; lia|apply Nat.mod_upper_bound; lia]. Qed.

(** A loop that writes the cells one after the other. *)
Lemma splice_cells_out f o w n l j : (o + w * n <= length l)%nat -> (j < o \/ o + w * n <= j)%nat ->
  splice o (cells f w n) l !! j = l !! j.
Proof. intros. by apply lookup_splice_out; rewrite length_cells. Qed.

Lemma length_splice_cells f o w n l : (o + w * n <= length l)%nat -> length (splice o (cells f w n) l) = length l.
Proof. intros. apply length_splice. by rewrite length_cells. Qed.

Lemma lookup_splice_cells f o w n l i c : (o + w * n <= length l)%nat -> (i < n)%nat -> (c < w)%nat ->
  splice o (cells f w n) l !! (o + w * i + c)%nat = Some (f i c).
Proof.
  intros Hl Hi Hc. rewrite <- Nat.add_assoc, lookup_splice_in; [by apply lookup_cells|lia|rewrite length_cells; nia].
Qed.

(** From one filling to another, where they agree outside of the region. *)
Lemma fill_cells f g s db o w n l body : (o + w * n <= length l)%nat ->
  bufs s !! db = Some (splice o (cells g w n) l) ->
  (forall i, (i < n)%nat -> body (Z.of_nat i) (set_buf db (mix (o + w * i) (splice o (cells f w n) l) (splice o (cells g w n) l)) s)
     = Some (tt, set_buf db (mix (o + w * S i) (splice o (cells f w n) l) (splice o (cells g w n) l)) s)) ->
  for_to (Z.of_nat n) body s = Some (tt, set_buf db (splice o (cells f w n) l) s).
Proof.
  intros Hl Hb H.
  apply (for_to_run (fun i => set_buf db (mix (o + w * i) (splice o (cells f w n) l) (splice o (cells g w n) l)) s)).
  - rewrite set_buf_same; [done|]. rewrite Hb. f_equal. apply list_eq. intros j.
    rewrite lookup_mix by (by rewrite !length_splice_cells). destruct (Nat.ltb_spec j (o + w * 0)); [|done].
    rewrite !splice_cells_out by (done || left; lia). done.
  - f_equal. rewrite Nat2Z.id. apply list_eq. intros j. rewrite lookup_mix by (by rewrite !length_splice_cells).
    destruct (Nat.ltb_spec j (o + w * n)); [done|]. rewrite !splice_cells_out by (done || right; lia). done.
  - intros k Hk. apply H. lia.
Qed.

(** The cells of a buffer as it is. *)
Lemma splice_self o w n l : (o + w * n <= length l)%nat ->
  splice o (cells (fun i c => l !!! (o + w * i + c)%nat) w n) l = l.
Proof.
  intros Hl. apply list_eq. intros j. destruct (decide (o <= j < o + w * n)%nat) as [Hj|Hj].
  - destruct (cells_split w (j - o)) as (i & c & E & Hc); [destruct w; lia|].
    replace j with (o + w * i + c)%nat by lia. rewrite lookup_splice_cells by (done || nia).
    symmetry. apply list_lookup_lookup_total_lt. nia.
  - apply splice_cells_out; [done|lia].
Qed.

(** ** Protocols *)

Record protocol_valid (p : modadd_protocol_t) : Prop := {
  pv_bpl : 0 < bpl p <= 4;
  pv_mask : length (or_mask p) = Z.to_nat (bpl p);
  pv_indices : length (indices p) = Z.to_nat (bpl p);
  pv_index i c : indices p !! i = Some c -> 0 <= c <= 3;
  pv_brightness : 0 <= brightness_channel p }.

Lemma modadd_protocols_valid i p : modadd_protocols i = Some p -> protocol_valid p.
Proof.
  unfold modadd_protocols. intros H.
  assert (p = modadd_protocol_apa102 \/ p = modadd_protocol_ws2812) as [-> | ->] by (repeat case_match; simplify_eq; eauto);
    split; try done; intros [|[|[|[|k]]]] c [= <-]; by vm_compute.
Qed.

(** Byte [c] of LED [i]: before and after the brightness is applied. *)
Definition plain_byte (p : modadd_protocol_t) (comp : list Z) (i c : nat) : Z :=
  Z.lor (comp !!! (Z.to_nat (bpl p) * i + Z.to_nat (indices p !!! c))%nat) (or_mask p !!! c).
Definition encode_byte (p : modadd_protocol_t) (brightness : Z) (comp : list Z) (i c : nat) : Z :=
  if Z.of_nat c =? brightness_channel p
  then Z.lor (wrap 8 (Z.shiftr brightness (brightness_rightshifts p))) (or_mask p !!! c)
  else plain_byte p comp i c.
Definition encode (p : modadd_protocol_t) (brightness : Z) (comp : list Z) (n : nat) : list Z :=
  cells (encode_byte p brightness comp) (Z.to_nat (bpl p)) n.

(** Channel [c] of a pixel [px] (red, green, blue, alpha) in the order of the protocol, with the
    brightness in its channel and the mask. *)
Definition wire_byte (p : modadd_protocol_t) (brightness : Z) (px : list Z) (c : nat) : Z :=
  Z.lor (if Z.of_nat c =? brightness_channel p then wrap 8 (Z.shiftr brightness (brightness_rightshifts p))
         else px !!! Z.to_nat (indices p !!! c)) (or_mask p !!! c).

(** The four bytes from byte [k], and the pixel of LED [i]. *)
Definition pixel_at (k : nat) (comp : list Z) : list Z := take 4 (drop k comp).
Definition rgba (i : nat) (comp : list Z) : list Z := pixel_at (4 * i) comp.

Lemma encode_pixel p brightness comp n i c : protocol_valid p -> (i < n)%nat -> (c < Z.to_nat (bpl p))%nat ->
  encode p brightness comp n !! (Z.to_nat (bpl p) * i + c)%nat
  = Some (wire_byte p brightness (pixel_at (Z.to_nat (bpl p) * i) comp) c).
Proof.
  intros Hp Hi Hc. unfold encode. rewrite lookup_cells by done. f_equal. unfold encode_byte, plain_byte, wire_byte, pixel_at.
  destruct (_ =? _); [done|]. f_equal.
  destruct (lookup_lt_is_Some_2 (indices p) c) as [k Hk]; [by rewrite (pv_indices _ Hp)|].
  pose proof (pv_index _ Hp _ _ Hk). rewrite (list_lookup_total_correct _ _ _ Hk).
  rewrite lookup_total_take, lookup_total_drop. by rewrite decide_True by lia.
Qed.

Lemma masked_store_spec s b buf k v m : bufs s !! b = Some buf -> (k < length buf)%nat ->
  masked_store (b, Z.of_nat k) v m s = Some (tt, set_buf b (<[k := Z.lor v m]> buf) s).
Proof.
  intros Hb Hk. unfold masked_store. rewrite (M_bind_Some _ _ _ _ _ (store_spec _ _ _ _ _ Hb Hk)). cbv beta.
  erewrite M_bind_Some; [|eapply load_spec; [apply set_buf_eq|by apply list_lookup_insert_eq]]. cbv beta.
  erewrite store_spec; [|apply set_buf_eq|by rewrite length_insert].
  by rewrite set_buf_twice, list_insert_insert_eq.
Qed.

Section Encode.
Context (s : leds) (x : addressable_fixture_obj_t) (p : modadd_protocol_t) (cb db o : nat) (comp blk : list Z).
Context (Hp : protocol_valid p) (Hcb : comp_data x = (cb, 0)) (Hdb : out_data x = (db, Z.of_nat o)) (Hne : db <> cb).
Context (Hcomp : bufs s !! cb = Some comp) (Hblk : bufs s !! db = Some blk).
Context (Hlen : Z.of_nat (length comp) = MODADD_BPL * fix_leds x).
Context (Hroom : (o + Z.to_nat (bpl p) * Z.to_nat (fix_leds x) <= length blk)%nat).
Context (Hpos : 0 <= fix_leds x) (Hw : MODADD_BPL * fix_leds x < 2 ^ 32).

Let w := Z.to_nat (bpl p).
Let n := Z.to_nat (fix_leds x).
Abbreviation plain := (splice o (cells (plain_byte p comp) w n) blk).
Abbreviation full := (splice o (encode p (fix_brightness x) comp n) blk).

Lemma led_offset i : (i < n)%nat -> bpl p * Z.of_nat i < 2 ^ 32.
Proof. intros Hi. destruct Hp. unfold MODADD_BPL in *. assert (bpl p * Z.of_nat i <= 4 * Z.of_nat i) by nia. subst n. lia. Qed.

Lemma dst_at i c : (i < n)%nat ->
  byte_at (out_data x) (bpl p) (Z.of_nat i) (Z.of_nat c) = (db, Z.of_nat (o + w * i + c)).
Proof.
  intros Hi. pose proof (led_offset i Hi). pose proof (pv_bpl _ Hp). rewrite Hdb, byte_at_spec by lia.
  by rewrite !Nat2Z.id.
Qed.

Lemma length_regions : length plain = length blk /\ length full = length blk.
Proof. split; apply length_splice; unfold encode; rewrite length_cells; done. Qed.

Lemma lookup_region f i c : (i < n)%nat -> (c < w)%nat ->
  splice o (cells f w n) blk !! (o + w * i + c)%nat = Some (f i c).
Proof.
  intros Hi Hc. by apply lookup_splice_cells.
Qed.

Lemma enforce_led_spec i : (i < n)%nat ->
  enforce_led p (out_data x) (comp_data x) (Z.of_nat i) (set_buf db (mix (o + w * i) plain blk) s)
  = Some (tt, set_buf db (mix (o + w * S i) plain blk) s).
Proof.
  intros Hi. destruct length_regions as [Hl _]. pose proof Hp as [? Hm Hix Hir ?]. unfold MODADD_BPL in *.
  apply (for_to_run (fun c => set_buf db (mix (o + w * i + c) plain blk) s)).
  { by rewrite Nat.add_0_r. }
  { do 2 f_equal. rewrite Nat.mul_succ_r. fold w. lia. }
  intros c Hc. fold w in Hc, Hm, Hix. cbv beta. rewrite Nat2Z.id.
  assert (Hxc : indices p !! c = Some (indices p !!! c)) by (apply list_lookup_lookup_total_lt; lia).
  assert (Hmc : or_mask p !! c = Some (or_mask p !!! c)) by (apply list_lookup_lookup_total_lt; lia).
  pose proof (Hir _ _ Hxc) as Hxr.
  lstep.
  assert (Hsrc : byte_at (comp_data x) (bpl p) (Z.of_nat i) (indices p !!! c)
    = (cb, Z.of_nat (w * i + Z.to_nat (indices p !!! c)))).
  { rewrite Hcb. change (cb, 0) with (cb, Z.of_nat 0). rewrite byte_at_spec by (pose proof (led_offset i Hi); lia). by rewrite Nat2Z.id. }
  rewrite Hsrc. erewrite M_bind_Some;
    [|eapply load_spec; [rewrite set_buf_ne by done; exact Hcomp|apply list_lookup_lookup_total_lt; subst n w; nia]].
  cbv beta. lstep. rewrite dst_at by done. erewrite masked_store_spec; [|apply set_buf_eq|].
  - rewrite set_buf_twice. do 3 f_equal. rewrite Nat.add_succ_r. apply mix_next; [done|]. by apply lookup_region.
  - rewrite length_mix by done. subst w n. nia.
Qed.

Lemma enforce_brightness_spec i : (i < n)%nat -> brightness_channel p < bpl p ->
  enforce_brightness p (out_data x) (fix_brightness x) (Z.of_nat i) (set_buf db (mix (o + w * i) full plain) s)
  = Some (tt, set_buf db (mix (o + w * S i) full plain) s).
Proof.
  intros Hi Hb. destruct length_regions as [Hl1 Hl2]. pose proof Hp as [? Hm Hix Hir ?].
  unfold enforce_brightness. set (c := Z.to_nat (brightness_channel p)).
  assert (Hc : brightness_channel p = Z.of_nat c) by (subst c; lia). rewrite Hc.
  assert (Hcw : (c < w)%nat) by (subst w; lia).
  assert (Hmc : or_mask p !! c = Some (or_mask p !!! c)) by (apply list_lookup_lookup_total_lt; lia).
  lstep. rewrite dst_at by done. erewrite masked_store_spec; [|apply set_buf_eq|].
  - rewrite set_buf_twice. do 3 f_equal. apply mix_store; [congruence|lia| |].
    + unfold encode. fold w. rewrite lookup_region by done. unfold encode_byte. by rewrite Hc, Z.eqb_refl.
    + intros j Hj Hne'. replace j with (o + w * i + (j - o - w * i))%nat by lia.
      unfold encode. fold w. rewrite !lookup_region by lia. unfold encode_byte.
      destruct (Z.eqb_spec (Z.of_nat (j - o - w * i)) (brightness_channel p)); [lia|done].
  - rewrite length_mix by congruence. subst w n. nia.
Qed.

Lemma full_eq_plain : bpl p <= brightness_channel p -> full = plain.
Proof.
  intros Hb. f_equal. unfold encode, cells. fold w. apply map_ext_in. intros k Hk.
  unfold encode_byte. destruct (Z.eqb_spec (Z.of_nat (k mod w)) (brightness_channel p)) as [E|]; [|done].
  pose proof (pv_bpl _ Hp). pose proof (Nat.mod_upper_bound k w ltac:(subst w; lia)). subst w. lia.
Qed.

Lemma enforce_spec c : ctrls s !! fix_ctrl x = Some c -> modadd_protocols (out_protocol c) = Some p ->
  addressable_composer_enforce_protocol_data x s = Some (tt, set_buf db full s).
Proof.
  intros Hc Hpc. unfold addressable_composer_enforce_protocol_data. lstep. lstep.
  replace (fix_leds x) with (Z.of_nat n) by (subst n; lia).
  set (g := fun i c => blk !!! (o + w * i + c)%nat). assert (Hg : splice o (cells g w n) blk = blk) by by apply splice_self.
  assert (Hplain : for_to (Z.of_nat n) (enforce_led p (out_data x) (comp_data x)) s = Some (tt, set_buf db plain s)).
  { apply (fill_cells _ g); [done|by rewrite Hg|]. rewrite Hg. intros i Hi. by apply enforce_led_spec. }
  rewrite (M_bind_Some _ _ _ _ _ Hplain). cbv beta. destruct (Z.ltb_spec (brightness_channel p) (bpl p)) as [Hb|Hb]; [|by rewrite full_eq_plain].
  unfold encode. fold w. rewrite <- (set_buf_twice db (splice o (cells (encode_byte p (fix_brightness x) comp) w n) blk) plain s).
  apply (fill_cells _ (plain_byte p comp)); [done|apply set_buf_eq|].
  intros i Hi. rewrite !set_buf_twice. by apply enforce_brightness_spec.
Qed.
End Encode.
