(* ===== verification/AddrChain.v ===== *)
(** Composition of all fixtures of a controller.

    [fixture_view] is what the model of a chain needs to know of a fixture: its
    node, its object, the offset of its bytes in the output block and the
    images of its layers.  [chain_ready] says that a controller is laid out and
    that the buffers of its fixtures and layers are separate. *)
From S2P Require Import Prelude LinkedList Addressable AddrOps AddrCompose AddrSpec AddrRender.

Record fixture_view := MkView {
  fv_node : nat; fv_obj : nat; fv_x : addressable_fixture_obj_t; fv_off : nat; fv_images : list layer_image }.

Definition fv_comp (v : fixture_view) : nat := (comp_data (fv_x v)).1.
Definition fv_leds (v : fixture_view) : nat := Z.to_nat (fix_leds (fv_x v)).
Definition fv_lit (v : fixture_view) : bool := negb (fix_layers (fv_x v) =? 0)%nat.
Definition fv_image (v : fixture_view) : list Z := compose_images (fix_leds (fv_x v)) (fv_images v).
Definition fv_layer_blocks (v : fixture_view) : list nat := mjoin (image_block <$> fv_images v).
Definition fv_output (p : modadd_protocol_t) (v : fixture_view) : list Z :=
  encode p (fix_brightness (fv_x v)) (fv_image v) (fv_leds v).
Definition fv_size (p : modadd_protocol_t) (v : fixture_view) : nat := (Z.to_nat (bpl p) * fv_leds v)%nat.

Record fixture_ready (s : leds) (p : modadd_protocol_t) (db : nat) (v : fixture_view) : Prop := {
  fr_node : exists nd, fixture_nodes s !! fv_node v = Some nd /\ fix_obj nd = fv_obj v;
  fr_obj : fv_obj v <> 0%nat /\ fixture_objs s !! fv_obj v = Some (fv_x v);
  fr_leds : 0 < fix_leds (fv_x v) /\ MODADD_BPL * fix_leds (fv_x v) < 2 ^ 32;
  fr_ctrl : exists c, ctrls s !! fix_ctrl (fv_x v) = Some c /\ modadd_protocols (out_protocol c) = Some p;
  fr_out : out_data (fv_x v) = (db, Z.of_nat (fv_off v));
  fr_comp : comp_data (fv_x v) = (fv_comp v, 0) /\ fv_comp v <> 0%nat /\ fv_comp v <> db
    /\ exists old, bufs s !! fv_comp v = Some old /\ Z.of_nat (length old) = MODADD_BPL * fix_leds (fv_x v);
  fr_layers : exists ns, chain lay_next (layer_nodes s) (fix_layers (fv_x v)) ns
    /\ Forall2 (layer_has s (fv_x v)) ns (fv_images v) }.

(** The buffers that composition writes are no layer's data. *)
Definition separate (db : nat) (fs : list fixture_view) : Prop :=
  NoDup (fv_comp <$> fs)
  /\ (forall v, v ∈ fs -> db ∉ fv_layer_blocks v)
  /\ (forall v v', v ∈ fs -> v' ∈ fs -> fv_comp v ∉ fv_layer_blocks v').

(** The fixtures' bytes follow each other from [start]. *)
Fixpoint laid_out (p : modadd_protocol_t) (start : nat) (fs : list fixture_view) : Prop :=
  match fs with
  | [] => True
  | v :: fs => fv_off v = start /\ laid_out p (start + fv_size p v) fs
  end.

Fixpoint total_size (p : modadd_protocol_t) (fs : list fixture_view) : nat :=
  match fs with [] => 0 | v :: fs => fv_size p v + total_size p fs end.

Record chain_ready (s : leds) (ctrl : nat) (p : modadd_protocol_t) (db : nat) (blk : list Z) (start : nat)
    (fs : list fixture_view) : Prop := {
  cr_ctrl : exists c, ctrls s !! ctrl = Some c /\ ctl_data c = (db, 0) /\ ctl_data_len c <> 0
    /\ chain fix_next (fixture_nodes s) (ctl_head c) (fv_node <$> fs);
  cr_valid : protocol_valid p;
  cr_block : db <> 0%nat /\ bufs s !! db = Some blk;
  cr_fixtures : forall v, v ∈ fs -> fixture_ready s p db v;
  cr_separate : separate db fs;
  cr_layout : laid_out p start fs;
  cr_room : (start + total_size p fs <= length blk)%nat }.

(** ** One fixture *)

Definition render (p : modadd_protocol_t) (db : nat) (m : gmap nat (list Z)) (v : fixture_view) : gmap nat (list Z) :=
  if fv_lit v then <[db := splice (fv_off v) (fv_output p v) (m !!! db)]> (<[fv_comp v := fv_image v]> m) else m.

#[export] Instance keeps_compose_fixture n : Keeps fixture_nodes (compose_fixture n).
Proof.
  unfold compose_fixture, modadd_layer_foreach, addressable_composer_enforce_protocol_data, enforce_led,
    enforce_brightness, masked_store, next_layer. keeps_tac.
Qed.

Lemma image_block_in v im b : im ∈ fv_images v -> b ∉ fv_layer_blocks v -> b ∉ image_block im.
Proof.
  intros Him Hb Hin. apply Hb. unfold fv_layer_blocks. rewrite list_elem_of_join.
  exists (image_block im). split; [done|]. by apply list_elem_of_fmap_2.
Qed.

Lemma with_bufs_eq (f g : gmap nat (list Z) -> gmap nat (list Z)) s : f (bufs s) = g (bufs s) -> with_bufs f s = with_bufs g s.
Proof. intros H. unfold with_bufs. by rewrite H. Qed.

Lemma compose_fixture_spec s p db blk v :
  protocol_valid p -> db <> 0%nat -> bufs s !! db = Some blk -> fixture_ready s p db v ->
  fv_comp v ∉ fv_layer_blocks v -> (fv_off v + fv_size p v <= length blk)%nat ->
  compose_fixture (fv_node v) s = Some (tt, with_bufs (fun m => render p db m v) s).
Proof.
  intros Hp Hdb0 Hblk [(nd & Hnd & Hf) [Hf0 Hx] [Hl Hw] (c & Hc & Hpc) Hout (Hcomp & Hcb0 & Hcbdb & old & Hold & Holdl)
    (ns & Hns & Hall)] Hsep Hroom.
  unfold compose_fixture. lstep. rewrite Hf. apply Nat.eqb_neq in Hf0 as ->. lstep.
  unfold render, fv_lit. destruct (Nat.eqb_spec (fix_layers (fv_x v)) 0) as [E|E]; cbn [negb].
  { unfold with_bufs. by destruct s. }
  unfold is_null. rewrite Hout, Hcomp. cbn [fst]. apply Nat.eqb_neq in Hdb0 as ->, Hcb0 as ->.
  destruct (Z.eqb_spec (fix_leds (fv_x v)) 0); [lia|]. unfold MODADD_BPL in *. rewrite wrap_id by lia.
  erewrite M_bind_Some; [|by eapply memset0_spec; [exact Hold|lia|lia]]. cbv beta.
  set (s1 := set_buf _ _ s).
  assert (Hlay : modadd_layer_foreach (fix_layers (fv_x v)) (fun iter _ => compose_layer (fv_x v) iter) tt s1
    = Some (tt, set_buf (fv_comp v) (fv_image v) s)).
  { unfold modadd_layer_foreach. erewrite M_bind_Some; [|reflexivity]. cbv beta.
    rewrite (foreach_run layer_nodes lay_next) with (xs := ns).
    - erewrite layers_run with (cb := fv_comp v) (ims := fv_images v); [by unfold s1; rewrite set_buf_twice|done| |apply set_buf_eq|..].
      + apply Forall2_same_length_lookup_2; [by apply Forall2_length in Hall|].
        intros i n' im Hn' Him. pose proof (Forall2_lookup_lr _ _ _ _ _ _ Hall Hn' Him) as H1.
        assert (fv_comp v ∉ image_block im) by (eapply image_block_in; [by eapply list_elem_of_lookup_2|done]).
        split; [by apply layer_has_frame|done].
      + rewrite length_replicate. unfold MODADD_BPL. lia.
      + lia.
      + unfold MODADD_BPL. lia.
    - intros q t. unfold next_layer, get_layer_node, mget, mlift, mbind, M_bind. cbn. by destruct (layer_nodes t !! q).
    - intros q acc t acc' t'. apply (keeps (f := layer_nodes)).
    - done.
    - by eapply chain_size. }
  rewrite (M_bind_Some _ _ _ _ _ Hlay). cbv beta.
  erewrite enforce_spec with (p := p) (cb := fv_comp v) (db := db) (o := fv_off v) (comp := fv_image v) (blk := blk);
    try done.
  - do 2 f_equal. unfold set_buf, with_bufs. cbn. f_equal. f_equal.
    + unfold fv_output. f_equal. symmetry. by apply lookup_total_correct.
  - apply set_buf_eq.
  - by rewrite set_buf_ne.
  - unfold fv_image. rewrite length_compose. unfold MODADD_BPL. lia.
  - lia.
Qed.

Lemma render_db p db m v blk : m !! db = Some blk -> fv_comp v <> db -> (fv_off v + fv_size p v <= length blk)%nat ->
  exists blk', render p db m v !! db = Some blk' /\ length blk' = length blk
  /\ blk' = (if fv_lit v then splice (fv_off v) (fv_output p v) blk else blk).
Proof.
  intros Hm Hc Hr. unfold render. destruct (fv_lit v); [|by eexists].
  rewrite lookup_insert_eq, (lookup_total_correct _ _ _ Hm). eexists. split; [done|]. split; [|done].
  apply length_splice. unfold fv_output, encode. by rewrite length_cells.
Qed.

Lemma render_other p db m v b : b <> db -> (fv_lit v = true -> b <> fv_comp v) -> render p db m v !! b = m !! b.
Proof.
  intros Hb Hc. unfold render. destruct (fv_lit v); [|done].
  rewrite lookup_insert_ne by done. rewrite lookup_insert_ne; [done|]. by intros E; apply Hc.
Qed.

(** Rendering one fixture leaves the others ready. *)
Lemma ready_frame s p db v v' : fv_comp v' <> fv_comp v -> fv_comp v ∉ fv_layer_blocks v' -> db ∉ fv_layer_blocks v' ->
  fixture_ready s p db v' -> fixture_ready (with_bufs (fun m => render p db m v) s) p db v'.
Proof.
  intros Hne Hcl Hdl [H1 H2 H3 H4 H5 (H6 & H7 & H8 & old & H9 & H10) (ns & Hns & Hall)]. split; try done.
  - split; [done|]. split; [done|]. split; [done|]. exists old. split; [|done]. cbn. by rewrite render_other.
  - exists ns. split; [done|]. apply Forall2_same_length_lookup_2; [by apply Forall2_length in Hall|].
    intros i n im Hn Him. destruct (Forall2_lookup_lr _ _ _ _ _ _ Hall Hn Him) as (nd & l & Ha & Hb & Hc).
    exists nd, l. split; [done|]. split; [done|]. destruct im as [[[op b] d]|]; [|done].
    destruct Hc as (Hc1 & Hc2 & Hc3 & Hc4 & Hc5). repeat split; try done.
    assert (Hin : b ∈ fv_layer_blocks v').
    { unfold fv_layer_blocks. rewrite list_elem_of_join. exists [b]. split; [left|].
      eapply list_elem_of_fmap_2'; [by eapply list_elem_of_lookup_2|done]. }
    cbn. rewrite render_other; [done|intros ->; done|intros _ ->; done].
Qed.

Definition render_all (p : modadd_protocol_t) (db : nat) (m : gmap nat (list Z)) (fs : list fixture_view) :=
  foldl (render p db) m fs.

Lemma laid_out_room p start fs v blk : laid_out p start fs -> (start + total_size p fs <= length (blk : list Z))%nat ->
  v ∈ fs -> (start <= fv_off v /\ fv_off v + fv_size p v <= start + total_size p fs)%nat.
Proof.
  revert start. induction fs as [|w fs IH]; intros start Hl Hr Hv; [by apply elem_of_nil in Hv|].
  destruct Hl as [Ho Hl]. cbn [total_size] in *.
  apply elem_of_cons in Hv as [->|Hv]; [lia|]. destruct (IH _ Hl ltac:(lia) Hv). lia.
Qed.

Lemma compose_chain_run p db fs s blk start :
  protocol_valid p -> db <> 0%nat -> bufs s !! db = Some blk ->
  (forall v, v ∈ fs -> fixture_ready s p db v) -> separate db fs -> laid_out p start fs ->
  (start + total_size p fs <= length blk)%nat ->
  mfold (fun iter _ => compose_fixture iter) (fv_node <$> fs) tt s
  = Some (tt, with_bufs (fun m => render_all p db m fs) s).
Proof.
  intros Hp Hdb. revert s blk start. induction fs as [|v fs IH]; intros s blk start Hblk Hready (Hnd & Hd & Hc) Hl Hr.
  - cbn. unfold with_bufs. by destruct s.
  - cbn [fmap list_fmap mfold]. rewrite fmap_cons in Hnd. apply list.NoDup_cons in Hnd as [Hvn Hnd].
    pose proof (Hready v ltac:(left)) as Hv. destruct (laid_out_room _ _ _ v blk Hl Hr ltac:(left)) as [_ Hroom].
    erewrite M_bind_Some; [|eapply compose_fixture_spec; [done|done|exact Hblk|done|apply Hc; left|lia]]. cbv beta.
    destruct (render_db p db (bufs s) v blk Hblk) as (blk' & Hb1 & Hb2 & _); [apply Hv|lia|].
    destruct Hl as [Hl1 Hl2].
    rewrite (IH _ blk' (start + fv_size p v)%nat); [done|exact Hb1| | |done|].
    + intros v' Hv'. apply ready_frame; [|apply Hc; [left|by right]|apply Hd; by right|apply Hready; by right].
      intros E. apply Hvn. rewrite <- E. by apply list_elem_of_fmap_2.
    + split; [done|]. split; [intros; apply Hd; by right|intros; apply Hc; by right].
    + rewrite Hb2. cbn [total_size] in Hr. lia.
Qed.

(** [modadd_ctrl_recompute_fixtures]: the output block of a controller and the
    place of each fixture in it. *)

(** A chain before it is laid out: its fixtures with their buffers and layers.
    The control structure and the output pointer of a fixture do not matter. *)
Record fixture_built (s : leds) (db : nat) (v : fixture_view) : Prop := {
  fb_node : exists nd, fixture_nodes s !! fv_node v = Some nd /\ fix_obj nd = fv_obj v;
  fb_obj : fv_obj v <> 0%nat /\ fixture_objs s !! fv_obj v = Some (fv_x v);
  fb_leds : 0 < fix_leds (fv_x v) /\ MODADD_BPL * fix_leds (fv_x v) < 2 ^ 32;
  fb_comp : comp_data (fv_x v) = (fv_comp v, 0) /\ fv_comp v <> 0%nat /\ fv_comp v <> db
    /\ exists old, bufs s !! fv_comp v = Some old /\ Z.of_nat (length old) = MODADD_BPL * fix_leds (fv_x v);
  fb_layers : exists ns, chain lay_next (layer_nodes s) (fix_layers (fv_x v)) ns
    /\ Forall2 (layer_has s (fv_x v)) ns (fv_images v) }.

Fixpoint leds_sum (fs : list fixture_view) : Z :=
  match fs with [] => 0 | v :: fs => fix_leds (fv_x v) + leds_sum fs end.

(** The views after the layout. *)
Fixpoint place (p : modadd_protocol_t) (ctrl db start : nat) (fs : list fixture_view) : list fixture_view :=
  match fs with
  | [] => []
  | v :: fs => MkView (fv_node v) (fv_obj v) (set_out (db, Z.of_nat start) ctrl (fv_x v)) start (fv_images v)
      :: place p ctrl db (start + fv_size p v) fs
  end.

Definition place_objs (m : gmap nat addressable_fixture_obj_t) (fs : list fixture_view) :=
  foldl (fun m v => <[fv_obj v := fv_x v]> m) m fs.

Definition fixtures_present (s : leds) (fs : list fixture_view) : Prop :=
  forall v, v ∈ fs -> (exists nd, fixture_nodes s !! fv_node v = Some nd /\ fix_obj nd = fv_obj v)
    /\ fixture_objs s !! fv_obj v = Some (fv_x v) /\ 0 <= fix_leds (fv_x v).

Lemma leds_sum_nonneg s fs : fixtures_present s fs -> 0 <= leds_sum fs.
Proof.
  induction fs as [|v fs IH]; intros H; cbn; [lia|].
  destruct (H v ltac:(left)) as (_ & _ & ?). specialize (IH (fun v' Hv' => H v' ltac:(by right))). lia.
Qed.

(** ** Counting *)

Lemma count_run s pi fs r : fixtures_present s fs ->
  (forall v, v ∈ fs -> exists p, modadd_protocols (fix_protocol (fv_x v)) = Some p) ->
  0 <= total_leds r -> total_leds r + leds_sum fs < 2 ^ 32 ->
  mfold (modadd_fixture_count_leds pi) (fv_node <$> fs) r s
  = Some (MkRecomp (rdata r) (total_leds r + leds_sum fs)
      (protocol_ok r && forallb (fun v => fix_protocol (fv_x v) =? pi) fs), s).
Proof.
  revert r. induction fs as [|v fs IH]; intros r Hp Hv Hr Hs.
  - cbn. destruct r as [d n b]. cbn. by rewrite Z.add_0_r, andb_true_r.
  - cbn [fmap list_fmap mfold]. destruct (Hp v ltac:(left)) as ((nd & Hnd & Ho) & Hx & Hl).
    destruct (Hv v ltac:(left)) as [p Hpv].
    assert (Hp' : fixtures_present s fs) by (intros w Hw; apply Hp; by right).
    pose proof (leds_sum_nonneg s fs Hp'). cbn [leds_sum] in *.
    erewrite M_bind_Some;
      [|unfold modadd_fixture_count_leds; lstep; rewrite Ho; lstep; lstep; reflexivity]. cbv beta.
    rewrite IH; [|done|intros; apply Hv; by right|cbn; rewrite wrap_id by lia; lia|cbn; rewrite wrap_id by lia; lia].
    cbn. rewrite wrap_id by lia. do 3 f_equal; [lia|].
    destruct (fix_protocol (fv_x v) =? pi); cbn; [done|by rewrite andb_false_r].
Qed.

(** ** Placing *)

Lemma place_run s ctrl db p fs start n : fixtures_present s fs -> NoDup (fv_obj <$> fs) -> protocol_valid p ->
  (forall v, v ∈ fs -> MODADD_BPL * fix_leds (fv_x v) < 2 ^ 32) ->
  exists r, mfold (modadd_fixture_recomputation ctrl p) (fv_node <$> fs) (MkRecomp (db, Z.of_nat start) n true) s
  = Some (r, with_fixture_objs (fun m => place_objs m (place p ctrl db start fs)) s).
Proof.
  revert s start. induction fs as [|v fs IH]; intros s start Hp Hnd Hpv Hw.
  - eexists. cbn. unfold with_fixture_objs. by destruct s.
  - rewrite fmap_cons in Hnd. apply list.NoDup_cons in Hnd as [Hvn Hnd].
    cbn [fmap list_fmap mfold]. destruct (Hp v ltac:(left)) as ((nd & Hnd' & Ho) & Hx & Hl).
    specialize (Hw v ltac:(left)) as Hwv. pose proof (pv_bpl _ Hpv). unfold MODADD_BPL in *.
    destruct (IH (with_fixture_objs <[fv_obj v := set_out (db, Z.of_nat start) ctrl (fv_x v)]> s) (start + fv_size p v)%nat) as (r & Hr).
    + intros v' Hv'. destruct (Hp v' ltac:(by right)) as (? & Hx' & ?). split; [done|]. split; [|done].
      cbn. rewrite lookup_insert_ne; [done|]. intros E. apply Hvn. rewrite E. by apply list_elem_of_fmap_2.
    + done.
    + done.
    + intros v' Hv'. apply Hw. by right.
    + exists r. cbn [place].
      erewrite M_bind_Some; [|unfold modadd_fixture_recomputation, upd_fixture; lstep; rewrite Ho; lstep;
        erewrite M_bind_Some; [|lstep; reflexivity]; reflexivity]. cbv beta.
      unfold padd at 1. cbn [rdata total_leds protocol_ok fst snd].
      rewrite wrap_id by nia. replace (Z.of_nat start + fix_leds (fv_x v) * bpl p) with (Z.of_nat (start + fv_size p v))
        by (unfold fv_size, fv_leds; nia).
      exact Hr.
Qed.

(** ** The masks *)

Definition mask_byte (p : modadd_protocol_t) (i c : nat) : Z := or_mask p !!! c.
Definition zero_byte (i c : nat) : Z := 0.

Lemma or_byte_spec s b buf k v m : bufs s !! b = Some buf -> buf !! k = Some v ->
  or_byte (b, Z.of_nat k) m s = Some (tt, set_buf b (<[k := Z.lor v m]> buf) s).
Proof.
  intros Hb Hk. unfold or_byte. rewrite (M_bind_Some _ _ _ _ _ (load_spec _ _ _ _ _ Hb Hk)). cbv beta.
  eapply store_spec; [done|]. by eapply lookup_lt_Some.
Qed.

Lemma apply_mask_spec s db o p n l i : protocol_valid p -> let w := Z.to_nat (bpl p) in
  (o + w * n <= length l)%nat -> (i < n)%nat -> bpl p * Z.of_nat i < 2 ^ 32 ->
  apply_mask (db, Z.of_nat o) p (Z.of_nat i)
    (set_buf db (mix (o + w * i) (splice o (cells (mask_byte p) w n) l) (splice o (cells zero_byte w n) l)) s)
  = Some (tt, set_buf db (mix (o + w * S i) (splice o (cells (mask_byte p) w n) l) (splice o (cells zero_byte w n) l)) s).
Proof.
  intros Hp w Hl Hi Hw. pose proof (pv_bpl _ Hp). pose proof (pv_mask _ Hp) as Hm. fold w in Hm.
  set (A := splice o (cells (mask_byte p) w n) l). set (B := splice o (cells zero_byte w n) l).
  assert (HA : length A = length l) by by apply length_splice_cells.
  assert (HB : length B = length l) by by apply length_splice_cells.
  apply (for_to_run (fun c => set_buf db (mix (o + w * i + c) A B) s)).
  { by rewrite Nat.add_0_r. }
  { do 2 f_equal. rewrite Nat.mul_succ_r. fold w. lia. }
  intros c Hc. fold w in Hc. cbv beta. rewrite Nat2Z.id.
  assert (Hmc : or_mask p !! c = Some (or_mask p !!! c)) by (apply list_lookup_lookup_total_lt; lia). lstep.
  rewrite byte_at_spec by lia. rewrite !Nat2Z.id. fold w.
  erewrite or_byte_spec; [|apply set_buf_eq|].
  - rewrite set_buf_twice. do 3 f_equal. rewrite Nat.add_succ_r. apply mix_next; [congruence|].
    unfold A. rewrite lookup_splice_cells by done. rewrite Z.lor_0_l. done.
  - rewrite lookup_mix by congruence. destruct (Nat.ltb_spec (o + w * i + c) (o + w * i + c)); [lia|].
    unfold B. by rewrite lookup_splice_cells.
Qed.

(** The output block after the layout, for LEDs with no data yet. *)
Definition blank_block (p : modadd_protocol_t) (leds : Z) : list Z :=
  splice (Z.to_nat (startup_bytes p leds)) (cells (mask_byte p) (Z.to_nat (bpl p)) (Z.to_nat leds))
    (replicate (Z.to_nat (length_required p leds)) 0).

Lemma protocol_lengths i p n : modadd_protocols i = Some p -> 0 <= n < 2 ^ 28 ->
  4 <= startup_bytes p n /\ 0 <= shutdown_bytes p n
  /\ length_required p n = n * bpl p + startup_bytes p n + shutdown_bytes p n /\ length_required p n < 2 ^ 32.
Proof.
  intros H Hn. change (2 ^ 28) with 268435456 in Hn. unfold modadd_protocols in H.
  assert (p = modadd_protocol_apa102 \/ p = modadd_protocol_ws2812) as [-> | ->] by (repeat case_match; simplify_eq; eauto);
    unfold length_required, startup_bytes, shutdown_bytes; cbn -[Z.pow Z.div Z.mul]; unfold wrap;
    change (2 ^ 32) with 4294967296.
  - pose proof (Z.div_mod n 16 ltac:(lia)). pose proof (Z.mod_pos_bound n 16 ltac:(lia)).
    rewrite !(Z.mod_small (n / 16 + 0)) by lia. rewrite Z.mod_small by lia. lia.
  - rewrite Z.mod_small by lia. lia.
Qed.

Lemma mask_loop s db pi p n : modadd_protocols pi = Some p -> 0 <= n < 2 ^ 28 ->
  bufs s !! db = Some (replicate (Z.to_nat (length_required p n)) 0) ->
  for_to n (apply_mask (db, startup_bytes p n) p) s = Some (tt, set_buf db (blank_block p n) s).
Proof.
  intros Hpi Hn Hb. pose proof (modadd_protocols_valid _ _ Hpi) as Hp.
  destruct (protocol_lengths _ _ _ Hpi Hn) as (H1 & H2 & H3 & H4). pose proof (pv_bpl _ Hp).
  set (o := Z.to_nat (startup_bytes p n)). set (w := Z.to_nat (bpl p)).
  set (zeros := replicate (Z.to_nat (length_required p n)) 0) in *.
  assert (Hl : (o + w * Z.to_nat n <= length zeros)%nat) by (unfold zeros; rewrite length_replicate; subst o w; nia).
  assert (Hz : splice o (cells zero_byte w (Z.to_nat n)) zeros = zeros).
  { rewrite <- (splice_self o w (Z.to_nat n) _ Hl) at 2. f_equal. unfold cells. apply map_ext_in. intros k Hk%in_seq.
    unfold zero_byte. symmetry. apply lookup_total_replicate_2. unfold zeros in Hl. rewrite length_replicate in Hl.
    destruct w as [|w']; [lia|]. pose proof (Nat.div_mod k (S w') ltac:(lia)). lia. }
  replace (startup_bytes p n) with (Z.of_nat o) by (subst o; lia).
  unfold blank_block. fold o w zeros. rewrite <- (Z2Nat.id n) at 1 by lia.
  apply (fill_cells _ zero_byte); [done|by rewrite Hz|].
  intros i Hi. apply apply_mask_spec; [done|done|done|]. nia.
Qed.
