(* ===== verification/AddrRecompute.v ===== *)
(** What the layout of a chain of fixtures achieves: every branch of
    [modadd_ctrl_recompute_fixtures], and that a chain it laid out is ready to be
    composed. *)
From S2P Require Import Prelude LinkedList Addressable AddrOps AddrCompose AddrSpec AddrRender AddrChain.

Record chain_built (s : leds) (ctrl : nat) (c : modadd_ctrl_t) (fs : list fixture_view) : Prop := {
  cb_ctrl : ctrls s !! ctrl = Some c;
  cb_chain : chain fix_next (fixture_nodes s) (ctl_head c) (fv_node <$> fs);
  cb_fixtures : forall v, v ∈ fs -> fixture_built s (led_brk s) v;
  cb_objs : NoDup (fv_obj <$> fs);
  cb_separate : separate (led_brk s) fs;
  cb_fresh : led_brk s <> 0%nat;
  cb_leds : leds_sum fs < 2 ^ 28;
  (** The old output block is not a buffer of a fixture or a layer. *)
  cb_data : ctl_data c = bnull \/ exists od, ctl_data c = (od, 0) /\ od <> 0%nat /\ od <> led_brk s
    /\ (exists old, bufs s !! od = Some old)
    /\ forall v, v ∈ fs -> od <> fv_comp v /\ od ∉ fv_layer_blocks v }.

(** The state after the old block was released, if it is too small. *)
Definition after_release (c : modadd_ctrl_t) (required : Z) (s : leds) : leds :=
  if is_null (ctl_data c) then s
  else if ctl_data_len c <? required then with_bufs (delete (ctl_data c).1) s else s.

Definition laid (ctrl : nat) (c : modadd_ctrl_t) (p : modadd_protocol_t) (fs : list fixture_view) (s : leds) : leds :=
  let n := leds_sum fs in let db := led_brk s in
  set_buf db (blank_block p n)
    (with_fixture_objs (fun m => place_objs m (place p ctrl db (Z.to_nat (startup_bytes p n)) fs))
      (with_ctrls <[ctrl := set_data (db, 0) (length_required p n) c]>
        (after_malloc s))).

(** ** The views of the chain that was placed *)

Lemma place_in p ctrl db start fs v' : v' ∈ place p ctrl db start fs ->
  exists v o, v ∈ fs /\ v' = MkView (fv_node v) (fv_obj v) (set_out (db, Z.of_nat o) ctrl (fv_x v)) o (fv_images v).
Proof.
  revert start. induction fs as [|v fs IH]; intros start; cbn; [by intros ?%elem_of_nil|].
  intros [->|H]%elem_of_cons; [exists v, start; split; [left|done]|].
  destruct (IH _ H) as (w & o & Hw & ->). exists w, o. split; [by right|done].
Qed.

Lemma place_map {A} (f : fixture_view -> A) p ctrl db start fs :
  (forall v o, f (MkView (fv_node v) (fv_obj v) (set_out (db, Z.of_nat o) ctrl (fv_x v)) o (fv_images v)) = f v) ->
  f <$> place p ctrl db start fs = f <$> fs.
Proof. intros H. revert start. induction fs as [|v fs IH]; intros start; cbn; [done|]. by rewrite H, IH. Qed.

Lemma place_layout p ctrl db start fs : laid_out p start (place p ctrl db start fs)
  /\ total_size p (place p ctrl db start fs) = total_size p fs.
Proof.
  revert start. induction fs as [|v fs IH]; intros start; cbn; [done|].
  destruct (IH (start + fv_size p v)%nat) as [H1 H2]. split; [by split|by rewrite H2].
Qed.

Lemma total_size_leds s p fs : fixtures_present s fs -> total_size p fs = (Z.to_nat (bpl p) * Z.to_nat (leds_sum fs))%nat.
Proof.
  induction fs as [|v fs IH]; intros H; cbn [total_size leds_sum]; [lia|].
  assert (H' : fixtures_present s fs) by (intros w Hw; apply H; by right).
  rewrite IH by done. pose proof (leds_sum_nonneg s fs H'). destruct (H v ltac:(left)) as (_ & _ & ?).
  unfold fv_size, fv_leds. rewrite Z2Nat.inj_add by lia. lia.
Qed.

Lemma place_objs_other m fs o : o ∉ fv_obj <$> fs -> place_objs m fs !! o = m !! o.
Proof.
  unfold place_objs. revert m. induction fs as [|v fs IH]; intros m Hn; [done|]. rewrite fmap_cons in Hn.
  apply not_elem_of_cons in Hn as [Hv Hn]. cbn. rewrite IH by done. by rewrite lookup_insert_ne.
Qed.

Lemma place_objs_in m fs v : NoDup (fv_obj <$> fs) -> v ∈ fs -> place_objs m fs !! fv_obj v = Some (fv_x v).
Proof.
  revert m. induction fs as [|w fs IH]; intros m Hnd; [by intros ?%elem_of_nil|]. rewrite fmap_cons in Hnd.
  apply list.NoDup_cons in Hnd as [Hw Hnd]. intros [->|Hv]%elem_of_cons.
  - change (place_objs m (w :: fs)) with (place_objs (<[fv_obj w := fv_x w]> m) fs).
    rewrite place_objs_other by done. by rewrite lookup_insert_eq.
  - by apply IH.
Qed.

(** ** Ready for composition *)

Section Laid.
Context (s : leds) (ctrl pi : nat) (c : modadd_ctrl_t) (p : modadd_protocol_t) (fs : list fixture_view).
Context (Hb : chain_built s ctrl c fs) (Hp : modadd_protocols (out_protocol c) = Some p).

Lemma built_present : fixtures_present s fs.
Proof. intros v Hv. destruct (cb_fixtures _ _ _ _ Hb v Hv) as [H1 [_ H2] [H3 _] _ _]. repeat split; done || lia. Qed.

Lemma leds_bounds : 0 <= leds_sum fs < 2 ^ 28.
Proof. split; [eapply leds_sum_nonneg, built_present|apply Hb]. Qed.

Lemma layer_has_agree s1 x n im : layer_nodes s1 = layer_nodes s -> layer_objs s1 = layer_objs s ->
  (forall b, b ∈ image_block im -> bufs s1 !! b = bufs s !! b) -> layer_has s x n im -> layer_has s1 x n im.
Proof.
  intros H1 H2 H3 (nd & l & Ha & Hl & Hi). exists nd, l. rewrite H1, H2. split; [done|]. split; [done|].
  destruct im as [[[op b] d]|]; [|done]. rewrite H3 by (by left). done.
Qed.

(** Buffers in use are not the new block. *)
Lemma released_keeps b required : b <> (ctl_data c).1 -> bufs (after_release c required s) !! b = bufs s !! b.
Proof. intros H. unfold after_release. repeat case_match; try done. cbn. by rewrite lookup_delete_ne. Qed.

Lemma released_rest required : let s1 := after_release c required s in
  layer_nodes s1 = layer_nodes s /\ layer_objs s1 = layer_objs s /\ fixture_nodes s1 = fixture_nodes s
  /\ fixture_objs s1 = fixture_objs s /\ ctrls s1 = ctrls s /\ led_brk s1 = led_brk s /\ led_oom s1 = led_oom s.
Proof. cbn. unfold after_release. by repeat case_match. Qed.

Lemma old_block_apart v : v ∈ fs -> fv_comp v <> (ctl_data c).1 /\ (ctl_data c).1 ∉ fv_layer_blocks v.
Proof.
  intros Hv. destruct (cb_data _ _ _ _ Hb) as [-> |(od & -> & _ & _ & _ & H)]; cbn [bnull fst].
  - destruct (cb_fixtures _ _ _ _ Hb v Hv) as [_ _ _ (_ & H1 & _ & _) (ns & _ & Hall)]. split; [done|].
    unfold fv_layer_blocks. rewrite list_elem_of_join. intros (bl & H0 & (im & -> & Him)%list_elem_of_fmap).
    apply list_elem_of_lookup in Him as [i Hi]. destruct (Forall2_lookup_r _ _ _ _ _ Hall Hi) as (n & _ & nd & l & _ & _ & Hl).
    destruct im as [[[op b] d]|]; cbn in H0; [|by apply elem_of_nil in H0].
    apply list_elem_of_singleton in H0 as <-. by destruct Hl as (_ & _ & ? & _).
  - destruct (H v Hv). split; [congruence|done].
Qed.

Lemma laid_ready : chain_ready (laid ctrl c p fs (after_release c (length_required p (leds_sum fs)) s)) ctrl p (led_brk s)
  (blank_block p (leds_sum fs)) (Z.to_nat (startup_bytes p (leds_sum fs)))
  (place p ctrl (led_brk s) (Z.to_nat (startup_bytes p (leds_sum fs))) fs).
Proof.
  pose proof Hb as [Hc Hch Hfix Hnd (Hs1 & Hs2 & Hs3) Hfr _ _].
  set (n := leds_sum fs) in *. pose proof leds_bounds as Hn.
  destruct (protocol_lengths _ _ _ Hp Hn) as (L1 & L2 & L3 & L4). fold n in L1, L2, L3, L4.
  destruct (released_rest (length_required p n)) as (R1 & R2 & R3 & R4 & R5 & R6 & R7).
  destruct (place_layout p ctrl (led_brk s) (Z.to_nat (startup_bytes p n)) fs) as [Hlo Hto].
  pose proof (modadd_protocols_valid _ _ Hp) as Hpv. pose proof (pv_bpl _ Hpv).
  unfold laid, after_malloc. fold n. rewrite R6.
  split; cbn [ctrls fixture_nodes set_buf with_bufs with_fixture_objs with_ctrls with_led_malloc bufs].
  - exists (set_data (led_brk s, 0) (length_required p n) c). rewrite lookup_insert_eq, R3.
    split; [done|]. split; [done|]. split; [cbn; lia|]. by rewrite (place_map fv_node).
  - done.
  - split; [done|]. by rewrite lookup_insert_eq.
  - intros v' Hv'. pose proof Hv' as Hin. apply place_in in Hv' as (v & o & Hv & E).
    destruct (Hfix v Hv) as [(nd & H1 & H1') [H2 H2'] [H3 H3'] (H4 & H5 & H6 & old & H7 & H8) (ns & H9 & H10)].
    destruct (old_block_apart v Hv) as [Ho1 Ho2].
    split; rewrite ?E; cbn -[place_objs place].
    + exists nd. rewrite R3. done.
    + split; [done|]. rewrite R4.
      assert (X := Hin). apply (place_objs_in (fixture_objs s)) in X; [|by rewrite (place_map fv_obj)].
      rewrite E in X. exact X.
    + done.
    + eexists. rewrite lookup_insert_eq. split; [done|]. exact Hp.
    + done.
    + split; [done|]. split; [done|]. split; [done|]. exists old. unfold fv_comp at 1. cbn.
      rewrite lookup_insert_ne by done. by rewrite released_keeps.
    + exists ns. rewrite R1. split; [done|]. apply Forall2_same_length_lookup_2; [by apply Forall2_length in H10|].
      intros i k im Hk Him. pose proof (Forall2_lookup_lr _ _ _ _ _ _ H10 Hk Him) as Hl.
      eapply layer_has_agree in Hl; [exact Hl|done|done|]. intros b Hbin. cbn.
      assert (Hbv : b ∈ fv_layer_blocks v).
      { unfold fv_layer_blocks. rewrite list_elem_of_join. exists (image_block im). split; [done|].
        eapply list_elem_of_fmap_2; by eapply list_elem_of_lookup_2. }
      rewrite lookup_insert_ne by (intros <-; by apply (Hs2 v Hv)). apply released_keeps. by intros ->.
  - split; [by rewrite (place_map fv_comp)|]. split.
    + intros v' (v & o & Hv & ->)%place_in. exact (Hs2 v Hv).
    + intros v1 v2 (v & o & Hv & ->)%place_in (v' & o' & Hv' & ->)%place_in. exact (Hs3 v v' Hv Hv').
  - done.
  - rewrite Hto, (total_size_leds s) by apply built_present. fold n. unfold blank_block.
    rewrite length_splice_cells; rewrite length_replicate; nia.
Qed.
End Laid.

(** ** The function *)

#[export] Instance keeps_count pi n r : Keeps fixture_nodes (modadd_fixture_count_leds pi n r).
Proof. unfold modadd_fixture_count_leds. apply _. Qed.
#[export] Instance keeps_place ctrl p n r : Keeps fixture_nodes (modadd_fixture_recomputation ctrl p n r).
Proof. unfold modadd_fixture_recomputation, upd_fixture. apply _. Qed.

Lemma fixture_foreach_run {A} (body : nat -> A -> M leds A) (p : nat) (xs : list nat) acc s :
  (forall n acc, Keeps fixture_nodes (body n acc)) -> chain fix_next (fixture_nodes s) p xs ->
  modadd_fixture_foreach p body acc s = mfold body xs acc s.
Proof.
  intros Hk Hc. unfold modadd_fixture_foreach. erewrite M_bind_Some; [|reflexivity]. cbv beta.
  apply (foreach_run fixture_nodes fix_next).
  - intros q t. unfold next_fixture, get_fixture_node, mget, mlift, mbind, M_bind. cbn. by destruct (fixture_nodes t !! q).
  - intros n a t a' t'. apply keeps.
  - done.
  - by eapply chain_size.
Qed.

Lemma release_run s c required :
  (ctl_data c = bnull \/ exists od, ctl_data c = (od, 0) /\ od <> 0%nat /\ exists old, bufs s !! od = Some old) ->
  (if is_null (ctl_data c) then mret tt
   else if ctl_data_len c <? required then free_bytes (ctl_data c) else mret tt) s
  = Some (tt, after_release c required s).
Proof.
  intros H. unfold after_release. destruct H as [-> |(od & -> & Hod & old & Hold)]; [done|].
  unfold is_null. cbn [fst]. apply Nat.eqb_neq in Hod as ->. case_match; [|done].
  unfold free_bytes, mget, mlift, mmodify, mbind, M_bind. cbn. by rewrite Hold.
Qed.

Lemma malloc_bytes_run s n : led_brk s <> 0%nat ->
  malloc_bytes n s = if out_of_memory s
    then Some (bnull, after_failure s)
    else Some ((led_brk s, 0), set_buf (led_brk s) (replicate (Z.to_nat n) MALLOC_FILL) (after_malloc s)).
Proof.
  intros Hb. pose proof (led_malloc_run s) as Hm. unfold malloc_bytes. apply Nat.eqb_neq in Hb.
  destruct (out_of_memory s); rewrite (M_bind_Some _ _ _ _ _ Hm); cbv beta; [done|]. by rewrite Hb.
Qed.

(** C12 The layout of a chain.  With a fixture of another (known) protocol nothing
    happens.  Otherwise the old block is released if it is too small, and without memory
    for a new one nothing else happens; the controller then still has the
    pointer to the old one.  With memory the result is exactly [laid]: a new block with the start sequence,
    the masks of all LEDs and the stop sequence, every fixture bound to the
    controller and to its consecutive place; and the chain is ready to be
    composed. *)
Theorem modadd_ctrl_recompute_correct s ctrl c p fs : chain_built s ctrl c fs ->
  modadd_protocols (out_protocol c) = Some p ->
  (forall v, v ∈ fs -> exists q, modadd_protocols (fix_protocol (fv_x v)) = Some q) ->
  let s1 := after_release c (length_required p (leds_sum fs)) s in
  modadd_ctrl_recompute_fixtures ctrl s
  = Some (tt,
      if negb (forallb (fun v => fix_protocol (fv_x v) =? out_protocol c) fs) then s
      else if out_of_memory s
           then after_failure s1
      else laid ctrl c p fs s1)
  /\ chain_ready (laid ctrl c p fs s1) ctrl p (led_brk s) (blank_block p (leds_sum fs))
       (Z.to_nat (startup_bytes p (leds_sum fs)))
       (place p ctrl (led_brk s) (Z.to_nat (startup_bytes p (leds_sum fs))) fs).
Proof.
  intros Hb Hp Hq s1. split; [|by apply laid_ready]. pose proof Hb as [Hc Hch Hfix Hnd _ Hfr Hn Hd].
  pose proof (built_present s ctrl c fs Hb) as Hpres. pose proof (leds_sum_nonneg _ _ Hpres) as Hn0.
  destruct (protocol_lengths _ _ _ Hp (conj Hn0 Hn)) as (L1 & L2 & L3 & L4).
  pose proof (modadd_protocols_valid _ _ Hp) as Hpv. pose proof (pv_bpl _ Hpv).
  destruct (released_rest s c (length_required p (leds_sum fs))) as (R1 & R2 & R3 & R4 & R5 & R6 & R7).
  fold s1 in R1, R2, R3, R4, R5, R6, R7.
  unfold modadd_ctrl_recompute_fixtures. lstep. lstep.
  erewrite M_bind_Some; [|rewrite (fixture_foreach_run _ _ (fv_node <$> fs)) by (done || apply _);
    apply (count_run s (out_protocol c) fs); [done|done|cbn; lia|cbn; change (2 ^ 28) with 268435456 in Hn; change (2^32) with 4294967296; lia]].
  cbv beta. cbn [rdata total_leds protocol_ok]. rewrite Z.add_0_l, andb_true_l.
  destruct (forallb _ fs) eqn:Eok; cbn [negb]; [|done].
  erewrite M_bind_Some; [|apply release_run; destruct Hd as [?|(od & ? & ? & ? & ? & ?)]; [by left|right; eauto]].
  cbv beta. fold s1. destruct (Z.eqb_spec (length_required p (leds_sum fs)) 0) as [E|E]; [nia|].
  pose proof (malloc_bytes_run s1 (length_required p (leds_sum fs)) ltac:(by rewrite R6)) as Hm. rewrite R6 in Hm.
  replace (out_of_memory s1) with (out_of_memory s) in Hm by (unfold out_of_memory; by rewrite R7).
  destruct (out_of_memory s); rewrite (M_bind_Some _ _ _ _ _ Hm); cbv beta; [done|].
  unfold is_null. cbn [fst]. rewrite (proj2 (Nat.eqb_neq _ _) Hfr).
  set (db := led_brk s) in *. set (s2 := after_malloc s1).
  set (fill := replicate (Z.to_nat (length_required p (leds_sum fs))) MALLOC_FILL).
  set (zeros := replicate (Z.to_nat (length_required p (leds_sum fs))) 0).
  set (c' := set_data (db, 0) (length_required p (leds_sum fs)) c).
  assert (Hupd : upd_ctrl ctrl (set_data (db, 0) (length_required p (leds_sum fs))) (set_buf db fill s2)
    = Some (tt, with_ctrls <[ctrl := c']> (set_buf db fill s2))).
  { unfold upd_ctrl. erewrite M_bind_Some; [|apply get_ctrl_run; cbn; rewrite R5; exact Hc]. reflexivity. }
  rewrite (M_bind_Some _ _ _ _ _ Hupd). cbv beta.
  erewrite M_bind_Some; [|apply memset0_spec with (buf := fill); [by cbn; rewrite lookup_insert_eq|nia|unfold fill; rewrite length_replicate; lia]].
  cbv beta. fold zeros. set (s3 := set_buf db zeros _).
  set (o := Z.to_nat (startup_bytes p (leds_sum fs))).
  replace (padd (db, 0) (startup_bytes p (leds_sum fs))) with (db, Z.of_nat o) by (unfold padd; cbn; f_equal; lia).
  destruct (place_run s3 ctrl db p fs o (leds_sum fs)) as (r & Hr).
  { intros v Hv. destruct (Hpres v Hv) as (H1 & H2 & H3). cbn. by rewrite R3, R4. }
  { done. }
  { done. }
  { intros v Hv. apply (fb_leds _ _ _ (Hfix v Hv)). }
  erewrite M_bind_Some; [|rewrite (fixture_foreach_run _ _ (fv_node <$> fs)); [exact Hr|apply _|cbn; by rewrite R3]].
  cbv beta. replace (Z.of_nat o) with (startup_bytes p (leds_sum fs)) by lia.
  rewrite (mask_loop _ db _ p (leds_sum fs) Hp (conj Hn0 Hn)) by (cbn; by rewrite lookup_insert_eq).
  do 2 f_equal. unfold laid. cbv zeta. rewrite R6. fold db o.
  unfold s3, set_buf, with_bufs. cbn. f_equal. by rewrite !insert_insert_eq.
Qed.
