(* ===== verification/AddrThms.v ===== *)
(** What the theorems on the addressable LEDs state: compositing arithmetic,
    composition of a chain of fixtures. *)
From S2P Require Import Prelude PyExn LinkedList Addressable AddrCompose AddrSpec AddrRender AddrChain.

(** ** Compositing arithmetic *)

(** [r] is [a * b / 255] rounded to the nearest integer. *)
Lemma int_mult_nearest a b : 0 <= a <= 255 -> 0 <= b <= 255 ->
  2 * Z.abs (255 * MODADD_INT_MULT a b - a * b) < 255.
Proof.
  intros Ha Hb. unfold MODADD_INT_MULT. assert (0 <= a * b <= 65025) by nia.
  rewrite wrap_id by (change (2 ^ 16) with 65536; lia). rewrite !Z.shiftr_div_pow2 by lia. change (2 ^ 8) with 256.
  set (t := a * b + 128). assert (Ht : 128 <= t <= 65153) by lia.
  pose proof (Z.div_mod t 256 ltac:(lia)). pose proof (Z.mod_pos_bound t 256 ltac:(lia)).
  pose proof (Z.div_mod (t / 256 + t) 256 ltac:(lia)). pose proof (Z.mod_pos_bound (t / 256 + t) 256 ltac:(lia)).
  replace (a * b) with (t - 128) by lia. lia.
Qed.

Definition premultiplied (q a : Z) : Prop := 0 <= q <= a /\ a <= 255.

(** Compositing with premultiplied alpha.  [MODADD_INT_MULT] is the product of two
    fractions of 255 rounded to the nearest; for a channel [p] of the picture
    below with alpha [b] and a channel [q] of the layer with alpha [a], each
    at most its alpha, the composite needs no cap: it is within [0, 255], within
    a half of the exact [p + q - a * p / 255], and again at most the alpha of
    the composite pixel. *)
Theorem prelerp_premultiplied p b q a : premultiplied p b -> premultiplied q a ->
  2 * Z.abs (255 * MODADD_INT_MULT a p - a * p) < 255
  /\ blend_byte MODADD_OP_COMP p q a = MODADD_INT_PRELERP p q a
  /\ premultiplied (blend_byte MODADD_OP_COMP p q a) (blend_byte MODADD_OP_COMP b a a)
  /\ 2 * Z.abs (255 * blend_byte MODADD_OP_COMP p q a - (255 * (p + q) - a * p)) < 255.
Proof.
  intros [Hp Hb] [Hq Ha].
  pose proof (int_mult_nearest a p ltac:(lia) ltac:(lia)) as H1.
  pose proof (int_mult_nearest a b ltac:(lia) ltac:(lia)) as H2.
  unfold blend_byte. cbn. unfold MODADD_INT_PRELERP.
  set (mp := MODADD_INT_MULT a p) in *. set (mb := MODADD_INT_MULT a b) in *.
  assert (Hmp : 0 <= mp <= p) by nia. assert (Hmb : 0 <= mb <= b) by nia.
  assert (Hsum : b + a - mb <= 255) by nia. assert (Hmono : p - mp <= b - mb) by nia.
  rewrite !wrap_id by (change (2 ^ 8) with 256; lia). repeat split; lia.
Qed.

Lemma prelerp_premultiplied_witness :
  premultiplied 200 255 /\ premultiplied 50 100 /\ blend_byte MODADD_OP_COMP 200 50 100 = 172
  /\ premultiplied (blend_byte MODADD_OP_COMP 200 50 100) (blend_byte MODADD_OP_COMP 255 100 100).
Proof.
  assert (H1 : premultiplied 200 255) by (unfold premultiplied; lia).
  assert (H2 : premultiplied 50 100) by (unfold premultiplied; lia).
  destruct (prelerp_premultiplied 200 255 50 100 H1 H2) as (_ & _ & H3 & _).
  split; [exact H1|]. split; [exact H2|]. split; [reflexivity|exact H3].
Defined.

(** The cap at 255 is applied to a byte and has no effect: a channel above its alpha wraps. *)
Lemma comp_cap_wraps : blend_byte MODADD_OP_COMP 255 255 0 = 254.
Proof. reflexivity. Qed.

(** ** Composition of a chain *)

Lemma render_all_spec p db fs m blk start :
  m !! db = Some blk -> (forall v, v ∈ fs -> fv_comp v <> db) -> NoDup (fv_comp <$> fs) -> laid_out p start fs ->
  (start + total_size p fs <= length blk)%nat ->
  exists blk', render_all p db m fs !! db = Some blk' /\ length blk' = length blk
  /\ (forall v, v ∈ fs -> fv_lit v = true -> render_all p db m fs !! fv_comp v = Some (fv_image v)
        /\ forall k, (k < fv_size p v)%nat -> blk' !! (fv_off v + k)%nat = fv_output p v !! k)
  /\ (forall j, (forall v, v ∈ fs -> fv_lit v = true -> (j < fv_off v \/ fv_off v + fv_size p v <= j)%nat) -> blk' !! j = blk !! j)
  /\ (forall b, b <> db -> (forall v, v ∈ fs -> fv_lit v = true -> b <> fv_comp v) -> render_all p db m fs !! b = m !! b).
Proof.
  revert m blk start. induction fs as [|v fs IH]; intros m blk start Hm Hc Hnd Hl Hr.
  { exists blk. split; [done|]. split; [done|]. split; [|done]. by intros v ?%elem_of_nil. }
  rewrite fmap_cons in Hnd. apply list.NoDup_cons in Hnd as [Hvn Hnd].
  destruct (laid_out_room _ _ _ v blk Hl Hr ltac:(left)) as [_ Hroom].
  destruct (render_db p db m v blk Hm (Hc v ltac:(left)) ltac:(cbn [total_size] in *; lia)) as (blk1 & Hb1 & Hb2 & Hb3).
  destruct Hl as [Hl1 Hl2]. cbn [total_size] in Hr.
  destruct (IH (render p db m v) blk1 (start + fv_size p v)%nat) as (blk' & H1 & H2 & H3 & H4 & H5);
    [done|intros; apply Hc; by right|done|done|lia|].
  assert (Hlen : length (fv_output p v) = fv_size p v) by (unfold fv_output, encode; by rewrite length_cells).
  assert (Hout : forall v' , v' ∈ fs -> (fv_off v + fv_size p v <= fv_off v')%nat).
  { intros v' Hv'. destruct (laid_out_room _ _ _ v' blk Hl2 ltac:(lia) Hv'). lia. }
  exists blk'. change (render_all p db m (v :: fs)) with (render_all p db (render p db m v) fs).
  split; [done|]. split; [congruence|]. split; [|split].
  - intros v' [->|Hv]%elem_of_cons Hlit; [|by apply H3]. split.
    + rewrite H5.
      * unfold render. rewrite Hlit, lookup_insert_ne by (apply not_eq_sym, Hc; left). by rewrite lookup_insert_eq.
      * apply Hc. left.
      * intros v' Hv' _ E. apply Hvn. rewrite E. by apply list_elem_of_fmap_2.
    + intros k Hk. rewrite H4.
      * rewrite Hb3, Hlit. apply lookup_splice_in; lia.
      * intros v' Hv' _. left. specialize (Hout v' Hv'). lia.
  - intros j Hj. rewrite H4 by (intros; apply Hj; [by right|done]). rewrite Hb3.
    destruct (fv_lit v) eqn:E; [|done]. apply lookup_splice_out; rewrite Hlen; [lia|]. apply Hj; [left|done].
  - intros b Hb Hbv. rewrite H5; [|done|intros; apply Hbv; [by right|done]].
    apply render_other; [done|]. apply Hbv. left.
Qed.

(** C11 Composition.  On a controller that is laid out, [addressable_layer_compose] is
    defined and changes buffers only.  The composition buffer of each fixture
    with layers is its layers' data blended in their order from zero, four bytes for each LED.
    Of its place in the output block, byte [c] of LED [i] is channel [c] of the protocol, with the mask and the
    brightness, of the four composed bytes that begin at [bpl * i]; for a protocol with four
    bytes per LED those are the pixel of LED [i].  For one with three bytes (WS2812) they are
    that pixel for the first LED only: for the others the code takes bytes of wrong pixels,
    against its comment ([ws2812_stride] shows it).  All other bytes of the output block (the
    start and stop sequences, fixtures without layers) and all other buffers
    stay. *)
Theorem addressable_layer_compose_correct s ctrl p db blk start fs : chain_ready s ctrl p db blk start fs ->
  exists m blk', addressable_layer_compose ctrl s = Some (tt, with_bufs (fun _ => m) s)
  /\ m !! db = Some blk' /\ length blk' = length blk
  /\ (forall v, v ∈ fs -> fv_lit v = true -> m !! fv_comp v = Some (fv_image v)
        /\ forall i c, (i < fv_leds v)%nat -> (c < Z.to_nat (bpl p))%nat ->
             let out := blk' !! (fv_off v + Z.to_nat (bpl p) * i + c)%nat in
             out = Some (wire_byte p (fix_brightness (fv_x v)) (pixel_at (Z.to_nat (bpl p) * i) (fv_image v)) c)
             /\ (bpl p = MODADD_BPL \/ i = 0%nat -> out = Some (wire_byte p (fix_brightness (fv_x v)) (rgba i (fv_image v)) c)))
  /\ (forall j, (forall v, v ∈ fs -> fv_lit v = true -> (j < fv_off v \/ fv_off v + fv_size p v <= j)%nat) -> blk' !! j = blk !! j)
  /\ (forall b, b <> db -> (forall v, v ∈ fs -> fv_lit v = true -> b <> fv_comp v) -> m !! b = bufs s !! b).
Proof.
  intros [(c & Hc & Hd & Hdl & Hch) Hp [Hdb0 Hblk] Hready Hsep Hl Hr].
  destruct (render_all_spec p db fs (bufs s) blk start) as (blk' & Hm & Hlen & Hlit & Hall); try done.
  { intros v Hv. by destruct (fr_comp _ _ _ _ (Hready v Hv)) as (_ & _ & ? & _). }
  { apply Hsep. }
  exists (render_all p db (bufs s) fs), blk'. split; [|split; [done|split; [done|split; [|done]]]]; last first.
  { intros v Hv Hl1. destruct (Hlit v Hv Hl1) as [Himg Hout]. split; [done|]. intros i ch Hi Hch' out.
    assert (Hw : out = Some (wire_byte p (fix_brightness (fv_x v)) (pixel_at (Z.to_nat (bpl p) * i) (fv_image v)) ch)).
    { unfold out. rewrite <- Nat.add_assoc, Hout by (unfold fv_size; nia). by apply encode_pixel. }
    split; [done|]. intros Hown. rewrite Hw. unfold rgba, MODADD_BPL in *.
    by replace (Z.to_nat (bpl p) * i)%nat with (4 * i)%nat by (destruct Hown as [-> | ->]; lia). }
  unfold addressable_layer_compose. lstep. unfold is_null. rewrite Hd. cbn [fst].
  apply Nat.eqb_neq in Hdb0 as Hdb'. rewrite Hdb'. apply Z.eqb_neq in Hdl as ->.
  assert (Hrun : mfold (fun iter _ => compose_fixture iter) (fv_node <$> fs) tt s
    = Some (tt, with_bufs (fun m => render_all p db m fs) s)) by (by eapply compose_chain_run).
  destruct (Nat.eqb_spec (ctl_head c) 0) as [E|E].
  - destruct fs as [|v fs]; [|by destruct Hch as (H & H' & _); rewrite E in H]. cbn. unfold with_bufs. by destruct s.
  - unfold modadd_fixture_foreach. erewrite M_bind_Some; [|reflexivity]. cbv beta.
    rewrite (foreach_run fixture_nodes fix_next) with (xs := fv_node <$> fs); [exact Hrun|..].
    + intros q t. unfold next_fixture, get_fixture_node, mget, mlift, mbind, M_bind. cbn. by destruct (fixture_nodes t !! q).
    + intros q acc t acc' t'. apply (keeps (f := fixture_nodes)).
    + done.
    + by eapply chain_size.
Qed.

(** ** Shifting a buffer out *)

Definition bit_events (c : modadd_ctrl_t) (bite : Z) (pos : nat) : list (Z * Z) :=
  [(port_dat c, Z.b2z (Z.testbit bite (7 - Z.of_nat pos))); (port_clk c, 0); (port_clk c, 1)].
Definition byte_events (c : modadd_ctrl_t) (bite : Z) : list (Z * Z) := concat (map (bit_events c bite) (seq 0 8)).

(** The bits that a receiver samples: the data level at each rising edge. *)
Fixpoint sampled (clk dat : Z) (level : Z) (clock : Z) (log : list (Z * Z)) : list Z :=
  match log with
  | [] => []
  | (pin, v) :: log =>
      if pin =? dat then sampled clk dat v clock log
      else if pin =? clk then (if (clock =? 0) && (v =? 1) then [level] else []) ++ sampled clk dat level v log
      else sampled clk dat level clock log
  end.

Definition byte_bits (bite : Z) : list Z := map (fun pos => Z.b2z (Z.testbit bite (7 - Z.of_nat pos))) (seq 0 8).

Lemma with_gpio_app e1 e2 s : with_gpio e2 (with_gpio e1 s) = with_gpio (e1 ++ e2) s.
Proof. unfold with_gpio. cbn. by rewrite app_assoc. Qed.

Lemma shift_bit_run c bite pos s : (pos < 8)%nat ->
  shift_bit c bite (Z.of_nat pos) s = Some (tt, with_gpio (bit_events c bite pos) s).
Proof.
  intros Hp. unfold shift_bit, gpio_set_level.
  assert (Hb : Z.land bite (Z.shiftr 128 (Z.of_nat pos)) = if Z.testbit bite (7 - Z.of_nat pos) then 2 ^ (7 - Z.of_nat pos) else 0).
  { apply Z.bits_inj'. intros k Hk. rewrite Z.land_spec, Z.shiftr_spec by lia.
    change 128 with (2 ^ 7). rewrite Z.pow2_bits_eqb by lia.
    destruct (Z.testbit bite (7 - Z.of_nat pos)) eqn:E.
    - rewrite Z.pow2_bits_eqb by lia. destruct (Z.eqb_spec 7 (k + Z.of_nat pos)), (Z.eqb_spec (7 - Z.of_nat pos) k); try lia;
        first [by rewrite andb_false_r | subst k; by rewrite E].
    - rewrite Z.bits_0. destruct (Z.eqb_spec 7 (k + Z.of_nat pos)); [|by rewrite andb_false_r].
      replace k with (7 - Z.of_nat pos) by lia. by rewrite E. }
  rewrite Hb. unfold bit_events. destruct (Z.testbit bite (7 - Z.of_nat pos)).
  - pose proof (pow2_pos (7 - Z.of_nat pos) ltac:(lia)). destruct (Z.eqb_spec (2 ^ (7 - Z.of_nat pos)) 0); [lia|].
    unfold mbind, M_bind, mmodify, with_gpio. cbn. by rewrite <- !app_assoc.
  - unfold mbind, M_bind, mmodify, with_gpio. cbn. by rewrite <- !app_assoc.
Qed.

Lemma shift_byte_run c bite s : for_to 8 (shift_bit c bite) s = Some (tt, with_gpio (byte_events c bite) s).
Proof.
  apply (for_to_run (fun k => with_gpio (concat (map (bit_events c bite) (seq 0 k))) s)).
  - unfold with_gpio. cbn. rewrite app_nil_r. by destruct s.
  - done.
  - intros k Hk. change (Z.to_nat 8) with 8%nat in Hk. rewrite shift_bit_run by done. rewrite with_gpio_app.
    rewrite seq_S, map_app, concat_app. cbn [map concat Nat.add]. by rewrite app_nil_r.
Qed.

Lemma shift_bytes_run c b buf fuel k s : ctl_data c = (b, 0) -> bufs s !! b = Some buf ->
  ctl_data_len c = Z.of_nat (length buf) -> ctl_data_len c <= 255 -> (k <= length buf)%nat -> (length buf - k < fuel)%nat ->
  shift_bytes fuel c (Z.of_nat k) s = Some (tt, with_gpio (concat (map (byte_events c) (drop k buf))) s).
Proof.
  intros Hd Hb Hl H255. revert k s Hb. induction fuel as [|fuel IH]; intros k s Hb Hk Hf; [lia|].
  cbn [shift_bytes]. rewrite Hl. destruct (Z.ltb_spec (Z.of_nat k) (Z.of_nat (length buf))) as [E|E].
  - destruct (lookup_lt_is_Some_2 buf k ltac:(lia)) as [v Hv].
    unfold padd. rewrite Hd. cbn [fst snd]. rewrite Z.add_0_l.
    rewrite (M_bind_Some _ _ _ _ _ (load_spec _ _ _ _ _ Hb Hv)). cbv beta.
    rewrite (M_bind_Some _ _ _ _ _ (shift_byte_run c v s)). cbv beta.
    rewrite wrap_id by (change (2 ^ 8) with 256; lia). replace (Z.of_nat k + 1) with (Z.of_nat (S k)) by lia.
    rewrite IH by (done || lia). rewrite with_gpio_app. by rewrite (drop_S _ _ _ Hv).
  - rewrite drop_ge by lia. unfold with_gpio. cbn. rewrite app_nil_r. by destruct s.
Qed.

Lemma sampled_bit c bite pos log level clock : port_clk c <> port_dat c ->
  let v := Z.b2z (Z.testbit bite (7 - Z.of_nat pos)) in
  sampled (port_clk c) (port_dat c) level clock (bit_events c bite pos ++ log)
  = v :: sampled (port_clk c) (port_dat c) v 1 log.
Proof.
  intros Hne v. unfold bit_events. fold v. cbn [app sampled].
  rewrite !Z.eqb_refl, (proj2 (Z.eqb_neq _ _) Hne). change (0 =? 1) with false. rewrite andb_false_r. done.
Qed.

Lemma sampled_byte c bite log level clock : port_clk c <> port_dat c ->
  exists level' clock', sampled (port_clk c) (port_dat c) level clock (byte_events c bite ++ log)
  = byte_bits bite ++ sampled (port_clk c) (port_dat c) level' clock' log.
Proof.
  intros Hne. unfold byte_events, byte_bits. generalize (seq 0 8). intros ps. revert level clock.
  induction ps as [|pos ps IH]; intros level clock; cbn [map concat app]; [by exists level, clock|].
  rewrite <- app_assoc, sampled_bit by done.
  destruct (IH (Z.b2z (Z.testbit bite (7 - Z.of_nat pos))) 1) as (l & k & ->). by exists l, k.
Qed.

(** C30 The software output is a round trip: with at most 255 bytes it ends, and a receiver
    that samples the data pin at the rising edges of the clock reads the
    output block, most significant bits first. *)
Theorem mach1_output_apa102_sw_correct s ctrl c b buf : ctrl <> 0%nat -> ctrls s !! ctrl = Some c ->
  ctl_data c = (b, 0) -> bufs s !! b = Some buf -> ctl_data_len c = Z.of_nat (length buf) -> ctl_data_len c <= 255 ->
  port_clk c <> port_dat c ->
  exists log, mach1_output_apa102_sw ctrl s = Some (tt, with_gpio log s)
  /\ forall level clock, sampled (port_clk c) (port_dat c) level clock log = concat (map byte_bits buf).
Proof.
  intros Hc0 Hc Hd Hb Hl H255 Hne. exists (concat (map (byte_events c) buf)). split.
  - unfold mach1_output_apa102_sw. rewrite (proj2 (Nat.eqb_neq _ _) Hc0). lstep. change 0 with (Z.of_nat 0).
    by rewrite (shift_bytes_run c b buf) by (done || lia).
  - clear -Hne. induction buf as [|v buf IH]; intros level clock; [done|]. cbn [map concat].
    destruct (sampled_byte c v (concat (map (byte_events c) buf)) level clock Hne) as (l & k & ->). by rewrite IH.
Qed.
