(* ===== verification/AddrPyThms.v ===== *)
(** What Python code does to layers and chains: [Layer.set], adding a layer to a
    fixture, adding a fixture to a controller. *)
From S2P Require Import Prelude PyExn LinkedList Addressable AddrOps AddrCompose AddrPy AddrSpec AddrRender.

Ltac pystep := erewrite X_bind_do; [|solve [eauto with leds]]; cbv beta iota.

(** ** [Layer.set] *)

(** An integer and its low byte; a list of four integers, and its bytes. *)
Definition int_byte (o : pyobj) (v : Z) : Prop := exists z, mp_obj_get_int_maybe o = Some (inr z) /\ v = wrap 8 z.
Definition color_of (o : pyobj) (bs : list Z) : Prop :=
  exists items, o = PyList items /\ length items = 4%nat
    /\ Forall2 int_byte items bs.

(** How the call ends at LED [index] with what is left of the list, and the bytes it
    still writes: at the end of the list or of the fixture; at an entry that is no list,
    or a list of another length; at an integer that is too large; and, without a defined
    outcome, at a component that is no integer, whose variable is never set. *)
Inductive set_stop (leds index : Z) : list pyobj -> list Z -> option (res unit) -> Prop :=
  | stop_end : set_stop leds index [] [] (Some (Ok tt))
  | stop_full items rest : leds <= index -> set_stop leds index (PyList items :: rest) [] (Some (Ok tt))
  | stop_type o rest : (forall items, o <> PyList items) -> set_stop leds index (o :: rest) [] (Some (Raise TypeError))
  | stop_length items rest : index < leds -> length items <> 4%nat -> set_stop leds index (PyList items :: rest) [] (Some (Raise ValueError))
  | stop_large items bs o items' e rest : index < leds -> length (items ++ o :: items') = 4%nat -> Forall2 int_byte items bs ->
      mp_obj_get_int_maybe o = Some (inl e) -> e = OverflowError ->
      set_stop leds index (PyList (items ++ o :: items') :: rest) bs (Some (Raise e))
  | stop_unset items bs o items' rest : index < leds -> length (items ++ o :: items') = 4%nat -> Forall2 int_byte items bs ->
      mp_obj_get_int_maybe o = None -> set_stop leds index (PyList (items ++ o :: items') :: rest) bs None.

(** The integers in front. *)
Lemma ints_split items : (exists bs, Forall2 int_byte items bs)
  \/ exists items1 bs o items2, items = items1 ++ o :: items2 /\ Forall2 int_byte items1 bs
       /\ (mp_obj_get_int_maybe o = None \/ mp_obj_get_int_maybe o = Some (inl OverflowError)).
Proof.
  induction items as [|o items IH]; [left; by exists []|].
  destruct (mp_obj_get_int_maybe o) as [[e|z]|] eqn:E.
  - right. exists [], [], o, items. split; [done|]. split; [done|]. right. rewrite E. destruct o; simpl in E; try done.
    destruct (_ && _); by simplify_eq.
  - destruct IH as [[bs H]|(items1 & bs & o' & items2 & -> & H & Ho)].
    + left. exists (wrap 8 z :: bs). constructor; [by exists z|done].
    + right. exists (o :: items1), (wrap 8 z :: bs), o', items2. split; [done|]. split; [|done]. constructor; [by exists z|done].
  - right. exists [], [], o, items. split; [done|]. split; [done|]. by left.
Qed.

(** Every list of colours is colours and then a place where the call ends. *)
Lemma colors_split leds colors : forall index, index <= leds -> exists good cols rest bs out, colors = good ++ rest /\ Forall2 color_of good cols
  /\ index + Z.of_nat (length good) <= leds /\ set_stop leds (index + Z.of_nat (length good)) rest bs out.
Proof.
  induction colors as [|o colors IH]; intros index Hi.
  { exists [], [], [], [], (Some (Ok tt)). repeat split; [constructor|cbn; lia|constructor]. }
  assert (Hnil : forall bs out, set_stop leds index (o :: colors) bs out -> exists good cols rest bs out, o :: colors = good ++ rest
    /\ Forall2 color_of good cols /\ index + Z.of_nat (length good) <= leds /\ set_stop leds (index + Z.of_nat (length good)) rest bs out).
  { intros bs out H. exists [], [], (o :: colors), bs, out. cbn [length Z.of_nat]. rewrite Z.add_0_r. repeat split; [constructor|done|done]. }
  assert (Hcase : (exists items, o = PyList items) \/ forall items, o <> PyList items) by (destruct o; eauto).
  destruct Hcase as [[items ->]|Hno]; [|by eapply Hnil, stop_type].
  destruct (Z.leb_spec leds index); [by eapply Hnil, stop_full|].
  destruct (decide (length items = 4%nat)) as [H4|]; [|by eapply Hnil, stop_length].
  destruct (ints_split items) as [[bs Hbs]|(items1 & bs & o & items2 & -> & Hbs & [Ho|Ho])].
  - destruct (IH (index + 1)) as (good & cols & rest & bs' & out & -> & Hg & Hl & Hstop); [lia|].
    exists (PyList items :: good), (bs :: cols), rest, bs', out. cbn [length]. replace (index + Z.of_nat (S (length good))) with (index + 1 + Z.of_nat (length good)) by lia.
    repeat split; try done. constructor; [|done]. by exists items.
  - by eapply Hnil, stop_unset.
  - by eapply Hnil, stop_large.
Qed.

(** The bytes it still writes are before the end of the fixture. *)
Lemma set_stop_bytes leds index rest bs out : set_stop leds index rest bs out -> Z.of_nat (length bs) <= 4 * Z.max 0 (leds - index).
Proof.
  intros [|items rest' Hf|o rest' Ho|items rest' Hf H4|items bs' o items' e rest' Hf H4 Hbs Ho _|items bs' o items' rest' Hf H4 Hbs Ho]; cbn [length];
    try lia; rewrite length_app in H4; apply Forall2_length in Hbs; cbn in H4; lia.
Qed.

Section LayerSet.
Context (b : nat) (Hb : b <> 0%nat).

Lemma set_components_spec s buf i c items bs :
  bufs s !! b = Some buf -> (4 * i + c + length items <= length buf)%nat -> 4 * Z.of_nat i < 2 ^ 32 ->
  Forall2 int_byte items bs ->
  set_components (b, 0) (Z.of_nat i) (Z.of_nat c) items s
  = Some (Ok tt, set_buf b (splice (4 * i + c) bs buf) s).
Proof.
  intros Hbuf Hl Hi Hall. revert s buf c Hbuf Hl. induction Hall as [|o v items bs (z & Hz & ->) Hall IH];
    intros s buf c Hbuf Hl; cbn [set_components length] in *.
  - rewrite splice_nil, set_buf_same by done. done.
  - unfold get_int at 1. rewrite Hz.
    erewrite X_bind_Ok; [|reflexivity]. cbv beta.
    change (b, 0) with (b, Z.of_nat 0). rewrite byte_at_spec by (unfold MODADD_BPL; lia).
    unfold MODADD_BPL. rewrite !Nat2Z.id, Nat.add_0_l. change (Z.to_nat 4) with 4%nat.
    erewrite X_bind_do; [|eapply store_spec; [exact Hbuf|lia]]. cbv beta. change (b, Z.of_nat 0) with (b, 0).
    replace (Z.of_nat c + 1) with (Z.of_nat (S c)) by lia.
    rewrite (IH _ (<[(4 * i + c)%nat := wrap 8 z]> buf)) by (apply set_buf_eq || (rewrite length_insert; lia)).
    rewrite set_buf_twice. do 3 f_equal. apply Forall2_length in Hall.
    apply list_eq. intros j.
    destruct (decide (4 * i + c <= j < 4 * i + c + S (length bs))%nat) as [Hj|Hj].
    + replace j with (4 * i + c + (j - (4 * i + c)))%nat at 2 by lia.
      rewrite lookup_splice_in by (cbn; lia). destruct (decide (j = 4 * i + c)%nat) as [->|Hne].
      * rewrite lookup_splice_out by (rewrite ?length_insert; lia). rewrite list_lookup_insert_eq by lia.
        by rewrite Nat.sub_diag.
      * replace j with (4 * i + S c + (j - (4 * i + S c)))%nat at 1 by lia.
        rewrite lookup_splice_in by (rewrite ?length_insert; lia).
        by replace (j - (4 * i + c))%nat with (S (j - (4 * i + S c))) by lia.
    + rewrite !lookup_splice_out by (rewrite ?length_insert; cbn; lia). rewrite list_lookup_insert_ne by lia. done.
Qed.

Lemma set_components_app base i l1 : forall c l2 s, set_components base i c (l1 ++ l2) s
  = (set_components base i c l1;; set_components base i (c + Z.of_nat (length l1)) l2) s.
Proof.
  induction l1 as [|o l1 IH]; intros c l2 s; cbn [app set_components length].
  - rewrite Z.add_0_r. by erewrite X_bind_Ok by reflexivity.
  - unfold get_int. destruct (mp_obj_get_int_maybe o) as [[e|z]|]; [done| |done].
    unfold mbind, X_bind in *. cbn. destruct (py_do _ s) as [[[|] s']|]; [|done|done].
    rewrite IH. by replace (c + 1 + Z.of_nat (length l1)) with (c + Z.of_nat (S (length l1))) by lia.
Qed.

(** A list of four whose items are not all integers. *)
Lemma set_components_stop s buf i items bs o items' :
  bufs s !! b = Some buf -> (4 * i + length items <= length buf)%nat -> 4 * Z.of_nat i < 2 ^ 32 -> Forall2 int_byte items bs ->
  set_components (b, 0) (Z.of_nat i) 0 (items ++ o :: items') s
  = match mp_obj_get_int_maybe o with
    | Some (inl e) => Some (Raise e, set_buf b (splice (4 * i) bs buf) s)
    | None => None
    | Some (inr _) => set_components (b, 0) (Z.of_nat i) (Z.of_nat (length items)) (o :: items') (set_buf b (splice (4 * i) bs buf) s)
    end.
Proof.
  intros Hbuf Hl Hi Hall. rewrite set_components_app. change 0 with (Z.of_nat 0) at 2.
  erewrite X_bind_Ok; [|apply (set_components_spec s buf i 0 items bs); [done|lia|done|done]].
  rewrite Nat.add_0_r, Z.add_0_l. cbn [set_components]. unfold get_int. by destruct (mp_obj_get_int_maybe o) as [[e|z]|].
Qed.

Lemma splice_app o r1 r2 l : (o + length r1 + length r2 <= length l)%nat ->
  splice (o + length r1) r2 (splice o r1 l) = splice o (r1 ++ r2) l.
Proof.
  intros Hl. unfold splice. rewrite length_app, Nat.add_assoc, (app_assoc (take o l)).
  assert (Hlen : length (take o l ++ r1) = (o + length r1)%nat) by (rewrite length_app, length_take; lia).
  rewrite take_app_length' by done. rewrite <- !app_assoc. do 3 f_equal.
  rewrite app_assoc, drop_app. rewrite drop_ge by lia. cbn. rewrite drop_drop. f_equal. lia.
Qed.

Lemma set_colors_spec x good cols rest bs out : forall s buf z k,
  bufs s !! b = Some buf -> Z.of_nat (length buf) = MODADD_BPL * fix_leds x -> MODADD_BPL * fix_leds x < 2 ^ 32 ->
  Forall2 color_of good cols -> 0 <= z -> Z.of_nat k + z + Z.of_nat (length good) <= fix_leds x ->
  set_stop (fix_leds x) (Z.of_nat k + z + Z.of_nat (length good)) rest bs out ->
  set_colors x (b, 0) z (Z.of_nat k) (good ++ rest) s
  = match out with Some r => Some (r, set_buf b (splice (4 * (k + Z.to_nat z)) (concat cols ++ bs) buf) s) | None => None end.
Proof.
  intros s buf z k Hbuf Hlen Hw Hall. revert s buf k Hbuf Hlen. unfold MODADD_BPL in *.
  induction Hall as [|o bs1 good cols (items & -> & Hi4 & Hit) Hall IH]; intros s buf k Hbuf Hlen Hz Hk Hwr.
  - cbn [app length concat] in *. rewrite Z.add_0_r in *.
    assert (Hfour : forall items items' (o : pyobj), length (items ++ o :: items') = 4%nat -> (length items <= 3)%nat).
    { intros items items' o E. rewrite length_app in E. cbn in E. lia. }
    destruct Hwr as [|items rest Hf|o rest Ho|items rest Hf H4|items bs o items' e rest Hf H4 Hbs Ho _|items bs o items' rest Hf H4 Hbs Ho];
      cbn [set_colors]; rewrite ?splice_nil, ?set_buf_same by done; try done.
    + rewrite wrap_id by lia. by destruct (Z.leb_spec (fix_leds x) (Z.of_nat k + z)); [|lia].
    + destruct o; try done. by destruct (Ho items).
    + rewrite wrap_id by lia. destruct (Z.leb_spec (fix_leds x) (Z.of_nat k + z)); [lia|].
      unfold is_null. cbn [fst]. rewrite (proj2 (Nat.eqb_neq _ _) Hb).
      destruct (Z.eqb_spec (Z.of_nat (length items)) MODADD_BPL) as [E|E]; [unfold MODADD_BPL in E; lia|done].
    + rewrite wrap_id by lia. destruct (Z.leb_spec (fix_leds x) (Z.of_nat k + z)); [lia|].
      unfold is_null. cbn [fst]. rewrite (proj2 (Nat.eqb_neq _ _) Hb), H4. change (Z.of_nat 4 =? MODADD_BPL) with true. cbn [negb].
      replace (Z.of_nat k + z) with (Z.of_nat (k + Z.to_nat z)) by lia. specialize (Hfour _ _ _ H4).
      apply X_bind_Raise. rewrite (set_components_stop s buf (k + Z.to_nat z) items bs) by (done || lia). rewrite Ho. done.
    + rewrite wrap_id by lia. destruct (Z.leb_spec (fix_leds x) (Z.of_nat k + z)); [lia|].
      unfold is_null. cbn [fst]. rewrite (proj2 (Nat.eqb_neq _ _) Hb), H4. change (Z.of_nat 4 =? MODADD_BPL) with true. cbn [negb].
      replace (Z.of_nat k + z) with (Z.of_nat (k + Z.to_nat z)) by lia. specialize (Hfour _ _ _ H4).
      apply X_bind_None. rewrite (set_components_stop s buf (k + Z.to_nat z) items bs) by (done || lia). rewrite Ho. done.
  - cbn [app set_colors length concat] in *. rewrite wrap_id by lia.
    destruct (Z.leb_spec (fix_leds x) (Z.of_nat k + z)); [lia|].
    unfold is_null. cbn [fst]. rewrite (proj2 (Nat.eqb_neq _ _) Hb).
    rewrite Hi4. change (Z.of_nat 4 =? MODADD_BPL) with true. cbn [negb].
    replace (Z.of_nat k + z) with (Z.of_nat (k + Z.to_nat z)) at 1 by lia. change 0 with (Z.of_nat 0) at 2.
    pose proof Hit as Hbs%Forall2_length.
    erewrite X_bind_Ok; [|apply (set_components_spec s buf (k + Z.to_nat z) 0 items bs1); [done|lia|lia|done]].
    cbv beta. replace (Z.of_nat k + 1) with (Z.of_nat (S k)) by lia.
    assert (Hin : (4 * (k + Z.to_nat z) + length bs1 <= length buf)%nat) by lia.
    rewrite Nat.add_0_r. erewrite IH; [|apply set_buf_eq|by rewrite length_splice by lia|done|lia|].
    + destruct out as [r|]; [|done]. rewrite set_buf_twice. do 3 f_equal. rewrite <- app_assoc.
      replace (4 * (S k + Z.to_nat z))%nat with (4 * (k + Z.to_nat z) + length bs1)%nat by lia.
      apply splice_app. assert (Hc : length (concat cols) = (4 * length cols)%nat).
      { clear -Hall. induction Hall as [|? ? ? ? (? & _ & H4 & H5%Forall2_length)]; cbn; [done|]. rewrite length_app. lia. }
      apply Forall2_length in Hall. rewrite length_app. pose proof (set_stop_bytes _ _ _ _ _ Hwr). lia.
    + replace (Z.of_nat (S k) + z + Z.of_nat (length good)) with (Z.of_nat k + z + Z.of_nat (S (length good))) by lia. done.
Qed.
End LayerSet.

(** C29 [Layer.set(start, colors)], whatever the arguments.  A start that is no integer has
    no defined outcome, as the variable for it is never set; one that is too large for a
    machine integer raises [OverflowError]; and one outside of the fixture, negative ones
    included, raises [ValueError].  Otherwise, if [colors] is no list, [TypeError] is raised;
    else the colours of four integers are stored from LED [start] on, each integer
    as its low byte, up to where the call ends: the end of the list, the end of the fixture, or
    the first entry that is not a colour.  An entry that is no list raises [TypeError], a list
    of another length [ValueError]; in a list of four an integer that is too large raises
    [OverflowError] when the ones before it are stored, and a component that is no integer
    has no defined outcome.  No other byte changes. *)
Theorem addressable_layer_set_correct s self l x b buf start colors :
  layer_objs s !! self = Some l -> fixture_objs s !! lay_fixture l = Some x ->
  lay_data l = (b, 0) -> b <> 0%nat -> bufs s !! b = Some buf ->
  Z.of_nat (length buf) = MODADD_BPL * fix_leds x -> MODADD_BPL * fix_leds x < 2 ^ 32 ->
  match mp_obj_get_int_maybe start with
  | None => addressable_layer_set self start colors s = None
  | Some (inl e) => addressable_layer_set self start colors s = Some (Raise e, s) /\ e = OverflowError
  | Some (inr z) =>
      if (z <? 0) || (fix_leds x <=? z) then addressable_layer_set self start colors s = Some (Raise ValueError, s)
      else match colors with
      | PyList items =>
          exists good cols rest bs out, items = good ++ rest /\ Forall2 color_of good cols /\ z + Z.of_nat (length good) <= fix_leds x
          /\ set_stop (fix_leds x) (z + Z.of_nat (length good)) rest bs out
          /\ addressable_layer_set self start colors s
             = match out with Some r => Some (r, set_buf b (splice (4 * Z.to_nat z) (concat cols ++ bs) buf) s) | None => None end
      | _ => addressable_layer_set self start colors s = Some (Raise TypeError, s)
      end
  end.
Proof.
  intros Hl Hx Hd Hb Hbuf Hlen Hw. unfold addressable_layer_set. pystep. pystep. unfold get_int.
  change (2 ^ 32) with 4294967296 in *. unfold MODADD_BPL in *.
  destruct (mp_obj_get_int_maybe start) as [[e|z]|] eqn:Ez; [|erewrite X_bind_Ok; [|reflexivity]; cbv beta|done].
  { split; [done|]. destruct start; simpl in Ez; try done. destruct (_ && _); by simplify_eq. }
  assert (Hz : - 2147483648 <= z < 2147483648).
  { destruct start as [|[]|z'| |]; simpl in Ez; try done; simplify_eq; try lia.
    change (2 ^ 31) with 2147483648 in *. destruct (Z.leb_spec (- (2147483648)) z'), (Z.ltb_spec z' 2147483648); cbn in Ez; simplify_eq; lia. }
  destruct (Z.ltb_spec z 0) as [E|E]; cbn [orb].
  - rewrite (wrap_eq_mod 32 (z + 4294967296) z (-1)) by (change (2 ^ 32) with 4294967296; lia).
    rewrite wrap_id by (change (2 ^ 32) with 4294967296; lia). destruct (Z.leb_spec (fix_leds x) (z + 4294967296)); [done|lia].
  - rewrite wrap_id by (change (2 ^ 32) with 4294967296; lia). destruct (Z.leb_spec (fix_leds x) z); [done|]. destruct colors as [| | |items|]; try done.
    destruct (colors_split (fix_leds x) items z ltac:(lia)) as (good & cols & rest & bs & out & -> & Hg & Hk & Hstop).
    exists good, cols, rest, bs, out. do 4 (split; [done|]). rewrite Hd. change 0 with (Z.of_nat 0) at 2.
    rewrite (set_colors_spec b Hb x good cols rest bs out s buf z 0) by (unfold MODADD_BPL; done || change (2 ^ 32) with 4294967296; lia).
    done.
Qed.

(** ** Adding a fixture *)

Lemma fixture_find_run s p ns test : chain fix_next (fixture_nodes s) p ns ->
  fixture_find test p s = Some (first_node (fixture_nodes s) test ns, s).
Proof.
  intros Hc. unfold fixture_find. erewrite M_bind_Some; [|reflexivity]. cbv beta.
  apply mlift_run, find_node_spec; [done|by eapply chain_size].
Qed.

Lemma new_fixture_node_run s : led_brk s <> 0%nat ->
  modadd_new_fixture_node s = Some (if out_of_memory s then (0%nat, after_failure s)
    else (led_brk s, with_fixture_nodes <[led_brk s := MkFixtureNode 0 0]> (after_malloc s))).
Proof.
  intros Hb. pose proof (led_malloc_run s) as Hm. unfold modadd_new_fixture_node. apply Nat.eqb_neq in Hb.
  destruct (out_of_memory s); rewrite (M_bind_Some _ _ _ _ _ Hm); cbv beta; [done|]. by rewrite Hb.
Qed.

(** [ns] with a new node at its end, in the nodes [m']. *)
Lemma append_node_run s p ns t n : chain fix_next (fixture_nodes s) p (ns ++ [t]) ->
  fixture_nodes s !! n = Some (MkFixtureNode 0 0) -> n <> 0%nat -> n ∉ ns ++ [t] ->
  exists s', modadd_fixture_append_node n p s = Some (MODADD_STAT_OK, s')
  /\ (exists nd, fixture_nodes s !! t = Some nd /\ s' = with_fixture_nodes <[t := set_fix_next n nd]> s)
  /\ chain fix_next (fixture_nodes s') p (ns ++ [t; n]).
Proof.
  intros Hc Hn Hn0 Hnin. destruct (chain_lookup _ _ _ _ t Hc) as [Ht0 [nd Hnd]]; [apply elem_of_app; right; left|].
  assert (Hp : p <> 0%nat).
  { destruct ns as [|x ns]; destruct Hc as (-> & ? & _); done. }
  exists (with_fixture_nodes <[t := set_fix_next n nd]> s). split; [|split].
  - unfold modadd_fixture_append_node, modadd_fixture_tail, modadd_fixture_predecessor.
    rewrite (proj2 (Nat.eqb_neq _ _) Hn0), (proj2 (Nat.eqb_neq _ _) Hp), (proj2 (Nat.eqb_neq 0 p)) by done.
    erewrite M_bind_Some; [|by apply fixture_find_run]. cbv beta.
    erewrite tail_spec by done. rewrite (proj2 (Nat.eqb_neq _ _) Ht0). by lstep.
  - eauto.
  - cbn. eapply chain_snoc; done.
Qed.

(** The state when [fixture] has been appended with a new node. *)
Definition chain_extended (s s' : leds) (ctrl : nat) (c : modadd_ctrl_t) (ns : list nat) (fixture : nat) : Prop :=
  exists head, ctrls s' = <[ctrl := set_head head c]> (ctrls s)
  /\ chain fix_next (fixture_nodes s') head (ns ++ [led_brk s])
  /\ fix_obj <$> fixture_nodes s' !! led_brk s = Some fixture
  /\ (forall n, n <> led_brk s -> fix_obj <$> fixture_nodes s' !! n = fix_obj <$> fixture_nodes s !! n)
  /\ bufs s' = bufs s /\ fixture_objs s' = fixture_objs s /\ layer_objs s' = layer_objs s
  /\ layer_nodes s' = layer_nodes s.

Lemma set_head_same c : set_head (ctl_head c) c = c.
Proof. by destruct c. Qed.

Lemma fixture_append_run s ctrl c ns fixture : ctrls s !! ctrl = Some c -> ctrl <> 0%nat -> fixture <> 0%nat ->
  chain fix_next (fixture_nodes s) (ctl_head c) ns -> led_brk s <> 0%nat -> led_brk s ∉ ns ->
  if out_of_memory s then modadd_fixture_append fixture ctrl s = Some (MODADD_STAT_ERR, after_failure s)
  else exists s', modadd_fixture_append fixture ctrl s = Some (MODADD_STAT_OK, s') /\ chain_extended s s' ctrl c ns fixture.
Proof.
  intros Hc Hc0 Hf0 Hch Hb Hbn. pose proof (new_fixture_node_run s Hb) as Hnew.
  unfold modadd_fixture_append. rewrite (proj2 (Nat.eqb_neq _ _) Hf0), (proj2 (Nat.eqb_neq _ _) Hc0).
  destruct ns as [|t ns _] using rev_ind.
  - cbn in Hch. destruct (out_of_memory s).
    + lstep. rewrite Hch, Nat.eqb_refl. erewrite M_bind_Some;
        [|erewrite M_bind_Some; [|exact Hnew]; cbv beta; erewrite M_bind_Some; [|by apply upd_ctrl_run]; reflexivity].
      cbv beta. cbn [Nat.eqb]. do 2 f_equal. rewrite <- Hch, set_head_same.
      unfold with_ctrls, after_failure, with_led_malloc. cbn. by rewrite insert_id.
    + eexists. split.
      * lstep. rewrite Hch, Nat.eqb_refl. erewrite M_bind_Some;
          [|erewrite M_bind_Some; [|exact Hnew]; cbv beta; erewrite M_bind_Some; [|by apply upd_ctrl_run]; reflexivity].
        cbv beta. rewrite (proj2 (Nat.eqb_neq _ _) Hb).
        erewrite M_bind_Some; [|apply upd_fixture_node_run; cbn; by rewrite lookup_insert_eq]. reflexivity.
      * exists (led_brk s). cbn. rewrite insert_insert_eq, lookup_insert_eq. repeat split; try done.
        -- by eexists.
        -- intros n Hn. by rewrite lookup_insert_ne.
  - assert (Hp : (ctl_head c =? 0)%nat = false).
    { apply Nat.eqb_neq. destruct ns as [|x ns]; destruct Hch as (-> & ? & _); done. }
    destruct (out_of_memory s).
    + lstep. rewrite Hp. erewrite M_bind_Some;
        [|unfold modadd_fixture_append_new_node; erewrite M_bind_Some; [|exact Hnew]; reflexivity]. done.
    + set (s1 := with_fixture_nodes _ _) in Hnew.
      destruct (append_node_run s1 (ctl_head c) ns t (led_brk s)) as (s2 & Happ & (nd & Hnd & ->) & Hch2).
      { cbn. by apply chain_insert_fresh. }
      { cbn. by rewrite lookup_insert_eq. }
      { done. }
      { done. }
      assert (Htb : t <> led_brk s) by (intros ->; apply Hbn, elem_of_app; right; left).
      eexists. split.
      * lstep. rewrite Hp. erewrite M_bind_Some;
          [|unfold modadd_fixture_append_new_node; erewrite M_bind_Some; [|exact Hnew]; cbv beta;
            rewrite (proj2 (Nat.eqb_neq _ _) Hb); erewrite M_bind_Some; [|exact Happ]; reflexivity].
        cbv beta. rewrite (proj2 (Nat.eqb_neq _ _) Hb).
        erewrite M_bind_Some; [|apply upd_fixture_node_run; cbn; rewrite lookup_insert_ne by done; by rewrite lookup_insert_eq].
        reflexivity.
      * exists (ctl_head c). rewrite set_head_same. cbn. repeat split; try done.
        -- by rewrite insert_id.
        -- eapply chain_insert_link; [rewrite <- app_assoc; exact Hch2|cbn; rewrite lookup_insert_ne by done; by rewrite lookup_insert_eq|done].
        -- by rewrite lookup_insert_eq.
        -- intros n Hn. rewrite lookup_insert_ne by done. destruct (decide (n = t)) as [->|Hnt].
           ++ rewrite lookup_insert_eq. cbn in Hnd. rewrite lookup_insert_ne in Hnd by done. by rewrite Hnd.
           ++ by rewrite !lookup_insert_ne by done.
Qed.

(** Adding a fixture to a controller.  A fixture of another protocol, or a controller
    whose chain is fixed, raises [ValueError] and changes nothing; without
    memory for a node nothing changes either, and nothing is raised.  Otherwise
    the chain has the fixture at its end, its other fixtures and all buffers,
    fixtures and layers are as before. *)
Theorem addressable_controller_add_fixture_correct s ctrl c ns fixture x :
  ctrls s !! ctrl = Some c -> ctrl <> 0%nat -> fixture <> 0%nat -> fixture_objs s !! fixture = Some x ->
  chain fix_next (fixture_nodes s) (ctl_head c) ns -> led_brk s <> 0%nat -> led_brk s ∉ ns ->
  if negb (out_protocol c =? fix_protocol x) || negb (ctl_append c)
  then addressable_controller_add_fixture ctrl fixture s = Some (Raise ValueError, s)
  else if out_of_memory s
  then addressable_controller_add_fixture ctrl fixture s = Some (Ok tt, after_failure s)
  else exists s', addressable_controller_add_fixture ctrl fixture s = Some (Ok tt, s')
         /\ chain_extended s s' ctrl c ns fixture.
Proof.
  intros Hc Hc0 Hf0 Hx Hch Hb Hbn. pose proof (fixture_append_run s ctrl c ns fixture Hc Hc0 Hf0 Hch Hb Hbn) as Ha.
  unfold addressable_controller_add_fixture.
  destruct (negb (out_protocol c =? fix_protocol x)) eqn:E1; cbn [orb]; [pystep; pystep; by rewrite E1|].
  destruct (negb (ctl_append c)) eqn:E2; [pystep; pystep; by rewrite E1, E2|].
  destruct (out_of_memory s).
  - pystep. pystep. rewrite E1, E2. by erewrite X_bind_do by exact Ha.
  - destruct Ha as (s' & Ha & Hext). exists s'. split; [|done]. pystep. pystep. rewrite E1, E2. by erewrite X_bind_do by exact Ha.
Qed.
