(* ===== verification/Artnet.v ===== *)
(** Art-Net, [ports/esp32/modartnet.c]: which layer and LEDs a universe of channels
    feeds, the list of these associations, and the distribution of a received
    packet to the data of the layers.  The sockets are not modelled: a packet is
    what [recvfrom] left in [rx_artnet_packet]. *)
From S2P Require Import Prelude PyExn LinkedList Addressable AddrCompose AddrPy AddrSpec AddrRender.

Definition ARTNET_MAX_DATA_LEN : Z := 512.

Record artnet_packet_t := MkPacket {
  ID : list Z; OpCodeLo : Z; OpCodeHi : Z; ProtVerHi : Z; ProtVerLo : Z; SubUni : Z; Net : Z;
  LengthHi : Z; LengthLo : Z; Data : list Z }.

Record addressable_layer_artdmx_info_obj_t := MkInfo {
  info_layer : nat; info_leds : Z; info_cpl : Z; info_port : Z; info_start_index : Z; info_start_channel : Z }.
Record addressable_layer_artdmx_info_node_t := MkInfoNode { artdmx_info : nat; info_next : nat }.

Record artnet := MkArtnet {
  an_leds : leds;
  infos : gmap nat addressable_layer_artdmx_info_obj_t;
  info_nodes : gmap nat addressable_layer_artdmx_info_node_t;
  artdmx_info_head : nat }.

Definition with_an_leds f (a : artnet) : artnet := MkArtnet (f (an_leds a)) (infos a) (info_nodes a) (artdmx_info_head a).
Definition with_infos f (a : artnet) : artnet := MkArtnet (an_leds a) (f (infos a)) (info_nodes a) (artdmx_info_head a).
Definition with_info_nodes f (a : artnet) : artnet := MkArtnet (an_leds a) (infos a) (f (info_nodes a)) (artdmx_info_head a).
Definition with_info_head h (a : artnet) : artnet := MkArtnet (an_leds a) (infos a) (info_nodes a) h.

Definition on_leds {A} (m : M leds A) : M artnet A := fun a =>
  '(r, s) ← m (an_leds a); Some (r, with_an_leds (fun _ => s) a).
Definition get_info (p : nat) : M artnet addressable_layer_artdmx_info_obj_t := a ← mget; mlift (infos a !! p).
Definition get_info_node (p : nat) : M artnet addressable_layer_artdmx_info_node_t := a ← mget; mlift (info_nodes a !! p).

(** ** The list of associations *)

Definition addressable_layer_artdmx_new_info_node : M artnet nat :=
  p ← on_leds led_malloc;
  if (p =? 0)%nat then mret 0%nat else mmodify (with_info_nodes <[p := MkInfoNode 0 0]>);; mret p.

Definition addressable_layer_artdmx_info_node_predecessor (base successor : nat) : M artnet nat :=
  if (base =? 0)%nat then mret 0%nat
  else a ← mget; mlift (find_node info_next (size (info_nodes a)) (info_nodes a)
    (fun _ n => (info_next n =? successor)%nat) base).
Definition addressable_layer_artdmx_info_node_tail (base : nat) : M artnet nat :=
  addressable_layer_artdmx_info_node_predecessor base 0.

Definition set_info_next n (x : addressable_layer_artdmx_info_node_t) := MkInfoNode (artdmx_info x) n.

Definition addressable_layer_artdmx_info_node_append (base node : nat) : M artnet Z :=
  if (node =? 0)%nat then mret (-1)
  else
    n ← get_info_node node; mmodify (with_info_nodes <[node := set_info_next 0 n]>);;
    tail ← addressable_layer_artdmx_info_node_tail base;
    if (tail =? 0)%nat then mret (-1)
    else t ← get_info_node tail; mmodify (with_info_nodes <[tail := set_info_next node t]>);; mret 0.

(** The object for [new_layer_artdmx_info(...)]; [None]: [OSError(ENOMEM)]. *)
Definition addressable_layer_artdmx_info_make_new (leds universe start_index start_channel cpl : Z) (layer : nat)
  : M artnet (option nat) :=
  self ← on_leds led_malloc;
  if (self =? 0)%nat then mret None
  else
    mmodify (with_infos <[self := MkInfo layer (wrap 16 leds) (wrap 8 cpl) (wrap 16 universe) (wrap 16 start_index)
      (wrap 16 start_channel)]>);;
    mret (Some self).

(** [Layer.add_artdmx_info(info)]: a copy of the template, with the defaults of
    [new_layer_artdmx_info] before the fields are set.  [none] is the address of
    the object [None]. *)
Definition addressable_layer_add_artdmx_info (none self info_in : nat) : M artnet (option unit) :=
  a ← mget;
  match infos a !! info_in with
  | None => mret (Some tt)
  | Some t =>
      i ← addressable_layer_artdmx_info_make_new 0 0 0 0 3 none;
      match i with
      | None => mret None
      | Some i =>
          mmodify (with_infos <[i := MkInfo self (info_leds t) (info_cpl t) (info_port t) (info_start_index t)
            (info_start_channel t)]>);;
          node ← addressable_layer_artdmx_new_info_node;
          if (node =? 0)%nat then mret (Some tt)
          else
            mmodify (with_info_nodes <[node := MkInfoNode i 0]>);;
            a ← mget;
            (if (artdmx_info_head a =? 0)%nat then mmodify (with_info_head node)
             else addressable_layer_artdmx_info_node_append (artdmx_info_head a) node;; mret tt);;
            mret (Some tt)
      end
  end.

(** ** A packet *)

(** [strcmp(ID, _) == 0] for the text Art-Net and its terminator. *)
Definition ARTNET_ID : list Z := [65; 114; 116; 45; 78; 101; 116; 0].

(** A word from a high and a low byte. *)
Definition be16 (hi lo : Z) : Z := Z.lor (Z.shiftl hi 8) (Z.land lo 255).

Definition packet_length (p : artnet_packet_t) : Z := wrap 16 (be16 (LengthHi p) (LengthLo p)).
Definition packet_port (p : artnet_packet_t) : Z := wrap 16 (be16 (Net p) (SubUni p)).

(** The checks of the header, in their order. *)
Definition packet_accepted (p : artnet_packet_t) : bool :=
  bool_decide (ID p = ARTNET_ID) && (be16 (OpCodeHi p) (OpCodeLo p) =? 20480)
  && negb (be16 (ProtVerHi p) (ProtVerLo p) <? 14) && negb (packet_length p >? 512).

(** [*(dst + 4 * (indi + start_led) + channel) = src[cpl * indi + start_channel + channel]] *)
Definition dmx_channel (p : artnet_packet_t) (i : addressable_layer_artdmx_info_obj_t) (dst : bptr) (indi channel : Z)
  : M leds unit :=
  v ← mlift (Data p !! Z.to_nat (info_cpl i * indi + info_start_channel i + channel));
  store (byte_at dst MODADD_BPL (indi + info_start_index i) channel) v.

Definition dmx_led (p : artnet_packet_t) (i : addressable_layer_artdmx_info_obj_t) (dst : bptr) (indi : Z) : M leds unit :=
  dmx_channel p i dst indi 0;; dmx_channel p i dst indi 1;; dmx_channel p i dst indi 2;;
  if 3 <? info_cpl i then dmx_channel p i dst indi 3
  else store (byte_at dst MODADD_BPL (indi + info_start_index i) 3) 0.

(** [num_channels]: those of the LEDs, at most those of the packet. *)
Definition dmx_channels (p : artnet_packet_t) (i : addressable_layer_artdmx_info_obj_t) : Z :=
  let n := wrap 16 (info_leds i * info_cpl i) in
  if n >? packet_length p then packet_length p else n.

(** One association of the list.  The division is done before [cpl] is checked. *)
Definition dmx_info (p : artnet_packet_t) (iter : nat) : M artnet unit :=
  n ← get_info_node iter; i ← get_info (artdmx_info n);
  if negb (info_port i =? packet_port p) then mret tt
  else if (info_layer i =? 0)%nat then mret tt
  else if info_cpl i =? 0 then mabort
  else
    let num_leds := dmx_channels p i / info_cpl i in
    if negb (info_cpl i =? 3) && negb (info_cpl i =? 4) then mret tt
    else on_leds (l ← get_layer (info_layer i); for_to num_leds (dmx_led p i (lay_data l))).

Fixpoint foreach_info (fuel : nat) (body : nat -> M artnet unit) (iter : nat) : M artnet unit :=
  if (iter =? 0)%nat then mret tt
  else match fuel with
  | O => mabort
  | S fuel => body iter;; n ← get_info_node iter; foreach_info fuel body (info_next n)
  end.

(** The body of the loop of [artnet_server_task] for one packet. *)
Definition artnet_receive (p : artnet_packet_t) : M artnet unit :=
  if packet_accepted p then
    a ← mget; foreach_info (size (info_nodes a)) (dmx_info p) (artdmx_info_head a)
  else mret tt.

(** Distribution of Art-Net packets to the layers that listen to them. *)

(** An association of the list: its node, itself, and the block of its layer's data. *)
Record dmx_view := MkDmx { dv_node : nat; dv_info : addressable_layer_artdmx_info_obj_t; dv_block : nat }.

Definition dmx_active (p : artnet_packet_t) (i : addressable_layer_artdmx_info_obj_t) : bool :=
  (info_port i =? packet_port p) && ((info_cpl i =? 3) || (info_cpl i =? 4)).
Definition dmx_leds (p : artnet_packet_t) (i : addressable_layer_artdmx_info_obj_t) : Z := dmx_channels p i / info_cpl i.

(** What LED [k] of the association gets: transparent when the universe has no alpha. *)
Definition dmx_byte (p : artnet_packet_t) (i : addressable_layer_artdmx_info_obj_t) (k c : nat) : Z :=
  if (c =? 3)%nat && (info_cpl i =? 3) then 0
  else Data p !!! (Z.to_nat (info_cpl i) * k + Z.to_nat (info_start_channel i) + c)%nat.

Definition dmx_write (p : artnet_packet_t) (m : gmap nat (list Z)) (v : dmx_view) : gmap nat (list Z) :=
  if dmx_active p (dv_info v) then
    <[dv_block v := splice (4 * Z.to_nat (info_start_index (dv_info v)))
        (cells (dmx_byte p (dv_info v)) 4 (Z.to_nat (dmx_leds p (dv_info v)))) (m !!! dv_block v)]> m
  else m.

(** The association exists, and if it is fed, source and destination are in bounds. *)
Record dmx_ready (p : artnet_packet_t) (a : artnet) (v : dmx_view) : Prop := {
  dr_info : exists nd, info_nodes a !! dv_node v = Some nd /\ infos a !! artdmx_info nd = Some (dv_info v);
  dr_layer : info_layer (dv_info v) <> 0%nat /\ exists l, layer_objs (an_leds a) !! info_layer (dv_info v) = Some l
    /\ lay_data l = (dv_block v, 0);
  dr_fields : 0 < info_cpl (dv_info v) /\ 0 <= info_start_channel (dv_info v)
    /\ 0 <= info_start_index (dv_info v) < 2 ^ 16;
  dr_source : dmx_active p (dv_info v) = true ->
    info_start_channel (dv_info v) + info_cpl (dv_info v) * dmx_leds p (dv_info v) <= Z.of_nat (length (Data p));
  dr_dest : exists buf, bufs (an_leds a) !! dv_block v = Some buf
    /\ (dmx_active p (dv_info v) = true ->
        4 * (info_start_index (dv_info v) + dmx_leds p (dv_info v)) <= Z.of_nat (length buf)) }.

Lemma packet_length_range p : 0 <= packet_length p < 2 ^ 16.
Proof. apply wrap_range. lia. Qed.

Lemma dmx_channels_range p i : 0 <= dmx_channels p i < 2 ^ 16.
Proof.
  unfold dmx_channels. pose proof (packet_length_range p). pose proof (wrap_range 16 (info_leds i * info_cpl i) ltac:(lia)).
  case_match; lia.
Qed.

Section Led.
Context (p : artnet_packet_t) (i : addressable_layer_artdmx_info_obj_t) (b : nat) (s : leds) (buf : list Z) (n : nat).
Context (Hcpl : info_cpl i = 3 \/ info_cpl i = 4) (Hch : 0 <= info_start_channel i) (Hst : 0 <= info_start_index i < 2 ^ 16).
Context (Hn : Z.of_nat n < 2 ^ 16).
Context (Hsrc : info_start_channel i + info_cpl i * Z.of_nat n <= Z.of_nat (length (Data p))).
Context (Hdst : (4 * Z.to_nat (info_start_index i) + 4 * n <= length buf)%nat).

Let o := (4 * Z.to_nat (info_start_index i))%nat.
Abbreviation done_ := (splice o (cells (dmx_byte p i) 4 n) buf).

Lemma dmx_at k c : (k < n)%nat -> (c < 4)%nat ->
  byte_at (b, 0) MODADD_BPL (Z.of_nat k + info_start_index i) (Z.of_nat c) = (b, Z.of_nat (o + 4 * k + c)).
Proof.
  intros Hk Hc. change (b, 0) with (b, Z.of_nat 0). unfold MODADD_BPL.
  change (2 ^ 16) with 65536 in *.
  rewrite byte_at_spec by (change (2 ^ 32) with 4294967296; lia). f_equal. subst o. lia.
Qed.

Lemma dmx_store k c v : (k < n)%nat -> (c < 4)%nat -> v = dmx_byte p i k c ->
  store (byte_at (b, 0) MODADD_BPL (Z.of_nat k + info_start_index i) (Z.of_nat c)) v
    (set_buf b (mix (o + 4 * k + c) done_ buf) s)
  = Some (tt, set_buf b (mix (o + 4 * k + S c) done_ buf) s).
Proof.
  intros Hk Hc ->. assert (Hl : length done_ = length buf) by (apply length_splice_cells; subst o; lia).
  rewrite dmx_at by done. erewrite store_spec; [|apply set_buf_eq|rewrite length_mix by done; subst o; lia].
  rewrite set_buf_twice, mix_next; [by rewrite Nat.add_succ_r|done|]. apply lookup_splice_cells; [subst o; lia|done|done].
Qed.

Lemma dmx_channel_spec k c : (k < n)%nat -> (Z.of_nat c < info_cpl i) ->
  dmx_channel p i (b, 0) (Z.of_nat k) (Z.of_nat c) (set_buf b (mix (o + 4 * k + c) done_ buf) s)
  = Some (tt, set_buf b (mix (o + 4 * k + S c) done_ buf) s).
Proof.
  intros Hk Hc. unfold dmx_channel. set (j := (Z.to_nat (info_cpl i) * k + Z.to_nat (info_start_channel i) + c)%nat).
  assert (Hd : Data p !! Z.to_nat (info_cpl i * Z.of_nat k + info_start_channel i + Z.of_nat c) = Some (Data p !!! j)).
  { replace (Z.to_nat _) with j by (subst j; nia). apply list_lookup_lookup_total_lt. subst j. nia. }
  lstep. apply dmx_store; [done|lia|]. unfold dmx_byte.
  destruct (Nat.eqb_spec c 3), (Z.eqb_spec (info_cpl i) 3); try lia; done.
Qed.

Lemma dmx_led_spec k : (k < n)%nat ->
  dmx_led p i (b, 0) (Z.of_nat k) (set_buf b (mix (o + 4 * k) done_ buf) s)
  = Some (tt, set_buf b (mix (o + 4 * S k) done_ buf) s).
Proof.
  intros Hk. unfold dmx_led. rewrite <- (Nat.add_0_r (o + 4 * k)) at 1.
  change 0 with (Z.of_nat 0) at 2. change 1 with (Z.of_nat 1). change 2 with (Z.of_nat 2).
  rewrite (M_bind_Some _ _ _ _ _ (dmx_channel_spec k 0 Hk ltac:(lia))).
  rewrite (M_bind_Some _ _ _ _ _ (dmx_channel_spec k 1 Hk ltac:(lia))).
  rewrite (M_bind_Some _ _ _ _ _ (dmx_channel_spec k 2 Hk ltac:(lia))).
  replace (o + 4 * S k)%nat with (o + 4 * k + 4)%nat by lia.
  destruct (Z.ltb_spec 3 (info_cpl i)) as [E|E].
  - change 3 with (Z.of_nat 3). apply dmx_channel_spec; [done|lia].
  - change 3 with (Z.of_nat 3). apply dmx_store; [done|lia|].
    unfold dmx_byte. destruct (Z.eqb_spec (info_cpl i) 3); [done|lia].
Qed.

Lemma dmx_loop : bufs s !! b = Some buf ->
  for_to (Z.of_nat n) (dmx_led p i (b, 0)) s = Some (tt, set_buf b done_ s).
Proof.
  intros Hb. set (g := fun i c => buf !!! (o + 4 * i + c)%nat).
  assert (Hg : splice o (cells g 4 n) buf = buf) by (apply splice_self; subst o; lia).
  apply (fill_cells _ g); [subst o; lia|by rewrite Hg|]. rewrite Hg. apply dmx_led_spec.
Qed.
End Led.

Lemma with_an_leds_id a : with_an_leds (fun s => s) a = a.
Proof. by destruct a. Qed.

Lemma dmx_info_spec p a v : dmx_ready p a v ->
  dmx_info p (dv_node v) a = Some (tt, with_an_leds (with_bufs (fun m => dmx_write p m v)) a).
Proof.
  intros [(nd & Hnd & Hi) [Hl0 (l & Hl & Hd)] (Hc & Hch & Hst) Hsrc (buf & Hbuf & Hdst)].
  assert (Hsame : with_an_leds (with_bufs (fun m => m)) a = a) by (by destruct a as [[] ? ? ?]).
  unfold dmx_info, get_info_node, get_info. erewrite M_bind_Some; [|erewrite M_bind_Some; [|reflexivity]; by apply mlift_run].
  cbv beta. erewrite M_bind_Some; [|erewrite M_bind_Some; [|reflexivity]; by apply mlift_run]. cbv beta.
  unfold dmx_write. unfold dmx_active in *.
  destruct (Z.eqb_spec (info_port (dv_info v)) (packet_port p)) as [E1|E1]; cbn [negb andb] in *; [|by rewrite Hsame].
  rewrite (proj2 (Nat.eqb_neq _ _) Hl0). destruct (Z.eqb_spec (info_cpl (dv_info v)) 0); [lia|].
  rewrite <- negb_orb. destruct ((info_cpl (dv_info v) =? 3) || (info_cpl (dv_info v) =? 4)) eqn:E2; cbn [negb]; [|by rewrite Hsame].
  specialize (Hsrc eq_refl). specialize (Hdst eq_refl).
  assert (Hcpl : info_cpl (dv_info v) = 3 \/ info_cpl (dv_info v) = 4) by (apply orb_true_iff in E2 as [H|H]; bool_to_prop; auto).
  pose proof (dmx_channels_range p (dv_info v)) as Hr. change (2 ^ 16) with 65536 in Hr.
  assert (Hn : 0 <= dmx_leds p (dv_info v) < 65536).
  { unfold dmx_leds. split; [apply Z.div_pos; lia|]. apply Z.div_lt_upper_bound; lia. }
  fold (dmx_leds p (dv_info v)). unfold on_leds. rewrite (M_bind_Some _ _ _ _ _ (get_layer_run _ _ _ Hl)), Hd.
  rewrite <- (Z2Nat.id (dmx_leds p (dv_info v))) at 1 by lia.
  rewrite (dmx_loop p (dv_info v) (dv_block v) _ buf) by (done || lia).
  cbn. do 2 f_equal. unfold with_an_leds, set_buf, with_bufs. cbn. by rewrite (lookup_total_correct _ _ _ Hbuf).
Qed.

(** Feeding one association keeps the buffers of the others in place. *)
Lemma dmx_write_length p m v b buf : m !! b = Some buf ->
  (b = dv_block v -> dmx_active p (dv_info v) = true ->
    (4 * Z.to_nat (info_start_index (dv_info v)) + 4 * Z.to_nat (dmx_leds p (dv_info v)) <= length buf)%nat) ->
  exists buf', dmx_write p m v !! b = Some buf' /\ length buf' = length buf.
Proof.
  intros Hb Hl. unfold dmx_write. destruct (dmx_active p (dv_info v)); [|by exists buf].
  destruct (decide (b = dv_block v)) as [->|Hne].
  - rewrite lookup_insert_eq, (lookup_total_correct _ _ _ Hb). eexists. split; [done|]. apply length_splice_cells. by apply Hl.
  - rewrite lookup_insert_ne by done. by exists buf.
Qed.

Lemma dmx_ready_frame p a v v' : dmx_ready p a v -> dmx_ready p a v' ->
  dmx_ready p (with_an_leds (with_bufs (fun m => dmx_write p m v)) a) v'.
Proof.
  intros Hv [H1 H2 H3 H4 (buf & H5 & H6)]. split; try done.
  destruct (dmx_write_length p (bufs (an_leds a)) v (dv_block v') buf H5) as (buf' & Hb' & Hl').
  - intros E Ha. destruct Hv as [_ _ (Hc & _ & Hs) _ (buf0 & Hb0 & Hd0)]. specialize (Hd0 Ha).
    assert (0 <= dmx_leds p (dv_info v)).
    { unfold dmx_leds. pose proof (dmx_channels_range p (dv_info v)). apply Z.div_pos; lia. }
    rewrite E in H5. simplify_eq. lia.
  - exists buf'. rewrite Hl'. done.
Qed.

Lemma foreach_info_run p vs a q fuel : chain info_next (info_nodes a) q (dv_node <$> vs) ->
  (length vs <= fuel)%nat -> (forall v, v ∈ vs -> dmx_ready p a v) ->
  foreach_info fuel (dmx_info p) q a = Some (tt, with_an_leds (with_bufs (fun m => foldl (dmx_write p) m vs)) a).
Proof.
  revert a q fuel. induction vs as [|v vs IH]; intros a q fuel Hc Hf Hr.
  - cbn in Hc. subst q. assert (with_an_leds (with_bufs (fun m => m)) a = a) as E by (by destruct a as [[] ? ? ?]).
    cbn [foldl]. rewrite E. by destruct fuel.
  - destruct Hc as (-> & Hv0 & nd & Hnd & Hc). cbn [length] in Hf. destruct fuel as [|fuel]; [lia|]. cbn [foreach_info].
    rewrite (proj2 (Nat.eqb_neq _ _) Hv0).
    rewrite (M_bind_Some _ _ _ _ _ (dmx_info_spec p a v (Hr v ltac:(left)))). cbv beta.
    erewrite M_bind_Some; [|unfold get_info_node; erewrite M_bind_Some; [|reflexivity]; by apply mlift_run]. cbv beta.
    rewrite IH; [done|done|lia|]. intros v' Hv'. apply dmx_ready_frame; apply Hr; [left|by right].
Qed.

(** C13 Distribution of a packet.  A packet whose header is not that of Art-Net data
    (identifier, operation, version 14 or later, at most 512 channels) changes
    nothing.  Of an accepted one, each association of the list with its
    universe and 3 or 4 channels per LED is fed in the order of the list: LED
    [start_index + k] of its layer gets the channels from [start_channel +
    k * cpl] on, with alpha 0 for three channels, for as many LEDs as the
    association and the length of the packet have; all else stays.  Source and
    destination have to be in bounds: the code does not check them. *)
Theorem artnet_receive_correct p a vs : chain info_next (info_nodes a) (artdmx_info_head a) (dv_node <$> vs) ->
  (forall v, v ∈ vs -> dmx_ready p a v) ->
  artnet_receive p a
  = Some (tt, if packet_accepted p then with_an_leds (with_bufs (fun m => foldl (dmx_write p) m vs)) a else a).
Proof.
  intros Hc Hr. unfold artnet_receive. destruct (packet_accepted p); [|done].
  erewrite M_bind_Some; [|reflexivity]. cbv beta. apply foreach_info_run; [done| |done].
  pose proof (chain_size _ _ _ _ Hc) as Hs. by rewrite length_fmap in Hs.
Qed.
