(* ===== verification/AddrWitness.v ===== *)
(** A controller with one fixture, built the way a Python program does it: the
    theorems at a concrete input, and the places where the code goes wrong. *)
From S2P Require Import Prelude PyExn LinkedList Addressable AddrOps AddrCompose AddrPy AddrSpec AddrRender AddrChain AddrRecompute AddrThms AddrPyThms Artnet.

(** A fixture of [n] LEDs with one layer on the second controller. *)
Definition demo_fixture (protocol n : Z) : Py (nat * nat) :=
  ctrl ← addressable_controller_make_new 1 protocol;
  fixture ← addressable_fixture_make_new n protocol 127;
  layer ← addressable_fixture_add_layer fixture;
  match layer with
  | Some layer => mret (fixture, layer)
  | None => mp_raise MemoryError
  end.

Definition state_of {A} (m : Py A) (s : leds) : leds := match m s with Some (Ok _, s') => s' | _ => s end.

Definition demo_color : pyobj := PyList [PyInt 10; PyInt 20; PyInt 286; PyInt 255].

Definition demo_empty : leds := state_of (demo_fixture 0 2) led_boot.
Definition demo_set : leds := state_of (addressable_layer_set 8 (PyInt 1) (PyList [demo_color])) demo_empty.
Definition demo_built : leds := state_of (addressable_controller_add_fixture 2 5) demo_set.
Definition demo_laid : leds := state_of (addressable_controller_recompute_chain 2) demo_built.
Definition demo_composed : leds := state_of (py_do (addressable_layer_compose 2)) demo_laid.

Definition demo_x : addressable_fixture_obj_t := MkFixture 0 0 2 0 bnull (6%nat, 0) 127 9.
Definition demo_c : modadd_ctrl_t := MkCtrl 0 false 18 23 10 bnull 0 true.
Definition demo_data : list Z := [0; 0; 0; 0; 10; 20; 30; 255].
Definition demo_view : fixture_view := MkView 10 5 demo_x 0 [Some (MODADD_OP_COMP, 7%nat, demo_data)].

(** From Python to the bytes that are sent: start, two LEDs (full brightness is 31
    of 31; the order is blue, green, red), no stop sequence for so few LEDs. *)
Lemma demo_output : bufs demo_composed !! 11%nat = Some [0; 0; 0; 0; 239; 0; 0; 0; 239; 30; 20; 10].
Proof. vm_compute. reflexivity. Qed.

(** The second colour has an integer that is too large: the first and the bytes before it are stored. *)
Definition demo_large : list pyobj := [demo_color; PyList [PyInt 1; PyInt (2 ^ 31); PyInt 0; PyInt 0]].

Lemma addressable_layer_set_witness :
  (exists good cols rest bs out, demo_large = good ++ rest /\ Forall2 color_of good cols /\ 0 + Z.of_nat (length good) <= 2
    /\ set_stop 2 (0 + Z.of_nat (length good)) rest bs out
    /\ addressable_layer_set 8 (PyInt 0) (PyList demo_large) demo_empty
       = match out with Some r => Some (r, set_buf 7 (splice 0 (concat cols ++ bs) (replicate 8 0)) demo_empty) | None => None end)
  /\ addressable_layer_set 8 (PyInt 0) (PyList demo_large) demo_empty
     = Some (Raise OverflowError, set_buf 7 [10; 20; 30; 255; 1; 0; 0; 0] demo_empty).
Proof.
  assert (H1 : layer_objs demo_empty !! 8%nat = Some (MkLayer 5 9 (7%nat, 0))) by (vm_compute; reflexivity).
  assert (H2 : fixture_objs demo_empty !! 5%nat = Some demo_x) by (vm_compute; reflexivity).
  assert (H3 : bufs demo_empty !! 7%nat = Some (replicate 8 0)) by (vm_compute; reflexivity).
  split; [|vm_compute; reflexivity].
  exact (addressable_layer_set_correct demo_empty 8 _ demo_x 7 _ (PyInt 0) (PyList demo_large) H1 H2 eq_refl (Nat.neq_succ_0 6) H3 eq_refl eq_refl).
Defined.

Lemma demo_built_ok : chain_built demo_built 2 demo_c [demo_view].
Proof.
  assert (Hb : led_brk demo_built = 11%nat) by (vm_compute; reflexivity).
  split; rewrite ?Hb.
  - vm_compute. reflexivity.
  - change (chain fix_next (fixture_nodes demo_built) 10 [10%nat]). split; [done|]. split; [done|].
    exists (MkFixtureNode 5 0). split; [vm_compute; reflexivity|done].
  - intros v ->%list_elem_of_singleton. split.
    + exists (MkFixtureNode 5 0). split; [vm_compute; reflexivity|done].
    + split; [done|]. vm_compute. reflexivity.
    + split; reflexivity.
    + split; [done|]. split; [done|]. split; [done|]. exists (replicate 8 0). split; [vm_compute; reflexivity|done].
    + exists [9%nat]. split.
      * split; [done|]. split; [done|]. exists (MkLayerNode 8 0). split; [vm_compute; reflexivity|done].
      * constructor; [|constructor]. exists (MkLayerNode 8 0), (MkLayer 5 9 (7%nat, 0)).
        split; [vm_compute; reflexivity|]. split; [vm_compute; reflexivity|]. split; [done|]. split; [done|]. split; [done|].
        split; [vm_compute; reflexivity|done].
  - cbn. apply NoDup_singleton.
  - split; [apply NoDup_singleton|]. split.
    + intros v ->%list_elem_of_singleton. by vm_compute; intros [E|E]%elem_of_cons; [|apply elem_of_nil in E].
    + intros v v' ->%list_elem_of_singleton ->%list_elem_of_singleton. cbn. by intros ?%list_elem_of_singleton.
  - done.
  - done.
  - by left.
Qed.

Lemma modadd_ctrl_recompute_witness :
  chain_built demo_built 2 demo_c [demo_view]
  /\ modadd_ctrl_recompute_fixtures 2 demo_built = Some (tt, demo_laid)
  /\ bufs demo_laid !! 11%nat = Some [0; 0; 0; 0; 224; 0; 0; 0; 224; 0; 0; 0].
Proof.
  assert (Hq : forall v, v ∈ [demo_view] -> exists q, modadd_protocols (fix_protocol (fv_x v)) = Some q).
  { intros v ->%list_elem_of_singleton. eexists. reflexivity. }
  destruct (modadd_ctrl_recompute_correct demo_built 2 demo_c modadd_protocol_apa102 [demo_view] demo_built_ok eq_refl Hq) as [H _].
  split; [exact demo_built_ok|]. split; [rewrite H; vm_compute; reflexivity|vm_compute; reflexivity].
Defined.

Lemma demo_laid_ready : exists blk fs, chain_ready demo_laid 2 modadd_protocol_apa102 11 blk 4 fs
  /\ fs = place modadd_protocol_apa102 2 11 4 [demo_view].
Proof.
  pose proof (laid_ready demo_built 2 demo_c modadd_protocol_apa102 [demo_view] demo_built_ok eq_refl) as H.
  eexists _, _. split; [|reflexivity].
  assert (E : laid 2 demo_c modadd_protocol_apa102 [demo_view]
    (after_release demo_c (length_required modadd_protocol_apa102 (leds_sum [demo_view])) demo_built) = demo_laid)
    by (vm_compute; reflexivity).
  rewrite E in H. replace (led_brk demo_built) with 11%nat in H by (vm_compute; reflexivity). exact H.
Qed.

Lemma addressable_layer_compose_witness :
  exists m, addressable_layer_compose 2 demo_laid = Some (tt, with_bufs (fun _ => m) demo_laid)
  /\ m !! 6%nat = Some demo_data.
Proof.
  destruct demo_laid_ready as (blk & fs & Hr & Hfs).
  destruct (addressable_layer_compose_correct demo_laid 2 modadd_protocol_apa102 11 blk 4 fs Hr)
    as (m & blk' & Hrun & _ & _ & Hlit & _).
  exists m. split; [exact Hrun|].
  destruct (Hlit (MkView 10 5 (set_out (11%nat, 4) 2 demo_x) 4 (fv_images demo_view))) as [H _].
  - rewrite Hfs. left.
  - reflexivity.
  - exact H.
Defined.

Lemma addressable_controller_add_fixture_witness :
  exists s', addressable_controller_add_fixture 2 5 demo_set = Some (Ok tt, s')
  /\ fixture_nodes s' !! 10%nat = Some (MkFixtureNode 5 0).
Proof.
  assert (H1 : ctrls demo_set !! 2%nat = Some (MkCtrl 0 false 18 23 0 bnull 0 true)) by (vm_compute; reflexivity).
  assert (H2 : fixture_objs demo_set !! 5%nat = Some demo_x) by (vm_compute; reflexivity).
  assert (Hb : led_brk demo_set = 10%nat) by (vm_compute; reflexivity).
  assert (H3 : led_brk demo_set <> 0%nat) by (rewrite Hb; exact (Nat.neq_succ_0 9)).
  assert (H4 : led_brk demo_set ∉ @nil nat) by apply not_elem_of_nil.
  pose proof (addressable_controller_add_fixture_correct demo_set 2 _ [] 5 demo_x H1 (Nat.neq_succ_0 1) (Nat.neq_succ_0 4) H2
    eq_refl H3 H4) as H.
  change (negb (out_protocol _ =? _) || _) with false in H. cbv iota in H.
  replace (out_of_memory demo_set) with false in H by (vm_compute; reflexivity). destruct H as (s' & Hrun & _).
  exists s'. split; [exact Hrun|].
  assert (E : s' = demo_built) by (unfold demo_built, state_of; rewrite Hrun; reflexivity).
  rewrite E. vm_compute. reflexivity.
Defined.

Lemma mach1_output_apa102_sw_witness :
  exists log, mach1_output_apa102_sw 1 led_boot = Some (tt, with_gpio log led_boot)
  /\ sampled 33 5 0 0 log = replicate 64 0.
Proof.
  assert (H1 : ctrls led_boot !! 1%nat = Some mach1_stat_ctrl) by (vm_compute; reflexivity).
  assert (H2 : bufs led_boot !! 1%nat = Some (replicate 8 0)) by (vm_compute; reflexivity).
  assert (H3 : 8 <= 255) by (vm_compute; discriminate).
  assert (H4 : 33 <> 5) by discriminate.
  destruct (mach1_output_apa102_sw_correct led_boot 1 mach1_stat_ctrl 1 (replicate 8 0) (Nat.neq_succ_0 0) H1 eq_refl H2
    eq_refl H3 H4) as (log & Hrun & Hs).
  exists log. split; [exact Hrun|]. exact (Hs 0 0).
Defined.

(** ** Art-Net *)

Definition demo_info : addressable_layer_artdmx_info_obj_t := MkInfo 8 1 3 7 1 0.
Definition demo_artnet : artnet := MkArtnet demo_laid {[ 20%nat := demo_info ]} {[ 21%nat := MkInfoNode 20 0 ]} 21.
Definition demo_packet : artnet_packet_t :=
  MkPacket ARTNET_ID 0 80 0 14 7 0 2 0 ([1; 2; 3] ++ replicate 509 0).

Lemma artnet_receive_witness :
  artnet_receive demo_packet demo_artnet
  = Some (tt, with_an_leds (with_bufs (fun m => dmx_write demo_packet m (MkDmx 21 demo_info 7))) demo_artnet)
  /\ dmx_write demo_packet (bufs demo_laid) (MkDmx 21 demo_info 7) !! 7%nat = Some [0; 0; 0; 0; 1; 2; 3; 0].
Proof.
  assert (Hr : forall v, v ∈ [MkDmx 21 demo_info 7] -> dmx_ready demo_packet demo_artnet v).
  { intros v ->%list_elem_of_singleton. split.
    - exists (MkInfoNode 20 0). split; vm_compute; reflexivity.
    - split; [discriminate|]. exists (MkLayer 5 9 (7%nat, 0)). split; [vm_compute; reflexivity|reflexivity].
    - vm_compute. intuition discriminate.
    - intros _. vm_compute. discriminate.
    - exists demo_data. split; [vm_compute; reflexivity|]. intros _. vm_compute. discriminate. }
  assert (Hc : chain info_next (info_nodes demo_artnet) 21 [21%nat]).
  { split; [reflexivity|]. split; [discriminate|]. exists (MkInfoNode 20 0). split; [vm_compute; reflexivity|reflexivity]. }
  split.
  - rewrite (artnet_receive_correct demo_packet demo_artnet [MkDmx 21 demo_info 7] Hc Hr).
    replace (packet_accepted demo_packet) with true by (vm_compute; reflexivity). reflexivity.
  - vm_compute. reflexivity.
Defined.

(** An association without channels divides by zero before the check; a start channel or
    a start index near the end reads after the packet or writes after the layer. *)
Lemma artnet_unchecked :
  let fed i := artnet_receive demo_packet (with_infos <[20%nat := i]> demo_artnet) in
  fed (MkInfo 8 1 0 7 0 0) = None /\ fed (MkInfo 8 1 3 7 0 510) = None /\ fed (MkInfo 8 1 3 7 2 0) = None.
Proof. repeat split; vm_compute; reflexivity. Qed.

(** ** Where the code goes wrong *)

Definition py_run {A} (m : Py A) (s : leds) : option leds := match m s with Some (_, s') => Some s' | None => None end.

(** A controller and a fixture with the default protocol go together, but the layout
    then reads after the end of [modadd_protocols]. *)
Lemma recompute_unknown_protocol :
  let s := state_of (addressable_controller_add_fixture 2 5) (state_of (demo_fixture 3 2) led_boot) in
  ctl_head <$> ctrls s !! 2%nat = Some 10%nat /\ modadd_ctrl_recompute_fixtures 2 s = None.
Proof. split; vm_compute; reflexivity. Qed.

(** [addressable.controller(-1)] reads before [addressable_controllers]. *)
Lemma controller_negative_id : addressable_controller_make_new (-1) 0 led_boot = None.
Proof. reflexivity. Qed.

(** A growth that fails leaves the controller and its fixtures with the block that was
    freed: the next composition writes to it. *)
Lemma recompute_failure_dangles :
  let s := state_of (addressable_controller_add_fixture 2 12) (state_of (addressable_fixture_make_new 9 0 127) demo_laid) in
  let s' := state_of (addressable_controller_recompute_chain 2) (with_led_malloc (led_brk s) [true] s) in
  ctl_data <$> ctrls s' !! 2%nat = Some (11%nat, 0) /\ bufs s' !! 11%nat = None
  /\ addressable_layer_compose 2 s' = None.
Proof. repeat split; vm_compute; reflexivity. Qed.

(** A block that is large enough is not used again and not freed. *)
Lemma recompute_leaks :
  let s := state_of (addressable_controller_recompute_chain 2) demo_laid in
  ctl_data <$> ctrls s !! 2%nat = Some (12%nat, 0) /\ is_Some (bufs s !! 11%nat).
Proof. split; [vm_compute; reflexivity|eexists; vm_compute; reflexivity]. Qed.

(** Making the controller object again with a wider protocol: the composition writes
    after the end of the block. *)
Definition demo_ws2812 (n : Z) : leds :=
  state_of (addressable_controller_recompute_chain 2) (state_of (addressable_controller_add_fixture 2 5)
    (state_of (demo_fixture 1 n) led_boot)).

Lemma protocol_change_overflows :
  is_Some (addressable_layer_compose 2 (demo_ws2812 8))
  /\ addressable_layer_compose 2 (state_of (addressable_controller_make_new 1 0) (demo_ws2812 8)) = None.
Proof. split; [eexists; vm_compute; reflexivity|vm_compute; reflexivity]. Qed.

(** With three bytes per LED the composed pixels, which take four, are read at the wrong
    places: only the second of two LEDs is set, and its colour (1, 2, 3) comes out
    as (0, 1, 2). *)
Lemma ws2812_stride :
  let s := state_of (addressable_layer_set 8 (PyInt 1) (PyList [PyList [PyInt 1; PyInt 2; PyInt 3; PyInt 255]]))
    (demo_ws2812 2) in
  bufs (state_of (py_do (addressable_layer_compose 2)) s) !! 11%nat = Some [0; 0; 0; 0; 0; 0; 0; 0; 1; 0; 2].
Proof. vm_compute. reflexivity. Qed.

(** While [add_layer] has linked the node and not yet set its layer, a composition (the timer
    runs in another task) dereferences [NULL]. *)
Lemma compose_during_add_layer :
  let s := match modadd_layer_append_new 9 demo_laid with Some (_, s) => s | None => demo_laid end in
  layer_nodes s !! 12%nat = Some (MkLayerNode 0 0) /\ addressable_layer_compose 2 s = None.
Proof. split; vm_compute; reflexivity. Qed.

(** The first fixture of a chain cannot be removed; the removal of one that is not in the
    chain dereferences [NULL]. *)
Lemma fixture_remove_corners :
  modadd_fixture_remove 5 2 demo_laid = Some (MODADD_STAT_ERR, demo_laid) /\ modadd_fixture_remove 77 2 demo_laid = None.
Proof. split; vm_compute; reflexivity. Qed.

(** [Layer.set] with a start that is no integer uses an uninitialised variable. *)
Lemma layer_set_uninitialised : addressable_layer_set 8 PyNone (PyList [demo_color]) demo_laid = None.
Proof. vm_compute. reflexivity. Qed.
