(* ===== verification/ObjSeq.v ===== *)
(** Indexes and slices of sequences, [py/sequence.c] and [mp_get_index] of
    [py/obj.c], with the comparison of sequences.

    Words have 32 bits.  An overflow of a signed addition is undefined; an unsigned
    one wraps, and so does the conversion of its result to a signed word. *)
From Stdlib Require Import ZifyBool.
From S2P Require Import Prelude PyExn.

Definition in_int (z : Z) : bool := (- 2 ^ 31 <=? z) && (z <? 2 ^ 31).
Definition sadd (a b : Z) : option Z := if in_int (a + b) then Some (a + b) else None.

(** An object used as an index: [None], an integer or boolean, or an object with the
    outcome of its conversion to an integer. *)
Inductive py_index := IdxNone | IdxInt (z : Z) | IdxOther (conv : res Z).

Definition mp_obj_int_get_checked (z : Z) : res Z := if in_int z then Ok z else Raise OverflowError.

Definition mp_obj_get_int (arg : py_index) : res Z :=
  match arg with
  | IdxNone => Raise TypeError
  | IdxInt z => mp_obj_int_get_checked z
  | IdxOther (Ok z) => mp_obj_int_get_checked z
  | IdxOther (Raise e) => Raise e
  end.

Definition mp_get_index (len : Z) (index : py_index) (is_slice : bool) : res Z :=
  match index with
  | IdxInt z =>
      if in_int z then
        let i := if z <? 0 then swrap 32 (z + len) else z in
        if is_slice then Ok (if i <? 0 then 0 else if len <? i then len else i)
        else if (i <? 0) || (len <=? i) then Raise IndexError else Ok i
      else Raise OverflowError
  | _ => Raise TypeError
  end.

(** ** Slices *)

Record mp_obj_slice_t := MkSlice { ostart : py_index; ostop : py_index; ostep : py_index }.
Record mp_bound_slice_t := MkBound { sl_start : Z; sl_stop : Z; sl_step : Z }.

(** The step, and the bounds before they are corrected. *)
Definition slice_step {S} (o : py_index) : X S Z :=
  match o with
  | IdxNone | IdxInt 1 => mret 1
  | _ => step ← of_res (mp_obj_get_int o); if step =? 0 then mp_raise ValueError else mret step
  end.

Definition slice_start {S} (len step : Z) (o : py_index) : X S Z :=
  match o with
  | IdxNone => mret (if 0 <? step then 0 else swrap 32 (len - 1))
  | _ => of_res (mp_obj_get_int o)
  end.

Definition slice_stop {S} (len step : Z) (o : py_index) : X S Z :=
  match o with
  | IdxNone => mret (if 0 <? step then swrap 32 len else 0)
  | _ => stop ← of_res (mp_obj_get_int o);
         if (0 <=? stop) && (step <? 0) then xlift (sadd stop 1) else mret stop
  end.

(** Out-of-bounds slice indexes are never an error. *)
Definition clamp_start (len step start : Z) : Z :=
  if start <? 0 then
    let start := swrap 32 (len + start) in
    if start <? 0 then if step <? 0 then -1 else 0 else start
  else if (0 <? step) && (len <? start) then swrap 32 len
  else if (step <? 0) && (len <=? start) then swrap 32 (len - 1) else start.

Definition clamp_stop {S} (len step stop : Z) : X S Z :=
  if stop <? 0 then
    let stop := swrap 32 (len + stop) in
    let stop := if stop <? 0 then -1 else stop in
    if step <? 0 then xlift (sadd stop 1) else mret stop
  else mret (if len <? stop then swrap 32 len else stop).

Definition mp_seq_get_fast_slice_indexes {S} (len : Z) (slice : mp_obj_slice_t) : X S (bool * mp_bound_slice_t) :=
  step ← slice_step (ostep slice);
  start ← slice_start len step (ostart slice);
  stop ← slice_stop len step (ostop slice);
  let start := clamp_start len step start in
  stop ← clamp_stop len step stop;
  stop ← (if (0 <? step) && (stop <? start) then mret start
          else if (step <? 0) && (start <? stop) then xlift (sadd start 1) else mret stop);
  mret (step =? 1, MkBound start stop step).

(** *** What Python means by a slice

    A bound is counted from the end when it is negative and then kept within the
    sequence; the positions are [start], [start + step] and so on before [stop]. *)
Definition py_bound (len step : Z) (b : option Z) (dflt : Z) : Z :=
  match b with
  | None => dflt
  | Some b =>
      let b := if b <? 0 then b + len else b in
      if step <? 0 then Z.max (-1) (Z.min b (len - 1)) else Z.max 0 (Z.min b len)
  end.
Definition py_start (len step : Z) (b : option Z) : Z := py_bound len step b (if step <? 0 then len - 1 else 0).
Definition py_stop (len step : Z) (b : option Z) : Z := py_bound len step b (if step <? 0 then -1 else len).

Definition slice_length (start stop step : Z) : Z :=
  if step <? 0 then if stop <? start then (start - stop - 1) / - step + 1 else 0
  else if start <? stop then (stop - start - 1) / step + 1 else 0.
Definition slice_positions (start stop step : Z) : list Z :=
  (fun k => start + k * step) <$> seqZ 0 (slice_length start stop step).

Definition py_slice {A} (xs : list A) (start stop : option Z) (step : Z) : list A :=
  let len := Z.of_nat (length xs) in
  omap (fun i => xs !! Z.to_nat i) (slice_positions (py_start len step start) (py_stop len step stop) step).

(** The arguments of a slice as Python converts them, the step first: [None], or the integer, or the
    exception of the first that cannot be converted, and [ValueError] for the step 0. *)
Definition step_value (v : option Z) : Z := default 1 v.
Definition index_arg (o : py_index) : res (option Z) :=
  match o with
  | IdxNone => Ok None
  | _ => match mp_obj_get_int o with Ok z => Ok (Some z) | Raise e => Raise e end
  end.
Definition py_slice_args (slice : mp_obj_slice_t) : res (option Z * option Z * option Z) :=
  match index_arg (ostep slice) with
  | Raise e => Raise e
  | Ok k =>
      if step_value k =? 0 then Raise ValueError
      else match index_arg (ostart slice), index_arg (ostop slice) with
           | Raise e, _ | Ok _, Raise e => Raise e
           | Ok a, Ok b => Ok (a, b, k)
           end
  end.

(** ** Comparison

    [mp_seq_cmp_objs] and [mp_seq_cmp_bytes] without [!=]. *)
Inductive cmp_op := OP_EQUAL | OP_LESS | OP_LESS_EQUAL | OP_MORE | OP_MORE_EQUAL.
#[export] Instance cmp_op_eq_dec : EqDecision cmp_op.
Proof. solve_decision. Defined.

(** The lists and the operation after the swap, so that [<] and [<=] need no code. *)
Definition swap_less {A} (op : cmp_op) (l1 l2 : list A) : cmp_op * list A * list A :=
  match op with
  | OP_LESS => (OP_MORE, l2, l1)
  | OP_LESS_EQUAL => (OP_MORE_EQUAL, l2, l1)
  | _ => (op, l1, l2)
  end.

(** The end of both functions, when one list is a prefix of the other. *)
Definition cmp_tie (op : cmp_op) (len1 len2 : nat) : bool :=
  if negb (len1 =? len2)%nat then negb (len1 <? len2)%nat else negb (bool_decide (op = OP_MORE)).

(** [memcmp] *)
Fixpoint memcmp (d1 d2 : list Z) : comparison :=
  match d1, d2 with
  | a :: d1, b :: d2 => match a ?= b with Eq => memcmp d1 d2 | c => c end
  | _, _ => Eq
  end.

Definition mp_seq_cmp_bytes (op : cmp_op) (data1 data2 : list Z) : bool :=
  if bool_decide (op = OP_EQUAL) && negb (length data1 =? length data2)%nat then false
  else
    let '(op, data1, data2) := swap_less op data1 data2 in
    let min_len := Nat.min (length data1) (length data2) in
    match op, memcmp (take min_len data1) (take min_len data2) with
    | OP_EQUAL, c => match c with Eq => true | _ => false end
    | _, Lt => false
    | _, Gt => true
    | _, Eq => cmp_tie op (length data1) (length data2)
    end.

Section Objects.
Context {A S : Type} (mp_obj_equal : A -> A -> bool) (compare_true : cmp_op -> A -> A -> res bool).

(** The loop over the common length; [compare_true op a b] is whether
    [mp_binary_op(op, a, b)] is the object [True]. *)
Fixpoint cmp_items (op : cmp_op) (len1 len2 : nat) (items1 items2 : list A) : res bool :=
  match items1, items2 with
  | a :: items1, b :: items2 =>
      if mp_obj_equal a b then cmp_items op len1 len2 items1 items2
      else if bool_decide (op = OP_EQUAL) then Ok false
      else compare_true op a b
  | _, _ => Ok (cmp_tie op len1 len2)
  end.

Definition mp_seq_cmp_objs (op : cmp_op) (items1 items2 : list A) : res bool :=
  if bool_decide (op = OP_EQUAL) && negb (length items1 =? length items2)%nat then Ok false
  else
    let '(op, items1, items2) := swap_less op items1 items2 in
    cmp_items op (length items1) (length items2) items1 items2.

(** The first position in [start, stop) of an object equal to [value]. *)
Fixpoint index_loop (items : list A) (value : A) (i stop : nat) : option nat :=
  match items with
  | [] => None
  | x :: items => if (i <? stop)%nat then if mp_obj_equal x value then Some i else index_loop items value (i + 1) stop
                  else None
  end.

Definition mp_seq_index_obj (items : list A) (value : A) (start stop : option py_index) : res Z :=
  let len := Z.of_nat (length items) in
  let find i j := match index_loop (drop (Z.to_nat i) items) value (Z.to_nat i) (Z.to_nat j) with
                  | Some k => Ok (Z.of_nat k)
                  | None => Raise ValueError
                  end in
  match start with
  | None => find 0 len
  | Some start =>
      match mp_get_index len start true with
      | Raise e => Raise e
      | Ok i =>
          match stop with
          | None => find i len
          | Some stop => match mp_get_index len stop true with Ok j => find i j | Raise e => Raise e end
          end
      end
  end.

Definition mp_seq_count_obj (items : list A) (value : A) : Z :=
  foldl (fun count x => if mp_obj_equal x value then count + 1 else count) 0 items.
End Objects.

(** Slices select what Python says, and sequences are compared as Python says. *)

(** ** Bounds of slices *)

(** The argument is [None], or an integer of a machine word. *)
Definition arg_value (o : py_index) (v : option Z) : Prop :=
  match v with None => o = IdxNone | Some z => mp_obj_get_int o = Ok z end.

Lemma index_arg_value o v : index_arg o = Ok v -> arg_value o v.
Proof. unfold index_arg. destruct o; intros H; simplify_eq/=; [done|..]; case_match; by simplify_eq/=. Qed.

Lemma index_arg_raises o e : index_arg o = Raise e -> o <> IdxNone /\ mp_obj_get_int o = Raise e.
Proof. unfold index_arg. destruct o; intros H; simplify_eq/=; split; try done; case_match; by simplify_eq/=. Qed.

Lemma get_int_range o z : mp_obj_get_int o = Ok z -> - 2 ^ 31 <= z < 2 ^ 31.
Proof.
  unfold mp_obj_get_int, mp_obj_int_get_checked, in_int. intros H.
  repeat case_match; simplify_eq; bool_to_prop; lia.
Qed.

Lemma swrap32 x : - 2 ^ 31 <= x < 2 ^ 31 -> swrap 32 x = x.
Proof. intros. by apply swrap_id. Qed.

Lemma sadd_ok a b : - 2 ^ 31 <= a + b < 2 ^ 31 -> sadd a b = Some (a + b).
Proof.
  intros. unfold sadd, in_int. replace (_ <=? _) with true by (symmetry; apply Z.leb_le; lia).
  by replace (_ <? _) with true by (symmetry; apply Z.ltb_lt; lia).
Qed.

Section Bounds.
Context {S : Type} (s : S) (len : Z).
Hypothesis Hlen : 0 <= len < 2 ^ 31.

(** The three parts of the function, each with the value it computes. *)
Lemma step_run o v : arg_value o v -> step_value v <> 0 -> slice_step o s = Some (Ok (step_value v), s).
Proof.
  intros Hv Hz. destruct v as [z|]; simpl in *; [|by subst o].
  assert (Hrun : (step ← of_res (mp_obj_get_int o); if step =? 0 then mp_raise ValueError else mret step : X S Z) s
                 = Some (Ok z, s)).
  { rewrite Hv. erewrite X_bind_Ok by reflexivity. destruct (Z.eqb_spec z 0); [lia|done]. }
  by destruct o as [|[|[]|]|].
Qed.

Lemma start_run k o v : arg_value o v ->
  slice_start len k o s = Some (Ok (default (if 0 <? k then 0 else len - 1) v), s).
Proof.
  intros Hv. destruct v as [z|]; simpl in *.
  - destruct o; simplify_eq/=; unfold of_res; by rewrite ?Hv.
  - subst o. simpl. by rewrite swrap32 by lia.
Qed.

Lemma stop_run k o v : arg_value o v -> (k < 0 -> v <> Some (2 ^ 31 - 1)) ->
  slice_stop len k o s
  = Some (Ok (match v with
              | None => if 0 <? k then len else 0
              | Some z => if (0 <=? z) && (k <? 0) then z + 1 else z
              end), s).
Proof.
  intros Hv Hmax. destruct v as [z|]; simpl in *.
  - pose proof (get_int_range _ _ Hv).
    assert (Hrun : (stop ← of_res (mp_obj_get_int o); if (0 <=? stop) && (k <? 0) then xlift (sadd stop 1) else mret stop
                    : X S Z) s = Some (Ok (if (0 <=? z) && (k <? 0) then z + 1 else z), s)).
    { rewrite Hv. erewrite X_bind_Ok by reflexivity. destruct ((0 <=? z) && (k <? 0)) eqn:E; [|done].
      unfold xlift. rewrite sadd_ok; [done|].
      assert (z <> 2 ^ 31 - 1) by (intros ->; apply Hmax; [lia|done]). lia. }
    by destruct o.
  - subst o. simpl. by rewrite swrap32 by lia.
Qed.
End Bounds.

(** The bounds that the code computes; its [stop] for a negative step is the last
    position and not the one after it. *)
Definition code_stop (len k : Z) (a b : option Z) : Z :=
  if k <? 0 then Z.min (py_start len k a) (py_stop len k b) + 1 else Z.max (py_start len k a) (py_stop len k b).

(** Arithmetic with conditions: all branches, with the conversions between words. *)
Ltac case_conditions :=
  repeat match goal with
  | |- context [if ?b then _ else _] => destruct b eqn:?
  | H : context [if ?b then _ else _] |- _ => destruct b eqn:?
  end.
Ltac branches := case_conditions; rewrite ?swrap32 in * by lia; case_conditions; try lia.

Lemma start_value len k a : 0 <= len < 2 ^ 31 -> k <> 0 -> - 2 ^ 31 <= default 0 a < 2 ^ 31 ->
  clamp_start len k (default (if 0 <? k then 0 else len - 1) a) = py_start len k a.
Proof.
  intros Hlen Hk Ha. unfold clamp_start, py_start, py_bound.
  assert (E : swrap 32 len = len /\ swrap 32 (len - 1) = len - 1) by (split; apply swrap32; lia). destruct E as [-> ->].
  destruct a as [a|]; simpl in *; cbv zeta.
  - destruct (Z.ltb_spec a 0); [rewrite (swrap32 (len + a)) by lia|]; branches.
  - destruct (Z.ltb_spec 0 k); simpl; [branches|].
    destruct (Z.ltb_spec (len - 1) 0); [rewrite swrap32 by lia|]; branches.
Qed.

(** For a positive step a bound before the beginning is left at -1. *)
Definition before (len : Z) (b : option Z) : bool := default 0 b + (if default 0 b <? 0 then len else 0) <? 0.

Lemma stop_value {S} (s : S) len k b : 0 <= len < 2 ^ 31 -> k <> 0 -> - 2 ^ 31 <= default 0 b < 2 ^ 31 ->
  clamp_stop len k (match b with
                    | None => if 0 <? k then len else 0
                    | Some z => if (0 <=? z) && (k <? 0) then z + 1 else z
                    end) s
  = Some (Ok (if k <? 0 then py_stop len k b + 1 else if before len b then -1 else py_stop len k b), s).
Proof.
  intros Hlen Hk Hb. unfold clamp_stop, before, py_stop, py_bound.
  assert (Elen : swrap 32 len = len) by (apply swrap32; lia). rewrite Elen.
  destruct b as [b|]; simpl in *; cbv zeta.
  - destruct (Z.ltb_spec (if (0 <=? b) && (k <? 0) then b + 1 else b) 0).
    + assert (b < 0) by (destruct ((0 <=? b) && (k <? 0)) eqn:?; lia).
      replace ((0 <=? b) && (k <? 0)) with false in * by lia. rewrite swrap32 by lia.
      destruct (Z.ltb_spec k 0); unfold xlift.
      * rewrite sadd_ok by (destruct (_ <? 0); lia). simpl. do 3 f_equal. branches.
      * unfold mret, X_ret. do 3 f_equal. branches.
    + unfold mret, X_ret. do 3 f_equal. destruct ((0 <=? b) && (k <? 0)) eqn:?; branches.
  - unfold mret, X_ret. destruct (Z.ltb_spec 0 k).
    + replace (len <? 0) with false by lia. do 3 f_equal. branches.
    + simpl. do 3 f_equal. branches.
Qed.

Lemma fast_slice_run {S} (s : S) len slice a b k :
  0 <= len < 2 ^ 31 -> arg_value (ostart slice) a -> arg_value (ostop slice) b -> arg_value (ostep slice) k ->
  step_value k <> 0 -> (step_value k < 0 -> b <> Some (2 ^ 31 - 1)) ->
  mp_seq_get_fast_slice_indexes len slice s
  = Some (Ok (step_value k =? 1, MkBound (py_start len (step_value k) a) (code_stop len (step_value k) a b) (step_value k)), s).
Proof.
  intros Hlen Ha Hb Hk Hz Hmax. unfold mp_seq_get_fast_slice_indexes.
  rewrite (X_bind_Ok _ _ _ _ _ (step_run s _ _ Hk Hz)).
  rewrite (X_bind_Ok _ _ _ _ _ (start_run s len Hlen (step_value k) _ _ Ha)).
  rewrite (X_bind_Ok _ _ _ _ _ (stop_run s len Hlen (step_value k) _ _ Hb Hmax)).
  generalize dependent (step_value k). clear k Hk. intros k Hz Hmax.
  assert (Hra : - 2 ^ 31 <= default 0 a < 2 ^ 31) by (destruct a; [by eapply get_int_range|simpl; lia]).
  assert (Hrb : - 2 ^ 31 <= default 0 b < 2 ^ 31) by (destruct b; [by eapply get_int_range|simpl; lia]).
  cbv zeta. rewrite (start_value len k a Hlen Hz Hra), (X_bind_Ok _ _ _ _ _ (stop_value s len k b Hlen Hz Hrb)).
  assert (Hstart : (k < 0 -> -1 <= py_start len k a < len) /\ (0 < k -> 0 <= py_start len k a <= len)).
  { unfold py_start, py_bound. destruct a; branches. }
  assert (Hp : 0 < k -> before len b = true -> py_stop len k b = 0).
  { unfold before, py_stop, py_bound. destruct b; simpl; branches. }
  assert (Hp' : 0 < k -> 0 <= py_stop len k b).
  { unfold py_stop, py_bound. destruct b; branches. }
  unfold code_stop. generalize dependent (py_start len k a). generalize dependent (py_stop len k b).
  intros stop Hp Hp' start Hstart. generalize dependent (before len b). intros neg Hp.
  rewrite (X_bind_Ok _ _ s (if k <? 0 then Z.min start stop + 1 else Z.max start stop) s); [done|].
  destruct (Z.ltb_spec k 0).
  - replace (0 <? k) with false by lia. simpl. unfold xlift. destruct (Z.ltb_spec start (stop + 1)).
    + rewrite sadd_ok by lia. simpl. do 3 f_equal. lia.
    + unfold mret, X_ret. do 3 f_equal. lia.
  - replace (0 <? k) with true by lia. simpl. unfold mret, X_ret. destruct neg.
    + replace (-1 <? start) with true by lia. do 3 f_equal. specialize (Hp ltac:(lia) eq_refl). lia.
    + destruct (Z.ltb_spec stop start); do 3 f_equal; lia.
Qed.

(** An argument that cannot be converted, or the step 0, raises before anything is done. *)
Lemma fast_slice_raises {S} (s : S) len slice e : 0 <= len < 2 ^ 31 -> py_slice_args slice = Raise e ->
  mp_seq_get_fast_slice_indexes len slice s = Some (Raise e, s).
Proof.
  intros Hlen. unfold py_slice_args, mp_seq_get_fast_slice_indexes.
  destruct (index_arg (ostep slice)) as [k|e'] eqn:Ek; last first.
  { intros [= ->]. apply index_arg_raises in Ek as [Hn Ek]. apply X_bind_Raise. unfold slice_step.
    by destruct (ostep slice) as [|[|[]|]|]; rewrite ?Ek. }
  apply index_arg_value in Ek. destruct (Z.eqb_spec (step_value k) 0) as [E0|E0].
  { intros [= <-]. apply X_bind_Raise. destruct k as [z|]; unfold step_value in E0; simpl in E0; [|done]. subst z. simpl in Ek.
    unfold slice_step. by destruct (ostep slice) as [|[|[]|]|]; rewrite ?Ek. }
  rewrite (X_bind_Ok _ _ _ _ _ (step_run s _ _ Ek E0)).
  destruct (index_arg (ostart slice)) as [a|e'] eqn:Ea; last first.
  { intros [= ->]. apply index_arg_raises in Ea as [Hn Ea]. apply X_bind_Raise. unfold slice_start. destruct (ostart slice); try done; by rewrite Ea. }
  apply index_arg_value in Ea. rewrite (X_bind_Ok _ _ _ _ _ (start_run s len Hlen (step_value k) _ _ Ea)).
  destruct (index_arg (ostop slice)) as [b|e'] eqn:Eb; [done|]. intros [= ->]. apply index_arg_raises in Eb as [Hn Eb].
  apply X_bind_Raise. unfold slice_stop. destruct (ostop slice); try done; by rewrite Eb.
Qed.

(** The positions selected are positions of the sequence. *)
Lemma slice_positions_range len k a b : 0 <= len -> k <> 0 ->
  Forall (fun i => 0 <= i < len) (slice_positions (py_start len k a) (py_stop len k b) k).
Proof.
  intros Hlen Hk. apply list.Forall_forall. intros i Hi. unfold slice_positions in Hi.
  apply list_elem_of_fmap in Hi as (n & -> & Hn). apply elem_of_seqZ in Hn.
  assert (Hs : (k < 0 -> -1 <= py_start len k a < len /\ -1 <= py_stop len k b < len)
               /\ (0 < k -> 0 <= py_start len k a <= len /\ 0 <= py_stop len k b <= len)).
  { unfold py_start, py_stop, py_bound. destruct a, b; branches. }
  unfold slice_length in Hn. destruct (Z.ltb_spec k 0).
  - destruct (Z.ltb_spec (py_stop len k b) (py_start len k a)); [|lia].
    pose proof (Z.mul_div_le (py_start len k a - py_stop len k b - 1) (- k) ltac:(lia)). nia.
  - destruct (Z.ltb_spec (py_start len k a) (py_stop len k b)); [|lia].
    pose proof (Z.mul_div_le (py_stop len k b - py_start len k a - 1) k ltac:(lia)). nia.
Qed.

(** ** Comparison *)

(** Sequences in the order of dictionaries. *)
Fixpoint lex {A} (cmp : A -> A -> comparison) (l1 l2 : list A) : comparison :=
  match l1, l2 with
  | [], [] => Eq
  | [], _ :: _ => Lt
  | _ :: _, [] => Gt
  | a :: l1, b :: l2 => match cmp a b with Eq => lex cmp l1 l2 | c => c end
  end.

Definition holds (op : cmp_op) (c : comparison) : bool :=
  match op, c with
  | OP_EQUAL, Eq | OP_LESS, Lt | OP_LESS_EQUAL, (Lt | Eq) | OP_MORE, Gt | OP_MORE_EQUAL, (Gt | Eq) => true
  | _, _ => false
  end.

Lemma lex_opp {A} (cmp : A -> A -> comparison) : (forall a b, cmp b a = CompOpp (cmp a b)) ->
  forall l1 l2, lex cmp l2 l1 = CompOpp (lex cmp l1 l2).
Proof.
  intros H l1. induction l1 as [|a l1 IH]; intros [|b l2]; simpl; try done. rewrite H. by destruct (cmp a b); simpl.
Qed.

Lemma lex_eq_length {A} (cmp : A -> A -> comparison) l1 l2 : lex cmp l1 l2 = Eq -> length l1 = length l2.
Proof. revert l2. induction l1 as [|a l1 IH]; intros [|b l2]; simpl; try done. destruct (cmp a b); try done. auto. Qed.

(** Both functions swap their arguments for [<] and [<=]. *)
Lemma holds_swap {A} (cmp : A -> A -> comparison) op l1 l2 : (forall a b, cmp b a = CompOpp (cmp a b)) ->
  let '(op', l1', l2') := swap_less op l1 l2 in
  holds op (lex cmp l1 l2) = holds op' (lex cmp l1' l2') /\ op' <> OP_LESS /\ op' <> OP_LESS_EQUAL
  /\ (op' = OP_EQUAL <-> op = OP_EQUAL) /\ (op = OP_EQUAL -> l1' = l1 /\ l2' = l2).
Proof. intros H. destruct op; simpl; rewrite ?(lex_opp cmp H l1 l2); repeat split; try done; by destruct (lex _ _ _). Qed.

Lemma lex_prefix {A} (cmp : A -> A -> comparison) l1 l2 n :
  (n = Nat.min (length l1) (length l2))%nat ->
  lex cmp l1 l2 = match lex cmp (take n l1) (take n l2) with
                  | Eq => Nat.compare (length l1) (length l2)
                  | c => c
                  end.
Proof.
  revert l2 n. induction l1 as [|a l1 IH]; intros [|b l2] n ->; simpl; try done.
  destruct (cmp a b); try done. by apply IH.
Qed.

Lemma tie_holds op l1 l2 : op <> OP_LESS -> op <> OP_LESS_EQUAL -> (op = OP_EQUAL -> l1 = l2) ->
  cmp_tie op l1 l2 = holds op (Nat.compare l1 l2).
Proof.
  intros H1 H2 H3. unfold cmp_tie. destruct (Nat.compare_spec l1 l2) as [->|Hlt|Hlt].
  - rewrite Nat.eqb_refl. simpl. by destruct op.
  - replace (l1 =? l2)%nat with false by lia. replace (l1 <? l2)%nat with true by lia. destruct op; try done; by specialize (H3 eq_refl); lia.
  - replace (l1 =? l2)%nat with false by lia. replace (l1 <? l2)%nat with false by lia. destruct op; try done; by specialize (H3 eq_refl); lia.
Qed.

Section Compare.
Context {A : Type} (cmp : A -> A -> comparison) (mp_obj_equal : A -> A -> bool) (compare_true : cmp_op -> A -> A -> res bool).
Hypothesis Hopp : forall a b, cmp b a = CompOpp (cmp a b).
Hypothesis Hequal : forall a b, mp_obj_equal a b = true <-> cmp a b = Eq.
Hypothesis Hcmp : forall op a b, compare_true op a b = Ok (holds op (cmp a b)).

Lemma cmp_items_spec op n1 n2 l1 l2 : op <> OP_LESS -> op <> OP_LESS_EQUAL -> (op = OP_EQUAL -> n1 = n2) ->
  (length l2 + n1 = length l1 + n2)%nat ->
  cmp_items mp_obj_equal compare_true op n1 n2 l1 l2 = Ok (holds op (lex cmp l1 l2)).
Proof.
  intros H1 H2 H3. revert l2. induction l1 as [|a l1 IH]; intros [|b l2] Hl; simpl in *.
  - rewrite tie_holds by done. do 2 f_equal. apply Nat.compare_eq_iff. lia.
  - rewrite tie_holds by done. do 2 f_equal. apply Nat.compare_lt_iff. lia.
  - rewrite tie_holds by done. do 2 f_equal. apply Nat.compare_gt_iff. lia.
  - destruct (mp_obj_equal a b) eqn:E.
    + apply Hequal in E. rewrite E. apply IH. lia.
    + assert (Hne : cmp a b <> Eq) by (intros E'; apply Hequal in E'; congruence).
      case_bool_decide; [subst op|rewrite Hcmp]; by destruct (cmp a b).
Qed.

Lemma mp_seq_cmp_objs_spec op l1 l2 :
  mp_seq_cmp_objs mp_obj_equal compare_true op l1 l2 = Ok (holds op (lex cmp l1 l2)).
Proof.
  unfold mp_seq_cmp_objs. case_bool_decide as Eop; simpl.
  - destruct (Nat.eqb_spec (length l1) (length l2)) as [El|El]; simpl.
    + subst op. simpl. apply cmp_items_spec; (done || lia).
    + subst op. destruct (lex cmp l1 l2) eqn:E; try done. by apply lex_eq_length in E.
  - pose proof (holds_swap cmp op l1 l2 Hopp) as Hs. destruct (swap_less op l1 l2) as [[op' l1'] l2'].
    destruct Hs as (-> & H1 & H2 & H3 & _). apply cmp_items_spec; try (done || lia). by intros ->%H3.
Qed.
End Compare.

Lemma memcmp_lex l1 l2 : length l1 = length l2 -> memcmp l1 l2 = lex Z.compare l1 l2.
Proof. revert l2. induction l1 as [|a l1 IH]; intros [|b l2] H; simpl in *; try done. destruct (a ?= b); try done. auto. Qed.

Lemma mp_seq_cmp_bytes_spec op l1 l2 : mp_seq_cmp_bytes op l1 l2 = holds op (lex Z.compare l1 l2).
Proof.
  assert (Hrun : forall op l1 l2, op <> OP_LESS -> op <> OP_LESS_EQUAL -> (op = OP_EQUAL -> length l1 = length l2) ->
    match op, memcmp (take (Nat.min (length l1) (length l2)) l1) (take (Nat.min (length l1) (length l2)) l2) with
    | OP_EQUAL, c => match c with Eq => true | _ => false end
    | _, Lt => false
    | _, Gt => true
    | _, Eq => cmp_tie op (length l1) (length l2)
    end = holds op (lex Z.compare l1 l2)).
  { clear. intros op l1 l2 H1 H2 H3. rewrite memcmp_lex by (rewrite !length_take; lia).
    rewrite (lex_prefix _ l1 l2 _ eq_refl). destruct (lex _ (take _ l1) (take _ l2)); [|by destruct op..].
    destruct op; try done; [|by apply tie_holds..]. by rewrite H3, (proj2 (Nat.compare_eq_iff _ _) eq_refl). }
  unfold mp_seq_cmp_bytes. case_bool_decide as Eop; simpl.
  - destruct (Nat.eqb_spec (length l1) (length l2)) as [El|El]; simpl; subst op.
    + by apply (Hrun OP_EQUAL).
    + destruct (lex Z.compare l1 l2) eqn:E; try done. by apply lex_eq_length in E.
  - pose proof (holds_swap Z.compare op l1 l2 Z.compare_antisym) as Hs. destruct (swap_less op l1 l2) as [[op' l1'] l2'].
    destruct Hs as (-> & H1 & H2 & H3 & _). apply Hrun; try done. by intros ->%H3.
Qed.

(** ** Search *)

Section Search.
Context {A : Type} (mp_obj_equal : A -> A -> bool) (value : A).

Lemma index_loop_Some items i stop k : index_loop mp_obj_equal items value i stop = Some k ->
  (i <= k < stop)%nat /\ (exists x, items !! (k - i)%nat = Some x /\ mp_obj_equal x value = true)
  /\ forall j x, (j < k - i)%nat -> items !! j = Some x -> mp_obj_equal x value = false.
Proof.
  revert i. induction items as [|y items IH]; intros i H; [done|]. simpl in H.
  destruct (Nat.ltb_spec i stop); [|done]. destruct (mp_obj_equal y value) eqn:E.
  - simplify_eq. rewrite Nat.sub_diag. split; [lia|]. split; [by exists y|]. intros; lia.
  - apply IH in H as (Hk & (x & Hx & Ex) & Hbefore). split; [lia|]. replace (k - i)%nat with (S (k - (i + 1))) by lia.
    split; [by exists x|]. intros [|j] z Hj Hz; simpl in Hz; [by simplify_eq|]. apply (Hbefore j); [lia|done].
Qed.

Lemma index_loop_None items i stop : index_loop mp_obj_equal items value i stop = None ->
  forall j x, (i + j < stop)%nat -> items !! j = Some x -> mp_obj_equal x value = false.
Proof.
  revert i. induction items as [|y items IH]; intros i H j x Hj Hx; [done|]. simpl in H.
  destruct (Nat.ltb_spec i stop); [|lia]. destruct (mp_obj_equal y value) eqn:E; [done|].
  destruct j; simpl in Hx; [by simplify_eq|]. apply (IH (i + 1)%nat H j); [lia|done].
Qed.

Lemma mp_seq_count_obj_spec items :
  mp_seq_count_obj mp_obj_equal items value = Z.of_nat (length (filter (fun x => mp_obj_equal x value = true) items)).
Proof.
  unfold mp_seq_count_obj. enough (H : forall n, foldl (fun count x => if mp_obj_equal x value then count + 1 else count) n items
    = n + Z.of_nat (length (filter (fun x => mp_obj_equal x value = true) items))) by apply H.
  induction items as [|x items IH]; intros n; simpl; [lia|]. rewrite IH, filter_cons.
  destruct (mp_obj_equal x value); simpl; lia.
Qed.
End Search.
