(* ===== verification/ObjList.v ===== *)
(** Lists, [py/objlist.c]: the list objects, the arrays of their items, and the
    operations.

    List objects and arrays live in stores, so that operations see aliasing and
    arrays that moved: an array that was reallocated elsewhere is gone.  A slot of
    an array is [MP_OBJ_NULL], an object, or what new memory contains.  An
    allocation fails, and a reallocation moves the array or does not, as the answers
    of the memory manager in the state say.

    [MpCalls] is what the lists need of other objects.  A comparison or a key
    function has a result or raises; that it changes the list it is used on is not
    modelled. *)
From S2P Require Import Prelude PyExn Map ObjSeq.

Class MpCalls (MO : MpObj) := {
  mp_const_none : mp_obj;
  mp_const_true : mp_obj;
  mp_const_false : mp_obj;
  mp_const_differ : mp_const_true <> mp_const_false;
  mp_binary_op : cmp_op -> mp_obj -> mp_obj -> res mp_obj;
  mp_call_function_1 : mp_obj -> mp_obj -> res mp_obj }.

Section Lists.
Context {MO : MpObj} {MC : MpCalls MO}.

Inductive item := Null | Obj (o : mp_obj) | Undef.

Record mp_obj_list_t := MkList { l_alloc : Z; l_len : Z; l_items : nat }.

Inductive mem_answer := MemFail | MemInPlace | MemMove.

Record lists := MkLists {
  list_objs : gmap nat mp_obj_list_t;
  arrays : gmap nat (list item);          (* 0 is [NULL] and never allocated *)
  list_brk : nat;                         (* the next new address *)
  answers : list mem_answer;
  heap_bytes : Z }.

Definition with_list_objs f (s : lists) : lists := MkLists (f (list_objs s)) (arrays s) (list_brk s) (answers s) (heap_bytes s).
Definition with_arrays f (s : lists) : lists := MkLists (list_objs s) (f (arrays s)) (list_brk s) (answers s) (heap_bytes s).
Definition with_brk n (s : lists) : lists := MkLists (list_objs s) (arrays s) n (answers s) (heap_bytes s).
Definition with_answers a (s : lists) : lists := MkLists (list_objs s) (arrays s) (list_brk s) a (heap_bytes s).

(** ** Memory *)

Definition xget : X lists lists := fun s => Some (Ok s, s).
Definition xmodify (f : lists -> lists) : X lists unit := fun s => Some (Ok tt, f s).
Definition xabort {A} : X lists A := fun _ => None.

Definition next_answer : X lists mem_answer := fun s =>
  match answers s with
  | [] => Some (Ok MemMove, s)
  | a :: l => Some (Ok a, with_answers l s)
  end.

(** A new address, if there is memory. *)
Definition m_malloc (num_bytes : Z) : X lists nat :=
  a ← next_answer;
  s ← xget;
  match a with
  | MemFail => mp_raise MemoryError
  | _ => if heap_bytes s <? num_bytes then mp_raise MemoryError
         else xmodify (with_brk (S (list_brk s)));; mret (list_brk s)
  end.

(** [sizeof(mp_obj_t)] *)
Definition OBJ_SIZE : Z := 4.

(** [m_new(mp_obj_t, num)]: the multiplication wraps, and no bytes are [NULL]. *)
Definition m_new (num : Z) : X lists nat :=
  let num_bytes := wrap 32 (OBJ_SIZE * num) in
  if num_bytes =? 0 then mret 0%nat
  else
    p ← m_malloc num_bytes;
    xmodify (with_arrays <[p := replicate (Z.to_nat (num_bytes / OBJ_SIZE)) Undef]>);; mret p.

Definition get_array (p : nat) : X lists (list item) := s ← xget; xlift (arrays s !! p).
Definition set_array (p : nat) (buf : list item) : X lists unit := xmodify (with_arrays <[p := buf]>).

(** [m_renew(mp_obj_t, p, _, new_num)]: [gc_realloc] shrinks in place. *)
Definition m_renew (p : nat) (new_num : Z) : X lists nat :=
  let num_bytes := wrap 32 (OBJ_SIZE * new_num) in
  let n := Z.to_nat (num_bytes / OBJ_SIZE) in
  if (p =? 0)%nat then m_new new_num
  else
    buf ← get_array p;
    if num_bytes =? 0 then xmodify (with_arrays (delete p));; mret 0%nat
    else if (n <=? length buf)%nat then set_array p (take n buf);; mret p
    else
      a ← next_answer;
      s ← xget;
      match a with
      | MemFail => mp_raise MemoryError
      | _ =>
          if heap_bytes s <? num_bytes then mp_raise MemoryError
          else
            let buf' := buf ++ replicate (n - length buf) Undef in
            match a with
            | MemInPlace => set_array p buf';; mret p
            | _ => xmodify (with_arrays (delete p));; xmodify (with_brk (S (list_brk s)));;
                   set_array (list_brk s) buf';; mret (list_brk s)
            end
      end.

(** Copies between arrays.  Nothing is accessed when nothing is copied. *)
Definition read (p : nat) (i n : Z) : X lists (list item) :=
  if n =? 0 then mret []
  else
    buf ← get_array p;
    if (0 <=? i) && (0 <=? n) && (i + n <=? Z.of_nat (length buf)) then mret (take (Z.to_nat n) (drop (Z.to_nat i) buf))
    else xabort.

Definition write (p : nat) (i : Z) (xs : list item) : X lists unit :=
  match xs with
  | [] => mret tt
  | _ =>
      buf ← get_array p;
      if (0 <=? i) && (i + Z.of_nat (length xs) <=? Z.of_nat (length buf)) then
        set_array p (take (Z.to_nat i) buf ++ xs ++ drop (Z.to_nat i + length xs) buf)
      else xabort
  end.

Definition memmove (dest : nat) (i : Z) (src : nat) (j n : Z) : X lists unit := xs ← read src j n; write dest i xs.
(** [memcpy] of regions that overlap is undefined. *)
Definition memcpy (dest : nat) (i : Z) (src : nat) (j n : Z) : X lists unit :=
  if (dest =? src)%nat && (i <? j + n) && (j <? i + n) then xabort else memmove dest i src j n.
Definition mp_seq_clear (p : nat) (len alloc_len : Z) : X lists unit := write p len (replicate (Z.to_nat (alloc_len - len)) Null).

(** One slot; what is not an object is not used as one. *)
Definition load_item (p : nat) (i : Z) : X lists mp_obj :=
  buf ← get_array p;
  if i <? 0 then xabort else match buf !! Z.to_nat i with Some (Obj o) => mret o | _ => xabort end.
Definition store_item (p : nat) (i : Z) (o : item) : X lists unit := write p i [o].

Definition get_list (self : nat) : X lists mp_obj_list_t := s ← xget; xlift (list_objs s !! self).
Definition set_list (self : nat) (l : mp_obj_list_t) : X lists unit := xmodify (with_list_objs <[self := l]>).
Definition set_items (self : nat) (p : nat) : X lists unit :=
  l ← get_list self; set_list self (MkList (l_alloc l) (l_len l) p).
Definition set_alloc (self : nat) (n : Z) : X lists unit :=
  l ← get_list self; set_list self (MkList n (l_len l) (l_items l)).
Definition set_list_len (self : nat) (n : Z) : X lists unit :=
  l ← get_list self; set_list self (MkList (l_alloc l) n (l_items l)).

(** ** Operations *)

Definition LIST_MIN_ALLOC : Z := 4.
(** [sizeof(mp_obj_list_t)] *)
Definition LIST_SIZE : Z := 16.

Definition list_new (n : Z) : X lists nat :=
  o ← m_malloc LIST_SIZE;
  let alloc := if n <? LIST_MIN_ALLOC then LIST_MIN_ALLOC else n in
  items ← m_new alloc;
  set_list o (MkList alloc n items);;
  mp_seq_clear items n alloc;; mret o.

(** [mp_obj_new_list] of an array of items. *)
Definition mp_obj_new_list (n : Z) (items : nat) : X lists nat :=
  o ← list_new n; l ← get_list o;
  (if (items =? 0)%nat then mret tt else memmove (l_items l) 0 items 0 n);; mret o.

Definition mp_obj_list_append (self : nat) (arg : mp_obj) : X lists unit :=
  l ← get_list self;
  (if l_alloc l <=? l_len l then
     p ← m_renew (l_items l) (wrap 32 (l_alloc l * 2));
     set_items self p;;
     set_alloc self (wrap 32 (l_alloc l * 2));;
     mp_seq_clear p (l_len l + 1) (wrap 32 (l_alloc l * 2))
   else mret tt);;
  l ← get_list self;
  store_item (l_items l) (l_len l) (Obj arg);;
  set_list_len self (wrap 32 (l_len l + 1)).

(** An iterable is the objects it yields, up to an exception. *)
Fixpoint list_extend_from_iter (self : nat) (iterable : list (res mp_obj)) : X lists unit :=
  match iterable with
  | [] => mret tt
  | r :: iterable => x ← of_res r; mp_obj_list_append self x;; list_extend_from_iter self iterable
  end.

Definition list_extend (self arg : nat) : X lists unit :=
  l ← get_list self; a ← get_list arg;
  (if l_alloc l <? wrap 32 (l_len l + l_len a) then
     p ← m_renew (l_items l) (wrap 32 (l_len l + l_len a + 4));
     set_items self p;;
     set_alloc self (wrap 32 (l_len l + l_len a + 4));;
     mp_seq_clear p (l_len l + l_len a) (wrap 32 (l_len l + l_len a + 4))
   else mret tt);;
  l ← get_list self; a ← get_list arg;
  memcpy (l_items l) (l_len l) (l_items a) 0 (l_len a);;
  set_list_len self (wrap 32 (l_len l + l_len a)).

(** [list_pop]; [None] for a missing index. *)
Definition list_pop (self : nat) (index : option py_index) : X lists mp_obj :=
  l ← get_list self;
  if l_len l =? 0 then mp_raise IndexError
  else
    index ← of_res (mp_get_index (l_len l) (default (IdxInt (-1)) index) false);
    ret ← load_item (l_items l) index;
    let len := l_len l - 1 in
    set_list_len self len;;
    memmove (l_items l) index (l_items l) (index + 1) (len - index);;
    store_item (l_items l) len Null;;
    (if (LIST_MIN_ALLOC <? l_alloc l) && (2 * len <? l_alloc l) then
       p ← m_renew (l_items l) (l_alloc l / 2);
       set_items self p;; set_alloc self (l_alloc l / 2)
     else mret tt);;
    mret ret.

Definition list_clear (self : nat) : X lists unit :=
  set_list_len self 0;;
  l ← get_list self;
  p ← m_renew (l_items l) LIST_MIN_ALLOC;
  set_items self p;;
  set_alloc self LIST_MIN_ALLOC;;
  mp_seq_clear p 0 LIST_MIN_ALLOC.

Definition list_copy (self : nat) : X lists nat := l ← get_list self; mp_obj_new_list (l_len l) (l_items l).

(** The items of a list, for the functions that only read them. *)
Fixpoint to_objs (buf : list item) : option (list mp_obj) :=
  match buf with
  | [] => Some []
  | Obj o :: buf => l ← to_objs buf; Some (o :: l)
  | _ => None
  end.
Definition list_items (self : nat) : X lists (list mp_obj) :=
  l ← get_list self; buf ← read (l_items l) 0 (l_len l); xlift (to_objs buf).

Definition list_count (self : nat) (value : mp_obj) : X lists Z :=
  xs ← list_items self; mret (mp_seq_count_obj mp_obj_equal xs value).
Definition list_index (self : nat) (value : mp_obj) (start stop : option py_index) : X lists Z :=
  xs ← list_items self; of_res (mp_seq_index_obj mp_obj_equal xs value start stop).

(** [for (i = len - 1; i > index; i--) items[i] = items[i - 1]] *)
Fixpoint shift_up (n : nat) (p : nat) (i : Z) : X lists unit :=
  match n with
  | O => mret tt
  | S n => x ← load_item p (i - 1); store_item p i (Obj x);; shift_up n p (i - 1)
  end.

(** [idx] is taken to be a small integer. *)
Definition list_insert (self : nat) (idx : Z) (obj : mp_obj) : X lists unit :=
  l ← get_list self;
  let index := if idx <? 0 then swrap 32 (idx + l_len l) else idx in
  let index := if index <? 0 then 0 else index in
  let index := if l_len l <? index then l_len l else index in
  mp_obj_list_append self mp_const_none;;
  l ← get_list self;
  shift_up (Z.to_nat (l_len l - 1 - index)) (l_items l) (l_len l - 1);;
  store_item (l_items l) index (Obj obj).

Definition mp_obj_list_remove (self : nat) (value : mp_obj) : X lists unit :=
  i ← list_index self value None None;
  list_pop self (Some (IdxInt i));; mret tt.

(** [for (; i < len / 2; i++)] swap [items[i]] and [items[len - i - 1]] *)
Fixpoint reverse_loop (n : nat) (p : nat) (len i : Z) : X lists unit :=
  match n with
  | O => mret tt
  | S n =>
      a ← load_item p i; b ← load_item p (len - i - 1);
      store_item p i (Obj b);; store_item p (len - i - 1) (Obj a);; reverse_loop n p len (i + 1)
  end.
Definition list_reverse (self : nat) : X lists unit :=
  l ← get_list self; reverse_loop (Z.to_nat (l_len l / 2)) (l_items l) (l_len l) 0.

(** *** Operators *)

Definition list_add (self rhs : nat) : X lists nat :=
  o ← get_list self; p ← get_list rhs;
  s ← list_new (wrap 32 (l_len o + l_len p));
  l ← get_list s;
  memcpy (l_items l) 0 (l_items o) 0 (l_len o);;
  memcpy (l_items l) (l_len o) (l_items p) 0 (l_len p);; mret s.

(** [mp_seq_multiply] *)
Fixpoint mp_seq_multiply (times : nat) (dest : nat) (i : Z) (items : nat) (len : Z) : X lists unit :=
  match times with
  | O => mret tt
  | S times => memcpy dest i items 0 len;; mp_seq_multiply times dest (i + len) items len
  end.

Definition list_multiply (self : nat) (n : Z) : X lists nat :=
  o ← get_list self;
  let n := if n <? 0 then 0 else n in
  s ← list_new (wrap 32 (l_len o * n));
  l ← get_list s;
  mp_seq_multiply (Z.to_nat n) (l_items l) 0 (l_items o) (l_len o);; mret s.

Definition compare_true (op : cmp_op) (a b : mp_obj) : res bool :=
  match mp_binary_op op a b with Ok r => Ok (bool_decide (r = mp_const_true)) | Raise e => Raise e end.
Definition list_compare (op : cmp_op) (self rhs : nat) : X lists bool :=
  xs ← list_items self; ys ← list_items rhs; of_res (mp_seq_cmp_objs mp_obj_equal compare_true op xs ys).

(** *** Subscripts *)

(** [mp_seq_extract_slice], the loop. *)
Fixpoint extract_loop (fuel : nat) (seq : nat) (indexes : mp_bound_slice_t) (res : nat) (start : Z) : X lists unit :=
  if (if sl_step indexes <? 0 then sl_stop indexes <=? start else start <? sl_stop indexes) then
    match fuel with
    | O => xabort
    | S fuel =>
        x ← load_item seq start;
        mp_obj_list_append res x;;
        start ← xlift (sadd start (sl_step indexes));
        extract_loop fuel seq indexes res start
    end
  else mret tt.
(** The loop visits no position twice. *)
Definition mp_seq_extract_slice (len : Z) (seq : nat) (indexes : mp_bound_slice_t) : X lists nat :=
  res ← mp_obj_new_list 0 0%nat;
  extract_loop (Z.to_nat len + 1) seq indexes res (sl_start indexes);; mret res.

Definition list_load (self : nat) (index : py_index) : X lists mp_obj :=
  l ← get_list self;
  i ← of_res (mp_get_index (l_len l) index false);
  load_item (l_items l) i.

Definition mp_obj_list_store (self : nat) (index : py_index) (value : mp_obj) : X lists unit :=
  l ← get_list self;
  i ← of_res (mp_get_index (l_len l) index false);
  store_item (l_items l) i (Obj value).

Definition list_load_slice (self : nat) (slice : mp_obj_slice_t) : X lists nat :=
  l ← get_list self;
  '(fast, b) ← mp_seq_get_fast_slice_indexes (l_len l) slice;
  if negb fast then mp_seq_extract_slice (l_len l) (l_items l) b
  else
    res ← list_new (wrap 32 (sl_stop b - sl_start b));
    r ← get_list res;
    memcpy (l_items r) 0 (l_items l) (sl_start b) (l_len r);; mret res.

(** [mp_seq_replace_slice_no_grow] and the one that grows, in an array of [len] items. *)
Definition replace_no_grow (dest : nat) (dest_len beg end_ : Z) (slice : nat) (slice_len : Z) : X lists unit :=
  memcpy dest beg slice 0 slice_len;;
  memmove dest (beg + slice_len) dest end_ (dest_len - end_).
Definition replace_grow_inplace (dest : nat) (dest_len beg end_ : Z) (slice : nat) (slice_len len_adj : Z) : X lists unit :=
  memmove dest (beg + slice_len) dest end_ (dest_len + len_adj - (beg + slice_len));;
  memmove dest beg slice 0 slice_len.

Definition list_delete_slice (self : nat) (slice : mp_obj_slice_t) : X lists unit :=
  l ← get_list self;
  '(fast, b) ← mp_seq_get_fast_slice_indexes (l_len l) slice;
  if negb fast then mp_raise NotImplementedError
  else
    let len_adj := sl_start b - sl_stop b in
    if 0 <? len_adj then xabort                           (* [assert] *)
    else
      replace_no_grow (l_items l) (l_len l) (sl_start b) (sl_stop b) (l_items l) 0;;
      mp_seq_clear (l_items l) (l_len l + len_adj) (l_len l);;
      set_list_len self (l_len l + len_adj).

(** Assignment of the items of a list; the array of [value] is looked up first. *)
Definition list_store_slice (self : nat) (slice : mp_obj_slice_t) (value : nat) : X lists unit :=
  l ← get_list self;
  v ← get_list value;
  '(fast, b) ← mp_seq_get_fast_slice_indexes (l_len l) slice;
  if negb fast then mp_raise NotImplementedError
  else
    let len_adj := l_len v - (sl_stop b - sl_start b) in
    (if 0 <? len_adj then
       (if l_alloc l <? l_len l + len_adj then
          p ← m_renew (l_items l) (l_len l + len_adj);
          set_items self p;; set_alloc self (l_len l + len_adj);; mret tt
        else mret tt);;
       l ← get_list self;
       replace_grow_inplace (l_items l) (l_len l) (sl_start b) (sl_stop b) (l_items v) (l_len v) len_adj
     else
       replace_no_grow (l_items l) (l_len l) (sl_start b) (sl_stop b) (l_items v) (l_len v);;
       mp_seq_clear (l_items l) (l_len l + len_adj) (l_len l));;
    set_list_len self (l_len l + len_adj).

Definition list_delete (self : nat) (index : py_index) : X lists unit := list_pop self (Some index);; mret tt.

(** The iterator of a list: the next position, and the object at it. *)
Definition list_it_iternext (self : nat) (cur : Z) : X lists (option mp_obj * Z) :=
  l ← get_list self;
  if cur <? l_len l then o ← load_item (l_items l) cur; mret (Some o, cur + 1) else mret (None, cur).
End Lists.
