(* ===== verification/ObjListSpec.v ===== *)
(** The lists of a program as a finite map from list objects to sequences, the
    representation of it in the stores of [ObjList], and what the accesses to
    arrays do to it. *)
From S2P Require Import Prelude PyExn Map ObjSeq ObjList.

Section Spec.
Context {MO : MpObj} {MC : MpCalls MO}.
Implicit Types (s : lists) (xs : list mp_obj) (buf : list item).

(** The contents of all lists. *)
Abbreviation list_contents := (gmap nat (list mp_obj)).

(** The list [self] has the items [xs] in the array [p] with [k] free slots, all of
    them [MP_OBJ_NULL]. *)
Definition array_of xs k : list item := (Obj <$> xs) ++ replicate k Null.
Record list_rep s self xs k p : Prop := {
  lr_obj : list_objs s !! self = Some (MkList (Z.of_nat (length xs + k)) (Z.of_nat (length xs)) p);
  lr_array : arrays s !! p = Some (array_of xs k);
  lr_min : (2 <= length xs + k)%nat }.

Record lists_ok s (G : list_contents) : Prop := {
  ho_list self xs : G !! self = Some xs -> exists k p, list_rep s self xs k p;
  ho_dom self : is_Some (list_objs s !! self) -> is_Some (G !! self);
  ho_inj a b la lb : list_objs s !! a = Some la -> list_objs s !! b = Some lb -> l_items la = l_items lb -> a = b;
  ho_obj_brk self : is_Some (list_objs s !! self) -> (self < list_brk s)%nat;
  ho_brk p : is_Some (arrays s !! p) -> (0 < p < list_brk s)%nat;
  ho_size p buf : arrays s !! p = Some buf -> 4 * Z.of_nat (length buf) <= heap_bytes s;
  ho_heap : 0 <= heap_bytes s < 2 ^ 30;
  ho_brk_pos : (0 < list_brk s)%nat }.

(** [m] does what [Q] says of its result and of the lists afterwards. *)
Definition implements {A} (m : X lists A) (G : list_contents) (Q : res A -> list_contents -> Prop) : Prop :=
  forall s, lists_ok s G -> exists r s' G', m s = Some (r, s') /\ lists_ok s' G' /\ Q r G'.

(** The same, or there was no memory and nothing happened. *)
Definition or_no_memory {A} (G : list_contents) (Q : res A -> list_contents -> Prop) (r : res A) (G' : list_contents) : Prop :=
  Q r G' \/ r = Raise MemoryError /\ G' = G.

Lemma implements_bind {A B} (m : X lists A) (f : A -> X lists B) G P Q :
  implements m G P -> (forall a G', P (Ok a) G' -> implements (f a) G' Q) ->
  (forall e G', P (Raise e) G' -> Q (Raise e) G') -> implements (m ≫= f) G Q.
Proof.
  intros Hm Hf He s Hs. destruct (Hm s Hs) as (r & s1 & G1 & Hr & Hs1 & HP). destruct r as [a|e].
  - destruct (Hf a G1 HP s1 Hs1) as (r & s2 & G2 & Hr2 & Hs2 & HQ). exists r, s2, G2.
    by rewrite (X_bind_Ok _ _ _ _ _ Hr).
  - exists (Raise e), s1, G1. rewrite (X_bind_Raise _ _ _ _ _ Hr). split; [done|]. split; [done|]. by apply He.
Qed.

Lemma implements_ret {A} (a : A) G (Q : res A -> list_contents -> Prop) : Q (Ok a) G -> implements (mret a) G Q.
Proof. intros H s Hs. by exists (Ok a), s, G. Qed.

Lemma implements_weaken {A} (m : X lists A) G (P Q : res A -> list_contents -> Prop) :
  implements m G P -> (forall r G', P r G' -> Q r G') -> implements m G Q.
Proof. intros Hm H s Hs. destruct (Hm s Hs) as (r & s' & G' & ? & ? & ?). exists r, s', G'. eauto. Qed.

(** ** Arrays *)

Lemma length_array_of xs k : length (array_of xs k) = (length xs + k)%nat.
Proof. unfold array_of. by rewrite length_app, length_fmap, length_replicate. Qed.

Lemma lookup_array_of xs k i x : xs !! i = Some x -> array_of xs k !! i = Some (Obj x).
Proof. intros H. unfold array_of. rewrite lookup_app_l by (rewrite length_fmap; by eapply lookup_lt_Some). by rewrite list_lookup_fmap, H. Qed.

Lemma to_objs_fmap xs : to_objs (Obj <$> xs) = Some xs.
Proof. induction xs as [|x xs IH]; [done|]. simpl. change (list_fmap mp_obj item Obj xs) with (Obj <$> xs). by rewrite IH. Qed.

Definition put p buf s : lists := with_arrays <[p := buf]> s.

Lemma put_id p buf s : arrays s !! p = Some buf -> put p buf s = s.
Proof. intros H. unfold put, with_arrays. rewrite insert_id by done. by destruct s. Qed.
Lemma put_put p b1 b2 s : put p b2 (put p b1 s) = put p b2 s.
Proof. unfold put, with_arrays. simpl. by rewrite insert_insert_eq. Qed.

Lemma get_array_run p buf s : arrays s !! p = Some buf -> get_array p s = Some (Ok buf, s).
Proof. intros H. unfold get_array. rewrite (X_bind_Ok _ _ s s s) by reflexivity. unfold xlift. by rewrite H. Qed.

Lemma get_list_run self l s : list_objs s !! self = Some l -> get_list self s = Some (Ok l, s).
Proof. intros H. unfold get_list. rewrite (X_bind_Ok _ _ s s s) by reflexivity. unfold xlift. by rewrite H. Qed.

Lemma read_run p buf s i n : arrays s !! p = Some buf -> 0 <= i -> 0 <= n -> i + n <= Z.of_nat (length buf) ->
  read p i n s = Some (Ok (take (Z.to_nat n) (drop (Z.to_nat i) buf)), s).
Proof.
  intros Hp Hi Hn Hl. unfold read. destruct (Z.eqb_spec n 0) as [->|]; [done|].
  rewrite (X_bind_Ok _ _ _ _ _ (get_array_run _ _ _ Hp)). replace (0 <=? i) with true by (symmetry; apply Z.leb_le; lia).
  replace (0 <=? n) with true by (symmetry; apply Z.leb_le; lia).
  by replace (i + n <=? _) with true by (symmetry; apply Z.leb_le; lia).
Qed.

(** Reading nothing needs no array. *)
Lemma read_nothing p i s : read p i 0 s = Some (Ok [], s).
Proof. done. Qed.

Lemma write_run p buf s i ys : arrays s !! p = Some buf -> 0 <= i -> i + Z.of_nat (length ys) <= Z.of_nat (length buf) ->
  write p i ys s = Some (Ok tt, put p (take (Z.to_nat i) buf ++ ys ++ drop (Z.to_nat i + length ys) buf) s).
Proof.
  intros Hp Hi Hl. unfold write. destruct ys as [|y ys].
  - simpl. rewrite Nat.add_0_r, take_drop. by rewrite put_id.
  - rewrite (X_bind_Ok _ _ _ _ _ (get_array_run _ _ _ Hp)). replace (0 <=? i) with true by (symmetry; apply Z.leb_le; lia).
    by replace (_ <=? Z.of_nat (length buf)) with true by (symmetry; apply Z.leb_le; lia).
Qed.

Lemma load_run p xs k s i x : arrays s !! p = Some (array_of xs k) -> xs !! i = Some x ->
  load_item p (Z.of_nat i) s = Some (Ok x, s).
Proof.
  intros Hp Hx. unfold load_item. rewrite (X_bind_Ok _ _ _ _ _ (get_array_run _ _ _ Hp)).
  replace (_ <? 0) with false by (symmetry; apply Z.ltb_ge; lia). by rewrite Nat2Z.id, (lookup_array_of _ _ _ _ Hx).
Qed.

(** The items of an array of objects, at natural positions. *)
Lemma store_run p xs k s i x : (i < length xs)%nat ->
  store_item p (Z.of_nat i) (Obj x) (put p (array_of xs k) s) = Some (Ok tt, put p (array_of (<[i := x]> xs) k) s).
Proof.
  intros Hi. unfold store_item. erewrite write_run; [|by apply lookup_insert_eq|lia|rewrite length_array_of; simpl; lia].
  rewrite put_put, Nat2Z.id. do 3 f_equal. simpl. unfold array_of. rewrite insert_take_drop by done. rewrite fmap_app. simpl.
  rewrite take_app_le, drop_app_le by (rewrite length_fmap; lia). rewrite fmap_take, fmap_drop, Nat.add_1_r.
  by rewrite <- app_assoc.
Qed.

Lemma store_put_nat p xs k s i x (z : Z) : z = Z.of_nat i -> (i < length xs)%nat ->
  store_item p z (Obj x) (put p (array_of xs k) s) = Some (Ok tt, put p (array_of (<[i := x]> xs) k) s).
Proof. intros ->. apply store_run. Qed.

Lemma load_put_nat p xs k s i x (z : Z) : z = Z.of_nat i -> xs !! i = Some x ->
  load_item p z (put p (array_of xs k) s) = Some (Ok x, put p (array_of xs k) s).
Proof. intros -> Hx. apply (load_run p xs k); [apply lookup_insert_eq|done]. Qed.

(** ** States that differ in one list *)

Lemma heap_ok_answers s G a : lists_ok s G -> lists_ok (with_answers a s) G.
Proof.
  intros [H1 H2 H3 H4 H5 H6 H7 H8]. constructor; try done. intros self xs Hx. destruct (H1 _ _ Hx) as (k & p & [? ? ?]). by exists k, p.
Qed.

(** The list [self] gets the contents [xs] in the array [p'], its former array [p]
    being the same or given up; other lists keep their place. *)
Lemma heap_ok_update s s' G self l p' xs k :
  lists_ok s G -> list_objs s !! self = Some l ->
  list_objs s' = <[self := MkList (Z.of_nat (length xs + k)) (Z.of_nat (length xs)) p']> (list_objs s) ->
  arrays s' = <[p' := array_of xs k]> (delete (l_items l) (arrays s)) ->
  p' = l_items l \/ p' = list_brk s -> (list_brk s <= list_brk s')%nat -> (p' < list_brk s')%nat ->
  heap_bytes s' = heap_bytes s -> 4 * Z.of_nat (length xs + k) <= heap_bytes s -> (2 <= length xs + k)%nat ->
  lists_ok s' (<[self := xs]> G).
Proof.
  intros [H1 H2 H3 H4 H5 H6 H7 H8] Hl El Ea Hp Hb Hp' Eh Hsz Hmin.
  assert (Hpos : (0 < p')%nat).
  { destruct Hp as [->| ->]; [|done]. destruct (H2 self) as [ys Hy]; [by eexists|].
    destruct (H1 _ _ Hy) as (k0 & p0 & [Ho Ha _]). rewrite Ho in Hl. simplify_eq/=. apply (H5 p0). by eexists. }
  assert (Hother : forall a la, a <> self -> list_objs s !! a = Some la -> l_items la <> l_items l /\ l_items la <> p').
  { intros a la Ha Hla. assert (l_items la <> l_items l) by (intros E; apply Ha; by eapply H3). split; [done|].
    destruct Hp as [->| ->]; [done|]. destruct (H2 a) as [ys Hy]; [by eexists|].
    destruct (H1 _ _ Hy) as (k0 & p0 & [Ho Hpa _]). rewrite Ho in Hla. simplify_eq/=. intros ->.
    specialize (H5 (list_brk s) ltac:(by eexists)). lia. }
  constructor; rewrite ?El, ?Ea, ?Eh; try done.
  - intros a ys. destruct (decide (a = self)) as [->|Hne].
    + rewrite lookup_insert_eq. intros. simplify_eq. exists k, p'. constructor; [by rewrite El, lookup_insert_eq| |done].
      by rewrite Ea, lookup_insert_eq.
    + rewrite lookup_insert_ne by done. intros Hy. destruct (H1 _ _ Hy) as (k0 & p0 & [Ho Hpa Hm]).
      destruct (Hother _ _ Hne Ho) as [Ho1 Ho2]. simpl in *. exists k0, p0. constructor; [|rewrite Ea|done].
      * by rewrite El, lookup_insert_ne.
      * by rewrite lookup_insert_ne, lookup_delete_ne.
  - intros a. destruct (decide (a = self)) as [->|Hne]; [rewrite !lookup_insert_eq; by eauto|].
    rewrite !lookup_insert_ne by done. apply H2.
  - intros a b la lb. destruct (decide (a = self)) as [->|Ha], (decide (b = self)) as [->|Hb'];
      rewrite ?lookup_insert_eq, ?lookup_insert_ne by done; intros Hla Hlb E; simplify_eq/=; try done.
    + by destruct (Hother _ _ Hb' Hlb).
    + by destruct (Hother _ _ Ha Hla).
    + by eapply H3.
  - intros a. destruct (decide (a = self)) as [->|Hne]; [|rewrite lookup_insert_ne by done; intros Ha; specialize (H4 _ Ha); lia].
    intros _. specialize (H4 self ltac:(by eexists)). lia.
  - intros q. destruct (decide (q = p')) as [->|Hne]; [lia|]. rewrite lookup_insert_ne by done.
    intros [b Hq]. apply lookup_delete_Some in Hq as [_ Hq]. specialize (H5 q ltac:(by eexists)). lia.
  - intros q b. destruct (decide (q = p')) as [->|Hne].
    + rewrite lookup_insert_eq. intros. simplify_eq. by rewrite length_array_of.
    + rewrite lookup_insert_ne by done. intros Hq. apply lookup_delete_Some in Hq as [_ Hq]. by apply (H6 q).
  - lia.
Qed.

(** A list that exists, with its representation. *)
Lemma heap_ok_list s G self xs : lists_ok s G -> G !! self = Some xs ->
  exists k p, list_rep s self xs k p /\ 4 * Z.of_nat (length xs + k) <= heap_bytes s /\ heap_bytes s < 2 ^ 30 /\ (0 < p)%nat.
Proof.
  intros Hs Hx. destruct (ho_list _ _ Hs _ _ Hx) as (k & p & Hr). exists k, p. split; [done|].
  pose proof (ho_size _ _ Hs _ _ (lr_array _ _ _ _ _ Hr)) as Hsz. rewrite length_array_of in Hsz.
  split; [done|]. split; [apply (ho_heap _ _ Hs)|]. apply (ho_brk _ _ Hs p). eexists. apply (lr_array _ _ _ _ _ Hr).
Qed.

(** The items of a list are changed in place. *)
Lemma heap_ok_put s G self xs ys k p : lists_ok s G -> list_rep s self xs k p -> length ys = length xs ->
  lists_ok (put p (array_of ys k) s) (<[self := ys]> G).
Proof.
  intros Hs [Ho Ha Hm] Hl. eapply heap_ok_update; simpl; try done.
  - rewrite Hl. symmetry. by apply insert_id.
  - simpl. by rewrite insert_delete_eq.
  - by left.
  - apply (ho_brk _ _ Hs). by eexists.
  - pose proof (ho_size _ _ Hs _ _ Ha) as Hsz. rewrite length_array_of in Hsz. by rewrite Hl.
  - by rewrite Hl.
Qed.
End Spec.

(** Memory of lists: reallocation of the items of a list and new lists. *)

Section Memory.
Context {MO : MpObj} {MC : MpCalls MO}.
Implicit Types (s : lists) (xs : list mp_obj) (buf : list item).

Lemma words_of n : (0 < n)%nat -> 4 * Z.of_nat n < 2 ^ 32 ->
  wrap 32 (OBJ_SIZE * Z.of_nat n) = 4 * Z.of_nat n /\ Z.to_nat (4 * Z.of_nat n / OBJ_SIZE) = n
  /\ (4 * Z.of_nat n =? 0) = false.
Proof.
  intros Hn Hb. unfold OBJ_SIZE. split; [by apply wrap_id; lia|]. split; [|by apply Z.eqb_neq; lia].
  rewrite Z.mul_comm, Z.div_mul by lia. lia.
Qed.

Lemma next_answer_run s : exists a, exists o, next_answer s = Some (Ok o, with_answers a s).
Proof.
  unfold next_answer. destruct (answers s) as [|o l] eqn:E; [|by eauto]. exists [], MemMove. rewrite <- E. by destruct s.
Qed.

(** ** Reallocation *)

Lemma m_renew_shrink p buf s n : (0 < p)%nat -> arrays s !! p = Some buf -> (0 < n <= length buf)%nat ->
  4 * Z.of_nat n < 2 ^ 32 -> m_renew p (Z.of_nat n) s = Some (Ok p, put p (take n buf) s).
Proof.
  intros Hp Ha Hn Hb. unfold m_renew. replace (p =? 0)%nat with false by (symmetry; apply Nat.eqb_neq; lia).
  destruct (words_of n) as (Ew & En & E0); [lia|done|]. cbv zeta. rewrite Ew, En, E0.
  rewrite (X_bind_Ok _ _ _ _ _ (get_array_run _ _ _ Ha)).
  by replace (n <=? length buf)%nat with true by (symmetry; apply Nat.leb_le; lia).
Qed.

(** The array [p] has become the array [p']. *)
Definition moved p p' buf a b s : lists :=
  with_answers a (with_brk b (with_arrays (fun m => <[p' := buf]> (delete p m)) s)).

Lemma m_renew_grow p buf s n : (0 < p)%nat -> arrays s !! p = Some buf -> (length buf < n)%nat -> 4 * Z.of_nat n < 2 ^ 32 ->
  exists a, m_renew p (Z.of_nat n) s = Some (Raise MemoryError, with_answers a s)
  \/ 4 * Z.of_nat n <= heap_bytes s /\ exists p' b, (p' = p /\ b = list_brk s \/ p' = list_brk s /\ b = S (list_brk s))
     /\ m_renew p (Z.of_nat n) s = Some (Ok p', moved p p' (buf ++ replicate (n - length buf) Undef) a b s).
Proof.
  intros Hp Ha Hn Hb. unfold m_renew. replace (p =? 0)%nat with false by (symmetry; apply Nat.eqb_neq; lia).
  destruct (words_of n) as (Ew & En & E0); [lia|done|]. cbv zeta. rewrite Ew, En, E0.
  rewrite (X_bind_Ok _ _ _ _ _ (get_array_run _ _ _ Ha)).
  replace (n <=? length buf)%nat with false by (symmetry; apply Nat.leb_gt; lia).
  destruct (next_answer_run s) as (a & o & Ho). exists a. rewrite (X_bind_Ok _ _ _ _ _ Ho).
  rewrite (X_bind_Ok xget _ _ (with_answers a s) (with_answers a s)) by reflexivity.
  destruct o; [by left|..].
  all: cbn [heap_bytes with_answers]; destruct (Z.ltb_spec (heap_bytes s) (4 * Z.of_nat n)); [by left|right; split; [lia|]].
  - exists p, (list_brk s). split; [by left|]. unfold set_array, xmodify, mbind, X_bind, mret, X_ret, moved, with_arrays, with_brk, with_answers.
    simpl. by rewrite insert_delete_eq.
  - exists (list_brk s), (S (list_brk s)). split; [by right|]. done.
Qed.

(** ** New lists *)

Definition fresh_list (n : Z) buf a s : lists :=
  with_answers a (with_brk (S (S (list_brk s)))
    (with_list_objs <[list_brk s := MkList (Z.of_nat (length buf)) n (S (list_brk s))]>
      (with_arrays <[S (list_brk s) := buf]> s))).

Lemma m_malloc_run n s : exists a,
  m_malloc n s = Some (Raise MemoryError, with_answers a s)
  \/ n <= heap_bytes s /\ m_malloc n s = Some (Ok (list_brk s), with_answers a (with_brk (S (list_brk s)) s)).
Proof.
  unfold m_malloc. destruct (next_answer_run s) as (a & o & Ho). exists a. rewrite (X_bind_Ok _ _ _ _ _ Ho).
  rewrite (X_bind_Ok xget _ _ (with_answers a s) (with_answers a s)) by reflexivity.
  destruct o; [by left|..]; cbn [heap_bytes with_answers].
  all: destruct (Z.ltb_spec (heap_bytes s) n); [by left|right; split; [lia|done]].
Qed.

Lemma m_new_run n s : (0 < n)%nat -> 4 * Z.of_nat n < 2 ^ 32 -> exists a,
  m_new (Z.of_nat n) s = Some (Raise MemoryError, with_answers a s)
  \/ 4 * Z.of_nat n <= heap_bytes s /\ m_new (Z.of_nat n) s
     = Some (Ok (list_brk s), put (list_brk s) (replicate n Undef) (with_answers a (with_brk (S (list_brk s)) s))).
Proof.
  intros Hn Hb. unfold m_new. destruct (words_of n) as (Ew & En & E0); [lia|done|]. cbv zeta. rewrite Ew, En, E0.
  destruct (m_malloc_run (4 * Z.of_nat n) s) as (a & [Hr|[Hl Hr]]); exists a.
  - left. by rewrite (X_bind_Raise _ _ _ _ _ Hr).
  - right. split; [done|]. by rewrite (X_bind_Ok _ _ _ _ _ Hr).
Qed.

Definition new_alloc (n : nat) : nat := Nat.max 4 n.

Lemma list_new_run n s : 4 * Z.of_nat n < 2 ^ 32 -> exists a,
  (exists b, (list_brk s <= b)%nat /\ list_new (Z.of_nat n) s = Some (Raise MemoryError, with_answers a (with_brk b s)))
  \/ 4 * Z.of_nat (new_alloc n) <= heap_bytes s
     /\ list_new (Z.of_nat n) s
        = Some (Ok (list_brk s), fresh_list (Z.of_nat n) (replicate n Undef ++ replicate (new_alloc n - n) Null) a s).
Proof.
  intros Hn. unfold list_new. destruct (m_malloc_run LIST_SIZE s) as (a1 & [Hr|[_ Hr]]).
  { exists a1. left. exists (list_brk s). split; [done|]. rewrite (X_bind_Raise _ _ _ _ _ Hr). by destruct s. }
  rewrite (X_bind_Ok _ _ _ _ _ Hr). cbv zeta. set (s1 := with_answers a1 (with_brk (S (list_brk s)) s)).
  replace (if Z.of_nat n <? LIST_MIN_ALLOC then LIST_MIN_ALLOC else Z.of_nat n) with (Z.of_nat (new_alloc n))
    by (unfold new_alloc, LIST_MIN_ALLOC; destruct (Z.ltb_spec (Z.of_nat n) 4); lia).
  destruct (m_new_run (new_alloc n) s1) as (a2 & [Hr2|[Hl Hr2]]); [unfold new_alloc; lia..| |].
  { exists a2. left. exists (S (list_brk s)). split; [lia|]. by rewrite (X_bind_Raise _ _ _ _ _ Hr2). }
  exists a2. right. split; [done|]. rewrite (X_bind_Ok _ _ _ _ _ Hr2).
  set (p := list_brk s1). set (s2 := with_list_objs <[list_brk s := MkList (Z.of_nat (new_alloc n)) (Z.of_nat n) p]>
    (put p (replicate (new_alloc n) Undef) (with_answers a2 (with_brk (S p) s1)))).
  rewrite (X_bind_Ok (set_list _ _) _ _ tt s2) by reflexivity.
  assert (Hc : mp_seq_clear p (Z.of_nat n) (Z.of_nat (new_alloc n)) s2
    = Some (Ok tt, put p (replicate n Undef ++ replicate (new_alloc n - n) Null) s2)).
  { unfold mp_seq_clear. erewrite write_run; [|apply lookup_insert_eq|lia|rewrite !length_replicate; unfold new_alloc; lia].
    do 3 f_equal. rewrite Nat2Z.id, length_replicate, drop_ge, app_nil_r by (rewrite length_replicate; lia).
    rewrite take_replicate. f_equal; [f_equal; unfold new_alloc; lia|]. f_equal. lia. }
  rewrite (X_bind_Ok _ _ _ _ _ Hc). unfold mret, X_ret, fresh_list. do 2 f_equal.
  subst s2 s1 p. unfold put, with_list_objs, with_arrays, with_answers, with_brk. simpl. rewrite insert_insert_eq.
  replace (length _) with (new_alloc n); [done|]. rewrite length_app, !length_replicate. unfold new_alloc. lia.
Qed.

Lemma fresh_list_array n buf a s : arrays (fresh_list n buf a s) !! S (list_brk s) = Some buf.
Proof. apply lookup_insert_eq. Qed.

Lemma fresh_list_obj n buf a s :
  list_objs (fresh_list n buf a s) !! list_brk s = Some (MkList (Z.of_nat (length buf)) n (S (list_brk s))).
Proof. apply lookup_insert_eq. Qed.

Lemma put_fresh_list n buf buf' a s : length buf' = length buf ->
  put (S (list_brk s)) buf' (fresh_list n buf a s) = fresh_list n buf' a s.
Proof. intros H. unfold put, fresh_list, with_arrays, with_answers, with_brk, with_list_objs. simpl. by rewrite insert_insert_eq, H. Qed.

Lemma heap_ok_brk s G a b : lists_ok s G -> (list_brk s <= b)%nat -> lists_ok (with_answers a (with_brk b s)) G.
Proof.
  intros [H1 H2 H3 H4 H5 H6 H7 H8] Hb. constructor; simpl; try done; try lia.
  - intros self xs Hx. destruct (H1 _ _ Hx) as (k & p & [? ? ?]). by exists k, p.
  - intros self Hs. specialize (H4 _ Hs). lia.
  - intros p Hp. specialize (H5 _ Hp). lia.
Qed.

Lemma fresh_none s G : lists_ok s G -> G !! list_brk s = None.
Proof.
  intros Hs. apply eq_None_not_Some. intros [ys Hy]. destruct (ho_list _ _ Hs _ _ Hy) as (k & p & [Ho _ _]).
  pose proof (ho_obj_brk _ _ Hs (list_brk s) ltac:(by eexists)). lia.
Qed.

Lemma heap_ok_fresh s G xs k a : lists_ok s G -> 4 * Z.of_nat (length xs + k) <= heap_bytes s -> (2 <= length xs + k)%nat ->
  lists_ok (fresh_list (Z.of_nat (length xs)) (array_of xs k) a s) (<[list_brk s := xs]> G).
Proof.
  intros Hs Hsz Hmin. pose proof (fresh_none _ _ Hs) as Hnone. destruct Hs as [H1 H2 H3 H4 H5 H6 H7 H8].
  assert (Hob : forall a la, list_objs s !! a = Some la -> l_items la <> S (list_brk s) /\ a <> list_brk s).
  { intros o la Ho. destruct (H2 o) as [ys Hy]; [by eexists|]. destruct (H1 _ _ Hy) as (k0 & p0 & [Hl Hp _]).
    rewrite Hl in Ho. simplify_eq/=. specialize (H5 p0 ltac:(by eexists)). specialize (H4 o ltac:(by eexists)). lia. }
  constructor; simpl; try done; try lia.
  - intros o ys. destruct (decide (o = list_brk s)) as [->|Hne].
    + rewrite lookup_insert_eq. intros. simplify_eq. exists k, (S (list_brk s)). constructor; simpl; [|by rewrite lookup_insert_eq|done].
      by rewrite lookup_insert_eq, length_array_of.
    + rewrite lookup_insert_ne by done. intros Hy. destruct (H1 _ _ Hy) as (k0 & p0 & [Hl Hp Hm]).
      specialize (Hob _ _ Hl) as [Hne' _]. simpl in Hne'. exists k0, p0. constructor; simpl; [..|done]; by rewrite lookup_insert_ne.
  - intros o. destruct (decide (o = list_brk s)) as [->|Hne]; [rewrite !lookup_insert_eq; by eauto|].
    rewrite !lookup_insert_ne by done. apply H2.
  - intros o1 o2 l1 l2. destruct (decide (o1 = list_brk s)) as [->|N1], (decide (o2 = list_brk s)) as [->|N2];
      rewrite ?lookup_insert_eq, ?lookup_insert_ne by done; intros Hl1 Hl2 E; simplify_eq/=; try done.
    + by destruct (Hob _ _ Hl2).
    + by destruct (Hob _ _ Hl1).
    + by eapply H3.
  - intros o. destruct (decide (o = list_brk s)) as [->|Hne]; [lia|]. rewrite lookup_insert_ne by done.
    intros Ho. specialize (H4 _ Ho). lia.
  - intros q. destruct (decide (q = S (list_brk s))) as [->|Hne]; [lia|]. rewrite lookup_insert_ne by done.
    intros Hq. specialize (H5 _ Hq). lia.
  - intros q b. destruct (decide (q = S (list_brk s))) as [->|Hne].
    + rewrite lookup_insert_eq. intros. simplify_eq. by rewrite length_array_of.
    + rewrite lookup_insert_ne by done. apply H6.
Qed.
End Memory.
