(* ===== verification/ObjListOps.v ===== *)
(** The operations on one list: what they do to its items, and that they leave the
    other lists alone. *)
From S2P Require Import Prelude PyExn Map ObjSeq ObjList ObjListSpec.

Section Ops.
Context {MO : MpObj} {MC : MpCalls MO}.
Implicit Types (s : lists) (xs : list mp_obj) (buf : list item) (x : mp_obj).

(** ** A list while it is worked on

    The list [self] has its fields and the array [p'] with [buf]; its array was
    [old] in the state [s]. *)
Definition opened self alloc len p' buf old a b s : lists :=
  with_answers a (with_brk b (with_list_objs <[self := MkList alloc len p']>
    (with_arrays (fun m => <[p' := buf]> (delete old m)) s))).

Lemma opened_start s self xs k p : list_rep s self xs k p ->
  s = opened self (Z.of_nat (length xs + k)) (Z.of_nat (length xs)) p (array_of xs k) p (answers s) (list_brk s) s.
Proof.
  intros [Ho Ha _]. unfold opened, with_answers, with_brk, with_list_objs, with_arrays. simpl.
  rewrite insert_delete_eq, !insert_id by done. by destruct s.
Qed.

Lemma get_list_opened self alloc len p' buf old a b s :
  get_list self (opened self alloc len p' buf old a b s) = Some (Ok (MkList alloc len p'), opened self alloc len p' buf old a b s).
Proof. apply get_list_run, lookup_insert_eq. Qed.

Lemma set_len_opened n self alloc len p' buf old a b s :
  set_list_len self n (opened self alloc len p' buf old a b s) = Some (Ok tt, opened self alloc n p' buf old a b s).
Proof.
  unfold set_list_len. rewrite (X_bind_Ok _ _ _ _ _ (get_list_opened _ _ _ _ _ _ _ _ _)).
  unfold set_list, xmodify, opened, with_list_objs, with_answers, with_brk, with_arrays. simpl. by rewrite insert_insert_eq.
Qed.

Lemma set_alloc_opened n self alloc len p' buf old a b s :
  set_alloc self n (opened self alloc len p' buf old a b s) = Some (Ok tt, opened self n len p' buf old a b s).
Proof.
  unfold set_alloc. rewrite (X_bind_Ok _ _ _ _ _ (get_list_opened _ _ _ _ _ _ _ _ _)).
  unfold set_list, xmodify, opened, with_list_objs, with_answers, with_brk, with_arrays. simpl. by rewrite insert_insert_eq.
Qed.

Lemma array_opened self alloc len p' buf old a b s : arrays (opened self alloc len p' buf old a b s) !! p' = Some buf.
Proof. apply lookup_insert_eq. Qed.

Lemma put_opened buf' self alloc len p' buf old a b s :
  put p' buf' (opened self alloc len p' buf old a b s) = opened self alloc len p' buf' old a b s.
Proof. unfold put, opened, with_list_objs, with_answers, with_brk, with_arrays. simpl. by rewrite insert_insert_eq. Qed.

Lemma write_opened ys i buf' self alloc len p' buf old a b s : 0 <= i ->
  i + Z.of_nat (length ys) <= Z.of_nat (length buf) -> buf' = take (Z.to_nat i) buf ++ ys ++ drop (Z.to_nat i + length ys) buf ->
  write p' i ys (opened self alloc len p' buf old a b s) = Some (Ok tt, opened self alloc len p' buf' old a b s).
Proof. intros Hi Hl ->. rewrite (write_run p' buf) by (done || apply array_opened). by rewrite put_opened. Qed.

Lemma read_opened i n self alloc len p' buf old a b s : 0 <= i -> 0 <= n -> i + n <= Z.of_nat (length buf) ->
  read p' i n (opened self alloc len p' buf old a b s)
  = Some (Ok (take (Z.to_nat n) (drop (Z.to_nat i) buf)), opened self alloc len p' buf old a b s).
Proof. intros. apply read_run; [apply array_opened|done..]. Qed.

Lemma load_opened i x xs k self alloc len p' old a b s : xs !! i = Some x ->
  load_item p' (Z.of_nat i) (opened self alloc len p' (array_of xs k) old a b s)
  = Some (Ok x, opened self alloc len p' (array_of xs k) old a b s).
Proof. intros. eapply load_run; [apply array_opened|done]. Qed.

Lemma store_opened i x xs k self alloc len p' old a b s : (i < length xs)%nat ->
  store_item p' (Z.of_nat i) (Obj x) (opened self alloc len p' (array_of xs k) old a b s)
  = Some (Ok tt, opened self alloc len p' (array_of (<[i := x]> xs) k) old a b s).
Proof.
  intros. rewrite <- (put_opened (array_of xs k) self alloc len p' (array_of xs k)). rewrite store_run by done.
  by rewrite !put_opened.
Qed.

(** Work on a list is finished when its fields and its array agree. *)
Lemma heap_ok_opened s G self xs0 k0 p xs k p' a b : lists_ok s G -> list_rep s self xs0 k0 p ->
  p' = p /\ b = list_brk s \/ p' = list_brk s /\ b = S (list_brk s) ->
  4 * Z.of_nat (length xs + k) <= heap_bytes s -> (2 <= length xs + k)%nat ->
  lists_ok (opened self (Z.of_nat (length xs + k)) (Z.of_nat (length xs)) p' (array_of xs k) p a b s) (<[self := xs]> G).
Proof.
  intros Hs [Ho Ha _] Hp Hsz Hm. eapply heap_ok_update; try done.
  - simpl. destruct Hp as [[-> _]|[-> _]]; auto.
  - simpl. destruct Hp as [[_ ->]|[_ ->]]; lia.
  - simpl. destruct Hp as [[-> ->]|[-> ->]]; [|lia]. apply (ho_brk _ _ Hs). by eexists.
Qed.

(** Growth of the array of a list: [m_renew], then the new array and its size are
    stored. *)
Lemma grow_run {A} (f : nat -> X lists A) s G self xs k p n : lists_ok s G -> list_rep s self xs k p ->
  (length xs + k < n)%nat -> 4 * Z.of_nat n < 2 ^ 32 ->
  exists a,
  (p' ← m_renew p (Z.of_nat n); set_items self p';; set_alloc self (Z.of_nat n);; f p') s
  = Some (Raise MemoryError, with_answers a s)
  \/ 4 * Z.of_nat n <= heap_bytes s /\ exists p' b, (p' = p /\ b = list_brk s \/ p' = list_brk s /\ b = S (list_brk s))
     /\ (p' ← m_renew p (Z.of_nat n); set_items self p';; set_alloc self (Z.of_nat n);; f p') s
        = f p' (opened self (Z.of_nat n) (Z.of_nat (length xs)) p' (array_of xs k ++ replicate (n - (length xs + k)) Undef) p a b s).
Proof.
  intros Hs Hr Hn Hb. destruct Hr as [Ho Ha Hm].
  assert (Hp : (0 < p)%nat) by (apply (ho_brk _ _ Hs); by eexists).
  destruct (m_renew_grow p _ s n Hp Ha) as (a & [Hf|(Hsz & p' & b & Hp' & Hr)]); [by rewrite length_array_of|done|..]; exists a.
  - left. by rewrite (X_bind_Raise _ _ _ _ _ Hf).
  - right. split; [done|]. exists p', b. split; [done|]. rewrite (X_bind_Ok _ _ _ _ _ Hr). clear Hr.
    set (s1 := moved p p' _ a b s). assert (Hl : list_objs s1 !! self = list_objs s !! self) by done. rewrite Ho in Hl.
    set (l' := MkList (Z.of_nat (length xs + k)) (Z.of_nat (length xs)) p').
    assert (Hi : set_items self p' s1 = Some (Ok tt, with_list_objs <[self := l']> s1)).
    { unfold set_items. by rewrite (X_bind_Ok _ _ _ _ _ (get_list_run _ _ _ Hl)). }
    rewrite (X_bind_Ok _ _ _ _ _ Hi).
    assert (E : with_list_objs <[self := l']> s1
      = opened self (Z.of_nat (length xs + k)) (Z.of_nat (length xs)) p'
          (array_of xs k ++ replicate (n - (length xs + k)) Undef) p a b s).
    { subst s1 l'. unfold moved, opened. by rewrite length_array_of. }
    rewrite E, (X_bind_Ok _ _ _ _ _ (set_alloc_opened _ _ _ _ _ _ _ _ _ _)). done.
Qed.

(** ** Append and extend *)

Lemma array_of_app xs ys k : array_of (xs ++ ys) k = (Obj <$> xs) ++ (Obj <$> ys) ++ replicate k Null.
Proof. unfold array_of. by rewrite fmap_app, <- app_assoc. Qed.

Lemma array_of_0 xs : array_of xs 0 = Obj <$> xs.
Proof. unfold array_of. apply app_nil_r. Qed.

(** The last two steps of an append, when there is room. *)
Lemma append_tail self xs k x alloc p' u old a b s s1 :
  s1 = opened self alloc (Z.of_nat (length xs)) p' ((Obj <$> xs) ++ u :: replicate k Null) old a b s ->
  (l ← get_list self; store_item (l_items l) (l_len l) (Obj x);; set_list_len self (wrap 32 (l_len l + 1))) s1
  = Some (Ok tt, opened self alloc (wrap 32 (Z.of_nat (length xs) + 1)) p' (array_of (xs ++ [x]) k) old a b s).
Proof.
  intros ->. rewrite (X_bind_Ok _ _ _ _ _ (get_list_opened _ _ _ _ _ _ _ _ _)). cbn [l_items l_len].
  assert (Hw : store_item p' (Z.of_nat (length xs)) (Obj x)
      (opened self alloc (Z.of_nat (length xs)) p' ((Obj <$> xs) ++ u :: replicate k Null) old a b s)
    = Some (Ok tt, opened self alloc (Z.of_nat (length xs)) p' (array_of (xs ++ [x]) k) old a b s)).
  { apply write_opened; [lia|rewrite length_app, length_fmap; simpl; lia|]. rewrite Nat2Z.id, array_of_app.
    rewrite take_app_length' by by rewrite length_fmap. rewrite drop_app, drop_ge by (rewrite length_fmap; simpl; lia).
    rewrite length_fmap. replace (length xs + length [Obj x] - length xs)%nat with 1%nat by (simpl; lia). done. }
  rewrite (X_bind_Ok _ _ _ _ _ Hw). apply set_len_opened.
Qed.

(** How an operation on [self] ends: it returns [r], the items are [ys]. *)
Lemma finish_ok {A} s G self xs k0 p ys k alloc len p' a b (r : res A) (Q : res A -> gmap nat (list mp_obj) -> Prop) :
  lists_ok s G -> list_rep s self xs k0 p -> p' = p /\ b = list_brk s \/ p' = list_brk s /\ b = S (list_brk s) ->
  4 * Z.of_nat (length ys + k) <= heap_bytes s -> (2 <= length ys + k)%nat ->
  alloc = Z.of_nat (length ys + k) -> len = Z.of_nat (length ys) -> Q r (<[self := ys]> G) ->
  exists r' s' G', Some (r, opened self alloc len p' (array_of ys k) p a b s) = Some (r', s') /\ lists_ok s' G' /\ Q r' G'.
Proof. intros Hs Hr Hp Hsz Hm -> -> HQ. eexists _, _, _. split; [done|]. split; [by eapply heap_ok_opened|done]. Qed.

Lemma no_memory_ok {A} s G a (Q : res A -> gmap nat (list mp_obj) -> Prop) : lists_ok s G ->
  exists r s' G', Some (Raise MemoryError, with_answers a s) = Some (r, s') /\ lists_ok s' G' /\ or_no_memory G Q r G'.
Proof. intros Hs. eexists _, _, G. split; [done|]. split; [by apply heap_ok_answers|by right]. Qed.

(** The state after an append. *)
Lemma append_run s G self xs k p x : lists_ok s G -> list_rep s self xs k p ->
  4 * Z.of_nat (length xs + k) <= heap_bytes s -> heap_bytes s < 2 ^ 30 -> exists a,
  mp_obj_list_append self x s = Some (Raise MemoryError, with_answers a s)
  \/ exists k' p' b, (p' = p /\ b = list_brk s \/ p' = list_brk s /\ b = S (list_brk s))
     /\ 4 * Z.of_nat (length (xs ++ [x]) + k') <= heap_bytes s /\ (2 <= length (xs ++ [x]) + k')%nat
     /\ mp_obj_list_append self x s = Some (Ok tt, opened self (Z.of_nat (length (xs ++ [x]) + k')) (Z.of_nat (length (xs ++ [x]))) p'
          (array_of (xs ++ [x]) k') p a b s).
Proof.
  intros Hs Hr Hsz Hheap. pose proof Hr as [Ho Ha Hm].
  unfold mp_obj_list_append. rewrite (X_bind_Ok _ _ _ _ _ (get_list_run _ _ _ Ho)). cbn [l_alloc l_len l_items].
  assert (Hlen : length (xs ++ [x]) = S (length xs)) by (rewrite length_app; simpl; lia).
  replace (Z.of_nat (length (xs ++ [x]))) with (wrap 32 (Z.of_nat (length xs) + 1)) by (rewrite wrap_id; lia).
  destruct (Z.leb_spec (Z.of_nat (length xs + k)) (Z.of_nat (length xs))) as [Hfull|Hroom].
  - assert (k = 0)%nat as -> by lia. rewrite Nat.add_0_r in *. set (n := (2 * length xs)%nat).
    replace (wrap 32 (Z.of_nat (length xs) * 2)) with (Z.of_nat n) by (rewrite wrap_id; lia).
    destruct (grow_run (fun p => mp_seq_clear p (Z.of_nat (length xs) + 1) (Z.of_nat n)) s G self xs 0 p n Hs Hr)
      as (a & [Hf|(Hk & p' & b & Hp' & Hf)]); [lia..| |].
    + exists a. left. by rewrite (X_bind_Raise _ _ _ _ _ Hf).
    + assert (Hc : mp_seq_clear p' (Z.of_nat (length xs) + 1) (Z.of_nat n)
          (opened self (Z.of_nat n) (Z.of_nat (length xs)) p' (array_of xs 0 ++ replicate (n - (length xs + 0)) Undef) p a b s)
        = Some (Ok tt, opened self (Z.of_nat n) (Z.of_nat (length xs)) p'
            ((Obj <$> xs) ++ Undef :: replicate (n - length xs - 1) Null) p a b s)).
      { rewrite array_of_0. apply write_opened; [lia|rewrite length_app, length_fmap, !length_replicate; lia|].
        rewrite length_replicate, drop_ge, app_nil_r by (rewrite length_app, length_fmap, length_replicate; lia).
        replace (n - (length xs + 0))%nat with (S (n - length xs - 1)) by lia. cbn [replicate].
        rewrite (cons_middle Undef), (cons_middle Undef), !app_assoc. rewrite take_app_length' by (rewrite length_app, length_fmap; simpl; lia).
        f_equal. f_equal. lia. }
      rewrite (X_bind_Ok _ _ _ _ _ (eq_trans Hf Hc)). erewrite append_tail by done.
      exists a. right. exists (n - length xs - 1)%nat, p', b.
      replace (length (xs ++ [x]) + (n - length xs - 1))%nat with n by lia. repeat (split; [done || lia|]). done.
  - destruct k as [|k]; [lia|]. rewrite (X_bind_Ok _ _ s tt s) by done.
    rewrite (append_tail _ _ k _ _ _ _ _ _ _ _ _ (opened_start s self xs (S k) p Hr)). exists (answers s). right.
    exists k, p, (list_brk s). replace (length (xs ++ [x]) + k)%nat with (length xs + S k)%nat by lia.
    split; [by left|]. repeat (split; [done || lia|]). done.
Qed.

Lemma append_ok G self xs x : G !! self = Some xs ->
  implements (mp_obj_list_append self x) G (or_no_memory G (fun r G' => r = Ok tt /\ G' = <[self := xs ++ [x]]> G)).
Proof.
  intros HG s Hs. destruct (heap_ok_list _ _ _ _ Hs HG) as (k & p & Hr & Hsz & Hheap & _).
  destruct (append_run s G self xs k p x Hs Hr Hsz Hheap) as (a & [H|(k' & p' & b & Hp & Hk & Hk2 & H)]); rewrite H.
  - by apply no_memory_ok.
  - eapply (finish_ok s G self xs k p (xs ++ [x])); try done. by left.
Qed.

(** Other lists stay where they are. *)
Lemma opened_frame s G self xs k p alloc len p' buf a b other ys k2 q :
  lists_ok s G -> list_rep s self xs k p -> p' = p /\ b = list_brk s \/ p' = list_brk s /\ b = S (list_brk s) ->
  other <> self -> list_rep s other ys k2 q -> list_rep (opened self alloc len p' buf p a b s) other ys k2 q.
Proof.
  intros Hs [Ho Ha _] Hp Hne [Ho2 Ha2 Hm2].
  assert (q <> p) by (intros ->; apply Hne; eapply (ho_inj _ _ Hs); done).
  assert (q <> p') by (pose proof (ho_brk _ _ Hs q ltac:(by eexists)); destruct Hp as [[-> _]|[-> _]]; [done|lia]).
  constructor; simpl; [by rewrite lookup_insert_ne| |done]. by rewrite lookup_insert_ne, lookup_delete_ne.
Qed.

(** The items of any list while [self] is worked on. *)
Lemma items_opened s G self xs0 k0 p xs rest alloc p' a b arg ys :
  lists_ok s G -> list_rep s self xs0 k0 p -> p' = p /\ b = list_brk s \/ p' = list_brk s /\ b = S (list_brk s) ->
  (if decide (arg = self) then ys = xs else G !! arg = Some ys) ->
  let st := opened self alloc (Z.of_nat (length xs)) p' ((Obj <$> xs) ++ rest) p a b s in
  exists la q, get_list arg st = Some (Ok (MkList la (Z.of_nat (length ys)) q), st)
    /\ (forall alloc' buf a' b', length ys = 0%nat \/ q <> p' \/ take (length ys) buf = Obj <$> ys ->
       read q 0 (Z.of_nat (length ys)) (opened self alloc' (Z.of_nat (length xs)) p' buf p a' b' s)
       = Some (Ok (Obj <$> ys), opened self alloc' (Z.of_nat (length xs)) p' buf p a' b' s))
    /\ (arg = self -> q = p') /\ (arg <> self -> q <> p').
Proof.
  intros Hs [Ho Ha Hm] Hp Hy st. destruct (decide (arg = self)) as [->|Hne].
  - subst ys. exists alloc, p'. split; [apply get_list_opened|]. split; [|done]. intros alloc' buf a' b' Hbuf.
    destruct (decide (length xs = 0%nat)) as [E|E].
    { destruct xs; [|done]. apply read_nothing. }
    destruct Hbuf as [?|[?|Hbuf]]; [done..|]. rewrite read_opened; [|lia..|].
    + by rewrite Nat2Z.id, drop_0, Hbuf.
    + apply (f_equal length) in Hbuf. rewrite length_take, length_fmap in Hbuf. lia.
  - destruct (ho_list _ _ Hs _ _ Hy) as (k2 & q & [Ho2 Ha2 Hm2]). exists (Z.of_nat (length ys + k2)), q.
    assert (Hq : q <> p /\ q <> p').
    { assert (q <> p) by (intros ->; apply Hne; eapply (ho_inj _ _ Hs); try done). split; [done|].
      pose proof (ho_brk _ _ Hs q ltac:(by eexists)). destruct Hp as [[-> _]|[-> _]]; [done|lia]. }
    split; [apply get_list_run; unfold st, opened; simpl; by rewrite lookup_insert_ne|].
    destruct Hq as [Hq1 Hq2]. split; [|by split; [intros ->|]].
    intros alloc' buf a' b' _. rewrite (read_run q (array_of ys k2)).
    + rewrite Nat2Z.id, drop_0. unfold array_of. by rewrite take_app_length' by by rewrite length_fmap.
    + unfold opened. simpl. by rewrite lookup_insert_ne, lookup_delete_ne by done.
    + done.
    + lia.
    + rewrite length_array_of. lia.
Qed.

Lemma memcpy_run dest i src j n (its : list item) s s' : (dest = src -> n = 0 \/ i + n <= j \/ j + n <= i) -> 0 <= n ->
  read src j n s = Some (Ok its, s') -> memcpy dest i src j n s = write dest i its s'.
Proof.
  intros Hd Hn Hr. unfold memcpy.
  destruct ((dest =? src)%nat && (i <? j + n) && (j <? i + n)) eqn:E; [|by unfold memmove; rewrite (X_bind_Ok _ _ _ _ _ Hr)].
  bool_to_prop. specialize (Hd ltac:(done)). destruct Hd as [->|[?|?]]; lia.
Qed.

(** The last steps of [extend], when there is room for [ys]. *)
Lemma extend_tail s G self xs k0 p xs0 k alloc p' us a b arg ys s1 :
  lists_ok s G -> list_rep s self xs0 k0 p -> p' = p /\ b = list_brk s \/ p' = list_brk s /\ b = S (list_brk s) ->
  (if decide (arg = self) then ys = xs else G !! arg = Some ys) -> length us = length ys ->
  s1 = opened self alloc (Z.of_nat (length xs)) p' ((Obj <$> xs) ++ us ++ replicate k Null) p a b s ->
  (l ← get_list self; a ← get_list arg; memcpy (l_items l) (l_len l) (l_items a) 0 (l_len a);;
   set_list_len self (wrap 32 (l_len l + l_len a))) s1
  = Some (Ok tt, opened self alloc (wrap 32 (Z.of_nat (length xs) + Z.of_nat (length ys))) p' (array_of (xs ++ ys) k) p a b s).
Proof.
  intros Hs Hr Hp Hy Hus ->. rewrite (X_bind_Ok _ _ _ _ _ (get_list_opened _ _ _ _ _ _ _ _ _)). cbn [l_items l_len].
  destruct (items_opened s G self xs0 k0 p xs (us ++ replicate k Null) alloc p' a b arg ys Hs Hr Hp Hy)
    as (la & q & Hg & Hread & Hself & Hdiff).
  rewrite (X_bind_Ok _ _ _ _ _ Hg). cbn [l_items l_len].
  assert (Hw : memcpy p' (Z.of_nat (length xs)) q 0 (Z.of_nat (length ys))
      (opened self alloc (Z.of_nat (length xs)) p' ((Obj <$> xs) ++ us ++ replicate k Null) p a b s)
    = Some (Ok tt, opened self alloc (Z.of_nat (length xs)) p' (array_of (xs ++ ys) k) p a b s)).
  { assert (Hself' : p' = q -> ys = xs \/ ys = []).
    { intros E. destruct (decide (arg = self)); [by left|]. by destruct (Hdiff n). }
    erewrite memcpy_run; [| |lia|apply Hread].
    - apply write_opened; [lia|rewrite !length_app, !length_fmap; lia|]. rewrite Nat2Z.id, array_of_app.
      rewrite take_app_length' by by rewrite length_fmap. f_equal. f_equal. symmetry. rewrite (app_assoc _ us).
      apply drop_app_length'. rewrite length_app, !length_fmap. lia.
    - intros E. destruct (Hself' E) as [->| ->]; simpl; lia.
    - destruct (decide (q = p')) as [E|E]; [|auto]. destruct (Hself' (eq_sym E)) as [->| ->]; [|auto].
      right. right. by rewrite take_app_length' by by rewrite length_fmap. }
  rewrite (X_bind_Ok _ _ _ _ _ Hw). apply set_len_opened.
Qed.

Lemma extend_ok G self arg xs ys : G !! self = Some xs -> G !! arg = Some ys ->
  implements (list_extend self arg) G (or_no_memory G (fun r G' => r = Ok tt /\ G' = <[self := xs ++ ys]> G)).
Proof.
  intros HG Hy s Hs. destruct (heap_ok_list _ _ _ _ Hs HG) as (k & p & Hr & Hsz & Hheap & _). pose proof Hr as [Ho Ha Hm].
  destruct (heap_ok_list _ _ _ _ Hs Hy) as (ky & py & Hry & Hszy & _). pose proof Hry as [Hoy _ _].
  assert (Hy' : if decide (arg = self) then ys = xs else G !! arg = Some ys) by (case_decide; [subst; congruence|done]).
  unfold list_extend. rewrite (X_bind_Ok _ _ _ _ _ (get_list_run _ _ _ Ho)), (X_bind_Ok _ _ _ _ _ (get_list_run _ _ _ Hoy)).
  cbn [l_alloc l_len l_items].
  replace (wrap 32 (Z.of_nat (length xs) + Z.of_nat (length ys))) with (Z.of_nat (length xs + length ys)) by (rewrite wrap_id; lia).
  destruct (Z.ltb_spec (Z.of_nat (length xs + k)) (Z.of_nat (length xs + length ys))) as [Hfull|Hroom].
  - set (n := (length xs + length ys + 4)%nat).
    replace (wrap 32 (Z.of_nat (length xs) + Z.of_nat (length ys) + 4)) with (Z.of_nat n) by (rewrite wrap_id; lia).
    destruct (grow_run (fun p => mp_seq_clear p (Z.of_nat (length xs) + Z.of_nat (length ys)) (Z.of_nat n)) s G self xs k p n Hs Hr)
      as (a & [Hf|(Hk & p' & b & Hp' & Hf)]); [lia..| |].
    + rewrite (X_bind_Raise _ _ _ _ _ Hf). by apply no_memory_ok.
    + assert (Hc : mp_seq_clear p' (Z.of_nat (length xs) + Z.of_nat (length ys)) (Z.of_nat n)
          (opened self (Z.of_nat n) (Z.of_nat (length xs)) p' (array_of xs k ++ replicate (n - (length xs + k)) Undef) p a b s)
        = Some (Ok tt, opened self (Z.of_nat n) (Z.of_nat (length xs)) p'
            ((Obj <$> xs) ++ (replicate k Null ++ replicate (length ys - k) Undef) ++ replicate 4 Null) p a b s)).
      { replace (array_of xs k ++ replicate (n - (length xs + k)) Undef)
          with (((Obj <$> xs) ++ replicate k Null ++ replicate (length ys - k) Undef) ++ replicate 4 Undef)
          by (unfold array_of; rewrite <- !app_assoc, <- replicate_add; do 3 f_equal; lia).
        apply write_opened; [lia|rewrite !length_app, length_fmap, !length_replicate; lia|].
        rewrite take_app_length', drop_ge, app_nil_r
          by (rewrite !length_app, length_fmap, !length_replicate; lia).
        rewrite <- !app_assoc. do 4 f_equal. lia. }
      rewrite (X_bind_Ok _ _ _ _ _ (eq_trans Hf Hc)).
      erewrite (extend_tail s G self xs k p xs 4 _ p' (replicate k Null ++ replicate (length ys - k) Undef));
        [|done..|rewrite length_app, !length_replicate; lia|done].
      eapply (finish_ok s G self xs k p (xs ++ ys)); rewrite ?length_app; try (done || lia); [rewrite wrap_id; lia|by left].
  - rewrite (X_bind_Ok _ _ s tt s) by done.
    erewrite (extend_tail s G self xs k p xs (k - length ys) _ p (replicate (length ys) Null));
      [|done..|by left|done|by rewrite length_replicate|].
    2:{ rewrite <- replicate_add. replace (length ys + (k - length ys))%nat with k by lia. by apply opened_start. }
    eapply (finish_ok s G self xs k p (xs ++ ys)); rewrite ?length_app; try (done || lia); [rewrite wrap_id; lia|by left].
Qed.
End Ops.
