(* ===== verification/ObjListEdit.v ===== *)
(** Removal, insertion, reversal and single items of a list. *)
From Stdlib Require Import ZifyBool.
From S2P Require Import Prelude PyExn Map ObjSeq ObjList ObjListSpec ObjListOps.

(** ** Positions *)

(** The position that an index of an item means. *)
Definition py_position (len : nat) (index : py_index) : res nat :=
  match index with
  | IdxInt z =>
      if in_int z then
        let i := if z <? 0 then z + Z.of_nat len else z in
        if (0 <=? i) && (i <? Z.of_nat len) then Ok (Z.to_nat i) else Raise IndexError
      else Raise OverflowError
  | _ => Raise TypeError
  end.

(** A position for a search or an insertion: kept within the list. *)
Definition py_clamp (len : nat) (z : Z) : nat :=
  Z.to_nat (Z.min (Z.of_nat len) (Z.max 0 (if z <? 0 then z + Z.of_nat len else z))).

Definition map_res {A B} (f : A -> B) (r : res A) : res B := match r with Ok a => Ok (f a) | Raise e => Raise e end.

Lemma get_index_item len index : Z.of_nat len < 2 ^ 31 ->
  mp_get_index (Z.of_nat len) index false = map_res Z.of_nat (py_position len index).
Proof.
  intros Hl. destruct index as [|z|]; try done. unfold mp_get_index, py_position, in_int.
  destruct ((- 2 ^ 31 <=? z) && (z <? 2 ^ 31)) eqn:E; [|done]. cbv zeta.
  assert (Ei : (if z <? 0 then swrap 32 (z + Z.of_nat len) else z) = (if z <? 0 then z + Z.of_nat len else z))
    by (destruct (Z.ltb_spec z 0); [rewrite swrap32; lia|done]).
  rewrite Ei. set (i := if z <? 0 then _ else _). destruct ((0 <=? i) && (i <? Z.of_nat len)) eqn:E2; simpl.
  - replace ((i <? 0) || (Z.of_nat len <=? i)) with false by lia. f_equal. lia.
  - by replace ((i <? 0) || (Z.of_nat len <=? i)) with true by lia.
Qed.

Lemma get_index_slice len z : Z.of_nat len < 2 ^ 31 ->
  mp_get_index (Z.of_nat len) (IdxInt z) true = if in_int z then Ok (Z.of_nat (py_clamp len z)) else Raise OverflowError.
Proof.
  intros Hl. unfold mp_get_index, py_clamp, in_int. destruct ((- 2 ^ 31 <=? z) && (z <? 2 ^ 31)) eqn:E; [|done]. cbv zeta.
  f_equal. destruct (Z.ltb_spec z 0); [rewrite swrap32 by lia|]; case_conditions; lia.
Qed.

Lemma py_position_lt len index i : py_position len index = Ok i -> (i < len)%nat.
Proof. unfold py_position. intros H. repeat case_match; simplify_eq; lia. Qed.

Section Edit.
Context {MO : MpObj} {MC : MpCalls MO}.
Implicit Types (s : lists) (xs : list mp_obj) (x : mp_obj).

Ltac step H := rewrite (X_bind_Ok _ _ _ _ _ H).
Ltac step_list H := step (get_list_run _ _ _ H); cbn [l_alloc l_len l_items].

(** ** Removal *)

(** [list.pop] of a sequence. *)
Definition py_pop xs (index : option py_index) : res (mp_obj * list mp_obj) :=
  if decide (xs = []) then Raise IndexError
  else match py_position (length xs) (default (IdxInt (-1)) index) with
       | Ok i => match xs !! i with Some x => Ok (x, delete i xs) | None => Raise IndexError end
       | Raise e => Raise e
       end.

(** The result of a function that gives a list new contents. *)
Definition with_items {A} G self (r : res (A * list mp_obj)) : res A * gmap nat (list mp_obj) :=
  match r with Ok (a, ys) => (Ok a, <[self := ys]> G) | Raise e => (Raise e, G) end.

Lemma array_of_delete xs i k x : xs !! i = Some x ->
  take i (array_of xs k) ++ drop (S i) (Obj <$> xs) ++ Null :: replicate k Null = array_of (delete i xs) (S k).
Proof.
  intros Hx. apply lookup_lt_Some in Hx. unfold array_of. rewrite delete_take_drop, fmap_app, fmap_take, fmap_drop.
  rewrite take_app_le by (rewrite length_fmap; lia). by rewrite <- app_assoc.
Qed.

(** The removal itself: the items after it move down and the last slot is cleared. *)
Lemma remove_slot self xs k i x alloc p old a b s : xs !! i = Some x ->
  let len' := Z.of_nat (length xs) - 1 in
  let st := opened self alloc len' p (array_of xs k) old a b s in
  (memmove p (Z.of_nat i) p (Z.of_nat i + 1) (len' - Z.of_nat i);; store_item p len' Null) st
  = Some (Ok tt, opened self alloc len' p (array_of (delete i xs) (S k)) old a b s).
Proof.
  intros Hx len' st. pose proof (lookup_lt_Some _ _ _ Hx) as Hi.
  assert (Hlen : length (array_of xs k) = (length xs + k)%nat) by apply length_array_of.
  set (n := (length xs - 1 - i)%nat). set (tail := drop (S i) (Obj <$> xs) : list item).
  assert (Hr : read p (Z.of_nat i + 1) (len' - Z.of_nat i) st = Some (Ok tail, st)).
  { subst st. rewrite read_opened by lia. do 3 f_equal. replace (Z.to_nat (Z.of_nat i + 1)) with (S i) by lia.
    unfold array_of, tail. rewrite drop_app_le by (rewrite length_fmap; lia).
    apply take_app_length'. rewrite length_drop, length_fmap. lia. }
  assert (Htail : length tail = n) by (unfold tail; rewrite length_drop, length_fmap; lia).
  assert (Hw : memmove p (Z.of_nat i) p (Z.of_nat i + 1) (len' - Z.of_nat i) st
    = Some (Ok tt, opened self alloc len' p (take i (array_of xs k) ++ tail ++ drop (length xs - 1) (array_of xs k)) old a b s)).
  { unfold memmove. step Hr. subst st. apply write_opened; [lia|lia|]. rewrite Nat2Z.id, Htail. do 3 f_equal. lia. }
  step Hw. rewrite <- (array_of_delete xs i k x Hx).
  set (l1 := take i (array_of xs k)). assert (Hl1 : length l1 = i) by (unfold l1; rewrite length_take; lia).
  apply write_opened; [lia|rewrite !length_app, length_drop; simpl; lia|].
  replace (Z.to_nat len') with (length (l1 ++ tail)) by (rewrite length_app; lia). fold l1.
  rewrite (app_assoc l1 tail (drop _ _)), take_app_length, drop_app_ge by lia. rewrite <- !app_assoc. do 3 f_equal.
  replace (_ - _)%nat with 1%nat by (simpl; lia). rewrite drop_drop. unfold array_of.
  replace (length xs - 1 + 1)%nat with (length (Obj <$> xs)) by (rewrite length_fmap; lia). by rewrite drop_app_length.
Qed.

(** The array of a list is made smaller. *)
Lemma list_shrink_run {A} (r : A) self p xs k k' n alloc len a b s : (0 < p)%nat -> (0 < n <= length xs + k)%nat ->
  4 * Z.of_nat n < 2 ^ 32 -> (length xs + k' = n)%nat ->
  ((p' ← m_renew p (Z.of_nat n); set_items self p';; set_alloc self (Z.of_nat n));; mret r)
    (opened self alloc len p (array_of xs k) p a b s)
  = Some (Ok r, opened self (Z.of_nat n) len p (array_of xs k') p a b s).
Proof.
  intros Hp Hn Hb Hk. rewrite X_bind_assoc.
  assert (Hm : m_renew p (Z.of_nat n) (opened self alloc len p (array_of xs k) p a b s)
    = Some (Ok p, opened self alloc len p (array_of xs k') p a b s)).
  { rewrite (m_renew_shrink p (array_of xs k)) by (rewrite ?length_array_of; (lia || apply array_opened)).
    rewrite put_opened. do 4 f_equal. unfold array_of. rewrite take_app_ge by (rewrite length_fmap; lia).
    rewrite length_fmap, take_replicate. f_equal. f_equal. lia. }
  step Hm. rewrite X_bind_assoc.
  assert (Hi : set_items self p (opened self alloc len p (array_of xs k') p a b s)
    = Some (Ok tt, opened self alloc len p (array_of xs k') p a b s)).
  { unfold set_items. step (get_list_opened self alloc len p (array_of xs k') p a b s). cbn [l_alloc l_len].
    unfold set_list, xmodify, opened, with_list_objs, with_answers, with_brk, with_arrays. simpl. by rewrite insert_insert_eq. }
  step Hi. step (set_alloc_opened (Z.of_nat n) self alloc len p (array_of xs k') p a b s). done.
Qed.

Lemma pop_ok G self xs index : G !! self = Some xs ->
  implements (list_pop self index) G (fun r G' => (r, G') = with_items G self (py_pop xs index)).
Proof.
  intros HG s Hs. destruct (heap_ok_list _ _ _ _ Hs HG) as (k & p & Hr & Hsz & Hheap & Hp0). pose proof Hr as [Ho Ha Hm].
  unfold list_pop, py_pop. step_list Ho.
  case_decide as Enil; [subst xs; by eexists _, _, G|].
  assert (Hl : (0 < length xs)%nat) by (destruct xs; simpl; [done|lia]).
  replace (Z.of_nat (length xs) =? 0) with false by lia. rewrite get_index_item by lia.
  destruct (py_position (length xs) (default (IdxInt (-1)) index)) as [i|e] eqn:Ei; [|by eexists _, _, G].
  pose proof (py_position_lt _ _ _ Ei) as Hi. destruct (lookup_lt_is_Some_2 xs i Hi) as [x Hx]. rewrite Hx. simpl map_res.
  rewrite (X_bind_Ok (of_res _) _ s (Z.of_nat i) s) by done. step (load_run p xs k s i x Ha Hx). cbv zeta.
  set (st := opened self (Z.of_nat (length xs + k)) (Z.of_nat (length xs) - 1) p (array_of xs k) p (answers s) (list_brk s) s).
  assert (E1 : set_list_len self (Z.of_nat (length xs) - 1) s = Some (Ok tt, st)).
  { rewrite (opened_start s self xs k p Hr) at 1. apply set_len_opened. }
  step E1. rewrite <- X_bind_assoc. step (remove_slot self xs k i x (Z.of_nat (length xs + k)) p p (answers s) (list_brk s) s Hx).
  assert (Hld : length (delete i xs) = (length xs - 1)%nat) by (by rewrite length_delete by (by eexists)).
  destruct ((LIST_MIN_ALLOC <? Z.of_nat (length xs + k)) && (2 * (Z.of_nat (length xs) - 1) <? Z.of_nat (length xs + k))) eqn:E2;
    unfold LIST_MIN_ALLOC in E2.
  - pose proof (Nat.div_mod_eq (length xs + k) 2). pose proof (Nat.mod_upper_bound (length xs + k) 2 ltac:(lia)).
    set (n := ((length xs + k) / 2)%nat) in *.
    replace (Z.of_nat (length xs + k) / 2) with (Z.of_nat n) by (unfold n; by rewrite Nat2Z.inj_div).
    rewrite (list_shrink_run _ self p (delete i xs) (S k) (n - length (delete i xs)) n) by (done || lia).
    eapply (finish_ok s G self xs k p (delete i xs)); try (done || lia || by left).
  - eapply (finish_ok s G self xs k p (delete i xs)); try (done || lia || by left).
Qed.

(** [list.clear]; an array of fewer than four slots has to grow for it. *)
Lemma clear_ok G self xs s : lists_ok s G -> G !! self = Some xs ->
  (forall l, list_objs s !! self = Some l -> 4 <= l_alloc l) ->
  exists s', list_clear self s = Some (Ok tt, s') /\ lists_ok s' (<[self := []]> G).
Proof.
  intros Hs HG Hal. destruct (heap_ok_list _ _ _ _ Hs HG) as (k & p & Hr & Hsz & Hheap & Hp0). pose proof Hr as [Ho Ha Hm].
  specialize (Hal _ Ho). simpl in Hal. unfold list_clear.
  set (st len buf := opened self (Z.of_nat (length xs + k)) len p buf p (answers s) (list_brk s) s).
  assert (E1 : set_list_len self 0 s = Some (Ok tt, st 0 (array_of xs k))).
  { rewrite (opened_start s self xs k p Hr) at 1. apply set_len_opened. }
  step E1. step (get_list_opened self (Z.of_nat (length xs + k)) 0 p (array_of xs k) p (answers s) (list_brk s) s).
  cbn [l_items].
  assert (E2 : m_renew p LIST_MIN_ALLOC (st 0 (array_of xs k)) = Some (Ok p, st 0 (take 4 (array_of xs k)))).
  { unfold st. change LIST_MIN_ALLOC with (Z.of_nat 4).
    rewrite (m_renew_shrink p (array_of xs k)) by (rewrite ?length_array_of; (lia || apply array_opened)). by rewrite put_opened. }
  step E2. unfold set_items. rewrite X_bind_assoc. unfold st.
  step (get_list_opened self (Z.of_nat (length xs + k)) 0 p (take 4 (array_of xs k)) p (answers s) (list_brk s) s).
  assert (E3 : set_list self (MkList (Z.of_nat (length xs + k)) 0 p) (st 0 (take 4 (array_of xs k))) = Some (Ok tt, st 0 (take 4 (array_of xs k)))).
  { unfold st, set_list, xmodify, opened, with_list_objs, with_answers, with_brk, with_arrays. simpl. by rewrite insert_insert_eq. }
  step E3. unfold st. step (set_alloc_opened LIST_MIN_ALLOC self (Z.of_nat (length xs + k)) 0 p (take 4 (array_of xs k)) p (answers s) (list_brk s) s).
  eexists. split.
  - unfold mp_seq_clear. change (Z.to_nat (LIST_MIN_ALLOC - 0)) with 4%nat.
    apply (write_opened _ _ (array_of [] 4)); [lia|rewrite length_replicate, length_take, length_array_of; lia|].
    rewrite length_replicate, drop_ge; [done|]. rewrite length_take. change (Z.to_nat 0) with 0%nat. lia.
  - apply (heap_ok_opened s G self xs k p [] 4 p); try done; [by left|simpl; lia|simpl; lia].
Qed.

(** Without memory to grow such an array, the length is 0 and the items are still in their slots. *)
Definition clear_failed self s s' : Prop := exists l, list_objs s !! self = Some l /\ l_alloc l < 4
  /\ list_objs s' = <[self := MkList (l_alloc l) 0 (l_items l)]> (list_objs s) /\ arrays s' = arrays s.

Lemma clear_short G self xs k p s : lists_ok s G -> list_rep s self xs k p -> (length xs + k < 4)%nat ->
  exists r s', list_clear self s = Some (r, s')
  /\ (r = Ok tt /\ lists_ok s' (<[self := []]> G) \/ r = Raise MemoryError /\ clear_failed self s s').
Proof.
  intros Hs Hr Hk. pose proof Hr as [Ho Ha Hm]. assert (Hp : (0 < p)%nat) by (apply (ho_brk _ _ Hs); by eexists).
  unfold list_clear. set (n := Z.of_nat (length xs + k)).
  set (st := opened self n 0 p (array_of xs k) p (answers s) (list_brk s) s).
  assert (E1 : set_list_len self 0 s = Some (Ok tt, st)).
  { rewrite (opened_start s self xs k p Hr) at 1. apply set_len_opened. }
  step E1. step (get_list_opened self n 0 p (array_of xs k) p (answers s) (list_brk s) s). cbn [l_items].
  destruct (m_renew_grow p (array_of xs k) st 4 Hp) as (a & [Hf|(Hsz & p' & b & Hp' & Hg)]); [apply array_opened|by rewrite length_array_of|done|..].
  { eexists _, _. split; [by rewrite (X_bind_Raise _ _ _ _ _ Hf)|]. right. split; [done|].
    exists (MkList n (Z.of_nat (length xs)) p). split; [done|]. split; [cbn; lia|]. split; [done|].
    unfold st, opened, with_answers, with_brk, with_list_objs, with_arrays. simpl. by rewrite insert_delete_eq, insert_id. }
  change (Z.of_nat 4) with LIST_MIN_ALLOC in Hg. step Hg. set (buf := array_of xs k ++ _).
  assert (Hbuf : length buf = 4%nat) by (unfold buf; rewrite length_app, length_array_of, length_replicate; lia).
  assert (Hi : set_items self p' (moved p p' buf a b st) = Some (Ok tt, opened self n 0 p' buf p a b s)).
  { unfold set_items. assert (Hl : list_objs (moved p p' buf a b st) !! self = Some (MkList n 0 p)) by apply lookup_insert_eq.
    rewrite (X_bind_Ok _ _ _ _ _ (get_list_run _ _ _ Hl)). cbn [l_alloc l_len].
    unfold set_list, xmodify, moved, st, opened, with_list_objs, with_answers, with_brk, with_arrays. simpl.
    rewrite insert_insert_eq. by rewrite delete_insert_eq, delete_delete_eq. }
  step Hi. step (set_alloc_opened LIST_MIN_ALLOC self n 0 p' buf p a b s).
  eexists _, _. split.
  - unfold mp_seq_clear. change (Z.to_nat (LIST_MIN_ALLOC - 0)) with 4%nat.
    apply (write_opened _ _ (array_of [] 4)); [lia|rewrite length_replicate; lia|].
    rewrite length_replicate, drop_ge; [done|]. change (Z.to_nat 0) with 0%nat. lia.
  - left. split; [done|]. apply (heap_ok_opened s G self xs k p [] 4 p'); try done; simpl; lia.
Qed.

Lemma clear_any G self xs s : lists_ok s G -> G !! self = Some xs -> exists r s', list_clear self s = Some (r, s')
  /\ (r = Ok tt /\ lists_ok s' (<[self := []]> G) \/ r = Raise MemoryError /\ clear_failed self s s').
Proof.
  intros Hs HG. destruct (heap_ok_list _ _ _ _ Hs HG) as (k & p & Hr & _). destruct (decide (length xs + k < 4)%nat) as [Hk|Hk].
  - by apply (clear_short G self xs k p).
  - destruct (clear_ok G self xs s Hs HG) as (s' & Hrun & Hs').
    { intros l Hl. destruct Hr as [Ho _ _]. rewrite Ho in Hl. injection Hl as <-. cbn [l_alloc]. lia. }
    exists (Ok tt), s'. split; [done|]. by left.
Qed.

(** ** Single items and searches *)

Lemma list_items_run s G self xs : lists_ok s G -> G !! self = Some xs -> list_items self s = Some (Ok xs, s).
Proof.
  intros Hs HG. destruct (heap_ok_list _ _ _ _ Hs HG) as (k & p & [Ho Ha _] & _). unfold list_items. step_list Ho.
  assert (Hr : read p 0 (Z.of_nat (length xs)) s = Some (Ok (Obj <$> xs), s)).
  { rewrite (read_run p (array_of xs k)) by (done || rewrite ?length_array_of; lia). rewrite Nat2Z.id, drop_0. unfold array_of.
    by rewrite take_app_length' by by rewrite length_fmap. }
  step Hr. unfold xlift. by rewrite to_objs_fmap.
Qed.

Lemma load_ok G self xs index : G !! self = Some xs ->
  implements (list_load self index) G (fun r G' => G' = G /\
    match py_position (length xs) index with Ok i => exists x, xs !! i = Some x /\ r = Ok x | Raise e => r = Raise e end).
Proof.
  intros HG s Hs. destruct (heap_ok_list _ _ _ _ Hs HG) as (k & p & [Ho Ha _] & Hsz & Hheap & _). unfold list_load. step_list Ho.
  rewrite get_index_item by lia. destruct (py_position (length xs) index) as [i|e] eqn:Ei; [|by eexists _, _, G].
  destruct (lookup_lt_is_Some_2 xs i (py_position_lt _ _ _ Ei)) as [x Hx]. eexists (Ok x), s, G.
  rewrite (X_bind_Ok (of_res _) _ s (Z.of_nat i) s) by done. rewrite (load_run p xs k) with (x := x) by done. by eauto 6.
Qed.

Lemma store_ok G self xs index x : G !! self = Some xs ->
  implements (mp_obj_list_store self index x) G (fun r G' =>
    (r, G') = with_items G self (map_res (fun i => (tt, <[i := x]> xs)) (py_position (length xs) index))).
Proof.
  intros HG s Hs. destruct (heap_ok_list _ _ _ _ Hs HG) as (k & p & Hr & Hsz & Hheap & _). pose proof Hr as [Ho Ha _].
  unfold mp_obj_list_store. step_list Ho.
  rewrite get_index_item by lia. destruct (py_position (length xs) index) as [i|e] eqn:Ei; [|by eexists _, _, G].
  pose proof (py_position_lt _ _ _ Ei) as Hi. exists (Ok tt), (put p (array_of (<[i := x]> xs) k) s), (<[self := <[i := x]> xs]> G).
  rewrite (X_bind_Ok (of_res _) _ s (Z.of_nat i) s) by done. split; [|split; [|done]].
  - rewrite <- (put_id p (array_of xs k) s) at 1 by done. by apply store_run.
  - apply (heap_ok_put s G self xs); [done|done|]. by rewrite length_insert.
Qed.

Lemma count_ok G self xs x : G !! self = Some xs ->
  implements (list_count self x) G (fun r G' => G' = G
    /\ r = Ok (Z.of_nat (length (filter (fun y => mp_obj_equal y x = true) xs)))).
Proof.
  intros HG s Hs. eexists _, s, G. unfold list_count. step (list_items_run _ _ _ _ Hs HG). split; [done|].
  by rewrite mp_seq_count_obj_spec.
Qed.

(** A bound of a search. *)
Definition py_search_bound (len dflt : nat) (o : option py_index) : res nat :=
  match o with
  | None => Ok dflt
  | Some (IdxInt z) => if in_int z then Ok (py_clamp len z) else Raise OverflowError
  | Some _ => Raise TypeError
  end.

Lemma search_bound_run len dflt o : Z.of_nat len < 2 ^ 31 ->
  match o with Some i => mp_get_index (Z.of_nat len) i true | None => Ok (Z.of_nat dflt) end
  = map_res Z.of_nat (py_search_bound len dflt o).
Proof.
  intros Hl. destruct o as [[|z|]|]; try done. rewrite get_index_slice by done. simpl. by destruct (in_int z).
Qed.

(** [r] is the first position in [[i, j)] of an item equal to [x]. *)
Definition found_at xs x (i j : nat) (r : res Z) : Prop :=
  (exists n y, r = Ok (Z.of_nat n) /\ (i <= n < j)%nat /\ xs !! n = Some y /\ mp_obj_equal y x = true
     /\ forall m z, (i <= m < n)%nat -> xs !! m = Some z -> mp_obj_equal z x = false)
  \/ r = Raise ValueError /\ forall m z, (i <= m < j)%nat -> xs !! m = Some z -> mp_obj_equal z x = false.

Lemma index_obj_found xs x start stop : Z.of_nat (length xs) < 2 ^ 31 -> (start = None -> stop = None) ->
  match py_search_bound (length xs) 0 start with
  | Raise e => mp_seq_index_obj mp_obj_equal xs x start stop = Raise e
  | Ok i => match py_search_bound (length xs) (length xs) stop with
            | Raise e => mp_seq_index_obj mp_obj_equal xs x start stop = Raise e
            | Ok j => found_at xs x i j (mp_seq_index_obj mp_obj_equal xs x start stop)
            end
  end.
Proof.
  intros Hl Hargs. pose proof (search_bound_run (length xs) 0 start Hl) as H1.
  pose proof (search_bound_run (length xs) (length xs) stop Hl) as H2. unfold mp_seq_index_obj.
  assert (Hfind : forall i j : nat, found_at xs x i j
    (match index_loop mp_obj_equal (drop (Z.to_nat (Z.of_nat i)) xs) x (Z.to_nat (Z.of_nat i)) (Z.to_nat (Z.of_nat j)) with
     | Some k => Ok (Z.of_nat k)
     | None => Raise ValueError
     end)).
  { intros i j. rewrite !Nat2Z.id. destruct (index_loop _ _ x i j) as [k|] eqn:E.
    - apply index_loop_Some in E as (Hk & (y & Hy & Ey) & Hbefore). rewrite lookup_drop in Hy. left. exists k, y.
      replace (i + (k - i))%nat with k in Hy by lia. do 4 (split; [done|]). intros m z Hm Hz.
      apply (Hbefore (m - i)%nat); [lia|]. rewrite lookup_drop. by replace (i + (m - i))%nat with m by lia.
    - right. split; [done|]. intros m z Hm Hz. apply (index_loop_None _ _ _ _ _ E (m - i)%nat); [lia|].
      rewrite lookup_drop. by replace (i + (m - i))%nat with m by lia. }
  destruct start as [start|].
  - rewrite H1. destruct (py_search_bound _ 0 _) as [i|e]; simpl; [|done]. destruct stop as [stop|].
    + rewrite H2. destruct (py_search_bound _ _ (Some stop)) as [j|e]; simpl; [|done]. apply Hfind.
    + simpl. apply Hfind.
  - rewrite (Hargs eq_refl) in *. simpl. apply (Hfind 0%nat).
Qed.

Lemma index_run s G self xs x start stop : lists_ok s G -> G !! self = Some xs ->
  list_index self x start stop s = Some (mp_seq_index_obj mp_obj_equal xs x start stop, s).
Proof. intros Hs HG. unfold list_index. by step (list_items_run _ _ _ _ Hs HG). Qed.

(** [list.remove] *)
Lemma list_remove_ok G self xs x : G !! self = Some xs ->
  implements (mp_obj_list_remove self x) G (fun r G' =>
    (exists n y, r = Ok tt /\ G' = <[self := delete n xs]> G /\ xs !! n = Some y /\ mp_obj_equal y x = true
       /\ forall m z, (m < n)%nat -> xs !! m = Some z -> mp_obj_equal z x = false)
    \/ r = Raise ValueError /\ G' = G /\ forall z, z ∈ xs -> mp_obj_equal z x = false).
Proof.
  intros HG s Hs. destruct (heap_ok_list _ _ _ _ Hs HG) as (k & p & _ & Hsz & Hheap & _).
  pose proof (index_run s G self xs x None None Hs HG) as Hi.
  pose proof (index_obj_found xs x None None ltac:(lia) ltac:(done)) as Hf. cbn [py_search_bound] in Hf. unfold mp_obj_list_remove.
  destruct Hf as [(n & y & E & Hn & Hy & Ey & Hbefore)|[E Hnone]]; rewrite E in Hi.
  - step Hi. destruct (pop_ok G self xs (Some (IdxInt (Z.of_nat n))) HG s Hs) as (r & s' & G' & Hp & Hs' & HQ).
    assert (Epos : py_position (length xs) (IdxInt (Z.of_nat n)) = Ok n).
    { simpl. unfold in_int. replace ((- 2 ^ 31 <=? Z.of_nat n) && (Z.of_nat n <? 2 ^ 31)) with true by lia.
      replace (Z.of_nat n <? 0) with false by lia. replace ((0 <=? Z.of_nat n) && (Z.of_nat n <? Z.of_nat (length xs))) with true by lia.
      by rewrite Nat2Z.id. }
    unfold py_pop in HQ. rewrite decide_False in HQ by (by intros ->). cbn [default from_option id] in HQ.
    rewrite Epos, Hy in HQ. simpl in HQ. simplify_eq. step Hp. eexists _, s', _. split; [done|]. split; [done|]. left.
    exists n, y. do 4 (split; [done|]). intros m z Hm. apply Hbefore. lia.
  - exists (Raise ValueError), s, G. rewrite (X_bind_Raise _ _ _ _ _ Hi). split; [done|]. split; [done|]. right.
    do 2 (split; [done|]). intros z [m Hz]%list_elem_of_lookup. apply (Hnone m); [|done]. apply lookup_lt_Some in Hz. lia.
Qed.

(** ** Moving items within a list *)

Lemma shift_up_run n p k s : forall xs i, (n <= i)%nat -> (i < length xs)%nat -> exists ys,
  shift_up n p (Z.of_nat i) (put p (array_of xs k) s) = Some (Ok tt, put p (array_of ys k) s)
  /\ length ys = length xs /\ forall j, ys !! j = if (i - n <? j)%nat && (j <=? i)%nat then xs !! (j - 1)%nat else xs !! j.
Proof.
  induction n as [|n IH]; intros xs i Hn Hi; simpl.
  { exists xs. split; [done|]. split; [done|]. intros j. by replace ((i - 0 <? j)%nat && (j <=? i)%nat) with false by lia. }
  destruct (lookup_lt_is_Some_2 xs (i - 1) ltac:(lia)) as [x Hx].
  step (load_put_nat p xs k s (i - 1) x (Z.of_nat i - 1) ltac:(lia) Hx).
  step (store_put_nat p xs k s i x (Z.of_nat i) eq_refl Hi).
  destruct (IH (<[i := x]> xs) (i - 1)%nat ltac:(lia) ltac:(rewrite length_insert; lia)) as (ys & Hrun & Hlen & Hys).
  exists ys. replace (Z.of_nat i - 1) with (Z.of_nat (i - 1)) by lia. rewrite length_insert in Hlen.
  split; [done|]. split; [done|]. intros j. rewrite Hys.
  destruct (decide (j = i)) as [->|Hne].
  - replace ((i - 1 - n <? i)%nat && (i <=? i - 1)%nat) with false by lia.
    replace ((i - S n <? i)%nat && (i <=? i)%nat) with true by lia. by rewrite list_lookup_insert_eq.
  - rewrite (list_lookup_insert_ne _ i j) by done. destruct ((i - 1 - n <? j)%nat && (j <=? i - 1)%nat) eqn:E.
    + rewrite list_lookup_insert_ne by lia. by replace ((i - S n <? j)%nat && (j <=? i)%nat) with true by lia.
    + by replace ((i - S n <? j)%nat && (j <=? i)%nat) with false by lia.
Qed.

(** [list.insert] of a sequence. *)
Definition py_insert xs (z : Z) x : list mp_obj :=
  let n := py_clamp (length xs) z in take n xs ++ x :: drop n xs.

Lemma list_insert_ok G self xs z x : G !! self = Some xs -> in_int z = true ->
  implements (list_insert self z x) G (or_no_memory G (fun r G' => r = Ok tt /\ G' = <[self := py_insert xs z x]> G)).
Proof.
  intros HG Hz s Hs. destruct (heap_ok_list _ _ _ _ Hs HG) as (k0 & p0 & [Ho0 _ _] & Hsz0 & Hheap0 & _).
  unfold list_insert. step_list Ho0. cbv zeta.
  set (index := if _ <? (if _ <? 0 then 0 else _) then _ else _).
  assert (Eidx : index = Z.of_nat (py_clamp (length xs) z)).
  { unfold index, py_clamp, in_int in *. destruct (Z.ltb_spec z 0); [rewrite swrap32 by lia|]; case_conditions; lia. }
  rewrite Eidx. clear Eidx index. set (n := py_clamp (length xs) z).
  assert (Hn : (n <= length xs)%nat) by (unfold n, py_clamp; lia).
  destruct (append_ok G self xs mp_const_none HG s Hs) as (r & s1 & G1 & Hr & Hs1 & [[-> ->]|[-> ->]]).
  2:{ exists (Raise MemoryError), s1, G. rewrite (X_bind_Raise _ _ _ _ _ Hr). split; [done|]. split; [done|by right]. }
  step Hr. set (xs1 := xs ++ [mp_const_none]).
  destruct (heap_ok_list _ _ self xs1 Hs1 ltac:(apply lookup_insert_eq)) as (k & p & Hrep & Hsz & Hheap & _).
  pose proof Hrep as [Ho Ha _]. step_list Ho. assert (Hl1 : length xs1 = S (length xs)) by (unfold xs1; rewrite length_app; simpl; lia).
  rewrite Hl1. replace (Z.of_nat (S (length xs)) - 1) with (Z.of_nat (length xs)) by lia.
  replace (Z.to_nat (Z.of_nat (length xs) - Z.of_nat n)) with (length xs - n)%nat by lia.
  destruct (shift_up_run (length xs - n) p k s1 xs1 (length xs) ltac:(lia) ltac:(lia)) as (ys & Hrun & Hlen & Hys).
  rewrite (put_id p _ s1 Ha) in Hrun. step Hrun.
  exists (Ok tt), (put p (array_of (<[n := x]> ys) k) s1), (<[self := py_insert xs z x]> G).
  split; [apply store_put_nat; [done|lia]|].
  assert (Eins : <[n := x]> ys = py_insert xs z x).
  { unfold py_insert. fold n. apply list_eq. intros j. destruct (decide (j = n)) as [->|Hne].
    - rewrite list_lookup_insert_eq by lia. rewrite lookup_app_r; rewrite length_take, Nat.min_l by lia; [|lia]. by rewrite Nat.sub_diag.
    - rewrite list_lookup_insert_ne, Hys by done. replace (length xs - (length xs - n))%nat with n by lia.
      destruct (decide (j < n)%nat).
      + replace ((n <? j)%nat && (j <=? length xs)%nat) with false by lia. rewrite lookup_app_l by (rewrite length_take; lia).
        rewrite lookup_take_lt by lia. unfold xs1. by rewrite lookup_app_l by lia.
      + rewrite lookup_app_r; rewrite length_take, Nat.min_l by lia; [|lia].
        replace (j - n)%nat with (S (j - n - 1)) by lia. simpl. rewrite lookup_drop.
        destruct (decide (j <= length xs)%nat).
        * replace ((n <? j)%nat && (j <=? length xs)%nat) with true by lia. unfold xs1. rewrite lookup_app_l by lia. f_equal. lia.
        * replace ((n <? j)%nat && (j <=? length xs)%nat) with false by lia. rewrite !lookup_ge_None_2 by lia. done. }
  rewrite Eins. split; [|by left]. rewrite <- (insert_insert_eq G self (py_insert xs z x) xs1).
  apply (heap_ok_put s1 _ self xs1); [done|done|]. rewrite <- Eins, length_insert. lia.
Qed.

(** The loop swaps [n] pairs from the position [i] on. *)
Lemma reverse_loop_run n p k s : forall xs i, (2 * (i + n) <= length xs)%nat -> exists ys,
  reverse_loop n p (Z.of_nat (length xs)) (Z.of_nat i) (put p (array_of xs k) s) = Some (Ok tt, put p (array_of ys k) s)
  /\ length ys = length xs
  /\ forall j, ys !! j = if ((i <=? j)%nat && (j <? i + n)%nat) || ((length xs - (i + n) <=? j)%nat && (j <? length xs - i)%nat)
                        then xs !! (length xs - 1 - j)%nat else xs !! j.
Proof.
  induction n as [|n IH]; intros xs i Hi; simpl.
  { exists xs. split; [done|]. split; [done|]. intros j. case_match; [lia|done]. }
  destruct (lookup_lt_is_Some_2 xs i ltac:(lia)) as [a Ha]. destruct (lookup_lt_is_Some_2 xs (length xs - i - 1) ltac:(lia)) as [b Hb].
  step (load_put_nat p xs k s i a _ eq_refl Ha).
  step (load_put_nat p xs k s (length xs - i - 1) b (Z.of_nat (length xs) - Z.of_nat i - 1) ltac:(lia) Hb).
  step (store_put_nat p xs k s i b _ eq_refl ltac:(lia)).
  step (store_put_nat p (<[i := b]> xs) k s (length xs - i - 1) a (Z.of_nat (length xs) - Z.of_nat i - 1) ltac:(lia) ltac:(rewrite length_insert; lia)).
  set (xs1 := <[_ := a]> (<[i := b]> xs)). assert (Hl1 : length xs1 = length xs) by (unfold xs1; by rewrite !length_insert).
  destruct (IH xs1 (i + 1)%nat ltac:(lia)) as (ys & Hrun & Hlen & Hys). rewrite Hl1 in *. exists ys.
  replace (Z.of_nat i + 1) with (Z.of_nat (i + 1)) by lia. split; [done|]. split; [done|].
  assert (Hx1 : forall j, xs1 !! j = if (j =? i)%nat || (j =? length xs - i - 1)%nat then xs !! (length xs - 1 - j)%nat else xs !! j).
  { intros j. unfold xs1. destruct (decide (j = length xs - i - 1)%nat) as [->|].
    - rewrite list_lookup_insert_eq by (rewrite length_insert; lia). rewrite (Nat.eqb_refl (length xs - i - 1)), orb_true_r, <- Ha. f_equal. lia.
    - rewrite list_lookup_insert_ne by done. destruct (decide (j = i)) as [->|].
      + rewrite list_lookup_insert_eq by lia. rewrite Nat.eqb_refl. simpl. rewrite <- Hb. f_equal. lia.
      + rewrite list_lookup_insert_ne by done. by replace ((j =? i)%nat || (j =? length xs - i - 1)%nat) with false by lia. }
  intros j. rewrite Hys, !Hx1. clear Hys Hx1.
  case_conditions; first [done | lia | f_equal; lia].
Qed.

Lemma reverse_ok G self xs : G !! self = Some xs ->
  implements (list_reverse self) G (fun r G' => r = Ok tt /\ G' = <[self := reverse xs]> G).
Proof.
  intros HG s Hs. destruct (heap_ok_list _ _ _ _ Hs HG) as (k & p & Hr & Hsz & Hheap & _). pose proof Hr as [Ho Ha _].
  unfold list_reverse. step_list Ho. set (n := (length xs / 2)%nat).
  assert (En : Z.to_nat (Z.of_nat (length xs) / 2) = n) by (unfold n; rewrite <- (Nat2Z.inj_div _ 2); lia).
  pose proof (Nat.div_mod_eq (length xs) 2). pose proof (Nat.mod_upper_bound (length xs) 2 ltac:(lia)). fold n in H.
  destruct (reverse_loop_run n p k s xs 0 ltac:(lia)) as (ys & Hrun & Hlen & Hys). rewrite (put_id p _ s Ha) in Hrun. rewrite En.
  exists (Ok tt), (put p (array_of ys k) s), (<[self := ys]> G). split; [exact Hrun|].
  split; [by apply (heap_ok_put s G self xs)|]. split; [done|]. f_equal. apply list_eq. intros j. rewrite Hys.
  destruct (decide (j < length xs)%nat).
  - rewrite reverse_lookup by done. case_conditions; f_equal; lia.
  - rewrite (lookup_ge_None_2 (reverse xs)) by (rewrite length_reverse; lia).
    case_conditions; [lia|]. apply lookup_ge_None_2. lia.
Qed.
End Edit.
