(* ===== verification/ObjListSlice.v ===== *)
(** New lists, and slices of lists: loading, assignment and deletion. *)
From Stdlib Require Import ZifyBool.
From S2P Require Import Prelude PyExn Map ObjSeq ObjList ObjListSpec ObjListOps.

(** A list with some elements overwritten in the middle. *)
Definition put_at {A} (i : nat) (ys l : list A) : list A := take i l ++ ys ++ drop (i + length ys) l.

Lemma length_put_at {A} i (ys l : list A) : (i + length ys <= length l)%nat -> length (put_at i ys l) = length l.
Proof. intros. unfold put_at. rewrite !length_app, length_take, length_drop. lia. Qed.

Lemma lookup_put_at {A} i (ys l : list A) j : (i + length ys <= length l)%nat ->
  put_at i ys l !! j = if (i <=? j)%nat && (j <? i + length ys)%nat then ys !! (j - i)%nat else l !! j.
Proof.
  intros Hl. unfold put_at. destruct (decide (j < i)%nat).
  { rewrite lookup_app_l by (rewrite length_take; lia). rewrite lookup_take_lt by done. by case_conditions; [lia|]. }
  rewrite lookup_app_r by (rewrite length_take; lia). rewrite length_take, Nat.min_l by lia.
  destruct (decide (j < i + length ys)%nat).
  - rewrite lookup_app_l by lia. by case_conditions; [|lia].
  - rewrite lookup_app_r by lia. rewrite lookup_drop. case_conditions; [lia|]. f_equal. lia.
Qed.

Lemma put_at_nil {A} i (l : list A) : put_at i [] l = l.
Proof. unfold put_at. simpl. by rewrite Nat.add_0_r, take_drop. Qed.

(** ** The positions of a slice, one after the other *)

Lemma slice_length_pos start stop k : 0 <= slice_length start stop k \/ k = 0.
Proof.
  destruct (decide (k = 0)); [by right|left]. unfold slice_length. case_conditions; try lia.
  - pose proof (Z.div_pos (start - stop - 1) (- k) ltac:(lia) ltac:(lia)). lia.
  - pose proof (Z.div_pos (stop - start - 1) k ltac:(lia) ltac:(lia)). lia.
Qed.

Lemma slice_length_step start stop k : k <> 0 -> (if k <? 0 then stop <? start else start <? stop) = true ->
  slice_length start stop k = slice_length (start + k) stop k + 1.
Proof.
  intros Hk Hc. unfold slice_length. destruct (Z.ltb_spec k 0).
  - rewrite Hc. destruct (Z.ltb_spec stop (start + k)).
    + replace (start - stop - 1) with (start + k - stop - 1 + 1 * - k) by lia. rewrite Z.div_add by lia. lia.
    + rewrite Z.div_small by lia. lia.
  - rewrite Hc. destruct (Z.ltb_spec (start + k) stop).
    + replace (stop - start - 1) with (stop - (start + k) - 1 + 1 * k) by lia. rewrite Z.div_add by lia. lia.
    + rewrite Z.div_small by lia. lia.
Qed.

Lemma slice_positions_nil start stop k : (if k <? 0 then stop <? start else start <? stop) = false ->
  slice_positions start stop k = [].
Proof. intros H. unfold slice_positions, slice_length. by destruct (k <? 0); rewrite H. Qed.

Lemma slice_positions_cons start stop k : k <> 0 -> (if k <? 0 then stop <? start else start <? stop) = true ->
  slice_positions start stop k = start :: slice_positions (start + k) stop k.
Proof.
  intros Hk Hc. unfold slice_positions. rewrite (slice_length_step _ _ _ Hk Hc).
  destruct (slice_length_pos (start + k) stop k) as [Hp|]; [|done]. rewrite seqZ_cons by lia. rewrite fmap_cons.
  f_equal; [lia|]. replace (Z.pred _) with (slice_length (start + k) stop k) by lia.
  rewrite <- (fmap_add_seqZ 1 0). rewrite <- list_fmap_compose. apply list_fmap_ext. intros _ i _. simpl. lia.
Qed.

(** The items at some positions. *)
Lemma omap_lookup_cons {A} (xs : list A) i ps :
  omap (fun i => xs !! Z.to_nat i) (i :: ps)
  = match xs !! Z.to_nat i with Some x => x :: omap (fun i => xs !! Z.to_nat i) ps | None => omap (fun i => xs !! Z.to_nat i) ps end.
Proof. done. Qed.

(** For the step 1 a slice is a segment. *)
Lemma py_slice_segment {A} (xs : list A) a b :
  let len := Z.of_nat (length xs) in
  let i := Z.to_nat (py_start len 1 a) in let j := Z.to_nat (code_stop len 1 a b) in
  (i <= j <= length xs)%nat /\ py_slice xs a b 1 = take (j - i) (drop i xs)
  /\ py_start len 1 a = Z.of_nat i /\ code_stop len 1 a b = Z.of_nat j.
Proof.
  cbv zeta. set (len := Z.of_nat (length xs)).
  assert (Hs : 0 <= py_start len 1 a <= len /\ 0 <= py_stop len 1 b <= len).
  { unfold py_start, py_stop, py_bound. destruct a, b; branches. }
  unfold code_stop. simpl. split; [lia|]. split; [|lia].
  unfold py_slice. fold len. generalize dependent (py_start len 1 a). generalize (py_stop len 1 b). intros stop start Hs.
  remember (Z.to_nat (stop - start)) as n eqn:En. revert start Hs En. induction n as [|n IH]; intros start Hs En.
  - rewrite slice_positions_nil by (simpl; lia). by replace (Z.to_nat (start `max` stop) - Z.to_nat start)%nat with 0%nat by lia.
  - rewrite slice_positions_cons by (simpl; lia). rewrite omap_lookup_cons.
    destruct (lookup_lt_is_Some_2 xs (Z.to_nat start) ltac:(lia)) as [x Hx]. rewrite Hx, (IH (start + 1)) by lia.
    rewrite (drop_S _ _ _ Hx). replace (Z.to_nat (start `max` stop) - Z.to_nat start)%nat with (S n) by lia. simpl. f_equal.
    replace (Z.to_nat ((start + 1) `max` stop) - Z.to_nat (start + 1))%nat with n by lia. f_equal. f_equal. lia.
Qed.

Section Slices.
Context {MO : MpObj} {MC : MpCalls MO}.
Implicit Types (s : lists) (xs ys : list mp_obj) (x : mp_obj) (G : gmap nat (list mp_obj)).

Ltac step H := rewrite (X_bind_Ok _ _ _ _ _ H).
Ltac step_list H := step (get_list_run _ _ _ H); cbn [l_alloc l_len l_items].

(** ** New lists *)

(** The result is a list that did not exist, with the items [ys]. *)
Definition returns_new G ys (r : res nat) G' : Prop :=
  exists o, r = Ok o /\ G !! o = None /\ G' = <[o := ys]> G.

Lemma fresh_frame s G n buf a other ys k q : lists_ok s G -> list_rep s other ys k q -> list_rep (fresh_list n buf a s) other ys k q.
Proof.
  intros Hs [Ho Ha Hm]. pose proof (ho_obj_brk _ _ Hs other ltac:(by eexists)). pose proof (ho_brk _ _ Hs q ltac:(by eexists)).
  constructor; simpl; [rewrite lookup_insert_ne by lia..|]; done.
Qed.

Lemma rep_read s self xs k p (i n : nat) : list_rep s self xs k p -> (i + n <= length xs)%nat ->
  read p (Z.of_nat i) (Z.of_nat n) s = Some (Ok (Obj <$> take n (drop i xs)), s).
Proof.
  intros [Ho Ha _] Hl. rewrite (read_run p (array_of xs k)) by (done || rewrite ?length_array_of; lia).
  rewrite !Nat2Z.id. unfold array_of. rewrite drop_app_le by (rewrite length_fmap; lia).
  rewrite take_app_le by (rewrite length_drop, length_fmap; lia). by rewrite fmap_take, fmap_drop.
Qed.

Lemma write_put_at p buf s (i : nat) its : arrays s !! p = Some buf -> (i + length its <= length buf)%nat ->
  write p (Z.of_nat i) its s = Some (Ok tt, put p (put_at i its buf) s).
Proof. intros Hp Hl. rewrite (write_run p buf) by (done || lia). by rewrite Nat2Z.id. Qed.

Lemma write_fresh n buf a s (i : nat) its : (i + length its <= length buf)%nat ->
  write (S (list_brk s)) (Z.of_nat i) its (fresh_list n buf a s) = Some (Ok tt, fresh_list n (put_at i its buf) a s).
Proof.
  intros Hl. rewrite (write_put_at _ buf); [|apply fresh_list_array|done].
  by rewrite put_fresh_list by (by rewrite length_put_at).
Qed.

Definition spare (n : nat) : nat := (new_alloc n - n)%nat.
Definition blank (n : nat) : list item := replicate n Undef ++ replicate (spare n) Null.

Lemma length_blank n : length (blank n) = new_alloc n.
Proof. unfold blank, spare, new_alloc. rewrite length_app, !length_replicate. lia. Qed.

(** The array of a new list with [n] items whose first ones are [acc]. *)
Definition filling (n : nat) (acc : list mp_obj) : list item := (Obj <$> acc) ++ drop (length acc) (blank n).

Lemma filling_nil n : filling n [] = blank n.
Proof. done. Qed.

Lemma filling_add n acc ys : put_at (length acc) (Obj <$> ys) (filling n acc) = filling n (acc ++ ys).
Proof.
  unfold put_at, filling. rewrite take_app_length' by (by rewrite length_fmap).
  rewrite drop_app_ge by (rewrite !length_fmap; lia). rewrite drop_drop, fmap_app, <- app_assoc, length_app. do 3 f_equal.
  rewrite !length_fmap. lia.
Qed.

Lemma filling_full n ys : length ys = n -> filling n ys = array_of ys (spare n).
Proof.
  intros <-. unfold filling, blank, array_of. by rewrite drop_app_length' by (by rewrite length_replicate).
Qed.

Lemma length_filling n acc : (length acc <= n)%nat -> length (filling n acc) = new_alloc n.
Proof. intros. unfold filling. rewrite length_app, length_fmap, length_drop, length_blank. unfold new_alloc. lia. Qed.

Lemma write_filling len n acc ys a s : (length acc + length ys <= n)%nat ->
  write (S (list_brk s)) (Z.of_nat (length acc)) (Obj <$> ys) (fresh_list len (filling n acc) a s)
  = Some (Ok tt, fresh_list len (filling n (acc ++ ys)) a s).
Proof.
  intros Hl. rewrite <- filling_add. apply write_fresh. rewrite length_fmap, length_filling by lia. unfold new_alloc. lia.
Qed.

(** A copy of the items of a list to the end of a new list. *)
Lemma memcpy_filling G len n acc a s self xs k p i m : lists_ok s G -> list_rep s self xs k p -> (i + m <= length xs)%nat ->
  (length acc + m <= n)%nat ->
  memcpy (S (list_brk s)) (Z.of_nat (length acc)) p (Z.of_nat i) (Z.of_nat m) (fresh_list len (filling n acc) a s)
  = Some (Ok tt, fresh_list len (filling n (acc ++ take m (drop i xs))) a s).
Proof.
  intros Hs Hr Hi Hm. pose proof (ho_brk _ _ Hs p ltac:(eexists; apply Hr)).
  erewrite memcpy_run; [|lia|lia|eapply rep_read; [by eapply fresh_frame|done]].
  apply write_filling. rewrite length_take, length_drop. lia.
Qed.

Lemma finish_new s G ys a (Q : res nat -> gmap nat (list mp_obj) -> Prop) : lists_ok s G ->
  4 * Z.of_nat (new_alloc (length ys)) <= heap_bytes s -> (forall r G', returns_new G ys r G' -> Q r G') ->
  exists r s' G', Some (Ok (list_brk s), fresh_list (Z.of_nat (length ys)) (array_of ys (spare (length ys))) a s) = Some (r, s')
    /\ lists_ok s' G' /\ Q r G'.
Proof.
  intros Hs Hsz HQ. eexists _, _, (<[list_brk s := ys]> G). split; [done|].
  assert (E : (length ys + spare (length ys) = new_alloc (length ys))%nat) by (unfold spare, new_alloc; lia).
  split; [apply heap_ok_fresh; [done|..]; rewrite E; unfold new_alloc in *; lia|].
  apply HQ. exists (list_brk s). split; [done|]. split; [by eapply fresh_none|done].
Qed.

(** No memory for a new list. *)
Lemma no_new_list s G a b (Q : res nat -> gmap nat (list mp_obj) -> Prop) : lists_ok s G -> (list_brk s <= b)%nat ->
  exists r s' G', Some (Raise MemoryError : res nat, with_answers a (with_brk b s)) = Some (r, s') /\ lists_ok s' G' /\ or_no_memory G Q r G'.
Proof. intros Hs Hb. eexists _, _, G. split; [done|]. split; [by apply heap_ok_brk|by right]. Qed.

Lemma copy_ok G self xs : G !! self = Some xs -> implements (list_copy self) G (or_no_memory G (returns_new G xs)).
Proof.
  intros HG s Hs. destruct (heap_ok_list _ _ _ _ Hs HG) as (k & p & Hr & Hsz & Hheap & Hp0). pose proof Hr as [Ho Ha Hm].
  unfold list_copy. step_list Ho. unfold mp_obj_new_list.
  destruct (list_new_run (length xs) s ltac:(lia)) as (a & [(b & Hb & Hf)|(Hk & Hn)]).
  { rewrite (X_bind_Raise _ _ _ _ _ Hf). by apply no_new_list. }
  change (_ ++ _) with (filling (length xs) []) in Hn. step Hn.
  assert (Hlen : length (filling (length xs) []) = new_alloc (length xs)) by (by rewrite length_filling by (simpl; lia)).
  step (get_list_run _ _ _ (fresh_list_obj (Z.of_nat (length xs)) (filling (length xs) []) a s)). cbn [l_items].
  replace (p =? 0)%nat with false by lia.
  pose proof (memcpy_filling G (Z.of_nat (length xs)) (length xs) [] a s self xs k p 0 (length xs) Hs Hr ltac:(lia) ltac:(simpl; lia)) as Hc.
  rewrite drop_0, take_ge in Hc by lia. unfold memcpy in Hc. simpl app in Hc.
  rewrite (filling_full (length xs) xs) in Hc by done. simpl length in Hc. change (Z.of_nat 0) with 0 in Hc.
  replace (S (list_brk s) =? p)%nat with false in Hc by (pose proof (ho_brk _ _ Hs p ltac:(by eexists)); lia). simpl andb in Hc. cbv iota in Hc.
  step Hc. apply (finish_new s G); [done..|]. intros r G' H. by left.
Qed.

Lemma add_ok G self rhs xs ys : G !! self = Some xs -> G !! rhs = Some ys ->
  implements (list_add self rhs) G (or_no_memory G (returns_new G (xs ++ ys))).
Proof.
  intros HG Hy s Hs. destruct (heap_ok_list _ _ _ _ Hs HG) as (k & p & Hr & Hsz & Hheap & _). pose proof Hr as [Ho Ha Hm].
  destruct (heap_ok_list _ _ _ _ Hs Hy) as (k2 & q & Hr2 & Hsz2 & _). pose proof Hr2 as [Ho2 _ _].
  unfold list_add. step_list Ho. step_list Ho2. set (n := (length xs + length ys)%nat).
  replace (wrap 32 _) with (Z.of_nat n) by (rewrite wrap_id; lia).
  destruct (list_new_run n s ltac:(lia)) as (a & [(b & Hb & Hf)|(Hk & Hn)]).
  { rewrite (X_bind_Raise _ _ _ _ _ Hf). by apply no_new_list. }
  change (_ ++ _) with (filling n []) in Hn. step Hn.
  step (get_list_run _ _ _ (fresh_list_obj (Z.of_nat n) (filling n []) a s)). cbn [l_items].
  pose proof (memcpy_filling G (Z.of_nat n) n [] a s self xs k p 0 (length xs) Hs Hr ltac:(lia) ltac:(simpl; lia)) as Hc.
  step Hc. rewrite drop_0, take_ge by lia. simpl app.
  pose proof (memcpy_filling G (Z.of_nat n) n xs a s rhs ys k2 q 0 (length ys) Hs Hr2 ltac:(lia) ltac:(lia)) as Hc2.
  step Hc2. rewrite drop_0, take_ge by lia. replace n with (length (xs ++ ys)) in * by (rewrite length_app; lia).
  rewrite filling_full by done. apply (finish_new s G); [done..|]. intros r G' H'. by left.
Qed.

(** [list * n] *)
Lemma seq_multiply_run G s self xs k p len n a t : forall acc, lists_ok s G -> list_rep s self xs k p ->
  (length acc + t * length xs <= n)%nat ->
  mp_seq_multiply t (S (list_brk s)) (Z.of_nat (length acc)) p (Z.of_nat (length xs)) (fresh_list len (filling n acc) a s)
  = Some (Ok tt, fresh_list len (filling n (acc ++ mjoin (replicate t xs))) a s).
Proof.
  induction t as [|t IH]; intros acc Hs Hr Hl; simpl.
  { by rewrite app_nil_r. }
  pose proof (memcpy_filling G len n acc a s self xs k p 0 (length xs) Hs Hr ltac:(lia) ltac:(lia)) as Hc.
  rewrite drop_0, take_ge in Hc by lia. step Hc.
  replace (Z.of_nat (length acc) + Z.of_nat (length xs)) with (Z.of_nat (length (acc ++ xs))) by (rewrite length_app; lia).
  rewrite IH by (rewrite ?length_app; (done || lia)). by rewrite <- app_assoc.
Qed.

Lemma multiply_ok G self xs z : G !! self = Some xs -> Z.of_nat (length xs) * z < 2 ^ 30 ->
  implements (list_multiply self z) G (or_no_memory G (returns_new G (mjoin (replicate (Z.to_nat z) xs)))).
Proof.
  intros HG Hz s Hs. destruct (heap_ok_list _ _ _ _ Hs HG) as (k & p & Hr & Hsz & Hheap & _). pose proof Hr as [Ho Ha Hm].
  unfold list_multiply. step_list Ho. set (t := Z.to_nat z). set (n := (t * length xs)%nat).
  assert (Et : (if z <? 0 then 0 else z) = Z.of_nat t) by (unfold t; case_conditions; lia). rewrite Et, Nat2Z.id.
  assert (Hn30 : Z.of_nat n < 2 ^ 30) by (unfold n; rewrite Nat2Z.inj_mul; destruct (Z.ltb_spec z 0); nia).
  replace (wrap 32 _) with (Z.of_nat n) by (rewrite wrap_id; unfold n in *; lia).
  destruct (list_new_run n s ltac:(lia)) as (a & [(b & Hb & Hf)|(Hk & Hn)]).
  { rewrite (X_bind_Raise _ _ _ _ _ Hf). by apply no_new_list. }
  change (_ ++ _) with (filling n []) in Hn. step Hn.
  step (get_list_run _ _ _ (fresh_list_obj (Z.of_nat n) (filling n []) a s)). cbn [l_items].
  pose proof (seq_multiply_run G s self xs k p (Z.of_nat n) n a t [] Hs Hr ltac:(simpl; lia)) as Hc. step Hc. simpl app.
  assert (Elen : length (mjoin (replicate t xs)) = n).
  { unfold n. clear. induction t as [|t IH]; simpl; [done|]. by rewrite length_app, IH. }
  rewrite filling_full by done. rewrite <- Elen in *. apply (finish_new s G); [done..|]. intros r G' H'. by left.
Qed.

(** ** Loading a slice *)

(** Lists that were there are unchanged, and nothing was returned. *)
Definition or_garbage {A} G (Q : res A -> gmap nat (list mp_obj) -> Prop) (r : res A) G' : Prop :=
  Q r G' \/ r = Raise MemoryError /\ G ⊆ G'.

Lemma extract_run G0 self xs k p st : forall n acc start s G o k2 q,
  lists_ok s G -> G = <[o := acc]> G0 -> o <> self -> list_rep s self xs k p -> list_rep s o acc k2 q ->
  let step := sl_step st in
  let stop := if step <? 0 then sl_stop st - 1 else sl_stop st in
  step <> 0 -> n = length (slice_positions start stop step) ->
  Forall (fun i => 0 <= i < Z.of_nat (length xs)) (slice_positions start stop step) ->
  Z.of_nat (length xs) + Z.abs step <= 2 ^ 31 ->
  forall fuel, (n <= fuel)%nat ->
  exists r s' G', extract_loop fuel p st o start s = Some (r, s') /\ lists_ok s' G'
    /\ (r = Ok tt /\ G' = <[o := acc ++ omap (fun i => xs !! Z.to_nat i) (slice_positions start stop step)]> G0
        \/ r = Raise MemoryError /\ exists ys, G' = <[o := ys]> G0).
Proof.
  induction n as [|n IH]; intros acc start s G o k2 q Hs HG Hne Hr Hro step stop Hstep Hn Hpos Hov fuel Hfuel.
  - assert (Hc : (if step <? 0 then stop <? start else start <? stop) = false).
    { apply not_true_is_false. intros E. rewrite (slice_positions_cons _ _ _ Hstep E) in Hn. simpl in Hn. lia. }
    assert (Hloop : (if sl_step st <? 0 then sl_stop st <=? start else start <? sl_stop st) = false).
    { subst step stop. destruct (Z.ltb_spec (sl_step st) 0); [|done]. lia. }
    exists (Ok tt), s, G. split; [destruct fuel; simpl; by rewrite Hloop|]. split; [done|]. left. split; [done|].
    rewrite (slice_positions_nil _ _ _ Hc). simpl. by rewrite app_nil_r.
  - assert (Hc : (if step <? 0 then stop <? start else start <? stop) = true).
    { apply not_false_is_true. intros E. rewrite (slice_positions_nil _ _ _ E) in Hn. simpl in Hn. lia. }
    assert (Hloop : (if sl_step st <? 0 then sl_stop st <=? start else start <? sl_stop st) = true).
    { subst step stop. destruct (Z.ltb_spec (sl_step st) 0); [lia|done]. }
    rewrite (slice_positions_cons _ _ _ Hstep Hc) in *. apply list.Forall_cons in Hpos as [Hpos0 Hpos].
    destruct (lookup_lt_is_Some_2 xs (Z.to_nat start) ltac:(lia)) as [x Hx]. rewrite omap_lookup_cons, Hx.
    destruct fuel as [|fuel]; [lia|]. cbn [extract_loop]. rewrite Hloop.
    pose proof (load_run p xs k s (Z.to_nat start) x (lr_array _ _ _ _ _ Hr) Hx) as Hl. rewrite Z2Nat.id in Hl by lia. step Hl.
    assert (Hbytes : 4 * Z.of_nat (length acc + k2) <= heap_bytes s /\ heap_bytes s < 2 ^ 30).
    { split; [|apply (ho_heap _ _ Hs)]. pose proof (ho_size _ _ Hs q _ (lr_array _ _ _ _ _ Hro)) as H. by rewrite length_array_of in H. }
    destruct (append_run s G o acc k2 q x Hs Hro ltac:(lia) ltac:(lia)) as (a & [Hf|(k' & q' & b & Hq & Hk1 & Hk2 & Ha)]).
    + exists (Raise MemoryError), (with_answers a s), G. rewrite (X_bind_Raise _ _ _ _ _ Hf). split; [done|].
      split; [by apply heap_ok_answers|]. right. split; [done|]. by exists acc.
    + step Ha. set (s1 := opened o _ _ q' _ q a b s) in *.
      assert (Hs1 : lists_ok s1 (<[o := acc ++ [x]]> G)) by (by apply (heap_ok_opened s G o acc k2 q)).
      assert (Hadd : xlift (sadd start (sl_step st)) s1 = Some (Ok (start + step), s1)).
      { unfold xlift. rewrite sadd_ok; [done|]. subst step. lia. }
      step Hadd.
      destruct (IH (acc ++ [x]) (start + step) s1 (<[o := acc ++ [x]]> G) o k' q' Hs1) with (fuel := fuel)
        as (r & s' & G' & Hrun & Hs' & HQ); try done.
      * by rewrite HG, insert_insert_eq.
      * by eapply opened_frame.
      * constructor; simpl; [by rewrite lookup_insert_eq|by rewrite lookup_insert_eq|done].
      * simpl in Hn. fold step stop. lia.
      * lia.
      * exists r, s', G'. split; [done|]. split; [done|]. fold step stop in HQ. by rewrite <- app_assoc in HQ.
Qed.

Lemma positions_length start stop k n : k <> 0 -> Forall (fun i => 0 <= i < n) (slice_positions start stop k) ->
  (length (slice_positions start stop k) <= Z.to_nat n)%nat.
Proof.
  intros Hk Hf. assert (Hd : NoDup (slice_positions start stop k)).
  { unfold slice_positions. apply NoDup_fmap_2; [|apply NoDup_seqZ]. intros i j E. nia. }
  assert (Hsub : slice_positions start stop k ⊆ seqZ 0 n).
  { intros i Hi. rewrite list.Forall_forall in Hf. specialize (Hf i Hi). apply elem_of_seqZ. lia. }
  pose proof (submseteq_length _ _ (NoDup_submseteq _ _ Hd Hsub)) as H. by rewrite length_seqZ in H.
Qed.

(** The bounds of a slice are machine integers, the step is not 0, and the stop is not the
    largest integer when the step is negative (one is added to it). *)
Definition slice_args (slice : mp_obj_slice_t) (a b k : option Z) : Prop :=
  py_slice_args slice = Ok (a, b, k) /\ (step_value k < 0 -> b <> Some (2 ^ 31 - 1)).

Lemma slice_args_values slice a b k : slice_args slice a b k ->
  arg_value (ostart slice) a /\ arg_value (ostop slice) b /\ arg_value (ostep slice) k /\ step_value k <> 0
  /\ (step_value k < 0 -> b <> Some (2 ^ 31 - 1)).
Proof.
  intros [H Hmax]. unfold py_slice_args in H. destruct (index_arg (ostep slice)) as [k'|] eqn:Ek; [|done].
  destruct (Z.eqb_spec (step_value k') 0); [done|].
  destruct (index_arg (ostart slice)) as [a'|] eqn:Ea, (index_arg (ostop slice)) as [b'|] eqn:Eb; simplify_eq.
  by repeat split; try apply index_arg_value.
Qed.

Lemma load_slice_ok G self xs slice a b k : G !! self = Some xs -> slice_args slice a b k -> Z.of_nat (length xs) + Z.abs (step_value k) <= 2 ^ 31 ->
  implements (list_load_slice self slice) G (or_garbage G (returns_new G (py_slice xs a b (step_value k)))).
Proof.
  intros HG (Hsa & Hsb & Hsk & Hz & Hmax)%slice_args_values Hov s Hs. destruct (heap_ok_list _ _ _ _ Hs HG) as (k0 & p & Hr & Hsz & Hheap & _).
  pose proof Hr as [Ho Ha Hm]. unfold list_load_slice. step_list Ho.
  step (fast_slice_run s (Z.of_nat (length xs)) slice a b k ltac:(lia) Hsa Hsb Hsk Hz Hmax).
  assert (Hgarbage : forall Q r G', or_no_memory (A := nat) G Q r G' -> or_garbage G Q r G').
  { intros Q r G' [H|[-> ->]]; [by left|right; done]. }
  destruct (Z.eqb_spec (step_value k) 1) as [E1|E1]; cbn [negb sl_start sl_stop sl_step].
  - rewrite E1 in *. destruct (py_slice_segment xs a b) as (Hij & -> & Ei & Ej). rewrite Ei, Ej, ?Nat2Z.id.
    set (i := Z.to_nat (py_start _ 1 a)) in *. set (j := Z.to_nat (code_stop _ 1 a b)) in *.
    replace (wrap 32 (Z.of_nat j - Z.of_nat i)) with (Z.of_nat (j - i)) by (rewrite wrap_id; lia).
    set (n := (j - i)%nat). destruct (list_new_run n s ltac:(lia)) as (c & [(d & Hd & Hf)|(Hk & Hn)]).
    { rewrite (X_bind_Raise _ _ _ _ _ Hf). destruct (no_new_list s G c d (returns_new G (take n (drop i xs))) Hs Hd)
        as (r & s' & G' & H1 & H2 & H3). exists r, s', G'. by split; [|split; [|apply Hgarbage]]. }
    change (_ ++ _) with (filling n []) in Hn. step Hn.
    step (get_list_run _ _ _ (fresh_list_obj (Z.of_nat n) (filling n []) c s)). cbn [l_items l_len].
    pose proof (memcpy_filling G (Z.of_nat n) n [] c s self xs k0 p i n Hs Hr ltac:(lia) ltac:(simpl; lia)) as Hc.
    step Hc. simpl app. assert (El : length (take n (drop i xs)) = n) by (rewrite length_take, length_drop; lia).
    rewrite filling_full by done. clear Hc Hn. clearbody n. revert El. generalize (take n (drop i xs)). intros ys El. subst n.
    apply (finish_new s G); [done..|].
    intros r G' H. by left.
  - unfold mp_seq_extract_slice, mp_obj_new_list. rewrite X_bind_assoc.
    destruct (list_new_run 0 s ltac:(lia)) as (c & [(d & Hd & Hf)|(Hk & Hn)]).
    { rewrite (X_bind_Raise _ _ _ _ _ Hf). destruct (no_new_list s G c d (returns_new G (py_slice xs a b (step_value k))) Hs Hd)
        as (r & s' & G' & H1 & H2 & H3). exists r, s', G'. by split; [|split; [|apply Hgarbage]]. }
    simpl in Hn. change (Null :: _) with (array_of [] 4) in Hn. step Hn. rewrite X_bind_assoc.
    step (get_list_run _ _ _ (fresh_list_obj 0 (array_of [] 4) c s)).
    set (s1 := fresh_list 0 (array_of [] 4) c s). rewrite (X_bind_Ok _ _ s1 (list_brk s) s1) by done.
    assert (Hs1 : lists_ok s1 (<[list_brk s := []]> G)).
    { apply (heap_ok_fresh s G [] 4); [done| |simpl; lia]. unfold new_alloc in Hk. simpl in *. lia. }
    pose proof (fresh_none s G Hs) as Hnone. assert (Hne : list_brk s <> self) by (intros E; congruence).
    assert (Hpos := slice_positions_range (Z.of_nat (length xs)) (step_value k) a b ltac:(lia) Hz).
    assert (Estop : slice_positions (py_start (Z.of_nat (length xs)) (step_value k) a)
        (if step_value k <? 0 then code_stop (Z.of_nat (length xs)) (step_value k) a b - 1 else code_stop (Z.of_nat (length xs)) (step_value k) a b)
        (step_value k) = slice_positions (py_start (Z.of_nat (length xs)) (step_value k) a) (py_stop (Z.of_nat (length xs)) (step_value k) b) (step_value k)).
    { unfold slice_positions, code_stop. f_equal. f_equal. unfold slice_length. destruct (Z.ltb_spec (step_value k) 0).
      - case_conditions; try lia. do 2 f_equal. lia.
      - case_conditions; try lia. do 2 f_equal. lia. }
    destruct (extract_run G self xs k0 p (MkBound (py_start (Z.of_nat (length xs)) (step_value k) a)
        (code_stop (Z.of_nat (length xs)) (step_value k) a b) (step_value k))
        (length (slice_positions (py_start (Z.of_nat (length xs)) (step_value k) a) (py_stop (Z.of_nat (length xs)) (step_value k) b) (step_value k)))
        [] (py_start (Z.of_nat (length xs)) (step_value k) a)
        s1 (<[list_brk s := []]> G) (list_brk s) 4 (S (list_brk s)) Hs1 eq_refl Hne) with (fuel := (Z.to_nat (Z.of_nat (length xs)) + 1)%nat)
      as (r & s' & G' & Hrun & Hs' & HQ).
    + by eapply fresh_frame.
    + constructor; [apply (fresh_list_obj 0 (array_of [] 4))|apply fresh_list_array|simpl; lia].
    + done.
    + cbn [sl_step sl_stop]. by rewrite Estop.
    + cbn [sl_step sl_stop]. by rewrite Estop.
    + cbn [sl_step]. lia.
    + pose proof (positions_length _ _ _ _ Hz Hpos). lia.
    + cbn [sl_step sl_stop] in HQ. rewrite Estop in HQ. destruct HQ as [[-> ->]|[-> [ys ->]]].
      * step Hrun. eexists _, s', _. split; [done|]. split; [done|]. left. by exists (list_brk s).
      * rewrite (X_bind_Raise _ _ _ _ _ Hrun). eexists _, s', _. split; [done|]. split; [done|]. right. split; [done|].
        by apply insert_subseteq.
Qed.
(** ** Replacing a slice in place *)

Lemma lookup_array xs k n : array_of xs k !! n
  = if (n <? length xs)%nat then Obj <$> xs !! n else if (n <? length xs + k)%nat then Some Null else None.
Proof.
  unfold array_of. case_conditions.
  - rewrite lookup_app_l by (rewrite length_fmap; lia). apply list_lookup_fmap.
  - rewrite lookup_app_r by (rewrite length_fmap; lia). rewrite length_fmap. apply lookup_replicate_2. lia.
  - apply lookup_ge_None_2. rewrite length_app, length_fmap, length_replicate. lia.
Qed.

Lemma write_opened_at (i : nat) its self alloc len p' buf old a b s : (i + length its <= length buf)%nat ->
  write p' (Z.of_nat i) its (opened self alloc len p' buf old a b s)
  = Some (Ok tt, opened self alloc len p' (put_at i its buf) old a b s).
Proof. intros. rewrite (write_put_at p' buf) by (done || apply array_opened). by rewrite put_opened. Qed.

(** The segment of [xs] from [i] to [j] replaced by [ys]. *)
Definition replace_segment xs (i j : nat) ys : list mp_obj := take i xs ++ ys ++ drop j xs.

Lemma length_replace_segment xs i j ys : (i <= j <= length xs)%nat ->
  length (replace_segment xs i j ys) = (length xs + length ys - (j - i))%nat.
Proof. intros. unfold replace_segment. rewrite !length_app, length_take, length_drop. lia. Qed.

Lemma lookup_replace_segment xs i j ys n : (i <= j <= length xs)%nat ->
  replace_segment xs i j ys !! n
  = if (n <? i)%nat then xs !! n else if (n <? i + length ys)%nat then ys !! (n - i)%nat else xs !! (n - i - length ys + j)%nat.
Proof.
  intros Hij. unfold replace_segment. case_conditions.
  - rewrite lookup_app_l by (rewrite length_take; lia). by apply lookup_take_lt; lia.
  - rewrite lookup_app_r by (rewrite length_take; lia). rewrite length_take, Nat.min_l by lia. by apply lookup_app_l; lia.
  - rewrite lookup_app_r by (rewrite length_take; lia). rewrite length_take, Nat.min_l by lia. rewrite lookup_app_r by lia.
    rewrite lookup_drop. f_equal. lia.
Qed.

(** The items after the segment move to their new place. *)
Lemma move_tail self alloc len p' old a b s xs buf i m j :
  (i <= length xs)%nat -> (j + (length xs - i) <= length buf)%nat -> (j <= length buf)%nat ->
  (forall n, (i <= n < length xs)%nat -> buf !! n = Obj <$> xs !! n) ->
  Z.of_nat (length xs) - Z.of_nat i = m -> (length xs <= length buf)%nat ->
  memmove p' (Z.of_nat j) p' (Z.of_nat i) m (opened self alloc len p' buf old a b s)
  = Some (Ok tt, opened self alloc len p' (put_at j (Obj <$> drop i xs) buf) old a b s).
Proof.
  intros Hi Hj Hj2 Hbuf <- Hlen. unfold memmove.
  assert (Hr : read p' (Z.of_nat i) (Z.of_nat (length xs) - Z.of_nat i) (opened self alloc len p' buf old a b s)
    = Some (Ok (Obj <$> drop i xs), opened self alloc len p' buf old a b s)).
  { rewrite read_opened by lia. do 3 f_equal. rewrite Nat2Z.id. apply list_eq. intros n.
    destruct (decide (n < length xs - i)%nat).
    - rewrite lookup_take_lt by lia. rewrite lookup_drop, Hbuf by lia. by rewrite list_lookup_fmap, lookup_drop.
    - rewrite !lookup_ge_None_2; [done|rewrite length_fmap, length_drop; lia|rewrite length_take; lia]. }
  step Hr. apply write_opened_at. rewrite length_fmap, length_drop. lia.
Qed.

Lemma no_grow_run self alloc len p a b s xs k i j q ys :
  let st buf := opened self alloc len p buf p a b s in
  (i + length ys <= j)%nat -> (j <= length xs)%nat -> (q = p -> ys = []) ->
  read q 0 (Z.of_nat (length ys)) (st (array_of xs k)) = Some (Ok (Obj <$> ys), st (array_of xs k)) ->
  (replace_no_grow p (Z.of_nat (length xs)) (Z.of_nat i) (Z.of_nat j) q (Z.of_nat (length ys));;
   mp_seq_clear p (Z.of_nat (length xs) + (Z.of_nat (length ys) - (Z.of_nat j - Z.of_nat i))) (Z.of_nat (length xs)))
    (st (array_of xs k))
  = Some (Ok tt, st (array_of (replace_segment xs i j ys) (k + (j - i - length ys)))).
Proof.
  intros st Hi Hj Hq Hread. unfold replace_no_grow. rewrite X_bind_assoc.
  assert (Hla : length (array_of xs k) = (length xs + k)%nat) by apply length_array_of.
  assert (Hw : memcpy p (Z.of_nat i) q 0 (Z.of_nat (length ys)) (st (array_of xs k))
    = Some (Ok tt, st (put_at i (Obj <$> ys) (array_of xs k)))).
  { erewrite memcpy_run; [apply write_opened_at; rewrite length_fmap; lia| |lia|exact Hread].
    intros E. left. by rewrite (Hq (eq_sym E)). }
  step Hw. set (buf1 := put_at i (Obj <$> ys) (array_of xs k)).
  assert (Hl1 : length buf1 = (length xs + k)%nat) by (unfold buf1; by rewrite length_put_at by (rewrite length_fmap; lia)).
  replace (Z.of_nat i + Z.of_nat (length ys)) with (Z.of_nat (i + length ys)) by lia.
  assert (Hm : memmove p (Z.of_nat (i + length ys)) p (Z.of_nat j) (Z.of_nat (length xs) - Z.of_nat j) (st buf1)
    = Some (Ok tt, st (put_at (i + length ys) (Obj <$> drop j xs) buf1))).
  { apply move_tail; [lia..| |lia|lia]. intros n Hn. unfold buf1. rewrite lookup_put_at by (rewrite length_fmap; lia).
    rewrite length_fmap, lookup_array. by case_conditions; try lia. }
  step Hm.
  set (buf2 := put_at _ _ buf1). assert (Hl2 : length buf2 = (length xs + k)%nat)
    by (unfold buf2; rewrite length_put_at by (rewrite length_fmap, length_drop; lia); done).
  unfold mp_seq_clear. replace (Z.of_nat (length xs) + _) with (Z.of_nat (length xs + length ys - (j - i))) by lia.
  unfold st. rewrite write_opened_at by (rewrite length_replicate; lia). do 3 f_equal. apply list_eq. intros n. rewrite lookup_put_at by (rewrite length_replicate; lia). rewrite length_replicate.
  unfold buf2. rewrite lookup_put_at by (rewrite length_fmap, length_drop; lia). rewrite length_fmap, length_drop.
  unfold buf1. rewrite lookup_put_at by (rewrite length_fmap; lia). rewrite length_fmap, !lookup_array.
  rewrite length_replace_segment, lookup_replace_segment by lia. rewrite !list_lookup_fmap, lookup_drop.
  case_conditions; try lia; try done; try (apply lookup_replicate_2; lia); repeat (f_equal; try lia).
Qed.
(** ** Deleting and assigning slices *)

(** [r] and the lists afterwards, when the step of the slice has to be 1. *)
Definition fast_slice_only G self (k : option Z) xs' (r : res unit) G' : Prop :=
  if step_value k =? 1 then r = Ok tt /\ G' = <[self := xs']> G else r = Raise NotImplementedError /\ G' = G.

Definition py_set_slice xs (a b : option Z) ys : list mp_obj :=
  let len := Z.of_nat (length xs) in
  replace_segment xs (Z.to_nat (py_start len 1 a)) (Z.to_nat (Z.max (py_start len 1 a) (py_stop len 1 b))) ys.

Lemma delete_slice_ok G self xs slice a b k : G !! self = Some xs -> slice_args slice a b k ->
  implements (list_delete_slice self slice) G (fast_slice_only G self k (py_set_slice xs a b [])).
Proof.
  intros HG (Hsa & Hsb & Hsk & Hz & Hmax)%slice_args_values s Hs. destruct (heap_ok_list _ _ _ _ Hs HG) as (k0 & p & Hr & Hsz & Hheap & _).
  pose proof Hr as [Ho Ha Hm]. unfold list_delete_slice. step_list Ho.
  step (fast_slice_run s (Z.of_nat (length xs)) slice a b k ltac:(lia) Hsa Hsb Hsk Hz Hmax). unfold fast_slice_only.
  destruct (Z.eqb_spec (step_value k) 1) as [E1|E1]; cbn [negb sl_start sl_stop]; [|by eexists _, s, G].
  rewrite E1 in *. destruct (py_slice_segment xs a b) as (Hij & _ & Ei & Ej). unfold py_set_slice. fold (code_stop (Z.of_nat (length xs)) 1 a b).
  change (py_start (Z.of_nat (length xs)) 1 a `max` _) with (code_stop (Z.of_nat (length xs)) 1 a b).
  set (i := Z.to_nat (py_start _ 1 a)) in *. set (j := Z.to_nat (code_stop _ 1 a b)) in *. rewrite Ei, Ej. clearbody i j.
  replace (0 <? Z.of_nat i - Z.of_nat j) with false by lia.
  rewrite <- X_bind_assoc.
  pose proof (no_grow_run self (Z.of_nat (length xs + k0)) (Z.of_nat (length xs)) p (answers s) (list_brk s) s xs k0 i j p []
    ltac:(simpl; lia) ltac:(lia) ltac:(done) ltac:(done)) as Hrun. cbv beta zeta in Hrun.
  rewrite <- (opened_start s self xs k0 p Hr) in Hrun.
  replace (Z.of_nat (length (A := mp_obj) []) - (Z.of_nat j - Z.of_nat i)) with (Z.of_nat i - Z.of_nat j) in Hrun by (simpl; lia).
  change (Z.of_nat (length (A := mp_obj) [])) with 0 in Hrun. step Hrun. rewrite set_len_opened.
  pose proof (length_replace_segment xs i j [] Hij) as Hlen. simpl in Hlen.
  eapply (finish_ok s G self xs k0 p); try (done || lia || by left); simpl length; lia.
Qed.

(** Growth in place, when there is room. *)
Lemma grow_inplace_run self alloc len p' a b s old xs rest k i j q ys :
  let st buf := opened self alloc len p' buf old a b s in
  let buf := (Obj <$> xs) ++ rest in
  (i <= j <= length xs)%nat -> (j - i < length ys)%nat -> length rest = (length ys - (j - i) + k)%nat ->
  drop (length ys - (j - i)) rest = replicate k Null ->
  (forall buf, read q 0 (Z.of_nat (length ys)) (st buf) = Some (Ok (Obj <$> ys), st buf)) ->
  replace_grow_inplace p' (Z.of_nat (length xs)) (Z.of_nat i) (Z.of_nat j) q (Z.of_nat (length ys))
    (Z.of_nat (length ys) - (Z.of_nat j - Z.of_nat i)) (st buf)
  = Some (Ok tt, st (array_of (replace_segment xs i j ys) k)).
Proof.
  intros st buf Hij Hys Hrest Hk Hread. unfold replace_grow_inplace.
  assert (Hlen : length buf = (length xs + length rest)%nat) by (unfold buf; by rewrite length_app, length_fmap).
  assert (Hb : forall n, buf !! n = if (n <? length xs)%nat then Obj <$> xs !! n else rest !! (n - length xs)%nat).
  { intros n. unfold buf. case_conditions.
    - rewrite lookup_app_l by (rewrite length_fmap; lia). apply list_lookup_fmap.
    - rewrite lookup_app_r by (rewrite length_fmap; lia). by rewrite length_fmap. }
  replace (Z.of_nat i + Z.of_nat (length ys)) with (Z.of_nat (i + length ys)) by lia.
  replace (Z.of_nat (length xs) + _ - _) with (Z.of_nat (length xs) - Z.of_nat j) by lia.
  assert (Hm : memmove p' (Z.of_nat (i + length ys)) p' (Z.of_nat j) (Z.of_nat (length xs) - Z.of_nat j) (st buf)
    = Some (Ok tt, st (put_at (i + length ys) (Obj <$> drop j xs) buf))).
  { apply move_tail; [lia..| |lia|lia]. intros n Hn. rewrite Hb. by case_conditions; try lia. }
  step Hm. set (buf1 := put_at _ _ buf).
  assert (Hl1 : length buf1 = (length xs + length rest)%nat) by (unfold buf1; by rewrite length_put_at by (rewrite length_fmap, length_drop; lia)).
  unfold memmove. step (Hread buf1). unfold st. rewrite write_opened_at by (rewrite length_fmap; lia). do 3 f_equal.
  apply list_eq. intros n. rewrite lookup_put_at by (rewrite length_fmap; lia). rewrite length_fmap.
  unfold buf1. rewrite lookup_put_at by (rewrite length_fmap, length_drop; lia). rewrite length_fmap, length_drop, Hb.
  rewrite lookup_array, length_replace_segment, lookup_replace_segment by lia. rewrite !list_lookup_fmap, lookup_drop.
  assert (Hr : forall m, (length ys - (j - i) <= m)%nat -> rest !! m = if (m <? length ys - (j - i) + k)%nat then Some Null else None).
  { intros m Hm'. replace m with (length ys - (j - i) + (m - (length ys - (j - i))))%nat at 1 by lia. rewrite <- lookup_drop, Hk.
    case_conditions; [apply lookup_replicate_2; lia|apply lookup_replicate_None; lia]. }
  case_conditions; try lia; try done; try (rewrite Hr by lia; case_conditions; (lia || done)); repeat (f_equal; try lia).
Qed.

Lemma store_slice_ok G self value xs ys slice a b k : G !! self = Some xs -> G !! value = Some ys -> value <> self ->
  slice_args slice a b k ->
  implements (list_store_slice self slice value) G (or_no_memory G (fast_slice_only G self k (py_set_slice xs a b ys))).
Proof.
  intros HG Hy Hne (Hsa & Hsb & Hsk & Hz & Hmax)%slice_args_values s Hs.
  destruct (heap_ok_list _ _ _ _ Hs HG) as (k0 & p & Hr & Hsz & Hheap & _). pose proof Hr as [Ho Ha Hm].
  destruct (heap_ok_list _ _ _ _ Hs Hy) as (k2 & q & Hr2 & Hsz2 & _). pose proof Hr2 as [Ho2 _ _].
  unfold list_store_slice. step_list Ho. step_list Ho2.
  step (fast_slice_run s (Z.of_nat (length xs)) slice a b k ltac:(lia) Hsa Hsb Hsk Hz Hmax). unfold fast_slice_only.
  destruct (Z.eqb_spec (step_value k) 1) as [E1|E1]; cbn [negb sl_start sl_stop].
  2:{ eexists _, s, G. split; [done|]. split; [done|]. by left. }
  rewrite E1 in *. destruct (py_slice_segment xs a b) as (Hij & _ & Ei & Ej). unfold py_set_slice.
  change (py_start (Z.of_nat (length xs)) 1 a `max` _) with (code_stop (Z.of_nat (length xs)) 1 a b).
  set (i := Z.to_nat (py_start _ 1 a)) in *. set (j := Z.to_nat (code_stop _ 1 a b)) in *. rewrite Ei, Ej. clearbody i j.
  pose proof (length_replace_segment xs i j ys Hij) as Hlen.
  assert (Hread : forall alloc len p' buf a b, p' = p /\ b = list_brk s \/ p' = list_brk s /\ b = S (list_brk s) ->
    let st := opened self alloc len p' buf p a b s in read q 0 (Z.of_nat (length ys)) st = Some (Ok (Obj <$> ys), st)).
  { intros alloc len p' buf c d Hp st. pose proof (rep_read st value ys k2 q 0 (length ys)) as H.
    rewrite drop_0, take_ge in H by lia. apply H; [by eapply opened_frame|lia]. }
  assert (Hqp : q <> p) by (intros ->; apply Hne; by eapply (ho_inj _ _ Hs)).
  destruct (Z.ltb_spec 0 (Z.of_nat (length ys) - (Z.of_nat j - Z.of_nat i))) as [Hgrow|Hshrink].
  - set (adj := Z.of_nat (length ys) - (Z.of_nat j - Z.of_nat i)) in *.
    destruct (Z.ltb_spec (Z.of_nat (length xs + k0)) (Z.of_nat (length xs) + adj)) as [Hfull|Hroom].
    + set (n := (length xs + (length ys - (j - i)))%nat).
      replace (Z.of_nat (length xs) + adj) with (Z.of_nat n) by lia.
      destruct (grow_run (fun _ => mret tt) s G self xs k0 p n Hs Hr) as (c & [Hf|(Hk & p' & d & Hp' & Hf)]); [lia..| |];
        rewrite X_bind_assoc.
      * rewrite (X_bind_Raise _ _ _ _ _ Hf). by apply no_memory_ok.
      * step Hf. rewrite X_bind_assoc. step (get_list_opened self (Z.of_nat n) (Z.of_nat (length xs)) p'
          (array_of xs k0 ++ replicate (n - (length xs + k0)) Undef) p c d s). cbn [l_items l_len].
        unfold array_of. rewrite <- app_assoc.
        step (grow_inplace_run self (Z.of_nat n) (Z.of_nat (length xs)) p' c d s p xs
          (replicate k0 Null ++ replicate (n - (length xs + k0)) Undef) 0 i j q ys ltac:(lia) ltac:(lia)
          ltac:(rewrite length_app, !length_replicate; lia) ltac:(apply drop_ge; rewrite length_app, !length_replicate; lia)
          (fun buf => Hread _ _ _ _ _ _ Hp')).
        rewrite set_len_opened. eapply (finish_ok s G self xs k0 p); try (done || lia || by left).
    + rewrite X_bind_assoc. rewrite (X_bind_Ok _ _ s tt s) by done. rewrite X_bind_assoc. step_list Ho.
      set (k' := (k0 - (length ys - (j - i)))%nat).
      pose proof (grow_inplace_run self (Z.of_nat (length xs + k0)) (Z.of_nat (length xs)) p (answers s) (list_brk s) s p xs
        (replicate k0 Null) k' i j q ys ltac:(lia) ltac:(lia)
        ltac:(rewrite length_replicate; lia) ltac:(rewrite drop_replicate; f_equal; lia)
        (fun buf => Hread _ _ _ _ _ _ (or_introl (conj eq_refl eq_refl)))) as Hrun.
      cbv beta zeta in Hrun. change ((Obj <$> xs) ++ replicate k0 Null) with (array_of xs k0) in Hrun.
      rewrite <- (opened_start s self xs k0 p Hr) in Hrun. step Hrun. rewrite set_len_opened.
      eapply (finish_ok s G self xs k0 p); try (done || lia || by left).
  - pose proof (no_grow_run self (Z.of_nat (length xs + k0)) (Z.of_nat (length xs)) p (answers s) (list_brk s) s xs k0 i j q ys
      ltac:(lia) ltac:(lia) ltac:(done) (Hread _ _ _ _ _ _ (or_introl (conj eq_refl eq_refl)))) as Hrun. cbv beta zeta in Hrun.
    rewrite <- (opened_start s self xs k0 p Hr) in Hrun. step Hrun. rewrite set_len_opened.
    eapply (finish_ok s G self xs k0 p); try (done || lia || by left).
Qed.
(** The arguments of a slice are looked at before anything is changed. *)
Lemma slice_raises G self xs slice e s : lists_ok s G -> G !! self = Some xs -> py_slice_args slice = Raise e ->
  list_load_slice self slice s = Some (Raise e, s) /\ list_delete_slice self slice s = Some (Raise e, s)
  /\ forall value ys, G !! value = Some ys -> list_store_slice self slice value s = Some (Raise e, s).
Proof.
  intros Hs HG He. destruct (heap_ok_list _ _ _ _ Hs HG) as (k & p & [Ho _ _] & Hsz & Hheap & _).
  pose proof (fast_slice_raises s (Z.of_nat (length xs)) slice e ltac:(lia) He) as Hr.
  split; [|split; [|intros value ys Hv; destruct (heap_ok_list _ _ _ _ Hs Hv) as (k2 & q & [Ho2 _ _] & _)]].
  - unfold list_load_slice. step_list Ho. by apply X_bind_Raise.
  - unfold list_delete_slice. step_list Ho. by apply X_bind_Raise.
  - unfold list_store_slice. step_list Ho. step_list Ho2. by apply X_bind_Raise.
Qed.
End Slices.
