(* ===== verification/ObjListThms.v ===== *)
(** The operations of lists against the sequences of Python. *)
From Stdlib Require Import ZifyBool.
From S2P Require Import Prelude PyExn Map ObjSeq ObjList ObjListSpec ObjListOps ObjListEdit ObjListSlice.

Section Thms.
Context {MO : MpObj} {MC : MpCalls MO}.
Implicit Types (s : lists) (xs ys : list mp_obj) (x : mp_obj) (G : gmap nat (list mp_obj)).

(** ** The interface of lists *)

Inductive list_op :=
  | OAppend (self : nat) (x : mp_obj)
  | OExtend (self arg : nat)
  | OPop (self : nat) (index : option py_index)
  | OClear (self : nat)
  | OCopy (self : nat)
  | OCount (self : nat) (x : mp_obj)
  | OIndex (self : nat) (x : mp_obj) (start stop : option py_index)
  | OInsert (self : nat) (index : Z) (x : mp_obj)
  | ORemove (self : nat) (x : mp_obj)
  | OReverse (self : nat)
  | OAdd (self rhs : nat)
  | OMultiply (self : nat) (n : Z)
  | OLoad (self : nat) (index : py_index)
  | OStore (self : nat) (index : py_index) (x : mp_obj)
  | ODelete (self : nat) (index : py_index)
  | OLoadSlice (self : nat) (slice : mp_obj_slice_t)
  | OStoreSlice (self : nat) (slice : mp_obj_slice_t) (value : nat)
  | ODeleteSlice (self : nat) (slice : mp_obj_slice_t).

Inductive list_val := VNone | VObj (o : mp_obj) | VList (l : nat) | VInt (z : Z).

Definition returning {A} (f : A -> list_val) (m : X lists A) : X lists list_val := a ← m; mret (f a).

Definition run_list_op (op : list_op) : X lists list_val :=
  let none := returning (fun _ : unit => VNone) in
  match op with
  | OAppend self x => none (mp_obj_list_append self x)
  | OExtend self arg => none (list_extend self arg)
  | OPop self index => returning VObj (list_pop self index)
  | OClear self => none (list_clear self)
  | OCopy self => returning VList (list_copy self)
  | OCount self x => returning VInt (list_count self x)
  | OIndex self x start stop => returning VInt (list_index self x start stop)
  | OInsert self index x => none (list_insert self index x)
  | ORemove self x => none (mp_obj_list_remove self x)
  | OReverse self => none (list_reverse self)
  | OAdd self rhs => returning VList (list_add self rhs)
  | OMultiply self n => returning VList (list_multiply self n)
  | OLoad self index => returning VObj (list_load self index)
  | OStore self index x => none (mp_obj_list_store self index x)
  | ODelete self index => none (list_delete self index)
  | OLoadSlice self slice => returning VList (list_load_slice self slice)
  | OStoreSlice self slice value => none (list_store_slice self slice value)
  | ODeleteSlice self slice => none (list_delete_slice self slice)
  end.

(** ** What Python promises *)

(** The list [self] has [xs], and then [ys]; the result is [r]. *)
Definition becomes G self (ys : list mp_obj) (r : res list_val) G' : Prop := r = Ok VNone /\ G' = <[self := ys]> G.
Definition fails G (e : exn) (r : res list_val) G' : Prop := r = Raise e /\ G' = G.
Definition creates G (ys : list mp_obj) (r : res list_val) G' : Prop :=
  exists o, r = Ok (VList o) /\ G !! o = None /\ G' = <[o := ys]> G.
Definition gives G (v : list_val) (r : res list_val) G' : Prop := r = Ok v /\ G' = G.

Definition at_position {A} (p : res A) G (Q : A -> res list_val -> gmap nat (list mp_obj) -> Prop) r G' : Prop :=
  match p with Ok i => Q i r G' | Raise e => fails G e r G' end.

(** Slices that are assigned or deleted have the step 1. *)
Definition step_one G (k : option Z) (Q : res list_val -> gmap nat (list mp_obj) -> Prop) r G' : Prop :=
  if step_value k =? 1 then Q r G' else fails G NotImplementedError r G'.

(** The arguments of a slice are converted first. *)
Definition with_slice slice G (Q : option Z -> option Z -> option Z -> res list_val -> gmap nat (list mp_obj) -> Prop) r G' : Prop :=
  match py_slice_args slice with Ok (a, b, k) => Q a b k r G' | Raise e => fails G e r G' end.

Definition list_of G self : list mp_obj := default [] (G !! self).

Definition py_list_op G (op : list_op) (r : res list_val) G' : Prop :=
  match op with
  | OAppend self x => becomes G self (list_of G self ++ [x]) r G'
  | OExtend self arg => becomes G self (list_of G self ++ list_of G arg) r G'
  | OPop self index =>
      let xs := list_of G self in
      if decide (xs = []) then fails G IndexError r G'
      else at_position (py_position (length xs) (default (IdxInt (-1)) index)) G
             (fun i r G' => exists x, xs !! i = Some x /\ r = Ok (VObj x) /\ G' = <[self := delete i xs]> G) r G'
  | OClear self => becomes G self [] r G'
  | OCopy self => creates G (list_of G self) r G'
  | OCount self x => gives G (VInt (Z.of_nat (length (filter (fun y => mp_obj_equal y x = true) (list_of G self))))) r G'
  | OIndex self x start stop =>
      let xs := list_of G self in
      at_position (py_search_bound (length xs) 0 start) G (fun i =>
        at_position (py_search_bound (length xs) (length xs) stop) G (fun j r G' =>
          G' = G /\ exists z, found_at xs x i j z /\ r = map_res VInt z)) r G'
  | OInsert self index x => becomes G self (py_insert (list_of G self) index x) r G'
  | ORemove self x =>
      (exists n y, becomes G self (delete n (list_of G self)) r G' /\ list_of G self !! n = Some y /\ mp_obj_equal y x = true
         /\ forall m z, (m < n)%nat -> list_of G self !! m = Some z -> mp_obj_equal z x = false)
      \/ fails G ValueError r G' /\ forall z, z ∈ list_of G self -> mp_obj_equal z x = false
  | OReverse self => becomes G self (reverse (list_of G self)) r G'
  | OAdd self rhs => creates G (list_of G self ++ list_of G rhs) r G'
  | OMultiply self n => creates G (mjoin (replicate (Z.to_nat n) (list_of G self))) r G'
  | OLoad self index =>
      at_position (py_position (length (list_of G self)) index) G
        (fun i r G' => exists x, list_of G self !! i = Some x /\ gives G (VObj x) r G') r G'
  | OStore self index x =>
      at_position (py_position (length (list_of G self)) index) G
        (fun i => becomes G self (<[i := x]> (list_of G self))) r G'
  | ODelete self index =>
      if decide (list_of G self = []) then fails G IndexError r G'
      else at_position (py_position (length (list_of G self)) index) G
        (fun i => becomes G self (delete i (list_of G self))) r G'
  | OLoadSlice self slice => with_slice slice G (fun a b k => creates G (py_slice (list_of G self) a b (step_value k))) r G'
  | OStoreSlice self slice value =>
      with_slice slice G (fun a b k => step_one G k (becomes G self (py_set_slice (list_of G self) a b (list_of G value)))) r G'
  | ODeleteSlice self slice =>
      with_slice slice G (fun a b k => step_one G k (becomes G self (py_set_slice (list_of G self) a b []))) r G'
  end.

Definition op_lists (op : list_op) : list nat :=
  match op with
  | OAppend self _ | OPop self _ | OClear self | OCopy self | OCount self _ | OIndex self _ _ _ | OInsert self _ _
  | ORemove self _ | OReverse self | OMultiply self _ | OLoad self _ | OStore self _ _ | ODelete self _ | OLoadSlice self _
  | ODeleteSlice self _ => [self]
  | OExtend self arg | OAdd self arg | OStoreSlice self _ arg => [self; arg]
  end.

(** One is added to a stop that is not negative when the step is. *)
Definition stop_fits slice : Prop := forall a b k, py_slice_args slice = Ok (a, b, k) -> step_value k < 0 -> b <> Some (2 ^ 31 - 1).

(** What the caller has to see to: the lists exist; a stop for [index] comes with a start; the index of an insertion is a
    small integer; a product is shorter than 2^30; the two sums with the arguments of a slice do not overflow; a list is not assigned to a slice of
    itself. *)
Definition op_pre G (op : list_op) : Prop :=
  Forall (fun l => is_Some (G !! l)) (op_lists op)
  /\ match op with
     | OIndex _ _ start stop => start = None -> stop = None
     | OInsert _ index _ => in_int index = true
     | OMultiply self n => Z.of_nat (length (list_of G self)) * n < 2 ^ 30
     | OLoadSlice self slice => stop_fits slice
         /\ forall a b k, py_slice_args slice = Ok (a, b, k) -> Z.of_nat (length (list_of G self)) + Z.abs (step_value k) <= 2 ^ 31
     | ODeleteSlice _ slice => stop_fits slice
     | OStoreSlice self slice value => stop_fits slice /\ value <> self
     | _ => True
     end.

Lemma returning_ok {A} (f : A -> list_val) (m : X lists A) G P Q : implements m G P ->
  (forall r G', P r G' -> Q (map_res f r) G') -> implements (returning f m) G Q.
Proof.
  intros Hm H s Hs. destruct (Hm s Hs) as (r & s' & G' & Hr & Hs' & HP). exists (map_res f r), s', G'.
  unfold returning. destruct r as [a|e]; [rewrite (X_bind_Ok _ _ _ _ _ Hr)|rewrite (X_bind_Raise _ _ _ _ _ Hr)];
    split; try done; (split; [done|]); apply (H _ _ HP).
Qed.

(** What an operation may do: what Python promises, or fail for want of memory with
    all lists as they were. *)
Definition refines G op (r : res list_val) G' : Prop := py_list_op G op r G' \/ r = Raise MemoryError /\ G ⊆ G'.

Lemma returning_no_memory {A} (f : A -> list_val) (m : X lists A) G P Q : implements m G (or_no_memory G P) ->
  (forall r G', P r G' -> Q (map_res f r) G') ->
  implements (returning f m) G (fun r G' => Q r G' \/ r = Raise MemoryError /\ G ⊆ G').
Proof.
  intros Hm H. apply (returning_ok f m G _ _ Hm). intros r G' [HP|[-> ->]]; [left; by apply H|by right].
Qed.

Lemma returning_done {A} (f : A -> list_val) (m : X lists A) G P Q : implements m G P ->
  (forall r G', P r G' -> Q (map_res f r) G') ->
  implements (returning f m) G (fun r G' => Q r G' \/ r = Raise MemoryError /\ G ⊆ G').
Proof. intros Hm H. apply (returning_ok f m G _ _ Hm). intros r G' HP. left. by apply H. Qed.

Lemma returns_creates G ys r G' : returns_new G ys r G' -> creates G ys (map_res VList r) G'.
Proof. intros (o & -> & Hn & ->). by exists o. Qed.

Lemma fast_slice_step_one G self k ys r G' : fast_slice_only G self k ys r G' ->
  step_one G k (becomes G self ys) (map_res (fun _ => VNone) r) G'.
Proof. unfold fast_slice_only, step_one. destruct (step_value k =? 1); intros [-> ->]; done. Qed.

Lemma returning_run {A} (f : A -> list_val) (m : X lists A) s r s' : m s = Some (r, s') -> returning f m s = Some (map_res f r, s').
Proof. intros H. unfold returning, mbind, X_bind. rewrite H. by destruct r. Qed.

(** Every operation but [clear]. *)
Lemma list_op_other s G op : (forall self, op <> OClear self) -> op_pre G op -> lists_ok s G ->
  exists r s' G', run_list_op op s = Some (r, s') /\ lists_ok s' G' /\ refines G op r G'.
Proof.
  intros Hnc [Hl Hpre] Hs. revert s Hs Hpre. unfold refines.
  assert (Hg : forall self, is_Some (G !! self) -> G !! self = Some (list_of G self)).
  { intros self [xs Hx]. unfold list_of. by rewrite Hx. }
  destruct op; cbn [op_lists run_list_op py_list_op] in *; apply list.Forall_cons in Hl as [H1 Hl]; apply Hg in H1;
    try (apply list.Forall_cons in Hl as [H2 _]; apply Hg in H2); intros s Hs Hpre.
  - revert s Hs Hpre. intros s Hs _. apply (returning_no_memory _ _ _ _ _ (append_ok G self _ x H1)); [|done]. by intros r G' [-> ->].
  - apply (returning_no_memory _ _ _ _ _ (extend_ok G self arg _ _ H1 H2)); [|done]. by intros r G' [-> ->].
  - apply (returning_done _ _ _ _ _ (pop_ok G self _ index H1)); [|done]. intros r G'. unfold py_pop. case_decide; simpl.
    + intros E. simplify_eq. done.
    + destruct (py_position _ _) as [i|e] eqn:Ei; simpl; [|intros E; by simplify_eq].
      destruct (lookup_lt_is_Some_2 _ _ (py_position_lt _ _ _ Ei)) as [x Hx]. rewrite Hx. simpl. intros E. simplify_eq. by exists x.
  - by destruct (Hnc self).
  - apply (returning_no_memory _ _ _ _ _ (copy_ok G self _ H1)); [|done]. intros r G'. apply returns_creates.
  - apply (returning_done _ _ _ _ _ (count_ok G self _ x H1)); [|done]. by intros r G' [-> ->].
  - assert (Hlen : Z.of_nat (length (list_of G self)) < 2 ^ 31).
    { destruct (heap_ok_list _ _ _ _ Hs H1) as (k & p & _ & Hsz & Hheap & _). lia. }
    pose proof (index_obj_found _ x start stop Hlen Hpre) as Hf. unfold returning.
    pose proof (index_run s G self _ x start stop Hs H1) as Hr.
    exists (map_res VInt (mp_seq_index_obj mp_obj_equal (list_of G self) x start stop)), s, G.
    split; [unfold mbind, X_bind; rewrite Hr; by destruct (mp_seq_index_obj _ _ _ _ _)|]. split; [done|]. left.
    destruct (py_search_bound _ 0 _) as [i|e]; simpl in *; [|by rewrite Hf].
    destruct (py_search_bound _ _ stop) as [j|e]; simpl in *; [|by rewrite Hf]. by eauto.
  - apply (returning_no_memory _ _ _ _ _ (list_insert_ok G self _ index x H1 Hpre)); [|done]. by intros r G' [-> ->].
  - apply (returning_done _ _ _ _ _ (list_remove_ok G self _ x H1)); [|done].
    intros r G' [(n & y & -> & -> & Hy & Ey & Hb)|(-> & -> & Hn)]; [left; by exists n, y|by right].
  - apply (returning_done _ _ _ _ _ (reverse_ok G self _ H1)); [|done]. by intros r G' [-> ->].
  - apply (returning_no_memory _ _ _ _ _ (add_ok G self rhs _ _ H1 H2)); [|done]. intros r G'. apply returns_creates.
  - apply (returning_no_memory _ _ _ _ _ (multiply_ok G self _ n H1 Hpre)); [|done]. intros r G'. apply returns_creates.
  - apply (returning_done _ _ _ _ _ (load_ok G self _ index H1)); [|done]. intros r G' [-> H].
    destruct (py_position _ _); simpl; [|by subst r]. destruct H as (x & Hx & ->). by exists x.
  - apply (returning_done _ _ _ _ _ (store_ok G self _ index x H1)); [|done]. intros r G'.
    destruct (py_position _ _); simpl; intros E; by simplify_eq.
  - apply (returning_done _ _ _ (fun r G' => (r, G') = with_items G self (map_res (fun p => (tt, p.2)) (py_pop (list_of G self) (Some index)))));
      [| |done].
    + intros s1 Hs1. destruct (pop_ok G self _ (Some index) H1 s1 Hs1) as (r & s' & G' & Hr & Hs' & E). unfold list_delete.
      exists (map_res (fun _ => tt) r), s', G'. unfold mbind, X_bind. rewrite Hr. split; [by destruct r|]. split; [done|].
      destruct (py_pop _ _) as [[]|]; simpl in *; by simplify_eq.
    + intros r G'. unfold py_pop. case_decide; simpl; [intros E; by simplify_eq|].
      destruct (py_position _ _) as [i|e] eqn:Ei; simpl; [|intros E; by simplify_eq].
      destruct (lookup_lt_is_Some_2 _ _ (py_position_lt _ _ _ Ei)) as [x Hx]. rewrite Hx. simpl. intros E. by simplify_eq.
  - destruct Hpre as [Hst Hov]. unfold with_slice. destruct (py_slice_args slice) as [[[a b] k]|e] eqn:Ea; last first.
    { eexists _, s, G. split; [apply returning_run; by eapply slice_raises|]. split; [done|]. by left. }
    assert (Ha : slice_args slice a b k) by (split; [done|by eapply Hst]).
    destruct (load_slice_ok G self _ slice a b k H1 Ha (Hov _ _ _ eq_refl) s Hs) as (r & s' & G' & Hr & Hs' & HQ).
    exists (map_res VList r), s', G'. split; [by apply returning_run|]. split; [done|].
    destruct HQ as [HQ|[-> HQ]]; [left; by apply returns_creates|by right].
  - destruct Hpre as [Hst Hne]. unfold with_slice. destruct (py_slice_args slice) as [[[a b] k]|e] eqn:Ea; last first.
    { eexists _, s, G. split; [apply returning_run; by eapply slice_raises|]. split; [done|]. by left. }
    assert (Ha : slice_args slice a b k) by (split; [done|by eapply Hst]).
    destruct (store_slice_ok G self value _ _ slice a b k H1 H2 Hne Ha s Hs) as (r & s' & G' & Hr & Hs' & HQ).
    exists (map_res (fun _ => VNone) r), s', G'. split; [by apply returning_run|]. split; [done|].
    destruct HQ as [HQ|[-> ->]]; [left; by apply fast_slice_step_one|by right].
  - unfold with_slice. destruct (py_slice_args slice) as [[[a b] k]|e] eqn:Ea; last first.
    { eexists _, s, G. split; [apply returning_run; by eapply slice_raises|]. split; [done|]. by left. }
    assert (Ha : slice_args slice a b k) by (split; [done|by eapply Hpre]).
    destruct (delete_slice_ok G self _ slice a b k H1 Ha s Hs) as (r & s' & G' & Hr & Hs' & HQ).
    exists (map_res (fun _ => VNone) r), s', G'. split; [by apply returning_run|]. split; [done|]. left; by apply fast_slice_step_one.
Qed.

Lemma is_clear op : (exists self, op = OClear self) \/ forall self, op <> OClear self.
Proof. destruct op; eauto. Qed.

End Thms.
