(* ===== verification/ListSort.v ===== *)
(** Sorting of lists, [mp_quicksort] and [mp_obj_list_sort] of [py/objlist.c].

    Positions are integers, since [h] starts before the first item.  [stack] is the
    number of calls that [MP_STACK_CHECK] lets through. *)
From Stdlib Require Import ZifyBool.
From S2P Require Import Prelude PyExn Map ObjSeq ObjList ObjListSpec.

Section Sort.
Context {MO : MpObj} {MC : MpCalls MO}.

(** The key of an item; [None] for [MP_OBJ_NULL]. *)
Definition sort_key (key_fn : option mp_obj) (o : mp_obj) : res mp_obj :=
  match key_fn with None => Ok o | Some f => mp_call_function_1 f o end.

(** [mp_binary_op(MP_BINARY_OP_LESS, a, b) == binop_less_result] *)
Definition less_is (binop_less_result a b : mp_obj) : res bool :=
  match mp_binary_op OP_LESS a b with
  | Ok r => Ok (bool_decide (r = binop_less_result))
  | Raise e => Raise e
  end.

Section Quicksort.
Context (key_fn : option mp_obj) (binop_less_result : mp_obj) (p : nat).

(** [do ++h; while (h < t && key(h[0]) < v)] *)
Fixpoint scan_up (fuel : nat) (t : Z) (v : mp_obj) (h : Z) : X lists Z :=
  match fuel with
  | O => xabort
  | S fuel =>
      let h := h + 1 in
      if h <? t then
        x ← load_item p h;
        k ← of_res (sort_key key_fn x);
        b ← of_res (less_is binop_less_result k v);
        if (b : bool) then scan_up fuel t v h else mret h
      else mret h
  end.

(** [do --t; while (h < t && v < key(t[0]))] *)
Fixpoint scan_down (fuel : nat) (h : Z) (v : mp_obj) (t : Z) : X lists Z :=
  match fuel with
  | O => xabort
  | S fuel =>
      let t := t - 1 in
      if h <? t then
        x ← load_item p t;
        k ← of_res (sort_key key_fn x);
        b ← of_res (less_is binop_less_result v k);
        if (b : bool) then scan_down fuel h v t else mret t
      else mret t
  end.

Definition swap (i j : Z) : X lists unit :=
  x ← load_item p i; y ← load_item p j; store_item p i (Obj y);; store_item p j (Obj x).

Fixpoint partition (fuel : nat) (v : mp_obj) (h t : Z) : X lists (Z * Z) :=
  match fuel with
  | O => xabort
  | S fuel =>
      h ← scan_up (Z.to_nat (t - h)) t v h;
      t ← scan_down (Z.to_nat (t - h) + 1) h v t;
      if t <=? h then mret (h, t) else swap h t;; partition fuel v h t
  end.

(** [while (head < tail)], with the recursive call. *)
Fixpoint sort_loop (mp_quicksort : Z -> Z -> X lists unit) (fuel : nat) (head tail : Z) : X lists unit :=
  if head <? tail then
    match fuel with
    | O => xabort
    | S fuel =>
        pivot ← load_item p tail;
        v ← of_res (sort_key key_fn pivot);
        '(h, t) ← partition (Z.to_nat (tail - head) + 1) v (head - 1) tail;
        swap h tail;;
        if t - head <? tail - h - 1 then
          mp_quicksort head t;; sort_loop mp_quicksort fuel (h + 1) tail
        else
          mp_quicksort (h + 1) tail;; sort_loop mp_quicksort fuel head t
    end
  else mret tt.

Fixpoint mp_quicksort (stack : nat) (head tail : Z) : X lists unit :=
  match stack with
  | O => mp_raise RuntimeError
  | S stack => sort_loop (mp_quicksort stack) (Z.to_nat (tail - head)) head tail
  end.
End Quicksort.

Definition mp_obj_list_sort (stack : nat) (self : nat) (key : option mp_obj) (reverse : bool) : X lists unit :=
  l ← get_list self;
  if 1 <? l_len l then
    mp_quicksort key (if reverse then mp_const_false else mp_const_true) (l_items l) stack 0 (l_len l - 1)
  else mret tt.
End Sort.

(** [list.sort]: it sorts, with a logarithmic number of nested calls, and whatever
    the comparisons do it ends with the items it began with. *)

(** ** Segments of a list *)

Section Segments.
Context {A : Type}.
Implicit Types (l : list A).

(** The items from [lo] to [hi], without [hi], have been reordered. *)
Definition perm_seg (lo hi : nat) l l' : Prop :=
  l ≡ₚ l' /\ forall j, (j < lo)%nat \/ (hi <= j)%nat -> l' !! j = l !! j.

Definition seg_all (P : A -> Prop) (lo hi : nat) l : Prop := forall j x, (lo <= j < hi)%nat -> l !! j = Some x -> P x.

Definition seg_sorted (le : A -> A -> Prop) (lo hi : nat) l : Prop :=
  forall i j x y, (lo <= i)%nat -> (i < j)%nat -> (j < hi)%nat -> l !! i = Some x -> l !! j = Some y -> le x y.

Lemma perm_seg_refl lo hi l : perm_seg lo hi l l.
Proof. done. Qed.

Lemma perm_seg_trans lo hi l1 l2 l3 : perm_seg lo hi l1 l2 -> perm_seg lo hi l2 l3 -> perm_seg lo hi l1 l3.
Proof. intros [P1 F1] [P2 F2]. split; [by transitivity l2|]. intros j Hj. by rewrite F2, F1. Qed.

Lemma perm_seg_weaken lo hi lo' hi' l l' : perm_seg lo hi l l' -> (lo' <= lo)%nat -> (hi <= hi')%nat -> perm_seg lo' hi' l l'.
Proof. intros [P F] H1 H2. split; [done|]. intros j Hj. apply F. lia. Qed.

Lemma perm_seg_length lo hi l l' : perm_seg lo hi l l' -> length l' = length l.
Proof. intros [P _]. symmetry. by apply Permutation_length. Qed.

Lemma perm_seg_swap lo hi l i j x y : (lo <= i < hi)%nat -> (lo <= j < hi)%nat -> l !! i = Some x -> l !! j = Some y ->
  perm_seg lo hi l (<[j := x]> (<[i := y]> l)).
Proof.
  intros Hi Hj Hx Hy. split.
  - destruct (decide (i = j)) as [->|Hne].
    { simplify_eq. by rewrite (list_insert_id _ _ _ Hx), (list_insert_id _ _ _ Hx). }
    apply Permutation_inj. rewrite !length_insert. split; [done|].
    exists (fun k => if decide (k = i) then j else if decide (k = j) then i else k). split.
    + intros a b. repeat case_decide; congruence.
    + intros k. repeat case_decide; subst.
      * rewrite list_lookup_insert_eq by (rewrite length_insert; by eapply lookup_lt_Some). done.
      * rewrite list_lookup_insert_ne by done. rewrite list_lookup_insert_eq by (by eapply lookup_lt_Some). done.
      * by rewrite !list_lookup_insert_ne by done.
  - intros k Hk. rewrite !list_lookup_insert_ne by lia. done.
Qed.

Lemma perm_seg_all P lo hi l l' : (lo <= hi)%nat -> perm_seg lo hi l l' -> seg_all P lo hi l -> seg_all P lo hi l'.
Proof.
  intros Hlh [HP HF] Hall.
  assert (E1 : take lo l' = take lo l).
  { apply list_eq. intros j. destruct (decide (j < lo)%nat); [rewrite !lookup_take_lt by done; apply HF; lia|].
    by rewrite !lookup_take_ge by lia. }
  assert (E2 : drop hi l' = drop hi l).
  { apply list_eq. intros j. rewrite !lookup_drop. apply HF. lia. }
  assert (Hdec : forall m : list A, m = take lo m ++ take (hi - lo) (drop lo m) ++ drop hi m).
  { intros m. rewrite <- (take_drop lo m) at 1. f_equal. rewrite <- (take_drop (hi - lo) (drop lo m)) at 1. f_equal.
    rewrite drop_drop. f_equal. lia. }
  rewrite (Hdec l), (Hdec l'), E1, E2 in HP. apply Permutation_app_inv_l in HP. apply Permutation_app_inv_r in HP.
  intros j x Hj Hx. assert (Hin : x ∈ take (hi - lo) (drop lo l')).
  { apply list_elem_of_lookup. exists (j - lo)%nat. rewrite lookup_take_lt, lookup_drop by lia. by replace (lo + (j - lo))%nat with j by lia. }
  rewrite <- HP in Hin. apply list_elem_of_lookup in Hin as [k Hk].
  apply lookup_take_Some in Hk as [Hk Hkl]. rewrite lookup_drop in Hk. apply (Hall (lo + k)%nat); [lia|done].
Qed.

Lemma seg_all_frame P lo hi lo' hi' l l' : perm_seg lo hi l l' -> (hi <= lo' \/ hi' <= lo)%nat -> seg_all P lo' hi' l -> seg_all P lo' hi' l'.
Proof. intros [_ F] Hd H j x Hj Hx. rewrite F in Hx by lia. by apply (H j). Qed.

Lemma seg_sorted_frame le lo hi lo' hi' l l' : perm_seg lo hi l l' -> (hi <= lo' \/ hi' <= lo)%nat ->
  seg_sorted le lo' hi' l -> seg_sorted le lo' hi' l'.
Proof. intros [_ F] Hd H i j x y Hi Hij Hj Hx Hy. rewrite F in Hx, Hy by lia. by apply (H i j). Qed.

(** Two sorted segments around a pivot. *)
Lemma seg_sorted_join (le : A -> A -> Prop) lo a b hi l pv : (forall x y z, le x y -> le y z -> le x z) ->
  (lo <= a)%nat -> (a <= b <= S a)%nat ->
  (b = a -> forall x, l !! a = Some x -> x = pv) -> le pv pv ->
  seg_sorted le lo b l -> seg_sorted le (S a) hi l ->
  seg_all (fun x => le x pv) lo b l -> seg_all (fun x => le pv x) (S a) hi l -> seg_sorted le lo hi l.
Proof.
  intros Htr Hlo Hb Ha Hpp Hs1 Hs2 Ha1 Ha2 i j x y Hi Hij Hj Hx Hy.
  destruct (decide (j < b)%nat); [by apply (Hs1 i j)|]. destruct (decide (a < i)%nat); [by apply (Hs2 i j); try lia|].
  apply (Htr x pv y).
  - destruct (decide (i < b)%nat); [by apply (Ha1 i)|]. assert (i = a) as -> by lia. by rewrite (Ha ltac:(lia) x Hx).
  - destruct (decide (j = a)) as [->|]; [by rewrite (Ha ltac:(lia) y Hy)|]. apply (Ha2 j); [lia|done].
Qed.
End Segments.

(** ** Quicksort *)

Section Quicksort.
Context {MO : MpObj} {MC : MpCalls MO} (key_fn : option mp_obj) (blr : mp_obj) (p k : nat).
Implicit Types (xs ys : list mp_obj) (x pv v : mp_obj) (s : lists).

Ltac step H := rewrite (X_bind_Ok _ _ _ _ _ H).
Ltac raise H := rewrite (X_bind_Raise _ _ _ _ _ H).

Abbreviation st xs s := (put p (array_of xs k) s).

(** [le x y] is the order to establish.  Keys and comparisons are lawful when they
    raise nothing and each comparison decides between two items. *)
Context (le : mp_obj -> mp_obj -> Prop) (le_trans : forall x y z, le x y -> le y z -> le x z).

Definition lawful xs : Prop :=
  (forall x, x ∈ xs -> exists kx, sort_key key_fn x = Ok kx)
  /\ forall x y kx ky, x ∈ xs -> y ∈ xs -> sort_key key_fn x = Ok kx -> sort_key key_fn y = Ok ky ->
     exists b : bool, less_is blr kx ky = Ok b /\ if b then le x y else le y x.

Lemma lawful_perm xs ys : xs ≡ₚ ys -> lawful xs -> lawful ys.
Proof.
  intros HP [H1 H2]. split; [intros x; rewrite <- HP; apply H1|]. intros x y kx ky. rewrite <- HP. apply H2.
Qed.

Lemma lawful_refl xs x : lawful xs -> x ∈ xs -> le x x.
Proof. intros [H1 H2] Hx. destruct (H1 x Hx) as [kx Hk]. destruct (H2 x x kx kx Hx Hx Hk Hk) as ([] & _ & H); done. Qed.

(** The pivot of a lawful list, with its key. *)
Definition pivot_of xs v pv : Prop := lawful xs /\ pv ∈ xs /\ sort_key key_fn pv = Ok v.

Lemma scan_up_run fuel : forall h t v xs s, h < t -> -1 <= h -> t <= Z.of_nat (length xs) -> fuel = Z.to_nat (t - h) ->
  exists r, scan_up key_fn blr p fuel t v h (st xs s) = Some (r, st xs s)
  /\ match r with
     | Raise _ => forall pv, ~ pivot_of xs v pv
     | Ok h' => h < h' <= t /\ forall pv, pivot_of xs v pv ->
         (forall j x, h < Z.of_nat j < h' -> xs !! j = Some x -> le x pv)
         /\ (h' < t -> forall x, xs !! Z.to_nat h' = Some x -> le pv x)
     end.
Proof.
  induction fuel as [|fuel IH]; intros h t v xs s Hht Hh Ht Hf; [lia|]. cbn [scan_up].
  destruct (Z.ltb_spec (h + 1) t) as [Hlt|Hge].
  2:{ exists (Ok (h + 1)). split; [done|]. split; [lia|]. intros pv _. split; intros; lia. }
  destruct (lookup_lt_is_Some_2 xs (Z.to_nat (h + 1)) ltac:(lia)) as [x Hx].
  step (load_put_nat p xs k s (Z.to_nat (h + 1)) x (h + 1) ltac:(lia) Hx).
  destruct (sort_key key_fn x) as [kx|e] eqn:Ek.
  2:{ exists (Raise e). split; [done|]. intros pv ([H1 _] & _ & _). destruct (H1 x) as [kx Hkx]; [by eapply list_elem_of_lookup_2|]. congruence. }
  rewrite (X_bind_Ok (of_res (Ok kx)) _ _ kx (st xs s)) by done.
  destruct (less_is blr kx v) as [b|e] eqn:Eb.
  2:{ exists (Raise e). split; [done|]. intros pv ([_ H2] & Hp & Hv).
      destruct (H2 x pv kx v ltac:(by eapply list_elem_of_lookup_2) Hp Ek Hv) as (b & Hb & _). congruence. }
  rewrite (X_bind_Ok (of_res (Ok b)) _ _ b (st xs s)) by done.
  assert (Hle : forall pv, pivot_of xs v pv -> if b then le x pv else le pv x).
  { intros pv ([_ H2] & Hp & Hv). destruct (H2 x pv kx v ltac:(by eapply list_elem_of_lookup_2) Hp Ek Hv) as (b' & Hb & Hle).
    rewrite Eb in Hb. by simplify_eq. }
  destruct b.
  - destruct (IH (h + 1) t v xs s Hlt ltac:(lia) Ht ltac:(lia)) as (r & Hr & HQ). exists r. split; [done|].
    destruct r as [h'|e]; [|done]. destruct HQ as [Hh' HQ]. split; [lia|]. intros pv Hpv. destruct (HQ pv Hpv) as [H1 H2].
    split; [|done]. intros j y Hj Hy. destruct (decide (Z.of_nat j = h + 1)) as [E|]; [|apply (H1 j y); [lia|done]].
    replace (Z.to_nat (h + 1)) with j in Hx by lia. simplify_eq. by apply Hle.
  - exists (Ok (h + 1)). split; [done|]. split; [lia|]. intros pv Hpv. split; [intros; lia|]. intros _ y Hy. simplify_eq. by apply Hle.
Qed.

Lemma scan_down_run fuel : forall h t v xs s, h <= t -> 0 <= h -> t <= Z.of_nat (length xs) -> fuel = (Z.to_nat (t - h) + 1)%nat ->
  exists r, scan_down key_fn blr p fuel h v t (st xs s) = Some (r, st xs s)
  /\ match r with
     | Raise _ => forall pv, ~ pivot_of xs v pv
     | Ok t' => t' < t /\ h - 1 <= t' /\ (h < t -> h <= t') /\ forall pv, pivot_of xs v pv ->
         (forall j x, h < Z.of_nat j -> t' < Z.of_nat j < t -> xs !! j = Some x -> le pv x)
         /\ (h < t' -> forall x, xs !! Z.to_nat t' = Some x -> le x pv)
     end.
Proof.
  induction fuel as [|fuel IH]; intros h t v xs s Hht Hh Ht Hf; [lia|]. cbn [scan_down].
  destruct (Z.ltb_spec h (t - 1)) as [Hlt|Hge].
  2:{ exists (Ok (t - 1)). split; [done|]. do 3 (split; [lia|]). intros pv _. split; intros; lia. }
  destruct (lookup_lt_is_Some_2 xs (Z.to_nat (t - 1)) ltac:(lia)) as [x Hx].
  step (load_put_nat p xs k s (Z.to_nat (t - 1)) x (t - 1) ltac:(lia) Hx).
  destruct (sort_key key_fn x) as [kx|e] eqn:Ek.
  2:{ exists (Raise e). split; [done|]. intros pv ([H1 _] & _ & _). destruct (H1 x) as [kx Hkx]; [by eapply list_elem_of_lookup_2|]. congruence. }
  rewrite (X_bind_Ok (of_res (Ok kx)) _ _ kx (st xs s)) by done.
  destruct (less_is blr v kx) as [b|e] eqn:Eb.
  2:{ exists (Raise e). split; [done|]. intros pv ([_ H2] & Hp & Hv).
      destruct (H2 pv x v kx Hp ltac:(by eapply list_elem_of_lookup_2) Hv Ek) as (b & Hb & _). congruence. }
  rewrite (X_bind_Ok (of_res (Ok b)) _ _ b (st xs s)) by done.
  assert (Hle : forall pv, pivot_of xs v pv -> if b then le pv x else le x pv).
  { intros pv ([_ H2] & Hp & Hv). destruct (H2 pv x v kx Hp ltac:(by eapply list_elem_of_lookup_2) Hv Ek) as (b' & Hb & Hle).
    rewrite Eb in Hb. by simplify_eq. }
  destruct b.
  - destruct (IH h (t - 1) v xs s ltac:(lia) Hh ltac:(lia) ltac:(lia)) as (r & Hr & HQ). exists r. split; [done|].
    destruct r as [t'|e]; [|done]. destruct HQ as (Ht1 & Ht2 & Ht3 & HQ). do 3 (split; [lia|]). intros pv Hpv.
    destruct (HQ pv Hpv) as [H1 H2].
    split; [|done]. intros j y Hj Hj' Hy. destruct (decide (Z.of_nat j = t - 1)) as [E|]; [|apply (H1 j y); [lia..|done]].
    replace (Z.to_nat (t - 1)) with j in Hx by lia. simplify_eq. by apply Hle.
  - exists (Ok (t - 1)). split; [done|]. do 3 (split; [lia|]). intros pv Hpv. split; [intros; lia|]. intros _ y Hy. simplify_eq. by apply Hle.
Qed.

Lemma swap_run (i j : nat) x y xs s : xs !! i = Some x -> xs !! j = Some y ->
  swap p (Z.of_nat i) (Z.of_nat j) (st xs s) = Some (Ok tt, st (<[j := x]> (<[i := y]> xs)) s).
Proof.
  intros Hx Hy. unfold swap. step (load_put_nat p xs k s i x _ eq_refl Hx). step (load_put_nat p xs k s j y _ eq_refl Hy).
  step (store_put_nat p xs k s i y _ eq_refl ltac:(by eapply lookup_lt_Some)).
  apply store_put_nat; [done|]. rewrite length_insert. by eapply lookup_lt_Some.
Qed.

(** The partition of [[lo, tail)] around the pivot at [tail]. *)
Definition parted xs lo (h t : Z) tail pv : Prop :=
  (forall j x, (lo <= j)%nat -> Z.of_nat j <= h -> xs !! j = Some x -> le x pv)
  /\ (forall j x, t <= Z.of_nat j -> (j < tail)%nat -> xs !! j = Some x -> le pv x).

Lemma partition_run fuel : forall h t v lo tail xs s, (lo <= tail < length xs)%nat ->
  Z.of_nat lo - 1 <= h -> h < t -> t <= Z.of_nat tail -> (Z.to_nat (t - h) <= fuel)%nat ->
  exists r ys, partition key_fn blr p fuel v h t (st xs s) = Some (r, st ys s) /\ perm_seg lo tail xs ys
  /\ match r with
     | Raise _ => forall pv, ~ pivot_of xs v pv
     | Ok (h', t') => Z.of_nat lo <= h' <= Z.of_nat tail /\ h' - 1 <= t' <= h' /\ t' < Z.of_nat tail
         /\ (h' = Z.of_nat lo -> Z.of_nat lo - 1 <= t')
         /\ forall pv, pivot_of xs v pv -> parted xs lo h t tail pv -> parted ys lo (h' - 1) h' tail pv
     end.
Proof.
  induction fuel as [|fuel IH]; intros h t v lo tail xs s Htail Hh Hht Ht Hf; [lia|]. cbn [partition].
  destruct (scan_up_run _ h t v xs s Hht ltac:(lia) ltac:(lia) eq_refl) as (r1 & Hr1 & HQ1).
  destruct r1 as [h1|e]; [step Hr1|raise Hr1; by exists (Raise e), xs]. destruct HQ1 as [Hh1 HQ1].
  destruct (scan_down_run _ h1 t v xs s ltac:(lia) ltac:(lia) ltac:(lia) eq_refl) as (r2 & Hr2 & HQ2).
  destruct r2 as [t1|e]; [step Hr2|raise Hr2; by exists (Raise e), xs]. destruct HQ2 as (Ht1 & Ht2 & Ht3 & HQ2).
  destruct (Z.leb_spec t1 h1) as [Hle|Hgt].
  - exists (Ok (h1, t1)), xs. split; [done|]. split; [done|]. do 4 (split; [lia|]). intros pv Hpv [Hp1 Hp2].
    destruct (HQ1 pv Hpv) as [Hu1 Hu2]. destruct (HQ2 pv Hpv) as [Hd1 Hd2]. split.
    + intros j x Hj1 Hj2 Hx. destruct (decide (Z.of_nat j <= h)); [by apply (Hp1 j)|]. apply (Hu1 j); [lia|done].
    + intros j x Hj1 Hj2 Hx. destruct (decide (t <= Z.of_nat j)); [by apply (Hp2 j)|].
      destruct (decide (Z.of_nat j = h1)) as [E|]; [|by apply (Hd1 j); try lia].
      apply Hu2; [lia|]. by replace (Z.to_nat h1) with j by lia.
  - destruct (lookup_lt_is_Some_2 xs (Z.to_nat h1) ltac:(lia)) as [x Hx]. destruct (lookup_lt_is_Some_2 xs (Z.to_nat t1) ltac:(lia)) as [y Hy].
    pose proof (swap_run (Z.to_nat h1) (Z.to_nat t1) x y xs s Hx Hy) as Hs. rewrite !Z2Nat.id in Hs by lia. step Hs.
    set (ys := <[Z.to_nat t1 := x]> (<[Z.to_nat h1 := y]> xs)).
    assert (Hperm : perm_seg lo tail xs ys) by (apply perm_seg_swap; (done || lia)).
    destruct (IH h1 t1 v lo tail ys s) as (r & zs & Hr & Hpz & HQ); [rewrite (perm_seg_length _ _ _ _ Hperm); lia|lia..|].
    assert (Hpiv : forall pv, pivot_of xs v pv -> pivot_of ys v pv).
    { intros pv (Hl & Hp & Hv). split; [by eapply lawful_perm; [apply Hperm|]|]. split; [|done]. by rewrite <- (proj1 Hperm). }
    exists r, zs. split; [done|]. split; [by eapply perm_seg_trans|]. destruct r as [[h' t']|e].
    + destruct HQ as (H1 & H2 & H3 & H4 & H5). do 4 (split; [lia|]). intros pv Hpv [Hp1 Hp2]. apply H5; [by apply Hpiv|].
      destruct (HQ1 pv Hpv) as [Hu1 Hu2]. destruct (HQ2 pv Hpv) as [Hd1 Hd2]. split.
      * intros j z Hj1 Hj2 Hz. unfold ys in Hz. rewrite list_lookup_insert_ne in Hz by lia.
        destruct (decide (j = Z.to_nat h1)) as [->|].
        -- rewrite list_lookup_insert_eq in Hz by (by eapply lookup_lt_Some). simplify_eq. by apply Hd2.
        -- rewrite list_lookup_insert_ne in Hz by done. destruct (decide (Z.of_nat j <= h)); [by apply (Hp1 j)|].
           apply (Hu1 j); [lia|done].
      * intros j z Hj1 Hj2 Hz. unfold ys in Hz. destruct (decide (j = Z.to_nat t1)) as [->|].
        -- rewrite list_lookup_insert_eq in Hz by (rewrite length_insert; by eapply lookup_lt_Some). simplify_eq. apply Hu2; [lia|done].
        -- rewrite !list_lookup_insert_ne in Hz by lia. destruct (decide (t <= Z.of_nat j)); [by apply (Hp2 j)|]. by apply (Hd1 j); try lia.
    + intros pv Hpv. by apply (HQ pv), Hpiv.
Qed.

(** The pivot is put between the two parts. *)
Lemma pivot_swap xs lo tail h pv : (lo <= tail < length xs)%nat -> (lo <= h <= tail)%nat -> xs !! tail = Some pv ->
  exists zs, (forall s, swap p (Z.of_nat h) (Z.of_nat tail) (st xs s) = Some (Ok tt, st zs s))
  /\ perm_seg lo (S tail) xs zs /\ zs !! h = Some pv
  /\ (parted xs lo (Z.of_nat h - 1) (Z.of_nat h) tail pv ->
     seg_all (fun x => le x pv) lo h zs /\ seg_all (fun x => le pv x) (S h) (S tail) zs).
Proof.
  intros Htail Hh Hpv. destruct (lookup_lt_is_Some_2 xs h ltac:(lia)) as [x Hx].
  exists (<[tail := x]> (<[h := pv]> xs)). split; [intros s; by apply swap_run|].
  split; [apply perm_seg_swap; (done || lia)|]. split.
  - destruct (decide (tail = h)) as [->|]; [rewrite list_lookup_insert_eq by (rewrite length_insert; lia); congruence|].
    rewrite list_lookup_insert_ne, list_lookup_insert_eq by (done || lia). done.
  - intros [H1 H2]. split; intros j y Hj Hy.
    + rewrite !list_lookup_insert_ne in Hy by lia. apply (H1 j); [lia..|done].
    + destruct (decide (j = tail)) as [->|].
      * rewrite list_lookup_insert_eq in Hy by (rewrite length_insert; lia). simplify_eq. apply (H2 h); [lia..|done].
      * rewrite !list_lookup_insert_ne in Hy by lia. apply (H2 j); [lia..|done].
Qed.

(** What a call with [need] frames below it promises. *)
Definition sorts (run : Z -> Z -> X lists unit) (need : nat -> Prop) : Prop :=
  forall lo hi xs s, (lo <= hi <= length xs)%nat ->
  exists r ys, run (Z.of_nat lo) (Z.of_nat hi - 1) (st xs s) = Some (r, st ys s) /\ perm_seg lo hi xs ys
    /\ (lawful xs -> need (hi - lo)%nat -> r = Ok tt /\ seg_sorted le lo hi ys).

Lemma sorts_step (rec : Z -> Z -> X lists unit) stack (run : Z -> Z -> X lists unit) lo hi m1 m2 lo1 hi1 lo2 hi2 zs s pv :
  sorts rec (fun m => (1 <= stack)%nat /\ (m <= 2 ^ (stack - 1))%nat) ->
  (forall xs, length xs = length zs -> exists r ys, run m1 m2 (st xs s) = Some (r, st ys s) /\ perm_seg lo2 hi2 xs ys
    /\ (lawful xs -> (hi2 - lo2 <= 2 ^ stack)%nat -> r = Ok tt /\ seg_sorted le lo2 hi2 ys)) ->
  (lo1 <= hi1 <= length zs)%nat -> (lo2 <= hi2 <= length zs)%nat -> (hi1 <= lo2 \/ hi2 <= lo1)%nat ->
  (2 * (hi1 - lo1) <= hi - lo)%nat -> (2 <= hi - lo)%nat -> (hi2 - lo2 <= hi - lo)%nat ->
  (lo <= lo1)%nat -> (hi1 <= hi)%nat -> (lo <= lo2)%nat -> (hi2 <= hi)%nat ->
  forall h, zs !! h = Some pv ->
  exists r us, (rec (Z.of_nat lo1) (Z.of_nat hi1 - 1);; run m1 m2) (st zs s) = Some (r, st us s) /\ perm_seg lo hi zs us
    /\ (forall P, (seg_all P lo1 hi1 zs -> seg_all P lo1 hi1 us) /\ (seg_all P lo2 hi2 zs -> seg_all P lo2 hi2 us))
    /\ ((h < lo1 \/ hi1 <= h)%nat -> (h < lo2 \/ hi2 <= h)%nat -> us !! h = Some pv)
    /\ (lawful zs -> (hi - lo <= 2 ^ stack)%nat -> r = Ok tt /\ seg_sorted le lo1 hi1 us /\ seg_sorted le lo2 hi2 us).
Proof.
  intros Hrec Hrun Hb1 Hb2 Hdis Hhalf Hn Hn2 Hl1 Hh1 Hl2 Hh2 h Hpv.
  destruct (Hrec lo1 hi1 zs s Hb1) as (r1 & ws & Hr1 & Hp1 & Hs1).
  assert (Hneed : (hi - lo <= 2 ^ stack)%nat -> (1 <= stack)%nat /\ (hi1 - lo1 <= 2 ^ (stack - 1))%nat).
  { intros H. destruct stack as [|stack]; [simpl in H; lia|]. rewrite Nat.pow_succ_r' in H. simpl. rewrite Nat.sub_0_r. lia. }
  destruct r1 as [[]|e].
  - destruct (Hrun ws) as (r2 & us & Hr2 & Hp2 & Hs2); [by eapply perm_seg_length|]. exists r2, us.
    split; [by step Hr1|]. split; [eapply perm_seg_trans; eapply perm_seg_weaken; try done|].
    split; [intros P; split; intros H|split; [|intros Hlaw H]].
    + eapply seg_all_frame; [exact Hp2|lia|]. by eapply perm_seg_all; [|exact Hp1|]; [lia|].
    + eapply perm_seg_all; [|exact Hp2|]; [lia|]. by eapply seg_all_frame; [exact Hp1|lia|].
    + intros H1 H2. rewrite (proj2 Hp2), (proj2 Hp1) by lia. done.
    + destruct (Hs1 Hlaw (Hneed H)) as [_ Hso]. destruct Hs2 as [-> Hso2]; [by eapply lawful_perm; [apply Hp1|]|lia|].
      split; [done|]. split; [|done]. by eapply seg_sorted_frame; [exact Hp2|lia|].
  - exists (Raise e), ws. split; [by raise Hr1|]. split; [by eapply perm_seg_weaken|].
    split; [intros P; split; intros H|split; [|intros Hlaw H]].
    + by eapply perm_seg_all; [|exact Hp1|]; [lia|].
    + by eapply seg_all_frame; [exact Hp1|lia|].
    + intros H1 H2. rewrite (proj2 Hp1) by lia. done.
    + destruct (Hs1 Hlaw (Hneed H)) as [E _]. done.
Qed.

Lemma loop_run stack (rec : Z -> Z -> X lists unit) :
  sorts rec (fun m => (1 <= stack)%nat /\ (m <= 2 ^ (stack - 1))%nat) ->
  forall fuel lo hi xs s, (lo <= hi <= length xs)%nat -> (hi - lo <= S fuel)%nat ->
  exists r ys, sort_loop key_fn blr p rec fuel (Z.of_nat lo) (Z.of_nat hi - 1) (st xs s) = Some (r, st ys s)
    /\ perm_seg lo hi xs ys /\ (lawful xs -> (hi - lo <= 2 ^ stack)%nat -> r = Ok tt /\ seg_sorted le lo hi ys).
Proof.
  intros Hrec. induction fuel as [|fuel IH]; intros lo hi xs s Hb Hf; cbn [sort_loop].
  { replace (Z.of_nat lo <? Z.of_nat hi - 1) with false by lia. exists (Ok tt), xs. split; [done|]. split; [done|].
    intros _ _. split; [done|]. intros i j x y. lia. }
  destruct (Z.ltb_spec (Z.of_nat lo) (Z.of_nat hi - 1)) as [Hlt|Hge].
  2:{ exists (Ok tt), xs. split; [done|]. split; [done|]. intros _ _. split; [done|]. intros i j x y. lia. }
  set (tl := (hi - 1)%nat). assert (Etl : Z.of_nat hi - 1 = Z.of_nat tl) by lia. rewrite Etl.
  destruct (lookup_lt_is_Some_2 xs tl ltac:(lia)) as [pv Hpv]. step (load_put_nat p xs k s tl pv _ eq_refl Hpv).
  destruct (sort_key key_fn pv) as [v|e] eqn:Ek.
  2:{ exists (Raise e), xs. split; [done|]. split; [done|]. intros [H1 _]. destruct (H1 pv) as [v Hv]; [by eapply list_elem_of_lookup_2|]. congruence. }
  rewrite (X_bind_Ok (of_res (Ok v)) _ _ v (st xs s)) by done.
  destruct (partition_run (Z.to_nat (Z.of_nat tl - Z.of_nat lo) + 1) (Z.of_nat lo - 1) (Z.of_nat tl) v lo tl xs s) as (r1 & ys & Hr1 & Hp1 & HQ1);
    [lia..|].
  assert (Hpiv : lawful xs -> pivot_of xs v pv) by (intros Hl; split; [done|]; split; [by eapply list_elem_of_lookup_2|done]).
  assert (Hp1' : perm_seg lo hi xs ys) by (eapply perm_seg_weaken; [exact Hp1|lia..]).
  destruct r1 as [[h' t']|e].
  2:{ exists (Raise e), ys. split; [by raise Hr1|]. split; [done|]. intros Hl _. by destruct (HQ1 pv (Hpiv Hl)). }
  step Hr1. destruct HQ1 as (Hh & Ht1 & Ht2 & Ht3 & Hparted).
  assert (Hpvy : ys !! tl = Some pv) by (rewrite (proj2 Hp1) by lia; done).
  pose proof (perm_seg_length _ _ _ _ Hp1) as Hly.
  destruct (pivot_swap ys lo tl (Z.to_nat h') pv ltac:(lia) ltac:(lia) Hpvy) as (zs & Hsw & Hp2 & Hpvz & Hparts).
  set (h := Z.to_nat h') in *. assert (Eh : h' = Z.of_nat h) by lia. rewrite Eh in *. step (Hsw s).
  set (t := Z.to_nat (t' + 1)). assert (Et : t' = Z.of_nat t - 1) by lia. rewrite Et in *.
  replace (S tl) with hi in * by lia.
  assert (Hpz : perm_seg lo hi xs zs) by (by eapply perm_seg_trans).
  pose proof (perm_seg_length _ _ _ _ Hpz) as Hlz.
  assert (Hlawz : lawful xs -> lawful zs) by (intros Hl; by eapply lawful_perm; [apply Hpz|]).
  assert (Hall : lawful xs -> seg_all (fun x => le x pv) lo t zs /\ seg_all (fun x => le pv x) (S h) hi zs /\ le pv pv).
  { intros Hl. destruct Hparts as [H1 H2].
    { apply Hparted; [by apply Hpiv|]. split; intros j x Hj1 Hj2; lia. }
    assert (Hrefl : le pv pv) by (apply (lawful_refl xs); [done|by eapply list_elem_of_lookup_2]).
    split; [|done]. intros j x Hj Hx. destruct (decide (j = h)) as [->|]; [by simplify_eq|]. apply (H1 j); [lia|done]. }
  replace (Z.of_nat h + 1) with (Z.of_nat (S h)) by lia.
  assert (Hfin : forall r us lo1 hi1 lo2 hi2, (lo1 = lo /\ hi1 = t /\ lo2 = S h /\ hi2 = hi) \/ (lo2 = lo /\ hi2 = t /\ lo1 = S h /\ hi1 = hi) ->
    perm_seg lo hi zs us ->
    (forall P, (seg_all P lo1 hi1 zs -> seg_all P lo1 hi1 us) /\ (seg_all P lo2 hi2 zs -> seg_all P lo2 hi2 us)) ->
    ((h < lo1 \/ hi1 <= h)%nat -> (h < lo2 \/ hi2 <= h)%nat -> us !! h = Some pv) ->
    (lawful zs -> (hi - lo <= 2 ^ stack)%nat -> r = Ok tt /\ seg_sorted le lo1 hi1 us /\ seg_sorted le lo2 hi2 us) ->
    perm_seg lo hi xs us /\ (lawful xs -> (hi - lo <= 2 ^ stack)%nat -> r = Ok tt /\ seg_sorted le lo hi us)).
  { intros r us lo1 hi1 lo2 hi2 Hcase Hp HP Hpos Hs. split; [by eapply perm_seg_trans|]. intros Hl Hst.
    destruct (Hs (Hlawz Hl) Hst) as (-> & Hs1 & Hs2). split; [done|]. destruct (Hall Hl) as (Ha1 & Ha2 & Hrefl).
    destruct Hcase as [(-> & -> & -> & ->)|(-> & -> & -> & ->)].
    - apply (seg_sorted_join le lo h t hi us pv); try done; [lia|lia| |by apply HP|by apply HP].
      intros E x Hx. rewrite Hpos in Hx by lia. by simplify_eq.
    - apply (seg_sorted_join le lo h t hi us pv); try done; [lia|lia| |by apply HP|by apply HP].
      intros E x Hx. rewrite Hpos in Hx by lia. by simplify_eq. }
  destruct (Z.ltb_spec (Z.of_nat t - 1 - Z.of_nat lo) (Z.of_nat tl - Z.of_nat h - 1)) as [Hleft|Hright].
  - destruct (sorts_step rec stack (sort_loop key_fn blr p rec fuel) lo hi (Z.of_nat (S h)) (Z.of_nat hi - 1) lo t (S h) hi zs s pv Hrec)
      with (h := h) as (r & us & Hr & Hp & HP & Hpos & Hs); try (done || lia).
    { intros ws Hlw. apply IH; lia. }
    exists r, us. rewrite <- Etl. split; [done|]. eapply (Hfin r us lo t (S h) hi); try done. by left.
  - destruct (sorts_step rec stack (sort_loop key_fn blr p rec fuel) lo hi (Z.of_nat lo) (Z.of_nat t - 1) (S h) hi lo t zs s pv Hrec)
      with (h := h) as (r & us & Hr & Hp & HP & Hpos & Hs); try (done || lia).
    { intros ws Hlw. apply IH; lia. }
    exists r, us. rewrite <- Etl. split; [done|]. eapply (Hfin r us (S h) hi lo t); try done. by right.
Qed.

Lemma quicksort_run stack : sorts (mp_quicksort key_fn blr p stack) (fun m => (1 <= stack)%nat /\ (m <= 2 ^ (stack - 1))%nat).
Proof.
  induction stack as [|stack IH]; intros lo hi xs s Hb.
  { exists (Raise RuntimeError), xs. split; [done|]. split; [done|]. intros _ [? _]. lia. }
  cbn [mp_quicksort]. destruct (loop_run stack _ IH (Z.to_nat (Z.of_nat hi - 1 - Z.of_nat lo)) lo hi xs s Hb ltac:(lia))
    as (r & ys & Hr & Hp & Hs). exists r, ys. split; [done|]. split; [done|]. intros Hl [_ Hst]. apply Hs; [done|].
  by replace (S stack - 1)%nat with stack in Hst by lia.
Qed.
End Quicksort.

(** ** [list.sort] *)

Section ListSort.
Context {MO : MpObj} {MC : MpCalls MO}.
Implicit Types (xs ys : list mp_obj).

(** A comparison that Python programs mean: "less" is a strict weak order on keys. *)
Record less_order (lt : mp_obj -> mp_obj -> bool) : Prop := {
  lt_asym a b : lt a b = true -> lt b a = false;
  lt_split a b c : lt a c = true -> lt a b = true \/ lt b c = true }.

(** Keys and comparisons of the items [xs] raise nothing, and [mp_binary_op] computes [lt]. *)
Record comparable (key : option mp_obj) (key_of : mp_obj -> mp_obj) (lt : mp_obj -> mp_obj -> bool) xs : Prop := {
  cmp_key x : x ∈ xs -> sort_key key x = Ok (key_of x);
  cmp_less x y : x ∈ xs -> y ∈ xs ->
    mp_binary_op OP_LESS (key_of x) (key_of y) = Ok (if lt (key_of x) (key_of y) then mp_const_true else mp_const_false) }.

(** The order of the result. *)
Definition in_order (key_of : mp_obj -> mp_obj) (lt : mp_obj -> mp_obj -> bool) (reverse : bool) (x y : mp_obj) : Prop :=
  if reverse then lt (key_of x) (key_of y) = false else lt (key_of y) (key_of x) = false.

Lemma in_order_trans key_of lt reverse x y z : less_order lt ->
  in_order key_of lt reverse x y -> in_order key_of lt reverse y z -> in_order key_of lt reverse x z.
Proof.
  intros [_ Hs]. unfold in_order. destruct reverse; intros H1 H2; apply not_true_is_false; intros H3.
  - destruct (Hs _ (key_of y) _ H3); congruence.
  - destruct (Hs _ (key_of y) _ H3); congruence.
Qed.

Lemma comparable_lawful key key_of lt (reverse : bool) xs : less_order lt -> comparable key key_of lt xs ->
  lawful key (if reverse then mp_const_false else mp_const_true) (in_order key_of lt reverse) xs.
Proof.
  intros [Ha _] [Hk Hl]. split; [intros x Hx; by eexists; apply Hk|]. intros x y kx ky Hx Hy Ex Ey.
  rewrite (Hk x Hx) in Ex. rewrite (Hk y Hy) in Ey. simplify_eq. unfold less_is. rewrite (Hl x y Hx Hy).
  pose proof mp_const_differ as Hd. unfold in_order. eexists. split; [done|].
  destruct reverse, (lt (key_of x) (key_of y)) eqn:E; case_bool_decide; try congruence; auto.
Qed.

(** C17 [list.sort] ends whatever the key function and the comparisons return, and
    then the list has the items it had, in some order; no other list has changed.
    When comparisons decide an order and [1 + log2 n] nested calls fit the stack, it
    raises nothing and the list is sorted, in descending order for [reverse]. *)
Theorem list_sort_correct s G self xs stack key reverse : lists_ok s G -> G !! self = Some xs ->
  exists r s' ys, mp_obj_list_sort stack self key reverse s = Some (r, s') /\ lists_ok s' (<[self := ys]> G) /\ ys ≡ₚ xs
  /\ forall key_of lt, less_order lt -> comparable key key_of lt xs ->
     (1 <= stack)%nat -> (length xs <= 2 ^ (stack - 1))%nat ->
     r = Ok tt
     /\ forall i j x y, (i < j)%nat -> ys !! i = Some x -> ys !! j = Some y -> in_order key_of lt reverse x y.
Proof.
  intros Hs HG. destruct (heap_ok_list _ _ _ _ Hs HG) as (k & p & Hr & Hsz & Hheap & _). pose proof Hr as [Ho Ha _].
  unfold mp_obj_list_sort. rewrite (X_bind_Ok _ _ _ _ _ (get_list_run _ _ _ Ho)). cbn [l_len l_items].
  destruct (Z.ltb_spec 1 (Z.of_nat (length xs))) as [Hlen|Hlen].
  2:{ exists (Ok tt), s, xs. split; [done|]. split; [by rewrite insert_id|]. split; [done|]. intros key_of lt _ _ _ _. split; [done|].
      intros i j x y Hij _ Hy%lookup_lt_Some. lia. }
  set (blr := if reverse then mp_const_false else mp_const_true). set (le0 := fun _ _ : mp_obj => True).
  destruct (quicksort_run key blr p k le0 ltac:(done) stack 0%nat (length xs) xs s ltac:(lia)) as (r & ys & Hrun & [Hp _] & _).
  rewrite (put_id p _ s Ha) in Hrun. exists r, (put p (array_of ys k) s), ys. split; [exact Hrun|].
  split; [apply (heap_ok_put s G self xs); [done|done|by apply Permutation_length]|]. split; [done|].
  intros key_of lt Hlt Hc H1 Hst.
  destruct (quicksort_run key blr p k (in_order key_of lt reverse) (fun x y z => in_order_trans key_of lt reverse x y z Hlt)
    stack 0%nat (length xs) xs s ltac:(lia)) as (r' & ys' & Hrun' & Hp' & Hso).
  rewrite (put_id p _ s Ha), Hrun in Hrun'. injection Hrun' as <- Es.
  assert (Eys : ys' = ys).
  { apply (f_equal (fun m : gmap nat (list item) => m !! p)) in Es. simpl in Es. rewrite !lookup_insert_eq in Es. injection Es as Es.
    unfold array_of in Es. apply app_inj_2 in Es as [Es _]; [|done]. apply (f_equal to_objs) in Es. rewrite !to_objs_fmap in Es. by simplify_eq. }
  subst ys'. destruct Hso as [-> Hso]; [by apply (comparable_lawful key key_of lt)|split; [done|lia]|].
  split; [done|]. intros i j x y Hij Hx Hy. apply (Hso i j); try (done || lia). apply lookup_lt_Some in Hy.
  rewrite (Permutation_length (proj1 Hp')). lia.
Qed.
End ListSort.
