(* ===== verification/BinHeap.v ===== *)
(** Binary heaps in arrays as pure functions on lists: the algorithm that
    [extmod/moduheapq.c] and [extmod/modutimeq.c] share, and why it keeps the heap
    property.  The order is only required of items of a domain [D]. *)
From Stdlib Require Import ZifyBool.
From S2P Require Import Prelude.

#[local] Open Scope nat_scope.

Definition parent (j : nat) : nat := (j - 1) / 2.

Lemma parent_lt j : 0 < j -> parent j < j.
Proof. intros. unfold parent. apply Nat.Div0.div_lt_upper_bound; lia. Qed.

Lemma parent_iff j i : 0 < j -> parent j = i <-> j = 2 * i + 1 \/ j = 2 * i + 2.
Proof.
  intros Hj. unfold parent. pose proof (Nat.div_mod_eq (j - 1) 2). pose proof (Nat.mod_upper_bound (j - 1) 2). lia.
Qed.

(** The parent as the C code computes it. *)
Lemma parent_pos_eq j : 0 < j -> Z.shiftr (Z.of_nat j - 1) 1 = Z.of_nat (parent j).
Proof.
  intros Hj. rewrite Z.shiftr_div_pow2 by lia. unfold parent. rewrite Nat2Z.inj_div. change (2 ^ 1)%Z with (Z.of_nat 2). f_equal. lia.
Qed.

Section Heap.
Context {A : Type} (lt : A -> A -> bool) (D : A -> Prop).
Implicit Types (xs ys : list A) (x item : A).

(** [lt] is a strict weak order on [D]. *)
Record order_on : Prop := {
  on_asym a b : D a -> D b -> lt a b = true -> lt b a = false;
  on_split a b c : D a -> D b -> D c -> lt a c = true -> lt a b = true \/ lt b c = true }.

Definition le x y : Prop := lt y x = false.

(** [heap_siftdown]: [item] rises from the free place [pos]. *)
Fixpoint bubble_up (fuel : nat) (start : nat) item (pos : nat) xs : list A :=
  match fuel with
  | O => <[pos := item]> xs
  | S fuel =>
      if start <? pos then
        match xs !! parent pos with
        | Some par => if lt item par then bubble_up fuel start item (parent pos) (<[pos := par]> xs) else <[pos := item]> xs
        | None => xs
        end
      else <[pos := item]> xs
  end.

(** The smaller child of a place, the right one when they compare equal. *)
Definition smaller_child xs (pos : nat) : nat :=
  let c := 2 * pos + 1 in
  match xs !! c, xs !! (c + 1) with
  | Some l, Some r => if lt l r then c else c + 1
  | _, _ => c
  end.

(** The loop of [heap_siftup]: the free place [pos] sinks to a leaf. *)
Fixpoint sink (fuel : nat) (pos : nat) xs : nat * list A :=
  match fuel with
  | O => (pos, xs)
  | S fuel =>
      match xs !! smaller_child xs pos with
      | Some c => sink fuel (smaller_child xs pos) (<[pos := c]> xs)
      | None => (pos, xs)
      end
  end.

Definition sift_up (pos : nat) xs : list A :=
  match xs !! pos with
  | Some item => let '(leaf, ys) := sink (length xs) pos xs in bubble_up leaf pos item leaf ys
  | None => xs
  end.

Fixpoint heapify (n : nat) xs : list A :=
  match n with
  | O => xs
  | S i => heapify i (sift_up i xs)
  end.

(** [bubble_up] with the free place it ends at. *)
Fixpoint bubble_place (fuel : nat) (start : nat) item (pos : nat) xs : nat * list A :=
  match fuel with
  | O => (pos, xs)
  | S fuel =>
      if start <? pos then
        match xs !! parent pos with
        | Some par => if lt item par then bubble_place fuel start item (parent pos) (<[pos := par]> xs) else (pos, xs)
        | None => (pos, xs)
        end
      else (pos, xs)
  end.

Lemma bubble_place_eq fuel start item pos xs : pos < length xs ->
  let '(i, ys) := bubble_place fuel start item pos xs in bubble_up fuel start item pos xs = <[i := item]> ys.
Proof.
  revert pos xs. induction fuel as [|fuel IH]; intros pos xs Hpos; simpl; [done|].
  destruct (Nat.ltb_spec start pos); [|done]. pose proof (parent_lt pos ltac:(lia)).
  destruct (lookup_lt_is_Some_2 xs (parent pos) ltac:(lia)) as [par Hp]. rewrite Hp. destruct (lt item par); [|done].
  apply IH. rewrite length_insert. lia.
Qed.

Lemma length_bubble_place fuel start item pos xs : pos < length xs ->
  let '(i, ys) := bubble_place fuel start item pos xs in i < length xs /\ length ys = length xs.
Proof.
  revert pos xs. induction fuel as [|fuel IH]; intros pos xs Hpos; simpl; [done|].
  destruct (Nat.ltb_spec start pos); [|done]. pose proof (parent_lt pos ltac:(lia)).
  destruct (xs !! parent pos) as [par|]; [|done]. destruct (lt item par); [|done].
  specialize (IH (parent pos) (<[pos := par]> xs)). rewrite length_insert in IH. apply IH. lia.
Qed.

(** The free place may hold anything. *)
Lemma bubble_up_insert fuel start item pos z xs :
  bubble_up fuel start item pos (<[pos := z]> xs) = bubble_up fuel start item pos xs.
Proof.
  destruct fuel as [|fuel]; simpl; [apply list_insert_insert_eq|]. destruct (Nat.ltb_spec start pos); [|apply list_insert_insert_eq].
  pose proof (parent_lt pos ltac:(lia)). rewrite list_lookup_insert_ne by lia. destruct (xs !! parent pos) as [par|] eqn:E.
  - destruct (lt item par); by rewrite list_insert_insert_eq.
  - rewrite list_insert_ge; [done|]. apply lookup_ge_None in E. lia.
Qed.

Lemma length_sink fuel pos xs : pos < length xs ->
  (sink fuel pos xs).1 < length xs /\ length (sink fuel pos xs).2 = length xs.
Proof.
  revert pos xs. induction fuel as [|fuel IH]; intros pos xs Hpos; simpl; [done|]. destruct (xs !! _) as [x|] eqn:E; [|done].
  apply lookup_lt_Some in E. specialize (IH (smaller_child xs pos) (<[pos := x]> xs)). rewrite length_insert in IH. by apply IH.
Qed.

(** No operation makes up items. *)
Lemma bubble_up_Forall fuel start item pos xs : Forall D xs -> D item -> Forall D (bubble_up fuel start item pos xs).
Proof.
  revert pos xs. induction fuel as [|fuel IH]; intros pos xs HD Hi; simpl; [by apply Forall_insert|].
  destruct (start <? pos); [|by apply Forall_insert]. destruct (xs !! parent pos) as [par|] eqn:E; [|done].
  destruct (lt item par); [|by apply Forall_insert]. apply IH; [|done]. apply Forall_insert; [done|].
  rewrite list.Forall_forall in HD. by apply HD, (list_elem_of_lookup_2 _ (parent pos)).
Qed.

Lemma sink_Forall fuel pos xs : Forall D xs -> Forall D (sink fuel pos xs).2.
Proof.
  revert pos xs. induction fuel as [|fuel IH]; intros pos xs HD; simpl; [done|]. destruct (xs !! _) as [x|] eqn:E; [|done].
  apply IH, Forall_insert; [done|]. rewrite list.Forall_forall in HD. by apply HD, (list_elem_of_lookup_2 _ (smaller_child xs pos)).
Qed.

Lemma sift_up_Forall pos xs : Forall D xs -> Forall D (sift_up pos xs).
Proof.
  intros HD. unfold sift_up. destruct (xs !! pos) as [x|] eqn:E; [|done]. pose proof (sink_Forall (length xs) pos xs HD) as Hs.
  destruct (sink _ _ _) as [leaf ys]. apply bubble_up_Forall; [done|]. rewrite list.Forall_forall in HD.
  by apply HD, (list_elem_of_lookup_2 _ pos).
Qed.

(** ** The heap property *)

(** No child of a place from [start] on is less than it. *)
Definition heap_from (start : nat) xs : Prop :=
  forall j x y, 0 < j -> start <= parent j -> xs !! parent j = Some x -> xs !! j = Some y -> le x y.

(** The same but for the free place [pos]; what is above it is not greater than what is
    below it. *)
Record holed (start pos : nat) xs : Prop := {
  h_pairs j x y : 0 < j -> start <= parent j -> j <> pos -> parent j <> pos -> xs !! parent j = Some x -> xs !! j = Some y -> le x y;
  h_around j x y : 0 < j -> parent j = pos -> start < pos -> start <= parent pos -> xs !! parent pos = Some x -> xs !! j = Some y -> le x y }.

Definition below item (pos : nat) xs : Prop := forall j y, 0 < j -> parent j = pos -> xs !! j = Some y -> le item y.

Context (Hord : order_on).

Lemma le_trans x y z : D x -> D y -> D z -> le x y -> le y z -> le x z.
Proof.
  intros Hx Hy Hz H1 H2. unfold le in *. apply not_true_is_false. intros H3. destruct (on_split Hord z y x Hz Hy Hx H3); congruence.
Qed.

Lemma lt_le x y : D x -> D y -> lt x y = true -> le x y.
Proof. intros. by apply (on_asym Hord). Qed.

Lemma le_refl x : D x -> le x x.
Proof. intros Hx. unfold le. apply not_true_is_false. intros H. by rewrite (on_asym Hord x x Hx Hx H) in H. Qed.

Lemma D_lookup xs j x : Forall D xs -> xs !! j = Some x -> D x.
Proof. intros HF Hx. rewrite list.Forall_forall in HF. apply HF. by eapply list_elem_of_lookup_2. Qed.

(** Moving an item within the array is a permutation. *)
Lemma move_perm xs (i j : nat) x item : i <> j -> i < length xs -> xs !! j = Some x ->
  <[j := item]> (<[i := x]> xs) ≡ₚ <[i := item]> xs.
Proof.
  intros Hij Hi Hx. pose proof (lookup_lt_Some _ _ _ Hx) as Hj.
  apply Permutation_inj. rewrite !length_insert. split; [done|].
  exists (fun k => if decide (k = i) then j else if decide (k = j) then i else k). split.
  - intros a b. repeat case_decide; congruence.
  - intros k. repeat case_decide; subst.
    + rewrite list_lookup_insert_ne, list_lookup_insert_eq by done. by rewrite list_lookup_insert_ne, Hx by done.
    + rewrite list_lookup_insert_eq by (by rewrite length_insert). by rewrite list_lookup_insert_eq by done.
    + by rewrite !list_lookup_insert_ne by done.
Qed.

Lemma length_bubble_up fuel start item pos xs : length (bubble_up fuel start item pos xs) = length xs.
Proof.
  revert pos xs. induction fuel as [|fuel IH]; intros pos xs; simpl; [apply length_insert|].
  destruct (start <? pos); [|apply length_insert]. destruct (xs !! parent pos); [|done].
  destruct (lt item a); [|apply length_insert]. by rewrite IH, length_insert.
Qed.

Lemma bubble_up_perm fuel start item pos xs : pos < length xs -> bubble_up fuel start item pos xs ≡ₚ <[pos := item]> xs.
Proof.
  revert pos xs. induction fuel as [|fuel IH]; intros pos xs Hpos; simpl; [done|].
  destruct (Nat.ltb_spec start pos); [|done]. pose proof (parent_lt pos ltac:(lia)).
  destruct (lookup_lt_is_Some_2 xs (parent pos) ltac:(lia)) as [par Hp]. rewrite Hp. destruct (lt item par); [|done].
  rewrite IH by (rewrite length_insert; lia). apply move_perm; [lia|done|done].
Qed.

Lemma insert_heap start item pos xs : pos < length xs -> holed start pos xs -> below item pos xs ->
  (start < pos -> start <= parent pos -> forall par, xs !! parent pos = Some par -> le par item) -> heap_from start (<[pos := item]> xs).
Proof.
  intros Hpos [H1 H2] Hb Hp j x y Hj Hs Hx Hy. pose proof (parent_lt j Hj).
  destruct (decide (j = pos)) as [->|Hne].
  - rewrite list_lookup_insert_eq in Hy by done. rewrite list_lookup_insert_ne in Hx by lia. simplify_eq. apply Hp; [lia|done|done].
  - rewrite (list_lookup_insert_ne _ pos j) in Hy by done. destruct (decide (parent j = pos)) as [E|E].
    + rewrite E, list_lookup_insert_eq in Hx by done. simplify_eq. by apply (Hb j).
    + rewrite list_lookup_insert_ne in Hx by done. by apply (H1 j).
Qed.

(** Places under [start]. *)
Inductive desc (start : nat) : nat -> Prop :=
  | desc_start : desc start start
  | desc_child j : 0 < j -> desc start (parent j) -> desc start j.

Lemma desc_le start j : desc start j -> start <= j.
Proof. induction 1 as [|j Hj _ IH]; [done|]. pose proof (parent_lt j Hj). lia. Qed.
Lemma desc_parent start j : desc start j -> start < j -> desc start (parent j).
Proof. destruct 1; [lia|done]. Qed.
Lemma desc_root j : desc 0 j.
Proof.
  induction j as [j IH] using lt_wf_ind. destruct (decide (j = 0)) as [->|]; [constructor|].
  apply desc_child; [lia|]. apply IH, parent_lt. lia.
Qed.

Lemma bubble_up_heap fuel start item pos xs : pos <= fuel -> pos < length xs -> Forall D xs -> D item -> desc start pos ->
  holed start pos xs -> below item pos xs -> heap_from start (bubble_up fuel start item pos xs).
Proof.
  revert pos xs. induction fuel as [|fuel IH]; intros pos xs Hf Hpos HD Hi Hdesc Hh Hb; simpl.
  { apply insert_heap; try done. intros. lia. }
  destruct (Nat.ltb_spec start pos) as [Hs|Hs]; [|apply insert_heap; try done; intros; lia].
  pose proof (parent_lt pos ltac:(lia)) as Hlt. pose proof (desc_parent _ _ Hdesc Hs) as Hdp. pose proof (desc_le _ _ Hdp) as Hsp.
  destruct (lookup_lt_is_Some_2 xs (parent pos) ltac:(lia)) as [par Hp]. rewrite Hp.
  pose proof (D_lookup _ _ _ HD Hp) as Hpar. pose proof Hh as [H1 H2].
  destruct (lt item par) eqn:E; [|apply insert_heap; try done; intros; by simplify_eq].
  assert (Hsib : forall j y, 0 < j -> parent j = parent pos -> <[pos := par]> xs !! j = Some y -> le par y /\ D y).
  { intros j y Hj Ej Hy. destruct (decide (j = pos)) as [->|Hne].
    - rewrite list_lookup_insert_eq in Hy by done. simplify_eq. by split; [apply le_refl|].
    - rewrite list_lookup_insert_ne in Hy by done. split; [|by eapply D_lookup].
      apply (H1 j); try (done || congruence || lia). }
  apply IH; rewrite ?length_insert; try (done || lia); [by apply Forall_insert| |].
  - constructor.
    + intros j x y Hj Hsj Hne Hnp Hx Hy. destruct (decide (j = pos)) as [->|Hj1]; [congruence|].
      rewrite (list_lookup_insert_ne _ pos j) in Hy by done. destruct (decide (parent j = pos)) as [Ej|Ej].
      * rewrite Ej, list_lookup_insert_eq in Hx by done. simplify_eq. by apply (H2 j).
      * rewrite list_lookup_insert_ne in Hx by done. by apply (H1 j).
    + intros j x y Hj Ej Hsq Hsq' Hx Hy. pose proof (parent_lt (parent pos) ltac:(lia)).
      rewrite list_lookup_insert_ne in Hx by lia.
      assert (Hxp : le x par) by (apply (H1 (parent pos)); (done || lia)).
      destruct (Hsib j y Hj Ej Hy). apply (le_trans x par y); try done. by eapply D_lookup.
  - intros j y Hj Ej Hy. destruct (Hsib j y Hj Ej Hy). apply (le_trans item par y); try done. by apply lt_le.
Qed.

(** ** Sinking *)

Lemma smaller_child_spec xs pos : smaller_child xs pos = 2 * pos + 1 \/ smaller_child xs pos = 2 * pos + 2 /\ 2 * pos + 2 < length xs.
Proof.
  unfold smaller_child. destruct (xs !! (2 * pos + 1)); [|by left]. destruct (xs !! (2 * pos + 1 + 1)) eqn:E; [|by left].
  apply lookup_lt_Some in E. destruct (lt _ _); [by left|right]. lia.
Qed.

Lemma smaller_child_parent xs pos : parent (smaller_child xs pos) = pos.
Proof. destruct (smaller_child_spec xs pos) as [->|[-> _]]; apply parent_iff; lia. Qed.

Lemma smaller_child_le xs pos x j y : Forall D xs -> xs !! smaller_child xs pos = Some x -> 0 < j -> parent j = pos ->
  xs !! j = Some y -> le x y.
Proof.
  intros HD Hx Hj Ej Hy. apply parent_iff in Ej; [|done]. unfold smaller_child in Hx.
  destruct Ej as [->| ->].
  - rewrite Hy in Hx. destruct (xs !! (2 * pos + 1 + 1)) as [r|] eqn:Er.
    + destruct (lt y r) eqn:E; simplify_eq; [|done]. apply le_refl. by eapply D_lookup.
    + simplify_eq. apply le_refl. by eapply D_lookup.
  - replace (2 * pos + 1 + 1) with (2 * pos + 2) in Hx by lia. rewrite Hy in Hx.
    destruct (lookup_lt_is_Some_2 xs (2 * pos + 1)) as [l Hl]; [apply lookup_lt_Some in Hy; lia|]. rewrite Hl in Hx.
    destruct (lt l y) eqn:E; simplify_eq.
    + apply lt_le; [by eapply D_lookup..|done].
    + apply le_refl. by eapply D_lookup.
Qed.

Lemma sink_step start pos xs c x : Forall D xs -> c = smaller_child xs pos -> xs !! c = Some x -> pos < length xs ->
  holed start pos xs -> desc start pos -> holed start c (<[pos := x]> xs).
Proof.
  intros HD -> Hx Hpos [H1 H2] Hdesc. pose proof (smaller_child_parent xs pos) as Hc.
  assert (Hgt : pos < smaller_child xs pos) by (destruct (smaller_child_spec xs pos) as [->|[-> _]]; lia).
  pose proof (desc_le _ _ Hdesc) as Hs. constructor.
  - intros j a b Hj Hsj Hjc Hpc Ha Hb. pose proof (parent_lt j Hj). destruct (decide (j = pos)) as [->|Hne].
    + rewrite list_lookup_insert_eq in Hb by done. rewrite list_lookup_insert_ne in Ha by lia. simplify_eq.
      apply (H2 (smaller_child xs pos)); (done || lia).
    + rewrite (list_lookup_insert_ne _ pos j) in Hb by done. destruct (decide (parent j = pos)) as [E|E].
      * rewrite E, list_lookup_insert_eq in Ha by done. simplify_eq. by apply (smaller_child_le xs (parent j) a j b).
      * rewrite list_lookup_insert_ne in Ha by done. by apply (H1 j).
  - intros j a b Hj Ej _ _ Ha Hb. pose proof (parent_lt j Hj). rewrite Hc, list_lookup_insert_eq in Ha by done. simplify_eq.
    rewrite list_lookup_insert_ne in Hb by lia. apply (H1 j); rewrite ?Ej; (done || lia).
Qed.

Lemma sink_spec fuel : forall start pos xs item, length xs - pos <= fuel -> pos < length xs -> Forall D xs -> holed start pos xs ->
  desc start pos ->
  let '(leaf, ys) := sink fuel pos xs in
  leaf < length ys /\ length ys = length xs /\ Forall D ys /\ holed start leaf ys /\ desc start leaf
  /\ below item leaf ys /\ <[leaf := item]> ys ≡ₚ <[pos := item]> xs.
Proof.
  induction fuel as [|fuel IH]; intros start pos xs item Hf Hpos HD Hh Hd; simpl; [lia|].
  destruct (xs !! smaller_child xs pos) as [x|] eqn:Ex.
  - pose proof (smaller_child_parent xs pos) as Hp. pose proof (lookup_lt_Some _ _ _ Ex) as Hlt.
    assert (Hgt : pos < smaller_child xs pos) by (destruct (smaller_child_spec xs pos) as [->|[-> _]]; lia).
    specialize (IH start (smaller_child xs pos) (<[pos := x]> xs) item).
    destruct (sink fuel _ _) as [leaf ys]. rewrite length_insert in IH.
    destruct IH as (? & ? & ? & ? & ? & ? & Hperm); [lia|done| | | |].
    + apply Forall_insert; [done|by eapply D_lookup].
    + by eapply sink_step.
    + apply desc_child; [lia|by rewrite Hp].
    + do 6 (split; [done|]). rewrite Hperm. apply move_perm; [lia|done|done].
  - do 5 (split; [done|]). split; [|done]. intros j y Hj Ej Hy. apply parent_iff in Ej; [|done]. apply lookup_lt_Some in Hy.
    destruct (smaller_child_spec xs pos) as [E|[E ?]]; rewrite E in Ex; apply lookup_ge_None in Ex; lia.
Qed.

(** ** The operations *)

(** Nothing is required of the comparisons for the items to stay. *)
Lemma sift_up_heap pos xs : Forall D xs -> pos < length xs -> heap_from (S pos) xs ->
  heap_from pos (sift_up pos xs) /\ sift_up pos xs ≡ₚ xs.
Proof.
  intros HD Hpos Hh. unfold sift_up. destruct (lookup_lt_is_Some_2 xs pos Hpos) as [item Hi]. rewrite Hi.
  pose proof (sink_spec (length xs) pos pos xs item ltac:(lia) Hpos HD) as Hs. destruct (sink _ _ _) as [leaf ys].
  destruct Hs as (Hleaf & Hlen & HDy & Hholed & Hdesc & Hb & Hperm); [|constructor|].
  { constructor; [|intros; lia]. intros j x y Hj Hsj Hne Hnp. apply Hh; [done|lia]. }
  split.
  - apply bubble_up_heap; try (done || lia). exact (D_lookup _ _ _ HD Hi).
  - rewrite bubble_up_perm by done. rewrite Hperm. by rewrite list_insert_id.
Qed.

Lemma heapify_heap n xs : Forall D xs -> n <= length xs -> heap_from n xs -> heap_from 0 (heapify n xs) /\ heapify n xs ≡ₚ xs.
Proof.
  revert xs. induction n as [|i IH]; intros xs HD Hn Hh; simpl; [done|].
  destruct (sift_up_heap i xs HD ltac:(lia) Hh) as [H1 H2]. destruct (IH (sift_up i xs)) as [H3 H4].
  - by rewrite H2.
  - rewrite (Permutation_length H2). lia.
  - done.
  - split; [done|]. by rewrite H4.
Qed.

Lemma leaves_heap xs : heap_from (length xs / 2) xs.
Proof.
  intros j x y Hj Hs _ Hy. apply lookup_lt_Some in Hy. pose proof (Nat.div_mod_eq (length xs) 2).
  pose proof (Nat.mod_upper_bound (length xs) 2). destruct (proj1 (parent_iff j (parent j) Hj) eq_refl); lia.
Qed.

Lemma bubble_last_heap xs item : Forall D xs -> D item -> heap_from 0 xs ->
  heap_from 0 (bubble_up (length xs) 0 item (length xs) (xs ++ [item])).
Proof.
  intros HD Hi Hh. apply bubble_up_heap; rewrite ?length_app; simpl; try (done || lia).
  - by apply Forall_app_2; [|constructor].
  - apply desc_root.
  - constructor.
    + intros j x y Hj _ Hne Hnp Hx Hy. pose proof (lookup_lt_Some _ _ _ Hy) as Hl. rewrite length_app in Hl. simpl in Hl.
      pose proof (parent_lt j Hj). rewrite lookup_app_l in Hx, Hy by lia. apply (Hh j); (done || lia).
    + intros j x y Hj Ej _ _ _ Hy. pose proof (parent_lt j Hj). apply lookup_lt_Some in Hy. rewrite length_app in Hy. simpl in Hy. lia.
  - intros j y Hj Ej Hy. pose proof (parent_lt j Hj). apply lookup_lt_Some in Hy. rewrite length_app in Hy. simpl in Hy. lia.
Qed.

Lemma heap_minimum xs x : Forall D xs -> heap_from 0 xs -> xs !! 0 = Some x -> forall j y, xs !! j = Some y -> le x y.
Proof.
  intros HD Hh Hx j. induction j as [j IH] using lt_wf_ind. intros y Hy. destruct (decide (j = 0)) as [->|Hne].
  { simplify_eq. apply le_refl. by eapply D_lookup. }
  pose proof (parent_lt j ltac:(lia)) as Hlt. pose proof (lookup_lt_Some _ _ _ Hy).
  destruct (lookup_lt_is_Some_2 xs (parent j) ltac:(lia)) as [z Hz].
  apply (le_trans x z y); [by eapply D_lookup..|by eapply IH|]. apply (Hh j); (done || lia).
Qed.

(** The last item takes the place of the first. *)
Definition without_first xs : list A :=
  match list.last xs with Some x => <[0 := x]> (take (length xs - 1) xs) | None => [] end.

Lemma without_first_heap xs : heap_from 0 xs -> heap_from 1 (without_first xs).
Proof.
  intros Hh j x y Hj Hs Hx Hy. unfold without_first in *. destruct (list.last xs) as [l|]; [|done]. pose proof (parent_lt j Hj).
  rewrite list_lookup_insert_ne in Hx, Hy by lia. apply lookup_take_Some in Hx as [Hx _]. apply lookup_take_Some in Hy as [Hy _].
  apply (Hh j); (done || lia).
Qed.

Lemma without_first_perm x xs : x :: without_first (x :: xs) ≡ₚ x :: xs.
Proof.
  f_equiv. unfold without_first. destruct xs as [|a xs _] using rev_ind; [done|].
  change (x :: xs ++ [a]) with ((x :: xs) ++ [a]). rewrite last_snoc, length_app, Nat.add_sub.
  rewrite take_app_length. simpl. by rewrite Permutation_app_comm.
Qed.
End Heap.
