(* ===== verification/Heapq.v ===== *)
(** Heaps in lists, [extmod/moduheapq.c]. *)
From S2P Require Import Prelude PyExn Map ObjSeq ObjList ObjListSpec ObjListOps BinHeap.

Section Heapq.
Context {MO : MpObj} {MC : MpCalls MO}.

Definition get_heap (heap_in : nat) : X lists unit :=
  s ← xget;
  match list_objs s !! heap_in with Some _ => mret tt | None => mp_raise TypeError end.

(** [heap->items[pos]] *)
Definition item_at (heap : nat) (pos : Z) : X lists mp_obj := l ← get_list heap; load_item (l_items l) pos.
Definition set_item_at (heap : nat) (pos : Z) (o : item) : X lists unit := l ← get_list heap; store_item (l_items l) pos o.

(** The loop returns the place for [item]. *)
Fixpoint siftdown_loop (fuel : nat) (heap : nat) (item : mp_obj) (start_pos pos : Z) : X lists Z :=
  if start_pos <? pos then
    match fuel with
    | O => xabort
    | S fuel =>
        let parent_pos := Z.shiftr (pos - 1) 1 in
        parent ← item_at heap parent_pos;
        r ← of_res (mp_binary_op OP_LESS item parent);
        if bool_decide (r = mp_const_true) then
          set_item_at heap pos (Obj parent);; siftdown_loop fuel heap item start_pos parent_pos
        else mret pos
    end
  else mret pos.

Definition heap_siftdown (heap : nat) (start_pos pos : Z) : X lists unit :=
  item ← item_at heap pos;
  pos ← siftdown_loop (Z.to_nat pos) heap item start_pos pos;
  set_item_at heap pos (Obj item).

Definition choose_child (heap : nat) (end_pos child_pos : Z) : X lists Z :=
  if child_pos + 1 <? end_pos then
    l ← item_at heap child_pos;
    r ← item_at heap (child_pos + 1);
    b ← of_res (mp_binary_op OP_LESS l r);
    mret (if bool_decide (b = mp_const_false) then child_pos + 1 else child_pos)
  else mret child_pos.

Fixpoint siftup_loop (fuel : nat) (heap : nat) (end_pos pos : Z) : X lists Z :=
  let child_pos := wrap 32 (2 * pos + 1) in
  if child_pos <? end_pos then
    match fuel with
    | O => xabort
    | S fuel =>
        child_pos ← choose_child heap end_pos child_pos;
        child ← item_at heap child_pos;
        set_item_at heap pos (Obj child);;
        siftup_loop fuel heap end_pos child_pos
    end
  else mret pos.

(** A round of the loop at least doubles [pos + 1]; as many rounds as items are enough. *)
Definition heap_siftup (heap : nat) (pos : Z) : X lists unit :=
  let start_pos := pos in
  l ← get_list heap;
  item ← item_at heap pos;
  pos ← siftup_loop (Z.to_nat (l_len l)) heap (l_len l) pos;
  set_item_at heap pos (Obj item);;
  heap_siftdown heap start_pos pos.

Definition mod_uheapq_heappush (heap_in : nat) (item : mp_obj) : X lists unit :=
  get_heap heap_in;;
  mp_obj_list_append heap_in item;;
  l ← get_list heap_in;
  heap_siftdown heap_in 0 (l_len l - 1).

Definition mod_uheapq_heappop (heap_in : nat) : X lists mp_obj :=
  get_heap heap_in;;
  l ← get_list heap_in;
  if l_len l =? 0 then mp_raise IndexError
  else
    item ← item_at heap_in 0;
    let len := l_len l - 1 in
    set_list_len heap_in len;;
    x ← item_at heap_in len;
    set_item_at heap_in 0 (Obj x);;
    set_item_at heap_in len Null;;
    (if negb (len =? 0) then heap_siftup heap_in 0 else mret tt);;
    mret item.

(** [for (i = heap->len / 2; i > 0;) heap_siftup(heap, --i)] *)
Fixpoint heapify_loop (i : nat) (heap : nat) : X lists unit :=
  match i with
  | O => mret tt
  | S i => heap_siftup heap (Z.of_nat i);; heapify_loop i heap
  end.

Definition mod_uheapq_heapify (heap_in : nat) : X lists unit :=
  get_heap heap_in;;
  l ← get_list heap_in;
  heapify_loop (Z.to_nat (l_len l / 2)) heap_in.
End Heapq.

(** The functions of [Heapq] against the heaps of [BinHeap]. *)

(** The comparisons of a heap: [mp_binary_op] decides [lt] on [D]. *)
Definition decides {MO : MpObj} {MC : MpCalls MO} (lt : mp_obj -> mp_obj -> bool) (D : mp_obj -> Prop) : Prop :=
  forall x y, D x -> D y -> mp_binary_op OP_LESS x y = Ok (if lt x y then mp_const_true else mp_const_false).

Section Run.
Context {MO : MpObj} {MC : MpCalls MO} (heap p old k m : nat) (alloc : Z) (ans : list mem_answer) (brk : nat) (s0 : lists).
Context (Hm : 4 * Z.of_nat m < 2 ^ 30).
Implicit Types (xs ys : list mp_obj) (x item : mp_obj).

Abbreviation st xs := (opened heap alloc (Z.of_nat m) p (array_of xs k) old ans brk s0).
Ltac step H := rewrite (X_bind_Ok _ _ _ _ _ H).
Ltac raise H := rewrite (X_bind_Raise _ _ _ _ _ H).

Lemma item_at_run i z x xs : z = Z.of_nat i -> xs !! i = Some x -> item_at heap z (st xs) = Some (Ok x, st xs).
Proof. intros -> Hx. unfold item_at. step (get_list_opened heap alloc (Z.of_nat m) p (array_of xs k) old ans brk s0). by apply load_opened. Qed.

Lemma set_item_at_run i z x xs : z = Z.of_nat i -> (i < length xs)%nat ->
  set_item_at heap z (Obj x) (st xs) = Some (Ok tt, st (<[i := x]> xs)).
Proof. intros -> Hx. unfold set_item_at. step (get_list_opened heap alloc (Z.of_nat m) p (array_of xs k) old ans brk s0). by apply store_opened. Qed.

Lemma const_true_iff (b : bool) : bool_decide ((if b then mp_const_true else mp_const_false) = mp_const_true) = b.
Proof. pose proof mp_const_differ. destruct b; simpl; case_bool_decide; congruence. Qed.
Lemma const_false_iff (b : bool) : bool_decide ((if b then mp_const_true else mp_const_false) = mp_const_false) = negb b.
Proof. pose proof mp_const_differ. destruct b; simpl; case_bool_decide; congruence. Qed.

(** A loop that moves a free place: whatever comparisons do it ends with as many
    items, and when they decide an order it is the function [f]. *)
Definition moves (run : X lists Z) (item : mp_obj) xs (f : (mp_obj -> mp_obj -> bool) -> nat * list mp_obj) : Prop :=
  exists r ys, run (st xs) = Some (r, st ys) /\ length ys = length xs
  /\ (forall z, r = Ok z -> exists i, z = Z.of_nat i /\ (i < length xs)%nat)
  /\ forall lt D, decides lt D -> Forall D xs -> D item -> r = Ok (Z.of_nat (f lt).1) /\ ys = (f lt).2.

Lemma siftdown_loop_run fuel : forall item start pos xs, (pos <= fuel)%nat -> (pos < length xs)%nat ->
  moves (siftdown_loop fuel heap item (Z.of_nat start) (Z.of_nat pos)) item xs (fun lt => bubble_place lt fuel start item pos xs).
Proof.
  induction fuel as [|fuel IH]; intros item start pos xs Hf Hpos; cbn [siftdown_loop bubble_place].
  { replace pos with 0%nat by lia. replace (Z.of_nat start <? Z.of_nat 0) with false by (symmetry; apply Z.ltb_ge; lia).
    exists (Ok 0), xs. split; [done|]. split; [done|]. split; [intros z [= <-]; exists 0%nat; lia|done]. }
  destruct (Nat.ltb_spec start pos) as [Hs|Hs].
  2:{ replace (Z.of_nat start <? Z.of_nat pos) with false by (symmetry; apply Z.ltb_ge; lia).
      exists (Ok (Z.of_nat pos)), xs. split; [done|]. split; [done|]. split; [intros z [= <-]; eauto|done]. }
  replace (Z.of_nat start <? Z.of_nat pos) with true by (symmetry; apply Z.ltb_lt; lia). cbv zeta. rewrite parent_pos_eq by lia.
  pose proof (parent_lt pos ltac:(lia)) as Hlt. destruct (lookup_lt_is_Some_2 xs (parent pos) ltac:(lia)) as [par Hp].
  unfold moves. rewrite Hp, (X_bind_Ok _ _ _ _ _ (item_at_run _ _ _ _ eq_refl Hp)).
  destruct (mp_binary_op OP_LESS item par) as [r|e] eqn:E.
  2:{ exists (Raise e), xs. split; [done|]. split; [done|]. split; [done|]. intros lt D Hd HD Hi.
      rewrite (Hd item par Hi (D_lookup D _ _ _ HD Hp)) in E. done. }
  rewrite (X_bind_Ok (of_res (Ok r)) _ _ r (st xs)) by done.
  assert (Hb : forall lt D, decides lt D -> Forall D xs -> D item -> lt item par = bool_decide (r = mp_const_true)).
  { intros lt D Hd HD Hi. rewrite (Hd item par Hi (D_lookup D _ _ _ HD Hp)) in E. injection E as <-. by rewrite const_true_iff. }
  destruct (bool_decide (r = mp_const_true)).
  - step (set_item_at_run pos _ par xs eq_refl Hpos).
    destruct (IH item start (parent pos) (<[pos := par]> xs) ltac:(lia) ltac:(rewrite length_insert; lia)) as (r' & ys & Hr & Hl & Hz & Hys).
    rewrite length_insert in *. exists r', ys. split; [done|]. split; [done|]. split; [done|]. intros lt D Hd HD Hi.
    rewrite (Hb lt D Hd HD Hi). apply (Hys lt D Hd); [|done]. apply Forall_insert; [done|]. apply (D_lookup D _ _ _ HD Hp).
  - exists (Ok (Z.of_nat pos)), xs. split; [done|]. split; [done|]. split; [intros z [= <-]; eauto|].
    intros lt D Hd HD Hi. by rewrite (Hb lt D Hd HD Hi).
Qed.

(** The functions that rearrange a heap. *)
Definition rearranges (run : X lists unit) xs (f : (mp_obj -> mp_obj -> bool) -> list mp_obj) : Prop :=
  exists r ys, run (st xs) = Some (r, st ys) /\ length ys = length xs
  /\ forall lt D, decides lt D -> Forall D xs -> r = Ok tt /\ ys = f lt.

Lemma siftdown_run item start pos xs : xs !! pos = Some item ->
  rearranges (heap_siftdown heap (Z.of_nat start) (Z.of_nat pos)) xs (fun lt => bubble_up lt pos start item pos xs).
Proof.
  intros Hx. pose proof (lookup_lt_Some _ _ _ Hx) as Hpos. unfold rearranges, heap_siftdown. step (item_at_run pos _ item xs eq_refl Hx).
  rewrite Nat2Z.id. destruct (siftdown_loop_run pos item start pos xs ltac:(lia) Hpos) as (r & ys & Hr & Hl & Hz & Hys).
  destruct r as [z|e].
  - step Hr. destruct (Hz z eq_refl) as (i & -> & Hi). exists (Ok tt), (<[i := item]> ys).
    split; [apply set_item_at_run; [done|by rewrite Hl]|]. split; [by rewrite length_insert|]. intros lt D Hd HD. split; [done|].
    pose proof (bubble_place_eq lt pos start item pos xs Hpos) as Hb.
    destruct (Hys lt D Hd HD (D_lookup D _ _ _ HD Hx)) as [Ez ->]. destruct (bubble_place _ _ _ _ _ _) as [j zs]. simpl in Ez.
    injection Ez as Ez. apply Nat2Z.inj in Ez as ->. done.
  - raise Hr. exists (Raise e), ys. split; [done|]. split; [done|]. intros lt D Hd HD.
    by destruct (Hys lt D Hd HD (D_lookup D _ _ _ HD Hx)).
Qed.

(** ** [heap_siftup] *)

Lemma choose_child_run pos xs : length xs = m -> (2 * pos + 1 < m)%nat ->
  exists r, choose_child heap (Z.of_nat m) (Z.of_nat (2 * pos + 1)) (st xs) = Some (r, st xs)
  /\ (forall z, r = Ok z -> exists i, z = Z.of_nat i /\ (pos < i < m)%nat)
  /\ forall lt D, decides lt D -> Forall D xs -> r = Ok (Z.of_nat (smaller_child lt xs pos)).
Proof.
  intros Hl Hp. unfold choose_child, smaller_child. destruct (lookup_lt_is_Some_2 xs (2 * pos + 1) ltac:(lia)) as [l Hxl]. rewrite Hxl.
  destruct (Z.ltb_spec (Z.of_nat (2 * pos + 1) + 1) (Z.of_nat m)) as [Hr|Hr].
  2:{ exists (Ok (Z.of_nat (2 * pos + 1))). split; [done|]. split; [intros z [= <-]; exists (2 * pos + 1)%nat; lia|]. intros lt D _ _.
      by rewrite (lookup_ge_None_2 xs (2 * pos + 1 + 1)) by lia. }
  destruct (lookup_lt_is_Some_2 xs (2 * pos + 1 + 1) ltac:(lia)) as [r Hxr]. rewrite Hxr.
  step (item_at_run _ _ _ _ eq_refl Hxl). step (item_at_run (2 * pos + 1 + 1) (Z.of_nat (2 * pos + 1) + 1) r xs ltac:(lia) Hxr).
  destruct (mp_binary_op OP_LESS l r) as [b|e] eqn:E.
  - rewrite (X_bind_Ok (of_res (Ok b)) _ _ b (st xs)) by done. eexists. split; [done|]. split.
    + intros z [= <-]. destruct (bool_decide _); [exists (2 * pos + 2)%nat|exists (2 * pos + 1)%nat]; lia.
    + intros lt D Hd HD. rewrite (Hd l r (D_lookup D _ _ _ HD Hxl) (D_lookup D _ _ _ HD Hxr)) in E. injection E as <-.
      rewrite const_false_iff. destruct (lt l r); simpl negb; cbv iota; f_equal; lia.
  - exists (Raise e). split; [done|]. split; [done|]. intros lt D Hd HD.
    by rewrite (Hd l r (D_lookup D _ _ _ HD Hxl) (D_lookup D _ _ _ HD Hxr)) in E.
Qed.

Lemma siftup_loop_run fuel : forall pos xs, length xs = m -> (pos < m)%nat -> (m - pos <= fuel)%nat ->
  exists r ys, siftup_loop fuel heap (Z.of_nat m) (Z.of_nat pos) (st xs) = Some (r, st ys) /\ length ys = length xs
  /\ (forall z, r = Ok z -> exists i, z = Z.of_nat i /\ (i < m)%nat)
  /\ forall lt D, decides lt D -> Forall D xs -> r = Ok (Z.of_nat (sink lt fuel pos xs).1) /\ ys = (sink lt fuel pos xs).2.
Proof.
  induction fuel as [|fuel IH]; intros pos xs Hl Hpos Hf; [lia|]. cbn [siftup_loop sink].
  replace (wrap 32 (2 * Z.of_nat pos + 1)) with (Z.of_nat (2 * pos + 1)) by (rewrite wrap_id; lia). cbv zeta.
  destruct (Z.ltb_spec (Z.of_nat (2 * pos + 1)) (Z.of_nat m)) as [Hc|Hc].
  2:{ exists (Ok (Z.of_nat pos)), xs. split; [done|]. split; [done|]. split; [intros z [= <-]; eauto|]. intros lt D _ _.
      rewrite lookup_ge_None_2; [done|]. destruct (smaller_child_spec lt xs pos) as [->|[-> ?]]; lia. }
  destruct (choose_child_run pos xs Hl ltac:(lia)) as ([z|e] & Hr & Hz & Hd1).
  2:{ raise Hr. exists (Raise e), xs. split; [done|]. split; [done|]. split; [done|]. intros lt D Hd HD.
      by specialize (Hd1 lt D Hd HD). }
  step Hr. destruct (Hz z eq_refl) as (i & -> & Hi). destruct (lookup_lt_is_Some_2 xs i ltac:(lia)) as [c Hci].
  step (item_at_run _ _ _ _ eq_refl Hci). step (set_item_at_run pos _ c xs eq_refl ltac:(lia)).
  destruct (IH i (<[pos := c]> xs)) as (r & ys & Hr' & Hl' & Hz' & Hys); [rewrite ?length_insert; lia..|].
  rewrite length_insert in *. exists r, ys. split; [done|]. split; [done|]. split; [done|]. intros lt D Hd HD.
  specialize (Hd1 lt D Hd HD). injection Hd1 as Ei. apply Nat2Z.inj in Ei as <-. rewrite Hci. apply (Hys lt D Hd).
  apply Forall_insert; [done|]. apply (D_lookup D _ _ _ HD Hci).
Qed.

Lemma siftup_run pos xs : length xs = m -> (pos < m)%nat ->
  rearranges (heap_siftup heap (Z.of_nat pos)) xs (fun lt => sift_up lt pos xs).
Proof.
  intros Hl Hpos. destruct (lookup_lt_is_Some_2 xs pos ltac:(lia)) as [item Hx]. unfold rearranges, heap_siftup, sift_up. cbv zeta.
  step (get_list_opened heap alloc (Z.of_nat m) p (array_of xs k) old ans brk s0). step (item_at_run _ _ _ _ eq_refl Hx). cbn [l_len].
  rewrite Nat2Z.id, Hx. destruct (siftup_loop_run m pos xs Hl Hpos ltac:(lia)) as ([z|e] & ys & Hr & Hly & Hz & Hys).
  2:{ raise Hr. exists (Raise e), ys. split; [done|]. split; [done|]. intros lt D Hd HD. by destruct (Hys lt D Hd HD). }
  step Hr. destruct (Hz z eq_refl) as (i & -> & Hi). step (set_item_at_run i _ item ys eq_refl ltac:(lia)).
  destruct (siftdown_run item pos i (<[i := item]> ys)) as (r & zs & Hr2 & Hl2 & Hzs); [apply list_lookup_insert_eq; lia|].
  rewrite length_insert in Hl2. exists r, zs. split; [done|]. split; [lia|]. intros lt D Hd HD.
  destruct (Hys lt D Hd HD) as [Ei Ey]. pose proof (D_lookup D _ _ _ HD Hx) as Hi'.
  rewrite Hl. destruct (sink lt m pos xs) as [leaf ws] eqn:Es. simpl in *. injection Ei as Ei. apply Nat2Z.inj in Ei as ->. subst ys.
  destruct (Hzs lt D Hd) as [-> ->].
  - apply Forall_insert; [|done]. pose proof (sink_Forall lt D m pos xs HD) as Hws. by rewrite Es in Hws.
  - split; [done|]. apply bubble_up_insert.
Qed.

Lemma heapify_loop_run n xs : length xs = m -> (n <= m)%nat -> rearranges (heapify_loop n heap) xs (fun lt => heapify lt n xs).
Proof.
  revert xs. induction n as [|i IH]; intros xs Hl Hn; [by exists (Ok tt), xs|]. unfold rearranges. cbn [heapify_loop heapify].
  destruct (siftup_run i xs Hl ltac:(lia)) as ([[]|e] & ys & Hr & Hly & Hys).
  - step Hr. destruct (IH ys) as (r & zs & Hr2 & Hlz & Hzs); [lia..|]. exists r, zs. split; [done|]. split; [lia|].
    intros lt D Hd HD. destruct (Hys lt D Hd HD) as [_ ->]. apply (Hzs lt D Hd). by apply sift_up_Forall.
  - raise Hr. exists (Raise e), ys. split; [done|]. split; [done|]. intros lt D Hd HD. by destruct (Hys lt D Hd HD).
Qed.
End Run.

Section Thms.
Context {MO : MpObj} {MC : MpCalls MO}.
Implicit Types (s : lists) (xs ys : list mp_obj) (item : mp_obj) (G : gmap nat (list mp_obj)).
Ltac step H := rewrite (X_bind_Ok _ _ _ _ _ H).
Ltac raise H := rewrite (X_bind_Raise _ _ _ _ _ H).

(** The comparisons decide an order on the items. *)
Definition ordered_by (lt : mp_obj -> mp_obj -> bool) xs : Prop :=
  exists D, decides lt D /\ order_on lt D /\ Forall D xs.

Lemma get_heap_run s self l : list_objs s !! self = Some l -> get_heap self s = Some (Ok tt, s).
Proof. intros H. unfold get_heap. rewrite (X_bind_Ok xget _ s s s) by done. by rewrite H. Qed.

(** The outcome of a function on the list [self]. *)
Definition outcome {A} (run : X lists A) s G self (Q : res A -> list mp_obj -> Prop) : Prop :=
  exists r s' ys, run s = Some (r, s') /\ lists_ok s' (<[self := ys]> G) /\ Q r ys.

Lemma rearranges_outcome (run : X lists unit) s G self xs0 k0 p p' xs k a b f :
  lists_ok s G -> list_rep s self xs0 k0 p -> p' = p /\ b = list_brk s \/ p' = list_brk s /\ b = S (list_brk s) ->
  4 * Z.of_nat (length xs + k) <= heap_bytes s -> (2 <= length xs + k)%nat ->
  rearranges self p' p k (length xs) (Z.of_nat (length xs + k)) a b s run xs f ->
  exists r s' ys, run (opened self (Z.of_nat (length xs + k)) (Z.of_nat (length xs)) p' (array_of xs k) p a b s) = Some (r, s')
    /\ lists_ok s' (<[self := ys]> G) /\ (forall lt D, decides lt D -> Forall D xs -> r = Ok tt /\ ys = f lt).
Proof.
  intros Hs Hr Hp Hsz Hm2 (r & ys & Hrun & Hl & Hys). eexists r, _, ys. split; [exact Hrun|]. split; [|done].
  rewrite <- Hl. eapply heap_ok_opened; try done; by rewrite Hl.
Qed.

Lemma heappush_outcome s G self xs item : lists_ok s G -> G !! self = Some xs ->
  outcome (mod_uheapq_heappush self item) s G self (fun r ys =>
    r = Raise MemoryError /\ ys = xs
    \/ forall lt, ordered_by lt (item :: xs) -> heap_from lt 0 xs -> r = Ok tt /\ heap_from lt 0 ys /\ ys ≡ₚ item :: xs).
Proof.
  intros Hs HG. destruct (heap_ok_list _ _ _ _ Hs HG) as (k & p & Hr & Hsz & Hheap & _). pose proof Hr as [Ho Ha Hm].
  unfold outcome, mod_uheapq_heappush. step (get_heap_run s self _ Ho).
  destruct (append_run s G self xs k p item Hs Hr Hsz Hheap) as (a & [H|(k' & p' & b & Hp & Hk & Hk2 & H)]).
  { raise H. exists (Raise MemoryError), (with_answers a s), xs. split; [done|]. rewrite insert_id by done.
    split; [by apply heap_ok_answers|by left]. }
  step H. step (get_list_opened self (Z.of_nat (length (xs ++ [item]) + k')) (Z.of_nat (length (xs ++ [item]))) p'
    (array_of (xs ++ [item]) k') p a b s). cbn [l_len].
  replace (Z.of_nat (length (xs ++ [item])) - 1) with (Z.of_nat (length xs)) by (rewrite length_app; simpl; lia).
  destruct (rearranges_outcome (heap_siftdown self 0 (Z.of_nat (length xs))) s G self xs k p p' (xs ++ [item]) k' a b
    (fun lt => bubble_up lt (length xs) 0 item (length xs) (xs ++ [item])) Hs Hr Hp Hk Hk2) as (r & s' & ys & Hrun & Hok & Hys).
  { apply (siftdown_run self p' p k' (length (xs ++ [item])) _ a b s item 0 (length xs)). by apply list_lookup_middle. }
  exists r, s', ys. split; [exact Hrun|]. split; [done|]. right. intros lt (D & Hd & Hord & HD) Hh.
  apply list.Forall_cons in HD as [Hi HD]. destruct (Hys lt D Hd) as [-> ->]; [by apply Forall_app_2; [|constructor]|].
  split; [done|]. split; [by apply (bubble_last_heap lt D)|]. rewrite bubble_up_perm by (rewrite length_app; simpl; lia).
  rewrite list_insert_id by by apply list_lookup_middle. by rewrite Permutation_app_comm.
Qed.

Lemma heapify_outcome s G self xs : lists_ok s G -> G !! self = Some xs ->
  outcome (mod_uheapq_heapify self) s G self (fun r ys =>
    forall lt, ordered_by lt xs -> r = Ok tt /\ heap_from lt 0 ys /\ ys ≡ₚ xs).
Proof.
  intros Hs HG. destruct (heap_ok_list _ _ _ _ Hs HG) as (k & p & Hr & Hsz & Hheap & _). pose proof Hr as [Ho Ha Hm].
  unfold outcome, mod_uheapq_heapify. step (get_heap_run s self _ Ho). step (get_list_run _ _ _ Ho). cbn [l_len].
  pose proof (Nat.div_mod_eq (length xs) 2). pose proof (Nat.mod_upper_bound (length xs) 2 ltac:(lia)).
  replace (Z.to_nat (Z.of_nat (length xs) / 2)) with (length xs / 2)%nat
    by (change 2 with (Z.of_nat 2); rewrite <- Nat2Z.inj_div; lia).
  destruct (rearranges_outcome (heapify_loop (length xs / 2) self) s G self xs k p p xs k (answers s) (list_brk s)
    (fun lt => heapify lt (length xs / 2) xs) Hs Hr ltac:(by left) Hsz Hm) as (r & s' & ys & Hrun & Hok & Hys).
  { apply heapify_loop_run; lia. }
  rewrite <- (opened_start s self xs k p Hr) in Hrun. exists r, s', ys. split; [exact Hrun|]. split; [done|].
  intros lt (D & Hd & Hord & HD). destruct (Hys lt D Hd HD) as [-> ->]. split; [done|].
  apply (heapify_heap lt D); [done|done|lia|]. apply leaves_heap.
Qed.

Lemma clear_last_run self alloc len p' k old a b s zs z : len = Z.of_nat (length zs) ->
  set_item_at self len Null (opened self alloc len p' (array_of (zs ++ [z]) k) old a b s)
  = Some (Ok tt, opened self alloc len p' (array_of zs (S k)) old a b s).
Proof.
  intros ->. unfold set_item_at. step (get_list_opened self alloc (Z.of_nat (length zs)) p' (array_of (zs ++ [z]) k) old a b s).
  apply write_opened; [lia|rewrite length_array_of, length_app; simpl; lia|]. rewrite Nat2Z.id, array_of_app.
  rewrite take_app_length' by by rewrite length_fmap. rewrite drop_app_ge by (rewrite length_fmap; lia).
  rewrite length_fmap. by replace (length zs + length [Null] - length zs)%nat with 1%nat by (simpl; lia).
Qed.

(** The items of a heap after the first part of a pop. *)
Lemma without_first_snoc xs z : exists z', (<[0%nat := z]> (xs ++ [z])) = without_first (xs ++ [z]) ++ [z']
  /\ length (without_first (xs ++ [z])) = length xs.
Proof.
  unfold without_first. rewrite last_snoc, length_app, Nat.add_sub, take_app_length. exists z.
  split; [|apply length_insert]. destruct xs; done.
Qed.

Lemma heappop_outcome s G self xs : lists_ok s G -> G !! self = Some xs -> xs <> [] ->
  outcome (mod_uheapq_heappop self) s G self (fun r ys =>
    forall lt, ordered_by lt xs -> heap_from lt 0 xs ->
    exists x, r = Ok x /\ (forall y, y ∈ xs -> le lt x y) /\ heap_from lt 0 ys /\ x :: ys ≡ₚ xs).
Proof.
  intros Hs HG Hne. destruct (heap_ok_list _ _ _ _ Hs HG) as (k & p & Hr & Hsz & Hheap & _). pose proof Hr as [Ho Ha Hm].
  destruct xs as [|x0 tl _] using rev_ind; [done|]. clear Hne. rename tl into init. rename x0 into z.
  unfold outcome, mod_uheapq_heappop. step (get_heap_run s self _ Ho). step (get_list_run _ _ _ Ho). cbn [l_len].
  set (xs := init ++ [z]) in *. assert (Hlen : length xs = S (length init)) by (unfold xs; rewrite length_app; simpl; lia).
  replace (Z.of_nat (length xs) =? 0) with false by (symmetry; apply Z.eqb_neq; lia).
  destruct (lookup_lt_is_Some_2 xs 0 ltac:(lia)) as [x Hx]. set (al := Z.of_nat (length xs + k)).
  pose proof (opened_start s self xs k p Hr) as Es. fold al in Es.
  match goal with |- exists r s' ys, ?f s = _ /\ _ => rewrite (f_equal f Es) end. clear Es.
  step (item_at_run self p p k (length xs) al (answers s) (list_brk s) s 0 0 x xs eq_refl Hx). cbv zeta.
  replace (Z.of_nat (length xs) - 1) with (Z.of_nat (length init)) by lia.
  step (set_len_opened (Z.of_nat (length init)) self al (Z.of_nat (length xs)) p (array_of xs k) p (answers s) (list_brk s) s).
  step (item_at_run self p p k (length init) al (answers s) (list_brk s) s _ _ z xs eq_refl ltac:(by apply list_lookup_middle)).
  step (set_item_at_run self p p k (length init) al (answers s) (list_brk s) s 0 0 z xs eq_refl ltac:(lia)).
  destruct (without_first_snoc init z) as (z' & Ez & Hlw).
  fold xs in Ez, Hlw. rewrite Ez.
  step (clear_last_run self al (Z.of_nat (length init)) p k p (answers s) (list_brk s) s (without_first xs) z' ltac:(by rewrite Hlw)).
  rewrite <- Hlw.
  replace al with (Z.of_nat (length (without_first xs) + S k)) by (unfold al; lia).
  assert (Hspec : forall lt D, order_on lt D -> Forall D xs -> heap_from lt 0 xs ->
    (forall y, y ∈ xs -> le lt x y) /\ x :: without_first xs ≡ₚ xs /\ Forall D (without_first xs) /\ heap_from lt 1 (without_first xs)).
  { intros lt D Hord HD Hh. split; [|split; [|split]].
    - intros y [j Hj]%list_elem_of_lookup. by apply (heap_minimum lt D Hord xs x HD Hh Hx j).
    - destruct xs as [|x1 tl]; [done|]. simpl in Hx. simplify_eq. apply without_first_perm.
    - unfold without_first. destruct (list.last xs) as [l|] eqn:E; [|done]. apply Forall_insert; [by apply Forall_take|].
      rewrite list.Forall_forall in HD. by apply HD, last_Some_elem_of.
    - by apply without_first_heap. }
  destruct (Z.eqb_spec (Z.of_nat (length (without_first xs))) 0) as [E0|E0]; cbn [negb].
  - eexists (Ok x), _, (without_first xs). split; [reflexivity|]. split; [eapply heap_ok_opened; try done; [by left|lia|lia]|].
    intros lt (D & Hd & Hord & HD) Hh. destruct (Hspec lt D Hord HD Hh) as (H1 & H2 & _ & _). exists x.
    split; [done|]. split; [done|]. split; [|done]. intros j ? ? ? ? ? Hy%lookup_lt_Some. lia.
  - destruct (rearranges_outcome (heap_siftup self 0) s G self xs k p p (without_first xs) (S k) (answers s) (list_brk s)
      (fun lt => sift_up lt 0 (without_first xs)) Hs Hr ltac:(by left) ltac:(lia) ltac:(lia)) as (r & s' & ys & Hrun & Hok & Hys).
    { apply (siftup_run self p p (S k) (length (without_first xs)) _ _ _ s ltac:(lia) 0); lia. }
    exists (match r with Ok _ => Ok x | Raise e => Raise e end), s', ys. split; [|split; [done|]].
    + destruct r; [by step Hrun|by raise Hrun].
    + intros lt (D & Hd & Hord & HD) Hh. destruct (Hspec lt D Hord HD Hh) as (H1 & H2 & H3 & H4).
      destruct (Hys lt D Hd H3) as [-> ->]. exists x. split; [done|]. split; [done|].
      destruct (sift_up_heap lt D Hord 0 (without_first xs) H3 ltac:(lia) H4) as [H5 H6]. split; [done|]. by rewrite H6.
Qed.

(** C18 The functions of [uheapq] on a list, other lists being left alone.  They end
    whatever comparisons return or raise.  When comparisons decide an order on the
    items: [heappush] adds its item to a heap and leaves a heap, or fails for want of
    memory with the list unchanged; [heappop] returns an item of the heap that no other
    is less than, and leaves a heap of the others; [heapify] makes a heap of any list.
    [heappop] of an empty list raises [IndexError], and an object that is no list
    [TypeError]. *)
Theorem heapq_correct s G self : lists_ok s G ->
  (G !! self = None -> forall item, mod_uheapq_heappush self item s = Some (Raise TypeError, s)
    /\ mod_uheapq_heappop self s = Some (Raise TypeError, s) /\ mod_uheapq_heapify self s = Some (Raise TypeError, s))
  /\ forall xs, G !! self = Some xs ->
  (forall item, outcome (mod_uheapq_heappush self item) s G self (fun r ys =>
     r = Raise MemoryError /\ ys = xs
     \/ forall lt, ordered_by lt (item :: xs) -> heap_from lt 0 xs -> r = Ok tt /\ heap_from lt 0 ys /\ ys ≡ₚ item :: xs))
  /\ (xs = [] -> mod_uheapq_heappop self s = Some (Raise IndexError, s))
  /\ (xs <> [] -> outcome (mod_uheapq_heappop self) s G self (fun r ys =>
       forall lt, ordered_by lt xs -> heap_from lt 0 xs ->
       exists x, r = Ok x /\ (forall y, y ∈ xs -> le lt x y) /\ heap_from lt 0 ys /\ x :: ys ≡ₚ xs))
  /\ outcome (mod_uheapq_heapify self) s G self (fun r ys =>
       forall lt, ordered_by lt xs -> r = Ok tt /\ heap_from lt 0 ys /\ ys ≡ₚ xs).
Proof.
  intros Hs. split.
  - intros HG item. assert (Hn : list_objs s !! self = None).
    { apply eq_None_not_Some. intros H. apply (ho_dom _ _ Hs) in H as [xs Hx]. congruence. }
    assert (Hg : get_heap self s = Some (Raise TypeError, s)) by (unfold get_heap; rewrite (X_bind_Ok xget _ s s s) by done; by rewrite Hn).
    unfold mod_uheapq_heappush, mod_uheapq_heappop, mod_uheapq_heapify. by rewrite !(X_bind_Raise _ _ _ _ _ Hg).
  - intros xs HG. split; [|split; [|split]].
    + intros item. by apply heappush_outcome.
    + intros ->. destruct (heap_ok_list _ _ _ _ Hs HG) as (k & p & [Ho _ _] & _). unfold mod_uheapq_heappop.
      step (get_heap_run s self _ Ho). by step (get_list_run _ _ _ Ho).
    + by apply heappop_outcome.
    + by apply heapify_outcome.
Qed.
End Thms.
