(* ===== verification/UTimeq.v ===== *)
(** Queues of timed entries, [extmod/modutimeq.c]. *)
From Stdlib Require Import ZifyBool.
From S2P Require Import Prelude PyExn Map ObjSeq ObjList ObjListSpec ObjListOps BinHeap.

Section UTimeq.
Context {MO : MpObj} {MC : MpCalls MO} (MP_OBJ_NEW_SMALL_INT : Z -> mp_obj).

(** [MICROPY_PY_UTIME_TICKS_PERIOD] for small integers of 31 bits *)
Definition MODULO : Z := 2 ^ 30.

Record qentry := MkEntry { q_time : Z; q_id : Z; q_callback : item; q_args : item }.

(** [items] are the entries that the memory of the object has room for. *)
Record mp_obj_utimeq_t := MkUtimeq { u_alloc : Z; u_len : Z; u_items : list qentry }.

Record utimeq := MkState { queue : mp_obj_utimeq_t; utimeq_id : Z; py_lists : lists }.

Definition with_queue f (s : utimeq) : utimeq := MkState (f (queue s)) (utimeq_id s) (py_lists s).
Definition u_get : X utimeq mp_obj_utimeq_t := fun s => Some (Ok (queue s), s).
Definition u_set (q : mp_obj_utimeq_t) : X utimeq unit := fun s => Some (Ok tt, with_queue (fun _ => q) s).
Definition u_abort {A} : X utimeq A := fun _ => None.
Definition u_state : X utimeq utimeq := fun s => Some (Ok s, s).
Definition set_utimeq_id (n : Z) : X utimeq unit := fun s => Some (Ok tt, MkState (queue s) n (py_lists s)).
Definition on_lists {A} (m : X lists A) : X utimeq A := fun s =>
  '(r, l) ← m (py_lists s); Some (r, MkState (queue s) (utimeq_id s) l).

Definition time_less_than (item parent : qentry) : bool :=
  let res := wrap 32 (q_time parent - q_time item) in
  if res =? 0 then q_id item <? q_id parent
  else
    let res := if swrap 32 res <? 0 then wrap 32 (res + MODULO) else res in
    negb (res =? 0) && (res <? MODULO / 2).

(** [sizeof(mp_obj_utimeq_t)] and [sizeof(struct qentry)] *)
Definition UTIMEQ_SIZE : Z := 12.
Definition QENTRY_SIZE : Z := 16.
Definition zero_entry : qentry := MkEntry 0 0 Null Null.

(** [m_new_obj_var] asks for a wrapped size, [memset] clears another one.
    [has_memory] is what the memory manager says of a size. *)
Definition utimeq_make_new (has_memory : Z -> bool) (arg : py_index) : X utimeq unit :=
  alloc ← of_res (mp_obj_get_int arg);
  let alloc := wrap 32 alloc in
  let bytes := wrap 32 (UTIMEQ_SIZE + QENTRY_SIZE * alloc) in
  if negb (has_memory bytes) then mp_raise MemoryError
  else if bytes <? UTIMEQ_SIZE + wrap 32 (QENTRY_SIZE * alloc) then u_abort
  else u_set (MkUtimeq alloc 0 (replicate (Z.to_nat ((bytes - UTIMEQ_SIZE) / QENTRY_SIZE)) zero_entry)).

(** [heap->items[pos]] *)
Definition entry_at (pos : Z) : X utimeq qentry :=
  q ← u_get; xlift (if pos <? 0 then None else u_items q !! Z.to_nat pos).
Definition set_entry_at (pos : Z) (e : qentry) : X utimeq unit :=
  q ← u_get;
  if (pos <? 0) || (Z.of_nat (length (u_items q)) <=? pos) then u_abort
  else u_set (MkUtimeq (u_alloc q) (u_len q) (<[Z.to_nat pos := e]> (u_items q))).
Definition set_heap_len (n : Z) : X utimeq unit := q ← u_get; u_set (MkUtimeq (u_alloc q) n (u_items q)).

Fixpoint timeq_siftdown_loop (fuel : nat) (item : qentry) (start_pos pos : Z) : X utimeq Z :=
  if start_pos <? pos then
    match fuel with
    | O => u_abort
    | S fuel =>
        let parent_pos := Z.shiftr (pos - 1) 1 in
        parent ← entry_at parent_pos;
        if time_less_than item parent then set_entry_at pos parent;; timeq_siftdown_loop fuel item start_pos parent_pos
        else mret pos
    end
  else mret pos.

Definition timeq_siftdown (start_pos pos : Z) : X utimeq unit :=
  item ← entry_at pos;
  pos ← timeq_siftdown_loop (Z.to_nat pos) item start_pos pos;
  set_entry_at pos item.

Definition timeq_choose_child (end_pos child_pos : Z) : X utimeq Z :=
  if child_pos + 1 <? end_pos then
    l ← entry_at child_pos;
    r ← entry_at (child_pos + 1);
    mret (if negb (time_less_than l r) then child_pos + 1 else child_pos)
  else mret child_pos.

Fixpoint timeq_siftup_loop (fuel : nat) (end_pos pos : Z) : X utimeq Z :=
  let child_pos := wrap 32 (2 * pos + 1) in
  if child_pos <? end_pos then
    match fuel with
    | O => u_abort
    | S fuel =>
        child_pos ← timeq_choose_child end_pos child_pos;
        child ← entry_at child_pos;
        set_entry_at pos child;;
        timeq_siftup_loop fuel end_pos child_pos
    end
  else mret pos.

Definition timeq_siftup (pos : Z) : X utimeq unit :=
  let start_pos := pos in
  q ← u_get;
  item ← entry_at pos;
  pos ← timeq_siftup_loop (Z.to_nat (u_len q)) (u_len q) pos;
  set_entry_at pos item;;
  timeq_siftdown start_pos pos.

(** [time] is the value of a small integer. *)
Definition mod_utimeq_heappush (time : Z) (callback args : mp_obj) : X utimeq unit :=
  q ← u_get;
  if u_len q =? u_alloc q then mp_raise IndexError
  else
    let l := u_len q in
    s ← u_state;
    set_entry_at l (MkEntry (wrap 32 time) (utimeq_id s) (Obj callback) (Obj args));;
    set_utimeq_id (wrap 32 (utimeq_id s + 1));;
    timeq_siftdown 0 l;;
    set_heap_len (wrap 32 (l + 1)).

Definition set_ret (list_ref : nat) (i : Z) (o : item) : X utimeq unit :=
  on_lists (l ← get_list list_ref; store_item (l_items l) i o).

Definition mod_utimeq_heappop (list_ref : nat) : X utimeq unit :=
  q ← u_get;
  if u_len q =? 0 then mp_raise IndexError
  else
    s ← u_state;
    match list_objs (py_lists s) !! list_ref with
    | Some ret =>
        if l_len ret <? 3 then mp_raise TypeError
        else
          item ← entry_at 0;
          set_ret list_ref 0 (Obj (MP_OBJ_NEW_SMALL_INT (q_time item)));;
          set_ret list_ref 1 (q_callback item);;
          set_ret list_ref 2 (q_args item);;
          let len := u_len q - 1 in
          set_heap_len len;;
          e ← entry_at len;
          set_entry_at 0 e;;
          e ← entry_at len;
          set_entry_at len (MkEntry (q_time e) (q_id e) Null Null);;
          if negb (len =? 0) then timeq_siftup 0 else mret tt
    | None => mp_raise TypeError
    end.

Definition mod_utimeq_peektime : X utimeq mp_obj :=
  q ← u_get;
  if u_len q =? 0 then mp_raise IndexError
  else item ← entry_at 0; mret (MP_OBJ_NEW_SMALL_INT (q_time item)).

Definition utimeq_len : X utimeq Z := q ← u_get; mret (u_len q).
End UTimeq.

(** Timed entries come out of a queue in the order of their times on the ring, and of
    their arrival when the times are equal. *)

(** ** The order of times

    Times are on a ring of [MODULO] ticks; they are ordered if they lie in a half of
    it that starts at [base]. *)
Section Order.
Context {MO : MpObj} {MC : MpCalls MO}.
Implicit Types (a b : qentry).

Definition ticks_since (base : Z) a : Z := (q_time a - base) mod MODULO.

Definition in_window (base : Z) a : Prop := 0 <= q_time a < MODULO /\ ticks_since base a < MODULO / 2.

Lemma time_less_than_spec base a b : in_window base a -> in_window base b ->
  time_less_than a b = (ticks_since base a <? ticks_since base b)
    || (ticks_since base a =? ticks_since base b) && (q_id a <? q_id b).
Proof.
  unfold in_window, ticks_since, time_less_than, wrap, swrap, MODULO. intros [Ha Hra] [Hb Hrb].
  pose proof (Z.div_mod (q_time a - base) (2 ^ 30) ltac:(lia)) as Ea. pose proof (Z.mod_pos_bound (q_time a - base) (2 ^ 30) ltac:(lia)).
  pose proof (Z.div_mod (q_time b - base) (2 ^ 30) ltac:(lia)) as Eb. pose proof (Z.mod_pos_bound (q_time b - base) (2 ^ 30) ltac:(lia)).
  set (ra := (q_time a - base) mod 2 ^ 30) in *. set (rb := (q_time b - base) mod 2 ^ 30) in *.
  set (ka := (q_time a - base) / 2 ^ 30) in *. set (kb := (q_time b - base) / 2 ^ 30) in *.
  change (2 ^ 30 / 2) with (2 ^ 29) in *. clearbody ra rb ka kb.
  destruct (Z.ltb_spec (q_time b - q_time a) 0) as [Hd|Hd].
  - replace ((q_time b - q_time a) mod 2 ^ 32) with (q_time b - q_time a + 2 ^ 32)
      by (apply (Z.mod_unique_pos _ _ (-1)); lia).
    replace (q_time b - q_time a + 2 ^ 32 =? 0) with false by (symmetry; apply Z.eqb_neq; lia).
    replace ((q_time b - q_time a + 2 ^ 32 + 2 ^ (32 - 1)) mod 2 ^ 32) with (q_time b - q_time a + 2 ^ (32 - 1))
      by (apply (Z.mod_unique_pos _ _ 1); lia).
    replace (q_time b - q_time a + 2 ^ (32 - 1) - 2 ^ (32 - 1) <? 0) with true by (symmetry; apply Z.ltb_lt; lia). cbv zeta.
    replace ((q_time b - q_time a + 2 ^ 32 + 2 ^ 30) mod 2 ^ 32) with (q_time b - q_time a + 2 ^ 30)
      by (apply (Z.mod_unique_pos _ _ 1); lia).
    replace (q_time b - q_time a + 2 ^ 30 =? 0) with false by (symmetry; apply Z.eqb_neq; lia). simpl negb. simpl andb.
    assert (kb = ka \/ kb = ka - 1 \/ kb = ka + 1) as [-> |[-> | ->]] by lia.
    + replace (ra <? rb) with false by lia. replace (ra =? rb) with false by lia. simpl. lia.
    + destruct (Z.ltb_spec ra rb); [lia|]. replace (ra =? rb) with false by lia. lia.
    + lia.
  - rewrite (Z.mod_small (q_time b - q_time a)) by lia. destruct (Z.eqb_spec (q_time b - q_time a) 0) as [E|E].
    + assert (kb = ka) as -> by lia. replace (ra <? rb) with false by lia. by replace (ra =? rb) with true by lia.
    + rewrite (Z.mod_small (q_time b - q_time a + 2 ^ (32 - 1))) by lia.
      replace (q_time b - q_time a + 2 ^ (32 - 1) - 2 ^ (32 - 1) <? 0) with false by (symmetry; apply Z.ltb_ge; lia). cbv zeta.
      replace (q_time b - q_time a =? 0) with false by lia. simpl negb. simpl andb.
      assert (kb = ka \/ kb = ka + 1 \/ kb = ka - 1) as [-> |[-> | ->]] by lia.
      * replace (ra <? rb) with true by lia. lia.
      * replace (ra <? rb) with false by lia. replace (ra =? rb) with false by lia. lia.
      * lia.
Qed.

Lemma time_less_than_order base : order_on time_less_than (in_window base).
Proof.
  constructor.
  - intros a b Ha Hb. rewrite !(time_less_than_spec base) by done. lia.
  - intros a b c Ha Hb Hc. rewrite !(time_less_than_spec base) by done. lia.
Qed.
End Order.

(** ** The loops are those of [BinHeap] *)
Section Run.
Context {MO : MpObj} {MC : MpCalls MO} (alloc : Z) (rest : list qentry) (s0 : utimeq) (m : nat).
Context (Hm : Z.of_nat m < 2 ^ 30).
Implicit Types (xs ys : list qentry) (x item : qentry).

Abbreviation st xs := (with_queue (fun _ => MkUtimeq alloc (Z.of_nat m) (xs ++ rest)) s0).
Abbreviation lt := time_less_than.
Ltac step H := rewrite (X_bind_Ok _ _ _ _ _ H).

Lemma entry_at_run i z x xs : z = Z.of_nat i -> xs !! i = Some x -> entry_at z (st xs) = Some (Ok x, st xs).
Proof.
  intros -> Hx. unfold entry_at. rewrite (X_bind_Ok u_get _ (st xs) (queue (st xs)) (st xs)) by done. unfold xlift. cbn [queue with_queue u_items].
  replace (Z.of_nat i <? 0) with false by lia. by rewrite Nat2Z.id, (lookup_app_l_Some _ _ _ _ Hx).
Qed.

Lemma set_entry_at_run i z x xs : z = Z.of_nat i -> (i < length xs)%nat ->
  set_entry_at z x (st xs) = Some (Ok tt, st (<[i := x]> xs)).
Proof.
  intros -> Hi. unfold set_entry_at. rewrite (X_bind_Ok u_get _ (st xs) (queue (st xs)) (st xs)) by done. cbn [queue with_queue u_items u_alloc u_len].
  rewrite length_app. replace ((Z.of_nat i <? 0) || (Z.of_nat (length xs + length rest) <=? Z.of_nat i)) with false by lia.
  unfold u_set, with_queue. simpl. by rewrite Nat2Z.id, insert_app_l.
Qed.

Lemma timeq_siftdown_loop_run fuel : forall item start pos xs, (pos <= fuel)%nat -> (pos < length xs)%nat ->
  let '(i, ys) := bubble_place lt fuel start item pos xs in
  timeq_siftdown_loop fuel item (Z.of_nat start) (Z.of_nat pos) (st xs) = Some (Ok (Z.of_nat i), st ys).
Proof.
  induction fuel as [|fuel IH]; intros item start pos xs Hf Hpos; cbn [timeq_siftdown_loop bubble_place].
  { by replace (Z.of_nat start <? Z.of_nat pos) with false by lia. }
  destruct (Nat.ltb_spec start pos) as [Hs|Hs]; [|by replace (Z.of_nat start <? Z.of_nat pos) with false by lia].
  replace (Z.of_nat start <? Z.of_nat pos) with true by lia. cbv zeta. rewrite parent_pos_eq by lia.
  pose proof (parent_lt pos ltac:(lia)). destruct (lookup_lt_is_Some_2 xs (parent pos) ltac:(lia)) as [par Hp].
  rewrite Hp, (X_bind_Ok _ _ _ _ _ (entry_at_run _ _ _ _ eq_refl Hp)). destruct (lt item par); [|done].
  rewrite (X_bind_Ok _ _ _ _ _ (set_entry_at_run pos _ par xs eq_refl Hpos)).
  apply IH; [lia|rewrite length_insert; lia].
Qed.

Lemma timeq_siftdown_run item start pos xs : xs !! pos = Some item ->
  timeq_siftdown (Z.of_nat start) (Z.of_nat pos) (st xs) = Some (Ok tt, st (bubble_up lt pos start item pos xs)).
Proof.
  intros Hx. pose proof (lookup_lt_Some _ _ _ Hx) as Hpos. unfold timeq_siftdown. step (entry_at_run pos _ item xs eq_refl Hx).
  rewrite Nat2Z.id. pose proof (timeq_siftdown_loop_run pos item start pos xs ltac:(lia) Hpos) as Hr.
  pose proof (bubble_place_eq lt pos start item pos xs Hpos) as He. pose proof (length_bubble_place lt pos start item pos xs Hpos) as Hl.
  destruct (bubble_place _ _ _ _ _ _) as [i ys]. step Hr. rewrite He. apply set_entry_at_run; [done|lia].
Qed.

Lemma timeq_choose_child_run pos xs : length xs = m -> (2 * pos + 1 < m)%nat ->
  timeq_choose_child (Z.of_nat m) (Z.of_nat (2 * pos + 1)) (st xs) = Some (Ok (Z.of_nat (smaller_child lt xs pos)), st xs).
Proof.
  intros Hl Hp. unfold timeq_choose_child, smaller_child. destruct (lookup_lt_is_Some_2 xs (2 * pos + 1) ltac:(lia)) as [l Hxl]. rewrite Hxl.
  destruct (Z.ltb_spec (Z.of_nat (2 * pos + 1) + 1) (Z.of_nat m)) as [Hr|Hr].
  - destruct (lookup_lt_is_Some_2 xs (2 * pos + 1 + 1) ltac:(lia)) as [r Hxr]. rewrite Hxr.
    step (entry_at_run _ _ _ _ eq_refl Hxl). step (entry_at_run (2 * pos + 1 + 1) (Z.of_nat (2 * pos + 1) + 1) r xs ltac:(lia) Hxr).
    unfold mret, X_ret. do 3 f_equal. destruct (lt l r); simpl; lia.
  - by rewrite (lookup_ge_None_2 xs (2 * pos + 1 + 1)) by lia.
Qed.

Lemma timeq_siftup_loop_run fuel : forall pos xs, length xs = m -> (pos < m)%nat -> (m - pos <= fuel)%nat ->
  let '(i, ys) := sink lt fuel pos xs in
  timeq_siftup_loop fuel (Z.of_nat m) (Z.of_nat pos) (st xs) = Some (Ok (Z.of_nat i), st ys).
Proof.
  induction fuel as [|fuel IH]; intros pos xs Hl Hpos Hf; [lia|]. cbn [timeq_siftup_loop sink].
  replace (wrap 32 (2 * Z.of_nat pos + 1)) with (Z.of_nat (2 * pos + 1)) by (rewrite wrap_id; lia). cbv zeta.
  destruct (Z.ltb_spec (Z.of_nat (2 * pos + 1)) (Z.of_nat m)) as [Hc|Hc].
  2:{ rewrite lookup_ge_None_2; [done|]. destruct (smaller_child_spec lt xs pos) as [->|[-> ?]]; lia. }
  assert (Hi : (smaller_child lt xs pos < m)%nat) by (destruct (smaller_child_spec lt xs pos) as [->|[-> ?]]; lia).
  assert (Hi2 : (pos < smaller_child lt xs pos)%nat) by (destruct (smaller_child_spec lt xs pos) as [->|[-> ?]]; lia).
  destruct (lookup_lt_is_Some_2 xs (smaller_child lt xs pos) ltac:(lia)) as [c Hc'].
  rewrite Hc', (X_bind_Ok _ _ _ _ _ (timeq_choose_child_run pos xs Hl ltac:(lia))), (X_bind_Ok _ _ _ _ _ (entry_at_run _ _ _ _ eq_refl Hc')).
  rewrite (X_bind_Ok _ _ _ _ _ (set_entry_at_run pos _ c xs eq_refl ltac:(lia))). apply IH; rewrite ?length_insert; lia.
Qed.

Lemma timeq_siftup_run pos xs : length xs = m -> (pos < m)%nat ->
  timeq_siftup (Z.of_nat pos) (st xs) = Some (Ok tt, st (sift_up lt pos xs)).
Proof.
  intros Hl Hpos. destruct (lookup_lt_is_Some_2 xs pos ltac:(lia)) as [item Hx]. unfold timeq_siftup, sift_up. cbv zeta.
  rewrite (X_bind_Ok u_get _ (st xs) (queue (st xs)) (st xs)) by done. step (entry_at_run _ _ _ _ eq_refl Hx). cbn [u_len queue with_queue].
  rewrite Nat2Z.id, Hx, Hl. pose proof (timeq_siftup_loop_run m pos xs Hl Hpos ltac:(lia)) as Hr.
  pose proof (length_sink lt m pos xs ltac:(lia)) as [H1 H2].
  destruct (sink _ _ _) as [i ys]. simpl in *. step Hr. step (set_entry_at_run i _ item ys eq_refl ltac:(lia)).
  rewrite timeq_siftdown_run with (item := item) by (apply list_lookup_insert_eq; lia). by rewrite bubble_up_insert.
Qed.
End Run.

(** ** The operations *)
Section Thms.
Context {MO : MpObj} {MC : MpCalls MO} (MP_OBJ_NEW_SMALL_INT : Z -> mp_obj).
Implicit Types (s : utimeq) (hs : list qentry) (e : qentry) (G : gmap nat (list mp_obj)).
Abbreviation lt := time_less_than.
Ltac step H := rewrite (X_bind_Ok _ _ _ _ _ H).

Definition has_objs e : Prop := exists cb args, q_callback e = Obj cb /\ q_args e = Obj args.
Definition no_objs e : Prop := q_callback e = Null /\ q_args e = Null.

(** The queue holds the entries [hs] as a heap; the other places [rest] refer to no object. *)
Record timeq_ok (base : Z) s hs (rest : list qentry) : Prop := {
  tq_queue : queue s = MkUtimeq (Z.of_nat (length (hs ++ rest))) (Z.of_nat (length hs)) (hs ++ rest);
  tq_size : Z.of_nat (length (hs ++ rest)) < 2 ^ 30;
  tq_heap : heap_from lt 0 hs;
  tq_window : Forall (in_window base) hs;
  tq_ids : Forall (fun e => 0 <= q_id e < utimeq_id s) hs;
  tq_objs : Forall has_objs hs;
  tq_clear : Forall no_objs rest }.

(** [e] comes out before [e']. *)
Definition not_after (base : Z) e e' : Prop :=
  ticks_since base e < ticks_since base e' \/ ticks_since base e = ticks_since base e' /\ q_id e <= q_id e'.

Lemma le_not_after base e e' : in_window base e -> in_window base e' -> le lt e e' -> not_after base e e'.
Proof. intros H1 H2. unfold le, not_after. rewrite (time_less_than_spec base) by done. lia. Qed.

Lemma u_get_run s : u_get s = Some (Ok (queue s), s).
Proof. done. Qed.

Lemma u_state_run s : u_state s = Some (Ok s, s).
Proof. done. Qed.

(** ** Push *)

Lemma utimeq_push_full base s hs time cb args : timeq_ok base s hs [] ->
  mod_utimeq_heappush time cb args s = Some (Raise IndexError, s).
Proof.
  intros H. unfold mod_utimeq_heappush. step (u_get_run s). rewrite (tq_queue _ _ _ _ H). cbn [u_len u_alloc].
  rewrite app_nil_r. by rewrite Z.eqb_refl.
Qed.

Lemma utimeq_push_ok base s hs r rest time cb args : timeq_ok base s hs (r :: rest) ->
  in_window base (MkEntry time 0 Null Null) -> 0 <= utimeq_id s < 2 ^ 32 - 1 ->
  exists s' hs', mod_utimeq_heappush time cb args s = Some (Ok tt, s') /\ timeq_ok base s' hs' rest
    /\ hs' ≡ₚ MkEntry time (utimeq_id s) (Obj cb) (Obj args) :: hs
    /\ utimeq_id s' = utimeq_id s + 1 /\ py_lists s' = py_lists s.
Proof.
  intros H Hw Hid. pose proof H as [Hq Hsz Hh Hwin Hids Hobjs Hclear]. unfold mod_utimeq_heappush. step (u_get_run s). rewrite Hq.
  cbn [u_len u_alloc]. rewrite length_app in *. cbn [length] in *. replace (_ =? _) with false by lia. cbv zeta. step (u_state_run s).
  set (e := MkEntry time (utimeq_id s) (Obj cb) (Obj args)).
  replace (wrap 32 time) with time by (destruct Hw as [Hw _]; unfold MODULO in Hw; simpl in Hw; rewrite wrap_id; lia). fold e.
  set (al := Z.of_nat (length hs + S (length rest))) in *.
  assert (E1 : set_entry_at (Z.of_nat (length hs)) e s = Some (Ok tt, with_queue (fun _ => MkUtimeq al (Z.of_nat (length hs)) ((hs ++ [e]) ++ rest)) s)).
  { unfold set_entry_at. step (u_get_run s). rewrite Hq. cbn [u_items u_alloc u_len]. rewrite length_app. cbn [length].
    replace ((Z.of_nat (length hs) <? 0) || (Z.of_nat (length hs + S (length rest)) <=? Z.of_nat (length hs))) with false by lia. unfold u_set. do 4 f_equal.
    rewrite Nat2Z.id, <- app_assoc. by rewrite insert_app_r_alt, Nat.sub_diag by done. }
  step E1. replace (wrap 32 (utimeq_id s + 1)) with (utimeq_id s + 1) by (rewrite wrap_id; lia).
  set (s1 := MkState (queue s) (utimeq_id s + 1) (py_lists s)).
  rewrite (X_bind_Ok (set_utimeq_id _) _ _ tt (with_queue (fun _ => MkUtimeq al (Z.of_nat (length hs)) ((hs ++ [e]) ++ rest)) s1)) by done.
  set (hs' := bubble_up lt (length hs) 0 e (length hs) (hs ++ [e])).
  step (timeq_siftdown_run al rest s1 (length hs) e 0 (length hs) (hs ++ [e]) ltac:(by apply list_lookup_middle)). fold hs'.
  assert (Hwe : in_window base e) by done.
  assert (Hp : hs' ≡ₚ e :: hs).
  { unfold hs'. rewrite bubble_up_perm by (rewrite length_app; simpl; lia). rewrite list_insert_id by by apply list_lookup_middle.
    by rewrite Permutation_app_comm. }
  assert (Hl : length hs' = S (length hs)) by (by rewrite (Permutation_length Hp)).
  eexists _, hs'. split; [unfold set_heap_len; step (u_get_run (with_queue (fun _ => MkUtimeq al (Z.of_nat (length hs)) (hs' ++ rest)) s1)); reflexivity|].
  split; [|by rewrite Hp]. constructor; simpl.
  - f_equal; [unfold al; rewrite length_app; lia|rewrite wrap_id; lia].
  - rewrite length_app. lia.
  - by apply (bubble_last_heap lt (in_window base) (time_less_than_order base)).
  - rewrite Hp. by constructor.
  - rewrite Hp. constructor; [simpl; lia|]. eapply list.Forall_impl; [exact Hids|]. simpl. lia.
  - rewrite Hp. constructor; [by exists cb, args|done].
  - by inversion Hclear.
Qed.

(** ** Pop *)

Definition with_lists l s : utimeq := MkState (queue s) (utimeq_id s) l.

Lemma list_rep_put (l : lists) self xs ys k p : list_rep l self xs k p -> length ys = length xs ->
  list_rep (put p (array_of ys k) l) self ys k p.
Proof. intros [Ho Ha Hm] Hl. constructor; rewrite ?Hl; [done| |done]. simpl. apply lookup_insert_eq. Qed.

Lemma set_ret_run s ret xs k p (i : nat) x : list_rep (py_lists s) ret xs k p -> (i < length xs)%nat ->
  set_ret ret (Z.of_nat i) (Obj x) s = Some (Ok tt, with_lists (put p (array_of (<[i := x]> xs) k) (py_lists s)) s).
Proof.
  intros [Ho Ha _] Hi. unfold set_ret, on_lists. step (get_list_run _ _ _ Ho). cbn [l_items].
  pose proof (store_run p xs k (py_lists s) i x Hi) as Hst. rewrite (put_id p _ _ Ha) in Hst. by rewrite Hst.
Qed.

Lemma utimeq_pop_empty base s ret rest : timeq_ok base s [] rest ->
  mod_utimeq_heappop MP_OBJ_NEW_SMALL_INT ret s = Some (Raise IndexError, s).
Proof. intros H. unfold mod_utimeq_heappop. step (u_get_run s). by rewrite (tq_queue _ _ _ _ H). Qed.

Lemma utimeq_pop_bad_list base s h hs rest ret : timeq_ok base s (h :: hs) rest ->
  (forall l, list_objs (py_lists s) !! ret = Some l -> l_len l < 3) ->
  mod_utimeq_heappop MP_OBJ_NEW_SMALL_INT ret s = Some (Raise TypeError, s).
Proof.
  intros H Hl. unfold mod_utimeq_heappop. step (u_get_run s). rewrite (tq_queue _ _ _ _ H). cbn [u_len length].
  replace (Z.of_nat (S (length hs)) =? 0) with false by lia. step (u_state_run s).
  destruct (list_objs _ !! ret) as [l|]; [|done]. specialize (Hl l eq_refl). by replace (l_len l <? 3) with true by lia.
Qed.

(** The entry at the front. *)
Lemma front_entry base s h hs rest : timeq_ok base s (h :: hs) rest ->
  has_objs h /\ (forall e, e ∈ hs -> not_after base h e).
Proof.
  intros H. pose proof (tq_objs _ _ _ _ H) as Ho. apply list.Forall_cons in Ho as [Ho _]. split; [done|].
  intros e [j Hj]%list_elem_of_lookup. pose proof (tq_window _ _ _ _ H) as Hw. pose proof Hw as Hw2.
  apply list.Forall_cons in Hw2 as [Hwh Hwt].
  apply le_not_after; [done|by apply (D_lookup (in_window base) hs j)|].
  by apply (heap_minimum lt (in_window base) (time_less_than_order base) (h :: hs) h Hw (tq_heap _ _ _ _ H) eq_refl (S j)).
Qed.

(** The state after the front entry is gone, before the heap is repaired. *)
Lemma pop_front_run al s h hs rest (init : list qentry) z : h :: hs = init ++ [z] ->
  let st m xs := with_queue (fun _ => MkUtimeq al (Z.of_nat m) xs) s in
  exists z', no_objs z' /\
  (e ← entry_at (Z.of_nat (length init)); set_entry_at 0 e;;
   e ← entry_at (Z.of_nat (length init)); set_entry_at (Z.of_nat (length init)) (MkEntry (q_time e) (q_id e) Null Null))
    (st (length init) ((h :: hs) ++ rest))
  = Some (Ok tt, st (length init) (without_first (h :: hs) ++ z' :: rest)).
Proof.
  intros E st. rewrite E. assert (Hz : (init ++ [z]) !! length init = Some z) by by apply list_lookup_middle.
  set (m := length init).
  step (entry_at_run al rest s m (length init) _ z (init ++ [z]) eq_refl Hz).
  step (set_entry_at_run al rest s m 0 0 z (init ++ [z]) eq_refl ltac:(rewrite length_app; simpl; lia)).
  set (ws := without_first (init ++ [z])).
  assert (Ews : <[0%nat := z]> (init ++ [z]) = ws ++ [z] /\ length ws = length init).
  { unfold ws, without_first. rewrite last_snoc, length_app, Nat.add_sub, take_app_length.
    split; [by destruct init|apply length_insert]. }
  destruct Ews as [-> Hlw].
  step (entry_at_run al rest s m (length init) (Z.of_nat (length init)) z (ws ++ [z]) eq_refl ltac:(by apply list_lookup_middle)).
  exists (MkEntry (q_time z) (q_id z) Null Null). split; [done|].
  rewrite (set_entry_at_run al rest s m (length init)) by (done || (rewrite length_app; simpl; lia)).
  subst st. cbv beta. do 5 f_equal. rewrite insert_app_r_alt, Hlw, Nat.sub_diag by lia. by rewrite <- app_assoc.
Qed.

Lemma utimeq_pop_ok base s h hs rest G ret a b c l : timeq_ok base s (h :: hs) rest -> lists_ok (py_lists s) G ->
  G !! ret = Some (a :: b :: c :: l) ->
  exists s' hs' rest' cb args, mod_utimeq_heappop MP_OBJ_NEW_SMALL_INT ret s = Some (Ok tt, s')
    /\ q_callback h = Obj cb /\ q_args h = Obj args
    /\ timeq_ok base s' hs' rest' /\ hs' ≡ₚ hs /\ utimeq_id s' = utimeq_id s
    /\ lists_ok (py_lists s') (<[ret := MP_OBJ_NEW_SMALL_INT (q_time h) :: cb :: args :: l]> G).
Proof.
  intros H HL HG. pose proof H as [Hq Hsz Hh Hwin Hids Hobjs Hclear].
  destruct (front_entry _ _ _ _ _ H) as [(cb & args & Hcb & Hargs) _].
  destruct (heap_ok_list _ _ _ _ HL HG) as (k & p & Hr & _). pose proof Hr as [Ho _ _].
  unfold mod_utimeq_heappop. step (u_get_run s). rewrite Hq. cbn [u_len].
  replace (Z.of_nat (length (h :: hs)) =? 0) with false by (cbn [length]; lia). step (u_state_run s). rewrite Ho. cbn [l_len].
  replace (Z.of_nat (length (a :: b :: c :: l)) <? 3) with false by (cbn [length]; lia).
  assert (E0 : entry_at 0 s = Some (Ok h, s)).
  { unfold entry_at. step (u_get_run s). by rewrite Hq. }
  step E0. rewrite Hcb, Hargs. set (t := MP_OBJ_NEW_SMALL_INT (q_time h)).
  pose proof (set_ret_run s ret _ k p 0 t Hr ltac:(simpl; lia)) as E1. change (Z.of_nat 0) with 0 in E1. step E1.
  set (s1 := with_lists _ s). assert (Hr1 : list_rep (py_lists s1) ret (t :: b :: c :: l) k p) by (by eapply list_rep_put).
  pose proof (set_ret_run s1 ret _ k p 1 cb Hr1 ltac:(simpl; lia)) as E2. change (Z.of_nat 1) with 1 in E2. step E2.
  set (s2 := with_lists _ s1). assert (Hr2 : list_rep (py_lists s2) ret (t :: cb :: c :: l) k p) by (by eapply list_rep_put).
  pose proof (set_ret_run s2 ret _ k p 2 args Hr2 ltac:(simpl; lia)) as E3. change (Z.of_nat 2) with 2 in E3. step E3.
  set (s3 := with_lists _ s2). clear E0 E1 E2 E3.
  assert (HL3 : lists_ok (py_lists s3) (<[ret := t :: cb :: args :: l]> G)).
  { replace (py_lists s3) with (put p (array_of (t :: cb :: args :: l) k) (py_lists s)).
    - by eapply (heap_ok_put (py_lists s) G ret (a :: b :: c :: l)).
    - subst s3 s2 s1. cbn [py_lists with_lists]. by rewrite !put_put. }
  assert (Hq3 : queue s3 = queue s) by done. assert (Hid3 : utimeq_id s3 = utimeq_id s) by done. clearbody s3. clear Hr1 Hr2 s1 s2.
  set (al := Z.of_nat (length ((h :: hs) ++ rest))) in *.
  destruct (exists_last (l := h :: hs) ltac:(done)) as (init & z & Ez).
  assert (Hlen : length (h :: hs) = S (length init)) by (rewrite Ez, length_app; simpl; lia).
  cbv zeta. replace (Z.of_nat (length (h :: hs)) - 1) with (Z.of_nat (length init)) by lia.
  rewrite (X_bind_Ok (set_heap_len _) _ s3 tt (with_queue (fun _ => MkUtimeq al (Z.of_nat (length init)) ((h :: hs) ++ rest)) s3))
    by (unfold set_heap_len; step (u_get_run s3); by rewrite Hq3, Hq).
  destruct (pop_front_run al s3 h hs rest init z Ez) as (z' & Hz' & Erun). rewrite <- !X_bind_assoc in Erun.
  rewrite <- !X_bind_assoc. step Erun. clear Erun. set (ws := without_first (h :: hs)).
  assert (Hp : h :: ws ≡ₚ h :: hs) by apply without_first_perm. apply Permutation_cons_inv in Hp.
  assert (Hlw : length ws = length init) by (rewrite (Permutation_length Hp); simpl in Hlen; lia). rewrite <- Hlw.
  apply list.Forall_cons in Hwin as [Hwh Hwin]. apply list.Forall_cons in Hids as [_ Hids]. apply list.Forall_cons in Hobjs as [_ Hobjs].
  assert (Hal : al = Z.of_nat (length (ws ++ z' :: rest))) by (unfold al; rewrite !length_app; cbn [length] in *; lia).
  assert (Hdone : forall ys, ys ≡ₚ hs -> heap_from lt 0 ys ->
    timeq_ok base (with_queue (fun _ => MkUtimeq al (Z.of_nat (length ws)) (ys ++ z' :: rest)) s3) ys (z' :: rest)).
  { intros ys Hys Hheap. assert (length ys = length ws) by (by rewrite (Permutation_length Hys), (Permutation_length Hp)).
    constructor; simpl; rewrite ?Hid3, ?Hys; try done.
    - f_equal; [|lia]. rewrite Hal, !length_app. cbn [length]. lia.
    - pose proof (Permutation_length Hp). clear -Hsz Hal H1. rewrite !length_app in *. cbn [length] in *. lia.
    - by constructor. }
  destruct (Z.eqb_spec (Z.of_nat (length ws)) 0) as [E0|E0]; cbn [negb].
  - eexists _, ws, _, cb, args. split; [reflexivity|]. split; [done|]. split; [done|]. split; [|done].
    apply Hdone; [done|]. intros j ? ? ? ? ? Hy%lookup_lt_Some. lia.
  - destruct (sift_up_heap lt (in_window base) (time_less_than_order base) 0 ws) as [Hheap Hys]; [by rewrite Hp|lia|by apply without_first_heap|].
    eexists _, (sift_up lt 0 ws), _, cb, args.
    split; [apply (timeq_siftup_run al (z' :: rest) s3 (length ws) ltac:(rewrite length_app in Hal; lia) 0 ws); (done || lia)|].
    split; [done|]. split; [done|]. split; [|by rewrite Hys, Hp]. apply Hdone; [by rewrite Hys, Hp|done].
Qed.

(** ** The queue *)

(** C19 A queue of timed entries whose times lie in half of the ring.  A push raises
    [IndexError] when the queue is full, and else adds the entry with the next id (which
    is below 2^32 - 1: the code has a TODO for its wrap).  A
    pop raises [IndexError] when the queue is empty and [TypeError] for a list of less
    than three items, with nothing changed; else it stores time, callback and
    arguments of the first entry, which is the earliest on the ring and among equal
    times the one pushed first, into the list and removes it.  The heap stays one, and
    free places keep no reference to an object. *)
Theorem utimeq_correct base s hs rest : timeq_ok base s hs rest ->
  (forall time cb args,
     (rest = [] -> mod_utimeq_heappush time cb args s = Some (Raise IndexError, s))
     /\ (rest <> [] -> in_window base (MkEntry time 0 Null Null) -> 0 <= utimeq_id s < 2 ^ 32 - 1 ->
         exists s' hs' rest', mod_utimeq_heappush time cb args s = Some (Ok tt, s') /\ timeq_ok base s' hs' rest'
           /\ hs' ≡ₚ MkEntry time (utimeq_id s) (Obj cb) (Obj args) :: hs
           /\ utimeq_id s' = utimeq_id s + 1 /\ py_lists s' = py_lists s))
  /\ (forall ret,
     (hs = [] -> mod_utimeq_heappop MP_OBJ_NEW_SMALL_INT ret s = Some (Raise IndexError, s)
       /\ mod_utimeq_peektime MP_OBJ_NEW_SMALL_INT s = Some (Raise IndexError, s))
     /\ (hs <> [] -> (forall l, list_objs (py_lists s) !! ret = Some l -> l_len l < 3) ->
         mod_utimeq_heappop MP_OBJ_NEW_SMALL_INT ret s = Some (Raise TypeError, s))
     /\ forall G a b c l, hs <> [] -> lists_ok (py_lists s) G -> G !! ret = Some (a :: b :: c :: l) ->
         exists s' hs' rest' e cb args, mod_utimeq_heappop MP_OBJ_NEW_SMALL_INT ret s = Some (Ok tt, s')
           /\ mod_utimeq_peektime MP_OBJ_NEW_SMALL_INT s = Some (Ok (MP_OBJ_NEW_SMALL_INT (q_time e)), s)
           /\ q_callback e = Obj cb /\ q_args e = Obj args
           /\ timeq_ok base s' hs' rest' /\ hs ≡ₚ e :: hs' /\ (forall e', e' ∈ hs' -> not_after base e e')
           /\ lists_ok (py_lists s') (<[ret := MP_OBJ_NEW_SMALL_INT (q_time e) :: cb :: args :: l]> G)).
Proof.
  intros H. split; [intros time cb args; split|intros ret; split; [|split]].
  - intros ->. by eapply utimeq_push_full.
  - intros Hr Hw Hid. destruct rest as [|r rest]; [done|].
    destruct (utimeq_push_ok base s hs r rest time cb args H Hw Hid) as (s' & hs' & ?). by exists s', hs', rest.
  - intros ->. split; [by eapply utimeq_pop_empty|]. unfold mod_utimeq_peektime. step (u_get_run s). by rewrite (tq_queue _ _ _ _ H).
  - intros Hne Hl. destruct hs as [|h hs]; [done|]. by eapply utimeq_pop_bad_list.
  - intros G a b c l Hne HL HG. destruct hs as [|h hs]; [done|].
    destruct (utimeq_pop_ok base s h hs rest G ret a b c l H HL HG) as (s' & hs' & rest' & cb & args & Hr & Hcb & Hargs & Hok & Hp & _ & HL').
    exists s', hs', rest', h, cb, args. split; [done|]. split.
    { unfold mod_utimeq_peektime. step (u_get_run s). unfold entry_at. rewrite (tq_queue _ _ _ _ H). cbn [u_len length].
      replace (Z.of_nat (S (length hs)) =? 0) with false by lia. rewrite X_bind_assoc. step (u_get_run s). by rewrite (tq_queue _ _ _ _ H). }
    do 3 (split; [done|]). split; [by rewrite Hp|]. split; [|done].
    intros e' He'. apply (front_entry _ _ _ _ _ H). by rewrite <- Hp.
Qed.
End Thms.
