(* ===== verification/ObjListWitness.v ===== *)
(** Lists at concrete values: witnesses of the theorems of [ObjListThms] and
    [ListSort], and the cases that those theorems exclude. *)
From S2P Require Import Prelude PyExn Map MapOrdered ObjSeq ObjList ObjListSpec ObjListOps ObjListEdit ObjListSlice ObjListThms ListSort BinHeap Heapq UTimeq.

(** Numbers as objects: 1 is [True] and 0 is [False]; the only callable object is
    200, which subtracts its argument from 100. *)
Definition int_binary_op (op : cmp_op) (a b : nat) : res nat :=
  let holds : bool := match op with
    | OP_EQUAL => (a =? b)%nat | OP_LESS => (a <? b)%nat | OP_LESS_EQUAL => (a <=? b)%nat
    | OP_MORE => (b <? a)%nat | OP_MORE_EQUAL => (b <=? a)%nat end in
  Ok (if holds then 1%nat else 0%nat).
Definition int_call (f a : nat) : res nat := if (f =? 200)%nat then Ok (100 - a)%nat else Raise TypeError.
Lemma int_const_differ : 1%nat <> 0%nat.
Proof. done. Qed.
#[export] Instance int_calls : MpCalls ints :=
  @Build_MpCalls ints 300%nat 1%nat 0%nat int_const_differ int_binary_op int_call.

Abbreviation int_list := (list (@mp_obj ints)).

(** The list 1 is full, the list 2 has room. *)
Definition two_lists (ans : list mem_answer) : @lists ints :=
  MkLists {[1%nat := MkList 4 4 3%nat; 2%nat := MkList 4 1 4%nat]}
    {[3%nat := array_of [30%nat : @mp_obj ints; 10%nat; 40%nat; 20%nat] 0; 4%nat := array_of [7%nat : @mp_obj ints] 3]} 5 ans 1000.
Definition two_contents : gmap nat int_list := {[1%nat := [30; 10; 40; 20]%nat : int_list; 2%nat := [7%nat] : int_list]}.

Ltac two_entries := repeat match goal with
  | H : {[_ := _; _ := _]} !! _ = Some _ |- _ => apply lookup_insert_Some in H as [[? ?]|[? H]]; simplify_eq/=
  | H : {[_ := _]} !! _ = Some _ |- _ => apply lookup_singleton_Some in H as [? ?]; simplify_eq/=
  | H : is_Some _ |- _ => destruct H
  end.

Lemma two_lists_ok ans : lists_ok (two_lists ans) two_contents.
Proof.
  constructor; simpl; unfold two_contents; intros; two_entries; try (done || lia || by eexists).
  - exists 0%nat, 3%nat. constructor; simpl; (done || lia).
  - exists 3%nat, 4%nat. constructor; simpl; (done || lia).
Qed.

Definition store_op : @list_op ints := OStoreSlice 1 (MkSlice (IdxInt 1) (IdxInt (-1)) IdxNone) 2.


(** The step 0 and an argument that is no integer. *)
Example slice_errors :
  run_list_op (OLoadSlice (MO := ints) 1 (MkSlice IdxNone IdxNone (IdxInt 0))) (two_lists []) = Some (Raise ValueError, two_lists [])
  /\ run_list_op (ODeleteSlice (MO := ints) 1 (MkSlice (IdxOther (Raise TypeError)) IdxNone IdxNone)) (two_lists []) = Some (Raise TypeError, two_lists []).
Proof. split; vm_compute; reflexivity. Qed.

Lemma ltb_less_order : less_order (MO := ints) Nat.ltb.
Proof.
  constructor; simpl; intros.
  - apply Nat.ltb_lt in H. apply Nat.ltb_ge. lia.
  - apply Nat.ltb_lt in H. rewrite !Nat.ltb_lt. lia.
Qed.

Lemma list_sort_witness :
  exists r s' ys, mp_obj_list_sort 3 1 None true (two_lists []) = Some (r, s')
    /\ lists_ok s' (<[1%nat := ys]> two_contents) /\ ys ≡ₚ [30; 10; 40; 20]%nat /\ r = Ok tt
    /\ forall i j x y, (i < j)%nat -> ys !! i = Some x -> ys !! j = Some y -> in_order (MO := ints) id Nat.ltb true x y.
Proof.
  destruct (list_sort_correct (two_lists []) two_contents 1 [30; 10; 40; 20]%nat 3 None true (two_lists_ok []) eq_refl)
    as (r & s' & ys & Hr & Hs & Hp & Hsort).
  exists r, s', ys. split; [done|]. split; [done|]. split; [done|]. apply (Hsort id Nat.ltb ltb_less_order); [|lia|simpl; lia].
  constructor; done.
Defined.

(** ** Cases that the theorems exclude *)

(** [a[1:2] = a] reads the former array of [a] when the growth moved it. *)
Lemma store_slice_self : list_store_slice 1 (MkSlice (IdxInt 1) (IdxInt 2) IdxNone) 1 (two_lists [MemMove]) = None.
Proof. vm_compute. reflexivity. Qed.

(** [clear] of a list of five items of which [pop] has left two, without memory: the
    items stay in the array. *)
Definition five_items : @lists ints :=
  MkLists {[1%nat := MkList 5 5 3%nat]} {[3%nat := array_of [1%nat : @mp_obj ints; 2%nat; 3%nat; 4%nat; 5%nat] 0]} 4 [MemFail] 1000.
Lemma clear_no_memory :
  exists s, (list_pop 1 None;; list_pop 1 None;; list_pop 1 None;; list_clear 1) five_items = Some (Raise MemoryError, s)
    /\ list_objs s !! 1%nat = Some (MkList 2 0 3) /\ arrays s !! 3%nat = Some (array_of (MO := ints) [1; 2]%nat 0).
Proof. eexists. split; [|split]; vm_compute; reflexivity. Qed.

(** [a[1::0x7fffffff]]: [start + step] overflows. *)
Lemma load_slice_overflow :
  list_load_slice 1 (MkSlice (IdxInt 1) IdxNone (IdxInt (2 ^ 31 - 1))) (two_lists []) = None.
Proof. vm_compute. reflexivity. Qed.

(** [a * 2**30] for four items: the length wraps to 0, and the second copy leaves the array. *)
Lemma multiply_overflow : list_multiply 1 (2 ^ 30) (two_lists []) = None.
Proof.
  unfold list_multiply. assert (exists m, Z.to_nat (2 ^ 30) = S (S m)) as [m Hm] by (exists (Z.to_nat (2 ^ 30 - 2)); lia).
  replace (if 2 ^ 30 <? 0 then 0 else 2 ^ 30) with (2 ^ 30) by done. rewrite Hm.
  vm_compute. reflexivity.
Qed.

(** Heaps and timed queues at concrete values: witnesses, and what an exception in a
    comparison does to a heap. *)

(** The list 1 has the items 30, 10, 40, 20. *)
Lemma ints_ordered xs : ordered_by (MO := ints) (MC := int_calls) Nat.ltb xs.
Proof.
  exists (fun _ => True). split; [done|]. split; [|by apply Forall_true].
  constructor; intros.
  - apply Nat.ltb_lt in H1. apply Nat.ltb_ge. lia.
  - apply Nat.ltb_lt in H2. rewrite !Nat.ltb_lt. lia.
Qed.

Lemma heapq_witness :
  exists r s' ys, mod_uheapq_heapify 1 (two_lists []) = Some (r, s') /\ lists_ok s' (<[1%nat := ys]> two_contents)
    /\ r = Ok tt /\ heap_from Nat.ltb 0 ys /\ ys ≡ₚ [30; 10; 40; 20]%nat.
Proof.
  destruct (heapq_correct (two_lists []) two_contents 1 (two_lists_ok [])) as [_ H].
  destruct (H [30; 10; 40; 20]%nat eq_refl) as (_ & _ & _ & r & s' & ys & Hr & Hs & HQ).
  exists r, s', ys. split; [exact Hr|]. split; [exact Hs|]. apply (HQ Nat.ltb). apply ints_ordered.
Defined.

(** Comparisons that raise when they see 13. *)
Definition picky_op (op : cmp_op) (a b : nat) : res nat :=
  if (a =? 13)%nat || (b =? 13)%nat then Raise ValueError else int_binary_op op a b.
Definition picky_calls : MpCalls ints := @Build_MpCalls ints 300%nat 1%nat 0%nat int_const_differ picky_op int_call.

(** The item that is pushed replaces nothing, but its way up stops at an exception:
    the heap [13, 20, 40, 30] and 5 become [13, 20, 40, 30, 20], and 5 is lost. *)
Definition heap_of_13 : @lists ints :=
  MkLists {[1%nat := MkList 5 4 3%nat]} {[3%nat := array_of [13%nat : @mp_obj ints; 20%nat; 40%nat; 30%nat] 1]} 5 [] 1000.

Lemma heappush_exception_loses_item :
  exists s', @mod_uheapq_heappush ints picky_calls 1 (5%nat : @mp_obj ints) heap_of_13 = Some (Raise ValueError, s')
    /\ arrays s' !! 3%nat = Some (array_of (MO := ints) [13; 20; 40; 30; 20]%nat 0).
Proof. eexists. split; vm_compute; reflexivity. Qed.

(** ** Timed queues *)

(** An entry at the tick before the ring starts again, and a list for the result. *)
Definition timed_entry (time id : Z) : @qentry ints := MkEntry time id (Obj (7%nat : @mp_obj ints)) (Obj (8%nat : @mp_obj ints)).
Definition small_int_obj (z : Z) : @mp_obj ints := Z.to_nat z.
Definition late := 2 ^ 30 - 1.

Definition timed_queue : @utimeq ints :=
  MkState (MkUtimeq 2 1 [timed_entry late 0; zero_entry]) 1 (two_lists []).

Lemma timed_queue_ok : timeq_ok (MO := ints) late timed_queue [timed_entry late 0] [zero_entry].
Proof.
  constructor; try done.
  - intros j x y Hj _ Hx Hy. apply lookup_lt_Some in Hy. simpl in Hy. lia.
  - repeat constructor; done.
  - repeat constructor; done.
  - repeat constructor. by eexists _, _.
  - by repeat constructor.
Qed.

(** Tick 5 is after the last tick of the ring. *)
Lemma utimeq_witness :
  exists s' hs' rest', mod_utimeq_heappush (MO := ints) 5 7%nat 8%nat timed_queue = Some (Ok tt, s')
    /\ timeq_ok (MO := ints) late s' hs' rest' /\ hs' ≡ₚ [timed_entry 5 1; timed_entry late 0].
Proof.
  destruct (utimeq_correct (MO := ints) small_int_obj late timed_queue _ _ timed_queue_ok) as [H _].
  destruct (H 5 7%nat 8%nat) as [_ H1].
  destruct H1 as (s' & hs' & rest' & Hr & Hok & Hp & _); [done|split; done|done|].
  exists s', hs', rest'. split; [exact Hr|]. split; [exact Hok|exact Hp].
Defined.

Lemma utimeq_pop_order :
  exists s1 s2, mod_utimeq_heappush (MO := ints) 5 7%nat 8%nat timed_queue = Some (Ok tt, s1)
    /\ mod_utimeq_heappop (MO := ints) (fun z => if z =? late then 1%nat else 0%nat) 1 s1 = Some (Ok tt, s2)
    /\ arrays (py_lists s2) !! 3%nat = Some (array_of (MO := ints) [1; 7; 8; 20]%nat 0).
Proof. eexists _, _. split; [vm_compute; reflexivity|]. split; [vm_compute; reflexivity|]. vm_compute. reflexivity. Qed.

(** [utimeq(2**28)]: the size of the entries wraps to 0, the object has room for none,
    and the first push writes after it. *)
Lemma utimeq_size_wraps :
  exists s1, utimeq_make_new (MO := ints) (fun _ => true) (IdxInt (2 ^ 28)) timed_queue = Some (Ok tt, s1)
    /\ queue s1 = MkUtimeq (2 ^ 28) 0 [] /\ mod_utimeq_heappush (MO := ints) 5 7%nat 8%nat s1 = None.
Proof. eexists. split; [vm_compute; reflexivity|]. split; vm_compute; reflexivity. Qed.
