(* ===== verification/Scheduler.v ===== *)
(** The scheduler of callbacks, [py/scheduler.c], with keyboard interrupts,
    [lib/utils/interrupt_char.c].

    Callbacks are scheduled from interrupts and run by the interpreter between byte
    codes.  Each function below is one atomic section of the C code, during which no
    interrupt comes; [mp_handle_pending] has two of them, with the callback between
    them, so it is a step that opens a frame and one that closes it.  The check of
    [sched_state] before the first section is part of the step, because interrupts do
    not change the state when it is [MP_SCHED_PENDING] or locked, and only make it
    pending when it is idle.  One task at a time runs the interpreter of a context. *)
From Stdlib Require Import ZifyBool.
From S2P Require Import Prelude PyExn.

Section Scheduler.
Context {O : Type}.   (* objects *)

Definition MICROPY_SCHEDULER_DEPTH : Z := 8.

Definition MP_SCHED_IDLE : Z := 1.
Definition MP_SCHED_LOCKED : Z := -1.
Definition MP_SCHED_PENDING : Z := 0.

Record mp_sched_item_t := MkItem { item_func : O; item_arg : O }.

(** The scheduler's part of the state; [None] is [MP_OBJ_NULL], and a place of the
    array that was never written is [None] too. *)
Record sched := MkSched {
  sched_state : Z;                        (* [int16_t] *)
  sched_len : Z;                          (* [uint8_t] *)
  sched_idx : Z;                          (* [uint8_t] *)
  sched_stack : list (option mp_sched_item_t);
  mp_pending_exception : option O }.

Implicit Types (s : sched) (i : mp_sched_item_t).

(** [mp_init] *)
Definition sched_init : sched := MkSched MP_SCHED_IDLE 0 0 (replicate (Z.to_nat MICROPY_SCHEDULER_DEPTH) None) None.

Definition with_state n s := MkSched n (sched_len s) (sched_idx s) (sched_stack s) (mp_pending_exception s).
Definition with_exception o s := MkSched (sched_state s) (sched_len s) (sched_idx s) (sched_stack s) o.

Definition IDX_MASK (i : Z) : Z := Z.land i (MICROPY_SCHEDULER_DEPTH - 1).

Definition mp_sched_num_pending s : Z := sched_len s.
Definition mp_sched_full s : bool := mp_sched_num_pending s =? MICROPY_SCHEDULER_DEPTH.
Definition mp_sched_empty s : bool := mp_sched_num_pending s =? 0.

(** What the interpreter does next. *)
Inductive handled := NotPending | RaiseObj (obj : O) | CallItem (i : mp_sched_item_t) | CallNothing.

(** [mp_handle_pending_tail] up to the call. *)
Definition mp_handle_pending_tail s : option (handled * sched) :=
  let s := with_state MP_SCHED_LOCKED s in
  if negb (mp_sched_empty s) then
    item ← (sched_stack s !! Z.to_nat (sched_idx s)) ≫= id;
    Some (CallItem item,
      MkSched (sched_state s) (wrap 8 (sched_len s - 1)) (wrap 8 (IDX_MASK (sched_idx s + 1))) (sched_stack s) (mp_pending_exception s))
  else Some (CallNothing, s).

Definition mp_handle_pending s : option (handled * sched) :=
  if sched_state s =? MP_SCHED_PENDING then
    match mp_pending_exception s with
    | Some obj =>
        let s := with_exception None s in
        let s := if mp_sched_num_pending s =? 0 then with_state MP_SCHED_IDLE s else s in
        Some (RaiseObj obj, s)
    | None => mp_handle_pending_tail s
    end
  else Some (NotPending, s).

Definition mp_sched_lock s : sched :=
  if sched_state s <? 0 then with_state (swrap 16 (sched_state s - 1)) s else with_state MP_SCHED_LOCKED s.

Definition mp_sched_unlock s : sched :=
  let s := with_state (swrap 16 (sched_state s + 1)) s in
  if sched_state s =? 0 then
    if bool_decide (mp_pending_exception s <> None) || negb (mp_sched_num_pending s =? 0) then with_state MP_SCHED_PENDING s
    else with_state MP_SCHED_IDLE s
  else s.

(** A store after the array is undefined. *)
Definition mp_sched_schedule (func arg : O) s : option (bool * sched) :=
  if negb (mp_sched_full s) then
    let s := if sched_state s =? MP_SCHED_IDLE then with_state MP_SCHED_PENDING s else s in
    let iput := wrap 8 (IDX_MASK (sched_idx s + sched_len s)) in
    if (Z.to_nat iput <? length (sched_stack s))%nat then
      Some (true, MkSched (sched_state s) (wrap 8 (sched_len s + 1)) (sched_idx s)
        (<[Z.to_nat iput := Some (MkItem func arg)]> (sched_stack s)) (mp_pending_exception s))
    else None
  else Some (false, s).

(** [micropython.schedule] *)
Definition mp_micropython_schedule (func arg : O) : X sched unit := fun s =>
  '(b, s) ← mp_sched_schedule func arg s; Some (if (b : bool) then Ok tt else Raise RuntimeError, s).

(** The object [MP_STATE_VM(mp_kbd_exception)] is [kbd]. *)
Definition mp_keyboard_interrupt (kbd : O) s : sched :=
  let s := with_exception (Some kbd) s in
  if sched_state s =? MP_SCHED_IDLE then with_state MP_SCHED_PENDING s else s.
End Scheduler.

(** The scheduler as a transition system, a queue that it implements, and what
    follows for the callbacks: none is lost, they run in order and one at a time, and
    each of them runs. *)

Section Machine.
Context {O : Type} (kbd : O).   (* the keyboard interrupt *)

(** ** Events

    A frame is a call that [mp_handle_pending] has made and not ended, or a lock taken
    with [mp_sched_lock]. *)
Inductive frame := FCall (i : @mp_sched_item_t O) | FNothing | FLock.
Record machine := MkMachine { vm : @sched O; frames : list frame }.

Inductive event := Schedule (func arg : O) | Keyboard | HandlePending | Finish | Lock | Unlock.
Inductive output := Accepted | Refused | Raised (obj : O) | Called (i : @mp_sched_item_t O) | Quiet.

Definition machine_init : machine := MkMachine sched_init [].

(** [None] when the event cannot happen: nothing to finish or to unlock. *)
Definition run_event (e : event) (c : machine) : option (output * machine) :=
  match e with
  | Schedule func arg =>
      '(b, s) ← mp_sched_schedule func arg (vm c);
      Some (if (b : bool) then Accepted else Refused, MkMachine s (frames c))
  | Keyboard => Some (Quiet, MkMachine (mp_keyboard_interrupt kbd (vm c)) (frames c))
  | HandlePending =>
      '(h, s) ← mp_handle_pending (vm c);
      Some match h with
           | NotPending => (Quiet, MkMachine s (frames c))
           | RaiseObj obj => (Raised obj, MkMachine s (frames c))
           | CallItem i => (Called i, MkMachine s (FCall i :: frames c))
           | CallNothing => (Quiet, MkMachine s (FNothing :: frames c))
           end
  | Finish => match frames c with
              | (FCall _ | FNothing) :: fs => Some (Quiet, MkMachine (mp_sched_unlock (vm c)) fs)
              | _ => None
              end
  | Lock => Some (Quiet, MkMachine (mp_sched_lock (vm c)) (FLock :: frames c))
  | Unlock => match frames c with
              | FLock :: fs => Some (Quiet, MkMachine (mp_sched_unlock (vm c)) fs)
              | _ => None
              end
  end.

(** ** The specification: a queue of at most eight callbacks *)

Record spec := MkSpec { pending : list (@mp_sched_item_t O); exc : option O; running : list frame }.
Definition spec_init : spec := MkSpec [] None [].

Definition spec_event (e : event) (a : spec) : option (output * spec) :=
  match e with
  | Schedule func arg =>
      Some (if (length (pending a) <? 8)%nat then (Accepted, MkSpec (pending a ++ [MkItem func arg]) (exc a) (running a))
            else (Refused, a))
  | Keyboard => Some (Quiet, MkSpec (pending a) (Some kbd) (running a))
  | HandlePending =>
      Some match running a, exc a, pending a with
           | [], Some obj, q => (Raised obj, MkSpec q None [])
           | [], None, i :: q => (Called i, MkSpec q None [FCall i])
           | _, _, _ => (Quiet, a)
           end
  | Finish => match running a with FCall _ :: fs => Some (Quiet, MkSpec (pending a) (exc a) fs) | _ => None end
  | Lock => Some (Quiet, MkSpec (pending a) (exc a) (FLock :: running a))
  | Unlock => match running a with FLock :: fs => Some (Quiet, MkSpec (pending a) (exc a) fs) | _ => None end
  end.

(** ** The representation *)

(** The value of [sched_state]: minus the number of frames, or whether there is
    anything to do. *)
Definition state_of (a : spec) : Z :=
  match running a with
  | [] => if bool_decide (exc a = None) && bool_decide (pending a = []) then MP_SCHED_IDLE else MP_SCHED_PENDING
  | fs => - Z.of_nat (length fs)
  end.

(** A callback only runs when there is no other frame. *)
Inductive nested : list frame -> Prop :=
  | nested_nil : nested []
  | nested_call i : nested [FCall i]
  | nested_lock fs : nested fs -> nested (FLock :: fs).

(** The frames nest at most as deep as [int16_t] can count. *)
Record represents (c : machine) (a : spec) : Prop := {
  rp_frames : frames c = running a;
  rp_nesting : Z.of_nat (length (running a)) < 2 ^ 15;
  rp_calls : nested (running a);
  rp_exc : mp_pending_exception (vm c) = exc a;
  rp_state : sched_state (vm c) = state_of a;
  rp_len : sched_len (vm c) = Z.of_nat (length (pending a));
  rp_depth : (length (pending a) <= 8)%nat;
  rp_idx : 0 <= sched_idx (vm c) < 8;
  rp_stack : length (sched_stack (vm c)) = 8%nat;
  rp_items k i : pending a !! k = Some i -> sched_stack (vm c) !! Z.to_nat ((sched_idx (vm c) + Z.of_nat k) mod 8) = Some (Some i) }.

Lemma represents_init : represents machine_init spec_init.
Proof. constructor; try done; [constructor|simpl; lia]. Qed.

Lemma IDX_MASK_mod i : IDX_MASK i = i mod 8.
Proof. unfold IDX_MASK, MICROPY_SCHEDULER_DEPTH. change (8 - 1) with (Z.ones 3). by rewrite Z.land_ones by lia. Qed.

Lemma state_of_frames a f fs : running a = f :: fs -> state_of a = - Z.of_nat (S (length fs)).
Proof. intros E. unfold state_of. by rewrite E. Qed.

Lemma state_of_idle a : running a = [] ->
  state_of a = if bool_decide (exc a = None) && bool_decide (pending a = []) then MP_SCHED_IDLE else MP_SCHED_PENDING.
Proof. intros E. unfold state_of. by rewrite E. Qed.

(** Interrupts make the state pending when it is idle. *)
Lemma wake_state a a' : running a' = running a -> (exc a' <> None \/ pending a' <> []) ->
  (if state_of a =? MP_SCHED_IDLE then MP_SCHED_PENDING else state_of a) = state_of a'.
Proof.
  intros Hr Hn. destruct (running a) as [|f fs] eqn:E.
  - rewrite (state_of_idle a), (state_of_idle a') by done.
    replace (bool_decide (exc a' = None) && bool_decide (pending a' = [])) with false.
    { by destruct (bool_decide (exc a = None) && bool_decide (pending a = [])). }
    symmetry. apply andb_false_iff. rewrite !bool_decide_eq_false. tauto.
  - rewrite (state_of_frames a f fs), (state_of_frames a' f fs) by done. unfold MP_SCHED_IDLE.
    by destruct (Z.eqb_spec (- Z.of_nat (S (length fs))) 1); [lia|].
Qed.

Lemma schedule_ok c a func arg : represents c a -> exists c' a' o,
  spec_event (Schedule func arg) a = Some (o, a') /\ run_event (Schedule func arg) c = Some (o, c') /\ represents c' a'.
Proof.
  intros H. pose proof H as [Hf Hn Hc He Hst Hl Hd Hi Hs Hit]. cbn [run_event spec_event].
  unfold mp_sched_schedule, mp_sched_full, mp_sched_num_pending, MICROPY_SCHEDULER_DEPTH.
  rewrite Hl. destruct (Nat.ltb_spec (length (pending a)) 8) as [Hlt|Hge].
  2:{ replace (Z.of_nat (length (pending a)) =? 8) with true by lia. simpl. eexists _, _, _. split; [done|]. split; [done|].
      by destruct c. }
  replace (Z.of_nat (length (pending a)) =? 8) with false by lia. cbn [negb].
  set (a' := MkSpec (pending a ++ [MkItem func arg]) (exc a) (running a)).
  pose proof (wake_state a a' eq_refl ltac:(right; simpl; by destruct (pending a))) as Hw. rewrite <- Hst in Hw.
  set (s1 := if sched_state (vm c) =? MP_SCHED_IDLE then with_state MP_SCHED_PENDING (vm c) else vm c).
  assert (E1 : sched_len s1 = sched_len (vm c) /\ sched_idx s1 = sched_idx (vm c) /\ sched_stack s1 = sched_stack (vm c)
    /\ mp_pending_exception s1 = mp_pending_exception (vm c) /\ sched_state s1 = state_of a').
  { rewrite <- Hw. unfold s1. by destruct (sched_state (vm c) =? MP_SCHED_IDLE). }
  clearbody s1. destruct E1 as (-> & -> & -> & -> & ->). rewrite Hl, IDX_MASK_mod, Hs.
  pose proof (Z.mod_pos_bound (sched_idx (vm c) + Z.of_nat (length (pending a))) 8 ltac:(lia)) as Hm.
  rewrite wrap_id by lia. replace (_ <? 8)%nat with true by lia. eexists _, _, _. split; [done|]. split; [done|].
  constructor; simpl; try done.
  - rewrite length_app, wrap_id by lia. simpl. lia.
  - rewrite length_app. simpl. lia.
  - by rewrite length_insert.
  - intros k i Hk. destruct (decide (k = length (pending a))) as [->|Hne].
    + rewrite list_lookup_insert_eq by lia. rewrite list_lookup_middle in Hk by done. by simplify_eq.
    + pose proof (lookup_lt_Some _ _ _ Hk) as Hkl. rewrite length_app in Hkl. simpl in Hkl.
      rewrite lookup_app_l in Hk by lia. rewrite list_lookup_insert_ne; [by apply Hit|].
      pose proof (Z.mod_pos_bound (sched_idx (vm c) + Z.of_nat k) 8 ltac:(lia)).
      intros E. apply Z2Nat.inj in E; [|lia..]. revert E. clear -Hkl Hne Hi Hlt Hm H0.
      pose proof (Z.div_mod (sched_idx (vm c) + Z.of_nat k) 8 ltac:(lia)).
      pose proof (Z.div_mod (sched_idx (vm c) + Z.of_nat (length (pending a))) 8 ltac:(lia)). lia.
Qed.

Lemma keyboard_ok c a : represents c a -> represents (MkMachine (mp_keyboard_interrupt kbd (vm c)) (frames c)) (MkSpec (pending a) (Some kbd) (running a)).
Proof.
  intros [Hf Hn Hc He Hst Hl Hd Hi Hs Hit]. set (a' := MkSpec (pending a) (Some kbd) (running a)).
  pose proof (wake_state a a' eq_refl ltac:(by left)) as Hw. rewrite <- Hst in Hw.
  unfold mp_keyboard_interrupt. constructor; simpl; try done.
  all: cbn [sched_state with_exception]; destruct (sched_state (vm c) =? MP_SCHED_IDLE); simpl; try done; by rewrite Hw.
Qed.

Lemma lock_ok c a : represents c a -> Z.of_nat (length (running a)) < 2 ^ 15 - 1 ->
  represents (MkMachine (mp_sched_lock (vm c)) (FLock :: frames c)) (MkSpec (pending a) (exc a) (FLock :: running a)).
Proof.
  intros [Hf Hn Hc He Hst Hl Hd Hi Hs Hit] Hb.
  assert (E : mp_sched_lock (vm c) = with_state (- Z.of_nat (S (length (running a)))) (vm c)).
  { unfold mp_sched_lock. rewrite Hst. destruct (running a) as [|f fs] eqn:Er.
    - rewrite state_of_idle by done. by destruct (_ && _).
    - rewrite (state_of_frames a f fs Er). simpl length in *. replace (_ <? 0) with true by lia. f_equal.
      rewrite swrap_id by lia. lia. }
  rewrite E. constructor; simpl; try done; [by rewrite Hf|lia|by constructor].
Qed.

Lemma unlock_ok c a f fs : represents c a -> running a = f :: fs ->
  represents (MkMachine (mp_sched_unlock (vm c)) fs) (MkSpec (pending a) (exc a) fs).
Proof.
  intros [Hf Hn Hc He Hst Hl Hd Hi Hs Hit] Er. rewrite Er in *.
  assert (Hc' : nested fs) by (inversion Hc; subst; [constructor|done]).
  assert (E : mp_sched_unlock (vm c) = with_state (state_of (MkSpec (pending a) (exc a) fs)) (vm c)).
  { unfold mp_sched_unlock. rewrite Hst, (state_of_frames a f fs Er). simpl length in Hn. rewrite swrap_id by lia.
    destruct fs as [|g gs].
    - simpl. unfold state_of, mp_sched_num_pending. simpl. rewrite He, Hl.
      destruct (exc a), (pending a); simpl; try done.
    - rewrite (state_of_frames _ g gs) by done. cbn [sched_state with_state length].
      replace (_ =? 0) with false by (cbn [length]; lia). unfold with_state. simpl. f_equal. lia. }
  rewrite E. constructor; simpl in *; try done; lia.
Qed.

Lemma handle_ok c a : represents c a -> exists c' a' o,
  spec_event HandlePending a = Some (o, a') /\ run_event HandlePending c = Some (o, c') /\ represents c' a'.
Proof.
  intros H. pose proof H as [Hf Hn Hc He Hst Hl Hd Hi Hs Hit]. cbn [run_event spec_event]. unfold mp_handle_pending.
  destruct (running a) as [|f fs] eqn:Er.
  2:{ rewrite Hst, (state_of_frames a f fs Er). unfold MP_SCHED_PENDING. replace (- Z.of_nat (S (length fs)) =? 0) with false by lia.
      eexists _, _, _. split; [done|]. split; [done|]. by destruct c. }
  rewrite Hst, (state_of_idle a Er), He. destruct (exc a) as [obj|] eqn:Ee.
  - simpl. eexists _, _, _. split; [done|]. split; [done|]. unfold mp_sched_num_pending. cbn [sched_len with_exception]. rewrite Hl.
    destruct (pending a) as [|i q] eqn:Eq; cbn [length Z.of_nat].
    + simpl. constructor; simpl; try (done || lia || by constructor).
    + replace (Z.of_nat (S (length q)) =? 0) with false by lia. constructor; simpl; try (done || lia || by constructor).
      rewrite Hst, (state_of_idle a Er), Ee. done.
  - destruct (pending a) as [|i q] eqn:Eq.
    + simpl. eexists _, _, _. split; [done|]. split; [done|]. by destruct c.
    + rewrite bool_decide_true, bool_decide_false by done. cbn [andb]. rewrite Z.eqb_refl. unfold mp_handle_pending_tail, mp_sched_empty, mp_sched_num_pending.
      cbn [sched_len with_state sched_stack sched_idx mp_pending_exception sched_state]. rewrite Hl. cbn [length].
      replace (Z.of_nat (S (length q)) =? 0) with false by lia. cbn [negb].
      pose proof (Hit 0%nat i eq_refl) as Hi0. rewrite Z.add_0_r, Z.mod_small in Hi0 by lia. rewrite Hi0. simpl.
      eexists _, _, _. split; [done|]. split; [done|]. cbn [length] in *.
      pose proof (Z.mod_pos_bound (sched_idx (vm c) + 1) 8 ltac:(lia)) as Hm.
      constructor; simpl; rewrite ?IDX_MASK_mod; try (done || lia); [by rewrite Hf|by apply nested_call|rewrite wrap_id; lia|rewrite wrap_id; lia|].
      intros k j Hk. rewrite wrap_id by lia. rewrite Zplus_mod_idemp_l. rewrite <- (Hit (S k) j Hk). do 3 f_equal. lia.
Qed.

(** One event of the scheduler is the same event of the queue. *)
Lemma event_ok e c a : represents c a -> (e = Lock -> Z.of_nat (length (running a)) < 2 ^ 15 - 1) ->
  match spec_event e a with
  | Some (o, a') => exists c', run_event e c = Some (o, c') /\ represents c' a'
  | None => run_event e c = None
  end.
Proof.
  intros H Hb. destruct e.
  - destruct (schedule_ok c a func arg H) as (c' & a' & o & -> & ? & ?). by exists c'.
  - eexists. split; [done|by apply keyboard_ok].
  - destruct (handle_ok c a H) as (c' & a' & o & -> & ? & ?). by exists c'.
  - pose proof (rp_frames _ _ H) as Hf. pose proof (rp_calls _ _ H) as Hc. cbn [spec_event run_event]. rewrite Hf.
    destruct (running a) as [|[i| |] fs] eqn:E; try done; [|by inversion Hc]. eexists. split; [done|]. by eapply unlock_ok.
  - eexists. split; [done|]. apply lock_ok; auto.
  - pose proof (rp_frames _ _ H) as Hf. cbn [spec_event run_event]. rewrite Hf.
    destruct (running a) as [|[i| |] fs] eqn:E; try done. eexists. split; [done|]. by eapply unlock_ok.
Qed.

(** ** Sequences of events *)

Fixpoint run_events (es : list event) (c : machine) : option (list output * machine) :=
  match es with
  | [] => Some ([], c)
  | e :: es => '(o, c) ← run_event e c; '(os, c) ← run_events es c; Some (o :: os, c)
  end.

Fixpoint spec_events (es : list event) (a : spec) : option (list output * spec) :=
  match es with
  | [] => Some ([], a)
  | e :: es => '(o, a) ← spec_event e a; '(os, a) ← spec_events es a; Some (o :: os, a)
  end.

(** Locks never nest deeper than [int16_t] counts. *)
Fixpoint locks_fit (es : list event) (c : machine) : Prop :=
  match es with
  | [] => True
  | e :: es => (e = Lock -> Z.of_nat (length (frames c)) < 2 ^ 15 - 1)
               /\ match run_event e c with Some (_, c) => locks_fit es c | None => True end
  end.

Lemma events_ok es : forall c a, represents c a -> locks_fit es c ->
  match spec_events es a with
  | Some (os, a') => exists c', run_events es c = Some (os, c') /\ represents c' a'
  | None => run_events es c = None
  end.
Proof.
  induction es as [|e es IH]; intros c a H Hb; [by exists c|]. cbn [spec_events run_events locks_fit] in *. destruct Hb as [Hb Hl].
  rewrite (rp_frames _ _ H) in Hb. pose proof (event_ok e c a H Hb) as He.
  destruct (spec_event e a) as [[o a']|] eqn:Ee; simpl in *; [|by rewrite He].
  destruct He as (c' & Hc' & Hr). rewrite Hc' in *. specialize (IH c' a' Hr Hl). simpl.
  destruct (spec_events es a') as [[os a'']|]; simpl; [|by rewrite IH]. destruct IH as (c'' & -> & Hr'). by exists c''.
Qed.

Lemma locks_fit_app es1 es2 c : locks_fit (es1 ++ es2) c <-> locks_fit es1 c
  /\ forall os c', run_events es1 c = Some (os, c') -> locks_fit es2 c'.
Proof.
  revert c. induction es1 as [|e es1 IH]; intros c; simpl.
  { split; [intros H; split; [done|]; by intros os c' [= <- <-]|intros [_ H]; by eapply H]. }
  destruct (run_event e c) as [[o c1]|] eqn:E; simpl; [|split; [intros H; split; [done|]; by intros ? ? [=]|by intros [H _]]]. rewrite IH. split.
  - intros (H1 & H2 & H3). split; [done|]. intros os c'. destruct (run_events es1 c1) as [[os1 c2]|] eqn:E1; simpl; [|done].
    intros [= <- <-]. by eapply H3.
  - intros ((H1 & H2) & H3). split; [done|]. split; [done|]. intros os c' Hr. eapply (H3 (o :: os)). by rewrite Hr.
Qed.

(** The callbacks that were accepted, and those that were called. *)
Fixpoint accepted (es : list event) (os : list output) : list (@mp_sched_item_t O) :=
  match es, os with
  | Schedule func arg :: es, Accepted :: os => MkItem func arg :: accepted es os
  | _ :: es, _ :: os => accepted es os
  | _, _ => []
  end.
Definition called (os : list output) : list (@mp_sched_item_t O) :=
  omap (fun o => match o with Called i => Some i | _ => None end) os.

Lemma event_history e a o a' : spec_event e a = Some (o, a') ->
  pending a ++ accepted [e] [o] = called [o] ++ pending a'.
Proof.
  destruct e; cbn [spec_event]; intros E; repeat case_match; simplify_eq/=; rewrite ?app_nil_r; try done;
    repeat match goal with H : pending _ = _ |- _ => rewrite H end; done.
Qed.

Lemma accepted_cons e o es os : accepted (e :: es) (o :: os) = accepted [e] [o] ++ accepted es os.
Proof. by destruct e, o. Qed.

Lemma called_cons o os : called (o :: os) = called [o] ++ called os.
Proof. unfold called. simpl. by destruct o. Qed.

Lemma called_app os1 os2 : called (os1 ++ os2) = called os1 ++ called os2.
Proof. apply omap_app. Qed.

Lemma events_history es : forall a os a', spec_events es a = Some (os, a') ->
  pending a ++ accepted es os = called os ++ pending a'.
Proof.
  induction es as [|e es IH]; intros a os a'; cbn [spec_events].
  { intros [= <- <-]. simpl. by rewrite app_nil_r. }
  destruct (spec_event e a) as [[o a1]|] eqn:Ee; cbn [mbind option_bind]; [|done].
  destruct (spec_events es a1) as [[os1 a2]|] eqn:Es; cbn [mbind option_bind]; [|done].
  intros [= <- <-]. rewrite accepted_cons, called_cons, app_assoc, (event_history _ _ _ _ Ee), <- !app_assoc. by rewrite (IH _ _ _ Es).
Qed.

(** ** Progress *)

(** How often the interpreter handles what is pending with no frame open. *)
Fixpoint free_handles (es : list event) (c : machine) : nat :=
  match es with
  | [] => 0
  | e :: es =>
      match e, frames c with HandlePending, [] => 1 | _, _ => 0 end
      + match run_event e c with Some (_, c) => free_handles es c | None => 0 end
  end.
Fixpoint interrupts (es : list event) : nat :=
  match es with [] => 0 | Keyboard :: es => S (interrupts es) | _ :: es => interrupts es end.
Definition exc_count (o : option O) : nat := match o with Some _ => 1 | None => 0 end.

Lemma events_progress es : forall c a os c', represents c a -> locks_fit es c -> run_events es c = Some (os, c') ->
  (free_handles es c <= length (called os) + interrupts es + exc_count (exc a) \/ length (pending a) <= length (called os))%nat.
Proof.
  induction es as [|e es IH]; intros c a os c' H Hb; [left; simpl; lia|].
  cbn [run_events locks_fit free_handles] in *. destruct Hb as [Hb Hl]. rewrite (rp_frames _ _ H) in *.
  pose proof (event_ok e c a H Hb) as He. destruct (spec_event e a) as [[o a1]|] eqn:Ee; [|by rewrite He].
  destruct He as (c1 & Hc1 & Hr). rewrite Hc1 in *. simpl. destruct (run_events es c1) as [[os1 c2]|] eqn:Es; simpl; [|done].
  intros [= <- <-]. specialize (IH c1 a1 os1 c2 Hr Hl Es). rewrite called_cons, length_app. pose proof (event_history _ _ _ _ Ee) as Hh.
  apply (f_equal length) in Hh. rewrite !length_app in Hh.
  destruct e; cbn [spec_event] in Ee; repeat case_match; simplify_eq/=; rewrite ?length_app in *; simpl in *; try lia.
  all: repeat match goal with H : exc _ = _ |- _ => rewrite H in * end; simpl in *; lia.
Qed.

(** What the interpreter does to get everything done: it ends the open frames, raises
    the pending exception and calls the callbacks. *)
Definition close_frame (f : frame) : event := match f with FLock => Unlock | _ => Finish end.
Definition drain (c : machine) : list event :=
  map close_frame (frames c) ++ repeat HandlePending (exc_count (mp_pending_exception (vm c)))
  ++ concat (repeat [HandlePending; Finish] (Z.to_nat (sched_len (vm c)))).

Lemma no_locks_fit es c : Forall (fun e => e <> Lock) es -> locks_fit es c.
Proof.
  revert c. induction es as [|e es IH]; intros c; simpl; [done|]. intros [He Hes]%list.Forall_cons.
  split; [done|]. destruct (run_event e c) as [[o c']|]; [by apply IH|done].
Qed.

Lemma drain_no_locks c : Forall (fun e => e <> Lock) (drain c).
Proof.
  unfold drain. rewrite !list.Forall_app. split; [|split].
  - induction (frames c) as [|f fs IH]; simpl; constructor; [by destruct f|done].
  - by destruct (mp_pending_exception (vm c)); repeat constructor.
  - induction (Z.to_nat (sched_len (vm c))) as [|n IH]; simpl; [constructor|]. by repeat constructor.
Qed.

Lemma spec_events_app es1 es2 a os1 a1 os2 a2 : spec_events es1 a = Some (os1, a1) -> spec_events es2 a1 = Some (os2, a2) ->
  spec_events (es1 ++ es2) a = Some (os1 ++ os2, a2).
Proof.
  revert a os1. induction es1 as [|e es1 IH]; intros a os1; simpl; [by intros [= <- <-]|].
  destruct (spec_event e a) as [[o a']|]; simpl; [|done]. destruct (spec_events es1 a') as [[os a'']|] eqn:E; simpl; [|done].
  intros [= <- <-] H2. by rewrite (IH _ _ E H2).
Qed.

Lemma close_frames a : nested (running a) -> exists os, spec_events (map close_frame (running a)) a = Some (os, MkSpec (pending a) (exc a) [])
  /\ called os = [].
Proof.
  destruct a as [q x fs]. simpl. induction 1 as [|i|fs _ (os & Hr & Hc)]; simpl; [by exists []|by exists [Quiet]|].
  rewrite Hr. simpl. by exists (Quiet :: os).
Qed.

Lemma call_all q : exists os, spec_events (concat (repeat [HandlePending; Finish] (length q))) (MkSpec q None []) = Some (os, spec_init)
  /\ called os = q.
Proof.
  induction q as [|i q (os & Hr & Hc)]; simpl; [by exists []|]. rewrite Hr. simpl.
  exists (Called i :: Quiet :: os). split; [done|]. by rewrite called_cons, (called_cons Quiet), Hc.
Qed.

Lemma drain_ok c a : represents c a -> exists os, spec_events (drain c) a = Some (os, spec_init) /\ called os = pending a.
Proof.
  intros H. unfold drain. rewrite (rp_frames _ _ H), (rp_exc _ _ H), (rp_len _ _ H), Nat2Z.id.
  destruct (close_frames a (rp_calls _ _ H)) as (os1 & H1 & C1). destruct (call_all (pending a)) as (os3 & H3 & C3).
  assert (H2 : exists os2, spec_events (repeat HandlePending (exc_count (exc a))) (MkSpec (pending a) (exc a) [])
    = Some (os2, MkSpec (pending a) None []) /\ called os2 = []).
  { destruct (exc a) as [obj|]; simpl; [by exists [Raised obj]|by exists []]. }
  destruct H2 as (os2 & H2 & C2). eexists. split; [eapply spec_events_app; [done|]; eapply spec_events_app; done|].
  by rewrite !called_app, C1, C2, C3.
Qed.

Lemma reachable_ok es os c : locks_fit es machine_init -> run_events es machine_init = Some (os, c) ->
  exists a, represents c a /\ spec_events es spec_init = Some (os, a) /\ accepted es os = called os ++ pending a.
Proof.
  intros Hl Hr. pose proof (events_ok es machine_init spec_init represents_init Hl) as H.
  destruct (spec_events es spec_init) as [[os' a]|] eqn:E; [|congruence]. destruct H as (c' & Hr' & Ha). rewrite Hr in Hr'. simplify_eq.
  exists a. split; [done|]. split; [done|]. by apply (events_history es spec_init).
Qed.

(** ** The properties *)

(** C14 The scheduler is a queue of at most eight callbacks, whatever interrupts and the
    interpreter do in whatever order, while locks nest less than [2^15] deep: every
    event has the outcome that it has for the queue.  So the callbacks that were
    accepted are those that were called, in the same order, and then those that wait:
    none is lost, doubled or overtaken.  A callback only runs when no other callback
    runs and nothing is locked, and whenever nothing is open, the state is
    [MP_SCHED_PENDING] exactly if there is something to do. *)
Theorem scheduler_fifo es os c : locks_fit es machine_init -> run_events es machine_init = Some (os, c) ->
  exists q, accepted es os = called os ++ q
  /\ spec_events es spec_init = Some (os, MkSpec q (mp_pending_exception (vm c)) (frames c))
  /\ sched_len (vm c) = Z.of_nat (length q) /\ (length q <= 8)%nat
  /\ nested (frames c)
  /\ (frames c = [] -> (sched_state (vm c) = MP_SCHED_PENDING <-> q <> [] \/ mp_pending_exception (vm c) <> None)
                       /\ (sched_state (vm c) = MP_SCHED_IDLE <-> q = [] /\ mp_pending_exception (vm c) = None))
  /\ (frames c <> [] -> sched_state (vm c) = - Z.of_nat (length (frames c))).
Proof.
  intros Hl Hr. destruct (reachable_ok es os c Hl Hr) as (a & Ha & Hs & Hh). pose proof Ha as [Hf Hn Hc He Hst Hlen Hd _ _ _].
  exists (pending a). split; [done|]. split; [rewrite Hs, He, Hf; by destruct a|]. do 2 (split; [done|]). rewrite Hf, Hst, He. split; [done|]. split.
  - intros Er. rewrite (state_of_idle a Er). destruct (exc a), (pending a); simpl; unfold MP_SCHED_IDLE, MP_SCHED_PENDING;
      split; split; intros; try (done || lia); intuition congruence.
  - destruct (running a) as [|f fs] eqn:Er; [done|]. intros _. by rewrite (state_of_frames a f fs Er).
Qed.

(** C15 Every callback runs.  In any state that can be reached, the callback with [p] others
    before it has been called once the interpreter has handled what is pending, with no
    frame open, more often than [p] plus the number of keyboard interrupts since, plus
    one if one is pending.  And the interpreter can always do so: from any such state,
    ending the open frames and then handling what is pending calls all callbacks in
    their order and leaves the scheduler idle. *)
Theorem scheduler_liveness es0 os0 c q : locks_fit es0 machine_init -> run_events es0 machine_init = Some (os0, c) ->
  accepted es0 os0 = called os0 ++ q ->
  (forall es os c' p i, locks_fit es c -> run_events es c = Some (os, c') -> q !! p = Some i ->
     (p + interrupts es + exc_count (mp_pending_exception (vm c)) < free_handles es c)%nat -> called os !! p = Some i)
  /\ exists os c', run_events (drain c) c = Some (os, c') /\ called os = q /\ frames c' = []
     /\ sched_state (vm c') = MP_SCHED_IDLE.
Proof.
  intros Hl0 Hr0 Hq. destruct (reachable_ok es0 os0 c Hl0 Hr0) as (a & Ha & _ & Hh). rewrite Hh in Hq.
  apply app_inv_head in Hq as <-. split.
  - intros es os c' p i Hl Hr Hp Hn. rewrite (rp_exc _ _ Ha) in Hn.
    pose proof (events_progress es c a os c' Ha Hl Hr) as Hpr. pose proof (events_ok es c a Ha Hl) as He.
    destruct (spec_events es a) as [[os' a']|] eqn:E; [|congruence]. destruct He as (c'' & Hr' & _). rewrite Hr in Hr'. simplify_eq.
    pose proof (events_history _ _ _ _ E) as Hhist. pose proof (lookup_lt_Some _ _ _ Hp).
    assert (Hlt : (p < length (called os'))%nat) by lia.
    rewrite <- (lookup_app_l (called os') (pending a')) by done. rewrite <- Hhist. by apply lookup_app_l_Some.
  - destruct (drain_ok c a Ha) as (os & Hs & Hcall). pose proof (events_ok (drain c) c a Ha (no_locks_fit _ _ (drain_no_locks c))) as He.
    rewrite Hs in He. destruct He as (c' & Hr & Hc'). exists os, c'. split; [done|]. split; [done|].
    split; [apply (rp_frames _ _ Hc')|]. by rewrite (rp_state _ _ Hc').
Qed.
End Machine.

(** ** Witnesses

    Numbers as objects; an interrupt schedules a callback while another one runs, and the
    user interrupts. *)
Definition demo_events : list (@event nat) :=
  [Schedule 1 10; HandlePending; Schedule 2 20; Schedule 3 30; HandlePending; Keyboard; Finish]%nat.

Lemma scheduler_fifo_witness :
  exists os c q, run_events 99%nat demo_events machine_init = Some (os, c) /\ accepted demo_events os = called os ++ q
    /\ q = [MkItem 2 20; MkItem 3 30]%nat /\ nested (frames c).
Proof.
  assert (Hl : locks_fit 99%nat demo_events machine_init) by (apply no_locks_fit; repeat constructor; done).
  destruct (run_events 99%nat demo_events machine_init) as [[os c]|] eqn:E; [|vm_compute in E; done].
  destruct (scheduler_fifo 99%nat demo_events os c Hl E) as (q & Hq & _ & _ & _ & Hn & _).
  exists os, c, q. split; [done|]. split; [done|]. split; [|done].
  vm_compute in E. injection E as <- <-. vm_compute in Hq. by injection Hq as <-.
Defined.

Lemma scheduler_liveness_witness :
  exists os0 c os c', run_events 99%nat demo_events machine_init = Some (os0, c)
    /\ run_events 99%nat (drain c) c = Some (os, c') /\ called os = [MkItem 2 20; MkItem 3 30]%nat
    /\ sched_state (vm c') = MP_SCHED_IDLE.
Proof.
  assert (Hl : locks_fit 99%nat demo_events machine_init) by (apply no_locks_fit; repeat constructor; done).
  destruct (run_events 99%nat demo_events machine_init) as [[os0 c]|] eqn:E; [|vm_compute in E; done].
  destruct (scheduler_liveness 99%nat demo_events os0 c [MkItem 2 20; MkItem 3 30]%nat Hl E) as (_ & os & c' & Hr & Hc & _ & Hst).
  - vm_compute in E. injection E as <- <-. vm_compute. reflexivity.
  - exists os0, c, os, c'. repeat split; done.
Defined.
