(* ===== verification/TimeUtils.v ===== *)
(** Dates and seconds, [lib/timeutils/timeutils.c].

    [mp_int_t] and [mp_uint_t] have 32 bits: unsigned arithmetic wraps, an unsigned
    value becomes a signed one by [swrap], a mixed operation is unsigned, and a
    signed operation that leaves its range is undefined ([None]).  Division and
    remainder are those of C, [Z.quot] and [Z.rem]. *)
From Stdlib Require Import ZifyBool.
From S2P Require Import Prelude.

Definition u32 (z : Z) : Z := wrap 32 z.
Definition i32 (z : Z) : Z := swrap 32 z.
(** A signed result. *)
Definition sint (z : Z) : option Z := if (- 2 ^ 31 <=? z) && (z <? 2 ^ 31) then Some z else None.

(** 2000-03-01; the time base is 2000-01-01. *)
Definition LEAPOCH : Z := (31 + 29) * 86400.
Definition DAYS_PER_400Y : Z := 365 * 400 + 97.
Definition DAYS_PER_100Y : Z := 365 * 100 + 24.
Definition DAYS_PER_4Y : Z := 365 * 4 + 1.

Definition days_since_jan1 : list Z := [0; 31; 59; 90; 120; 151; 181; 212; 243; 273; 304; 334; 365].

Definition timeutils_is_leap_year (year : Z) : bool :=
  (year mod 4 =? 0) && negb (year mod 100 =? 0) || (year mod 400 =? 0).

Definition array_at (a : list Z) (i : Z) : option Z := if i <? 0 then None else a !! Z.to_nat i.

Definition timeutils_days_in_month (year month : Z) : option Z :=
  b ← array_at days_since_jan1 month;
  a ← array_at days_since_jan1 (u32 (month - 1));
  let mdays := u32 (b - a) in
  Some (if (month =? 2) && timeutils_is_leap_year year then u32 (mdays + 1) else mdays).

Definition timeutils_year_day (year month date : Z) : option Z :=
  a ← array_at days_since_jan1 (u32 (month - 1));
  let yday := u32 (a + date) in
  Some (if (3 <=? month) && timeutils_is_leap_year year then u32 (yday + 1) else yday).

Record timeutils_struct_time_t := MkTime {
  tm_year : Z; tm_mon : Z; tm_mday : Z; tm_hour : Z; tm_min : Z; tm_sec : Z; tm_wday : Z; tm_yday : Z }.

(** [days_in_month[0]] is March. *)
Definition days_in_month : list Z := [31; 30; 31; 30; 31; 31; 30; 31; 30; 31; 31; 29].

(** [for (month = 0; days_in_month[month] <= days; month++)] *)
Fixpoint find_month (fuel : nat) (month days : Z) : option (Z * Z) :=
  match fuel with
  | O => None
  | S fuel =>
      m ← array_at days_in_month month;
      if m <=? days then find_month fuel (month + 1) (days - m) else Some (month, days)
  end.

(** A quotient that is corrected when the last period is the long one. *)
Definition cycles (days per limit : Z) : Z * Z :=
  let c := days ÷ per in
  let c := if c =? limit then c - 1 else c in
  (c, days - c * per).

(** The fields are unsigned with 16 and 8 bits. *)
Definition timeutils_seconds_since_2000_to_struct_time (t : Z) : option timeutils_struct_time_t :=
  let seconds := i32 (u32 (t - LEAPOCH)) in
  let days := seconds ÷ 86400 in
  let seconds := Z.rem seconds 86400 in
  let '(seconds, days) := if seconds <? 0 then (seconds + 86400, days - 1) else (seconds, days) in
  let hour := seconds ÷ 3600 in
  let min := Z.rem (seconds ÷ 60) 60 in
  let sec := Z.rem seconds 60 in
  let wday := Z.rem (days + 2) 7 in
  let wday := if wday <? 0 then wday + 7 else wday in
  let qc_cycles := days ÷ DAYS_PER_400Y in
  let days := Z.rem days DAYS_PER_400Y in
  let '(days, qc_cycles) := if days <? 0 then (days + DAYS_PER_400Y, qc_cycles - 1) else (days, qc_cycles) in
  let '(c_cycles, days) := cycles days DAYS_PER_100Y 4 in
  let '(q_cycles, days) := cycles days DAYS_PER_4Y 25 in
  let '(years, days) := cycles days 365 4 in
  let year := 2000 + years + 4 * q_cycles + 100 * c_cycles + 400 * qc_cycles in
  '(month, days) ← find_month 12 0 days;
  let mon := month + 2 in
  let '(mon, year) := if 12 <=? mon then (mon - 12, year + 1) else (mon, year) in
  let year := wrap 16 year in
  let mday := wrap 8 (days + 1) in
  let mon := wrap 8 (mon + 1) in
  yday ← timeutils_year_day year mon mday;
  Some (MkTime year mon mday (wrap 8 hour) (wrap 8 min) (wrap 8 sec) (wrap 8 wday) (wrap 16 yday)).

Definition timeutils_seconds_since_2000 (year month date hour minute second : Z) : option Z :=
  yday ← timeutils_year_day year month date;
  Some (u32 (second + minute * 60 + hour * 3600
    + (yday - 1 + u32 (year - 2000 + 3) / 4 - u32 (year - 2000 + 99) / 100 + u32 (year - 2000 + 399) / 400) * 86400
    + (year - 2000) * 31536000)).

(** A pair of fields is normalised: [low] is brought into [0, per), the rest goes to [high]. *)
Definition carry (per low high : Z) : option (Z * Z) :=
  high ← sint (high + low ÷ per);
  let low := Z.rem low per in
  if low <? 0 then high ← sint (high - 1); Some (low + per, high) else Some (low, high).

(** [while (mday < 1)]: each turn adds at least 28 days. *)
Fixpoint borrow_months (fuel : nat) (year month mday : Z) : option (Z * Z * Z) :=
  if mday <? 1 then
    match fuel with
    | O => None
    | S fuel =>
        let '(year, month) := if month - 1 =? 0 then (u32 (year - 1), 12) else (year, month - 1) in
        d ← timeutils_days_in_month year month;
        borrow_months fuel year month (i32 (u32 (mday + d)))
    end
  else Some (year, month, mday).

Fixpoint carry_months (fuel : nat) (year month mday : Z) : option (Z * Z * Z) :=
  d ← timeutils_days_in_month year month;
  if d <? u32 mday then
    match fuel with
    | O => None
    | S fuel =>
        let '(year', month') := if month + 1 =? 13 then (u32 (year + 1), 1) else (year, month + 1) in
        carry_months fuel year' month' (i32 (u32 (mday - d)))
    end
  else Some (year, month, mday).

Definition mktime_fuel (mday : Z) : nat := Z.to_nat (Z.abs mday / 28 + 1).

Definition timeutils_mktime (year month mday hours minutes seconds : Z) : option Z :=
  '(seconds, minutes) ← carry 60 seconds minutes;
  '(minutes, hours) ← carry 60 minutes hours;
  '(hours, mday) ← carry 24 hours mday;
  month ← sint (month - 1);
  let year := u32 (year + month ÷ 12) in
  let month := Z.rem month 12 in
  let '(month, year) := if month <? 0 then (month + 12, u32 (year - 1)) else (month, year) in
  let month := month + 1 in
  '(year, month, mday) ← borrow_months (mktime_fuel mday) year month mday;
  '(year, month, mday) ← carry_months (mktime_fuel mday) year month mday;
  timeutils_seconds_since_2000 year month mday hours minutes seconds.

(** Dates and seconds: the calendar of the C code is the Gregorian one. *)

(** ** The calendar

    Days are counted from 2000-01-01. *)
Definition is_leap (y : Z) : bool := timeutils_is_leap_year y.
Definition days_before_year (y : Z) : Z :=
  (y - 2000) * 365 + (y - 2000 + 3) / 4 - (y - 2000 + 99) / 100 + (y - 2000 + 399) / 400.
Definition days_before_month (y m : Z) : Z :=
  nth (Z.to_nat (m - 1)) days_since_jan1 0 + if (3 <=? m) && is_leap y then 1 else 0.
Definition days_of_month (y m : Z) : Z := days_before_month y (m + 1) - days_before_month y m.
Definition day_number (y m d : Z) : Z := days_before_year y + days_before_month y m + d - 1.

Definition valid_date (y m d : Z) : Prop := 1 <= m <= 12 /\ 1 <= d <= days_of_month y m.

Lemma div_up n k : 0 < k -> (n + k - 1) / k = n / k + (if n mod k =? 0 then 0 else 1).
Proof.
  intros Hk. pose proof (Z.div_mod n k ltac:(lia)) as E. pose proof (Z.mod_pos_bound n k Hk).
  destruct (Z.eqb_spec (n mod k) 0).
  - symmetry. apply Z.div_unique_pos with (r := k - 1); lia.
  - symmetry. apply Z.div_unique_pos with (r := n mod k - 1); lia.
Qed.

Definition leaps (z : Z) : Z := z / 4 - z / 100 + z / 400.

Lemma is_leap_count y : (if is_leap y then 1 else 0)
  = (if (y - 2000) mod 4 =? 0 then 1 else 0) - (if (y - 2000) mod 100 =? 0 then 1 else 0) + (if (y - 2000) mod 400 =? 0 then 1 else 0).
Proof.
  unfold is_leap, timeutils_is_leap_year.
  pose proof (Z.div_mod y 4 ltac:(lia)). pose proof (Z.div_mod y 100 ltac:(lia)). pose proof (Z.div_mod y 400 ltac:(lia)).
  pose proof (Z.div_mod (y - 2000) 4 ltac:(lia)). pose proof (Z.div_mod (y - 2000) 100 ltac:(lia)). pose proof (Z.div_mod (y - 2000) 400 ltac:(lia)).
  pose proof (Z.mod_pos_bound y 4 ltac:(lia)). pose proof (Z.mod_pos_bound y 100 ltac:(lia)). pose proof (Z.mod_pos_bound y 400 ltac:(lia)).
  pose proof (Z.mod_pos_bound (y - 2000) 4 ltac:(lia)). pose proof (Z.mod_pos_bound (y - 2000) 100 ltac:(lia)). pose proof (Z.mod_pos_bound (y - 2000) 400 ltac:(lia)).
  assert ((y - 2000) mod 4 = y mod 4) as -> by lia. assert ((y - 2000) mod 100 = y mod 100) as -> by lia.
  assert ((y - 2000) mod 400 = y mod 400) as -> by lia.
  destruct (Z.eqb_spec (y mod 4) 0), (Z.eqb_spec (y mod 100) 0), (Z.eqb_spec (y mod 400) 0); simpl; lia.
Qed.

(** The days before the first of March. *)
Lemma days_before_year_leap y : days_before_year y + (if is_leap y then 1 else 0) = (y - 2000) * 365 + leaps (y - 2000) + 1.
Proof.
  unfold days_before_year, leaps. rewrite is_leap_count.
  replace (y - 2000 + 3) with (y - 2000 + 4 - 1) by lia. replace (y - 2000 + 99) with (y - 2000 + 100 - 1) by lia.
  replace (y - 2000 + 399) with (y - 2000 + 400 - 1) by lia. rewrite !div_up by lia.
  destruct (_ mod 4 =? 0), (_ mod 100 =? 0), (_ mod 400 =? 0); lia.
Qed.

Lemma days_before_next_year y : days_before_year (y + 1) = days_before_year y + 365 + if is_leap y then 1 else 0.
Proof.
  pose proof (days_before_year_leap y). unfold days_before_year, leaps in *.
  replace (y + 1 - 2000 + 3) with (y - 2000 + 1 * 4) by lia. replace (y + 1 - 2000 + 99) with (y - 2000 + 1 * 100) by lia.
  replace (y + 1 - 2000 + 399) with (y - 2000 + 1 * 400) by lia. rewrite !Z.div_add by lia. lia.
Qed.

Lemma days_before_year_mono y1 y2 : y1 <= y2 -> days_before_year y1 + 365 * (y2 - y1) <= days_before_year y2.
Proof.
  intros H. replace y2 with (y1 + (y2 - y1)) by lia. assert (Hk : 0 <= y2 - y1) by lia. revert Hk. generalize (y2 - y1). clear.
  apply natlike_ind; [rewrite Z.add_0_r; lia|]. intros k Hk IH. replace (y1 + Z.succ k) with (y1 + k + 1) by lia.
  rewrite days_before_next_year. destruct (is_leap _); lia.
Qed.

(** Months, case by case. *)
Ltac months m := assert (m = 1 \/ m = 2 \/ m = 3 \/ m = 4 \/ m = 5 \/ m = 6 \/ m = 7 \/ m = 8 \/ m = 9 \/ m = 10 \/ m = 11 \/ m = 12)
  as [->|[->|[->|[->|[->|[->|[->|[->|[->|[->|[->| ->]]]]]]]]]]] by lia.

Lemma days_of_month_bound y m : 1 <= m <= 12 -> 28 <= days_of_month y m <= 31.
Proof. intros Hm. unfold days_of_month, days_before_month. months m; simpl; destruct (is_leap y); simpl; lia. Qed.

Lemma year_length y : days_before_month y 13 = 365 + if is_leap y then 1 else 0.
Proof. unfold days_before_month. simpl. by destruct (is_leap y). Qed.

Lemma days_before_month_next y m : days_before_month y (m + 1) = days_before_month y m + days_of_month y m.
Proof. unfold days_of_month. lia. Qed.

Lemma days_before_month_bound y m : 1 <= m <= 12 -> 0 <= days_before_month y m /\ days_before_month y m + days_of_month y m <= days_before_month y 13.
Proof. intros Hm. unfold days_of_month, days_before_month. months m; simpl; destruct (is_leap y); simpl; lia. Qed.

(** A date lies in its year. *)
Lemma day_number_year y m d : valid_date y m d -> days_before_year y <= day_number y m d < days_before_year (y + 1).
Proof.
  intros [Hm Hd]. pose proof (days_before_month_bound y m Hm). pose proof (year_length y). rewrite days_before_next_year. unfold day_number. lia.
Qed.

(** ** The C functions *)

Lemma u32_id z : 0 <= z < 2 ^ 32 -> u32 z = z.
Proof. intros. unfold u32. rewrite wrap_id; lia. Qed.

Lemma i32_id z : - 2 ^ 31 <= z < 2 ^ 31 -> i32 z = z.
Proof. intros. unfold i32. rewrite swrap_id; lia. Qed.

(** Wrap-arounds without effect, the inner ones first. *)
Ltac u32s := repeat match goal with
  | |- context [u32 ?z] => lazymatch z with context [u32 _] => fail | _ => rewrite (u32_id z) by lia end
  end.

Lemma year_day_spec y m d : 1 <= m <= 12 -> 0 <= d < 2 ^ 31 -> timeutils_year_day y m d = Some (days_before_month y m + d).
Proof.
  intros Hm Hd. unfold timeutils_year_day, days_before_month, array_at, is_leap. u32s.
  months m; simpl; u32s; try (by f_equal; lia); destruct (timeutils_is_leap_year y); u32s; f_equal; lia.
Qed.

Lemma days_in_month_spec y m : 1 <= m <= 12 -> timeutils_days_in_month y m = Some (days_of_month y m).
Proof.
  intros Hm. unfold timeutils_days_in_month, days_of_month, days_before_month, array_at, is_leap. u32s.
  months m; simpl; u32s; try (by f_equal; lia); destruct (timeutils_is_leap_year y); simpl; u32s; f_equal; lia.
Qed.

(** The seconds of a date and a time. *)
Definition seconds_of (y m d h mi s : Z) : Z := day_number y m d * 86400 + h * 3600 + mi * 60 + s.

Lemma seconds_since_2000_spec y m d h mi s : 2000 <= y < 2 ^ 31 -> 1 <= m <= 12 -> 0 <= d < 2 ^ 31 ->
  timeutils_seconds_since_2000 y m d h mi s = Some (u32 (seconds_of y m d h mi s)).
Proof.
  intros Hy Hm Hd. unfold timeutils_seconds_since_2000. rewrite year_day_spec by done. simpl. do 2 f_equal.
  unfold seconds_of, day_number, days_before_year. rewrite !u32_id by lia. lia.
Qed.

(** ** From seconds to a date *)

Lemma cycles_spec days per limit : 0 < per -> 0 < limit -> 0 <= days <= limit * per ->
  exists c r, cycles days per limit = (c, r) /\ 0 <= c < limit /\ days = c * per + r /\ 0 <= r <= per /\ (r = per -> c = limit - 1).
Proof.
  intros Hp Hl Hd. unfold cycles. rewrite Z.quot_div_nonneg by lia.
  pose proof (Z.div_mod days per ltac:(lia)). pose proof (Z.mod_pos_bound days per Hp).
  assert (0 <= days / per) by (apply Z.div_pos; lia).
  destruct (Z.eqb_spec (days / per) limit) as [E|E]; eexists _, _; (split; [reflexivity|]); nia.
Qed.

(** The days of the months before a month of the year that starts in March. *)
Definition march_days (month : Z) : Z := nth (Z.to_nat month) [0; 31; 61; 92; 122; 153; 184; 214; 245; 275; 306; 337] 0.

Lemma find_month_spec days : 0 <= days <= 365 -> exists month d, find_month 12 0 days = Some (month, d)
  /\ 0 <= month < 12 /\ days = march_days month + d /\ 0 <= d < nth (Z.to_nat month) days_in_month 0.
Proof.
  intros Hd. unfold find_month, array_at, days_in_month. simpl.
  repeat match goal with |- context [if ?a <=? ?b then _ else _] => destruct (Z.leb_spec a b) end.
  all: try (eexists _, _; split; [reflexivity|]; unfold march_days; simpl; lia).
  exfalso. lia.
Qed.

(** The date of the day [days] of the year that starts in March [year]. *)
Lemma march_date year days : 0 <= days <= 365 -> (days = 365 -> is_leap (year + 1) = true) ->
  exists month d, find_month 12 0 days = Some (month, d) /\ 0 <= month < 12 /\ 0 <= d < 31
  /\ let '(m, y) := if 12 <=? month + 2 then (month + 2 - 12, year + 1) else (month + 2, year) in
     valid_date y (m + 1) (d + 1) /\ day_number y (m + 1) (d + 1) = (year - 2000) * 365 + leaps (year - 2000) + 60 + days.
Proof.
  intros Hd Hl. destruct (find_month_spec days Hd) as (month & d & Hf & Hm & Hdays & Hb). exists month, d.
  split; [done|]. split; [done|]. pose proof (days_before_year_leap year) as Hy. pose proof (days_before_next_year year) as Hn.
  unfold valid_date, day_number, days_of_month, days_before_month, march_days in *.
  assert (month = 0 \/ month = 1 \/ month = 2 \/ month = 3 \/ month = 4 \/ month = 5 \/ month = 6 \/ month = 7 \/ month = 8
    \/ month = 9 \/ month = 10 \/ month = 11) as H by lia.
  destruct H as [->|[->|[->|[->|[->|[->|[->|[->|[->|[->|[->| ->]]]]]]]]]]]; simpl in *; try (destruct (is_leap year); lia).
Qed.

Definition fits_time (tm : timeutils_struct_time_t) : Prop :=
  valid_date (tm_year tm) (tm_mon tm) (tm_mday tm) /\ 2000 <= tm_year tm /\ 0 <= tm_hour tm < 24 /\ 0 <= tm_min tm < 60 /\ 0 <= tm_sec tm < 60.
Definition seconds_of_time (tm : timeutils_struct_time_t) : Z :=
  seconds_of (tm_year tm) (tm_mon tm) (tm_mday tm) (tm_hour tm) (tm_min tm) (tm_sec tm).

(** The cycles of 400, 100 and 4 years and the year, for a day of the calendar that starts
    on 2000-03-01. *)
Lemma year_of_day days : 0 <= days < DAYS_PER_400Y ->
  exists c q y r d1 d0, cycles days DAYS_PER_100Y 4 = (c, d1) /\ cycles d1 DAYS_PER_4Y 25 = (q, d0) /\ cycles d0 365 4 = (y, r)
  /\ 0 <= c < 4 /\ 0 <= q < 25 /\ 0 <= y < 4 /\ 0 <= r <= 365
  /\ days = (y + 4 * q + 100 * c) * 365 + leaps (y + 4 * q + 100 * c) + r
  /\ (r = 365 -> forall qc, is_leap (2000 + y + 4 * q + 100 * c + 400 * qc + 1) = true).
Proof.
  unfold DAYS_PER_400Y, DAYS_PER_100Y, DAYS_PER_4Y. intros Hd.
  destruct (cycles_spec days (365 * 100 + 24) 4) as (c & d1 & E1 & Hc & H1 & Hd1 & Hc3); [lia..|].
  destruct (cycles_spec d1 (365 * 4 + 1) 25) as (q & d0 & E2 & Hq & H2 & Hd0 & Hq24); [lia..|].
  destruct (cycles_spec d0 365 4) as (y & r & E3 & Hy & H3 & Hr & Hy3); [lia..|].
  exists c, q, y, r, d1, d0. do 7 (split; [done|]). split.
  - unfold leaps.
    replace ((y + 4 * q + 100 * c) / 100) with c by (apply (Z.div_unique_pos _ _ _ (y + 4 * q)); lia).
    replace ((y + 4 * q + 100 * c) / 400) with 0 by (apply (Z.div_unique_pos _ _ _ (y + 4 * q + 100 * c)); lia).
    replace ((y + 4 * q + 100 * c) / 4) with (q + 25 * c) by (apply (Z.div_unique_pos _ _ _ y); lia). lia.
  - intros E qc. specialize (Hy3 E). subst y r. assert (H24 : q < 24 \/ c = 3) by lia. unfold is_leap, timeutils_is_leap_year.
    replace ((2000 + (4 - 1) + 4 * q + 100 * c + 400 * qc + 1) mod 4) with 0
      by (apply (Z.mod_unique_pos _ _ (501 + q + 25 * c + 100 * qc)); lia). simpl.
    destruct (decide (q < 24)).
    + rewrite <- (Z.mod_unique_pos (2000 + (4 - 1) + 4 * q + 100 * c + 400 * qc + 1) 100 (20 + c + 4 * qc) (4 + 4 * q)) by lia.
      replace (4 + 4 * q =? 0) with false by lia. done.
    + rewrite <- (Z.mod_unique_pos (2000 + (4 - 1) + 4 * q + 100 * c + 400 * qc + 1) 400 (6 + qc) 0) by lia. apply orb_true_r.
Qed.

Lemma leaps_400 z qc : leaps (z + 400 * qc) = leaps z + 97 * qc.
Proof.
  unfold leaps. replace (z + 400 * qc) with (z + (100 * qc) * 4) at 1 by lia. rewrite Z.div_add by lia.
  replace (z + 400 * qc) with (z + (4 * qc) * 100) at 1 by lia. rewrite Z.div_add by lia.
  rewrite (Z.mul_comm 400), Z.div_add by lia. lia.
Qed.

(** Floor division as the C code does it. *)
Lemma quot_floor z per : 0 < per ->
  (if Z.rem z per <? 0 then (Z.rem z per + per, z ÷ per - 1) else (Z.rem z per, z ÷ per)) = (z mod per, z / per).
Proof.
  intros Hp. pose proof (Z.quot_rem' z per) as E. pose proof (Z.rem_bound_abs z per ltac:(lia)) as Hb.
  destruct (Z.ltb_spec (Z.rem z per) 0) as [Hn|Hn]; f_equal.
  - apply (Z.mod_unique_pos _ _ (z ÷ per - 1)); lia.
  - apply (Z.div_unique_pos _ _ _ (Z.rem z per + per)); lia.
  - apply (Z.mod_unique_pos _ _ (z ÷ per)); lia.
  - apply (Z.div_unique_pos _ _ _ (Z.rem z per)); lia.
Qed.

Lemma rem_floor z per : 0 < per -> (if Z.rem z per <? 0 then Z.rem z per + per else Z.rem z per) = z mod per.
Proof. intros Hp. pose proof (quot_floor z per Hp). destruct (_ <? 0); congruence. Qed.

Lemma struct_time_spec t : 0 <= t < 2 ^ 31 + LEAPOCH ->
  exists tm, timeutils_seconds_since_2000_to_struct_time t = Some tm /\ fits_time tm /\ seconds_of_time tm = t
  /\ tm_wday tm = (t / 86400 + 5) mod 7 /\ tm_yday tm = days_before_month (tm_year tm) (tm_mon tm) + tm_mday tm.
Proof.
  intros Ht. unfold timeutils_seconds_since_2000_to_struct_time.
  assert (Es : i32 (u32 (t - LEAPOCH)) = t - LEAPOCH) by (unfold i32, u32; rewrite swrap_wrap by lia; apply swrap_id; unfold LEAPOCH in *; lia).
  rewrite Es. cbv zeta. rewrite quot_floor by lia. set (z := t - LEAPOCH) in *. set (s := z mod 86400). set (n := z / 86400).
  pose proof (Z.mod_pos_bound z 86400 ltac:(lia)) as Hs. fold s in Hs. pose proof (Z.div_mod z 86400 ltac:(lia)) as Ez. fold s n in Ez.
  rewrite rem_floor by lia. rewrite quot_floor by (unfold DAYS_PER_400Y; lia). set (qc := n / DAYS_PER_400Y).
  pose proof (Z.mod_pos_bound n DAYS_PER_400Y ltac:(unfold DAYS_PER_400Y; lia)) as Hd.
  pose proof (Z.div_mod n DAYS_PER_400Y ltac:(unfold DAYS_PER_400Y; lia)) as En. fold qc in En.
  destruct (year_of_day _ Hd) as (c & q & y & r & d1 & d0 & -> & -> & -> & Hc & Hq & Hy & Hr & Hdays & Hleap).
  set (year := 2000 + y + 4 * q + 100 * c + 400 * qc) in *.
  destruct (march_date year r Hr (fun E => Hleap E qc)) as (month & d & -> & Hm & Hdd & Hv). simpl.
  set (ym := if 12 <=? month + 2 then (month + 2 - 12, year + 1) else (month + 2, year)) in *. destruct ym as [m y']. destruct Hv as [Hv Hn].
  assert (Hday : day_number y' (m + 1) (d + 1) = n + 60).
  { rewrite Hn. unfold year. replace (2000 + y + 4 * q + 100 * c + 400 * qc - 2000) with (y + 4 * q + 100 * c + 400 * qc) by lia.
    rewrite leaps_400. rewrite Hdays in En. unfold DAYS_PER_400Y in En at 1. lia. }
  unfold LEAPOCH in *. pose proof (day_number_year _ _ _ Hv) as Hyr. rewrite Hday in Hyr.
  assert (Hy1 : 2000 <= y').
  { destruct (Z.le_gt_cases 2000 y') as [|Hlt]; [done|]. pose proof (days_before_year_mono (y' + 1) 2000 ltac:(lia)) as Hmono.
    change (days_before_year 2000) with 0 in Hmono. lia. }
  assert (Hy2 : y' < 2069).
  { destruct (Z.le_gt_cases 2069 y') as [Hge|]; [|done]. pose proof (days_before_year_mono 2069 y' Hge) as Hmono.
    change (days_before_year 2069) with 25203 in Hmono. lia. }
  pose proof Hv as [Hm1 Hd1]. pose proof (days_of_month_bound y' (m + 1) Hm1).
  assert (0 <= s / 60) by (apply Z.div_pos; lia). rewrite !Z.quot_div_nonneg by lia. rewrite !Z.rem_mod_nonneg by lia.
  pose proof (Z.div_mod s 3600 ltac:(lia)). pose proof (Z.mod_pos_bound s 3600 ltac:(lia)).
  pose proof (Z.div_mod s 60 ltac:(lia)). pose proof (Z.mod_pos_bound s 60 ltac:(lia)).
  pose proof (Z.div_mod (s / 60) 60 ltac:(lia)). pose proof (Z.mod_pos_bound (s / 60) 60 ltac:(lia)).
  pose proof (Z.mod_pos_bound (n + 2) 7 ltac:(lia)).
  assert (Hhour : s / 60 / 60 = s / 3600) by (rewrite Z.div_div by lia; done). rewrite Hhour in *.
  rewrite !wrap_id by lia. rewrite year_day_spec by lia. simpl.
  pose proof (days_before_month_bound y' (m + 1) Hm1). pose proof (year_length y').
  eexists. split; [reflexivity|]. unfold fits_time, seconds_of_time, seconds_of. cbn [tm_year tm_mon tm_mday tm_hour tm_min tm_sec tm_wday tm_yday].
  split; [split; [done|]; lia|]. split; [rewrite Hday; lia|]. split.
  - replace t with (86400 * (n + 60) + s) by lia. rewrite <- (Z.div_unique_pos (86400 * (n + 60) + s) 86400 (n + 60) s) by lia.
    replace (n + 60 + 5) with (n + 2 + 9 * 7) by lia. by rewrite Z.mod_add.
  - rewrite wrap_id; [done|]. destruct (is_leap y'); lia.
Qed.

(** A day has one date. *)
Lemma days_before_month_mono y m m' : 1 <= m -> m < m' -> m' <= 12 -> days_before_month y m + days_of_month y m <= days_before_month y m'.
Proof.
  intros H1 H2 H3. unfold days_of_month, days_before_month. months m; months m'; simpl; try lia; destruct (is_leap y); simpl; lia.
Qed.

Lemma day_number_inj y m d y' m' d' : valid_date y m d -> valid_date y' m' d' -> day_number y m d = day_number y' m' d' ->
  y = y' /\ m = m' /\ d = d'.
Proof.
  intros Hv Hv' E. pose proof (day_number_year _ _ _ Hv). pose proof (day_number_year _ _ _ Hv').
  assert (y = y') as ->.
  { destruct (Z.lt_trichotomy y y') as [Hlt|[|Hlt]]; [|done|].
    - pose proof (days_before_year_mono (y + 1) y' ltac:(lia)). lia.
    - pose proof (days_before_year_mono (y' + 1) y ltac:(lia)). lia. }
  destruct Hv as [Hm Hd], Hv' as [Hm' Hd']. unfold day_number in E. assert (m = m') as ->; [|lia].
  destruct (Z.lt_trichotomy m m') as [Hlt|[|Hlt]]; [|done|].
  - pose proof (days_before_month_mono y' m m' ltac:(lia) Hlt ltac:(lia)). lia.
  - pose proof (days_before_month_mono y' m' m ltac:(lia) Hlt ltac:(lia)). lia.
Qed.

Lemma seconds_of_inj y m d h mi s y' m' d' h' mi' s' : valid_date y m d -> valid_date y' m' d' ->
  0 <= h < 24 -> 0 <= mi < 60 -> 0 <= s < 60 -> 0 <= h' < 24 -> 0 <= mi' < 60 -> 0 <= s' < 60 ->
  seconds_of y m d h mi s = seconds_of y' m' d' h' mi' s' -> y = y' /\ m = m' /\ d = d' /\ h = h' /\ mi = mi' /\ s = s'.
Proof.
  intros Hv Hv' ? ? ? ? ? ? E. unfold seconds_of in E.
  assert (Ed : day_number y m d = day_number y' m' d') by lia. destruct (day_number_inj _ _ _ _ _ _ Hv Hv' Ed) as (-> & -> & ->). lia.
Qed.

(** ** From a date to seconds *)

Lemma sint_id z : - 2 ^ 31 <= z < 2 ^ 31 -> sint z = Some z.
Proof. intros Hz. unfold sint. by replace ((- 2 ^ 31 <=? z) && (z <? 2 ^ 31)) with true by lia. Qed.

Lemma carry_spec per low high : 0 < per -> - 2 ^ 31 < high + low ÷ per < 2 ^ 31 ->
  carry per low high = Some (low mod per, high + low / per).
Proof.
  intros Hp Hb. unfold carry. pose proof (quot_floor low per Hp) as Hq. rewrite sint_id by lia. simpl.
  destruct (Z.rem low per <? 0); injection Hq as H1 H2; [rewrite sint_id by lia; simpl|]; rewrite <- H1, <- H2; do 2 f_equal; lia.
Qed.

Lemma quot_bound z per b : 0 < per -> - b <= z <= b -> - b <= z ÷ per <= b.
Proof.
  intros Hp Hz. pose proof (Z.quot_rem' z per). pose proof (Z.rem_bound_abs z per ltac:(lia)).
  destruct (Z.le_gt_cases 0 z).
  - rewrite Z.quot_div_nonneg by lia. pose proof (Z.div_pos z per). pose proof (Z.div_le_upper_bound z per b ltac:(lia)). nia.
  - pose proof (Z.quot_opp_l z per ltac:(lia)). rewrite (Z.quot_div_nonneg (- z)) in H2 by lia.
    pose proof (Z.div_pos (- z) per). pose proof (Z.div_le_upper_bound (- z) per b ltac:(lia)). nia.
Qed.

Lemma day_number_prev y m d : 1 < m -> day_number y (m - 1) (d + days_of_month y (m - 1)) = day_number y m d.
Proof. intros Hm. unfold day_number. pose proof (days_before_month_next y (m - 1)). replace (m - 1 + 1) with m in * by lia. lia. Qed.

Lemma day_number_prev_year y d : day_number (y - 1) 12 (d + days_of_month (y - 1) 12) = day_number y 1 d.
Proof.
  unfold day_number. pose proof (days_before_month_next (y - 1) 12) as H. change (12 + 1) with 13 in H. rewrite year_length in H.
  pose proof (days_before_next_year (y - 1)) as H2. replace (y - 1 + 1) with y in H2 by lia. change (days_before_month y 1) with 0. lia.
Qed.

Lemma borrow_months_spec fuel : forall year month mday, 1 <= month <= 12 -> - 2 ^ 31 <= mday < 2 ^ 31 -> 0 <= year < 2 ^ 31 ->
  1 - mday <= 28 * Z.of_nat fuel -> 0 <= day_number year month mday ->
  exists y m d, borrow_months fuel year month mday = Some (y, m, d) /\ 1 <= m <= 12 /\ 1 <= d < 2 ^ 31
    /\ 0 <= y <= year /\ day_number y m d = day_number year month mday /\ d <= Z.max 31 mday.
Proof.
  induction fuel as [|fuel IH]; intros year month mday Hm Hd Hy Hf Hn; cbn [borrow_months].
  { destruct (Z.ltb_spec mday 1); [lia|]. eexists _, _, _. split; [reflexivity|]. lia. }
  destruct (Z.ltb_spec mday 1) as [Hlt|Hge]; [|eexists _, _, _; split; [reflexivity|]; lia].
  assert (Hy1 : 1999 <= year).
  { destruct (Z.le_gt_cases 1999 year) as [|Hl]; [done|]. pose proof (days_before_year_mono year 1998 ltac:(lia)) as H.
    change (days_before_year 1998) with (-730) in H. pose proof (days_before_month_bound year month Hm). pose proof (year_length year).
    unfold day_number in Hn. pose proof (days_of_month_bound year month Hm). destruct (is_leap year); lia. }
  destruct (Z.eqb_spec (month - 1) 0) as [E|E].
  - assert (month = 1) as -> by lia. rewrite u32_id, days_in_month_spec by lia. simpl.
    pose proof (days_of_month_bound (year - 1) 12 ltac:(lia)). pose proof (day_number_prev_year year mday) as Hp.
    unfold i32, u32. rewrite swrap_wrap, swrap_id by lia.
    destruct (IH (year - 1) 12 (mday + days_of_month (year - 1) 12)) as (y & m & d & Hr & ?); [lia..|]. rewrite Hp in *.
    exists y, m, d. split; [exact Hr|]. lia.
  - rewrite days_in_month_spec by lia. simpl.
    pose proof (days_of_month_bound year (month - 1) ltac:(lia)). pose proof (day_number_prev year month mday ltac:(lia)) as Hp.
    unfold i32, u32. rewrite swrap_wrap, swrap_id by lia.
    destruct (IH year (month - 1) (mday + days_of_month year (month - 1))) as (y & m & d & Hr & ?); [lia..|]. rewrite Hp in *.
    exists y, m, d. split; [exact Hr|]. lia.
Qed.

Lemma carry_months_spec fuel : forall year month mday, 1 <= month <= 12 -> 1 <= mday < 2 ^ 31 -> 0 <= year < 2 ^ 31 - Z.of_nat fuel ->
  mday <= 28 * (Z.of_nat fuel + 1) ->
  exists y m d, carry_months fuel year month mday = Some (y, m, d) /\ valid_date y m d
    /\ year <= y <= year + Z.of_nat fuel /\ day_number y m d = day_number year month mday.
Proof.
  induction fuel as [|fuel IH]; intros year month mday Hm Hd Hy Hf; cbn [carry_months];
    rewrite days_in_month_spec by done; simpl; pose proof (days_of_month_bound year month Hm) as Hb; rewrite (u32_id mday) by lia.
  { replace (days_of_month year month <? mday) with false by lia. eexists _, _, _. split; [reflexivity|]. unfold valid_date. lia. }
  destruct (Z.ltb_spec (days_of_month year month) mday) as [Hlt|Hge]; [|eexists _, _, _; split; [reflexivity|]; unfold valid_date; lia].
  unfold i32, u32. rewrite swrap_wrap, swrap_id by lia. destruct (Z.eqb_spec (month + 1) 13) as [E|E].
  - assert (month = 12) as -> by lia. rewrite wrap_id by lia.
    pose proof (day_number_prev_year (year + 1) (mday - days_of_month year 12)) as Hp. replace (year + 1 - 1) with year in Hp by lia.
    replace (mday - days_of_month year 12 + days_of_month year 12) with mday in Hp by lia.
    destruct (IH (year + 1) 1 (mday - days_of_month year 12)) as (y & m & d & Hr & Hv & ? & ?); [lia..|].
    exists y, m, d. split; [exact Hr|]. split; [done|]. lia.
  - pose proof (day_number_prev year (month + 1) (mday - days_of_month year month) ltac:(lia)) as Hp.
    replace (month + 1 - 1) with month in Hp by lia. replace (mday - days_of_month year month + days_of_month year month) with mday in Hp by lia.
    destruct (IH year (month + 1) (mday - days_of_month year month)) as (y & m & d & Hr & Hv & ? & ?); [lia..|].
    exists y, m, d. split; [exact Hr|]. split; [done|]. lia.
Qed.

Lemma fuel_enough mday : 28 * Z.of_nat (mktime_fuel mday) > Z.abs mday /\ Z.of_nat (mktime_fuel mday) <= Z.abs mday / 28 + 1.
Proof.
  unfold mktime_fuel. pose proof (Z.div_pos (Z.abs mday) 28 ltac:(lia) ltac:(lia)). pose proof (Z.div_mod (Z.abs mday) 28 ltac:(lia)).
  pose proof (Z.mod_pos_bound (Z.abs mday) 28 ltac:(lia)). lia.
Qed.

(** The two loops bring the day into its month. *)
Lemma normalize_date_spec year month mday : 1 <= month <= 12 -> - 2 ^ 31 <= mday < 2 ^ 31 -> 0 <= year < 2 ^ 31 - 2 ^ 29 ->
  0 <= day_number year month mday ->
  exists ymd y m d, borrow_months (mktime_fuel mday) year month mday = Some ymd
  /\ carry_months (mktime_fuel ymd.2) ymd.1.1 ymd.1.2 ymd.2 = Some (y, m, d)
  /\ valid_date y m d /\ 2000 <= y < 2 ^ 31 /\ day_number y m d = day_number year month mday.
Proof.
  intros Hm Hd Hy Hn. pose proof (fuel_enough mday).
  destruct (borrow_months_spec (mktime_fuel mday) year month mday) as (y & m & d & E & Hm' & Hd' & Hy' & Hday & Hmax); [lia..|].
  pose proof (fuel_enough d). assert (Z.abs d / 28 < 2 ^ 28) by (apply Z.div_lt_upper_bound; lia).
  destruct (carry_months_spec (mktime_fuel d) y m d) as (y' & m' & d' & E' & Hv & Hy2 & Hday'); [lia..|].
  exists (y, m, d), y', m', d'. split; [done|]. split; [done|]. split; [done|]. split; [|lia].
  split; [|lia]. pose proof (day_number_year _ _ _ Hv). destruct (Z.le_gt_cases 2000 y') as [|Hl]; [done|].
  pose proof (days_before_year_mono (y' + 1) 2000 ltac:(lia)) as Hmono. change (days_before_year 2000) with 0 in Hmono. lia.
Qed.

(** Year and month with the month brought into 1..12. *)
Definition norm_year (year month : Z) : Z := year + (month - 1) / 12.
Definition norm_month (month : Z) : Z := (month - 1) mod 12 + 1.

Definition small (z : Z) : Prop := - 2 ^ 29 <= z <= 2 ^ 29.

Lemma mktime_spec year month mday h mi s : small year -> small month -> small mday -> small h -> small mi -> small s ->
  0 <= norm_year year month -> 0 <= seconds_of (norm_year year month) (norm_month month) mday h mi s ->
  timeutils_mktime year month mday h mi s = Some (u32 (seconds_of (norm_year year month) (norm_month month) mday h mi s)).
Proof.
  unfold small. intros Hyr Hmo Hmd Hh Hmi Hs Hny HT. unfold timeutils_mktime.
  pose proof (quot_bound s 60 (2 ^ 29) ltac:(lia) ltac:(lia)).
  pose proof (Z.div_mod s 60 ltac:(lia)). pose proof (Z.mod_pos_bound s 60 ltac:(lia)).
  rewrite carry_spec by lia. simpl. set (mi1 := mi + s / 60) in *. assert (- 2 ^ 30 <= mi1 <= 2 ^ 30) by lia.
  pose proof (quot_bound mi1 60 (2 ^ 30) ltac:(lia) ltac:(lia)).
  pose proof (Z.div_mod mi1 60 ltac:(lia)). pose proof (Z.mod_pos_bound mi1 60 ltac:(lia)).
  rewrite carry_spec by lia. simpl. set (h1 := h + mi1 / 60) in *. assert (- 2 ^ 30 <= h1 <= 2 ^ 30) by lia.
  pose proof (quot_bound h1 24 (2 ^ 30) ltac:(lia) ltac:(lia)).
  pose proof (Z.div_mod h1 24 ltac:(lia)). pose proof (Z.mod_pos_bound h1 24 ltac:(lia)).
  rewrite carry_spec by lia. simpl. set (d1 := mday + h1 / 24) in *. rewrite sint_id by lia. simpl.
  pose proof (quot_floor (month - 1) 12 ltac:(lia)) as Hq. pose proof (Z.mod_pos_bound (month - 1) 12 ltac:(lia)).
  pose proof (Z.div_mod (month - 1) 12 ltac:(lia)).
  assert (E : (if Z.rem (month - 1) 12 <? 0 then (Z.rem (month - 1) 12 + 12, u32 (u32 (year + (month - 1) ÷ 12) - 1))
    else (Z.rem (month - 1) 12, u32 (year + (month - 1) ÷ 12))) = ((month - 1) mod 12, norm_year year month)).
  { unfold norm_year in *. destruct (_ <? 0); injection Hq as E1 E2; rewrite E1, <- E2 in *; u32s; f_equal; lia. }
  rewrite E. fold (norm_month month). set (y0 := norm_year year month) in *. set (m0 := norm_month month) in *.
  assert (Hd1 : day_number y0 m0 d1 = day_number y0 m0 mday + h1 / 24) by (unfold day_number; lia).
  assert (HT1 : seconds_of y0 m0 mday h mi s = day_number y0 m0 d1 * 86400 + (h1 mod 24) * 3600 + (mi1 mod 60) * 60 + s mod 60)
    by (unfold seconds_of in *; lia).
  destruct (normalize_date_spec y0 m0 d1) as ([[y1 m1] dd1] & y & m & d & E1 & E2 & Hv & Hy & Hday);
    [unfold m0, norm_month; lia|lia|unfold y0, norm_year in *; lia|unfold seconds_of in *; lia|].
  rewrite E1. simpl in E2 |- *. rewrite E2. simpl. pose proof Hv as [Hvm Hvd]. pose proof (days_of_month_bound y m Hvm).
  rewrite seconds_since_2000_spec by lia. do 2 f_equal. rewrite HT1. unfold seconds_of. lia.
Qed.

(** The seconds of the fields of a time, by both functions. *)
Lemma fields_to_seconds tm : fits_time tm -> seconds_of_time tm < 2 ^ 32 -> tm_year tm <= 2 ^ 29 ->
  timeutils_seconds_since_2000 (tm_year tm) (tm_mon tm) (tm_mday tm) (tm_hour tm) (tm_min tm) (tm_sec tm) = Some (seconds_of_time tm)
  /\ timeutils_mktime (tm_year tm) (tm_mon tm) (tm_mday tm) (tm_hour tm) (tm_min tm) (tm_sec tm) = Some (seconds_of_time tm).
Proof.
  intros (Hv & Hy & Hh & Hmi & Hs) Ht Hyb. pose proof Hv as [Hm Hd]. pose proof (days_of_month_bound (tm_year tm) _ Hm).
  pose proof (day_number_year _ _ _ Hv). pose proof (days_before_year_mono 2000 (tm_year tm) Hy) as Hmono. change (days_before_year 2000) with 0 in Hmono.
  assert (Hny : norm_year (tm_year tm) (tm_mon tm) = tm_year tm) by (unfold norm_year; rewrite Z.div_small; lia).
  assert (Hnm : norm_month (tm_mon tm) = tm_mon tm) by (unfold norm_month; rewrite Z.mod_small; lia).
  assert (Hpos : 0 <= seconds_of_time tm) by (unfold seconds_of_time, seconds_of; lia). split.
  - rewrite seconds_since_2000_spec by lia. fold (seconds_of_time tm). by rewrite u32_id by lia.
  - rewrite mktime_spec by (unfold small; rewrite ?Hny, ?Hnm; fold (seconds_of_time tm); lia).
    rewrite Hny, Hnm. fold (seconds_of_time tm). by rewrite u32_id by lia.
Qed.

Lemma year_bound tm : fits_time tm -> seconds_of_time tm < 2 ^ 32 -> tm_year tm <= 2 ^ 29.
Proof.
  intros (Hv & Hy & Hh & Hmi & Hs) Ht. pose proof (day_number_year _ _ _ Hv).
  pose proof (days_before_year_mono 2000 (tm_year tm) Hy) as Hmono. change (days_before_year 2000) with 0 in Hmono.
  unfold seconds_of_time, seconds_of in Ht. lia.
Qed.

(** The fields are determined by the seconds. *)
Lemma fits_time_inj tm tm' : fits_time tm -> fits_time tm' -> seconds_of_time tm = seconds_of_time tm' ->
  tm_wday tm = tm_wday tm' -> tm_yday tm = tm_yday tm' -> tm = tm'.
Proof.
  intros (Hv & _ & ? & ? & ?) (Hv' & _ & ? & ? & ?) E Hw Hyd. unfold seconds_of_time in E.
  apply seconds_of_inj in E as (? & ? & ? & ? & ? & ?); [|done..]. destruct tm, tm'. simpl in *. by subst.
Qed.

(** C20 The two directions are inverse to each other between 2000-01-01 and 2068-03-19 (the
    range in which the seconds relative to 2000-03-01 fit a signed 32-bit integer):
    [timeutils_seconds_since_2000_to_struct_time] returns a date of the Gregorian
    calendar and a time of day whose distance from 2000-01-01 00:00:00 is exactly [t], with the
    weekday (Monday is 0) and the day of the year of that date;
    [timeutils_seconds_since_2000] and [timeutils_mktime] of these fields give [t] back; and
    a valid date and time of that range is what the function returns for its seconds. *)
Theorem timeutils_roundtrip :
  (forall t, 0 <= t < 2 ^ 31 + LEAPOCH -> exists tm, timeutils_seconds_since_2000_to_struct_time t = Some tm
    /\ fits_time tm /\ seconds_of_time tm = t /\ tm_wday tm = (t / 86400 + 5) mod 7
    /\ tm_yday tm = days_before_month (tm_year tm) (tm_mon tm) + tm_mday tm
    /\ timeutils_seconds_since_2000 (tm_year tm) (tm_mon tm) (tm_mday tm) (tm_hour tm) (tm_min tm) (tm_sec tm) = Some t
    /\ timeutils_mktime (tm_year tm) (tm_mon tm) (tm_mday tm) (tm_hour tm) (tm_min tm) (tm_sec tm) = Some t)
  /\ (forall tm, fits_time tm -> seconds_of_time tm < 2 ^ 31 + LEAPOCH ->
    tm_wday tm = (seconds_of_time tm / 86400 + 5) mod 7 -> tm_yday tm = days_before_month (tm_year tm) (tm_mon tm) + tm_mday tm ->
    exists t, timeutils_seconds_since_2000 (tm_year tm) (tm_mon tm) (tm_mday tm) (tm_hour tm) (tm_min tm) (tm_sec tm) = Some t
    /\ timeutils_seconds_since_2000_to_struct_time t = Some tm).
Proof.
  split.
  - intros t Ht. destruct (struct_time_spec t Ht) as (tm & E & Hf & Hs & Hw & Hyd). exists tm. do 5 (split; [done|]).
    rewrite <- Hs. rewrite <- Hs in Ht. unfold LEAPOCH in Ht.
    apply fields_to_seconds; [done|lia|]. apply year_bound; [done|lia].
  - intros tm Hf Ht Hw Hyd. unfold LEAPOCH in Ht. destruct (fields_to_seconds tm Hf) as [E _]; [lia|apply year_bound; [done|lia]|].
    exists (seconds_of_time tm). split; [done|]. assert (Hpos : 0 <= seconds_of_time tm).
    { destruct Hf as (Hv & Hy & ? & ? & ?). pose proof (day_number_year _ _ _ Hv).
      pose proof (days_before_year_mono 2000 (tm_year tm) Hy) as Hmono. change (days_before_year 2000) with 0 in Hmono.
      unfold seconds_of_time, seconds_of. lia. }
    destruct (struct_time_spec (seconds_of_time tm)) as (tm' & E' & Hf' & Hs' & Hw' & Hyd'); [unfold LEAPOCH; lia|].
    rewrite E'. f_equal. apply (fits_time_inj tm' tm); [done..|congruence|].
    destruct Hf as (Hv & _ & ? & ? & ?), Hf' as (Hv' & _ & ? & ? & ?). unfold seconds_of_time in Hs'.
    apply seconds_of_inj in Hs' as (Ey & Em & Ed & _); [|done..]. congruence.
Qed.

(** The last second of a leap year. *)
Lemma timeutils_roundtrip_witness : fits_time (MkTime 2024 12 31 23 59 59 1 366)
  /\ timeutils_seconds_since_2000 2024 12 31 23 59 59 = Some 789004799
  /\ timeutils_seconds_since_2000_to_struct_time 789004799 = Some (MkTime 2024 12 31 23 59 59 1 366).
Proof.
  assert (Hf : fits_time (MkTime 2024 12 31 23 59 59 1 366)) by (vm_compute; intuition discriminate).
  split; [exact Hf|]. destruct (proj2 timeutils_roundtrip _ Hf) as (t & E & E'); [reflexivity..|].
  split; [vm_compute; reflexivity|]. vm_compute in E. injection E as <-. exact E'.
Defined.

(** C21 [timeutils_mktime] normalises any tuple of fields (negative, zero or too large ones up
    to [2 ^ 29] in size): both loops end, and the result is the number of seconds of day
    [mday] of the month [month] (taken modulo 12, the rest going to the year) plus the hours,
    minutes and seconds, modulo [2 ^ 32], when this moment is not before 2000-01-01.  Adding [k]
    days, hours, minutes or seconds to the tuple therefore adds as much time to the result. *)
Theorem timeutils_mktime_correct year month mday h mi s :
  small year -> small month -> small mday -> small h -> small mi -> small s -> 0 <= norm_year year month ->
  let seconds := seconds_of (norm_year year month) (norm_month month) mday h mi s in
  0 <= seconds -> timeutils_mktime year month mday h mi s = Some (u32 seconds)
  /\ (seconds < 2 ^ 31 + LEAPOCH -> exists tm, timeutils_seconds_since_2000_to_struct_time (u32 seconds) = Some tm
       /\ fits_time tm /\ seconds_of_time tm = seconds)
  /\ (forall dd dh dmi ds, small (mday + dd) -> small (h + dh) -> small (mi + dmi) -> small (s + ds) ->
       0 <= seconds + 86400 * dd + 3600 * dh + 60 * dmi + ds ->
       timeutils_mktime year month (mday + dd) (h + dh) (mi + dmi) (s + ds) = Some (u32 (seconds + 86400 * dd + 3600 * dh + 60 * dmi + ds))).
Proof.
  intros H1 H2 H3 H4 H5 H6 Hy seconds Hpos. split; [by apply mktime_spec|]. split.
  - intros Hb. unfold LEAPOCH in Hb. rewrite u32_id by lia. destruct (struct_time_spec seconds) as (tm & ? & ? & ? & _); [unfold LEAPOCH; lia|]. by exists tm.
  - intros dd dh dmi ds H3' H4' H5' H6' Hpos'.
    assert (E : seconds_of (norm_year year month) (norm_month month) (mday + dd) (h + dh) (mi + dmi) (s + ds)
      = seconds + 86400 * dd + 3600 * dh + 60 * dmi + ds) by (unfold seconds, seconds_of, day_number; lia).
    rewrite <- E in Hpos' |- *. by apply mktime_spec.
Qed.

(** The day before the first of March 2024, twelve months later and one second earlier. *)
Lemma timeutils_mktime_witness : timeutils_mktime 2024 15 0 24 0 (-1) = Some 794102399
  /\ timeutils_mktime 2024 15 (-365) 24 0 (-1) = Some 762566399.
Proof.
  destruct (timeutils_mktime_correct 2024 15 0 24 0 (-1)) as (E & _ & H); [vm_compute; intuition discriminate..|].
  split; [rewrite E; vm_compute; reflexivity|].
  specialize (H (-365) 0 0 0). change (0 + -365) with (-365) in H. change (24 + 0) with 24 in H. change (0 + 0) with 0 in H. change (-1 + 0) with (-1) in H.
  rewrite H; [vm_compute; reflexivity|vm_compute; intuition discriminate..].
Defined.

(** At the end of the range the signed difference wraps: 2068-03-19 03:14:08 becomes a date of 1932,
    although the other direction goes on to 2136. *)
Lemma struct_time_wraps : timeutils_seconds_since_2000 2068 3 19 3 14 8 = Some (2 ^ 31 + LEAPOCH)
  /\ timeutils_seconds_since_2000_to_struct_time (2 ^ 31 + LEAPOCH) = Some (MkTime 1932 2 11 20 45 52 3 42).
Proof. split; vm_compute; reflexivity. Qed.

(** Twenty-five whole cycles of four years never occur in a century: it is a day too short. *)
Lemma q_cycles_25_dead days : 0 <= days < DAYS_PER_100Y -> days ÷ DAYS_PER_4Y <> 25.
Proof.
  unfold DAYS_PER_100Y, DAYS_PER_4Y. intros Hd. rewrite Z.quot_div_nonneg by lia.
  pose proof (Z.div_mod days (365 * 4 + 1) ltac:(lia)). pose proof (Z.mod_pos_bound days (365 * 4 + 1) ltac:(lia)). lia.
Qed.
