(* ===== verification/Qstr.v ===== *)
(** Interned strings, [py/qstr.c].

    A [qstr] is an index into a chain of pools of pointers.  A pointer leads into a
    chunk of bytes, at which the hash, the length, the data and a zero are stored.
    Two pools are built with the firmware: the second, of frozen code, is where the
    chain starts.  The configuration is that of the ESP32: hashes of two bytes,
    lengths of one, no mutex (there is a global lock), and assertions compiled away.

    Pools and chunks have names, 0 is [NULL].  An allocation succeeds or not according
    to [qanswers], never with more bytes than the heap has.  Memory is not initialised. *)
From Stdlib Require Import ZifyBool.
From S2P Require Import Prelude PyExn.

Record qptr := MkPtr { q_chunk : nat; q_off : nat }.
#[export] Instance qptr_eq_dec : EqDecision qptr.
Proof. solve_decision. Defined.

Record qstr_pool_t := MkPool { qp_prev : nat; qp_total_prev_len : Z; qp_alloc : Z; qp_len : Z; qp_qstrs : list (option qptr) }.

Record qstate := MkQ {
  last_pool : nat; qstr_last_chunk : nat; qstr_last_alloc : Z; qstr_last_used : Z;
  pools : gmap nat qstr_pool_t; chunks : gmap nat (list (option Z));
  qbrk : nat; qheap_bytes : Z; qanswers : list bool }.

Definition with_last_pool p s := MkQ p (qstr_last_chunk s) (qstr_last_alloc s) (qstr_last_used s) (pools s) (chunks s) (qbrk s) (qheap_bytes s) (qanswers s).
Definition with_last c a u s := MkQ (last_pool s) c a u (pools s) (chunks s) (qbrk s) (qheap_bytes s) (qanswers s).
Definition with_pools f s := MkQ (last_pool s) (qstr_last_chunk s) (qstr_last_alloc s) (qstr_last_used s) (f (pools s)) (chunks s) (qbrk s) (qheap_bytes s) (qanswers s).
Definition with_chunks f s := MkQ (last_pool s) (qstr_last_chunk s) (qstr_last_alloc s) (qstr_last_used s) (pools s) (f (chunks s)) (qbrk s) (qheap_bytes s) (qanswers s).
Definition with_heap b a s := MkQ (last_pool s) (qstr_last_chunk s) (qstr_last_alloc s) (qstr_last_used s) (pools s) (chunks s) b (qheap_bytes s) a.

Abbreviation Q := (X qstate).
Definition qget : Q qstate := fun s => Some (Ok s, s).
Definition qmodify (f : qstate -> qstate) : Q unit := fun s => Some (Ok tt, f s).
Definition qabort {A} : Q A := fun _ => None.
Definition set_last c a u : Q unit := qmodify (with_last c a u).

(** ** Memory *)

(** The answer to a request for [n] bytes: a new name or [NULL]. *)
Definition m_malloc_maybe (n : Z) : Q nat :=
  s ← qget;
  match qanswers s with
  | false :: answers => qmodify (with_heap (qbrk s) answers);; mret 0%nat
  | answers =>
      qmodify (with_heap (qbrk s) (tail answers));;
      if qheap_bytes s <? n then mret 0%nat
      else qmodify (with_heap (S (qbrk s)) (tail answers));; mret (qbrk s)
  end.

(** [m_new_maybe(byte, n)] *)
Definition m_new_maybe_bytes (n : Z) : Q nat :=
  c ← m_malloc_maybe n;
  (if (c =? 0)%nat then mret tt else qmodify (with_chunks <[c := replicate (Z.to_nat n) None]>));; mret c.

(** [m_renew_maybe(byte, c, _, n, false)]: in place or not at all. *)
Definition m_renew_maybe_bytes (c : nat) (n : Z) : Q bool :=
  s ← qget; buf ← xlift (chunks s !! c);
  if n =? 0 then qmodify (with_chunks (delete c));; mret false
  else if n <=? Z.of_nat (length buf) then qmodify (with_chunks <[c := take (Z.to_nat n) buf]>);; mret true
  else
    match qanswers s with
    | false :: answers => qmodify (with_heap (qbrk s) answers);; mret false
    | answers =>
        qmodify (with_heap (qbrk s) (tail answers));;
        if qheap_bytes s <? n then mret false
        else qmodify (with_chunks <[c := buf ++ replicate (Z.to_nat n - length buf) None]>);; mret true
    end.

Definition m_malloc_fail {A} : Q A := mp_raise MemoryError.

(** [n] bytes at an offset from a pointer. *)
Definition get_bytes (s : qstate) (q : qptr) (i n : nat) : option (list Z) :=
  buf ← chunks s !! q_chunk q;
  let l := take n (drop (q_off q + i) buf) in
  if (length l =? n)%nat then mapM id l else None.
Definition get_byte (s : qstate) (q : qptr) (i : nat) : option Z := l ← get_bytes s q i 1; head l.

Definition put_bytes (q : qptr) (i : nat) (bs : list Z) : Q unit :=
  s ← qget; buf ← xlift (chunks s !! q_chunk q);
  let at_ := (q_off q + i)%nat in
  if (at_ + length bs <=? length buf)%nat then
    qmodify (with_chunks <[q_chunk q := take at_ buf ++ map Some bs ++ drop (at_ + length bs) buf]>)
  else qabort.

(** ** Layout of an interned string *)

Definition MICROPY_QSTR_BYTES_IN_HASH : nat := 2.
Definition MICROPY_QSTR_BYTES_IN_LEN : nat := 1.
Definition Q_HASH_MASK : Z := 0xffff.

Definition Q_GET_HASH (s : qstate) (q : qptr) : option Z :=
  b0 ← get_byte s q 0; b1 ← get_byte s q 1; Some (Z.lor b0 (Z.shiftl b1 8)).
Definition Q_SET_HASH (q : qptr) (hash : Z) : Q unit :=
  put_bytes q 0 [wrap 8 hash];; put_bytes q 1 [wrap 8 (Z.shiftr hash 8)].
Definition Q_GET_LENGTH (s : qstate) (q : qptr) : option Z := get_byte s q MICROPY_QSTR_BYTES_IN_HASH.
Definition Q_SET_LENGTH (q : qptr) (len : Z) : Q unit := put_bytes q MICROPY_QSTR_BYTES_IN_HASH [wrap 8 len].
Definition Q_DATA : nat := MICROPY_QSTR_BYTES_IN_HASH + MICROPY_QSTR_BYTES_IN_LEN.
Definition Q_GET_ALLOC (s : qstate) (q : qptr) : option Z := n ← Q_GET_LENGTH s q; Some (Z.of_nat Q_DATA + n + 1).

Definition qstr_compute_hash (data : list Z) : Z :=
  let hash := foldl (fun hash c => Z.lxor (wrap 32 (wrap 32 (Z.shiftl hash 5) + hash)) c) 5381 data in
  let hash := Z.land hash Q_HASH_MASK in
  if hash =? 0 then hash + 1 else hash.

(** ** Pools *)

Definition MICROPY_ALLOC_QSTR_ENTRIES_INIT : Z := 10.
Definition MICROPY_ALLOC_QSTR_CHUNK_INIT : Z := 128.
(** [sizeof(qstr_pool_t)] *)
Definition POOL_SIZE : Z := 16.

(** The bytes that [py/makeqstrdata.py] writes for a string, and those of [MP_QSTR_NULL]. *)
Definition make_bytes (qstr : list Z) : list Z :=
  let qhash := qstr_compute_hash qstr in
  [Z.land (Z.shiftr qhash 0) 0xff; Z.land (Z.shiftr qhash 8) 0xff; Z.of_nat (length qstr)] ++ qstr ++ [0].
Definition null_bytes : list Z := [0; 0; 0; 0].

Definition const_pool_id : nat := 1.
Definition frozen_pool_id : nat := 2.

(** The constant data of the firmware: the strings of the C code and of frozen code. *)
Definition const_state (consts frozen : list (list Z)) (heap_bytes : Z) (answers : list bool) : qstate :=
  let data := null_bytes :: map make_bytes (consts ++ frozen) in
  let n := S (length consts) in
  let entry i := Some (MkPtr (3 + i) 0) in
  MkQ 0 0 0 0
    (<[const_pool_id := MkPool 0 0 MICROPY_ALLOC_QSTR_ENTRIES_INIT (Z.of_nat n) (map entry (seq 0 n))]>
     (<[frozen_pool_id := MkPool const_pool_id (Z.of_nat n) (Z.of_nat (Nat.min (length frozen) 10)) (Z.of_nat (length frozen))
                            (map entry (seq n (length frozen)))]> ∅))
    (list_to_map (imap (fun i d => ((3 + i)%nat, map Some d)) data))
    (3 + length data) heap_bytes answers.

Definition qstr_init : Q unit := s ← qget; qmodify (with_last_pool frozen_pool_id);; set_last 0%nat (qstr_last_alloc s) (qstr_last_used s).

(** [while (q < pool->total_prev_len)] *)
Fixpoint find_pool (fuel : nat) (m : gmap nat qstr_pool_t) (pool : nat) (q : Z) : option qptr :=
  match fuel with
  | O => None
  | S fuel =>
      pl ← m !! pool;
      if q <? qp_total_prev_len pl then find_pool fuel m (qp_prev pl) q
      else mjoin (qp_qstrs pl !! Z.to_nat (q - qp_total_prev_len pl))
  end.

Definition pool_fuel (s : qstate) : nat := S (size (pools s)).
Definition find_qstr (s : qstate) (q : Z) : option qptr := find_pool (pool_fuel s) (pools s) (last_pool s) q.

(** The last pool with room for one more. *)
Definition room_in_pool : Q unit :=
  s ← qget; pl ← xlift (pools s !! last_pool s);
  if qp_alloc pl <=? qp_len pl then
    let new_alloc := Z.max MICROPY_ALLOC_QSTR_ENTRIES_INIT (wrap 32 (qp_alloc pl * 2)) in
    let size := wrap 32 (POOL_SIZE + 4 * new_alloc) in
    pool ← m_malloc_maybe size;
    if (pool =? 0)%nat then m_malloc_fail
    else
      qmodify (with_pools <[pool := MkPool (last_pool s) (wrap 32 (qp_total_prev_len pl + qp_len pl)) new_alloc 0
                                      (replicate (Z.to_nat ((size - POOL_SIZE) / 4)) None)]>);;
      qmodify (with_last_pool pool)
  else mret tt.

Definition qstr_add (q_ptr : qptr) : Q Z :=
  room_in_pool;;
  s ← qget; pl ← xlift (pools s !! last_pool s);
  let i := Z.to_nat (qp_len pl) in
  (if (i <? length (qp_qstrs pl))%nat then
     qmodify (with_pools <[last_pool s := MkPool (qp_prev pl) (qp_total_prev_len pl) (qp_alloc pl) (wrap 32 (qp_len pl + 1))
                                            (<[i := Some q_ptr]> (qp_qstrs pl))]>)
   else qabort);;
  s ← qget; pl ← xlift (pools s !! last_pool s);
  mret (wrap 32 (qp_total_prev_len pl + qp_len pl - 1)).

(** The entries [qstrs, qstrs + len) of a pool. *)
Definition pool_entries (pl : qstr_pool_t) : option (list qptr) :=
  let l := take (Z.to_nat (qp_len pl)) (qp_qstrs pl) in
  if Z.of_nat (length l) =? qp_len pl then mapM id l else None.

Definition same_string (s : qstate) (str : list Z) (str_hash : Z) (q : qptr) : option bool :=
  h ← Q_GET_HASH s q;
  if h =? str_hash then
    n ← Q_GET_LENGTH s q;
    if n =? Z.of_nat (length str) then d ← get_bytes s q Q_DATA (length str); Some (bool_decide (d = str))
    else Some false
  else Some false.

Fixpoint search_entries (s : qstate) (str : list Z) (str_hash : Z) (l : list qptr) (i : Z) : option (option Z) :=
  match l with
  | [] => Some None
  | q :: l => b ← same_string s str str_hash q; if b : bool then Some (Some i) else search_entries s str str_hash l (i + 1)
  end.

Fixpoint search_pools (fuel : nat) (s : qstate) (str : list Z) (str_hash : Z) (pool : nat) : option Z :=
  match fuel with
  | O => None
  | S fuel =>
      if (pool =? 0)%nat then Some 0
      else
        pl ← pools s !! pool; l ← pool_entries pl;
        r ← search_entries s str str_hash l 0;
        match r with
        | Some i => Some (wrap 32 (qp_total_prev_len pl + i))
        | None => search_pools fuel s str str_hash (qp_prev pl)
        end
  end.

Definition qstr_find_strn (s : qstate) (str : list Z) : option Z :=
  search_pools (pool_fuel s) s str (qstr_compute_hash str) (last_pool s).

(** Memory for [n_bytes] in the last chunk, in a new one if need be. *)
Definition grow_chunk (n_bytes : Z) : Q unit :=
  s ← qget;
  let chunk := qstr_last_chunk s in
  if negb (chunk =? 0)%nat && (qstr_last_alloc s <? wrap 32 (qstr_last_used s + n_bytes)) then
    ok ← m_renew_maybe_bytes chunk (wrap 32 (qstr_last_alloc s + n_bytes));
    if ok : bool then set_last chunk (wrap 32 (qstr_last_alloc s + n_bytes)) (qstr_last_used s)
    else
      m_renew_maybe_bytes chunk (qstr_last_used s);;
      set_last 0%nat (qstr_last_alloc s) (qstr_last_used s)
  else mret tt.

Definition new_chunk (n_bytes : Z) : Q unit :=
  s ← qget;
  if (qstr_last_chunk s =? 0)%nat then
    let al := Z.max n_bytes MICROPY_ALLOC_QSTR_CHUNK_INIT in
    chunk ← m_new_maybe_bytes al;
    if (chunk =? 0)%nat then
      chunk ← m_new_maybe_bytes n_bytes;
      if (chunk =? 0)%nat then m_malloc_fail else set_last chunk n_bytes 0
    else set_last chunk al 0
  else mret tt.

(** The assertion that [len] is below 256 is compiled away. *)
Definition qstr_from_strn (str : list Z) : Q Z :=
  let len := Z.of_nat (length str) in
  s ← qget; q ← xlift (qstr_find_strn s str);
  if q =? 0 then
    let n_bytes := wrap 32 (Z.of_nat Q_DATA + len + 1) in
    grow_chunk n_bytes;;
    new_chunk n_bytes;;
    s ← qget;
    let q_ptr := MkPtr (qstr_last_chunk s) (Z.to_nat (qstr_last_used s)) in
    set_last (qstr_last_chunk s) (qstr_last_alloc s) (wrap 32 (qstr_last_used s + n_bytes));;
    let hash := qstr_compute_hash str in
    Q_SET_HASH q_ptr hash;;
    Q_SET_LENGTH q_ptr len;;
    put_bytes q_ptr Q_DATA str;;
    put_bytes q_ptr (Q_DATA + length str) [0];;
    qstr_add q_ptr
  else mret q.

Definition qstr_from_str (str : list Z) : Q Z := qstr_from_strn (c_string str).

(** ** Queries *)

Definition qstr_hash (s : qstate) (q : Z) : option Z := qd ← find_qstr s q; Q_GET_HASH s qd.
Definition qstr_len (s : qstate) (q : Z) : option Z := qd ← find_qstr s q; Q_GET_LENGTH s qd.
(** The bytes at the pointers that [qstr_data] and [qstr_str] return, the latter up to a zero. *)
Definition qstr_data (s : qstate) (q : Z) : option (list Z) :=
  qd ← find_qstr s q; len ← Q_GET_LENGTH s qd; get_bytes s qd Q_DATA (Z.to_nat len).
Definition qstr_str (s : qstate) (q : Z) : option (list Z) :=
  qd ← find_qstr s q; len ← Q_GET_LENGTH s qd;
  c_string <$> get_bytes s qd Q_DATA (S (Z.to_nat len)).
Definition QSTR_TOTAL (s : qstate) : option Z := pl ← pools s !! last_pool s; Some (wrap 32 (qp_total_prev_len pl + qp_len pl)).

(** The bytes of a block that [gc_nbytes] reports: blocks of 16 bytes. *)
Definition pool_nbytes (pl : qstr_pool_t) : Z := (POOL_SIZE + 4 * qp_alloc pl + 15) / 16 * 16.

Record qstr_info := MkQInfo { n_pool : Z; n_qstr : Z; n_str_data_bytes : Z; n_total_bytes : Z }.

Fixpoint pool_info_loop (fuel : nat) (s : qstate) (pool : nat) (i : qstr_info) : option qstr_info :=
  match fuel with
  | O => None
  | S fuel =>
      if (pool =? 0)%nat || (pool =? frozen_pool_id)%nat then
        Some (MkQInfo (n_pool i) (n_qstr i) (n_str_data_bytes i) (wrap 32 (n_total_bytes i + n_str_data_bytes i)))
      else
        pl ← pools s !! pool; l ← pool_entries pl;
        sizes ← mapM (Q_GET_ALLOC s) l;
        pool_info_loop fuel s (qp_prev pl)
          (MkQInfo (wrap 32 (n_pool i + 1)) (wrap 32 (n_qstr i + qp_len pl))
             (foldl (fun a b => wrap 32 (a + b)) (n_str_data_bytes i) sizes) (wrap 32 (n_total_bytes i + pool_nbytes pl)))
  end.

Definition qstr_pool_info (s : qstate) : option qstr_info := pool_info_loop (pool_fuel s) s (last_pool s) (MkQInfo 0 0 0 0).

(** Interning: a string has one [qstr], which stays valid. *)

Implicit Types (s : qstate) (str d : list Z) (G : list (list Z)) (Q ptrs : list qptr).

(** ** The bytes of an interned string *)

Definition valid_str str : Prop := Forall (fun c => 0 <= c < 256) str /\ (length str < 256)%nat.

Lemma hash_range str : 1 <= qstr_compute_hash str < 2 ^ 16.
Proof.
  unfold qstr_compute_hash, Q_HASH_MASK. set (h := foldl _ _ _). change 65535 with (2 ^ 16 - 1). rewrite land_ones_wrap by lia.
  pose proof (wrap_range 16 h ltac:(lia)). destruct (Z.eqb_spec (wrap 16 h) 0); lia.
Qed.

Definition hash_bytes str : list Z := [wrap 8 (qstr_compute_hash str); wrap 8 (Z.shiftr (qstr_compute_hash str) 8)].

Lemma make_bytes_eq str : make_bytes str = hash_bytes str ++ [Z.of_nat (length str)] ++ str ++ [0].
Proof.
  unfold make_bytes, hash_bytes. change 255 with (2 ^ 8 - 1). rewrite !land_ones_wrap by lia. by rewrite Z.shiftr_0_r.
Qed.

Lemma length_make_bytes str : length (make_bytes str) = (length str + 4)%nat.
Proof. unfold make_bytes. rewrite !length_app. cbn [length]. lia. Qed.

Lemma make_bytes_inj str str' : make_bytes str = make_bytes str' -> str = str'.
Proof.
  rewrite !make_bytes_eq. unfold hash_bytes. simpl. intros H. injection H as _ _ _ H. by apply app_inj_tail in H as [? _].
Qed.

(** The bytes an id can have. *)
Definition entry_ok d : Prop := d = null_bytes \/ exists str, valid_str str /\ d = make_bytes str.

Lemma null_not_made str : null_bytes <> make_bytes str.
Proof.
  rewrite make_bytes_eq. unfold hash_bytes, null_bytes, wrap. simpl. intros H. injection H as H0 H1 _. pose proof (hash_range str) as Hr.
  rewrite Z.shiftr_div_pow2 in H1 by lia. change (2 ^ 8) with 256 in H1.
  pose proof (Z.div_mod (qstr_compute_hash str) 256 ltac:(lia)). pose proof (Z.div_pos (qstr_compute_hash str) 256 ltac:(lia) ltac:(lia)).
  pose proof (Z.div_lt_upper_bound (qstr_compute_hash str) 256 256 ltac:(lia) ltac:(lia)).
  rewrite (Z.mod_small (_ / _)) in H1 by lia. change (2 ^ 8) with 256 in H0. lia.
Qed.

(** ** Reading them *)

(** The bytes [d] are at the pointer. *)
Definition holds_bytes s q d : Prop := get_bytes s q 0 (length d) = Some d.

Lemma mapM_id_Some {A} (l : list A) : mapM id (map Some l) = Some l.
Proof. apply mapM_Some. induction l; constructor; [done|]. assumption. Qed.

Lemma mapM_id_inv {A} (l : list (option A)) k : mapM id l = Some k -> l = map Some k.
Proof. intros H%mapM_Some. induction H as [|x y l k E _ IH]; [done|]. simpl in *. unfold id in E. by rewrite E, IH. Qed.

Lemma get_bytes_spec s q i d : get_bytes s q i (length d) = Some d <->
  exists buf, chunks s !! q_chunk q = Some buf /\ take (length d) (drop (q_off q + i) buf) = map Some d.
Proof.
  unfold get_bytes. split.
  - destruct (chunks s !! q_chunk q) as [buf|]; [|done]. simpl. case_if; [|done]. intros H. apply mapM_id_inv in H. eauto.
  - intros (buf & -> & E). simpl. rewrite E, length_map, Nat.eqb_refl. apply mapM_id_Some.
Qed.

Lemma get_bytes_sub s q i d1 d2 d3 : get_bytes s q i (length (d1 ++ d2 ++ d3)) = Some (d1 ++ d2 ++ d3) ->
  get_bytes s q (i + length d1) (length d2) = Some d2.
Proof.
  rewrite !get_bytes_spec. intros (buf & Hb & E). exists buf. split; [done|].
  apply (f_equal (drop (length d1))) in E. apply (f_equal (take (length d2))) in E. revert E.
  rewrite !length_app, !map_app, drop_app_length', take_app_length' by (by rewrite length_map).
  rewrite skipn_firstn_comm, drop_drop, take_take. intros E. rewrite <- E. f_equal; [lia|]. f_equal. lia.
Qed.

Lemma holds_byte s q d i b : holds_bytes s q d -> d !! i = Some b -> get_byte s q i = Some b.
Proof.
  intros H Hi. unfold get_byte. rewrite <- (take_drop_middle _ _ _ Hi) in H. unfold holds_bytes in H.
  apply (get_bytes_sub s q 0 (take i d) [b]) in H. rewrite length_take_le in H by (apply lookup_lt_Some in Hi; lia).
  simpl in H. by rewrite H.
Qed.

Lemma holds_hash s q str : holds_bytes s q (make_bytes str) -> Q_GET_HASH s q = Some (qstr_compute_hash str).
Proof.
  intros H. unfold Q_GET_HASH. rewrite make_bytes_eq in H.
  rewrite (holds_byte _ _ _ 0 _ H) by reflexivity. simpl. rewrite (holds_byte _ _ _ 1 _ H) by reflexivity. simpl. f_equal.
  pose proof (hash_range str). set (h := qstr_compute_hash str) in *. unfold wrap. rewrite (Z.mod_small (Z.shiftr h 8)).
  - rewrite <- (Z.land_ones h 8) by lia. apply Z.bits_inj'. intros n Hn. rewrite Z.lor_spec, Z.land_spec.
    destruct (Z.ltb_spec n 8) as [Hl|Hl].
    + rewrite Z.ones_spec_low, Z.shiftl_spec_low by lia. by rewrite andb_true_r, orb_false_r.
    + rewrite Z.ones_spec_high, Z.shiftl_spec, Z.shiftr_spec by lia. rewrite andb_false_r. simpl. f_equal. lia.
  - rewrite Z.shiftr_div_pow2 by lia. split; [apply Z.div_pos; lia|]. apply Z.div_lt_upper_bound; lia.
Qed.

Lemma holds_length s q str : holds_bytes s q (make_bytes str) -> Q_GET_LENGTH s q = Some (Z.of_nat (length str)).
Proof. intros H. apply (holds_byte _ _ _ 2 _ H). by rewrite make_bytes_eq. Qed.

Lemma holds_data s q str : holds_bytes s q (make_bytes str) ->
  get_bytes s q Q_DATA (length str) = Some str /\ get_bytes s q Q_DATA (S (length str)) = Some (str ++ [0]).
Proof.
  unfold holds_bytes. rewrite make_bytes_eq. intros H.
  assert (E : hash_bytes str ++ [Z.of_nat (length str)] ++ str ++ [0] = (hash_bytes str ++ [Z.of_nat (length str)]) ++ str ++ [0])
    by (by rewrite <- app_assoc).
  rewrite E in H. split; [exact (get_bytes_sub s q 0 _ _ _ H)|].
  rewrite <- (app_nil_r (str ++ [0])) in H.
  pose proof (get_bytes_sub s q 0 _ _ _ H) as H'. by rewrite (length_app str), Nat.add_1_r in H'.
Qed.

Lemma same_string_spec s q d str : holds_bytes s q d -> entry_ok d ->
  same_string s str (qstr_compute_hash str) q = Some (bool_decide (d = make_bytes str)).
Proof.
  intros H [->|(str' & Hv & ->)].
  - rewrite bool_decide_false by apply null_not_made. unfold same_string, Q_GET_HASH.
    rewrite (holds_byte _ _ _ 0 _ H), (holds_byte _ _ _ 1 _ H) by reflexivity. cbn [mbind option_bind]. change (Z.lor 0 (Z.shiftl 0 8)) with 0.
    pose proof (hash_range str). destruct (Z.eqb_spec 0 (qstr_compute_hash str)); [lia|done].
  - unfold same_string. rewrite (holds_hash _ _ _ H). simpl.
    destruct (Z.eqb_spec (qstr_compute_hash str') (qstr_compute_hash str)) as [Eh|Eh]; [|rewrite bool_decide_false; [done|intros E; apply make_bytes_inj in E; congruence]].
    rewrite (holds_length _ _ _ H). simpl. destruct (Z.eqb_spec (Z.of_nat (length str')) (Z.of_nat (length str))) as [El|El].
    + apply Nat2Z.inj in El. rewrite <- El. rewrite (proj1 (holds_data _ _ _ H)). simpl. f_equal. apply bool_decide_ext.
      split; [by intros ->|apply make_bytes_inj].
    + rewrite bool_decide_false; [done|]. intros E. apply make_bytes_inj in E. by subst.
Qed.

(** ** The chain of pools *)

Definition pool_room (pl : qstr_pool_t) (rest : list (option qptr)) : Prop :=
  0 <= qp_alloc pl < 2 ^ 29 - 3 /\ (qp_len pl < qp_alloc pl -> qp_len pl + Z.of_nat (length rest) = qp_alloc pl).

(** The pools from [p] on, and all their pointers, the oldest first. *)
Inductive pool_list (m : gmap nat qstr_pool_t) : nat -> list nat -> list qptr -> Prop :=
| pl_nil : pool_list m 0 [] []
| pl_cons p pl ids Q us rest : p <> 0%nat -> m !! p = Some pl -> qp_total_prev_len pl = Z.of_nat (length Q) ->
    qp_len pl = Z.of_nat (length us) -> qp_qstrs pl = map Some us ++ rest -> pool_room pl rest ->
    pool_list m (qp_prev pl) ids Q -> pool_list m p (p :: ids) (Q ++ us).

Lemma pool_list_insert m p ids Q k pl : pool_list m p ids Q -> k ∉ ids -> pool_list (<[k := pl]> m) p ids Q.
Proof.
  intros H Hk. induction H; [constructor|]. apply not_elem_of_cons in Hk as [? ?].
  econstructor; [done|by rewrite lookup_insert_ne by done|done..|by apply IHpool_list].
Qed.

Lemma pool_list_dom m p ids Q k : pool_list m p ids Q -> k ∈ ids -> is_Some (m !! k).
Proof. intros H. induction H; intros Hk; [by apply elem_of_nil in Hk|]. apply elem_of_cons in Hk as [->|?]; eauto. Qed.

Lemma pool_list_inv m p ids Q : pool_list m p ids Q -> p <> 0%nat ->
  exists pl ids' Q' us rest, m !! p = Some pl /\ ids = p :: ids' /\ Q = Q' ++ us /\ qp_total_prev_len pl = Z.of_nat (length Q')
  /\ qp_len pl = Z.of_nat (length us) /\ qp_qstrs pl = map Some us ++ rest /\ pool_room pl rest /\ pool_list m (qp_prev pl) ids' Q'.
Proof. intros H Hp. destruct H; [done|]. by eexists _, _, _, _, _. Qed.

Lemma ids_fuel m p ids Q : pool_list m p ids Q -> NoDup ids -> (length ids <= size m)%nat.
Proof.
  intros H Hnd. rewrite <- size_dom, <- (size_list_to_set (C := gset nat) ids) by done. apply subseteq_size.
  intros k Hk. apply elem_of_list_to_set in Hk. apply elem_of_dom. by eapply pool_list_dom.
Qed.

Lemma find_pool_spec m p ids Q q : pool_list m p ids Q -> 0 <= q < Z.of_nat (length Q) ->
  forall fuel, (length ids < fuel)%nat -> find_pool fuel m p q = Q !! Z.to_nat q.
Proof.
  intros H. induction H as [|p pl ids Q us rest Hp Hm Ht Hl Hq Hr H IH]; intros Hb fuel Hf; [simpl in Hb; lia|].
  destruct fuel as [|fuel]; cbn [length] in Hf; [lia|]. cbn [find_pool]. rewrite Hm. simpl. rewrite Ht. rewrite length_app in Hb.
  destruct (Z.ltb_spec q (Z.of_nat (length Q))) as [Hlt|Hge].
  - rewrite IH by lia. rewrite lookup_app_l by lia. done.
  - rewrite Hq, lookup_app_l by (rewrite length_map; lia). rewrite lookup_app_r by lia.
    replace (Z.to_nat (q - Z.of_nat (length Q))) with (Z.to_nat q - length Q)%nat by lia.
    rewrite list_lookup_fmap. by destruct (us !! _).
Qed.

Lemma pool_entries_spec pl us rest : qp_len pl = Z.of_nat (length us) -> qp_qstrs pl = map Some us ++ rest -> pool_entries pl = Some us.
Proof.
  intros Hl Hq. unfold pool_entries. rewrite Hq, Hl, Nat2Z.id, take_app_length' by (by rewrite length_map).
  rewrite length_map, Z.eqb_refl. apply mapM_id_Some.
Qed.

(** ** Searching *)

(** The place of the bytes of [str] in the list. *)
Definition is_place str (ds : list (list Z)) (o : option nat) : Prop :=
  match o with Some i => ds !! i = Some (make_bytes str) | None => make_bytes str ∉ ds end.

Lemma search_entries_spec s str us ds : Forall2 (holds_bytes s) us ds -> Forall entry_ok ds -> forall i, exists o,
  is_place str ds o /\ search_entries s str (qstr_compute_hash str) us i = Some ((fun k => i + Z.of_nat k) <$> o).
Proof.
  induction 1 as [|u d us ds H Hs IH]; intros Ho i; [exists None; split; [apply not_elem_of_nil|done]|].
  apply list.Forall_cons in Ho as [Hd Ho]. cbn [search_entries]. rewrite (same_string_spec _ _ _ _ H Hd). simpl.
  destruct (bool_decide_reflect (d = make_bytes str)) as [->|Hne].
  - exists (Some 0%nat). split; [done|]. simpl. do 2 f_equal. lia.
  - destruct (IH Ho (i + 1)) as (o & Hp & ->). exists (S <$> o). destruct o as [k|]; simpl in *.
    + split; [done|]. do 2 f_equal. lia.
    + split; [|done]. apply not_elem_of_cons. by split.
Qed.

Lemma search_pools_spec s str p ids Q : pool_list (pools s) p ids Q -> Z.of_nat (length Q) < 2 ^ 32 ->
  forall ds fuel, Forall2 (holds_bytes s) Q ds -> Forall entry_ok ds -> (length ids < fuel)%nat ->
  exists o, is_place str ds o
  /\ search_pools fuel s str (qstr_compute_hash str) p = Some (match o with Some k => Z.of_nat k | None => 0 end).
Proof.
  intros H. induction H as [|p pl ids Q us rest Hp Hm Ht Hl Hq Hr H IH]; intros Hb ds fuel Hh Ho Hf;
    (destruct fuel as [|fuel]; cbn [length] in Hf; [lia|]); cbn [search_pools].
  { apply Forall2_nil_inv_l in Hh as ->. exists None. split; [apply not_elem_of_nil|done]. }
  apply Nat.eqb_neq in Hp. rewrite Hp, Hm. simpl. rewrite (pool_entries_spec _ _ _ Hl Hq). simpl.
  apply Forall2_app_inv_l in Hh as (ds1 & ds2 & H1 & H2 & ->). apply Forall_app in Ho as [Ho1 Ho2].
  rewrite length_app in Hb.
  destruct (search_entries_spec s str us ds2 H2 Ho2 0) as (o & Hpl & ->). simpl. pose proof (list.Forall2_length _ _ _ H1) as E1.
  destruct o as [k|]; simpl.
  - exists (Some (length ds1 + k)%nat). simpl in Hpl. apply lookup_lt_Some in Hpl as Hk. apply list.Forall2_length in H2. split.
    + simpl. rewrite lookup_app_r by lia. rewrite <- Hpl. f_equal. lia.
    + rewrite Ht. f_equal. rewrite wrap_id by lia. lia.
  - destruct (IH ltac:(lia) ds1 fuel H1 Ho1 ltac:(lia)) as (o & Hpl' & ->). exists o. split; [|done]. destruct o as [k|]; simpl in *.
    + by apply lookup_app_l_Some.
    + rewrite elem_of_app. tauto.
Qed.
