(* ===== verification/QstrThms.v ===== *)
(** Interning: what each step does to the pools and to the memory of the strings. *)
From Stdlib Require Import ZifyBool.
From S2P Require Import Prelude PyExn Qstr.

Implicit Types (s : qstate) (str d : list Z) (G : list (list Z)) (Q : list qptr).

Definition data_of G : list (list Z) := null_bytes :: map make_bytes G.

(** The pointers [Q] of the pools are those of the null string and of the strings [G]; the memory
    of the last chunk after [qstr_last_used] is free. *)
Record qstr_ok s Q G : Prop := {
  qo_pools : exists ids, pool_list (pools s) (last_pool s) ids Q /\ NoDup ids;
  qo_data : Forall2 (holds_bytes s) Q (data_of G);
  qo_strings : NoDup G /\ Forall valid_str G;
  qo_brk : (0 < qbrk s)%nat /\ (forall k, is_Some (pools s !! k) -> (k < qbrk s)%nat) /\ forall k, is_Some (chunks s !! k) -> (k < qbrk s)%nat;
  qo_heap : qheap_bytes s < 2 ^ 31;
  qo_chunk : qstr_last_chunk s <> 0%nat -> 0 <= qstr_last_used s <= qstr_last_alloc s /\ qstr_last_alloc s <= qheap_bytes s
    /\ exists buf, chunks s !! qstr_last_chunk s = Some buf /\ Z.of_nat (length buf) = qstr_last_alloc s;
  qo_used : qstr_last_chunk s <> 0%nat ->
    Forall2 (fun q d => q_chunk q = qstr_last_chunk s -> Z.of_nat (q_off q + length d) <= qstr_last_used s) Q (data_of G) }.

(** Each chunk is found by a collection: a pool has a pointer to its start. *)
Definition rooted s Q : Prop :=
  (forall q, q ∈ Q -> MkPtr (q_chunk q) 0 ∈ Q) /\ (qstr_last_chunk s <> 0%nat -> MkPtr (qstr_last_chunk s) 0 ∈ Q).

Definition same_mem s s' : Prop := qheap_bytes s' = qheap_bytes s /\ (qanswers s = [] -> qanswers s' = []).

Lemma data_entries G : Forall valid_str G -> Forall entry_ok (data_of G).
Proof.
  intros H. constructor; [by left|]. apply list.Forall_forall. intros d Hd. apply list_elem_of_fmap in Hd as (str & -> & Hs).
  right. exists str. split; [|done]. by eapply list.Forall_forall in H.
Qed.

Lemma ok_length s Q G : qstr_ok s Q G -> length Q = S (length G).
Proof. intros [_ H _ _ _ _ _]. apply list.Forall2_length in H. rewrite H. unfold data_of. simpl. by rewrite length_map. Qed.

Lemma ok_last_pool s Q G : qstr_ok s Q G -> last_pool s <> 0%nat.
Proof.
  intros H E. pose proof (ok_length _ _ _ H) as Hl. destruct H as [(ids & Hp & _) _ _ _ _ _ _]. rewrite E in Hp. by inversion Hp; subst.
Qed.

(** ** Changes of the memory *)

Lemma holds_same s s' q d : chunks s' = chunks s -> holds_bytes s q d -> holds_bytes s' q d.
Proof. unfold holds_bytes, get_bytes. by intros ->. Qed.

Lemma take_same {A} (a b : list A) n m : take n a = take n b -> (m <= n)%nat -> take m a = take m b.
Proof. intros H Hm. apply (f_equal (take m)) in H. rewrite !take_take in H. by rewrite Nat.min_l in H. Qed.

Lemma holds_insert s c buf buf' q d : chunks s !! c = Some buf ->
  (q_chunk q = c -> take (q_off q + length d) buf' = take (q_off q + length d) buf) ->
  holds_bytes s q d -> holds_bytes (with_chunks <[c := buf']> s) q d.
Proof.
  unfold holds_bytes. intros Hc Ht H. apply get_bytes_spec in H as (b & Hb & E). apply get_bytes_spec. simpl.
  destruct (decide (q_chunk q = c)) as [<-|Hne]; [|exists b; by rewrite lookup_insert_ne].
  exists buf'. rewrite lookup_insert_eq. split; [done|]. rewrite Hb in Hc. injection Hc as ->. specialize (Ht eq_refl).
  rewrite Nat.add_0_r in *. apply (f_equal (drop (q_off q))) in Ht. rewrite !skipn_firstn_comm in Ht.
  replace (q_off q + length d - q_off q)%nat with (length d) in Ht by lia. by rewrite Ht.
Qed.

Lemma holds_fresh s c buf q d : chunks s !! c = None -> holds_bytes s q d -> holds_bytes (with_chunks <[c := buf]> s) q d.
Proof.
  unfold holds_bytes. intros Hc H. apply get_bytes_spec in H as (b & Hb & E). apply get_bytes_spec. exists b. split; [|done]. simpl.
  rewrite lookup_insert_ne; [done|congruence].
Qed.

Lemma Forall2_both {A B} (P R T : A -> B -> Prop) l k : (forall x y, P x y -> R x y -> T x y) -> Forall2 P l k -> Forall2 R l k -> Forall2 T l k.
Proof. intros H H1. induction H1; intros H2; inversion H2; subst; constructor; auto. Qed.

(** The bytes of the last chunk after those in use change. *)
Lemma set_chunk_ok s Q G buf buf' u : qstr_ok s Q G -> qstr_last_chunk s <> 0%nat -> chunks s !! qstr_last_chunk s = Some buf ->
  take (Z.to_nat (qstr_last_used s)) buf' = take (Z.to_nat (qstr_last_used s)) buf ->
  qstr_last_used s <= u <= Z.of_nat (length buf') -> Z.of_nat (length buf') <= qheap_bytes s ->
  qstr_ok (with_last (qstr_last_chunk s) (Z.of_nat (length buf')) u (with_chunks <[qstr_last_chunk s := buf']> s)) Q G.
Proof.
  intros [H1 H2 H3 (Hb1 & Hb2 & Hb3) H5 H6 H7] Hc Hb Ht Hu Hh. destruct (H6 Hc) as (Hu0 & _). constructor; simpl; try done.
  - eapply Forall2_both; [|exact H2|exact (H7 Hc)]. intros q d Hq Hd. simpl in Hd.
    refine (holds_insert s _ buf buf' q d Hb _ Hq). intros E. eapply take_same; [exact Ht|]. specialize (Hd E). lia.
  - split; [done|]. split; [done|]. intros k [x Hk]. destruct (decide (k = qstr_last_chunk s)) as [->|]; [by eauto|].
    rewrite lookup_insert_ne in Hk by done. eauto.
  - intros _. split; [lia|]. split; [done|]. exists buf'. by rewrite lookup_insert_eq.
  - intros _. eapply list.Forall2_impl; [exact (H7 Hc)|]. simpl. intros q d Hd E. specialize (Hd E). lia.
Qed.

(** The last chunk is given up. *)
Lemma leave_chunk_ok s Q G a u : qstr_ok s Q G -> qstr_ok (with_last 0 a u s) Q G.
Proof. intros [H1 H2 H3 H4 H5 H6 H7]. by constructor. Qed.

Lemma free_chunk_ok s Q G a u : qstr_ok s Q G -> qstr_last_chunk s <> 0%nat -> qstr_last_used s = 0 ->
  qstr_ok (with_last 0 a u (with_chunks (delete (qstr_last_chunk s)) s)) Q G.
Proof.
  intros [H1 H2 [H3 H3'] (Hb1 & Hb2 & Hb3) H5 H6 H7] Hc Hu. pose proof (data_entries _ H3') as He.
  constructor; simpl; try done.
  - assert (Hl : Forall (fun d => (0 < length d)%nat) (data_of G)).
    { eapply list.Forall_impl; [exact He|]. intros d [->|(str & _ & ->)]; [simpl; lia|rewrite length_make_bytes; lia]. }
    specialize (H7 Hc). rewrite Hu in H7. clear He H6 H1. revert H7 Hl. generalize (data_of G), H2. clear H2. intros ds H2 H7 Hl. induction H2 as [|q d Q' ds Hq _ IH]; constructor.
    + apply list.Forall2_cons_1 in H7 as [Hd _]. apply list.Forall_cons in Hl as [Hd' _]. revert Hq. unfold holds_bytes. rewrite !get_bytes_spec. simpl.
      intros (b & Hb & E). exists b. split; [|done]. rewrite lookup_delete_ne; [done|]. intros E'. specialize (Hd (eq_sym E')). lia.
    + apply list.Forall2_cons_1 in H7 as [_ H7]. apply list.Forall_cons in Hl as [_ Hl]. by apply IH.
  - split; [done|]. split; [done|]. intros k [x Hk]. apply lookup_delete_Some in Hk as [_ Hk]. eauto.
Qed.

Lemma with_heap_ok s Q G b a : qstr_ok s Q G -> (qbrk s <= b)%nat -> qstr_ok (with_heap b a s) Q G.
Proof.
  intros [H1 H2 H3 (Hb1 & Hb2 & Hb3) H5 H6 H7] Hb. constructor; simpl; try done.
  split; [lia|]. split; intros k Hk; [specialize (Hb2 k Hk)|specialize (Hb3 k Hk)]; lia.
Qed.

(** ** Allocation *)

Lemma m_malloc_maybe_run n s : exists a, (qanswers s = [] -> a = [])
  /\ (m_malloc_maybe n s = Some (Ok 0%nat, with_heap (qbrk s) a s) /\ (qanswers s = [] -> qheap_bytes s < n)
      \/ n <= qheap_bytes s /\ m_malloc_maybe n s = Some (Ok (qbrk s), with_heap (S (qbrk s)) a s)).
Proof.
  unfold m_malloc_maybe. rewrite (X_bind_Ok qget _ s s s) by reflexivity. destruct (qanswers s) as [|[] a] eqn:Ea.
  3: { exists a. split; [done|]. left. split; [reflexivity|done]. }
  all: exists (tail (qanswers s)); rewrite Ea; split; [done|]; cbn [tail]; erewrite X_bind_Ok by reflexivity;
    destruct (Z.ltb_spec (qheap_bytes s) n); [left; split; [reflexivity|done]|right; split; [done|reflexivity]].
Qed.

Lemma same_mem_refl s : same_mem s s.
Proof. done. Qed.
Lemma same_mem_trans s1 s2 s3 : same_mem s1 s2 -> same_mem s2 s3 -> same_mem s1 s3.
Proof. intros [H1 H2] [H3 H4]. split; [congruence|auto]. Qed.

(** ** Memory for a string *)

Lemma m_new_maybe_bytes_run n s : (0 < qbrk s)%nat -> exists a, (qanswers s = [] -> a = [])
  /\ (m_new_maybe_bytes n s = Some (Ok 0%nat, with_heap (qbrk s) a s) /\ (qanswers s = [] -> qheap_bytes s < n)
      \/ n <= qheap_bytes s /\ m_new_maybe_bytes n s
         = Some (Ok (qbrk s), with_chunks <[qbrk s := replicate (Z.to_nat n) None]> (with_heap (S (qbrk s)) a s))).
Proof.
  intros Hb. unfold m_new_maybe_bytes. destruct (m_malloc_maybe_run n s) as (a & Ha & [[E Hn]|[Hn E]]); exists a; (split; [done|]).
  - left. split; [|done]. by rewrite (X_bind_Ok _ _ _ _ _ E).
  - right. split; [done|]. rewrite (X_bind_Ok _ _ _ _ _ E). by rewrite (proj2 (Nat.eqb_neq (qbrk s) 0)) by lia.
Qed.

Lemma fresh_chunk_ok s Q G a n : qstr_ok s Q G -> 0 <= n <= qheap_bytes s ->
  qstr_ok (with_last (qbrk s) n 0 (with_chunks <[qbrk s := replicate (Z.to_nat n) None]> (with_heap (S (qbrk s)) a s))) Q G.
Proof.
  intros [H1 H2 H3 (Hb1 & Hb2 & Hb3) H5 H6 H7] Hn.
  assert (Hf : chunks s !! qbrk s = None) by (apply eq_None_not_Some; intros Hk; specialize (Hb3 _ Hk); lia).
  constructor; simpl; try done.
  - eapply list.Forall2_impl; [exact H2|]. intros q d Hq. exact (holds_fresh s (qbrk s) _ q d Hf Hq).
  - split; [lia|]. split; intros k Hk; [specialize (Hb2 k Hk); lia|]. destruct (decide (k = qbrk s)) as [->|Hne]; [lia|].
    rewrite lookup_insert_ne in Hk by done. specialize (Hb3 _ Hk). lia.
  - intros _. split; [lia|]. split; [lia|]. eexists. split; [apply lookup_insert_eq|]. rewrite length_replicate. lia.
  - intros _. eapply list.Forall2_impl; [exact H2|]. intros q d Hq E. apply get_bytes_spec in Hq as (b & Hb & _). congruence.
Qed.

Lemma m_renew_maybe_bytes_run c n buf s : chunks s !! c = Some buf -> 0 <= n ->
  exists a, (qanswers s = [] -> a = []) /\
  (n = 0 /\ m_renew_maybe_bytes c n s = Some (Ok false, with_chunks (delete c) s)
   \/ 0 < n <= Z.of_nat (length buf) /\ m_renew_maybe_bytes c n s = Some (Ok true, with_chunks <[c := take (Z.to_nat n) buf]> s)
   \/ Z.of_nat (length buf) < n /\ m_renew_maybe_bytes c n s = Some (Ok false, with_heap (qbrk s) a s)
   \/ Z.of_nat (length buf) < n <= qheap_bytes s /\ m_renew_maybe_bytes c n s
      = Some (Ok true, with_chunks <[c := buf ++ replicate (Z.to_nat n - length buf) None]> (with_heap (qbrk s) a s))).
Proof.
  intros Hb Hn. unfold m_renew_maybe_bytes. rewrite (X_bind_Ok qget _ s s s) by reflexivity.
  rewrite (X_bind_Ok (xlift _) _ s buf s) by (unfold xlift; by rewrite Hb).
  destruct (Z.eqb_spec n 0) as [->|H0]; [exists []; split; [done|]; left; done|].
  destruct (Z.leb_spec n (Z.of_nat (length buf))) as [Hle|Hgt]; [exists []; split; [done|]; right; left; split; [lia|done]|].
  destruct (qanswers s) as [|[] a] eqn:Ea.
  3: { exists a. split; [done|]. right. right. left. done. }
  all: exists (tail (qanswers s)); rewrite Ea; split; [done|]; cbn [tail]; right; right; erewrite X_bind_Ok by reflexivity;
    destruct (Z.ltb_spec (qheap_bytes s) n); [by left|right; split; [lia|done]].
Qed.

(** What the steps that find memory leave alone. *)
Definition same_pools s s' : Prop := pools s' = pools s /\ last_pool s' = last_pool s.

Lemma grow_chunk_run n s Q G : qstr_ok s Q G -> 0 < n < 2 ^ 10 -> exists s', grow_chunk n s = Some (Ok tt, s')
  /\ qstr_ok s' Q G /\ same_mem s s' /\ same_pools s s' /\ (qstr_last_chunk s' = 0%nat \/ qstr_last_chunk s' = qstr_last_chunk s)
  /\ (qstr_last_chunk s' <> 0%nat -> qstr_last_used s' + n <= qstr_last_alloc s').
Proof.
  intros Hok Hn. unfold grow_chunk. rewrite (X_bind_Ok qget _ s s s) by reflexivity. cbv zeta.
  destruct (Nat.eqb_spec (qstr_last_chunk s) 0) as [E0|Hc]; simpl.
  { exists s. split; [done|]. split; [done|]. split; [done|]. split; [done|]. split; [by left|done]. }
  destruct (qo_chunk _ _ _ Hok Hc) as (Hu & Ha & buf & Hb & Hl). pose proof (qo_heap _ _ _ Hok) as Hh. rewrite (wrap_id 32 (_ + n)) by lia.
  destruct (Z.ltb_spec (qstr_last_alloc s) (qstr_last_used s + n)) as [Hlt|Hge].
  2: { exists s. split; [done|]. split; [done|]. split; [done|]. split; [done|]. split; [by right|lia]. }
  rewrite (wrap_id 32 (_ + n)) by lia.
  destruct (m_renew_maybe_bytes_run (qstr_last_chunk s) (qstr_last_alloc s + n) buf s Hb) as (a & Han & Hr); [lia|].
  destruct Hr as [[? _]|[[? _]|[[Hlb E]|[Hlb E]]]]; [lia|lia| |]; rewrite (X_bind_Ok _ _ _ _ _ E).
  - set (s1 := with_heap (qbrk s) a s). assert (Hok1 : qstr_ok s1 Q G) by (by apply with_heap_ok; [|lia]).
    destruct (m_renew_maybe_bytes_run (qstr_last_chunk s) (qstr_last_used s) buf s1 Hb) as (a2 & _ & Hr); [lia|].
    destruct Hr as [[Hu0 E2]|[[Hu0 E2]|[[? _]|[? _]]]]; [| |lia|lia]; rewrite (X_bind_Ok _ _ _ _ _ E2); eexists; (split; [reflexivity|]).
    + split; [|split; [split; [done|exact Han]|]; split; [done|]; split; [by left|done]]. exact (free_chunk_ok s1 Q G _ _ Hok1 Hc Hu0).
    + split; [|split; [split; [done|exact Han]|]; split; [done|]; split; [by left|done]].
      pose proof (set_chunk_ok s1 Q G buf (take (Z.to_nat (qstr_last_used s)) buf) (qstr_last_used s) Hok1 Hc Hb) as H.
      apply (leave_chunk_ok (with_last _ _ _ _) Q G (qstr_last_alloc s) (qstr_last_used s)) in H; [exact H|..]; simpl.
      * rewrite take_take. f_equal. lia.
      * rewrite length_take_le by lia. lia.
      * rewrite length_take_le by lia. lia.
  - eexists. split; [reflexivity|]. set (buf' := buf ++ _) in *.
    assert (El : Z.of_nat (length buf') = qstr_last_alloc s + n) by (unfold buf'; rewrite length_app, length_replicate; lia).
    split; [|split; [split; [done|exact Han]|]; split; [done|]; split; [by right|simpl; lia]].
    rewrite <- El. apply (set_chunk_ok (with_heap (qbrk s) a s) Q G buf buf' (qstr_last_used s)); simpl; try done; try lia.
    + by apply with_heap_ok; [|lia].
    + unfold buf'. rewrite take_app_le by lia. done.
Qed.

Lemma new_chunk_run n s Q G : qstr_ok s Q G -> 0 < n < 2 ^ 10 ->
  (qstr_last_chunk s <> 0%nat -> qstr_last_used s + n <= qstr_last_alloc s) -> exists s',
  qstr_ok s' Q G /\ same_mem s s' /\ same_pools s s' /\
  (new_chunk n s = Some (Raise MemoryError, s') /\ qstr_last_chunk s' = 0%nat /\ (qanswers s = [] -> qheap_bytes s < n)
   \/ new_chunk n s = Some (Ok tt, s') /\ qstr_last_chunk s' <> 0%nat /\ qstr_last_used s' + n <= qstr_last_alloc s'
      /\ (qstr_last_chunk s' = qstr_last_chunk s \/ qstr_last_used s' = 0)).
Proof.
  intros Hok Hn Hroom. unfold new_chunk. rewrite (X_bind_Ok qget _ s s s) by reflexivity. cbv zeta.
  destruct (Nat.eqb_spec (qstr_last_chunk s) 0) as [E0|Hc].
  2: { exists s. split; [done|]. split; [done|]. split; [done|]. right. split; [done|]. split; [done|]. split; [auto|by left]. }
  unfold MICROPY_ALLOC_QSTR_CHUNK_INIT. set (al := Z.max n 128). assert (Hal : n <= al) by (unfold al; lia). pose proof (qo_brk _ _ _ Hok) as (Hb0 & _).
  destruct (m_new_maybe_bytes_run al s Hb0) as (a & Ha & [[E Hm]|[Hm E]]); rewrite (X_bind_Ok _ _ _ _ _ E).
  - cbn [Nat.eqb]. set (s1 := with_heap (qbrk s) a s). assert (Hok1 : qstr_ok s1 Q G) by (by apply with_heap_ok; [|lia]).
    destruct (m_new_maybe_bytes_run n s1 Hb0) as (a2 & Ha2 & [[E2 Hm2]|[Hm2 E2]]); rewrite (X_bind_Ok _ _ _ _ _ E2).
    + exists (with_heap (qbrk s1) a2 s1). split; [by apply with_heap_ok; [|lia]|]. split; [split; [done|]; auto|]. split; [done|].
      left. split; [done|]. split; [done|]. intros H. by apply Hm2, Ha.
    + rewrite (proj2 (Nat.eqb_neq (qbrk s1) 0)) by (change (qbrk s1) with (qbrk s); lia). eexists.
      split; [apply (fresh_chunk_ok s1 Q G a2 n Hok1); change (qheap_bytes s1) with (qheap_bytes s) in *; lia|].
      split; [split; [done|]; simpl; auto|]. split; [done|]. right. split; [reflexivity|]. simpl. split; [lia|]. split; [lia|]. by right.
  - rewrite (proj2 (Nat.eqb_neq (qbrk s) 0)) by lia. eexists.
    split; [apply (fresh_chunk_ok s Q G a al Hok); lia|].
    split; [split; [done|]; simpl; auto|]. split; [done|]. right. split; [reflexivity|]. simpl. split; [lia|]. split; [lia|]. by right.
Qed.

(** ** Writing a string *)

(** The buffer with the bytes [w] at [o]. *)
Definition written (o : nat) (w : list Z) (buf : list (option Z)) : list (option Z) :=
  take o buf ++ map Some w ++ drop (o + length w) buf.

Lemma length_written o w buf : (o + length w <= length buf)%nat -> length (written o w buf) = length buf.
Proof. intros H. unfold written. rewrite !length_app, length_map, length_take_le, length_drop by lia. lia. Qed.

Lemma put_next s c o w bs buf : (o + length (w ++ bs) <= length buf)%nat ->
  put_bytes (MkPtr c o) (length w) bs (with_chunks <[c := written o w buf]> s)
  = Some (Ok tt, with_chunks <[c := written o (w ++ bs) buf]> s).
Proof.
  rewrite length_app. intros H. unfold put_bytes. rewrite (X_bind_Ok qget _ _ _ _ eq_refl). simpl q_chunk. simpl q_off.
  rewrite (X_bind_Ok (xlift _) _ _ (written o w buf) (with_chunks <[c := written o w buf]> s))
    by (unfold xlift; simpl; by rewrite lookup_insert_eq).
  cbv zeta. rewrite length_written by lia. replace (_ <=? length buf)%nat with true by lia.
  unfold qmodify. do 2 f_equal. unfold with_chunks. simpl. f_equal. rewrite insert_insert_eq. f_equal. unfold written.
  rewrite take_app_ge, drop_app_ge by (rewrite length_take_le; lia). rewrite length_take_le by lia.
  rewrite take_app_length', drop_app_ge by (rewrite ?length_map; lia). rewrite length_map, drop_drop, map_app, length_app, <- !app_assoc.
  do 4 f_equal. lia.
Qed.

Lemma with_chunks_id s c buf : chunks s !! c = Some buf -> with_chunks <[c := buf]> s = s.
Proof. intros H. unfold with_chunks. rewrite insert_id by done. by destruct s. Qed.

Lemma written_nil o buf : (o <= length buf)%nat -> written o [] buf = buf.
Proof. intros H. unfold written. rewrite Nat.add_0_r. simpl. apply take_drop. Qed.

Lemma write_string s c o str buf : chunks s !! c = Some buf -> (length str < 256)%nat -> (o + length (make_bytes str) <= length buf)%nat ->
  forall B (f : Q B), (Q_SET_HASH (MkPtr c o) (qstr_compute_hash str);; Q_SET_LENGTH (MkPtr c o) (Z.of_nat (length str));;
    put_bytes (MkPtr c o) Q_DATA str;; put_bytes (MkPtr c o) (Q_DATA + length str) [0];; f) s
  = f (with_chunks <[c := written o (make_bytes str) buf]> s).
Proof.
  intros Hc Hv Hl B f. rewrite length_make_bytes in Hl. set (h := qstr_compute_hash str). set (m := fun w => with_chunks <[c := written o w buf]> s).
  assert (E0 : m [] = s) by (unfold m; rewrite written_nil by lia; by apply with_chunks_id).
  set (b1 := [wrap 8 h]). set (b2 := b1 ++ [wrap 8 (Z.shiftr h 8)]). set (b3 := b2 ++ [wrap 8 (Z.of_nat (length str))]).
  assert (Eb : make_bytes str = (b3 ++ str) ++ [0]).
  { rewrite make_bytes_eq. unfold b3. rewrite (wrap_id 8) by lia. by rewrite <- !app_assoc. }
  rewrite <- E0 at 1. unfold Q_SET_HASH. rewrite !X_bind_assoc.
  rewrite (X_bind_Ok _ _ _ _ _ (put_next s c o [] [wrap 8 h] buf ltac:(simpl; lia))).
  rewrite (X_bind_Ok _ _ _ _ _ (put_next s c o b1 [wrap 8 (Z.shiftr h 8)] buf ltac:(simpl; lia))).
  unfold Q_SET_LENGTH. rewrite (X_bind_Ok _ _ _ _ _ (put_next s c o b2 [wrap 8 (Z.of_nat (length str))] buf ltac:(simpl; lia))).
  rewrite (X_bind_Ok _ _ _ _ _ (put_next s c o b3 str buf ltac:(simpl; lia))).
  replace (Q_DATA + length str)%nat with (length (b3 ++ str)) by (rewrite length_app; done).
  rewrite (X_bind_Ok _ _ _ _ _ (put_next s c o (b3 ++ str) [0] buf ltac:(rewrite !length_app; simpl; lia))). by rewrite <- Eb.
Qed.

Lemma holds_written s c o d buf : (o + length d <= length buf)%nat -> holds_bytes (with_chunks <[c := written o d buf]> s) (MkPtr c o) d.
Proof.
  intros Hl. apply get_bytes_spec. exists (written o d buf). simpl. rewrite lookup_insert_eq. split; [done|].
  unfold written. rewrite Nat.add_0_r, drop_app_length' by (rewrite length_take_le; lia).
  by rewrite take_app_length' by (by rewrite length_map).
Qed.

(** ** Room in the last pool *)

(** A string is stored and not in a pool yet. *)
Definition stored s q d : Prop :=
  holds_bytes s q d /\ q_chunk q = qstr_last_chunk s /\ Z.of_nat (q_off q + length d) <= qstr_last_used s /\ qstr_last_chunk s <> 0%nat.

(** The invariant where only pools were added. *)
Lemma new_pool_ok s Q G p al rest a : qstr_ok s Q G -> Z.of_nat (length Q) < 2 ^ 31 -> p = qbrk s ->
  0 <= al < 2 ^ 29 - 3 -> Z.of_nat (length rest) = al ->
  qstr_ok (with_last_pool p (with_pools <[p := MkPool (last_pool s) (Z.of_nat (length Q)) al 0 rest]> (with_heap (S p) a s))) Q G.
Proof.
  intros [(ids & Hp & Hnd) H2 H3 (Hb1 & Hb2 & Hb3) H5 H6 H7] Hb -> Hal Hr.
  assert (Hf : qbrk s ∉ ids) by (intros Hi; specialize (Hb2 _ (pool_list_dom _ _ _ _ _ Hp Hi)); lia).
  constructor; simpl; try done.
  - exists (qbrk s :: ids). split; [|by constructor].
    epose proof (pl_cons _ (qbrk s) (MkPool (last_pool s) (Z.of_nat (length Q)) al 0 rest) ids Q [] rest) as H. rewrite app_nil_r in H.
    apply H; [lia|apply lookup_insert_eq|done|done|done|split; simpl; [done|lia]|].
    by apply pool_list_insert.
  - split; [lia|]. split; intros k Hk; [|specialize (Hb3 _ Hk); lia].
    destruct (decide (k = qbrk s)) as [->|Hne]; [lia|]. rewrite lookup_insert_ne in Hk by done. specialize (Hb2 _ Hk). lia.
Qed.

Definition has_room s : Prop := exists pl, pools s !! last_pool s = Some pl /\ qp_len pl < qp_alloc pl.

Lemma room_in_pool_run s Q G : qstr_ok s Q G -> Z.of_nat (length Q) < 2 ^ 31 -> exists s', qstr_ok s' Q G /\ same_mem s s'
  /\ (forall q d, holds_bytes s q d -> holds_bytes s' q d)
  /\ qstr_last_chunk s' = qstr_last_chunk s /\ qstr_last_used s' = qstr_last_used s
  /\ (room_in_pool s = Some (Raise MemoryError, s') /\ (qanswers s = [] -> qheap_bytes s < 56 + 8 * Z.of_nat (length Q))
      \/ room_in_pool s = Some (Ok tt, s') /\ has_room s').
Proof.
  intros Hok Hb. pose proof (qo_pools _ _ _ Hok) as (ids & Hp & Hnd).
  destruct (pool_list_inv _ _ _ _ Hp (ok_last_pool _ _ _ Hok)) as (pl & ids' & Q' & us & rest & Hm & -> & -> & Ht & Hl & Hq & [Hal Hr] & _).
  unfold room_in_pool. rewrite (X_bind_Ok qget _ s s s) by reflexivity.
  rewrite (X_bind_Ok (xlift _) _ s pl s) by (unfold xlift; by rewrite Hm).
  destruct (Z.leb_spec (qp_alloc pl) (qp_len pl)) as [Hle|Hlt].
  2: { exists s. split; [done|]. split; [done|]. split; [done|]. split; [done|]. split; [done|]. right. split; [done|]. exists pl. done. }
  rewrite length_app in Hb. unfold MICROPY_ALLOC_QSTR_ENTRIES_INIT, POOL_SIZE. rewrite (wrap_id 32 (_ * 2)) by lia.
  set (al := Z.max 10 _). assert (Hal2 : 10 <= al <= 2 * qp_len pl + 10 /\ al < 2 ^ 30 - 4) by (unfold al; lia).
  cbv zeta. rewrite (wrap_id 32 (16 + _)) by lia.
  destruct (m_malloc_maybe_run (16 + 4 * al) s) as (a & Ha & [[E Hn]|[Hn E]]); rewrite (X_bind_Ok _ _ _ _ _ E).
  - exists (with_heap (qbrk s) a s). split; [by apply with_heap_ok; [|lia]|]. split; [done|]. split; [done|]. split; [done|]. split; [done|].
    left. split; [done|]. intros H. specialize (Hn H). rewrite length_app. lia.
  - pose proof (qo_brk _ _ _ Hok) as (Hb0 & _). pose proof (qo_heap _ _ _ Hok) as Hh. rewrite (proj2 (Nat.eqb_neq (qbrk s) 0)) by lia.
    rewrite (wrap_id 32 (_ + qp_len pl)) by lia. rewrite Ht, Hl.
    replace (Z.of_nat (length Q') + Z.of_nat (length us)) with (Z.of_nat (length (Q' ++ us))) by (rewrite length_app; lia).
    eexists. split; [apply (new_pool_ok s (Q' ++ us) G (qbrk s) al (replicate (Z.to_nat ((16 + 4 * al - 16) / 4)) None) a); [done|rewrite length_app; lia|done| |]|].
    3: { split; [done|]. split; [done|]. split; [done|]. split; [done|]. right. split; [reflexivity|].
         eexists. simpl. rewrite lookup_insert_eq. split; [reflexivity|]. simpl. lia. }
    + lia.
    + rewrite length_replicate. replace ((16 + 4 * al - 16) / 4) with al by (apply (Z.div_unique_pos _ _ _ 0); lia). lia.
Qed.

Lemma qstr_ok_add s Q G q str pl : qstr_ok s Q G -> Z.of_nat (length Q) < 2 ^ 31 -> stored s q (make_bytes str) -> valid_str str -> str ∉ G ->
  pools s !! last_pool s = Some pl -> qp_len pl < qp_alloc pl -> exists Q' us rest, Q = Q' ++ us
  /\ qp_total_prev_len pl = Z.of_nat (length Q') /\ qp_len pl = Z.of_nat (length us) /\ (length us < length (qp_qstrs pl))%nat
  /\ qstr_ok (with_pools <[last_pool s := MkPool (qp_prev pl) (qp_total_prev_len pl) (qp_alloc pl) (qp_len pl + 1) (<[length us := Some q]> (qp_qstrs pl))]> s)
      (Q ++ [q]) (G ++ [str]) /\ qp_qstrs pl = map Some us ++ rest.
Proof.
  intros Hok Hb (Hq & Hqc & Hqu & Hc0) Hv Hs Hm Hroom. destruct Hok as [(ids & Hp & Hnd) H2 [H3 H3'] (Hb1 & Hb2 & Hb3) H5 H6 H7].
  assert (Hlp : last_pool s <> 0%nat).
  { intros E. rewrite E in Hp. inversion Hp; subst; [by inversion H2|done]. }
  destruct (pool_list_inv _ _ _ _ Hp Hlp) as (pl' & ids' & Q' & us & rest & Hm' & -> & -> & Ht & Hl & Hqs & [Hal Hr] & Hp').
  rewrite Hm in Hm'. injection Hm' as <-. specialize (Hr Hroom). destruct rest as [|o rest]; [simpl in Hr; lia|].
  exists Q', us, (o :: rest). split; [done|]. split; [done|]. split; [done|]. split; [rewrite Hqs, length_app, length_map; simpl; lia|]. split; [|done].
  constructor; simpl; try done.
  - exists (last_pool s :: ids'). split; [|done]. rewrite <- app_assoc. apply list.NoDup_cons in Hnd as [Hnd _].
    eapply (pl_cons _ (last_pool s) _ ids' Q' (us ++ [q]) rest); [done|apply lookup_insert_eq|done|rewrite length_app; simpl; lia| |split; simpl; [done|]|].
    + simpl. rewrite Hqs. rewrite insert_app_r_alt by (by rewrite length_map). rewrite length_map, Nat.sub_diag. simpl. rewrite map_app, <- app_assoc. done.
    + simpl in Hr. lia.
    + by apply pool_list_insert.
  - unfold data_of. rewrite map_app, app_comm_cons. apply Forall2_app; [exact H2|]. by repeat constructor.
  - split; [|by apply Forall_app; split; [|constructor]]. apply list.NoDup_app. split; [done|]. split; [|apply list.NoDup_singleton].
    intros x Hx E. apply list_elem_of_singleton in E as ->. done.
  - split; [done|]. split; [|done]. intros k Hk. destruct (decide (k = last_pool s)) as [->|Hne]; [apply Hb2; by rewrite Hm|].
    rewrite lookup_insert_ne in Hk by done. by apply Hb2.
  - intros Hc. unfold data_of. rewrite map_app, app_comm_cons. apply Forall2_app; [exact (H7 Hc)|]. constructor; [done|constructor].
Qed.

Lemma qstr_add_run s Q G q str : qstr_ok s Q G -> Z.of_nat (length Q) < 2 ^ 31 -> stored s q (make_bytes str) -> valid_str str -> str ∉ G ->
  exists s', same_mem s s' /\ qstr_last_chunk s' = qstr_last_chunk s
  /\ (qstr_add q s = Some (Raise MemoryError, s') /\ qstr_ok s' Q G /\ (qanswers s = [] -> qheap_bytes s < 56 + 8 * Z.of_nat (length Q))
      \/ qstr_add q s = Some (Ok (Z.of_nat (S (length G))), s') /\ qstr_ok s' (Q ++ [q]) (G ++ [str])).
Proof.
  intros Hok Hb (Hq & Hqc & Hqu & Hc0) Hv Hs. unfold qstr_add.
  destruct (room_in_pool_run s Q G Hok Hb) as (s1 & Hok1 & Hmem & Hh & Hc & Hu & [[E Hn]|[E (pl & Hm & Hroom)]]).
  { exists s1. split; [done|]. split; [done|]. left. by rewrite (X_bind_Raise _ _ _ _ _ E). }
  rewrite (X_bind_Ok _ _ _ _ _ E). rewrite (X_bind_Ok qget _ s1 s1 s1) by reflexivity.
  rewrite (X_bind_Ok (xlift _) _ s1 pl s1) by (unfold xlift; by rewrite Hm). cbv zeta.
  assert (Hst : stored s1 q (make_bytes str)) by (split; [by apply Hh|rewrite Hc, Hu; done]).
  destruct (qstr_ok_add s1 Q G q str pl Hok1 Hb Hst Hv Hs Hm Hroom) as (Q' & us & rest & -> & Ht & Hl & Hlen & Hok2 & _).
  rewrite Hl, Nat2Z.id. replace (length us <? length (qp_qstrs pl))%nat with true by lia. rewrite length_app in Hb.
  rewrite (wrap_id 32 (_ + 1)) by lia. rewrite Hl in Hok2. set (s2 := with_pools _ s1) in *.
  rewrite (X_bind_Ok _ _ s1 tt s2) by reflexivity. rewrite (X_bind_Ok qget _ s2 s2 s2) by reflexivity.
  assert (Hm2 : pools s2 !! last_pool s2 = Some (MkPool (qp_prev pl) (qp_total_prev_len pl) (qp_alloc pl) (Z.of_nat (length us) + 1) (<[length us := Some q]> (qp_qstrs pl))))
    by apply lookup_insert_eq.
  erewrite (X_bind_Ok (xlift _) _ s2 _ s2) by (unfold xlift; rewrite Hm2; reflexivity).
  exists s2. split; [done|]. split; [done|]. right. split; [|done]. unfold mret, X_ret. simpl. rewrite Ht.
  pose proof (ok_length _ _ _ Hok1) as Hlq. rewrite length_app in Hlq. rewrite wrap_id by lia. do 3 f_equal. lia.
Qed.
