(* ===== verification/QstrIntern.v ===== *)
(** Interning, the queries and the life of the pools from the constant data on. *)
From Stdlib Require Import ZifyBool.
From S2P Require Import Prelude PyExn Qstr QstrThms.

Implicit Types (s : qstate) (str d : list Z) (G : list (list Z)) (Q : list qptr).

(** ** Looking a string up *)

(** The specification: the strings in the order of their ids, which start from 1. *)
Definition id_of str G : option nat := fst <$> list_find (fun x => x = str) G.
Definition qstr_of (o : option nat) : Z := match o with Some i => Z.of_nat (S i) | None => 0 end.

Lemma id_of_Some str G i : NoDup G -> G !! i = Some str -> id_of str G = Some i.
Proof.
  intros Hn Hi. unfold id_of. destruct (list_find_elem_of (fun x => x = str) G str) as [[j x] Hj]; [by eapply list_elem_of_lookup_2|done|].
  rewrite Hj. simpl. f_equal. apply list_find_Some in Hj as (Hj & -> & _). by eapply list.NoDup_lookup.
Qed.

Lemma id_of_None str G : str ∉ G -> id_of str G = None.
Proof.
  intros Hn. unfold id_of. destruct (list_find _ G) as [[j x]|] eqn:E; [|done]. apply list_find_Some in E as (Hj & -> & _).
  destruct Hn. by eapply list_elem_of_lookup_2.
Qed.

Lemma id_of_elem str G i : id_of str G = Some i -> G !! i = Some str.
Proof.
  unfold id_of. destruct (list_find _ G) as [[j x]|] eqn:E; [|done]. apply list_find_Some in E as (Hj & -> & _). simpl. by intros [= <-].
Qed.

Lemma id_of_absent str G : id_of str G = None -> str ∉ G.
Proof.
  intros H Hs. destruct (list_find_elem_of (fun x => x = str) G str) as [[j x] Hj]; [done|done|]. unfold id_of in H. by rewrite Hj in H.
Qed.

Lemma find_run s Q G str : qstr_ok s Q G -> Z.of_nat (length Q) < 2 ^ 31 -> qstr_find_strn s str = Some (qstr_of (id_of str G)).
Proof.
  intros Hok Hb. destruct Hok as [(ids & Hp & Hnd) H2 [H3 H3'] _ _ _ _]. unfold qstr_find_strn.
  destruct (search_pools_spec s str _ _ _ Hp ltac:(lia) (data_of G) (pool_fuel s)) as (o & Ho & ->);
    [done|by apply data_entries|unfold pool_fuel; pose proof (ids_fuel _ _ _ _ Hp Hnd); lia|].
  f_equal. destruct o as [[|i]|]; simpl in Ho.
  - apply (inj Some) in Ho. by apply null_not_made in Ho.
  - rewrite list_lookup_fmap in Ho. destruct (G !! i) as [x|] eqn:E; [|done]. apply (inj Some) in Ho. apply make_bytes_inj in Ho as ->.
    by rewrite (id_of_Some _ _ _ H3 E).
  - rewrite id_of_None; [done|]. intros Hs. apply Ho. apply list_elem_of_further. by apply list_elem_of_fmap_2.
Qed.

(** ** The queries *)

Lemma find_qstr_run s Q G i : qstr_ok s Q G -> (i < length Q)%nat -> find_qstr s (Z.of_nat i) = Q !! i.
Proof.
  intros Hok Hi. destruct (qo_pools _ _ _ Hok) as (ids & Hp & Hnd). unfold find_qstr.
  rewrite (find_pool_spec _ _ _ _ _ Hp) by (unfold pool_fuel; pose proof (ids_fuel _ _ _ _ Hp Hnd); lia). by rewrite Nat2Z.id.
Qed.

Lemma queries_run s Q G i str : qstr_ok s Q G -> G !! i = Some str ->
  qstr_len s (Z.of_nat (S i)) = Some (Z.of_nat (length str)) /\ qstr_hash s (Z.of_nat (S i)) = Some (qstr_compute_hash str)
  /\ qstr_data s (Z.of_nat (S i)) = Some str /\ qstr_str s (Z.of_nat (S i)) = Some (c_string str).
Proof.
  intros Hok Hi. pose proof (ok_length _ _ _ Hok) as Hl. apply lookup_lt_Some in Hi as Hlt.
  assert (Hd : data_of G !! S i = Some (make_bytes str)) by (unfold data_of; simpl; by rewrite list_lookup_fmap, Hi).
  destruct (Forall2_lookup_r _ _ _ _ _ (qo_data _ _ _ Hok) Hd) as (q & Hq & Hh).
  unfold qstr_len, qstr_hash, qstr_data, qstr_str. rewrite (find_qstr_run _ _ _ _ Hok) by lia. rewrite Hq. simpl.
  rewrite (holds_length _ _ _ Hh), (holds_hash _ _ _ Hh). simpl. rewrite Nat2Z.id.
  destruct (holds_data _ _ _ Hh) as [-> ->]. simpl. by rewrite c_string_app.
Qed.

Lemma total_run s Q G : qstr_ok s Q G -> Z.of_nat (length Q) < 2 ^ 31 -> QSTR_TOTAL s = Some (Z.of_nat (length Q)).
Proof.
  intros Hok Hb. pose proof (qo_pools _ _ _ Hok) as (ids & Hp & _).
  destruct (pool_list_inv _ _ _ _ Hp (ok_last_pool _ _ _ Hok)) as (pl & ids' & Q' & us & rest & Hm & _ & -> & Ht & Hl & _).
  unfold QSTR_TOTAL. rewrite Hm. simpl. rewrite Ht, Hl. rewrite length_app in *. f_equal. rewrite wrap_id by lia. lia.
Qed.

(** ** Interning *)

(** What remains to be done after the memory for the string was found. *)
Lemma qstr_store_run s Q G str : qstr_ok s Q G -> Z.of_nat (length Q) < 2 ^ 31 -> valid_str str -> str ∉ G ->
  let n_bytes := Z.of_nat (length str) + 4 in
  qstr_last_chunk s <> 0%nat -> qstr_last_used s + n_bytes <= qstr_last_alloc s ->
  let q := MkPtr (qstr_last_chunk s) (Z.to_nat (qstr_last_used s)) in
  exists r s', (set_last (qstr_last_chunk s) (qstr_last_alloc s) (wrap 32 (qstr_last_used s + n_bytes));;
    Q_SET_HASH q (qstr_compute_hash str);; Q_SET_LENGTH q (Z.of_nat (length str));;
    put_bytes q Q_DATA str;; put_bytes q (Q_DATA + length str) [0];; qstr_add q) s = Some (r, s')
  /\ same_mem s s' /\ qstr_last_chunk s' = qstr_last_chunk s
  /\ (r = Raise MemoryError /\ qstr_ok s' Q G /\ (qanswers s = [] -> qheap_bytes s < 56 + 8 * Z.of_nat (length Q))
      \/ r = Ok (Z.of_nat (S (length G))) /\ qstr_ok s' (Q ++ [q]) (G ++ [str])).
Proof.
  intros Hok Hb Hv Hs n_bytes Hc Hroom q. destruct (qo_chunk _ _ _ Hok Hc) as (Hu & Ha & buf & Hbuf & Hl).
  pose proof (qo_heap _ _ _ Hok) as Hh. rewrite (wrap_id 32) by lia. pose proof (length_make_bytes str) as Hmb.
  set (c := qstr_last_chunk s) in *. set (o := Z.to_nat (qstr_last_used s)) in *.
  erewrite X_bind_Ok by reflexivity. rewrite (write_string (with_last c _ _ s) c o str buf); [|done|by destruct Hv|lia].
  set (s1 := with_chunks _ _). assert (Hlw : length (written o (make_bytes str) buf) = length buf) by (apply length_written; lia).
  assert (Hok1 : qstr_ok s1 Q G).
  { pose proof (set_chunk_ok s Q G buf (written o (make_bytes str) buf) (qstr_last_used s + n_bytes) Hok Hc Hbuf) as H.
    rewrite Hlw, Hl in H. apply H; [|lia..]. fold o. unfold written. rewrite take_app_length' by (rewrite length_take_le; lia). done. }
  assert (Hst : stored s1 q (make_bytes str)).
  { split; [apply (holds_written (with_last c _ _ s)); lia|]. split; [done|]. split; [|done]. change (Z.of_nat (o + length (make_bytes str)) <= qstr_last_used s + n_bytes). rewrite Hmb. lia. }
  destruct (qstr_add_run s1 Q G q str Hok1 Hb Hst Hv Hs) as (s' & Hm & Hc' & [(E & Hok' & Hn)|(E & Hok')]); eexists _, s'; (split; [exact E|]);
    (split; [exact Hm|]); (split; [exact Hc'|]); [left|right]; done.
Qed.

Definition intern_spec str G : Z * list (list Z) :=
  match id_of str G with Some i => (Z.of_nat (S i), G) | None => (Z.of_nat (S (length G)), G ++ [str]) end.

Lemma intern_run s Q G str : qstr_ok s Q G -> Z.of_nat (length Q) < 2 ^ 31 -> valid_str str -> exists r s' Q' G',
  qstr_from_strn str s = Some (r, s') /\ qstr_ok s' Q' G' /\ same_mem s s' /\ (Q' = Q \/ exists q, Q' = Q ++ [q])
  /\ (r = Ok (fst (intern_spec str G)) /\ G' = snd (intern_spec str G) /\ (rooted s Q -> rooted s' Q')
      \/ r = Raise MemoryError /\ G' = G /\ (str ∉ G) /\ (qanswers s = [] -> qheap_bytes s < 300 + 8 * Z.of_nat (length Q))).
Proof.
  intros Hok Hb Hv. unfold qstr_from_strn, intern_spec. rewrite (X_bind_Ok qget _ s s s) by reflexivity.
  rewrite (X_bind_Ok (xlift _) _ s (qstr_of (id_of str G)) s) by (unfold xlift; by rewrite (find_run _ _ _ _ Hok Hb)).
  destruct (id_of str G) as [i|] eqn:Ei.
  { exists (Ok (Z.of_nat (S i))), s, Q, G. replace (qstr_of (Some i) =? 0) with false by (simpl; lia).
    split; [done|]. split; [done|]. split; [done|]. split; [by left|]. by left. }
  apply id_of_absent in Ei. cbn [qstr_of Z.eqb]. cbv zeta. pose proof Hv as [_ Hlen].
  replace (wrap 32 (Z.of_nat Q_DATA + Z.of_nat (length str) + 1)) with (Z.of_nat (length str) + 4)
    by (rewrite wrap_id; unfold Q_DATA, MICROPY_QSTR_BYTES_IN_HASH, MICROPY_QSTR_BYTES_IN_LEN; lia).
  set (n := Z.of_nat (length str) + 4). assert (Hn : 0 < n < 2 ^ 10) by lia.
  destruct (grow_chunk_run n s Q G Hok Hn) as (s1 & E1 & Hok1 & Hm1 & _ & Hc1 & Hr1). rewrite (X_bind_Ok _ _ _ _ _ E1).
  destruct (new_chunk_run n s1 Q G Hok1 Hn Hr1) as (s2 & Hok2 & Hm2 & _ & [(E2 & _ & Hf)|(E2 & Hc2 & Hr2 & Hc12)]).
  { exists (Raise MemoryError), s2, Q, G. rewrite (X_bind_Raise _ _ _ _ _ E2). split; [done|]. split; [done|].
    split; [by eapply same_mem_trans|]. split; [by left|]. right. split; [done|]. split; [done|]. split; [done|].
    intros H. destruct Hm1 as [Hh1 Ha1]. specialize (Hf (Ha1 H)). lia. }
  rewrite (X_bind_Ok _ _ _ _ _ E2). rewrite (X_bind_Ok qget _ s2 s2 s2) by reflexivity.
  destruct (qstr_store_run s2 Q G str Hok2 Hb Hv Ei Hc2 Hr2) as (r & s' & E & Hm & Hc' & [(-> & Hok' & Hf)|(-> & Hok')]);
    (pose proof (same_mem_trans _ _ _ (same_mem_trans _ _ _ Hm1 Hm2) Hm) as Hmem).
  - eexists _, s', Q, G. split; [exact E|]. split; [done|]. split; [done|]. split; [by left|]. right. split; [done|]. split; [done|]. split; [done|].
    intros H. destruct Hm1 as [Hh1 Ha1], Hm2 as [Hh2 Ha2]. specialize (Hf (Ha2 (Ha1 H))). lia.
  - eexists _, s', _, _. split; [exact E|]. split; [exact Hok'|]. split; [done|]. split; [right; by eexists|]. left.
    split; [done|]. split; [done|]. set (q := MkPtr _ _). intros [Hroot Hlast].
    assert (Hq : MkPtr (qstr_last_chunk s2) 0 ∈ Q ++ [q]).
    { apply elem_of_app. destruct Hc12 as [Ec|Eu].
      - left. rewrite Ec in *. destruct Hc1 as [Ec1|Ec1]; [by rewrite Ec1 in Hc2|]. rewrite Ec1 in *. by apply Hlast.
      - right. apply list_elem_of_singleton. unfold q. by rewrite Eu. }
    split; [|intros _; by rewrite Hc']. intros q' Hq'. apply elem_of_app in Hq' as [Hq'|Hq'%list_elem_of_singleton]; [|by subst].
    apply elem_of_app. left. by apply Hroot.
Qed.

(** ** The firmware's strings *)

Lemma imap_chunks (f : list Z -> list (option Z)) ds k i :
  (list_to_map (imap (fun i d => ((k + i)%nat, f d)) ds) : gmap nat (list (option Z))) !! (k + i)%nat = f <$> ds !! i.
Proof.
  revert k i. induction ds as [|d ds IH]; intros k i; [rewrite lookup_nil; apply lookup_empty|]. rewrite imap_cons, list_to_map_cons.
  destruct i as [|i].
  - rewrite Nat.add_0_r, lookup_insert_eq. done.
  - rewrite lookup_insert_ne by lia. change ((d :: ds) !! S i) with (ds !! i). rewrite <- (IH (S k) i).
    replace (S k + i)%nat with (k + S i)%nat by lia. do 2 f_equal. apply imap_ext. intros j x _. simpl. f_equal. lia.
Qed.

Lemma imap_chunks_dom (f : list Z -> list (option Z)) ds k c :
  is_Some ((list_to_map (imap (fun i d => ((k + i)%nat, f d)) ds) : gmap nat (list (option Z))) !! c) -> (c < k + length ds)%nat.
Proof.
  revert k. induction ds as [|d ds IH]; intros k [x Hx]; [exfalso; simpl in Hx; by rewrite lookup_empty in Hx|]. rewrite imap_cons, list_to_map_cons in Hx.
  cbn [length]. destruct (decide (c = k)) as [->|Hne]; [lia|]. rewrite lookup_insert_ne in Hx by lia. specialize (IH (S k)).
  enough (c < S k + length ds)%nat by lia. apply IH. exists x. rewrite <- Hx. do 2 f_equal. apply imap_ext. intros j y _. simpl. f_equal. lia.
Qed.

(** The strings a firmware can have: those of the C code, at least as many as the comment at
    [MICROPY_ALLOC_QSTR_ENTRIES_INIT] demands, and those of frozen code. *)
Record firmware (consts frozen : list (list Z)) : Prop := {
  fw_nodup : NoDup (consts ++ frozen);
  fw_valid : Forall valid_str (consts ++ frozen);
  fw_enough : (9 <= length consts)%nat }.

Lemma init_run consts frozen heap answers : firmware consts frozen -> 0 <= heap < 2 ^ 31 -> exists s Q,
  qstr_init (const_state consts frozen heap answers) = Some (Ok tt, s) /\ qstr_ok s Q (consts ++ frozen) /\ rooted s Q
  /\ qheap_bytes s = heap /\ qanswers s = answers.
Proof.
  intros [Hnd Hv H9] Hh. set (entry := fun i => MkPtr (3 + i) 0). set (n := S (length consts)). eexists.
  exists (map entry (seq 0 n) ++ map entry (seq n (length frozen))). split; [reflexivity|].
  split; [|split; [|done]].
  2: { split; [|done]. intros q. rewrite <- map_app. intros Hq. apply list_elem_of_fmap in Hq as (i & -> & Hi).
       apply list_elem_of_fmap. by exists i. }
  set (s := with_last _ _ _ _). constructor; simpl; try done.
  - exists [frozen_pool_id; const_pool_id]. split; [|by apply (bool_decide_unpack _); vm_compute].
    eapply (pl_cons _ frozen_pool_id _ _ (map entry (seq 0 n)) (map entry (seq n (length frozen))) []);
      [done|rewrite lookup_insert_ne by done; apply lookup_insert_eq|by rewrite length_map, length_seq|by rewrite length_map, length_seq| | |].
    + simpl. rewrite app_nil_r, map_map. reflexivity.
    + split; simpl; lia.
    + cbn [qp_prev]. eapply (pl_cons _ const_pool_id _ _ [] (map entry (seq 0 n)) []);
        [done|apply lookup_insert_eq|done|by rewrite length_map, length_seq| | |constructor].
      * cbn [qp_qstrs]. rewrite app_nil_r, map_map. reflexivity.
      * unfold MICROPY_ALLOC_QSTR_ENTRIES_INIT. split; cbn [qp_len qp_alloc]; lia.
  - change (Forall2 (holds_bytes s) (map entry (seq 0 n) ++ map entry (seq n (length frozen))) (data_of (consts ++ frozen))).
    rewrite <- map_app. replace (seq 0 n ++ seq n (length frozen)) with (seq 0 (n + length frozen)) by apply seq_app.
    apply Forall2_lookup. intros i. rewrite list_lookup_fmap. destruct (data_of (consts ++ frozen) !! i) as [d|] eqn:Ed.
    + assert (Hi : (i < n + length frozen)%nat).
      { apply lookup_lt_Some in Ed. unfold data_of in Ed. cbn [length] in Ed. rewrite length_map, length_app in Ed. lia. }
      rewrite lookup_seq_lt by lia. constructor. apply get_bytes_spec. exists (map Some d). split.
      * change (chunks s) with (list_to_map (imap (fun i d => ((3 + i)%nat, map Some d)) (data_of (consts ++ frozen))) : gmap nat (list (option Z))).
        change (q_chunk (entry (0 + i)%nat)) with (3 + i)%nat. by rewrite imap_chunks, Ed.
      * simpl. apply take_ge. by rewrite length_map.
    + rewrite lookup_seq_ge; [constructor|]. apply lookup_ge_None in Ed. unfold data_of in Ed. cbn [length] in Ed.
      rewrite length_map, length_app in Ed. lia.
  - split; [lia|]. split.
    + intros k [x Hk]. apply lookup_insert_Some in Hk as [[<- _]|[_ Hk]]; [unfold const_pool_id; lia|].
      apply lookup_insert_Some in Hk as [[<- _]|[_ Hk]]; [unfold frozen_pool_id; lia|by rewrite lookup_empty in Hk].
    + intros k Hk. exact (imap_chunks_dom (map Some) (data_of (consts ++ frozen)) 3 k Hk).
  - lia.
Qed.

(** The properties of interned strings, over sequences of operations with collections of
    the garbage between them. *)


(** ** Collections

    The collector follows the pointers of the pools; it knows a block by a pointer to its start, and
    does not look at [qstr_last_chunk], which lies after the last root pointer. *)
Fixpoint pool_ptrs (fuel : nat) s (p : nat) : option (list qptr) :=
  match fuel with
  | O => None
  | S fuel => if (p =? 0)%nat then Some []
              else pl ← pools s !! p; l ← pool_entries pl; older ← pool_ptrs fuel s (qp_prev pl); Some (older ++ l)
  end.

Definition collect_garbage : Q unit :=
  s ← qget; ptrs ← xlift (pool_ptrs (pool_fuel s) s (last_pool s));
  qmodify (with_chunks (filter (fun cb => MkPtr cb.1 0 ∈ ptrs))).

Lemma pool_ptrs_run s p ids Q : pool_list (pools s) p ids Q -> forall fuel, (length ids < fuel)%nat -> pool_ptrs fuel s p = Some Q.
Proof.
  induction 1 as [|p pl ids Q us rest Hp Hm Ht Hl Hq _ _ IH]; intros fuel Hf; (destruct fuel as [|fuel]; cbn [length] in Hf; [lia|]); cbn [pool_ptrs].
  - done.
  - apply Nat.eqb_neq in Hp. rewrite Hp, Hm. simpl. rewrite (pool_entries_spec _ _ _ Hl Hq). simpl. by rewrite IH by lia.
Qed.

Lemma collect_run s Q G : qstr_ok s Q G -> rooted s Q -> exists s', collect_garbage s = Some (Ok tt, s') /\ qstr_ok s' Q G /\ rooted s' Q /\ same_mem s s'.
Proof.
  intros Hok [Hr Hl]. pose proof (qo_pools _ _ _ Hok) as (ids & Hp & Hnd). unfold collect_garbage.
  rewrite (X_bind_Ok qget _ s s s) by reflexivity. rewrite (X_bind_Ok (xlift _) _ s Q s).
  2: { unfold xlift. rewrite (pool_ptrs_run _ _ _ _ Hp); [done|]. unfold pool_fuel. pose proof (ids_fuel _ _ _ _ Hp Hnd). lia. }
  eexists. split; [reflexivity|]. split; [|done]. destruct Hok as [H1 H2 H3 (Hb1 & Hb2 & Hb3) H5 H6 H7].
  assert (Hkeep : forall c b, MkPtr c 0 ∈ Q -> chunks s !! c = Some b -> filter (fun cb => MkPtr cb.1 0 ∈ Q) (chunks s) !! c = Some b).
  { intros c b Hc Hb. by apply map_lookup_filter_Some. }
  constructor; simpl; try done.
  - apply Forall2_same_length_lookup. split; [by eapply list.Forall2_length|]. intros i q d Hq Hd.
    pose proof (Forall2_lookup_lr _ _ _ _ _ _ H2 Hq Hd) as Hh. apply get_bytes_spec in Hh as (b & Hb & E). apply get_bytes_spec.
    exists b. split; [|done]. simpl. apply Hkeep; [|done]. apply Hr. by eapply list_elem_of_lookup_2.
  - split; [done|]. split; [done|]. intros k [x Hk]. apply map_lookup_filter_Some in Hk as [Hk _]. eauto.
  - intros Hc. destruct (H6 Hc) as (? & ? & buf & Hb & ?). split; [done|]. split; [done|]. exists buf. split; [|done]. apply Hkeep; auto.
Qed.

(** ** Sequences of operations *)

Inductive qop := Intern (str : list Z) | Find (str : list Z) | Collect.

Definition run_op (op : qop) : Q Z :=
  match op with
  | Intern str => qstr_from_strn str
  | Find str => s ← qget; xlift (qstr_find_strn s str)
  | Collect => collect_garbage;; mret 0
  end.

Fixpoint run_ops (ops : list qop) : Q (list Z) :=
  match ops with [] => mret [] | op :: ops => i ← run_op op; ids ← run_ops ops; mret (i :: ids) end.

(** The same on the list of strings. *)
Definition spec_op (op : qop) G : Z * list (list Z) :=
  match op with Intern str => intern_spec str G | Find str => (qstr_of (id_of str G), G) | Collect => (0, G) end.
Fixpoint spec_ops (ops : list qop) G : list Z * list (list Z) :=
  match ops with [] => ([], G) | op :: ops => let '(i, G) := spec_op op G in let '(ids, G) := spec_ops ops G in (i :: ids, G) end.

Definition valid_op (op : qop) : Prop := match op with Intern str => valid_str str | _ => True end.

Lemma run_op_spec s Q G op : qstr_ok s Q G -> rooted s Q -> Z.of_nat (length Q) < 2 ^ 31 -> valid_op op -> exists r s' Q' G',
  run_op op s = Some (r, s') /\ qstr_ok s' Q' G' /\ same_mem s s' /\ (length Q' <= S (length Q))%nat /\ G `prefix_of` G'
  /\ (r = Ok (fst (spec_op op G)) /\ G' = snd (spec_op op G) /\ rooted s' Q'
      \/ r = Raise MemoryError /\ (qanswers s = [] -> qheap_bytes s < 300 + 8 * Z.of_nat (length Q))).
Proof.
  intros Hok Hroot Hb Hv. destruct op as [str|str|]; cbn [run_op spec_op].
  - destruct (intern_run s Q G str Hok Hb Hv) as (r & s' & Q' & G' & E & Hok' & Hm & HQ & Hr). exists r, s', Q', G'.
    split; [done|]. split; [done|]. split; [done|]. split; [destruct HQ as [->|[q ->]]; rewrite ?length_app; simpl; lia|].
    destruct Hr as [(-> & -> & Hr)|(-> & -> & _ & Hr)]; [split; [|left; auto]|split; [done|right; auto]].
    unfold intern_spec. destruct (id_of str G); simpl; [done|by apply prefix_app_r].
  - exists (Ok (qstr_of (id_of str G))), s, Q, G. rewrite (X_bind_Ok qget _ s s s) by reflexivity. unfold xlift.
    rewrite (find_run _ _ _ _ Hok Hb). split; [done|]. split; [done|]. split; [done|]. split; [lia|]. split; [done|by left].
  - destruct (collect_run s Q G Hok Hroot) as (s' & E & Hok' & Hroot' & Hm). exists (Ok 0), s', Q, G.
    rewrite (X_bind_Ok _ _ _ _ _ E). split; [done|]. split; [done|]. split; [done|]. split; [lia|]. split; [done|by left].
Qed.

Lemma run_ops_spec ops : forall s Q G, qstr_ok s Q G -> rooted s Q -> Z.of_nat (length Q + length ops) < 2 ^ 31 -> Forall valid_op ops ->
  exists r s' Q' G', run_ops ops s = Some (r, s') /\ qstr_ok s' Q' G' /\ G `prefix_of` G'
  /\ (r = Ok (fst (spec_ops ops G)) /\ G' = snd (spec_ops ops G)
      \/ r = Raise MemoryError /\ (qanswers s = [] -> qheap_bytes s < 300 + 8 * Z.of_nat (length Q + length ops))).
Proof.
  induction ops as [|op ops IH]; intros s Q G Hok Hroot Hb Hv; cbn [run_ops spec_ops length] in *.
  { exists (Ok []), s, Q, G. split; [done|]. split; [done|]. split; [done|]. by left. }
  apply list.Forall_cons in Hv as [Hv Hvs].
  destruct (run_op_spec s Q G op Hok Hroot) as (r & s1 & Q1 & G1 & E & Hok1 & Hm & HQ & Hpre & Hr); [lia|done|].
  destruct Hr as [(-> & -> & Hroot1)|(-> & Hf)].
  2: { rewrite (X_bind_Raise _ _ _ _ _ E). exists (Raise MemoryError), s1, Q1, G1. split; [done|]. split; [done|]. split; [done|].
       right. split; [done|]. intros H. specialize (Hf H). lia. }
  rewrite (X_bind_Ok _ _ _ _ _ E). destruct (spec_op op G) as [i G1] eqn:Es. cbn [fst snd] in *.
  destruct (IH s1 Q1 G1 Hok1 Hroot1) as (r & s' & Q' & G' & E' & Hok' & Hpre' & Hr); [lia|done|].
  destruct (spec_ops ops G1) as [ids G2] eqn:Es2. cbn [fst snd] in *. destruct Hr as [(-> & ->)|(-> & Hf)].
  - rewrite (X_bind_Ok _ _ _ _ _ E'). exists (Ok (i :: ids)), s', Q', G2. split; [done|]. split; [done|]. split; [by etransitivity|]. by left.
  - rewrite (X_bind_Raise _ _ _ _ _ E'). exists (Raise MemoryError), s', Q', G'. split; [done|]. split; [done|]. split; [by etransitivity|].
    right. split; [done|]. destruct Hm as [Hm Ha]. intros H. specialize (Hf (Ha H)). lia.
Qed.

Lemma spec_ops_intern ops : forall G ids G', spec_ops ops G = (ids, G') -> G `prefix_of` G' /\ length ids = length ops
  /\ forall k str, ops !! k = Some (Intern str) -> exists i, ids !! k = Some (Z.of_nat (S i)) /\ G' !! i = Some str.
Proof.
  induction ops as [|op ops IH]; intros G ids G' H; cbn [spec_ops] in H; [by injection H as <- <-|].
  destruct (spec_op op G) as [i1 G1] eqn:E1. destruct (spec_ops ops G1) as [ids2 G2] eqn:E2. injection H as <- <-.
  destruct (IH _ _ _ E2) as (Hp & Hl & Hi).
  assert (Hop : G `prefix_of` G1 /\ forall str, op = Intern str -> exists i, i1 = Z.of_nat (S i) /\ G1 !! i = Some str).
  { destruct op as [str|str|]; cbn [spec_op] in E1; [|by injection E1 as <- <-|by injection E1 as <- <-].
    unfold intern_spec in E1. destruct (id_of str G) as [i|] eqn:Ei; injection E1 as <- <-.
    - split; [done|]. intros ? [= <-]. exists i. split; [done|by apply id_of_elem].
    - split; [by apply prefix_app_r|]. intros ? [= <-]. exists (length G). split; [done|]. by apply list_lookup_middle. }
  destruct Hop as [Hp1 Hop]. split; [by etransitivity|]. split; [simpl; by rewrite Hl|]. intros [|k] str Hk; simpl in Hk.
  - injection Hk as ->. destruct (Hop _ eq_refl) as (i & -> & Hi1). exists i. split; [done|]. by eapply prefix_lookup_Some.
  - by apply Hi.
Qed.

(** ** The properties *)

(** C22 [qstr_from_strn] refines a list of strings: from a well-formed state it returns the id of
    the string when it is interned already, changing nothing, and else interns it under the next id, keeping all
    others; or it raises [MemoryError] with no string lost or added and the state still
    well-formed, which cannot happen when allocations succeed and the heap has
    300 bytes and 8 for each interned string.  The queries of an id give the length, hash and bytes of its string, and
    [qstr_find_strn] the id of a string or 0. *)
Theorem qstr_from_strn_refines s Q G str : qstr_ok s Q G -> Z.of_nat (length Q) < 2 ^ 31 -> valid_str str ->
  (exists r s' Q' G', qstr_from_strn str s = Some (r, s') /\ qstr_ok s' Q' G'
   /\ match r with
      | Ok i => (i, G') = intern_spec str G /\ qstr_data s' i = Some str /\ (str ∈ G -> s' = s)
      | Raise e => e = MemoryError /\ G' = G /\ (str ∉ G) /\ (qanswers s = [] -> qheap_bytes s < 300 + 8 * Z.of_nat (length Q))
      end)
  /\ qstr_find_strn s str = Some (qstr_of (id_of str G))
  /\ QSTR_TOTAL s = Some (Z.of_nat (S (length G)))
  /\ forall i x, G !! i = Some x -> qstr_len s (Z.of_nat (S i)) = Some (Z.of_nat (length x))
     /\ qstr_hash s (Z.of_nat (S i)) = Some (qstr_compute_hash x) /\ qstr_data s (Z.of_nat (S i)) = Some x
     /\ qstr_str s (Z.of_nat (S i)) = Some (c_string x).
Proof.
  intros Hok Hb Hv. split; [|split; [by eapply find_run|split]].
  - destruct (intern_run s Q G str Hok Hb Hv) as (r & s' & Q' & G' & E & Hok' & _ & _ & Hr). exists r, s', Q', G'.
    split; [done|]. split; [done|]. destruct Hr as [(-> & -> & _)|(-> & -> & Hr)]; [|done]. split; [by destruct (intern_spec str G)|].
    assert (Hi : exists i, fst (intern_spec str G) = Z.of_nat (S i) /\ snd (intern_spec str G) !! i = Some str).
    { unfold intern_spec. destruct (id_of str G) as [i|] eqn:Ei; [exists i; split; [done|by apply id_of_elem]|].
      exists (length G). split; [done|]. by apply list_lookup_middle. }
    destruct Hi as (i & Ei & Hi). split; [rewrite Ei; by eapply queries_run|]. intros Hs.
    apply list_elem_of_lookup in Hs as [j Hj]. pose proof (id_of_Some _ _ _ (proj1 (qo_strings _ _ _ Hok)) Hj) as Hid.
    unfold qstr_from_strn in E. rewrite (X_bind_Ok qget _ s s s) in E by reflexivity.
    rewrite (X_bind_Ok (xlift _) _ s (qstr_of (id_of str G)) s) in E by (unfold xlift; by rewrite (find_run _ _ _ _ Hok Hb)).
    rewrite Hid in E. replace (qstr_of (Some j) =? 0) with false in E by (simpl; lia). by injection E.
  - rewrite (total_run _ _ _ Hok Hb). f_equal. by rewrite (ok_length _ _ _ Hok).
  - intros i x Hi. by eapply queries_run.
Qed.

(** C23 Well-formedness and its consequence, from the start of an interpreter: whatever strings are interned and
    looked up, with collections of the garbage anywhere between, no operation does anything
    undefined; the state stays well-formed for the strings that were interned; two strings have the same id exactly if they
    are equal; and every id that was ever returned still leads to its bytes in the end.  The sequence can end early
    with [MemoryError] only if an allocation fails. *)
Theorem qstr_run_well_formed consts frozen heap answers ops : firmware consts frozen -> 0 <= heap < 2 ^ 31 ->
  Z.of_nat (length consts + length frozen + length ops) < 2 ^ 31 - 1 -> Forall valid_op ops ->
  exists r s' Q G, (qstr_init;; run_ops ops) (const_state consts frozen heap answers) = Some (r, s') /\ qstr_ok s' Q G
  /\ (consts ++ frozen) `prefix_of` G
  /\ match r with
     | Ok ids => (ids, G) = spec_ops ops (consts ++ frozen)
       /\ (forall k str i, ops !! k = Some (Intern str) -> ids !! k = Some i -> qstr_data s' i = Some str)
       /\ (forall j k str1 str2 i1 i2, ops !! j = Some (Intern str1) -> ops !! k = Some (Intern str2) -> ids !! j = Some i1 -> ids !! k = Some i2 ->
           i1 = i2 <-> str1 = str2)
     | Raise e => e = MemoryError /\ (answers = [] -> heap < 308 + 8 * Z.of_nat (length consts + length frozen + length ops))
     end.
Proof.
  intros Hfw Hh Hb Hv. destruct (init_run consts frozen heap answers Hfw Hh) as (s & Q & E & Hok & Hroot & Eh & Ea).
  pose proof (ok_length _ _ _ Hok) as Hl. rewrite length_app in Hl.
  destruct (run_ops_spec ops s Q _ Hok Hroot) as (r & s' & Q' & G & E' & Hok' & Hpre & Hr); [lia|done|].
  exists r, s', Q', G. split; [by rewrite (X_bind_Ok _ _ _ _ _ E)|]. split; [done|]. split; [done|].
  destruct Hr as [(-> & ->)|(-> & Hf)].
  2: { split; [done|]. intros H. rewrite Ea, Eh in Hf. specialize (Hf H). lia. }
  destruct (spec_ops ops (consts ++ frozen)) as [ids G] eqn:Es. cbn [fst snd] in *. split; [done|].
  destruct (spec_ops_intern _ _ _ _ Es) as (_ & _ & Hi). split.
  - intros k str i Hk Hik. destruct (Hi _ _ Hk) as (i' & Hi' & HG). rewrite Hi' in Hik. injection Hik as <-. by eapply queries_run.
  - intros j k str1 str2 i1 i2 Hj Hk H1 H2. destruct (Hi _ _ Hj) as (n1 & Hn1 & HG1), (Hi _ _ Hk) as (n2 & Hn2 & HG2).
    rewrite Hn1 in H1. rewrite Hn2 in H2. injection H1 as <-. injection H2 as <-. split.
    + intros En. assert (n1 = n2) as -> by lia. congruence.
    + intros <-. do 2 f_equal. destruct (qo_strings _ _ _ Hok') as [Hnd _]. by eapply list.NoDup_lookup.
Qed.

(** ** A firmware *)

Definition demo_consts : list (list Z) := [[]] ++ map (fun c => [c]) [42; 95; 47; 32; 10; 97; 98; 99; 100].
Definition demo_frozen : list (list Z) := [[98; 99]; [109; 97; 105; 110]].

Lemma demo_firmware : firmware demo_consts demo_frozen.
Proof.
  split; [by apply (bool_decide_unpack _); vm_compute| |simpl; lia].
  apply (bool_decide_unpack _). vm_compute. exact I.
Qed.

(** Interning a new string, looking up the one of the null id and a known one. *)
Lemma qstr_from_strn_refines_witness : exists s, qstr_init (const_state demo_consts demo_frozen 100000 []) = Some (Ok tt, s)
  /\ (exists s', qstr_from_strn [122; 122] s = Some (Ok 13, s') /\ qstr_data s' 13 = Some [122; 122])
  /\ qstr_find_strn s [98; 99] = Some 11 /\ qstr_find_strn s [122; 122] = Some 0.
Proof.
  destruct (init_run demo_consts demo_frozen 100000 [] demo_firmware) as (s & Q & E & Hok & _); [lia|]. exists s. split; [exact E|].
  pose proof (ok_length _ _ _ Hok) as Hl.
  destruct (qstr_from_strn_refines s Q _ [122; 122] Hok) as ((r & s' & Q' & G' & E1 & _ & Hr) & Hf & _); [rewrite Hl; simpl; lia| |].
  { split; [|simpl; lia]. repeat constructor; lia. }
  injection E as <-. split.
  - destruct r as [i|e].
    + exists s'. destruct Hr as (Hi & Hd & _). injection Hi as -> _. split; [exact E1|exact Hd].
    + exfalso. vm_compute in E1. discriminate.
  - split; [vm_compute; reflexivity|]. rewrite Hf. vm_compute. reflexivity.
Defined.

Definition demo_ops : list qop := [Intern [120]; Collect; Intern [109; 97; 105; 110]; Intern [121]; Find [121]; Find [121; 121]; Intern [120]].

Lemma qstr_run_well_formed_witness : exists s' ids, (qstr_init;; run_ops demo_ops) (const_state demo_consts demo_frozen 100000 []) = Some (Ok ids, s')
  /\ ids = [13; 0; 12; 14; 14; 0; 13] /\ qstr_data s' 14 = Some [121].
Proof.
  destruct (qstr_run_well_formed demo_consts demo_frozen 100000 [] demo_ops demo_firmware) as (r & s' & Q & G & E & _ & _ & Hr);
    [lia|vm_compute; reflexivity| |].
  { repeat constructor; simpl; lia. }
  destruct r as [ids|e].
  - destruct Hr as (Hs & Hd & _). exists s', ids. split; [exact E|]. injection Hs as -> _.
    split; [vm_compute; reflexivity|]. exact (Hd 3%nat [121] 14 eq_refl eq_refl).
  - exfalso. destruct Hr as [_ Hr]. specialize (Hr eq_refl). vm_compute in Hr. discriminate.
Defined.

(** What [qstr_pool_info] reports for the pool on the heap. *)
Example demo_pool_info : (r ← (qstr_init;; run_ops demo_ops) (const_state demo_consts demo_frozen 100000 []); qstr_pool_info r.2)
  = Some (MkQInfo 1 2 10 74).
Proof. vm_compute. reflexivity. Qed.

(** A [MemoryError] for the pool leaves a new chunk that no pool leads to.  The next collection
    frees it, and the next string is written to the freed memory. *)
Lemma chunk_freed_after_error :
  ('(r1, s1) ← (qstr_init;; qstr_from_strn [120]) (const_state demo_consts demo_frozen 100000 [true; false]);
   '(r2, s2) ← collect_garbage s1; Some (r1, r2, qstr_from_strn [120] s2))
  = Some (Raise MemoryError, Ok tt, None).
Proof. vm_compute. reflexivity. Qed.

(** The length of a string of 256 bytes is stored as 0: it gets a new id each time, and the id leads to
    the empty string. *)
Lemma long_string_loses_length :
  (r ← (qstr_init;; i ← qstr_from_strn (replicate 256 97); j ← qstr_from_strn (replicate 256 97); mret (i, j))
         (const_state demo_consts demo_frozen 100000 []); Some (r.1, qstr_data r.2 13))
  = Some (Ok (13, 14), Some []).
Proof. vm_compute. reflexivity. Qed.
