(* ===== verification/Unicode.v ===== *)
(** Characters and UTF-8, [py/unicode.c], the encoder of [py/vstr.c] and the operations on
    strings of code points of [py/objstrunicode.c].

    A pointer into a string is an offset into its buffer, the bytes with a zero after them.
    Reading after the buffer is undefined. *)
From Stdlib Require Import ZifyBool.
From S2P Require Import Prelude PyExn ObjSeq.

(** ** ASCII attributes *)

Definition FL_PRINT : Z := 0x01.
Definition FL_SPACE : Z := 0x02.
Definition FL_DIGIT : Z := 0x04.
Definition FL_ALPHA : Z := 0x08.
Definition FL_UPPER : Z := 0x10.
Definition FL_LOWER : Z := 0x20.
Definition FL_XDIGIT : Z := 0x40.

Definition AT_PR : Z := FL_PRINT.
Definition AT_SP : Z := Z.lor FL_SPACE FL_PRINT.
Definition AT_DI : Z := Z.lor (Z.lor FL_DIGIT FL_PRINT) FL_XDIGIT.
Definition AT_UP : Z := Z.lor (Z.lor FL_UPPER FL_ALPHA) FL_PRINT.
Definition AT_LO : Z := Z.lor (Z.lor FL_LOWER FL_ALPHA) FL_PRINT.
Definition AT_UX : Z := Z.lor AT_UP FL_XDIGIT.
Definition AT_LX : Z := Z.lor AT_LO FL_XDIGIT.

Definition attr : list Z := [
  0; 0; 0; 0; 0; 0; 0; 0;
  0; AT_SP; AT_SP; AT_SP; AT_SP; AT_SP; 0; 0;
  0; 0; 0; 0; 0; 0; 0; 0;
  0; 0; 0; 0; 0; 0; 0; 0;
  AT_SP; AT_PR; AT_PR; AT_PR; AT_PR; AT_PR; AT_PR; AT_PR;
  AT_PR; AT_PR; AT_PR; AT_PR; AT_PR; AT_PR; AT_PR; AT_PR;
  AT_DI; AT_DI; AT_DI; AT_DI; AT_DI; AT_DI; AT_DI; AT_DI;
  AT_DI; AT_DI; AT_PR; AT_PR; AT_PR; AT_PR; AT_PR; AT_PR;
  AT_PR; AT_UX; AT_UX; AT_UX; AT_UX; AT_UX; AT_UX; AT_UP;
  AT_UP; AT_UP; AT_UP; AT_UP; AT_UP; AT_UP; AT_UP; AT_UP;
  AT_UP; AT_UP; AT_UP; AT_UP; AT_UP; AT_UP; AT_UP; AT_UP;
  AT_UP; AT_UP; AT_UP; AT_PR; AT_PR; AT_PR; AT_PR; AT_PR;
  AT_PR; AT_LX; AT_LX; AT_LX; AT_LX; AT_LX; AT_LX; AT_LO;
  AT_LO; AT_LO; AT_LO; AT_LO; AT_LO; AT_LO; AT_LO; AT_LO;
  AT_LO; AT_LO; AT_LO; AT_LO; AT_LO; AT_LO; AT_LO; AT_LO;
  AT_LO; AT_LO; AT_LO; AT_PR; AT_PR; AT_PR; AT_PR; 0 ].

Definition has_attr (flags c : Z) : bool :=
  (c <? 128) && negb (Z.land (nth (Z.to_nat c) attr 0) flags =? 0).

Definition unichar_isspace (c : Z) : bool := has_attr FL_SPACE c.
Definition unichar_isalpha (c : Z) : bool := has_attr FL_ALPHA c.
Definition unichar_isdigit (c : Z) : bool := has_attr FL_DIGIT c.
Definition unichar_isxdigit (c : Z) : bool := has_attr FL_XDIGIT c.
Definition unichar_isident (c : Z) : bool := has_attr (Z.lor FL_ALPHA FL_DIGIT) c || (c =? 95).
Definition unichar_isupper (c : Z) : bool := has_attr FL_UPPER c.
Definition unichar_islower (c : Z) : bool := has_attr FL_LOWER c.
Definition unichar_tolower (c : Z) : Z := if unichar_isupper c then wrap 32 (c + 0x20) else c.
Definition unichar_toupper (c : Z) : Z := if unichar_islower c then wrap 32 (c - 0x20) else c.
Definition unichar_xdigit_value (c : Z) : Z :=
  let n := wrap 32 (c - 48) in
  if 9 <? n then wrap 32 (Z.ldiff n 0x20 - 7) else n.

(** ** UTF-8 *)

Definition UTF8_IS_NONASCII (c : Z) : bool := negb (Z.land c 0x80 =? 0).
Definition UTF8_IS_CONT (c : Z) : bool := Z.land c 0xC0 =? 0x80.

(** [for (mask = 0x40; ord & mask; mask >>= 1)] *)
Fixpoint clear_lead (fuel : nat) (ord mask : Z) : Z :=
  match fuel with
  | O => ord
  | S fuel => if Z.land ord mask =? 0 then ord else clear_lead fuel (Z.ldiff ord mask) (Z.shiftr mask 1)
  end.

Fixpoint add_conts (ord : Z) (s : list Z) : option Z :=
  match s with
  | [] => None
  | c :: s => if UTF8_IS_CONT c then add_conts (Z.lor (wrap 32 (Z.shiftl ord 6)) (Z.land c 0x3F)) s else Some ord
  end.

Definition utf8_get_char (buf : list Z) (p : nat) : option Z :=
  match drop p buf with
  | [] => None
  | ord :: s => if UTF8_IS_NONASCII ord then add_conts (clear_lead 8 (Z.land ord 0x7F) 0x40) s else Some ord
  end.

(** The continuation bytes at the start. *)
Fixpoint skip_conts (s : list Z) : option nat :=
  match s with
  | [] => None
  | c :: s => if UTF8_IS_CONT c then S <$> skip_conts s else Some 0%nat
  end.

Definition utf8_next_char (buf : list Z) (p : nat) : option nat := n ← skip_conts (drop (S p) buf); Some (S p + n)%nat.

(** From [ptr] back to the start [s]. *)
Fixpoint utf8_ptr_to_index (buf : list Z) (s : nat) (k : nat) : option Z :=
  match k with
  | O => Some 0
  | S k => c ← buf !! (s + k)%nat; i ← utf8_ptr_to_index buf s k; Some (if UTF8_IS_CONT c then i else wrap 32 (i + 1))
  end.

Definition utf8_charlen (str : list Z) : Z :=
  foldl (fun n c => if UTF8_IS_CONT c then n else wrap 32 (n + 1)) 0 str.

Fixpoint check_from (need : Z) (p : list Z) : bool :=
  match p with
  | [] => need =? 0
  | c :: p =>
      if negb (need =? 0) then if UTF8_IS_CONT c then check_from (need - 1) p else false
      else if 0xc0 <=? c then
        if 0xf8 <=? c then false else check_from (Z.land (Z.shiftr 0xe5 (Z.land (Z.shiftr c 3) 0x6)) 3) p
      else if 0x80 <=? c then false else check_from 0 p
  end.
Definition utf8_check (p : list Z) : bool := check_from 0 p.

(** The bytes that [vstr_add_char] appends; the assertion is compiled away. *)
Definition utf8_encode (c : Z) : list Z :=
  if c <? 0x80 then [c]
  else if c <? 0x800 then [Z.lor (Z.shiftr c 6) 0xC0; Z.lor (Z.land c 0x3F) 0x80]
  else if c <? 0x10000 then
    [wrap 8 (Z.lor (Z.shiftr c 12) 0xE0); Z.lor (Z.land (Z.shiftr c 6) 0x3F) 0x80; Z.lor (Z.land c 0x3F) 0x80]
  else
    [wrap 8 (Z.lor (Z.shiftr c 18) 0xF0); Z.lor (Z.land (Z.shiftr c 12) 0x3F) 0x80; Z.lor (Z.land (Z.shiftr c 6) 0x3F) 0x80;
     Z.lor (Z.land c 0x3F) 0x80].

(** ** Strings of code points

    The arguments are the buffer and its length without the zero.  An index [IdxInt] is an
    integer object (a boolean as a step is refused). *)

(** An index as a machine integer, without a check of its bounds. *)
Definition str_index_val (index : py_index) : res Z :=
  match index with IdxInt z => mp_obj_int_get_checked z | _ => Raise TypeError end.

(** [for (s = top - 1; i; --s)]: [k] bytes before [s + 1]. *)
Fixpoint index_back (buf : list Z) (is_slice : bool) (i : Z) (k : nat) : option (res nat) :=
  if i =? 0 then Some (Ok k)
  else
    match k with
    | O => Some (if is_slice then Ok 0%nat else Raise IndexError)
    | S k => c ← buf !! k; index_back buf is_slice (if UTF8_IS_CONT c then i else i + 1) k
    end.

(** [while (1)]; each turn goes at least a byte on. *)
Fixpoint index_forward (fuel : nat) (buf : list Z) (top : nat) (is_slice : bool) (i : Z) (s : nat) : option (res nat) :=
  match fuel with
  | O => None
  | S fuel =>
      if (top <=? s)%nat then Some (if is_slice then Ok top else Raise IndexError)
      else if i =? 0 then Some (Ok s)
      else s ← utf8_next_char buf s; index_forward fuel buf top is_slice (i - 1) s
  end.

Definition str_index_to_ptr (buf : list Z) (len : nat) (index : py_index) (is_slice : bool) : option (res nat) :=
  match str_index_val index with
  | Raise e => Some (Raise e)
  | Ok i => if i <? 0 then index_back buf is_slice i len else index_forward (S len) buf len is_slice i 0
  end.

(** The bytes of a character by the bits of its first one. *)
Fixpoint lead_len (fuel : nat) (c mask : Z) : nat :=
  match fuel with
  | O => 0
  | S fuel => if Z.land c mask =? 0 then 0 else S (lead_len fuel c (Z.shiftr mask 1))
  end.

Definition bytes_at (buf : list Z) (p n : nat) : option (list Z) :=
  let l := take n (drop p buf) in if (length l =? n)%nat then Some l else None.

Definition str_subscr_index (buf : list Z) (len : nat) (index : py_index) : option (res (list Z)) :=
  r ← str_index_to_ptr buf len index false;
  match r with
  | Raise e => Some (Raise e)
  | Ok s => c ← buf !! s; l ← bytes_at buf s (if UTF8_IS_NONASCII c then S (lead_len 8 c 0x40) else 1%nat); Some (Ok l)
  end.

Definition slice_ptr (buf : list Z) (len : nat) (index : py_index) (default : nat) : option (res nat) :=
  match index with IdxNone => Some (Ok default) | _ => str_index_to_ptr buf len index true end.

Definition str_subscr_slice (buf : list Z) (len : nat) (slice : mp_obj_slice_t) : option (res (list Z)) :=
  match ostep slice with
  | IdxNone | IdxInt 1 =>
      r1 ← slice_ptr buf len (ostart slice) 0;
      match r1 with
      | Raise e => Some (Raise e)
      | Ok pstart =>
          r2 ← slice_ptr buf len (ostop slice) len;
          match r2 with
          | Raise e => Some (Raise e)
          | Ok pstop => if (pstop <? pstart)%nat then Some (Ok []) else l ← bytes_at buf pstart (pstop - pstart); Some (Ok l)
          end
      end
  | _ => Some (Raise NotImplementedError)
  end.

(** The iterator: the next character and place, or the end. *)
Definition str_it_iternext (buf : list Z) (len cur : nat) : option (option (list Z * nat)) :=
  if (cur <? len)%nat then p ← utf8_next_char buf cur; l ← bytes_at buf cur (p - cur); Some (Some (l, p)) else Some None.

(** Strings of code points: encoding, decoding, checking and indexing agree. *)

(** ** Bytes, case by case *)

Lemma byte_cases (P : Z -> bool) : forallb P (map Z.of_nat (seq 0 256)) = true -> forall c, 0 <= c < 256 -> P c = true.
Proof.
  intros H c Hc. rewrite forallb_forall in H. apply H. apply in_map_iff. exists (Z.to_nat c). split; [lia|]. apply in_seq. lia.
Qed.

Definition is_byte (c : Z) : Prop := 0 <= c < 256.
Definition is_cont (c : Z) : Prop := 0x80 <= c < 0xC0.

(** The number of continuation bytes, and the bits of the first byte that count. *)
Definition lead_conts (c : Z) : nat := if c <? 0xC0 then 0 else if c <? 0xE0 then 1 else if c <? 0xF0 then 2 else 3.
Definition lead_bits (c : Z) : Z := if c <? 0xC0 then c else if c <? 0xE0 then c - 0xC0 else if c <? 0xF0 then c - 0xE0 else c - 0xF0.
Definition is_lead (c : Z) : Prop := 0 <= c < 0x80 \/ 0xC0 <= c < 0xF8.

Lemma cont_spec c : is_byte c -> UTF8_IS_CONT c = true <-> is_cont c.
Proof.
  intros Hc. unfold is_cont.
  pose proof (byte_cases (fun c => Bool.eqb (UTF8_IS_CONT c) ((0x80 <=? c) && (c <? 0xC0))) ltac:(vm_compute; reflexivity) c Hc) as H.
  cbv beta in H. apply Bool.eqb_prop in H. rewrite H. lia.
Qed.

Lemma cont_true c : is_cont c -> UTF8_IS_CONT c = true.
Proof. intros H. apply cont_spec; [unfold is_cont, is_byte in *; lia|done]. Qed.

Lemma lead_false c : is_lead c -> UTF8_IS_CONT c = false.
Proof.
  intros H. destruct (UTF8_IS_CONT c) eqn:E; [|done]. apply cont_spec in E; unfold is_cont, is_lead, is_byte in *; lia.
Qed.

Lemma cont_bits c : is_cont c -> Z.land c 0x3F = c - 0x80.
Proof.
  intros H. unfold is_cont in H.
  pose proof (byte_cases (fun c => negb ((0x80 <=? c) && (c <? 0xC0)) || (Z.land c 0x3F =? c - 0x80)) ltac:(vm_compute; reflexivity) c ltac:(lia)) as Hb.
  cbv beta in Hb. lia.
Qed.

Lemma lead_decode c : is_lead c ->
  UTF8_IS_NONASCII c = (0x80 <=? c) /\ (0x80 <= c -> clear_lead 8 (Z.land c 0x7F) 0x40 = lead_bits c
  /\ Z.land (Z.shiftr 0xe5 (Z.land (Z.shiftr c 3) 0x6)) 3 = Z.of_nat (lead_conts c) /\ lead_len 8 c 0x40 = lead_conts c).
Proof.
  intros H. unfold is_lead in H.
  pose proof (byte_cases (fun c => Bool.eqb (UTF8_IS_NONASCII c) (0x80 <=? c)
    && (negb ((0xC0 <=? c) && (c <? 0xF8)) || (clear_lead 8 (Z.land c 0x7F) 0x40 =? lead_bits c)
        && (Z.land (Z.shiftr 0xe5 (Z.land (Z.shiftr c 3) 0x6)) 3 =? Z.of_nat (lead_conts c)) && (lead_len 8 c 0x40 =? lead_conts c)%nat))
    ltac:(vm_compute; reflexivity) c ltac:(lia)) as Hb.
  cbv beta in Hb. apply andb_prop in Hb as [H1 H2]. apply Bool.eqb_prop in H1. split; [done|]. intros Hc.
  replace ((0xC0 <=? c) && (c <? 0xF8)) with true in H2 by lia. simpl in H2.
  apply andb_prop in H2 as [H2 H4]. apply andb_prop in H2 as [H2 H3]. apply Z.eqb_eq in H2, H3. by apply Nat.eqb_eq in H4.
Qed.

Lemma lead_bound c : is_lead c -> 0 <= lead_bits c /\ (lead_bits c + 1) * 64 ^ Z.of_nat (lead_conts c) <= 2 ^ 21.
Proof.
  intros H. unfold is_lead in H.
  pose proof (byte_cases (fun c => negb ((c <? 0x80) || (0xC0 <=? c) && (c <? 0xF8))
    || (0 <=? lead_bits c) && ((lead_bits c + 1) * 64 ^ Z.of_nat (lead_conts c) <=? 2 ^ 21)) ltac:(vm_compute; reflexivity) c ltac:(lia)) as Hb.
  cbv beta in Hb. replace ((c <? 0x80) || (0xC0 <=? c) && (c <? 0xF8)) with true in Hb by lia. simpl negb in Hb. cbn [orb] in Hb.
  apply andb_prop in Hb as [H1 H2]. apply Z.leb_le in H1, H2. done.
Qed.

(** ** Characters *)

(** The bytes of a character: a first byte and as many continuation bytes as it says. *)
Definition is_char (b : list Z) : Prop :=
  match b with [] => False | c :: cs => is_lead c /\ length cs = lead_conts c /\ Forall is_cont cs end.

Definition char_value (b : list Z) : Z :=
  match b with [] => 0 | c :: cs => foldl (fun o k => o * 64 + (k - 0x80)) (lead_bits c) cs end.

(** What follows a character in a buffer: another one or the zero. *)
Definition no_cont (s : list Z) : Prop := exists c l, s = c :: l /\ UTF8_IS_CONT c = false.

Lemma lor_6_bits o k : 0 <= o -> 0 <= k < 64 -> Z.lor (Z.shiftl o 6) k = o * 64 + k.
Proof.
  intros Ho Hk. rewrite Z.shiftl_mul_pow2 by lia. change (2 ^ 6) with 64. symmetry. rewrite <- Z.lxor_lor, Z.add_nocarry_lxor; [done|..].
  all: apply Z.bits_inj'; intros n Hn; rewrite Z.land_spec, Z.bits_0; change 64 with (2 ^ 6);
    destruct (Z.ltb_spec n 6); [rewrite Z.mul_pow2_bits_low by lia; done|].
  all: replace (Z.testbit k n) with false; [apply andb_false_r|]; symmetry; rewrite <- (Z.mod_small k (2 ^ 6)) by lia; apply Z.mod_pow2_bits_high; lia.
Qed.

Lemma add_conts_spec cs s ord : Forall is_cont cs -> no_cont s -> 0 <= ord -> (ord + 1) * 64 ^ Z.of_nat (length cs) <= 2 ^ 32 ->
  add_conts ord (cs ++ s) = Some (foldl (fun o k => o * 64 + (k - 0x80)) ord cs).
Proof.
  intros Hc (c & l & -> & Hs). revert ord. induction cs as [|k cs IH]; intros ord Ho Hb; cbn [app add_conts foldl]; [by rewrite Hs|].
  apply list.Forall_cons in Hc as [Hk Hc]. rewrite (cont_true _ Hk), (cont_bits _ Hk). unfold is_cont in Hk.
  cbn [length] in Hb. rewrite Nat2Z.inj_succ, Z.pow_succ_r in Hb by lia.
  pose proof (Z.pow_pos_nonneg 64 (Z.of_nat (length cs)) ltac:(lia) ltac:(lia)) as Hp. set (P := 64 ^ Z.of_nat (length cs)) in *.
  replace ((ord + 1) * (64 * P)) with ((ord + 1) * 64 * P) in Hb by lia.
  assert (Hd : (ord + 1) * 64 <= (ord + 1) * 64 * P) by (apply Z.le_mul_diag_r; lia).
  assert (Hsh : Z.shiftl ord 6 = ord * 64) by (by rewrite Z.shiftl_mul_pow2 by lia).
  rewrite wrap_id by (rewrite Hsh; lia). rewrite lor_6_bits by lia. apply IH; [done|lia|].
  etransitivity; [|exact Hb]. apply Z.mul_le_mono_nonneg_r; lia.
Qed.

Lemma get_char_spec buf p b s : drop p buf = b ++ s -> is_char b -> no_cont s -> utf8_get_char buf p = Some (char_value b).
Proof.
  intros E Hb Hs. unfold utf8_get_char. rewrite E. destruct b as [|c cs]; [done|]. destruct Hb as (Hl & Hn & Hc). cbn [app].
  destruct (lead_decode c Hl) as [-> Hd]. unfold char_value. unfold is_lead in Hl. destruct (Z.leb_spec 0x80 c) as [Hge|Hlt].
  - destruct (Hd Hge) as (-> & _). destruct (lead_bound c Hl) as [H0 H1]. apply add_conts_spec; [done..|]. rewrite Hn. lia.
  - unfold lead_conts in Hn. replace (c <? 0xC0) with true in Hn by lia. destruct cs; [|done]. simpl. unfold lead_bits.
    by replace (c <? 0xC0) with true by lia.
Qed.

Lemma skip_conts_spec cs s : Forall is_cont cs -> no_cont s -> skip_conts (cs ++ s) = Some (length cs).
Proof.
  intros Hc (c & l & -> & Hs). induction Hc as [|k cs Hk Hc IH]; cbn [app skip_conts]; [by rewrite Hs|]. by rewrite (cont_true _ Hk), IH.
Qed.

Lemma next_char_spec buf p b s : drop p buf = b ++ s -> is_char b -> no_cont s -> utf8_next_char buf p = Some (p + length b)%nat.
Proof.
  intros E Hb Hs. unfold utf8_next_char. destruct b as [|c cs]; [done|]. destruct Hb as (Hl & Hn & Hc).
  replace (drop (S p) buf) with (cs ++ s).
  - rewrite skip_conts_spec by done. simpl. f_equal. lia.
  - change (drop (S p) buf) with (drop (1 + p) buf). rewrite Nat.add_comm, <- drop_drop, E. done.
Qed.

(** ** Checking *)

Lemma check_conts cs n p : Forall is_cont cs -> n = Z.of_nat (length cs) -> check_from n (cs ++ p) = check_from 0 p.
Proof.
  intros Hc ->. induction Hc as [|k cs Hk Hc IH]; [done|]. cbn [app check_from length].
  replace (Z.of_nat (S (length cs)) =? 0) with false by lia. simpl negb. cbv iota. rewrite (cont_true _ Hk).
  replace (Z.of_nat (S (length cs)) - 1) with (Z.of_nat (length cs)) by lia. done.
Qed.

Lemma check_char b p : is_char b -> check_from 0 (b ++ p) = check_from 0 p.
Proof.
  destruct b as [|c cs]; [done|]. intros (Hl & Hn & Hc). cbn [app check_from]. simpl negb. cbv iota.
  destruct (lead_decode c Hl) as [_ Hd]. unfold is_lead in Hl. destruct (Z.leb_spec 0xC0 c).
  - destruct (Hd ltac:(lia)) as (_ & -> & _). replace (0xf8 <=? c) with false by lia. apply check_conts; [done|by rewrite Hn].
  - replace (0x80 <=? c) with false by lia. unfold lead_conts in Hn. replace (c <? 0xC0) with true in Hn by lia. by destruct cs.
Qed.

Lemma check_need n p : Forall is_byte p -> 0 <= n -> check_from n p = true -> exists cs p', p = cs ++ p' /\ Z.of_nat (length cs) = n /\ Forall is_cont cs
  /\ check_from 0 p' = true.
Proof.
  intros Hb Hn. revert n Hn. induction Hb as [|c p Hc Hb IH]; intros n Hn H; cbn [check_from] in H.
  - exists [], []. apply Z.eqb_eq in H as ->. done.
  - destruct (Z.eqb_spec n 0) as [->|Hne]; [by exists [], (c :: p)|]. simpl in H.
    destruct (UTF8_IS_CONT c) eqn:Ec; [|done]. apply cont_spec in Ec; [|done]. destruct (IH (n - 1) ltac:(lia) H) as (cs & p' & -> & Hl & Hcs & Hp).
    exists (c :: cs), p'. split; [done|]. split; [simpl; lia|]. split; [by constructor|done].
Qed.

(** [utf8_check] accepts the strings that consist of whole characters. *)
Lemma check_spec p : Forall is_byte p -> utf8_check p = true <-> exists cs, Forall is_char cs /\ p = concat cs.
Proof.
  intros Hb. unfold utf8_check. split.
  - assert (Hlen : (length p <= length p)%nat) by lia. revert Hlen. generalize (length p) at 2. intros n. revert p Hb. induction n as [|n IH]; intros p Hb Hn H.
    { destruct p; [|simpl in Hn; lia]. by exists []. }
    destruct p as [|c p]; [by exists []|]. apply list.Forall_cons in Hb as [Hc Hb]. unfold is_byte in Hc. cbn [check_from] in H. simpl negb in H. cbv iota in H.
    cbn [length] in Hn.
    assert (Hlead : is_lead c /\ exists n, check_from n p = true /\ n = Z.of_nat (lead_conts c)).
    { destruct (Z.leb_spec 0xC0 c).
      - destruct (Z.leb_spec 0xf8 c); [done|]. assert (Hl : is_lead c) by (right; lia). split; [done|]. eexists. split; [exact H|].
        by apply lead_decode; [|lia].
      - destruct (Z.leb_spec 0x80 c); [done|]. split; [left; lia|]. exists 0. split; [done|]. unfold lead_conts. by replace (c <? 0xC0) with true by lia. }
    destruct Hlead as (Hl & k & Hk & Ek). destruct (check_need k p Hb ltac:(lia) Hk) as (cs & p' & -> & Hlc & Hcs & Hp').
    apply Forall_app in Hb as [_ Hb]. rewrite length_app in Hn. destruct (IH p' Hb ltac:(lia) Hp') as (rest & Hr & ->).
    exists ((c :: cs) :: rest). split; [|done]. constructor; [|done]. split; [done|]. split; [lia|done].
  - intros (cs & Hcs & ->). clear Hb. induction Hcs as [|b cs Hb Hcs IH]; [done|]. cbn [concat]. by rewrite check_char.
Qed.

(** ** Encoding *)

Lemma lor_lead x h : 0 <= x < 64 -> (h = 0x80 \/ h = 0xC0 /\ x < 32 \/ h = 0xE0 /\ x < 16 \/ h = 0xF0 /\ x < 8) -> Z.lor x h = h + x.
Proof.
  intros Hx Hh.
  assert (H : forall h n, (forallb (fun x => negb (x <? n) || (Z.lor x h =? h + x)) (map Z.of_nat (seq 0 256))) = true -> x < n -> Z.lor x h = h + x).
  { intros h' n Ht Hn. pose proof (byte_cases _ Ht x ltac:(lia)) as Hb. cbv beta in Hb. replace (x <? n) with true in Hb by lia. by apply Z.eqb_eq in Hb. }
  destruct Hh as [->|[[-> ?]|[[-> ?]|[-> ?]]]]; [apply (H 0x80 64)|apply (H 0xC0 32)|apply (H 0xE0 16)|apply (H 0xF0 8)]; (vm_compute; reflexivity) || lia.
Qed.

Lemma low_6_bits z : Z.land z 0x3F = z mod 64.
Proof. change 0x3F with (Z.ones 6). by rewrite Z.land_ones by lia. Qed.

Definition is_unichar (c : Z) : Prop := 0 <= c < 0x110000.

Lemma encode_spec c : is_unichar c -> is_char (utf8_encode c) /\ char_value (utf8_encode c) = c.
Proof.
  unfold is_unichar. intros Hc. unfold utf8_encode. rewrite !Z.shiftr_div_pow2, !low_6_bits by lia.
  change (2 ^ 6) with 64. change (2 ^ 12) with (64 * 64). change (2 ^ 18) with (64 * 64 * 64). rewrite <- !Z.div_div by lia.
  pose proof (Z.div_mod c 64 ltac:(lia)). pose proof (Z.mod_pos_bound c 64 ltac:(lia)). set (c1 := c / 64) in *.
  pose proof (Z.div_mod c1 64 ltac:(lia)). pose proof (Z.mod_pos_bound c1 64 ltac:(lia)). set (c2 := c1 / 64) in *.
  pose proof (Z.div_mod c2 64 ltac:(lia)). pose proof (Z.mod_pos_bound c2 64 ltac:(lia)). set (c3 := c2 / 64) in *.
  assert (Hcont : forall x, 0 <= x < 64 -> is_cont (0x80 + x)) by (unfold is_cont; lia).
  destruct (Z.ltb_spec c 0x80); [|destruct (Z.ltb_spec c 0x800); [|destruct (Z.ltb_spec c 0x10000)]].
  - unfold is_char, char_value, lead_conts, lead_bits, is_lead. replace (c <? 0xC0) with true by lia. split; [|done].
    split; [lia|]. by split.
  - rewrite !lor_lead by lia. unfold is_char, char_value, lead_conts, lead_bits, is_lead. replace (0xC0 + c1 <? 0xC0) with false by lia.
    replace (0xC0 + c1 <? 0xE0) with true by lia. split; [|simpl; lia]. split; [lia|]. split; [done|]. repeat constructor; apply Hcont; lia.
  - rewrite !lor_lead by lia. rewrite wrap_id by lia. unfold is_char, char_value, lead_conts, lead_bits, is_lead. replace (0xE0 + c2 <? 0xC0) with false by lia.
    replace (0xE0 + c2 <? 0xE0) with false by lia. replace (0xE0 + c2 <? 0xF0) with true by lia.
    split; [|simpl; lia]. split; [lia|]. split; [done|]. repeat constructor; apply Hcont; lia.
  - rewrite !lor_lead by lia. rewrite wrap_id by lia. unfold is_char, char_value, lead_conts, lead_bits, is_lead. replace (0xF0 + c3 <? 0xC0) with false by lia.
    replace (0xF0 + c3 <? 0xE0) with false by lia. replace (0xF0 + c3 <? 0xF0) with false by lia.
    split; [|simpl; lia]. split; [lia|]. split; [done|]. repeat constructor; apply Hcont; lia.
Qed.

(** ** Strings of characters *)

Section Strings.
Context (cs : list (list Z)) (Hcs : Forall is_char cs).
Local Abbreviation buf := (concat cs ++ [0]).
Local Abbreviation len := (length (concat cs)).

(** Where the [k]-th character starts. *)
Definition offset (k : nat) : nat := length (concat (take k cs)).

Lemma char_pos k b : cs !! k = Some b -> is_char b.
Proof. intros H. by eapply list.Forall_lookup in H. Qed.

Lemma no_cont_after k : no_cont (concat (drop k cs) ++ [0]).
Proof.
  destruct (drop k cs) as [|b l] eqn:E; [by exists 0, []|]. assert (Hb : is_char b).
  { apply (char_pos k). rewrite <- (Nat.add_0_r k), <- lookup_drop, E. done. }
  destruct b as [|c b]; [done|]. exists c, (b ++ concat l ++ [0]). split; [simpl; by rewrite <- app_assoc|]. apply lead_false. by destruct Hb.
Qed.

Lemma offset_S k b : cs !! k = Some b -> offset (S k) = (offset k + length b)%nat.
Proof. intros H. unfold offset. rewrite (take_S_r _ _ _ H), concat_app, length_app. simpl. by rewrite app_nil_r. Qed.

Lemma offset_0 : offset 0 = 0%nat.
Proof. done. Qed.

Lemma offset_all : offset (length cs) = len.
Proof. unfold offset. by rewrite take_ge by lia. Qed.

Lemma drop_offset k : drop (offset k) buf = concat (drop k cs) ++ [0].
Proof. unfold offset. rewrite <- (take_drop k cs) at 2. by rewrite concat_app, <- app_assoc, drop_app_length. Qed.

Lemma drop_char k b : cs !! k = Some b -> drop (offset k) buf = b ++ concat (drop (S k) cs) ++ [0].
Proof. intros H. by rewrite drop_offset, (drop_S _ _ _ H), app_assoc. Qed.

Lemma offset_mono j k : (j <= k)%nat -> (offset j <= offset k)%nat.
Proof.
  intros H. unfold offset. replace (take k cs) with (take j (take k cs) ++ drop j (take k cs)) by apply take_drop.
  rewrite take_take, Nat.min_l by done. rewrite concat_app, length_app. lia.
Qed.

Lemma offset_lt k b : cs !! k = Some b -> (offset k < len)%nat /\ (offset k < offset (S k) <= len)%nat.
Proof.
  intros H. rewrite <- offset_all. pose proof (offset_S _ _ H). pose proof (char_pos _ _ H) as Hb. apply lookup_lt_Some in H.
  pose proof (offset_mono (S k) (length cs) ltac:(lia)). destruct b as [|c b]; [done|]. cbn [length] in *. lia.
Qed.

Lemma bytes_at_offsets j k : (j <= k <= length cs)%nat -> bytes_at buf (offset j) (offset k - offset j) = Some (concat (take (k - j) (drop j cs))).
Proof.
  intros H. assert (E : take (offset k - offset j) (drop (offset j) buf) = concat (take (k - j) (drop j cs))).
  { rewrite drop_offset. rewrite <- (take_drop (k - j) (drop j cs)) at 1. rewrite concat_app, <- app_assoc.
    apply take_app_length'. unfold offset. replace (take k cs) with (take j cs ++ take (k - j) (drop j cs)).
    - rewrite concat_app, length_app. lia.
    - rewrite <- (take_drop j cs) at 3. rewrite take_app_ge by (rewrite length_take; lia). rewrite length_take. do 2 f_equal. lia. }
  unfold bytes_at. rewrite E. replace (length _ =? offset k - offset j)%nat with true; [done|]. symmetry. apply Nat.eqb_eq. rewrite <- E.
  rewrite length_take, length_drop, length_app, <- offset_all. pose proof (offset_mono k (length cs) ltac:(lia)). simpl. lia.
Qed.

Lemma char_at k b : cs !! k = Some b -> utf8_get_char buf (offset k) = Some (char_value b) /\ utf8_next_char buf (offset k) = Some (offset (S k))
  /\ bytes_at buf (offset k) (length b) = Some b.
Proof.
  intros H. pose proof (char_pos _ _ H) as Hb. pose proof (drop_char _ _ H) as E. split; [by eapply get_char_spec; [..|apply no_cont_after]|].
  split; [rewrite (offset_S _ _ H); by eapply next_char_spec; [..|apply no_cont_after]|].
  unfold bytes_at. rewrite E, take_app_length, Nat.eqb_refl. done.
Qed.

Lemma charlen_step b n : is_char b -> Z.of_nat n + 1 < 2 ^ 32 ->
  foldl (fun n c => if UTF8_IS_CONT c then n else wrap 32 (n + 1)) (Z.of_nat n) b = Z.of_nat (S n).
Proof.
  destruct b as [|c b]; [done|]. intros (Hl & _ & Hc) Hn. cbn [foldl]. rewrite (lead_false _ Hl), wrap_id by lia.
  replace (Z.of_nat n + 1) with (Z.of_nat (S n)) by lia. clear Hl Hn. induction Hc as [|k b Hk Hc IH]; [done|]. cbn [foldl]. by rewrite (cont_true _ Hk).
Qed.

Lemma charlen_spec : Z.of_nat (length cs) < 2 ^ 32 -> utf8_charlen (concat cs) = Z.of_nat (length cs).
Proof.
  unfold utf8_charlen. enough (H : forall n, Z.of_nat (n + length cs) < 2 ^ 32 ->
    foldl (fun n c => if UTF8_IS_CONT c then n else wrap 32 (n + 1)) (Z.of_nat n) (concat cs) = Z.of_nat (n + length cs)) by (intros Hl; exact (H 0%nat Hl)).
  induction Hcs as [|b l Hb Hl IH]; intros n Hn; [simpl; by rewrite Nat.add_0_r|]. cbn [concat length] in *.
  rewrite foldl_app, charlen_step by (done || lia). rewrite (IH Hl) by lia. f_equal. lia.
Qed.

(** ** Positions from the end *)

(** The bytes of a character seen from its end: continuation bytes and then the first. *)
Lemma char_bytes k b j : cs !! k = Some b -> (j < length b)%nat ->
  exists c, buf !! (offset k + j)%nat = Some c /\ UTF8_IS_CONT c = negb (j =? 0)%nat.
Proof.
  intros H Hj. pose proof (char_pos _ _ H) as Hb. destruct (lookup_lt_is_Some_2 b j Hj) as [c Hc]. exists c. split.
  - rewrite <- lookup_drop, (drop_char _ _ H). by apply lookup_app_l_Some.
  - destruct b as [|c0 b]; [done|]. destruct Hb as (Hl & _ & Hcont). destruct j as [|j]; simpl in Hc.
    + injection Hc as ->. by apply lead_false.
    + simpl. apply cont_true. by eapply list.Forall_lookup in Hc.
Qed.

Lemma index_back_char k b is_slice i j : cs !! k = Some b -> i < 0 -> (j < length b)%nat ->
  index_back buf is_slice i (S (offset k + j)) = index_back buf is_slice (i + 1) (offset k).
Proof.
  intros H Hi. induction j as [|j IH]; intros Hj; destruct (char_bytes k b _ H Hj) as (c & Hc & Ec); cbn [index_back];
    replace (i =? 0) with false by lia; rewrite Hc; simpl; rewrite Ec; simpl.
  - by rewrite Nat.add_0_r.
  - replace (offset k + S j)%nat with (S (offset k + j)) by lia. apply IH. lia.
Qed.

(** An index out of bounds. *)
Definition out_of_bounds (is_slice : bool) (p : nat) : res nat := if is_slice then Ok p else Raise IndexError.

Lemma index_back_spec is_slice m : (m <= length cs)%nat -> forall i, i <= 0 -> index_back buf is_slice i (offset m)
  = Some (if 0 <=? Z.of_nat m + i then Ok (offset (Z.to_nat (Z.of_nat m + i))) else out_of_bounds is_slice 0).
Proof.
  induction m as [|m IH]; intros Hm i Hi.
  - rewrite offset_0. cbn [index_back]. destruct (Z.eqb_spec i 0) as [->|Hne]; [done|]. by replace (0 <=? Z.of_nat 0 + i) with false by lia.
  - destruct (lookup_lt_is_Some_2 cs m ltac:(lia)) as [b Hb]. pose proof (char_pos _ _ Hb) as Hch.
    destruct (Z.eq_dec i 0) as [->|Hne].
    + replace (0 <=? Z.of_nat (S m) + 0) with true by lia. replace (Z.to_nat (Z.of_nat (S m) + 0)) with (S m) by lia. by destruct (offset (S m)).
    + assert (Hlen : length b = S (pred (length b))) by (destruct b; [done|reflexivity]).
      rewrite (offset_S _ _ Hb), Hlen, Nat.add_succ_r, (index_back_char m b) by (done || lia). rewrite IH by lia.
      replace (Z.of_nat m + (i + 1)) with (Z.of_nat (S m) + i) by lia. done.
Qed.

Lemma ptr_to_index_char k b j : cs !! k = Some b -> (j < length b)%nat ->
  utf8_ptr_to_index buf 0 (S (offset k + j)) = i ← utf8_ptr_to_index buf 0 (offset k); Some (wrap 32 (i + 1)).
Proof.
  intros H. induction j as [|j IH]; intros Hj; destruct (char_bytes k b _ H Hj) as (c & Hc & Ec); cbn [utf8_ptr_to_index];
    rewrite Nat.add_0_l, Hc; simpl; rewrite Ec; simpl.
  - by rewrite Nat.add_0_r.
  - replace (offset k + S j)%nat with (S (offset k + j)) by lia. rewrite IH by lia. by destruct (utf8_ptr_to_index buf 0 (offset k)).
Qed.

Lemma ptr_to_index_spec m : (m <= length cs)%nat -> Z.of_nat (length cs) < 2 ^ 32 -> utf8_ptr_to_index buf 0 (offset m) = Some (Z.of_nat m).
Proof.
  intros Hm Hl. induction m as [|m IH]; [done|]. destruct (lookup_lt_is_Some_2 cs m ltac:(lia)) as [b Hb]. pose proof (char_pos _ _ Hb) as Hch.
  assert (Hlen : length b = S (pred (length b))) by (destruct b; [done|reflexivity]).
  rewrite (offset_S _ _ Hb), Hlen, Nat.add_succ_r, (ptr_to_index_char m b) by (done || lia). rewrite IH by lia. simpl. f_equal.
  rewrite wrap_id by lia. lia.
Qed.

(** ** Positions from the start *)

Lemma index_forward_spec is_slice fuel : forall k i, (length cs - k < fuel)%nat -> (k <= length cs)%nat -> 0 <= i ->
  index_forward fuel buf len is_slice i (offset k)
  = Some (if Z.of_nat k + i <? Z.of_nat (length cs) then Ok (offset (Z.to_nat (Z.of_nat k + i))) else out_of_bounds is_slice len).
Proof.
  induction fuel as [|fuel IH]; intros k i Hf Hk Hi; [lia|]. cbn [index_forward]. destruct (cs !! k) as [b|] eqn:Hb.
  - destruct (offset_lt _ _ Hb) as [Hlt _]. replace (len <=? offset k)%nat with false by lia. apply lookup_lt_Some in Hb as Hkl.
    destruct (Z.eqb_spec i 0) as [->|Hne].
    + replace (Z.of_nat k + 0 <? Z.of_nat (length cs)) with true by lia. by replace (Z.to_nat (Z.of_nat k + 0)) with k by lia.
    + destruct (char_at _ _ Hb) as (_ & -> & _). simpl. rewrite IH by lia. replace (Z.of_nat (S k) + (i - 1)) with (Z.of_nat k + i) by lia. done.
  - apply lookup_ge_None in Hb. assert (k = length cs) as -> by lia. rewrite offset_all. replace (len <=? len)%nat with true by lia.
    by replace (Z.of_nat (length cs) + i <? Z.of_nat (length cs)) with false by lia.
Qed.

Lemma length_chars : (length cs <= len)%nat.
Proof.
  clear -Hcs. induction Hcs as [|b l Hb Hl IH]; [done|]. specialize (IH Hl). cbn [concat length]. rewrite length_app. destruct b; [done|]. cbn [length]. lia.
Qed.

(** Python's position of an index. *)
Definition norm_index (i : Z) : Z := if i <? 0 then Z.of_nat (length cs) + i else i.

Lemma index_to_ptr_spec z is_slice : in_int z = true -> str_index_to_ptr buf len (IdxInt z) is_slice
  = Some (if (0 <=? norm_index z) && (norm_index z <? Z.of_nat (length cs)) then Ok (offset (Z.to_nat (norm_index z)))
          else out_of_bounds is_slice (if z <? 0 then 0 else len)).
Proof.
  intros Hz. unfold str_index_to_ptr, str_index_val, mp_obj_int_get_checked, norm_index. rewrite Hz. destruct (Z.ltb_spec z 0) as [Hn|Hn].
  - rewrite <- offset_all at 1. rewrite index_back_spec by lia. destruct (Z.leb_spec 0 (Z.of_nat (length cs) + z)); simpl; [|done].
    by replace (Z.of_nat (length cs) + z <? Z.of_nat (length cs)) with true by lia.
  - rewrite <- offset_0 at 1. pose proof length_chars. rewrite index_forward_spec by lia. replace (0 <=? z) with true by lia. done.
Qed.

(** ** Characters, slices and iteration *)

Lemma bytes_at_char k b : cs !! k = Some b ->
  (c ← buf !! offset k; bytes_at buf (offset k) (if UTF8_IS_NONASCII c then S (lead_len 8 c 0x40) else 1%nat)) = Some b.
Proof.
  intros H. pose proof (char_pos _ _ H) as Hb. pose proof (proj2 (proj2 (char_at _ _ H))) as Hby.
  destruct b as [|c b]; [done|]. pose proof (drop_char _ _ H) as E. destruct Hb as (Hl & Hn & _).
  replace (buf !! offset k) with (Some c); [|symmetry; rewrite <- (Nat.add_0_r (offset k)), <- lookup_drop, E; done]. cbn [mbind option_bind].
  destruct (lead_decode c Hl) as [-> Hd]. cbn [length] in Hby. rewrite Hn in Hby. destruct (Z.leb_spec 0x80 c) as [Hc|Hc].
  - by destruct (Hd Hc) as (_ & _ & ->).
  - unfold lead_conts in Hby. replace (c <? 0xC0) with true in Hby by lia. done.
Qed.

Lemma subscr_index_spec z : in_int z = true -> str_subscr_index buf len (IdxInt z)
  = Some (match (if norm_index z <? 0 then None else cs !! Z.to_nat (norm_index z)) with Some b => Ok b | None => Raise IndexError end).
Proof.
  intros Hz. unfold str_subscr_index. rewrite index_to_ptr_spec by done. set (i := norm_index z). destruct (Z.ltb_spec i 0) as [Hn|Hn].
  { by replace (0 <=? i) with false by lia. }
  replace (0 <=? i) with true by lia. destruct (cs !! Z.to_nat i) as [b|] eqn:Hb.
  - apply lookup_lt_Some in Hb as Hlt. replace (i <? Z.of_nat (length cs)) with true by lia. cbn [andb mbind option_bind].
    pose proof (bytes_at_char _ _ Hb) as Hx. destruct (buf !! offset (Z.to_nat i)) as [c|]; [|done]. cbn [mbind option_bind] in Hx |- *. by rewrite Hx.
  - apply lookup_ge_None in Hb. by replace (i <? Z.of_nat (length cs)) with false by lia.
Qed.

(** A bound of a slice, brought into [0, n]. *)
Definition clamp_index (o : py_index) (default : nat) : nat :=
  match o with IdxInt z => Z.to_nat (Z.max 0 (Z.min (norm_index z) (Z.of_nat (length cs)))) | _ => default end.

Definition bound_ok (o : py_index) : Prop := match o with IdxNone => True | IdxInt z => in_int z = true | _ => False end.

Lemma slice_ptr_spec o d : bound_ok o -> slice_ptr buf len o (offset d) = Some (Ok (offset (clamp_index o d))).
Proof.
  destruct o as [|z|r]; [done| |done]. intros Hz. unfold slice_ptr, clamp_index. rewrite index_to_ptr_spec by done.
  assert (Hnorm : z < 0 -> norm_index z < Z.of_nat (length cs)) by (unfold norm_index; destruct (Z.ltb_spec z 0); lia).
  assert (Hpos : 0 <= z -> 0 <= norm_index z) by (unfold norm_index; destruct (Z.ltb_spec z 0); lia). set (i := norm_index z) in *. unfold out_of_bounds.
  destruct (Z.leb_spec 0 i); destruct (Z.ltb_spec i (Z.of_nat (length cs))); simpl.
  - do 3 f_equal. lia.
  - replace (z <? 0) with false by lia. rewrite Z.min_r, Z.max_r, Nat2Z.id by lia. by rewrite offset_all.
  - replace (z <? 0) with true by lia. by rewrite Z.min_l, Z.max_l by lia.
  - lia.
Qed.

Lemma clamp_bound o d : (d <= length cs)%nat -> (clamp_index o d <= length cs)%nat.
Proof. intros Hd. destruct o; simpl; lia. Qed.

Lemma subscr_slice_spec o1 o2 step : bound_ok o1 -> bound_ok o2 -> step = IdxNone \/ step = IdxInt 1 ->
  str_subscr_slice buf len (MkSlice o1 o2 step)
  = Some (Ok (concat (take (clamp_index o2 (length cs) - clamp_index o1 0) (drop (clamp_index o1 0) cs)))).
Proof.
  intros H1 H2 Hs. unfold str_subscr_slice. cbn [ostep ostart ostop].
  pose proof (slice_ptr_spec o1 0 H1) as E1. rewrite offset_0 in E1. pose proof (slice_ptr_spec o2 (length cs) H2) as E2. rewrite offset_all in E2.
  pose proof (clamp_bound o1 0 ltac:(lia)). pose proof (clamp_bound o2 (length cs) ltac:(lia)).
  set (a := clamp_index o1 0) in *. set (b := clamp_index o2 (length cs)) in *.
  assert (E : (if (offset b <? offset a)%nat then Some (Ok []) else l ← bytes_at buf (offset a) (offset b - offset a); Some (Ok l))
    = Some (Ok (concat (take (b - a) (drop a cs))))).
  { destruct (Nat.ltb_spec (offset b) (offset a)) as [Hlt|Hge].
    - assert (b < a)%nat by (destruct (Nat.le_gt_cases a b) as [Hle|]; [|done]; pose proof (offset_mono _ _ Hle); lia).
      by replace (b - a)%nat with 0%nat by lia.
    - assert (Hab : (a <= b)%nat).
      { destruct (Nat.le_gt_cases a b) as [|Hlt]; [done|]. destruct (lookup_lt_is_Some_2 cs b ltac:(lia)) as [x Hx].
        pose proof (offset_lt _ _ Hx). pose proof (offset_mono (S b) a ltac:(lia)). lia. }
      rewrite bytes_at_offsets by lia. done. }
  destruct Hs as [-> | ->]; rewrite E1; cbn [mbind option_bind]; rewrite E2; exact E.
Qed.

(** Iteration to the end. *)
Fixpoint iterate (fuel : nat) (cur : nat) : option (list (list Z)) :=
  match fuel with
  | O => None
  | S fuel => r ← str_it_iternext buf len cur;
              match r with None => Some [] | Some (l, cur) => ls ← iterate fuel cur; Some (l :: ls) end
  end.

Lemma iterate_spec fuel : forall k, (k <= length cs)%nat -> (length cs - k < fuel)%nat -> iterate fuel (offset k) = Some (drop k cs).
Proof.
  induction fuel as [|fuel IH]; intros k Hk Hf; [lia|]. cbn [iterate]. unfold str_it_iternext. destruct (cs !! k) as [b|] eqn:Hb.
  - destruct (offset_lt _ _ Hb) as [Hlt _]. replace (offset k <? len)%nat with true by lia. destruct (char_at _ _ Hb) as (_ & -> & Hby). simpl.
    rewrite (offset_S _ _ Hb). replace (offset k + length b - offset k)%nat with (length b) by lia. rewrite Hby. simpl.
    rewrite <- (offset_S _ _ Hb). apply lookup_lt_Some in Hb as Hl. rewrite IH by lia. simpl. by rewrite (drop_S _ _ _ Hb).
  - apply lookup_ge_None in Hb. assert (k = length cs) as -> by lia. rewrite offset_all. replace (len <? len)%nat with false by lia.
    by rewrite drop_all.
Qed.
End Strings.

(** ** The properties *)

(** C24 UTF-8: the encoding of any code points is accepted by [utf8_check]; [utf8_charlen] counts them;
    [utf8_get_char] and [utf8_next_char] read each of them back and go from one to the next, up to the end; and
    [utf8_ptr_to_index] gives the number of characters before a position. *)
Theorem utf8_roundtrip us : Forall is_unichar us -> Z.of_nat (length us) < 2 ^ 32 ->
  let cs := map utf8_encode us in let data := concat cs in
  utf8_check data = true /\ utf8_charlen data = Z.of_nat (length us)
  /\ offset cs 0 = 0%nat /\ offset cs (length us) = length data
  /\ forall k u, us !! k = Some u -> utf8_get_char (data ++ [0]) (offset cs k) = Some u
     /\ utf8_next_char (data ++ [0]) (offset cs k) = Some (offset cs (S k))
     /\ utf8_ptr_to_index (data ++ [0]) 0 (offset cs k) = Some (Z.of_nat k).
Proof.
  intros Hu Hl cs data.
  assert (Hcs : Forall is_char cs).
  { apply list.Forall_forall. intros b Hb. apply list_elem_of_fmap in Hb as (u & -> & Hin). apply encode_spec. by eapply list.Forall_forall in Hu. }
  assert (Hn : length cs = length us) by (unfold cs; by rewrite length_map).
  split; [|split; [unfold data; rewrite charlen_spec by (done || lia); by rewrite Hn|split; [done|split; [rewrite <- Hn; apply offset_all|]]]].
  - unfold utf8_check, data. clear -Hcs. induction Hcs as [|b l Hb _ IH]; [done|]. cbn [concat]. by rewrite check_char.
  - intros k u Hk. assert (Hb : cs !! k = Some (utf8_encode u)) by (unfold cs; by rewrite list_lookup_fmap, Hk).
    destruct (char_at cs Hcs _ _ Hb) as (Hg & Hx & _). apply lookup_lt_Some in Hk as Hlt.
    unfold data. split; [rewrite Hg; f_equal; apply encode_spec; by eapply list.Forall_lookup in Hu|]. split; [exact Hx|].
    apply ptr_to_index_spec; [done|lia..].
Qed.

(** C25 Strings of code points behave like Python's sequences: a byte string that [utf8_check] accepts is
    a list of characters, whose length [len] returns, whose elements indexing returns (with negative
    indexes from the end, and [IndexError] outside), of which a slice with step 1 is the sublist between the bounds brought
    into range, and over which the iterator goes; other steps are not implemented, and what is no integer
    or no machine integer is refused. *)
Theorem str_sequence_correct data : Forall is_byte data -> utf8_check data = true -> Z.of_nat (length data) < 2 ^ 31 ->
  exists cs, data = concat cs /\ Forall is_char cs /\ utf8_charlen data = Z.of_nat (length cs)
  /\ (forall z, in_int z = true -> str_subscr_index (data ++ [0]) (length data) (IdxInt z)
      = Some (match (if norm_index cs z <? 0 then None else cs !! Z.to_nat (norm_index cs z)) with Some b => Ok b | None => Raise IndexError end))
  /\ (forall o1 o2 step, bound_ok o1 -> bound_ok o2 -> step = IdxNone \/ step = IdxInt 1 ->
      str_subscr_slice (data ++ [0]) (length data) (MkSlice o1 o2 step)
      = Some (Ok (concat (take (clamp_index cs o2 (length cs) - clamp_index cs o1 0) (drop (clamp_index cs o1 0) cs)))))
  /\ iterate cs (S (length cs)) 0 = Some cs
  /\ (forall z, in_int z = false -> str_subscr_index (data ++ [0]) (length data) (IdxInt z) = Some (Raise OverflowError))
  /\ (forall o, (forall z, o <> IdxInt z) -> str_subscr_index (data ++ [0]) (length data) o = Some (Raise TypeError))
  /\ (forall o1 o2 step, step <> IdxNone -> step <> IdxInt 1 ->
      str_subscr_slice (data ++ [0]) (length data) (MkSlice o1 o2 step) = Some (Raise NotImplementedError)).
Proof.
  intros Hb Hc Hl. apply check_spec in Hc as (cs & Hcs & ->); [|done]. exists cs. pose proof (length_chars cs Hcs).
  split; [done|]. split; [done|]. split; [apply charlen_spec; [done|lia]|]. split; [intros z Hz; by apply subscr_index_spec|].
  split; [intros; by apply subscr_slice_spec|]. split; [apply (iterate_spec cs Hcs _ 0); lia|]. split; [|split].
  - intros z Hz. unfold str_subscr_index, str_index_to_ptr, str_index_val, mp_obj_int_get_checked. by rewrite Hz.
  - intros [|z|r] Hz; [done|by destruct (Hz z)|done].
  - intros o1 o2 [|z|r] H1 H2; [done| |done]. unfold str_subscr_slice. cbn [ostep]. destruct z as [|[]|]; done.
Qed.

(** ** Examples *)

(** A, e acute, euro, a G clef. *)
Lemma utf8_roundtrip_witness : Forall is_unichar [65; 0xE9; 0x20AC; 0x1D11E]
  /\ utf8_check [65; 0xC3; 0xA9; 0xE2; 0x82; 0xAC; 0xF0; 0x9D; 0x84; 0x9E] = true
  /\ utf8_get_char ([65; 0xC3; 0xA9; 0xE2; 0x82; 0xAC; 0xF0; 0x9D; 0x84; 0x9E] ++ [0]) 3 = Some 0x20AC.
Proof.
  assert (Hu : Forall is_unichar [65; 0xE9; 0x20AC; 0x1D11E]) by (repeat constructor; lia).
  split; [exact Hu|]. destruct (utf8_roundtrip _ Hu) as (Hc & _ & _ & _ & Hk); [simpl; lia|].
  split; [exact Hc|]. exact (proj1 (Hk 2%nat 0x20AC eq_refl)).
Defined.

Lemma str_sequence_correct_witness :
  str_subscr_index ([65; 0xC3; 0xA9; 0xE2; 0x82; 0xAC] ++ [0]) 6 (IdxInt (-2)) = Some (Ok [0xC3; 0xA9])
  /\ str_subscr_slice ([65; 0xC3; 0xA9; 0xE2; 0x82; 0xAC] ++ [0]) 6 (MkSlice (IdxInt 1) (IdxInt 9) IdxNone)
     = Some (Ok [0xC3; 0xA9; 0xE2; 0x82; 0xAC]).
Proof.
  destruct (str_sequence_correct [65; 0xC3; 0xA9; 0xE2; 0x82; 0xAC]) as (cs & E & Hcs & Hlen & Hi & Hs & Hit & _);
    [repeat constructor; lia|vm_compute; reflexivity|simpl; lia|].
  assert (H3 : length cs = 3%nat) by (assert (E3 : utf8_charlen [65; 0xC3; 0xA9; 0xE2; 0x82; 0xAC] = 3) by (vm_compute; reflexivity); lia).
  assert (Hcs3 : cs = [[65]; [0xC3; 0xA9]; [0xE2; 0x82; 0xAC]]).
  { pose proof (iterate_spec cs Hcs 4 0 ltac:(lia) ltac:(lia)) as Hx. rewrite drop_0 in Hx. unfold iterate in Hx. rewrite <- E in Hx.
    vm_compute in Hx. by injection Hx as <-. }
  clear E Hcs Hlen Hit H3. subst cs. split; [refine (eq_trans (Hi (-2) eq_refl) _); vm_compute; reflexivity|].
  refine (eq_trans (Hs (IdxInt 1) (IdxInt 9) IdxNone eq_refl eq_refl (or_introl eq_refl)) _). vm_compute. reflexivity.
Defined.

(** Overlong encodings, surrogates and values above 0x10FFFF pass the check. *)
Lemma check_accepts_invalid : utf8_check [0xC0; 0x80] = true /\ utf8_get_char [0xC0; 0x80; 0] 0 = Some 0
  /\ utf8_check [0xED; 0xA0; 0x80] = true /\ utf8_get_char [0xED; 0xA0; 0x80; 0] 0 = Some 0xD800
  /\ utf8_check [0xF7; 0xBF; 0xBF; 0xBF] = true /\ utf8_get_char [0xF7; 0xBF; 0xBF; 0xBF; 0] 0 = Some 0x1FFFFF.
Proof. repeat split; vm_compute; reflexivity. Qed.

(** The attributes are those of the ASCII classes. *)
Lemma attributes_spec c : 0 <= c ->
  unichar_isspace c = ((9 <=? c) && (c <=? 13) || (c =? 32)) /\ unichar_isdigit c = ((48 <=? c) && (c <=? 57))
  /\ unichar_isupper c = ((65 <=? c) && (c <=? 90)) /\ unichar_islower c = ((97 <=? c) && (c <=? 122))
  /\ unichar_isalpha c = unichar_isupper c || unichar_islower c
  /\ unichar_isxdigit c = unichar_isdigit c || ((65 <=? c) && (c <=? 70)) || ((97 <=? c) && (c <=? 102)).
Proof.
  intros Hc. assert (Hge : forall f, 128 <= c -> has_attr f c = false) by (intros f H; unfold has_attr; by replace (c <? 128) with false by lia).
  destruct (Z.ltb_spec c 128) as [Hl|Hl].
  - pose proof (byte_cases (fun c => negb (c <? 128) || Bool.eqb (unichar_isspace c) ((9 <=? c) && (c <=? 13) || (c =? 32))
      && Bool.eqb (unichar_isdigit c) ((48 <=? c) && (c <=? 57)) && Bool.eqb (unichar_isupper c) ((65 <=? c) && (c <=? 90))
      && Bool.eqb (unichar_islower c) ((97 <=? c) && (c <=? 122)) && Bool.eqb (unichar_isalpha c) (unichar_isupper c || unichar_islower c)
      && Bool.eqb (unichar_isxdigit c) (unichar_isdigit c || ((65 <=? c) && (c <=? 70)) || ((97 <=? c) && (c <=? 102)))) ltac:(vm_compute; reflexivity) c ltac:(lia)) as H.
    cbv beta in H. replace (c <? 128) with true in H by lia. simpl negb in H. cbn [orb] in H.
    repeat (apply andb_prop in H as [H ?]). repeat match goal with E : Bool.eqb _ _ = true |- _ => apply Bool.eqb_prop in E end. done.
  - unfold unichar_isspace, unichar_isdigit, unichar_isupper, unichar_islower, unichar_isalpha, unichar_isxdigit. rewrite !Hge by done. lia.
Qed.
