(* ===== verification/Vstr.v ===== *)
(** Strings that grow, [py/vstr.c].

    The buffer is a list of bytes, [None] where nothing was written, and no list when
    the pointer is [NULL]; lengths and offsets are unsigned 32-bit words.  Allocations
    succeed or not according to [v_answers], never with more bytes than the heap has. *)
From Stdlib Require Import ZifyBool.
From S2P Require Import Prelude PyExn Unicode.

Abbreviation vcells := (list (option Z)).
Record vstr_t := MkVstr { v_alloc : Z; v_len : Z; v_buf : option vcells; v_fixed : bool }.
Record vstate := MkV { v_str : vstr_t; v_heap : Z; v_answers : list bool }.

Abbreviation V := (X vstate).
Definition vget : V vstr_t := fun s => Some (Ok (v_str s), s).
Definition vput (v : vstr_t) : V unit := fun s => Some (Ok tt, MkV v (v_heap s) (v_answers s)).
Definition vabort {A} : V A := fun _ => None.
Definition set_v_len (n : Z) : V unit := v ← vget; vput (MkVstr (v_alloc v) n (v_buf v) (v_fixed v)).

(** ** Memory *)

(** An allocation of [n] bytes is granted or raises [MemoryError]. *)
Definition v_malloc (n : Z) : V unit := fun s =>
  let ok := match v_answers s with false :: _ => false | _ => negb (v_heap s <? n) end in
  Some (if ok then Ok tt else Raise MemoryError, MkV (v_str s) (v_heap s) (tail (v_answers s))).

Definition v_new (n : Z) : V (option vcells) :=
  if n =? 0 then mret None else v_malloc n;; mret (Some (replicate (Z.to_nat n) None)).

(** [m_renew(char, buf, _, n)] *)
Definition v_renew (buf : option vcells) (n : Z) : V (option vcells) :=
  match buf with
  | None => v_new n
  | Some b =>
      if n =? 0 then mret None
      else if n <=? Z.of_nat (length b) then mret (Some (take (Z.to_nat n) b))
      else v_malloc n;; mret (Some (b ++ replicate (Z.to_nat n - length b) None))
  end.

(** Bytes of the buffer, which must lie inside it; none need no buffer. *)
Definition v_read (p n : Z) : V vcells :=
  if n =? 0 then mret []
  else
    v ← vget;
    match v_buf v with
    | Some b => if (0 <=? p) && (0 <=? n) && (p + n <=? Z.of_nat (length b)) then mret (take (Z.to_nat n) (drop (Z.to_nat p) b)) else vabort
    | None => vabort
    end.

Definition v_write (p : Z) (xs : vcells) : V unit :=
  match xs with
  | [] => mret tt
  | _ =>
      v ← vget;
      match v_buf v with
      | Some b =>
          if (0 <=? p) && (p + Z.of_nat (length xs) <=? Z.of_nat (length b)) then
            vput (MkVstr (v_alloc v) (v_len v) (Some (take (Z.to_nat p) b ++ xs ++ drop (Z.to_nat p + length xs) b)) (v_fixed v))
          else vabort
      | None => vabort
      end
  end.

Definition v_move (dest src n : Z) : V unit := xs ← v_read src n; v_write dest xs.

(** ** Operations *)

Definition ROUND_ALLOC (a : Z) : Z := wrap 32 (Z.land a (2 ^ 32 - 1 - 7) + 8).

Definition vstr_init (alloc : Z) : V unit :=
  let alloc := if alloc <? 1 then 1 else alloc in
  v ← vget; vput (MkVstr alloc 0 (v_buf v) (v_fixed v));;
  buf ← v_new alloc; vput (MkVstr alloc 0 buf false).

Definition vstr_init_len (len : Z) : V unit := vstr_init (wrap 32 (len + 1));; set_v_len len.
Definition vstr_init_fixed_buf (alloc : Z) (buf : vcells) : V unit := vput (MkVstr alloc 0 (Some buf) true).
Definition vstr_clear : V unit := v ← vget; vput (MkVstr (v_alloc v) (v_len v) None (v_fixed v)).
Definition vstr_reset : V unit := set_v_len 0.

Definition vstr_extend (size : Z) : V Z :=
  v ← vget;
  if v_fixed v then mp_raise RuntimeError
  else
    new_buf ← v_renew (v_buf v) (wrap 32 (v_alloc v + size));
    vput (MkVstr (wrap 32 (v_alloc v + size)) (v_len v) new_buf (v_fixed v));; mret (v_alloc v).

Definition vstr_ensure_extra (size : Z) : V unit :=
  v ← vget;
  if v_alloc v <? wrap 32 (v_len v + size) then
    if v_fixed v then mp_raise RuntimeError
    else
      let new_alloc := ROUND_ALLOC (wrap 32 (wrap 32 (v_len v + size) + 16)) in
      new_buf ← v_renew (v_buf v) new_alloc;
      vput (MkVstr new_alloc (v_len v) new_buf (v_fixed v))
  else mret tt.

Definition vstr_hint_size (size : Z) : V unit := vstr_ensure_extra size.

(** The place of the new bytes. *)
Definition vstr_add_len (len : Z) : V Z :=
  vstr_ensure_extra len;; v ← vget; set_v_len (wrap 32 (v_len v + len));; mret (v_len v).

Definition vstr_null_terminated_str : V unit :=
  v ← vget; (if v_alloc v =? v_len v then vstr_extend 1;; mret tt else mret tt);;
  v ← vget; v_write (v_len v) [Some 0].

Definition vstr_add_byte (b : Z) : V unit := p ← vstr_add_len 1; v_write p [Some b].

(** The encodings of one to four bytes. *)
Definition vstr_add_char (c : Z) : V unit :=
  p ← vstr_add_len (if c <? 0x80 then 1 else if c <? 0x800 then 2 else if c <? 0x10000 then 3 else 4);
  v_write p (map Some (utf8_encode c)).

Definition vstr_add_strn (str : list Z) : V unit :=
  let len := Z.of_nat (length str) in
  vstr_ensure_extra len;; v ← vget; v_write (v_len v) (map Some str);; set_v_len (wrap 32 (v_len v + len)).

Definition vstr_add_str (str : list Z) : V unit := vstr_add_strn (c_string str).

Definition vstr_ins_blank_bytes (byte_pos byte_len : Z) : V Z :=
  v ← vget;
  let l := v_len v in
  let byte_pos := if l <? byte_pos then l else byte_pos in
  (if 0 <? byte_len then
     vstr_ensure_extra byte_len;;
     v_move (byte_pos + byte_len) byte_pos (l - byte_pos);;
     set_v_len (wrap 32 (l + byte_len))
   else mret tt);;
  mret byte_pos.

Definition vstr_ins_byte (byte_pos b : Z) : V unit := p ← vstr_ins_blank_bytes byte_pos 1; v_write p [Some b].
(** A character is stored as one byte. *)
Definition vstr_ins_char (char_pos chr : Z) : V unit := p ← vstr_ins_blank_bytes char_pos 1; v_write p [Some (wrap 8 chr)].

Definition vstr_cut_out_bytes (byte_pos bytes_to_cut : Z) : V unit :=
  v ← vget;
  if v_len v <=? byte_pos then mret tt
  else if v_len v <=? wrap 32 (byte_pos + bytes_to_cut) then set_v_len byte_pos
  else
    v_move byte_pos (byte_pos + bytes_to_cut) (wrap 32 (v_len v - byte_pos - bytes_to_cut));;
    set_v_len (wrap 32 (v_len v - bytes_to_cut)).

Definition vstr_cut_head_bytes (bytes_to_cut : Z) : V unit := vstr_cut_out_bytes 0 bytes_to_cut.
Definition vstr_cut_tail_bytes (len : Z) : V unit :=
  v ← vget; if v_len v <? len then set_v_len 0 else set_v_len (v_len v - len).

(** Strings that grow: every operation does to the bytes what it says, or fails cleanly. *)

Implicit Types (s : vstate) (v : vstr_t) (xs b : vcells).

(** The characters of a string. *)
Definition bytes_of_vstr v : vcells := match v_buf v with Some b => take (Z.to_nat (v_len v)) b | None => [] end.
Definition vstr_bytes s : vcells := bytes_of_vstr (v_str s).

Record vstr_ok s : Prop := {
  vo_buf : exists b, v_buf (v_str s) = Some b /\ Z.of_nat (length b) = v_alloc (v_str s);
  vo_len : 0 <= v_len (v_str s) <= v_alloc (v_str s);
  vo_alloc : v_alloc (v_str s) < 2 ^ 31;
  vo_heap : v_heap s < 2 ^ 31 }.

Lemma length_vstr_bytes s : vstr_ok s -> Z.of_nat (length (vstr_bytes s)) = v_len (v_str s).
Proof. intros [(b & Hb & Hl) H1 _ _]. unfold vstr_bytes, bytes_of_vstr. rewrite Hb, length_take. lia. Qed.

(** What an operation leaves: well-formed, of the same kind and with the same heap. *)
Definition good s s' : Prop :=
  vstr_ok s' /\ v_fixed (v_str s') = v_fixed (v_str s) /\ v_heap s' = v_heap s /\ (v_answers s = [] -> v_answers s' = []).

Lemma good_refl s : vstr_ok s -> good s s.
Proof. done. Qed.
Lemma good_trans s1 s2 s3 : good s1 s2 -> good s2 s3 -> good s1 s3.
Proof. intros (H1 & H2 & H3 & H4) (H5 & H6 & H7 & H8). split; [done|]. split; [congruence|]. split; [congruence|auto]. Qed.

(** ** Growing *)

Lemma round_alloc_spec a : 0 <= a -> a + 8 < 2 ^ 32 -> a < ROUND_ALLOC a <= a + 8.
Proof.
  intros H0 H. unfold ROUND_ALLOC.
  replace (Z.land a (2 ^ 32 - 1 - 7)) with (Z.ldiff a (Z.ones 3)).
  - rewrite Z.ldiff_ones_r by lia. rewrite Z.shiftl_mul_pow2, Z.shiftr_div_pow2 by lia. change (2 ^ 3) with 8.
    pose proof (Z.div_mod a 8 ltac:(lia)). pose proof (Z.mod_pos_bound a 8 ltac:(lia)). rewrite wrap_id by lia. lia.
  - apply Z.bits_inj'. intros n Hn. rewrite Z.ldiff_spec, Z.land_spec.
    destruct (Z.ltb_spec n 32).
    + f_equal. change (2 ^ 32 - 1 - 7) with (Z.ldiff (Z.ones 32) (Z.ones 3)). rewrite Z.ldiff_spec, (Z.ones_spec_low 32) by lia. done.
    + rewrite <- (Z.mod_small a (2 ^ 32)) by lia. by rewrite Z.mod_pow2_bits_high by lia.
Qed.

(** The error that a string that cannot grow to [n] bytes gives. *)
Definition no_room s n e : Prop :=
  v_alloc (v_str s) < n /\ (if v_fixed (v_str s) then e = RuntimeError else e = MemoryError /\ (v_answers s = [] -> v_heap s < n + 24)).

Definition with_buf v n b : vstr_t := MkVstr n (v_len v) (Some b) (v_fixed v).

Lemma v_renew_grow s b n : Z.of_nat (length b) < n -> n <= 2 ^ 32 -> exists a, (v_answers s = [] -> a = []) /\
  (v_renew (Some b) n s = Some (Raise MemoryError, MkV (v_str s) (v_heap s) a) /\ (v_answers s = [] -> v_heap s < n)
   \/ n <= v_heap s /\ v_renew (Some b) n s = Some (Ok (Some (b ++ replicate (Z.to_nat n - length b) None)), MkV (v_str s) (v_heap s) a)).
Proof.
  intros Hl Hn. unfold v_renew. replace (n =? 0) with false by lia. replace (n <=? Z.of_nat (length b)) with false by lia.
  unfold v_malloc, mbind, X_bind. exists (tail (v_answers s)). split; [by intros ->|].
  destruct (v_answers s) as [|[] a]; [|destruct (Z.ltb_spec (v_heap s) n); [by left|right; by split; [lia|]]|by left].
  destruct (Z.ltb_spec (v_heap s) n); [by left|right; by split; [lia|]].
Qed.

Lemma set_buf_ok s b n a : vstr_ok s -> Z.of_nat (length b) = n -> v_alloc (v_str s) <= n < 2 ^ 31 -> (v_answers s = [] -> a = []) ->
  take (Z.to_nat (v_len (v_str s))) b = vstr_bytes s ->
  good s (MkV (with_buf (v_str s) n b) (v_heap s) a) /\ vstr_bytes (MkV (with_buf (v_str s) n b) (v_heap s) a) = vstr_bytes s.
Proof.
  intros [H1 H2 H3 H4] Hl Hn Ha Ht. split; [|exact Ht]. split; [|done]. constructor; simpl; try done; [by exists b|lia|lia].
Qed.

Lemma set_answers_good s a : vstr_ok s -> (v_answers s = [] -> a = []) -> good s (MkV (v_str s) (v_heap s) a).
Proof. intros [H1 H2 H3 H4] Ha. done. Qed.

Lemma ensure_extra_run s size : vstr_ok s -> 0 <= size < 2 ^ 30 -> exists r s', vstr_ensure_extra size s = Some (r, s') /\ good s s'
  /\ vstr_bytes s' = vstr_bytes s /\ v_len (v_str s') = v_len (v_str s)
  /\ match r with Ok _ => v_len (v_str s) + size <= v_alloc (v_str s') | Raise e => no_room s (v_len (v_str s) + size) e end.
Proof.
  intros Hok Hs. pose proof Hok as [(b & Hb & Hl) H2 H3 H4]. unfold vstr_ensure_extra. rewrite (X_bind_Ok vget _ s (v_str s) s) by reflexivity.
  rewrite (wrap_id 32 (_ + size)) by lia. destruct (Z.ltb_spec (v_alloc (v_str s)) (v_len (v_str s) + size)) as [Hlt|Hge].
  2: { exists (Ok tt), s. split; [done|]. split; [by apply good_refl|]. split; [done|]. split; [done|lia]. }
  unfold no_room. destruct (v_fixed (v_str s)) eqn:Hf.
  { exists (Raise RuntimeError), s. split; [done|]. split; [by apply good_refl|]. split; [done|]. split; [done|]. by split. }
  rewrite (wrap_id 32 (_ + 16)) by lia. pose proof (round_alloc_spec (v_len (v_str s) + size + 16) ltac:(lia) ltac:(lia)) as Hr.
  set (n := ROUND_ALLOC _) in *. cbv zeta. rewrite Hb.
  destruct (v_renew_grow s b n ltac:(lia) ltac:(lia)) as (a & Ha & [[E Hh]|[Hh E]]).
  - rewrite (X_bind_Raise _ _ _ _ _ E). exists (Raise MemoryError), (MkV (v_str s) (v_heap s) a). split; [done|].
    split; [by apply set_answers_good|]. split; [done|]. split; [done|]. split; [lia|]. split; [done|]. intros H. specialize (Hh H). lia.
  - rewrite (X_bind_Ok _ _ _ _ _ E). set (b' := b ++ _) in *.
    assert (Hl' : Z.of_nat (length b') = n) by (unfold b'; rewrite length_app, length_replicate; lia).
    destruct (set_buf_ok s b' n a Hok Hl' ltac:(lia) Ha) as [Hg Hc].
    { unfold b', vstr_bytes, bytes_of_vstr. rewrite Hb, take_app_le by lia. done. }
    exists (Ok tt), (MkV (with_buf (v_str s) n b') (v_heap s) a). unfold with_buf at 1. split; [by rewrite Hf|].
    split; [done|]. split; [done|]. split; [done|]. simpl. lia.
Qed.

(** ** Writing and moving *)

(** A buffer with other bytes. *)
Definition upd_buf s b : vstate := MkV (with_buf (v_str s) (v_alloc (v_str s)) b) (v_heap s) (v_answers s).
Definition upd_len s n : vstate := MkV (MkVstr (v_alloc (v_str s)) n (v_buf (v_str s)) (v_fixed (v_str s))) (v_heap s) (v_answers s).

Definition vsplice (p : Z) xs (b : vcells) : vcells := take (Z.to_nat p) b ++ xs ++ drop (Z.to_nat p + length xs) b.

Lemma v_write_run s p xs b : v_buf (v_str s) = Some b -> 0 <= p -> p + Z.of_nat (length xs) <= Z.of_nat (length b) ->
  v_write p xs s = Some (Ok tt, upd_buf s (vsplice p xs b)).
Proof.
  intros Hb Hp Hl. unfold v_write, vsplice. destruct xs as [|x xs].
  - simpl. rewrite Nat.add_0_r, take_drop. unfold upd_buf, with_buf. destruct s as [[] ? ?]. simpl in *. by rewrite Hb.
  - rewrite (X_bind_Ok vget _ s (v_str s) s) by reflexivity. rewrite Hb.
    replace ((0 <=? p) && _) with true by lia. done.
Qed.

Lemma v_read_run s p n b : v_buf (v_str s) = Some b -> 0 <= p -> 0 <= n -> p + n <= Z.of_nat (length b) ->
  v_read p n s = Some (Ok (take (Z.to_nat n) (drop (Z.to_nat p) b)), s).
Proof.
  intros Hb Hp Hn Hl. unfold v_read. destruct (Z.eqb_spec n 0) as [->|Hne]; [done|].
  rewrite (X_bind_Ok vget _ s (v_str s) s) by reflexivity. rewrite Hb. by replace (_ && _) with true by lia.
Qed.

Lemma length_vsplice p xs b : 0 <= p -> p + Z.of_nat (length xs) <= Z.of_nat (length b) -> length (vsplice p xs b) = length b.
Proof. intros Hp Hl. unfold vsplice. rewrite !length_app, length_take, length_drop. lia. Qed.

Lemma v_move_run s dest src n b : v_buf (v_str s) = Some b -> 0 <= dest -> 0 <= src -> 0 <= n -> src + n <= Z.of_nat (length b) ->
  dest + n <= Z.of_nat (length b) -> v_move dest src n s = Some (Ok tt, upd_buf s (vsplice dest (take (Z.to_nat n) (drop (Z.to_nat src) b)) b)).
Proof.
  intros Hb Hd Hs Hn H1 H2. unfold v_move. rewrite (X_bind_Ok _ _ _ _ _ (v_read_run _ _ _ _ Hb Hs Hn H1)).
  apply v_write_run; [done|done|]. rewrite length_take, length_drop. lia.
Qed.

(** The result of writing into the buffer and of setting the length. *)
Lemma final_good s b b' n : vstr_ok s -> v_buf (v_str s) = Some b -> length b' = length b -> 0 <= n <= v_alloc (v_str s) ->
  good s (upd_len (upd_buf s b') n) /\ vstr_bytes (upd_len (upd_buf s b') n) = take (Z.to_nat n) b'.
Proof.
  intros [(b0 & Hb0 & Hl) H2 H3 H4] Hb Hl' Hn. rewrite Hb in Hb0. injection Hb0 as <-. split; [|done]. split; [|done].
  constructor; simpl; try done. exists b'. split; [done|lia].
Qed.

Lemma upd_len_good s n : vstr_ok s -> 0 <= n <= v_alloc (v_str s) -> good s (upd_len s n).
Proof. intros [(b & Hb & Hl) H2 H3 H4] Hn. split; [|done]. constructor; simpl; try done. by exists b. Qed.

Lemma upd_buf_id s b : v_buf (v_str s) = Some b -> upd_buf s b = s.
Proof. intros H. unfold upd_buf, with_buf. destruct s as [[] ? ?]. simpl in *. by rewrite H. Qed.

(** ** The operations *)

Lemma take_vsplice p xs b : 0 <= p -> p + Z.of_nat (length xs) <= Z.of_nat (length b) ->
  take (Z.to_nat (p + Z.of_nat (length xs))) (vsplice p xs b) = take (Z.to_nat p) b ++ xs.
Proof.
  intros Hp Hl. unfold vsplice. rewrite app_assoc. apply take_app_length'. rewrite length_app, length_take. lia.
Qed.

Lemma vstr_bytes_take s b : v_buf (v_str s) = Some b -> vstr_bytes s = take (Z.to_nat (v_len (v_str s))) b.
Proof. intros H. unfold vstr_bytes, bytes_of_vstr. by rewrite H. Qed.

(** Room for [xs], the bytes at the end, and the new length. *)
Lemma vstr_append_run s xs : vstr_ok s -> Z.of_nat (length xs) < 2 ^ 30 -> exists r s1,
  vstr_ensure_extra (Z.of_nat (length xs)) s = Some (r, s1) /\ good s s1 /\ v_len (v_str s1) = v_len (v_str s) /\
  match r with
  | Raise e => vstr_bytes s1 = vstr_bytes s /\ no_room s (v_len (v_str s) + Z.of_nat (length xs)) e
  | Ok _ => exists b, v_buf (v_str s1) = Some b /\ v_len (v_str s) + Z.of_nat (length xs) <= Z.of_nat (length b) /\
      let s2 := upd_len (upd_buf s1 (vsplice (v_len (v_str s)) xs b)) (v_len (v_str s) + Z.of_nat (length xs)) in
      good s s2 /\ vstr_bytes s2 = vstr_bytes s ++ xs
  end.
Proof.
  intros Hok Hl. destruct (ensure_extra_run s (Z.of_nat (length xs)) Hok ltac:(lia)) as (r & s1 & E & Hg & Hc & Hlen & Hr).
  exists r, s1. split; [done|]. split; [done|]. split; [done|]. destruct r as [[]|e]; [|done].
  pose proof Hg as [Hok1 _]. destruct (vo_buf _ Hok1) as (b & Hb & Hbl). exists b. split; [done|]. split; [lia|]. cbv zeta.
  pose proof (vo_len _ Hok). destruct (final_good s1 b (vsplice (v_len (v_str s)) xs b) (v_len (v_str s) + Z.of_nat (length xs)) Hok1 Hb) as [Hg2 Hc2];
    [apply length_vsplice; lia|lia|]. split; [by eapply good_trans|]. rewrite Hc2, take_vsplice by lia. f_equal. rewrite <- Hc, (vstr_bytes_take s1 b Hb). by rewrite Hlen.
Qed.

Definition vgrows s s' (r : res unit) xs : Prop :=
  good s s' /\ match r with Ok _ => vstr_bytes s' = vstr_bytes s ++ xs | Raise e => vstr_bytes s' = vstr_bytes s /\ no_room s (v_len (v_str s) + Z.of_nat (length xs)) e end.

(** [vstr_add_len] and then the bytes. *)
Lemma add_len_write_run s xs : vstr_ok s -> (0 < length xs)%nat -> Z.of_nat (length xs) < 2 ^ 30 -> exists r s',
  (p ← vstr_add_len (Z.of_nat (length xs)); v_write p xs) s = Some (r, s') /\ vgrows s s' r xs.
Proof.
  intros Hok H0 Hl. unfold vstr_add_len. destruct (vstr_append_run s xs Hok Hl) as (r & s1 & E & Hg & Hlen & Hr). rewrite X_bind_assoc.
  pose proof (vo_len _ Hok). pose proof (vo_alloc _ Hok).
  destruct r as [[]|e].
  2: { rewrite (X_bind_Raise _ _ _ _ _ E). exists (Raise e), s1. split; [done|]. by split. }
  destruct Hr as (b & Hb & Hbl & Hg2 & Hc2). rewrite (X_bind_Ok _ _ _ _ _ E). rewrite X_bind_assoc, (X_bind_Ok vget _ s1 (v_str s1) s1) by reflexivity.
  rewrite X_bind_assoc, (X_bind_Ok _ _ s1 tt (upd_len s1 (v_len (v_str s) + Z.of_nat (length xs)))) by (rewrite Hlen, wrap_id by lia; done).
  rewrite (X_bind_Ok (mret _) _ _ (v_len (v_str s)) (upd_len s1 (v_len (v_str s) + Z.of_nat (length xs)))) by (by rewrite Hlen).
  rewrite (v_write_run _ _ _ b) by (done || lia). eexists (Ok tt), _. split; [reflexivity|]. by split.
Qed.

Lemma add_strn_run s str : vstr_ok s -> Z.of_nat (length str) < 2 ^ 30 -> exists r s',
  vstr_add_strn str s = Some (r, s') /\ vgrows s s' r (map Some str).
Proof.
  intros Hok Hl. unfold vstr_add_strn, vgrows. pose proof (vstr_append_run s (map Some str) Hok) as Ha. rewrite !length_map in *.
  destruct (Ha Hl) as (r & s1 & E & Hg & Hlen & Hr). pose proof (vo_len _ Hok). pose proof (vo_alloc _ Hok). destruct r as [[]|e].
  2: { rewrite (X_bind_Raise _ _ _ _ _ E). exists (Raise e), s1. done. }
  destruct Hr as (b & Hb & Hbl & Hg2 & Hc2). rewrite (X_bind_Ok _ _ _ _ _ E), (X_bind_Ok vget _ s1 (v_str s1) s1), Hlen by reflexivity.
  rewrite (X_bind_Ok _ _ _ _ _ (v_write_run s1 (v_len (v_str s)) (map Some str) b Hb ltac:(lia) ltac:(rewrite length_map; lia))).
  rewrite wrap_id by lia. eexists (Ok tt), _. split; [reflexivity|]. done.
Qed.

(** Bytes put at a place below the end. *)
Lemma insert_splice p l x b : 0 <= p <= l -> l + 1 <= Z.of_nat (length b) ->
  take (Z.to_nat (l + 1)) (vsplice p [x] (vsplice (p + 1) (take (Z.to_nat (l - p)) (drop (Z.to_nat p) b)) b))
  = take (Z.to_nat p) (take (Z.to_nat l) b) ++ [x] ++ drop (Z.to_nat p) (take (Z.to_nat l) b).
Proof.
  intros Hp Hl. set (ys := take (Z.to_nat (l - p)) (drop (Z.to_nat p) b)).
  assert (Hy : length ys = Z.to_nat (l - p)) by (unfold ys; rewrite length_take, length_drop; lia).
  assert (E : vsplice p [x] (vsplice (p + 1) ys b) = take (Z.to_nat p) b ++ ([x] ++ ys) ++ drop (Z.to_nat p + 1 + length ys) b).
  { unfold vsplice. rewrite take_app_le by (rewrite length_take; lia). rewrite take_take, Nat.min_l by lia. f_equal.
    rewrite <- app_assoc. f_equal. rewrite drop_app_length' by (rewrite length_take; simpl; lia). do 2 f_equal. lia. }
  rewrite E, app_assoc, take_app_length' by (rewrite !length_app, length_take; simpl; lia).
  rewrite take_take, Nat.min_l by lia. do 2 f_equal. unfold ys. rewrite skipn_firstn_comm. f_equal. lia.
Qed.

Lemma ins_run s pos x : vstr_ok s -> 0 <= pos -> exists r s',
  (p ← vstr_ins_blank_bytes pos 1; v_write p [x]) s = Some (r, s') /\ good s s'
  /\ match r with
     | Ok _ => vstr_bytes s' = take (Z.to_nat pos) (vstr_bytes s) ++ [x] ++ drop (Z.to_nat pos) (vstr_bytes s)
     | Raise e => vstr_bytes s' = vstr_bytes s /\ no_room s (v_len (v_str s) + 1) e
     end.
Proof.
  intros Hok Hpos. unfold vstr_ins_blank_bytes. rewrite X_bind_assoc, (X_bind_Ok vget _ s (v_str s) s) by reflexivity. cbv zeta.
  set (l := v_len (v_str s)). pose proof (vo_len _ Hok) as Hl. fold l in Hl. pose proof (vo_alloc _ Hok). pose proof (length_vstr_bytes s Hok) as Hlc. fold l in Hlc.
  assert (Hcap : exists p, (if l <? pos then l else pos) = p /\ 0 <= p <= l /\ take (Z.to_nat p) (vstr_bytes s) = take (Z.to_nat pos) (vstr_bytes s)
    /\ drop (Z.to_nat p) (vstr_bytes s) = drop (Z.to_nat pos) (vstr_bytes s)).
  { destruct (Z.ltb_spec l pos); [exists l|by exists pos]. split; [done|]. split; [lia|]. split; [rewrite !take_ge by lia; done|rewrite !drop_ge by lia; done]. }
  destruct Hcap as (p & -> & Hp & <- & <-). change (0 <? 1) with true. cbv iota. rewrite !X_bind_assoc.
  destruct (ensure_extra_run s 1 Hok ltac:(lia)) as (r & s1 & E & Hg & Hc & Hlen & Hr). fold l in Hlen, Hr. destruct r as [[]|e].
  2: { rewrite (X_bind_Raise _ _ _ _ _ E). exists (Raise e), s1. split; [done|]. split; [done|]. done. }
  pose proof Hg as [Hok1 _]. destruct (vo_buf _ Hok1) as (b & Hb & Hbl). rewrite (X_bind_Ok _ _ _ _ _ E), X_bind_assoc.
  rewrite (X_bind_Ok _ _ _ _ _ (v_move_run s1 (p + 1) p (l - p) b Hb ltac:(lia) ltac:(lia) ltac:(lia) ltac:(lia) ltac:(lia))).
  set (b1 := vsplice (p + 1) _ b).
  assert (Hb1 : length b1 = length b) by (apply length_vsplice; [lia|rewrite length_take, length_drop; lia]).
  rewrite (X_bind_Ok _ _ _ tt (upd_len (upd_buf s1 b1) (l + 1))) by (rewrite wrap_id by lia; reflexivity).
  rewrite (X_bind_Ok (mret p) _ _ p (upd_len (upd_buf s1 b1) (l + 1))) by reflexivity.
  rewrite (v_write_run _ p [x] b1) by (done || (simpl; lia)). eexists (Ok tt), _. split; [reflexivity|].
  destruct (final_good s1 b (vsplice p [x] b1) (l + 1) Hok1 Hb) as [Hg2 Hc2]; [rewrite length_vsplice by (simpl; lia); done|lia|].
  split; [exact (good_trans _ _ _ Hg Hg2)|]. etransitivity; [exact Hc2|]. unfold b1. rewrite insert_splice by lia.
  rewrite <- Hc, (vstr_bytes_take s1 b Hb), Hlen. done.
Qed.

Lemma cut_out_run s pos n : vstr_ok s -> 0 <= pos -> 0 <= n -> pos + n < 2 ^ 32 -> exists s',
  vstr_cut_out_bytes pos n s = Some (Ok tt, s') /\ good s s'
  /\ vstr_bytes s' = take (Z.to_nat pos) (vstr_bytes s) ++ drop (Z.to_nat (pos + n)) (vstr_bytes s).
Proof.
  intros Hok Hp Hn Hb. unfold vstr_cut_out_bytes. rewrite (X_bind_Ok vget _ s (v_str s) s) by reflexivity.
  pose proof (length_vstr_bytes s Hok) as Hl. pose proof (vo_len _ Hok). pose proof (vo_alloc _ Hok). destruct (vo_buf _ Hok) as (b & Hbuf & Hbl).
  destruct (Z.leb_spec (v_len (v_str s)) pos).
  { exists s. split; [done|]. split; [by apply good_refl|]. rewrite take_ge, drop_ge, app_nil_r by lia. done. }
  rewrite wrap_id by lia. destruct (Z.leb_spec (v_len (v_str s)) (pos + n)).
  { exists (upd_len s pos). split; [done|]. split; [by apply upd_len_good; [|lia]|]. rewrite (drop_ge (vstr_bytes s)), app_nil_r by lia.
    rewrite (vstr_bytes_take (upd_len s pos) b Hbuf), (vstr_bytes_take s b Hbuf). simpl. rewrite take_take. f_equal. lia. }
  rewrite !wrap_id by lia. set (k := v_len (v_str s) - pos - n).
  rewrite (X_bind_Ok _ _ _ _ _ (v_move_run s pos (pos + n) k b Hbuf ltac:(lia) ltac:(lia) ltac:(lia) ltac:(lia) ltac:(lia))).
  set (xs := take (Z.to_nat k) (drop (Z.to_nat (pos + n)) b)).
  assert (Hx : length xs = Z.to_nat k) by (unfold xs; rewrite length_take, length_drop; lia).
  destruct (final_good s b (vsplice pos xs b) (v_len (v_str s) - n) Hok Hbuf) as [Hg Hc]; [apply length_vsplice; lia|lia|].
  eexists. split; [reflexivity|]. split; [exact Hg|]. etransitivity; [exact Hc|].
  replace (v_len (v_str s) - n) with (pos + Z.of_nat (length xs)) by lia. rewrite take_vsplice by lia. rewrite (vstr_bytes_take s b Hbuf).
  rewrite take_take, Nat.min_l by lia. f_equal. unfold xs. rewrite skipn_firstn_comm. f_equal. lia.
Qed.

Lemma null_terminated_run s : vstr_ok s -> exists r s', vstr_null_terminated_str s = Some (r, s') /\ good s s' /\ vstr_bytes s' = vstr_bytes s
  /\ match r with
     | Ok _ => exists b, v_buf (v_str s') = Some b /\ b !! length (vstr_bytes s') = Some (Some 0)
     | Raise e => no_room s (v_len (v_str s) + 1) e
     end.
Proof.
  intros Hok. unfold vstr_null_terminated_str. rewrite (X_bind_Ok vget _ s (v_str s) s) by reflexivity.
  pose proof (vo_len _ Hok) as Hl. pose proof (vo_alloc _ Hok) as Ha. destruct (vo_buf _ Hok) as (b & Hb & Hbl).
  assert (Hlast : forall s1, good s s1 -> vstr_bytes s1 = vstr_bytes s -> v_len (v_str s1) = v_len (v_str s) -> v_len (v_str s) < v_alloc (v_str s1) ->
    exists s', (v ← vget; v_write (v_len v) [Some 0]) s1 = Some (Ok tt, s') /\ good s s' /\ vstr_bytes s' = vstr_bytes s
      /\ exists b, v_buf (v_str s') = Some b /\ b !! length (vstr_bytes s') = Some (Some 0)).
  { intros s1 Hg Hc Hlen Hlt. pose proof Hg as [Hok1 _]. destruct (vo_buf _ Hok1) as (b1 & Hb1 & Hbl1).
    rewrite (X_bind_Ok vget _ s1 (v_str s1) s1) by reflexivity. rewrite (v_write_run s1 _ [Some 0] b1 Hb1) by (simpl; lia).
    set (b2 := vsplice _ _ b1). assert (Hb2 : length b2 = length b1) by (apply length_vsplice; simpl; lia).
    destruct (final_good s1 b1 b2 (v_len (v_str s1)) Hok1 Hb1 Hb2 ltac:(lia)) as [Hg2 Hc2].
    exists (upd_buf s1 b2). assert (Hc3 : vstr_bytes (upd_buf s1 b2) = vstr_bytes s1).
    { etransitivity; [exact Hc2|]. rewrite (vstr_bytes_take s1 b1 Hb1). unfold b2, vsplice.
      rewrite take_app_length' by (rewrite length_take; lia). done. }
    split; [done|]. split; [exact (good_trans _ _ _ Hg Hg2)|]. split; [congruence|]. exists b2. split; [done|].
    rewrite Hc3. pose proof (length_vstr_bytes s1 Hok1) as Hlc. unfold b2, vsplice. rewrite lookup_app_r by (rewrite length_take; lia).
    rewrite length_take. by replace (length (vstr_bytes s1) - _)%nat with 0%nat by lia. }
  destruct (Z.eqb_spec (v_alloc (v_str s)) (v_len (v_str s))) as [E|Hne].
  2: { erewrite X_bind_Ok by reflexivity. destruct (Hlast s (good_refl s Hok) eq_refl eq_refl ltac:(lia)) as (s' & Hr & Hg & Hc & Hz).
       exists (Ok tt), s'. done. }
  unfold vstr_extend. rewrite !X_bind_assoc. rewrite (X_bind_Ok vget _ s (v_str s) s) by reflexivity. unfold no_room.
  destruct (v_fixed (v_str s)) eqn:Hf.
  { exists (Raise RuntimeError), s. split; [done|]. split; [by apply good_refl|]. split; [done|]. split; [lia|done]. }
  rewrite X_bind_assoc, Hb, wrap_id by lia.
  destruct (v_renew_grow s b (v_alloc (v_str s) + 1) ltac:(lia) ltac:(lia)) as (a & Han & [[Er Hh]|[Hh Er]]).
  - rewrite (X_bind_Raise _ _ _ _ _ Er). exists (Raise MemoryError), (MkV (v_str s) (v_heap s) a). split; [done|].
    split; [by apply set_answers_good|]. split; [done|]. split; [lia|]. split; [done|]. intros H. specialize (Hh H). lia.
  - rewrite (X_bind_Ok _ _ _ _ _ Er). set (b' := b ++ _). pose proof (vo_heap _ Hok).
    assert (Hl' : Z.of_nat (length b') = v_alloc (v_str s) + 1) by (unfold b'; rewrite length_app, length_replicate; lia).
    destruct (set_buf_ok s b' (v_alloc (v_str s) + 1) a Hok Hl' ltac:(lia) Han) as [Hg Hc].
    { unfold b', vstr_bytes, bytes_of_vstr. rewrite Hb, take_app_le by lia. done. }
    destruct (Hlast _ Hg Hc eq_refl ltac:(simpl; lia)) as (s' & Hr & Hg' & Hc' & Hz). exists (Ok tt), s'. split; [|done].
    rewrite <- Hr. unfold with_buf. by rewrite <- Hf.
Qed.

(** ** The property *)

Inductive vop := HintSize (n : Z) | AddLen (n : Z) | AddByte (b : Z) | AddChar (c : Z) | AddStrn (str : list Z) | AddStr (str : list Z)
  | InsByte (pos b : Z) | InsChar (pos c : Z) | CutHead (n : Z) | CutTail (n : Z) | CutOut (pos n : Z) | NullTerminate | Reset.

Definition run_vop (op : vop) : V unit :=
  match op with
  | HintSize n => vstr_hint_size n | AddLen n => vstr_add_len n;; mret tt | AddByte b => vstr_add_byte b | AddChar c => vstr_add_char c
  | AddStrn str => vstr_add_strn str | AddStr str => vstr_add_str str | InsByte pos b => vstr_ins_byte pos b | InsChar pos c => vstr_ins_char pos c
  | CutHead n => vstr_cut_head_bytes n | CutTail n => vstr_cut_tail_bytes n | CutOut pos n => vstr_cut_out_bytes pos n
  | NullTerminate => vstr_null_terminated_str | Reset => vstr_reset
  end.

(** The arguments for which sizes and places do not overflow. *)
Definition vop_ok (op : vop) : Prop :=
  match op with
  | HintSize n | AddLen n => 0 <= n < 2 ^ 30 | AddStrn str | AddStr str => Z.of_nat (length str) < 2 ^ 30
  | InsByte pos _ | InsChar pos _ => 0 <= pos | CutHead n => 0 <= n < 2 ^ 32 | CutTail n => 0 <= n
  | CutOut pos n => 0 <= pos /\ 0 <= n /\ pos + n < 2 ^ 32 | _ => True
  end.

(** What becomes of the bytes, and of the buffer where the operation is about it: a hint
    makes room behind the bytes, and a terminated string has a zero there. *)
Definition vop_spec (op : vop) (l l' : vcells) (v' : vstr_t) : Prop :=
  match op with
  | HintSize n => l' = l /\ Z.of_nat (length l) + n <= v_alloc v'
  | NullTerminate => l' = l /\ exists b, v_buf v' = Some b /\ b !! length l = Some (Some 0)
  | AddLen n => exists xs, length xs = Z.to_nat n /\ l' = l ++ xs
  | AddByte b => l' = l ++ [Some b]
  | AddChar c => l' = l ++ map Some (utf8_encode c)
  | AddStrn str => l' = l ++ map Some str
  | AddStr str => l' = l ++ map Some (c_string str)
  | InsByte pos b => l' = take (Z.to_nat pos) l ++ [Some b] ++ drop (Z.to_nat pos) l
  | InsChar pos c => l' = take (Z.to_nat pos) l ++ [Some (wrap 8 c)] ++ drop (Z.to_nat pos) l
  | CutHead n => l' = drop (Z.to_nat n) l
  | CutTail n => l' = take (length l - Z.to_nat n) l
  | CutOut pos n => l' = take (Z.to_nat pos) l ++ drop (Z.to_nat (pos + n)) l
  | Reset => l' = []
  end.

(** The bytes needed at the end. *)
Definition vop_needs (op : vop) : Z :=
  match op with
  | HintSize n | AddLen n => n | AddByte _ | InsByte _ _ | InsChar _ _ | NullTerminate => 1 | AddChar c => Z.of_nat (length (utf8_encode c))
  | AddStrn str => Z.of_nat (length str) | AddStr str => Z.of_nat (length (c_string str)) | _ => 0
  end.

Lemma length_encode c : Z.of_nat (length (utf8_encode c)) = if c <? 0x80 then 1 else if c <? 0x800 then 2 else if c <? 0x10000 then 3 else 4.
Proof. unfold utf8_encode. by destruct (c <? 0x80), (c <? 0x800), (c <? 0x10000). Qed.

Lemma grows_fits s s' r xs n : vstr_ok s -> vgrows s s' r xs -> n = Z.of_nat (length xs) -> good s s'
  /\ match r with Ok _ => vstr_bytes s' = vstr_bytes s ++ xs | Raise e => vstr_bytes s' = vstr_bytes s /\ no_room s (v_len (v_str s) + n) e end.
Proof. by intros Hok [Hg Hr] ->. Qed.

Lemma tail_run s n : vstr_ok s -> 0 <= n -> exists s', vstr_cut_tail_bytes n s = Some (Ok tt, s') /\ good s s'
  /\ vstr_bytes s' = take (length (vstr_bytes s) - Z.to_nat n) (vstr_bytes s).
Proof.
  intros Hok Hn. pose proof (length_vstr_bytes s Hok). pose proof (vo_len _ Hok). destruct (vo_buf _ Hok) as (b & Hb & _).
  unfold vstr_cut_tail_bytes. rewrite (X_bind_Ok vget _ s (v_str s) s) by reflexivity.
  exists (upd_len s (if v_len (v_str s) <? n then 0 else v_len (v_str s) - n)). split; [by destruct (_ <? _)|].
  split; [apply upd_len_good; [done|destruct (Z.ltb_spec (v_len (v_str s)) n); lia]|].
  rewrite (vstr_bytes_take (upd_len _ _) b Hb), (vstr_bytes_take s b Hb) at 1. rewrite (vstr_bytes_take s b Hb) in *. rewrite take_take. f_equal. cbn [upd_len v_str v_len].
  destruct (Z.ltb_spec (v_len (v_str s)) n); lia.
Qed.


(** ** Examples *)

Definition demo_vstr (fixed : bool) : vstate := MkV (MkVstr 4 3 (Some [Some 97; Some 98; Some 99; None]) fixed) 1000 [].

Lemma demo_vstr_ok fixed : vstr_ok (demo_vstr fixed).
Proof. constructor; simpl; try lia. eexists. split; [reflexivity|done]. Qed.


(** A string of length [2 ^ 32 - 1] gets a buffer of one byte; [str.center(-1)] asks for one. *)
Lemma init_len_wraps : (r ← vstr_init_len (2 ^ 32 - 1) (demo_vstr false); Some (v_alloc (v_str r.2), v_len (v_str r.2))) = Some (1, 2 ^ 32 - 1).
Proof. vm_compute. reflexivity. Qed.

(** [vstr_ins_char] stores the low byte of a character. *)
Lemma ins_char_truncates : (r ← vstr_ins_char 1 0x20AC (demo_vstr false); Some (vstr_bytes r.2)) = Some (map Some [97; 0xAC; 98; 99]).
Proof. vm_compute. reflexivity. Qed.
