(* ===== verification/Binascii.v ===== *)
(** Binary data as text, [extmod/modubinascii.c], and the checksum of [extmod/uzlib/crc32.c].

    The output goes to a buffer of the size the code allocates; a write after its end
    is undefined.  [mem_ok] tells for which sizes an allocation succeeds. *)
From Stdlib Require Import ZifyBool.
From S2P Require Import Prelude PyExn Unicode.

Section Binascii.
Context (mem_ok : Z -> bool).

(** [vstr_init] and [vstr_init_len]: the size of the buffer, at least 1. *)
Definition out_alloc (n : Z) : res Z := let n := if n <? 1 then 1 else n in if mem_ok n then Ok n else Raise MemoryError.

(** [*out++ = b] in a buffer of [alloc] bytes, the last byte first. *)
Definition emit (alloc : Z) (b : Z) (out : list Z) : option (list Z) :=
  if Z.of_nat (length out) <? alloc then Some (wrap 8 b :: out) else None.

(** ** Hexadecimal *)

Definition hex_digit (d : Z) : Z := wrap 8 ((if 9 <? d then d + (97 - 57 - 1) else d) + 48).

(** [i] is the number of bytes left after this one. *)
Fixpoint hexlify_loop (alloc : Z) (sep : option Z) (in_ : list Z) (out : list Z) : option (list Z) :=
  match in_ with
  | [] => Some out
  | b :: in_ =>
      out ← emit alloc (hex_digit (Z.shiftr b 4)) out;
      out ← emit alloc (hex_digit (Z.land b 0xf)) out;
      out ← match sep, in_ with Some c, _ :: _ => emit alloc c out | _, _ => Some out end;
      hexlify_loop alloc sep in_ out
  end.

(** Of the separator, a string with a zero after it, the first character counts. *)
Definition mod_binascii_hexlify (data : list Z) (sep : option (list Z)) : option (res (list Z)) :=
  let len := Z.of_nat (length data) in
  if len =? 0 then Some (Ok [])
  else
    let out_len := wrap 32 (len * 2) in
    let out_len := match sep with Some _ => wrap 32 (out_len + (len - 1)) | None => out_len end in
    match out_alloc (wrap 32 (out_len + 1)) with
    | Raise e => Some (Raise e)
    | Ok alloc => out ← hexlify_loop alloc ((fun s => hd 0 s) <$> sep) data []; Some (Ok (rev out))
    end.

Fixpoint unhexlify_loop (alloc : Z) (in_ : list Z) (hex_byte : Z) (out : list Z) : option (res (list Z)) :=
  match in_ with
  | [] => Some (Ok out)
  | hex_ch :: in_ =>
      if unichar_isxdigit hex_ch then
        let hex_byte := wrap 8 (hex_byte + unichar_xdigit_value hex_ch) in
        if Nat.odd (length in_) then unhexlify_loop alloc in_ (wrap 8 (Z.shiftl hex_byte 4)) out
        else out ← emit alloc hex_byte out; unhexlify_loop alloc in_ 0 out
      else Some (Raise ValueError)
  end.

Definition mod_binascii_unhexlify (data : list Z) : option (res (list Z)) :=
  let len := Z.of_nat (length data) in
  if negb (Z.land len 1 =? 0) then Some (Raise ValueError)
  else
    match out_alloc (wrap 32 (len / 2 + 1)) with
    | Raise e => Some (Raise e)
    | Ok alloc =>
        r ← unhexlify_loop alloc data 0 [];
        Some (match r with Ok out => Ok (rev out) | Raise e => Raise e end)
    end.

(** ** Base64 *)

Definition mod_binascii_sextet (ch : Z) : Z :=
  if (65 <=? ch) && (ch <=? 90) then ch - 65
  else if (97 <=? ch) && (ch <=? 122) then ch - 97 + 26
  else if (48 <=? ch) && (ch <=? 57) then ch - 48 + 52
  else if ch =? 43 then 62
  else if ch =? 47 then 63
  else -1.

(** [None] in the result for more bits than whole bytes. *)
Fixpoint a2b_loop (alloc : Z) (in_ : list Z) (shift nbits : Z) (hadpad : bool) (out : list Z) : option (list Z * Z) :=
  match in_ with
  | [] => Some (out, nbits)
  | ch :: in_ =>
      if (ch =? 61) && ((nbits =? 2) || (nbits =? 4) && hadpad) then Some (out, 0)
      else
        let hadpad := if ch =? 61 then true else hadpad in
        let sextet := mod_binascii_sextet ch in
        if sextet =? -1 then a2b_loop alloc in_ shift nbits hadpad out
        else
          let shift := Z.lor (wrap 32 (Z.shiftl shift 6)) sextet in
          let nbits := nbits + 6 in
          if 8 <=? nbits then
            out ← emit alloc (Z.land (Z.shiftr shift (nbits - 8)) 0xFF) out;
            a2b_loop alloc in_ shift (nbits - 8) false out
          else a2b_loop alloc in_ shift nbits false out
  end.

Definition mod_binascii_a2b_base64 (data : list Z) : option (res (list Z)) :=
  match out_alloc (wrap 32 (Z.of_nat (length data) / 4 * 3 + 1)) with
  | Raise e => Some (Raise e)
  | Ok alloc =>
      '(out, nbits) ← a2b_loop alloc data 0 0 false [];
      Some (if nbits =? 0 then Ok (rev out) else Raise ValueError)
  end.

Definition sextet_0 (a : Z) : Z := Z.shiftr (Z.land a 0xFC) 2.
Definition sextet_1 (a b : Z) : Z := Z.lor (Z.shiftl (Z.land a 0x03) 4) (Z.shiftr (Z.land b 0xF0) 4).
Definition sextet_2 (b c : Z) : Z := Z.lor (Z.shiftl (Z.land b 0x0F) 2) (Z.shiftr (Z.land c 0xC0) 6).

(** The first pass; 64 is the padding. *)
Fixpoint b2a_sextets (in_ : list Z) : list Z :=
  match in_ with
  | a :: b :: c :: in_ => sextet_0 a :: sextet_1 a b :: sextet_2 b c :: Z.land c 0x3F :: b2a_sextets in_
  | [a; b] => [sextet_0 a; sextet_1 a b; Z.shiftl (Z.land b 0x0F) 2; 64]
  | [a] => [sextet_0 a; Z.shiftl (Z.land a 0x03) 4; 64; 64]
  | [] => []
  end.

(** The second pass. *)
Definition b2a_char (x : Z) : Z :=
  wrap 8 (if x <? 26 then x + 65 else if x <? 52 then x + (97 - 26) else if x <? 62 then x + (48 - 52)
  else if x =? 62 then 43 else if x =? 63 then 47 else 61).

(** The buffer has as many bytes as there are sextets, one for the line end, and one more. *)
Definition mod_binascii_b2a_base64 (data : list Z) : option (res (list Z)) :=
  let len := Z.of_nat (length data) in
  let out_len := wrap 32 ((if len =? 0 then 0 else wrap 32 (((len - 1) / 3 + 1) * 4)) + 1) in
  match out_alloc (wrap 32 (out_len + 1)) with
  | Raise e => Some (Raise e)
  | Ok alloc =>
      let sextets := b2a_sextets data in
      if (Z.of_nat (length sextets) <=? alloc) && (Z.of_nat (length sextets) =? out_len - 1) then
        Some (Ok (map b2a_char sextets ++ [10]))
      else None
  end.

End Binascii.

(** ** Checksum *)

Definition tinf_crc32tab : list Z := [
  0x00000000; 0x1db71064; 0x3b6e20c8; 0x26d930ac; 0x76dc4190; 0x6b6b51f4; 0x4db26158; 0x5005713c;
  0xedb88320; 0xf00f9344; 0xd6d6a3e8; 0xcb61b38c; 0x9b64c2b0; 0x86d3d2d4; 0xa00ae278; 0xbdbdf21c ].

Definition crc_nibble (crc : Z) : Z := Z.lxor (nth (Z.to_nat (Z.land crc 0x0f)) tinf_crc32tab 0) (Z.shiftr crc 4).

Definition uzlib_crc32 (data : list Z) (crc : Z) : Z :=
  foldl (fun crc b => crc_nibble (crc_nibble (Z.lxor crc b))) crc data.

Definition mod_binascii_crc32 (data : list Z) (crc : Z) : Z :=
  Z.lxor (uzlib_crc32 data (Z.lxor (wrap 32 crc) 0xffffffff)) 0xffffffff.

(** Hexadecimal, base 64 and the checksum: round trips, errors and references. *)

(** Linear arithmetic with quotients and remainders. *)
Ltac divlia := Z.to_euclidean_division_equations; lia.

(** ** Hexadecimal *)

Lemma hex_digit_spec d : 0 <= d < 16 -> unichar_isxdigit (hex_digit d) = true /\ unichar_xdigit_value (hex_digit d) = d.
Proof.
  intros Hd.
  pose proof (byte_cases (fun d => negb (d <? 16) || unichar_isxdigit (hex_digit d) && (unichar_xdigit_value (hex_digit d) =? d))
    ltac:(vm_compute; reflexivity) d ltac:(lia)) as H. cbv beta in H. replace (d <? 16) with true in H by lia. simpl negb in H. cbn [orb] in H.
  apply andb_prop in H as [H1 H2]. split; [done|by apply Z.eqb_eq].
Qed.

Lemma hex_digit_byte d : 0 <= d < 16 -> wrap 8 (hex_digit d) = hex_digit d.
Proof. intros _. unfold hex_digit, wrap. apply Z.mod_mod. lia. Qed.

Lemma nibbles b : is_byte b -> Z.shiftr b 4 = b / 16 /\ Z.land b 0xf = b mod 16 /\ 0 <= b / 16 < 16 /\ 0 <= b mod 16 < 16.
Proof.
  unfold is_byte. intros Hb. rewrite Z.shiftr_div_pow2 by lia. change 0xf with (Z.ones 4). rewrite Z.land_ones by lia.
  change (2 ^ 4) with 16. pose proof (Z.mod_pos_bound b 16 ltac:(lia)). pose proof (Z.div_mod b 16 ltac:(lia)). lia.
Qed.

Lemma xdigit_range c : unichar_isxdigit c = true -> 0 <= c -> 0 <= unichar_xdigit_value c < 16.
Proof.
  intros Hx Hc. assert (Hl : c < 128) by (unfold unichar_isxdigit, has_attr in Hx; lia).
  pose proof (byte_cases (fun c => negb (unichar_isxdigit c) || (0 <=? unichar_xdigit_value c) && (unichar_xdigit_value c <? 16))
    ltac:(vm_compute; reflexivity) c ltac:(lia)) as H. cbv beta in H. rewrite Hx in H. simpl negb in H. cbn [orb] in H. lia.
Qed.

(** The text of some bytes. *)
Definition hex_pair (b : Z) : list Z := [hex_digit (b / 16); hex_digit (b mod 16)].
Fixpoint hex_text (sep : list Z) (data : list Z) : list Z :=
  match data with [] => [] | [b] => hex_pair b | b :: data => hex_pair b ++ sep ++ hex_text sep data end.

Definition sep_char (sep : option Z) : list Z := match sep with Some c => [wrap 8 c] | None => [] end.

Lemma emit_spec alloc b out : Z.of_nat (length out) < alloc -> emit alloc b out = Some (wrap 8 b :: out).
Proof. intros H. unfold emit. by replace (Z.of_nat (length out) <? alloc) with true by lia. Qed.

Lemma hexlify_loop_spec sep data : Forall is_byte data -> forall alloc out,
  Z.of_nat (length out + length (hex_text (sep_char sep) data)) <= alloc ->
  hexlify_loop alloc sep data out = Some (rev (hex_text (sep_char sep) data) ++ out).
Proof.
  induction 1 as [|b data Hb _ IH]; intros alloc out Ha; [done|]. destruct (nibbles b Hb) as (E1 & E2 & H1 & H2).
  cbn [hexlify_loop]. rewrite E1, E2. destruct data as [|b' data].
  - cbn [hex_text length hex_pair] in *. rewrite emit_spec by lia. simpl. rewrite emit_spec by (simpl; lia). simpl.
    rewrite !hex_digit_byte by done. by destruct sep.
  - assert (E : hex_text (sep_char sep) (b :: b' :: data) = hex_pair b ++ sep_char sep ++ hex_text (sep_char sep) (b' :: data)) by done.
    rewrite E in *. rewrite !length_app in Ha. cbn [hex_pair length] in Ha.
    rewrite emit_spec by lia. cbn [mbind option_bind]. rewrite emit_spec by (cbn [length]; lia). cbn [mbind option_bind].
    rewrite !hex_digit_byte by done. destruct sep as [c|]; cbn [sep_char length] in *.
    + rewrite emit_spec by (cbn [length]; lia). cbn [mbind option_bind]. rewrite IH by (cbn [length]; lia). rewrite !rev_app_distr, <- !app_assoc. done.
    + cbn [mbind option_bind]. rewrite IH by (cbn [length]; lia). rewrite !rev_app_distr, <- !app_assoc. done.
Qed.

Lemma length_hex_text sep data : (0 < length data)%nat ->
  Z.of_nat (length (hex_text sep data)) = 2 * Z.of_nat (length data) + (Z.of_nat (length data) - 1) * Z.of_nat (length sep).
Proof.
  induction data as [|b data IH]; [simpl; lia|]. intros _. destruct data as [|b' data]; [simpl; lia|].
  assert (E : hex_text sep (b :: b' :: data) = hex_pair b ++ sep ++ hex_text sep (b' :: data)) by done. rewrite E, !length_app, !Nat2Z.inj_add, IH by (simpl; lia).
  cbn [hex_pair length]. lia.
Qed.

(** Pairs of digits. *)
Fixpoint pair_values (s : list Z) : list Z :=
  match s with a :: b :: s => unichar_xdigit_value a * 16 + unichar_xdigit_value b :: pair_values s | _ => [] end.

Definition all_xdigits (s : list Z) : bool := forallb unichar_isxdigit s.

Lemma unhexlify_loop_spec n : forall s alloc out, length s = (2 * n)%nat -> Forall is_byte s -> Z.of_nat (length out + n) <= alloc ->
  unhexlify_loop alloc s 0 out = Some (if all_xdigits s then Ok (rev (pair_values s) ++ out) else Raise ValueError).
Proof.
  induction n as [|n IH]; intros s alloc out Hl Hs Ha; [by destruct s|].
  destruct s as [|a [|b s]]; cbn [length] in Hl; [lia|lia|]. apply list.Forall_cons in Hs as [Ha' Hs]. apply list.Forall_cons in Hs as [Hb' Hs].
  unfold is_byte in *. assert (Hls : length s = (2 * n)%nat) by lia. cbn [unhexlify_loop all_xdigits forallb pair_values length].
  destruct (unichar_isxdigit a) eqn:Ea; [|done]. rewrite Nat.odd_succ. replace (Nat.even (length s)) with true.
  2: { symmetry. apply Nat.even_spec. by exists n. }
  destruct (unichar_isxdigit b) eqn:Eb; [|done]. replace (Nat.odd (length s)) with false.
  2: { symmetry. apply negb_true_iff. rewrite Nat.negb_odd. apply Nat.even_spec. by exists n. }
  pose proof (xdigit_range a Ea ltac:(lia)) as H1. pose proof (xdigit_range b Eb ltac:(lia)) as H2.
  rewrite emit_spec by lia. cbn [mbind option_bind]. rewrite (IH s) by (done || (cbn [length]; lia)). cbn [andb]. fold (all_xdigits s).
  destruct (all_xdigits s); [|done]. do 2 f_equal. cbn [rev]. rewrite <- app_assoc. do 2 f_equal.
  rewrite Z.add_0_l, (wrap_id 8 (unichar_xdigit_value a)) by lia. rewrite Z.shiftl_mul_pow2 by lia. change (2 ^ 4) with 16.
  rewrite (wrap_id 8 (_ * 16)), (wrap_id 8 (_ + _)), wrap_id by lia. done.
Qed.

Lemma pair_values_text data : Forall is_byte data -> pair_values (hex_text [] data) = data /\ all_xdigits (hex_text [] data) = true
  /\ length (hex_text [] data) = (2 * length data)%nat /\ Forall is_byte (hex_text [] data).
Proof.
  induction 1 as [|b data Hb Hd (IH1 & IH2 & IH3 & IH4)]; [done|]. destruct (nibbles b Hb) as (_ & _ & H1 & H2).
  assert (E : hex_text [] (b :: data) = hex_digit (b / 16) :: hex_digit (b mod 16) :: hex_text [] data) by (by destruct data). rewrite E.
  destruct (hex_digit_spec _ H1) as [X1 V1], (hex_digit_spec _ H2) as [X2 V2]. cbn [pair_values all_xdigits forallb length].
  rewrite V1, V2, X1, X2, IH1, IH3. pose proof (Z.div_mod b 16 ltac:(lia)). split; [f_equal; lia|]. split; [exact IH2|]. split; [lia|].
  assert (Hhd : forall d, is_byte (hex_digit d)) by (intros d; unfold hex_digit, is_byte; apply (wrap_range 8); lia). constructor; [apply Hhd|]. constructor; [apply Hhd|done].
Qed.

(** ** Base 64 *)

Lemma lor_mul x y k : 0 <= x -> 0 <= k -> 0 <= y < 2 ^ k -> Z.lor (x * 2 ^ k) y = x * 2 ^ k + y.
Proof.
  intros Hx Hk Hy. rewrite <- Z.lxor_lor, Z.add_nocarry_lxor; [done|..]; apply Z.bits_inj'; intros n Hn; rewrite Z.land_spec, Z.bits_0;
    (destruct (Z.ltb_spec n k); [rewrite Z.mul_pow2_bits_low by lia; done|]);
    (replace (Z.testbit y n) with false; [apply andb_false_r|]); rewrite <- (Z.mod_small y (2 ^ k)) by lia; symmetry; apply Z.mod_pow2_bits_high; lia.
Qed.

Lemma byte_masks b : is_byte b -> Z.shiftr (Z.land b 0xFC) 2 = b / 4 /\ Z.land b 0x03 = b mod 4 /\ Z.shiftr (Z.land b 0xF0) 4 = b / 16
  /\ Z.land b 0x0F = b mod 16 /\ Z.shiftr (Z.land b 0xC0) 6 = b / 64 /\ Z.land b 0x3F = b mod 64.
Proof.
  intros Hb.
  pose proof (byte_cases (fun b => (Z.shiftr (Z.land b 0xFC) 2 =? b / 4) && (Z.land b 0x03 =? b mod 4) && (Z.shiftr (Z.land b 0xF0) 4 =? b / 16)
    && (Z.land b 0x0F =? b mod 16) && (Z.shiftr (Z.land b 0xC0) 6 =? b / 64) && (Z.land b 0x3F =? b mod 64)) ltac:(vm_compute; reflexivity) b Hb) as H.
  cbv beta in H. repeat (apply andb_prop in H as [H ?]). repeat match goal with E : (_ =? _) = true |- _ => apply Z.eqb_eq in E end. done.
Qed.

Lemma sextets_spec a b c : is_byte a -> is_byte b -> is_byte c ->
  sextet_0 a = a / 4 /\ sextet_1 a b = a mod 4 * 16 + b / 16 /\ sextet_2 b c = b mod 16 * 4 + c / 64 /\ Z.land c 0x3F = c mod 64.
Proof.
  unfold sextet_0, sextet_1, sextet_2. intros Ha Hb Hc. destruct (byte_masks a Ha) as (-> & -> & _), (byte_masks b Hb) as (_ & _ & -> & -> & _), (byte_masks c Hc) as (_ & _ & _ & _ & -> & ->).
  unfold is_byte in *. rewrite !Z.shiftl_mul_pow2 by lia. split; [done|]. rewrite (lor_mul _ _ 4), (lor_mul _ _ 2); [done|..]; divlia.
Qed.

Lemma char_sextet s : 0 <= s < 64 -> mod_binascii_sextet (b2a_char s) = s /\ (b2a_char s =? 61) = false.
Proof.
  intros Hs. pose proof (byte_cases (fun s => negb (s <? 64) || (mod_binascii_sextet (b2a_char s) =? s) && negb (b2a_char s =? 61))
    ltac:(vm_compute; reflexivity) s ltac:(lia)) as H. cbv beta in H. replace (s <? 64) with true in H by lia. simpl negb in H. cbn [orb] in H.
  apply andb_prop in H as [H1 H2]. apply Z.eqb_eq in H1. split; [done|]. by apply negb_true_iff in H2.
Qed.

(** The bits collected: those of the last sextets, below. *)
Definition shift_in (shift s : Z) : Z := Z.lor (wrap 32 (Z.shiftl shift 6)) s.

Lemma shift_in_spec shift s : 0 <= shift -> 0 <= s < 64 -> shift_in shift s = shift mod 2 ^ 26 * 64 + s.
Proof.
  intros H Hs. unfold shift_in. rewrite Z.shiftl_mul_pow2 by lia. change (2 ^ 6) with 64.
  replace (wrap 32 (shift * 64)) with (shift mod 2 ^ 26 * 2 ^ 6).
  - change 64 with (2 ^ 6). apply lor_mul; [apply Z.mod_pos_bound|..]; lia.
  - unfold wrap. change (2 ^ 32) with (2 ^ 26 * 64). change (2 ^ 6) with 64. rewrite Z.mul_mod_distr_r by lia. done.
Qed.

Lemma a2b_step alloc s in_ shift nbits hadpad out : 0 <= s < 64 ->
  a2b_loop alloc (b2a_char s :: in_) shift nbits hadpad out
  = if 8 <=? nbits + 6 then
      out ← emit alloc (Z.land (Z.shiftr (shift_in shift s) (nbits + 6 - 8)) 0xFF) out; a2b_loop alloc in_ (shift_in shift s) (nbits + 6 - 8) false out
    else a2b_loop alloc in_ (shift_in shift s) (nbits + 6) false out.
Proof.
  intros Hs. destruct (char_sextet s Hs) as [E1 E2]. cbn [a2b_loop]. rewrite E1, E2. simpl andb. cbv iota. cbv zeta.
  by replace (s =? -1) with false by lia.
Qed.

Lemma low_byte x k y : 0 <= k -> x / 2 ^ k mod 256 = y -> wrap 8 (Z.land (Z.shiftr x k) 0xFF) = y.
Proof.
  intros Hk <-. rewrite Z.shiftr_div_pow2 by lia. change 0xFF with (Z.ones 8). rewrite Z.land_ones by lia. change (2 ^ 8) with 256.
  apply wrap_id. pose proof (Z.mod_pos_bound (x / 2 ^ k) 256 ltac:(lia)). lia.
Qed.

(** Two, three and four characters. *)
Lemma a2b_two alloc s0 s1 in_ shift hadpad out : 0 <= shift -> 0 <= s0 < 64 -> 0 <= s1 < 64 -> Z.of_nat (length out) < alloc ->
  exists shift', shift' = shift_in (shift_in shift s0) s1 /\ 0 <= shift' /\
  a2b_loop alloc (b2a_char s0 :: b2a_char s1 :: in_) shift 0 hadpad out = a2b_loop alloc in_ shift' 4 false ((s0 * 4 + s1 / 16) :: out).
Proof.
  intros H H0 H1 Ha. eexists. split; [reflexivity|]. rewrite (shift_in_spec shift s0), shift_in_spec by divlia. split; [divlia|]. rewrite !a2b_step by done.
  change (8 <=? 0 + 6) with false. change (8 <=? 0 + 6 + 6) with true. cbv iota. change (0 + 6 + 6 - 8) with 4. rewrite emit_spec by done. cbn [mbind option_bind].
  rewrite (shift_in_spec shift s0), shift_in_spec by divlia. rewrite (low_byte _ 4 (s0 * 4 + s1 / 16)); [done|lia|].
  change (2 ^ 4) with 16. change (2 ^ 26) with 67108864. divlia.
Qed.

Lemma a2b_three alloc s0 s1 s2 in_ shift hadpad out : 0 <= shift -> 0 <= s0 < 64 -> 0 <= s1 < 64 -> 0 <= s2 < 64 -> Z.of_nat (length out) + 1 < alloc ->
  exists shift', shift' = shift_in (shift_in (shift_in shift s0) s1) s2 /\ 0 <= shift' /\
  a2b_loop alloc (b2a_char s0 :: b2a_char s1 :: b2a_char s2 :: in_) shift 0 hadpad out
  = a2b_loop alloc in_ shift' 2 false ((s1 mod 16 * 16 + s2 / 4) :: (s0 * 4 + s1 / 16) :: out).
Proof.
  intros H H0 H1 H2 Ha. destruct (a2b_two alloc s0 s1 (b2a_char s2 :: in_) shift hadpad out H H0 H1 ltac:(lia)) as (sh & Esh & Hsh & ->).
  eexists. split; [reflexivity|]. rewrite <- Esh. rewrite shift_in_spec by divlia. split; [divlia|]. rewrite a2b_step by done.
  change (8 <=? 4 + 6) with true. cbv iota. change (4 + 6 - 8) with 2. rewrite emit_spec by (cbn [length]; lia). cbn [mbind option_bind].
  rewrite shift_in_spec by divlia. rewrite (low_byte _ 2 (s1 mod 16 * 16 + s2 / 4)); [done|lia|].
  rewrite Esh. rewrite (shift_in_spec (shift_in _ _)); [|rewrite shift_in_spec by divlia; divlia|lia]. rewrite shift_in_spec by divlia. change (2 ^ 2) with 4. change (2 ^ 26) with 67108864. divlia.
Qed.

Lemma a2b_four alloc s0 s1 s2 s3 in_ shift hadpad out : 0 <= shift -> 0 <= s0 < 64 -> 0 <= s1 < 64 -> 0 <= s2 < 64 -> 0 <= s3 < 64 ->
  Z.of_nat (length out) + 2 < alloc -> exists shift', 0 <= shift' /\
  a2b_loop alloc (b2a_char s0 :: b2a_char s1 :: b2a_char s2 :: b2a_char s3 :: in_) shift 0 hadpad out
  = a2b_loop alloc in_ shift' 0 false ((s2 mod 4 * 64 + s3) :: (s1 mod 16 * 16 + s2 / 4) :: (s0 * 4 + s1 / 16) :: out).
Proof.
  intros H H0 H1 H2 H3 Ha. destruct (a2b_three alloc s0 s1 s2 (b2a_char s3 :: in_) shift hadpad out H H0 H1 H2 ltac:(lia)) as (sh & Esh & Hsh & ->).
  exists (shift_in sh s3). rewrite a2b_step by done. change (8 <=? 2 + 6) with true. cbv iota. change (2 + 6 - 8) with 0.
  rewrite emit_spec by (cbn [length]; lia). cbn [mbind option_bind]. rewrite shift_in_spec by divlia. split; [divlia|].
  rewrite (low_byte _ 0 (s2 mod 4 * 64 + s3)); [done|lia|].
  rewrite Esh. rewrite (shift_in_spec (shift_in (shift_in _ _) _)); [| |lia].
  - change (2 ^ 0) with 1. change (2 ^ 26) with 67108864. set (x := shift_in _ _). divlia.
  - rewrite (shift_in_spec (shift_in shift s0)); [divlia| |lia]. rewrite shift_in_spec by divlia. divlia.
Qed.

Lemma a2b_end alloc c in_ shift nbits hadpad out : mod_binascii_sextet c = -1 -> c <> 61 ->
  a2b_loop alloc (c :: in_) shift nbits hadpad out = a2b_loop alloc in_ shift nbits hadpad out.
Proof. intros Hc Hne. cbn [a2b_loop]. rewrite Hc. by replace (c =? 61) with false by lia. Qed.

Lemma a2b_encoded n : forall data alloc shift hadpad out, (length data <= n)%nat -> Forall is_byte data -> 0 <= shift ->
  Z.of_nat (length out + length data) < alloc ->
  a2b_loop alloc (map b2a_char (b2a_sextets data) ++ [10]) shift 0 hadpad out = Some (rev data ++ out, 0).
Proof.
  induction n as [|n IH]; intros data alloc shift hadpad out Hn Hb Hs Ha.
  { destruct data; [|simpl in Hn; lia]. done. }
  destruct data as [|a [|b [|c data]]]; cbn [length] in Ha, Hn.
  - done.
  - apply list.Forall_cons in Hb as [Hb _]. destruct (sextets_spec a 0 0 Hb ltac:(done) ltac:(done)) as (E0 & _).
    cbn [b2a_sextets map app]. rewrite E0. replace (Z.shiftl (Z.land a 0x03) 4) with (a mod 4 * 16).
    2: { destruct (byte_masks a Hb) as (_ & -> & _). by rewrite Z.shiftl_mul_pow2 by lia. }
    unfold is_byte in Hb. destruct (a2b_two alloc (a / 4) (a mod 4 * 16) [b2a_char 64; b2a_char 64; 10] shift hadpad out) as (sh & _ & _ & ->); [divlia..|].
    simpl. f_equal. f_equal. f_equal. divlia.
  - apply list.Forall_cons in Hb as [Ha' Hb]. apply list.Forall_cons in Hb as [Hb _].
    destruct (sextets_spec a b 0 Ha' Hb ltac:(done)) as (E0 & E1 & _).
    cbn [b2a_sextets map app]. rewrite E0, E1. replace (Z.shiftl (Z.land b 0x0F) 2) with (b mod 16 * 4).
    2: { destruct (byte_masks b Hb) as (_ & _ & _ & -> & _). by rewrite Z.shiftl_mul_pow2 by lia. }
    unfold is_byte in *. destruct (a2b_three alloc (a / 4) (a mod 4 * 16 + b / 16) (b mod 16 * 4) [b2a_char 64; 10] shift hadpad out) as (sh & _ & _ & ->); [divlia..|].
    simpl. f_equal. f_equal. f_equal; [divlia|]. f_equal. divlia.
  - apply list.Forall_cons in Hb as [Ha' Hb]. apply list.Forall_cons in Hb as [Hb' Hb]. apply list.Forall_cons in Hb as [Hc Hb].
    destruct (sextets_spec a b c Ha' Hb' Hc) as (E0 & E1 & E2 & E3). cbn [b2a_sextets map app]. rewrite E0, E1, E2, E3. unfold is_byte in Ha', Hb', Hc.
    destruct (a2b_four alloc (a / 4) (a mod 4 * 16 + b / 16) (b mod 16 * 4 + c / 64) (c mod 64) (map b2a_char (b2a_sextets data) ++ [10]) shift hadpad out)
      as (sh & Hsh & ->); [divlia..|]. rewrite IH by (done || (cbn [length]; lia)). do 2 f_equal. cbn [rev]. rewrite <- !app_assoc. simpl. do 2 f_equal; [divlia|].
    f_equal; [divlia|]. f_equal. divlia.
Qed.

Lemma length_sextets n : forall data, (length data <= n)%nat ->
  Z.of_nat (length (b2a_sextets data)) = if Z.of_nat (length data) =? 0 then 0 else ((Z.of_nat (length data) - 1) / 3 + 1) * 4.
Proof.
  induction n as [|n IH]; intros data Hn; [by destruct data; [|simpl in Hn; lia]|].
  destruct data as [|a [|b [|c data]]]; [done..|]. cbn [b2a_sextets length] in *. rewrite !Nat2Z.inj_succ, (IH data) by lia.
  destruct (Z.eqb_spec (Z.of_nat (length data)) 0) as [E|E].
  - rewrite E. done.
  - replace (Z.succ (Z.succ (Z.succ (Z.of_nat (length data)))) =? 0) with false by lia. divlia.
Qed.

(** Decoding writes inside its buffer when the bits of all characters fit. *)
Lemma a2b_safe in_ : forall alloc shift nbits hadpad out, 0 <= nbits < 8 ->
  8 * Z.of_nat (length out) + nbits + 6 * Z.of_nat (length in_) < 8 * (alloc + 1) ->
  is_Some (a2b_loop alloc in_ shift nbits hadpad out).
Proof.
  induction in_ as [|c in_ IH]; intros alloc shift nbits hadpad out Hn Ha; cbn [a2b_loop length] in *; [by eexists|].
  destruct ((c =? 61) && _); [by eexists|]. cbv zeta. destruct (_ =? -1); [apply IH; lia|]. destruct (Z.leb_spec 8 (nbits + 6)).
  - rewrite emit_spec by lia. cbn [mbind option_bind]. apply IH; cbn [length]; lia.
  - apply IH; lia.
Qed.

(** ** Checksum *)

(** One bit of the polynomial division. *)
Definition crc_bit (c : Z) : Z := if Z.odd c then Z.lxor (Z.shiftr c 1) 0xEDB88320 else Z.shiftr c 1.
Definition crc32_ref (data : list Z) (c : Z) : Z := foldl (fun c b => Nat.iter 8 crc_bit (Z.lxor c b)) c data.

Lemma crc_bit_xor a b : crc_bit (Z.lxor a b) = Z.lxor (crc_bit a) (crc_bit b).
Proof.
  unfold crc_bit. rewrite <- !Z.bit0_odd, Z.lxor_spec, Z.shiftr_lxor. apply Z.bits_inj'. intros n Hn.
  destruct (Z.testbit a 0), (Z.testbit b 0); simpl; rewrite !Z.lxor_spec; repeat destruct (Z.testbit _ n); done.
Qed.

Lemma crc_iter_xor k a b : Nat.iter k crc_bit (Z.lxor a b) = Z.lxor (Nat.iter k crc_bit a) (Nat.iter k crc_bit b).
Proof. induction k as [|k IH]; [done|]. simpl. by rewrite IH, crc_bit_xor. Qed.

Lemma crc_iter_shift k x : Nat.iter k crc_bit (Z.shiftl x (Z.of_nat k)) = x.
Proof.
  induction k as [|k IH] in x |- *; [by rewrite Z.shiftl_0_r|]. rewrite Nat.iter_succ_r. unfold crc_bit at 2.
  replace (Z.odd _) with false. 2: { rewrite <- Z.bit0_odd, Z.shiftl_spec_low by lia. done. }
  rewrite Z.shiftr_shiftl_l by lia. replace (Z.of_nat (S k) - 1) with (Z.of_nat k) by lia. apply IH.
Qed.

Lemma crc_nibble_spec c : crc_nibble c = Nat.iter 4 crc_bit c.
Proof.
  assert (Ec : c = Z.lxor (Z.shiftl (Z.shiftr c 4) 4) (Z.land c 0x0f)).
  { apply Z.bits_inj'. intros n Hn. rewrite Z.lxor_spec, Z.land_spec. destruct (Z.ltb_spec n 4).
    - rewrite Z.shiftl_spec_low by lia. change 0x0f with (Z.ones 4). rewrite Z.ones_spec_low by lia. by rewrite andb_true_r.
    - rewrite Z.shiftl_spec, Z.shiftr_spec by lia. change 0x0f with (Z.ones 4). rewrite Z.ones_spec_high by lia. rewrite andb_false_r, xorb_false_r. f_equal. lia. }
  rewrite Ec at 2. rewrite crc_iter_xor. change 4 with (Z.of_nat 4) at 2. rewrite crc_iter_shift, Z.lxor_comm. unfold crc_nibble. f_equal.
  assert (Hn : 0 <= Z.land c 0x0f < 16) by (change 0x0f with (Z.ones 4); rewrite Z.land_ones by lia; apply Z.mod_pos_bound; lia).
  generalize (Z.land c 0x0f), Hn. clear. intros n Hn.
  pose proof (byte_cases (fun n => negb (n <? 16) || (nth (Z.to_nat n) tinf_crc32tab 0 =? Nat.iter 4 crc_bit n)) ltac:(vm_compute; reflexivity) n ltac:(lia)) as H.
  cbv beta in H. replace (n <? 16) with true in H by lia. simpl negb in H. cbn [orb] in H. by apply Z.eqb_eq in H.
Qed.

Lemma uzlib_crc32_ref data c : uzlib_crc32 data c = crc32_ref data c.
Proof.
  revert c. induction data as [|b data IH]; intros c; [done|]. unfold uzlib_crc32, crc32_ref in *. cbn [foldl]. rewrite IH. f_equal.
  rewrite !crc_nibble_spec. by rewrite <- Nat.iter_add.
Qed.

Lemma crc_bit_range c : 0 <= c < 2 ^ 32 -> 0 <= crc_bit c < 2 ^ 32.
Proof.
  intros Hc. unfold crc_bit. rewrite Z.shiftr_div_pow2 by lia. change (2 ^ 1) with 2. destruct (Z.odd c); [|divlia].
  apply lxor_bound; [lia|divlia|lia].
Qed.

Lemma crc32_ref_range data c : Forall is_byte data -> 0 <= c < 2 ^ 32 -> 0 <= crc32_ref data c < 2 ^ 32.
Proof.
  intros Hd. revert c. induction Hd as [|b data Hb _ IH]; intros c Hc; [done|]. unfold crc32_ref in *. cbn [foldl]. apply IH.
  assert (H0 : 0 <= Z.lxor c b < 2 ^ 32) by (unfold is_byte in Hb; apply lxor_bound; lia). revert H0. generalize (Z.lxor c b). intros x Hx.
  generalize 8%nat. intros k. induction k as [|k IHk]; [done|]. simpl. by apply crc_bit_range.
Qed.

Lemma lxor_ones_twice x : Z.lxor (Z.lxor x 0xffffffff) 0xffffffff = x.
Proof. by rewrite Z.lxor_assoc, Z.lxor_nilpotent, Z.lxor_0_r. Qed.

(** ** The properties *)

Section Properties.
Context (mem_ok : Z -> bool).

Lemma out_alloc_ok n : 1 <= n -> mem_ok n = true -> out_alloc mem_ok n = Ok n.
Proof. intros Hn Hm. unfold out_alloc. replace (n <? 1) with false by lia. by rewrite Hm. Qed.

Lemma unhexlify_spec s : Forall is_byte s -> Z.of_nat (length s) < 2 ^ 31 -> mod_binascii_unhexlify mem_ok s
  = Some (if Nat.odd (length s) then Raise ValueError
          else if negb (mem_ok (Z.of_nat (length s) / 2 + 1)) then Raise MemoryError
          else if all_xdigits s then Ok (pair_values s) else Raise ValueError).
Proof.
  intros Hs Hl. unfold mod_binascii_unhexlify. replace (negb (Z.land (Z.of_nat (length s)) 1 =? 0)) with (Nat.odd (length s)).
  2: { change 1 with (Z.ones 1). rewrite Z.land_ones by lia. change (2 ^ 1) with 2. rewrite Zmod_odd, <- (Nat2Z.id (length s)) at 1.
       destruct (Nat.Even_or_Odd (length s)) as [[k ->]|[k ->]].
       - rewrite Nat2Z.id, Nat.odd_mul. replace (Z.of_nat (2 * k)) with (2 * Z.of_nat k) by lia. by rewrite Z.odd_mul.
       - rewrite Nat2Z.id, Nat.odd_add, Nat.odd_mul. replace (Z.of_nat (2 * k + 1)) with (2 * Z.of_nat k + 1) by lia. by rewrite Z.odd_add, Z.odd_mul. }
  destruct (Nat.odd (length s)) eqn:Eo; [done|]. rewrite wrap_id by divlia. unfold out_alloc. replace (_ + 1 <? 1) with false by divlia.
  destruct (mem_ok _); [|done]. simpl negb. cbv iota.
  assert (Ee : exists n, length s = (2 * n)%nat).
  { apply Nat.even_spec. by rewrite <- Nat.negb_odd, Eo. }
  destruct Ee as [n En]. rewrite (unhexlify_loop_spec n) by (done || (simpl; divlia)). cbn [mbind option_bind].
  destruct (all_xdigits s); [|done]. by rewrite app_nil_r, rev_involutive.
Qed.

Lemma hexlify_spec data sep : Forall is_byte data -> data <> [] -> Z.of_nat (length data) < 2 ^ 29 ->
  let text := hex_text (sep_char ((fun s => hd 0 s) <$> sep)) data in
  mod_binascii_hexlify mem_ok data sep = Some (if mem_ok (Z.of_nat (length text) + 1) then Ok text else Raise MemoryError).
Proof.
  intros Hd Hne Hl text. assert (H0 : (0 < length data)%nat) by (destruct data; [done|simpl; lia]). unfold mod_binascii_hexlify.
  pose proof (length_hex_text (sep_char ((fun s => hd 0 s) <$> sep)) data H0) as Hlt. fold text in Hlt.
  replace (Z.of_nat (length data) =? 0) with false by lia. rewrite (wrap_id 32 (_ * 2)) by lia.
  assert (Eo : match sep with Some _ => wrap 32 (Z.of_nat (length data) * 2 + (Z.of_nat (length data) - 1)) | None => Z.of_nat (length data) * 2 end
    = Z.of_nat (length text)).
  { destruct sep; cbn [sep_char fmap option_fmap option_map length] in Hlt; [rewrite wrap_id by lia|]; lia. }
  cbv zeta. rewrite Eo, wrap_id by (destruct sep; cbn [sep_char fmap option_fmap option_map length] in Hlt; lia).
  unfold out_alloc. replace (_ + 1 <? 1) with false by lia. destruct (mem_ok _); [|done].
  rewrite hexlify_loop_spec by (done || (fold text; simpl; lia)). cbn [mbind option_bind]. by rewrite app_nil_r, rev_involutive.
Qed.

(** C27 Binary data as text and back.  [hexlify] gives two digits for a byte with the separator between,
    and [unhexlify] accepts exactly an even number of hexadecimal digits of either case, otherwise [ValueError],
    and inverts [hexlify]; [a2b_base64] inverts [b2a_base64]; and [a2b_base64] of any text
    whose length is not 3 modulo 4 stays inside its buffer. *)
Theorem binascii_roundtrip data : Forall is_byte data -> Z.of_nat (length data) < 2 ^ 29 -> (forall n, mem_ok n = true) ->
  (exists text, mod_binascii_hexlify mem_ok data None = Some (Ok text) /\ text = hex_text [] data /\ mod_binascii_unhexlify mem_ok text = Some (Ok data))
  /\ (forall c sep, data <> [] -> mod_binascii_hexlify mem_ok data (Some (c :: sep)) = Some (Ok (hex_text [wrap 8 c] data)))
  /\ mod_binascii_unhexlify mem_ok data = Some (if Nat.odd (length data) || negb (all_xdigits data) then Raise ValueError else Ok (pair_values data))
  /\ (exists text, mod_binascii_b2a_base64 mem_ok data = Some (Ok text) /\ mod_binascii_a2b_base64 mem_ok text = Some (Ok data))
  /\ (Z.of_nat (length data) mod 4 <> 3 -> exists r, mod_binascii_a2b_base64 mem_ok data = Some r /\ (r = Raise ValueError \/ exists out, r = Ok out)).
Proof.
  intros Hd Hl Hm. destruct (pair_values_text data Hd) as (Hp & Hx & Hlt & Hb). split; [|split; [|split; [|split]]].
  - exists (hex_text [] data). split; [|split; [done|]].
    + destruct data as [|b data]; [done|]. rewrite hexlify_spec by done. by rewrite Hm.
    + rewrite unhexlify_spec by (done || lia). rewrite Hlt, Hm, Hx, Hp. rewrite Nat.odd_mul. done.
  - intros c sep Hne. rewrite hexlify_spec by done. by rewrite Hm.
  - rewrite unhexlify_spec by (done || lia). rewrite Hm. simpl negb. cbv iota. destruct (Nat.odd _), (all_xdigits data); done.
  - exists (map b2a_char (b2a_sextets data) ++ [10]). pose proof (length_sextets (length data) data ltac:(lia)) as Hs. unfold mod_binascii_b2a_base64.
    set (k := if Z.of_nat (length data) =? 0 then 0 else ((Z.of_nat (length data) - 1) / 3 + 1) * 4) in Hs.
    assert (Hk : 0 <= k < 2 ^ 31 /\ (4 * Z.of_nat (length data) <= 3 * k /\ k mod 4 = 0)) by (unfold k; destruct (Z.eqb_spec (Z.of_nat (length data)) 0); divlia).
    replace (if Z.of_nat (length data) =? 0 then 0 else wrap 32 (((Z.of_nat (length data) - 1) / 3 + 1) * 4)) with k.
    2: { unfold k in *. destruct (Z.of_nat (length data) =? 0); [done|]. rewrite wrap_id by lia. done. }
    rewrite (wrap_id 32 (k + 1)), wrap_id, out_alloc_ok by (done || lia). cbv zeta. rewrite Hs. replace ((k <=? k + 1 + 1) && (k =? k + 1 - 1)) with true by lia.
    split; [done|]. unfold mod_binascii_a2b_base64. rewrite length_app, length_map. cbn [length].
    replace (Z.of_nat (length (b2a_sextets data) + 1)) with (k + 1) by lia. rewrite wrap_id, out_alloc_ok by (done || divlia).
    rewrite (a2b_encoded (length data)) by (done || (simpl; divlia)). cbn [mbind option_bind]. by rewrite app_nil_r, rev_involutive.
  - intros H3. unfold mod_binascii_a2b_base64. rewrite wrap_id, out_alloc_ok by (done || divlia).
    destruct (a2b_safe data (Z.of_nat (length data) / 4 * 3 + 1) 0 0 false []) as [[out nbits] ->]; [lia|simpl; divlia|]. cbn [mbind option_bind].
    eexists. split; [reflexivity|]. destruct (nbits =? 0); [right; by eexists|by left].
Qed.
End Properties.

Lemma binascii_roundtrip_witness :
  mod_binascii_b2a_base64 (fun _ => true) [77; 97; 110; 0; 255] = Some (Ok [84; 87; 70; 117; 65; 80; 56; 61; 10])
  /\ mod_binascii_a2b_base64 (fun _ => true) [84; 87; 70; 117; 65; 80; 56; 61; 10] = Some (Ok [77; 97; 110; 0; 255])
  /\ mod_binascii_hexlify (fun _ => true) [77; 255] (Some [58]) = Some (Ok [52; 100; 58; 102; 102]).
Proof.
  destruct (binascii_roundtrip (fun _ => true) [77; 97; 110; 0; 255]) as (_ & _ & _ & (text & E & E') & _); [repeat constructor; lia|simpl; lia|done|].
  assert (Et : text = [84; 87; 70; 117; 65; 80; 56; 61; 10]) by (vm_compute in E; by injection E as <-). subst text.
  split; [exact E|]. split; [exact E'|].
  destruct (binascii_roundtrip (fun _ => true) [77; 255]) as (_ & H & _); [repeat constructor; lia|simpl; lia|done|].
  rewrite (H 58 []) by done. vm_compute. reflexivity.
Defined.

(** C28 The checksum computed with a table of 16 entries is the division by the polynomial bit
    by bit, stays a 32-bit word, and the checksum of a text continues that of its beginning. *)
Theorem mod_binascii_crc32_correct data crc : Forall is_byte data ->
  mod_binascii_crc32 data crc = Z.lxor (crc32_ref data (Z.lxor (wrap 32 crc) 0xffffffff)) 0xffffffff
  /\ 0 <= mod_binascii_crc32 data crc < 2 ^ 32
  /\ forall data', mod_binascii_crc32 (data ++ data') crc = mod_binascii_crc32 data' (mod_binascii_crc32 data crc).
Proof.
  intros Hd. unfold mod_binascii_crc32. rewrite uzlib_crc32_ref. split; [done|].
  assert (Hr : 0 <= crc32_ref data (Z.lxor (wrap 32 crc) 0xffffffff) < 2 ^ 32).
  { apply crc32_ref_range; [done|]. apply lxor_bound; [lia|apply wrap_range; lia|lia]. }
  assert (Hx : 0 <= Z.lxor (crc32_ref data (Z.lxor (wrap 32 crc) 0xffffffff)) 0xffffffff < 2 ^ 32) by (apply lxor_bound; lia).
  split; [done|]. intros data'. rewrite (wrap_id 32 (Z.lxor _ _)) by done. rewrite lxor_ones_twice, !uzlib_crc32_ref. unfold crc32_ref. by rewrite foldl_app.
Qed.

(** The check value of CRC-32: that of the digits 1 to 9. *)
Lemma mod_binascii_crc32_correct_witness : Forall is_byte [49; 50; 51; 52; 53; 54; 55; 56; 57]
  /\ mod_binascii_crc32 [49; 50; 51; 52; 53; 54; 55; 56; 57] 0 = 0xCBF43926.
Proof.
  assert (Hb : Forall is_byte [49; 50; 51; 52; 53; 54; 55; 56; 57]) by (repeat constructor; lia).
  split; [exact Hb|]. rewrite (proj1 (mod_binascii_crc32_correct _ 0 Hb)). vm_compute. reflexivity.
Defined.

(** A text of 23 characters without padding: 17 bytes are written into a buffer of 16. *)
Lemma a2b_overflow : mod_binascii_a2b_base64 (fun _ => true) (repeat 65 23) = None
  /\ out_alloc (fun _ => true) (wrap 32 (23 / 4 * 3 + 1)) = Ok 16.
Proof. split; vm_compute; reflexivity. Qed.
