(* ===== verification/Bytecode.v ===== *)
(** Byte code: its instructions, how they are encoded and decoded, [py/bc0.h],
    [py/bc.c], with the encoders of [py/emitbc.c] and the decoders of [py/vm.c].

    Code is a list of bytes, a pointer into it an index; a read past the end is
    [None].  Words have 32 bits, as on the ESP32, and code can be saved to files
    ([MICROPY_PERSISTENT_CODE]), so names and jumps take two bytes. *)
From Stdlib Require Import Sorted.
From S2P Require Import Prelude.

(** ** Numbers of any size *)

(** Seven bits for each byte, the most significant first; the last has bit 7 clear. *)
Fixpoint decode_uint (unum : Z) (p : list Z) : option (Z * nat) :=
  match p with
  | [] => None
  | val :: p =>
      let unum := Z.lor (wrap 32 (Z.shiftl unum 7)) (Z.land val 127) in
      if Z.land val 128 =? 0 then Some (unum, 1%nat) else '(r, n) ← decode_uint unum p; Some (r, S n)
  end.

Definition mp_decode_uint (code : list Z) (ip : nat) : option (Z * nat) :=
  '(unum, n) ← decode_uint 0 (drop ip code); Some (unum, ip + n)%nat.
Definition mp_decode_uint_value (code : list Z) (ip : nat) : option Z := fst <$> mp_decode_uint code ip.

Fixpoint decode_uint_skip (p : list Z) : option nat :=
  match p with
  | [] => None
  | val :: p => if Z.land val 128 =? 0 then Some 1%nat else S <$> decode_uint_skip p
  end.
Definition mp_decode_uint_skip (code : list Z) (ip : nat) : option nat :=
  n ← decode_uint_skip (drop ip code); Some (ip + n)%nat.

(** The small integer of [LOAD_CONST_SMALL_INT]: the first byte has the sign. *)
Fixpoint decode_int (num : Z) (p : list Z) : option (Z * nat) :=
  match p with
  | [] => None
  | val :: p =>
      let num := swrap 32 (Z.lor (Z.shiftl num 7) (Z.land val 127)) in
      if Z.land val 128 =? 0 then Some (num, 1%nat) else '(r, n) ← decode_int num p; Some (r, S n)
  end.
Definition vm_decode_int (code : list Z) (ip : nat) : option (Z * nat) :=
  first ← code !! ip;
  '(num, n) ← decode_int (if Z.land first 64 =? 0 then 0 else -1) (drop ip code); Some (num, ip + n)%nat.

(** The encoders fill a buffer of five bytes from its end; [None] if it is too small. *)
Definition BYTES_FOR_INT : nat := 5.

Fixpoint uint_bytes (fuel : nat) (val : Z) (buf : list Z) : option (list Z) :=
  match fuel with
  | O => None
  | S fuel =>
      let buf := Z.land val 127 :: buf in
      let val := Z.shiftr val 7 in
      if val =? 0 then Some buf else uint_bytes fuel val buf
  end.

(** All bytes but the last get bit 7. *)
Fixpoint with_continuation (p : list Z) : list Z :=
  match p with
  | [] => []
  | [c] => [c]
  | c :: p => Z.lor c 128 :: with_continuation p
  end.

Definition encode_uint (val : Z) : option (list Z) := with_continuation <$> uint_bytes BYTES_FOR_INT val [].

Fixpoint int_bytes (fuel : nat) (num : Z) (buf : list Z) : option (nat * Z * list Z) :=
  match fuel with
  | O => None
  | S fuel =>
      let buf := Z.land num 127 :: buf in
      let num := Z.shiftr num 7 in
      if (num =? 0) || (num =? -1) then Some (fuel, num, buf) else int_bytes fuel num buf
  end.

Definition encode_int (num : Z) : option (list Z) :=
  '(fuel, num, buf) ← int_bytes BYTES_FOR_INT num [];
  top ← head buf;
  let extra := if (num =? -1) && (Z.land top 64 =? 0) then Some 127
               else if (num =? 0) && negb (Z.land top 64 =? 0) then Some 0 else None in
  match extra with
  | None => Some (with_continuation buf)
  | Some b => if (fuel =? 0)%nat then None else Some (with_continuation (b :: buf))
  end.

(** ** Instructions *)

Inductive opc :=
  | MP_BC_LOAD_CONST_FALSE | MP_BC_LOAD_CONST_NONE | MP_BC_LOAD_CONST_TRUE | MP_BC_LOAD_CONST_SMALL_INT
  | MP_BC_LOAD_CONST_STRING | MP_BC_LOAD_CONST_OBJ | MP_BC_LOAD_NULL | MP_BC_LOAD_FAST_N | MP_BC_LOAD_DEREF
  | MP_BC_LOAD_NAME | MP_BC_LOAD_GLOBAL | MP_BC_LOAD_ATTR | MP_BC_LOAD_METHOD | MP_BC_LOAD_SUPER_METHOD
  | MP_BC_LOAD_BUILD_CLASS | MP_BC_LOAD_SUBSCR | MP_BC_STORE_FAST_N | MP_BC_STORE_DEREF | MP_BC_STORE_NAME
  | MP_BC_STORE_GLOBAL | MP_BC_STORE_ATTR | MP_BC_STORE_SUBSCR | MP_BC_DELETE_FAST | MP_BC_DELETE_DEREF
  | MP_BC_DELETE_NAME | MP_BC_DELETE_GLOBAL | MP_BC_DUP_TOP | MP_BC_DUP_TOP_TWO | MP_BC_POP_TOP
  | MP_BC_ROT_TWO | MP_BC_ROT_THREE | MP_BC_JUMP | MP_BC_POP_JUMP_IF_TRUE | MP_BC_POP_JUMP_IF_FALSE
  | MP_BC_JUMP_IF_TRUE_OR_POP | MP_BC_JUMP_IF_FALSE_OR_POP | MP_BC_SETUP_WITH | MP_BC_WITH_CLEANUP
  | MP_BC_SETUP_EXCEPT | MP_BC_SETUP_FINALLY | MP_BC_END_FINALLY | MP_BC_GET_ITER | MP_BC_FOR_ITER
  | MP_BC_POP_EXCEPT_JUMP | MP_BC_UNWIND_JUMP | MP_BC_GET_ITER_STACK | MP_BC_BUILD_TUPLE | MP_BC_BUILD_LIST
  | MP_BC_BUILD_MAP | MP_BC_STORE_MAP | MP_BC_BUILD_SET | MP_BC_BUILD_SLICE | MP_BC_STORE_COMP
  | MP_BC_UNPACK_SEQUENCE | MP_BC_UNPACK_EX | MP_BC_RETURN_VALUE | MP_BC_RAISE_VARARGS | MP_BC_YIELD_VALUE
  | MP_BC_YIELD_FROM | MP_BC_MAKE_FUNCTION | MP_BC_MAKE_FUNCTION_DEFARGS | MP_BC_MAKE_CLOSURE
  | MP_BC_MAKE_CLOSURE_DEFARGS | MP_BC_CALL_FUNCTION | MP_BC_CALL_FUNCTION_VAR_KW | MP_BC_CALL_METHOD
  | MP_BC_CALL_METHOD_VAR_KW | MP_BC_IMPORT_NAME | MP_BC_IMPORT_FROM | MP_BC_IMPORT_STAR
  | MP_BC_LOAD_CONST_SMALL_INT_MULTI | MP_BC_LOAD_FAST_MULTI | MP_BC_STORE_FAST_MULTI | MP_BC_UNARY_OP_MULTI
  | MP_BC_BINARY_OP_MULTI.

#[export] Instance opc_eq_dec : EqDecision opc.
Proof. solve_decision. Defined.

Definition opcode (o : opc) : Z :=
  match o with
  | MP_BC_LOAD_CONST_FALSE => 0x10 | MP_BC_LOAD_CONST_NONE => 0x11 | MP_BC_LOAD_CONST_TRUE => 0x12
  | MP_BC_LOAD_CONST_SMALL_INT => 0x14 | MP_BC_LOAD_CONST_STRING => 0x16 | MP_BC_LOAD_CONST_OBJ => 0x17
  | MP_BC_LOAD_NULL => 0x18 | MP_BC_LOAD_FAST_N => 0x19 | MP_BC_LOAD_DEREF => 0x1a | MP_BC_LOAD_NAME => 0x1b
  | MP_BC_LOAD_GLOBAL => 0x1c | MP_BC_LOAD_ATTR => 0x1d | MP_BC_LOAD_METHOD => 0x1e
  | MP_BC_LOAD_SUPER_METHOD => 0x1f | MP_BC_LOAD_BUILD_CLASS => 0x20 | MP_BC_LOAD_SUBSCR => 0x21
  | MP_BC_STORE_FAST_N => 0x22 | MP_BC_STORE_DEREF => 0x23 | MP_BC_STORE_NAME => 0x24
  | MP_BC_STORE_GLOBAL => 0x25 | MP_BC_STORE_ATTR => 0x26 | MP_BC_STORE_SUBSCR => 0x27
  | MP_BC_DELETE_FAST => 0x28 | MP_BC_DELETE_DEREF => 0x29 | MP_BC_DELETE_NAME => 0x2a
  | MP_BC_DELETE_GLOBAL => 0x2b | MP_BC_DUP_TOP => 0x30 | MP_BC_DUP_TOP_TWO => 0x31 | MP_BC_POP_TOP => 0x32
  | MP_BC_ROT_TWO => 0x33 | MP_BC_ROT_THREE => 0x34 | MP_BC_JUMP => 0x35 | MP_BC_POP_JUMP_IF_TRUE => 0x36
  | MP_BC_POP_JUMP_IF_FALSE => 0x37 | MP_BC_JUMP_IF_TRUE_OR_POP => 0x38 | MP_BC_JUMP_IF_FALSE_OR_POP => 0x39
  | MP_BC_SETUP_WITH => 0x3d | MP_BC_WITH_CLEANUP => 0x3e | MP_BC_SETUP_EXCEPT => 0x3f
  | MP_BC_SETUP_FINALLY => 0x40 | MP_BC_END_FINALLY => 0x41 | MP_BC_GET_ITER => 0x42 | MP_BC_FOR_ITER => 0x43
  | MP_BC_POP_EXCEPT_JUMP => 0x44 | MP_BC_UNWIND_JUMP => 0x46 | MP_BC_GET_ITER_STACK => 0x47
  | MP_BC_BUILD_TUPLE => 0x50 | MP_BC_BUILD_LIST => 0x51 | MP_BC_BUILD_MAP => 0x53 | MP_BC_STORE_MAP => 0x54
  | MP_BC_BUILD_SET => 0x56 | MP_BC_BUILD_SLICE => 0x58 | MP_BC_STORE_COMP => 0x57
  | MP_BC_UNPACK_SEQUENCE => 0x59 | MP_BC_UNPACK_EX => 0x5a | MP_BC_RETURN_VALUE => 0x5b
  | MP_BC_RAISE_VARARGS => 0x5c | MP_BC_YIELD_VALUE => 0x5d | MP_BC_YIELD_FROM => 0x5e
  | MP_BC_MAKE_FUNCTION => 0x60 | MP_BC_MAKE_FUNCTION_DEFARGS => 0x61 | MP_BC_MAKE_CLOSURE => 0x62
  | MP_BC_MAKE_CLOSURE_DEFARGS => 0x63 | MP_BC_CALL_FUNCTION => 0x64 | MP_BC_CALL_FUNCTION_VAR_KW => 0x65
  | MP_BC_CALL_METHOD => 0x66 | MP_BC_CALL_METHOD_VAR_KW => 0x67 | MP_BC_IMPORT_NAME => 0x68
  | MP_BC_IMPORT_FROM => 0x69 | MP_BC_IMPORT_STAR => 0x6a | MP_BC_LOAD_CONST_SMALL_INT_MULTI => 0x70
  | MP_BC_LOAD_FAST_MULTI => 0xb0 | MP_BC_STORE_FAST_MULTI => 0xc0 | MP_BC_UNARY_OP_MULTI => 0xd0
  | MP_BC_BINARY_OP_MULTI => 0xd7
  end.

(** The opcodes with a byte of their own, in the order of the file. *)
Definition single_opcs : list opc :=
  [MP_BC_LOAD_CONST_FALSE; MP_BC_LOAD_CONST_NONE; MP_BC_LOAD_CONST_TRUE; MP_BC_LOAD_CONST_SMALL_INT;
   MP_BC_LOAD_CONST_STRING; MP_BC_LOAD_CONST_OBJ; MP_BC_LOAD_NULL; MP_BC_LOAD_FAST_N; MP_BC_LOAD_DEREF;
   MP_BC_LOAD_NAME; MP_BC_LOAD_GLOBAL; MP_BC_LOAD_ATTR; MP_BC_LOAD_METHOD; MP_BC_LOAD_SUPER_METHOD;
   MP_BC_LOAD_BUILD_CLASS; MP_BC_LOAD_SUBSCR; MP_BC_STORE_FAST_N; MP_BC_STORE_DEREF; MP_BC_STORE_NAME;
   MP_BC_STORE_GLOBAL; MP_BC_STORE_ATTR; MP_BC_STORE_SUBSCR; MP_BC_DELETE_FAST; MP_BC_DELETE_DEREF;
   MP_BC_DELETE_NAME; MP_BC_DELETE_GLOBAL; MP_BC_DUP_TOP; MP_BC_DUP_TOP_TWO; MP_BC_POP_TOP; MP_BC_ROT_TWO;
   MP_BC_ROT_THREE; MP_BC_JUMP; MP_BC_POP_JUMP_IF_TRUE; MP_BC_POP_JUMP_IF_FALSE; MP_BC_JUMP_IF_TRUE_OR_POP;
   MP_BC_JUMP_IF_FALSE_OR_POP; MP_BC_SETUP_WITH; MP_BC_WITH_CLEANUP; MP_BC_SETUP_EXCEPT; MP_BC_SETUP_FINALLY;
   MP_BC_END_FINALLY; MP_BC_GET_ITER; MP_BC_FOR_ITER; MP_BC_POP_EXCEPT_JUMP; MP_BC_UNWIND_JUMP;
   MP_BC_GET_ITER_STACK; MP_BC_BUILD_TUPLE; MP_BC_BUILD_LIST; MP_BC_BUILD_MAP; MP_BC_STORE_MAP;
   MP_BC_BUILD_SET; MP_BC_BUILD_SLICE; MP_BC_STORE_COMP; MP_BC_UNPACK_SEQUENCE; MP_BC_UNPACK_EX;
   MP_BC_RETURN_VALUE; MP_BC_RAISE_VARARGS; MP_BC_YIELD_VALUE; MP_BC_YIELD_FROM; MP_BC_MAKE_FUNCTION;
   MP_BC_MAKE_FUNCTION_DEFARGS; MP_BC_MAKE_CLOSURE; MP_BC_MAKE_CLOSURE_DEFARGS; MP_BC_CALL_FUNCTION;
   MP_BC_CALL_FUNCTION_VAR_KW; MP_BC_CALL_METHOD; MP_BC_CALL_METHOD_VAR_KW; MP_BC_IMPORT_NAME;
   MP_BC_IMPORT_FROM; MP_BC_IMPORT_STAR].

Definition MP_UNARY_OP_NUM_BYTECODE : Z := 4.
Definition MP_BINARY_OP_NUM_BYTECODE : Z := 33.

(** The table of entries of the interpreter: some opcodes have a number in them. *)
Definition multi_opcs : list (opc * Z) :=
  [(MP_BC_LOAD_CONST_SMALL_INT_MULTI, 64); (MP_BC_LOAD_FAST_MULTI, 16); (MP_BC_STORE_FAST_MULTI, 16);
   (MP_BC_UNARY_OP_MULTI, MP_UNARY_OP_NUM_BYTECODE); (MP_BC_BINARY_OP_MULTI, MP_BINARY_OP_NUM_BYTECODE)].

Definition entry_table (b : Z) : option opc :=
  match find (fun o => opcode o =? b) single_opcs with
  | Some o => Some o
  | None => fst <$> find (fun '(o, n) => (opcode o <=? b) && (b <? opcode o + n)) multi_opcs
  end.

(** What follows an opcode. *)
Inductive operand := OpNone | OpMulti | OpUint | OpInt | OpQstr | OpUlabel | OpSlabel | OpSlabelByte | OpUintByte | OpByte | OpPeek.

Definition operand_of (o : opc) : operand :=
  match o with
  | MP_BC_LOAD_CONST_SMALL_INT_MULTI | MP_BC_LOAD_FAST_MULTI | MP_BC_STORE_FAST_MULTI | MP_BC_UNARY_OP_MULTI
  | MP_BC_BINARY_OP_MULTI => OpMulti
  | MP_BC_LOAD_CONST_OBJ | MP_BC_LOAD_FAST_N | MP_BC_LOAD_DEREF | MP_BC_STORE_FAST_N | MP_BC_STORE_DEREF
  | MP_BC_DELETE_FAST | MP_BC_DELETE_DEREF | MP_BC_BUILD_TUPLE | MP_BC_BUILD_LIST | MP_BC_BUILD_MAP
  | MP_BC_BUILD_SET | MP_BC_STORE_COMP | MP_BC_UNPACK_SEQUENCE | MP_BC_UNPACK_EX | MP_BC_MAKE_FUNCTION
  | MP_BC_MAKE_FUNCTION_DEFARGS | MP_BC_CALL_FUNCTION | MP_BC_CALL_FUNCTION_VAR_KW | MP_BC_CALL_METHOD
  | MP_BC_CALL_METHOD_VAR_KW => OpUint
  | MP_BC_LOAD_CONST_SMALL_INT => OpInt
  | MP_BC_LOAD_CONST_STRING | MP_BC_LOAD_NAME | MP_BC_LOAD_GLOBAL | MP_BC_LOAD_ATTR | MP_BC_LOAD_METHOD
  | MP_BC_LOAD_SUPER_METHOD | MP_BC_STORE_NAME | MP_BC_STORE_GLOBAL | MP_BC_STORE_ATTR | MP_BC_DELETE_NAME
  | MP_BC_DELETE_GLOBAL | MP_BC_IMPORT_NAME | MP_BC_IMPORT_FROM => OpQstr
  | MP_BC_SETUP_WITH | MP_BC_SETUP_EXCEPT | MP_BC_SETUP_FINALLY | MP_BC_FOR_ITER | MP_BC_POP_EXCEPT_JUMP => OpUlabel
  | MP_BC_JUMP | MP_BC_POP_JUMP_IF_TRUE | MP_BC_POP_JUMP_IF_FALSE | MP_BC_JUMP_IF_TRUE_OR_POP
  | MP_BC_JUMP_IF_FALSE_OR_POP => OpSlabel
  | MP_BC_UNWIND_JUMP => OpSlabelByte
  | MP_BC_MAKE_CLOSURE | MP_BC_MAKE_CLOSURE_DEFARGS => OpUintByte
  | MP_BC_BUILD_SLICE => OpByte
  | MP_BC_RAISE_VARARGS => OpPeek
  | _ => OpNone
  end.

(** An instruction as the interpreter decodes it: the opcode, the operands (for a
    label the address it stands for) and the address of what follows.  [None] in
    place of the opcode is a byte without an entry. *)
Record instr := MkInstr { i_op : option opc; i_a : Z; i_b : Z; i_next : nat }.

Definition decode_u16 (code : list Z) (ip : nat) : option Z :=
  a ← code !! ip; b ← code !! (ip + 1)%nat; Some (Z.lor a (Z.shiftl b 8)).

Definition decode_ulabel (code : list Z) (ip : nat) : option (Z * nat) :=
  u ← decode_u16 code ip; Some (Z.of_nat (ip + 2) + u, (ip + 2)%nat).
Definition decode_slabel (code : list Z) (ip : nat) : option (Z * nat) :=
  u ← decode_u16 code ip; Some (Z.of_nat (ip + 2) + (u - 32768), (ip + 2)%nat).

Definition decode (code : list Z) (pc : nat) : option instr :=
  b ← code !! pc;
  let ip := S pc in
  match entry_table b with
  | None => Some (MkInstr None 0 0 ip)
  | Some o =>
      match operand_of o with
      | OpNone => Some (MkInstr (Some o) 0 0 ip)
      | OpMulti => Some (MkInstr (Some o) (b - opcode o) 0 ip)
      | OpUint => '(a, ip) ← mp_decode_uint code ip; Some (MkInstr (Some o) a 0 ip)
      | OpInt => '(a, ip) ← vm_decode_int code ip; Some (MkInstr (Some o) a 0 ip)
      | OpQstr => a ← decode_u16 code ip; Some (MkInstr (Some o) a 0 (ip + 2))
      | OpUlabel => '(a, ip) ← decode_ulabel code ip; Some (MkInstr (Some o) a 0 ip)
      | OpSlabel => '(a, ip) ← decode_slabel code ip; Some (MkInstr (Some o) a 0 ip)
      | OpSlabelByte => '(a, ip) ← decode_slabel code ip; b ← code !! ip; Some (MkInstr (Some o) a b ip)
      | OpUintByte => '(a, ip) ← mp_decode_uint code ip; b ← code !! ip; Some (MkInstr (Some o) a b (S ip))
      | OpByte => a ← code !! ip; Some (MkInstr (Some o) a 0 (S ip))
      | OpPeek => a ← code !! ip; Some (MkInstr (Some o) a 0 ip)
      end
  end.

(** ** The formats of the loader *)

Definition MP_OPCODE_BYTE : Z := 0.
Definition MP_OPCODE_QSTR : Z := 1.
Definition MP_OPCODE_VAR_UINT : Z := 2.
Definition MP_OPCODE_OFFSET : Z := 3.

Definition OC4 (a b c d : Z) : Z := Z.lor (Z.lor (Z.lor a (Z.shiftl b 2)) (Z.shiftl c 4)) (Z.shiftl d 6).

Definition opcode_format_table : list Z :=
  let U := 0 in let B := MP_OPCODE_BYTE in let Q := MP_OPCODE_QSTR in let V := MP_OPCODE_VAR_UINT in
  let O := MP_OPCODE_OFFSET in
  [OC4 U U U U; OC4 U U U U; OC4 U U U U; OC4 U U U U; OC4 B B B U; OC4 V U Q V; OC4 B V V Q; OC4 Q Q Q Q;
   OC4 B B V V; OC4 Q Q Q B; OC4 V V Q Q; OC4 U U U U; OC4 B B B B; OC4 B O O O; OC4 O O U U; OC4 U O B O;
   OC4 O B B O; OC4 O U O B; OC4 U U U U; OC4 U U U U; OC4 V V U V; OC4 B U V V; OC4 V V V B; OC4 B B B U;
   OC4 V V V V; OC4 V V V V; OC4 Q Q B U; OC4 U U U U; OC4 B B B B; OC4 B B B B; OC4 B B B B; OC4 B B B B;
   OC4 B B B B; OC4 B B B B; OC4 B B B B; OC4 B B B B; OC4 B B B B; OC4 B B B B; OC4 B B B B; OC4 B B B B;
   OC4 B B B B; OC4 B B B B; OC4 B B B B; OC4 B B B B; OC4 B B B B; OC4 B B B B; OC4 B B B B; OC4 B B B B;
   OC4 B B B B; OC4 B B B B; OC4 B B B B; OC4 B B B B; OC4 B B B B; OC4 U U U B; OC4 B B B B; OC4 B B B B;
   OC4 B B B B; OC4 B B B B; OC4 B B B B; OC4 B B B B; OC4 B B B B; OC4 B B B B; OC4 U U U U; OC4 U U U U].

Definition mp_opcode_format (code : list Z) (pc : nat) (count_var_uint : bool) : option (Z * nat) :=
  b ← code !! pc;
  row ← opcode_format_table !! Z.to_nat (Z.shiftr b 2);
  let f := Z.land (Z.shiftr row (2 * Z.land b 3)) 3 in
  if f =? MP_OPCODE_QSTR then Some (f, 3%nat)
  else
    let extra_byte := if (b =? opcode MP_BC_RAISE_VARARGS) || (b =? opcode MP_BC_MAKE_CLOSURE)
                         || (b =? opcode MP_BC_MAKE_CLOSURE_DEFARGS) then 1%nat else 0%nat in
    ip ← (if f =? MP_OPCODE_VAR_UINT then if count_var_uint then mp_decode_uint_skip code (S pc) else Some (S pc)
          else if f =? MP_OPCODE_OFFSET then Some (S pc + 2)%nat else Some (S pc));
    Some (f, (ip + extra_byte - pc)%nat).

(** ** Round trips of numbers *)

Abbreviation seven := (fun d : Z => 0 <= d < 128).
Definition horner (acc : Z) (ds : list Z) : Z := foldl (fun u d => u * 128 + d) acc ds.

Lemma land_127 x : Z.land x 127 = x mod 128.
Proof. exact (Z.land_ones x 7 ltac:(lia)). Qed.

Lemma land_128_small d : 0 <= d < 128 -> Z.land d 128 = 0.
Proof.
  intros Hd. apply Z.bits_inj'. intros i Hi. rewrite Z.land_spec, Z.bits_0.
  destruct (decide (i = 7)) as [->|]; [|replace 128 with (2 ^ 7) by done; rewrite Z.pow2_bits_false by lia; apply andb_false_r].
  replace d with (d mod 2 ^ 7) by (apply Z.mod_small; lia). by rewrite Z.mod_pow2_bits_high by lia.
Qed.

Lemma lor_128_spec d : 0 <= d < 128 -> Z.lor d 128 = d + 128 /\ Z.land (d + 128) 127 = d /\ Z.land (d + 128) 128 = 128.
Proof.
  intros Hd. assert (E : Z.lor d 128 = d + 128).
  { pose proof (lor_shift 1 7 d ltac:(lia) ltac:(lia)) as H. rewrite Z.lor_comm in H.
    change (Z.shiftl 1 7) with 128 in H. lia. }
  split; [done|]. rewrite land_127. split; [|].
  - replace (d + 128) with (d + 1 * 128) by lia. rewrite Z_mod_plus_full. apply Z.mod_small. lia.
  - rewrite <- E, Z.land_lor_distr_l, land_128_small by done. done.
Qed.

Lemma horner_app acc ds es : horner acc (ds ++ es) = horner (horner acc ds) es.
Proof. apply foldl_app. Qed.

Lemma horner_shift ds : forall acc, horner acc ds = acc * 128 ^ Z.of_nat (length ds) + horner 0 ds.
Proof.
  induction ds as [|d ds IH]; intros acc; [unfold horner; simpl; lia|].
  change (horner acc (d :: ds)) with (horner (acc * 128 + d) ds). change (horner 0 (d :: ds)) with (horner d ds).
  rewrite (IH (acc * 128 + d)), (IH d). rewrite length_cons, Nat2Z.inj_succ, Z.pow_succ_r by lia. lia.
Qed.

(** Decoding accumulates the digits in words. *)
Lemma decode_uint_digits ds rest : Forall seven ds -> ds <> [] -> forall acc,
  decode_uint acc (with_continuation ds ++ rest) = Some (wrap 32 (horner acc ds), length ds).
Proof.
  intros Hds Hne. induction Hds as [|d ds Hd Hds IH]; [done|]. intros acc.
  assert (Hacc : forall x, 0 <= x < 128 -> Z.lor (wrap 32 (Z.shiftl acc 7)) x = wrap 32 (acc * 128 + x)).
  { intros x Hx. rewrite Z.shiftl_mul_pow2 by lia.
    replace (wrap 32 (acc * 2 ^ 7)) with (Z.shiftl (wrap 25 acc) 7).
    - rewrite lor_shift by lia. unfold wrap. change (2 ^ 7) with 128.
      rewrite (Z.div_mod acc (2 ^ 25)) at 2 by lia.
      replace ((2 ^ 25 * (acc / 2 ^ 25) + acc mod 2 ^ 25) * 128 + x) with (acc mod 2 ^ 25 * 128 + x + acc / 2 ^ 25 * 2 ^ 32) by lia.
      rewrite Z_mod_plus_full. symmetry. apply Z.mod_small. pose proof (Z.mod_pos_bound acc (2 ^ 25)). lia.
    - rewrite Z.shiftl_mul_pow2 by lia. unfold wrap. change (2 ^ 32) with (2 ^ 25 * 2 ^ 7).
      by rewrite Zmult_mod_distr_r. }
  destruct ds as [|e ds].
  - cbn [with_continuation app decode_uint]. rewrite land_127, Z.mod_small by lia.
    rewrite land_128_small by done. cbn [Z.eqb]. unfold horner. cbn [foldl length]. by rewrite Hacc.
  - cbn [with_continuation app decode_uint]. destruct (lor_128_spec d Hd) as (-> & -> & ->). cbn [Z.eqb].
    change (decode_uint (Z.lor (wrap 32 (Z.shiftl acc 7)) d) (with_continuation (e :: ds) ++ rest) ≫= (fun '(r, n) => Some (r, S n))
      = Some (wrap 32 (horner acc (d :: e :: ds)), length (d :: e :: ds))).
    rewrite IH by done. cbn [mbind option_bind length]. rewrite Hacc by done. do 2 f_equal.
    change (horner acc (d :: e :: ds)) with (horner (acc * 128 + d) (e :: ds)).
    rewrite (horner_shift _ (wrap 32 _)), (horner_shift _ (acc * 128 + d)).
    set (P := 128 ^ _). rewrite (Z.div_mod (acc * 128 + d) (2 ^ 32)) at 2 by lia.
    unfold wrap. symmetry. apply (wrap_eq_mod 32 _ _ ((acc * 128 + d) / 2 ^ 32 * P)). lia.
Qed.

Lemma uint_bytes_spec fuel : forall v buf, 0 <= v < 128 ^ Z.of_nat fuel -> (0 < fuel)%nat ->
  exists ds, uint_bytes fuel v buf = Some (ds ++ buf) /\ ds <> [] /\ Forall seven ds /\ (length ds <= fuel)%nat /\ horner 0 ds = v.
Proof.
  induction fuel as [|fuel IH]; intros v buf Hv Hf; [lia|]. cbn [uint_bytes].
  rewrite Nat2Z.inj_succ, Z.pow_succ_r in Hv by lia. rewrite land_127, Z.shiftr_div_pow2 by lia. change (2 ^ 7) with 128.
  pose proof (Z.mod_pos_bound v 128 ltac:(lia)) as Hm. pose proof (Z.div_mod v 128 ltac:(lia)) as Hdm.
  destruct (Z.eqb_spec (v / 128) 0) as [E|E].
  - exists [v mod 128]. repeat (split; [done|]). split; [by apply list.Forall_singleton|]. split; [simpl; lia|]. unfold horner. simpl. lia.
  - destruct (IH (v / 128) (v mod 128 :: buf)) as (ds & Hr & Hne & Hall & Hl & Hh).
    { split; [apply Z.div_pos; lia|apply Z.div_lt_upper_bound; lia]. }
    { destruct fuel; [|lia]. exfalso. apply E. apply Z.div_small. simpl in Hv. lia. }
    exists (ds ++ [v mod 128]). rewrite Hr, <- app_assoc. split; [done|]. split; [by destruct ds|].
    split; [apply Forall_app; split; [done|by apply list.Forall_singleton]|]. split; [rewrite length_app; simpl; lia|].
    rewrite horner_app, Hh. unfold horner. simpl. lia.
Qed.

Lemma length_with_continuation ds : length (with_continuation ds) = length ds.
Proof. induction ds as [|d [|e ds] IH]; [done..|]. cbn [with_continuation length] in *. by rewrite IH. Qed.

Lemma with_continuation_skip ds rest : Forall seven ds -> ds <> [] ->
  decode_uint_skip (with_continuation ds ++ rest) = Some (length ds).
Proof.
  intros Hds Hne. induction Hds as [|d ds Hd Hds IH]; [done|]. destruct ds as [|e ds].
  - cbn [with_continuation app decode_uint_skip]. by rewrite land_128_small.
  - cbn [with_continuation app decode_uint_skip]. destruct (lor_128_spec d Hd) as (-> & _ & ->). cbn [Z.eqb].
    change (S <$> decode_uint_skip (with_continuation (e :: ds) ++ rest) = Some (length (d :: e :: ds))). by rewrite IH.
Qed.

Lemma with_continuation_bytes ds : Forall seven ds -> Forall (fun b => 0 <= b < 256) (with_continuation ds).
Proof.
  intros Hds. induction Hds as [|d [|e ds] Hd Hds IH]; [constructor|apply list.Forall_singleton; lia|].
  cbn [with_continuation]. constructor; [|done]. destruct (lor_128_spec d Hd) as (-> & _). lia.
Qed.

(** What the theorems on instructions need of an unsigned operand. *)
Lemma encode_uint_spec v : 0 <= v < 2 ^ 32 -> exists bs, encode_uint v = Some bs
  /\ (forall pre rest, mp_decode_uint (pre ++ bs ++ rest) (length pre) = Some (v, (length pre + length bs)%nat)
        /\ mp_decode_uint_skip (pre ++ bs ++ rest) (length pre) = Some (length pre + length bs)%nat)
  /\ Forall (fun b => 0 <= b < 256) bs /\ (1 <= length bs <= 5)%nat.
Proof.
  intros Hv. destruct (uint_bytes_spec BYTES_FOR_INT v []) as (ds & Hr & Hne & Hall & Hl & Hh);
    [unfold BYTES_FOR_INT; simpl; lia|unfold BYTES_FOR_INT; lia|]. rewrite app_nil_r in Hr.
  exists (with_continuation ds). unfold encode_uint. rewrite Hr. split; [done|].
  rewrite length_with_continuation. split; [|split; [by apply with_continuation_bytes|destruct ds; [done|]; unfold BYTES_FOR_INT in Hl; cbn [length] in *; lia]].
  intros pre rest. unfold mp_decode_uint, mp_decode_uint_skip. rewrite drop_app_length.
  rewrite decode_uint_digits, with_continuation_skip by done. by rewrite Hh, wrap_id.
Qed.

(** *** Signed numbers *)

Lemma land_64 d : 0 <= d < 128 -> (Z.land d 64 =? 0) = (d <? 64).
Proof.
  intros Hd. assert (E : Z.land d 64 = if d <? 64 then 0 else 64).
  { assert (Hb : Z.land d 64 = Z.b2z (Z.testbit d 6) * 64).
    { apply Z.bits_inj'. intros i Hi. rewrite Z.land_spec. change 64 with (2 ^ 6) at 1. rewrite <- (Z.shiftl_mul_pow2 _ 6) by lia.
      rewrite Z.shiftl_spec by lia. rewrite Z.pow2_bits_eqb by lia. destruct (Z.eqb_spec 6 i) as [<-|].
      - by destruct (Z.testbit d 6).
      - rewrite andb_false_r. destruct (decide (i < 6)); [by rewrite Z.testbit_neg_r by lia|].
        destruct (Z.testbit d 6); [|by rewrite Z.testbit_0_l]. change (Z.b2z true) with (2 ^ 0). by rewrite Z.pow2_bits_false by lia. }
    rewrite Hb. replace (Z.testbit d 6) with (negb (d <? 64)); [by destruct (d <? 64)|].
    rewrite Z.testbit_odd, Z.shiftr_div_pow2 by lia. change (2 ^ 6) with 64.
    destruct (Z.ltb_spec d 64); [by rewrite Z.div_small by lia|].
    replace (d / 64) with 1; [done|]. apply (Z.div_unique d 64 1 (d - 64)); lia. }
  rewrite E. by destruct (d <? 64).
Qed.

Lemma land_64_continued d : 0 <= d < 128 -> Z.land (d + 128) 64 = Z.land d 64.
Proof. intros Hd. destruct (lor_128_spec d Hd) as (<- & _). rewrite Z.land_lor_distr_l. change (Z.land 128 64) with 0. apply Z.lor_0_r. Qed.

Lemma decode_int_digits ds rest : Forall seven ds -> ds <> [] -> forall acc,
  decode_int acc (with_continuation ds ++ rest) = Some (swrap 32 (horner acc ds), length ds).
Proof.
  intros Hds Hne. induction Hds as [|d ds Hd Hds IH]; [done|]. intros acc.
  assert (Hacc : Z.lor (Z.shiftl acc 7) d = acc * 128 + d) by (rewrite lor_shift by lia; lia).
  destruct ds as [|e ds].
  - cbn [with_continuation app decode_int]. rewrite land_127, Z.mod_small by lia.
    rewrite land_128_small by done. cbn [Z.eqb]. unfold horner. cbn [foldl length]. by rewrite Hacc.
  - cbn [with_continuation app decode_int]. destruct (lor_128_spec d Hd) as (-> & -> & ->). cbn [Z.eqb].
    change (decode_int (swrap 32 (Z.lor (Z.shiftl acc 7) d)) (with_continuation (e :: ds) ++ rest) ≫= (fun '(r, n) => Some (r, S n))
      = Some (swrap 32 (horner acc (d :: e :: ds)), length (d :: e :: ds))).
    rewrite IH by done. cbn [mbind option_bind length]. rewrite Hacc. do 2 f_equal.
    change (horner acc (d :: e :: ds)) with (horner (acc * 128 + d) (e :: ds)).
    rewrite (horner_shift _ (swrap 32 _)), (horner_shift _ (acc * 128 + d)). set (P := 128 ^ _).
    pose proof (Z.div_mod (acc * 128 + d + 2 ^ 31) (2 ^ 32) ltac:(lia)) as Hdm.
    symmetry. apply (swrap_eq_mod 32 _ _ ((acc * 128 + d + 2 ^ 31) / 2 ^ 32 * P)). unfold swrap. change (32 - 1) with 31. lia.
Qed.

Lemma int_bytes_spec fuel : forall v buf, - 128 ^ Z.of_nat fuel <= v < 128 ^ Z.of_nat fuel -> (0 < fuel)%nat ->
  exists fuel' s ds, int_bytes fuel v buf = Some (fuel', s, ds ++ buf) /\ ds <> [] /\ Forall seven ds
    /\ (length ds + fuel' = fuel)%nat /\ (s = 0 \/ s = -1) /\ horner s ds = v.
Proof.
  induction fuel as [|fuel IH]; intros v buf Hv Hf; [lia|]. cbn [int_bytes].
  rewrite Nat2Z.inj_succ, Z.pow_succ_r in Hv by lia. rewrite land_127, Z.shiftr_div_pow2 by lia. change (2 ^ 7) with 128.
  pose proof (Z.mod_pos_bound v 128 ltac:(lia)) as Hm. pose proof (Z.div_mod v 128 ltac:(lia)) as Hdm.
  destruct ((v / 128 =? 0) || (v / 128 =? -1)) eqn:E.
  - exists fuel, (v / 128), [v mod 128]. repeat (split; [done|]). split; [by apply list.Forall_singleton|]. split; [simpl; lia|].
    split; [lia|]. unfold horner. simpl. lia.
  - destruct (IH (v / 128) (v mod 128 :: buf)) as (fuel' & s & ds & Hr & Hne & Hall & Hl & Hs & Hh).
    { split; [apply Z.div_le_lower_bound; lia|apply Z.div_lt_upper_bound; lia]. }
    { destruct fuel; [|lia]. exfalso. change (128 ^ Z.of_nat 0) with 1 in Hv.
      assert (v / 128 = 0 \/ v / 128 = -1) by lia. lia. }
    exists fuel', s, (ds ++ [v mod 128]). rewrite Hr, <- app_assoc. split; [done|]. split; [by destruct ds|].
    split; [apply Forall_app; split; [done|by apply list.Forall_singleton]|]. split; [rewrite length_app; simpl; lia|].
    split; [done|]. rewrite horner_app, Hh. unfold horner. simpl. lia.
Qed.

Lemma horner_bound ds : Forall seven ds -> 0 <= horner 0 ds < 128 ^ Z.of_nat (length ds).
Proof.
  induction 1 as [|d ds Hd Hds IH]; [by unfold horner|]. change (horner 0 (d :: ds)) with (horner d ds).
  rewrite horner_shift, length_cons, Nat2Z.inj_succ, Z.pow_succ_r by lia. nia.
Qed.

(** The sign of the first byte is that of the number, or a byte with the sign comes first. *)
Lemma vm_decode_int_digits s t ds pre rest : Forall seven (t :: ds) -> (s = 0 /\ t < 64 \/ s = -1 /\ 64 <= t) ->
  vm_decode_int (pre ++ with_continuation (t :: ds) ++ rest) (length pre)
  = Some (swrap 32 (horner s (t :: ds)), (length pre + length (t :: ds))%nat).
Proof.
  intros Hall Hs. assert (Ht : 0 <= t < 128) by by inversion Hall. unfold vm_decode_int. rewrite drop_app_length.
  rewrite lookup_app_r, Nat.sub_diag by lia.
  assert (Hf : exists f, (with_continuation (t :: ds) ++ rest) !! 0%nat = Some f /\ (Z.land f 64 =? 0) = (t <? 64)).
  { destruct ds as [|e ds]; cbn [with_continuation app lookup list_lookup]; eexists; (split; [done|]).
    - by apply land_64.
    - destruct (lor_128_spec t Ht) as (-> & _). rewrite land_64_continued by done. by apply land_64. }
  destruct Hf as (f & -> & Hsign). cbn [mbind option_bind]. rewrite Hsign.
  rewrite decode_int_digits by done. cbn [mbind option_bind].
  replace (if t <? 64 then 0 else -1) with s; [done|]. destruct (Z.ltb_spec t 64); lia.
Qed.

Lemma encode_int_spec n : - 2 ^ 31 <= n < 2 ^ 31 -> exists bs, encode_int n = Some bs
  /\ (forall pre rest, vm_decode_int (pre ++ bs ++ rest) (length pre) = Some (n, (length pre + length bs)%nat)
        /\ mp_decode_uint_skip (pre ++ bs ++ rest) (length pre) = Some (length pre + length bs)%nat)
  /\ Forall (fun b => 0 <= b < 256) bs /\ (1 <= length bs <= 5)%nat.
Proof.
  intros Hn. destruct (int_bytes_spec BYTES_FOR_INT n []) as (fuel & s & ds & Hr & Hne & Hall & Hl & Hs & Hh);
    [unfold BYTES_FOR_INT; change (128 ^ Z.of_nat 5) with (2 ^ 35); lia|unfold BYTES_FOR_INT; lia|].
  rewrite app_nil_r in Hr. unfold encode_int. rewrite Hr. cbn [mbind option_bind].
  destruct ds as [|t ds]; [done|]. cbn [head mbind option_bind]. assert (Ht : 0 <= t < 128) by by inversion Hall.
  (* any digits that stand for the number with the right sign will do *)
  assert (Hfin : forall s' t' ds', horner s' (t' :: ds') = n -> Forall seven (t' :: ds') -> (s' = 0 /\ t' < 64 \/ s' = -1 /\ 64 <= t') ->
    (length (t' :: ds') <= 5)%nat ->
    exists bs, Some (with_continuation (t' :: ds')) = Some bs
      /\ (forall pre rest, vm_decode_int (pre ++ bs ++ rest) (length pre) = Some (n, (length pre + length bs)%nat)
        /\ mp_decode_uint_skip (pre ++ bs ++ rest) (length pre) = Some (length pre + length bs)%nat)
      /\ Forall (fun b => 0 <= b < 256) bs /\ (1 <= length bs <= 5)%nat).
  { intros s' t' ds' Hh' Hall' Hs' Hl'. eexists. split; [done|]. rewrite length_with_continuation.
    split; [|split; [by apply with_continuation_bytes|cbn [length] in *; lia]]. intros pre rest.
    rewrite vm_decode_int_digits with (s := s') by done. unfold mp_decode_uint_skip.
    rewrite drop_app_length, with_continuation_skip by done. by rewrite Hh', swrap_id. }
  rewrite land_64 by done. unfold BYTES_FOR_INT in Hl.
  destruct ((s =? -1) && (t <? 64)) eqn:E1; [|destruct ((s =? 0) && negb (t <? 64)) eqn:E2].
  1, 2: destruct (Nat.eqb_spec fuel 0) as [->|].
  1, 3: exfalso; assert (length ds = 4%nat) by (cbn [length] in Hl; lia);
    change (horner s (t :: ds)) with (horner (s * 128 + t) ds) in Hh; rewrite horner_shift in Hh;
    pose proof (horner_bound ds ltac:(by inversion Hall)) as Hb; replace (length ds) with 4%nat in Hh, Hb by done;
    change (128 ^ Z.of_nat 4) with (2 ^ 28) in Hh, Hb; lia.
  - apply (Hfin (-1)); [|by constructor; [lia|]|lia|cbn [length] in *; lia].
    change (horner (-1) (127 :: t :: ds)) with (horner (-1) (t :: ds)). by replace (-1) with s by lia.
  - apply (Hfin 0); [|by constructor; [lia|]|lia|cbn [length] in *; lia].
    change (horner 0 (0 :: t :: ds)) with (horner 0 (t :: ds)). by replace 0 with s by lia.
  - apply (Hfin s); [done|done|lia|cbn [length] in *; lia].
Qed.

(** ** The loader and the interpreter agree on the size of instructions *)

(** What the interpreter takes for an instruction, with the bytes it reads without
    advancing: the number of arguments of [raise] and the depth of an unwinding jump. *)
Definition instr_end (i : instr) : nat :=
  match i_op i with
  | Some MP_BC_RAISE_VARARGS | Some MP_BC_UNWIND_JUMP => S (i_next i)
  | _ => i_next i
  end.

Definition format_of (k : operand) : Z :=
  match k with
  | OpUint | OpInt | OpUintByte | OpByte => MP_OPCODE_VAR_UINT
  | OpQstr => MP_OPCODE_QSTR
  | OpUlabel | OpSlabel | OpSlabelByte => MP_OPCODE_OFFSET
  | OpNone | OpMulti | OpPeek => MP_OPCODE_BYTE
  end.

Definition table_format (b : Z) : option Z :=
  (fun row => Z.land (Z.shiftr row (2 * Z.land b 3)) 3) <$> opcode_format_table !! Z.to_nat (Z.shiftr b 2).

Definition format_row_ok (b : Z) : bool :=
  match entry_table b with
  | Some o => bool_decide (table_format b = Some (format_of (operand_of o)))
              && bool_decide ((b =? opcode MP_BC_RAISE_VARARGS) = bool_decide (o = MP_BC_RAISE_VARARGS)
                 /\ (b =? opcode MP_BC_MAKE_CLOSURE) = bool_decide (o = MP_BC_MAKE_CLOSURE)
                 /\ (b =? opcode MP_BC_MAKE_CLOSURE_DEFARGS) = bool_decide (o = MP_BC_MAKE_CLOSURE_DEFARGS))
  | None => true
  end.

Lemma forallb_seqZ (P : Z -> bool) n x : forallb P (seqZ 0 n) = true -> 0 <= x < n -> P x = true.
Proof.
  intros H Hx. apply Is_true_true_2, forallb_True in H.
  apply Is_true_true, (proj1 (list.Forall_forall _ _) H), elem_of_seqZ. lia.
Qed.

Lemma format_row b : 0 <= b < 256 -> format_row_ok b = true.
Proof. apply (forallb_seqZ format_row_ok 256). vm_compute. reflexivity. Qed.

Lemma decode_uint_consumed p : forall acc r n, decode_uint acc p = Some (r, n) -> decode_uint_skip p = Some n.
Proof.
  induction p as [|val p IH]; intros acc r n; cbn [decode_uint decode_uint_skip]; [done|].
  destruct (Z.land val 128 =? 0); [by intros [= _ <-]|].
  destruct (decode_uint _ p) as [[r' n']|] eqn:E; cbn [mbind option_bind]; [|done]. intros [= _ <-]. by rewrite (IH _ _ _ E).
Qed.

Lemma decode_int_consumed p : forall acc r n, decode_int acc p = Some (r, n) -> decode_uint_skip p = Some n.
Proof.
  induction p as [|val p IH]; intros acc r n; cbn [decode_int decode_uint_skip]; [done|].
  destruct (Z.land val 128 =? 0); [by intros [= _ <-]|].
  destruct (decode_int _ p) as [[r' n']|] eqn:E; cbn [mbind option_bind]; [|done]. intros [= _ <-]. by rewrite (IH _ _ _ E).
Qed.

Lemma mp_decode_uint_consumed code ip r n : mp_decode_uint code ip = Some (r, n) -> mp_decode_uint_skip code ip = Some n.
Proof.
  unfold mp_decode_uint, mp_decode_uint_skip. destruct (decode_uint 0 _) as [[r' k]|] eqn:E; [|done]. cbn [mbind option_bind].
  intros [= _ <-]. by rewrite (decode_uint_consumed _ _ _ _ E).
Qed.

Lemma vm_decode_int_consumed code ip r n : vm_decode_int code ip = Some (r, n) -> mp_decode_uint_skip code ip = Some n.
Proof.
  unfold vm_decode_int, mp_decode_uint_skip. destruct (code !! ip); [|done]. cbn [mbind option_bind].
  destruct (decode_int _ _) as [[r' k]|] eqn:E; [|done]. cbn [mbind option_bind].
  intros [= _ <-]. by rewrite (decode_int_consumed _ _ _ _ E).
Qed.

Lemma instr_end_plain o a b n : o <> MP_BC_RAISE_VARARGS -> o <> MP_BC_UNWIND_JUMP -> instr_end (MkInstr (Some o) a b n) = n.
Proof. by destruct o. Qed.

Lemma decode_label_next code ip r ip' :
  decode_ulabel code ip = Some (r, ip') \/ decode_slabel code ip = Some (r, ip') -> ip' = (ip + 2)%nat.
Proof. unfold decode_ulabel, decode_slabel. by destruct (decode_u16 code ip) as [u|]; intros [[= _ <-]|[= _ <-]]. Qed.

(** C38 The table of formats, from which code in files is read and written, gives
    every instruction that the interpreter knows the size that the interpreter
    decodes, if the operand of a slice is one byte, except unwinding jumps: their
    depth is left over and taken for the next instruction. *)
Theorem mp_opcode_format_correct code pc i o :
  Forall (fun b => 0 <= b < 256) code -> decode code pc = Some i -> i_op i = Some o ->
  (o = MP_BC_BUILD_SLICE -> i_a i < 128) ->
  mp_opcode_format code pc true
  = Some (format_of (operand_of o), (instr_end i - pc - (if bool_decide (o = MP_BC_UNWIND_JUMP) then 1 else 0))%nat).
Proof.
  intros Hcode Hd Ho Hslice. unfold decode in Hd. unfold mp_opcode_format. destruct (code !! pc) as [b|] eqn:Hb; [|done].
  cbn [mbind option_bind] in *. pose proof (format_row b (list.Forall_lookup_1 _ _ _ _ Hcode Hb)) as Hrow.
  unfold format_row_ok in Hrow. destruct (entry_table b) as [o'|] eqn:He; [|by injection Hd as <-].
  apply andb_prop in Hrow as [Hf Hx]. apply bool_decide_eq_true in Hf, Hx as (H1 & H2 & H3).
  unfold table_format in Hf. destruct (opcode_format_table !! _) as [row|]; [|done]. injection Hf as Hf.
  cbn [mbind option_bind]. rewrite Hf, H1, H2, H3.
  destruct (operand_of o') eqn:Hk.
  all: try match type of Hd with (?x ≫= _) = Some _ => destruct x as [r|] eqn:Hr; [|done]; cbn [mbind option_bind] in Hd end.
  all: try destruct r as [r ip].
  all: try match type of Hd with (?x ≫= _) = Some _ => destruct x as [r2|] eqn:Hr2; [|done]; cbn [mbind option_bind] in Hd end.
  all: injection Hd as <-; cbn [i_op i_a] in Ho, Hslice; injection Ho as <-; rewrite Hk.
  all: try rewrite (mp_decode_uint_consumed _ _ _ _ Hr); try rewrite (vm_decode_int_consumed _ _ _ _ Hr).
  all: repeat (rewrite bool_decide_eq_false_2 by (intros ->; discriminate Hk)); try rewrite instr_end_plain by (intros ->; discriminate Hk).
  all: cbn -[Nat.sub Nat.add].
  all: try (do 2 f_equal; lia).
  - rewrite (decode_label_next _ _ _ _ (or_introl Hr)). do 2 f_equal; lia.
  - rewrite (decode_label_next _ _ _ _ (or_intror Hr)). do 2 f_equal; lia.
  - assert (o' = MP_BC_UNWIND_JUMP) as -> by by destruct o'. rewrite (decode_label_next _ _ _ _ (or_intror Hr)).
    rewrite bool_decide_eq_true_2 by done. do 2 f_equal; lia.
  - assert (o' = MP_BC_MAKE_CLOSURE \/ o' = MP_BC_MAKE_CLOSURE_DEFARGS) as [-> | ->] by (destruct o'; auto; done);
      (repeat (case_bool_decide; try done); cbn -[Nat.sub Nat.add]; do 2 f_equal; lia).
  - assert (o' = MP_BC_BUILD_SLICE) as -> by by destruct o'. unfold mp_decode_uint_skip. rewrite (drop_S _ r) by done.
    cbn [decode_uint_skip]. rewrite land_128_small by (pose proof (list.Forall_lookup_1 _ _ _ _ Hcode Hr); specialize (Hslice eq_refl); simpl in *; lia).
    repeat (case_bool_decide; try done); cbn -[Nat.sub Nat.add]; do 2 f_equal; lia.
  - assert (o' = MP_BC_RAISE_VARARGS) as -> by by destruct o'.
    repeat (case_bool_decide; try done); cbn -[Nat.sub Nat.add]; do 2 f_equal; lia.
Qed.

(** Here [UNWIND_JUMP] over one block, which the loader takes to be three bytes long. *)
Lemma mp_opcode_format_correct_witness : mp_opcode_format [0x46; 5; 0x80; 0x81; 0x41] 0 true = Some (MP_OPCODE_OFFSET, 3%nat).
Proof.
  apply (mp_opcode_format_correct [0x46; 5; 0x80; 0x81; 0x41] 0 (MkInstr (Some MP_BC_UNWIND_JUMP) 8 0x81 3) MP_BC_UNWIND_JUMP);
    [by repeat (apply list.Forall_cons; split; [lia|])|by vm_compute|done|discriminate].
Defined.

(** ** Line numbers *)

(** An entry of the table skips bytes, then lines: five bits of bytes and two of
    lines, or four and eleven in two bytes. *)
Fixpoint emit_write_code_info_bytes_lines (fuel : nat) (bytes_to_skip lines_to_skip : Z) : option (list Z) :=
  if (0 <? bytes_to_skip) || (0 <? lines_to_skip) then
    match fuel with
    | O => None
    | S fuel =>
        let '(b, l, e) :=
          if (lines_to_skip <=? 6) || (0xf <? bytes_to_skip) then
            let b := Z.min bytes_to_skip 0x1f in
            let l := if b <? bytes_to_skip then 0 else Z.min lines_to_skip 3 in
            (b, l, [Z.lor b (Z.shiftl l 5)])
          else
            let b := Z.min bytes_to_skip 0xf in
            let l := Z.min lines_to_skip 0x7ff in
            (b, l, [Z.lor (Z.lor 0x80 b) (Z.land (Z.shiftr l 4) 0x70); wrap 8 l]) in
        es ← emit_write_code_info_bytes_lines fuel (bytes_to_skip - b) (lines_to_skip - l); Some (e ++ es)
    end
  else Some [].

(** The loop of the handler of exceptions, on the table [ci]. *)
Fixpoint find_source_line (ci : list Z) (bc source_line : Z) : option Z :=
  match ci with
  | [] => None
  | c :: ci =>
      if c =? 0 then Some source_line
      else if Z.land c 0x80 =? 0 then
        if Z.land c 0x1f <=? bc then find_source_line ci (bc - Z.land c 0x1f) (source_line + Z.shiftr c 5) else Some source_line
      else match ci with
           | [] => None
           | c1 :: ci =>
               let b := Z.land c 0xf in
               let l := Z.lor (Z.land (Z.shiftl c 4) 0x700) c1 in
               if b <=? bc then find_source_line ci (bc - b) (source_line + l) else Some source_line
           end
  end.

Definition short_entry_ok (b l : Z) : bool :=
  let c := Z.lor b (Z.shiftl l 5) in
  Bool.eqb (c =? 0) ((b =? 0) && (l =? 0)) && (Z.land c 0x80 =? 0) && (Z.land c 0x1f =? b) && (Z.shiftr c 5 =? l).
Definition long_entry_ok (b l : Z) : bool :=
  let c := Z.lor (Z.lor 0x80 b) (Z.land (Z.shiftr l 4) 0x70) in
  negb (c =? 0) && negb (Z.land c 0x80 =? 0) && (Z.land c 0xf =? b) && (Z.lor (Z.land (Z.shiftl c 4) 0x700) (wrap 8 l) =? l).

Lemma short_entry b l : 0 <= b < 32 -> 0 <= l < 4 -> short_entry_ok b l = true.
Proof.
  intros Hb Hl. apply (forallb_seqZ (short_entry_ok b) 4); [|done].
  apply (forallb_seqZ (fun b => forallb (short_entry_ok b) (seqZ 0 4)) 32); [vm_compute; reflexivity|done].
Qed.

Lemma long_entry b l : 0 <= b < 16 -> 0 <= l < 2048 -> long_entry_ok b l = true.
Proof.
  intros Hb Hl. apply (forallb_seqZ (long_entry_ok b) 2048); [|done].
  apply (forallb_seqZ (fun b => forallb (long_entry_ok b) (seqZ 0 2048)) 16); [vm_compute; reflexivity|done].
Qed.

(** An entry moves on by its bytes and lines, or the place is before its bytes. *)
Lemma find_short b l rest bc line : 0 <= b < 32 -> 0 <= l < 4 -> b <> 0 \/ l <> 0 ->
  find_source_line (Z.lor b (Z.shiftl l 5) :: rest) bc line
  = if b <=? bc then find_source_line rest (bc - b) (line + l) else Some line.
Proof.
  intros Hb Hl Hne. pose proof (short_entry b l Hb Hl) as H. unfold short_entry_ok in H. cbn [find_source_line].
  set (c := Z.lor b (Z.shiftl l 5)) in *. rewrite !andb_true_iff, !Z.eqb_eq in H. destruct H as [[[H0 H1] H2] H3].
  rewrite H1, H2, H3. replace (c =? 0) with false; [done|]. apply eqb_prop in H0. rewrite H0.
  destruct (Z.eqb_spec b 0), (Z.eqb_spec l 0); try done. lia.
Qed.

Lemma find_long b l rest bc line : 0 <= b < 16 -> 0 <= l < 2048 ->
  find_source_line (Z.lor (Z.lor 0x80 b) (Z.land (Z.shiftr l 4) 0x70) :: wrap 8 l :: rest) bc line
  = if b <=? bc then find_source_line rest (bc - b) (line + l) else Some line.
Proof.
  intros Hb Hl. pose proof (long_entry b l Hb Hl) as H. unfold long_entry_ok in H. cbn [find_source_line].
  set (c := Z.lor _ (Z.land _ _)) in *. rewrite !andb_true_iff, !negb_true_iff, !Z.eqb_eq in H. destruct H as [[[-> ->] ->] ->]. done.
Qed.

Lemma bytes_lines_spec fuel : forall b l, 0 <= b -> 0 <= l -> b + l <= Z.of_nat fuel ->
  exists es, emit_write_code_info_bytes_lines fuel b l = Some es
  /\ forall rest bc line, 0 <= bc -> find_source_line (es ++ rest) bc line
       = if b <=? bc then find_source_line rest (bc - b) (line + l) else Some line.
Proof.
  induction fuel as [|fuel IH]; intros b l Hb Hl Hf.
  { assert (b = 0 /\ l = 0) as [-> ->] by lia. exists []. split; [done|]. intros rest bc line Hbc.
    replace (0 <=? bc) with true by lia. cbn [app]. by rewrite Z.sub_0_r, Z.add_0_r. }
  cbn [emit_write_code_info_bytes_lines]. destruct ((0 <? b) || (0 <? l)) eqn:Hpos.
  2: { assert (b = 0 /\ l = 0) as [-> ->] by lia. exists []. split; [done|]. intros rest bc line Hbc.
       replace (0 <=? bc) with true by lia. cbn [app]. by rewrite Z.sub_0_r, Z.add_0_r. }
  destruct ((l <=? 6) || (0xf <? b)) eqn:Hshort.
  - set (b1 := Z.min b 0x1f). set (l1 := if b1 <? b then 0 else Z.min l 3).
    assert (Hl1 : 0 <= l1 < 4 /\ l1 <= l /\ (b1 < b -> l1 = 0) /\ (b1 < b \/ l1 = Z.min l 3)) by (unfold l1; destruct (Z.ltb_spec b1 b); lia).
    destruct (IH (b - b1) (l - l1)) as (es & -> & Hes); [lia..|]. eexists. split; [reflexivity|]. intros rest bc line Hbc.
    cbn [app]. rewrite find_short by lia. destruct (Z.leb_spec b1 bc), (Z.leb_spec b bc); try lia; [| |done].
    + rewrite Hes by lia. replace (b - b1 <=? bc - b1) with true by lia. f_equal; lia.
    + rewrite Hes by lia. replace (b - b1 <=? bc - b1) with false by lia. f_equal. lia.
  - set (b1 := Z.min b 0xf). set (l1 := Z.min l 0x7ff).
    destruct (IH (b - b1) (l - l1)) as (es & -> & Hes); [lia..|]. eexists. split; [reflexivity|]. intros rest bc line Hbc.
    cbn [app]. rewrite find_long by lia. assert (b1 = b) as -> by lia. destruct (Z.leb_spec b bc); [|done].
    rewrite Hes by lia. replace (b - b <=? bc - b) with true by lia. f_equal; lia.
Qed.

(** The table that calls of [mp_emit_bc_set_source_line] write: each gives the line of
    the code at an offset and after; a line that is not greater than the last is ignored. *)
Fixpoint line_table (last_offset last_line : Z) (marks : list (Z * Z)) : option (list Z) :=
  match marks with
  | [] => Some [0]
  | (offset, line) :: marks =>
      if last_line <? line then
        es ← emit_write_code_info_bytes_lines (Z.to_nat (offset - last_offset + (line - last_line))) (offset - last_offset) (line - last_line);
        rest ← line_table offset line marks; Some (es ++ rest)
      else line_table last_offset last_line marks
  end.

(** The line of a place: the greatest one given to the code up to it. *)
Definition line_at (marks : list (Z * Z)) (first bc : Z) : Z :=
  foldl (fun l '(offset, line) => if offset <=? bc then Z.max l line else l) first marks.

Lemma line_at_after marks : forall first bc, Forall (fun '(offset, _) => bc < offset) marks -> line_at marks first bc = first.
Proof.
  induction marks as [|[offset line] marks IH]; intros first bc H; [done|]. inversion H; subst. unfold line_at. cbn [foldl].
  replace (offset <=? bc) with false by lia. by apply IH.
Qed.

Lemma line_table_spec marks : forall last_offset last_line, 0 <= last_offset ->
  StronglySorted (fun a b => fst a <= fst b) marks -> Forall (fun '(offset, _) => last_offset <= offset) marks ->
  exists table, line_table last_offset last_line marks = Some table
  /\ forall bc, last_offset <= bc -> find_source_line table (bc - last_offset) last_line = Some (line_at marks last_line bc).
Proof.
  induction marks as [|[offset line] marks IH]; intros lo ll Hlo Hs Hall; cbn [line_table]; [by eexists|].
  apply StronglySorted_inv in Hs as [Hs Hle]. inversion_clear Hall as [|x xs Ho Hall'].
  assert (Hle' : Forall (fun '(o, _) => offset <= o) marks) by (eapply list.Forall_impl; [exact Hle|by intros [o l]]).
  destruct (Z.ltb_spec ll line).
  - destruct (bytes_lines_spec (Z.to_nat (offset - lo + (line - ll))) (offset - lo) (line - ll)) as (es & -> & Hes); [lia..|].
    destruct (IH offset line) as (table & -> & Ht); [lia|done|done|]. eexists. split; [reflexivity|]. intros bc Hbc.
    cbn [mbind option_bind]. rewrite Hes by lia. unfold line_at. cbn [foldl].
    destruct (Z.leb_spec (offset - lo) (bc - lo)), (Z.leb_spec offset bc); try lia.
    + replace (bc - lo - (offset - lo)) with (bc - offset) by lia. replace (ll + (line - ll)) with line by lia.
      rewrite Ht by lia. unfold line_at. by replace (Z.max ll line) with line by lia.
    + f_equal. symmetry. apply line_at_after. eapply list.Forall_impl; [exact Hle'|]. intros [o l'] Hlt. lia.
  - destruct (IH lo ll) as (table & -> & Ht); [done..|]. eexists. split; [reflexivity|]. intros bc Hbc. rewrite Ht by lia.
    unfold line_at. cbn [foldl]. f_equal. f_equal. destruct (offset <=? bc); lia.
Qed.
