(* ===== verification/Vm.v ===== *)
(** The interpreter of byte code, [py/vm.c].

    The values of a function are one array, [code_state->state]: the operand stack
    grows from its start, the local variables are at its end in reverse order, and
    [sp] is the index of the top.  Every access is checked against the array, and
    the stack of exception blocks against its size; what C does outside of them is
    undefined, [None].  The functions of the runtime that the interpreter calls
    are the class [Runtime]: a call returns objects or an exception and may change
    the world.  The model is that of the ESP32: computed gotos, no stackless calls,
    no caching of lookups. *)
From S2P Require Import Prelude Bytecode.

(** ** Objects and the runtime *)

(** The words on the stack.  Exceptions are instances of exception classes; a raw
    word is an address of code or a number that is not an object. *)
Inductive obj := MP_OBJ_NULL | mp_const_none | mp_const_false | mp_const_true
  | SmallInt (z : Z) | ObjQstr (q : Z) | ObjCell (c : nat) | ObjExc (e : nat) | Raw (z : Z) | ObjRef (o : nat).
#[export] Instance obj_eq_dec : EqDecision obj.
Proof. solve_decision. Defined.

Definition MP_OBJ_SENTINEL : obj := Raw 4.
Definition MP_OBJ_NEW_SMALL_INT (z : Z) : obj := SmallInt (swrap 31 z).
Definition mp_obj_is_small_int (o : obj) : bool := match o with SmallInt _ => true | _ => false end.

Inductive exc_kind := NameError | RuntimeError_reraise | NotImplementedError_bytecode | RuntimeError_generator
  | fun_pos_args_mismatch (expected given : Z) | multiple_values (name : obj) | unexpected_keyword (name : obj)
  | missing_positional (i : Z) | missing_keyword (name : obj) | missing_keyword_only.

(** Calls of the runtime that return objects. *)
Inductive request :=
  | mp_load_name (q : Z) | mp_load_global (q : Z) | mp_load_attr (o : obj) (q : Z) | mp_load_method (o : obj) (q : Z)
  | mp_load_super_method (q : Z) (type self : obj) | mp_load_build_class | mp_obj_subscr (base index value : obj)
  | mp_store_name (q : Z) (v : obj) | mp_store_global (q : Z) (v : obj) | mp_store_attr (o : obj) (q : Z) (v : obj)
  | mp_delete_name (q : Z) | mp_delete_global (q : Z) | mp_getiter (o : obj)
  | mp_call_method_n_kw (n_args n_kw : Z) (args : list obj) | mp_call_function_n_kw (f : obj) (n_args n_kw : Z) (args : list obj)
  | mp_call_method_n_kw_var (have_self : bool) (unum : Z) (args : list obj)
  | mp_obj_new_tuple (items : list obj) | mp_obj_new_list (items : list obj) | mp_obj_new_set (items : list obj)
  | mp_obj_new_dict (n : Z) | mp_obj_new_slice (start stop step : obj)
  | mp_obj_dict_store (d k v : obj) | mp_obj_list_append (l v : obj) | mp_obj_set_store (s v : obj)
  | mp_unpack_sequence (o : obj) (num : Z) | mp_unpack_ex (o : obj) (num : Z)
  | mp_make_function_from_raw_code (rc def_args def_kw_args : obj) | mp_make_closure_from_raw_code (rc : obj) (n : Z) (args : list obj)
  | mp_import_name (q : Z) (fromlist level : obj) | mp_import_from (m : obj) (q : Z) | mp_import_all (m : obj)
  | mp_unary_op (op : Z) (o : obj) | mp_binary_op (op : Z) (lhs rhs : obj).

(** How many objects a call leaves. *)
Definition results (r : request) : nat :=
  match r with
  | mp_load_method _ _ | mp_load_super_method _ _ _ => 2
  | mp_store_name _ _ | mp_store_global _ _ | mp_store_attr _ _ _ | mp_delete_name _ | mp_delete_global _
  | mp_obj_dict_store _ _ _ | mp_obj_list_append _ _ | mp_obj_set_store _ _ | mp_import_all _ => 0
  | mp_unpack_sequence _ num => Z.to_nat num
  | mp_unpack_ex _ num => Z.to_nat (Z.land num 255 + Z.land (Z.shiftr num 8) 255 + 1)
  | _ => 1
  end.

Inductive rres (A : Type) := RVal (a : A) | RExc (e : nat).
Arguments RVal {A} _.
Arguments RExc {A} _.

(** The slots of an iterator that is kept on the stack. *)
Definition MP_OBJ_ITER_BUF_NSLOTS : nat := 4.

(** The result of resuming a generator, or an exception that is raised past [mp_resume]. *)
Inductive resumed := ResumeYield (o : obj) | ResumeNormal (o : option obj) | ResumeException (e : nat) | ResumeRaise (e : nat).

Class Runtime (W : Type) := {
  rt_call : request -> W -> rres (list obj) * W;
  mp_obj_is_true : obj -> W -> rres bool * W;
  mp_obj_cell_get : nat -> W -> obj;
  mp_obj_cell_set : nat -> obj -> W -> W;
  mp_obj_new_cell : obj -> W -> rres nat * W;
  mp_const_empty_tuple : obj;
  (** a name in the dictionary of defaults of a function, which is never changed *)
  kw_default_lookup : obj -> obj -> option obj;
  mp_obj_get_type : obj -> obj;
  (** an iterator object, or an iterator made in the four slots *)
  mp_getiter_buf : obj -> W -> rres (obj + list obj) * W;
  (** the next item, or none at the end, and the slots if the iterator is in them *)
  mp_iternext_allow_raise : obj + list obj -> W -> rres (option obj) * list obj * W;
  mp_resume : obj -> obj -> option obj -> W -> resumed * W;
  mp_make_raise_obj : obj -> W -> nat * W;
  mp_obj_new_exception_msg : exc_kind -> W -> nat * W;
  mp_obj_exception_get_value : nat -> W -> obj;
  is_StopIteration : nat -> bool;
  (** [mp_obj_exception_match(o, GeneratorExit)] *)
  is_GeneratorExit : obj -> bool;
  mp_const_GeneratorExit_obj : nat;
  mp_obj_exception_add_traceback : nat -> Z -> Z -> Z -> W -> W;
  (** the pending exception after a jump, once the pending callbacks have run *)
  mp_handle_pending : W -> option nat * W;
  mp_globals_get : W -> obj;
  mp_globals_set : obj -> W -> W }.

Class RuntimeLaws {W} (R : Runtime W) := {
  rt_call_results r w l w' : rt_call r w = (RVal l, w') -> length l = results r;
  getiter_slots o w buf w' : mp_getiter_buf o w = (RVal (inr buf), w') -> length buf = MP_OBJ_ITER_BUF_NSLOTS;
  iternext_slots i w r buf w' : mp_iternext_allow_raise i w = (r, buf, w') ->
    match i with inl _ => True | inr b => length buf = length b end;
  new_exception_class k w e w' : mp_obj_new_exception_msg k w = (e, w') -> is_StopIteration e = false;
  globals_not_null w : mp_globals_get w <> MP_OBJ_NULL }.

(** ** The state of a call *)

(** An exception block: where its handler is, the top of the stack when it was set
    up, whether it is a [finally] or [with] block, the exception it has caught. *)
Record mp_exc_stack_t := MkBlock { handler : nat; val_sp : Z; is_finally : bool; prev_exc : option nat }.

(** The code begins with the sizes of the two stacks; [extra_args] are the defaults of
    the last positional parameters, and the dictionary of those of keyword parameters. *)
Record mp_obj_fun_bc_t := MkFun { bytecode : list Z; const_table : list obj; extra_args : list obj; globals : obj }.

Definition n_exc_stack (f : mp_obj_fun_bc_t) : nat :=
  match p ← mp_decode_uint_skip (bytecode f) 0; mp_decode_uint_value (bytecode f) p with Some n => Z.to_nat n | None => 0 end.

(** [v_ip], [v_sp] and [v_exc] (innermost block first) are the local variables of
    the interpreter, [v_code_ip] and [v_code_sp] their copies in the code state. *)
Record mp_code_state_t (W : Type) := MkCode {
  v_ip : nat; v_sp : Z; v_exc : list mp_exc_stack_t; v_state : list obj;
  v_code_ip : nat; v_code_sp : Z; v_inject : option obj; v_world : W }.
Arguments MkCode {W} _ _ _ _ _ _ _ _.
Arguments v_ip {W} _. Arguments v_sp {W} _. Arguments v_exc {W} _. Arguments v_state {W} _.
Arguments v_code_ip {W} _. Arguments v_code_sp {W} _. Arguments v_inject {W} _. Arguments v_world {W} _.

Inductive mp_vm_return_kind_t := MP_VM_RETURN_NORMAL | MP_VM_RETURN_YIELD | MP_VM_RETURN_EXCEPTION.

(** What a piece of the interpreter comes to: it goes on, raises an exception, or
    returns from the function. *)
Inductive vres (W A : Type) :=
  | VOk (a : A) (s : mp_code_state_t W)
  | VRaise (e : nat) (s : mp_code_state_t W)
  | VReturn (k : mp_vm_return_kind_t) (s : mp_code_state_t W).
Arguments VOk {W A} _ _.
Arguments VRaise {W A} _ _.
Arguments VReturn {W A} _ _.

Definition V (W A : Type) : Type := mp_code_state_t W -> option (vres W A).

#[export] Instance V_ret {W} : MRet (V W) := fun A a s => Some (VOk a s).
#[export] Instance V_bind {W} : MBind (V W) := fun A B f m s =>
  match m s with
  | Some (VOk a s) => f a s
  | Some (VRaise e s) => Some (VRaise e s)
  | Some (VReturn k s) => Some (VReturn k s)
  | None => None
  end.

Section Interpreter.
Context {W : Type} {R : Runtime W} (f : mp_obj_fun_bc_t).
Implicit Types s : mp_code_state_t W.

Definition vget : V W (mp_code_state_t W) := fun s => Some (VOk s s).
Definition vlift {A} (o : option A) : V W A := fun s => a ← o; Some (VOk a s).
Definition vraise {A} (e : nat) : V W A := fun s => Some (VRaise e s).
Definition vreturn {A} (k : mp_vm_return_kind_t) : V W A := fun s => Some (VReturn k s).

Definition set_ip (ip : nat) : V W unit := fun s =>
  Some (VOk tt (MkCode ip (v_sp s) (v_exc s) (v_state s) (v_code_ip s) (v_code_sp s) (v_inject s) (v_world s))).
Definition set_sp (sp : Z) : V W unit := fun s =>
  Some (VOk tt (MkCode (v_ip s) sp (v_exc s) (v_state s) (v_code_ip s) (v_code_sp s) (v_inject s) (v_world s))).
Definition set_exc (exc : list mp_exc_stack_t) : V W unit := fun s =>
  Some (VOk tt (MkCode (v_ip s) (v_sp s) exc (v_state s) (v_code_ip s) (v_code_sp s) (v_inject s) (v_world s))).
Definition set_state (l : list obj) : V W unit := fun s =>
  Some (VOk tt (MkCode (v_ip s) (v_sp s) (v_exc s) l (v_code_ip s) (v_code_sp s) (v_inject s) (v_world s))).
Definition set_code (ip : nat) (sp : Z) : V W unit := fun s =>
  Some (VOk tt (MkCode (v_ip s) (v_sp s) (v_exc s) (v_state s) ip sp (v_inject s) (v_world s))).
Definition set_inject (e : option obj) : V W unit := fun s =>
  Some (VOk tt (MkCode (v_ip s) (v_sp s) (v_exc s) (v_state s) (v_code_ip s) (v_code_sp s) e (v_world s))).
Definition set_world (w : W) : V W unit := fun s =>
  Some (VOk tt (MkCode (v_ip s) (v_sp s) (v_exc s) (v_state s) (v_code_ip s) (v_code_sp s) (v_inject s) w)).

(** The slot at index [i] of the array. *)
Definition rd (i : Z) : V W obj := s ← vget; if i <? 0 then vlift None else vlift (v_state s !! Z.to_nat i).
Definition wr (i : Z) (o : obj) : V W unit :=
  s ← vget;
  if (0 <=? i) && (i <? Z.of_nat (length (v_state s))) then set_state (<[Z.to_nat i := o]> (v_state s)) else vlift None.

Definition sp_at (k : Z) : V W Z := s ← vget; mret (v_sp s + k).
Definition PUSH (o : obj) : V W unit := sp ← sp_at 1; set_sp sp;; wr sp o.
Definition POP : V W obj := sp ← sp_at 0; o ← rd sp; set_sp (sp - 1);; mret o.
Definition TOP : V W obj := sp ← sp_at 0; rd sp.
Definition SET_TOP (o : obj) : V W unit := sp ← sp_at 0; wr sp o.
Definition move_sp (k : Z) : V W unit := sp ← sp_at k; set_sp sp.
(** [sp[k]] *)
Definition peek (k : Z) : V W obj := sp ← sp_at k; rd sp.
Definition poke (k : Z) (o : obj) : V W unit := sp ← sp_at k; wr sp o.

(** [n] slots from [sp[k]] on. *)
Fixpoint peek_range (k : Z) (n : nat) : V W (list obj) :=
  match n with O => mret [] | S n => o ← peek k; l ← peek_range (k + 1) n; mret (o :: l) end.
Fixpoint poke_range (k : Z) (l : list obj) : V W unit :=
  match l with [] => mret tt | o :: l => poke k o;; poke_range (k + 1) l end.

(** [fastn[-n]] *)
Definition local_index (n : Z) : V W Z := s ← vget; mret (Z.of_nat (length (v_state s)) - 1 - n).
Definition load_local (n : Z) : V W obj := i ← local_index n; rd i.
Definition store_local (n : Z) (o : obj) : V W unit := i ← local_index n; wr i o.

Definition call (r : request) : V W (list obj) :=
  s ← vget;
  match rt_call r (v_world s) with
  | (RVal l, w) => set_world w;; mret l
  | (RExc e, w) => set_world w;; vraise e
  end.
Definition call1 (r : request) : V W obj := l ← call r; vlift (head l).
Definition is_true (o : obj) : V W bool :=
  s ← vget;
  match mp_obj_is_true o (v_world s) with
  | (RVal b, w) => set_world w;; mret b
  | (RExc e, w) => set_world w;; vraise e
  end.
Definition make_raise (o : obj) : V W nat :=
  s ← vget; let '(e, w) := mp_make_raise_obj o (v_world s) in set_world w;; mret e.
Definition new_exception (k : exc_kind) : V W nat :=
  s ← vget; let '(e, w) := mp_obj_new_exception_msg k (v_world s) in set_world w;; mret e.
Definition exception_value (e : nat) : V W obj := s ← vget; mret (mp_obj_exception_get_value e (v_world s)).

(** A cell is the object in a local variable that other functions share. *)
Definition cell_of (o : obj) : V W nat := match o with ObjCell c => mret c | _ => vlift None end.
Definition cell_get (o : obj) : V W obj := c ← cell_of o; s ← vget; mret (mp_obj_cell_get c (v_world s)).
Definition cell_set (o v : obj) : V W unit := c ← cell_of o; s ← vget; set_world (mp_obj_cell_set c v (v_world s)).

(** [code_state->fun_bc->const_table[unum]] *)
Definition constant (unum : Z) : V W obj := vlift (const_table f !! Z.to_nat unum).

Definition jump (target : Z) : V W unit := if target <? 0 then vlift None else set_ip (Z.to_nat target).

(** [pending_exception_check] *)
Definition dispatch_with_pend_exc_check : V W unit :=
  s ← vget;
  match mp_handle_pending (v_world s) with
  | (Some e, w) => set_world w;; vraise e
  | (None, w) => set_world w
  end.

Definition PUSH_EXC_BLOCK (with_or_finally : bool) (target : Z) : V W unit :=
  s ← vget;
  if (n_exc_stack f <=? length (v_exc s))%nat || (target <? 0) then vlift None
  else set_exc (MkBlock (Z.to_nat target) (v_sp s) with_or_finally None :: v_exc s).
Definition POP_EXC_BLOCK : V W unit :=
  s ← vget; match v_exc s with [] => vlift None | _ :: exc => set_exc exc end.

(** ** Loads, stores and deletes *)

(** [load_check] *)
Definition load_check (obj_shared : obj) : V W unit :=
  if decide (obj_shared = MP_OBJ_NULL) then e ← new_exception NameError; vraise e else PUSH obj_shared.

Definition MP_QSTR___exit__ : Z := 1.
Definition MP_QSTR___enter__ : Z := 2.

(** [mp_load_method(o, q, &sp[k])] clears both slots first. *)
Definition load_method_at (o : obj) (q k : Z) : V W unit :=
  poke k MP_OBJ_NULL;; poke (k + 1) MP_OBJ_NULL;; l ← call (mp_load_method o q); poke_range k l.

Definition exec_load (o : opc) (a : Z) : V W unit :=
  match o with
  | MP_BC_LOAD_CONST_FALSE => PUSH mp_const_false
  | MP_BC_LOAD_CONST_NONE => PUSH mp_const_none
  | MP_BC_LOAD_CONST_TRUE => PUSH mp_const_true
  | MP_BC_LOAD_CONST_SMALL_INT => PUSH (MP_OBJ_NEW_SMALL_INT a)
  | MP_BC_LOAD_CONST_STRING => PUSH (ObjQstr a)
  | MP_BC_LOAD_CONST_OBJ => obj ← constant a; PUSH obj
  | MP_BC_LOAD_NULL => PUSH MP_OBJ_NULL
  | MP_BC_LOAD_FAST_N => obj_shared ← load_local a; load_check obj_shared
  | MP_BC_LOAD_DEREF => cell ← load_local a; obj_shared ← cell_get cell; load_check obj_shared
  | MP_BC_LOAD_NAME => v ← call1 (mp_load_name a); PUSH v
  | MP_BC_LOAD_GLOBAL => v ← call1 (mp_load_global a); PUSH v
  | MP_BC_LOAD_ATTR => top ← TOP; v ← call1 (mp_load_attr top a); SET_TOP v
  | MP_BC_LOAD_METHOD => top ← TOP; load_method_at top a 0;; move_sp 1
  | MP_BC_LOAD_SUPER_METHOD =>
      move_sp (-1);; type ← peek 0; self ← peek 1;
      poke (-1) MP_OBJ_NULL;; poke 0 MP_OBJ_NULL;;
      l ← call (mp_load_super_method a type self); poke_range (-1) l
  | MP_BC_LOAD_BUILD_CLASS => v ← call1 mp_load_build_class; PUSH v
  | MP_BC_LOAD_SUBSCR => index ← POP; top ← TOP; v ← call1 (mp_obj_subscr top index MP_OBJ_SENTINEL); SET_TOP v
  | _ => vlift None
  end.

Definition exec_store (o : opc) (a : Z) : V W unit :=
  match o with
  | MP_BC_STORE_FAST_N => v ← POP; store_local a v
  | MP_BC_STORE_DEREF => v ← POP; cell ← load_local a; cell_set cell v
  | MP_BC_STORE_NAME => v ← POP; call (mp_store_name a v);; mret tt
  | MP_BC_STORE_GLOBAL => v ← POP; call (mp_store_global a v);; mret tt
  | MP_BC_STORE_ATTR => base ← peek 0; v ← peek (-1); call (mp_store_attr base a v);; move_sp (-2)
  | MP_BC_STORE_SUBSCR =>
      base ← peek (-1); index ← peek 0; v ← peek (-2); call (mp_obj_subscr base index v);; move_sp (-3)
  | _ => vlift None
  end.

Definition exec_delete (o : opc) (a : Z) : V W unit :=
  match o with
  | MP_BC_DELETE_FAST =>
      v ← load_local a;
      if decide (v = MP_OBJ_NULL) then e ← new_exception NameError; vraise e else store_local a MP_OBJ_NULL
  | MP_BC_DELETE_DEREF =>
      cell ← load_local a; v ← cell_get cell;
      if decide (v = MP_OBJ_NULL) then e ← new_exception NameError; vraise e else cell_set cell MP_OBJ_NULL
  | MP_BC_DELETE_NAME => call (mp_delete_name a);; mret tt
  | MP_BC_DELETE_GLOBAL => call (mp_delete_global a);; mret tt
  | _ => vlift None
  end.

Definition exec_shuffle (o : opc) : V W unit :=
  match o with
  | MP_BC_DUP_TOP => top ← TOP; PUSH top
  | MP_BC_DUP_TOP_TWO => move_sp 2;; a ← peek (-2); poke 0 a;; b ← peek (-3); poke (-1) b
  | MP_BC_POP_TOP => move_sp (-1)
  | MP_BC_ROT_TWO => top ← peek 0; x ← peek (-1); poke 0 x;; poke (-1) top
  | MP_BC_ROT_THREE => top ← peek 0; x ← peek (-1); poke 0 x;; y ← peek (-2); poke (-1) y;; poke (-2) top
  | _ => vlift None
  end.

(** ** Jumps *)

Definition exec_jump (o : opc) (target : Z) : V W unit :=
  match o with
  | MP_BC_JUMP => jump target
  | MP_BC_POP_JUMP_IF_TRUE => v ← POP; b ← is_true v; if b : bool then jump target else mret tt
  | MP_BC_POP_JUMP_IF_FALSE => v ← POP; b ← is_true v; if b : bool then mret tt else jump target
  | MP_BC_JUMP_IF_TRUE_OR_POP => v ← TOP; b ← is_true v; if b : bool then jump target else move_sp (-1)
  | MP_BC_JUMP_IF_FALSE_OR_POP => v ← TOP; b ← is_true v; if b : bool then move_sp (-1) else jump target
  | _ => vlift None
  end;; dispatch_with_pend_exc_check.

(** ** Blocks *)

Definition exec_setup_with (target : Z) : V W unit :=
  obj ← TOP;
  load_method_at obj MP_QSTR___exit__ 0;;
  load_method_at obj MP_QSTR___enter__ 2;;
  args ← peek_range 2 2;
  ret ← call1 (mp_call_method_n_kw 0 0 args);
  move_sp 1;;
  PUSH_EXC_BLOCK true target;;
  PUSH ret.

Definition exec_with_cleanup : V W unit :=
  top ← TOP;
  if decide (top = mp_const_none) then
    poke 1 mp_const_none;; poke 2 mp_const_none;; move_sp (-2);;
    args ← peek_range 0 5; call1 (mp_call_method_n_kw 3 0 args);;
    SET_TOP mp_const_none
  else if mp_obj_is_small_int top then
    data ← peek (-1); cause ← peek 0;
    poke (-1) mp_const_none;; poke 0 mp_const_none;; poke 1 mp_const_none;;
    args ← peek_range (-3) 5; call1 (mp_call_method_n_kw 3 0 args);;
    poke (-3) data;; poke (-2) cause;; move_sp (-2)
  else match top with
  | ObjExc _ =>
      poke 1 top;; poke 0 (mp_obj_get_type top);; poke 2 mp_const_none;; move_sp (-2);;
      args ← peek_range 0 5; ret_value ← call1 (mp_call_method_n_kw 3 0 args);
      b ← is_true ret_value;
      if b : bool then SET_TOP mp_const_none else (v ← peek 3; poke 0 v)
  | _ => vlift None                                     (* a failed assert *)
  end.

(** The loop of [unwind_jump]: [true] when it has gone to a handler. *)
Fixpoint unwind_loop (fuel : nat) (unum : Z) : V W (option Z) :=
  if 0 <? Z.land unum 127 then
    match fuel with
    | O => vlift None
    | S fuel =>
        let unum := unum - 1 in
        s ← vget;
        match v_exc s with
        | [] => vlift None                              (* a failed assert: reads below the stack of blocks *)
        | e :: exc =>
            if is_finally e && (v_ip s <? handler e)%nat then
              PUSH (MP_OBJ_NEW_SMALL_INT unum);; set_ip (handler e);; set_exc exc;; mret None
            else set_exc exc;; unwind_loop fuel unum
        end
    end
  else mret (Some unum).

Definition raw (o : obj) : V W Z := match o with Raw z => mret z | _ => vlift None end.

Definition unwind_jump : V W unit :=
  num ← POP; unum ← raw num;
  r ← unwind_loop 127 unum;
  match r with
  | None => mret tt                                     (* [goto dispatch_loop] *)
  | Some unum =>
      dest ← POP; ip ← raw dest; jump ip;;
      (if unum =? 0 then mret tt else move_sp (- Z.of_nat MP_OBJ_ITER_BUF_NSLOTS));;
      dispatch_with_pend_exc_check
  end.

Definition exec_unwind_jump (dest num : Z) : V W unit := PUSH (Raw dest);; PUSH (Raw num);; unwind_jump.

(** The loop of [unwind_return], on the blocks that are left. *)
Fixpoint unwind_return (exc : list mp_exc_stack_t) : V W unit :=
  match exc with
  | [] => set_exc [];; s ← vget; set_code (v_code_ip s) (v_sp s);; vreturn MP_VM_RETURN_NORMAL
  | e :: exc =>
      s ← vget;
      if is_finally e && (v_ip s <? handler e)%nat then
        ret_val ← peek 0;
        wr (val_sp e + 1) ret_val;; set_sp (val_sp e + 1);;
        PUSH (MP_OBJ_NEW_SMALL_INT (-1));;
        set_ip (handler e);; set_exc exc
      else unwind_return exc
  end.

Definition exec_return_value : V W unit := s ← vget; unwind_return (v_exc s).

Definition exec_end_finally : V W unit :=
  top ← TOP;
  match top with
  | mp_const_none => POP_EXC_BLOCK;; move_sp (-1)
  | SmallInt _ =>
      POP;;
      match top with
      | SmallInt cause => if cause <? 0 then exec_return_value else PUSH (Raw cause);; unwind_jump
      | _ => vlift None
      end
  | ObjExc e => vraise e
  | _ => vlift None                                     (* a failed assert *)
  end.

Definition exec_pop_except_jump (target : Z) : V W unit :=
  POP_EXC_BLOCK;; jump target;; dispatch_with_pend_exc_check.

(** [raise] without arguments raises the exception that the innermost block has caught. *)
Definition exec_raise_varargs (unum : Z) : V W unit :=
  (if unum =? 2 then move_sp (-1) else mret tt);;
  s ← vget;
  obj ← (if unum =? 0 then
           match list_find (fun e => is_Some (prev_exc e)) (v_exc s) with
           | Some (_, b) => e ← vlift (prev_exc b); mret (ObjExc e)
           | None => e ← new_exception RuntimeError_reraise; vraise e
           end
         else TOP);
  e ← make_raise obj; vraise e.

(** ** Iterators *)

Definition NSLOTS : Z := Z.of_nat MP_OBJ_ITER_BUF_NSLOTS.

Definition exec_get_iter_stack : V W unit :=
  obj ← TOP; move_sp (NSLOTS - 1);;
  s ← vget;
  match mp_getiter_buf obj (v_world s) with
  | (RVal (inl it), w) => set_world w;; poke (- NSLOTS + 1) MP_OBJ_NULL;; poke (- NSLOTS + 2) it
  | (RVal (inr buf), w) => set_world w;; poke_range (- NSLOTS + 1) buf
  | (RExc e, w) => set_world w;; vraise e
  end.

Definition exec_for_iter (target : Z) : V W unit :=
  s ← vget; set_code (v_code_ip s) (v_sp s);;
  first ← peek (- NSLOTS + 1);
  it ← (if decide (first = MP_OBJ_NULL) then o ← peek (- NSLOTS + 2); mret (inl o)
        else buf ← peek_range (- NSLOTS + 1) MP_OBJ_ITER_BUF_NSLOTS; mret (inr buf));
  match mp_iternext_allow_raise it (v_world s) with
  | (r, buf, w) =>
      set_world w;;
      (match it with inl _ => mret tt | inr _ => poke_range (- NSLOTS + 1) buf end);;
      match r with
      | RExc e => vraise e
      | RVal None => move_sp (- NSLOTS);; jump target
      | RVal (Some value) => PUSH value
      end
  end.

(** ** Building and taking apart *)

Definition exec_build (o : opc) (a : Z) : V W unit :=
  match o with
  | MP_BC_BUILD_TUPLE => move_sp (- (a - 1));; l ← peek_range 0 (Z.to_nat a); v ← call1 (mp_obj_new_tuple l); SET_TOP v
  | MP_BC_BUILD_LIST => move_sp (- (a - 1));; l ← peek_range 0 (Z.to_nat a); v ← call1 (mp_obj_new_list l); SET_TOP v
  | MP_BC_BUILD_SET => move_sp (- (a - 1));; l ← peek_range 0 (Z.to_nat a); v ← call1 (mp_obj_new_set l); SET_TOP v
  | MP_BC_BUILD_MAP => v ← call1 (mp_obj_new_dict a); PUSH v
  | MP_BC_STORE_MAP => move_sp (-2);; d ← peek 0; k ← peek 2; v ← peek 1; call (mp_obj_dict_store d k v);; mret tt
  | MP_BC_BUILD_SLICE =>
      step ← (if a =? 3 then POP else mret mp_const_none); stop ← POP; start ← TOP;
      v ← call1 (mp_obj_new_slice start stop step); SET_TOP v
  | MP_BC_STORE_COMP =>
      obj ← peek (- Z.shiftr a 2);
      if Z.land a 3 =? 0 then v ← peek 0; call (mp_obj_list_append obj v);; move_sp (-1)
      else if Z.land a 3 =? 1 then k ← peek 0; v ← peek (-1); call (mp_obj_dict_store obj k v);; move_sp (-2)
      else v ← peek 0; call (mp_obj_set_store obj v);; move_sp (-1)
  | MP_BC_UNPACK_SEQUENCE => v ← peek 0; l ← call (mp_unpack_sequence v a); poke_range 0 l;; move_sp (a - 1)
  | MP_BC_UNPACK_EX =>
      v ← peek 0; l ← call (mp_unpack_ex v a); poke_range 0 l;;
      move_sp (Z.land a 255 + Z.land (Z.shiftr a 8) 255)
  | _ => vlift None
  end.

(** ** Functions *)

Definition exec_make_function (o : opc) (a n_closed_over : Z) : V W unit :=
  ptr ← constant a;
  match o with
  | MP_BC_MAKE_FUNCTION => v ← call1 (mp_make_function_from_raw_code ptr MP_OBJ_NULL MP_OBJ_NULL); PUSH v
  | MP_BC_MAKE_FUNCTION_DEFARGS =>
      def_dict ← POP; top ← TOP; v ← call1 (mp_make_function_from_raw_code ptr top def_dict); SET_TOP v
  | MP_BC_MAKE_CLOSURE =>
      move_sp (- (n_closed_over - 1));; l ← peek_range 0 (Z.to_nat n_closed_over);
      v ← call1 (mp_make_closure_from_raw_code ptr n_closed_over l); SET_TOP v
  | MP_BC_MAKE_CLOSURE_DEFARGS =>
      move_sp (- (2 + n_closed_over - 1));; l ← peek_range 0 (Z.to_nat (2 + n_closed_over));
      v ← call1 (mp_make_closure_from_raw_code ptr (Z.lor 256 n_closed_over) l); SET_TOP v
  | _ => vlift None
  end.

(** The number of slots of the arguments: the low byte, and two for each of the second byte. *)
Definition arg_slots (unum : Z) : Z := Z.land unum 255 + Z.land (Z.shiftr unum 7) 0x1fe.

Definition exec_call (o : opc) (unum : Z) : V W unit :=
  let n := arg_slots unum in
  match o with
  | MP_BC_CALL_FUNCTION =>
      move_sp (- n);; fn ← peek 0; args ← peek_range 1 (Z.to_nat n);
      v ← call1 (mp_call_function_n_kw fn (Z.land unum 255) (Z.land (Z.shiftr unum 8) 255) args); SET_TOP v
  | MP_BC_CALL_FUNCTION_VAR_KW =>
      move_sp (- (n + 2));; args ← peek_range 0 (Z.to_nat (n + 3));
      v ← call1 (mp_call_method_n_kw_var false unum args); SET_TOP v
  | MP_BC_CALL_METHOD =>
      move_sp (- (n + 1));; args ← peek_range 0 (Z.to_nat (n + 2));
      v ← call1 (mp_call_method_n_kw (Z.land unum 255) (Z.land (Z.shiftr unum 8) 255) args); SET_TOP v
  | MP_BC_CALL_METHOD_VAR_KW =>
      move_sp (- (n + 3));; args ← peek_range 0 (Z.to_nat (n + 4));
      v ← call1 (mp_call_method_n_kw_var true unum args); SET_TOP v
  | _ => vlift None
  end.

(** ** Generators *)

Definition exec_yield : V W unit := s ← vget; set_code (v_ip s) (v_sp s);; vreturn MP_VM_RETURN_YIELD.

Definition generator_exit_if_needed (t_exc : option obj) : V W unit :=
  match t_exc with
  | Some t => if is_GeneratorExit t then e ← make_raise t; vraise e else mret tt
  | None => mret tt
  end.

Definition exec_yield_from : V W unit :=
  send_value ← POP;
  s ← vget; set_code (v_code_ip s) (v_sp s);;
  set_inject None;;
  gen ← TOP;
  let t_exc := v_inject s in
  let '(r, w) := mp_resume gen (match t_exc with Some _ => MP_OBJ_NULL | None => send_value end) t_exc (v_world s) in
  set_world w;;
  match r with
  | ResumeYield v => set_ip (v_ip s - 1);; PUSH v;; exec_yield
  | ResumeRaise e => vraise e
  | ResumeNormal o =>
      move_sp (-1);; PUSH (match o with Some v => v | None => mp_const_none end);;
      generator_exit_if_needed t_exc
  | ResumeException e =>
      move_sp (-1);;
      if is_StopIteration e then v ← exception_value e; PUSH v;; generator_exit_if_needed t_exc
      else vraise e
  end.

(** ** Imports and operators *)

Definition exec_import (o : opc) (a : Z) : V W unit :=
  match o with
  | MP_BC_IMPORT_NAME => obj ← POP; top ← TOP; v ← call1 (mp_import_name a obj top); SET_TOP v
  | MP_BC_IMPORT_FROM => top ← TOP; v ← call1 (mp_import_from top a); PUSH v
  | MP_BC_IMPORT_STAR => v ← POP; call (mp_import_all v);; mret tt
  | _ => vlift None
  end.

Definition exec_multi (o : opc) (n : Z) : V W unit :=
  match o with
  | MP_BC_LOAD_CONST_SMALL_INT_MULTI => PUSH (MP_OBJ_NEW_SMALL_INT (n - 16))
  | MP_BC_LOAD_FAST_MULTI => obj_shared ← load_local n; load_check obj_shared
  | MP_BC_STORE_FAST_MULTI => v ← POP; store_local n v
  | MP_BC_UNARY_OP_MULTI => top ← TOP; v ← call1 (mp_unary_op n top); SET_TOP v
  | MP_BC_BINARY_OP_MULTI => rhs ← POP; lhs ← TOP; v ← call1 (mp_binary_op n lhs rhs); SET_TOP v
  | _ => vlift None
  end.

(** A byte that is no instruction. *)
Definition exec_default : V W unit :=
  e ← new_exception NotImplementedError_bytecode; wr 0 (ObjExc e);; vreturn MP_VM_RETURN_EXCEPTION.

Definition execute (i : instr) : V W unit :=
  let a := i_a i in let b := i_b i in
  match i_op i with
  | None => exec_default
  | Some o =>
      match o with
      | MP_BC_LOAD_CONST_FALSE | MP_BC_LOAD_CONST_NONE | MP_BC_LOAD_CONST_TRUE | MP_BC_LOAD_CONST_SMALL_INT
      | MP_BC_LOAD_CONST_STRING | MP_BC_LOAD_CONST_OBJ | MP_BC_LOAD_NULL | MP_BC_LOAD_FAST_N | MP_BC_LOAD_DEREF
      | MP_BC_LOAD_NAME | MP_BC_LOAD_GLOBAL | MP_BC_LOAD_ATTR | MP_BC_LOAD_METHOD | MP_BC_LOAD_SUPER_METHOD
      | MP_BC_LOAD_BUILD_CLASS | MP_BC_LOAD_SUBSCR => exec_load o a
      | MP_BC_STORE_FAST_N | MP_BC_STORE_DEREF | MP_BC_STORE_NAME | MP_BC_STORE_GLOBAL | MP_BC_STORE_ATTR
      | MP_BC_STORE_SUBSCR => exec_store o a
      | MP_BC_DELETE_FAST | MP_BC_DELETE_DEREF | MP_BC_DELETE_NAME | MP_BC_DELETE_GLOBAL => exec_delete o a
      | MP_BC_DUP_TOP | MP_BC_DUP_TOP_TWO | MP_BC_POP_TOP | MP_BC_ROT_TWO | MP_BC_ROT_THREE => exec_shuffle o
      | MP_BC_JUMP | MP_BC_POP_JUMP_IF_TRUE | MP_BC_POP_JUMP_IF_FALSE | MP_BC_JUMP_IF_TRUE_OR_POP
      | MP_BC_JUMP_IF_FALSE_OR_POP => exec_jump o a
      | MP_BC_SETUP_WITH => exec_setup_with a
      | MP_BC_WITH_CLEANUP => exec_with_cleanup
      | MP_BC_UNWIND_JUMP => exec_unwind_jump a b
      | MP_BC_SETUP_EXCEPT => PUSH_EXC_BLOCK false a
      | MP_BC_SETUP_FINALLY => PUSH_EXC_BLOCK true a
      | MP_BC_END_FINALLY => exec_end_finally
      | MP_BC_GET_ITER => top ← TOP; v ← call1 (mp_getiter top); SET_TOP v
      | MP_BC_GET_ITER_STACK => exec_get_iter_stack
      | MP_BC_FOR_ITER => exec_for_iter a
      | MP_BC_POP_EXCEPT_JUMP => exec_pop_except_jump a
      | MP_BC_BUILD_TUPLE | MP_BC_BUILD_LIST | MP_BC_BUILD_MAP | MP_BC_STORE_MAP | MP_BC_BUILD_SET
      | MP_BC_BUILD_SLICE | MP_BC_STORE_COMP | MP_BC_UNPACK_SEQUENCE | MP_BC_UNPACK_EX => exec_build o a
      | MP_BC_RETURN_VALUE => exec_return_value
      | MP_BC_RAISE_VARARGS => exec_raise_varargs a
      | MP_BC_YIELD_VALUE => exec_yield
      | MP_BC_YIELD_FROM => exec_yield_from
      | MP_BC_MAKE_FUNCTION | MP_BC_MAKE_FUNCTION_DEFARGS | MP_BC_MAKE_CLOSURE | MP_BC_MAKE_CLOSURE_DEFARGS =>
          exec_make_function o a b
      | MP_BC_CALL_FUNCTION | MP_BC_CALL_FUNCTION_VAR_KW | MP_BC_CALL_METHOD | MP_BC_CALL_METHOD_VAR_KW => exec_call o a
      | MP_BC_IMPORT_NAME | MP_BC_IMPORT_FROM | MP_BC_IMPORT_STAR => exec_import o a
      | MP_BC_LOAD_CONST_SMALL_INT_MULTI | MP_BC_LOAD_FAST_MULTI | MP_BC_STORE_FAST_MULTI | MP_BC_UNARY_OP_MULTI
      | MP_BC_BINARY_OP_MULTI => exec_multi o a
      end
  end.

(** ** The loop and the handler of exceptions *)

Definition dispatch : V W unit :=
  s ← vget;
  set_code (v_ip s) (v_code_sp s);;                     (* [MARK_EXC_IP_GLOBAL] *)
  i ← vlift (decode (bytecode f) (v_ip s));
  set_ip (i_next i);;
  execute i.

(** The start of the outer loop: the local variables, and an exception to inject. *)
Definition outer_dispatch_loop : V W unit :=
  s ← vget;
  set_ip (v_code_ip s);; set_sp (v_code_sp s);;
  op ← vlift (bytecode f !! v_code_ip s);
  match v_inject s with
  | Some exc =>
      if op =? opcode MP_BC_YIELD_FROM then mret tt
      else set_inject None;; e ← make_raise exc; vraise e
  | None => mret tt
  end.

(** The file, line and function of a place, from the header of the code. *)
Definition traceback_of (ip : nat) : option (Z * Z * Z) :=
  p ← mp_decode_uint_skip (bytecode f) 0;
  p ← mp_decode_uint_skip (bytecode f) p;
  let p := (p + 4)%nat in
  let bc := Z.of_nat ip - Z.of_nat p in
  code_info_size ← mp_decode_uint_value (bytecode f) p;
  p ← mp_decode_uint_skip (bytecode f) p;
  let bc := wrap 32 (bc - code_info_size) in
  block_name ← decode_u16 (bytecode f) p;
  source_file ← decode_u16 (bytecode f) (p + 2);
  source_line ← find_source_line (drop (p + 4) (bytecode f)) bc 1;
  Some (source_file, source_line, block_name).

Definition add_traceback (e : nat) : V W unit :=
  if decide (e = mp_const_GeneratorExit_obj) then mret tt
  else s ← vget; '(file, line, block) ← vlift (traceback_of (v_code_ip s));
       set_world (mp_obj_exception_add_traceback e file line block (v_world s)).

(** Blocks whose handlers have begun are left. *)
Fixpoint active_blocks_dropped (ip : nat) (exc : list mp_exc_stack_t) : list mp_exc_stack_t :=
  match exc with
  | [] => []
  | b :: exc' => if (handler b <=? ip)%nat then active_blocks_dropped ip exc' else exc
  end.

Definition catch_or_propagate (e : nat) : V W unit :=
  add_traceback e;;
  s ← vget;
  match active_blocks_dropped (v_code_ip s) (v_exc s) with
  | b :: exc =>
      set_exc (MkBlock (handler b) (val_sp b) (is_finally b) (Some e) :: exc);;
      set_sp (val_sp b);; PUSH (ObjExc e);;
      set_code (handler b) (val_sp b + 1)
  | [] => set_exc [];; wr 0 (ObjExc e);; vreturn MP_VM_RETURN_EXCEPTION
  end.

Definition exception_handler (e : nat) : V W unit :=
  s ← vget;
  op ← vlift (bytecode f !! v_code_ip s);
  if is_StopIteration e && (op =? opcode MP_BC_FOR_ITER) then
    '(target, _) ← vlift (decode_ulabel (bytecode f) (S (v_code_ip s)));
    set_code (Z.to_nat target) (v_code_sp s - NSLOTS)
  else if is_StopIteration e && (op =? opcode MP_BC_YIELD_FROM) then
    v ← exception_value e; wr (v_code_sp s) v;; set_code (S (v_code_ip s)) (v_code_sp s)
  else catch_or_propagate e.

(** An instruction, and the handling of what it raises; the exception to inject
    into a generator that is resumed is raised before the first instruction. *)
Definition handle {A} (r : option (vres W A)) : option (vres W unit) :=
  match r with
  | Some (VOk _ s) => Some (VOk tt s)
  | Some (VRaise e s) => (exception_handler e;; outer_dispatch_loop) s
  | Some (VReturn k s) => Some (VReturn k s)
  | None => None
  end.

Definition vm_step (s : mp_code_state_t W) : option (vres W unit) := handle (dispatch s).
Definition vm_start (s : mp_code_state_t W) : option (vres W unit) := handle (outer_dispatch_loop s).

(** The interpreter for some number of instructions. *)
Fixpoint vm_run (n : nat) (s : mp_code_state_t W) : option (vres W unit) :=
  match n with
  | O => Some (VOk tt s)
  | S n => match vm_step s with Some (VOk _ s) => vm_run n s | r => r end
  end.

Definition mp_execute_bytecode (n : nat) (s : mp_code_state_t W) : option (vres W unit) :=
  match vm_start s with Some (VOk _ s) => vm_run n s | r => r end.
End Interpreter.
