(* ===== verification/VmSafe.v ===== *)
(** Byte code that keeps to its stacks: a checker of byte code, and the proof that
    the interpreter never leaves the operand stack or the stack of exception blocks
    of code that it accepts.

    The checker is given the shape of both stacks at each instruction, as one list:
    the slots of the operand stack and, between them, the blocks that were set up at
    that height. *)
From S2P Require Import Prelude Bytecode Vm.

(** ** Shapes *)

Inductive block_kind := BExcept | BFinally | BWith.
#[export] Instance block_kind_eq_dec : EqDecision block_kind.
Proof. solve_decision. Defined.
Definition finally_kind (k : block_kind) : bool := match k with BExcept => false | _ => true end.

Inductive shape_item :=
  | ISlot                          (** a slot with any object *)
  | IExc                           (** a slot with an exception that was caught *)
  | IBlock (k : block_kind) (h : nat)  (** a block, set up at this height, with its handler at [h] *)
  | IActive (h : nat)              (** the block of an [except] whose handler runs *)
  | IEcb (h : nat) (w : bool).     (** what the [finally] or [with] at [h], that runs, has to do at its end:
                                       [None] or an exception, with its block still there, or the value to
                                       return, or the address to jump to and the blocks to leave before;
                                       [w] when the slots of a [with] are to be cleaned up first *)
#[export] Instance shape_item_eq_dec : EqDecision shape_item.
Proof. solve_decision. Defined.

Abbreviation frame := (list shape_item).

Definition slots_of (i : shape_item) : nat := match i with ISlot | IExc => 1 | IEcb _ _ => 2 | _ => 0 end.
Definition blocks_of (i : shape_item) : nat := match i with ISlot | IExc => 0 | _ => 1 end.
Fixpoint height (F : frame) : nat := match F with [] => 0 | i :: F => slots_of i + height F end.
Fixpoint depth (F : frame) : nat := match F with [] => 0 | i :: F => blocks_of i + depth F end.

Definition is_slot (i : shape_item) : bool := match i with ISlot | IExc => true | _ => false end.
Fixpoint slots_on_top (n : nat) (F : frame) : bool :=
  match n with
  | O => true
  | S n => match F with i :: F => is_slot i && slots_on_top n F | [] => false end
  end.

(** The shape with which a handler begins. *)
Definition handler_frame (k : block_kind) (h : nat) (F : frame) : frame :=
  match k with BExcept => IExc :: IActive h :: F | BFinally => IEcb h false :: F | BWith => IEcb h true :: F end.

(** ** What instructions do to shapes *)

(** Instructions that go on with the next one: how many slots must be there, how
    many are popped and pushed, and how far the stack grows meanwhile. *)
Definition effect (o : opc) (a b : Z) : option (nat * nat * nat * nat) :=
  let n := Z.to_nat a in
  match o with
  | MP_BC_LOAD_CONST_FALSE | MP_BC_LOAD_CONST_NONE | MP_BC_LOAD_CONST_TRUE | MP_BC_LOAD_CONST_SMALL_INT
  | MP_BC_LOAD_CONST_STRING | MP_BC_LOAD_CONST_OBJ | MP_BC_LOAD_NULL | MP_BC_LOAD_FAST_N | MP_BC_LOAD_DEREF
  | MP_BC_LOAD_NAME | MP_BC_LOAD_GLOBAL | MP_BC_LOAD_BUILD_CLASS | MP_BC_LOAD_CONST_SMALL_INT_MULTI
  | MP_BC_LOAD_FAST_MULTI | MP_BC_BUILD_MAP | MP_BC_MAKE_FUNCTION => Some (0, 0, 1, 1)%nat
  | MP_BC_LOAD_ATTR | MP_BC_GET_ITER | MP_BC_UNARY_OP_MULTI => Some (1, 1, 1, 0)%nat
  | MP_BC_LOAD_METHOD => Some (1, 1, 2, 1)%nat
  | MP_BC_LOAD_SUPER_METHOD => Some (3, 3, 2, 0)%nat
  | MP_BC_LOAD_SUBSCR | MP_BC_BINARY_OP_MULTI | MP_BC_IMPORT_NAME | MP_BC_MAKE_FUNCTION_DEFARGS =>
      Some (2, 2, 1, 0)%nat
  | MP_BC_STORE_FAST_N | MP_BC_STORE_DEREF | MP_BC_STORE_NAME | MP_BC_STORE_GLOBAL | MP_BC_STORE_FAST_MULTI
  | MP_BC_POP_TOP | MP_BC_IMPORT_STAR => Some (1, 1, 0, 0)%nat
  | MP_BC_STORE_ATTR => Some (2, 2, 0, 0)%nat
  | MP_BC_STORE_SUBSCR => Some (3, 3, 0, 0)%nat
  | MP_BC_DELETE_FAST | MP_BC_DELETE_DEREF | MP_BC_DELETE_NAME | MP_BC_DELETE_GLOBAL => Some (0, 0, 0, 0)%nat
  | MP_BC_DUP_TOP => Some (1, 0, 1, 1)%nat
  | MP_BC_DUP_TOP_TWO => Some (2, 0, 2, 2)%nat
  | MP_BC_ROT_TWO => Some (2, 2, 2, 0)%nat
  | MP_BC_ROT_THREE => Some (3, 3, 3, 0)%nat
  | MP_BC_BUILD_TUPLE | MP_BC_BUILD_LIST | MP_BC_BUILD_SET => Some (n, n, 1, 1 - n)%nat
  | MP_BC_STORE_MAP => Some (3, 2, 0, 0)%nat
  | MP_BC_BUILD_SLICE => if a =? 3 then Some (3, 3, 1, 0)%nat else Some (2, 2, 1, 0)%nat
  | MP_BC_STORE_COMP =>
      let p := (if (Z.land a 3 =? 1)%Z then 2 else 1)%nat in
      Some (Nat.max (S (Z.to_nat (Z.shiftr a 2))) p, p, 0, 0)%nat
  | MP_BC_UNPACK_SEQUENCE => Some (1, 1, n, n - 1)%nat
  | MP_BC_UNPACK_EX => let n := Z.to_nat (Z.land a 255 + Z.land (Z.shiftr a 8) 255 + 1) in Some (1, 1, n, n - 1)%nat
  | MP_BC_MAKE_CLOSURE => Some (Z.to_nat b, Z.to_nat b, 1, 1 - Z.to_nat b)%nat
  | MP_BC_MAKE_CLOSURE_DEFARGS => Some (2 + Z.to_nat b, 2 + Z.to_nat b, 1, 0)%nat
  | MP_BC_CALL_FUNCTION => let n := Z.to_nat (arg_slots a) in Some (n + 1, n + 1, 1, 0)%nat
  | MP_BC_CALL_METHOD => let n := Z.to_nat (arg_slots a) in Some (n + 2, n + 2, 1, 0)%nat
  | MP_BC_CALL_FUNCTION_VAR_KW => let n := Z.to_nat (arg_slots a) in Some (n + 3, n + 3, 1, 0)%nat
  | MP_BC_CALL_METHOD_VAR_KW => let n := Z.to_nat (arg_slots a) in Some (n + 4, n + 4, 1, 0)%nat
  | MP_BC_IMPORT_FROM => Some (1, 0, 1, 1)%nat
  | _ => None
  end.

Section Checker.
Context (f : mp_obj_fun_bc_t) (n_locals n_state : nat) (cells : list nat) (shapes : gmap nat frame).

(** The operand stack ends where the local variables begin. *)
Definition stack_limit : nat := n_state - n_locals.

Definition shape_at (z : Z) (F : frame) : bool := (0 <=? z) && bool_decide (shapes !! Z.to_nat z = Some F).

(** Handlers of blocks come later, and begin with the right shape; those of active
    blocks came before. *)
Fixpoint blocks_ok (pc : nat) (F : frame) : bool :=
  match F with
  | [] => true
  | IBlock k h :: F => (pc <? h)%nat && bool_decide (shapes !! h = Some (handler_frame k h F)) && blocks_ok pc F
  | IActive h :: F | IEcb h _ :: F => (h <=? pc)%nat && blocks_ok pc F
  | _ :: F => blocks_ok pc F
  end.

(** Handlers of [finally] blocks come after the address [ip], unless they run. *)
Fixpoint finally_after (ip : nat) (F : frame) : bool :=
  match F with
  | [] => true
  | IBlock k h :: F => (negb (finally_kind k) || (ip <? h)%nat) && finally_after ip F
  | IActive h :: F | IEcb h _ :: F => (h <=? ip)%nat && finally_after ip F
  | _ :: F => finally_after ip F
  end.

(** Leaving blocks on the way to [dest]. *)
Fixpoint unwind_ok (unum dest : Z) (F : frame) : bool :=
  if 0 <? Z.land unum 127 then
    match F with
    | IBlock BExcept _ :: F | IBlock BFinally _ :: F | IBlock BWith _ :: _ :: _ :: F | IActive _ :: F =>
        unwind_ok (unum - 1) dest F
    | _ => false
    end
  else if unum =? 0 then shape_at dest F
  else slots_on_top MP_OBJ_ITER_BUF_NSLOTS F && shape_at dest (drop MP_OBJ_ITER_BUF_NSLOTS F).

Definition is_local (a : Z) : bool := (0 <=? a) && (a <? Z.of_nat n_locals).
Definition is_cell (a : Z) : bool := is_local a && bool_decide (Z.to_nat a ∈ cells).
Definition is_constant (a : Z) : bool := bool_decide (is_Some (const_table f !! Z.to_nat a)).

(** Operands that are not addresses. *)
Definition operand_ok (o : opc) (a : Z) : bool :=
  match o with
  | MP_BC_LOAD_FAST_N | MP_BC_LOAD_FAST_MULTI => is_local a
  | MP_BC_STORE_FAST_N | MP_BC_STORE_FAST_MULTI | MP_BC_DELETE_FAST => is_local a && negb (is_cell a)
  | MP_BC_LOAD_DEREF | MP_BC_STORE_DEREF | MP_BC_DELETE_DEREF => is_cell a
  | MP_BC_LOAD_CONST_OBJ | MP_BC_MAKE_FUNCTION | MP_BC_MAKE_FUNCTION_DEFARGS | MP_BC_MAKE_CLOSURE
  | MP_BC_MAKE_CLOSURE_DEFARGS => is_constant a
  | _ => true
  end.

Definition fits (n : nat) : bool := (n <=? stack_limit)%nat.
Definition next_is (i : instr) (F : frame) : bool := bool_decide (shapes !! i_next i = Some F).

Definition check_special (o : opc) (i : instr) (F : frame) : bool :=
  let a := i_a i in
  match o with
  | MP_BC_JUMP => shape_at a F
  | MP_BC_POP_JUMP_IF_TRUE | MP_BC_POP_JUMP_IF_FALSE =>
      match F with ISlot :: F => shape_at a F && next_is i F | _ => false end
  | MP_BC_JUMP_IF_TRUE_OR_POP | MP_BC_JUMP_IF_FALSE_OR_POP =>
      match F with ISlot :: F' => shape_at a F && next_is i F' | _ => false end
  | MP_BC_SETUP_WITH =>
      match F with
      | ISlot :: F' =>
          (0 <=? a) && fits (height F + 3) && (depth F <? n_exc_stack f)%nat
          && next_is i (ISlot :: IBlock BWith (Z.to_nat a) :: ISlot :: ISlot :: F')
      | _ => false
      end
  | MP_BC_SETUP_EXCEPT => (0 <=? a) && (depth F <? n_exc_stack f)%nat && next_is i (IBlock BExcept (Z.to_nat a) :: F)
  | MP_BC_SETUP_FINALLY => (0 <=? a) && (depth F <? n_exc_stack f)%nat && next_is i (IBlock BFinally (Z.to_nat a) :: F)
  | MP_BC_WITH_CLEANUP =>
      match F with
      | IEcb h true :: ISlot :: ISlot :: F' => fits (height F + 1) && next_is i (IEcb h false :: F')
      | _ => false
      end
  | MP_BC_END_FINALLY =>
      match F with
      | IEcb _ false :: F' => finally_after (i_next i) F' && next_is i F'
      | IExc :: IActive h :: F' => true
      | _ => false
      end
  | MP_BC_UNWIND_JUMP =>
      (0 <=? i_b i) && (i_b i <? 256) && fits (height F + 2) && finally_after (i_next i) F && unwind_ok (i_b i) a F
  | MP_BC_POP_EXCEPT_JUMP => match F with IBlock _ _ :: F | IActive _ :: F => shape_at a F | _ => false end
  | MP_BC_GET_ITER_STACK =>
      match F with
      | ISlot :: F' => fits (height F + 3) && next_is i (replicate MP_OBJ_ITER_BUF_NSLOTS ISlot ++ F')
      | _ => false
      end
  | MP_BC_FOR_ITER =>
      slots_on_top MP_OBJ_ITER_BUF_NSLOTS F && fits (height F + 1)
      && shape_at a (drop MP_OBJ_ITER_BUF_NSLOTS F)
      && next_is i (replicate (S MP_OBJ_ITER_BUF_NSLOTS) ISlot ++ drop MP_OBJ_ITER_BUF_NSLOTS F)
  | MP_BC_RETURN_VALUE => slots_on_top 1 F && finally_after (i_next i) F
  | MP_BC_RAISE_VARARGS => if a =? 0 then true else if a =? 2 then slots_on_top 2 F else slots_on_top 1 F
  | MP_BC_YIELD_FROM => match F with ISlot :: ISlot :: F' => next_is i (ISlot :: F') | _ => false end
  | MP_BC_YIELD_VALUE => match F with ISlot :: _ => next_is i F | _ => false end
  | _ => false
  end.

(** [None] is pushed before a [finally] or [with] handler that the code runs into. *)
Definition enters_handler (o : opc) (i : instr) (F : frame) : bool :=
  match o, F with MP_BC_LOAD_CONST_NONE, IBlock k h :: _ => finally_kind k && (i_next i =? h)%nat | _, _ => false end.

Definition check_instr (pc : nat) (F : frame) : bool :=
  match decode (bytecode f) pc with
  | None => false
  | Some i =>
      blocks_ok pc F && fits (height F) && (depth F <=? n_exc_stack f)%nat &&
      match i_op i with
      | None => true
      | Some o =>
          operand_ok o (i_a i) && (0 <=? i_b i) && ((0 <=? i_a i) || bool_decide (o = MP_BC_LOAD_CONST_SMALL_INT)) &&
          match effect o (i_a i) (i_b i) with
          | Some (need, npop, npush, extra) =>
              slots_on_top need F && (npop <=? need)%nat && fits (height F + extra)
              && (enters_handler o i F || next_is i (replicate npush ISlot ++ drop npop F))
          | None => check_special o i F
          end
      end
  end.

(** Every instruction with a shape, and the header that the traceback of an exception needs. *)
Definition check_code : bool :=
  (n_locals <=? n_state)%nat && (0 <? n_state)%nat
  && forallb (fun '(pc, F) => check_instr pc F && bool_decide (is_Some (traceback_of f pc))) (map_to_list shapes).

Lemma check_code_at pc F : check_code = true -> shapes !! pc = Some F -> check_instr pc F = true /\ is_Some (traceback_of f pc).
Proof.
  unfold check_code. intros H HF. apply andb_prop in H as [_ H]. rewrite forallb_forall in H.
  specialize (H (pc, F)). rewrite <- list_elem_of_In, elem_of_map_to_list in H. apply H, andb_prop in HF as [? HF].
  split; [done|]. by apply bool_decide_eq_true in HF.
Qed.
(** Whether the function is a generator. *)
Definition is_yield (o : option opc) : bool :=
  match o with Some MP_BC_YIELD_VALUE | Some MP_BC_YIELD_FROM => true | _ => false end.
Definition yields : bool :=
  existsb (fun '(pc, _) => match decode (bytecode f) pc with Some i => is_yield (i_op i) | None => false end) (map_to_list shapes).

Lemma yields_at pc F i : shapes !! pc = Some F -> decode (bytecode f) pc = Some i -> is_yield (i_op i) = true -> yields = true.
Proof.
  intros HF Hd Hi. apply existsb_exists. exists (pc, F). split; [by apply list_elem_of_In, elem_of_map_to_list|]. by rewrite Hd.
Qed.
End Checker.
