(* ===== verification/VmRun.v ===== *)
(** Running the interpreter inside a footprint: what an instruction reads and writes
    while the lower part of the operand stack and the cells among the local
    variables stay as they are. *)
From S2P Require Import Prelude Bytecode Vm VmSafe.

Lemma V_bind_Ok {W A B} (m : V W A) (g : A -> V W B) s a s' : m s = Some (VOk a s') -> (m ≫= g) s = g a s'.
Proof. intros H. unfold mbind, V_bind. by rewrite H. Qed.

Lemma V_bind_assoc {W A B C} (m : V W A) (g : A -> V W B) (h : B -> V W C) s :
  ((m ≫= g) ≫= h) s = (m ≫= (fun a => g a ≫= h)) s.
Proof. unfold mbind, V_bind. by destruct (m s) as [[a s'|e s'|k s']|]. Qed.

(** Run what is known to go on. *)
Ltac vrun := repeat first [rewrite V_bind_assoc | erewrite V_bind_Ok by (reflexivity || eassumption); cbv beta iota].

Section Footprint.
Context {W : Type} {R : Runtime W} {L : RuntimeLaws R} (f : mp_obj_fun_bc_t).
Context (n_locals n_state : nat) (cells : list nat) (Hlocals : (n_locals <= n_state)%nat).
Implicit Types s : mp_code_state_t W.
Abbreviation limit := (stack_limit n_locals n_state).

(** The array has its size, the local variables that are cells hold cells, and the stack
    pointer that was saved last is in the array or just before it. *)
Definition locals_ok s : Prop :=
  length (v_state s) = n_state
  /\ (forall c, c ∈ cells -> (c < n_locals)%nat -> exists k, v_state s !! (n_state - 1 - c)%nat = Some (ObjCell k))
  /\ -1 <= v_code_sp s < Z.of_nat n_state.

(** From [s0] to [s] nothing has happened below [base], to the blocks, or to what
    the handler of exceptions goes by. *)
Record within (base : nat) s0 s : Prop := {
  wi_locals : locals_ok s;
  wi_low : take base (v_state s) = take base (v_state s0);
  wi_exc : v_exc s = v_exc s0;
  wi_code : v_code_ip s = v_code_ip s0;
  wi_code_sp : v_code_sp s = v_code_sp s0;
  wi_inject : v_inject s = v_inject s0 }.

Lemma within_refl base s : locals_ok s -> within base s s.
Proof. by constructor. Qed.

Lemma within_trans base s1 s2 s3 : within base s1 s2 -> within base s2 s3 -> within base s1 s3.
Proof. intros [] []. constructor; congruence. Qed.

Lemma within_le base base' s1 s2 : (base' <= base)%nat -> within base s1 s2 -> within base' s1 s2.
Proof.
  intros Hle [H1 H2 H3 H4 H5 H6]. constructor; try done. apply (f_equal (take base')) in H2.
  by rewrite !take_take, Nat.min_l in H2 by done.
Qed.

(** [m] runs from [s] and leaves [Q], or raises with the footprint kept. *)
Definition runs {A} (base : nat) s0 (m : V W A) s (Q : A -> mp_code_state_t W -> Prop) : Prop :=
  match m s with
  | Some (VOk a s') => Q a s'
  | Some (VRaise _ s') => within base s0 s'
  | _ => False
  end.

Lemma runs_bind {A B} base s0 (m : V W A) (g : A -> V W B) s Q :
  runs base s0 m s (fun a s' => runs base s0 (g a) s' Q) -> runs base s0 (m ≫= g) s Q.
Proof. unfold runs, mbind, V_bind. by destruct (m s) as [[]|]. Qed.

Lemma runs_known {A B} base s0 (m : V W A) (g : A -> V W B) s a s' Q :
  m s = Some (VOk a s') -> runs base s0 (g a) s' Q -> runs base s0 (m ≫= g) s Q.
Proof. intros H. unfold runs. by rewrite (V_bind_Ok _ _ _ _ _ H). Qed.

Lemma runs_mono {A} base s0 (m : V W A) s (Q Q' : A -> mp_code_state_t W -> Prop) :
  runs base s0 m s Q -> (forall a s', Q a s' -> Q' a s') -> runs base s0 m s Q'.
Proof. unfold runs. destruct (m s) as [[]|]; auto. Qed.

Lemma runs_ret {A} base s0 (a : A) s Q : Q a s -> runs base s0 (mret a) s Q.
Proof. done. Qed.

Lemma runs_get base s0 s (Q : mp_code_state_t W -> mp_code_state_t W -> Prop) : Q s s -> runs base s0 vget s Q.
Proof. done. Qed.

Lemma runs_lift {A} base s0 (o : option A) a s (Q : A -> mp_code_state_t W -> Prop) : o = Some a -> Q a s -> runs base s0 (vlift o) s Q.
Proof. by intros ->. Qed.

Lemma runs_raise {A} base s0 e s (Q : A -> mp_code_state_t W -> Prop) : within base s0 s -> runs base s0 (vraise e) s Q.
Proof. done. Qed.

Lemma within_same base s0 s s' : within base s0 s -> v_state s' = v_state s -> v_exc s' = v_exc s -> v_code_ip s' = v_code_ip s ->
  v_code_sp s' = v_code_sp s -> v_inject s' = v_inject s -> within base s0 s'.
Proof. intros [(H1 & H2 & H3) ? ? ? ? ?] E1 E2 E3 E4 E5. constructor; [split; [|split]|..]; rewrite ?E1, ?E2, ?E3, ?E4, ?E5; done. Qed.

Lemma runs_set_sp base s0 s sp (Q : unit -> mp_code_state_t W -> Prop) : within base s0 s ->
  (forall s', within base s0 s' -> v_sp s' = sp -> v_ip s' = v_ip s -> v_state s' = v_state s -> Q tt s') -> runs base s0 (set_sp sp) s Q.
Proof. intros Hw HQ. unfold runs, set_sp. apply HQ; [by eapply within_same|done..]. Qed.

Lemma runs_set_ip base s0 s ip (Q : unit -> mp_code_state_t W -> Prop) : within base s0 s ->
  (forall s', within base s0 s' -> v_sp s' = v_sp s -> v_ip s' = ip -> v_state s' = v_state s -> Q tt s') -> runs base s0 (set_ip ip) s Q.
Proof. intros Hw HQ. unfold runs, set_ip. apply HQ; [by eapply within_same|done..]. Qed.

Lemma runs_set_world base s0 s w (Q : unit -> mp_code_state_t W -> Prop) : within base s0 s ->
  (forall s', within base s0 s' -> v_sp s' = v_sp s -> v_ip s' = v_ip s -> v_state s' = v_state s -> Q tt s') -> runs base s0 (set_world w) s Q.
Proof. intros Hw HQ. unfold runs, set_world. apply HQ; [by eapply within_same|done..]. Qed.

(** ** Slots *)

Lemma runs_rd base s0 s i (Q : obj -> mp_code_state_t W -> Prop) : within base s0 s -> 0 <= i < Z.of_nat n_state ->
  (forall o, v_state s !! Z.to_nat i = Some o -> Q o s) -> runs base s0 (rd i) s Q.
Proof.
  intros [[Hl _] _ _ _ _ _] Hi HQ. unfold rd. apply runs_bind, runs_get. destruct (Z.ltb_spec i 0); [lia|].
  destruct (lookup_lt_is_Some_2 (v_state s) (Z.to_nat i)) as [o Ho]; [lia|]. eapply runs_lift; [exact Ho|]. by apply HQ.
Qed.

Lemma runs_wr base s0 s i o (Q : unit -> mp_code_state_t W -> Prop) : within base s0 s -> Z.of_nat base <= i < Z.of_nat limit ->
  (forall s', within base s0 s' -> v_sp s' = v_sp s -> v_ip s' = v_ip s -> v_state s' = <[Z.to_nat i := o]> (v_state s) -> Q tt s') -> runs base s0 (wr i o) s Q.
Proof.
  intros Hw Hi HQ. pose proof Hw as [(Hl & Hc & Hcsp) Hlow He Hp Hcs Hj]. unfold stack_limit in Hi. unfold wr. apply runs_bind, runs_get.
  destruct ((0 <=? i) && (i <? Z.of_nat (length (v_state s)))) eqn:E; [|lia].
  unfold runs, set_state. apply HQ; [|done..]. constructor; [split; [|split]|..]; cbn [v_state v_exc v_code_ip v_code_sp v_inject]; try done.
  - by rewrite length_insert.
  - intros c Hin Hlt. destruct (Hc c Hin Hlt) as [k Hk]. exists k. by rewrite list_lookup_insert_ne by lia.
  - rewrite take_insert_ge by lia. done.
Qed.

Ltac vsp := match goal with |- runs _ _ (sp_at _ ≫= _) _ _ => apply runs_bind; unfold sp_at; apply runs_bind, runs_get, runs_ret end.

Lemma runs_PUSH base s0 s o (Q : unit -> mp_code_state_t W -> Prop) : within base s0 s -> Z.of_nat base <= v_sp s + 1 < Z.of_nat limit ->
  (forall s', within base s0 s' -> v_sp s' = v_sp s + 1 -> v_ip s' = v_ip s -> v_state s' = <[Z.to_nat (v_sp s + 1) := o]> (v_state s) -> Q tt s') -> runs base s0 (PUSH o) s Q.
Proof.
  intros Hw Hi HQ. unfold PUSH. vsp. apply runs_bind, runs_set_sp; [done|]. intros s1 Hw1 E1 Ei Es1. apply runs_wr; [done|done|].
  intros s2 Hw2 E2 Ei2 Es2. apply HQ; [done|congruence..].
Qed.

Lemma runs_POP base s0 s (Q : obj -> mp_code_state_t W -> Prop) : within base s0 s -> 0 <= v_sp s < Z.of_nat n_state ->
  (forall o s', within base s0 s' -> v_sp s' = v_sp s - 1 -> v_ip s' = v_ip s -> v_state s' = v_state s -> Q o s') -> runs base s0 POP s Q.
Proof.
  intros Hw Hi HQ. unfold POP. vsp. rewrite Z.add_0_r. apply runs_bind, runs_rd; [done|done|]. intros o _.
  apply runs_bind, runs_set_sp; [done|]. intros s1 Hw1 E1 Ei Es1. apply runs_ret, HQ; done.
Qed.

Lemma runs_peek base s0 s k (Q : obj -> mp_code_state_t W -> Prop) : within base s0 s -> 0 <= v_sp s + k < Z.of_nat n_state ->
  (forall o, v_state s !! Z.to_nat (v_sp s + k) = Some o -> Q o s) -> runs base s0 (peek k) s Q.
Proof. intros Hw Hi HQ. unfold peek. vsp. by apply runs_rd. Qed.

Lemma runs_TOP base s0 s (Q : obj -> mp_code_state_t W -> Prop) : within base s0 s -> 0 <= v_sp s < Z.of_nat n_state ->
  (forall o, v_state s !! Z.to_nat (v_sp s) = Some o -> Q o s) -> runs base s0 TOP s Q.
Proof. intros Hw Hi HQ. unfold TOP. vsp. apply runs_rd; [done|lia|]. by rewrite Z.add_0_r. Qed.

Lemma runs_poke base s0 s k o (Q : unit -> mp_code_state_t W -> Prop) : within base s0 s -> Z.of_nat base <= v_sp s + k < Z.of_nat limit ->
  (forall s', within base s0 s' -> v_sp s' = v_sp s -> v_ip s' = v_ip s -> v_state s' = <[Z.to_nat (v_sp s + k) := o]> (v_state s) -> Q tt s') -> runs base s0 (poke k o) s Q.
Proof. intros Hw Hi HQ. unfold poke. vsp. by apply runs_wr. Qed.

Lemma runs_SET_TOP base s0 s o (Q : unit -> mp_code_state_t W -> Prop) : within base s0 s -> Z.of_nat base <= v_sp s < Z.of_nat limit ->
  (forall s', within base s0 s' -> v_sp s' = v_sp s -> v_ip s' = v_ip s -> v_state s' = <[Z.to_nat (v_sp s) := o]> (v_state s) -> Q tt s') -> runs base s0 (SET_TOP o) s Q.
Proof. intros Hw Hi HQ. unfold SET_TOP. vsp. rewrite Z.add_0_r. by apply runs_wr. Qed.

Lemma runs_move base s0 s k (Q : unit -> mp_code_state_t W -> Prop) : within base s0 s ->
  (forall s', within base s0 s' -> v_sp s' = v_sp s + k -> v_ip s' = v_ip s -> v_state s' = v_state s -> Q tt s') -> runs base s0 (move_sp k) s Q.
Proof. intros Hw HQ. unfold move_sp. vsp. by apply runs_set_sp. Qed.

Lemma runs_peek_range base s0 s n : forall k (Q : list obj -> mp_code_state_t W -> Prop), within base s0 s ->
  (n = 0%nat \/ 0 <= v_sp s + k /\ v_sp s + k + Z.of_nat n <= Z.of_nat n_state) ->
  (forall l, length l = n -> Q l s) -> runs base s0 (peek_range k n) s Q.
Proof.
  induction n as [|n IH]; intros k Q Hw Hi HQ; cbn [peek_range]; [by apply runs_ret, HQ|].
  apply runs_bind, runs_peek; [done|lia|]. intros o _. apply runs_bind, IH; [done|lia|]. intros l Hl. apply runs_ret, HQ. simpl. lia.
Qed.

Lemma runs_poke_range base s0 l : forall s k (Q : unit -> mp_code_state_t W -> Prop), within base s0 s ->
  (l = [] \/ Z.of_nat base <= v_sp s + k /\ v_sp s + k + Z.of_nat (length l) <= Z.of_nat limit) ->
  (forall s', within base s0 s' -> v_sp s' = v_sp s -> v_ip s' = v_ip s -> Q tt s') -> runs base s0 (poke_range k l) s Q.
Proof.
  induction l as [|o l IH]; intros s k Q Hw Hi HQ; cbn [poke_range]; [by apply runs_ret, HQ|].
  destruct Hi as [|Hi]; [done|]. cbn [length] in Hi. apply runs_bind, runs_poke; [done|lia|]. intros s1 Hw1 E1 Ei Es1.
  apply IH; [done|destruct l; [by left|right; cbn [length] in *; lia]|]. intros s2 Hw2 E2 Ei2. apply HQ; [done|congruence..].
Qed.

(** ** Local variables *)

Lemma runs_load_local base s0 s n (Q : obj -> mp_code_state_t W -> Prop) : within base s0 s -> is_local n_locals n = true ->
  (forall o, Q o s) -> runs base s0 (load_local n) s Q.
Proof.
  intros Hw Hn HQ. unfold is_local in Hn. pose proof (wi_locals _ _ _ Hw) as [Hl _].
  unfold load_local, local_index. apply runs_bind, runs_bind, runs_get, runs_ret, runs_rd; [done|lia|auto].
Qed.

Lemma runs_load_cell base s0 s n (Q : obj -> mp_code_state_t W -> Prop) : within base s0 s -> is_cell n_locals cells n = true ->
  (forall k, Q (ObjCell k) s) -> runs base s0 (load_local n) s Q.
Proof.
  intros Hw Hn HQ. unfold is_cell, is_local in Hn. apply andb_prop in Hn as [Hn Hc]. apply bool_decide_eq_true in Hc.
  pose proof (wi_locals _ _ _ Hw) as (Hl & Hcell & _). destruct (Hcell _ Hc) as [k Hk]; [lia|].
  unfold load_local, local_index. apply runs_bind, runs_bind, runs_get, runs_ret, runs_rd; [done|lia|].
  intros o Ho. replace (Z.to_nat _) with (n_state - 1 - Z.to_nat n)%nat in Ho by lia. rewrite Hk in Ho. injection Ho as <-. apply HQ.
Qed.

Lemma runs_store_local base s0 s n o (Q : unit -> mp_code_state_t W -> Prop) : within base s0 s -> (base <= limit)%nat ->
  is_local n_locals n && negb (is_cell n_locals cells n) = true ->
  (forall s', within base s0 s' -> v_sp s' = v_sp s -> v_ip s' = v_ip s -> Q tt s') -> runs base s0 (store_local n o) s Q.
Proof.
  intros Hw Hb Hn HQ. pose proof Hw as [(Hl & Hc & Hcsp) Hlow He Hp Hcs Hj]. unfold stack_limit in Hb.
  apply andb_prop in Hn as [Hn Hncell]. unfold is_cell in Hncell. rewrite Hn in Hncell. cbn [andb] in Hncell.
  unfold is_local in Hn. unfold store_local, local_index, wr.
  apply runs_bind, runs_bind, runs_get, runs_ret, runs_bind, runs_get.
  match goal with |- runs _ _ (if ?b then _ else _) _ _ => destruct b eqn:E; [|lia] end.
  unfold runs, set_state. apply HQ; [|done..].
  constructor; [split; [|split]|..]; cbn [v_state v_exc v_code_ip v_code_sp v_inject]; try done.
  - by rewrite length_insert.
  - intros c Hin Hlt. destruct (Hc c Hin Hlt) as [k Hk]. exists k. rewrite list_lookup_insert_ne; [done|].
    intros Heq. assert (c = Z.to_nat n) as -> by lia. by rewrite bool_decide_eq_true_2 in Hncell.
  - rewrite take_insert_ge by lia. done.
Qed.

(** ** Calls *)

Lemma runs_call base s0 s r (Q : list obj -> mp_code_state_t W -> Prop) : within base s0 s ->
  (forall l s', within base s0 s' -> v_sp s' = v_sp s -> v_ip s' = v_ip s -> v_state s' = v_state s -> length l = results r -> Q l s') ->
  runs base s0 (call r) s Q.
Proof.
  intros Hw HQ. unfold call. apply runs_bind, runs_get. destruct (rt_call r (v_world s)) as [[l|e] w] eqn:E.
  - apply runs_bind, runs_set_world; [done|]. intros s1 Hw1 E1 Ei Es1. apply runs_ret, HQ; [done..|].
    by eapply rt_call_results.
  - apply runs_bind, runs_set_world; [done|]. intros s1 Hw1 E1 Ei Es1. by apply runs_raise.
Qed.

Lemma runs_call1 base s0 s r (Q : obj -> mp_code_state_t W -> Prop) : within base s0 s -> results r = 1%nat ->
  (forall o s', within base s0 s' -> v_sp s' = v_sp s -> v_ip s' = v_ip s -> v_state s' = v_state s -> Q o s') -> runs base s0 (call1 r) s Q.
Proof.
  intros Hw Hr HQ. unfold call1. apply runs_bind, runs_call; [done|]. intros l s1 Hw1 E1 Ei Es1 Hl.
  destruct l as [|o l]; [by rewrite Hr in Hl|]. eapply runs_lift; [done|]. by apply HQ.
Qed.

Lemma runs_is_true base s0 s o (Q : bool -> mp_code_state_t W -> Prop) : within base s0 s ->
  (forall b s', within base s0 s' -> v_sp s' = v_sp s -> v_ip s' = v_ip s -> v_state s' = v_state s -> Q b s') -> runs base s0 (is_true o) s Q.
Proof.
  intros Hw HQ. unfold is_true. apply runs_bind, runs_get. destruct (mp_obj_is_true o (v_world s)) as [[b|e] w].
  - apply runs_bind, runs_set_world; [done|]. intros s1 Hw1 E1 Ei Es1. apply runs_ret. by apply HQ.
  - apply runs_bind, runs_set_world; [done|]. intros s1 Hw1 E1 Ei Es1. by apply runs_raise.
Qed.

Lemma runs_make_raise base s0 s o (Q : nat -> mp_code_state_t W -> Prop) : within base s0 s ->
  (forall e s', within base s0 s' -> v_sp s' = v_sp s -> v_ip s' = v_ip s -> v_state s' = v_state s -> Q e s') -> runs base s0 (make_raise o) s Q.
Proof.
  intros Hw HQ. unfold make_raise. apply runs_bind, runs_get. destruct (mp_make_raise_obj o (v_world s)) as [e w].
  apply runs_bind, runs_set_world; [done|]. intros s1 Hw1 E1 Ei Es1. apply runs_ret. by apply HQ.
Qed.

Lemma runs_new_exception base s0 s k (Q : nat -> mp_code_state_t W -> Prop) : within base s0 s ->
  (forall e s', within base s0 s' -> v_sp s' = v_sp s -> v_ip s' = v_ip s -> v_state s' = v_state s -> Q e s') -> runs base s0 (new_exception k) s Q.
Proof.
  intros Hw HQ. unfold new_exception. apply runs_bind, runs_get. destruct (mp_obj_new_exception_msg k (v_world s)) as [e w].
  apply runs_bind, runs_set_world; [done|]. intros s1 Hw1 E1 Ei Es1. apply runs_ret. by apply HQ.
Qed.

Lemma runs_pend base s0 s (Q : unit -> mp_code_state_t W -> Prop) : within base s0 s ->
  (forall s', within base s0 s' -> v_sp s' = v_sp s -> v_ip s' = v_ip s -> v_state s' = v_state s -> Q tt s') -> runs base s0 dispatch_with_pend_exc_check s Q.
Proof.
  intros Hw HQ. unfold dispatch_with_pend_exc_check. apply runs_bind, runs_get. destruct (mp_handle_pending (v_world s)) as [[e|] w].
  - apply runs_bind, runs_set_world; [done|]. intros s1 Hw1 E1 Ei Es1. by apply runs_raise.
  - by apply runs_set_world.
Qed.

Lemma runs_cell_get base s0 s k (Q : obj -> mp_code_state_t W -> Prop) :
  (forall o, Q o s) -> runs base s0 (cell_get (ObjCell k)) s Q.
Proof. intros HQ. unfold cell_get, cell_of. apply runs_bind, runs_ret, runs_bind, runs_get, runs_ret, HQ. Qed.

Lemma runs_cell_set base s0 s k o (Q : unit -> mp_code_state_t W -> Prop) : within base s0 s ->
  (forall s', within base s0 s' -> v_sp s' = v_sp s -> v_ip s' = v_ip s -> v_state s' = v_state s -> Q tt s') -> runs base s0 (cell_set (ObjCell k) o) s Q.
Proof. intros Hw HQ. unfold cell_set, cell_of. apply runs_bind, runs_ret, runs_bind, runs_get. by apply runs_set_world. Qed.

Lemma runs_constant base s0 s a (Q : obj -> mp_code_state_t W -> Prop) : is_constant f a = true ->
  (forall o, Q o s) -> runs base s0 (constant f a) s Q.
Proof. intros Ha HQ. unfold is_constant in Ha. apply bool_decide_eq_true in Ha as [o Ho]. unfold constant. by eapply runs_lift. Qed.

Lemma runs_jump base s0 s t (Q : unit -> mp_code_state_t W -> Prop) : within base s0 s -> 0 <= t ->
  (forall s', within base s0 s' -> v_sp s' = v_sp s -> v_ip s' = Z.to_nat t -> v_state s' = v_state s -> Q tt s') -> runs base s0 (jump t) s Q.
Proof. intros Hw Ht HQ. unfold jump. destruct (Z.ltb_spec t 0); [lia|]. by apply runs_set_ip. Qed.

Lemma runs_load_check base s0 s o (Q : unit -> mp_code_state_t W -> Prop) : within base s0 s -> Z.of_nat base <= v_sp s + 1 < Z.of_nat limit ->
  (forall s', within base s0 s' -> v_sp s' = v_sp s + 1 -> v_ip s' = v_ip s -> Q tt s') -> runs base s0 (load_check o) s Q.
Proof.
  intros Hw Hi HQ. unfold load_check. destruct (decide _) as [_|_]; [|apply runs_PUSH; [done..|]; intros; by apply HQ].
  apply runs_bind, runs_new_exception; [done|]. intros e s1 Hw1 E1 Ei Es1. by apply runs_raise.
Qed.

Lemma runs_load_method base s0 s o q k (Q : unit -> mp_code_state_t W -> Prop) : within base s0 s ->
  Z.of_nat base <= v_sp s + k -> v_sp s + k + 1 < Z.of_nat limit ->
  (forall s', within base s0 s' -> v_sp s' = v_sp s -> v_ip s' = v_ip s -> Q tt s') -> runs base s0 (load_method_at o q k) s Q.
Proof.
  intros Hw H1 H2 HQ. unfold load_method_at. apply runs_bind, runs_poke; [done|lia|]. intros s1 Hw1 E1 Ei1 Es1.
  apply runs_bind, runs_poke; [done|lia|]. intros s2 Hw2 E2 Ei2 Es2. apply runs_bind, runs_call; [done|]. intros l s3 Hw3 E3 Ei3 Es3 Hl.
  cbn [results] in Hl. apply runs_poke_range; [done|right; lia|]. intros s4 Hw4 E4 Ei4. apply HQ; [done|congruence..].
Qed.
End Footprint.
