(* ===== verification/VmEffect.v ===== *)
(** Every instruction that goes on with the next one reads and writes what the
    checker says. *)
From S2P Require Import Prelude Bytecode Vm VmSafe VmRun.

Ltac vrule l := eapply l; try eassumption; try reflexivity; try lia; intros.
Ltac vstep :=
  lazymatch goal with
  | |- runs _ _ _ _ _ (mbind _ _) _ _ => apply runs_bind
  | |- runs _ _ _ _ _ (mret _) _ _ => apply runs_ret
  | |- runs _ _ _ _ _ vget _ _ => apply runs_get
  | |- runs _ _ _ _ _ (vraise _) _ _ => apply runs_raise; eassumption
  | |- runs _ _ _ _ _ (PUSH _) _ _ => vrule runs_PUSH
  | |- runs _ _ _ _ _ POP _ _ => vrule runs_POP
  | |- runs _ _ _ _ _ TOP _ _ => vrule runs_TOP
  | |- runs _ _ _ _ _ (SET_TOP _) _ _ => vrule runs_SET_TOP
  | |- runs _ _ _ _ _ (move_sp _) _ _ => vrule runs_move
  | |- runs _ _ _ _ _ (peek _) _ _ => vrule runs_peek
  | |- runs _ _ _ _ _ (poke _ _) _ _ => vrule runs_poke
  | |- runs _ _ _ _ _ (peek_range _ _) _ _ => vrule runs_peek_range
  | |- runs _ _ _ _ _ (call1 _) _ _ => vrule runs_call1
  | |- runs _ _ _ _ _ (call _) _ _ => vrule runs_call; cbn [results] in *
  | |- runs _ _ _ _ _ (poke_range _ _) _ _ => eapply runs_poke_range; try eassumption; [right; lia|intros]
  | |- runs _ _ _ _ _ (load_local _) _ _ =>
      first [eapply runs_load_cell; [eassumption..|intros ?] | eapply runs_load_local; [eassumption..|intros ?]]
  | |- runs _ _ _ _ _ (is_true _) _ _ => vrule runs_is_true
  | |- runs _ _ _ _ _ (make_raise _) _ _ => vrule runs_make_raise
  | |- runs _ _ _ _ _ (new_exception _) _ _ => vrule runs_new_exception
  | |- runs _ _ _ _ _ (load_check _) _ _ => vrule runs_load_check
  | |- runs _ _ _ _ _ (load_method_at _ _ _) _ _ => vrule runs_load_method
  | |- runs _ _ _ _ _ (constant _ _) _ _ => vrule runs_constant
  | |- runs _ _ _ _ _ dispatch_with_pend_exc_check _ _ => vrule runs_pend
  | |- runs _ _ _ _ _ (jump _) _ _ => vrule runs_jump
  | |- runs _ _ _ _ _ (set_world _) _ _ => vrule runs_set_world
  | |- runs _ _ _ _ _ (cell_get _) _ _ => vrule runs_cell_get
  | |- runs _ _ _ _ _ (cell_set _ _) _ _ => vrule runs_cell_set
  | |- runs _ _ _ _ _ (store_local _ _) _ _ => vrule runs_store_local
  | |- runs _ _ _ _ _ (if decide ?b then _ else _) _ _ => destruct (decide b)
  | |- runs _ _ _ _ _ (if ?b then _ else _) _ _ => destruct b eqn:?
  end.
Ltac vgo := repeat (vstep; try lia).

Section Effects.
Context {W : Type} {R : Runtime W} {L : RuntimeLaws R} (f : mp_obj_fun_bc_t).
Context (n_locals n_state : nat) (cells : list nat) (Hlocals : (n_locals <= n_state)%nat).
Implicit Types s : mp_code_state_t W.
Abbreviation limit := (stack_limit n_locals n_state).
Abbreviation runs := (runs n_locals n_state cells).
Abbreviation within := (within n_locals n_state cells).

(** From height [len], popping [npop] and pushing [npush]. *)
Definition moved (len npop npush : nat) s0 s (_ : unit) s' : Prop :=
  within (len - npop) s0 s' /\ v_sp s' = Z.of_nat (len - npop + npush) - 1 /\ v_ip s' = v_ip s.

Ltac vdone := split; [eassumption|split; [lia|congruence]].

Lemma arg_slots_nonneg a : 0 <= arg_slots a.
Proof.
  unfold arg_slots. assert (0 <= Z.land a 255) by (apply Z.land_nonneg; lia).
  assert (0 <= Z.land (Z.shiftr a 7) 0x1fe) by (apply Z.land_nonneg; lia). lia.
Qed.

Lemma poke_results base s0 s l n (Q : unit -> mp_code_state_t W -> Prop) :
  within base s0 s -> length l = n -> Z.of_nat base <= v_sp s -> v_sp s + Z.of_nat n <= Z.of_nat limit ->
  (forall s', within base s0 s' -> v_sp s' = v_sp s -> v_ip s' = v_ip s -> Q tt s') ->
  runs base s0 (poke_range 0 l) s Q.
Proof.
  intros Hw Hl H1 H2 HQ. eapply runs_poke_range; try eassumption.
  destruct l; [by left|right; cbn [length] in *; lia].
Qed.

Lemma execute_runs i o s0 s len need npop npush extra :
  i_op i = Some o -> effect o (i_a i) (i_b i) = Some (need, npop, npush, extra) ->
  operand_ok f n_locals cells o (i_a i) = true -> 0 <= i_b i -> (0 <= i_a i \/ o = MP_BC_LOAD_CONST_SMALL_INT) ->
  within (len - npop) s0 s -> v_sp s = Z.of_nat len - 1 ->
  (need <= len)%nat -> (npop <= need)%nat -> (len + extra <= limit)%nat ->
  runs (len - npop) s0 (execute f i) s (moved len npop npush s0 s).
Proof.
  intros Hi He Hop Hb Ha Hw Hsp Hneed Hpop Hfit.
  assert (limit <= n_state)%nat by (unfold stack_limit; lia).
  unfold execute. rewrite Hi. pose proof (arg_slots_nonneg (i_a i)).
  set (a := i_a i) in *. set (b := i_b i) in *. clearbody a b.
  destruct o; try done; cbn [effect] in He; (destruct Ha as [Ha|Ha]; [|try discriminate Ha]).
  (* what needs facts of its own *)
  all: try unfold exec_make_function.
  all: cbn [exec_load exec_store exec_delete exec_shuffle exec_build exec_call exec_import exec_multi operand_ok] in *.
  all: try match goal with |- context [Z.land ?x 255] =>
         assert (0 <= Z.land x 255) by (apply Z.land_nonneg; lia);
         assert (0 <= Z.land (Z.shiftr x 8) 255) by (apply Z.land_nonneg; lia) end.
  all: try match goal with |- context [Z.shiftr ?x 2] => assert (0 <= Z.shiftr x 2) by (apply Z.shiftr_nonneg; lia) end.
  all: try match goal with H : _ && _ = true |- _ => pose proof (proj1 (andb_prop _ _ H)) end.
  all: try match goal with |- context [?x =? 3] => destruct (Z.eqb_spec x 3) end.
  all: try match goal with |- context [Z.land ?x 3 =? 1] => destruct (Z.eqb_spec (Z.land x 3) 1) end.
  all: try match goal with |- context [Z.land ?x 3 =? 0] => destruct (Z.eqb_spec (Z.land x 3) 0); [try congruence|] end.
  all: try (injection He as <- <- <- <-).
  all: try (vgo; vdone).
Qed.
End Effects.
