(* ===== verification/VmInv.v ===== *)
(** The stacks of the interpreter as the checker sees them: the invariant, what is
    left of it when an exception is raised, and the handler of exceptions. *)
From S2P Require Import Prelude Bytecode Vm VmSafe VmRun.

Section Invariant.
Context {W : Type} {R : Runtime W} {L : RuntimeLaws R} (f : mp_obj_fun_bc_t).
Context (n_locals n_state : nat) (cells : list nat) (shapes : gmap nat frame).
Implicit Types (s : mp_code_state_t W) (F G : frame) (st : list obj) (ex : list mp_exc_stack_t).
Abbreviation limit := (stack_limit n_locals n_state).
Abbreviation runs := (runs n_locals n_state cells).
Abbreviation within := (within n_locals n_state cells).
Abbreviation locals_ok := (locals_ok n_locals n_state cells).

(** The operand stack (top first) and the blocks that a shape stands for. *)
Inductive shaped : frame -> list obj -> list mp_exc_stack_t -> Prop :=
  | sh_nil : shaped [] [] []
  | sh_slot F st ex o : shaped F st ex -> shaped (ISlot :: F) (o :: st) ex
  | sh_exc F st ex e : shaped F st ex -> shaped (IExc :: F) (ObjExc e :: st) ex
  | sh_block F st ex k h p : shaped F st ex ->
      shaped (IBlock k h :: F) st (MkBlock h (Z.of_nat (length st) - 1) (finally_kind k) p :: ex)
  | sh_active F st ex b : shaped F st ex -> shaped (IActive (handler b) :: F) st (b :: ex)
  | sh_ecb_exc F st ex b o w : shaped F st ex -> (o = mp_const_none \/ exists e, o = ObjExc e) ->
      shaped (IEcb (handler b) w :: F) (o :: st) (b :: ex)
  | sh_ecb_return F st ex h w v : shaped F st ex -> shaped (IEcb h w :: F) (SmallInt (-1) :: v :: st) ex
  | sh_ecb_jump F st ex h w n dest : shaped F st ex -> 0 <= n < 256 ->
      unwind_ok shapes n dest (if w : bool then drop 2 F else F) = true -> shaped (IEcb h w :: F) (SmallInt n :: Raw dest :: st) ex.

Lemma shaped_height F st ex : shaped F st ex -> (length st <= height F)%nat /\ (length ex <= depth F)%nat.
Proof. induction 1; simpl; lia. Qed.

(** ** The array below the top *)

(** The array begins with the stack [st]. *)
Definition low st s : Prop := take (length st) (v_state s) = reverse st.

Lemma low_app top st s : low (top ++ st) s -> low st s.
Proof.
  unfold low. intros H. apply (f_equal (take (length st))) in H.
  rewrite reverse_app, length_app, take_take, Nat.min_l in H by lia. rewrite H.
  by rewrite take_app_length' by (by rewrite length_reverse).
Qed.

Lemma low_lookup st s (k : nat) : low st s -> (k < length st)%nat -> v_state s !! (length st - 1 - k)%nat = st !! k.
Proof.
  intros H Hk. rewrite <- (lookup_take_lt (v_state s) (length st)) by lia. unfold low in H. rewrite H.
  rewrite reverse_lookup by lia. f_equal. lia.
Qed.

Lemma low_cons st s o : low st s -> v_state s !! length st = Some o -> low (o :: st) s.
Proof. unfold low. intros H Ho. cbn [length]. by rewrite (take_S_r _ _ o) by done; rewrite H, reverse_cons. Qed.

Lemma low_extend st s k : low st s -> (length st + k <= length (v_state s))%nat ->
  exists top, length top = k /\ low (top ++ st) s.
Proof.
  intros H. induction k as [|k IH]; intros Hk; [by exists []|]. destruct IH as (top & Hl & Hlow); [lia|].
  destruct (lookup_lt_is_Some_2 (v_state s) (length (top ++ st))) as [o Ho]; [rewrite length_app; lia|].
  exists (o :: top). split; [simpl; lia|]. by apply low_cons.
Qed.

Lemma low_within st s0 s : low st s0 -> within (length st) s0 s -> low st s.
Proof. intros H [_ E _ _ _ _]. unfold low in *. by rewrite E. Qed.

Lemma shaped_slots n : forall F st ex, slots_on_top n F = true -> shaped F st ex -> forall k, (k <= n)%nat ->
  exists top st', st = top ++ st' /\ length top = k /\ shaped (drop k F) st' ex.
Proof.
  induction n as [|n IH]; intros F st ex Hs Hsh k Hk.
  { replace k with 0%nat by lia. by exists [], st. }
  cbn [slots_on_top] in Hs. destruct F as [|i F]; [done|]. apply andb_prop in Hs as [Hi Hs].
  destruct k as [|k]; [by exists [], st|].
  inversion Hsh; subst; try done; (destruct (IH _ _ _ Hs ltac:(eassumption) k ltac:(lia)) as (top & st' & -> & Hl & Hsh');
    eexists (_ :: top), st'; split; [reflexivity|split; [simpl; lia|done]]).
Qed.

Lemma shaped_push F st ex top : shaped F st ex -> shaped (replicate (length top) ISlot ++ F) (top ++ st) ex.
Proof. intros H. induction top as [|o top IH]; [done|]. by constructor. Qed.

(** ** The invariant *)

Definition holds F s : Prop :=
  exists st, shaped F st (v_exc s) /\ low st s /\ v_sp s = Z.of_nat (length st) - 1 /\ locals_ok s.

Definition vm_inv s : Prop :=
  exists F, shapes !! v_ip s = Some F /\ holds F s
    /\ (v_inject s = None \/ bytecode f !! v_ip s = Some (opcode MP_BC_YIELD_FROM)).

(** Between calls: the state of a function that has not begun, or of a generator
    that has yielded; the top of the stack of the latter is for the value sent. *)
Definition vm_saved s : Prop :=
  exists F, shapes !! v_code_ip s = Some F
    /\ exists st, shaped F st (v_exc s) /\ low st s /\ v_code_sp s = Z.of_nat (length st) - 1 /\ locals_ok s.
Definition vm_yielded s : Prop :=
  exists F st, shapes !! v_code_ip s = Some (ISlot :: F) /\ shaped (ISlot :: F) st (v_exc s) /\ low st s
    /\ v_code_sp s = Z.of_nat (length st) - 1 /\ locals_ok s /\ v_inject s = None.

Definition returns_ok (k : mp_vm_return_kind_t) s : Prop :=
  match k with
  | MP_VM_RETURN_NORMAL => v_exc s = [] /\ 0 <= v_code_sp s /\ is_Some (v_state s !! Z.to_nat (v_code_sp s))
  | MP_VM_RETURN_YIELD => vm_yielded s /\ yields f shapes = true
  | MP_VM_RETURN_EXCEPTION => (exists e, v_state s !! 0%nat = Some (ObjExc e)) /\ -1 <= v_code_sp s < Z.of_nat (length (v_state s))
  end.

Definition good (r : vres W unit) : Prop :=
  match r with VOk _ s => vm_inv s | VRaise _ _ => False | VReturn k s => returns_ok k s end.

(** What is pushed above a part of the stack that stays. *)
Lemma inv_of_within F st s0 s k : shaped F st (v_exc s0) -> low st s0 -> within (length st) s0 s ->
  v_sp s = Z.of_nat (length st + k) - 1 -> (length st + k <= n_state)%nat ->
  shapes !! v_ip s = Some (replicate k ISlot ++ F) -> v_inject s0 = None -> vm_inv s.
Proof.
  intros Hsh Hlow Hw Hsp Hk Hshape Hinj. pose proof Hw as [(Hl & Hc & Hcsp) _ He _ _ Hi].
  destruct (low_extend st s k (low_within _ _ _ Hlow Hw)) as (top & Ht & Hlow'); [lia|]. subst k.
  eexists. split; [done|]. split; [|left; congruence].
  exists (top ++ st). split; [rewrite He; by apply shaped_push|]. split; [done|]. split; [rewrite length_app; lia|done].
Qed.

(** ** Where an exception goes *)

(** The innermost block that is not active, and the stack below it. *)
Definition raised (pc : nat) s : Prop :=
  v_code_ip s = pc /\ v_inject s = None /\ locals_ok s
  /\ exists G st act ex, blocks_ok shapes pc G = true /\ (match G with [] | IBlock _ _ :: _ => True | _ => False end)
     /\ shaped G st ex /\ low st s /\ v_exc s = act ++ ex /\ Forall (fun b => (handler b <= pc)%nat) act.

Lemma blocks_split pc F st ex : blocks_ok shapes pc F = true -> shaped F st ex ->
  exists G top st' act ex', st = top ++ st' /\ ex = act ++ ex' /\ blocks_ok shapes pc G = true
    /\ (match G with [] | IBlock _ _ :: _ => True | _ => False end) /\ shaped G st' ex'
    /\ Forall (fun b => (handler b <= pc)%nat) act.
Proof.
  intros Hb Hsh. induction Hsh as [|F st ex o Hsh IH|F st ex e Hsh IH|F st ex fin h p Hsh IH|F st ex b Hsh IH|F st ex b o w Hsh IH Ho
    |F st ex h w v Hsh IH|F st ex h w n dest Hsh IH Hn Hu].
  - exists [], [], [], [], []. repeat split; constructor.
  - destruct (IH Hb) as (G & top & st' & act & ex' & -> & -> & H). by exists G, (o :: top), st', act, ex'.
  - destruct (IH Hb) as (G & top & st' & act & ex' & -> & -> & H). by exists G, (ObjExc e :: top), st', act, ex'.
  - exists (IBlock fin h :: F), [], st, [], (MkBlock h (Z.of_nat (length st) - 1) (finally_kind fin) p :: ex).
    repeat split; try done; by constructor.
  - cbn [blocks_ok] in Hb. apply andb_prop in Hb as [H1 Hb].
    destruct (IH Hb) as (G & top & st' & act & ex' & -> & -> & H2 & H3 & H4 & H5).
    exists G, top, st', (b :: act), ex'. repeat split; try done. constructor; [by apply Nat.leb_le|done].
  - cbn [blocks_ok] in Hb. apply andb_prop in Hb as [H1 Hb].
    destruct (IH Hb) as (G & top & st' & act & ex' & -> & -> & H2 & H3 & H4 & H5).
    exists G, (o :: top), st', (b :: act), ex'. repeat split; try done. constructor; [by apply Nat.leb_le|done].
  - cbn [blocks_ok] in Hb. apply andb_prop in Hb as [H1 Hb].
    destruct (IH Hb) as (G & top & st' & act & ex' & -> & -> & H). by exists G, (SmallInt (-1) :: v :: top), st', act, ex'.
  - cbn [blocks_ok] in Hb. apply andb_prop in Hb as [H1 Hb].
    destruct (IH Hb) as (G & top & st' & act & ex' & -> & -> & H). by exists G, (SmallInt n :: Raw dest :: top), st', act, ex'.
Qed.

Lemma raised_of_within pc F st ex act0 s0 s : blocks_ok shapes pc F = true -> shaped F st ex ->
  v_exc s0 = act0 ++ ex -> Forall (fun b => (handler b <= pc)%nat) act0 -> low st s0 ->
  within (length st) s0 s -> v_code_ip s0 = pc -> v_inject s0 = None -> raised pc s.
Proof.
  intros Hb Hsh Hex0 Hact Hlow Hw Hpc Hinj. pose proof Hw as [Hlo _ He Hc _ Hi].
  split; [congruence|]. split; [congruence|]. split; [done|].
  destruct (blocks_split _ _ _ _ Hb Hsh) as (G & top & st' & act & ex' & -> & Hex & H1 & H2 & H3 & H4).
  exists G, st', (act0 ++ act), ex'. repeat split; try done.
  - eapply low_app, low_within; done.
  - by rewrite He, Hex0, Hex, app_assoc.
  - by apply list.Forall_app.
Qed.

Lemma slots_drop n : forall F pc, slots_on_top n F = true -> blocks_ok shapes pc F = true -> blocks_ok shapes pc (drop n F) = true.
Proof. induction n as [|n IH]; intros [|[] F] pc; try done; cbn [slots_on_top is_slot andb blocks_ok drop]; apply IH. Qed.
End Invariant.
