(* ===== verification/VmHandler.v ===== *)
(** What is raised goes to its handler: the code the checker has accepted, and the
    way from an exception to the state with which its handler begins. *)
From S2P Require Import Prelude Bytecode Vm VmSafe VmRun VmInv.

(** ** Decoding *)

Lemma decode_byte code pc i : decode code pc = Some i -> exists b, code !! pc = Some b /\ i_op i = entry_table b.
Proof.
  unfold decode. destruct (code !! pc) as [b|] eqn:Hb; [|done]. cbn [mbind option_bind]. exists b. split; [done|].
  destruct (entry_table b) as [o|] eqn:He; [|by simplify_eq].
  destruct (operand_of o); repeat case_match; simplify_eq/=; try done;
    repeat match goal with H : (_ ≫= _) = Some _ |- _ => apply bind_Some in H as ([? ?] & _ & H) || apply bind_Some in H as (? & _ & H) end;
    by simplify_eq.
Qed.

Lemma entry_table_single b o : entry_table b = Some o -> o ∉ multi_opcs.*1 -> b = opcode o.
Proof.
  unfold entry_table. destruct (find _ single_opcs) as [o'|] eqn:E.
  - intros [= <-] _. apply find_some in E as [_ E]. lia.
  - intros H Ho. destruct (find _ multi_opcs) as [[o' n]|] eqn:E'; [|done]. injection H as <-. apply find_some in E' as [E' _].
    destruct Ho. apply list_elem_of_fmap. exists (o', n). split; [done|]. by apply list_elem_of_In.
Qed.

Lemma decode_for_iter code pc i : code !! pc = Some (opcode MP_BC_FOR_ITER) -> decode code pc = Some i ->
  i_op i = Some MP_BC_FOR_ITER /\ decode_ulabel code (S pc) = Some (i_a i, i_next i).
Proof.
  intros Hb. unfold decode. rewrite Hb. cbn [mbind option_bind].
  replace (entry_table (opcode MP_BC_FOR_ITER)) with (Some MP_BC_FOR_ITER) by (by vm_compute). cbn [operand_of].
  destruct (decode_ulabel code (S pc)) as [[a ip]|]; intros [= <-]; done.
Qed.

Lemma decode_yield_from code pc i : code !! pc = Some (opcode MP_BC_YIELD_FROM) -> decode code pc = Some i ->
  i_op i = Some MP_BC_YIELD_FROM /\ i_next i = S pc.
Proof.
  intros Hb. unfold decode. rewrite Hb. cbn [mbind option_bind].
  replace (entry_table (opcode MP_BC_YIELD_FROM)) with (Some MP_BC_YIELD_FROM) by (by vm_compute). cbn [operand_of].
  by intros [= <-].
Qed.

Lemma decode_none code pc i o : decode code pc = Some i -> i_op i = Some o -> operand_of o = OpNone -> i_next i = S pc.
Proof.
  intros Hd Ho Hop. destruct (decode_byte _ _ _ Hd) as (b & Hb & He). rewrite Ho in He. unfold decode in Hd.
  rewrite Hb in Hd. cbn [mbind option_bind] in Hd. rewrite <- He, Hop in Hd. by injection Hd as <-.
Qed.

Section Handler.
Context {W : Type} {R : Runtime W} {L : RuntimeLaws R} (f : mp_obj_fun_bc_t).
Context (n_locals n_state : nat) (cells : list nat) (shapes : gmap nat frame).
Context (Hcode : check_code f n_locals n_state cells shapes = true).
Implicit Types (s : mp_code_state_t W) (F G : frame) (st : list obj) (ex : list mp_exc_stack_t).
Abbreviation limit := (stack_limit n_locals n_state).
Abbreviation within := (within n_locals n_state cells).
Abbreviation locals_ok := (locals_ok n_locals n_state cells).
Abbreviation shaped := (shaped shapes).
Abbreviation vm_inv := (vm_inv f n_locals n_state cells shapes).
Abbreviation vm_saved := (vm_saved n_locals n_state cells shapes).
Abbreviation raised := (raised n_locals n_state cells shapes).
Abbreviation good := (good f n_locals n_state cells shapes).

(** ** What the checker has seen *)

Lemma code_sizes : (n_locals <= n_state)%nat /\ (0 < n_state)%nat.
Proof.
  pose proof Hcode as H. unfold check_code in H. apply andb_prop in H as [H _]. apply andb_prop in H as [H1 H2].
  apply Nat.leb_le in H1. apply Nat.ltb_lt in H2. done.
Qed.

Lemma code_at pc F : shapes !! pc = Some F ->
  is_Some (traceback_of f pc) /\ exists i, decode (bytecode f) pc = Some i
    /\ blocks_ok shapes pc F = true /\ (height F <= limit)%nat /\ (depth F <= n_exc_stack f)%nat.
Proof.
  intros HF. destruct (check_code_at _ _ _ _ _ _ _ Hcode HF) as [Hi Ht]. split; [done|]. unfold check_instr in Hi.
  destruct (decode (bytecode f) pc) as [i|]; [|done]. exists i. split; [done|].
  apply andb_prop in Hi as [Hi _]. apply andb_prop in Hi as [Hi H2]. apply andb_prop in Hi as [H0 H1].
  apply Nat.leb_le in H1. apply Nat.leb_le in H2. done.
Qed.

Lemma code_byte pc F : shapes !! pc = Some F -> exists b, bytecode f !! pc = Some b.
Proof. intros HF. destruct (code_at _ _ HF) as (_ & i & Hd & _). destruct (decode_byte _ _ _ Hd) as (b & Hb & _). by exists b. Qed.

(** ** Writing a slot *)

Lemma wr_slot s i o : locals_ok s -> 0 <= i < Z.of_nat limit ->
  wr i o s = Some (VOk tt (MkCode (v_ip s) (v_sp s) (v_exc s) (<[Z.to_nat i := o]> (v_state s)) (v_code_ip s) (v_code_sp s)
                             (v_inject s) (v_world s)))
  /\ locals_ok (MkCode (v_ip s) (v_sp s) (v_exc s) (<[Z.to_nat i := o]> (v_state s)) (v_code_ip s) (v_code_sp s)
                             (v_inject s) (v_world s)).
Proof.
  intros (Hl & Hc & Hcsp) Hi. unfold stack_limit in Hi. split.
  - unfold wr, vget, mbind, V_bind, set_state. by replace ((0 <=? i) && (i <? Z.of_nat (length (v_state s)))) with true by lia.
  - split; [|split]; cbn [v_state]; [by rewrite length_insert| |done]. intros c Hin Hlt. destruct (Hc c Hin Hlt) as [k Hk].
    exists k. by rewrite list_lookup_insert_ne by lia.
Qed.

(** The local variables do not depend on the rest. *)
Lemma locals_saved s ip sp exc cip csp inj w : locals_ok s -> -1 <= csp < Z.of_nat n_state ->
  locals_ok (MkCode ip sp exc (v_state s) cip csp inj w : mp_code_state_t W).
Proof. by intros (Hl & Hc & _). Qed.

Lemma locals_saved_low st s ip sp exc cip csp inj w : locals_ok s -> low st s -> csp = Z.of_nat (length st) - 1 ->
  locals_ok (MkCode ip sp exc (v_state s) cip csp inj w : mp_code_state_t W).
Proof.
  intros Hlo Hlow ->. apply locals_saved; [done|]. destruct Hlo as [Hl _]. apply (f_equal length) in Hlow.
  rewrite length_take, length_reverse in Hlow. lia.
Qed.

Lemma low_insert st s (i : nat) o l ip sp exc cip csp inj w : low st s -> (length st <= i)%nat -> l = <[i := o]> (v_state s) ->
  low st (MkCode ip sp exc l cip csp inj w : mp_code_state_t W).
Proof. unfold low. cbn [v_state]. intros H Hi ->. by rewrite take_insert_ge by lia. Qed.

Lemma low_push st s o l ip sp exc cip csp inj w : low st s -> (length st < length (v_state s))%nat -> l = <[length st := o]> (v_state s) ->
  low (o :: st) (MkCode ip sp exc l cip csp inj w : mp_code_state_t W).
Proof.
  intros H Hi ->. apply low_cons; [by eapply low_insert|]. cbn [v_state]. by rewrite list_lookup_insert_eq by lia.
Qed.

(** ** The outer loop *)

Lemma outer_saved s : vm_saved s -> v_inject s = None ->
  exists s', outer_dispatch_loop f s = Some (VOk tt s') /\ vm_inv s'.
Proof.
  intros (F & HF & st & Hsh & Hlow & Hsp & Hlo) Hinj. destruct (code_byte _ _ HF) as [b Hb].
  unfold outer_dispatch_loop, vget, set_ip, set_sp, vlift, mbind, V_bind. cbn -[lookup]. rewrite Hb, Hinj. cbn -[lookup].
  eexists. split; [done|]. exists F. split; [done|]. split; [|by left]. exists st. repeat split; try done; apply Hlo.
Qed.

(** ** The handler *)

(** [StopIteration] from the iterator of a loop or from the generator that is
    yielded from. *)
Definition stop_ok pc s : Prop := forall i F, decode (bytecode f) pc = Some i -> shapes !! pc = Some F ->
  (i_op i = Some MP_BC_FOR_ITER -> exists st, shaped F st (v_exc s) /\ low (drop 4 st) s /\ v_code_sp s = Z.of_nat (length st) - 1)
  /\ (i_op i = Some MP_BC_YIELD_FROM -> exists st, shaped F st (v_exc s) /\ low (drop 2 st) s /\ v_code_sp s = Z.of_nat (length st) - 2).

Lemma check_special_at pc F i o : shapes !! pc = Some F -> decode (bytecode f) pc = Some i -> i_op i = Some o ->
  effect o (i_a i) (i_b i) = None -> check_special f n_locals n_state shapes o i F = true.
Proof.
  intros HF Hd Ho He. destruct (check_code_at _ _ _ _ _ _ _ Hcode HF) as [Hi _]. unfold check_instr in Hi.
  rewrite Hd, Ho, He in Hi. by apply andb_prop in Hi as [_ Hi]; apply andb_prop in Hi as [_ Hi].
Qed.

Lemma add_traceback_ok pc F e s : shapes !! pc = Some F -> v_code_ip s = pc ->
  exists w, add_traceback f e s =
    Some (VOk tt (MkCode (v_ip s) (v_sp s) (v_exc s) (v_state s) (v_code_ip s) (v_code_sp s) (v_inject s) w)).
Proof.
  intros HF <-. destruct (code_at _ _ HF) as [[[[file line] block] Ht] _]. unfold add_traceback.
  destruct (decide _) as [_|_]; [exists (v_world s); by destruct s|].
  unfold vget, vlift, set_world, mbind, V_bind. rewrite Ht. by eexists.
Qed.

Lemma dropped_active pc act ex : Forall (fun b => (handler b <= pc)%nat) act ->
  active_blocks_dropped pc (act ++ ex) = active_blocks_dropped pc ex.
Proof. induction 1 as [|b act Hb _ IH]; [done|]. cbn [app active_blocks_dropped]. by rewrite (proj2 (Nat.leb_le _ _) Hb). Qed.

Lemma catch_raised pc F e s : shapes !! pc = Some F -> raised pc s ->
  exists r, (catch_or_propagate f e;; outer_dispatch_loop f) s = Some r /\ good r.
Proof.
  intros HF (Hpc & Hinj & Hlo & G & st & act & ex & Hb & HG & Hsh & Hlow & Hex & Hact). pose proof code_sizes as [Hsz Hpos].
  destruct (add_traceback_ok _ _ e _ HF Hpc) as [w Hw].
  unfold catch_or_propagate. vrun. cbn [v_code_ip v_exc]. rewrite Hpc, Hex, dropped_active by done.
  destruct G as [|[| |fin h| |] G]; try done; inversion Hsh; subst; pose proof Hlo as (Hlen & Hcell & Hcsp).
  - cbn [active_blocks_dropped]. unfold set_exc, wr, vget, set_state, mbind, V_bind. cbn [v_state].
    replace ((0 <=? 0) && (0 <? Z.of_nat (length (v_state s)))) with true by lia.
    eexists. split; [done|]. cbn [good returns_ok v_state v_code_sp]. change (Z.to_nat 0) with 0%nat. rewrite length_insert, Hlen.
    split; [exists e; by rewrite list_lookup_insert_eq by lia|done].
  - match goal with H : shaped G st ?l |- _ => rename H into Hsh', l into ex' end.
    cbn [blocks_ok] in Hb. apply andb_prop in Hb as [Hb Hb']. apply andb_prop in Hb as [Hh Hf].
    apply Nat.ltb_lt in Hh. apply bool_decide_eq_true in Hf.
    cbn [active_blocks_dropped handler]. rewrite (proj2 (Nat.leb_gt _ _)) by done. cbn [handler val_sp is_finally].
    destruct (code_at _ _ Hf) as (_ & _ & _ & _ & Hfit & _). pose proof (shaped_height _ _ _ _ Hsh') as [Hh' _].
    assert (length st < limit)%nat as Hroom by (destruct fin; cbn in Hfit; lia).
    unfold PUSH. vrun. cbn [v_sp].
    match goal with |- context [(wr ?i ?o ≫= _) ?s0] => destruct (wr_slot s0 i o) as [E Hlo']; [done|lia|] end. vrun.
    cbn [v_ip v_sp v_exc v_state v_code_ip v_code_sp v_inject v_world] in *.
    match goal with |- context [outer_dispatch_loop f ?s0] => destruct (outer_saved s0) as (s' & Hs' & Hinv) end.
    + exists (handler_frame fin h G). split; [done|]. exists (ObjExc e :: st). cbn [v_exc v_code_sp length].
      split; [|split; [|split; [lia|refine (locals_saved _ _ _ _ _ _ _ _ Hlo' _); unfold stack_limit in *; lia]]].
      * destruct fin; cbn [handler_frame finally_kind].
        -- apply sh_exc. by apply (sh_active shapes G st ex' (MkBlock h _ false (Some e))).
        -- apply (sh_ecb_exc shapes G st ex' (MkBlock h _ true (Some e))); [done|right; by eexists].
        -- apply (sh_ecb_exc shapes G st ex' (MkBlock h _ true (Some e))); [done|right; by eexists].
      * apply (low_push _ s); [done| |f_equal; lia]. unfold stack_limit in *. lia.
    + done.
    + rewrite Hs'. by eexists.
Qed.

Lemma handle_raised {A} pc F e s : shapes !! pc = Some F -> raised pc s -> stop_ok pc s ->
  exists r, handle f (Some (VRaise (A := A) e s)) = Some r /\ good r.
Proof.
  intros HF Hr Hstop. pose proof Hr as (Hpc & Hinj & Hlo & _). destruct (code_at _ _ HF) as (_ & i & Hd & _).
  destruct (code_byte _ _ HF) as [b Hb]. specialize (Hstop i F Hd HF) as [Hfor Hfrom]. cbn [handle].
  unfold exception_handler. vrun. rewrite Hpc. erewrite V_bind_Ok by (unfold vlift; rewrite Hb; reflexivity).
  destruct (is_StopIteration e && (b =? opcode MP_BC_FOR_ITER)) eqn:E1.
  { apply andb_prop in E1 as [_ Eb]. apply Z.eqb_eq in Eb as ->. destruct (decode_for_iter _ _ _ Hb Hd) as [Ho Hlab].
    destruct (Hfor Ho) as (st & Hsh & Hlow & Hsp). pose proof (check_special_at _ _ _ _ HF Hd Ho eq_refl) as Hs.
    cbn [check_special] in Hs. apply andb_prop in Hs as [Hs _]. apply andb_prop in Hs as [Hs Ha]. apply andb_prop in Hs as [Hs _].
    unfold shape_at in Ha. apply andb_prop in Ha as [Ha HF']. apply bool_decide_eq_true in HF'.
    destruct (shaped_slots _ _ _ _ _ Hs Hsh 4 (le_n _)) as (top & st' & -> & Htop & Hsh').
    rewrite drop_app_length' in Hlow by done. erewrite V_bind_Ok by (unfold vlift; rewrite Hlab; reflexivity). vrun.
    match goal with |- context [outer_dispatch_loop f ?s0] => destruct (outer_saved s0) as (s' & Hs' & Hinv) end; [|done|].
    - eexists. split; [exact HF'|]. exists st'. cbn [v_code_sp v_exc].
      rewrite length_app, Htop in Hsp. pose proof (proj2 (proj2 Hlo)) as Hcsp. unfold NSLOTS, MP_OBJ_ITER_BUF_NSLOTS.
      split; [done|]. split; [done|]. split; [lia|]. refine (locals_saved _ _ _ _ _ _ _ _ Hlo _). lia.
    - rewrite Hs'. by eexists. }
  destruct (is_StopIteration e && (b =? opcode MP_BC_YIELD_FROM)) eqn:E2; [|by eapply catch_raised].
  apply andb_prop in E2 as [_ Eb]. apply Z.eqb_eq in Eb as ->. destruct (decode_yield_from _ _ _ Hb Hd) as [Ho Hnext].
  destruct (Hfrom Ho) as (st & Hsh & Hlow & Hsp). pose proof (check_special_at _ _ _ _ HF Hd Ho eq_refl) as Hs.
  cbn [check_special] in Hs. destruct F as [|[] [|[] F]]; try done. unfold next_is in Hs. rewrite Hnext in Hs. apply bool_decide_eq_true in Hs.
  inversion Hsh as [|? st1 ? o1 Hsh1| | | | | |]; subst. inversion Hsh1 as [|? st2 ? o2 Hsh2| | | | | |]; subst.
  cbn [drop length] in *. destruct (code_at _ _ HF) as (_ & _ & _ & _ & Hfit & _). pose proof (shaped_height _ _ _ _ Hsh2) as [Hh' _].
  cbn [height slots_of] in Hfit. pose proof Hlo as (Hlen & _ & Hcsp).
  unfold exception_value. vrun.
  match goal with |- context [(wr ?i ?o ≫= _) ?s0] => destruct (wr_slot s0 i o) as [E Hlo']; [done|lia|] end. vrun.
  match goal with |- context [outer_dispatch_loop f ?s0] => destruct (outer_saved s0) as (s' & Hs' & Hinv) end; [|done|].
  - eexists. split; [exact Hs|]. exists (mp_obj_exception_get_value e (v_world s) :: st2). cbn [v_exc v_code_sp length].
    split; [by constructor|]. split; [|split; [lia|done]]. apply (low_push _ s); [done| |cbn [v_state]; f_equal; lia]. unfold stack_limit in *. lia.
  - rewrite Hs'. by eexists.
Qed.
End Handler.
