(* ===== verification/VmSteps.v ===== *)
(** One instruction at a time: every instruction of checked code goes to a state
    with the shape of its next instruction, to an exception, or out of the function. *)
From S2P Require Import Prelude Bytecode Vm VmSafe VmRun VmEffect VmInv VmHandler.

Section Steps.
Context {W : Type} {R : Runtime W} {L : RuntimeLaws R} (f : mp_obj_fun_bc_t).
Context (n_locals n_state : nat) (cells : list nat) (shapes : gmap nat frame).
Context (Hcode : check_code f n_locals n_state cells shapes = true).
Implicit Types (s : mp_code_state_t W) (F G : frame) (st : list obj) (ex : list mp_exc_stack_t).
Abbreviation limit := (stack_limit n_locals n_state).
Abbreviation runs := (runs n_locals n_state cells).
Abbreviation within := (within n_locals n_state cells).
Abbreviation locals_ok := (locals_ok n_locals n_state cells).
Abbreviation shaped := (shaped shapes).
Abbreviation vm_inv := (vm_inv f n_locals n_state cells shapes).
Abbreviation raised := (raised n_locals n_state cells shapes).
Abbreviation returns_ok := (returns_ok f n_locals n_state cells shapes).
Abbreviation good := (good f n_locals n_state cells shapes).
Abbreviation stop_ok := (stop_ok f shapes).

(** Inside the instruction at [pc]. *)
Record here (pc : nat) F st s : Prop := {
  at_code : v_code_ip s = pc;
  at_shape : shapes !! pc = Some F;
  at_shaped : shaped F st (v_exc s);
  at_low : low st s;
  at_sp : v_sp s = Z.of_nat (length st) - 1;
  at_locals : locals_ok s;
  at_inject : v_inject s = None }.

Definition safe (pc : nat) (r : option (vres W unit)) : Prop :=
  match r with
  | Some (VOk _ s) => vm_inv s
  | Some (VRaise _ s) => raised pc s /\ stop_ok pc s
  | Some (VReturn k s) => returns_ok k s
  | None => False
  end.

Lemma safe_good pc F r : shapes !! pc = Some F -> safe pc r -> exists r', handle f r = Some r' /\ good r'.
Proof.
  intros HF. destruct r as [[[] s|e s|k s]|]; [| |by eexists|done].
  - intros H. eexists. by split; [reflexivity|].
  - intros [H1 H2]. by eapply handle_raised.
Qed.

Lemma stop_other pc s i o : decode (bytecode f) pc = Some i -> i_op i = Some o ->
  o <> MP_BC_FOR_ITER -> o <> MP_BC_YIELD_FROM -> stop_ok pc s.
Proof. intros Hd Ho H1 H2 i' F Hd' _. split; congruence. Qed.

Lemma safe_bind {A} pc base s0 (m : V W A) (k : A -> V W unit) s : (forall s', within base s0 s' -> raised pc s' /\ stop_ok pc s') ->
  runs base s0 m s (fun a s' => safe pc (k a s')) -> safe pc ((m ≫= k) s).
Proof. intros Hr. unfold VmRun.runs, mbind, V_bind. destruct (m s) as [[a s'|e s'|r s']|]; [done|apply Hr|done..]. Qed.

Lemma safe_of_runs pc base s0 (m : V W unit) s : (forall s', within base s0 s' -> raised pc s' /\ stop_ok pc s') ->
  runs base s0 m s (fun _ s' => vm_inv s') -> safe pc (m s).
Proof. intros Hr. unfold VmRun.runs. destruct (m s) as [[[] s'|e s'|r s']|]; [done|apply Hr|done..]. Qed.

(** What [here] gives for the heights. *)
Lemma here_height pc F st s : here pc F st s -> (length st <= height F)%nat /\ (height F <= limit)%nat /\ blocks_ok shapes pc F = true.
Proof.
  intros []. destruct (code_at _ _ _ _ _ Hcode _ _ at_shape0) as (_ & i & _ & Hb & Hh & _).
  by destruct (shaped_height _ _ _ _ at_shaped0).
Qed.

Lemma here_raised pc F st s n s' : here pc F st s -> slots_on_top n F = true -> within (length st - n) s s' -> raised pc s'.
Proof.
  intros Hh Hs Hw. destruct (here_height _ _ _ _ Hh) as (_ & _ & Hb). destruct Hh as [H1 H2 H3 H4 H5 H6 H7].
  destruct (shaped_slots _ _ _ _ _ Hs H3 n (le_n _)) as (top & st' & -> & Htop & Hsh').
  rewrite length_app in Hw. replace (length top + length st' - n)%nat with (length st') in Hw by lia.
  eapply raised_of_within with (act0 := []) (F := drop n F) (st := st') (s0 := s); try done; [by apply slots_drop|by eapply low_app].
Qed.

Lemma here_next pc F st s n k s' : here pc F st s -> slots_on_top n F = true -> within (length st - n) s s' ->
  v_sp s' = Z.of_nat (length st - n + k) - 1 -> shapes !! v_ip s' = Some (replicate k ISlot ++ drop n F) -> vm_inv s'.
Proof.
  intros Hh Hs Hw Hsp HF'. destruct Hh as [H1 H2 H3 H4 H5 H6 H7]. pose proof (code_sizes _ _ _ _ _ Hcode) as [Hsz _].
  destruct (code_at _ _ _ _ _ Hcode _ _ HF') as (_ & i & _ & _ & Hlim & _).
  destruct (shaped_slots _ _ _ _ _ Hs H3 n (le_n _)) as (top & st' & -> & Htop & Hsh').
  destruct (shaped_height _ _ _ _ Hsh') as [Hht _].
  rewrite length_app in *. replace (length top + length st' - n)%nat with (length st') in * by lia.
  assert (forall j G, height (replicate j ISlot ++ G) = (j + height G)%nat) as Hrep.
  { induction j as [|j IH]; intros G; [done|]. cbn [replicate app height slots_of]. rewrite IH. lia. }
  rewrite Hrep in Hlim. eapply (inv_of_within _ _ _ _ _ (drop n F) st' s s' k); try done; [by eapply low_app|].
  unfold stack_limit in Hlim. lia.
Qed.

Lemma safe_runs n pc F st s (m : V W unit) : here pc F st s -> slots_on_top n F = true ->
  (forall s', within (length st - n) s s' -> stop_ok pc s') ->
  runs (length st - n) s m s (fun _ s' => within (length st - n) s s' /\ exists k,
    v_sp s' = Z.of_nat (length st - n + k) - 1 /\ shapes !! v_ip s' = Some (replicate k ISlot ++ drop n F)) ->
  safe pc (m s).
Proof.
  intros Hh Hs Hstop. unfold VmRun.runs, safe. destruct (m s) as [[[] s'|e s'|r s']|]; [|intros Hw|done..].
  - intros (Hw & k & Hsp & HF'). by eapply here_next.
  - split; [by eapply here_raised|by apply Hstop].
Qed.

Lemma slots_length n F st ex : slots_on_top n F = true -> shaped F st ex -> (n <= length st)%nat.
Proof. intros Hs Hsh. destruct (shaped_slots _ _ _ _ _ Hs Hsh n (le_n _)) as (top & st' & -> & <- & _). rewrite length_app. lia. Qed.

Lemma shape_at_Some z F : shape_at shapes z F = true -> 0 <= z /\ shapes !! Z.to_nat z = Some F.
Proof. unfold shape_at. intros H. apply andb_prop in H as [H1 H2]. apply bool_decide_eq_true in H2. split; [lia|done]. Qed.
Lemma next_Some i F : next_is shapes i F = true -> shapes !! i_next i = Some F.
Proof. by intros ?%bool_decide_eq_true. Qed.

(** ** Instructions that go on with the next one *)

Lemma effect_safe pc F st s i o need npop npush extra :
  here pc F st s -> decode (bytecode f) pc = Some i -> v_ip s = i_next i -> i_op i = Some o ->
  effect o (i_a i) (i_b i) = Some (need, npop, npush, extra) -> enters_handler o i F = false -> safe pc (execute f i s).
Proof.
  intros Hh Hd Hip Ho He Hent. pose proof (code_sizes _ _ _ _ _ Hcode) as [Hsz _]. pose proof Hh as [H1 H2 H3 H4 H5 H6 H7].
  destruct (here_height _ _ _ _ Hh) as (Hht & _ & _).
  destruct (check_code_at _ _ _ _ _ _ _ Hcode H2) as [Hi _]. unfold check_instr in Hi. rewrite Hd, Ho, He in Hi.
  apply andb_prop in Hi as [_ Hi]. apply andb_prop in Hi as [Hi He1]. apply andb_prop in Hi as [Hi Ha]. apply andb_prop in Hi as [Hop Hb].
  apply andb_prop in He1 as [He1 Hn]. apply andb_prop in He1 as [He1 Hfit]. apply andb_prop in He1 as [Hneed Hpop].
  apply Nat.leb_le in Hpop. apply Nat.leb_le in Hfit. rewrite Hent in Hn. apply next_Some in Hn.
  pose proof (slots_length _ _ _ _ Hneed H3) as Hlen.
  assert (slots_on_top npop F = true) as Hpops.
  { clear - Hneed Hpop. revert F npop Hneed Hpop. induction need as [|need IH]; intros F [|npop]; try done; [lia|].
    destruct F as [|x F]; [done|]. cbn. intros Hx Hle. apply andb_prop in Hx as [-> Hx]. apply IH; [done|lia]. }
  eapply (safe_runs npop); try done.
  - intros s' _. eapply stop_other; try done; intros ->; discriminate He.
  - eapply runs_mono; [eapply execute_runs; try done; try lia|].
    + apply orb_prop in Ha as [Ha|Ha]; [left; lia|right; by apply bool_decide_eq_true in Ha].
    + intros [] s' (Hw & Hsp & Hip'). split; [done|]. exists npush. split; [done|]. by rewrite Hip', Hip.
Qed.

(** ** Jumps, loops and [raise] *)

Ltac here_start := intros Hh Hd Hip Ho; pose proof (code_sizes _ _ _ _ _ Hcode) as [Hsz _];
  pose proof (check_special_at _ _ _ _ _ Hcode _ _ _ _ (at_shape _ _ _ _ Hh) Hd Ho eq_refl) as Hs;
  cbn [check_special] in Hs; destruct (here_height _ _ _ _ Hh) as (Hht & Hlim & _);
  pose proof (at_sp _ _ _ _ Hh) as Hsp; pose proof (at_locals _ _ _ _ Hh) as Hlo;
  assert (limit <= n_state)%nat as Hls by (unfold stack_limit; lia).
Ltac here_other := let s' := fresh in intros s' _; eapply stop_other; [eassumption..|discriminate|discriminate].
Ltac go_on k := split; [eassumption|exists k; split; [lia|]].

Lemma within_start pc F st s base : here pc F st s -> within base s s.
Proof. intros []. by apply within_refl. Qed.

Lemma jump_safe pc F st s i o : here pc F st s -> decode (bytecode f) pc = Some i -> v_ip s = i_next i -> i_op i = Some o ->
  o ∈ [MP_BC_JUMP; MP_BC_POP_JUMP_IF_TRUE; MP_BC_POP_JUMP_IF_FALSE; MP_BC_JUMP_IF_TRUE_OR_POP; MP_BC_JUMP_IF_FALSE_OR_POP] ->
  safe pc (exec_jump o (i_a i) s).
Proof.
  intros Hh Hd Hip Ho Hin. unfold exec_jump.
  repeat (apply elem_of_cons in Hin as [->|Hin]); [..|by apply elem_of_nil in Hin]; revert Hh Hd Hip Ho; here_start.
  1: { apply shape_at_Some in Hs as [Ha HF]. pose proof (within_start _ _ _ _ (length st - 0) Hh).
       eapply (safe_runs 0); [done|done|here_other|]. vgo. go_on 0%nat. by replace (v_ip _) with (Z.to_nat (i_a i)) by congruence. }
  all: destruct F as [|[] F]; try done; apply andb_prop in Hs as [Ha Hn]; apply shape_at_Some in Ha as [Ha HF]; apply next_Some in Hn.
  all: pose proof (within_start _ _ _ _ (length st - 1) Hh); pose proof (slots_length 1 (ISlot :: _) _ _ eq_refl (at_shaped _ _ _ _ Hh)).
  all: eapply (safe_runs 1); [done|done|here_other|]; vgo.
  all: first [go_on 0%nat; cbn [replicate app drop]; first [by replace (v_ip _) with (Z.to_nat (i_a i)) by congruence | by replace (v_ip _) with (i_next i) by congruence]
    | go_on 1%nat; cbn [replicate app drop]; first [by replace (v_ip _) with (Z.to_nat (i_a i)) by congruence | by replace (v_ip _) with (i_next i) by congruence]].
Qed.

Lemma raise_safe pc F st s i : here pc F st s -> decode (bytecode f) pc = Some i -> v_ip s = i_next i ->
  i_op i = Some MP_BC_RAISE_VARARGS -> safe pc (exec_raise_varargs (i_a i) s).
Proof.
  here_start. unfold exec_raise_varargs. pose proof (within_start _ _ _ _ (length st - 0) Hh).
  eapply (safe_runs 0); [done|done|here_other|]. destruct (Z.eqb_spec (i_a i) 0) as [->|H0].
  - cbn [Z.eqb]. vgo. destruct (list_find _ _) as [[k b]|] eqn:E; [|vgo].
    apply list_find_Some in E as (_ & [e He] & _). vstep. eapply runs_lift; [exact He|]. vgo. 
  - destruct (Z.eqb_spec (i_a i) 2); pose proof (slots_length _ _ _ _ Hs (at_shaped _ _ _ _ Hh)); vgo.
Qed.

Lemma get_iter_stack_safe pc F st s i : here pc F st s -> decode (bytecode f) pc = Some i -> v_ip s = i_next i ->
  i_op i = Some MP_BC_GET_ITER_STACK -> safe pc (exec_get_iter_stack s).
Proof.
  here_start. unfold exec_get_iter_stack. destruct F as [|[] F]; try done. apply andb_prop in Hs as [Hfit Hn].
  apply Nat.leb_le in Hfit. apply next_Some in Hn.
  pose proof (within_start _ _ _ _ (length st - 1) Hh). pose proof (slots_length 1 (ISlot :: _) _ _ eq_refl (at_shaped _ _ _ _ Hh)).
  eapply (safe_runs 1); [done|done|here_other|]. change NSLOTS with 4. vgo.
  match goal with |- context [mp_getiter_buf ?o ?w] => destruct (mp_getiter_buf o w) as [[[it|buf]|e] w'] eqn:E end.
  2: pose proof (getiter_slots _ _ _ _ E) as Hbuf; unfold MP_OBJ_ITER_BUF_NSLOTS in Hbuf.
  all: vgo; go_on 4%nat; cbn [drop]; by replace (v_ip _) with (i_next i) by congruence.
Qed.

Lemma for_iter_safe pc F st s i : here pc F st s -> decode (bytecode f) pc = Some i -> v_ip s = i_next i ->
  i_op i = Some MP_BC_FOR_ITER -> safe pc (exec_for_iter (i_a i) s).
Proof.
  here_start. apply andb_prop in Hs as [Hs Hn]. apply andb_prop in Hs as [Hs Ha]. apply andb_prop in Hs as [Hs Hfit].
  apply Nat.leb_le in Hfit. apply next_Some in Hn. apply shape_at_Some in Ha as [Ha HF].
  pose proof (slots_length _ _ _ _ Hs (at_shaped _ _ _ _ Hh)) as Hlen. unfold MP_OBJ_ITER_BUF_NSLOTS in *.
  unfold exec_for_iter. vrun. destruct Hh as [H1 H2 H3 H4 H5 H6 H7].
  match goal with |- safe pc (_ ?s1) => set (s2 := s1); assert (here pc F st s2) as Hh by (split; try done; by apply (locals_saved_low _ _ _ st)) end.
  pose proof (within_start _ _ _ _ (length st - 4) Hh). assert (v_sp s2 = Z.of_nat (length st) - 1) as Hsp2 by done.
  assert (v_ip s2 = i_next i) as Hip2 by done.
  eapply (safe_runs 4); [done|done| |].
  { intros s' Hw i' F' Hd' HF'. replace F' with F by congruence. split; [intros _|congruence]. exists st.
    rewrite (wi_exc _ _ _ _ _ _ Hw), (wi_code_sp _ _ _ _ _ _ Hw). repeat split; try done.
    eapply low_within; [|by replace (length (drop 4 st)) with (length st - 4)%nat by (rewrite length_drop; lia)].
    rewrite <- (take_drop 4 st) in H4. by apply low_app in H4. }
  change NSLOTS with 4. clearbody s2. vstep. vstep. vstep.
  match goal with |- VmRun.runs _ _ _ _ _ _ _ ?Q => assert (forall it, (match it with inl _ => True | inr b => length b = 4%nat end) -> Q it s2) as HQ end.
  { cbv beta. intros it Hit. destruct (mp_iternext_allow_raise it (v_world s)) as [[r buf] w] eqn:E.
    pose proof (iternext_slots _ _ _ _ _ E) as Hbuf.
    destruct it as [it|b]; [|rewrite Hit in Hbuf]; destruct r as [[value|]|e]; vgo;
      first [go_on 5%nat|go_on 0%nat].
    all: first [by replace (v_ip _) with (Z.to_nat (i_a i)) by congruence|by replace (v_ip _) with (i_next i) by congruence]. }
  unfold MP_OBJ_ITER_BUF_NSLOTS. destruct (decide _); vgo; by apply HQ.
Qed.

(** ** Blocks *)

Lemma inv_holds s F st : shapes !! v_ip s = Some F -> shaped F st (v_exc s) -> low st s -> v_sp s = Z.of_nat (length st) - 1 ->
  locals_ok s -> v_inject s = None -> vm_inv s.
Proof. intros. exists F. split; [done|]. split; [by exists st|by left]. Qed.

Lemma push_exc_block s (fin : bool) target : 0 <= target -> (length (v_exc s) < n_exc_stack f)%nat ->
  PUSH_EXC_BLOCK f fin target s = Some (VOk tt (MkCode (v_ip s) (v_sp s) (MkBlock (Z.to_nat target) (v_sp s) fin None :: v_exc s)
    (v_state s) (v_code_ip s) (v_code_sp s) (v_inject s) (v_world s))).
Proof.
  intros H1 H2. unfold PUSH_EXC_BLOCK. vrun. rewrite (proj2 (Nat.leb_gt _ _)) by done.
  by replace (target <? 0) with false by lia.
Qed.

Lemma setup_block_safe pc F st s i o (fin : bool) : here pc F st s -> decode (bytecode f) pc = Some i -> v_ip s = i_next i -> i_op i = Some o ->
  o = (if fin then MP_BC_SETUP_FINALLY else MP_BC_SETUP_EXCEPT) -> safe pc (PUSH_EXC_BLOCK f fin (i_a i) s).
Proof.
  intros Hh Hd Hip Ho Hfin. destruct fin; subst o; revert Hh Hd Hip Ho; here_start;
    apply andb_prop in Hs as [Hs Hn]; apply andb_prop in Hs as [Ha Hdep]; apply next_Some in Hn; apply Nat.ltb_lt in Hdep;
    destruct (shaped_height _ _ _ _ (at_shaped _ _ _ _ Hh)) as [_ Hd']; rewrite push_exc_block by lia;
    destruct Hh as [H1 H2 H3 H4 H5 H6 H7]; cbn [safe];
    (eapply (inv_holds _ _ st); cbn [v_ip v_exc v_sp v_inject]; [by rewrite Hip|rewrite H5; by constructor|done..]).
Qed.

Lemma pop_except_jump_safe pc F st s i : here pc F st s -> decode (bytecode f) pc = Some i -> v_ip s = i_next i ->
  i_op i = Some MP_BC_POP_EXCEPT_JUMP -> safe pc (exec_pop_except_jump (i_a i) s).
Proof.
  here_start. pose proof (proj2 (proj2 (here_height _ _ _ _ Hh))) as Hb.
  assert (exists F' b ex, v_exc s = b :: ex /\ shaped F' st ex /\ shape_at shapes (i_a i) F' = true /\ blocks_ok shapes pc F' = true)
    as (F' & b & ex & Hex & Hsh & Ha & Hb').
  { destruct Hh as [H1 H2 H3 H4 H5 H6 H7]. destruct F as [|[] F]; try done; inversion H3; subst; cbn [blocks_ok] in Hb;
      apply andb_prop in Hb as [_ Hb]; by eexists F, _, _. }
  apply shape_at_Some in Ha as [Ha HF]. unfold exec_pop_except_jump, POP_EXC_BLOCK. vrun. rewrite Hex. vrun.
  destruct Hh as [H1 H2 H3 H4 H5 H6 H7].
  match goal with |- safe pc (_ ?s1) => set (s2 := s1) end.
  assert (within (length st) s2 s2) as Hw by (by apply within_refl).
  eapply (safe_of_runs pc (length st) s2).
  { intros s' Hw'. split; [|by eapply stop_other].
    eapply raised_of_within with (act0 := []) (F := F') (st := st) (ex := ex) (s0 := s2); done. }
  vgo. eapply inv_of_within with (F := F') (st := st) (s0 := s2) (k := 0%nat); try done; [|lia|by replace (v_ip _) with (Z.to_nat (i_a i)) by congruence].
  rewrite Nat.add_0_r. unfold s2 in *. cbn [v_sp] in *. congruence.
Qed.
End Steps.
