(* ===== verification/VmUnwind.v ===== *)
(** Leaving blocks: returns and jumps that run [finally] handlers on the way, the
    end of these handlers, and [with]. *)
From S2P Require Import Prelude Bytecode Vm VmSafe VmRun VmEffect VmInv VmHandler VmSteps.

(** What is known at the start of an instruction of its own kind. *)
Ltac here_start Hcode := intros Hh Hd Hip Ho; pose proof (code_sizes _ _ _ _ _ Hcode) as [Hsz _];
  pose proof (check_special_at _ _ _ _ _ Hcode _ _ _ _ (at_shape _ _ _ _ _ _ _ _ Hh) Hd Ho eq_refl) as Hs;
  cbn [check_special] in Hs; destruct (here_height _ _ _ _ _ Hcode _ _ _ _ Hh) as (Hht & Hlim & Hb);
  pose proof Hh as [H1 H2 H3 H4 H5 H6 H7].

Section Unwind.
Context {W : Type} {R : Runtime W} {L : RuntimeLaws R} (f : mp_obj_fun_bc_t).
Context (n_locals n_state : nat) (cells : list nat) (shapes : gmap nat frame).
Context (Hcode : check_code f n_locals n_state cells shapes = true).
Implicit Types (s : mp_code_state_t W) (F G : frame) (st : list obj) (ex : list mp_exc_stack_t).
Abbreviation limit := (stack_limit n_locals n_state).
Abbreviation runs := (runs n_locals n_state cells).
Abbreviation within := (within n_locals n_state cells).
Abbreviation locals_ok := (locals_ok n_locals n_state cells).
Abbreviation shaped := (shaped shapes).
Abbreviation vm_inv := (vm_inv f n_locals n_state cells shapes).
Abbreviation raised := (raised n_locals n_state cells shapes).
Abbreviation here := (here n_locals n_state cells shapes).
Abbreviation safe := (safe f n_locals n_state cells shapes).

(** ** Known slots *)

Lemma rd_low st s k o : low st s -> st !! k = Some o -> rd (Z.of_nat (length st - 1 - k)) s = Some (VOk o s).
Proof.
  intros Hlow Hk. unfold rd. vrun. destruct (Z.ltb_spec (Z.of_nat (length st - 1 - k)) 0); [lia|].
  unfold vlift. rewrite Nat2Z.id, (low_lookup st s k) by (done || by eapply lookup_lt_Some). by rewrite Hk.
Qed.

Lemma top_low st s o : low (o :: st) s -> v_sp s = Z.of_nat (length st) -> TOP s = Some (VOk o s).
Proof.
  intros Hlow Hsp. unfold TOP. vrun. rewrite Z.add_0_r, Hsp.
  pose proof (rd_low (o :: st) s 0 o Hlow eq_refl) as H. cbn [length] in H. by replace (S (length st) - 1 - 0)%nat with (length st) in H by lia.
Qed.

Definition at_sp s (sp : Z) : mp_code_state_t W :=
  MkCode (v_ip s) sp (v_exc s) (v_state s) (v_code_ip s) (v_code_sp s) (v_inject s) (v_world s).

Lemma pop_low st s o : low (o :: st) s -> v_sp s = Z.of_nat (length st) -> POP s = Some (VOk o (at_sp s (Z.of_nat (length st) - 1))).
Proof. intros Hlow Hsp. pose proof (top_low _ _ _ Hlow Hsp) as H. unfold TOP in H. revert H. unfold POP. vrun. intros H. vrun. by rewrite Z.add_0_r, Hsp. Qed.

Lemma push_slot st s o : low st s -> v_sp s = Z.of_nat (length st) - 1 -> (length st < limit)%nat -> locals_ok s ->
  exists l, PUSH o s = Some (VOk tt (MkCode (v_ip s) (Z.of_nat (length st)) (v_exc s) l (v_code_ip s) (v_code_sp s) (v_inject s) (v_world s)))
    /\ (forall ip sp exc cip csp inj w, low (o :: st) (MkCode ip sp exc l cip csp inj w : mp_code_state_t W)
         /\ (-1 <= csp < Z.of_nat n_state -> locals_ok (MkCode ip sp exc l cip csp inj w))).
Proof.
  intros Hlow Hsp Hroom Hlo. unfold PUSH. vrun. rewrite Hsp.
  match goal with |- context [wr ?i ?o ?s0] => destruct (wr_slot n_locals n_state cells s0 i o) as [E Hlo']; [done|lia|rewrite E] end.
  cbn [v_state v_ip v_sp v_exc v_code_ip v_code_sp v_inject v_world]. eexists. split; [repeat f_equal; lia|].
  intros. split; [|intros; by refine (locals_saved _ _ _ _ _ _ _ _ _ _ _ Hlo' _)]. apply (low_push _ s); [done| |cbn [v_state]; f_equal; lia]. destruct Hlo as [-> _]. unfold stack_limit in Hroom. lia.
Qed.

(** ** Returns *)

Lemma return_safe pc F st ex : shaped F st ex -> forall s, blocks_ok shapes pc F = true -> finally_after (v_ip s) F = true ->
  low st s -> locals_ok s -> v_inject s = None -> Z.of_nat (length st) <= v_sp s < Z.of_nat n_state ->
  safe pc (unwind_return ex s).
Proof.
  intros Hsh. induction Hsh as [|F st ex o Hsh IH|F st ex e Hsh IH|F st ex fin h p Hsh IH|F st ex b Hsh IH|F st ex b o w Hsh IH Ho
    |F st ex h w v Hsh IH|F st ex h w n dest Hsh IH Hn Hu]; intros s Hb Hf Hlow Hlo Hinj Hsp; cbn [blocks_ok finally_after length] in *.
  - cbn [unwind_return]. vrun. split; [done|]. destruct Hlo as [Hl _]. split; [cbn [v_code_sp v_sp]; lia|].
    cbn [v_state v_code_sp v_sp]. apply lookup_lt_is_Some_2. lia.
  - apply IH; try done; [by apply (low_app [o])|lia].
  - apply IH; try done; [by apply (low_app [ObjExc e])|lia].
  - apply andb_prop in Hb as [Hb Hb']. apply andb_prop in Hb as [_ HF]. apply bool_decide_eq_true in HF.
    apply andb_prop in Hf as [Hip Hf]. cbn [unwind_return is_finally handler val_sp]. vrun.
    destruct (finally_kind fin) eqn:Hfin; [|by apply IH]. cbn [negb orb] in Hip. apply Nat.ltb_lt in Hip. rewrite (proj2 (Nat.ltb_lt _ _)) by done. cbn [andb].
    destruct (lookup_lt_is_Some_2 (v_state s) (Z.to_nat (v_sp s))) as [v Hv]; [destruct Hlo as [-> _]; lia|].
    assert (peek 0 s = Some (VOk v s)) as Hpeek.
    { unfold peek, rd. vrun. rewrite Z.add_0_r. destruct (Z.ltb_spec (v_sp s) 0); [lia|]. unfold vlift. by rewrite Hv. }
    vrun. destruct (code_at _ _ _ _ _ Hcode _ _ HF) as (_ & _ & _ & _ & Hfit & _). destruct (shaped_height _ _ _ _ Hsh) as [Hht _].
    replace (height (handler_frame fin h F)) with (2 + height F)%nat in Hfit by (by destruct fin).
    destruct (wr_slot n_locals n_state cells s (Z.of_nat (length st) - 1 + 1) v) as [E Hlo']; [done|lia|]. vrun.
    match goal with |- safe pc ((PUSH ?o ≫= _) ?s1) => destruct (push_slot (v :: st) s1 o) as (l & E' & Hl) end.
    + apply (low_push _ s); [done| |cbn [v_state]; f_equal; lia]. destruct Hlo as [-> _]. unfold stack_limit in Hfit. lia.
    + cbn [v_sp length]. lia.
    + cbn [length]. lia.
    + exact Hlo'.
    + vrun. cbn [VmSteps.safe]. eapply (inv_holds _ _ _ _ _ _ _ (SmallInt (-1) :: v :: st)); cbn [v_ip v_exc v_sp v_inject length];
        [exact HF|destruct fin; by try apply sh_ecb_return|apply Hl|lia|by apply Hl, Hlo|done].
  - apply andb_prop in Hb as [Hb Hb']. apply andb_prop in Hf as [Hip Hf]. apply Nat.leb_le in Hip.
    cbn [unwind_return]. vrun. rewrite (proj2 (Nat.ltb_ge _ _)), andb_false_r by done. by apply IH.
  - apply andb_prop in Hb as [Hb Hb']. apply andb_prop in Hf as [Hip Hf]. apply Nat.leb_le in Hip.
    cbn [unwind_return]. vrun. rewrite (proj2 (Nat.ltb_ge _ _)), andb_false_r by done. apply IH; try done; [by apply (low_app [o])|lia].
  - apply andb_prop in Hb as [Hb Hb']. apply andb_prop in Hf as [Hip Hf]. apply IH; try done; [by apply (low_app [SmallInt (-1); v])|lia].
  - apply andb_prop in Hb as [Hb Hb']. apply andb_prop in Hf as [Hip Hf]. apply IH; try done; [by apply (low_app [SmallInt n; Raw dest])|lia].
Qed.

(** ** Jumps *)

Definition with_exc s ex : mp_code_state_t W :=
  MkCode (v_ip s) (v_sp s) ex (v_state s) (v_code_ip s) (v_code_sp s) (v_inject s) (v_world s).

(** In a handler, or at the block where the jump goes. *)
Definition unwound pc dest st s (r : option (vres W (option Z))) : Prop :=
  (exists s', r = Some (VOk None s') /\ vm_inv s')
  \/ (exists F ex num, r = Some (VOk (Some num) (with_exc s ex)) /\ shaped F st ex /\ blocks_ok shapes pc F = true
       /\ (if num =? 0 then shape_at shapes dest F
            else slots_on_top MP_OBJ_ITER_BUF_NSLOTS F && shape_at shapes dest (drop MP_OBJ_ITER_BUF_NSLOTS F)) = true).

(** The loop ends in a handler, or at the block where the jump goes. *)
Lemma unwind_loop_spec pc dest F : forall st fuel num s, shaped F st (v_exc s) -> low (Raw dest :: st) s ->
  v_sp s = Z.of_nat (length st) -> locals_ok s -> v_inject s = None -> 0 <= num < 256 -> num mod 128 <= Z.of_nat fuel ->
  unwind_ok shapes num dest F = true -> blocks_ok shapes pc F = true -> finally_after (v_ip s) F = true ->
  unwound pc dest st s (unwind_loop fuel num s).
Proof.
  induction F as [|i F IH]; intros st fuel num s Hsh Hlow Hsp Hlo Hinj Hnum Hfuel Hu Hb Hf.
  - right. cbn [unwind_ok] in Hu. destruct (0 <? Z.land num 127) eqn:E; [done|].
    exists [], (v_exc s), num. destruct fuel; cbn [unwind_loop]; rewrite E; by destruct s.
  - cbn [unwind_ok] in Hu. destruct (0 <? Z.land num 127) eqn:E; last first.
    { right. exists (i :: F), (v_exc s), num. destruct fuel; cbn [unwind_loop]; rewrite E; by destruct s. }
    rewrite land_127 in E. destruct fuel as [|fuel]; [lia|]. cbn [unwind_loop]. rewrite land_127, E. vrun.
    assert (1 <= num /\ (num - 1) mod 128 <= Z.of_nat fuel) as [Hn1 Hfuel'].
    { assert (num mod 128 = num - 128 * (num / 128)) as Hm by (rewrite Z.mod_eq; lia).
      pose proof (Z.mod_pos_bound num 128 ltac:(lia)). assert (0 <= num / 128) by (apply Z.div_pos; lia). split; [lia|].
      replace (num - 1) with (num mod 128 - 1 + (num / 128) * 128) by lia. rewrite Z_mod_plus_full, Z.mod_small by lia. lia. }
    (* a block that is left without its handler *)
    assert (forall ex, shaped F st ex -> unwind_ok shapes (num - 1) dest F = true -> blocks_ok shapes pc F = true ->
      finally_after (v_ip s) F = true -> unwound pc dest st s (unwind_loop fuel (num - 1) (with_exc s ex))) as Hskip.
    { intros ex Hsh' Hu' Hb' Hf'. apply (IH st fuel (num - 1) (with_exc s ex)); try done; lia. }
    destruct i as [| |fin h|h|h]; try done; cbn [blocks_ok finally_after] in Hb, Hf.
    + inversion Hsh as [| | |? ? ex ? ? p Hsh' E1 E2 E3| | | |]; subst. apply andb_prop in Hb as [Hb Hb'].
      apply andb_prop in Hb as [_ HF]. apply bool_decide_eq_true in HF. apply andb_prop in Hf as [Hip Hf].
      destruct (finally_kind fin) eqn:Hfin; cbn [is_finally handler andb]; [|destruct fin; try done; vrun; by apply Hskip].
      cbn [negb orb] in Hip. apply Nat.ltb_lt in Hip. rewrite (proj2 (Nat.ltb_lt _ _)) by done. left.
      assert (exists w, handler_frame fin h F = IEcb h w :: F /\ unwind_ok shapes (num - 1) dest (if w : bool then drop 2 F else F) = true)
        as (w & Hframe & Hu').
      { destruct fin; try done; [by exists false|exists true; split; [done|]]. destruct F as [|? [|? F]]; try done. }
      rewrite Hframe in HF. destruct (code_at _ _ _ _ _ Hcode _ _ HF) as (_ & _ & _ & _ & Hfit & _).
      destruct (shaped_height _ _ _ _ Hsh') as [Hht _]. cbn [height slots_of] in Hfit.
      destruct (push_slot (Raw dest :: st) s (MP_OBJ_NEW_SMALL_INT (num - 1))) as (l & E' & Hl); [done|cbn [length]; lia|cbn [length]; lia|done|].
      vrun. eexists. split; [done|]. unfold MP_OBJ_NEW_SMALL_INT in Hl. rewrite swrap_id in Hl by lia.
      eapply (inv_holds _ _ _ _ _ _ _ (SmallInt (num - 1) :: Raw dest :: st)); cbn [v_ip v_exc v_sp v_inject length];
        [exact HF|by apply sh_ecb_jump; [|lia|]|apply Hl|lia|by apply Hl, Hlo|done].
    + inversion Hsh as [| | | |? ? ex b Hsh' E1 E2 E3| | |]; subst. apply andb_prop in Hb as [Hb Hb'].
      apply andb_prop in Hf as [Hip Hf]. apply Nat.leb_le in Hip.
      rewrite (proj2 (Nat.ltb_ge _ _)), andb_false_r by done. vrun. by apply Hskip.
Qed.

Lemma unwind_jump_safe pc st num dest s o i : decode (bytecode f) pc = Some i -> i_op i = Some o ->
  o <> MP_BC_FOR_ITER -> o <> MP_BC_YIELD_FROM -> v_code_ip s = pc ->
  forall G, shaped G st (v_exc s) -> low (Raw num :: Raw dest :: st) s -> v_sp s = Z.of_nat (length st) + 1 ->
  locals_ok s -> v_inject s = None -> 0 <= num < 256 -> unwind_ok shapes num dest G = true ->
  blocks_ok shapes pc G = true -> finally_after (v_ip s) G = true -> safe pc (unwind_jump s).
Proof.
  intros Hd Ho Ho1 Ho2 Hpc G Hsh Hlow Hsp Hlo Hinj Hnum Hu Hb Hf. unfold unwind_jump.
  pose proof (code_sizes _ _ _ _ _ Hcode) as [Hsz _].
  assert (length st <= n_state)%nat as Hlen.
  { apply (f_equal length) in Hlow. rewrite length_take, length_reverse in Hlow. destruct Hlo as [Hl _]. cbn [length] in Hlow. lia. }
  pose proof (pop_low (Raw dest :: st) s (Raw num) Hlow ltac:(cbn [length]; lia)) as E. vrun. clear E.
  match goal with |- safe pc ((unwind_loop 127 num ≫= _) ?s1) => set (s2 := s1) end. cbn [length] in s2.
  pose proof (Z.mod_pos_bound num 128 ltac:(lia)).
  destruct (unwind_loop_spec pc dest G st 127 num s2) as [(s' & E & Hinv)|(F' & ex & num' & E & Hsh' & Hb' & Hdest)]; try done;
    [by apply (low_app [Raw num])|cbn [s2 at_sp v_sp]; lia|lia|vrun; done|]. vrun. clear E.
  pose proof (pop_low st (with_exc s2 ex) (Raw dest) ltac:(by apply (low_app [Raw num])) ltac:(cbn [s2 with_exc at_sp v_sp]; lia)) as E.
  vrun. clear E. assert (low st s) as Hlow' by (by apply (low_app [Raw num; Raw dest])).
  match goal with |- safe pc (_ ?s1) => set (s3 := s1); assert (within (length st) s3 s3) as Hw by (by apply within_refl) end.
  eapply (safe_of_runs f _ _ _ _ pc (length st) s3).
  { intros s' Hw'. split; [|by eapply stop_other]. by eapply raised_of_within with (act0 := []) (F := F') (st := st) (ex := ex) (s0 := s3). }
  assert (v_sp s3 = Z.of_nat (length st) - 1) as Hsp3 by done. destruct (Z.eqb_spec num' 0) as [->|Hn0].
  - apply shape_at_Some in Hdest as [Hd0 HF]. vgo.
    eapply inv_of_within with (F := F') (st := st) (s0 := s3) (k := 0%nat); try done; [lia|lia|by replace (v_ip _) with (Z.to_nat dest) by congruence].
  - apply andb_prop in Hdest as [Hs Hdest]. apply shape_at_Some in Hdest as [Hd0 HF].
    destruct (shaped_slots _ _ _ _ _ Hs Hsh' 4 (le_n _)) as (top & st' & -> & Htop & Hsh2). rewrite length_app in *. vgo.
    eapply inv_of_within with (F := drop 4 F') (st := st') (s0 := s3) (k := 0%nat); try done; [by eapply low_app|eapply within_le; [|eassumption]; rewrite ?length_app; lia|unfold MP_OBJ_ITER_BUF_NSLOTS in *; lia|lia|by replace (v_ip _) with (Z.to_nat dest) by congruence].
Qed.

Lemma enter_handler_safe pc F st s i o : here pc F st s -> v_ip s = i_next i -> enters_handler o i F = true ->
  o = MP_BC_LOAD_CONST_NONE /\ safe pc (PUSH mp_const_none s).
Proof.
  intros Hh Hip He. destruct (here_height _ _ _ _ _ Hcode _ _ _ _ Hh) as (Hht & Hlim & Hb). destruct Hh as [H1 H2 H3 H4 H5 H6 H7].
  unfold enters_handler in He. destruct o; try done. split; [done|]. destruct F as [|[| |k h| |] F]; try done.
  apply andb_prop in He as [Hk Hn]. apply Nat.eqb_eq in Hn. cbn [blocks_ok] in Hb. apply andb_prop in Hb as [Hb _].
  apply andb_prop in Hb as [_ HF]. apply bool_decide_eq_true in HF. destruct (code_at _ _ _ _ _ Hcode _ _ HF) as (_ & _ & _ & _ & Hfit & _).
  replace (height (handler_frame k h F)) with (2 + height F)%nat in Hfit by (by destruct k).
  inversion H3 as [| | |? ? ex ? ? p Hsh E1 E2 E3| | | |]; subst F0 k0 h0 st0.
  destruct (push_slot st s mp_const_none) as (l & E & Hl); [done|done|cbn [height slots_of] in *; lia|done|]. rewrite E. cbn [VmSteps.safe].
  eapply (inv_holds _ _ _ _ _ _ (handler_frame k h F) (mp_const_none :: st)); cbn [v_ip v_exc v_sp v_inject length];
    [by rewrite Hip, Hn| |apply Hl|lia|by apply Hl, H6|done].
  rewrite <- E3. destruct k; try done; (eapply (sh_ecb_exc shapes F st ex (MkBlock h _ _ p)); [done|by left]).
Qed.

Lemma unwind_jump_op_safe pc F st s i : here pc F st s -> decode (bytecode f) pc = Some i -> v_ip s = i_next i ->
  i_op i = Some MP_BC_UNWIND_JUMP -> safe pc (exec_unwind_jump (i_a i) (i_b i) s).
Proof.
  here_start Hcode. apply andb_prop in Hs as [Hs Hu]. apply andb_prop in Hs as [Hs Hf]. apply andb_prop in Hs as [Hs Hfit].
  apply andb_prop in Hs as [Hn1 Hn2]. apply Nat.leb_le in Hfit. rewrite <- Hip in Hf. unfold exec_unwind_jump.
  destruct (push_slot st s (Raw (i_a i))) as (l & E & Hl); [done|done|lia|done|]. vrun.
  match goal with |- safe pc ((PUSH ?o ≫= _) ?s1) =>
    destruct (push_slot (Raw (i_a i) :: st) s1 o) as (l' & E' & Hl'); [apply Hl|cbn [v_sp length]; lia|cbn [length]; lia|by apply Hl, H6|] end.
  vrun. cbn [v_ip v_exc v_code_ip v_code_sp v_inject v_world] in *.
  eapply (unwind_jump_safe pc st (i_b i) (i_a i)); try done; [apply Hl'|cbn [v_sp length]; lia|by apply Hl', H6|lia].
Qed.

Lemma return_op_safe pc F st s i : here pc F st s -> decode (bytecode f) pc = Some i -> v_ip s = i_next i ->
  i_op i = Some MP_BC_RETURN_VALUE -> safe pc (exec_return_value s).
Proof.
  here_start Hcode. apply andb_prop in Hs as [Hs Hf]. rewrite <- Hip in Hf. pose proof (slots_length _ _ _ _ _ Hs H3) as Hlen.
  destruct (shaped_slots _ _ _ _ _ Hs H3 1 (le_n _)) as (top & st' & Hst & Htop & Hsh').
  unfold exec_return_value. vrun. destruct F as [|i0 F]; [done|]. cbn [slots_on_top] in Hs. apply andb_prop in Hs as [Hs _].
  cbn [drop] in Hsh'. assert (length st = S (length st')) as Hl by (rewrite Hst, length_app; lia).
  eapply (return_safe pc F st'); try done; [by destruct i0|by destruct i0|rewrite Hst in H4; by eapply low_app|].
  unfold stack_limit in *. lia.
Qed.

Lemma end_finally_safe pc F st s i : here pc F st s -> decode (bytecode f) pc = Some i -> v_ip s = i_next i ->
  i_op i = Some MP_BC_END_FINALLY -> safe pc (exec_end_finally s).
Proof.
  here_start Hcode. assert (forall e, safe pc (Some (VRaise e s))) as Hraise.
  { intros e. split; [|by eapply stop_other].
    eapply raised_of_within with (act0 := []) (F := F) (st := st) (ex := v_exc s) (s0 := s); try done. }
  unfold exec_end_finally. destruct F as [|[| | | |h []] F]; try done.
  - inversion H3; subst. rewrite (V_bind_Ok _ _ _ _ _ (top_low _ _ _ H4 ltac:(cbn [length] in *; lia))). apply Hraise.
  - apply andb_prop in Hs as [Hf Hn]. apply next_Some in Hn. rewrite <- Hip in Hf, Hn. cbn [blocks_ok] in Hb. apply andb_prop in Hb as [Hb0 Hb].
    inversion H3 as [| | | | |? st' ex b o ? Hsh Ho' E1 E2 E3|? st' ex ? ? v Hsh E1 E2 E3|? st' ex ? ? n dest Hsh Hn' Hu E1 E2 E3]; subst.
    + rewrite (V_bind_Ok _ _ _ _ _ (top_low _ _ _ H4 ltac:(cbn [length] in *; lia))). destruct Ho' as [->|[e ->]]; [|apply Hraise].
      unfold POP_EXC_BLOCK, move_sp. vrun. rewrite <- E3. vrun. cbn [VmSteps.safe set_sp].
      eapply (inv_holds _ _ _ _ _ _ F st'); cbn [v_ip v_exc v_sp v_inject length] in *; try done; [by apply (low_app [mp_const_none])|lia].
    + rewrite (V_bind_Ok _ _ _ _ _ (top_low _ _ _ H4 ltac:(cbn [length] in *; lia))).
      rewrite (V_bind_Ok _ _ _ _ _ (pop_low _ _ _ H4 ltac:(cbn [length] in *; lia))). cbn [Z.ltb Z.compare].
      unfold exec_return_value. vrun. eapply (return_safe _ F st'); try done; [by apply (low_app [SmallInt (-1); v])|].
      cbn [at_sp v_sp length height slots_of] in *. unfold stack_limit in *. lia.
    + rewrite (V_bind_Ok _ _ _ _ _ (top_low _ _ _ H4 ltac:(cbn [length] in *; lia))).
      rewrite (V_bind_Ok _ _ _ _ _ (pop_low _ _ _ H4 ltac:(cbn [length] in *; lia))). destruct (Z.ltb_spec n 0); [lia|].
      match goal with |- safe _ ((PUSH ?o ≫= _) ?s1) =>
        destruct (push_slot (Raw dest :: st') s1 o) as (l' & E' & Hl');
          [by apply (low_app [SmallInt n])|done|cbn [length height slots_of] in *; lia|done|] end.
      vrun. cbn [at_sp v_ip v_exc v_code_ip v_code_sp v_inject v_world] in *.
      eapply (unwind_jump_safe _ st' n dest); try done; [apply Hl'|cbn [v_sp length]; lia|by apply Hl', H6].
Qed.
End Unwind.
