(* ===== verification/VmSound.v ===== *)
(** [with], generators, and the theorem: checked code keeps to its stacks. *)
From S2P Require Import Prelude Bytecode Vm VmSafe VmRun VmEffect VmInv VmHandler VmSteps VmUnwind.

Section Sound.
Context {W : Type} {R : Runtime W} {L : RuntimeLaws R} (f : mp_obj_fun_bc_t).
Context (n_locals n_state : nat) (cells : list nat) (shapes : gmap nat frame).
Context (Hcode : check_code f n_locals n_state cells shapes = true).
Implicit Types (s : mp_code_state_t W) (F G : frame) (st : list obj) (ex : list mp_exc_stack_t).
Abbreviation limit := (stack_limit n_locals n_state).
Abbreviation runs := (runs n_locals n_state cells).
Abbreviation within := (within n_locals n_state cells).
Abbreviation locals_ok := (locals_ok n_locals n_state cells).
Abbreviation shaped := (shaped shapes).
Abbreviation vm_inv := (vm_inv f n_locals n_state cells shapes).
Abbreviation vm_saved := (vm_saved n_locals n_state cells shapes).
Abbreviation raised := (raised n_locals n_state cells shapes).
Abbreviation here := (here n_locals n_state cells shapes).
Abbreviation safe := (safe f n_locals n_state cells shapes).
Abbreviation good := (good f n_locals n_state cells shapes).

(** The slot [i] after some writes. *)
Ltac lengths := repeat match goal with
  | H : VmRun.within _ _ _ _ _ ?s |- _ =>
      lazymatch goal with _ : length (v_state s) = n_state |- _ => fail | _ => pose proof (proj1 (wi_locals _ _ _ _ _ _ H)) end
  end.
Ltac slot := lengths; repeat match goal with
  | E : v_state ?s = _ |- context [v_state ?s !! _] => rewrite E
  | |- context [<[?i := _]> _ !! ?j] => first [rewrite (list_lookup_insert_ne _ i j) by lia
      | replace j with i by lia; rewrite list_lookup_insert_eq by (rewrite ?length_insert; lia)]
  end.

Lemma setup_with_safe pc F st s i : here pc F st s -> decode (bytecode f) pc = Some i -> v_ip s = i_next i ->
  i_op i = Some MP_BC_SETUP_WITH -> safe pc (exec_setup_with f (i_a i) s).
Proof.
  here_start Hcode. destruct F as [|[] F]; try done. apply andb_prop in Hs as [Hs Hn]. apply andb_prop in Hs as [Hs Hdep].
  apply andb_prop in Hs as [Ha Hfit]. apply next_Some in Hn. apply Nat.leb_le in Hfit. apply Nat.ltb_lt in Hdep. apply Z.leb_le in Ha.
  destruct (shaped_height _ _ _ _ H3) as [_ Hex]. inversion H3 as [|? st' ? o Hsh| | | | | |]; subst F0 ex st. cbn [length height depth slots_of blocks_of] in *.
  assert (limit <= n_state)%nat by (unfold stack_limit; lia). cbn [blocks_ok] in Hb.
  assert (forall s', within (length st') s s' -> raised pc s' /\ stop_ok f shapes pc s') as Hr.
  { intros s' Hw. split; [|by eapply stop_other].
    by eapply raised_of_within with (act0 := []) (F := F) (st := st') (ex := v_exc s) (s0 := s); try done; apply (low_app [o]). }
  assert (within (length st') s s) as Hw0 by (by apply within_refl). unfold exec_setup_with.
  do 6 (eapply safe_bind; [exact Hr|]; vstep).
  match goal with Hw : within _ s ?s5 |- safe pc (_ ?s5) => rename s5 into s6; rename Hw into Hw6 end.
  pose proof Hw6 as [Hlo6 _ He6 Hc6 _ Hi6].
  rewrite (V_bind_Ok _ _ _ _ _ (push_exc_block f s6 true (i_a i) Ha ltac:(rewrite He6; lia))).
  destruct (low_extend st' s6 2) as (top & Ht & Hlow'); [eapply low_within; [|done]; by apply (low_app [o])|destruct Hlo6 as [-> _]; lia|].
  match goal with |- safe pc (PUSH ?r ?s7) => destruct (push_slot n_locals n_state cells (top ++ st') s7 r) as (lst & E & Hl) end;
    [done|rewrite length_app, Ht; cbn [v_sp]; lia|rewrite length_app; lia|done|rewrite E; clear E].
  destruct top as [|x [|y [|]]]; try done. cbn [VmSteps.safe v_ip v_sp v_exc v_code_ip v_code_sp v_inject v_world app].
  match goal with |- VmInv.vm_inv _ _ _ _ _ (MkCode _ _ (MkBlock _ ?v _ _ :: _) _ _ _ _ _) => assert (v = Z.of_nat (length (x :: y :: st')) - 1) as -> by (cbn [length]; lia) end.
  eapply (inv_holds _ _ _ _ _ _ _ (_ :: x :: y :: st')); cbn [v_ip v_sp v_exc v_inject];
    [replace (v_ip s6) with (i_next i) by congruence; exact Hn| |apply Hl|cbn [length app]; lia|by apply Hl, Hlo6|congruence].
  rewrite He6. by repeat constructor.
Qed.

(** The handler of a [with] block: the slots of [__exit__] and its object go away. *)
Lemma ecb_split h F st ex : shaped (IEcb h true :: ISlot :: ISlot :: F) st ex -> exists keep x y st0,
  st = keep ++ x :: y :: st0 /\ shaped (IEcb h false :: F) (keep ++ st0) ex
  /\ (keep = [mp_const_none] \/ (exists e, keep = [ObjExc e] /\ shaped (IEcb h false :: F) (mp_const_none :: st0) ex)
      \/ (exists n v, keep = [SmallInt n; v]))
  /\ exists act ex', ex = act ++ ex' /\ shaped F st0 ex' /\ Forall (fun b => handler b = h) act.
Proof.
  intros H.
  inversion H as [| | | | |? ? ? b o ? Hs' Ho E1 E2 E3|? ? ? ? ? v Hs' E1 E2 E3|? ? ? ? ? n dest Hs' ? ? E1 E2 E3]; subst;
    inversion Hs' as [|? st2 ? o1 Hs2| | | | | |]; subst; inversion Hs2 as [|? st3 ? o2 Hs3| | | | | |]; subst.
  - exists [o], o1, o2, st3. split; [done|]. split; [by apply sh_ecb_exc|]. split.
    { destruct Ho as [->|[e ->]]; [by left|right; left; exists e]. split; [done|]. apply sh_ecb_exc; [done|by left]. } eexists [b], _. by repeat constructor.
  - exists [SmallInt (-1); v], o1, o2, st3. split; [done|]. split; [cbn [app]; by apply sh_ecb_return|]. split; [by right; right; eexists _, _|].
    exists [], ex. split; [done|by split; [|constructor]].
  - exists [SmallInt n; Raw dest], o1, o2, st3. split; [done|]. split; [cbn [app]; by apply sh_ecb_jump|]. split; [by right; right; eexists _, _|].
    exists [], ex. split; [done|by split; [|constructor]].
Qed.

Lemma with_cleanup_safe pc F st s i : here pc F st s -> decode (bytecode f) pc = Some i -> v_ip s = i_next i ->
  i_op i = Some MP_BC_WITH_CLEANUP -> safe pc (exec_with_cleanup s).
Proof.
  here_start Hcode. destruct F as [|[| | | |h []] [|[] [|[] F]]]; try done. apply andb_prop in Hs as [Hfit Hn].
  apply Nat.leb_le in Hfit. apply next_Some in Hn. cbn [blocks_ok height slots_of] in *. apply andb_prop in Hb as [Hh' Hb]. apply Nat.leb_le in Hh'.
  assert (limit <= n_state)%nat by (unfold stack_limit; lia).
  destruct (ecb_split _ _ _ _ H3) as (keep & x & y & st0 & -> & Hsh & Hkeep & act & ex & Hex & Hsh0 & Hact).
  destruct (shaped_height _ _ _ _ Hsh0) as [Hht0 _]. pose proof H4 as Hlow0. rewrite cons_middle, app_assoc in Hlow0.
  apply (low_app (keep ++ [x]) (y :: st0)), (low_app [y]) in Hlow0.
  eapply (safe_of_runs f _ _ _ _ pc (length st0) s).
  { intros s' Hw. split; [|by eapply stop_other].
    eapply raised_of_within with (act0 := act) (F := F) (st := st0) (ex := ex) (s0 := s); try done.
    eapply Forall_mono; [|exact Hact]. intros b <-. done. }
  assert (within (length st0) s s) as Hw0 by (by apply within_refl).
  assert (forall st' s', shaped (IEcb h false :: F) st' (v_exc s) -> within (length st0) s s' -> v_ip s' = v_ip s ->
    v_sp s' = Z.of_nat (length st') - 1 -> low st' s' -> vm_inv s') as Hdone.
  { intros st' s' Hsh' [Hlo' _ He' _ _ Hi'] Hip' Hsp' Hl'. eapply (inv_holds _ _ _ _ _ _ (IEcb h false :: F) st'); try done;
      [by rewrite Hip', Hip|by rewrite He'|congruence]. }
  assert (length (v_state s) = n_state) as Hlen by apply H6. rewrite length_app in H5. cbn [length] in H5.
  unfold exec_with_cleanup. destruct Hkeep as [->|[(e & -> & Hnone)|(n & v & ->)]]; cbn [app length] in *.
  - eapply runs_known; [apply (top_low _ _ _ H4); cbn [length]; lia|]. rewrite decide_True by done. vgo.
    eapply Hdone; [exact Hsh|done|congruence|cbn [length]; lia|]. apply low_cons; [by eapply low_within|]. by slot.
  - eapply runs_known; [apply (top_low _ _ _ H4); cbn [length]; lia|]. rewrite decide_False by done. cbn [mp_obj_is_small_int]. vgo.
    + eapply Hdone; [exact Hnone|done|congruence|cbn [length]; lia|]. apply low_cons; [by eapply low_within|]. by slot.
    + eapply Hdone; [exact Hsh|done|congruence|cbn [length]; lia|]. apply low_cons; [by eapply low_within|]. slot.
    match goal with H : _ !! _ = Some ?o |- Some ?o = _ => rewrite <- H; by slot end.
  - eapply runs_known; [apply (top_low _ _ _ H4); cbn [length]; lia|]. rewrite decide_False by done. cbn [mp_obj_is_small_int]. vgo.
    pose proof (low_lookup _ _ 0 H4 ltac:(cbn [length]; lia)) as L0. pose proof (low_lookup _ _ 1 H4 ltac:(cbn [length]; lia)) as L1.
    cbn [length lookup list_lookup] in L0, L1.
    eapply Hdone; [exact Hsh|done|congruence|cbn [length]; lia|]. apply low_cons; [apply low_cons; [by eapply low_within|]|]; cbn [length]; slot.
    all: match goal with H : v_state _ !! _ = Some ?o |- Some ?o = _ => rewrite <- H end.
    + rewrite <- L1. f_equal. lia.
    + rewrite <- L0. f_equal. lia.
Qed.

(** ** Generators *)

Lemma yield_safe pc F st s i : here pc F st s -> decode (bytecode f) pc = Some i -> v_ip s = i_next i ->
  i_op i = Some MP_BC_YIELD_VALUE -> safe pc (exec_yield s).
Proof.
  here_start Hcode. destruct F as [|[] F]; try done. apply next_Some in Hs. unfold exec_yield. vrun.
  cbn [VmSteps.safe vreturn returns_ok]. split; [|by eapply yields_at; [..|rewrite Ho]].
  eexists F, st. cbn [v_code_ip v_exc v_code_sp v_inject]. rewrite Hip.
  do 4 (split; [done|]). split; [by apply (locals_saved_low _ _ _ st)|done].
Qed.

Lemma yield_from_safe pc F st s i : v_code_ip s = pc -> shapes !! pc = Some F -> shaped F st (v_exc s) -> low st s ->
  v_sp s = Z.of_nat (length st) - 1 -> locals_ok s -> decode (bytecode f) pc = Some i -> v_ip s = i_next i ->
  i_op i = Some MP_BC_YIELD_FROM -> safe pc (exec_yield_from s).
Proof.
  intros H1 H2 H3 H4 H5 H6 Hd Hip Ho. pose proof (code_sizes _ _ _ _ _ Hcode) as [Hsz _].
  pose proof (check_special_at _ _ _ _ _ Hcode _ _ _ _ H2 Hd Ho eq_refl) as Hs. cbn [check_special] in Hs.
  destruct (code_at _ _ _ _ _ Hcode _ _ H2) as (_ & i' & Hd' & Hb & Hlim & _). replace i' with i in * by congruence. clear i' Hd'.
  assert (limit <= n_state)%nat by (unfold stack_limit; lia).
  destruct F as [|[] [|[] F]]; try done. apply next_Some in Hs. inversion H3 as [|? st1 ? o1 Hsh1| | | | | |]; subst F0 st ex.
  inversion Hsh1 as [|? st2 ? o2 Hsh2| | | | | |]; subst F0 st1 ex. destruct (shaped_height _ _ _ _ Hsh2) as [Hht _].
  cbn [blocks_ok height slots_of length] in *. assert (low st2 s) as Hlow by (by apply (low_app [o1; o2])).
  unfold exec_yield_from. rewrite (V_bind_Ok _ _ _ _ _ (pop_low _ _ _ H4 ltac:(cbn [length]; lia))). cbn [length]. vrun.
  match goal with |- safe pc ((TOP ≫= _) ?s1) => set (s2 := s1);
    assert (within (length st2) s2 s2) as Hw by (apply within_refl, (locals_saved _ _ _ s); [done|cbn [at_sp v_sp v_code_sp length]; lia]) end.
  assert (v_sp s2 = Z.of_nat (length st2)) as Hsp2 by (cbn [s2 v_sp at_sp]; lia).
  assert (v_ip s2 = i_next i) as Hip2 by done.
  assert (forall s', within (length st2) s2 s' -> raised pc s' /\ stop_ok f shapes pc s') as Hr.
  { intros s' Hw'. split.
    - by eapply raised_of_within with (act0 := []) (F := F) (st := st2) (ex := v_exc s) (s0 := s2).
    - intros i' F' Hd' HF'. split; [congruence|intros _]. exists (o1 :: o2 :: st2). rewrite H2 in HF'. injection HF' as <-.
      rewrite (wi_exc _ _ _ _ _ _ Hw'), (wi_code_sp _ _ _ _ _ _ Hw'). cbn [drop]. split; [done|]. split; [by eapply (low_within _ _ _ st2 s2)|].
      cbn [s2 v_code_sp at_sp v_sp length]. lia. }
  rewrite (V_bind_Ok _ _ s2 o2 s2) by (apply (top_low st2); [by apply (low_app [o1])|done]).
  assert (low st2 s2 /\ shaped F st2 (v_exc s2) /\ v_inject s2 = None /\ low (o2 :: st2) s2) as (Hlow2 & Hsh2' & Hinj2 & Hlow3)
    by (repeat split; try done; by apply (low_app [o1])).
  clearbody s2. cbn [at_sp v_inject v_ip v_world].
  assert (forall s', within (length st2) s2 s' -> v_ip s' = v_ip s2 -> v_sp s' = Z.of_nat (length st2) -> vm_inv s') as Hdone.
  { intros s' Hw' Hip' Hsp'. by eapply inv_of_within with (F := F) (st := st2) (s0 := s2) (k := 1%nat); try done; [lia|lia|rewrite Hip', Hip2]. }
  destruct (mp_resume _ _ _ _) as [[v|o|e|e] w].
  - unfold exec_yield. vrun.
    match goal with |- safe pc ((PUSH ?o ≫= _) ?s1) => destruct (push_slot n_locals n_state cells (o2 :: st2) s1 o) as (l & E & Hl) end.
    { done. } { cbn [v_sp length]. lia. } { cbn [length]. lia. } { by apply Hw. }
    vrun. cbn [VmSteps.safe vreturn VmInv.returns_ok]. split; [|by eapply (yields_at f shapes pc); [exact H2|exact Hd|rewrite Ho]]. eexists _, (v :: o2 :: st2).
    cbn [v_ip v_sp v_exc v_state v_code_ip v_code_sp v_inject v_world length] in *.
    replace (v_ip s - 1)%nat with pc by (rewrite Hip, (decode_none _ _ _ _ Hd Ho eq_refl); lia).
    split; [exact H2|]. split; [by do 2 constructor|]. split; [apply Hl|]. split; [lia|]. split; [apply Hl; lia|done].
  - eapply (safe_of_runs _ _ _ _ _ _ (length st2) s2); [done|]. unfold generator_exit_if_needed, exception_value.
    destruct (v_inject s); vgo; apply Hdone; try done; try lia; congruence.
  - eapply (safe_of_runs _ _ _ _ _ _ (length st2) s2); [done|]. unfold generator_exit_if_needed, exception_value.
    destruct (v_inject s); vgo; apply Hdone; try done; try lia; congruence.
  - vrun. apply Hr. eapply within_same; [exact Hw|done..].
Qed.

(** ** All instructions *)

Lemma execute_safe pc F st s i : v_code_ip s = pc -> shapes !! pc = Some F -> shaped F st (v_exc s) -> low st s ->
  v_sp s = Z.of_nat (length st) - 1 -> locals_ok s -> decode (bytecode f) pc = Some i -> v_ip s = i_next i ->
  (v_inject s = None \/ bytecode f !! pc = Some (opcode MP_BC_YIELD_FROM)) -> safe pc (execute f i s).
Proof.
  intros H1 H2 H3 H4 H5 H6 Hd Hip Hinj. destruct Hinj as [Hinj|Hb]; last first.
  { destruct (decode_yield_from _ _ _ Hb Hd) as [Ho _]. unfold execute. rewrite Ho. by eapply yield_from_safe. }
  assert (here pc F st s) as Hh by done. pose proof (code_sizes _ _ _ _ _ Hcode) as [_ Hpos].
  destruct (i_op i) as [o|] eqn:Ho; last first.
  { unfold execute. rewrite Ho. unfold exec_default, new_exception. vrun.
    destruct (mp_obj_new_exception_msg _ _) as [e w]. vrun. unfold wr. vrun. cbn [v_state].
    destruct H6 as (Hl & _ & Hcsp). replace ((0 <=? 0) && (0 <? Z.of_nat (length (v_state s)))) with true by lia. vrun.
    split; [exists e; cbn [v_state]; change (Z.to_nat 0) with 0%nat; by rewrite list_lookup_insert_eq by lia|cbn [v_state v_code_sp]; by rewrite length_insert, Hl]. }
  destruct (effect o (i_a i) (i_b i)) as [[[[need npop] npush] extra]|] eqn:He.
  { destruct (enters_handler o i F) eqn:Hent; [|by eapply effect_safe].
    destruct (enter_handler_safe _ _ _ _ _ Hcode _ _ _ _ _ _ Hh Hip Hent) as [-> Hs]. unfold execute. rewrite Ho. exact Hs. }
  unfold execute. rewrite Ho. destruct o; try discriminate He.
  all: first [by eapply jump_safe; [done..|set_solver]|by eapply setup_with_safe|by eapply with_cleanup_safe|by eapply unwind_jump_op_safe
    |by eapply (setup_block_safe f n_locals n_state cells shapes Hcode) with (fin := false)|by eapply (setup_block_safe f n_locals n_state cells shapes Hcode) with (fin := true)
    |by eapply end_finally_safe|by eapply get_iter_stack_safe|by eapply for_iter_safe|by eapply pop_except_jump_safe
    |by eapply return_op_safe|by eapply raise_safe|by eapply yield_safe|by eapply yield_from_safe|idtac].
  cbn [effect] in He. by destruct (i_a i =? 3).
Qed.

Lemma vm_step_good s : vm_inv s -> exists r, vm_step f s = Some r /\ good r.
Proof.
  intros (F & HF & (st & H3 & H4 & H5 & H6) & Hinj). destruct (code_at _ _ _ _ _ Hcode _ _ HF) as (_ & i & Hd & _).
  unfold vm_step. eapply (safe_good _ _ _ _ _ Hcode (v_ip s) F); [done|]. unfold dispatch. vrun.
  erewrite V_bind_Ok by (unfold vlift; rewrite Hd; reflexivity). vrun. by eapply execute_safe.
Qed.

Lemma vm_start_good s : vm_saved s -> exists r, vm_start f s = Some r /\ good r.
Proof.
  intros (F & HF & st & H3 & H4 & H5 & H6). destruct (code_at _ _ _ _ _ Hcode _ _ HF) as (_ & i & Hd & Hb & _).
  destruct (code_byte _ _ _ _ _ Hcode _ _ HF) as [b Hbyte].
  unfold vm_start. eapply (safe_good _ _ _ _ _ Hcode (v_code_ip s) F); [done|]. unfold outer_dispatch_loop. vrun.
  erewrite V_bind_Ok by (unfold vlift; rewrite Hbyte; reflexivity). cbv beta iota.
  assert (forall inj, (inj = None \/ b = opcode MP_BC_YIELD_FROM) -> vm_inv (MkCode (v_code_ip s) (v_code_sp s) (v_exc s) (v_state s)
    (v_code_ip s) (v_code_sp s) inj (v_world s))) as Hinv.
  { intros inj Hinj. exists F. split; [done|]. split; [by exists st|]. cbn [v_inject v_ip].
    destruct Hinj as [->| ->]; [by left|by right]. }
  destruct (v_inject s) as [exc|] eqn:Hinj; [|by apply Hinv; left].
  destruct (Z.eqb_spec b (opcode MP_BC_YIELD_FROM)) as [->|Hne]; [by apply Hinv; right|]. vrun.
  unfold make_raise. vrun. destruct (mp_make_raise_obj _ _) as [e w]. vrun.
  match goal with |- safe _ (vraise e ?s1) => set (s2 := s1); assert (within (length st) s2 s2) as Hw by (by apply within_refl) end.
  split.
  - by eapply raised_of_within with (act0 := []) (F := F) (st := st) (ex := v_exc s) (s0 := s2).
  - intros i' F' Hd' HF'. rewrite HF in HF'. injection HF' as <-. rewrite Hd in Hd'. injection Hd' as <-. split; intros Ho.
    + exists st. split; [done|]. split; [|done]. rewrite <- (take_drop 4 st) in H4. by apply low_app in H4.
    + destruct (decode_byte _ _ _ Hd) as (b' & Hb' & He). rewrite Ho in He. symmetry in He. apply entry_table_single in He; [congruence|].
      by apply (bool_decide_unpack _).
Qed.

Lemma vm_run_good n : forall s, vm_inv s -> exists r, vm_run f n s = Some r /\ good r.
Proof.
  induction n as [|n IH]; intros s Hs; [by eexists|]. cbn [vm_run].
  destruct (vm_step_good s Hs) as ([[] s'|e s'|k s'] & -> & Hg); [by apply IH|done|by eexists].
Qed.

(** Where the interpreter is between instructions: the top of the stack is below the
    local variables, the blocks fit, and there is an instruction. *)
Definition within_bounds s : Prop :=
  -1 <= v_sp s < Z.of_nat limit /\ (length (v_exc s) <= n_exc_stack f)%nat /\ length (v_state s) = n_state
  /\ is_Some (decode (bytecode f) (v_ip s)).

Lemma execute_good n s : vm_saved s -> exists r, mp_execute_bytecode f n s = Some r /\ good r.
Proof.
  intros Hs. unfold mp_execute_bytecode. destruct (vm_start_good _ Hs) as ([[] s1|e s1|k s1] & -> & Hg); [|done|by eexists].
  by apply vm_run_good.
Qed.

Lemma inv_bounds s : vm_inv s -> within_bounds s.
Proof.
  intros (F & HF & (st & Hsh & _ & Hsp & Hlo & _) & _). destruct (code_at _ _ _ _ _ Hcode _ _ HF) as (_ & i & Hd & _ & Hh & Hdep).
  destruct (shaped_height _ _ _ _ Hsh) as [H1 H2]. split; [lia|]. split; [lia|]. split; [done|]. by exists i.
Qed.
End Sound.

(** A call of a function, or the start of a generator, as [mp_setup_code_state] leaves it. *)
Lemma initial_saved {W} n_locals n_state cells shapes (s : mp_code_state_t W) :
  shapes !! v_code_ip s = Some [] -> v_exc s = [] -> v_code_sp s = -1 -> locals_ok n_locals n_state cells s ->
  vm_saved n_locals n_state cells shapes s.
Proof. intros HF Hex Hsp Hlo. exists []. split; [done|]. exists []. rewrite Hex. repeat split; try done; try apply Hlo; constructor. Qed.

(** C8 Code that the checker accepts keeps to its stacks: from the start of a call,
    or from where a generator is resumed, every number of instructions is defined, no
    exception escapes the handlers, the operand stack stays below the local variables
    and the blocks within their number, and a result is where the caller looks for it. *)
Theorem vm_safe {W} {R : Runtime W} {L : RuntimeLaws R} (f : mp_obj_fun_bc_t) n_locals n_state cells shapes n s :
  check_code f n_locals n_state cells shapes = true -> vm_saved n_locals n_state cells shapes s ->
  exists r, mp_execute_bytecode f n s = Some r
    /\ match r with
       | VOk _ s' => within_bounds f n_locals n_state s'
       | VRaise _ _ => False
       | VReturn k s' => returns_ok f n_locals n_state cells shapes k s'
       end.
Proof.
  intros Hcode Hs. destruct (execute_good f _ _ _ _ Hcode n s Hs) as ([[] s'|e s'|k s'] & -> & Hg); [|done|by eexists].
  eexists. split; [done|]. by eapply (inv_bounds f _ _ _ _ Hcode).
Qed.
