(* ===== verification/Generator.v ===== *)
(** Generators, [py/objgenerator.c]: function calls that are suspended and resumed;
    the check of the depth of C calls, [MP_STACK_CHECK], is left out. *)
From S2P Require Import Prelude Bytecode Vm VmSafe VmRun VmInv VmHandler VmSound.

(** [g_stopped] is [code_state.ip == 0]; the globals are [MP_OBJ_NULL] while the generator runs. *)
Record mp_obj_gen_instance_t (W : Type) := MkGen { g_stopped : bool; g_globals : obj; g_code : mp_code_state_t W }.
Arguments MkGen {W} _ _ _.
Arguments g_stopped {W} _.
Arguments g_globals {W} _.
Arguments g_code {W} _.

Definition MP_OBJ_STOP_ITERATION : obj := MP_OBJ_NULL.

(** What a call comes to: the interpreter may also still be running when the
    instructions it is given are used up. *)
Inductive gen_ret := GReturn (k : mp_vm_return_kind_t) (ret : obj) | GTypeError | GValueError | GRunning.

(** What the methods return or raise. *)
Inductive gen_result := GenVal (o : obj) | GenStopIteration (value : option obj) | GenRaise (exc : obj)
  | GenTypeError | GenValueError | GenRuntimeError | GenRunning.

Section Generator.
Context {W : Type} {R : Runtime W} (f : mp_obj_fun_bc_t).
Implicit Types (s : mp_code_state_t W) (g : mp_obj_gen_instance_t W).

Definition with_slots (l : list obj) (inject : option obj) s : mp_code_state_t W :=
  MkCode (v_ip s) (v_sp s) (v_exc s) l (v_code_ip s) (v_code_sp s) inject (v_world s).
Definition in_world (w : W) s : mp_code_state_t W :=
  MkCode (v_ip s) (v_sp s) (v_exc s) (v_state s) (v_code_ip s) (v_code_sp s) (v_inject s) w.
(** [*self->code_state.sp] *)
Definition sp_slot s : option obj := if v_code_sp s <? 0 then None else v_state s !! Z.to_nat (v_code_sp s).
Definition set_sp_slot (o : obj) s : mp_code_state_t W := with_slots (<[Z.to_nat (v_code_sp s) := o]> (v_state s)) (v_inject s) s.

(** [gen_wrap_call], once [mp_setup_code_state] has made the code state. *)
Definition gen_wrap_call (s : mp_code_state_t W) : mp_obj_gen_instance_t W := MkGen false (globals f) s.

(** The value sent, or an exception that is pending, which goes before the one thrown. *)
Definition gen_send (send_value : obj) (throw_value : option obj) s : option (option (option obj * mp_code_state_t W)) :=
  if v_code_sp s =? -1 then
    if decide (send_value = mp_const_none) then Some (Some (throw_value, s)) else Some None
  else
    slot ← sp_slot s;
    if decide (slot = mp_const_none) then Some (Some (throw_value, set_sp_slot send_value s))
    else Some (Some (Some slot, set_sp_slot MP_OBJ_NULL s)).

Definition mp_obj_gen_resume (n : nat) (send_value : obj) (throw_value : option obj) g : option (gen_ret * mp_obj_gen_instance_t W) :=
  if g_stopped g then Some (GReturn MP_VM_RETURN_NORMAL MP_OBJ_STOP_ITERATION, g)
  else
    r ← gen_send send_value throw_value (g_code g);
    match r with
    | None => Some (GTypeError, g)
    | Some (throw_value, s) =>
        if decide (g_globals g = MP_OBJ_NULL) then Some (GValueError, MkGen false MP_OBJ_NULL s)
        else
          let old_globals := mp_globals_get (v_world s) in
          let s := in_world (mp_globals_set (g_globals g) (v_world s)) s in
          r ← mp_execute_bytecode f n (with_slots (v_state s) throw_value s);
          match r with
          | VOk _ s => Some (GRunning, MkGen false MP_OBJ_NULL s)
          | VRaise _ _ => None
          | VReturn k s =>
              let self_globals := mp_globals_get (v_world s) in
              let s := in_world (mp_globals_set old_globals (v_world s)) s in
              match k with
              | MP_VM_RETURN_NORMAL => ret ← sp_slot s; Some (GReturn k ret, MkGen true self_globals s)
              | MP_VM_RETURN_YIELD => ret ← sp_slot s; Some (GReturn k ret, MkGen false self_globals (set_sp_slot mp_const_none s))
              | MP_VM_RETURN_EXCEPTION =>
                  ret ← v_state s !! 0%nat;
                  match ret with
                  | ObjExc e =>
                      if is_StopIteration e then
                        let '(e', w) := mp_obj_new_exception_msg RuntimeError_generator (v_world s) in
                        Some (GReturn k (ObjExc e'), MkGen true self_globals (in_world w s))
                      else Some (GReturn k ret, MkGen true self_globals s)
                  | _ => None
                  end
              end
          end
    end.

Definition gen_resume_and_raise (n : nat) (send_value : obj) (throw_value : option obj) g : option (gen_result * mp_obj_gen_instance_t W) :=
  '(r, g) ← mp_obj_gen_resume n send_value throw_value g;
  Some (match r with
        | GReturn MP_VM_RETURN_NORMAL ret =>
            if decide (ret = mp_const_none \/ ret = MP_OBJ_STOP_ITERATION) then GenVal MP_OBJ_STOP_ITERATION
            else GenStopIteration (Some ret)
        | GReturn MP_VM_RETURN_YIELD ret => GenVal ret
        | GReturn MP_VM_RETURN_EXCEPTION ret => GenRaise ret
        | GTypeError => GenTypeError | GValueError => GenValueError | GRunning => GenRunning
        end, g).

Definition gen_instance_iternext (n : nat) g := gen_resume_and_raise n mp_const_none None g.

Definition stop_to_exception (r : gen_result) : gen_result :=
  match r with GenVal o => if decide (o = MP_OBJ_STOP_ITERATION) then GenStopIteration None else r | _ => r end.

Definition gen_instance_send (n : nat) (send_value : obj) g :=
  '(r, g) ← gen_resume_and_raise n send_value None g; Some (stop_to_exception r, g).

(** With two arguments the exception is the second, otherwise the third. *)
Definition gen_instance_throw (n : nat) (args : list obj) g :=
  exc ← args !! (if length args =? 2 then 1 else 2)%nat;
  '(r, g) ← gen_resume_and_raise n mp_const_none (if decide (exc = MP_OBJ_NULL) then None else Some exc) g;
  Some (stop_to_exception r, g).

Definition gen_instance_close (n : nat) g : option (gen_result * mp_obj_gen_instance_t W) :=
  '(r, g) ← mp_obj_gen_resume n mp_const_none (Some (ObjExc mp_const_GeneratorExit_obj)) g;
  Some (match r with
        | GReturn MP_VM_RETURN_YIELD _ => GenRuntimeError
        | GReturn MP_VM_RETURN_EXCEPTION ret => if is_GeneratorExit ret then GenVal mp_const_none else GenRaise ret
        | GReturn MP_VM_RETURN_NORMAL _ => GenVal mp_const_none
        | GTypeError => GenTypeError | GValueError => GenValueError | GRunning => GenRunning
        end, g).

Definition gen_instance_pend_throw (exc_in : obj) g : option (gen_result * mp_obj_gen_instance_t W) :=
  if v_code_sp (g_code g) =? -1 then Some (GenTypeError, g)
  else prev ← sp_slot (g_code g);
       Some (GenVal prev, MkGen (g_stopped g) (g_globals g) (set_sp_slot exc_in (g_code g))).

Inductive gen_op := OpNext | OpSend (v : obj) | OpThrow (args : list obj) | OpClose | OpPendThrow (e : obj).

Definition gen_call (n : nat) (op : gen_op) g : option (gen_result * mp_obj_gen_instance_t W) :=
  match op with
  | OpNext => gen_instance_iternext n g
  | OpSend v => gen_instance_send n v g
  | OpThrow args => gen_instance_throw n args g
  | OpClose => gen_instance_close n g
  | OpPendThrow e => gen_instance_pend_throw e g
  end.
End Generator.

(** ** Checked generators *)

Section Checked.
Context {W : Type} {R : Runtime W} {L : RuntimeLaws R} (f : mp_obj_fun_bc_t).
Context (n_locals n_state : nat) (cells : list nat) (shapes : gmap nat frame).
Context (Hcode : check_code f n_locals n_state cells shapes = true).
Implicit Types (s : mp_code_state_t W) (g : mp_obj_gen_instance_t W).
Abbreviation vm_saved := (vm_saved n_locals n_state cells shapes).
Abbreviation vm_yielded := (vm_yielded n_locals n_state cells shapes).

(** Suspended, not begun or at a [yield], or ended. *)
Definition gen_ok g : Prop :=
  g_globals g <> MP_OBJ_NULL
  /\ (g_stopped g = true /\ -1 <= v_code_sp (g_code g) < Z.of_nat (length (v_state (g_code g)))
      \/ g_stopped g = false /\ (v_code_sp (g_code g) = -1 /\ vm_saved (g_code g) \/ vm_yielded (g_code g))).

Lemma slot_set s o : 0 <= v_code_sp s < Z.of_nat (length (v_state s)) -> is_Some (sp_slot s) /\ sp_slot (set_sp_slot o s) = Some o.
Proof.
  intros H. unfold sp_slot. cbn [v_code_sp v_state set_sp_slot with_slots]. destruct (Z.ltb_spec (v_code_sp s) 0); [lia|].
  split; [apply lookup_lt_is_Some_2; lia|by rewrite list_lookup_insert_eq by lia].
Qed.

Lemma slot_range s o : sp_slot s = Some o -> 0 <= v_code_sp s < Z.of_nat (length (v_state s)).
Proof. unfold sp_slot. destruct (Z.ltb_spec (v_code_sp s) 0); [done|]. intros Hl%lookup_lt_Some. lia. Qed.

Lemma yielded_slot s : vm_yielded s -> 0 <= v_code_sp s /\ is_Some (sp_slot s)
  /\ forall o inject, vm_saved (with_slots (<[Z.to_nat (v_code_sp s) := o]> (v_state s)) inject s)
       /\ vm_yielded (set_sp_slot o s).
Proof.
  intros (F & st & HF & Hsh & Hlow & Hsp & Hlo & Hinj).
  inversion Hsh as [|? st' ? o' Hsh'| | | | | |]; subst F0 st ex. cbn [length] in Hsp.
  destruct (code_at _ _ _ _ _ Hcode _ _ HF) as (_ & _ & _ & _ & Hfit & _). destruct (shaped_height _ _ _ _ Hsh') as [Hht _].
  cbn [height slots_of] in Hfit. pose proof Hlo as [Hlen _].
  assert (forall o inject, exists F st, shapes !! v_code_ip s = Some (ISlot :: F) /\ shaped shapes (ISlot :: F) st (v_exc s)
    /\ low st (with_slots (<[Z.to_nat (v_code_sp s) := o]> (v_state s)) inject s) /\ v_code_sp s = Z.of_nat (length st) - 1
    /\ locals_ok n_locals n_state cells (with_slots (<[Z.to_nat (v_code_sp s) := o]> (v_state s)) inject s)) as H.
  { intros o inject. exists F, (o :: st'). split; [done|]. split; [by constructor|].
    split; [|split; [cbn [length]; lia|by apply (wr_slot n_locals n_state cells s); [|lia]]].
    apply (low_push _ s); [by apply (low_app [o'])| |f_equal; lia]. unfold stack_limit in *. lia. }
  split; [lia|]. split.
  { unfold sp_slot. destruct (Z.ltb_spec (v_code_sp s) 0); [lia|]. apply lookup_lt_is_Some_2. unfold stack_limit in *. lia. }
  intros o inject. split; [destruct (H o inject) as (F' & st & H1 & H2 & H3 & H4 & H5); exists (ISlot :: F'); split; [done|]; by exists st|].
  destruct (H o (v_inject s)) as (F' & st & H1 & H2 & H3 & H4 & H5). by exists F', st.
Qed.

(** ** What a call means *)

(** The value that a call sends, and the exception that it throws: the second of two arguments of [throw], else the third. *)
Definition sent (op : gen_op) : obj := match op with OpSend v => v | _ => mp_const_none end.
Definition thrown (op : gen_op) : option obj :=
  match op with
  | OpThrow [_; exc] | OpThrow (_ :: _ :: exc :: _) => if decide (exc = MP_OBJ_NULL) then None else Some exc
  | OpClose => Some (ObjExc mp_const_GeneratorExit_obj)
  | _ => None
  end.

(** How the body goes on: with which exception raised in it, and with what in its frame.  At the start with nothing
    sent; at a [yield], whose value is the one sent; at a [yield] with an exception pending, which goes before the one thrown. *)
Inductive continues (op : gen_op) s : option obj -> mp_code_state_t W -> Prop :=
  | cont_start : v_code_sp s = -1 -> sent op = mp_const_none -> continues op s (thrown op) s
  | cont_yield : sp_slot s = Some mp_const_none -> continues op s (thrown op) (set_sp_slot (sent op) s)
  | cont_pending exc : sp_slot s = Some exc -> exc <> mp_const_none -> continues op s (Some exc) (set_sp_slot MP_OBJ_NULL s).

(** The body runs with the generator's globals. *)
Definition body_run (n : nat) (inject : option obj) s (globals : obj) : option (vres W unit) :=
  mp_execute_bytecode f n (with_slots (v_state s) inject (in_world (mp_globals_set globals (v_world s)) s)).

(** What the run of the body comes to, and the generator after it, with the globals [old] of the caller again: the value
    returned, which ends it; the value yielded; or the exception that the body raised, or if that is
    [StopIteration] a new [RuntimeError] for it, which ends it too. *)
Definition comes_to (old : obj) (run : vres W unit) (r : gen_ret) g' : Prop :=
  match run with
  | VOk _ s => r = GRunning /\ g' = MkGen false MP_OBJ_NULL s
  | VRaise _ _ => False
  | VReturn k s =>
      let globals := mp_globals_get (v_world s) in let s' := in_world (mp_globals_set old (v_world s)) s in
      match k with
      | MP_VM_RETURN_NORMAL => exists o, sp_slot s = Some o /\ r = GReturn k o /\ g' = MkGen true globals s'
      | MP_VM_RETURN_YIELD => exists o, sp_slot s = Some o /\ r = GReturn k o /\ g' = MkGen false globals (set_sp_slot mp_const_none s')
      | MP_VM_RETURN_EXCEPTION => exists e, v_state s !! 0%nat = Some (ObjExc e)
          /\ if is_StopIteration e
             then exists e' w, mp_obj_new_exception_msg RuntimeError_generator (v_world s') = (e', w) /\ is_StopIteration e' = false
                  /\ r = GReturn k (ObjExc e') /\ g' = MkGen true globals (in_world w s')
             else r = GReturn k (ObjExc e) /\ g' = MkGen true globals s'
      end
  end.

(** What each method makes of it.  A generator without a value left is [MP_OBJ_STOP_ITERATION] from [next], else [StopIteration]. *)
Definition answer (op : gen_op) (r : gen_ret) : gen_result :=
  match r with
  | GReturn MP_VM_RETURN_NORMAL o =>
      let nothing := bool_decide (o = mp_const_none \/ o = MP_OBJ_STOP_ITERATION) in
      match op with
      | OpClose => GenVal mp_const_none
      | OpNext => if nothing then GenVal MP_OBJ_STOP_ITERATION else GenStopIteration (Some o)
      | _ => GenStopIteration (if nothing then None else Some o)
      end
  | GReturn MP_VM_RETURN_YIELD o =>
      match op with
      | OpClose => GenRuntimeError
      | OpNext => GenVal o
      | _ => if bool_decide (o = MP_OBJ_STOP_ITERATION) then GenStopIteration None else GenVal o
      end
  | GReturn MP_VM_RETURN_EXCEPTION exc =>
      match op with OpClose => if is_GeneratorExit exc then GenVal mp_const_none else GenRaise exc | _ => GenRaise exc end
  | GTypeError => GenTypeError | GValueError => GenValueError | GRunning => GenRunning
  end.

Definition op_allowed (op : gen_op) : Prop := match op with OpThrow args => (2 <= length args <= 4)%nat | _ => True end.
Definition is_pend_throw (op : gen_op) : bool := match op with OpPendThrow _ => true | _ => false end.

(** The methods are the resumption and what they make of it. *)
Lemma gen_call_resume n op g : op_allowed op -> is_pend_throw op = false ->
  gen_call f n op g = ('(r, g') ← mp_obj_gen_resume f n (sent op) (thrown op) g; Some (answer op r, g')).
Proof.
  intros Hop Hp. destruct op as [|v|args| |e]; [..|done]; cbn [gen_call sent].
  3: destruct args as [|a1 [|a2 args]]; cbn [op_allowed length] in Hop; try lia;
    unfold gen_instance_throw; destruct args as [|a3 args]; cbn [length Nat.eqb lookup list_lookup mbind option_bind thrown].
  all: unfold gen_instance_iternext, gen_instance_send, gen_instance_close, gen_resume_and_raise, thrown;
    destruct (mp_obj_gen_resume f n _ _ g) as [[[[| |] o| | |] g']|]; cbn [mbind option_bind answer]; try done;
    repeat case_bool_decide; repeat destruct (decide _); cbn [stop_to_exception andb]; try destruct (decide _); try done; by destruct (is_GeneratorExit o).
Qed.

(** How the body goes on is determined, unless a value is sent to a body that has not begun. *)
Lemma gen_send_continues op s : v_code_sp s = -1 /\ vm_saved s \/ vm_yielded s ->
  v_code_sp s = -1 /\ sent op <> mp_const_none /\ gen_send (sent op) (thrown op) s = Some None
  \/ exists inj s1, gen_send (sent op) (thrown op) s = Some (Some (inj, s1)) /\ continues op s inj s1
       /\ v_world s1 = v_world s /\ forall w, vm_saved (with_slots (v_state s1) inj (in_world w s1)).
Proof.
  intros Hok. unfold gen_send. destruct Hok as [[Hsp Hs]|Hy].
  - rewrite Hsp. cbn [Z.eqb Pos.eqb]. destruct (decide _) as [Hn|Hn]; [right|by left].
    eexists _, _. split; [done|]. split; [by constructor|]. split; [done|]. intros w. exact Hs.
  - destruct (yielded_slot _ Hy) as (H0 & [slot Hslot] & Hw). destruct (Z.eqb_spec (v_code_sp s) (-1)); [lia|].
    rewrite Hslot. cbn [mbind option_bind]. right.
    destruct (decide _) as [->|Hn]; eexists _, _; (split; [done|]; split; [by constructor|]; split; [done|]; intros w; apply Hw).
Qed.

(** A resumption of a generator that has not ended is defined, and goes by the run of the body. *)
Lemma resume_comes_to n op g : gen_ok g -> g_stopped g = false ->
  mp_obj_gen_resume f n (sent op) (thrown op) g = Some (GTypeError, g) /\ v_code_sp (g_code g) = -1 /\ sent op <> mp_const_none
  \/ exists inj s run r g', continues op (g_code g) inj s /\ body_run n inj s (g_globals g) = Some run
       /\ mp_obj_gen_resume f n (sent op) (thrown op) g = Some (r, g') /\ comes_to (mp_globals_get (v_world (g_code g))) run r g'
       /\ (r = GRunning /\ within_bounds f n_locals n_state (g_code g') \/ gen_ok g').
Proof.
  intros [Hex Hok] Hstop. unfold mp_obj_gen_resume. rewrite Hstop. destruct Hok as [[? _]|[_ Hok]]; [congruence|].
  destruct (gen_send_continues op _ Hok) as [(Hsp & Hne & ->)|(inj & s & -> & Hc & Hws & Hs)]; cbn [mbind option_bind]; [by left|right].
  rewrite decide_False by done. specialize (Hs (mp_globals_set (g_globals g) (v_world s))).
  destruct (execute_good f _ _ _ _ Hcode n _ Hs) as (run & E & Hg). exists inj, s, run. unfold body_run. rewrite <- Hws.
  cbn zeta. change (v_state (in_world ?w s)) with (v_state s). rewrite E. cbn [mbind option_bind]. set (old := mp_globals_get (v_world s)).
  destruct run as [[] s'|e s'|k s']; cbn [good returns_ok] in Hg; [|done|].
  { eexists _, _. split; [done|]. split; [done|]. split; [done|]. split; [done|]. left. split; [done|]. by eapply (inv_bounds f _ _ _ _ Hcode). }
  pose proof (globals_not_null (v_world s')) as Hglob. cbn [comes_to]. destruct k; cbn [returns_ok] in Hg; change (sp_slot (in_world ?w s')) with (sp_slot s').
  - destruct Hg as (_ & H0 & [o Ho]). assert (Hslot : sp_slot s' = Some o) by (unfold sp_slot; destruct (Z.ltb_spec (v_code_sp s') 0); [lia|done]).
    rewrite Hslot. cbn [mbind option_bind]. eexists _, _. do 3 (split; [done|]). split; [by exists o|].
    right. split; [done|left]. split; [done|]. cbn [g_code in_world v_code_sp v_state]. apply slot_range in Hslot. lia.
  - destruct Hg as [Hg _]. destruct (yielded_slot _ Hg) as (H0 & [o Ho] & Hw). rewrite Ho. cbn [mbind option_bind].
    eexists _, _. do 3 (split; [done|]). split; [by exists o|]. right. split; [done|right; split; [done|right; by apply (Hw _ None)]].
  - destruct Hg as [[e He] Hsp]. cbn [v_state in_world]. rewrite He. cbn [mbind option_bind].
    destruct (is_StopIteration e) eqn:Hst.
    + destruct (mp_obj_new_exception_msg _ _) as [e' w3] eqn:Hn. eexists _, _. do 3 (split; [done|]).
      split; [|right; split; [done|by left]]. exists e. rewrite Hst. split; [done|]. exists e', w3.
      split; [done|]. split; [by eapply new_exception_class|done].
    + eexists _, _. do 3 (split; [done|]). split; [exists e; by rewrite Hst|]. right; split; [done|by left].
Qed.

(** The answer of a generator that has ended. *)
Definition ended_answer (op : gen_op) : gen_result :=
  match op with
  | OpNext => GenVal MP_OBJ_STOP_ITERATION
  | OpSend _ | OpThrow _ => GenStopIteration None
  | _ => GenVal mp_const_none
  end.

(** C9 The methods of a generator whose code is checked.  A call is never undefined, and unless the body
    is still running it leaves a generator that can be called again.  For [next], [send], [throw] and [close]: a generator
    that has ended stays as it is and answers [StopIteration] ([None] from [close]); a value sent to one
    that has not begun is a [TypeError] and changes nothing; otherwise the body goes on with the value sent and with
    the exception that is pending or thrown, and its run decides: the value it yields or returns is what the method gives,
    and what the method raises is the exception that the body leaves, with a [RuntimeError] in place of [StopIteration];
    [close] swallows [GeneratorExit] and refuses a yield.  [pend_throw] gives back what
    was in the place for the value sent and puts its argument there, also when the generator has ended, where nothing comes of it;
    without such a place it is a [TypeError]. *)
Theorem generator_correct n op g : gen_ok g -> op_allowed op ->
  exists r g', gen_call f n op g = Some (r, g')
  /\ (r = GenRunning /\ within_bounds f n_locals n_state (g_code g') \/ gen_ok g')
  /\ (forall exc, r = GenRaise exc -> g_stopped g' = true /\ exists e, exc = ObjExc e /\ is_StopIteration e = false)
  /\ match op with
     | OpPendThrow e =>
         if v_code_sp (g_code g) =? -1 then r = GenTypeError /\ g' = g
         else exists prev, sp_slot (g_code g) = Some prev /\ r = GenVal prev /\ sp_slot (g_code g') = Some e
              /\ g' = MkGen (g_stopped g) (g_globals g) (set_sp_slot e (g_code g))
     | _ =>
         if g_stopped g then g' = g /\ r = ended_answer op
         else v_code_sp (g_code g) = -1 /\ sent op <> mp_const_none /\ r = GenTypeError /\ g' = g
           \/ exists inject s run ret, continues op (g_code g) inject s /\ body_run n inject s (g_globals g) = Some run
                /\ comes_to (mp_globals_get (v_world (g_code g))) run ret g' /\ r = answer op ret
     end.
Proof.
  intros Hok Hop. destruct (is_pend_throw op) eqn:Hp.
  - destruct op as [| | | |e]; try done. cbn [gen_call]. unfold gen_instance_pend_throw. destruct (Z.eqb_spec (v_code_sp (g_code g)) (-1)).
    { exists GenTypeError, g. split; [done|]. split; [by right|]. by split. }
    assert (Hr : 0 <= v_code_sp (g_code g) < Z.of_nat (length (v_state (g_code g)))).
    { destruct Hok as [_ [[_ ?]|[_ [[? _]|Hy]]]]; [lia|done|]. destruct (yielded_slot _ Hy) as (_ & [o Ho] & _). by apply slot_range in Ho. }
    destruct (slot_set _ e Hr) as [[prev Hprev] Hset]. rewrite Hprev. cbn [mbind option_bind].
    eexists _, _. split; [done|]. split; [right|by split; [|exists prev]]. destruct Hok as [Hex Hok]. split; [done|].
    destruct Hok as [[Hs _]|[Hs [[? _]|Hy]]]; [left|done|right; split; [done|right; exact (proj2 (proj2 (proj2 (yielded_slot _ Hy)) e None))]].
    split; [done|]. cbn [g_code set_sp_slot with_slots v_code_sp v_state]. rewrite length_insert. lia.
  - rewrite gen_call_resume by done. destruct (g_stopped g) eqn:Hstop.
    + unfold mp_obj_gen_resume. rewrite Hstop. cbn [mbind option_bind]. eexists _, _. split; [done|]. split; [by right|].
      assert (Ha : answer op (GReturn MP_VM_RETURN_NORMAL MP_OBJ_STOP_ITERATION) = ended_answer op) by (by destruct op).
      rewrite Ha. split; [by destruct op|by destruct op].
    + destruct (resume_comes_to n op g Hok Hstop) as [(-> & Hsp & Hne)|(inj & s & run & r & g' & Hc & Hb & -> & Ht & Hg)]; cbn [mbind option_bind].
      { eexists _, _. split; [done|]. split; [by right|]. split; [done|]. destruct op; try done; by left. }
      eexists _, g'. split; [done|]. split; [destruct Hg as [[-> Hg]|Hg]; [by left|by right]|]. split.
      * intros exc Hexc. destruct run as [|e0 s0|k s0]; [by destruct Ht as [-> _]|done|]. destruct k; cbn [comes_to] in Ht.
        1,2: destruct Ht as (o & _ & -> & _); destruct op; cbn [answer] in Hexc; by repeat case_bool_decide.
        destruct Ht as (e & _ & Ht). destruct (is_StopIteration e) eqn:He.
        -- destruct Ht as (e' & w & _ & He' & -> & ->). assert (exc = ObjExc e') as -> by (destruct op; cbn [answer] in Hexc; try destruct (is_GeneratorExit _); congruence). split; [done|by exists e'].
        -- destruct Ht as [-> ->]. assert (exc = ObjExc e) as -> by (destruct op; cbn [answer] in Hexc; try destruct (is_GeneratorExit _); congruence). split; [done|by exists e].
      * destruct op; try done; right; by exists inj, s, run, r.
Qed.
End Checked.
