(* ===== verification/FunCall.v ===== *)
(** Calls of byte code functions, [mp_setup_code_state] of [py/bc.c] and [fun_bc_call]
    of [py/objfun.c]: the arguments are bound to the local variables, and the code runs.
    The check of the depth of C calls, [MP_STACK_CHECK], is left out. *)
From S2P Require Import Prelude Bytecode Vm VmSafe VmRun VmInv VmSound Generator.

Definition MP_SCOPE_FLAG_VARARGS : Z := 1.
Definition MP_SCOPE_FLAG_VARKEYWORDS : Z := 2.
Definition MP_SCOPE_FLAG_DEFKWARGS : Z := 8.

(** What the code begins with; [p_ip] is where the information on the code is. *)
Record prelude := MkPrelude {
  p_n_state : nat; p_flags : Z; p_n_pos_args : nat; p_n_kwonly_args : nat; p_n_def_pos_args : nat; p_ip : nat }.

Definition has (p : prelude) (flag : Z) : bool := negb (Z.land (p_flags p) flag =? 0).

Inductive call_result := CallVal (o : obj) | CallRaise (e : nat) | CallRunning.

Section FunCall.
Context {W : Type} {R : Runtime W} (f : mp_obj_fun_bc_t).
Implicit Types s : mp_code_state_t W.

Definition decode_prelude : option prelude :=
  '(n_state, ip) ← mp_decode_uint (bytecode f) 0;
  ip ← mp_decode_uint_skip (bytecode f) ip;
  flags ← bytecode f !! ip;
  n_pos_args ← bytecode f !! (ip + 1)%nat;
  n_kwonly_args ← bytecode f !! (ip + 2)%nat;
  n_def_pos_args ← bytecode f !! (ip + 3)%nat;
  Some (MkPrelude (Z.to_nat n_state) flags (Z.to_nat n_pos_args) (Z.to_nat n_kwonly_args) (Z.to_nat n_def_pos_args) (ip + 4)).

Definition raise_arg {A} (k : exc_kind) : V W A := e ← new_exception k; vraise e.
Definition arg_name (j : nat) : V W obj := vlift (const_table f !! j).
Definition extra_arg (j : nat) : V W obj := vlift (extra_args f !! j).
(** [code_state->state[n_state - 1 - i]] *)
Definition get_local (i : nat) : V W obj := load_local (Z.of_nat i).
Definition set_local (i : nat) (o : obj) : V W unit := store_local (Z.of_nat i) o.

(** ** Positional arguments *)

Fixpoint set_locals (i : nat) (l : list obj) : V W unit :=
  match l with [] => mret tt | o :: l => set_local i o;; set_locals (S i) l end.

(** The last [n] positional parameters get their defaults. *)
Fixpoint set_defaults (i n offset : nat) : V W unit :=
  match n with O => mret tt | S n => o ← extra_arg (i - offset); set_local i o;; set_defaults (S i) n offset end.

(** The number of arguments to copy, and the variable for the dictionary of the rest. *)
Definition bind_positional (p : prelude) (args : list obj) (n_kw : nat) : V W (nat * nat) :=
  let var := (p_n_pos_args p + p_n_kwonly_args p)%nat in
  let n_args := length args in
  let required := (p_n_pos_args p - p_n_def_pos_args p)%nat in
  if (p_n_pos_args p <? n_args)%nat then
    if has p MP_SCOPE_FLAG_VARARGS then
      t ← call1 (mp_obj_new_tuple (drop (p_n_pos_args p) args));
      set_local var t;; mret (p_n_pos_args p, S var)
    else raise_arg (fun_pos_args_mismatch (Z.of_nat (p_n_pos_args p)) (Z.of_nat n_args))
  else
    var ← (if has p MP_SCOPE_FLAG_VARARGS then set_local var mp_const_empty_tuple;; mret (S var) else mret var);
    (if (n_kw =? 0)%nat && negb (has p MP_SCOPE_FLAG_DEFKWARGS) then
       if (required <=? n_args)%nat then set_defaults n_args (p_n_pos_args p - n_args) required
       else raise_arg (fun_pos_args_mismatch (Z.of_nat required) (Z.of_nat n_args))
     else mret tt);;
    mret (n_args, var).

(** ** Keyword arguments *)

Fixpoint find_name (wanted : obj) (j n : nat) : V W (option nat) :=
  match n with
  | O => mret None
  | S n => name ← arg_name j; if decide (wanted = name) then mret (Some j) else find_name wanted (S j) n
  end.

Definition bind_keyword (p : prelude) (dict : obj) (k v : obj) : V W unit :=
  found ← find_name k 0 (p_n_pos_args p + p_n_kwonly_args p);
  match found with
  | Some j =>
      old ← get_local j;
      if decide (old = MP_OBJ_NULL) then set_local j v else raise_arg (multiple_values k)
  | None =>
      if has p MP_SCOPE_FLAG_VARKEYWORDS then call (mp_obj_dict_store dict k v);; mret tt
      else raise_arg (unexpected_keyword k)
  end.

Fixpoint bind_keywords (p : prelude) (dict : obj) (kwargs : list (obj * obj)) : V W unit :=
  match kwargs with [] => mret tt | (k, v) :: kwargs => bind_keyword p dict k v;; bind_keywords p dict kwargs end.

(** Defaults for the parameters below [i], from the last one on. *)
Fixpoint fill_defaults (i n_def : nat) : V W unit :=
  match n_def with
  | O => mret tt
  | S n => old ← get_local (i - 1); (if decide (old = MP_OBJ_NULL) then o ← extra_arg n; set_local (i - 1) o else mret tt);;
           fill_defaults (i - 1) n
  end.

Fixpoint check_positional (n : nat) : V W unit :=
  match n with
  | O => mret tt
  | S n => v ← get_local n; if decide (v = MP_OBJ_NULL) then raise_arg (missing_positional (Z.of_nat n)) else check_positional n
  end.

Fixpoint fill_keyword_only (p : prelude) (i n : nat) : V W unit :=
  match n with
  | O => mret tt
  | S n =>
      old ← get_local (p_n_pos_args p + i);
      (if decide (old = MP_OBJ_NULL) then
         name ← arg_name (p_n_pos_args p + i);
         elem ← (if has p MP_SCOPE_FLAG_DEFKWARGS then d ← extra_arg (p_n_def_pos_args p); mret (kw_default_lookup d name) else mret None);
         match elem with Some v => set_local (p_n_pos_args p + i) v | None => raise_arg (missing_keyword name) end
       else mret tt);;
      fill_keyword_only p (S i) n
  end.

Definition with_keywords (p : prelude) (var : nat) (kwargs : list (obj * obj)) : V W unit :=
  dict ← (if has p MP_SCOPE_FLAG_VARKEYWORDS then
            d ← call1 (mp_obj_new_dict (Z.of_nat (length kwargs))); set_local var d;; mret d
          else mret MP_OBJ_NULL);
  bind_keywords p dict kwargs;;
  fill_defaults (p_n_pos_args p) (p_n_def_pos_args p);;
  check_positional (p_n_pos_args p - p_n_def_pos_args p);;
  fill_keyword_only p 0 (p_n_kwonly_args p).

Definition without_keywords (p : prelude) (var : nat) : V W unit :=
  if (p_n_kwonly_args p =? 0)%nat then
    if has p MP_SCOPE_FLAG_VARKEYWORDS then d ← call1 (mp_obj_new_dict 0); set_local var d else mret tt
  else raise_arg missing_keyword_only.

(** ** Cells *)

Definition new_cell (o : obj) : V W nat :=
  s ← vget;
  match mp_obj_new_cell o (v_world s) with
  | (RVal c, w) => set_world w;; mret c
  | (RExc e, w) => set_world w;; vraise e
  end.

(** The numbers of the variables that are cells, up to 255; the code begins after them. *)
Fixpoint init_cells (code : list Z) (ip : nat) : V W nat :=
  match code with
  | [] => vlift None
  | b :: code =>
      if b =? 255 then mret (S ip)
      else v ← load_local b; c ← new_cell v; store_local b (ObjCell c);; init_cells code (S ip)
  end.

Definition mp_setup_code_state (args : list obj) (kwargs : list (obj * obj)) : V W unit :=
  p ← vlift decode_prelude;
  set_code (p_ip p) (-1);; set_exc [];; set_state (replicate (p_n_state p) MP_OBJ_NULL);;
  '(n_args, var) ← bind_positional p args (length kwargs);
  set_locals 0 (take n_args args);;
  (if negb (length kwargs =? 0)%nat || has p MP_SCOPE_FLAG_DEFKWARGS then with_keywords p var kwargs
   else without_keywords p var);;
  size ← vlift (mp_decode_uint_value (bytecode f) (p_ip p));
  let ip := (p_ip p + Z.to_nat size)%nat in
  ip ← init_cells (drop ip (bytecode f)) ip;
  set_code ip (-1).

(** The array and the stack of blocks are made anew, what is in them is written first. *)
Definition new_code_state (w : W) : mp_code_state_t W := MkCode 0 (-1) [] [] 0 (-1) None w.

(** A call, with [n] instructions for the interpreter. *)
Definition fun_bc_call (n : nat) (args : list obj) (kwargs : list (obj * obj)) (w : W) : option (call_result * W) :=
  r ← mp_setup_code_state args kwargs (new_code_state w);
  match r with
  | VRaise e s => Some (CallRaise e, v_world s)
  | VReturn _ _ => None
  | VOk _ s =>
      let old_globals := mp_globals_get (v_world s) in
      r ← mp_execute_bytecode f n (in_world (mp_globals_set (globals f) (v_world s)) s);
      match r with
      | VOk _ s => Some (CallRunning, v_world s)
      | VRaise _ _ => None
      | VReturn k s =>
          let w := mp_globals_set old_globals (v_world s) in
          match k with
          | MP_VM_RETURN_NORMAL => result ← sp_slot s; Some (CallVal result, w)
          | MP_VM_RETURN_YIELD => None       (* a failed assert *)
          | MP_VM_RETURN_EXCEPTION => result ← v_state s !! 0%nat; match result with ObjExc e => Some (CallRaise e, w) | _ => None end
          end
      end
  end.

(** A call of a generator function makes a generator. *)
Definition gen_fun_call (args : list obj) (kwargs : list (obj * obj)) (w : W) : option (nat + mp_obj_gen_instance_t W) :=
  r ← mp_setup_code_state args kwargs (new_code_state w);
  match r with VRaise e _ => Some (inl e) | VOk _ s => Some (inr (gen_wrap_call f s)) | VReturn _ _ => None end.
End FunCall.

(** ** The rules of Python for arguments *)

Fixpoint assoc (name : obj) (l : list (obj * obj)) : option obj :=
  match l with [] => None | (k, v) :: l => if decide (k = name) then Some v else assoc name l end.

Section Rules.
Context {W : Type} {R : Runtime W} (f : mp_obj_fun_bc_t) (p : prelude).
Context (args : list obj) (kwargs : list (obj * obj)).

Definition n_params : nat := p_n_pos_args p + p_n_kwonly_args p.
Definition names : list obj := take n_params (const_table f).

(** What the caller has given for parameter [j], with the keywords [kw]. *)
Definition given (kw : list (obj * obj)) (j : nat) : option obj :=
  match take (p_n_pos_args p) args !! j with
  | Some v => Some v
  | None => name ← names !! j; assoc name kw
  end.

Definition default_of (j : nat) : option obj :=
  if (j <? p_n_pos_args p)%nat then
    if (p_n_pos_args p - p_n_def_pos_args p <=? j)%nat then extra_args f !! (j - (p_n_pos_args p - p_n_def_pos_args p))%nat else None
  else if has p MP_SCOPE_FLAG_DEFKWARGS then d ← extra_args f !! p_n_def_pos_args p; name ← names !! j; kw_default_lookup d name
  else None.

Definition param (j : nat) : option obj := match given kwargs j with Some v => Some v | None => default_of j end.

(** Not too many arguments; each keyword is for a parameter that was not given before,
    or for the dictionary; and every parameter has a value. *)
Definition keywords_fit : Prop := forall i k v, kwargs !! i = Some (k, v) ->
  (forall j, names !! j = Some k -> given (take i kwargs) j = None)
  /\ (k ∈ names \/ has p MP_SCOPE_FLAG_VARKEYWORDS = true).
Definition call_fits : Prop :=
  ((length args <= p_n_pos_args p)%nat \/ has p MP_SCOPE_FLAG_VARARGS = true)
  /\ keywords_fit /\ forall j, (j < n_params)%nat -> is_Some (param j).

(** The keywords that are for the dictionary, which are stored in their order. *)
Definition leftover (kw : list (obj * obj)) : list (obj * obj) := filter (fun kv => kv.1 ∉ names) kw.
Fixpoint stored (dict : obj) (l : list (obj * obj)) (w w' : W) : Prop :=
  match l with
  | [] => w' = w
  | (k, v) :: l => exists w1 r, rt_call (mp_obj_dict_store dict k v) w = (RVal r, w1) /\ stored dict l w1 w'
  end.

(** The tuple and the dictionary of the other arguments. *)
Definition var_slot : nat := n_params.
Definition kw_slot : nat := n_params + (if has p MP_SCOPE_FLAG_VARARGS then 1 else 0).
Definition varargs_ok (t : obj) : Prop :=
  if (p_n_pos_args p <? length args)%nat
  then exists w w', rt_call (mp_obj_new_tuple (drop (p_n_pos_args p) args)) w = (RVal [t], w')
  else t = mp_const_empty_tuple.
Definition varkw_ok (d : obj) (w' : W) : Prop :=
  exists n w w1, rt_call (mp_obj_new_dict n) w = (RVal [d], w1) /\ stored d (leftover kwargs) w1 w'.

(** The local variables, by their numbers, after the arguments are bound. *)
Definition bound (ls : list obj) (w : W) : Prop :=
  length ls = p_n_state p /\ (forall j, (j < n_params)%nat -> ls !! j = param j)
  /\ (has p MP_SCOPE_FLAG_VARARGS = true -> exists t, ls !! var_slot = Some t /\ varargs_ok t)
  /\ (has p MP_SCOPE_FLAG_VARKEYWORDS = true -> exists d, ls !! kw_slot = Some d /\ varkw_ok d w).
End Rules.
