(* ===== verification/FunCallWp.v ===== *)
(** Programs on the local variables: what they do when nothing is wrong, and what they
    raise; the loops of [mp_setup_code_state]; variables that become cells. *)
From S2P Require Import Prelude Bytecode Vm VmSafe VmRun VmInv VmSound Generator FunCall.

(** An exception of the runtime: no memory for a tuple, a dictionary or a cell. *)
Definition runtime_raises {W} {R : Runtime W} (e : nat) : Prop :=
  (exists r w w', rt_call r w = (RExc e, w')) \/ (exists o w w', mp_obj_new_cell o w = (RExc e, w')).

(** ** Programs on the local variables *)

Section Wp.
Context {W : Type} {R : Runtime W} {L : RuntimeLaws R} (f : mp_obj_fun_bc_t).
Implicit Types (s : mp_code_state_t W) (ls : list obj).

(** The run of [m] ends in [Q], or raises what [E] allows. *)
Definition wp {A} (m : V W A) s (Q : A -> mp_code_state_t W -> Prop) (E : nat -> Prop) : Prop :=
  match m s with
  | Some (VOk a s') => Q a s'
  | Some (VRaise e _) => E e
  | _ => False
  end.

Lemma wp_bind {A B} (m : V W A) (g : A -> V W B) s Q E :
  wp m s (fun a s' => wp (g a) s' Q E) E -> wp (m ≫= g) s Q E.
Proof. unfold wp, mbind, V_bind. by destruct (m s) as [[]|]. Qed.

Lemma wp_seq {A B C} (m : V W A) (n : A -> V W B) (g : B -> V W C) s Q E :
  wp (m ≫= n) s (fun b s' => wp (g b) s' Q E) E -> wp (m ≫= fun a => n a ≫= g) s Q E.
Proof. unfold wp, mbind, V_bind. destruct (m s) as [[a s'| |]|]; [|done..]. by destruct (n a s') as [[]|]. Qed.

Lemma wp_weaken {A} (m : V W A) s (Q Q' : A -> mp_code_state_t W -> Prop) (E : nat -> Prop) :
  wp m s Q E -> (forall a s', Q a s' -> Q' a s') -> wp m s Q' E.
Proof. unfold wp. destruct (m s) as [[]|]; auto. Qed.

Lemma wp_ret {A} (a : A) s (Q : A -> mp_code_state_t W -> Prop) E : Q a s -> wp (mret a) s Q E.
Proof. done. Qed.

Lemma wp_lift {A} (o : option A) a s (Q : A -> mp_code_state_t W -> Prop) E : o = Some a -> Q a s -> wp (vlift o) s Q E.
Proof. by intros ->. Qed.

Lemma wp_raise_arg {A} k s (Q : A -> mp_code_state_t W -> Prop) (E : nat -> Prop) : (forall e, E e) -> wp (raise_arg k) s Q E.
Proof.
  intros HE. unfold wp, raise_arg, new_exception, vget, mbind, V_bind.
  destruct (mp_obj_new_exception_msg k (v_world s)) as [e w]. apply HE.
Qed.

(** The local variables by their numbers; no block, nothing to inject. *)
Record has_locals ls (w : W) s : Prop := {
  hl_locals : v_state s = reverse ls;
  hl_exc : v_exc s = [];
  hl_inject : v_inject s = None;
  hl_world : v_world s = w }.

Lemma local_place ls j : (j < length ls)%nat -> Z.to_nat (Z.of_nat (length (reverse ls)) - 1 - Z.of_nat j) = (length ls - 1 - j)%nat.
Proof. rewrite length_reverse. lia. Qed.

Lemma wp_get_local ls w s j o (Q : obj -> mp_code_state_t W -> Prop) E : has_locals ls w s -> ls !! j = Some o -> Q o s -> wp (get_local j) s Q E.
Proof.
  intros [Hl _ _ _] Ho HQ. pose proof (lookup_lt_Some _ _ _ Ho). unfold get_local, load_local, local_index, rd.
  apply wp_bind, wp_bind. unfold wp at 1, vget. cbn [mret V_ret]. apply wp_ret. apply wp_bind. unfold wp at 1, vget.
  rewrite Hl. destruct (Z.ltb_spec (Z.of_nat (length (reverse ls)) - 1 - Z.of_nat j) 0); [rewrite length_reverse in *; lia|].
  rewrite local_place by done. eapply wp_lift; [|exact HQ]. rewrite reverse_lookup by lia. rewrite <- Ho. f_equal. lia.
Qed.

Lemma wp_set_local ls w s j o (Q : unit -> mp_code_state_t W -> Prop) E : has_locals ls w s -> (j < length ls)%nat ->
  (forall s', has_locals (<[j := o]> ls) w s' -> Q tt s') -> wp (set_local j o) s Q E.
Proof.
  intros [Hl He Hi Hw] Hj HQ. unfold set_local, store_local, local_index, wr.
  apply wp_bind, wp_bind. unfold wp at 1, vget. apply wp_ret. apply wp_bind. unfold wp at 1, vget.
  rewrite Hl. replace (_ && _) with true by (symmetry; apply andb_true_iff; rewrite length_reverse; lia).
  unfold wp, set_state. apply HQ. split; cbn [v_state v_exc v_inject v_world]; try done. rewrite local_place by done. clear -Hj.
  apply list_eq. intros i. destruct (decide (i < length ls)%nat) as [Hi|Hi]; last first.
  { rewrite !(proj2 (lookup_ge_None _ _)); [done|..]; rewrite ?length_reverse, ?length_insert, ?length_reverse; lia. }
  rewrite (reverse_lookup (<[j:=o]> ls)) by (rewrite length_insert; lia). rewrite length_insert.
  destruct (decide (i = length ls - 1 - j)%nat) as [->|Hne].
  - rewrite list_lookup_insert_eq by (rewrite length_reverse; lia). replace (length ls - S (length ls - 1 - j))%nat with j by lia.
    by rewrite list_lookup_insert_eq.
  - rewrite list_lookup_insert_ne by lia. rewrite reverse_lookup by lia. by rewrite list_lookup_insert_ne by lia.
Qed.

Lemma wp_call ls w s r (Q : list obj -> mp_code_state_t W -> Prop) (E : nat -> Prop) : has_locals ls w s ->
  (forall l w' s', has_locals ls w' s' -> rt_call r w = (RVal l, w') -> Q l s') -> (forall e, runtime_raises e -> E e) -> wp (call r) s Q E.
Proof.
  intros [Hl He Hi Hw] HQ HE. unfold call. apply wp_bind. unfold wp at 1, vget. rewrite Hw.
  destruct (rt_call r w) as [[l|e] w'] eqn:Er.
  - apply wp_bind. unfold wp at 1, set_world. apply wp_ret. by eapply HQ.
  - apply wp_bind. unfold wp at 1, set_world. unfold wp, vraise. apply HE. left. by exists r, w, w'.
Qed.

Lemma wp_call1 ls w s r (Q : obj -> mp_code_state_t W -> Prop) (E : nat -> Prop) : has_locals ls w s -> results r = 1%nat ->
  (forall o w' s', has_locals ls w' s' -> rt_call r w = (RVal [o], w') -> Q o s') -> (forall e, runtime_raises e -> E e) -> wp (call1 r) s Q E.
Proof.
  intros Hs Hr HQ HE. unfold call1. apply wp_bind. eapply wp_call; [done| |done]. intros l w' s' Hs' Er.
  pose proof (rt_call_results _ _ _ _ Er) as Hlen. rewrite Hr in Hlen. destruct l as [|o [|]]; try done.
  eapply wp_lift; [done|]. by eapply HQ.
Qed.
End Wp.

(** ** Loops on the local variables *)

Section Loops.
Context {W : Type} {R : Runtime W} {L : RuntimeLaws R} (f : mp_obj_fun_bc_t).
Implicit Types (s : mp_code_state_t W) (ls : list obj) (w : W).

Lemma wp_set_locals l : forall i ls w s (Q : unit -> mp_code_state_t W -> Prop) E, has_locals ls w s -> (i + length l <= length ls)%nat ->
  (forall ls' s', has_locals ls' w s' -> length ls' = length ls ->
     (forall j, ls' !! j = if decide (i <= j < i + length l)%nat then l !! (j - i)%nat else ls !! j) -> Q tt s') ->
  wp (set_locals i l) s Q E.
Proof.
  induction l as [|o l IH]; intros i ls w s Q E Hs Hi HQ; cbn [set_locals length] in *.
  - apply wp_ret. eapply HQ; [done|done|]. intros j. rewrite decide_False by lia. done.
  - apply wp_bind. eapply wp_set_local; [done|lia|]. intros s1 Hs1. eapply IH; [done|rewrite length_insert; lia|].
    intros ls' s' Hs' Hl Hj. rewrite length_insert in Hl. eapply HQ; [done|done|]. intros j. rewrite Hj. destruct (decide (j = i)) as [->|Hne].
    + rewrite list_lookup_insert_eq by lia. replace (i - i)%nat with 0%nat by lia. cbn [lookup list_lookup].
      by rewrite decide_False, decide_True by lia.
    + rewrite list_lookup_insert_ne by done. destruct (decide (S i <= j < S i + length l)%nat).
      * rewrite decide_True by lia. by replace (j - i)%nat with (S (j - S i)) by lia.
      * by rewrite decide_False by lia.
Qed.

Lemma wp_extra_arg j o s (Q : obj -> mp_code_state_t W -> Prop) E : extra_args f !! j = Some o -> Q o s -> wp (extra_arg f j) s Q E.
Proof. intros H HQ. by eapply wp_lift. Qed.

Lemma wp_set_defaults off n : forall i ls w s (Q : unit -> mp_code_state_t W -> Prop) E, has_locals ls w s -> (i + n <= length ls)%nat ->
  (off <= i)%nat -> (i + n - off <= length (extra_args f))%nat ->
  (forall ls' s', has_locals ls' w s' -> length ls' = length ls ->
     (forall j, ls' !! j = if decide (i <= j < i + n)%nat then extra_args f !! (j - off)%nat else ls !! j) -> Q tt s') ->
  wp (set_defaults f i n off) s Q E.
Proof.
  induction n as [|n IH]; intros i ls w s Q E Hs Hi Ho' Hx HQ; cbn [set_defaults] in *.
  - apply wp_ret. eapply HQ; [done|done|]. intros j. rewrite decide_False by lia. done.
  - destruct (lookup_lt_is_Some_2 (extra_args f) (i - off)) as [o Ho]; [lia|].
    apply wp_bind. eapply wp_extra_arg; [done|]. apply wp_bind. eapply wp_set_local; [done|lia|]. intros s1 Hs1.
    eapply IH; [done|rewrite length_insert; lia|lia|lia|].
    intros ls' s' Hs' Hl Hj. rewrite length_insert in Hl. eapply HQ; [done|done|]. intros j. rewrite Hj. destruct (decide (j = i)) as [->|Hne].
    + rewrite list_lookup_insert_eq by lia. by rewrite decide_False, decide_True by lia.
    + rewrite list_lookup_insert_ne by done. destruct (decide (S i <= j < S i + n)%nat).
      * by rewrite decide_True by lia.
      * by rewrite decide_False by lia.
Qed.

Lemma wp_fill_defaults n : forall i ls w s (Q : unit -> mp_code_state_t W -> Prop) E, has_locals ls w s -> (n <= i)%nat -> (i <= length ls)%nat ->
  (n <= length (extra_args f))%nat ->
  (forall ls' s', has_locals ls' w s' -> length ls' = length ls ->
     (forall j, ls' !! j = if decide (i - n <= j < i /\ ls !! j = Some MP_OBJ_NULL)%nat
                           then extra_args f !! (j - (i - n))%nat else ls !! j) -> Q tt s') ->
  wp (fill_defaults f i n) s Q E.
Proof.
  induction n as [|n IH]; intros i ls w s Q E Hs Hn Hi Hx HQ; cbn [fill_defaults].
  - apply wp_ret. eapply HQ; [done|done|]. intros j. by rewrite decide_False by lia.
  - destruct (lookup_lt_is_Some_2 ls (i - 1)) as [old Hold]; [lia|].
    destruct (lookup_lt_is_Some_2 (extra_args f) n) as [o Ho]; [lia|].
    apply wp_bind. eapply wp_get_local; [done|done|]. apply wp_bind.
    assert (forall ls1 s1, has_locals ls1 w s1 -> length ls1 = length ls ->
      (forall j, j <> (i - 1)%nat -> ls1 !! j = ls !! j) ->
      ls1 !! (i - 1)%nat = (if bool_decide (ls !! (i - 1)%nat = Some MP_OBJ_NULL) then Some o else ls !! (i - 1)%nat) ->
      wp (fill_defaults f (i - 1) n) s1 Q E) as Hgo.
    { intros ls1 s1 Hs1 Hl1 H1 H2. eapply IH; [done|lia|lia|lia|]. intros ls' s' Hs' Hl' Hj. eapply HQ; [done|lia|]. intros j. rewrite Hj.
      destruct (decide (j = i - 1)%nat) as [->|Hne].
      - rewrite decide_False by lia. rewrite H2. destruct (bool_decide _) eqn:Hb.
        + apply bool_decide_eq_true in Hb. rewrite decide_True by (split; [lia|done]). by replace (i - 1 - (i - S n))%nat with n by lia.
        + apply bool_decide_eq_false in Hb. rewrite decide_False; [done|]. intros [_ Hx0]. by rewrite Hx0 in Hb.
      - rewrite H1 by done. replace (i - 1 - n)%nat with (i - S n)%nat by lia.
        destruct (decide (i - S n <= j < i - 1 /\ ls !! j = Some MP_OBJ_NULL)%nat) as [[Hr Hnull]|Hr].
        + by rewrite decide_True by (split; [lia|done]).
        + rewrite decide_False; [done|]. intros [? ?]. apply Hr. split; [lia|done]. }
    destruct (decide (old = MP_OBJ_NULL)) as [->|Hne].
    + apply wp_bind. eapply wp_extra_arg; [done|]. eapply wp_set_local; [done|lia|]. intros s1 Hs1.
      eapply Hgo; [done|by rewrite length_insert|intros j Hj; by rewrite list_lookup_insert_ne|].
      rewrite list_lookup_insert_eq by lia. by rewrite bool_decide_eq_true_2.
    + apply wp_ret. eapply Hgo; [done|done|done|]. rewrite bool_decide_eq_false_2; [done|congruence].
Qed.

Lemma wp_check_positional n : forall ls w s (Q : unit -> mp_code_state_t W -> Prop) (E : nat -> Prop), has_locals ls w s -> (n <= length ls)%nat ->
  ((exists j, (j < n)%nat /\ ls !! j = Some MP_OBJ_NULL) -> forall e, E e) ->
  ((forall j, (j < n)%nat -> ls !! j <> Some MP_OBJ_NULL) -> Q tt s) ->
  wp (check_positional n) s Q E.
Proof.
  induction n as [|n IH]; intros ls w s Q E Hs Hn HE HQ; cbn [check_positional].
  - apply wp_ret, HQ. lia.
  - destruct (lookup_lt_is_Some_2 ls n) as [v Hv]; [lia|]. apply wp_bind. eapply wp_get_local; [done|done|].
    destruct (decide (v = MP_OBJ_NULL)) as [->|Hne].
    + apply wp_raise_arg, HE. exists n. split; [lia|done].
    + eapply IH; [done|lia| |].
      * intros (j & Hj & Hnull). apply HE. exists j. split; [lia|done].
      * intros Hall. apply HQ. intros j Hj. destruct (decide (j = n)) as [->|]; [congruence|]. apply Hall. lia.
Qed.

Lemma wp_find_name k n : forall j s (Q : option nat -> mp_code_state_t W -> Prop) E, (j + n <= length (const_table f))%nat ->
  (forall r, match r with Some i => (j <= i < j + n)%nat /\ const_table f !! i = Some k
             | None => forall i, (j <= i < j + n)%nat -> const_table f !! i <> Some k end -> Q r s) ->
  wp (find_name f k j n) s Q E.
Proof.
  induction n as [|n IH]; intros j s Q E Hj HQ; cbn [find_name].
  - apply wp_ret, HQ. lia.
  - destruct (lookup_lt_is_Some_2 (const_table f) j) as [name Hname]; [lia|].
    apply wp_bind. eapply wp_lift; [done|]. destruct (decide (k = name)) as [->|Hne].
    + apply wp_ret, HQ. split; [lia|done].
    + apply IH; [lia|]. intros [i|] Hr; apply HQ.
      * destruct Hr as [? ?]. split; [lia|done].
      * intros i Hi. destruct (decide (i = j)) as [->|]; [congruence|]. apply Hr. lia.
Qed.
End Loops.

(** ** Cells *)

(** A new cell has the object it was made with, and is none of those there are. *)
Class CellLaws {W} (R : Runtime W) := {
  cell_live : nat -> W -> Prop;
  new_cell_live o w c w' : mp_obj_new_cell o w = (RVal c, w') ->
    ~ cell_live c w /\ cell_live c w' /\ mp_obj_cell_get c w' = o;
  new_cell_others o w c w' d : mp_obj_new_cell o w = (RVal c, w') -> cell_live d w ->
    cell_live d w' /\ mp_obj_cell_get d w' = mp_obj_cell_get d w }.

Section Cells.
Context {W : Type} {R : Runtime W} {L : RuntimeLaws R} {C : CellLaws R}.
Implicit Types (s : mp_code_state_t W) (ls : list obj) (w : W).

(** The variables [cs] are now in cells of their own, with what was in them. *)
Record in_cells (cs : list nat) ls w ls' w' : Prop := {
  ic_length : length ls' = length ls;
  ic_others : forall j, j ∉ cs -> ls' !! j = ls !! j;
  ic_cells : forall j o, j ∈ cs -> ls !! j = Some o ->
    exists c, ls' !! j = Some (ObjCell c) /\ ~ cell_live c w /\ cell_live c w' /\ mp_obj_cell_get c w' = o;
  ic_distinct : forall i j c, i ∈ cs -> j ∈ cs -> ls' !! i = Some (ObjCell c) -> ls' !! j = Some (ObjCell c) -> i = j;
  ic_kept : forall d, cell_live d w -> cell_live d w' /\ mp_obj_cell_get d w' = mp_obj_cell_get d w }.

Lemma in_cells_nil ls w : in_cells [] ls w ls w.
Proof. split; [done|done|intros j o Hj|intros i j c Hj|done]; by apply elem_of_nil in Hj. Qed.

Lemma in_cells_cons i cs ls w o c w1 ls' w' : ls !! i = Some o -> i ∉ cs -> mp_obj_new_cell o w = (RVal c, w1) ->
  in_cells cs (<[i := ObjCell c]> ls) w1 ls' w' -> in_cells (i :: cs) ls w ls' w'.
Proof.
  intros Ho Hi Er [Hl Hne Hc Hd Hk]. pose proof (lookup_lt_Some _ _ _ Ho) as Hlt. rewrite length_insert in Hl.
  destruct (new_cell_live _ _ _ _ Er) as (Hnew & Hlive & Hget).
  assert (ls' !! i = Some (ObjCell c)) as Hi' by (rewrite Hne by done; by apply list_lookup_insert_eq).
  assert (forall j o', j ∈ cs -> ls !! j = Some o' ->
    exists c', ls' !! j = Some (ObjCell c') /\ ~ cell_live c' w1 /\ cell_live c' w' /\ mp_obj_cell_get c' w' = o') as Hcs.
  { intros j o' Hj Hjo. apply Hc; [done|]. rewrite list_lookup_insert_ne; [done|]. by intros ->. }
  assert (forall j c', j ∈ cs -> ls' !! j = Some (ObjCell c') -> c' <> c) as Hdiff.
  { intros j c' Hj Hj' ->. destruct (lookup_lt_is_Some_2 ls j) as [o' Ho']; [rewrite <- Hl; by eapply lookup_lt_Some|].
    destruct (Hcs _ _ Hj Ho') as (c' & E & Hn & _). rewrite Hj' in E. injection E as <-. done. }
  split.
  - done.
  - intros j Hj. apply not_elem_of_cons in Hj as [Hji Hj]. by rewrite Hne, list_lookup_insert_ne.
  - intros j o' Hj Hjo. apply elem_of_cons in Hj as [->|Hj].
    + assert (o' = o) as -> by congruence. destruct (Hk _ Hlive) as [? ?]. exists c. repeat split; congruence || done.
    + destruct (Hcs _ _ Hj Hjo) as (c' & ? & Hn & ? & ?). exists c'. repeat split; try done. intros Hw. by destruct Hn, (new_cell_others _ _ _ _ _ Er Hw).
  - intros j1 j2 c' H1 H2 E1 E2. apply elem_of_cons in H1 as [->|H1]; apply elem_of_cons in H2 as [->|H2].
    + done.
    + destruct (Hdiff _ _ H2 E2). congruence.
    + destruct (Hdiff _ _ H1 E1). congruence.
    + by eapply Hd.
  - intros d Hdl. destruct (new_cell_others _ _ _ _ _ Er Hdl) as [H1 H2]. destruct (Hk _ H1) as [H3 H4]. split; congruence || done.
Qed.

Lemma wp_new_cell ls w s o (Q : nat -> mp_code_state_t W -> Prop) (E : nat -> Prop) : has_locals ls w s ->
  (forall c w' s', has_locals ls w' s' -> mp_obj_new_cell o w = (RVal c, w') -> Q c s') -> (forall e, runtime_raises e -> E e) -> wp (new_cell o) s Q E.
Proof.
  intros [Hl He Hi Hw] HQ HE. unfold new_cell. apply wp_bind. unfold wp at 1, vget. rewrite Hw.
  destruct (mp_obj_new_cell o w) as [[c|e] w'] eqn:Er.
  - apply wp_bind. unfold wp at 1, set_world. apply wp_ret. by eapply HQ.
  - apply wp_bind. unfold wp at 1, set_world. unfold wp, vraise. apply HE. right. by exists o, w, w'.
Qed.

Lemma init_cells_wp cs : forall rest ip ls w s (Q : nat -> mp_code_state_t W -> Prop) (E : nat -> Prop), has_locals ls w s ->
  NoDup cs -> Forall (fun c => (c < length ls)%nat /\ c <> 255%nat) cs ->
  (forall ls' w' s', has_locals ls' w' s' -> in_cells cs ls w ls' w' -> Q (ip + length cs + 1)%nat s') -> (forall e, runtime_raises e -> E e) ->
  wp (init_cells (map Z.of_nat cs ++ 255 :: rest) ip) s Q E.
Proof.
  induction cs as [|i cs IH]; intros rest ip ls w s Q E Hs Hnd Hlt HQ HE; cbn [map app init_cells length] in *.
  - apply wp_ret. replace (S ip) with (ip + 0 + 1)%nat by lia. eapply HQ; [done|]. apply in_cells_nil.
  - inversion Hlt as [|? ? [Hi H255] Hlt']; subst. apply list.NoDup_cons in Hnd as [Hni Hnd].
    destruct (Z.eqb_spec (Z.of_nat i) 255); [lia|]. destruct (lookup_lt_is_Some_2 ls i Hi) as [o Ho].
    apply wp_bind. eapply wp_get_local; [done|done|]. apply wp_bind. eapply wp_new_cell; [done| |done]. intros c w1 s1 Hs1 Er.
    apply wp_bind. eapply wp_set_local; [done|done|]. intros s2 Hs2. eapply IH; [done|done|by rewrite length_insert| |done].
    intros ls' w' s' Hs' Hc. replace (S ip + length cs + 1)%nat with (ip + S (length cs) + 1)%nat by lia.
    eapply HQ; [done|]. by eapply in_cells_cons.
Qed.
End Cells.
