(* ===== verification/FunCallSound.v ===== *)
(** Calls bind their arguments the way Python does: [mp_setup_code_state] follows the
    rules and leaves a state for the interpreter. *)
From S2P Require Import Prelude Bytecode Vm VmSafe VmRun VmInv VmSound Generator FunCall FunCallWp.

(** ** Binding the arguments *)

Section Phases.
Context {W : Type} {R : Runtime W} {L : RuntimeLaws R} (f : mp_obj_fun_bc_t) (p : prelude).
Context (args : list obj) (kwargs : list (obj * obj)) (n_closed : nat).
Implicit Types (s : mp_code_state_t W) (ls : list obj) (w : W).
Abbreviation n_params := (n_params p).
Abbreviation names := (names f p).
Abbreviation given := (given f p args).
Abbreviation param := (param f p args kwargs).
Abbreviation call_fits := (call_fits f p args kwargs).
Abbreviation varargs := (has p MP_SCOPE_FLAG_VARARGS).
Abbreviation varkw := (has p MP_SCOPE_FLAG_VARKEYWORDS).
Abbreviation defkw := (has p MP_SCOPE_FLAG_DEFKWARGS).
Abbreviation required := (p_n_pos_args p - p_n_def_pos_args p)%nat.

(** A function as the compiler makes it, and arguments that are objects; the first
    [n_closed] parameters, all named [*], are what a closure passes. *)
Record fun_ok : Prop := {
  fo_names : (n_params <= length (const_table f))%nat;
  fo_closed : (n_closed <= p_n_pos_args p)%nat;
  fo_distinct : forall i j k, names !! i = Some k -> names !! j = Some k -> i = j \/ (i < n_closed /\ j < n_closed)%nat;
  fo_room : (n_params + (if varargs then 1 else 0) + (if varkw then 1 else 0) <= p_n_state p)%nat;
  fo_defaults : (p_n_def_pos_args p <= p_n_pos_args p)%nat;
  fo_extra : (p_n_def_pos_args p + (if defkw then 1 else 0) <= length (extra_args f))%nat }.
Context (Hf : fun_ok) (Hclosed : (n_closed <= length args)%nat).
Context (Hargs : Forall (fun o => o <> MP_OBJ_NULL) args) (Hkwargs : Forall (fun kv => kv.2 <> MP_OBJ_NULL) kwargs).

(** The exceptions that a call may raise before the function runs. *)
Definition allowed (e : nat) : Prop := runtime_raises e \/ ~ call_fits.

Definition val (o : option obj) : obj := default MP_OBJ_NULL o.

Lemma names_lookup j : (j < n_params)%nat -> names !! j = const_table f !! j.
Proof. intros. unfold FunCall.names. by rewrite lookup_take_lt. Qed.

Lemma given_closed kw j : (j < n_closed)%nat -> given kw j <> None.
Proof.
  intros Hj. pose proof (fo_closed Hf). unfold FunCall.given.
  destruct (lookup_lt_is_Some_2 (take (p_n_pos_args p) args) j) as [v ->]; [rewrite length_take; lia|done].
Qed.

Lemma names_inj kw i j k : names !! i = Some k -> names !! j = Some k -> given kw j = None -> i = j.
Proof. intros Hi Hj Hg. destruct (fo_distinct Hf i j k Hi Hj) as [?|[_ ?]]; [done|]. by destruct (given_closed kw j). Qed.

Lemma assoc_app name kw k v : assoc name (kw ++ [(k, v)]) = match assoc name kw with Some x => Some x | None => if decide (k = name) then Some v else None end.
Proof. induction kw as [|[k' v'] kw IH]; [done|]. cbn [app assoc]. by destruct (decide (k' = name)). Qed.

Lemma assoc_In name kw v : assoc name kw = Some v -> exists k, (k, v) ∈ kw.
Proof.
  induction kw as [|[k' v'] kw IH]; [done|]. cbn [assoc]. destruct (decide (k' = name)).
  - intros [= ->]. exists k'. by left.
  - intros H. destruct (IH H) as [k Hk]. exists k. by right.
Qed.

Lemma given_not_null kw j : kw `prefix_of` kwargs -> given kw j <> Some MP_OBJ_NULL.
Proof.
  intros [kw' Hpre]. unfold FunCall.given. destruct (take _ args !! j) as [v|] eqn:Ha.
  - intros [= ->]. apply lookup_take_Some in Ha as [Ha _]. by apply (list.Forall_lookup_1 _ _ _ _ Hargs Ha).
  - destruct (names !! j) as [name|]; [|done]. cbn [mbind option_bind]. intros H. apply assoc_In in H as [k Hk].
    apply (proj1 (list.Forall_forall _ _) Hkwargs (k, MP_OBJ_NULL)); [|done]. rewrite Hpre. apply elem_of_app. by left.
Qed.

Lemma val_null kw j : kw `prefix_of` kwargs -> val (given kw j) = MP_OBJ_NULL -> given kw j = None.
Proof. intros Hp H. destruct (given kw j) as [o|] eqn:E; [|done]. cbn in H. subst o. by apply given_not_null in E. Qed.

(** The variables when the positional arguments are there. *)
Definition after_positional ls : Prop :=
  length ls = p_n_state p
  /\ ((length args <= p_n_pos_args p)%nat \/ varargs = true)
  /\ (varargs = true -> exists t, ls !! n_params = Some t /\ varargs_ok (W := W) p args t)
  /\ (if (length kwargs =? 0)%nat && negb defkw
      then forall j, (j < n_params)%nat -> ls !! j = if decide (j < p_n_pos_args p)%nat then param j else Some MP_OBJ_NULL
      else forall j, (j < n_params)%nat -> ls !! j = Some (val (given [] j))).

Lemma given_nil j : given [] j = take (p_n_pos_args p) args !! j.
Proof. unfold FunCall.given. destruct (take _ args !! j); [done|]. by destruct (names !! j). Qed.

(** Storing the arguments that are for parameters. *)
Lemma args_stored ls w s : has_locals ls w s -> length ls = p_n_state p ->
  forall (Q : unit -> mp_code_state_t W -> Prop) E,
  (forall ls' s', has_locals ls' w s' -> length ls' = length ls ->
    (forall j, ls' !! j = match take (p_n_pos_args p) args !! j with Some v => Some v | None => ls !! j end) -> Q tt s') ->
  wp (set_locals 0 (take (length args `min` p_n_pos_args p) args)) s Q E.
Proof.
  intros Hs Hlen Q E HQ. pose proof (fo_room Hf). unfold FunCall.n_params in *.
  assert (take (length args `min` p_n_pos_args p) args = take (p_n_pos_args p) args) as ->.
  { destruct (decide (length args <= p_n_pos_args p)%nat).
    - by rewrite Nat.min_l, !take_ge by lia.
    - by rewrite Nat.min_r by lia. }
  eapply wp_set_locals; [done|rewrite length_take; lia|]. intros ls' s' Hs' Hl Hj. eapply HQ; [done|done|].
  intros j. rewrite Hj, Nat.sub_0_r. destruct (decide _) as [Hr|Hr].
  - destruct (lookup_lt_is_Some_2 (take (p_n_pos_args p) args) j) as [v ->]; [lia|done].
  - by rewrite (lookup_ge_None_2 (take (p_n_pos_args p) args) j) by lia.
Qed.

Lemma no_keyword_param j : kwargs = [] -> (j < p_n_pos_args p)%nat -> param j =
  match take (p_n_pos_args p) args !! j with Some v => Some v | None => if decide (required <= j)%nat then extra_args f !! (j - required)%nat else None end.
Proof.
  intros -> Hj. unfold FunCall.param. rewrite given_nil. destruct (take _ args !! j); [done|]. unfold default_of.
  rewrite (proj2 (Nat.ltb_lt _ _)) by done. destruct (decide _); [by rewrite (proj2 (Nat.leb_le _ _))|by rewrite (proj2 (Nat.leb_gt _ _)) by lia].
Qed.

Lemma too_many : (p_n_pos_args p < length args)%nat -> varargs = false -> ~ call_fits.
Proof. intros H1 H2 ([?|?] & _); [lia|congruence]. Qed.

Lemma too_few : kwargs = [] -> (length args < required)%nat -> ~ call_fits.
Proof.
  intros Hk Hlt (_ & _ & Hp). destruct (Hp (length args)) as [v Hv]; [unfold FunCall.n_params; lia|].
  rewrite no_keyword_param in Hv by (done || lia). rewrite lookup_ge_None_2 in Hv by (rewrite length_take; lia).
  by rewrite decide_False in Hv by lia.
Qed.

Lemma args_after ls ls' : length ls = p_n_state p -> length ls' = length ls ->
  ((length args <= p_n_pos_args p)%nat \/ varargs = true) ->
  (varargs = true -> exists t, ls !! n_params = Some t /\ varargs_ok (W := W) p args t) ->
  (forall j, ls' !! j = match take (p_n_pos_args p) args !! j with Some v => Some v | None => ls !! j end) ->
  (forall j, (j < n_params)%nat -> (length args <= j \/ p_n_pos_args p <= j)%nat ->
     ls !! j = if (length kwargs =? 0)%nat && negb defkw && (j <? p_n_pos_args p)%nat then param j else Some MP_OBJ_NULL) ->
  after_positional ls'.
Proof.
  intros Hl Hl' Hfit Hvar Hj Hrest.
  split; [congruence|]. split; [done|]. split.
  { intros Hv. destruct (Hvar Hv) as (t & Ht & Hok). exists t. split; [|done]. rewrite Hj, lookup_ge_None_2; [done|].
    rewrite length_take. unfold FunCall.n_params. lia. }
  assert (forall j, (j < n_params)%nat -> take (p_n_pos_args p) args !! j = None ->
    ls !! j = if (length kwargs =? 0)%nat && negb defkw && (j <? p_n_pos_args p)%nat then param j else Some MP_OBJ_NULL) as Hnone.
  { intros j Hlt Hn. apply Hrest; [done|]. apply lookup_ge_None in Hn. rewrite length_take in Hn. lia. }
  assert (forall j v, take (p_n_pos_args p) args !! j = Some v -> (j < p_n_pos_args p)%nat) as Hsome.
  { intros j v Hv. apply lookup_lt_Some in Hv. rewrite length_take in Hv. lia. }
  destruct ((length kwargs =? 0)%nat && negb defkw) eqn:Ekw; intros j Hlt; rewrite Hj; destruct (take _ args !! j) as [v|] eqn:Ha.
  - rewrite decide_True by eauto. unfold FunCall.param, FunCall.given. by rewrite Ha.
  - rewrite Hnone by done. cbn [andb]. destruct (Nat.ltb_spec j (p_n_pos_args p)); [by rewrite decide_True|by rewrite decide_False by lia].
  - by rewrite given_nil, Ha.
  - rewrite given_nil, Ha, Hnone; done.
Qed.

Lemma set_varargs w s t : has_locals (replicate (p_n_state p) MP_OBJ_NULL) w s -> varargs = true -> varargs_ok (W := W) p args t ->
  forall (Q : unit -> mp_code_state_t W -> Prop) E,
  (forall ls s', has_locals ls w s' -> length ls = p_n_state p ->
     (exists t, ls !! n_params = Some t /\ varargs_ok (W := W) p args t) ->
     (forall j, (j < n_params)%nat -> ls !! j = Some MP_OBJ_NULL) -> Q tt s') ->
  wp (set_local (p_n_pos_args p + p_n_kwonly_args p) t) s Q E.
Proof.
  intros Hs Hva Ht Q E HQ. pose proof (fo_room Hf) as Hroom. rewrite Hva in Hroom. unfold FunCall.n_params in *.
  eapply wp_set_local; [done|rewrite length_replicate; lia|]. intros s' Hs'. eapply HQ; [done|..].
  - by rewrite length_insert, length_replicate.
  - exists t. split; [|done]. apply list_lookup_insert_eq. rewrite length_replicate. lia.
  - intros j Hj. rewrite list_lookup_insert_ne by lia. apply lookup_replicate_2. lia.
Qed.

(** The parameters beyond the arguments, before the arguments are stored. *)
Definition before_args ls : Prop :=
  length ls = p_n_state p
  /\ ((length args <= p_n_pos_args p)%nat \/ varargs = true)
  /\ (varargs = true -> exists t, ls !! n_params = Some t /\ varargs_ok (W := W) p args t)
  /\ (forall j, (j < n_params)%nat -> (length args <= j \/ p_n_pos_args p <= j)%nat ->
       ls !! j = if (length kwargs =? 0)%nat && negb defkw && (j <? p_n_pos_args p)%nat then param j else Some MP_OBJ_NULL).

(** Not more arguments than parameters. *)
Lemma bind_defaults ls w s var (Q : nat * nat -> mp_code_state_t W -> Prop) : has_locals ls w s ->
  length ls = p_n_state p -> (length args <= p_n_pos_args p)%nat ->
  (varargs = true -> exists t, ls !! n_params = Some t /\ varargs_ok (W := W) p args t) ->
  (forall j, (j < n_params)%nat -> ls !! j = Some MP_OBJ_NULL) ->
  (forall ls' s', has_locals ls' w s' -> before_args ls' -> Q (length args, var) s') ->
  wp ((if (length kwargs =? 0)%nat && negb defkw then
         if (required <=? length args)%nat then set_defaults f (length args) (p_n_pos_args p - length args) required
         else raise_arg (fun_pos_args_mismatch (Z.of_nat required) (Z.of_nat (length args)))
       else mret tt);; mret (length args, var)) s Q allowed.
Proof.
  intros Hs Hl Hle Hva Hnull HQ. apply wp_bind. unfold before_args in HQ. pose proof (fo_room Hf) as Hroom.
  destruct ((length kwargs =? 0)%nat && negb defkw) eqn:Ekw; last first.
  { apply wp_ret, wp_ret. eapply HQ; [done|]. split; [done|]. split; [by left|]. split; [done|]. auto. }
  apply andb_true_iff in Ekw as [Ek _]. apply Nat.eqb_eq, length_zero_iff_nil in Ek.
  destruct (Nat.leb_spec required (length args)) as [Hr|Hr]; last first.
  { apply wp_raise_arg. intros e. right. by apply too_few. }
  pose proof (fo_extra Hf) as Hx. pose proof (fo_defaults Hf) as Hd. unfold FunCall.n_params in *.
  eapply wp_set_defaults; [done|lia|lia|lia|]. intros ls' s' Hs' Hl' Hj. apply wp_ret. eapply HQ; [done|].
  split; [congruence|]. split; [by left|]. split.
  - intros Hv. destruct (Hva Hv) as (t & Ht & Hok). exists t. split; [|done]. rewrite Hj, decide_False by lia. done.
  - intros j Hlt Hge. rewrite Hj. cbn [andb]. destruct (Nat.ltb_spec j (p_n_pos_args p)) as [Hlp|Hlp].
    + rewrite decide_True by lia. rewrite no_keyword_param by done. rewrite (lookup_ge_None_2 (take (p_n_pos_args p) args) j) by (rewrite length_take; lia).
      by rewrite decide_True by lia.
    + rewrite decide_False by lia. by apply Hnull.
Qed.

Lemma bind_positional_wp w s (Q : nat * nat -> mp_code_state_t W -> Prop) : has_locals (replicate (p_n_state p) MP_OBJ_NULL) w s ->
  (forall ls w' s', has_locals ls w' s' -> before_args ls -> Q ((length args `min` p_n_pos_args p)%nat, kw_slot p) s') ->
  wp (bind_positional f p args (length kwargs)) s Q allowed.
Proof.
  intros Hs HQ. unfold bind_positional, kw_slot in *. unfold FunCall.n_params in HQ.
  assert (forall j, (j < n_params)%nat -> replicate (p_n_state p) MP_OBJ_NULL !! j = Some MP_OBJ_NULL) as Hnull.
  { intros j Hj. apply lookup_replicate_2. pose proof (fo_room Hf). lia. }
  destruct (Nat.ltb_spec (p_n_pos_args p) (length args)) as [Hgt|Hle].
  - rewrite Nat.min_r in HQ by lia. destruct varargs eqn:Hva; [|apply wp_raise_arg; intros e; right; by apply too_many].
    apply wp_bind. eapply wp_call1; [done|done| |by left]. intros t w' s1 Hs1 Er.
    apply wp_bind. eapply set_varargs; [done|done| |].
    { unfold varargs_ok. rewrite (proj2 (Nat.ltb_lt _ _)) by done. by exists w, w'. }
    intros ls s2 Hs2 Hl2 Ht2 Hn2. apply wp_ret. replace (S _) with (p_n_pos_args p + p_n_kwonly_args p + 1)%nat by lia.
    eapply HQ; [done|]. split; [done|]. split; [by right|]. split; [done|]. intros j Hj Hge.
    rewrite (proj2 (Nat.ltb_ge _ _)) by lia. rewrite andb_false_r. by apply Hn2.
  - rewrite Nat.min_l in HQ by lia. apply wp_bind. destruct varargs eqn:Hva.
    + apply wp_bind. eapply set_varargs; [done|done| |].
      { unfold varargs_ok. by rewrite (proj2 (Nat.ltb_ge _ _)) by done. }
      intros ls s2 Hs2 Hl2 Ht2 Hn2. apply wp_ret. replace (S _) with (p_n_pos_args p + p_n_kwonly_args p + 1)%nat by lia.
      eapply bind_defaults; eauto.
    + apply wp_ret. rewrite Nat.add_0_r in HQ. eapply bind_defaults; eauto; [apply length_replicate|]. congruence.
Qed.

Lemma positional_wp w s : has_locals (replicate (p_n_state p) MP_OBJ_NULL) w s ->
  forall (Q : unit -> mp_code_state_t W -> Prop) (g : nat -> V W unit),
  (forall ls w' s', has_locals ls w' s' -> after_positional ls -> wp (g (kw_slot p)) s' Q allowed) ->
  wp ('(n_args, var) ← bind_positional f p args (length kwargs); set_locals 0 (take n_args args);; g var) s Q allowed.
Proof.
  intros Hs Q g HQ. apply wp_bind. eapply bind_positional_wp; [done|]. intros ls w' s' Hs' (Hl & Hfit & Hva & Hrest).
  apply wp_bind. eapply args_stored; [done|done|]. intros ls2 s2 Hs2 Hl2 Hj. eapply HQ; [done|]. by eapply args_after.
Qed.

(** ** Keyword arguments *)

Lemma given_snoc kw k v j : given (kw ++ [(k, v)]) j = match given kw j with Some x => Some x | None => if decide (names !! j = Some k) then Some v else None end.
Proof.
  unfold FunCall.given. destruct (take _ args !! j); [done|]. destruct (names !! j) as [name|]; cbn [mbind option_bind].
  - rewrite assoc_app. destruct (assoc name kw); [done|].
    destruct (decide (k = name)), (decide (Some name = Some k)); congruence.
  - by rewrite decide_False.
Qed.

Lemma stored_snoc d l k v w w1 w2 r : stored d l w w1 -> rt_call (mp_obj_dict_store d k v) w1 = (RVal r, w2) -> stored d (l ++ [(k, v)]) w w2.
Proof.
  revert w. induction l as [|[k' v'] l IH]; intros w; cbn [stored app].
  - intros -> E. by exists w2, r.
  - intros (wa & ra & Ea & Ha) E. exists wa, ra. auto.
Qed.

Lemma leftover_snoc kw k v : leftover f p (kw ++ [(k, v)]) = if decide (k ∈ names) then leftover f p kw else leftover f p kw ++ [(k, v)].
Proof.
  unfold leftover. rewrite list.filter_app. destruct (decide (k ∈ names)).
  - rewrite filter_cons_False by auto. by rewrite filter_nil, app_nil_r.
  - rewrite filter_cons_True by auto. by rewrite filter_nil.
Qed.

(** The variables after the keywords [kw], which were all accepted. *)
Record after_keywords kw ls0 d w0 ls w : Prop := {
  ak_length : length ls = p_n_state p;
  ak_params : forall j, (j < n_params)%nat -> ls !! j = Some (val (given kw j));
  ak_others : forall j, (n_params <= j)%nat -> ls !! j = ls0 !! j;
  ak_stored : stored d (leftover f p kw) w0 w;
  ak_fit : keywords_fit f p args kw }.

Lemma keyword_fits kw k v : keywords_fit f p args kw -> (forall j, names !! j = Some k -> given kw j = None) ->
  (k ∈ names \/ varkw = true) -> keywords_fit f p args (kw ++ [(k, v)]).
Proof.
  intros Hfit Hnew Hk i k' v' Hi. destruct (decide (i < length kw)%nat) as [Hlt|Hge].
  - rewrite lookup_app_l in Hi by done. rewrite take_app_le by lia. by eapply Hfit.
  - assert (i = length kw) as -> by (apply lookup_lt_Some in Hi; rewrite length_app in Hi; cbn in Hi; lia).
    rewrite list_lookup_middle in Hi by done. injection Hi as <- <-. by rewrite take_app_length.
Qed.

Lemma keyword_refused kw k v kw' : kwargs = kw ++ (k, v) :: kw' ->
  (exists j, names !! j = Some k /\ given kw j <> None) \/ (k ∉ names /\ varkw = false) -> ~ call_fits.
Proof.
  intros Hk Hbad (_ & Hfit & _). destruct (Hfit (length kw) k v) as [H1 H2]; [rewrite Hk; by apply list_lookup_middle|].
  rewrite Hk, take_app_length in H1. destruct Hbad as [(j & Hj & Hne)|[? ?]]; [by eapply Hne, H1|]. destruct H2; congruence.
Qed.

Lemma bind_keyword_wp kw k v kw' ls0 d w0 ls w s (Q : unit -> mp_code_state_t W -> Prop) :
  kwargs = kw ++ (k, v) :: kw' -> has_locals ls w s -> after_keywords kw ls0 d w0 ls w ->
  (forall ls' w' s', has_locals ls' w' s' -> after_keywords (kw ++ [(k, v)]) ls0 d w0 ls' w' -> Q tt s') ->
  wp (bind_keyword f p d k v) s Q allowed.
Proof.
  intros Hk Hs [Hl Hp Ho Hd Hfit] HQ. unfold bind_keyword. pose proof (fo_room Hf) as Hroom. pose proof (fo_names Hf) as Hnames.
  assert (kw `prefix_of` kwargs) as Hpre by (rewrite Hk; by exists ((k, v) :: kw')).
  apply wp_bind. eapply wp_find_name; [done|]. intros [j|] Hj.
  - destruct Hj as [[_ Hlt] Hname]. change (p_n_pos_args p + p_n_kwonly_args p)%nat with n_params in Hlt. rewrite <- names_lookup in Hname by done.
    apply wp_bind. eapply wp_get_local; [done|by apply Hp|]. destruct (decide (val (given kw j) = MP_OBJ_NULL)) as [Hnull|Hnull].
    + apply val_null in Hnull; [|done]. eapply wp_set_local; [done|lia|]. intros s' Hs'. eapply HQ; [done|]. split.
      * by rewrite length_insert.
      * intros i Hi. rewrite given_snoc. destruct (decide (i = j)) as [->|Hne].
        -- rewrite list_lookup_insert_eq by lia. by rewrite Hnull, decide_True.
        -- rewrite list_lookup_insert_ne, Hp by done. rewrite decide_False; [by destruct (given kw i)|]. intros Hi'. apply Hne. by eapply (names_inj kw).
      * intros i Hi. rewrite list_lookup_insert_ne by lia. by apply Ho.
      * rewrite leftover_snoc, decide_True; [done|]. by eapply list_elem_of_lookup_2.
      * apply keyword_fits; [done| |left; by eapply list_elem_of_lookup_2]. intros i Hi. by rewrite (names_inj kw i j k).
    + apply wp_raise_arg. intros e. right. eapply keyword_refused; [done|]. left. exists j. split; [done|]. intros Hn. by rewrite Hn in Hnull.
  - assert (k ∉ names) as Hnot.
    { intros Hin. apply list_elem_of_lookup_1 in Hin as [i Hi]. assert (i < n_params)%nat.
      { apply lookup_lt_Some in Hi. unfold FunCall.names in Hi. rewrite length_take in Hi. lia. }
      rewrite names_lookup in Hi by done. eapply Hj; [|done]. unfold FunCall.n_params in *. lia. }
    destruct varkw eqn:Hvk; [|apply wp_raise_arg; intros e; right; eapply keyword_refused; [done|by right]].
    apply wp_bind. eapply wp_call; [done| |by left]. intros l w' s' Hs' Er. apply wp_ret. eapply HQ; [done|]. split.
    + done.
    + intros i Hi. rewrite given_snoc, Hp by done. rewrite decide_False; [by destruct (given kw i)|]. intros Hi'. apply Hnot. by eapply list_elem_of_lookup_2.
    + done.
    + rewrite leftover_snoc, decide_False by done. by eapply stored_snoc.
    + apply keyword_fits; [done| |by right]. intros i Hi. destruct Hnot. by eapply list_elem_of_lookup_2.
Qed.

Lemma bind_keywords_wp kw' : forall kw ls0 d w0 ls w s (Q : unit -> mp_code_state_t W -> Prop),
  kwargs = kw ++ kw' -> has_locals ls w s -> after_keywords kw ls0 d w0 ls w ->
  (forall ls' w' s', has_locals ls' w' s' -> after_keywords kwargs ls0 d w0 ls' w' -> Q tt s') ->
  wp (bind_keywords f p d kw') s Q allowed.
Proof.
  induction kw' as [|[k v] kw' IH]; intros kw ls0 d w0 ls w s Q Hk Hs Hkw HQ; cbn [bind_keywords].
  - rewrite app_nil_r in Hk. subst kw. apply wp_ret. by eapply HQ.
  - apply wp_bind. eapply bind_keyword_wp; [done|done|done|]. intros ls' w' s' Hs' Hkw'.
    eapply (IH (kw ++ [(k, v)])); [by rewrite <- app_assoc|done|done|done].
Qed.

(** ** Defaults *)

Lemma param_given j v : given kwargs j = Some v -> param j = Some v.
Proof. intros E. unfold FunCall.param. by rewrite E. Qed.

Lemma param_default j : given kwargs j = None -> param j = default_of f p j.
Proof. intros E. unfold FunCall.param. by rewrite E. Qed.

Lemma default_positional j : (j < p_n_pos_args p)%nat ->
  default_of f p j = if decide (required <= j)%nat then extra_args f !! (j - required)%nat else None.
Proof.
  intros Hj. unfold default_of. rewrite (proj2 (Nat.ltb_lt _ _)) by done.
  destruct (decide _); [by rewrite (proj2 (Nat.leb_le _ _))|by rewrite (proj2 (Nat.leb_gt _ _)) by lia].
Qed.

Lemma no_param j : (j < n_params)%nat -> param j = None -> ~ call_fits.
Proof. intros Hj Hn (_ & _ & Hp). destruct (Hp j Hj) as [v Hv]. congruence. Qed.

(** The variables when the first [m] parameters are complete. *)
Definition complete (m : nat) ls0 ls : Prop :=
  length ls = p_n_state p /\ (forall j, (j < m)%nat -> ls !! j = param j)
  /\ (forall j, (m <= j < n_params)%nat -> ls !! j = Some (val (given kwargs j)))
  /\ (forall j, (n_params <= j)%nat -> ls !! j = ls0 !! j).

Lemma positional_defaults_wp ls w s (Q : unit -> mp_code_state_t W -> Prop) : has_locals ls w s -> length ls = p_n_state p ->
  (forall j, (j < n_params)%nat -> ls !! j = Some (val (given kwargs j))) ->
  (forall ls' s', has_locals ls' w s' -> complete (p_n_pos_args p) ls ls' -> Q tt s') ->
  wp (fill_defaults f (p_n_pos_args p) (p_n_def_pos_args p);; check_positional required) s Q allowed.
Proof.
  intros Hs Hl Hp HQ. pose proof (fo_room Hf) as Hroom. pose proof (fo_extra Hf) as Hx. pose proof (fo_defaults Hf) as Hd.
  unfold FunCall.n_params in *. apply wp_bind. eapply wp_fill_defaults; [done|done|lia|lia|].
  intros ls' s' Hs' Hl' Hj.
  assert (forall j, (j < required)%nat -> ls' !! j = Some (val (given kwargs j))) as Hreq.
  { intros j Hlt. rewrite Hj, decide_False by lia. apply Hp. lia. }
  eapply wp_check_positional; [done|lia| |].
  - intros (j & Hlt & Hnull) e. right. rewrite Hreq in Hnull by done. injection Hnull as Hnull. apply val_null in Hnull; [|done].
    apply (no_param j); [unfold FunCall.n_params; lia|]. rewrite param_default, default_positional by (done || lia). by rewrite decide_False by lia.
  - intros Hall. eapply HQ; [done|]. split; [congruence|]. split; [|split].
    + intros j Hlt. destruct (given kwargs j) as [v|] eqn:Eg.
      * rewrite (param_given _ v) by done. rewrite Hj, Hp, Eg by lia. destruct (decide _) as [[_ Hnull]|]; [|done].
        destruct (given_not_null kwargs j); [done|]. by rewrite Eg.
      * rewrite param_default, default_positional by done. destruct (decide (required <= j)%nat).
        -- rewrite Hj, Hp, Eg by lia. by rewrite decide_True by (split; [lia|done]).
        -- destruct (Hall j); [lia|]. rewrite Hreq by lia. by rewrite Eg.
    + intros j Hlt. unfold FunCall.n_params in Hlt. rewrite Hj, decide_False by lia. apply Hp. lia.
    + intros j Hge. unfold FunCall.n_params in Hge. by rewrite Hj, decide_False by lia.
Qed.

Lemma default_keyword j name : (p_n_pos_args p <= j)%nat -> names !! j = Some name ->
  default_of f p j = if defkw then d ← extra_args f !! p_n_def_pos_args p; kw_default_lookup d name else None.
Proof. intros Hj Hn. unfold default_of. rewrite (proj2 (Nat.ltb_ge _ _)) by done. rewrite Hn. by destruct defkw. Qed.

(** Looking up the default of a keyword parameter. *)
Lemma keyword_default_wp j name s (Q : option obj -> mp_code_state_t W -> Prop) E : (p_n_pos_args p <= j)%nat -> names !! j = Some name ->
  Q (default_of f p j) s ->
  wp (if defkw then d ← extra_arg f (p_n_def_pos_args p); mret (kw_default_lookup d name) else mret None) s Q E.
Proof.
  intros Hj Hn. rewrite (default_keyword _ name) by done. pose proof (fo_extra Hf) as Hx. destruct defkw; [|intros; by apply wp_ret].
  destruct (lookup_lt_is_Some_2 (extra_args f) (p_n_def_pos_args p)) as [d Hd]; [lia|]. rewrite Hd. cbn [mbind option_bind].
  intros HQ. apply wp_bind. eapply wp_extra_arg; [done|]. by apply wp_ret.
Qed.

Lemma complete_step m ls0 ls ls' : complete m ls0 ls -> (m < n_params)%nat -> length ls' = length ls ->
  (forall j, j <> m -> ls' !! j = ls !! j) -> ls' !! m = param m -> complete (S m) ls0 ls'.
Proof.
  intros (Hl & H1 & H2 & H3) Hm Hl' Hj Hnew. split; [congruence|]. split; [|split].
  - intros j Hlt. destruct (decide (j = m)) as [->|]; [done|]. rewrite Hj by done. apply H1. lia.
  - intros j Hlt. rewrite Hj by lia. apply H2. lia.
  - intros j Hge. rewrite Hj by lia. by apply H3.
Qed.

Lemma keyword_only_wp n : forall i ls0 ls w s (Q : unit -> mp_code_state_t W -> Prop), has_locals ls w s ->
  complete (p_n_pos_args p + i) ls0 ls -> (i + n = p_n_kwonly_args p)%nat ->
  (forall ls' s', has_locals ls' w s' -> complete n_params ls0 ls' -> Q tt s') ->
  wp (fill_keyword_only f p i n) s Q allowed.
Proof.
  induction n as [|n IH]; intros i ls0 ls w s Q Hs Hc Hi HQ; cbn [fill_keyword_only].
  - apply wp_ret. eapply HQ; [done|]. unfold FunCall.n_params. by replace (p_n_kwonly_args p) with i by lia.
  - pose proof (fo_room Hf) as Hroom. pose proof (fo_names Hf) as Hnames. assert (p_n_pos_args p + i < n_params)%nat as Hm by (unfold FunCall.n_params; lia).
    pose proof Hc as (Hl & _ & Hp & _).
    assert (forall ls' s', has_locals ls' w s' -> complete (S (p_n_pos_args p + i)) ls0 ls' -> wp (fill_keyword_only f p (S i) n) s' Q allowed) as Hgo.
    { intros ls' s' Hs' Hc'. eapply IH; [done| |lia|done]. by replace (p_n_pos_args p + S i)%nat with (S (p_n_pos_args p + i)) by lia. }
    apply wp_bind. eapply wp_get_local; [done|by apply Hp; lia|]. apply wp_bind. destruct (decide _) as [Hnull|Hnull].
    + apply val_null in Hnull; [|done]. destruct (lookup_lt_is_Some_2 (const_table f) (p_n_pos_args p + i)) as [name Hname]; [lia|].
      apply wp_bind. eapply wp_lift; [done|]. apply wp_bind.
      eapply (keyword_default_wp (p_n_pos_args p + i)); [lia|by rewrite names_lookup|].
      destruct (default_of f p (p_n_pos_args p + i)) as [v|] eqn:Ed; last first.
      { apply wp_raise_arg. intros e. right. eapply no_param; [done|]. by rewrite param_default. }
      eapply wp_set_local; [done|lia|]. intros s' Hs'. eapply Hgo; [done|]. eapply complete_step; [done|done|by rewrite length_insert| |].
      * intros j Hj. by rewrite list_lookup_insert_ne.
      * rewrite list_lookup_insert_eq by lia. by rewrite param_default.
    + apply wp_ret. eapply Hgo; [done|]. eapply complete_step; [done|done|done|done|]. rewrite Hp by lia.
      destruct (given kwargs _) as [v|] eqn:Eg; [|done]. by rewrite (param_given _ v).
Qed.

(** ** All the arguments *)

Lemma kw_slot_bounds : (n_params <= kw_slot p)%nat /\ (varargs = true -> kw_slot p <> n_params) /\ (varkw = true -> kw_slot p < p_n_state p)%nat.
Proof. pose proof (fo_room Hf). unfold kw_slot. destruct varargs, varkw; repeat split; intros; (done || lia). Qed.

(** What is left to show when the parameters are complete. *)
Lemma bound_intro ls ls' w' : length ls' = p_n_state p -> (forall j, (j < n_params)%nat -> ls' !! j = param j) ->
  after_positional ls -> (varargs = true -> ls' !! n_params = ls !! n_params) -> keywords_fit f p args kwargs ->
  (varkw = true -> exists d, ls' !! kw_slot p = Some d /\ varkw_ok f p kwargs d w') ->
  bound f p args kwargs ls' w' /\ call_fits.
Proof.
  intros Hl Hp (_ & Hfit & Hva & _) Hsame Hkw Hd. split.
  - split; [done|]. split; [done|]. split; [|done]. intros Hv. destruct (Hva Hv) as (t & Ht & Hok). exists t. split; [|done].
    unfold var_slot. by rewrite Hsame.
  - split; [done|]. split; [done|]. intros j Hj. rewrite <- Hp by done. apply lookup_lt_is_Some_2. pose proof (fo_room Hf). lia.
Qed.

(** The dictionary for the other keywords. *)
Lemma new_dict_wp n ls w s (Q : obj -> mp_code_state_t W -> Prop) : has_locals ls w s -> length ls = p_n_state p -> varkw = true ->
  (forall d w0 w' s', has_locals (<[kw_slot p := d]> ls) w' s' -> rt_call (mp_obj_new_dict n) w0 = (RVal [d], w') -> Q d s') ->
  wp (d ← call1 (mp_obj_new_dict n); set_local (kw_slot p) d;; mret d) s Q allowed.
Proof.
  intros Hs Hl Hv HQ. destruct kw_slot_bounds as (_ & _ & Hlt). specialize (Hlt Hv).
  apply wp_bind. eapply wp_call1; [done|done| |by left]. intros d w' s' Hs' Er.
  apply wp_bind. eapply wp_set_local; [done|lia|]. intros s2 Hs2. apply wp_ret. by eapply HQ.
Qed.

Lemma with_keywords_wp ls w s (Q : unit -> mp_code_state_t W -> Prop) : has_locals ls w s -> after_positional ls ->
  (length kwargs =? 0)%nat && negb defkw = false ->
  (forall ls' w' s', has_locals ls' w' s' -> bound f p args kwargs ls' w' -> call_fits -> Q tt s') ->
  wp (with_keywords f p (kw_slot p) kwargs) s Q allowed.
Proof.
  intros Hs Hpos Hsome HQ. pose proof Hpos as (Hl & Hfit & Hva & Hgiven). rewrite Hsome in Hgiven.
  destruct kw_slot_bounds as (Hk1 & Hk2 & Hk3).
  assert (forall d ls1 w1 s1, has_locals ls1 w1 s1 -> length ls1 = p_n_state p ->
    (forall j, j <> kw_slot p -> ls1 !! j = ls !! j) -> (forall j, (j < n_params)%nat -> ls1 !! j = ls !! j) ->
    (varkw = true -> ls1 !! kw_slot p = Some d /\ exists n w0, rt_call (mp_obj_new_dict n) w0 = (RVal [d], w1)) ->
    wp (bind_keywords f p d kwargs;; fill_defaults f (p_n_pos_args p) (p_n_def_pos_args p);;
        check_positional required;; fill_keyword_only f p 0 (p_n_kwonly_args p)) s1 Q allowed) as Hgo.
  { intros d ls1 w1 s1 Hs1 Hl1 Hne Hlow Hdict. apply wp_bind. eapply (bind_keywords_wp kwargs [] ls1 d w1); [done|done| |].
    { split; [done| |done|done|]; [|by intros i k v Hi]. intros j Hj. by rewrite Hlow, Hgiven. }
    intros ls2 w2 s2 Hs2 [Hl2 Hp2 Ho2 Hst2 Hfit2]. apply wp_seq. eapply positional_defaults_wp; [done|done|done|].
    intros ls3 s3 Hs3 Hc3. eapply (keyword_only_wp _ 0 ls2); [done|by rewrite Nat.add_0_r|done|].
    intros ls4 s4 Hs4 (Hl4 & Hp4 & _ & Ho4).
    assert (bound f p args kwargs ls4 w2 /\ call_fits) as [Hb Hc]; [|by eapply HQ].
    eapply bound_intro; [done|done|done| |done|].
    - intros Hv. specialize (Hk2 Hv). by rewrite Ho4, Ho2, Hne by done.
    - intros Hv. destruct (Hdict Hv) as (Hd & n & w0 & Er). exists d. split; [by rewrite Ho4, Ho2|]. by exists n, w0, w1. }
  unfold with_keywords. apply wp_bind. destruct varkw eqn:Hv.
  - eapply new_dict_wp; [done|done|done|]. intros d w0 w' s' Hs' Er. eapply Hgo; [done|by rewrite length_insert| | |].
    + intros j Hj. by rewrite list_lookup_insert_ne.
    + intros j Hj. rewrite list_lookup_insert_ne by lia. done.
    + intros _. split; [|by exists (Z.of_nat (length kwargs)), w0]. apply list_lookup_insert_eq. specialize (Hk3 eq_refl). lia.
  - apply wp_ret. eapply Hgo; done.
Qed.

Lemma without_keywords_wp ls w s (Q : unit -> mp_code_state_t W -> Prop) : has_locals ls w s -> after_positional ls ->
  (length kwargs =? 0)%nat && negb defkw = true ->
  (forall ls' w' s', has_locals ls' w' s' -> bound f p args kwargs ls' w' -> call_fits -> Q tt s') ->
  wp (without_keywords p (kw_slot p)) s Q allowed.
Proof.
  intros Hs Hpos Hnone HQ. pose proof Hpos as (Hl & Hfit & Hva & Hgiven). rewrite Hnone in Hgiven.
  apply andb_true_iff in Hnone as [Hk Hdef]. apply Nat.eqb_eq, length_zero_iff_nil in Hk. apply negb_true_iff in Hdef.
  destruct kw_slot_bounds as (Hk1 & Hk2 & Hk3). unfold without_keywords. destruct (Nat.eqb_spec (p_n_kwonly_args p) 0) as [H0|H0].
  - assert (forall j, (j < n_params)%nat -> ls !! j = param j) as Hp.
    { intros j Hj. rewrite Hgiven by done. rewrite decide_True; [done|]. unfold FunCall.n_params in Hj. lia. }
    assert (keywords_fit f p args kwargs) as Hkf by (rewrite Hk; by intros i k v Hi).
    destruct varkw eqn:Hv.
    + apply wp_bind. eapply wp_call1; [done|done| |by left]. intros d w' s1 Hs1 Er.
      eapply wp_set_local; [done|specialize (Hk3 eq_refl); lia|]. intros s' Hs'.
      assert (bound f p args kwargs (<[kw_slot p:=d]> ls) w' /\ call_fits) as [Hb Hc]; [|by eapply HQ].
      eapply bound_intro; [by rewrite length_insert| |done| |done|].
      * intros j Hj. rewrite list_lookup_insert_ne by lia. by apply Hp.
      * intros Hv'. specialize (Hk2 Hv'). by rewrite list_lookup_insert_ne.
      * intros _. exists d. split; [apply list_lookup_insert_eq; specialize (Hk3 eq_refl); lia|].
        exists 0, w, w'. split; [done|]. by rewrite Hk.
    + apply wp_ret. assert (bound f p args kwargs ls w /\ call_fits) as [Hb Hc]; [|by eapply HQ].
      eapply bound_intro; try done. by rewrite Hv.
  - apply wp_raise_arg. intros e. right. apply (no_param (p_n_pos_args p)); [unfold FunCall.n_params; lia|].
    rewrite param_default; [unfold default_of; by rewrite Nat.ltb_irrefl, Hdef|]. rewrite Hk, given_nil. apply lookup_ge_None_2.
    rewrite length_take. lia.
Qed.

(** Binding all the arguments. *)
Lemma arguments_wp w s (Q : unit -> mp_code_state_t W -> Prop) (g : V W unit) : has_locals (replicate (p_n_state p) MP_OBJ_NULL) w s ->
  (forall ls w' s', has_locals ls w' s' -> bound f p args kwargs ls w' -> call_fits -> wp g s' Q allowed) ->
  wp ('(n_args, var) ← bind_positional f p args (length kwargs); set_locals 0 (take n_args args);;
      (if negb (length kwargs =? 0)%nat || defkw then with_keywords f p var kwargs else without_keywords p var);; g) s Q allowed.
Proof.
  intros Hs HQ. eapply (positional_wp w s Hs _ (fun var => (if negb (length kwargs =? 0)%nat || defkw then with_keywords f p var kwargs
    else without_keywords p var);; g)). intros ls w' s' Hs' Hpos. apply wp_bind.
  destruct (negb (length kwargs =? 0)%nat || defkw) eqn:Ek.
  - eapply with_keywords_wp; [done|done| |done]. apply negb_true_iff. by rewrite negb_andb, negb_involutive.
  - eapply without_keywords_wp; [done|done| |done]. apply negb_false_iff. by rewrite negb_andb, negb_involutive.
Qed.
End Phases.

(** ** A call *)

Section Call.
Context {W : Type} {R : Runtime W} {L : RuntimeLaws R} {C : CellLaws R} (f : mp_obj_fun_bc_t) (p : prelude).
Context (args : list obj) (kwargs : list (obj * obj)) (n_closed : nat).
Implicit Types (s : mp_code_state_t W) (ls : list obj) (w : W).

(** The variables for cells are listed after the information on the code, then the code begins. *)
Definition cells_listed (cs : list nat) (start : nat) : Prop :=
  exists size rest, mp_decode_uint_value (bytecode f) (p_ip p) = Some size
    /\ drop (p_ip p + Z.to_nat size) (bytecode f) = map Z.of_nat cs ++ 255 :: rest
    /\ start = (p_ip p + Z.to_nat size + length cs + 1)%nat
    /\ NoDup cs /\ Forall (fun c => (c < p_n_state p)%nat /\ c <> 255%nat) cs.

(** The state with which the function begins. *)
Definition set_up (cs : list nat) (start : nat) s : Prop :=
  exists ls w ls', bound f p args kwargs ls w /\ in_cells cs ls w ls' (v_world s)
    /\ v_state s = reverse ls' /\ v_exc s = [] /\ v_inject s = None /\ v_code_ip s = start /\ v_code_sp s = -1.

Lemma setup_wp cs start w : decode_prelude f = Some p -> fun_ok f p n_closed -> cells_listed cs start -> (n_closed <= length args)%nat ->
  Forall (fun o => o <> MP_OBJ_NULL) args -> Forall (fun kv => kv.2 <> MP_OBJ_NULL) kwargs ->
  wp (mp_setup_code_state f args kwargs) (new_code_state w) (fun _ s => set_up cs start s /\ call_fits f p args kwargs)
    (allowed (W := W) f p args kwargs).
Proof.
  intros Hp Hf (size & rest & Hsize & Hdrop & -> & Hnd & Hcs) Hcl Ha Hk. unfold mp_setup_code_state.
  apply wp_bind. eapply wp_lift; [done|]. do 3 (apply wp_bind; unfold wp at 1, set_code, set_exc, set_state; cbn beta iota).
  eapply arguments_wp; [done|done|done|done|split; [cbn; by rewrite reverse_replicate|done..]|]. intros ls w1 s1 Hs1 Hb Hc. apply wp_bind. eapply wp_lift; [done|]. cbn zeta. rewrite Hdrop.
  apply wp_bind. eapply init_cells_wp; [done|done| | |by left].
  { destruct Hb as [-> _]. done. }
  intros ls' w' s' [Hl He Hi Hw] Hin. unfold wp, set_code. split; [|done]. exists ls, w1, ls'. cbn. rewrite Hw. done.
Qed.

Lemma setup_result cs start w : decode_prelude f = Some p -> fun_ok f p n_closed -> cells_listed cs start -> (n_closed <= length args)%nat ->
  Forall (fun o => o <> MP_OBJ_NULL) args -> Forall (fun kv => kv.2 <> MP_OBJ_NULL) kwargs ->
  exists r, mp_setup_code_state f args kwargs (new_code_state w) = Some r
    /\ match r with
       | VOk _ s => set_up cs start s /\ call_fits f p args kwargs
       | VRaise e _ => runtime_raises (W := W) e \/ ~ call_fits f p args kwargs
       | VReturn _ _ => False
       end.
Proof.
  intros Hp Hf Hcs Hcl Ha Hk. pose proof (setup_wp cs start w Hp Hf Hcs Hcl Ha Hk) as H. unfold wp in H.
  destruct (mp_setup_code_state f args kwargs (new_code_state w)) as [r|]; [|done]. exists r. split; [done|]. by destruct r.
Qed.

(** Cells that the code uses: made at the start of the call, or passed by a closure. *)
Definition cells_there (cs cells : list nat) : Prop :=
  Forall (fun j => j ∈ cs \/ (j < n_params p)%nat /\ exists c, param f p args kwargs j = Some (ObjCell c)) cells.

Lemma set_up_saved n_locals cells shapes cs start s w : set_up cs start s -> fun_ok f p n_closed ->
  Forall (fun c => (c < p_n_state p)%nat) cs ->
  cells_there cs cells -> shapes !! start = Some [] -> vm_saved n_locals (p_n_state p) cells shapes (in_world w s).
Proof.
  intros (ls & w1 & ls' & (Hl & Hp & _) & Hin & Hst & Hex & Hi & Hip & Hsp) Hf Hcs Hcells Hshape.
  pose proof (ic_length _ _ _ _ _ Hin) as Hl'. pose proof (fo_room f p n_closed Hf) as Hroom.
  apply initial_saved; cbn [v_code_ip v_exc v_code_sp in_world]; [by rewrite Hip|done|done|].
  split; [|split]; cbn [v_state v_code_sp in_world]; rewrite ?Hst, ?Hsp; [rewrite length_reverse; lia| |lia]. intros c Hc _.
  assert (exists k, ls' !! c = Some (ObjCell k)) as [k Hk].
  { destruct (decide (c ∈ cs)) as [Hcc|Hnc].
    - assert (c < p_n_state p)%nat by (apply (proj1 (list.Forall_forall _ _) Hcs _ Hcc)).
      destruct (lookup_lt_is_Some_2 ls c) as [o Ho]; [lia|]. destruct (ic_cells _ _ _ _ _ Hin _ _ Hcc Ho) as (k & Hk & _). by exists k.
    - destruct (proj1 (list.Forall_forall _ _) Hcells _ Hc) as [?|[Hlt [k Hk]]]; [done|]. exists k. by rewrite (ic_others _ _ _ _ _ Hin), Hp. }
  exists k. pose proof (lookup_lt_Some _ _ _ Hk). rewrite reverse_lookup by lia. rewrite <- Hk. f_equal. lia.
Qed.

(** What a call comes to when the function has run from [s]. *)
Definition call_returns n_locals (n : nat) s (r : call_result) : Prop :=
  exists v, mp_execute_bytecode f n (in_world (mp_globals_set (globals f) (v_world s)) s) = Some v
    /\ match v, r with
       | VReturn MP_VM_RETURN_NORMAL s', CallVal o => sp_slot s' = Some o
       | VReturn MP_VM_RETURN_EXCEPTION s', CallRaise e => v_state s' !! 0%nat = Some (ObjExc e)
       | VOk _ s', CallRunning => within_bounds f n_locals (p_n_state p) s'
       | _, _ => False
       end.

Lemma cells_listed_lt cs start : cells_listed cs start -> Forall (fun c => (c < p_n_state p)%nat) cs.
Proof. intros (? & ? & _ & _ & _ & _ & H). eapply list.Forall_impl; [done|]. by intros c [? _]. Qed.
End Call.

(** What the compiler makes: the prelude [p], the parameters for what a closure passes,
    the variables [cs] for cells, the code from [start] on with its shapes and the
    cells that it uses. *)
Record code_ok (f : mp_obj_fun_bc_t) (p : prelude) (n_closed : nat) (cs : list nat) (start n_locals : nat) (cells : list nat)
    (shapes : gmap nat frame) : Prop := {
  co_prelude : decode_prelude f = Some p;
  co_fun : fun_ok f p n_closed;
  co_cells : cells_listed f p cs start;
  co_code : check_code f n_locals (p_n_state p) cells shapes = true;
  co_start : shapes !! start = Some [] }.

(** C10 A call of a function in byte code is defined.  It raises an exception when the arguments do not
    fit the parameters by Python's rules, or when the runtime raises one while they are bound.
    Otherwise the function runs with every parameter bound as the rules say, the rest in the
    tuple and the dictionary, shared variables in new cells; what it returns or raises is
    what the interpreter has left. *)
Theorem fun_bc_call_correct {W} {R : Runtime W} {L : RuntimeLaws R} {C : CellLaws R} f p n_closed cs start n_locals cells shapes args kwargs n (w : W) :
  code_ok f p n_closed cs start n_locals cells shapes -> (n_closed <= length args)%nat -> yields f shapes = false ->
  Forall (fun o => o <> MP_OBJ_NULL) args -> Forall (fun kv => kv.2 <> MP_OBJ_NULL) kwargs -> cells_there f p args kwargs cs cells ->
  exists r w', fun_bc_call f n args kwargs w = Some (r, w')
    /\ ((exists e, r = CallRaise e /\ (runtime_raises (W := W) e \/ ~ call_fits f p args kwargs))
        \/ call_fits f p args kwargs /\ exists s, set_up f p args kwargs cs start s /\ call_returns f p n_locals n s r).
Proof.
  intros [Hp Hf Hcs Hcode Hstart] Hcl Hy Ha Hk Hcells.
  destruct (setup_result f p args kwargs n_closed cs start w Hp Hf Hcs Hcl Ha Hk) as (r & E & Hr). unfold fun_bc_call. rewrite E. cbn [mbind option_bind].
  destruct r as [[] s|e s|]; [|eexists _, _; split; [done|]; left; by exists e|done].
  destruct Hr as [Hs Hfit]. set (w1 := mp_globals_set (globals f) (v_world s)).
  pose proof (set_up_saved f p args kwargs n_closed n_locals cells shapes cs start s w1 Hs Hf (cells_listed_lt _ _ _ _ Hcs) Hcells Hstart) as Hsaved.
  destruct (execute_good f _ _ _ _ Hcode n _ Hsaved) as (v & Ev & Hv).
  rewrite Ev. cbn [mbind option_bind].
  assert (forall r, match v, r with VReturn MP_VM_RETURN_NORMAL s', CallVal o => sp_slot s' = Some o
    | VReturn MP_VM_RETURN_EXCEPTION s', CallRaise e => v_state s' !! 0%nat = Some (ObjExc e)
    | VOk _ s', CallRunning => within_bounds f n_locals (p_n_state p) s' | _, _ => False end ->
    (exists e, r = CallRaise e /\ (runtime_raises (W := W) e \/ ~ call_fits f p args kwargs))
      \/ call_fits f p args kwargs /\ exists s, set_up f p args kwargs cs start s /\ call_returns f p n_locals n s r) as Hgo.
  { intros r Hr. right. split; [done|]. exists s. split; [done|]. by exists v. }
  destruct v as [[] s'|e s'|[| |] s']; [|done|..]; cbn [good returns_ok] in Hv.
  - eexists _, _. split; [done|]. apply Hgo. by eapply (inv_bounds f _ _ _ _ Hcode).
  - destruct Hv as (_ & H0 & [o Ho]). unfold sp_slot in Hgo |- *. destruct (Z.ltb_spec (v_code_sp s') 0); [lia|]. rewrite Ho in Hgo |- *.
    cbn [mbind option_bind]. eexists _, _. split; [done|]. by apply Hgo.
  - destruct Hv as [_ Hv]. congruence.
  - destruct Hv as [[e He] _]. rewrite He in Hgo |- *. cbn [mbind option_bind]. eexists _, _. split; [done|]. by apply Hgo.
Qed.

(** A call of a generator function: the generator can be used as [generator_correct] says. *)
Lemma gen_fun_call_ok {W} {R : Runtime W} {L : RuntimeLaws R} {C : CellLaws R} f p n_closed cs start n_locals cells shapes args kwargs (w : W) :
  code_ok f p n_closed cs start n_locals cells shapes -> (n_closed <= length args)%nat -> globals f <> MP_OBJ_NULL ->
  Forall (fun o => o <> MP_OBJ_NULL) args -> Forall (fun kv => kv.2 <> MP_OBJ_NULL) kwargs -> cells_there f p args kwargs cs cells ->
  exists r, gen_fun_call f args kwargs w = Some r
    /\ match r with
       | inl e => runtime_raises (W := W) e \/ ~ call_fits f p args kwargs
       | inr g => call_fits f p args kwargs /\ gen_ok n_locals (p_n_state p) cells shapes g /\ g_stopped g = false
       end.
Proof.
  intros [Hp Hf Hcs Hcode Hstart] Hcl Hg Ha Hk Hcells.
  destruct (setup_result f p args kwargs n_closed cs start w Hp Hf Hcs Hcl Ha Hk) as (r & E & Hr). unfold gen_fun_call. rewrite E. cbn [mbind option_bind].
  destruct r as [[] s|e s|]; [|by eexists|done]. destruct Hr as [Hs Hfit]. eexists. split; [done|]. split; [done|]. split; [|done].
  split; [done|]. right. split; [done|]. left.
  pose proof (set_up_saved f p args kwargs n_closed n_locals cells shapes cs start s (v_world s) Hs Hf (cells_listed_lt _ _ _ _ Hcs) Hcells Hstart).
  split; [by destruct Hs as (? & ? & ? & _ & _ & _ & _ & _ & _ & ?)|done].
Qed.
