(* ===== verification/VmWitness.v ===== *)
(** A small runtime, functions in byte code with their shapes, and what goes wrong at
    the edges. *)
From S2P Require Import Prelude Bytecode Vm VmSafe VmRun VmInv VmSound Generator FunCall FunCallWp FunCallSound.

(** ** A runtime whose world counts the calls *)

Definition toy_iternext (i : obj + list obj) : rres (option obj) * list obj :=
  match i with
  | inr [t; SmallInt k; c; d] => (RVal (if k <? 3 then Some (SmallInt k) else None), [t; SmallInt (k + 1); c; d])
  | inr b => (RVal None, b)
  | inl _ => (RVal None, [])
  end.

#[export] Instance toy : Runtime nat := {
  rt_call r w := (RVal (replicate (results r) (ObjRef 0)), S w);
  mp_obj_is_true o w := (RVal true, w);
  mp_obj_cell_get c w := ObjRef 1;
  mp_obj_cell_set c o w := w;
  mp_obj_new_cell o w := (RVal 0%nat, w);
  mp_const_empty_tuple := ObjRef 4;
  kw_default_lookup d k := None;
  mp_obj_get_type o := ObjRef 2;
  mp_getiter_buf o w := (RVal (inr [ObjRef 9; SmallInt 0; mp_const_none; mp_const_none]), w);
  mp_iternext_allow_raise i w := (toy_iternext i, w);
  mp_resume g v e w := (ResumeNormal None, w);
  mp_make_raise_obj o w := (5%nat, w);
  mp_obj_new_exception_msg k w := (6%nat, w);
  mp_obj_exception_get_value e w := mp_const_none;
  is_StopIteration e := (e =? 7)%nat;
  is_GeneratorExit o := bool_decide (o = ObjExc 8);
  mp_const_GeneratorExit_obj := 8%nat;
  mp_obj_exception_add_traceback e a b c w := w;
  mp_handle_pending w := (None, w);
  mp_globals_get w := ObjRef 3;
  mp_globals_set g w := w }.

#[export] Instance toy_laws : RuntimeLaws toy.
Proof.
  split; cbn.
  - intros r w l w' [= <- _]. by rewrite length_replicate.
  - by intros o w buf w' [= <- _].
  - intros [o|b] w r buf w' E; [done|]. destruct b as [|t [|[] [|c [|d [|]]]]]; cbn in E; by simplify_eq.
  - by intros k w e w' [= <- _].
  - done.
Qed.

(** ** Functions *)

Definition iter_slots : frame := replicate MP_OBJ_ITER_BUF_NSLOTS ISlot.

(** [def f(xs): for x in xs: try: return x; finally: g(x)] *)
Definition return_fun : mp_obj_fun_bc_t := MkFun
  [10; 1; 0; 1; 0; 0; 6; 5; 0; 6; 0; 0; 255;
   0xb0; 0x47; 0x43; 18; 0; 0xc1; 0x40; 3; 0; 0xb1; 0x5b; 0x11; 0x1c; 7; 0; 0xb1; 0x64; 1; 0x32; 0x41; 0x35; 0xeb; 0x7f; 0x11; 0x5b] [] [] (ObjRef 3).
Definition return_shapes : gmap nat frame := list_to_map
  [(13, []); (14, [ISlot]); (15, iter_slots); (18, ISlot :: iter_slots); (19, iter_slots); (22, IBlock BFinally 25 :: iter_slots);
   (23, ISlot :: IBlock BFinally 25 :: iter_slots); (25, IEcb 25 false :: iter_slots); (28, ISlot :: IEcb 25 false :: iter_slots);
   (29, ISlot :: ISlot :: IEcb 25 false :: iter_slots); (31, ISlot :: IEcb 25 false :: iter_slots); (32, IEcb 25 false :: iter_slots);
   (33, iter_slots); (36, []); (37, [ISlot])]%nat.
Definition return_state : mp_code_state_t nat := MkCode 13 (-1) [] (replicate 9 MP_OBJ_NULL ++ [ObjRef 3]) 13 (-1) None 0%nat.

(** [def f(xs): for x in xs: try: yield x; finally: g(x)] *)
Definition yield_fun : mp_obj_fun_bc_t := MkFun
  [10; 1; 1; 1; 0; 0; 6; 5; 0; 6; 0; 0; 255;
   0xb0; 0x47; 0x43; 19; 0; 0xc1; 0x40; 4; 0; 0xb1; 0x5d; 0x32; 0x11; 0x1c; 7; 0; 0xb1; 0x64; 1; 0x32; 0x41; 0x35; 0xea; 0x7f; 0x11; 0x5b] [] [] (ObjRef 3).
Definition yield_shapes : gmap nat frame := list_to_map
  [(13, []); (14, [ISlot]); (15, iter_slots); (18, ISlot :: iter_slots); (19, iter_slots); (22, IBlock BFinally 26 :: iter_slots);
   (23, ISlot :: IBlock BFinally 26 :: iter_slots); (24, ISlot :: IBlock BFinally 26 :: iter_slots); (25, IBlock BFinally 26 :: iter_slots);
   (26, IEcb 26 false :: iter_slots); (29, ISlot :: IEcb 26 false :: iter_slots); (30, ISlot :: ISlot :: IEcb 26 false :: iter_slots);
   (32, ISlot :: IEcb 26 false :: iter_slots); (33, IEcb 26 false :: iter_slots); (34, iter_slots); (37, []); (38, [ISlot])]%nat.

Lemma yield_checked : check_code yield_fun 2 10 [] yield_shapes = true.
Proof. by vm_compute. Qed.

Lemma start_saved code_ip shapes n_state : shapes !! code_ip = Some [] -> length (v_state return_state) = n_state ->
  vm_saved 2 n_state [] shapes (MkCode code_ip (-1) [] (v_state return_state) code_ip (-1) None 0%nat).
Proof. intros HF Hl. apply initial_saved; try done. split; [done|]. split; [|cbn [v_code_sp]; lia]. intros c Hc. by apply elem_of_nil in Hc. Qed.

Lemma vm_safe_witness : exists r, mp_execute_bytecode return_fun 40 return_state = Some r
  /\ match r with
     | VOk _ s' => within_bounds return_fun 2 10 s'
     | VRaise _ _ => False
     | VReturn k s' => returns_ok return_fun 2 10 [] return_shapes k s'
     end.
Proof. apply (vm_safe return_fun 2 10 [] return_shapes 40 return_state); [by vm_compute|by apply start_saved]. Defined.

(** The value is returned once the [finally] has run. *)
Example return_value : (fun r => match r with VReturn k s => (k, v_state s !! 4%nat, v_world s) | _ => (MP_VM_RETURN_EXCEPTION, None, 0%nat) end)
  <$> mp_execute_bytecode return_fun 40 return_state = Some (MP_VM_RETURN_NORMAL, Some (SmallInt 0), 2%nat).
Proof. by vm_compute. Qed.

(** [def f(m): with m as x: try: raise x; except: return x] *)
Definition with_fun : mp_obj_fun_bc_t := MkFun
  [7; 2; 0; 1; 0; 0; 6; 5; 0; 6; 0; 0; 255;
   0xb0; 0x3d; 18; 0; 0xc1; 0x3f; 6; 0; 0xb1; 0x5c; 1; 0x44; 7; 0; 0x32; 0xb1; 0x5b; 0x44; 1; 0; 0x41; 0x11; 0x3e; 0x41; 0x11; 0x5b] [] [] (ObjRef 3).
Definition with_block : frame := [IBlock BWith 35; ISlot; ISlot].
Definition with_shapes : gmap nat frame := list_to_map
  [(13, []); (14, [ISlot]); (17, ISlot :: with_block); (18, with_block); (21, IBlock BExcept 27 :: with_block);
   (22, ISlot :: IBlock BExcept 27 :: with_block); (27, IExc :: IActive 27 :: with_block); (28, IActive 27 :: with_block);
   (29, ISlot :: IActive 27 :: with_block); (34, with_block); (35, [IEcb 35 true; ISlot; ISlot]); (36, [IEcb 35 false]); (37, []); (38, [ISlot])]%nat.

Example with_checked : check_code with_fun 2 7 [] with_shapes = true /\ check_code with_fun 2 6 [] with_shapes = false.
Proof. by vm_compute. Qed.

Example with_value : (fun r => match r with VReturn k s => (k, v_state s !! 0%nat, v_exc s) | _ => (MP_VM_RETURN_EXCEPTION, None, []) end)
  <$> mp_execute_bytecode with_fun 40 (MkCode 13 (-1) [] (replicate 6 MP_OBJ_NULL ++ [ObjRef 3]) 13 (-1) None 0%nat)
  = Some (MP_VM_RETURN_NORMAL, Some (ObjRef 0), []).
Proof. by vm_compute. Qed.

(** ** Generators *)

Definition yield_gen : mp_obj_gen_instance_t nat :=
  gen_wrap_call yield_fun (MkCode 13 (-1) [] (replicate 9 MP_OBJ_NULL ++ [ObjRef 3]) 13 (-1) None 0%nat).

Lemma generator_correct_witness : exists r g', gen_call yield_fun 40 (OpThrow [ObjRef 0; ObjExc 5]) yield_gen = Some (r, g')
  /\ r = GenRaise (ObjExc 5) /\ exists e, ObjExc 5 = ObjExc e /\ is_StopIteration e = false.
Proof.
  assert (Hok : gen_ok 2 10 [] yield_shapes yield_gen).
  { split; [done|]. right. split; [done|]. left. split; [done|]. by apply start_saved. }
  assert (Hop : op_allowed (OpThrow [ObjRef 0; ObjExc 5])) by (split; vm_compute; lia).
  destruct (generator_correct yield_fun 2 10 [] yield_shapes yield_checked 40 _ _ Hok Hop) as (r & g' & E & _ & Hraise & _).
  exists r, g'. split; [exact E|]. assert (Hr : r = GenRaise (ObjExc 5)).
  { assert (Hv : fst <$> gen_call yield_fun 40 (OpThrow [ObjRef 0; ObjExc 5]) yield_gen = Some (GenRaise (ObjExc 5))) by (vm_compute; reflexivity).
    rewrite E in Hv. by injection Hv. }
  split; [exact Hr|]. apply (Hraise _ Hr).
Defined.

(** The results of some calls, one after the other. *)
Fixpoint gen_results (ops : list gen_op) (g : mp_obj_gen_instance_t nat) : option (list gen_result) :=
  match ops with [] => Some [] | op :: ops => '(r, g) ← gen_call yield_fun 60 op g; l ← gen_results ops g; Some (r :: l) end.

Example generator_run : gen_results [OpSend (SmallInt 4); OpNext; OpSend (SmallInt 4); OpPendThrow mp_const_none; OpNext; OpNext; OpNext] yield_gen
  = Some [GenTypeError; GenVal (SmallInt 0); GenVal (SmallInt 1); GenVal mp_const_none; GenVal (SmallInt 2); GenVal MP_OBJ_STOP_ITERATION;
      GenVal MP_OBJ_STOP_ITERATION].
Proof. by vm_compute. Qed.

Example generator_thrown : gen_results [OpNext; OpThrow [ObjRef 0; ObjExc 5]; OpSend (SmallInt 1)] yield_gen
  = Some [GenVal (SmallInt 0); GenRaise (ObjExc 5); GenStopIteration None].
Proof. by vm_compute. Qed.

(** ** At the edges *)

(** A call of a generator from its own [finally] is refused, but only after the value
    sent was stored in a slot that is in use: here it replaces the [None] that the end
    of the [finally] looks at, which then jumps to what the iterator has in its slots. *)
Definition running_generator : option (mp_obj_gen_instance_t nat) :=
  '(_, g) ← gen_call yield_fun 60 OpNext yield_gen;
  '(r, g) ← mp_obj_gen_resume yield_fun 5 mp_const_none None g;
  match r with GRunning => Some g | _ => None end.

Lemma generator_reentered :
  (g ← running_generator; (fun r => match r with VReturn k _ => Some k | _ => None end) <$> vm_run yield_fun 30 (g_code g)) = Some (Some MP_VM_RETURN_YIELD)
  /\ (g ← running_generator; '(r, g) ← gen_call yield_fun 30 (OpSend (SmallInt 0)) g; Some (r, vm_run yield_fun 30 (g_code g))) = Some (GenValueError, None).
Proof. by vm_compute. Qed.

(** [def f(xs): for x in xs: try: return x; finally: break].  The jump leaves the block of
    the [finally], which the return has left before. *)
Definition break_fun : mp_obj_fun_bc_t := MkFun
  [10; 1; 0; 1; 0; 0; 6; 5; 0; 6; 0; 0; 255;
   0xb0; 0x47; 0x43; 15; 0; 0xc1; 0x40; 3; 0; 0xb1; 0x5b; 0x11; 0x46; 5; 0x80; 0x81; 0x41; 0x35; 0xee; 0x7f; 0x11; 0x5b] [] [] (ObjRef 3).

Lemma break_in_finally_after_return : mp_execute_bytecode break_fun 20 return_state = None.
Proof. by vm_compute. Qed.

(** [def f(a): try: return a; finally: h(1, a, 2)].  The compiler takes the stack of the [finally]
    to begin with one slot, after a return it has two: the deepest push, of 2, is the variable. *)
Definition deep_fun : mp_obj_fun_bc_t := MkFun
  [6; 1; 0; 1; 0; 0; 6; 5; 0; 6; 0; 0; 255;
   0x40; 3; 0; 0xb0; 0x5b; 0x11; 0x1c; 7; 0; 0x81; 0xb0; 0x82; 0x64; 3; 0x32; 0x41; 0x11; 0x5b] [] [] (ObjRef 3).
Definition deep_shapes : gmap nat frame := list_to_map
  [(13, []); (16, [IBlock BFinally 19]); (17, [ISlot; IBlock BFinally 19]); (18, [IBlock BFinally 19]); (19, [IEcb 19 false]);
   (22, [ISlot; IEcb 19 false]); (23, [ISlot; ISlot; IEcb 19 false]); (24, [ISlot; ISlot; ISlot; IEcb 19 false]);
   (25, [ISlot; ISlot; ISlot; ISlot; IEcb 19 false]); (27, [ISlot; IEcb 19 false]); (28, [IEcb 19 false]); (29, []); (30, [ISlot])]%nat.

Lemma finally_stack_too_small :
  (fun r => match r with VReturn _ s => v_state s !! 5%nat | _ => None end)
    <$> mp_execute_bytecode deep_fun 20 (MkCode 13 (-1) [] (replicate 5 MP_OBJ_NULL ++ [ObjRef 3]) 13 (-1) None 0%nat) = Some (Some (SmallInt 2))
  /\ check_code deep_fun 1 6 [] deep_shapes = false /\ check_code deep_fun 1 7 [] deep_shapes = true.
Proof. by vm_compute. Qed.

(** ** Calls *)

(** A world of cells, and of what was stored in dictionaries. *)
Definition cells_world : Type := list obj * list (obj * obj).

#[export] Instance call_toy : Runtime cells_world := {
  rt_call r w := (RVal (replicate (results r) (ObjRef 7)), match r with mp_obj_dict_store _ k v => (w.1, w.2 ++ [(k, v)]) | _ => w end);
  mp_obj_is_true o w := (RVal true, w);
  mp_obj_cell_get c w := default MP_OBJ_NULL (w.1 !! c);
  mp_obj_cell_set c o w := (<[c := o]> w.1, w.2);
  mp_obj_new_cell o w := (RVal (length w.1), (w.1 ++ [o], w.2));
  mp_const_empty_tuple := ObjRef 4;
  kw_default_lookup d k := if decide (d = ObjRef 50 /\ k = ObjQstr 5) then Some (SmallInt 20) else None;
  mp_obj_get_type o := ObjRef 2;
  mp_getiter_buf o w := (RVal (inl o), w);
  mp_iternext_allow_raise i w := (RVal None, match i with inl _ => [] | inr b => b end, w);
  mp_resume g v e w := (ResumeNormal None, w);
  mp_make_raise_obj o w := (5%nat, w);
  mp_obj_new_exception_msg k w := (match k with fun_pos_args_mismatch _ _ => 11 | multiple_values _ => 12 | unexpected_keyword _ => 13
    | missing_positional _ => 14 | missing_keyword _ => 15 | missing_keyword_only => 16 | _ => 6 end%nat, w);
  mp_obj_exception_get_value e w := mp_const_none;
  is_StopIteration e := (e =? 7)%nat;
  is_GeneratorExit o := bool_decide (o = ObjExc 8);
  mp_const_GeneratorExit_obj := 8%nat;
  mp_obj_exception_add_traceback e a b c w := w;
  mp_handle_pending w := (None, w);
  mp_globals_get w := ObjRef 3;
  mp_globals_set g w := w }.

#[export] Instance call_toy_laws : RuntimeLaws call_toy.
Proof.
  split; cbn.
  - intros r w l w' [= <- _]. by rewrite length_replicate.
  - by intros o w buf w' [=].
  - by intros [o|b] w r buf w' [= _ <- _].
  - intros k w e w' [= <- _]. by destruct k.
  - done.
Qed.

#[export, refine] Instance call_toy_cells : CellLaws call_toy := { cell_live c w := (c < length w.1)%nat }.
Proof.
  - intros o w c w' [= <- <-]. cbn. rewrite length_app. split; [lia|]. split; [cbn; lia|]. by rewrite list_lookup_middle.
  - intros o w c w' d [= <- <-] Hd. cbn. rewrite length_app. split; [lia|]. by rewrite lookup_app_l.
Defined.

(** [def f(a, b=10, *c, d, e=20, **k): g = lambda: d; return d] as far as the return. *)
Definition call_fun : mp_obj_fun_bc_t := MkFun
  [7; 0; 11; 2; 2; 1; 6; 5; 0; 6; 0; 0; 2; 255; 0x1a; 2; 0x5b] [ObjQstr 1; ObjQstr 2; ObjQstr 4; ObjQstr 5] [SmallInt 10; ObjRef 50] (ObjRef 3).
Definition call_prelude : prelude := MkPrelude 7 11 2 2 1 6.
Definition call_shapes : gmap nat frame := list_to_map [(14, []); (16, [ISlot])]%nat.

Lemma call_code : code_ok call_fun call_prelude 0 [2%nat] 14 6 [2%nat] call_shapes.
Proof.
  split; [by vm_compute| | |by vm_compute|by vm_compute].
  - split; try (apply (bool_decide_unpack _); by vm_compute). intros i j k Hi Hj. left.
    eapply list.NoDup_lookup; [|exact Hi|exact Hj]. apply (bool_decide_unpack _). by vm_compute.
  - exists 6, [0x1a; 2; 0x5b]. split; [by vm_compute|]. split; [by vm_compute|]. split; [done|].
    split; [apply list.NoDup_singleton|]. constructor; [cbn; lia|constructor].
Qed.

(** The calls [f(1, d=3, x=4)], [f(1, 2, 3, d=4)], [f(1, a=2, d=3)], [f(d=3)] and [f(1)]. *)
Definition call_of (args : list Z) (kwargs : list (Z * Z)) : option (call_result * cells_world) :=
  fun_bc_call call_fun 10 (map SmallInt args) (map (fun kv => (ObjQstr kv.1, SmallInt kv.2)) kwargs) ([], []).
Example calls :
  call_of [1] [(4, 3); (9, 4)] = Some (CallVal (SmallInt 3), ([SmallInt 3], [(ObjQstr 9, SmallInt 4)]))
  /\ call_of [1; 2; 3] [(4, 4)] = Some (CallVal (SmallInt 4), ([SmallInt 4], []))
  /\ call_of [1] [(1, 2); (4, 3)] = Some (CallRaise 12, ([], []))
  /\ call_of [] [(4, 3)] = Some (CallRaise 14, ([], []))
  /\ call_of [1] [] = Some (CallRaise 15, ([], [])).
Proof. by vm_compute. Qed.

(** [def f(x): def g( **k): return x], where [x] is passed to [g] as a first argument of the
    name [*], here [ObjQstr 3]: the keyword of [g( **{'*': 1})] is taken for it, while
    [g( **{'+': 1})] puts the keyword in the dictionary. *)
Definition star_fun : mp_obj_fun_bc_t := MkFun
  [3; 0; 2; 1; 0; 0; 6; 5; 0; 6; 0; 0; 255; 0x1a; 0; 0x5b] [ObjQstr 3] [] (ObjRef 3).
Lemma star_keyword_refused :
  fun_bc_call star_fun 10 [ObjCell 0] [(ObjQstr 3, SmallInt 1)] ([SmallInt 5], []) = Some (CallRaise 12, ([SmallInt 5], []))
  /\ fun_bc_call star_fun 10 [ObjCell 0] [(ObjQstr 9, SmallInt 1)] ([SmallInt 5], [])
     = Some (CallVal (SmallInt 5), ([SmallInt 5], [(ObjQstr 9, SmallInt 1)])).
Proof. by vm_compute. Qed.

Lemma fun_bc_call_correct_witness : let args := [SmallInt 1] in let kwargs := [(ObjQstr 4, SmallInt 3); (ObjQstr 9, SmallInt 4)] in
  exists r w', fun_bc_call call_fun 10 args kwargs ([], []) = Some (r, w')
    /\ ((exists e, r = CallRaise e /\ (runtime_raises (R := call_toy) e \/ ~ call_fits call_fun call_prelude args kwargs))
        \/ call_fits call_fun call_prelude args kwargs /\ exists s, set_up call_fun call_prelude args kwargs [2%nat] 14 s
             /\ call_returns call_fun call_prelude 6 10 s r).
Proof.
  apply (fun_bc_call_correct call_fun call_prelude 0 [2%nat] 14 6 [2%nat] call_shapes [SmallInt 1] [(ObjQstr 4, SmallInt 3); (ObjQstr 9, SmallInt 4)] 10 ([], [])).
  - exact call_code.
  - cbn; lia.
  - by vm_compute.
  - by repeat constructor.
  - by repeat constructor.
  - constructor; [left; by left|constructor].
Defined.
